(* ===== verification/_CoqProject ===== *)
-Q . S2P
Prelude.v
GoStrings.v
GoRunes.v
GoSort.v
GoTime.v
GoCalendar.v
GoURL.v
GoNet.v
NetText.v
Regexp.v
DebianVersion.v
SemverVersion.v
Pep440Version.v
GemVersion.v
Types.v
BuilderSemver.v
MavenLayout.v
RpmKeys.v
OciKeys.v
Composer.v
Keys.v
KeysRoundtrip.v
MirrorKeys.v
BinaryLinks.v
RpmVersion.v
MavenVersion.v
OsvRange.v
Scope.v
ClientIP.v
RouteScope.v
TokenGate.v
Identity.v
AccessLists.v
EditDistance.v
AllowList.v
AllowListCache.v
Override.v
OverrideProgress.v
AdmitOverride.v
Age.v
OsvLookup.v
OsvGate.v
OsvStamp.v
IndexFilter.v
Similarity.v
Gate.v
Admissions.v
Origin.v
Rollout.v
Store.v
GoPath.v
ObjectStore.v
Placement.v
StorageConfig.v
Admit.v
Baseline.v
Revet.v
BinaryRoute.v
Entitle.v
Closure.v
ProfileStore.v
InventoryStore.v
InventoryFrame.v
Reconcile.v
HostReport.v
Queue.v
PolicyRows.v
AdmitQueue.v
