(* ===== verification/Prelude.v ===== *)
(** * bodega: verification of the decision logic

    bodega is a package mirror that decides, for every version of every
    package it is asked for, whether that version may enter the store or reach
    a host.  This development models the parts of it that decide, and proves
    what their callers rely on.  Everything is a shallow embedding: one Rocq
    function per Go function, with the same branches in the same order, the
    same strings where a string is compared, and 64-bit integers with their
    bounds where the code parses or multiplies them.

    ** How the parts interact

    A version reaches the gate (internal/admit).  The gate runs its checkers
    on it; the OSV checker asks the matcher (internal/policy/osvmatch.go)
    whether an advisory's ranges contain the version, and the matcher compares
    versions under one of six orders.  A check that refuses is let through only
    by an override two people voted for (internal/audit/override.go, reached
    through internal/admit/override.go) or by the version's baseline mark
    (internal/admit/baseline.go), and never when the verdict says the version
    is hostile.  What a host may then fetch is decided by its profile
    (internal/entitle).  Who may vote is decided by a token's scopes
    (internal/audit/scope.go).  What is admitted is recorded in the manifest
    store (internal/manifest/store.go), and an upload asks the placer
    (internal/placement) which backend a version goes to, which records its
    answer in the store before any byte moves.  Where the bytes live in a
    backend is the business of the object keys (internal/manifest/keys.go and
    its siblings), and which stores there are that of the configuration
    (internal/storage, internal/config); every other part takes a key apart with [ParseKey].  The
    manifest records all of these read are in internal/manifest/types.go.

    The checkers the gate runs are modelled one by one: the allow-list
    (internal/policy/policy.go), the age gate (age.go), the name-similarity gate
    (similarity.go) and the OSV gate (osv.go, osvapt.go, osvrescan.go), which
    also restamps what was admitted when new advisories are published.  The index
    filter (indexfilter.go) asks the age and OSV gates what to leave out of a
    listing, and report mode (rollout.go) turns the gates of an ecosystem to
    warnings and back.

    In front of all of it stands the HTTP server's middleware
    (internal/server/middleware.go): the address a request comes from, the deny
    list, the scopes its path needs, and the token it presents.  The networks it
    trusts and permits are the access lists (audit/acl.go, server/acl.go and the
    acl command), and the name a host or a person goes by is resolved from the
    identity bindings (audit/identity.go, server/identity.go).  What a version
    pin holds still is a walk of the store's dependency graph (pins/closure.go).

    A request that is refused leaves a row in the refusal queue (audit/queue.go),
    which a person dismisses or approves (internal/admit/queue.go).  An approval
    writes what would have admitted the request: an allow-list rule
    (audit/policy.go), an entry in the profiles that refused it
    (audit/profile.go), or a request for an override, which others must vote for.

    ** The files

    - [Prelude]: notations, tactics, the [Comparator] class every version
      order discharges, and [VersionScheme], the contract between an order and
      the matcher, with the preorder it implies.
    - [GoStrings], [GoSort], [Regexp]: the parts of Go's strings, strconv,
      path, sort and regexp packages the source calls, as executable
      definitions with their lemmas.  Regular expressions are matched with
      Go's leftmost-first priority and captures; [Regexp] ties the matcher to
      the language of the pattern.
    - [DebianVersion], [SemverVersion], [Pep440Version], [GemVersion],
      [RpmVersion], [MavenVersion]: the six orders of osvmatch.go, each parser
      and each comparison loop.  The four that are total preorders implement
      [VersionScheme]; rpm is one between versions that name a release, and
      Maven's comparison is antisymmetric and not transitive.  The character
      loops of dpkg and rpm are proved equal to comparisons of keys.
    - [OsvRange]: events, ranges, affected entries, the trimming of enumerated
      versions, and where rpm advisories are filed (osvmatch.go, osvdb.go).
      The range theorem says which versions a list of events covers, for any
      sort of the events.
    - [Types]: the manifest records and their rules, and the redaction of the
      URLs that are published (types.go).
    - [GoRunes], [GoTime], [GoURL]: runes and UTF-8, 64-bit durations and the
      saturating difference of times, and the path escaping of net/url.
    - [MavenLayout], [RpmKeys], [OciKeys], [Composer], [Keys]: the object keys,
      a file per ecosystem with a layout of its own, and the constructors and
      [ParseKey] over them (keys.go, maven.go, rpm.go, oci.go).
      [KeysRoundtrip] proves that keys parse back, [MirrorKeys] that the mirrored
      trees stay under their prefixes.
    - [BinaryLinks], [BinaryRoute]: the download links of binaries, with their
      keyed tags, and the route that resolves them (keys.go, server/binary.go).
    - [AllowList]: rules, modes, the check with its cache, and suggested
      patterns.  [AllowListCache] runs the cache's critical sections interleaved
      with the writers of the database, as a step relation, and proves how stale
      an answer can be.
    - [EditDistance], [Similarity]: the Damerau-Levenshtein program and its
      specification by edit scripts; the popular-name lists and the gate.
    - [Age]: the dates of every ecosystem and the age gate (age.go).
    - [OsvLookup], [OsvGate], [OsvStamp]: what is asked for a version, the local
      match and the API fallback, the verdict, the stamp and the rescan.
    - [IndexFilter], [Rollout]: the index filter, and report mode with its report.
    - [GoNet], [NetText]: net and net/netip, the addresses and networks as
      numbers with their texts, and the proof that a printed one parses back.
    - [ClientIP], [RouteScope], [TokenGate]: the middleware.  The client address
      and the networks it is compared with; the scopes a path needs; and the
      whole answer of the gate, read and mutation, with its token cache.
    - [AccessLists]: the admin, deny and proxies lists, in the config file and in
      the database, what a start copies, what a server has in force, and the
      commands that change them.
    - [Identity]: bindings of tokens and networks to names, and who a request is.
    - [Closure]: the packages a pin holds still and its conflicts with a profile.
    - [GoCalendar]: Go's civil dates: the day of a date and the date of a day, the
      text of both, and that the order of the texts is the order of the times.
    - [ProfileStore]: the profile tables as maps, their writers and readers, and
      the invariant of what they hold (audit/profile.go).
    - [Queue]: the refusal queue's tables, as a refinement of a map from what was
      refused to how often, to whom and how it was resolved (audit/queue.go).
    - [PolicyRows], [AdmitQueue]: the allow-list rules as rows, and the approval of
      a queued refusal over all of the tables (audit/policy.go, admit/queue.go).
    - [Scope]: parsing and printing of token scopes (scope.go).
    - [Override]: the override table as a map, its operations, and the life of
      an override as a step relation whose invariants say that an approved
      override has its quorum (audit/override.go).
      [OverrideProgress] proves that the approvals it still needs approve it.
    - [AdmitOverride]: requests, the overrides that apply to a check, and the
      blocks no override waives (admit/override.go, config.ParseTTL).
    - [Gate]: the evaluation of an admission, its rows, the decision of an
      import and of a fetch, and baseline marks (admit/record.go, admit.go,
      baseline.go, policy/checks.go).
    - [Origin]: the hosts a version was cataloged from, and the merge of an import
      into the stored manifest (admit/origin.go).
    - [Admit]: the validation of a manifest, the allow-list over its versions, the
      decision of an import with its rows and warnings, and the preview of one
      (admit/admit.go, record.go).
    - [Baseline]: baseline marks cleared over the store, and the publish times an
      import records (admit/baseline.go, admit.go).
    - [Admissions]: the admissions table: decisions recorded, objects pinned to the
      decision they were fetched under, and what is read back (audit/admission.go).
    - [Revet]: the gate run again over what was admitted: the targets, the verdict,
      the rows and the hide, one version at a time and as a sweep (admit/revet.go).
    - [InventoryStore]: the inventory tables: mappings, chained reports, attempts,
      polls, classifications and baselines (audit/inventory.go,
      inventory_reconcile.go).
    - [InventoryFrame]: what a source declares, how instances are configured, push
      routes, ingest, polls and retention (inventory/source.go, frame.go).
    - [Reconcile]: the class of each component a host reports, the disagreements
      between its sources, what is recorded and what a baseline accepts
      (inventory/reconcile/reconcile.go, baseline.go); it is the frame's hook.
    - [HostReport]: a host's current state and its alert
      (inventory/reconcile/host.go).
    - [Store]: the manifest store over a backend whose answers are arguments:
      cache, index, packages, versions and the dependency graph
      (manifest/store.go, graph.go, integrity.go).  The cache holds the objects
      the callers change, so a change made before a save that fails is kept.
    - [GoPath]: path.Join, and clean rooted paths as lists of names.
    - [ObjectStore]: the interface of the storage backends with its contract
      [FlatStore], that a backend answers as a map does; the memory backend, a
      backend under a prefix, which meets the contract when the one beneath does,
      and the path of a key on the local one (storage/storage.go, memory.go,
      local.go).
    - [StorageConfig]: the validation of the storage configuration and the
      resolver and s3 targets it leads to (config/config.go, storage/s3target.go).
    - [Placement]: the resolver and its hierarchy, the choice of a backend for
      a version and its record, and the drift report (storage/resolver.go,
      placement/placement.go, drift.go).
    - [BuilderSemver], [Entitle]: constraint matching (builder/semver.go) and
      the profile predicate (entitle/entitle.go, audit/profile.go).

    ** What the theorems show

    - Profiles: exactly which fetches a profile permits, what each refusal
      means, that a request with no version is held to every rule, that a
      filtered apt index always filters, and that a catalog keyed by a
      profile's fingerprint follows the profile.
    - The gate: a fetch is admitted exactly when nothing stands against it, before
      and after what its checkers write at commit, a hostile verdict is never waived, a row names every check once, and a
      write cannot mark a version baseline.
    - Imports: what admits a manifest and what refuses it, that what a
      preview refuses is refused and what it passes is admitted unless a write at
      commit refuses it, that every version has its row, that a merge loses no
      entry and repeats to nothing, and that clearing marks clears them all; two
      examples show what a refused save and a missing manifest do to a clearing.
    - Re-vetting: what a re-vet refuses, that nothing served escapes it, that it
      changes the stored manifests only by hiding a version nobody froze, and that the
      next one reads its decision; a pin binds an object to a decision and makes
      none.  Examples show the second architecture of an apt version that is never
      judged, and what a read error or a frozen sibling does.
    - Inventory: the reports of a host are chained whatever is appended or pruned,
      an unpruned chain is what its last digest says, the only requests that pass
      as pushes are those for the routes of enabled push instances, and a stored
      row has the identity the mapping gives its host.
    - Reconciliation: what each recorded class rests on, that a version is reported
      refused exactly when the newest decision refuses it as the host spells it or
      the catalog hides it, what two sources disagree about, and when a host alerts;
      examples show the apt versions whose refusal is missed.
    - Overrides: an approved override has a quorum of distinct people the
      requester did not create, its state is what its votes decide, a
      rejection is final, a request is recorded only within the cap, and the
      override that applies is the one listed first.
    - Store and placement: while operations succeed the cache is the backend,
      a saved package is read back, and an upload goes where the stored
      manifest says; two theorems say what happens when a save is refused,
      where the code changes the cached object first.
    - Backends: a prefix is a store of its own whatever is done through others,
      a local key stays under its root, and a configuration that is accepted
      leaves no placement without a backend.
    - Keys: every key of a version a layout can spell parses to that version alone,
      mirrored paths stay under their prefixes, a Maven path means exactly what
      its layout says, and a download link leads to the object it was made for.
    - The checkers: what each one refuses, stated on its inputs; how old an
      answer of the allow-list can be under any interleaving; that the nearest
      popular name and the edit distance are what their names say; that a
      recorded malware version is refused, that a pass of the OSV gate means
      what it should, that only conclusive answers are dated and that a rescan
      settles; that the index leaves out what the gates refuse; and that enforce
      puts back what report mode saved.
    - Versions and ranges: the orders are orders, the range walk covers the
      versions its bounds describe, and trimming loses no match for the orders
      where that holds, with the counterexample where it does not.
    - The server: what a mutation that is served has shown, that no route needs
      less than its type's scope, that the routes of tokens are guarded however
      they are spelt, whom a request is attributed to, that the deny list refuses
      what it names, and how old a cached token can be,
      when the table can be read and when it cannot.
    - Access lists and identities: what adding and removing an entry changes in
      force, that a start changes nothing, that a request has one name whatever
      the order of the rows, and that forged headers name nobody.
    - The queue: its rows are the refusals there were, a listing is in the order
      of time, a row is resolved once; an approval writes only what its row calls
      for and, where the row was refused by a profile or the allow-list, admits
      what was refused.
    - Profile tables: their rows are valid however the statements of concurrent calls
      interleave, and of a profile that is there unless a write came late, as an
      example shows one can; a document stored is read back, and a deleted profile
      leaves nothing.
    - Pins: the walk ends, and its members are what the graph reaches.
    - Texts: scopes read back as printed, published URLs carry no credential,
      accepted names are single path segments.

    ** Bounds and parameters

    Loops that are not structural take fuel that their own input bounds: a
    trim loop the length of the text, a star of a pattern the text left, since
    every turn removes a byte.  The loop that takes .. out of an alias needs one
    turn, which is proved.  No theorem has a fuel hypothesis.  [SliceStable]
    is the insertion sort Go runs on short slices; a stable sort has one
    answer, and the range theorem holds for every sort.  Upper and lower case
    are the ASCII ones, so a text is compared as Go compares it when it is
    ASCII.  [time.ParseDuration], the syntax check of [path.Match], the rendering of a
    time, what a backend answers to a read or a write, the order in which
    SQL returns rows or a map is ranged over, SHA-256, HMAC, the parsing of URLs
    and times, the decoding of JSON, what an upstream answers to a request, the
    folding of letters outside ASCII, and what a checker answers to the gate are
    parameters; a theorem that needs something of one states it as
    a hypothesis, and its witness instantiates the parameter.

    A call is one step where the code holds it in one transaction, under one lock, or
    where no claim rests on what comes between its statements.  Where one does, the
    statements are apart: the writers and the reader of a profile take the tables
    each statement ran on, an approval takes what others did to the queue before it
    resolves the row, a re-vet what others saved before it hides, adding a binding
    the rows it checked, and the caches of rules and of tokens are runs of loads,
    writes and invalidations.

    ** What is not modelled

    The HTTP server beyond its middleware and the binary route, the command line and the terminal
    interface, the file system and S3, the rest of the database, the syncing of the advisory
    database, the builders, signing, provenance verification and the readers of
    third-party formats: they move bytes around the decisions above, through
    libraries that are not part of the repository.  Left out of what is modelled: the
    checksum-database row, the directory upload, the renaming of misnamed manifests, and the
    readers and renderers that are pure functions of their text. *)

From stdpp Require Import base list strings gmap sorting.
From Stdlib Require Import ZArith Lia Ascii.

#[global] Open Scope Z_scope.
#[export] Set Warnings "-register-all,-clear-no-such-hyp".


(** * Automation shared by every component *)

Create HintDb bodega.

(** Case analysis on whatever the goal (or a hypothesis) is stuck on. *)
Ltac break_goal :=
  match goal with
  | |- context [match ?x with _ => _ end] =>
      lazymatch x with
      | context [match _ with _ => _ end] => fail
      | _ => destruct x eqn:?
      end
  end.

Ltac break_hyp H :=
  match type of H with
  | context [match ?x with _ => _ end] =>
      lazymatch x with
      | context [match _ with _ => _ end] => fail
      | _ => destruct x eqn:?
      end
  end.

(** Turn boolean comparisons on [Z], [nat] and strings into propositions. *)
Ltac to_prop :=
  repeat match goal with
  | H : (_ && _) = true |- _ => apply andb_true_iff in H as [? ?]
  | H : (_ || _) = false |- _ => apply orb_false_iff in H as [? ?]
  | H : (_ =? _) = true |- _ => apply Z.eqb_eq in H
  | H : (_ =? _) = false |- _ => apply Z.eqb_neq in H
  | H : (_ <? _) = true |- _ => apply Z.ltb_lt in H
  | H : (_ <? _) = false |- _ => apply Z.ltb_ge in H
  | H : (_ <=? _) = true |- _ => apply Z.leb_le in H
  | H : (_ <=? _) = false |- _ => apply Z.leb_gt in H
  | H : (_ =? _)%string = true |- _ => apply String.eqb_eq in H
  | H : (_ =? _)%string = false |- _ => apply String.eqb_neq in H
  | H : negb _ = true |- _ => apply negb_true_iff in H
  | H : negb _ = false |- _ => apply negb_false_iff in H
  end.

(** An equation between closed texts or numbers that computes to two different
    values. *)
Ltac computes_false := let H := fresh in intros H; vm_compute in H; discriminate H.

#[global] Arguments String.eqb : simpl never.
#[global] Arguments Ascii.eqb : simpl never.

(** * Options *)

Definition isSome {A} (o : option A) : bool := match o with Some _ => true | None => false end.

Lemma filter_nil_iff {A} (p : A -> bool) l : List.filter p l = [] <-> forall x, x ∈ l -> p x = false.
Proof.
  induction l as [|x l IH]; cbn [List.filter]; [split; [intros _ y Hy; by apply elem_of_nil in Hy|done]|].
  setoid_rewrite elem_of_cons. destruct (p x) eqn:E; [|naive_solver].
  split; [done|]. intros H. rewrite H in E by auto. done.
Qed.

Lemma filter_elem {A} (p : A -> bool) (l : list A) x : x ∈ List.filter p l <-> x ∈ l /\ p x = true.
Proof. rewrite !list_elem_of_In. apply filter_In. Qed.

Lemma filter_NoDup {A} (p : A -> bool) (l : list A) : NoDup l -> NoDup (List.filter p l).
Proof.
  induction 1 as [|x l Hx _ IH]; [constructor|]. cbn [List.filter]. destruct (p x); [|done]. constructor; [|done].
  by intros [? _]%filter_elem.
Qed.

Lemma existsb_perm {A} (p : A -> bool) l l' : l ≡ₚ l' -> existsb p l = existsb p l'.
Proof.
  induction 1 as [|x l l' _ IH|x y l|l l' l'' _ IH1 _ IH2]; simpl; [done|by rewrite IH| |congruence].
  rewrite !orb_assoc. by rewrite (orb_comm (p y)).
Qed.

Lemma isSome_spec {A} (o : option A) : isSome o = true <-> is_Some o.
Proof. destruct o; simpl; split; intros H; try done; by destruct H. Qed.

(** * Three-way comparators

    Every version order of the program answers -1, 0 or 1, as Go's own
    [strings.Compare] does.  [Comparator] is what such a function has to
    satisfy to be a total preorder: it is the interface the range matcher is
    proved against, and each version scheme discharges it. *)

Class Comparator {A} (cmp : A -> A -> Z) : Prop := {
  cmp_anti : forall a b, cmp b a = - cmp a b;
  cmp_trans : forall a b c, cmp a b <= 0 -> cmp b c <= 0 -> cmp a c <= 0
}.

Arguments cmp_anti {A} cmp {_} a b.
Arguments cmp_trans {A} cmp {_} a b c _ _.

#[global] Hint Mode Comparator ! ! : typeclass_instances.

Section comparator_facts.
Context {A : Type} (cmp : A -> A -> Z) `{!Comparator cmp}.

Lemma cmp_refl a : cmp a a = 0.
Proof. pose proof (cmp_anti cmp a a). lia. Qed.

Lemma cmp_total a b : cmp a b <= 0 \/ cmp b a <= 0.
Proof. rewrite (cmp_anti cmp a b). lia. Qed.

Lemma cmp_trans_lt_l a b c : cmp a b < 0 -> cmp b c <= 0 -> cmp a c < 0.
Proof.
  intros Hab Hbc. destruct (Z_lt_le_dec (cmp a c) 0) as [|Hca]; [done|].
  pose proof (cmp_anti cmp a c). pose proof (cmp_anti cmp a b).
  pose proof (cmp_trans cmp b c a Hbc ltac:(lia)). lia.
Qed.

Lemma cmp_trans_lt_r a b c : cmp a b <= 0 -> cmp b c < 0 -> cmp a c < 0.
Proof.
  intros Hab Hbc. destruct (Z_lt_le_dec (cmp a c) 0) as [|Hca]; [done|].
  pose proof (cmp_anti cmp a c). pose proof (cmp_anti cmp b c).
  pose proof (cmp_trans cmp c a b ltac:(lia) Hab). lia.
Qed.

Lemma cmp_trans_eq a b c : cmp a b = 0 -> cmp b c = 0 -> cmp a c = 0.
Proof.
  intros Hab Hbc. pose proof (cmp_anti cmp a b). pose proof (cmp_anti cmp b c).
  pose proof (cmp_anti cmp a c).
  pose proof (cmp_trans cmp a b c ltac:(lia) ltac:(lia)).
  pose proof (cmp_trans cmp c b a ltac:(lia) ltac:(lia)). lia.
Qed.

Lemma cmp_trans_ge a b c : 0 <= cmp a b -> 0 <= cmp b c -> 0 <= cmp a c.
Proof.
  intros. pose proof (cmp_anti cmp a b). pose proof (cmp_anti cmp b c).
  pose proof (cmp_anti cmp a c).
  pose proof (cmp_trans cmp c b a ltac:(lia) ltac:(lia)). lia.
Qed.
End comparator_facts.

(** The sign of a comparison is always one of Go's three answers. *)
Definition sign_ok (z : Z) : Prop := z = -1 \/ z = 0 \/ z = 1.

Class SignedComparator {A} (cmp : A -> A -> Z) : Prop :=
  cmp_sign : forall a b, sign_ok (cmp a b).

Arguments cmp_sign {A} cmp {_} a b.

(** ** Comparator combinators *)

(** [if c := x; c != 0 { return c }; return y] *)
Definition then_cmp (x y : Z) : Z := if x =? 0 then y else x.

Lemma then_cmp_0 y : then_cmp 0 y = y.
Proof. done. Qed.

Lemma then_cmp_ne x y : x <> 0 -> then_cmp x y = x.
Proof. unfold then_cmp. intros. destruct (Z.eqb_spec x 0); done. Qed.

Lemma then_cmp_opp x y : then_cmp (- x) (- y) = - then_cmp x y.
Proof. unfold then_cmp. destruct (Z.eqb_spec x 0), (Z.eqb_spec (- x) 0); lia. Qed.

Lemma then_cmp_assoc x y z : then_cmp (then_cmp x y) z = then_cmp x (then_cmp y z).
Proof.
  unfold then_cmp. destruct (Z.eqb_spec x 0) as [|Hx]; [done|].
  by rewrite (proj2 (Z.eqb_neq x 0) Hx).
Qed.

Lemma then_cmp_zero x y : then_cmp x y = 0 <-> x = 0 /\ y = 0.
Proof. unfold then_cmp. destruct (Z.eqb_spec x 0); intuition lia. Qed.

Lemma then_cmp_sign x y : sign_ok x -> sign_ok y -> sign_ok (then_cmp x y).
Proof. unfold then_cmp, sign_ok. intros. destruct (Z.eqb_spec x 0); lia. Qed.

#[export] Hint Resolve then_cmp_sign : bodega.

(** The transitivity step of every lexicographic order. *)
Lemma then_cmp_trans {A} (cmp : A -> A -> Z) `{!Comparator cmp} a b c u v w :
  (u <= 0 -> v <= 0 -> w <= 0) ->
  then_cmp (cmp a b) u <= 0 -> then_cmp (cmp b c) v <= 0 ->
  then_cmp (cmp a c) w <= 0.
Proof.
  intros Hw. unfold then_cmp.
  destruct (Z.eqb_spec (cmp a b) 0) as [Hab|], (Z.eqb_spec (cmp b c) 0) as [Hbc|]; intros.
  - rewrite (cmp_trans_eq cmp a b c); auto.
  - pose proof (cmp_trans_lt_r cmp a b c ltac:(lia) ltac:(lia)).
    destruct (Z.eqb_spec (cmp a c) 0); lia.
  - pose proof (cmp_trans_lt_l cmp a b c ltac:(lia) ltac:(lia)).
    destruct (Z.eqb_spec (cmp a c) 0); lia.
  - pose proof (cmp_trans_lt_l cmp a b c ltac:(lia) ltac:(lia)).
    destruct (Z.eqb_spec (cmp a c) 0); lia.
Qed.

(** Comparing by a key. *)
Definition on_key {A K} (key : A -> K) (cmp : K -> K -> Z) (a b : A) : Z :=
  cmp (key a) (key b).

#[global] Instance on_key_comparator {A K} (key : A -> K) cmp `{!Comparator cmp} :
  Comparator (on_key key cmp).
Proof.
  split; unfold on_key.
  - intros. apply (cmp_anti cmp).
  - intros a b c. apply (cmp_trans cmp).
Qed.

#[global] Instance on_key_signed {A K} (key : A -> K) cmp `{!SignedComparator cmp} :
  SignedComparator (on_key key cmp).
Proof. intros a b. apply (cmp_sign cmp). Qed.

(** One comparison, then another. *)
Definition lex {A} (c1 c2 : A -> A -> Z) (a b : A) : Z := then_cmp (c1 a b) (c2 a b).

#[global] Instance lex_comparator {A} (c1 c2 : A -> A -> Z)
  `{!Comparator c1, !Comparator c2} : Comparator (lex c1 c2).
Proof.
  split; unfold lex.
  - intros a b. rewrite (cmp_anti c1 a b), (cmp_anti c2 a b).
    apply then_cmp_opp.
  - intros a b c. apply (then_cmp_trans c1). apply (cmp_trans c2).
Qed.

#[global] Instance lex_signed {A} (c1 c2 : A -> A -> Z)
  `{!SignedComparator c1, !SignedComparator c2} : SignedComparator (lex c1 c2).
Proof. intros a b. apply then_cmp_sign; [apply (cmp_sign c1)|apply (cmp_sign c2)]. Qed.

(** Position by position, a missing position standing for [d].  This is the
    shape of every segment comparison in the program: release segments are
    padded with 0, prerelease identifiers with an end marker. *)
Section padded.
Context {A : Type} (cmp : A -> A -> Z) (d : A).

Fixpoint cmp_pad (l1 : list A) : list A -> Z :=
  match l1 with
  | [] => fix right (l2 : list A) : Z :=
      match l2 with
      | [] => 0
      | y :: l2' => then_cmp (cmp d y) (right l2')
      end
  | x :: l1' => fun l2 =>
      match l2 with
      | [] => then_cmp (cmp x d) (cmp_pad l1' [])
      | y :: l2' => then_cmp (cmp x y) (cmp_pad l1' l2')
      end
  end.

Lemma cmp_pad_cons x l1 y l2 : cmp_pad (x :: l1) (y :: l2) = then_cmp (cmp x y) (cmp_pad l1 l2).
Proof. done. Qed.

Lemma cmp_pad_cons_nil x l1 : cmp_pad (x :: l1) [] = then_cmp (cmp x d) (cmp_pad l1 []).
Proof. done. Qed.

Lemma cmp_pad_nil_cons y l2 : cmp_pad [] (y :: l2) = then_cmp (cmp d y) (cmp_pad [] l2).
Proof. done. Qed.

Context `{!Comparator cmp}.

Lemma cmp_pad_unfold l1 l2 :
  cmp_pad l1 l2 = then_cmp (cmp (hd d l1) (hd d l2)) (cmp_pad (tl l1) (tl l2)).
Proof. destruct l1, l2; try done. simpl. by rewrite (cmp_refl cmp). Qed.

Lemma cmp_pad_anti l1 l2 : cmp_pad l2 l1 = - cmp_pad l1 l2.
Proof.
  revert l2. induction l1 as [|x l1 IH]; intros l2.
  - induction l2 as [|y l2 IH]; [done|]. simpl in *.
    rewrite IH, (cmp_anti cmp d y), then_cmp_opp. done.
  - destruct l2 as [|y l2]; simpl.
    + rewrite <- then_cmp_opp, <- (cmp_anti cmp x d), <- IH. done.
    + rewrite IH, (cmp_anti cmp x y). apply then_cmp_opp.
Qed.

Lemma cmp_pad_trans_aux n l1 l2 l3 :
  (length l1 <= n)%nat -> (length l2 <= n)%nat -> (length l3 <= n)%nat ->
  cmp_pad l1 l2 <= 0 -> cmp_pad l2 l3 <= 0 -> cmp_pad l1 l3 <= 0.
Proof.
  revert l1 l2 l3. induction n as [|n IH]; intros l1 l2 l3 H1 H2 H3.
  - destruct l1, l2, l3; simpl in *; try lia.
  - rewrite (cmp_pad_unfold l1 l2), (cmp_pad_unfold l2 l3), (cmp_pad_unfold l1 l3).
    apply (then_cmp_trans cmp). apply IH; destruct l1, l2, l3; simpl in *; lia.
Qed.

#[global] Instance cmp_pad_comparator : Comparator cmp_pad.
Proof.
  split; [intros; apply cmp_pad_anti|]. intros l1 l2 l3.
  apply (cmp_pad_trans_aux (length l1 + length l2 + length l3)); lia.
Qed.

#[global] Instance cmp_pad_signed `{!SignedComparator cmp} : SignedComparator cmp_pad.
Proof.
  intros l1. induction l1 as [|x l1 IH]; intros l2.
  - induction l2 as [|y l2 IH]; simpl; [right; by left|].
    apply then_cmp_sign; [apply (cmp_sign cmp)|done].
  - destruct l2; simpl; (apply then_cmp_sign; [apply (cmp_sign cmp)|done]).
Qed.

Lemma cmp_pad_refl l : cmp_pad l l = 0.
Proof. apply (cmp_refl cmp_pad). Qed.

(** When the marker is never equal to a real element, equal lists have equal
    lengths. *)
Lemma cmp_pad_zero_length l1 l2 :
  Forall (fun x => cmp x d <> 0) l1 -> Forall (fun x => cmp x d <> 0) l2 ->
  cmp_pad l1 l2 = 0 -> length l1 = length l2.
Proof.
  intros H1. revert l2. induction H1 as [|x l1 Hx H1 IH]; intros l2 H2.
  - destruct H2 as [|y l2 Hy H2]; [done|]. simpl. intros [H _]%then_cmp_zero.
    exfalso. apply Hy. rewrite (cmp_anti cmp d y). lia.
  - destruct H2 as [|y l2 Hy H2]; simpl; intros [H ?]%then_cmp_zero; [done|].
    f_equal. by apply IH.
Qed.
End padded.

(** ** Integers *)

(** osvmatch.go, pep440.go: [compareInt], [cmpInt]. *)
Definition compareInt (a b : Z) : Z := if a <? b then -1 else if b <? a then 1 else 0.

Lemma compareInt_spec a b :
  (a < b /\ compareInt a b = -1) \/ (a = b /\ compareInt a b = 0) \/ (b < a /\ compareInt a b = 1).
Proof. unfold compareInt. destruct (Z.ltb_spec a b), (Z.ltb_spec b a); lia. Qed.

Ltac case_int a b :=
  let H := fresh "Hint" in
  destruct (compareInt_spec a b) as [[? H]|[[? H]|[? H]]]; rewrite ?H in *.

Lemma compareInt_zero a b : compareInt a b = 0 <-> a = b.
Proof. case_int a b; lia. Qed.

Lemma compareInt_le a b : compareInt a b <= 0 <-> a <= b.
Proof. case_int a b; lia. Qed.

#[global] Instance compareInt_comparator : Comparator compareInt.
Proof.
  split; intros.
  - case_int a b; case_int b a; lia.
  - rewrite compareInt_le in *. lia.
Qed.

#[global] Instance compareInt_signed : SignedComparator compareInt.
Proof. intros a b. unfold sign_ok. case_int a b; lia. Qed.

Lemma compareInt_ltb a b : (compareInt a b <? 0) = (a <? b).
Proof. unfold compareInt. destruct (Z.ltb_spec a b); [done|]. by destruct (Z.ltb_spec b a). Qed.

Lemma compareInt_eqb a b : (compareInt a b =? 0) = (a =? b).
Proof.
  unfold compareInt. destruct (Z.ltb_spec a b), (Z.ltb_spec b a), (Z.eqb_spec a b); done || lia.
Qed.

(** * Version schemes

    What a version order of the program promises the matcher that uses it: a
    parser that may refuse, and a comparator on what it parsed.  [None] is the
    Go result [(0, false)]. *)

Class VersionScheme (compare : string -> string -> option Z) := {
  vs_key : Type;
  vs_parse : string -> option vs_key;
  vs_cmp : vs_key -> vs_key -> Z;
  vs_comparator :: Comparator vs_cmp;
  vs_signed :: SignedComparator vs_cmp;
  vs_spec : forall a b, compare a b = (x ← vs_parse a; y ← vs_parse b; Some (vs_cmp x y))
}.

Arguments vs_key compare {_}.
Arguments vs_parse compare {_} _.
Arguments vs_cmp compare {_} _ _.
Arguments vs_spec compare {_} a b.

(** The contract spelled out: the comparison answers exactly when both sides
    are versions of the scheme, with -1, 0 or 1, and is a total preorder on
    them. *)
Record version_preorder (ok : string -> Prop) (compare : string -> string -> option Z) : Prop := {
  vp_defined : forall a b, is_Some (compare a b) <-> ok a /\ ok b;
  vp_sign : forall a b c, compare a b = Some c -> sign_ok c;
  vp_refl : forall a, ok a -> compare a a = Some 0;
  vp_anti : forall a b c, compare a b = Some c -> compare b a = Some (- c);
  vp_trans : forall a b c x y, compare a b = Some x -> compare b c = Some y -> x <= 0 -> y <= 0 ->
             exists z, compare a c = Some z /\ z <= 0
}.

Section scheme.
Context (compare : string -> string -> option Z) `{!VersionScheme compare}.

Lemma vs_Some a b c :
  compare a b = Some c <->
  exists x y, vs_parse compare a = Some x /\ vs_parse compare b = Some y /\ c = vs_cmp compare x y.
Proof.
  rewrite (vs_spec compare). split.
  - intros (x & Hx & (y & Hy & [= <-])%bind_Some)%bind_Some. eauto.
  - intros (x & y & -> & -> & ->). done.
Qed.

Lemma scheme_preorder : version_preorder (fun v => is_Some (vs_parse compare v)) compare.
Proof.
  split.
  - intros a b. split.
    + intros [c (x & y & Hx & Hy & _)%vs_Some]. eauto.
    + intros [[x Hx] [y Hy]]. exists (vs_cmp compare x y). apply vs_Some. eauto.
  - intros a b c (x & y & _ & _ & ->)%vs_Some. apply (cmp_sign (vs_cmp compare)).
  - intros a [x Hx]. apply vs_Some. exists x, x.
    by rewrite (cmp_refl (vs_cmp compare)).
  - intros a b c (x & y & Hx & Hy & ->)%vs_Some. apply vs_Some. exists y, x.
    by rewrite (cmp_anti (vs_cmp compare) x y).
  - intros a b c u v (x & y & Hx & Hy & ->)%vs_Some (y' & z & Hy' & Hz & ->)%vs_Some Hu Hv.
    simplify_eq. exists (vs_cmp compare x z). split; [apply vs_Some; eauto|].
    by apply (cmp_trans (vs_cmp compare) x y z).
Qed.
End scheme.
