(* ===== verification/GoStrings.v ===== *)
(** Go strings as the program uses them.

    A Go [string] is a sequence of bytes, and so is Rocq's [string]: one
    [ascii] is one byte.  This file models the part of the packages [strings],
    [strconv] and [unicode] that bodega calls, with the lemmas the components
    share.  Indices are not modelled: an index into a string is the pair of
    the text before it and the text after it.

    [ToLower] and [EqualFold] act on the ASCII letters; a byte above 0x7f is
    left as it is, where Go folds the case of non-ASCII letters too.
    [TrimSpace] removes every Unicode space, written as its UTF-8 bytes. *)

From stdpp Require Import base list strings gmap.
From Stdlib Require Import ZArith Lia Ascii.
From S2P Require Import Prelude.

(** * Bytes *)

Definition byteZ (c : ascii) : Z := Z.of_N (N_of_ascii c).

Definition in_range (lo hi : Z) (c : ascii) : bool := (lo <=? byteZ c) && (byteZ c <=? hi).

Definition is_digit (c : ascii) : bool := in_range 48 57 c.
Definition is_lower (c : ascii) : bool := in_range 97 122 c.
Definition is_upper (c : ascii) : bool := in_range 65 90 c.
Definition is_letter (c : ascii) : bool := is_lower c || is_upper c.
Definition is_alnum (c : ascii) : bool := is_digit c || is_letter c.

(** The value of a decimal digit. *)
Definition digit_val (c : ascii) : Z := byteZ c - 48.

Lemma byteZ_bound c : 0 <= byteZ c < 256.
Proof. unfold byteZ. pose proof (N_ascii_bounded c). lia. Qed.

Lemma byteZ_inj a b : byteZ a = byteZ b -> a = b.
Proof.
  unfold byteZ. intros H%N2Z.inj.
  by rewrite <- (ascii_N_embedding a), <- (ascii_N_embedding b), H.
Qed.

Lemma is_digit_val c : is_digit c = true -> 0 <= digit_val c <= 9.
Proof. unfold is_digit, in_range, digit_val. intros. to_prop. lia. Qed.

(** * Append *)

Lemma app_cons c a b : String c a +:+ b = String c (a +:+ b).
Proof. done. Qed.

Lemma app_nil_l s : "" +:+ s = s.
Proof. done. Qed.

Lemma app_nil_r s : s +:+ "" = s.
Proof. induction s as [|c s IH]; [done|]. by rewrite app_cons, IH. Qed.

Lemma app_assoc a b c : (a +:+ b) +:+ c = a +:+ b +:+ c.
Proof. induction a as [|x a IH]; [done|]. by rewrite !app_cons, IH. Qed.

Lemma length_app_string a b : String.length (a +:+ b) = (String.length a + String.length b)%nat.
Proof. induction a as [|x a IH]; [done|]. rewrite app_cons. simpl. lia. Qed.

Lemma app_eq_nil a b : a +:+ b = "" -> a = "" /\ b = "".
Proof. destruct a; [done|]. by rewrite app_cons. Qed.

Lemma app_inv_l a b c : a +:+ b = a +:+ c -> b = c.
Proof. apply (inj (String.app a)). Qed.

Lemma app_inv_r a b c : a +:+ c = b +:+ c -> a = b.
Proof.
  revert b. induction a as [|x a IH]; intros [|y b]; rewrite ?app_cons, ?app_nil_l.
  - done.
  - intros H%(f_equal String.length). simpl in H. rewrite length_app_string in H. lia.
  - intros H%(f_equal String.length). simpl in H. rewrite length_app_string in H. lia.
  - intros [= -> H]. f_equal. by apply IH.
Qed.

Create Rewrite HintDb gostr.

#[export] Hint Rewrite app_cons app_nil_l app_nil_r app_assoc : gostr.

(** * Byte-wise predicates over a string *)

Fixpoint all_bytes (p : ascii -> bool) (s : string) : bool :=
  match s with
  | "" => true
  | String c s' => p c && all_bytes p s'
  end.

Lemma all_bytes_app p a b : all_bytes p (a +:+ b) = all_bytes p a && all_bytes p b.
Proof.
  induction a as [|c a IH]; [done|]. rewrite app_cons. simpl.
  by rewrite IH, andb_assoc.
Qed.

Lemma all_bytes_impl p q s :
  (forall c, p c = true -> q c = true) -> all_bytes p s = true -> all_bytes q s = true.
Proof.
  intros H. induction s as [|c s IH]; simpl; [done|].
  rewrite !andb_true_iff. intros [??]. auto.
Qed.

(** [strings.ContainsRune] for one ASCII byte. *)
Definition has_byte (c : ascii) (s : string) : bool :=
  negb (all_bytes (fun x => negb (Ascii.eqb x c)) s).

Definition no_byte (c : ascii) (s : string) : bool := all_bytes (fun x => negb (Ascii.eqb x c)) s.

Lemma no_byte_cons c x s : no_byte c (String x s) = negb (Ascii.eqb x c) && no_byte c s.
Proof. done. Qed.

Lemma no_byte_app c a b : no_byte c (a +:+ b) = no_byte c a && no_byte c b.
Proof. apply all_bytes_app. Qed.

(** Every byte, for the facts checked on all of them. *)
Lemma byte_ind (P : ascii -> bool) :
  forallb (fun n => P (ascii_of_nat n)) (seq 0 256) = true -> forall c, P c = true.
Proof.
  intros H c. rewrite forallb_forall in H. rewrite <- (ascii_nat_embedding c).
  apply H, in_seq. split; [lia|]. apply nat_ascii_bounded.
Qed.

(** * Prefixes and suffixes *)

(** [strings.CutPrefix]: the text after [p], when [s] starts with it. *)
Fixpoint cut_prefix (s p : string) {struct p} : option string :=
  match p, s with
  | "", _ => Some s
  | String x p', String y s' => if Ascii.eqb x y then cut_prefix s' p' else None
  | String _ _, "" => None
  end.

Lemma cut_prefix_Some s p r : cut_prefix s p = Some r <-> s = p +:+ r.
Proof.
  revert s. induction p as [|x p IH]; intros s; simpl.
  - rewrite app_nil_l. split; congruence.
  - rewrite app_cons. destruct s as [|y s]; [done|].
    destruct (Ascii.eqb_spec x y) as [->|Hxy].
    + rewrite IH. split; congruence.
    + split; congruence.
Qed.

Lemma cut_prefix_app p r : cut_prefix (p +:+ r) p = Some r.
Proof. by apply cut_prefix_Some. Qed.

(** A literal prefix is compared byte by byte, whatever follows it. *)
Lemma cut_prefix_cons x p y s :
  cut_prefix (String y s) (String x p) = if Ascii.eqb x y then cut_prefix s p else None.
Proof. done. Qed.

Definition HasPrefix (s p : string) : bool :=
  match cut_prefix s p with Some _ => true | None => false end.

Definition TrimPrefix (s p : string) : string :=
  match cut_prefix s p with Some r => r | None => s end.

Lemma HasPrefix_spec s p : HasPrefix s p = true <-> exists r, s = p +:+ r.
Proof.
  unfold HasPrefix. split.
  - destruct (cut_prefix s p) as [r|] eqn:E; [|done]. intros _. exists r. by apply cut_prefix_Some.
  - intros [r ->]. by rewrite cut_prefix_app.
Qed.

Lemma HasPrefix_app p r : HasPrefix (p +:+ r) p = true.
Proof. apply HasPrefix_spec. by exists r. Qed.

Lemma TrimPrefix_app p r : TrimPrefix (p +:+ r) p = r.
Proof. unfold TrimPrefix. by rewrite cut_prefix_app. Qed.

(** [strings.CutSuffix]: the text before [suf], when [s] ends with it. *)
Fixpoint cut_suffix (s suf : string) : option string :=
  if (s =? suf)%string then Some ""
  else match s with
       | "" => None
       | String c s' => String c <$> cut_suffix s' suf
       end.

Lemma cut_suffix_Some s suf r : cut_suffix s suf = Some r <-> s = r +:+ suf.
Proof.
  revert r. induction s as [|c s IH]; intros r; simpl.
  - destruct (String.eqb_spec "" suf) as [<-|Hne].
    + split; [by intros [= <-]|]. rewrite app_nil_r. by intros <-.
    + split; [done|]. intros H. symmetry in H. apply app_eq_nil in H as [_ ->]. done.
  - destruct (String.eqb_spec (String c s) suf) as [<-|Hne].
    + split; [by intros [= <-]|]. intros H. f_equal.
      rewrite <- (app_nil_l (String c s)) in H at 1. by apply app_inv_r in H.
    + destruct r as [|x r].
      * rewrite app_nil_l. split; [|done]. destruct (cut_suffix s suf); done.
      * rewrite app_cons. split.
        -- intros (r' & E & [= -> ->])%fmap_Some. f_equal. by apply IH.
        -- intros [= -> E]. apply IH in E. by rewrite E.
Qed.

Lemma cut_suffix_app r suf : cut_suffix (r +:+ suf) suf = Some r.
Proof. by apply cut_suffix_Some. Qed.

Definition HasSuffix (s suf : string) : bool :=
  match cut_suffix s suf with Some _ => true | None => false end.

Definition TrimSuffix (s suf : string) : string :=
  match cut_suffix s suf with Some r => r | None => s end.

(** * Cutting at a separator *)

(** [strings.Cut(s, sep)] and [strings.IndexByte] for a one-byte separator:
    the text around its first occurrence. *)
Fixpoint cut_byte (c : ascii) (s : string) : option (string * string) :=
  match s with
  | "" => None
  | String x s' =>
      if Ascii.eqb x c then Some ("", s')
      else '(a, b) ← cut_byte c s'; Some (String x a, b)
  end.

Lemma cut_byte_Some c s a b :
  cut_byte c s = Some (a, b) <-> s = a +:+ String c b /\ no_byte c a = true.
Proof.
  revert a. induction s as [|x s IH]; intros a; simpl.
  - split; [done|]. intros [H%eq_sym _]. apply app_eq_nil in H. by destruct H.
  - destruct (Ascii.eqb_spec x c) as [->|Hx].
    + split; [by intros [= <- <-]|]. intros [H Ha]. destruct a as [|y a].
      * rewrite app_nil_l in H. by injection H as ->.
      * rewrite app_cons in H. injection H as -> _. rewrite no_byte_cons in Ha.
        rewrite Ascii.eqb_refl in Ha. done.
    + split.
      * intros ([a' b'] & E & [= <- <-])%bind_Some. apply IH in E as [-> Ha].
        split; [done|]. rewrite no_byte_cons, Ha.
        destruct (Ascii.eqb_spec x c); done.
      * intros [H Ha]. destruct a as [|y a].
        -- rewrite app_nil_l in H. injection H as -> ->. done.
        -- rewrite app_cons in H. injection H as -> H. rewrite no_byte_cons in Ha.
           apply andb_true_iff in Ha as [_ Ha].
           rewrite (proj2 (IH a)); done.
Qed.

Lemma cut_byte_None c s : cut_byte c s = None <-> no_byte c s = true.
Proof.
  induction s as [|x s IH]; simpl; [done|]. rewrite no_byte_cons.
  destruct (Ascii.eqb_spec x c); simpl; [done|].
  rewrite <- IH. destruct (cut_byte c s) as [[]|]; done.
Qed.

Lemma cut_byte_app c a b : no_byte c a = true -> cut_byte c (a +:+ String c b) = Some (a, b).
Proof. intros. by apply cut_byte_Some. Qed.

(** [strings.LastIndexByte]: the text around the last occurrence. *)
Fixpoint cut_last_byte (c : ascii) (s : string) : option (string * string) :=
  match s with
  | "" => None
  | String x s' =>
      match cut_last_byte c s' with
      | Some (a, b) => Some (String x a, b)
      | None => if Ascii.eqb x c then Some ("", s') else None
      end
  end.

Lemma cut_last_byte_None c s : cut_last_byte c s = None <-> no_byte c s = true.
Proof.
  induction s as [|x s IH]; simpl; [done|]. rewrite no_byte_cons.
  destruct (cut_last_byte c s) as [[]|].
  - split; [done|]. intros [_ H]%andb_true_iff. by apply IH in H.
  - rewrite (proj1 IH) by done. destruct (Ascii.eqb_spec x c); done.
Qed.

Lemma cut_last_byte_app c a b :
  no_byte c b = true -> cut_last_byte c (a +:+ String c b) = Some (a, b).
Proof.
  intros Hb. induction a as [|x a IH].
  - rewrite app_nil_l. simpl. rewrite (proj2 (cut_last_byte_None c b) Hb), Ascii.eqb_refl. done.
  - rewrite app_cons. simpl. by rewrite IH.
Qed.

Lemma cut_last_byte_Some c s a b :
  cut_last_byte c s = Some (a, b) -> s = a +:+ String c b /\ no_byte c b = true.
Proof.
  revert a b. induction s as [|x s IH]; intros a b; simpl; [done|].
  destruct (cut_last_byte c s) as [[a' b']|] eqn:E.
  - intros [= <- <-]. destruct (IH a' b') as [-> Hb]; done.
  - destruct (Ascii.eqb_spec x c) as [->|]; [|done]. intros [= <- <-].
    split; [done|]. by apply cut_last_byte_None.
Qed.

(** [strings.Cut(s, sep)] and [strings.Index] for a longer separator. *)
Fixpoint cut (s sep : string) : option (string * string) :=
  match cut_prefix s sep with
  | Some r => Some ("", r)
  | None =>
      match s with
      | "" => None
      | String x s' => '(a, b) ← cut s' sep; Some (String x a, b)
      end
  end.

Lemma cut_Some s sep a b : cut s sep = Some (a, b) -> s = a +:+ sep +:+ b.
Proof.
  revert a b. induction s as [|x s IH]; intros a b; simpl.
  - destruct (cut_prefix "" sep) as [r|] eqn:E; [|done].
    intros [= <- <-]. by apply cut_prefix_Some in E.
  - destruct (cut_prefix (String x s) sep) as [r|] eqn:E.
    + intros [= <- <-]. by apply cut_prefix_Some in E.
    + intros ([a' b'] & E' & [= <- <-])%bind_Some. apply IH in E'. by rewrite E' at 1.
Qed.

(** [strings.LastIndex] for a longer separator. *)
Fixpoint cut_last (s sep : string) : option (string * string) :=
  match s with
  | "" => match sep with "" => Some ("", "") | _ => None end
  | String x s' =>
      match cut_last s' sep with
      | Some (a, b) => Some (String x a, b)
      | None => match cut_prefix s sep with Some r => Some ("", r) | None => None end
      end
  end.

Lemma cut_last_Some s sep a b : cut_last s sep = Some (a, b) -> s = a +:+ sep +:+ b.
Proof.
  revert a b. induction s as [|x s IH]; intros a b; cbn [cut_last].
  - destruct sep; [|done]. by intros [= <- <-].
  - destruct (cut_last s sep) as [[a' b']|].
    + intros [= <- <-]. by rewrite (IH a' b' eq_refl) at 1.
    + destruct (cut_prefix (String x s) sep) as [r|] eqn:E; [|done]. intros [= <- <-].
      by apply cut_prefix_Some in E.
Qed.

(** [cut_last] finds the last occurrence, when there is one. *)
Lemma cut_last_max s sep a b :
  s = a +:+ sep +:+ b ->
  exists a' b', cut_last s sep = Some (a', b') /\ (String.length a <= String.length a')%nat.
Proof.
  revert a. induction s as [|x s IH]; intros a Hs; cbn [cut_last].
  - symmetry in Hs. apply app_eq_nil in Hs as [-> Hs]. apply app_eq_nil in Hs as [-> _].
    exists "", "". split; [done|simpl; lia].
  - destruct a as [|y a].
    + destruct (cut_last s sep) as [[a' b']|]; [by eexists _, _; split; [done|simpl; lia]|].
      rewrite app_nil_l in Hs. rewrite Hs, cut_prefix_app. exists "", b. split; [done|simpl; lia].
    + rewrite app_cons in Hs. injection Hs as <- Hs. destruct (IH a Hs) as (a' & b' & -> & Hl).
      exists (String x a'), b'. split; [done|simpl; lia].
Qed.

Definition Contains (s sub : string) : bool :=
  match cut s sub with Some _ => true | None => false end.

Lemma Contains_cons c s sub :
  Contains (String c s) sub = HasPrefix (String c s) sub || Contains s sub.
Proof.
  unfold Contains, HasPrefix. cbn [cut]. destruct (cut_prefix (String c s) sub); [done|].
  cbn [orb]. by destruct (cut s sub) as [[]|].
Qed.

Lemma Contains_mid a sub b : Contains (a +:+ sub +:+ b) sub = true.
Proof.
  induction a as [|c a IH].
  - rewrite app_nil_l. unfold Contains. assert (cut (sub +:+ b) sub = Some ("", b)) as ->; [|done].
    pose proof (cut_prefix_app sub b) as E. destruct (sub +:+ b); cbn [cut]; by rewrite E.
  - rewrite app_cons, Contains_cons, IH. by rewrite orb_true_r.
Qed.

Lemma Contains_no_byte c s sub : no_byte c s = true -> Contains s (String c sub) = false.
Proof.
  induction s as [|x s IH]; [done|]. rewrite no_byte_cons. intros [Hx Hs]%andb_true_iff.
  rewrite Contains_cons, IH, orb_false_r by done. unfold HasPrefix. cbn [cut_prefix].
  apply negb_true_iff in Hx. by rewrite Ascii.eqb_sym, Hx.
Qed.

(** [strings.ContainsAny] for a set of ASCII bytes. *)
Definition ContainsAny (s chars : string) : bool :=
  negb (all_bytes (fun c => no_byte c chars) s).

(** * Splitting and joining *)

(** [strings.Split] on a one-byte separator. *)
Fixpoint Split (c : ascii) (s : string) : list string :=
  match s with
  | "" => [""]
  | String x s' =>
      if Ascii.eqb x c then "" :: Split c s'
      else match Split c s' with
           | seg :: rest => String x seg :: rest
           | [] => [String x ""]
           end
  end.

(** [strings.SplitN(s, sep, n)] for [n >= 1] and a one-byte separator. *)
Fixpoint SplitN (c : ascii) (n : nat) (s : string) : list string :=
  match n with
  | 0%nat | 1%nat => [s]
  | S n' =>
      match cut_byte c s with
      | Some (a, b) => a :: SplitN c n' b
      | None => [s]
      end
  end.

Fixpoint Join (l : list string) (sep : string) : string :=
  match l with
  | [] => ""
  | [x] => x
  | x :: l' => x +:+ sep +:+ Join l' sep
  end.

Lemma Split_nonempty c s : Split c s <> [].
Proof.
  induction s as [|x s IH]; simpl; [done|]. destruct (Ascii.eqb x c); [done|].
  destruct (Split c s); done.
Qed.

Lemma Split_no_byte c s : no_byte c s = true -> Split c s = [s].
Proof.
  induction s as [|x s IH]; simpl; [done|]. rewrite no_byte_cons.
  intros [Hx Hs]%andb_true_iff. apply negb_true_iff in Hx. by rewrite Hx, IH.
Qed.

Lemma Split_app c a b : no_byte c a = true -> Split c (a +:+ String c b) = a :: Split c b.
Proof.
  induction a as [|x a IH]; intros Ha.
  - rewrite app_nil_l. simpl. by rewrite Ascii.eqb_refl.
  - rewrite app_cons. simpl. rewrite no_byte_cons in Ha.
    apply andb_true_iff in Ha as [Hx Ha]. apply negb_true_iff in Hx.
    by rewrite Hx, IH.
Qed.

Lemma Split_concat c a b : Split c (a +:+ String c b) = Split c a ++ Split c b.
Proof.
  induction a as [|x a IH].
  - rewrite app_nil_l. simpl. by rewrite Ascii.eqb_refl.
  - rewrite app_cons. simpl. rewrite IH. destruct (Ascii.eqb x c); [done|].
    pose proof (Split_nonempty c a). destruct (Split c a); done.
Qed.

Lemma Split_sep c a b : Split c (a +:+ String c "" +:+ b) = Split c a ++ Split c b.
Proof. apply Split_concat. Qed.

Lemma Split_segments c s : Forall (fun seg => no_byte c seg = true) (Split c s).
Proof.
  induction s as [|x s IH]; simpl; [by constructor|].
  destruct (Ascii.eqb_spec x c) as [->|Hx]; [by constructor|].
  destruct IH as [|seg rest Hseg Hrest]; constructor; try done; rewrite no_byte_cons;
    destruct (Ascii.eqb_spec x c); done.
Qed.

Lemma Join_Split c s : Join (Split c s) (String c "") = s.
Proof.
  induction s as [|x s IH]; simpl; [done|].
  destruct (Ascii.eqb_spec x c) as [->|Hx].
  - pose proof (Split_nonempty c s). destruct (Split c s); [done|].
    simpl in *. rewrite <- IH. done.
  - destruct (Split c s) as [|seg [|seg' rest]]; simpl in *; rewrite <- IH; done.
Qed.

Lemma Split_Join c l :
  l <> [] -> Forall (fun seg => no_byte c seg = true) l -> Split c (Join l (String c "")) = l.
Proof.
  induction l as [|x l IH]; [done|]. intros _ [Hx Hl]%Forall_cons. destruct l as [|y l].
  - simpl. by apply Split_no_byte.
  - simpl Join. rewrite app_cons, app_nil_l, Split_app by done. f_equal. by apply IH.
Qed.

(** A column that keeps a list of plain names, empty for none. *)
Lemma Split_Join_names c l :
  ~ In "" l -> Forall (fun x => no_byte c x = true) l ->
  (if (Join l (String c "") =? "")%string then [] else Split c (Join l (String c ""))) = l.
Proof.
  intros Hne Hc. destruct l as [|a l]; [done|].
  destruct (String.eqb_spec (Join (a :: l) (String c "")) "") as [E|_]; [|by apply Split_Join].
  exfalso. apply Hne. destruct l as [|b l]; cbn [Join] in E; [subst; by left|]. apply app_eq_nil in E as [-> _]. by left.
Qed.

Lemma Join_app l1 l2 sep :
  l1 <> [] -> l2 <> [] -> Join (l1 ++ l2) sep = Join l1 sep +:+ sep +:+ Join l2 sep.
Proof.
  intros H1 H2. induction l1 as [|x l1 IH]; [done|]. destruct l1 as [|y l1].
  - simpl. by destruct l2.
  - change (x +:+ sep +:+ Join ((y :: l1) ++ l2) sep
            = (x +:+ sep +:+ Join (y :: l1) sep) +:+ sep +:+ Join l2 sep).
    by rewrite IH, !app_assoc.
Qed.

(** An occurrence of whole segments in a joined text, and the reverse. *)
Lemma Split_occurrence c ms a b :
  ms <> [] -> Forall (fun seg => no_byte c seg = true) ms ->
  Split c (a +:+ (String c "" +:+ Join ms (String c "") +:+ String c "") +:+ b)
  = Split c a ++ ms ++ Split c b.
Proof.
  intros Hne Hms. rewrite !app_assoc, Split_sep.
  rewrite Split_sep, Split_Join by done. done.
Qed.

(** [strings.ReplaceAll(s, old, new)] for a non-empty [old]: left to right,
    occurrences do not overlap.  [skip] counts the bytes of an occurrence that
    is being replaced. *)
Fixpoint replace_go (old new : string) (skip : nat) (s : string) : string :=
  match s with
  | "" => ""
  | String c s' =>
      match skip with
      | S k => replace_go old new k s'
      | O =>
          if HasPrefix s old
          then new +:+ replace_go old new (pred (String.length old)) s'
          else String c (replace_go old new 0 s')
      end
  end.

Definition ReplaceAll (s old new : string) : string := replace_go old new 0 s.

Lemma ReplaceAll_byte c new x s :
  ReplaceAll (String x s) (String c "") new
  = (if Ascii.eqb c x then new else String x "") +:+ ReplaceAll s (String c "") new.
Proof.
  unfold ReplaceAll. cbn [replace_go]. unfold HasPrefix. cbn [cut_prefix].
  by destruct (Ascii.eqb c x).
Qed.

Lemma Split_ReplaceAll c d s :
  no_byte d s = true -> Split d (ReplaceAll s (String c "") (String d "")) = Split c s.
Proof.
  induction s as [|x s IH]; [done|]. rewrite no_byte_cons. intros [Hx Hs]%andb_true_iff.
  rewrite ReplaceAll_byte, (Ascii.eqb_sym c x). cbn [Split]. destruct (Ascii.eqb x c).
  - rewrite app_cons, app_nil_l. cbn [Split]. by rewrite Ascii.eqb_refl, IH.
  - rewrite app_cons, app_nil_l. cbn [Split]. apply negb_true_iff in Hx. by rewrite Hx, IH.
Qed.

(** * Trimming *)

Fixpoint trim_left (p : ascii -> bool) (s : string) : string :=
  match s with
  | "" => ""
  | String c s' => if p c then trim_left p s' else s
  end.

Fixpoint trim_right (p : ascii -> bool) (s : string) : string :=
  match s with
  | "" => ""
  | String c s' =>
      match trim_right p s' with
      | "" => if p c then "" else String c ""
      | r => String c r
      end
  end.

(** [strings.TrimLeft], [TrimRight] and [Trim] with a cutset of ASCII bytes. *)
Definition in_set (chars : string) (c : ascii) : bool := has_byte c chars.
Definition TrimLeft (s chars : string) : string := trim_left (in_set chars) s.
Definition TrimRight (s chars : string) : string := trim_right (in_set chars) s.
Definition Trim (s chars : string) : string := TrimRight (TrimLeft s chars) chars.

(** The UTF-8 form of every rune [unicode.IsSpace] accepts. *)
Definition utf8 (bs : list Z) : string :=
  foldr (fun b s => String (ascii_of_N (Z.to_N b)) s) "" bs.

Definition unicode_spaces : list string :=
  utf8 <$> [[9]; [10]; [11]; [12]; [13]; [32]; [194; 133]; [194; 160]; [225; 154; 128];
            [226; 128; 128]; [226; 128; 129]; [226; 128; 130]; [226; 128; 131];
            [226; 128; 132]; [226; 128; 133]; [226; 128; 134]; [226; 128; 135];
            [226; 128; 136]; [226; 128; 137]; [226; 128; 138]; [226; 128; 168];
            [226; 128; 169]; [226; 128; 175]; [226; 129; 159]; [227; 128; 128]].

Fixpoint first_some {A B} (f : A -> option B) (l : list A) : option B :=
  match l with
  | [] => None
  | x :: l' => match f x with Some y => Some y | None => first_some f l' end
  end.

Fixpoint trim_space_left (fuel : nat) (s : string) : string :=
  match fuel with
  | O => s
  | S n =>
      match first_some (cut_prefix s) unicode_spaces with
      | Some r => trim_space_left n r
      | None => s
      end
  end.

Fixpoint trim_space_right (fuel : nat) (s : string) : string :=
  match fuel with
  | O => s
  | S n =>
      match first_some (cut_suffix s) unicode_spaces with
      | Some r => trim_space_right n r
      | None => s
      end
  end.

(** [strings.TrimSpace].  The fuel is the length: every step removes a byte. *)
Definition TrimSpace (s : string) : string :=
  let l := trim_space_left (String.length s) s in
  trim_space_right (String.length l) l.

(** Text of printable ASCII bytes other than the blank. *)
Definition printable (c : ascii) : bool := in_range 33 126 c.

Lemma first_some_None {A B} (f : A -> option B) l :
  first_some f l = None <-> Forall (fun x => f x = None) l.
Proof.
  induction l as [|x l IH]; simpl; [done|]. rewrite Forall_cons.
  destruct (f x); [split; [done|by intros [? _]]|]. rewrite IH. tauto.
Qed.

Lemma spaces_not_printable : Forall (fun sp => all_bytes printable sp = false) unicode_spaces.
Proof. by repeat (constructor; [vm_compute; reflexivity|]). Qed.

Lemma TrimSpace_printable s : all_bytes printable s = true -> TrimSpace s = s.
Proof.
  intros Hs. pose proof spaces_not_printable as Hsp.
  assert (Hl : first_some (cut_prefix s) unicode_spaces = None).
  { apply first_some_None. eapply Forall_impl; [exact Hsp|]. intros sp Hf. cbn beta in *.
    destruct (cut_prefix s sp) as [r|] eqn:E; [|done]. apply cut_prefix_Some in E as ->.
    rewrite all_bytes_app, Hf in Hs. done. }
  assert (Hr : first_some (cut_suffix s) unicode_spaces = None).
  { apply first_some_None. eapply Forall_impl; [exact Hsp|]. intros sp Hf. cbn beta in *.
    destruct (cut_suffix s sp) as [r|] eqn:E; [|done]. apply cut_suffix_Some in E as ->.
    rewrite all_bytes_app, Hf, andb_false_r in Hs. done. }
  unfold TrimSpace. assert (trim_space_left (String.length s) s = s) as ->.
  { destruct (String.length s); [done|]. cbn [trim_space_left]. by rewrite Hl. }
  destruct (String.length s); [done|]. cbn [trim_space_right]. by rewrite Hr.
Qed.

(** What [TrimSpace] leaves: no space at either end. *)
Definition trimmed (s : string) : Prop :=
  first_some (cut_prefix s) unicode_spaces = None /\ first_some (cut_suffix s) unicode_spaces = None.

Lemma first_some_Some {A B} (f : A -> option B) l y : first_some f l = Some y -> exists x, x ∈ l /\ f x = Some y.
Proof.
  induction l as [|x l IH]; simpl; [done|]. destruct (f x) eqn:E.
  - intros [= ->]. exists x. by split; [left|].
  - intros (z & ? & ?)%IH. exists z. by split; [right|].
Qed.

Lemma spaces_not_empty : Forall (fun sp => (0 < String.length sp)%nat) unicode_spaces.
Proof. by repeat (constructor; [vm_compute; lia|]). Qed.

Lemma trim_space_left_none fuel s : (String.length s <= fuel)%nat ->
  first_some (cut_prefix (trim_space_left fuel s)) unicode_spaces = None.
Proof.
  revert s. induction fuel as [|n IH]; intros s Hs.
  - destruct s; [vm_compute; reflexivity|cbn in Hs; lia].
  - cbn [trim_space_left]. destruct (first_some (cut_prefix s) unicode_spaces) as [r|] eqn:E; [|done].
    apply first_some_Some in E as (sp & Hsp & Hc%cut_prefix_Some). apply IH. subst s.
    pose proof (proj1 (Forall_forall _ _) spaces_not_empty sp Hsp) as Hl. rewrite length_app_string in Hs. cbn beta in Hl. lia.
Qed.

Lemma trim_space_right_none fuel s : (String.length s <= fuel)%nat ->
  first_some (cut_suffix (trim_space_right fuel s)) unicode_spaces = None
  /\ exists tail, s = trim_space_right fuel s +:+ tail.
Proof.
  revert s. induction fuel as [|n IH]; intros s Hs.
  - destruct s; [|cbn in Hs; lia]. split; [vm_compute; reflexivity|]. by exists "".
  - cbn [trim_space_right]. destruct (first_some (cut_suffix s) unicode_spaces) as [r|] eqn:E.
    + apply first_some_Some in E as (sp & Hsp & Hc%cut_suffix_Some). subst s.
      pose proof (proj1 (Forall_forall _ _) spaces_not_empty sp Hsp) as Hl. rewrite length_app_string in Hs. cbn beta in Hl.
      destruct (IH r ltac:(lia)) as [H1 [tail H2]]. split; [done|]. exists (tail +:+ sp). by rewrite <- app_assoc, <- H2.
    + split; [done|]. exists "". by rewrite app_nil_r.
Qed.

Lemma TrimSpace_trimmed s : trimmed (TrimSpace s).
Proof.
  unfold TrimSpace, trimmed. set (l := trim_space_left _ s).
  assert (Hl : first_some (cut_prefix l) unicode_spaces = None) by (by apply trim_space_left_none).
  destruct (trim_space_right_none (String.length l) l ltac:(lia)) as [Hr [tail Ht]]. split; [|done].
  set (r := trim_space_right _ l) in *. apply first_some_None. apply first_some_None in Hl. eapply Forall_impl; [exact Hl|].
  intros sp Hf. cbn beta in *. destruct (cut_prefix r sp) as [x|] eqn:E; [|done]. apply cut_prefix_Some in E.
  rewrite Ht, E, app_assoc, cut_prefix_app in Hf. done.
Qed.

Lemma trimmed_TrimSpace s : trimmed s -> TrimSpace s = s.
Proof.
  intros [Hl Hr]. unfold TrimSpace. assert (trim_space_left (String.length s) s = s) as ->.
  { destruct (String.length s); [done|]. cbn [trim_space_left]. by rewrite Hl. }
  destruct (String.length s); [done|]. cbn [trim_space_right]. by rewrite Hr.
Qed.

Lemma TrimSpace_idemp s : TrimSpace (TrimSpace s) = TrimSpace s.
Proof. apply trimmed_TrimSpace, TrimSpace_trimmed. Qed.

(** * Case *)

Definition lower_byte (c : ascii) : ascii :=
  if is_upper c then ascii_of_N (N_of_ascii c + 32) else c.

Fixpoint ToLower (s : string) : string :=
  match s with
  | "" => ""
  | String c s' => String (lower_byte c) (ToLower s')
  end.

Definition EqualFold (a b : string) : bool := (ToLower a =? ToLower b)%string.

(** * Comparison *)

(** [strings.Compare]. *)
Fixpoint Compare (a b : string) : Z :=
  match a, b with
  | "", "" => 0
  | "", _ => -1
  | _, "" => 1
  | String x a', String y b' => then_cmp (compareInt (byteZ x) (byteZ y)) (Compare a' b')
  end.

Lemma Compare_anti a b : Compare b a = - Compare a b.
Proof.
  revert b. induction a as [|x a IH]; intros [|y b]; simpl; try done.
  by rewrite (cmp_anti compareInt (byteZ x)), IH, then_cmp_opp.
Qed.

Lemma Compare_trans a b c : Compare a b <= 0 -> Compare b c <= 0 -> Compare a c <= 0.
Proof.
  revert b c. induction a as [|x a IH]; intros [|y b] [|z c]; simpl; try lia.
  apply (then_cmp_trans compareInt). apply IH.
Qed.

#[global] Instance Compare_comparator : Comparator Compare.
Proof. split; [intros; apply Compare_anti|apply Compare_trans]. Qed.

#[global] Instance Compare_signed : SignedComparator Compare.
Proof.
  intros a. induction a as [|x a IH]; intros [|y b]; simpl; unfold sign_ok; try lia.
  apply then_cmp_sign; [apply (cmp_sign compareInt)|done].
Qed.

Lemma Compare_zero a b : Compare a b = 0 <-> a = b.
Proof.
  revert b. induction a as [|x a IH]; intros [|y b]; simpl; try done.
  rewrite then_cmp_zero, compareInt_zero, IH. split.
  - intros [H%byteZ_inj ->]. by subst.
  - by intros [= -> ->].
Qed.

(** * Numbers *)

Definition maxInt : Z := 2 ^ 63 - 1.
Definition minInt : Z := - 2 ^ 63.
Definition maxUint64 : Z := 2 ^ 64 - 1.

Inductive num_error := ErrSyntax | ErrRange.

(** [strconv.ParseUint(s, 10, 64)] after the sign: the first thing that goes
    wrong, left to right, is what it answers. *)
Fixpoint parse_uint (s : string) (acc : Z) : Z * option num_error :=
  match s with
  | "" => (acc, None)
  | String c s' =>
      if is_digit c then
        let n := acc * 10 + digit_val c in
        if maxUint64 <? n then (maxUint64, Some ErrRange) else parse_uint s' n
      else (0, Some ErrSyntax)
  end.

(** [strconv.Atoi] on a 64-bit platform: the number, and the error.  A value
    out of range is clamped beside the error, which callers that ignore the
    error do observe. *)
Definition Atoi (s : string) : Z * option num_error :=
  let '(neg, body) :=
    match s with
    | String c s' =>
        if Ascii.eqb c "-" then (true, s')
        else if Ascii.eqb c "+" then (false, s') else (false, s)
    | "" => (false, s)
    end in
  match body with
  | "" => (0, Some ErrSyntax)
  | _ =>
      match parse_uint body 0 with
      | (_, Some ErrSyntax) => (0, Some ErrSyntax)
      | (un, e) =>
          if negb neg && (2 ^ 63 <=? un) then (maxInt, Some ErrRange)
          else if neg && (2 ^ 63 <? un) then (minInt, Some ErrRange)
          else (if neg then - un else un, e)
      end
  end.

(** The common call [n, err := strconv.Atoi(s); if err != nil]. *)
Definition atoi_opt (s : string) : option Z :=
  match Atoi s with (n, None) => Some n | _ => None end.

Example Atoi_ex1 : Atoi "0042" = (42, None).
Proof. reflexivity. Qed.
Example Atoi_ex2 : Atoi "99999999999999999999" = (maxInt, Some ErrRange).
Proof. reflexivity. Qed.
Example Atoi_ex3 : Atoi "-9223372036854775808" = (minInt, None).
Proof. reflexivity. Qed.
Example Atoi_ex4 : Atoi "1a" = (0, Some ErrSyntax).
Proof. reflexivity. Qed.

Lemma parse_uint_range s acc n e :
  0 <= acc <= maxUint64 -> parse_uint s acc = (n, e) -> 0 <= n <= maxUint64.
Proof.
  revert acc. induction s as [|c s IH]; intros acc Hacc; simpl.
  - intros [= <- _]. done.
  - destruct (is_digit c) eqn:Hc; [|intros [= <- _]; unfold maxUint64; lia].
    apply is_digit_val in Hc.
    destruct (Z.ltb_spec maxUint64 (acc * 10 + digit_val c)).
    + intros [= <- _]. unfold maxUint64. lia.
    + apply IH. lia.
Qed.

(** Whatever the text, the answer is an [int]. *)
Lemma Atoi_range s n e : Atoi s = (n, e) -> minInt <= n <= maxInt.
Proof.
  assert (Hz : minInt <= 0 <= maxInt) by (unfold minInt, maxInt; lia).
  unfold Atoi. destruct (match s with "" => _ | _ => _ end) as [neg body].
  destruct body as [|c body]; [by intros [= <- _]|].
  destruct (parse_uint (String c body) 0) as [un [[]|]] eqn:E; [by intros [= <- _]| |];
    apply parse_uint_range in E; unfold maxUint64, minInt, maxInt in *; try lia;
    destruct neg; simpl; repeat match goal with
    | |- context [?a <=? ?b] => destruct (Z.leb_spec a b)
    | |- context [?a <? ?b] => destruct (Z.ltb_spec a b)
    end; intros [= <- _]; lia.
Qed.

(** ** Runs of decimal digits *)

(** The number a run of digits spells. *)
Fixpoint dec_val_go (acc : Z) (s : string) : Z :=
  match s with
  | "" => acc
  | String c s' => dec_val_go (acc * 10 + digit_val c) s'
  end.

Definition dec_val (s : string) : Z := dec_val_go 0 s.

Definition slen (s : string) : Z := Z.of_nat (String.length s).

Lemma slen_cons c s : slen (String c s) = 1 + slen s.
Proof. unfold slen. simpl. lia. Qed.

Lemma slen_nonneg s : 0 <= slen s.
Proof. unfold slen. lia. Qed.

Ltac slen :=
  rewrite ?slen_cons in *; change (slen "") with 0 in *;
  repeat match goal with
  | |- context [slen ?s] =>
      lazymatch goal with H : 0 <= slen s |- _ => fail | _ => pose proof (slen_nonneg s) end
  | _ : context [slen ?s] |- _ =>
      lazymatch goal with H : 0 <= slen s |- _ => fail | _ => pose proof (slen_nonneg s) end
  end; lia.

Lemma dec_val_go_acc acc s : dec_val_go acc s = acc * 10 ^ slen s + dec_val s.
Proof.
  unfold dec_val. revert acc. induction s as [|c s IH]; intros acc.
  - simpl. change (slen "") with 0. lia.
  - cbn [dec_val_go]. rewrite (IH (acc * 10 + _)), (IH (0 * 10 + _)).
    rewrite slen_cons, Z.pow_add_r by (pose proof (slen_nonneg s); lia). lia.
Qed.

Lemma dec_val_cons c s : dec_val (String c s) = digit_val c * 10 ^ slen s + dec_val s.
Proof. unfold dec_val at 1. cbn [dec_val_go]. rewrite dec_val_go_acc. lia. Qed.

Lemma dec_val_bound s : all_bytes is_digit s = true -> 0 <= dec_val s < 10 ^ slen s.
Proof.
  induction s as [|c s IH]; [done|]. simpl. intros [Hc Hs]%andb_true_iff.
  specialize (IH Hs). apply is_digit_val in Hc. pose proof (slen_nonneg s).
  rewrite dec_val_cons, slen_cons, Z.pow_add_r by lia. nia.
Qed.

(** Leading zeros do not count. *)
Lemma dec_val_trim s : dec_val (trim_left (fun c => Ascii.eqb c "0") s) = dec_val s.
Proof.
  induction s as [|c s IH]; [done|]. simpl. destruct (Ascii.eqb_spec c "0") as [->|]; [|done].
  rewrite IH, dec_val_cons. change (digit_val "0") with 0. lia.
Qed.

Lemma trim_left_digits p s :
  all_bytes is_digit s = true -> all_bytes is_digit (trim_left p s) = true.
Proof.
  induction s as [|c s IH]; [done|]. simpl. destruct (p c); [|done].
  intros [_ ?]%andb_true_iff. auto.
Qed.

Lemma digit_lex x y P A B : 0 <= A < P -> 0 <= B < P -> x < y -> x * P + A < y * P + B.
Proof. intros. assert ((x + 1) * P <= y * P) by (apply Z.mul_le_mono_nonneg_r; lia). lia. Qed.

(** Digits of equal number compare as their text does. *)
Lemma dec_val_compare_eq a b :
  all_bytes is_digit a = true -> all_bytes is_digit b = true -> slen a = slen b ->
  Compare a b = compareInt (dec_val a) (dec_val b).
Proof.
  revert b. induction a as [|x a IH]; intros [|y b]; simpl; intros Ha Hb Hlen.
  - done.
  - rewrite slen_cons in Hlen. pose proof (slen_nonneg b). change (slen "") with 0 in *. lia.
  - rewrite slen_cons in Hlen. pose proof (slen_nonneg a). change (slen "") with 0 in *. lia.
  - apply andb_true_iff in Ha as [Hx Ha], Hb as [Hy Hb].
    rewrite !slen_cons in Hlen. rewrite IH by (done || lia).
    pose proof (dec_val_bound a Ha). pose proof (dec_val_bound b Hb).
    rewrite !dec_val_cons. replace (slen b) with (slen a) in * by lia.
    apply is_digit_val in Hx, Hy. unfold digit_val in *.
    pose proof (digit_lex (byteZ x - 48) (byteZ y - 48) (10 ^ slen a) (dec_val a) (dec_val b)) as H1.
    pose proof (digit_lex (byteZ y - 48) (byteZ x - 48) (10 ^ slen a) (dec_val b) (dec_val a)) as H2.
    case_int (byteZ x) (byteZ y);
      case_int ((byteZ x - 48) * 10 ^ slen a + dec_val a) ((byteZ y - 48) * 10 ^ slen a + dec_val b);
      case_int (dec_val a) (dec_val b); unfold then_cmp; simpl; lia.
Qed.

(** A run without leading zeros: a longer one is the larger number. *)
Definition no_lead_zero (s : string) : bool :=
  match s with String c _ => negb (Ascii.eqb c "0") | "" => true end.

Lemma trim_left_no_lead_zero s : no_lead_zero (trim_left (fun c => Ascii.eqb c "0") s) = true.
Proof. induction s as [|c s IH]; [done|]. simpl. destruct (Ascii.eqb c "0") eqn:E; [done|]. simpl. by rewrite E. Qed.

Lemma dec_val_lower s :
  all_bytes is_digit s = true -> no_lead_zero s = true -> s <> "" -> 10 ^ (slen s - 1) <= dec_val s.
Proof.
  destruct s as [|c s]; [done|]. simpl. intros [Hc Hs]%andb_true_iff Hz _.
  rewrite dec_val_cons, slen_cons. replace (1 + slen s - 1) with (slen s) by lia.
  pose proof (dec_val_bound s Hs).
  assert (1 <= digit_val c).
  { pose proof (is_digit_val c Hc). destruct (Z.eq_dec (digit_val c) 0) as [E|]; [|lia].
    unfold digit_val in E. assert (c = "0"%char) as -> by (apply byteZ_inj; change (byteZ "0") with 48; lia).
    done. }
  nia.
Qed.

Lemma dec_val_len_lt a b :
  all_bytes is_digit a = true -> all_bytes is_digit b = true -> no_lead_zero b = true ->
  slen a < slen b -> dec_val a < dec_val b.
Proof.
  intros Ha Hb Hz Hlt. pose proof (dec_val_bound a Ha). pose proof (slen_nonneg a).
  destruct b as [|c b]; [change (slen "") with 0 in Hlt; lia|].
  pose proof (dec_val_lower (String c b) Hb Hz ltac:(done)).
  pose proof (Z.pow_le_mono_r 10 (slen a) (slen (String c b) - 1)). lia.
Qed.

(** Comparing zero-stripped runs first by length, then as text, is comparing
    the numbers they spell: the trick every version scheme here uses to avoid
    a fixed-width integer. *)
Lemma dec_compare a b :
  all_bytes is_digit a = true -> all_bytes is_digit b = true ->
  no_lead_zero a = true -> no_lead_zero b = true ->
  then_cmp (compareInt (slen a) (slen b)) (Compare a b) = compareInt (dec_val a) (dec_val b).
Proof.
  intros Ha Hb Hza Hzb. case_int (slen a) (slen b).
  - pose proof (dec_val_len_lt a b Ha Hb Hzb ltac:(lia)).
    case_int (dec_val a) (dec_val b); unfold then_cmp; simpl; lia.
  - rewrite then_cmp_0. by apply dec_val_compare_eq.
  - pose proof (dec_val_len_lt b a Hb Ha Hza ltac:(lia)).
    case_int (dec_val a) (dec_val b); unfold then_cmp; simpl; lia.
Qed.

(** * Runs *)

(** The longest prefix whose bytes satisfy [p]; [trim_left p] is what follows. *)
Fixpoint take_while (p : ascii -> bool) (s : string) : string :=
  match s with
  | "" => ""
  | String c s' => if p c then String c (take_while p s') else ""
  end.

Definition starts (p : ascii -> bool) (s : string) : bool :=
  match s with "" => false | String c _ => p c end.

Definition tail (s : string) : string :=
  match s with "" => "" | String _ s' => s' end.

Lemma take_while_all p s : all_bytes p (take_while p s) = true.
Proof. induction s as [|c s IH]; simpl; [done|]. destruct (p c) eqn:E; simpl; by rewrite ?E. Qed.

Lemma take_trim p s : take_while p s +:+ trim_left p s = s.
Proof. induction s as [|c s IH]; simpl; [done|]. destruct (p c); [|done]. by rewrite app_cons, IH. Qed.

Lemma trim_left_starts p s : starts p (trim_left p s) = false.
Proof. induction s as [|c s IH]; simpl; [done|]. destruct (p c) eqn:E; [done|]. done. Qed.

Lemma trim_left_length p s : (String.length (trim_left p s) <= String.length s)%nat.
Proof. induction s as [|c s IH]; simpl; [lia|]. destruct (p c); simpl; lia. Qed.

Lemma trim_left_shrinks p s :
  starts p s = true -> (String.length (trim_left p s) < String.length s)%nat.
Proof. destruct s as [|c s]; [done|]. simpl. intros ->. pose proof (trim_left_length p s). lia. Qed.

Lemma take_while_starts p s : starts p s = false -> take_while p s = "".
Proof. destruct s; [done|]. simpl. by intros ->. Qed.

Lemma trim_left_id p s : starts p s = false -> trim_left p s = s.
Proof. destruct s; [done|]. simpl. by intros ->. Qed.

Definition is_zero_byte (c : ascii) : bool := Ascii.eqb c "0".

(** Skipping zeros first, then splitting off the digits, or the other way
    round. *)
Lemma take_while_trim_zeros s :
  take_while is_digit (trim_left is_zero_byte s) = trim_left is_zero_byte (take_while is_digit s).
Proof.
  induction s as [|c s IH]; [done|]. simpl. unfold is_zero_byte at 1 3.
  destruct (Ascii.eqb_spec c "0") as [->|Hc].
  - rewrite IH. done.
  - simpl. destruct (is_digit c) eqn:E; simpl; [|done].
    unfold is_zero_byte. by destruct (Ascii.eqb_spec c "0").
Qed.

Lemma trim_digits_trim_zeros s :
  trim_left is_digit (trim_left is_zero_byte s) = trim_left is_digit s.
Proof.
  induction s as [|c s IH]; [done|]. simpl. unfold is_zero_byte at 1.
  destruct (Ascii.eqb_spec c "0") as [->|Hc]; [done|]. done.
Qed.

(** * Offsets *)

(** [s[n:]] and [s[:n]] for [n <= len(s)]. *)
Fixpoint str_drop (n : nat) (s : string) : string :=
  match n, s with
  | O, _ => s
  | S n, String _ s => str_drop n s
  | S _, "" => ""
  end.

Fixpoint str_take (n : nat) (s : string) : string :=
  match n, s with
  | S n, String c s => String c (str_take n s)
  | _, _ => ""
  end.

Lemma str_drop_app a b : str_drop (String.length a) (a +:+ b) = b.
Proof. by induction a. Qed.

Lemma str_take_app a b : str_take (String.length a) (a +:+ b) = a.
Proof. induction a as [|c a IH]; [by destruct b|]. rewrite app_cons. simpl. by rewrite IH. Qed.

Lemma str_take_drop n s : str_take n s +:+ str_drop n s = s.
Proof. revert s. induction n as [|n IH]; intros [|c s]; try done. simpl. by rewrite app_cons, IH. Qed.

Lemma take_while_app_all p a b :
  all_bytes p a = true -> take_while p (a +:+ b) = a +:+ take_while p b.
Proof.
  induction a as [|c a IH]; [done|]. rewrite !app_cons. simpl. intros [Hc Ha]%andb_true_iff.
  by rewrite Hc, IH, ?app_cons.
Qed.

Lemma trim_left_app_all p a b : all_bytes p a = true -> trim_left p (a +:+ b) = trim_left p b.
Proof.
  induction a as [|c a IH]; [done|]. rewrite app_cons. simpl. intros [Hc Ha]%andb_true_iff.
  by rewrite Hc, IH.
Qed.

Lemma all_bytes_take_while p q s : all_bytes p s = true -> all_bytes p (take_while q s) = true.
Proof.
  induction s as [|c s IH]; [done|]. simpl. intros [Hc Hs]%andb_true_iff.
  destruct (q c); [|done]. simpl. by rewrite Hc, IH.
Qed.

Lemma all_bytes_trim_left p q s : all_bytes p s = true -> all_bytes p (trim_left q s) = true.
Proof.
  induction s as [|c s IH]; [done|]. simpl. intros H. destruct (q c); [|done].
  apply IH. by apply andb_true_iff in H as [_ ?].
Qed.

(** A string of ASCII bytes, on which the case functions here are Go's. *)
Definition is_ascii (c : ascii) : bool := byteZ c <? 128.

(** * Paths: the package path *)

(** [path.Clean] on the segments of a path: [stack] is the output so far, the
    last segment first. *)
Fixpoint clean_segments (rooted : bool) (stack : list string) (segs : list string) : list string :=
  match segs with
  | [] => stack
  | seg :: segs =>
      clean_segments rooted
        (if (seg =? "")%string || (seg =? ".")%string then stack
         else if (seg =? "..")%string then
           match stack with
           | top :: below => if (top =? "..")%string then ".." :: stack else below
           | [] => if rooted then [] else [".."]
           end
         else seg :: stack) segs
  end.

Definition path_IsAbs (p : string) : bool := HasPrefix p "/".

Definition path_Clean (p : string) : string :=
  let rooted := path_IsAbs p in
  let body := Join (rev (clean_segments rooted [] (Split "/" p))) "/" in
  let out := if rooted then "/" +:+ body else body in
  if (out =? "")%string then "." else out.

Example clean_ex1 : map path_Clean ["a/../b"; "../../a"; "/../a"; "a//b/./c/"; ""; "/"; "a/.."]
  = ["b"; "../../a"; "/a"; "a/b/c"; "."; "/"; "."].
Proof. reflexivity. Qed.

(** A segment that is a name rather than path syntax. *)
Definition plain_segment (seg : string) : bool :=
  negb ((seg =? "")%string || (seg =? ".")%string || (seg =? "..")%string).

(** What [clean_segments] leaves of a relative path: some ".." and then names. *)
Lemma clean_segments_shape segs stack :
  (exists k names, stack = names ++ repeat ".." k /\ Forall (fun s => plain_segment s = true) names) ->
  exists k names, clean_segments false stack segs = names ++ repeat ".." k
    /\ Forall (fun s => plain_segment s = true) names.
Proof.
  revert stack. induction segs as [|seg segs IH]; intros stack Hst; simpl; [done|]. apply IH.
  destruct Hst as (k & names & -> & Hn).
  destruct ((seg =? "")%string || (seg =? ".")%string) eqn:E1; [by eauto|].
  destruct (String.eqb_spec seg "..") as [->|E2].
  - destruct names as [|n names]; simpl.
    + destruct k; simpl; [exists 1%nat, []|exists (S (S k)), []]; done.
    + apply Forall_cons in Hn as [Hn1 Hn2]. unfold plain_segment in Hn1.
      destruct (String.eqb_spec n "..") as [->|]; [done|]. by eauto.
  - exists k, (seg :: names). split; [done|]. constructor; [|done].
    unfold plain_segment. rewrite E1. simpl. by apply negb_true_iff, String.eqb_neq.
Qed.

Lemma clean_segments_plain segs stack :
  Forall (fun s => plain_segment s = true) segs -> clean_segments false stack segs = rev segs ++ stack.
Proof.
  revert stack. induction segs as [|seg segs IH]; intros stack; [done|].
  intros [Hs Hsegs]%Forall_cons. simpl. unfold plain_segment in Hs. apply negb_true_iff in Hs.
  apply orb_false_iff in Hs as [-> ->]. rewrite IH by done. by rewrite <- List.app_assoc.
Qed.

(** * Concatenation *)

Definition concat_string (l : list string) : string := foldr (fun a b => a +:+ b) "" l.

(** The text of one NUL byte. *)
Definition nul : string := String "000" "".

(** * Quoting *)

Definition hex_digit (n : Z) : string :=
  String.substring (Z.to_nat n) 1 "0123456789abcdef".

Definition quote_byte (c : ascii) : string :=
  let n := byteZ c in
  if n =? 7 then "\a" else if n =? 8 then "\b" else if n =? 9 then "\t" else if n =? 10 then "\n"
  else if n =? 11 then "\v" else if n =? 12 then "\f" else if n =? 13 then "\r"
  else if n =? 34 then String "\" (String c "") else if n =? 92 then "\\"
  else if (n <? 32) || (n =? 127) then "\x" +:+ hex_digit (n / 16) +:+ hex_digit (n mod 16)
  else String c "".

Fixpoint quote_go (s : string) : string :=
  match s with "" => "" | String c s' => quote_byte c +:+ quote_go s' end.

(** [fmt]'s %q; bytes above 127 are kept, as Go keeps printable text. *)
Definition Quote (s : string) : string :=
  let q := String (ascii_of_nat 34) "" in q +:+ quote_go s +:+ q.
