(* ===== verification/GoRunes.v ===== *)
(** Runes: Go reads the text of a string as UTF-8, one rune after another, and
    takes one byte at a time where the bytes are not UTF-8. *)

From stdpp Require Import base list strings.
From Stdlib Require Import ZArith Lia Ascii.
From S2P Require Import Prelude GoStrings.

(** U+FFFD, which stands for a byte that opens no rune. *)
Definition RuneError : Z := 65533.

Definition cont_val (c : ascii) : Z := byteZ c - 128.

(** The second byte's range after a first byte: it excludes overlong forms,
    surrogates and what is past U+10FFFF. *)
Definition accept_range (b0 : Z) : Z * Z :=
  if b0 =? 224 then (160, 191)
  else if b0 =? 237 then (128, 159)
  else if b0 =? 240 then (144, 191)
  else if b0 =? 244 then (128, 143)
  else (128, 191).

(** [utf8.DecodeRuneInString]: the first rune and its width. *)
Definition DecodeRune (s : string) : Z * nat :=
  let bad := (RuneError, 1%nat) in
  match s with
  | "" => (RuneError, 0%nat)
  | String c0 s1 =>
      let b0 := byteZ c0 in
      let '(lo, hi) := accept_range b0 in
      if b0 <? 128 then (b0, 1%nat)
      else if (b0 <? 194) || (244 <? b0) then bad
      else
        match s1 with
        | "" => bad
        | String c1 s2 =>
            if negb (in_range lo hi c1) then bad
            else if b0 <? 224 then ((b0 - 192) * 64 + cont_val c1, 2%nat)
            else
              match s2 with
              | "" => bad
              | String c2 s3 =>
                  if negb (in_range 128 191 c2) then bad
                  else if b0 <? 240 then ((b0 - 224) * 4096 + cont_val c1 * 64 + cont_val c2, 3%nat)
                  else
                    match s3 with
                    | "" => bad
                    | String c3 _ =>
                        if negb (in_range 128 191 c3) then bad
                        else ((b0 - 240) * 262144 + cont_val c1 * 4096 + cont_val c2 * 64 + cont_val c3, 4%nat)
                    end
              end
        end
  end.

(** The runes of [for _, r := range s] and of [[]rune(s)]: [skip] counts the
    bytes of the rune just read that are still to pass. *)
Fixpoint runes_go (skip : nat) (s : string) : list Z :=
  match s with
  | "" => []
  | String c s' =>
      match skip with
      | S k => runes_go k s'
      | O => let '(r, n) := DecodeRune (String c s') in r :: runes_go (Nat.pred n) s'
      end
  end.

Definition Runes (s : string) : list Z := runes_go 0 s.

(** [utf8.RuneCountInString] *)
Definition RuneCount (s : string) : nat := length (Runes s).

(** [strings.Map] with a mapping into ASCII. *)
Definition MapASCII (f : Z -> ascii) (s : string) : string :=
  foldr (fun r => String (f r)) "" (Runes s).

Example Runes_ex :
  map Runes ["ab"; utf8 [195; 169]; utf8 [226; 132; 170; 65]; utf8 [192; 175]; utf8 [237; 160; 128];
             utf8 [240; 159; 152; 128]; utf8 [244; 144; 128; 128]; utf8 [226; 132]]
  = [[97; 98]; [233]; [8490; 65]; [RuneError; RuneError]; [RuneError; RuneError; RuneError]; [128512];
     [RuneError; RuneError; RuneError; RuneError]; [RuneError; RuneError]].
Proof. reflexivity. Qed.

(** * Lemmas *)

Lemma DecodeRune_ascii c s : is_ascii c = true -> DecodeRune (String c s) = (byteZ c, 1%nat).
Proof.
  unfold is_ascii, DecodeRune. intros ->. by destruct (accept_range (byteZ c)).
Qed.

(** The runes of an ASCII text are its bytes. *)
Lemma Runes_ascii s : all_bytes is_ascii s = true -> Runes s = byteZ <$> String.list_ascii_of_string s.
Proof.
  unfold Runes. induction s as [|c s IH]; [done|]. cbn [all_bytes runes_go].
  intros [Hc Hs]%andb_true_iff. rewrite DecodeRune_ascii by done. simpl. by rewrite IH.
Qed.

Lemma MapASCII_bytes (f : Z -> ascii) (p : ascii -> bool) s :
  (forall r, p (f r) = true) -> all_bytes p (MapASCII f s) = true.
Proof.
  intros Hp. unfold MapASCII. induction (Runes s) as [|r l IH]; [done|]. simpl. by rewrite Hp, IH.
Qed.

(** An ASCII text whose bytes the mapping keeps is kept. *)
Lemma MapASCII_id (f : Z -> ascii) s :
  all_bytes is_ascii s = true -> all_bytes (fun c => Ascii.eqb (f (byteZ c)) c) s = true ->
  MapASCII f s = s.
Proof.
  intros Ha Hf. unfold MapASCII. rewrite Runes_ascii by done. clear Ha.
  induction s as [|c s IH]; [done|]. simpl in *. apply andb_true_iff in Hf as [Hc Hs].
  apply Ascii.eqb_eq in Hc. rewrite Hc. f_equal. by apply IH.
Qed.

Lemma Runes_empty s : Runes s = [] <-> s = "".
Proof.
  unfold Runes. split; [|by intros ->]. destruct s as [|c s]; [done|]. cbn [runes_go].
  by destruct (DecodeRune (String c s)).
Qed.

(** [strings.ToLower]: the ASCII loop, or the Unicode one, whose tables are an
    argument. *)
Definition ToLowerU (lower_unicode : string -> string) (s : string) : string :=
  if all_bytes is_ascii s then ToLower s else lower_unicode s.
