(* ===== verification/GoSort.v ===== *)
(** Go's [sort.SliceStable] and [sort.Slice].

    The source sorts with a [less] function.  [SliceStable] is the insertion
    sort both run on a short slice (a block of twenty elements, and twelve); a
    stable sort has one answer under a strict weak order, so the result is the
    library's at every length when the sort is stable.  The theorems about a
    [sort.Slice] use only that the result is ordered and a permutation. *)

From stdpp Require Import base list sorting strings.
From Stdlib Require Import ZArith Lia Sorted.
From S2P Require Import Prelude GoStrings.

(** Each element moves left past the ones it is less than; the accumulator holds
    the last element first. *)
Fixpoint insert_left {A} (less : A -> A -> bool) (x : A) (sorted_rev : list A) : list A :=
  match sorted_rev with
  | y :: rest => if less x y then y :: insert_left less x rest else x :: sorted_rev
  | [] => [x]
  end.

Definition SliceStable {A} (less : A -> A -> bool) (l : list A) : list A :=
  rev (fold_left (fun acc x => insert_left less x acc) l []).

Lemma insert_left_perm {A} (less : A -> A -> bool) x l : insert_left less x l ≡ₚ x :: l.
Proof.
  induction l as [|y l IH]; simpl; [done|]. destruct (less x y); [|done].
  rewrite IH. apply Permutation_swap.
Qed.

Lemma SliceStable_perm {A} (less : A -> A -> bool) l : SliceStable less l ≡ₚ l.
Proof.
  unfold SliceStable. rewrite <- Permutation_rev.
  assert (H : forall acc, fold_left (fun acc x => insert_left less x acc) l acc ≡ₚ l ++ acc).
  { induction l as [|x l IH]; intros acc; simpl; [done|].
    rewrite IH, insert_left_perm. by rewrite Permutation_middle. }
  rewrite H. by rewrite List.app_nil_r.
Qed.

Section sort.
Context {A} (less : A -> A -> bool) (ok : A -> Prop).
Context (asym : forall x y, ok x -> ok y -> less x y = true -> less y x = false).
Context (trans : forall x y z, ok x -> ok y -> ok z ->
           less y x = false -> less z y = false -> less z x = false).

(** The accumulator holds the last element first. *)
Let R (y x : A) := less y x = false.

Lemma insert_left_sorted x l :
  ok x -> Forall ok l -> StronglySorted R l -> StronglySorted R (insert_left less x l).
Proof.
  intros Hx. induction l as [|y l IH]; simpl; intros Hl Hs.
  - constructor; constructor.
  - apply Forall_cons in Hl as [Hy Hl]. apply StronglySorted_inv in Hs as [Hs Hyl].
    destruct (less x y) eqn:E.
    + constructor; [by apply IH|]. rewrite insert_left_perm. constructor; [|done].
      by apply asym.
    + constructor; [constructor; done|]. constructor; [done|].
      apply Forall_forall. intros z Hz. rewrite Forall_forall in Hl, Hyl.
      apply (trans z y x); auto. by apply Hyl.
Qed.

Lemma SliceStable_sorted l :
  Forall ok l -> StronglySorted (fun x y => less y x = false) (SliceStable less l).
Proof.
  unfold SliceStable. intros Hl.
  assert (H : forall acc, Forall ok acc -> StronglySorted R acc ->
    StronglySorted R (fold_left (fun acc x => insert_left less x acc) l acc)).
  { induction l as [|x l IH]; intros acc Hacc Hs; simpl; [done|].
    apply Forall_cons in Hl as [Hx Hl]. apply IH; [done| |by apply insert_left_sorted].
    rewrite insert_left_perm. by constructor. }
  specialize (H [] ltac:(constructor) ltac:(constructor)). revert H.
  generalize (fold_left (fun acc x => insert_left less x acc) l []). intros s. clear.
  induction s as [|x s IH]; simpl; intros Hs; [constructor|].
  apply StronglySorted_inv in Hs as [Hs Hx]. specialize (IH Hs).
  revert IH. assert (Hx' : Forall (R x) (rev s)) by by rewrite <- Permutation_rev.
  revert Hx'. generalize (rev s). clear. intros s. induction s as [|y s IH]; simpl; intros Hx Hs.
  - constructor; constructor.
  - apply StronglySorted_inv in Hs as [Hs Hy]. apply Forall_cons in Hx as [Hxy Hx].
    constructor; [by apply IH|]. apply Forall_app. split; [done|]. by constructor.
Qed.
End sort.

(** Sorting by a comparator: ordered by it, whatever the elements are. *)
Lemma SliceStable_by {A} (less : A -> A -> bool) (cmp : A -> A -> Z) `{!Comparator cmp} l :
  (forall x y, less x y = (cmp x y <? 0)) ->
  StronglySorted (fun x y => cmp x y <= 0) (SliceStable less l).
Proof.
  intros Hl. assert (H : StronglySorted (fun x y => less y x = false) (SliceStable less l)).
  { apply (SliceStable_sorted less (fun _ => True)).
    - intros x y _ _. rewrite !Hl, (cmp_anti cmp x y), Z.ltb_lt, Z.ltb_ge. lia.
    - intros x y z _ _ _. rewrite !Hl, !Z.ltb_ge, (cmp_anti cmp x y), (cmp_anti cmp y z), (cmp_anti cmp x z).
      intros H1 H2. pose proof (cmp_trans cmp x y z). lia.
    - by apply Forall_true. }
  induction H as [|x s Hs IH Hx]; constructor; [done|]. eapply Forall_impl; [exact Hx|].
  intros y. cbn beta. rewrite Hl, Z.ltb_ge, (cmp_anti cmp x y). lia.
Qed.

(** [sort.Strings] and [slices.Sort] of strings. *)
Definition sort_Strings (l : list string) : list string := SliceStable (fun a b => Compare a b <? 0) l.

Lemma sort_Strings_perm l : sort_Strings l ≡ₚ l.
Proof. apply SliceStable_perm. Qed.

Lemma sort_Strings_sorted l : StronglySorted (fun a b => Compare a b <= 0) (sort_Strings l).
Proof. by apply (SliceStable_by _ Compare). Qed.
