(* ===== verification/GoTime.v ===== *)
(** Go's time arithmetic: an int64 of nanoseconds, its seconds as a double, and
    its text.  A time is a number of nanoseconds since the Unix epoch. *)

From stdpp Require Import base list strings.
From stdpp Require Import pretty.
From Stdlib Require Import ZArith Lia Ascii.
From S2P Require Import Prelude GoStrings.

Definition Second : Z := 10 ^ 9.
Definition Hour : Z := 3600 * 10 ^ 9.

(** int64 arithmetic wraps. *)
Definition wrap64 (z : Z) : Z := (z + 2 ^ 63) mod 2 ^ 64 - 2 ^ 63.

Lemma wrap64_id z : - 2 ^ 63 <= z < 2 ^ 63 -> wrap64 z = z.
Proof. unfold wrap64. intros H. rewrite Z.mod_small by lia. lia. Qed.

(** The zero [time.Time] is the start of year 1. *)
Definition zero_time : Z := - 62135596800 * Second.

(** [t.Sub(u)] is the difference, kept inside int64. *)
Definition Time_Sub (t u : Z) : Z := Z.max minInt (Z.min maxInt (t - u)).

Lemma Time_Sub_lt t u d : minInt < d <= maxInt -> (Time_Sub t u < d <-> t - u < d).
Proof. unfold Time_Sub. lia. Qed.

(** * Seconds *)

(** [n / d] rounded to the nearest integer, ties to the even one. *)
Definition round_even (n d : Z) : Z :=
  let q := n / d in
  let r := 2 * (n mod d) in
  if r <? d then q else if d <? r then q + 1 else if Z.even q then q else q + 1.

(** The power of two at or below [n / d]. *)
Definition exponent (n d : Z) : Z :=
  let e := Z.log2 n - Z.log2 d in
  if n * 2 ^ Z.max 0 (- e) <? d * 2 ^ Z.max 0 e then e - 1 else e.

(** The double nearest to the positive [n / d], as a fraction. *)
Definition round_double (n d : Z) : Z * Z :=
  let s := 52 - exponent n d in
  if 0 <=? s then (round_even (n * 2 ^ s) d, 2 ^ s) else (round_even n (d * 2 ^ (- s)) * 2 ^ (- s), 1).

(** [int64(d.Seconds())]: the whole seconds plus the rest as doubles, cut
    towards zero.  The sum of a whole number of seconds is exact. *)
Definition whole_seconds (d : Z) : Z :=
  let '(sec, ns) := (d / Second, d mod Second) in
  if ns =? 0 then sec
  else
    let '(a, b) := round_double ns Second in
    let '(a, b) := round_double (sec * b + a) b in
    a / b.

Definition Seconds (d : Z) : Z := if d <? 0 then - whole_seconds (- d) else whole_seconds d.

(** A fraction of a second that is nearly whole can be rounded up. *)
Example Seconds_ex :
  map Seconds [1999999999; -1999999999; 20000000 * Second + 999999999; 90 * Second] = [1; -1; 20000001; 90].
Proof. vm_compute. reflexivity. Qed.

Lemma Seconds_exact s : Seconds (s * Second) = s.
Proof.
  assert (H : forall n, 0 <= n -> whole_seconds (n * Second) = n).
  { intros n Hn. unfold whole_seconds. by rewrite Z.mod_mul, Z.div_mul. }
  unfold Seconds. destruct (Z.ltb_spec (s * Second) 0) as [E|E]; unfold Second in *.
  - rewrite <- Z.mul_opp_l. fold Second. rewrite H by lia. lia.
  - fold Second. apply H. lia.
Qed.

(** * Text *)

Definition zeros (n : nat) : string := concat_string (repeat "0" n).

(** The digits of a fraction, without trailing zeros; nothing for 0. *)
Definition frac_text (v : Z) (prec : nat) : string :=
  let f := v mod 10 ^ Z.of_nat prec in
  if f =? 0 then ""
  else
    let digits := pretty f in
    "." +:+ TrimRight (zeros (prec - String.length digits) +:+ digits) "0".

Definition micro_sign : string := utf8 [194; 181].

(** [Duration.String] *)
Definition Duration_String (d : Z) : string :=
  let u := Z.abs d in
  let text :=
    if u =? 0 then "0s"
    else if u <? 1000 then pretty u +:+ "ns"
    else if u <? 10 ^ 6 then pretty (u / 1000) +:+ frac_text u 3 +:+ micro_sign +:+ "s"
    else if u <? Second then pretty (u / 10 ^ 6) +:+ frac_text u 6 +:+ "ms"
    else
      let s := u / Second in
      let m := s / 60 in
      let h := m / 60 in
      (if 0 <? h then pretty h +:+ "h" else "") +:+
      (if 0 <? m then pretty (m mod 60) +:+ "m" else "") +:+
      pretty (s mod 60) +:+ frac_text u 9 +:+ "s"
  in (if d <? 0 then "-" else "") +:+ text.

(** [d.Round(m)]: to the nearest multiple, half away from zero; a result outside
    int64 is its nearest bound. *)
Definition Duration_Round (d m : Z) : Z :=
  if m <=? 0 then d
  else
    let r := Z.abs d mod m in
    if d <? 0 then
      if r + r <? m then d + r
      else let d1 := wrap64 (d - m + r) in if d1 <? d then d1 else minInt
    else
      if r + r <? m then d - r
      else let d1 := wrap64 (d + m - r) in if d <? d1 then d1 else maxInt.

Example Duration_String_ex :
  map Duration_String [0; 1500; 90 * Second; 3 * Hour; -1; 2500000; minInt; 59 * Second + 500000000]
  = ["0s"; "1.5" +:+ micro_sign +:+ "s"; "1m30s"; "3h0m0s"; "-1ns"; "2.5ms"; "-2562047h47m16.854775808s"; "59.5s"].
Proof. vm_compute. reflexivity. Qed.

Example Duration_Round_ex :
  map (fun d => Duration_Round d Second) [1499999999; 1500000000; -1500000000; -1400000000; minInt; maxInt]
  = [Second; 2 * Second; -2 * Second; - Second; minInt; maxInt].
Proof. vm_compute. reflexivity. Qed.
