(* ===== verification/GoCalendar.v ===== *)
(** Go's calendar: the date of a day, the day of a date, and the texts package
    time writes and reads with fixed-width fields.

    A day is counted from 1 January of year 1; a time is its nanoseconds since
    the Unix epoch, in UTC.  The year is found by cycles of 400, 100, 4 and 1
    years, for any integer. *)

From stdpp Require Import base list strings pretty.
From Stdlib Require Import ZArith Lia Ascii.
From S2P Require Import Prelude GoStrings GoTime.

#[local] Ltac Zify.zify_post_hook ::= Z.to_euclidean_division_equations.

(** * Years *)

Definition leap (y : Z) : bool := (y mod 4 =? 0) && (negb (y mod 100 =? 0) || (y mod 400 =? 0)).

(** The day the year starts on. *)
Definition year_start (y : Z) : Z := let p := y - 1 in 365 * p + p / 4 - p / 100 + p / 400.

Definition year_of (d : Z) : Z :=
  let n400 := d / 146097 in
  let r := d mod 146097 in
  let n100 := Z.min 3 (r / 36524) in
  let r := r - 36524 * n100 in
  let n4 := r / 1461 in
  let r := r mod 1461 in
  1 + 400 * n400 + 100 * n100 + 4 * n4 + Z.min 3 (r / 365).

Definition year_length (y : Z) : Z := if leap y then 366 else 365.

Lemma year_start_next y : year_start (y + 1) = year_start y + year_length y.
Proof.
  unfold year_start, year_length, leap. replace (y + 1 - 1) with y by lia.
  destruct (Z.eqb_spec (y mod 4) 0), (Z.eqb_spec (y mod 100) 0), (Z.eqb_spec (y mod 400) 0); cbn [andb orb negb]; lia.
Qed.

Lemma year_length_pos y : 365 <= year_length y <= 366.
Proof. unfold year_length. destruct (leap y); lia. Qed.

Lemma year_start_mono y z : y < z -> year_start y + 365 <= year_start z.
Proof. unfold year_start. lia. Qed.

Lemma year_of_bounds d : year_start (year_of d) <= d < year_start (year_of d + 1).
Proof.
  unfold year_start, year_of. set (n400 := d / 146097). set (r := d mod 146097).
  assert (Hd : d = 146097 * n400 + r /\ 0 <= r < 146097) by (subst n400 r; lia).
  clearbody n400 r. destruct Hd as [-> Hr].
  set (n100 := Z.min 3 (r / 36524)). set (r1 := r - 36524 * n100).
  assert (H1 : 0 <= n100 <= 3 /\ 0 <= r1 <= 36524 /\ (n100 < 3 -> r1 < 36524)) by (subst n100 r1; lia).
  assert (Er : r = 36524 * n100 + r1) by (subst r1; lia). clearbody n100 r1. subst r.
  set (n4 := r1 / 1461). set (r2 := r1 mod 1461).
  assert (H2 : 0 <= n4 <= 24 /\ 0 <= r2 < 1461 /\ r1 = 1461 * n4 + r2) by (subst n4 r2; lia).
  clearbody n4 r2. destruct H2 as (Hn4 & Hr2 & ->).
  set (n1 := Z.min 3 (r2 / 365)). assert (H3 : 0 <= n1 <= 3 /\ 365 * n1 <= r2 /\ (r2 < 365 * n1 + 365 \/ n1 = 3)) by (subst n1; lia).
  clearbody n1.
  replace (1 + 400 * n400 + 100 * n100 + 4 * n4 + n1 - 1) with (400 * n400 + 100 * n100 + 4 * n4 + n1) by lia.
  replace (1 + 400 * n400 + 100 * n100 + 4 * n4 + n1 + 1 - 1) with (400 * n400 + 100 * n100 + 4 * n4 + n1 + 1) by lia.
  assert (E4 : (400 * n400 + 100 * n100 + 4 * n4 + n1) / 4 = 100 * n400 + 25 * n100 + n4) by lia.
  assert (E100 : (400 * n400 + 100 * n100 + 4 * n4 + n1) / 100 = 4 * n400 + n100) by lia.
  assert (E400 : (400 * n400 + 100 * n100 + 4 * n4 + n1) / 400 = n400) by lia.
  rewrite E4, E100, E400. split; [lia|].
  destruct (Z.eq_dec n1 3) as [->|]; [|lia].
  assert (E4' : (400 * n400 + 100 * n100 + 4 * n4 + 3 + 1) / 4 = 100 * n400 + 25 * n100 + n4 + 1) by lia. rewrite E4'.
  destruct (Z.eq_dec n4 24) as [->|]; [|lia]. destruct (Z.eq_dec n100 3) as [->|]; lia.
Qed.

Lemma year_of_unique d y : year_start y <= d < year_start (y + 1) -> year_of d = y.
Proof.
  intros H. pose proof (year_of_bounds d) as Hb. destruct (Z.lt_trichotomy (year_of d) y) as [Hl|[->|Hl]]; [exfalso|done|exfalso].
  - destruct (Z.eq_dec (year_of d + 1) y) as [E|]; [rewrite E in Hb; lia|].
    pose proof (year_start_mono (year_of d + 1) y ltac:(lia)). lia.
  - destruct (Z.eq_dec (y + 1) (year_of d)) as [E|]; [rewrite E in H; lia|].
    pose proof (year_start_mono (y + 1) (year_of d) ltac:(lia)). lia.
Qed.

(** * Months *)

Definition month_lengths (is_leap : bool) : list Z := [31; if is_leap then 29 else 28; 31; 30; 31; 30; 31; 31; 30; 31; 30; 31].

Definition daysIn (y m : Z) : Z := default 0 (month_lengths (leap y) !! Z.to_nat (m - 1)).

(** The month and day of a day of the year, months from [m] on. *)
Fixpoint month_day (lengths : list Z) (m yday : Z) : Z * Z :=
  match lengths with
  | [] => (m, yday + 1)
  | n :: lengths => if yday <? n then (m, yday + 1) else month_day lengths (m + 1) (yday - n)
  end.

Record date := MkDate { year : Z; month : Z; day : Z }.

Definition date_of (d : Z) : date :=
  let y := year_of d in
  let md := month_day (month_lengths (leap y)) 1 (d - year_start y) in
  MkDate y md.1 md.2.

(** [time.Date] of a date there is. *)
Definition day_of (x : date) : Z :=
  year_start (year x) + foldr Z.add 0 (take (Z.to_nat (month x - 1)) (month_lengths (leap (year x)))) + (day x - 1).

Definition valid_date (x : date) : Prop := 1 <= month x <= 12 /\ 1 <= day x <= daysIn (year x) (month x).

(** One number per date, in the order of year, month and day. *)
Definition date_rank (x : date) : Z := 512 * year x + 32 * month x + day x.

Lemma month_day_spec lengths m yday :
  0 <= yday < foldr Z.add 0 lengths ->
  exists i n, lengths !! i = Some n /\ (month_day lengths m yday).1 = m + Z.of_nat i
    /\ 1 <= (month_day lengths m yday).2 <= n
    /\ yday = foldr Z.add 0 (take i lengths) + (month_day lengths m yday).2 - 1.
Proof.
  revert m yday. induction lengths as [|n l IH]; intros m yday H; cbn [foldr] in H; [lia|]. cbn [month_day].
  destruct (Z.ltb_spec yday n) as [Hlt|Hge].
  - exists 0%nat, n. cbn. split; [done|]. lia.
  - destruct (IH (m + 1) (yday - n) ltac:(lia)) as (i & k & Hi & Hm & Hd & He). exists (S i), k.
    cbn [lookup list_lookup take foldr]. split; [done|]. split; [rewrite Hm; lia|]. split; [done|]. lia.
Qed.

Lemma month_day_of lengths m i n d :
  Forall (fun k => 0 <= k) lengths -> lengths !! i = Some n -> 1 <= d <= n ->
  month_day lengths m (foldr Z.add 0 (take i lengths) + (d - 1)) = (m + Z.of_nat i, d).
Proof.
  intros Hpos. revert m i. induction Hpos as [|k l Hk Hl IH]; intros m i Hi Hd; [done|].
  destruct i as [|i]; cbn [lookup list_lookup] in Hi; cbn [take foldr month_day].
  - injection Hi as ->. rewrite (proj2 (Z.ltb_lt _ _)) by lia. f_equal; lia.
  - assert (0 <= foldr Z.add 0 (take i l)).
    { clear - Hl. revert i. induction Hl as [|x l Hx _ IHl]; intros [|i]; cbn [take foldr]; try lia. specialize (IHl i). lia. }
    rewrite (proj2 (Z.ltb_ge _ _)) by lia.
    replace (k + foldr Z.add 0 (take i l) + (d - 1) - k) with (foldr Z.add 0 (take i l) + (d - 1)) by lia.
    rewrite IH by done. f_equal; lia.
Qed.

Lemma month_day_from lengths m yday : m <= (month_day lengths m yday).1.
Proof.
  revert m yday. induction lengths as [|n l IH]; intros m yday; cbn [month_day]; [cbn; lia|].
  destruct (yday <? n); [cbn; lia|]. specialize (IH (m + 1) (yday - n)). lia.
Qed.

Lemma month_day_mono lengths m a b :
  a < b -> let x := month_day lengths m a in let y := month_day lengths m b in x.1 < y.1 \/ x.1 = y.1 /\ x.2 < y.2.
Proof.
  revert m a b. induction lengths as [|n l IH]; intros m a b H; cbn [month_day]; [cbn; lia|].
  destruct (Z.ltb_spec a n), (Z.ltb_spec b n); cbn [fst snd]; try lia.
  - left. pose proof (month_day_from l (m + 1) (b - n)). lia.
  - apply IH. lia.
Qed.

Lemma month_lengths_sum is_leap : foldr Z.add 0 (month_lengths is_leap) = if is_leap then 366 else 365.
Proof. by destruct is_leap. Qed.

Lemma month_lengths_small is_leap : Forall (fun k => 0 <= k <= 31) (month_lengths is_leap).
Proof. destruct is_leap; repeat constructor; lia. Qed.

Lemma date_of_valid d : valid_date (date_of d).
Proof.
  pose proof (year_of_bounds d) as Hb. rewrite year_start_next in Hb. unfold year_length in Hb.
  destruct (month_day_spec (month_lengths (leap (year_of d))) 1 (d - year_start (year_of d))) as (i & n & Hi & Hm & Hd & _).
  { rewrite month_lengths_sum. lia. }
  unfold valid_date, date_of, daysIn. cbn [month day year]. rewrite Hm.
  replace (Z.to_nat (1 + Z.of_nat i - 1)) with i by lia. rewrite Hi. change (default 0 (Some n)) with n.
  apply lookup_lt_Some in Hi. assert (length (month_lengths (leap (year_of d))) = 12%nat) by done. lia.
Qed.

Lemma day_of_date_of d : day_of (date_of d) = d.
Proof.
  pose proof (year_of_bounds d) as Hb. rewrite year_start_next in Hb. unfold year_length in Hb.
  destruct (month_day_spec (month_lengths (leap (year_of d))) 1 (d - year_start (year_of d))) as (i & n & Hi & Hm & Hd & He).
  { rewrite month_lengths_sum. lia. }
  unfold day_of, date_of. cbn [month day year]. rewrite Hm. replace (Z.to_nat (1 + Z.of_nat i - 1)) with i by lia. lia.
Qed.

Lemma date_of_day_of x : valid_date x -> date_of (day_of x) = x.
Proof.
  intros [Hm Hd]. destruct x as [y m d]. cbn [month day year] in *. unfold daysIn in Hd.
  destruct (month_lengths (leap y) !! Z.to_nat (m - 1)) as [n|] eqn:Hi; cbn in Hd; [|lia].
  set (yday := foldr Z.add 0 (take (Z.to_nat (m - 1)) (month_lengths (leap y))) + (d - 1)).
  assert (Hday : day_of (MkDate y m d) = year_start y + yday) by (unfold day_of; cbn [month day year]; lia).
  assert (Hpos : Forall (fun k => 0 <= k) (month_lengths (leap y))).
  { eapply Forall_impl; [apply month_lengths_small|]. cbn. lia. }
  pose proof (month_day_of (month_lengths (leap y)) 1 (Z.to_nat (m - 1)) n d Hpos Hi Hd) as Hmd. fold yday in Hmd.
  assert (Hy : year_of (year_start y + yday) = y).
  { apply year_of_unique. rewrite year_start_next. unfold year_length.
    assert (Hsum : foldr Z.add 0 (take (S (Z.to_nat (m - 1))) (month_lengths (leap y))) <= (if leap y then 366 else 365)
                   /\ 0 <= foldr Z.add 0 (take (Z.to_nat (m - 1)) (month_lengths (leap y)))
                   /\ foldr Z.add 0 (take (S (Z.to_nat (m - 1))) (month_lengths (leap y)))
                      = foldr Z.add 0 (take (Z.to_nat (m - 1)) (month_lengths (leap y))) + n).
    { assert (Hn : (Z.to_nat (m - 1) < 12)%nat) by lia. revert Hi Hn. generalize (Z.to_nat (m - 1)) as i. intros i Hi Hn.
      do 12 (destruct i as [|i]; [destruct (leap y); cbn in Hi |- *; injection Hi as <-; lia|]). lia. }
    destruct Hsum as (A & B & C). rewrite C in A. subst yday. clear - A B Hd.
    revert A B. generalize (foldr Z.add 0 (take (Z.to_nat (m - 1)) (month_lengths (leap y)))) as s. destruct (leap y); lia. }
  unfold date_of. rewrite Hday, Hy. replace (year_start y + yday - year_start y) with yday by lia. rewrite Hmd. cbn [fst snd].
  f_equal. lia.
Qed.

(** Later days have later dates. *)
Lemma date_rank_mono a b : a < b -> date_rank (date_of a) < date_rank (date_of b).
Proof.
  intros H. destruct (date_of_valid a) as [Ha1 Ha2], (date_of_valid b) as [Hb1 Hb2].
  assert (Hsmall : forall y m, daysIn y m <= 31).
  { intros y m. unfold daysIn. destruct (month_lengths (leap y) !! _) eqn:E; cbn; [|lia].
    pose proof (month_lengths_small (leap y)) as Hs. rewrite Forall_forall in Hs. apply Hs. by eapply list_elem_of_lookup_2. }
  pose proof (Hsmall (year (date_of a)) (month (date_of a))). pose proof (Hsmall (year (date_of b)) (month (date_of b))).
  pose proof (year_of_bounds a). pose proof (year_of_bounds b).
  assert (Hy : year_of a <= year_of b).
  { destruct (Z.le_gt_cases (year_of a) (year_of b)) as [|Hl]; [done|exfalso].
    destruct (Z.eq_dec (year_of b + 1) (year_of a)) as [E|]; [rewrite E in *; lia|].
    pose proof (year_start_mono (year_of b + 1) (year_of a) ltac:(lia)). lia. }
  unfold date_rank. change (year (date_of a)) with (year_of a) in *. change (year (date_of b)) with (year_of b) in *.
  destruct (Z.eq_dec (year_of a) (year_of b)) as [E|]; [|lia].
  destruct (month_day_mono (month_lengths (leap (year_of a))) 1 (a - year_start (year_of a)) (b - year_start (year_of a)) ltac:(lia)) as [Hm|[Hm Hd]];
    unfold date_of in *; cbn [year month day] in *; rewrite <- E in *; lia.
Qed.

(** * Fixed-width numbers *)

Definition digit_char (n : Z) : ascii := ascii_of_N (Z.to_N (48 + n)).

(** The last [w] digits of [n]. *)
Fixpoint digits (w : nat) (n : Z) : string :=
  match w with O => "" | S w => digits w (n / 10) +:+ String (digit_char (n mod 10)) "" end.

(** package time's appendInt *)
Definition appendInt (n : Z) (w : nat) : string :=
  let abs := if Z.abs n <? 10 ^ Z.of_nat w then digits w (Z.abs n) else pretty (Z.abs n) in
  if n <? 0 then "-" +:+ abs else abs.

Lemma digit_char_spec n : 0 <= n < 10 -> is_digit (digit_char n) = true /\ digit_val (digit_char n) = n.
Proof.
  intros H. assert (Hn : n ∈ [0; 1; 2; 3; 4; 5; 6; 7; 8; 9]) by (rewrite !elem_of_cons; lia).
  repeat (apply elem_of_cons in Hn as [->|Hn]; [by split; vm_compute|]). by apply elem_of_nil in Hn.
Qed.

Lemma digits_length w n : String.length (digits w n) = w.
Proof. revert n. induction w as [|w IH]; intros n; [done|]. cbn [digits]. rewrite length_app_string, IH. cbn. lia. Qed.

Lemma digits_digits w n : all_bytes is_digit (digits w n) = true.
Proof.
  revert n. induction w as [|w IH]; intros n; [done|]. cbn [digits]. rewrite all_bytes_app, IH. cbn [all_bytes andb].
  destruct (digit_char_spec (n mod 10) ltac:(lia)) as [-> _]. done.
Qed.

Lemma dec_val_app a b : dec_val (a +:+ b) = dec_val a * 10 ^ slen b + dec_val b.
Proof.
  unfold dec_val at 1. rewrite <- (Z.add_0_l (dec_val b)), Z.add_0_l.
  assert (H : forall acc, dec_val_go acc (a +:+ b) = dec_val_go (dec_val_go acc a) b).
  { induction a as [|c a IH]; intros acc; [by rewrite app_nil_l|]. rewrite app_cons. cbn [dec_val_go]. apply IH. }
  rewrite H, dec_val_go_acc. done.
Qed.

Lemma digits_val w n : 0 <= n < 10 ^ Z.of_nat w -> dec_val (digits w n) = n.
Proof.
  revert n. induction w as [|w IH]; intros n Hn; [cbn in *; lia|]. cbn [digits].
  replace (10 ^ Z.of_nat (S w)) with (10 * 10 ^ Z.of_nat w) in Hn by (rewrite Nat2Z.inj_succ, Z.pow_succ_r; lia).
  rewrite dec_val_app, IH by (split; [apply Z.div_pos|apply Z.div_lt_upper_bound]; lia).
  destruct (digit_char_spec (n mod 10) ltac:(lia)) as [_ Hd]. rewrite dec_val_cons, Hd.
  change (slen (String (digit_char (n mod 10)) "")) with 1. change (slen "") with 0. change (dec_val "") with 0. lia.
Qed.

Lemma digits_compare w a b :
  0 <= a < 10 ^ Z.of_nat w -> 0 <= b < 10 ^ Z.of_nat w -> Compare (digits w a) (digits w b) = compareInt a b.
Proof.
  intros Ha Hb. rewrite dec_val_compare_eq by (apply digits_digits || (unfold slen; by rewrite !digits_length)).
  by rewrite !digits_val.
Qed.

Lemma Compare_app_eq a b x y :
  String.length a = String.length b -> Compare (a +:+ x) (b +:+ y) = then_cmp (Compare a b) (Compare x y).
Proof.
  revert b. induction a as [|c a IH]; intros [|d b] H; try discriminate H; [by rewrite !app_nil_l, then_cmp_0|].
  injection H as H. rewrite !app_cons. cbn [Compare]. rewrite IH by done. by rewrite then_cmp_assoc.
Qed.

(** * Dates as text *)

(** The layout 2006-01-02. *)
Definition date_text (x : date) : string := appendInt (year x) 4 +:+ "-" +:+ appendInt (month x) 2 +:+ "-" +:+ appendInt (day x) 2.

(** A number of exactly [w] digits at the front. *)
Definition fixed_num (w : nat) (s : string) : option (Z * string) :=
  let d := str_take w s in
  if (String.length d =? w)%nat && all_bytes is_digit d then Some (dec_val d, str_drop w s) else None.

Definition valid_dateb (x : date) : bool := (1 <=? month x) && (month x <=? 12) && (1 <=? day x) && (day x <=? daysIn (year x) (month x)).

(** [time.Parse] with that layout. *)
Definition ParseDate (s : string) : option date :=
  '(y, s) ← fixed_num 4 s;
  s ← cut_prefix s "-";
  '(m, s) ← fixed_num 2 s;
  if (m <? 1) || (12 <? m) then None
  else
    s ← cut_prefix s "-";
    '(d, s) ← fixed_num 2 s;
    if negb (s =? "")%string then None
    else if (d <? 1) || (daysIn y m <? d) then None
    else Some (MkDate y m d).

Lemma fixed_num_digits w n s : 0 <= n < 10 ^ Z.of_nat w -> fixed_num w (digits w n +:+ s) = Some (n, s).
Proof.
  intros Hn. unfold fixed_num. pose proof (str_take_app (digits w n) s) as Ht. pose proof (str_drop_app (digits w n) s) as Hd.
  rewrite digits_length in Ht, Hd. by rewrite Ht, Hd, digits_length, Nat.eqb_refl, digits_digits, digits_val.
Qed.

Lemma appendInt_digits n w : 0 <= n < 10 ^ Z.of_nat w -> appendInt n w = digits w n.
Proof.
  intros Hn. unfold appendInt. rewrite Z.abs_eq by lia. rewrite (proj2 (Z.ltb_lt n (10 ^ Z.of_nat w))) by lia. by rewrite (proj2 (Z.ltb_ge n 0)) by lia.
Qed.

Lemma daysIn_small y m : daysIn y m <= 31.
Proof.
  unfold daysIn. destruct (month_lengths (leap y) !! _) eqn:E; cbn; [|lia].
  pose proof (month_lengths_small (leap y)) as Hs. rewrite Forall_forall in Hs. apply Hs. by eapply list_elem_of_lookup_2.
Qed.

(** The years a four-digit year can be. *)
Definition four_digit_year (x : date) : Prop := 0 <= year x < 10000.

Lemma ParseDate_text x : valid_date x -> four_digit_year x -> ParseDate (date_text x) = Some x.
Proof.
  intros [Hm Hd] Hy. unfold four_digit_year in Hy. pose proof (daysIn_small (year x) (month x)). unfold date_text, ParseDate.
  assert (Hy' : 0 <= year x < 10 ^ Z.of_nat 4) by (change (10 ^ Z.of_nat 4) with 10000; lia).
  assert (Hm' : 0 <= month x < 10 ^ Z.of_nat 2) by (change (10 ^ Z.of_nat 2) with 100; lia).
  assert (Hd' : 0 <= day x < 10 ^ Z.of_nat 2) by (change (10 ^ Z.of_nat 2) with 100; lia).
  rewrite !appendInt_digits, fixed_num_digits by done. cbn [mbind option_bind]. rewrite cut_prefix_app. cbn [mbind option_bind].
  rewrite fixed_num_digits by done. cbn [mbind option_bind].
  rewrite (proj2 (Z.ltb_ge (month x) 1)), (proj2 (Z.ltb_ge 12 (month x))) by lia. cbn [orb].
  rewrite cut_prefix_app. cbn [mbind option_bind]. rewrite <- (app_nil_r (digits 2 (day x))), fixed_num_digits by done.
  change (("" =? "")%string) with true. cbn [mbind option_bind negb].
  rewrite (proj2 (Z.ltb_ge (day x) 1)), (proj2 (Z.ltb_ge _ (day x))) by lia. by destruct x.
Qed.

Lemma ParseDate_valid s x : ParseDate s = Some x -> valid_date x.
Proof.
  unfold ParseDate. destruct (fixed_num 4 s) as [[y s1]|]; [|done]. cbn [mbind option_bind].
  destruct (cut_prefix s1 "-") as [s2|]; [|done]. cbn [mbind option_bind].
  destruct (fixed_num 2 s2) as [[m s3]|]; [|done]. cbn [mbind option_bind].
  destruct ((m <? 1) || (12 <? m)) eqn:Em; [done|]. destruct (cut_prefix s3 "-") as [s4|]; [|done]. cbn [mbind option_bind].
  destruct (fixed_num 2 s4) as [[d s5]|]; [|done]. cbn [mbind option_bind]. destruct (negb _); [done|].
  destruct ((d <? 1) || (daysIn y m <? d)) eqn:Ed; [done|]. intros [= <-]. unfold valid_date. cbn [year month day].
  apply orb_false_iff in Em, Ed. lia.
Qed.

(** * Times *)

Definition Day : Z := 24 * Hour.

(** 1 January 1970 *)
Definition unix_day : Z := 719162.

Definition day_time (d : Z) : Z := (d - unix_day) * Day.

Definition time_day (t : Z) : Z := t / Day + unix_day.

Lemma zero_time_day : day_time 0 = zero_time.
Proof. reflexivity. Qed.

(** The layout 2006-01-02T15:04:05.000000000Z07:00, in UTC. *)
Definition nano_text (t : Z) : string :=
  let r := t mod Day in
  let s := r / Second in
  date_text (date_of (time_day t)) +:+ "T" +:+ appendInt (s / 3600) 2 +:+ ":" +:+ appendInt (s / 60 mod 60) 2 +:+ ":"
  +:+ appendInt (s mod 60) 2 +:+ "." +:+ digits 9 (r mod Second) +:+ "Z".

Example nano_text_ex :
  map nano_text [0; 1700000000123456789; zero_time]
  = ["1970-01-01T00:00:00.000000000Z"; "2023-11-14T22:13:20.123456789Z"; "0001-01-01T00:00:00.000000000Z"].
Proof. vm_compute. reflexivity. Qed.

Example ParseDate_ex :
  map ParseDate ["2024-02-29"; "2023-02-29"; "2024-2-9"; "2024-02-29 "; "next quarter"]
  = [Some (MkDate 2024 2 29); None; None; None; None].
Proof. vm_compute. reflexivity. Qed.

(** * The order of the texts *)

Lemma compareInt_digits P a b a' b' :
  0 <= b < P -> 0 <= b' < P -> compareInt (a * P + b) (a' * P + b') = then_cmp (compareInt a a') (compareInt b b').
Proof.
  intros Hb Hb'. destruct (Z.lt_trichotomy a a') as [H|[->|H]].
  - pose proof (digit_lex a a' P b b' Hb Hb' H). case_int (a * P + b) (a' * P + b'); case_int a a'; unfold then_cmp; simpl; lia.
  - rewrite (proj2 (compareInt_zero a' a')), then_cmp_0 by done. case_int (a' * P + b) (a' * P + b'); case_int b b'; lia.
  - pose proof (digit_lex a' a P b' b Hb' Hb H). case_int (a * P + b) (a' * P + b'); case_int a a'; unfold then_cmp; simpl; lia.
Qed.

Lemma then_cmp_0_r x : then_cmp x 0 = x.
Proof. unfold then_cmp. destruct (Z.eqb_spec x 0) as [->|]; done. Qed.

(** Two texts of one shape: a number of [w] digits, a byte, the rest. *)
Lemma field_compare w n n' sep x x' :
  0 <= n < 10 ^ Z.of_nat w -> 0 <= n' < 10 ^ Z.of_nat w ->
  Compare (digits w n +:+ sep +:+ x) (digits w n' +:+ sep +:+ x') = then_cmp (compareInt n n') (Compare x x').
Proof.
  intros Hn Hn'. rewrite Compare_app_eq by by rewrite !digits_length. rewrite digits_compare by done. f_equal.
  rewrite Compare_app_eq by done. by rewrite (proj2 (Compare_zero sep sep)), then_cmp_0.
Qed.

Lemma two_digits n : 0 <= n < 100 -> 0 <= n < 10 ^ Z.of_nat 2.
Proof. by change (10 ^ Z.of_nat 2) with 100. Qed.

Lemma date_text_compare x y :
  valid_date x -> valid_date y -> four_digit_year x -> four_digit_year y ->
  String.length (date_text x) = String.length (date_text y)
  /\ Compare (date_text x) (date_text y) = compareInt (date_rank x) (date_rank y).
Proof.
  intros [Hm Hd] [Hm' Hd'] Hy Hy'. unfold four_digit_year in *.
  pose proof (daysIn_small (year x) (month x)). pose proof (daysIn_small (year y) (month y)).
  assert (H4 : forall n, 0 <= n < 10000 -> 0 <= n < 10 ^ Z.of_nat 4) by (intros n; by change (10 ^ Z.of_nat 4) with 10000).
  unfold date_text. rewrite !(appendInt_digits _ 4) by auto. rewrite !(appendInt_digits _ 2) by (apply two_digits; lia). split.
  - by rewrite !length_app_string, !digits_length.
  - rewrite field_compare by auto. rewrite field_compare by (apply two_digits; lia). rewrite digits_compare by (apply two_digits; lia).
    unfold date_rank. rewrite <- !compareInt_digits with (P := 32) by lia.
    replace (512 * year x + 32 * month x + day x) with (year x * 512 + (month x * 32 + day x)) by lia.
    replace (512 * year y + 32 * month y + day y) with (year y * 512 + (month y * 32 + day y)) by lia.
    rewrite (compareInt_digits 512) by lia. done.
Qed.

Lemma date_rank_compare a b : compareInt (date_rank (date_of a)) (date_rank (date_of b)) = compareInt a b.
Proof.
  destruct (Z.lt_trichotomy a b) as [H|[->|H]]; [| |].
  - pose proof (date_rank_mono a b H). case_int (date_rank (date_of a)) (date_rank (date_of b)); case_int a b; lia.
  - case_int b b; case_int (date_rank (date_of b)) (date_rank (date_of b)); lia.
  - pose proof (date_rank_mono b a H). case_int (date_rank (date_of a)) (date_rank (date_of b)); case_int a b; lia.
Qed.

(** The times whose year has four digits. *)
Definition four_digit_time (t : Z) : Prop := four_digit_year (date_of (time_day t)).

(** The text orders times as the numbers do. *)
Lemma nano_text_compare t u :
  four_digit_time t -> four_digit_time u -> Compare (nano_text t) (nano_text u) = compareInt t u.
Proof.
  intros Ht Hu. unfold nano_text.
  destruct (date_text_compare _ _ (date_of_valid (time_day t)) (date_of_valid (time_day u)) Ht Hu) as [Hl Hc].
  rewrite Compare_app_eq by done. rewrite Hc, date_rank_compare. rewrite Compare_app_eq by done.
  rewrite (proj2 (Compare_zero "T" "T")), then_cmp_0 by done.
  assert (Hday : forall t, t = (t / Day) * Day + t mod Day /\ 0 <= t mod Day < Day) by (intros x; unfold Day, Hour; lia).
  destruct (Hday t) as [Et Hrt], (Hday u) as [Eu Hru].
  replace (compareInt t u) with (then_cmp (compareInt (time_day t) (time_day u)) (compareInt (t mod Day) (u mod Day))).
  2:{ rewrite Et at 3. rewrite Eu at 3. rewrite compareInt_digits by done. f_equal. unfold time_day.
      case_int (t / Day + unix_day) (u / Day + unix_day); case_int (t / Day) (u / Day); lia. }
  f_equal. revert Hrt Hru. generalize (t mod Day) (u mod Day). intros r v Hr Hv. clear - Hr Hv.
  assert (Hs : forall r, 0 <= r < Day -> r = r / Second * Second + r mod Second /\ 0 <= r mod Second < Second /\ 0 <= r / Second < 86400)
    by (intros x Hx; unfold Day, Hour, Second in *; lia).
  destruct (Hs r Hr) as (Er & Hnr & Hsr), (Hs v Hv) as (Ev & Hnv & Hsv).
  replace (compareInt r v) with (compareInt (r / Second * Second + r mod Second) (v / Second * Second + v mod Second)) by (by rewrite <- Er, <- Ev).
  rewrite (compareInt_digits Second) by done. revert Hnr Hsr Hnv Hsv. generalize (r / Second) (r mod Second) (v / Second) (v mod Second).
  intros s n s' n' Hn Hs1 Hn' Hs1'. clear - Hn Hs1 Hn' Hs1'.
  rewrite !(appendInt_digits _ 2) by (apply two_digits; lia).
  rewrite !field_compare by (apply two_digits; lia). rewrite Compare_app_eq by by rewrite !digits_length.
  rewrite digits_compare by (unfold Second in *; change (10 ^ Z.of_nat 9) with (10 ^ 9); lia).
  rewrite (proj2 (Compare_zero "Z" "Z")) by done. rewrite then_cmp_0_r, <- !then_cmp_assoc. f_equal.
  assert (Es : forall s, s = (s / 3600 * 60 + s / 60 mod 60) * 60 + s mod 60) by (intros x; lia).
  rewrite (Es s) at 4. rewrite (Es s') at 4. by rewrite !compareInt_digits by lia.
Qed.
