(* ===== verification/GoURL.v ===== *)
(** Go's net/url, as far as object keys and links use it: the escaping of one
    path segment, its inverse, and [url.Parse] of a text that starts with a
    single slash, which has neither a scheme nor an authority. *)

From stdpp Require Import base list strings.
From Stdlib Require Import ZArith Lia Ascii.
From S2P Require Import Prelude GoStrings.

(** * Escaping *)

Definition is_hex (c : ascii) : bool :=
  is_digit c || in_range 97 102 c || in_range 65 70 c.

Definition unhex (c : ascii) : Z :=
  if is_digit c then byteZ c - 48 else if in_range 97 102 c then byteZ c - 87 else byteZ c - 55.

Definition byte_of (n : Z) : ascii := ascii_of_N (Z.to_N n).

Definition upper_hex (n : Z) : ascii := byte_of (if n <? 10 then n + 48 else n + 55).

(** [shouldEscape] for one path segment and for a whole path. *)
Definition escapes_segment (c : ascii) : bool :=
  negb (is_alnum c || in_set "-_.~$&+:=@" c).

Definition escapes_path (c : ascii) : bool :=
  negb (is_alnum c || in_set "-_.~$&+:=@/;," c).

Definition escape_byte (c : ascii) : string :=
  let n := byteZ c in String "%" (String (upper_hex (n / 16)) (String (upper_hex (n mod 16)) "")).

Fixpoint escape (esc : ascii -> bool) (s : string) : string :=
  match s with
  | "" => ""
  | String c s => (if esc c then escape_byte c else String c "") +:+ escape esc s
  end.

Definition PathEscape (s : string) : string := escape escapes_segment s.

(** [unescape] in the path modes: a "%" opens two hex digits or is an error. *)
Fixpoint unescape (s : string) : option string :=
  match s with
  | "" => Some ""
  | String c s =>
      if Ascii.eqb c "%" then
        match s with
        | String a (String b s) =>
            if is_hex a && is_hex b then String (byte_of (16 * unhex a + unhex b)) <$> unescape s
            else None
        | _ => None
        end
      else String c <$> unescape s
  end.

Definition PathUnescape (s : string) : option string := unescape s.

Example escape_ex : PathEscape "dev-feature/x y" = "dev-feature%2Fx%20y".
Proof. reflexivity. Qed.
Example unescape_ex : map PathUnescape ["a%2Fb"; "a%2"; "%zz"; "a+b"] = [Some "a/b"; None; None; Some "a+b"].
Proof. reflexivity. Qed.

(** ** Round trip *)

Lemma escape_byte_ok c :
  exists a b, escape_byte c = String "%" (String a (String b ""))
    /\ is_hex a = true /\ is_hex b = true /\ byte_of (16 * unhex a + unhex b) = c.
Proof.
  eexists _, _. split; [done|].
  set (P := fun c => is_hex (upper_hex (byteZ c / 16)) && is_hex (upper_hex (byteZ c mod 16))
     && Ascii.eqb (byte_of (16 * unhex (upper_hex (byteZ c / 16)) + unhex (upper_hex (byteZ c mod 16)))) c).
  assert (HP : P c = true) by (apply byte_ind; vm_compute; reflexivity).
  unfold P in HP. apply andb_true_iff in HP as [HP H3]. apply andb_true_iff in HP as [H1 H2].
  split; [done|]. split; [done|]. by apply Ascii.eqb_eq.
Qed.

Lemma unescape_escape esc s : esc "%"%char = true -> unescape (escape esc s) = Some s.
Proof.
  intros Hp. induction s as [|c s IH]; [done|]. cbn [escape]. destruct (esc c) eqn:E.
  - destruct (escape_byte_ok c) as (a & b & -> & Ha & Hb & Hc).
    rewrite !app_cons, app_nil_l. cbn [unescape]. rewrite Ascii.eqb_refl, Ha, Hb, Hc. simpl. by rewrite IH.
  - rewrite app_cons, app_nil_l. cbn [unescape]. destruct (Ascii.eqb_spec c "%") as [->|]; [congruence|].
    by rewrite IH.
Qed.

Lemma PathUnescape_PathEscape s : PathUnescape (PathEscape s) = Some s.
Proof. by apply unescape_escape. Qed.

(** What the escaped text can hold. *)
Lemma escape_bytes esc (q : ascii -> bool) s :
  q "%"%char = true -> (forall c, is_hex c = true -> q c = true) ->
  (forall c, esc c = false -> q c = true) -> all_bytes q (escape esc s) = true.
Proof.
  intros Hp Hh He. induction s as [|c s IH]; [done|]. cbn [escape]. rewrite all_bytes_app, IH, andb_true_r.
  destruct (esc c) eqn:E.
  - destruct (escape_byte_ok c) as (a & b & -> & Ha & Hb & _). simpl. by rewrite Hp, !Hh.
  - simpl. by rewrite He.
Qed.

Lemma is_hex_not_slash c : is_hex c = true -> negb (Ascii.eqb c "/") = true.
Proof. destruct (Ascii.eqb_spec c "/") as [->|]; done. Qed.

Lemma PathEscape_no_slash s : no_byte "/" (PathEscape s) = true.
Proof.
  apply escape_bytes; [done|apply is_hex_not_slash|]. intros c Hc.
  destruct (Ascii.eqb_spec c "/") as [->|]; done.
Qed.

Lemma PathEscape_empty s : PathEscape s = "" -> s = "".
Proof.
  destruct s as [|c s]; [done|]. unfold PathEscape. cbn [escape]. intros [H _]%app_eq_nil.
  destruct (escapes_segment c); [|done].
  destruct (escape_byte_ok c) as (a & b & E & _). congruence.
Qed.

(** * Parsing a rooted path *)

Record URL := MkURL {
  u_Path : string;
  u_RawQuery : string;
  u_ForceQuery : bool;
  u_Fragment : string
}.

Definition is_ctl (c : ascii) : bool := (byteZ c <? 32) || (byteZ c =? 127).

Definition count_byte (c : ascii) : string -> nat :=
  fix go s := match s with "" => 0%nat | String x s => ((if Ascii.eqb x c then 1 else 0) + go s)%nat end.

(** [strings.Cut] with both results when the separator is absent. *)
Definition cut_or_whole (c : ascii) (s : string) : string * string :=
  default (s, "") (cut_byte c s).

(** [url.Parse] of a text starting with one "/" and no second one behind it;
    [None] is its error.  The fragment is cut first, then the query; a lone
    trailing "?" sets [ForceQuery]. *)
Definition ParseRooted (raw : string) : option URL :=
  let '(u, frag) := cut_or_whole "#" raw in
  if negb (all_bytes (fun c => negb (is_ctl c)) u) then None
  else
    let '(rest, query, force) :=
      if HasSuffix u "?" && (count_byte "?" u =? 1)%nat then (TrimSuffix u "?", "", true)
      else let '(rest, query) := cut_or_whole "?" u in (rest, query, false) in
    p ← unescape rest;
    f ← unescape frag;
    Some (MkURL p query force f).

Example ParseRooted_ex :
  map ParseRooted ["/binaries/a/1.0/f%41.zip"; "/a?x=1#f"; "/a?"; "/a%2"; "/a"]
  = [Some (MkURL "/binaries/a/1.0/fA.zip" "" false ""); Some (MkURL "/a" "x=1" false "f");
     Some (MkURL "/a" "" true ""); None; Some (MkURL "/a" "" false "")].
Proof. reflexivity. Qed.

(** A text free of control bytes, "%", "?" and "#" parses to itself. *)
Definition literal_path_byte (c : ascii) : bool := negb (is_ctl c || in_set "%?#" c).

Lemma unescape_plain s : no_byte "%" s = true -> unescape s = Some s.
Proof.
  induction s as [|c s IH]; [done|]. rewrite no_byte_cons. intros [Hc Hs]%andb_true_iff.
  cbn [unescape]. apply negb_true_iff in Hc. by rewrite Hc, IH.
Qed.

Lemma all_bytes_no_byte p c s : p c = false -> all_bytes p s = true -> no_byte c s = true.
Proof.
  intros Hc. apply all_bytes_impl. intros x Hx. destruct (Ascii.eqb_spec x c) as [->|]; [congruence|done].
Qed.

Lemma HasSuffix_byte c s : HasSuffix s (String c "") = true -> no_byte c s = false.
Proof.
  unfold HasSuffix. destruct (cut_suffix s (String c "")) as [r|] eqn:E; [|done]. intros _.
  apply cut_suffix_Some in E as ->. rewrite no_byte_app, no_byte_cons, Ascii.eqb_refl. apply andb_false_r.
Qed.

Lemma cut_or_whole_none c s : no_byte c s = true -> cut_or_whole c s = (s, "").
Proof. intros H. unfold cut_or_whole. by rewrite (proj2 (cut_byte_None c s) H). Qed.

Lemma ParseRooted_literal s :
  all_bytes literal_path_byte s = true -> ParseRooted s = Some (MkURL s "" false "").
Proof.
  intros H. unfold ParseRooted.
  rewrite cut_or_whole_none by (by apply (all_bytes_no_byte literal_path_byte)).
  rewrite (all_bytes_impl literal_path_byte) with (s := s); [|intros c|done]; cycle 1.
  { unfold literal_path_byte. by destruct (is_ctl c). }
  simpl negb. cbv iota. destruct (HasSuffix s "?") eqn:E.
  { apply HasSuffix_byte in E. rewrite (all_bytes_no_byte literal_path_byte) in E; done. }
  simpl. rewrite cut_or_whole_none by (by apply (all_bytes_no_byte literal_path_byte)).
  rewrite unescape_plain by (by apply (all_bytes_no_byte literal_path_byte)). done.
Qed.
