(* ===== verification/GoNet.v ===== *)
(** The parts of Go's net and net/netip packages the source calls: addresses,
    prefixes and host:port pairs, with the lemmas the access decisions rely on.
    An address is its number, so a network contains an address when the two
    agree on the network's leading bits. *)

From stdpp Require Import base list strings gmap pretty.
From Stdlib Require Import ZArith Lia Ascii.
From S2P Require Import Prelude GoStrings GoURL.

(** ** netip.ParseAddr *)

(** A netip.Addr: 32 bits, or 128 bits with the zone after the percent sign. *)
Inductive Addr := Addr4 (a : Z) | Addr6 (a : Z) (zone : string).

Definition zone_free (a : Addr) : bool :=
  match a with Addr4 _ => true | Addr6 _ zone => (zone =? "")%string end.

Definition BitLen (a : Addr) : Z := match a with Addr4 _ => 32 | Addr6 _ _ => 128 end.

(** One field of a dotted quad: a decimal number up to 255 with no leading zero. *)
Definition parse_octet (s : string) : option Z :=
  if negb (s =? "")%string && all_bytes is_digit s && (no_lead_zero s || (s =? "0")%string)
     && (slen s <=? 3) && (dec_val s <=? 255)
  then Some (dec_val s) else None.

Definition parseIPv4 (s : string) : option Z :=
  match Split "." s with
  | [a; b; c; d] =>
      a ← parse_octet a; b ← parse_octet b; c ← parse_octet c; d ← parse_octet d;
      Some (((a * 256 + b) * 256 + c) * 256 + d)
  | _ => None
  end.

Fixpoint hex_val_go (acc : Z) (s : string) : Z :=
  match s with String c s => hex_val_go (acc * 16 + unhex c) s | "" => acc end.

Definition hex_val (s : string) : Z := hex_val_go 0 s.

(** The loop of parseIPv6, one 16-bit group a turn: the groups read so far, the
    place of the "::" among them, and the text left.  A dotted quad ends it. *)
Fixpoint v6_groups (fuel : nat) (groups : list Z) (ellipsis : option nat) (s : string)
  : option (list Z * option nat * string) :=
  match fuel with
  | O => Some (groups, ellipsis, s)
  | S fuel =>
      let field := take_while is_hex s in
      let rest := str_drop (String.length field) s in
      if (field =? "")%string || (4 <? slen field) then None
      else if HasPrefix rest "." then
        if negb (isSome ellipsis) && negb (length groups =? 6)%nat then None
        else if (6 <? length groups)%nat then None
        else v ← parseIPv4 s; Some (groups ++ [v / 2 ^ 16; v mod 2 ^ 16], ellipsis, "")
      else
        let groups := groups ++ [hex_val field] in
        match rest with
        | "" => Some (groups, ellipsis, "")
        | String c rest =>
            if negb (Ascii.eqb c ":") || (rest =? "")%string then None
            else
              match cut_prefix rest ":" with
              | None => v6_groups fuel groups ellipsis rest
              | Some rest =>
                  if isSome ellipsis then None
                  else if (rest =? "")%string then Some (groups, Some (length groups), "")
                  else v6_groups fuel groups (Some (length groups)) rest
              end
        end
  end.

(** The zero groups a "::" stands for, put in its place. *)
Definition expand (groups : list Z) (ellipsis : option nat) : option (list Z) :=
  match ellipsis with
  | None => if (length groups =? 8)%nat then Some groups else None
  | Some at_ =>
      if (length groups <? 8)%nat
      then Some (take at_ groups ++ repeat 0 (8 - length groups) ++ drop at_ groups) else None
  end.

Definition group_value (groups : list Z) : Z := foldl (fun acc g => acc * 2 ^ 16 + g) 0 groups.

(** The text before the percent sign and the zone after it, which is not empty. *)
Definition split_zone (s : string) : option (string * string) :=
  match cut_byte "%" s with
  | Some (host, zone) => if (zone =? "")%string then None else Some (host, zone)
  | None => Some (s, "")
  end.

Definition v6_start (host : string) : option (list Z * option nat * string) :=
  match cut_prefix host "::" with
  | Some rest => v6_groups 8 [] (Some 0%nat) rest
  | None => v6_groups 8 [] None host
  end.

Definition parseIPv6 (s : string) : option Addr :=
  '(host, zone) ← split_zone s;
  if (host =? "::")%string then Some (Addr6 0 zone)
  else
    '(groups, ellipsis, rest) ← v6_start host;
    if negb (rest =? "")%string then None
    else groups ← expand groups ellipsis; Some (Addr6 (group_value groups) zone).

(** The first of . : % tells the kind. *)
Fixpoint addr_kind (s : string) : option ascii :=
  match s with
  | "" => None
  | String c rest => if in_set ".:%" c then Some c else addr_kind rest
  end.

Definition ParseAddr (s : string) : option Addr :=
  match addr_kind s with
  | Some c => if Ascii.eqb c "." then Addr4 <$> parseIPv4 s
              else if Ascii.eqb c ":" then parseIPv6 s else None
  | None => None
  end.

(** ** net.IP *)

(** The sixteen bytes of an address; a 32-bit one is ::ffff:a. *)
Definition As16 (a : Addr) : Z := match a with Addr4 v => 65535 * 2 ^ 32 + v | Addr6 v _ => v end.

(** A parsed net.IP is its sixteen bytes, so a zone has nowhere to go. *)
Definition ParseIP (s : string) : option Z :=
  match ParseAddr s with
  | Some a => if zone_free a then Some (As16 a) else None
  | None => None
  end.

Definition To4 (ip : Z) : option Z := if ip / 2 ^ 32 =? 65535 then Some (ip mod 2 ^ 32) else None.

Definition IsLoopback (ip : Z) : bool :=
  match To4 ip with Some v => v / 2 ^ 24 =? 127 | None => ip =? 1 end.

(** ** net.IPNet *)

(** The network of a CIDR: [net_wide] is whether its number and mask have
    sixteen bytes, and the mask has [net_ones] leading ones. *)
Record IPNet := MkNet { net_wide : bool; net_IP : Z; net_ones : Z }.

Definition net_16 (n : IPNet) : Z := if net_wide n then net_IP n else 65535 * 2 ^ 32 + net_IP n.

(** Keep the leading [ones] of [width] bits. *)
Definition Mask (width ones a : Z) : Z := Z.shiftl (Z.shiftr a (width - ones)) (width - ones).

(** dtoi: decimal digits below 0xFFFFFF. *)
Definition dtoi (s : string) : option Z :=
  if negb (s =? "")%string && all_bytes is_digit s && (dec_val s <? 16777215) then Some (dec_val s) else None.

Definition ParseCIDR (s : string) : option IPNet :=
  '(addr, mask) ← cut_byte "/" s;
  a ← ParseAddr addr;
  n ← dtoi mask;
  if negb (zone_free a) || (BitLen a <? n) then None
  else Some match a with
            | Addr4 v => MkNet false (Mask 32 n v) n
            | Addr6 v _ => MkNet true (Mask 128 n v) n
            end.

(** Contains.  A wide network whose number is in ::ffff:0:0/96 is compared as the
    32-bit network it holds, with the low four bytes of its mask. *)
Definition net_narrow (n : IPNet) : option (Z * Z) :=
  if net_wide n then (fun v => (v, Z.max 0 (net_ones n - 96))) <$> To4 (net_IP n)
  else Some (net_IP n, net_ones n).

Definition Net_Contains (n : IPNet) (ip : Z) : bool :=
  match net_narrow n, To4 ip with
  | Some (v, ones), Some a => Z.shiftr v (32 - ones) =? Z.shiftr a (32 - ones)
  | None, None => Z.shiftr (net_IP n) (128 - net_ones n) =? Z.shiftr ip (128 - net_ones n)
  | _, _ => false
  end.

(** ** netip.Prefix *)

Record Prefix := MkPrefix { px_addr : Addr; px_bits : Z }.

Definition Masked (p : Prefix) : Prefix :=
  match px_addr p with
  | Addr4 v => MkPrefix (Addr4 (Mask 32 (px_bits p) v)) (px_bits p)
  | Addr6 v zone => MkPrefix (Addr6 (Mask 128 (px_bits p) v) zone) (px_bits p)
  end.

(** ParsePrefix: the text after the last slash is a number without sign or
    leading zero, and no zone is allowed. *)
Definition ParsePrefix (s : string) : option Prefix :=
  '(addr, bits) ← cut_last_byte "/" s;
  a ← ParseAddr addr;
  if negb (zone_free a) || ((1 <? slen bits) && negb (starts (in_range 49 57) bits)) then None
  else n ← atoi_opt bits; if (n <? 0) || (BitLen a <? n) then None else Some (MkPrefix a n).

Definition Unmap (a : Addr) : Addr :=
  match a with
  | Addr4 v => Addr4 v
  | Addr6 v zone => match To4 v with Some w => Addr4 w | None => Addr6 v zone end
  end.

(** A prefix contains no address of the other width and none with a zone. *)
Definition Prefix_Contains (p : Prefix) (a : Addr) : bool :=
  match px_addr p, a with
  | Addr4 v, Addr4 w => Z.shiftr v (32 - px_bits p) =? Z.shiftr w (32 - px_bits p)
  | Addr6 v _, Addr6 w zone =>
      (zone =? "")%string && (Z.shiftr v (128 - px_bits p) =? Z.shiftr w (128 - px_bits p))
  | _, _ => false
  end.

(** PrefixFrom drops the zone of its address. *)
Definition PrefixFrom (a : Addr) (bits : Z) : Prefix :=
  MkPrefix match a with Addr4 v => Addr4 v | Addr6 v _ => Addr6 v "" end bits.

Definition Is4In6 (a : Addr) : bool := match a with Addr6 v _ => isSome (To4 v) | Addr4 _ => false end.

(** Overlaps, for valid prefixes without zone: one holds the other's network. *)
Definition Overlaps (p o : Prefix) : bool :=
  let bits := Z.min (px_bits p) (px_bits o) in
  match px_addr p, px_addr o with
  | Addr4 v, Addr4 w => (bits =? 0) || (Mask 32 bits v =? Mask 32 bits w)
  | Addr6 v _, Addr6 w _ => (bits =? 0) || (Mask 128 bits v =? Mask 128 bits w)
  | _, _ => false
  end.

(** ** The texts of addresses and prefixes *)

Definition quad_text (v : Z) : string :=
  Join (map (fun k => pretty (v / 2 ^ (8 * k) mod 256)) [3; 2; 1; 0]) ".".

Fixpoint hex_text_go (fuel : nat) (n : Z) (acc : string) : string :=
  match fuel with
  | O => acc
  | S fuel => if n <? 16 then hex_digit n +:+ acc else hex_text_go fuel (n / 16) (hex_digit (n mod 16) +:+ acc)
  end.

(** appendHex: a 16-bit group without leading zeros. *)
Definition hex_text (n : Z) : string := hex_text_go 4 n "".

Definition v6_group (v i : Z) : Z := v / 2 ^ (16 * (7 - i)) mod 2 ^ 16.

(** The length of the run of zero groups from group [i] on. *)
Fixpoint zero_run (groups : list Z) : nat :=
  match groups with g :: groups => if g =? 0 then S (zero_run groups) else O | [] => O end.

(** The first longest run of two zero groups or more: its start and length. *)
Fixpoint longest_zeros (i : nat) (groups : list Z) (best : nat * nat) : nat * nat :=
  match groups with
  | [] => best
  | _ :: rest =>
      let n := zero_run groups in
      longest_zeros (S i) rest (if (2 <=? n)%nat && (best.2 <? n)%nat then (i, n) else best)
  end.

Definition groups_of (v : Z) : list Z := map (v6_group v) [0; 1; 2; 3; 4; 5; 6; 7].

Definition string6 (v : Z) : string :=
  let groups := groups_of v in
  let '(start, n) := longest_zeros 0 groups (0%nat, 0%nat) in
  if (n =? 0)%nat then Join (map hex_text groups) ":"
  else Join (map hex_text (take start groups)) ":" +:+ "::" +:+ Join (map hex_text (drop (start + n) groups)) ":".

Definition Addr_String (a : Addr) : string :=
  match a with
  | Addr4 v => quad_text v
  | Addr6 v zone =>
      match To4 v with Some w => "::ffff:" +:+ quad_text w | None => string6 v end
      +:+ if (zone =? "")%string then "" else "%" +:+ zone
  end.

(** IPNet.String. *)
Definition IPNet_String (n : IPNet) : string :=
  match net_narrow n with
  | Some (v, ones) => quad_text v +:+ "/" +:+ pretty ones
  | None => string6 (net_IP n) +:+ "/" +:+ pretty (net_ones n)
  end.

Definition Prefix_String (p : Prefix) : string := Addr_String (px_addr p) +:+ "/" +:+ pretty (px_bits p).

(** ** net.SplitHostPort *)

Definition SplitHostPort (hostport : string) : option (string * string) :=
  '(before, port) ← cut_last_byte ":" hostport;
  if HasPrefix hostport "[" then
    '(inner, after) ← cut_byte "]" hostport;
    if negb (after =? ":" +:+ port)%string then None
    else
      let host := tail inner in
      if has_byte "[" host || has_byte "[" after || has_byte "]" after then None else Some (host, port)
  else if has_byte ":" before || has_byte "[" hostport || has_byte "]" hostport then None
  else Some (before, port).

Example parse_ex :
  map ParseIP ["1.2.3.4"; "01.2.3.4"; "1.2.3"; "::1"; "::ffff:1.2.3.4"; "fe80::1%eth0"; "1:2:3:4:5:6:7:8"; "1::2::3"; "::"; "2001:db8::5"; "12345::"; "1:2:3:4:5:6:7::"]
  = [Some (65535 * 2 ^ 32 + 16909060); None; None; Some 1; Some (65535 * 2 ^ 32 + 16909060); None;
     Some 5192455318486707404433266433261576; None; Some 0; Some (42540766411282592856903984951653826560 + 5); None;
     Some 5192455318486707404433266433261568].
Proof. vm_compute. reflexivity. Qed.

Example split_ex :
  map SplitHostPort ["1.2.3.4:80"; "[::1]:80"; "::1:80"; "[::1]"; "host"; "[fe80::1%eth0]:443"; "a[b:1"]
  = [Some ("1.2.3.4", "80"); Some ("::1", "80"); None; None; None; Some ("fe80::1%eth0", "443"); None].
Proof. vm_compute. reflexivity. Qed.

Example contains_ex :
  map (fun n => match ParseCIDR n with Some n => Some (Net_Contains n (65535 * 2 ^ 32 + 167838211)) | None => None end)
    ["10.0.0.0/8"; "10.1.2.3/33"; "10.1.2.3/32"; "::ffff:10.1.0.0/112"; "::/0"; "fc00::/7"; "0.0.0.0/0"]
  = [Some true; None; Some true; Some true; Some false; Some false; Some true].
Proof. vm_compute. reflexivity. Qed.

Example text_ex :
  map (fun s => Prefix_String <$> (Masked <$> ParsePrefix s))
    ["10.1.2.3/8"; "2001:db8::1/32"; "::/0"; "::ffff:1.2.3.4/128"; "1:0:0:2::3/128"; "fe80::ABCD/128"; "1:2:3:4:5:6:0:8/128"]
  = [Some "10.0.0.0/8"; Some "2001:db8::/32"; Some "::/0"; Some "::ffff:1.2.3.4/128"; Some "1:0:0:2::3/128";
     Some "fe80::abcd/128"; Some "1:2:3:4:5:6:0:8/128"].
Proof. vm_compute. reflexivity. Qed.

(** * Lemmas *)

(** ** Ranges *)

Lemma parse_octet_range s v : parse_octet s = Some v -> 0 <= v <= 255.
Proof.
  unfold parse_octet. destruct (_ && _) eqn:E; [|done]. intros [= <-].
  rewrite !andb_true_iff, !Z.leb_le in E. destruct E as ((((_ & Hd) & _) & _) & Hv). pose proof (dec_val_bound s Hd). lia.
Qed.

Lemma parseIPv4_range s v : parseIPv4 s = Some v -> 0 <= v < 2 ^ 32.
Proof.
  unfold parseIPv4. destruct (Split "." s) as [|a [|b [|c [|d []]]]]; try done. cbn.
  destruct (parse_octet a) as [va|] eqn:Ea; [|done]. destruct (parse_octet b) as [vb|] eqn:Eb; [|done].
  destruct (parse_octet c) as [vc|] eqn:Ec; [|done]. destruct (parse_octet d) as [vd|] eqn:Ed; [|done].
  intros [= <-]. apply parse_octet_range in Ea, Eb, Ec, Ed. lia.
Qed.

Definition group_ok (g : Z) : Prop := 0 <= g < 2 ^ 16.

Lemma unhex_range c : is_hex c = true -> 0 <= unhex c < 16.
Proof. destruct c as [[] [] [] [] [] [] [] []]; (discriminate || (intros _; vm_compute; split; congruence)). Qed.

Lemma hex_val_range s : all_bytes is_hex s = true -> 0 <= hex_val s < 16 ^ slen s.
Proof.
  unfold hex_val, slen. enough (H : forall s acc, 0 <= acc -> all_bytes is_hex s = true ->
    0 <= hex_val_go acc s < (acc + 1) * 16 ^ Z.of_nat (String.length s)) by (intros Hs; specialize (H s 0 ltac:(lia) Hs); lia).
  clear s. induction s as [|c s IH]; intros acc Ha; [cbn; lia|].
  cbn [all_bytes]. intros [Hc Hs]%andb_true_iff. apply unhex_range in Hc.
  specialize (IH (acc * 16 + unhex c) ltac:(lia) Hs). cbn [String.length hex_val_go].
  rewrite Nat2Z.inj_succ, Z.pow_succ_r by lia.
  pose proof (Z.pow_pos_nonneg 16 (Z.of_nat (String.length s)) ltac:(lia) ltac:(lia)). nia.
Qed.

Lemma v6_groups_range fuel : forall groups e s groups' e' rest,
  Forall group_ok groups -> v6_groups fuel groups e s = Some (groups', e', rest) -> Forall group_ok groups'.
Proof.
  induction fuel as [|fuel IH]; intros groups e s groups' e' rest Hg; [cbn; by intros [= <- <- <-]|].
  cbn [v6_groups]. destruct (_ || (4 <? _)) eqn:Ef; [done|]. apply orb_false_iff in Ef as [_ Hlen]. apply Z.ltb_ge in Hlen.
  assert (Hv : group_ok (hex_val (take_while is_hex s))).
  { pose proof (hex_val_range _ (take_while_all is_hex s)) as [H0 H1]. split; [done|].
    assert (16 ^ slen (take_while is_hex s) <= 16 ^ 4) by (apply Z.pow_le_mono_r; lia). lia. }
  assert (Hg' : Forall group_ok (groups ++ [hex_val (take_while is_hex s)])) by (apply Forall_app; split; [done|by constructor]).
  destruct (HasPrefix _ "."); [repeat case_match; try done|].
  - destruct (parseIPv4 s) as [v|] eqn:E; [|done]. apply parseIPv4_range in E. intros [= <- <- <-].
    apply Forall_app. split; [done|]. repeat constructor; unfold group_ok;
      pose proof (Z.div_mod v (2 ^ 16)); pose proof (Z.mod_pos_bound v (2 ^ 16)); nia.
  - destruct (str_drop _ s) as [|c r]; [by intros [= <- <- <-]|].
    destruct (negb _ || _); [done|]. destruct (cut_prefix r ":") as [r'|]; [|by apply IH].
    destruct (isSome e); [done|]. destruct (r' =? "")%string; [by intros [= <- <- <-]|by apply IH].
Qed.

Lemma group_value_range groups : Forall group_ok groups -> 0 <= group_value groups < 2 ^ (16 * Z.of_nat (length groups)).
Proof.
  unfold group_value. induction groups as [|g groups IH] using rev_ind; [cbn; lia|].
  intros [Hg [H1 _]%Forall_cons]%Forall_app. specialize (IH Hg). rewrite foldl_app, length_app. cbn [foldl length].
  unfold group_ok in H1. replace (16 * Z.of_nat (length groups + 1)) with (16 * Z.of_nat (length groups) + 16) by lia.
  rewrite Z.pow_add_r by lia. lia.
Qed.

Lemma expand_range groups e groups' :
  Forall group_ok groups -> expand groups e = Some groups' -> Forall group_ok groups' /\ length groups' = 8%nat.
Proof.
  intros Hg. unfold expand. destruct e as [at_|]; case_match; try done; intros [= <-].
  - apply Nat.ltb_lt in H. split.
    + apply Forall_app. split; [by apply Forall_take|]. apply Forall_app. split; [|by apply Forall_drop].
      apply Forall_forall. intros x Hx%list_elem_of_In%repeat_spec. subst. unfold group_ok. lia.
    + rewrite !length_app, repeat_length, length_take, length_drop. lia.
  - split; [done|]. by apply Nat.eqb_eq.
Qed.

Definition addr_ok (a : Addr) : Prop := match a with Addr4 v => 0 <= v < 2 ^ 32 | Addr6 v _ => 0 <= v < 2 ^ 128 end.

Lemma ParseAddr_ok s a : ParseAddr s = Some a -> addr_ok a.
Proof.
  unfold ParseAddr. destruct (addr_kind s) as [c|]; [|done]. destruct (Ascii.eqb c ".").
  { destruct (parseIPv4 s) as [v|] eqn:E; [|done]. intros [= <-]. by apply parseIPv4_range in E. }
  destruct (Ascii.eqb c ":"); [|done]. unfold parseIPv6. destruct (split_zone s) as [[host zone]|]; [|done].
  cbn [mbind option_bind]. destruct (host =? "::")%string; [intros [= <-]; cbn; lia|].
  destruct (v6_start host) as [[[groups e] rest]|] eqn:E; [|done]. cbn [mbind option_bind].
  assert (Hg : Forall group_ok groups).
  { unfold v6_start in E. destruct (cut_prefix host "::"); exact (v6_groups_range _ _ _ _ _ _ _ (List.Forall_nil _) E). }
  destruct (negb _); [done|]. destruct (expand groups e) as [groups'|] eqn:E'; [|done]. intros [= <-].
  destruct (expand_range _ _ _ Hg E') as [Hg' Hl]. pose proof (group_value_range _ Hg') as H. by rewrite Hl in H.
Qed.

Lemma ParseIP_range s ip : ParseIP s = Some ip -> 0 <= ip < 2 ^ 128.
Proof.
  unfold ParseIP. destruct (ParseAddr s) as [a|] eqn:E; [|done]. apply ParseAddr_ok in E. destruct (zone_free a); [|done].
  intros [= <-]. destruct a; cbn [addr_ok As16] in *; lia.
Qed.

(** ** Masks *)

Lemma To4_Some ip v : To4 ip = Some v <-> ip = 65535 * 2 ^ 32 + v /\ 0 <= v < 2 ^ 32.
Proof.
  unfold To4. destruct (Z.eqb_spec (ip / 2 ^ 32) 65535) as [E|E].
  - pose proof (Z.div_mod ip (2 ^ 32) ltac:(lia)). pose proof (Z.mod_pos_bound ip (2 ^ 32) ltac:(lia)).
    split; [intros [= <-]; lia|]. intros [H1 H2]. f_equal. lia.
  - split; [done|]. intros [-> H]. destruct E. rewrite Z.add_comm, Z.div_add, Z.div_small by lia. lia.
Qed.

Lemma To4_mapped v : 0 <= v < 2 ^ 32 -> To4 (65535 * 2 ^ 32 + v) = Some v.
Proof. intros H. by apply To4_Some. Qed.

Lemma Mask_all w a : Mask w w a = a.
Proof. unfold Mask. by rewrite Z.sub_diag, Z.shiftr_0_r, Z.shiftl_0_r. Qed.

Lemma Mask_mod w ones a : ones <= w -> Mask w ones a mod 2 ^ (w - ones) = 0.
Proof. intros H. unfold Mask. rewrite Z.shiftl_mul_pow2 by lia. apply Z.mod_mul. lia. Qed.

(** A network as [ParseCIDR] makes it: as long as its mask says, and masked. *)
Definition net_ok (n : IPNet) : Prop :=
  let w := if net_wide n then 128 else 32 in
  0 <= net_ones n <= w /\ net_IP n mod 2 ^ (w - net_ones n) = 0.

Lemma dtoi_nonneg s n : dtoi s = Some n -> 0 <= n.
Proof.
  unfold dtoi. destruct (_ && _) eqn:E; [|done]. intros [= <-]. rewrite !andb_true_iff in E. destruct E as ((_ & Hd) & _).
  by apply dec_val_bound.
Qed.

Lemma ParseCIDR_ok s n : ParseCIDR s = Some n -> net_ok n.
Proof.
  unfold ParseCIDR. destruct (cut_byte "/" s) as [[addr mask]|]; [|done]. cbn [mbind option_bind].
  destruct (ParseAddr addr) as [a|]; [|done]. destruct (dtoi mask) as [k|] eqn:E; [|done]. apply dtoi_nonneg in E.
  cbn [mbind option_bind]. destruct (_ || _) eqn:Eb; [done|]. apply orb_false_iff in Eb as [_ Hk%Z.ltb_ge].
  intros [= <-]. destruct a; cbn [BitLen] in Hk; split; cbn [net_wide net_ones net_IP]; try lia; by apply Mask_mod.
Qed.

Lemma div_agree a b k m : 0 <= m <= k -> a / 2 ^ m = b / 2 ^ m -> a / 2 ^ k = b / 2 ^ k.
Proof.
  intros Hm H. replace k with (m + (k - m)) by lia. rewrite Z.pow_add_r by lia.
  rewrite <- !Z.div_div by lia. by rewrite H.
Qed.

Lemma odd_top_bits a m k : 0 <= m -> 0 <= k -> a mod 2 ^ m = 0 -> Z.odd (a / 2 ^ k) = true -> m <= k.
Proof.
  intros Hm Hk Ha Ho. destruct (Z_le_gt_dec m k) as [|Hgt]; [done|]. exfalso.
  apply Z.mod_divide in Ha as [q ->]; [|lia].
  replace m with ((m - k - 1) + 1 + k) in Ho by lia. rewrite !Z.pow_add_r in Ho by lia.
  rewrite !Z.mul_assoc, Z.div_mul in Ho by lia. rewrite Z.odd_mul in Ho. cbn in Ho. by rewrite andb_false_r in Ho.
Qed.

(** A network whose own number is a loopback address holds no other address. *)
Lemma loopback_network n ip : net_ok n -> 0 <= ip -> IsLoopback (net_16 n) = true -> Net_Contains n ip = true -> IsLoopback ip = true.
Proof.
  intros [Hones Hmod] Hip Hl Hc. unfold Net_Contains, net_narrow, net_16 in *. destruct (net_wide n) eqn:Hw.
  - unfold IsLoopback in Hl. destruct (To4 (net_IP n)) as [v|] eqn:E4.
    + cbn [fmap option_fmap option_map] in Hc. destruct (To4 ip) as [a|] eqn:Ea; [|done]. unfold IsLoopback. rewrite Ea.
      apply Z.eqb_eq in Hl, Hc. apply Z.eqb_eq. rewrite !Z.shiftr_div_pow2 in Hc by lia.
      apply To4_Some in E4 as [E4 Hv]. rewrite E4 in Hmod.
      assert (128 - net_ones n <= 24).
      { apply (odd_top_bits (65535 * 2 ^ 32 + v)); [lia..|done|].
        replace (65535 * 2 ^ 32 + v) with (v + (65535 * 2 ^ 8) * 2 ^ 24) by lia. rewrite Z.div_add by lia. by rewrite Hl. }
      rewrite <- Hl. symmetry. apply (div_agree _ _ 24 (32 - Z.max 0 (net_ones n - 96))); [lia|done].
    + cbn [fmap option_fmap option_map] in Hc. destruct (To4 ip) eqn:Ea; [done|]. unfold IsLoopback. rewrite Ea.
      apply Z.eqb_eq in Hl. rewrite Hl in *. apply Z.eqb_eq in Hc. apply Z.eqb_eq.
      assert (128 - net_ones n <= 0) by (apply (odd_top_bits 1); [lia..|done|done]).
      replace (128 - net_ones n) with 0 in Hc by lia. by rewrite !Z.shiftr_0_r in Hc.
  - destruct (To4 ip) as [a|] eqn:Ea; [|done]. unfold IsLoopback in *. rewrite Ea.
    destruct (To4 (65535 * 2 ^ 32 + net_IP n)) as [v|] eqn:E4.
    + apply To4_Some in E4 as [E4 Hv]. assert (Hn : net_IP n = v) by lia. rewrite Hn in Hmod, Hc.
      apply Z.eqb_eq in Hl, Hc. apply Z.eqb_eq. rewrite !Z.shiftr_div_pow2 in Hc by lia.
      assert (32 - net_ones n <= 24) by (apply (odd_top_bits v); [lia..|done|by rewrite Hl]).
      rewrite <- Hl. symmetry. apply (div_agree _ _ 24 (32 - net_ones n)); [lia|done].
    + apply Z.eqb_eq in Hl. exfalso. assert (net_IP n = 1 - 65535 * 2 ^ 32) by lia. rewrite H in *.
      assert (32 - net_ones n <= 0).
      { apply (odd_top_bits (1 - 65535 * 2 ^ 32)); [lia..|done|done]. }
      apply Z.eqb_eq in Hc. replace (32 - net_ones n) with 0 in Hc by lia. rewrite !Z.shiftr_0_r in Hc.
      apply To4_Some in Ea. lia.
Qed.
