(* ===== verification/NetText.v ===== *)
(** The texts of addresses, networks and prefixes parse back.

    What [GoNet] prints for an address of either width is an address text, so a
    table keyed on the printed form of a network is keyed on the network. *)

From stdpp Require Import base list strings pretty.
From Stdlib Require Import ZArith Lia Ascii.
From S2P Require Import Prelude GoStrings GoURL GoNet.

(** A check of every number of a range, by computation. *)
Lemma range_check n p : forallb (fun i => p (Z.of_nat i)) (seq 0 n) = true -> forall z, 0 <= z < Z.of_nat n -> p z = true.
Proof.
  rewrite forallb_forall. intros H z Hz. specialize (H (Z.to_nat z)). rewrite Z2Nat.id in H by lia.
  apply H, in_seq. lia.
Qed.

(** ** Numbers *)

Definition plain_byte (c : ascii) : bool := negb (in_set ".:%/" c).

Definition octet_check (b : Z) : bool :=
  match parse_octet (pretty b) with Some b' => b' =? b | None => false end && all_bytes plain_byte (pretty b).

Lemma octet_text b : 0 <= b < 256 -> parse_octet (pretty b) = Some b /\ all_bytes plain_byte (pretty b) = true.
Proof.
  intros Hb. assert (H : octet_check b = true) by (apply (range_check 256 octet_check); [vm_compute; reflexivity|lia]).
  unfold octet_check in H. apply andb_true_iff in H as [H H2]. split; [|done].
  destruct (parse_octet (pretty b)); [|done]. apply Z.eqb_eq in H. by subst.
Qed.

Definition bits_check (n : Z) : bool :=
  bool_decide (dtoi (pretty n) = Some n /\ atoi_opt (pretty n) = Some n)
  && starts (in_range 49 57) (pretty (n + 1)) && no_byte "/" (pretty n)
  && ((slen (pretty n) <=? 1) || starts (in_range 49 57) (pretty n)).

Lemma bits_text n :
  0 <= n <= 128 -> dtoi (pretty n) = Some n /\ atoi_opt (pretty n) = Some n /\ no_byte "/" (pretty n) = true
    /\ (1 <? slen (pretty n)) && negb (starts (in_range 49 57) (pretty n)) = false.
Proof.
  intros Hn. assert (H : bits_check n = true) by (apply (range_check 129 bits_check); [vm_compute; reflexivity|lia]).
  unfold bits_check in H. rewrite !andb_true_iff, bool_decide_eq_true in H. destruct H as ((((H1 & H2) & _) & H3) & H4).
  split_and!; try done. apply orb_true_iff in H4 as [H4|H4].
  - apply andb_false_iff. left. apply Z.ltb_ge. by apply Z.leb_le in H4.
  - by rewrite H4, andb_false_r.
Qed.

Definition hex_check (d : Z) : bool :=
  match hex_digit d with String c "" => is_hex c && (unhex c =? d) | _ => false end.

Lemma hex_digit_ok d : 0 <= d < 16 -> exists c, hex_digit d = String c "" /\ is_hex c = true /\ unhex c = d.
Proof.
  intros Hd. assert (H : hex_check d = true) by (apply (range_check 16 hex_check); [vm_compute; reflexivity|exact Hd]).
  unfold hex_check in H. destruct (hex_digit d) as [|c [|]]; [done| |done]. apply andb_true_iff in H as [H1 H2].
  exists c. by apply Z.eqb_eq in H2.
Qed.

Lemma hex_val_go_app m t s : hex_val_go m (t +:+ s) = hex_val_go (hex_val_go m t) s.
Proof. revert m. induction t as [|x t IH]; intros m; [done|]. rewrite app_cons. apply IH. Qed.

Lemma hex_text_go_ok fuel : forall n acc,
  0 <= n < 16 ^ Z.of_nat fuel -> (0 < fuel)%nat -> all_bytes is_hex acc = true ->
  exists t, hex_text_go fuel n acc = t +:+ acc /\ all_bytes is_hex t = true /\ t <> "" /\ slen t <= Z.of_nat fuel
            /\ forall m, hex_val_go m t = m * 16 ^ slen t + n.
Proof.
  induction fuel as [|fuel IH]; intros n acc Hn Hf Hacc; [lia|]. cbn [hex_text_go].
  destruct (Z.ltb_spec n 16) as [Hlt|Hge].
  - destruct (hex_digit_ok n ltac:(lia)) as (c & -> & Hc & Hu). exists (String c ""). split; [done|].
    split; [by cbn; rewrite Hc|]. split; [done|]. change (slen (String c "")) with 1.
    split; [lia|]. intros m. cbn [hex_val_go]. rewrite Hu. lia.
  - destruct fuel as [|fuel]; [change (16 ^ Z.of_nat 1) with 16 in Hn; lia|]. rewrite Nat2Z.inj_succ, Z.pow_succ_r in Hn by lia.
    pose proof (Z.div_mod n 16 ltac:(lia)). pose proof (Z.mod_pos_bound n 16 ltac:(lia)).
    destruct (hex_digit_ok (n mod 16) ltac:(lia)) as (c & Hd & Hc & Hu). rewrite Hd.
    destruct (IH (n / 16) (String c "" +:+ acc)) as (t & -> & Ht & Hne & Hl & Hv).
    { split; [apply Z.div_pos; lia|apply Z.div_lt_upper_bound; lia]. }
    { lia. }
    { rewrite app_cons, app_nil_l. cbn [all_bytes]. by rewrite Hc. }
    exists (t +:+ String c ""). split; [by rewrite app_assoc|]. split; [by rewrite all_bytes_app, Ht; cbn; rewrite Hc|].
    assert (Hs : slen (t +:+ String c "") = slen t + 1).
    { unfold slen. rewrite length_app_string. cbn [String.length]. lia. }
    split; [intros E; apply app_eq_nil in E as [_ [=]]|]. split; [rewrite Hs; lia|]. intros m. rewrite Hs.
    rewrite Z.pow_add_r by (pose proof (slen_nonneg t); lia).
    rewrite hex_val_go_app, Hv. cbn [hex_val_go]. rewrite Hu. lia.
Qed.

Lemma hex_text_ok g :
  group_ok g -> all_bytes is_hex (hex_text g) = true /\ hex_text g <> "" /\ slen (hex_text g) <= 4 /\ hex_val (hex_text g) = g.
Proof.
  intros Hg. destruct (hex_text_go_ok 4 g "") as (t & E & Ht & Hne & Hl & Hv); [exact Hg|lia|done|].
  unfold hex_text. rewrite E, app_nil_r. split_and!; try done. unfold hex_val. rewrite Hv. lia.
Qed.

(** ** 32 bits *)

Lemma quad_value v :
  0 <= v < 2 ^ 32 ->
  ((v / 2 ^ 24 mod 256 * 256 + v / 2 ^ 16 mod 256) * 256 + v / 2 ^ 8 mod 256) * 256 + v / 2 ^ 0 mod 256 = v.
Proof.
  intros Hv. change (2 ^ 0) with 1. rewrite Z.div_1_r.
  assert (H : forall k, v / 2 ^ (k + 8) = v / 2 ^ k / 256 \/ k < 0).
  { intros k. destruct (Z.ltb_spec k 0); [by right|left]. rewrite Z.pow_add_r, Zdiv_Zdiv by lia. done. }
  pose proof (H 16). pose proof (H 8). change (16 + 8) with 24 in *. change (8 + 8) with 16 in *.
  assert (0 <= v / 2 ^ 24 < 256) by (split; [apply Z.div_pos; lia|apply Z.div_lt_upper_bound; lia]).
  rewrite (Z.mod_small (v / 2 ^ 24)) by done.
  pose proof (Z.div_mod (v / 2 ^ 16) 256 ltac:(lia)). pose proof (Z.div_mod (v / 2 ^ 8) 256 ltac:(lia)).
  pose proof (Z.div_mod v 256 ltac:(lia)). change (2 ^ 8) with 256 in *. lia.
Qed.

Lemma plain_no_byte c s : in_set ".:%/" c = true -> all_bytes plain_byte s = true -> no_byte c s = true.
Proof.
  intros Hc. unfold no_byte. apply all_bytes_impl. intros x Hx. unfold plain_byte in Hx.
  destruct (Ascii.eqb_spec x c) as [->|]; [by rewrite Hc in Hx|done].
Qed.

Lemma quad_text_parts v :
  quad_text v = Join (map (fun k => pretty (v / 2 ^ (8 * k) mod 256)) [3; 2; 1; 0]) ".".
Proof. done. Qed.

Lemma octet_of v k : parse_octet (pretty (v / 2 ^ k mod 256)) = Some (v / 2 ^ k mod 256)
  /\ all_bytes plain_byte (pretty (v / 2 ^ k mod 256)) = true.
Proof. apply octet_text. apply Z.mod_pos_bound. lia. Qed.

Lemma parseIPv4_quad v : 0 <= v < 2 ^ 32 -> parseIPv4 (quad_text v) = Some v.
Proof.
  intros Hv. unfold parseIPv4, quad_text. change "." with (String "." ""). rewrite Split_Join; [|done|].
  - cbn [map]. rewrite !(proj1 (octet_of v _)). cbn [mbind option_bind]. f_equal.
    change (8 * 3) with 24. change (8 * 2) with 16. change (8 * 1) with 8. change (8 * 0) with 0. by apply quad_value.
  - cbn [map]. repeat (constructor; [apply plain_no_byte; [done|apply octet_of]|]). constructor.
Qed.

Lemma plain_byte_kind x : plain_byte x = true -> in_set ".:%" x = false.
Proof. by destruct x as [[] [] [] [] [] [] [] []]. Qed.

Lemma addr_kind_app a c b : all_bytes plain_byte a = true -> in_set ".:%" c = true -> addr_kind (a +:+ String c b) = Some c.
Proof.
  intros Ha Hc. induction a as [|x a IH].
  - rewrite app_nil_l. cbn [addr_kind]. by rewrite Hc.
  - rewrite app_cons. cbn [addr_kind]. cbn [all_bytes] in Ha. apply andb_true_iff in Ha as [Hx Ha].
    by rewrite plain_byte_kind, IH.
Qed.

Lemma quad_text_head v : exists a b, quad_text v = a +:+ String "." b /\ all_bytes plain_byte a = true.
Proof.
  unfold quad_text. cbn [map Join]. eexists _, _. split; [by rewrite <- app_cons|]. apply octet_of.
Qed.

Lemma ParseAddr_quad v : 0 <= v < 2 ^ 32 -> ParseAddr (quad_text v) = Some (Addr4 v).
Proof.
  intros Hv. pose proof (parseIPv4_quad v Hv) as H. destruct (quad_text_head v) as (a & b & E & Ha).
  unfold ParseAddr. rewrite H. rewrite E, addr_kind_app by done. done.
Qed.

Lemma quad_no_byte c v : c = "/"%char \/ c = "%"%char -> no_byte c (quad_text v) = true.
Proof.
  intros Hc. unfold quad_text. cbn [map Join].
  assert (Hp : forall k, no_byte c (pretty (v / 2 ^ k mod 256)) = true).
  { intros k. apply plain_no_byte; [by destruct Hc as [-> | ->]|apply octet_of]. }
  assert (Hd : no_byte c "." = true) by by destruct Hc as [-> | ->].
  by rewrite !no_byte_app, !Hp, !Hd.
Qed.

(** ** 128 bits *)

Definition colon_text (groups : list Z) : string := Join (map hex_text groups) ":".

(** What may follow a group. *)
Definition after_group (rest : string) : Prop := rest = "" \/ exists s, rest = String ":" s.

Lemma v6_groups_step fuel groups e g rest :
  group_ok g -> after_group rest ->
  v6_groups (S fuel) groups e (hex_text g +:+ rest) =
  let groups := groups ++ [g] in
  match rest with
  | "" => Some (groups, e, "")
  | String c rest =>
      if (rest =? "")%string then None
      else match cut_prefix rest ":" with
           | None => v6_groups fuel groups e rest
           | Some rest =>
               if isSome e then None
               else if (rest =? "")%string then Some (groups, Some (length groups), "")
               else v6_groups fuel groups (Some (length groups)) rest
           end
  end.
Proof.
  intros Hg Hr. destruct (hex_text_ok g Hg) as (Hx & Hne & Hl & Hv). cbn [v6_groups].
  assert (Hs : take_while is_hex rest = "") by (destruct Hr as [-> |[s ->]]; done).
  rewrite take_while_app_all, Hs, app_nil_r, str_drop_app, Hv by done.
  apply String.eqb_neq in Hne. rewrite Hne. destruct (Z.ltb_spec 4 (slen (hex_text g))) as [|_]; [lia|]. cbn [orb].
  destruct Hr as [-> |[s ->]]; [done|]. change (HasPrefix (String ":" s) ".") with false. cbn [negb Ascii.eqb].
  by destruct (String.eqb s "").
Qed.

Lemma colon_text_cons g g' gs : colon_text (g :: g' :: gs) = hex_text g +:+ String ":" (colon_text (g' :: gs)).
Proof. unfold colon_text. cbn [map Join]. by rewrite app_cons, app_nil_l. Qed.

(** A text of groups starts with a hexadecimal digit. *)
Lemma colon_text_head g gs : group_ok g -> exists c s, colon_text (g :: gs) = String c s /\ is_hex c = true.
Proof.
  intros Hg. destruct (hex_text_ok g Hg) as (Hx & Hne & _). destruct (hex_text g) as [|c t] eqn:E; [done|].
  cbn [all_bytes] in Hx. apply andb_true_iff in Hx as [Hc _]. exists c. destruct gs as [|g' gs].
  - exists t. by unfold colon_text; cbn [map Join]; rewrite E.
  - rewrite colon_text_cons, E, app_cons. by eexists.
Qed.

Lemma not_colon c s : is_hex c = true -> cut_prefix (String c s) ":" = None /\ cut_prefix (String c s) "::" = None.
Proof.
  intros Hc. cbn [cut_prefix]. destruct (Ascii.eqb_spec ":" c) as [<-|]; [done|].
  destruct (Ascii.eqb_spec c ":") as [->|]; done.
Qed.

(** A run of groups to the end of the text. *)
Lemma v6_groups_run gs : gs <> [] -> Forall group_ok gs -> forall fuel groups e,
  (length gs <= fuel)%nat -> v6_groups fuel groups e (colon_text gs) = Some (groups ++ gs, e, "").
Proof.
  induction gs as [|g gs IH]; [done|]. intros _ [Hg Hgs]%Forall_cons fuel groups e Hf.
  destruct fuel as [|fuel]; [cbn in Hf; lia|]. destruct gs as [|g' gs].
  - change (colon_text [g]) with (hex_text g). rewrite <- (app_nil_r (hex_text g)).
    rewrite v6_groups_step; [done|done|by left].
  - rewrite colon_text_cons, v6_groups_step; [|done|right; by eexists]. cbn zeta.
    destruct (colon_text_head g' gs) as (c & s & Es & Hc); [by apply Forall_cons in Hgs as [? _]|].
    rewrite Es. change (String c s =? "")%string with false. rewrite (proj1 (not_colon c s Hc)), <- Es.
    rewrite IH by (done || cbn in *; lia). by rewrite <- List.app_assoc.
Qed.

(** A run of groups up to "::". *)
Lemma v6_groups_gap gs rest : gs <> [] -> Forall group_ok gs -> forall fuel groups,
  (length gs <= fuel)%nat ->
  v6_groups fuel groups None (colon_text gs +:+ "::" +:+ rest) =
  if (rest =? "")%string then Some (groups ++ gs, Some (length (groups ++ gs)), "")
  else v6_groups (fuel - length gs) (groups ++ gs) (Some (length (groups ++ gs))) rest.
Proof.
  induction gs as [|g gs IH]; [done|]. intros _ [Hg Hgs]%Forall_cons fuel groups Hf.
  destruct fuel as [|fuel]; [cbn in Hf; lia|]. destruct gs as [|g' gs].
  - change (colon_text [g]) with (hex_text g). rewrite v6_groups_step; [|done|right; by eexists].
    change ("::" +:+ rest) with (String ":" (String ":" rest)). cbn zeta. change (String ":" rest =? "")%string with false.
    change (cut_prefix (String ":" rest) ":") with (Some rest). cbn [isSome]. by destruct fuel.
  - rewrite colon_text_cons, app_assoc, app_cons, v6_groups_step; [|done|right; by eexists]. cbn zeta.
    destruct (colon_text_head g' gs) as (c & s & Es & Hc); [by apply Forall_cons in Hgs as [? _]|].
    rewrite Es, app_cons. change (String c _ =? "")%string with false. rewrite (proj1 (not_colon c _ Hc)), <- app_cons, <- Es.
    rewrite IH by (done || cbn in *; lia). rewrite <- !List.app_assoc. cbn [app length].
    by replace (S fuel - S (S (length gs)))%nat with (fuel - S (length gs))%nat by lia.
Qed.

(** ** The longest run of zeros *)

Lemma zero_run_zeros l : take (zero_run l) l = repeat 0 (zero_run l) /\ (zero_run l <= length l)%nat.
Proof.
  induction l as [|g l [IH1 IH2]]; [done|]. cbn [zero_run]. destruct (Z.eqb_spec g 0) as [->|]; [|split; [done|cbn; lia]].
  cbn [take firstn repeat length]. split; [by f_equal|lia].
Qed.

(** A run found: two zeros or more, or none. *)
Definition run_ok (groups : list Z) (best : nat * nat) : Prop :=
  best.2 = 0%nat
  \/ exists l1 l2, groups = l1 ++ repeat 0 best.2 ++ l2 /\ length l1 = best.1 /\ (2 <= best.2)%nat.

Lemma longest_zeros_ok rest : forall pre best,
  run_ok (pre ++ rest) best -> run_ok (pre ++ rest) (longest_zeros (length pre) rest best).
Proof.
  induction rest as [|g rest IH]; intros pre best Hb; [done|]. cbn [longest_zeros].
  replace (pre ++ g :: rest) with ((pre ++ [g]) ++ rest) in * by (by rewrite <- List.app_assoc).
  replace (S (length pre)) with (length (pre ++ [g])) by (rewrite List.length_app; cbn; lia). apply IH.
  destruct ((2 <=? _)%nat && _) eqn:E; [|done]. apply andb_true_iff in E as [E _]. apply Nat.leb_le in E.
  right. cbn [fst snd]. exists pre, (drop (zero_run (g :: rest)) (g :: rest)). split; [|done].
  rewrite <- (proj1 (zero_run_zeros (g :: rest))), take_drop. by rewrite <- List.app_assoc.
Qed.

(** ** The whole address *)

Lemma v6_group_ok v i : group_ok (v6_group v i).
Proof. unfold group_ok, v6_group. apply Z.mod_pos_bound. lia. Qed.

Lemma groups_of_ok v : Forall group_ok (groups_of v) /\ length (groups_of v) = 8%nat.
Proof. split; [|done]. unfold groups_of. apply List.Forall_map, List.Forall_forall. intros i _. apply v6_group_ok. Qed.

Lemma group_value_of v : 0 <= v < 2 ^ 128 -> group_value (groups_of v) = v.
Proof.
  intros Hv. unfold group_value, groups_of, v6_group. cbn [map foldl].
  change (16 * (7 - 0)) with 112. change (16 * (7 - 1)) with 96. change (16 * (7 - 2)) with 80.
  change (16 * (7 - 3)) with 64. change (16 * (7 - 4)) with 48. change (16 * (7 - 5)) with 32.
  change (16 * (7 - 6)) with 16. change (16 * (7 - 7)) with 0. rewrite Z.pow_0_r, Z.div_1_r.
  assert (H : forall k, 0 <= k -> v / 2 ^ (k + 16) * 2 ^ 16 + v / 2 ^ k mod 2 ^ 16 = v / 2 ^ k).
  { intros k Hk. rewrite Z.pow_add_r, <- Zdiv_Zdiv by lia. pose proof (Z.div_mod (v / 2 ^ k) (2 ^ 16)). lia. }
  assert (H112 : v / 2 ^ 112 mod 2 ^ 16 = v / 2 ^ 112).
  { apply Z.mod_small. split; [apply Z.div_pos; lia|apply Z.div_lt_upper_bound; lia]. }
  pose proof (H 96). pose proof (H 80). pose proof (H 64). pose proof (H 48). pose proof (H 32). pose proof (H 16).
  pose proof (H 0) as Hlast. rewrite Z.pow_0_r, Z.div_1_r in Hlast.
  change (96 + 16) with 112 in *. change (80 + 16) with 96 in *. change (64 + 16) with 80 in *.
  change (48 + 16) with 64 in *. change (32 + 16) with 48 in *. change (16 + 16) with 32 in *. change (0 + 16) with 16 in *.
  rewrite H112. lia.
Qed.

Lemma run_split groups l1 n l2 :
  groups = l1 ++ repeat 0 n ++ l2 -> take (length l1) groups = l1 /\ drop (length l1 + n) groups = l2.
Proof.
  intros ->. split; [by rewrite take_app_length|]. rewrite <- drop_drop, drop_app_length.
  rewrite drop_app_ge, repeat_length by (rewrite repeat_length; lia). by rewrite Nat.sub_diag.
Qed.

Lemma string6_start l1 l2 n groups :
  groups = l1 ++ repeat 0 n ++ l2 -> length groups = 8%nat -> (2 <= n)%nat -> Forall group_ok groups ->
  let host := colon_text l1 +:+ "::" +:+ colon_text l2 in
  host = "::" /\ groups = repeat 0 8
  \/ host <> "::" /\ v6_start host = Some (l1 ++ l2, Some (length l1), "")
     /\ expand (l1 ++ l2) (Some (length l1)) = Some groups.
Proof.
  intros Hg Hlen Hn Hok host. assert (Hlens : (length l1 + n + length l2 = 8)%nat).
  { rewrite Hg in Hlen. rewrite !List.length_app, repeat_length in Hlen. lia. }
  rewrite Hg in Hok. apply Forall_app in Hok as [Hok1 [_ Hok2]%Forall_app].
  assert (Hexp : expand (l1 ++ l2) (Some (length l1)) = Some groups).
  { unfold expand. rewrite List.length_app. destruct (Nat.ltb_spec (length l1 + length l2) 8); [|lia].
    rewrite take_app_length, drop_app_length, Hg. replace (8 - (length l1 + length l2))%nat with n by lia. done. }
  assert (Hrun : forall fuel e, (length l2 <= fuel)%nat -> l2 <> [] -> v6_groups fuel l1 (Some e) (colon_text l2) = Some (l1 ++ l2, Some e, "")).
  { intros fuel e Hf Hne. by apply v6_groups_run. }
  assert (Hempty : colon_text l2 = "" <-> l2 = []).
  { split; [|by intros ->]. destruct l2 as [|g l2]; [done|]. apply Forall_cons in Hok2 as [Hg2 _].
    destruct (colon_text_head g l2 Hg2) as (c & s & -> & _). done. }
  destruct l1 as [|g1 l1].
  - subst host. change (colon_text []) with "". rewrite app_nil_l. destruct l2 as [|g2 l2].
    + left. split; [done|]. rewrite Hg. cbn [app]. rewrite List.app_nil_r. f_equal. cbn in Hlens. lia.
    + right. split.
      { intros E. apply (app_inv_l "::" (colon_text (g2 :: l2)) "") in E. by apply Hempty in E. }
      split; [|exact Hexp]. unfold v6_start. rewrite cut_prefix_app. apply Hrun; [cbn in *; lia|done].
  - right. destruct (colon_text_head g1 l1) as (c & s & Es & Hc); [by apply Forall_cons in Hok1 as [? _]|].
    split; [|split; [|exact Hexp]].
    + subst host. rewrite Es, app_cons. intros E. injection E as -> _. done.
    + subst host. unfold v6_start. rewrite Es, app_cons, (proj2 (not_colon c _ Hc)), <- app_cons, <- Es.
      rewrite v6_groups_gap by (done || cbn in *; lia). cbn [app]. destruct (String.eqb_spec (colon_text l2) "") as [E|E].
      * apply Hempty in E as ->. by rewrite List.app_nil_r.
      * apply Hrun; [cbn [length] in *; lia|]. intros ->. by apply E.
Qed.

Lemma string6_cases v :
  let groups := groups_of v in
  (string6 v = colon_text groups)
  \/ exists l1 n l2, groups = l1 ++ repeat 0 n ++ l2 /\ (2 <= n)%nat /\ string6 v = colon_text l1 +:+ "::" +:+ colon_text l2.
Proof.
  intros groups. unfold string6. fold groups.
  assert (H : run_ok groups (longest_zeros 0 groups (0%nat, 0%nat))) by (apply (longest_zeros_ok groups []); by left).
  destruct (longest_zeros 0 groups (0%nat, 0%nat)) as [start n]. unfold run_ok in H. cbn [fst snd] in H.
  destruct H as [->|(l1 & l2 & Hg & Hl & Hn)]; [by left|]. destruct (Nat.eqb_spec n 0) as [->|_]; [by left|right].
  exists l1, n, l2. split; [done|]. split; [done|]. subst start. destruct (run_split _ _ _ _ Hg) as [-> ->]. done.
Qed.

Lemma colon_text_bytes p gs :
  Forall group_ok gs -> (forall c, is_hex c = true -> p c = true) -> p ":"%char = true -> all_bytes p (colon_text gs) = true.
Proof.
  intros Hgs Hp Hc. assert (Hg : forall g, group_ok g -> all_bytes p (hex_text g) = true).
  { intros g Hg. destruct (hex_text_ok g Hg) as (Hx & _). revert Hx. by apply all_bytes_impl. }
  induction gs as [|g gs IH]; [done|]. apply Forall_cons in Hgs as [H1 Hgs]. destruct gs as [|g' gs]; [by apply Hg|].
  rewrite colon_text_cons, all_bytes_app, Hg by done. cbn [all_bytes]. by rewrite Hc, IH.
Qed.

Lemma string6_bytes p v :
  (forall c, is_hex c = true -> p c = true) -> p ":"%char = true -> all_bytes p (string6 v) = true.
Proof.
  intros Hp Hc. destruct (groups_of_ok v) as [Hok _]. destruct (string6_cases v) as [->|(l1 & n & l2 & Hg & _ & ->)].
  - by apply colon_text_bytes.
  - rewrite Hg in Hok. apply Forall_app in Hok as [H1 [_ H2]%Forall_app].
    rewrite !all_bytes_app, !colon_text_bytes by done. cbn [all_bytes]. by rewrite Hc.
Qed.

Lemma string6_no_byte c v : is_hex c = false -> c <> ":"%char -> no_byte c (string6 v) = true.
Proof.
  intros Hc Hne. apply string6_bytes.
  - intros x Hx. destruct (Ascii.eqb_spec x c) as [->|]; [congruence|done].
  - by destruct (Ascii.eqb_spec ":" c) as [<-|].
Qed.

Lemma string6_printable v : all_bytes printable (string6 v) = true.
Proof. apply string6_bytes; [|done]. intros c. by destruct c as [[] [] [] [] [] [] [] []]. Qed.

Lemma parseIPv6_string6 v : 0 <= v < 2 ^ 128 -> parseIPv6 (string6 v) = Some (Addr6 v "").
Proof.
  intros Hv. destruct (groups_of_ok v) as [Hok Hlen]. unfold parseIPv6, split_zone.
  rewrite (proj2 (cut_byte_None "%" (string6 v))) by by apply string6_no_byte. cbn [mbind option_bind].
  destruct (string6_cases v) as [->|(l1 & n & l2 & Hg & Hn & ->)].
  - destruct (groups_of v) as [|g gs] eqn:Eg; [done|]. rewrite <- Eg in *.
    destruct (colon_text_head g gs) as (c & s & Es & Hc); [rewrite Eg in Hok; by apply Forall_cons in Hok as [? _]|].
    rewrite <- Eg in Es. destruct (String.eqb_spec (colon_text (groups_of v)) "::") as [E|_].
    { rewrite Es in E. injection E as -> _. done. }
    assert (Hst : v6_start (colon_text (groups_of v)) = Some (groups_of v, None, "")).
    { unfold v6_start. rewrite Es, (proj2 (not_colon c s Hc)), <- Es. by rewrite v6_groups_run by (done || lia || by rewrite Eg). }
    rewrite Hst. cbn [mbind option_bind negb String.eqb]. unfold expand. rewrite Hlen. cbn [Nat.eqb].
    change ("" =? "")%string with true. cbn [negb mbind option_bind]. by rewrite group_value_of.
  - destruct (string6_start l1 l2 n (groups_of v) Hg Hlen Hn Hok) as [[-> Hz]|(Hne & Hst & Hexp)].
    + change ("::" =? "::")%string with true. cbn [negb]. f_equal. f_equal. rewrite <- (group_value_of v Hv), Hz. done.
    + apply String.eqb_neq in Hne. rewrite Hne, Hst. cbn [mbind option_bind]. change ("" =? "")%string with true.
      cbn [negb]. rewrite Hexp. cbn [mbind option_bind]. by rewrite group_value_of.
Qed.

Lemma is_hex_plain c : is_hex c = true -> plain_byte c = true.
Proof. by destruct c as [[] [] [] [] [] [] [] []]. Qed.

Lemma string6_head v : exists a b, string6 v = a +:+ String ":" b /\ all_bytes plain_byte a = true.
Proof.
  destruct (groups_of_ok v) as [Hok Hlen].
  assert (Hhead : forall g gs rest, group_ok g -> (exists s, rest = String ":" s) ->
            exists a b, colon_text (g :: gs) +:+ rest = a +:+ String ":" b /\ all_bytes plain_byte a = true).
  { intros g gs rest Hg [s ->]. destruct (hex_text_ok g Hg) as (Hx & _).
    exists (hex_text g). destruct gs as [|g' gs].
    - exists s. split; [done|]. revert Hx. apply all_bytes_impl. intros c. apply is_hex_plain.
    - exists (colon_text (g' :: gs) +:+ String ":" s). rewrite colon_text_cons, app_assoc, app_cons. split; [done|].
      revert Hx. apply all_bytes_impl. intros c. apply is_hex_plain. }
  destruct (string6_cases v) as [->|(l1 & n & l2 & Hg & Hn & ->)].
  - destruct (groups_of v) as [|g [|g' gs]]; [done|done|]. apply Forall_cons in Hok as [Hg _].
    destruct (hex_text_ok g Hg) as (Hx & _). exists (hex_text g), (colon_text (g' :: gs)).
    rewrite colon_text_cons. split; [done|]. revert Hx. apply all_bytes_impl. intros c. apply is_hex_plain.
  - destruct l1 as [|g l1].
    + exists "", (String ":" (colon_text l2)). done.
    + apply Hhead; [|by eexists]. rewrite Hg in Hok. cbn [app] in Hok. by apply Forall_cons in Hok as [? _].
Qed.

Lemma ParseAddr_string6 v : 0 <= v < 2 ^ 128 -> ParseAddr (string6 v) = Some (Addr6 v "").
Proof.
  intros Hv. pose proof (parseIPv6_string6 v Hv) as H. destruct (string6_head v) as (a & b & E & Ha).
  unfold ParseAddr. rewrite H. rewrite E, addr_kind_app by done. done.
Qed.

(** ** Networks *)

Lemma Mask_fix w n v : v mod 2 ^ (w - n) = 0 -> 0 <= n <= w -> Mask w n v = v.
Proof.
  intros Hm Hn. unfold Mask. rewrite Z.shiftr_div_pow2, Z.shiftl_mul_pow2 by lia.
  pose proof (Z.div_mod v (2 ^ (w - n)) ltac:(lia)). lia.
Qed.

(** A network as ParseCIDR makes it. *)
Definition net_parsed (n : IPNet) : Prop := net_ok n /\ 0 <= net_IP n < 2 ^ if net_wide n then 128 else 32.

Lemma Mask_range w n v : 0 <= n <= w -> 0 <= v < 2 ^ w -> 0 <= Mask w n v < 2 ^ w.
Proof.
  intros Hn Hv. unfold Mask. rewrite Z.shiftr_div_pow2, Z.shiftl_mul_pow2 by lia.
  pose proof (Z.mul_div_le v (2 ^ (w - n)) ltac:(lia)). pose proof (Z.div_pos v (2 ^ (w - n)) ltac:(lia) ltac:(lia)). nia.
Qed.

Lemma ParseCIDR_parsed s n : ParseCIDR s = Some n -> net_parsed n.
Proof.
  intros H. split; [by apply (ParseCIDR_ok s)|]. revert H. unfold ParseCIDR.
  destruct (cut_byte "/" s) as [[addr mask]|]; [|done]. cbn [mbind option_bind].
  destruct (ParseAddr addr) as [a|] eqn:Ea; [|done]. apply ParseAddr_ok in Ea.
  destruct (dtoi mask) as [k|] eqn:E; [|done]. apply dtoi_nonneg in E. cbn [mbind option_bind].
  destruct (_ || _) eqn:Eb; [done|]. apply orb_false_iff in Eb as [_ Hk%Z.ltb_ge]. intros [= <-].
  destruct a; cbn [BitLen net_wide net_IP addr_ok] in *; apply Mask_range; lia.
Qed.

(** The network the printed form names: a wide network of mapped addresses is
    printed as the narrow one. *)
Definition net_canonical (n : IPNet) : IPNet :=
  match net_narrow n with Some (v, ones) => MkNet false v ones | None => n end.

Lemma net_narrow_spec n v ones :
  net_parsed n -> net_narrow n = Some (v, ones) -> 0 <= v < 2 ^ 32 /\ 0 <= ones <= 32 /\ v mod 2 ^ (32 - ones) = 0.
Proof.
  intros [[Ho Hm] Hr] H. unfold net_narrow in H. destruct (net_wide n) eqn:Hw; [|by injection H as <- <-].
  destruct (To4 (net_IP n)) as [w|] eqn:E4; [|done]. injection H as <- <-. apply To4_Some in E4 as [E4 Hv]. rewrite E4 in Hm.
  assert (128 - net_ones n <= 32).
  { apply (odd_top_bits (65535 * 2 ^ 32 + w)); [lia|lia|exact Hm|].
    rewrite Z.add_comm, Z.div_add, Z.div_small by lia. done. }
  rewrite Z.max_r by lia. split; [done|]. split; [lia|]. replace (32 - (net_ones n - 96)) with (128 - net_ones n) by lia.
  set (k := 128 - net_ones n) in *.
  assert (Hsplit : 65535 * 2 ^ 32 = 65535 * 2 ^ (32 - k) * 2 ^ k).
  { rewrite <- Z.mul_assoc, <- Z.pow_add_r by lia. f_equal. f_equal. lia. }
  rewrite Hsplit, Z.add_comm, Z.mod_add in Hm by lia. done.
Qed.

Lemma slash_text a b : a +:+ "/" +:+ b = a +:+ String "/" b.
Proof. done. Qed.

(** What is printed for a network is a network text, of the canonical network. *)
Lemma ParseCIDR_text n : net_parsed n -> ParseCIDR (IPNet_String n) = Some (net_canonical n).
Proof.
  intros Hn. unfold IPNet_String, net_canonical. destruct (net_narrow n) as [[v ones]|] eqn:E.
  - destruct (net_narrow_spec n v ones Hn E) as (Hv & Ho & Hm). unfold ParseCIDR.
    rewrite slash_text, cut_byte_app by by apply quad_no_byte; left. cbn [mbind option_bind].
    rewrite ParseAddr_quad by done. cbn [mbind option_bind].
    destruct (bits_text ones ltac:(lia)) as (-> & _). cbn [mbind option_bind zone_free BitLen negb orb].
    destruct (Z.ltb_spec 32 ones); [lia|]. by rewrite Mask_fix by (done || lia).
  - assert (Hw : net_wide n = true) by (unfold net_narrow in E; by destruct (net_wide n)).
    destruct Hn as [[Ho Hm] Hr]. rewrite Hw in *. unfold ParseCIDR.
    rewrite slash_text, cut_byte_app by by apply string6_no_byte. cbn [mbind option_bind].
    rewrite ParseAddr_string6 by done. cbn [mbind option_bind].
    destruct (bits_text (net_ones n) ltac:(lia)) as (-> & _). cbn [mbind option_bind zone_free BitLen negb orb String.eqb].
    change ("" =? "")%string with true. destruct (Z.ltb_spec 128 (net_ones n)); [lia|]. cbn [negb orb].
    rewrite Mask_fix by (done || lia). by destruct n; cbn in *; subst.
Qed.

Lemma canonical_narrow n : net_narrow (net_canonical n) = net_narrow n.
Proof. unfold net_canonical. by destruct (net_narrow n) as [[v ones]|] eqn:E. Qed.

Lemma canonical_text n : IPNet_String (net_canonical n) = IPNet_String n.
Proof. unfold IPNet_String. rewrite canonical_narrow. unfold net_canonical. by destruct (net_narrow n) as [[v ones]|] eqn:E. Qed.

Lemma canonical_contains n ip : Net_Contains (net_canonical n) ip = Net_Contains n ip.
Proof. unfold Net_Contains. rewrite canonical_narrow. unfold net_canonical. by destruct (net_narrow n) as [[v ones]|] eqn:E. Qed.

(** ** Prefixes *)

(** A prefix in the one form its addresses have: masked, without zone, and not of
    mapped addresses. *)
Definition prefix_normal (p : Prefix) : Prop :=
  let n := px_bits p in
  match px_addr p with
  | Addr4 v => 0 <= v < 2 ^ 32 /\ 0 <= n <= 32 /\ v mod 2 ^ (32 - n) = 0
  | Addr6 v zone => zone = "" /\ 0 <= v < 2 ^ 128 /\ To4 v = None /\ 0 <= n <= 128 /\ v mod 2 ^ (128 - n) = 0
  end.

Lemma cut_last_slash a b : no_byte "/" b = true -> cut_last_byte "/" (a +:+ "/" +:+ b) = Some (a, b).
Proof. intros H. rewrite slash_text. by apply cut_last_byte_app. Qed.

Lemma ParsePrefix_text p : prefix_normal p -> ParsePrefix (Prefix_String p) = Some p.
Proof.
  destruct p as [a n]. unfold prefix_normal, Prefix_String, ParsePrefix. cbn [px_addr px_bits]. intros Hp.
  assert (Hn : 0 <= n <= 128) by (destruct a; lia). destruct (bits_text n Hn) as (_ & Ha & Hs & Hz).
  rewrite cut_last_slash by done. cbn [mbind option_bind].
  assert (ParseAddr (Addr_String a) = Some a /\ zone_free a = true /\ (BitLen a <? n) = false) as (-> & Hf & Hb).
  { destruct a as [v|v zone]; cbn [Addr_String zone_free BitLen].
    - split; [apply ParseAddr_quad; lia|]. split; [done|]. apply Z.ltb_ge. lia.
    - destruct Hp as (-> & Hv & -> & Hl & _). change ("" =? "")%string with true. rewrite app_nil_r.
      split; [by apply ParseAddr_string6|]. split; [done|]. apply Z.ltb_ge. lia. }
  cbn [mbind option_bind]. rewrite Hf, Hz, Ha. cbn [negb orb mbind option_bind]. rewrite Hb.
  destruct (Z.ltb_spec n 0); [lia|done].
Qed.

Lemma Prefix_String_inj p q : prefix_normal p -> prefix_normal q -> Prefix_String p = Prefix_String q -> p = q.
Proof. intros Hp%ParsePrefix_text Hq%ParsePrefix_text E. rewrite E in Hp. congruence. Qed.

(** Masking does not make a mapped address of one that is not. *)
Lemma To4_Mask v n : 0 <= v -> 0 <= n <= 128 -> To4 v = None -> To4 (Mask 128 n v) = None.
Proof.
  intros Hv Hn H. destruct (To4 (Mask 128 n v)) as [w|] eqn:E; [|done]. exfalso. apply To4_Some in E as [E Hw].
  pose proof (Mask_mod 128 n v ltac:(lia)) as Hm.
  assert (Hk : 128 - n <= 32).
  { apply (odd_top_bits (Mask 128 n v)); [lia|lia|done|]. rewrite E, Z.add_comm, Z.div_add by lia. by rewrite Z.div_small. }
  assert (Hd : v / 2 ^ 32 = Mask 128 n v / 2 ^ 32).
  { apply (div_agree _ _ 32 (128 - n)); [lia|]. unfold Mask. rewrite Z.shiftl_mul_pow2, Z.div_mul by lia.
    by rewrite Z.shiftr_div_pow2 by lia. }
  rewrite E, Z.add_comm, Z.div_add, (Z.div_small w) in Hd by lia. unfold To4 in H. rewrite Hd in H. done.
Qed.
