(* ===== verification/Regexp.v ===== *)
(** Go's [regexp] package, on the patterns bodega compiles.

    A pattern is transcribed as a term of [re]; the matcher explores the
    alternatives in Go's leftmost-first priority order and keeps, for each end
    position, the captures of the first way to reach it.  No pattern has a
    back-reference, so what follows depends on the end position alone and the
    dropped ways can never win.  No starred body matches the empty string.
    [lang] is the language a pattern denotes, and [MatchString_lang] ties the
    matcher to it. *)

From stdpp Require Import base list strings gmap.
From Stdlib Require Import ZArith Lia Ascii.
From S2P Require Import Prelude GoStrings.

Inductive re :=
| REps
| RByte (p : ascii -> bool)
| RSeq (r1 r2 : re)
| RAlt (r1 r2 : re)
| RStar (r : re)
| RGroup (n : nat) (r : re).

Declare Scope re_scope.
Delimit Scope re_scope with re.
Bind Scope re_scope with re.

Notation "r1 '·' r2" := (RSeq r1 r2) (at level 50, left associativity) : re_scope.
Notation "r1 '∥' r2" := (RAlt r1 r2) (at level 52, left associativity) : re_scope.
Notation "r '⋆'" := (RStar r) (at level 1, format "r '⋆'") : re_scope.

(** [x?], [x+], [x{lo,hi}], a literal, a bracketed class. *)
Definition ROpt (r : re) : re := (r ∥ REps)%re.
Definition RPlus (r : re) : re := (r · r⋆)%re.

Fixpoint RUpto (n : nat) (r : re) : re :=
  match n with
  | O => REps
  | S n' => ROpt (r · RUpto n' r)%re
  end.

Fixpoint RTimes (n : nat) (r : re) : re :=
  match n with
  | O => REps
  | S n' => (r · RTimes n' r)%re
  end.

Definition RRange (lo hi : nat) (r : re) : re := (RTimes lo r · RUpto (hi - lo) r)%re.

Fixpoint RLit (s : string) : re :=
  match s with
  | "" => REps
  | String c "" => RByte (fun x => Ascii.eqb x c)
  | String c s' => (RByte (fun x => Ascii.eqb x c) · RLit s')%re
  end.

Definition RSet (chars : string) : re := RByte (in_set chars).

(** [RE2]'s [\s]: the vertical tab is not in it. *)
Definition is_re_space (c : ascii) : bool :=
  let n := byteZ c in (n =? 9) || (n =? 10) || (n =? 12) || (n =? 13) || (n =? 32).

Definition caps := list (nat * string).

(** The text of a group, "" when it took no part in the match. *)
Definition group (c : caps) (n : nat) : string :=
  match list_find (fun p => p.1 = n) c with
  | Some (_, (_, s)) => s
  | None => ""
  end.

(** What [s] lost to become its suffix [rest]. *)
Definition consumed (s rest : string) : string :=
  String.substring 0 (String.length s - String.length rest) s.

(** Keep the first way to reach each end position. *)
Fixpoint dedup (l : list (string * caps)) : list (string * caps) :=
  match l with
  | [] => []
  | x :: l' => x :: filter (fun y => y.1 <> x.1) (dedup l')
  end.

(** Captures of what follows go in front: a group matched again keeps its last
    text. *)
Definition extend (c : caps) (l : list (string * caps)) : list (string * caps) :=
  (fun y => (y.1, y.2 ++ c)) <$> l.

Section star.
Variable body : string -> list (string * caps).

(** One more turn of the body, preferred, or none. *)
Fixpoint star_ends (fuel : nat) (s : string) : list (string * caps) :=
  match fuel with
  | O => [(s, [])]
  | S n =>
      dedup ((body s ≫= fun x =>
                if (String.length x.1 <? String.length s)%nat
                then extend x.2 (star_ends n x.1) else [])
             ++ [(s, [])])
  end.
End star.

(** The ways [r] can match a prefix of [s], in order of preference: the text
    left over, and the captures.  A starred body that consumed nothing is not
    repeated, so the length of the text bounds the turns. *)
Fixpoint ends (r : re) (s : string) : list (string * caps) :=
  match r with
  | REps => [(s, [])]
  | RByte p =>
      match s with
      | String c s' => if p c then [(s', [])] else []
      | "" => []
      end
  | RSeq r1 r2 => dedup (ends r1 s ≫= fun x => extend x.2 (ends r2 x.1))
  | RAlt r1 r2 => dedup (ends r1 s ++ ends r2 s)
  | RStar r1 => star_ends (ends r1) (String.length s) s
  | RGroup n r1 => (fun x => (x.1, (n, consumed s x.1) :: x.2)) <$> ends r1 s
  end.

(** [regexp.MatchString] and [FindStringSubmatch] of a pattern [^r$]. *)
Definition full_match (r : re) (s : string) : option caps :=
  match list_find (fun p => p.1 = "") (ends r s) with
  | Some (_, (_, c)) => Some c
  | None => None
  end.

Definition MatchString (r : re) (s : string) : bool :=
  match full_match r s with Some _ => true | None => false end.

(** [regexp.FindAllString(s, -1)], for a pattern that never matches "": the
    scan resumes after each match. *)
Fixpoint find_all (fuel : nat) (r : re) (s : string) : list string :=
  match fuel, s with
  | S n, String _ s' =>
      match ends r s with
      | (t, _) :: _ => consumed s t :: find_all n r t
      | [] => find_all n r s'
      end
  | _, _ => []
  end.

Definition FindAllString (r : re) (s : string) : list string := find_all (String.length s) r s.

(** * The language of a pattern *)

Inductive lang : re -> string -> Prop :=
| lang_eps : lang REps ""
| lang_byte (p : ascii -> bool) c : p c = true -> lang (RByte p) (String c "")
| lang_seq r1 r2 a b : lang r1 a -> lang r2 b -> lang (r1 · r2)%re (a +:+ b)
| lang_alt_l r1 r2 a : lang r1 a -> lang (r1 ∥ r2)%re a
| lang_alt_r r1 r2 a : lang r2 a -> lang (r1 ∥ r2)%re a
| lang_star_nil r : lang (r⋆)%re ""
| lang_star_app r a b : lang r a -> lang (r⋆)%re b -> lang (r⋆)%re (a +:+ b)
| lang_group n r a : lang r a -> lang (RGroup n r) a.

#[export] Hint Constructors lang : bodega.

Lemma elem_of_dedup_1 x l : x ∈ dedup l -> x ∈ l.
Proof.
  induction l as [|y l IH]; simpl; [done|].
  rewrite !elem_of_cons, list_elem_of_filter. intuition auto.
Qed.

Lemma elem_of_dedup_2 t c l : (t, c) ∈ l -> exists c', (t, c') ∈ dedup l.
Proof.
  induction l as [|[t' c''] l IH]; simpl; [by intros ?%elem_of_nil|].
  rewrite elem_of_cons. destruct (decide (t = t')) as [->|Hne].
  - intros _. exists c''. apply elem_of_cons. by left.
  - intros [[= -> ->]|Hin]; [done|]. destruct (IH Hin) as [c' Hc'].
    exists c'. apply elem_of_cons. right. apply list_elem_of_filter. done.
Qed.

Lemma lang_star_one r a : lang r a -> lang (r⋆)%re a.
Proof. intros. rewrite <- (app_nil_r a). eauto with bodega. Qed.

Lemma elem_of_extend t d c l : (t, d) ∈ extend c l <-> exists d', d = d' ++ c /\ (t, d') ∈ l.
Proof.
  unfold extend. rewrite list_elem_of_fmap. split.
  - intros ([u d'] & [= -> ->] & H). eauto.
  - intros (d' & -> & H). by exists (t, d').
Qed.

Lemma star_sound body r n s t c :
  (forall s t c, (t, c) ∈ body s -> exists a, s = a +:+ t /\ lang r a) ->
  (t, c) ∈ star_ends body n s -> exists a, s = a +:+ t /\ lang (r⋆)%re a.
Proof.
  intros Hb. revert s t c. induction n as [|n IH]; intros s t c; simpl.
  - intros [= -> ->]%list_elem_of_singleton. exists "". eauto with bodega.
  - intros [H|H]%elem_of_dedup_1%elem_of_app.
    + apply list_elem_of_bind in H as ([u d] & H & Hu). simpl in H.
      destruct (_ <? _)%nat; [|by apply elem_of_nil in H].
      apply elem_of_extend in H as (d' & _ & H).
      apply IH in H as (b & -> & Hb'). apply Hb in Hu as (a & -> & Ha).
      exists (a +:+ b). rewrite app_assoc. eauto with bodega.
    + apply list_elem_of_singleton in H as [= -> ->]. exists "". eauto with bodega.
Qed.

Lemma ends_sound r s t c : (t, c) ∈ ends r s -> exists a, s = a +:+ t /\ lang r a.
Proof.
  revert s t c. induction r as [|p|r1 IH1 r2 IH2|r1 IH1 r2 IH2|r IH|n r IH]; intros s t c; simpl.
  - intros [= -> ->]%list_elem_of_singleton. exists "". eauto with bodega.
  - destruct s as [|x s]; [by intros ?%elem_of_nil|].
    destruct (p x) eqn:E; [|by intros ?%elem_of_nil].
    intros [= -> ->]%list_elem_of_singleton. exists (String x ""). eauto with bodega.
  - intros ([u d] & H & Hu)%elem_of_dedup_1%list_elem_of_bind. cbn [fst snd] in H.
    apply elem_of_extend in H as (d' & _ & H).
    apply IH1 in Hu as (a & -> & Ha). apply IH2 in H as (b & -> & Hb).
    exists (a +:+ b). rewrite app_assoc. eauto with bodega.
  - intros [H|H]%elem_of_dedup_1%elem_of_app; [apply IH1 in H|apply IH2 in H];
      destruct H as (a & -> & Ha); eauto with bodega.
  - intros H. eapply star_sound; eauto.
  - intros ([u d] & [= -> ->] & H)%list_elem_of_fmap. apply IH in H as (a & -> & Ha).
    eauto with bodega.
Qed.

(** Taking a way through the body and then a way through the rest. *)
Lemma elem_of_seq (f g : string -> list (string * caps)) s t c u d :
  (t, c) ∈ f s -> (u, d) ∈ g t -> (u, d ++ c) ∈ (f s ≫= fun x => extend x.2 (g x.1)).
Proof.
  intros Hf Hg. apply list_elem_of_bind. exists (t, c). split; [|done].
  apply elem_of_extend. eauto.
Qed.

Lemma star_complete body r n a t :
  (forall a t, lang r a -> exists c, (t, c) ∈ body (a +:+ t)) ->
  lang (r⋆)%re a -> (String.length (a +:+ t) <= n)%nat ->
  exists c, (t, c) ∈ star_ends body n (a +:+ t).
Proof.
  intros Hb Ha. remember (r⋆)%re as q eqn:Hq. revert n t.
  induction Ha as [| | | | |r' |r' a b Ha _ Hb' IH|]; try discriminate Hq; injection Hq as ->;
    intros n t Hn.
  - rewrite app_nil_l in *. destruct n as [|n]; simpl.
    + exists []. by apply list_elem_of_singleton.
    + apply elem_of_dedup_2 with (c := []), elem_of_app. right. by apply list_elem_of_singleton.
  - rewrite app_assoc in *. destruct a as [|x a].
    { rewrite app_nil_l in *. by apply IH. }
    destruct n as [|n]; [rewrite app_cons in Hn; simpl in Hn; lia|].
    destruct (Hb _ (b +:+ t) Ha) as [c Hc].
    destruct (IH eq_refl n t) as [d Hd].
    { rewrite length_app_string in Hn. simpl in Hn. lia. }
    apply elem_of_dedup_2 with (c := d ++ c), elem_of_app. left.
    apply list_elem_of_bind. exists (b +:+ t, c). split; [|done]. cbn [fst snd].
    rewrite (proj2 (Nat.ltb_lt _ _)) by (rewrite (length_app_string (String x a)); simpl; lia).
    apply elem_of_extend. eauto.
Qed.

Lemma ends_complete r a t : lang r a -> exists c, (t, c) ∈ ends r (a +:+ t).
Proof.
  revert a t. induction r as [|p|r1 IH1 r2 IH2|r1 IH1 r2 IH2|r IH|n r IH]; intros a t H; simpl.
  - inversion H; subst. exists []. by apply list_elem_of_singleton.
  - inversion H as [|? x Hx| | | | | |]; subst. rewrite app_cons, Hx. exists [].
    by apply list_elem_of_singleton.
  - inversion H as [| |? ? a1 a2 H1 H2| | | | |]; subst. rewrite app_assoc.
    destruct (IH1 a1 (a2 +:+ t) H1) as [c Hc], (IH2 a2 t H2) as [d Hd].
    eapply elem_of_dedup_2. by eapply (elem_of_seq (ends r1) (ends r2)).
  - inversion H as [| | |? ? ? H1|? ? ? H1| | |]; subst.
    + destruct (IH1 a t H1) as [c Hc]. eapply elem_of_dedup_2, elem_of_app. eauto.
    + destruct (IH2 a t H1) as [c Hc]. eapply elem_of_dedup_2, elem_of_app. eauto.
  - by apply (star_complete (ends r) r).
  - inversion H as [| | | | | | |? ? ? H1]; subst. destruct (IH a t H1) as [c Hc].
    exists ((n, consumed (a +:+ t) t) :: c). apply list_elem_of_fmap. by exists (t, c).
Qed.

(** The matcher accepts exactly the language of the pattern. *)
Lemma MatchString_lang r s : MatchString r s = true <-> lang r s.
Proof.
  unfold MatchString, full_match. split.
  - destruct (list_find _ _) as [[i [t c]]|] eqn:E; [|done]. intros _.
    apply list_find_Some in E as (H & Ht & _). simpl in Ht. subst t.
    apply list_elem_of_lookup_2 in H. apply ends_sound in H as (a & -> & Ha).
    by rewrite app_nil_r.
  - intros H. destruct (ends_complete r s "" H) as [c Hc]. rewrite app_nil_r in Hc.
    destruct (list_find_elem_of (fun p => p.1 = "") _ _ Hc eq_refl) as [[i [u d]] E].
    by rewrite E.
Qed.

(** ** Classes *)

Lemma lang_byte_inv p s : lang (RByte p) s <-> exists c, s = String c "" /\ p c = true.
Proof.
  split.
  - inversion 1; subst. eauto.
  - intros (c & -> & H). by constructor.
Qed.

Lemma lang_seq_inv r1 r2 s : lang (r1 · r2)%re s <-> exists a b, s = a +:+ b /\ lang r1 a /\ lang r2 b.
Proof.
  split.
  - inversion 1; subst. eauto.
  - intros (a & b & -> & ? & ?). by constructor.
Qed.

Lemma lang_alt_inv r1 r2 s : lang (r1 ∥ r2)%re s <-> lang r1 s \/ lang r2 s.
Proof.
  split; [inversion 1; subst; auto|]. intros [?|?]; eauto with bodega.
Qed.

Lemma lang_eps_inv s : lang REps s <-> s = "".
Proof. split; [by inversion 1|]. intros ->. constructor. Qed.

Lemma lang_star_byte p s : lang ((RByte p)⋆)%re s <-> all_bytes p s = true.
Proof.
  split.
  - intros H. remember ((RByte p)⋆)%re as q eqn:Hq. induction H; try discriminate Hq; [done|].
    injection Hq as ->. rewrite all_bytes_app, IHlang2 by done.
    apply lang_byte_inv in H as (c & -> & Hc). simpl. by rewrite Hc.
  - induction s as [|c s IH]; simpl; [constructor|]. intros [Hc Hs]%andb_true_iff.
    change (String c s) with (String c "" +:+ s). constructor; [by constructor|auto].
Qed.

Lemma lang_upto_byte p n s :
  lang (RUpto n (RByte p)) s <-> all_bytes p s = true /\ (String.length s <= n)%nat.
Proof.
  revert s. induction n as [|n IH]; intros s; simpl.
  - rewrite lang_eps_inv. split; [by intros ->|]. intros [_ H]. destruct s; [done|simpl in H; lia].
  - unfold ROpt. rewrite lang_alt_inv, lang_eps_inv, lang_seq_inv. split.
    + intros [(a & b & -> & Ha & Hb)| ->]; [|simpl; split; [done|lia]].
      apply lang_byte_inv in Ha as (c & -> & Hc). apply IH in Hb as [Hb ?].
      rewrite app_cons, app_nil_l. simpl. rewrite Hc. split; [done|lia].
    + intros [H1 H2]. destruct s as [|c s]; [by right|]. left. simpl in *.
      apply andb_true_iff in H1 as [Hc Hs]. exists (String c ""), s.
      repeat split; [by constructor|]. apply IH. split; [done|lia].
Qed.

(** [^[p][q]{0,n}$], the shape of most name patterns. *)
Lemma lang_head_upto p q n s :
  lang (RByte p · RUpto n (RByte q))%re s <->
  exists c s', s = String c s' /\ p c = true /\ all_bytes q s' = true /\ (String.length s' <= n)%nat.
Proof.
  rewrite lang_seq_inv. split.
  - intros (a & b & -> & (c & -> & Hc)%lang_byte_inv & [Hb Hl]%lang_upto_byte). eauto 10.
  - intros (c & s' & -> & Hc & Hs & Hl). exists (String c ""), s'.
    repeat split; [by constructor|]. by apply lang_upto_byte.
Qed.

(** Every byte of a word of the language satisfies what every class does. *)
Fixpoint re_bytes (q : ascii -> Prop) (r : re) : Prop :=
  match r with
  | REps => True
  | RByte p => forall c, p c = true -> q c
  | RSeq r1 r2 | RAlt r1 r2 => re_bytes q r1 /\ re_bytes q r2
  | RStar r1 | RGroup _ r1 => re_bytes q r1
  end.

Lemma lang_bytes (q : ascii -> bool) r s :
  re_bytes (fun c => q c = true) r -> lang r s -> all_bytes q s = true.
Proof.
  intros Hq H. induction H as [|p c Hp|r1 r2 a b _ IH1 _ IH2|r1 r2 a _ IH|r1 r2 a _ IH
    | |r a b _ IH1 _ IH2|n r a _ IH]; simpl in *; [done| |destruct Hq|destruct Hq|destruct Hq| | |];
    rewrite ?all_bytes_app, ?IH, ?IH1, ?IH2 by done; try done.
  by rewrite (Hq c Hp).
Qed.

(** ** The preferred match of a pattern of classes

    [ends] lists the way Go takes first: a star of a class takes all it can. *)

Lemma consumed_app a t : consumed (a +:+ t) t = a.
Proof.
  unfold consumed. rewrite length_app_string.
  replace (String.length a + String.length t - String.length t)%nat with (String.length a) by lia.
  induction a as [|x a IH]; simpl; [by destruct t|]. f_equal. apply IH.
Qed.

Lemma extend_nil l : extend [] l = l.
Proof.
  induction l as [|[t c] l IH]; [done|]. unfold extend in *. rewrite fmap_cons. simpl.
  by rewrite IH, List.app_nil_r.
Qed.

Lemma dedup_cons x l : exists l', dedup (x :: l) = x :: l'.
Proof. by eexists. Qed.

Lemma ends_star_byte p s : exists l, ends ((RByte p)⋆)%re s = (trim_left p s, []) :: l.
Proof.
  cbn [ends]. generalize (Nat.le_refl (String.length s)). generalize (String.length s) at 2 3 as n.
  intros n. revert s. induction n as [|n IH]; intros s Hn.
  - destruct s; [|simpl in Hn; lia]. by eexists.
  - destruct s as [|c s]; [by eexists|]. cbn [star_ends ends trim_left].
    destruct (p c) eqn:E; [|by eexists].
    destruct (IH s) as [l Hl]; [simpl in Hn; lia|].
    assert (Hs : (String.length s <? String.length (String c s))%nat = true)
      by (apply Nat.ltb_lt; simpl; lia).
    rewrite bind_cons. cbn [fst snd]. rewrite Hs, Hl, extend_nil. by eexists.
Qed.

Lemma ends_seq_one r1 r2 s t : ends r1 s = [(t, [])] -> ends (r1 · r2)%re s = dedup (ends r2 t).
Proof. intros E. cbn [ends]. rewrite E. cbn -[dedup extend ends]. by rewrite extend_nil, List.app_nil_r. Qed.

Lemma ends_byte_one p c s : p c = true -> ends (RByte p) (String c s) = [(s, [])].
Proof. intros E. simpl. by rewrite E. Qed.

Lemma ends_times_one p n a s :
  all_bytes p a = true -> String.length a = n -> ends (RTimes n (RByte p)) (a +:+ s) = [(s, [])].
Proof.
  revert a. induction n as [|n IH]; intros a Ha Hn.
  - by destruct a.
  - destruct a as [|c a]; [done|]. simpl in Ha. apply andb_true_iff in Ha as [Hc Ha].
    rewrite app_cons. cbn [RTimes]. rewrite (ends_seq_one _ _ _ (a +:+ s)) by (by apply ends_byte_one).
    rewrite IH by (done || (simpl in Hn; lia)). done.
Qed.

Lemma ends_plus_byte p c s :
  p c = true -> exists l, ends (RPlus (RByte p)) (String c s) = (trim_left p s, []) :: l.
Proof.
  intros Hc. unfold RPlus. rewrite (ends_seq_one _ _ _ s) by (by apply ends_byte_one).
  destruct (ends_star_byte p s) as [l ->]. apply dedup_cons.
Qed.

Lemma lang_times_byte p n s :
  lang (RTimes n (RByte p)) s <-> all_bytes p s = true /\ String.length s = n.
Proof.
  revert s. induction n as [|n IH]; intros s; cbn [RTimes].
  - rewrite lang_eps_inv. split; [by intros ->|]. by destruct s; intros [_ ?].
  - rewrite lang_seq_inv. split.
    + intros (a & b & -> & (c & -> & Hc)%lang_byte_inv & [Hb Hl]%IH).
      rewrite app_cons, app_nil_l. simpl. rewrite Hc. split; [done|lia].
    + intros [H1 H2]. destruct s as [|c s]; [done|]. simpl in *. apply andb_true_iff in H1 as [Hc Hs].
      exists (String c ""), s. repeat split; [by constructor|]. apply IH. split; [done|lia].
Qed.

Lemma lang_plus_byte p s :
  lang (RPlus (RByte p)) s <-> exists c s', s = String c s' /\ p c = true /\ all_bytes p s' = true.
Proof.
  unfold RPlus. rewrite lang_seq_inv. split.
  - intros (a & b & -> & (c & -> & Hc)%lang_byte_inv & Hb%lang_star_byte). eauto.
  - intros (c & s' & -> & Hc & Hs). exists (String c ""), s'. repeat split; [by constructor|].
    by apply lang_star_byte.
Qed.
