(* ===== verification/DebianVersion.v ===== *)
(** Debian version order: [compareDebian] of internal/policy/osvmatch.go.

    The code walks both versions with two indices; here an index is the text
    still unread.  [deb_key] is the definition of the order in Debian policy
    (alternating runs of non-digits and digits), and [compareDebianPart_key]
    shows the walk computes it, which makes the comparison a total preorder. *)

From stdpp Require Import base list strings.
From Stdlib Require Import ZArith Lia Ascii.
From S2P Require Import Prelude GoStrings.

Record debianVersion := DebianVersion {
  epoch : Z;
  upstream : string;
  revision : string;
}.

Definition isDebianDigit (c : ascii) : bool := is_digit c.

Definition debianChars (s : string) : bool :=
  all_bytes (fun c => is_alnum c || in_set ".+-~:" c) s.

(** [None] is the Go value with [ok] false. *)
Definition parseDebian (v : string) : option debianVersion :=
  let s := TrimSpace v in
  if (s =? "")%string then None
  else
    '(ep, s) ←
      match cut_byte ":" s with
      | Some (e, rest) =>
          match atoi_opt e with
          | Some n => if n <? 0 then None else Some (n, rest)
          | None => None
          end
      | None => Some (0, s)
      end;
    let '(up, rev) :=
      match cut_last_byte "-" s with
      | Some (u, r) => (u, r)
      | None => (s, "")
      end in
    if starts is_digit up && debianChars up && debianChars rev
    then Some (DebianVersion ep up rev) else None.

(** The weight of a byte outside a run of digits: "~" sorts before the end of
    the text, letters before everything else. *)
Definition debianOrder (c : ascii) : Z :=
  if is_digit c then 0
  else if is_letter c then byteZ c
  else if Ascii.eqb c "~" then -1
  else byteZ c + 256.

Definition order_at (s : string) : Z := match s with "" => 0 | String c _ => debianOrder c end.

Definition nondigit (c : ascii) : bool := negb (isDebianDigit c).

(** The inner loop over the non-digit runs: a verdict, or what is left. *)
Fixpoint nondigit_loop (fuel : nat) (a b : string) : Z + string * string :=
  match fuel with
  | O => inr (a, b)
  | S n =>
      if starts nondigit a || starts nondigit b then
        let ac := order_at a in
        let bc := order_at b in
        if negb (ac =? bc) then inl (compareInt ac bc) else nondigit_loop n (tail a) (tail b)
      else inr (a, b)
  end.

(** The loop over the digits both runs have. *)
Fixpoint digit_loop (a b : string) (firstDiff : Z) : Z * string * string :=
  match a, b with
  | String x a', String y b' =>
      if isDebianDigit x && isDebianDigit y
      then digit_loop a' b' (if firstDiff =? 0 then byteZ x - byteZ y else firstDiff)
      else (firstDiff, a, b)
  | _, _ => (firstDiff, a, b)
  end.

Fixpoint part_loop (fuel : nat) (a b : string) : Z :=
  match fuel with
  | O => 0
  | S n =>
      if (a =? "")%string && (b =? "")%string then 0
      else
        match nondigit_loop (String.length a + String.length b) a b with
        | inl c => c
        | inr (a, b) =>
            let '(firstDiff, a, b) :=
              digit_loop (trim_left is_zero_byte a) (trim_left is_zero_byte b) 0 in
            if starts isDebianDigit a then 1
            else if starts isDebianDigit b then -1
            else if negb (firstDiff =? 0) then compareInt firstDiff 0
            else part_loop n a b
        end
  end.

(** Every turn of the outer loop reads at least one byte, so the two lengths
    bound the turns. *)
Definition compareDebianPart (a b : string) : Z :=
  part_loop (S (String.length a + String.length b)) a b.

(** [None] is the Go result [(0, false)]: one side does not parse. *)
Definition compareDebian (a b : string) : option Z :=
  match parseDebian a, parseDebian b with
  | Some pa, Some pb =>
      Some (then_cmp (compareInt (epoch pa) (epoch pb))
             (then_cmp (compareDebianPart (upstream pa) (upstream pb))
                       (compareDebianPart (revision pa) (revision pb))))
  | _, _ => None
  end.

Example deb_ex1 : compareDebian "1.0~rc1-1" "1.0-1" = Some (-1).
Proof. reflexivity. Qed.
Example deb_ex2 : compareDebian "2:1.0" "10.0" = Some 1.
Proof. reflexivity. Qed.
Example deb_ex3 : compareDebian "1.10" "1.9" = Some 1.
Proof. reflexivity. Qed.
Example deb_ex4 : compareDebian "x1" "1.9" = None.
Proof. reflexivity. Qed.

(** * The order as Debian policy defines it *)

Fixpoint weights (s : string) : list Z :=
  match s with
  | "" => []
  | String c s' => if nondigit c then debianOrder c :: weights s' else []
  end.

(** The leading block of a version part, and what follows it. *)
Definition block (s : string) : list Z * Z :=
  (weights s, dec_val (take_while is_digit (trim_left nondigit s))).

Definition after_block (s : string) : string := trim_left is_digit (trim_left nondigit s).

Fixpoint blocks (fuel : nat) (s : string) : list (list Z * Z) :=
  match fuel, s with
  | S n, String _ _ => block s :: blocks n (after_block s)
  | _, _ => []
  end.

Definition deb_key (s : string) : list (list Z * Z) := blocks (String.length s) s.

Definition block_cmp : list Z * Z -> list Z * Z -> Z :=
  lex (on_key fst (cmp_pad compareInt 0)) (on_key snd compareInt).

Definition deb_cmp : string -> string -> Z := on_key deb_key (cmp_pad block_cmp ([], 0)).

#[global] Instance deb_cmp_comparator : Comparator deb_cmp.
Proof. unfold deb_cmp, block_cmp. apply _. Qed.

#[global] Instance deb_cmp_signed : SignedComparator deb_cmp.
Proof. unfold deb_cmp, block_cmp. apply _. Qed.

Lemma after_block_shrinks s : s <> "" -> (String.length (after_block s) < String.length s)%nat.
Proof.
  intros Hs. unfold after_block.
  pose proof (trim_left_length is_digit (trim_left nondigit s)).
  destruct (starts nondigit s) eqn:E.
  - pose proof (trim_left_shrinks nondigit s E). lia.
  - rewrite (trim_left_id nondigit s E) in *. apply trim_left_shrinks.
    destruct s as [|c s]; [done|]. unfold starts, nondigit, isDebianDigit in *.
    by destruct (is_digit c).
Qed.

Lemma after_block_length s : (String.length (after_block s) <= String.length s)%nat.
Proof.
  destruct (decide (s = "")) as [->|Hs]; [done|]. pose proof (after_block_shrinks s Hs). lia.
Qed.

Lemma blocks_fuel n m s :
  (String.length s <= n)%nat -> (String.length s <= m)%nat -> blocks n s = blocks m s.
Proof.
  revert m s. induction n as [|n IH]; intros [|m] s Hn Hm; try done;
    try (destruct s; [done|simpl in *; lia]).
  destruct s as [|c s]; [done|]. cbn [blocks]. f_equal.
  pose proof (after_block_shrinks (String c s) ltac:(done)). apply IH; lia.
Qed.

Lemma deb_key_hd s : hd ([], 0) (deb_key s) = block s.
Proof. by destruct s. Qed.

Lemma deb_key_tl s : tl (deb_key s) = deb_key (after_block s).
Proof.
  destruct s as [|c s]; [done|]. unfold deb_key. cbn [String.length blocks tl].
  pose proof (after_block_shrinks (String c s) ltac:(done)). simpl String.length in *.
  apply blocks_fuel; lia.
Qed.

Lemma deb_cmp_unfold a b :
  deb_cmp a b = then_cmp (block_cmp (block a) (block b)) (deb_cmp (after_block a) (after_block b)).
Proof.
  unfold deb_cmp at 1, on_key. rewrite cmp_pad_unfold by apply _.
  by rewrite !deb_key_hd, !deb_key_tl.
Qed.

(** * The walk computes the key order *)

Lemma debianOrder_nondigit c : nondigit c = true -> debianOrder c <> 0.
Proof.
  unfold nondigit, isDebianDigit, debianOrder. destruct (is_digit c); [done|]. intros _.
  destruct (is_letter c) eqn:E.
  - unfold is_letter, is_lower, is_upper, in_range in E.
    apply orb_true_iff in E as [E|E]; to_prop; lia.
  - pose proof (byteZ_bound c). destruct (Ascii.eqb c "~"); lia.
Qed.

Lemma order_at_digit s : starts nondigit s = false -> order_at s = 0.
Proof.
  destruct s as [|c s]; [done|]. simpl. unfold nondigit, isDebianDigit, debianOrder.
  by destruct (is_digit c).
Qed.

Lemma weights_digit s : starts nondigit s = false -> weights s = [].
Proof. destruct s; [done|]. simpl. by intros ->. Qed.

Lemma nondigit_loop_weights n a b :
  (String.length a + String.length b <= n)%nat ->
  nondigit_loop n a b =
    let c := cmp_pad compareInt 0 (weights a) (weights b) in
    if c =? 0 then inr (trim_left nondigit a, trim_left nondigit b) else inl c.
Proof.
  revert a b. induction n as [|n IH]; intros a b Hn.
  - destruct a, b; simpl in *; try lia. done.
  - cbn [nondigit_loop]. destruct (starts nondigit a) eqn:Ea, (starts nondigit b) eqn:Eb.
    + destruct a as [|x a], b as [|y b]; try done. simpl in Ea, Eb, Hn.
      cbn [weights order_at orb tail trim_left]. rewrite Ea, Eb, cmp_pad_cons.
      case_int (debianOrder x) (debianOrder y).
      * by rewrite (proj2 (Z.eqb_neq _ _)) by lia.
      * rewrite (proj2 (Z.eqb_eq _ _)) by lia. cbn [negb]. rewrite IH by lia.
        by rewrite then_cmp_0.
      * by rewrite (proj2 (Z.eqb_neq _ _)) by lia.
    + rewrite (order_at_digit b Eb), (weights_digit b Eb).
      destruct a as [|x a]; [done|]. simpl in Ea.
      cbn [weights order_at orb tail trim_left]. rewrite Ea, cmp_pad_cons_nil.
      pose proof (debianOrder_nondigit x Ea). rewrite (proj2 (Z.eqb_neq _ _)) by done.
      cbn [negb]. case_int (debianOrder x) 0; try lia; done.
    + rewrite (order_at_digit a Ea), (weights_digit a Ea).
      destruct b as [|y b]; [done|]. simpl in Eb.
      cbn [weights order_at orb tail trim_left]. rewrite Eb, cmp_pad_nil_cons.
      pose proof (debianOrder_nondigit y Eb). rewrite (proj2 (Z.eqb_neq _ _)) by lia.
      cbn [negb]. case_int 0 (debianOrder y); try lia; done.
    + rewrite (weights_digit a Ea), (weights_digit b Eb). simpl.
      by rewrite !trim_left_id.
Qed.

(** What the digit loop leaves: a digit on the side with the longer run, and
    otherwise the sign of the first difference. *)
Lemma digit_loop_spec a b d d' a' b' :
  digit_loop a b d = (d', a', b') ->
  let da := take_while is_digit a in
  let db := take_while is_digit b in
  (slen db < slen da -> starts isDebianDigit a' = true) /\
  (slen da < slen db -> starts isDebianDigit a' = false /\ starts isDebianDigit b' = true) /\
  (slen da = slen db ->
     a' = trim_left is_digit a /\ b' = trim_left is_digit b /\
     compareInt d' 0 = then_cmp (compareInt d 0) (Compare da db)).
Proof.
  unfold isDebianDigit. revert b d. induction a as [|x a IH]; intros b d.
  - cbn [digit_loop]. intros [= <- <- <-]. split; [|split].
    + cbn [take_while]. intros. exfalso. slen.
    + destruct b as [|y b]; simpl; [by intros; slen|]. destruct (is_digit y); [done|]. intros; slen.
    + destruct b as [|y b]; simpl; [by intros _; case_int d 0|].
      destruct (is_digit y); intros; [slen|]. by case_int d 0.
  - destruct b as [|y b]; simpl; unfold isDebianDigit.
    + intros [= <- <- <-]. simpl. destruct (is_digit x); simpl; repeat split; intros; try slen.
      by case_int d 0.
    + destruct (is_digit x) eqn:Hx, (is_digit y) eqn:Hy; simpl.
      * intros H. apply IH in H as (H1 & H2 & H3). rewrite !slen_cons.
        split; [intros; apply H1; lia|]. split; [intros; apply H2; lia|].
        intros Hl. destruct H3 as (-> & -> & ->); [lia|]. split; [done|]. split; [done|].
        rewrite <- then_cmp_assoc. f_equal. destruct (Z.eqb_spec d 0) as [->|Hd].
        -- change (compareInt 0 0) with 0. rewrite then_cmp_0.
           case_int (byteZ x - byteZ y) 0; case_int (byteZ x) (byteZ y); lia.
        -- rewrite then_cmp_ne; [done|]. by rewrite compareInt_zero.
      * intros [= <- <- <-]. simpl. rewrite Hx. repeat split; intros; try slen; done.
      * intros [= <- <- <-]. simpl. rewrite Hx, Hy. repeat split; intros; try slen; done.
      * intros [= <- <- <-]. repeat split; intros; try slen. by case_int d 0.
Qed.

(** The verdict on two runs of digits is the verdict on their numbers. *)
Lemma digit_verdict a b d a' b' :
  digit_loop (trim_left is_zero_byte a) (trim_left is_zero_byte b) 0 = (d, a', b') ->
  let c := compareInt (dec_val (take_while is_digit a)) (dec_val (take_while is_digit b)) in
  (if starts isDebianDigit a' then 1
   else if starts isDebianDigit b' then -1
   else if negb (d =? 0) then compareInt d 0 else 0) = c /\
  (c = 0 -> starts isDebianDigit a' = false /\ starts isDebianDigit b' = false /\ d = 0 /\
            a' = trim_left is_digit a /\ b' = trim_left is_digit b).
Proof.
  intros H. apply digit_loop_spec in H. cbv zeta in H.
  rewrite !take_while_trim_zeros, !trim_digits_trim_zeros in H.
  pose proof (trim_left_digits is_zero_byte _ (take_while_all is_digit a)) as Ha.
  pose proof (trim_left_digits is_zero_byte _ (take_while_all is_digit b)) as Hb.
  pose proof (dec_compare _ _ Ha Hb (trim_left_no_lead_zero _) (trim_left_no_lead_zero _)) as Hc.
  change (fun c => Ascii.eqb c "0") with is_zero_byte in Hc.
  rewrite !(dec_val_trim (take_while is_digit _)) in Hc. cbv zeta.
  fold is_zero_byte in Hc. rewrite <- Hc.
  set (ra := trim_left is_zero_byte (take_while is_digit a)) in *.
  set (rb := trim_left is_zero_byte (take_while is_digit b)) in *.
  destruct H as (H1 & H2 & H3). case_int (slen ra) (slen rb).
  - destruct H2 as [-> ->]; [lia|]. split; [done|]. unfold then_cmp. simpl. lia.
  - destruct H3 as (-> & -> & H3); [lia|]. rewrite then_cmp_0 in *.
    unfold isDebianDigit. rewrite !trim_left_starts. simpl in H3. rewrite <- H3.
    destruct (Z.eqb_spec d 0) as [->|Hd]; simpl; [done|].
    split; [done|]. rewrite compareInt_zero. done.
  - rewrite H1 by lia. split; [done|]. unfold then_cmp. simpl. lia.
Qed.

Lemma part_loop_deb_cmp n a b :
  (String.length a + String.length b < n)%nat -> part_loop n a b = deb_cmp a b.
Proof.
  revert a b. induction n as [|n IH]; intros a b Hn; [lia|]. cbn [part_loop].
  destruct ((a =? "")%string && (b =? "")%string) eqn:E.
  { to_prop. by subst. }
  rewrite nondigit_loop_weights by lia. rewrite deb_cmp_unfold.
  unfold block_cmp, lex, on_key, block. cbn [fst snd]. rewrite then_cmp_assoc. cbv zeta.
  destruct (Z.eqb_spec (cmp_pad compareInt 0 (weights a) (weights b)) 0) as [->|Hw];
    [|by rewrite then_cmp_ne]. rewrite then_cmp_0.
  destruct (digit_loop _ _ _) as [[d a'] b'] eqn:Hd. apply digit_verdict in Hd as [Hv Hz].
  revert Hv Hz. cbv zeta. set (c := compareInt (dec_val _) (dec_val _)). intros Hv Hz.
  destruct (Z.eq_dec c 0) as [Hc|Hc].
  - destruct (Hz Hc) as (-> & -> & -> & -> & ->). rewrite Hc, then_cmp_0. cbn [negb Z.eqb].
    fold (after_block a) (after_block b). apply IH.
    assert (a <> "" \/ b <> "") as Hne.
    { destruct (String.eqb_spec a ""), (String.eqb_spec b ""); subst; auto. }
    pose proof (after_block_length a). pose proof (after_block_length b).
    destruct Hne as [Hne|Hne]; apply after_block_shrinks in Hne; lia.
  - rewrite then_cmp_ne, <- Hv by done. rewrite <- Hv in Hc.
    destruct (starts isDebianDigit a'), (starts isDebianDigit b'), (negb (d =? 0)); done.
Qed.

Lemma compareDebianPart_key_aux a b : compareDebianPart a b = deb_cmp a b.
Proof. apply part_loop_deb_cmp. lia. Qed.

(** ** The theorems *)

(** [compareDebianPart], dpkg's two-index walk, computes the order Debian
    policy defines: alternating blocks of a non-digit run, compared byte by
    byte under [debianOrder] with the end of the text at 0, and a number,
    compared by value. *)
Theorem compareDebianPart_key a b : compareDebianPart a b = deb_cmp a b.
Proof. apply compareDebianPart_key_aux. Qed.

(** Epoch, then upstream version, then revision. *)
Definition debian_cmp : debianVersion -> debianVersion -> Z :=
  lex (on_key epoch compareInt) (lex (on_key upstream deb_cmp) (on_key revision deb_cmp)).

#[export] Instance debian_scheme : VersionScheme compareDebian.
Proof.
  refine {| vs_parse := parseDebian; vs_cmp := debian_cmp |}; [unfold debian_cmp; apply _..|].
  intros a b. unfold compareDebian, debian_cmp, lex, on_key.
  destruct (parseDebian a), (parseDebian b); simpl; [|done..].
  by rewrite !compareDebianPart_key_aux.
Defined.

