(* ===== verification/SemverVersion.v ===== *)
(** Semantic version order: [parseSemver] and [compareSemver] of
    internal/policy/osvmatch.go. *)

From stdpp Require Import base list strings.
From Stdlib Require Import ZArith Lia Ascii.
From S2P Require Import Prelude GoStrings.

Record semverVersion := SemverVersion {
  release : list Z;
  pre : list string;
}.

(** [None] is the Go value with [ok] false. *)
Definition parseSemver (v : string) : option semverVersion :=
  let s := TrimPrefix (TrimSpace v) "v" in
  let s := match cut_byte "+" s with Some (a, _) => a | None => s end in
  let '(s, pre) :=
    match cut_byte "-" s with
    | Some (a, rest) => (a, if (rest =? "")%string then [] else Split "." rest)
    | None => (s, [])
    end in
  if (s =? "")%string then None
  else rel ← mapM atoi_opt (Split "." s); Some (SemverVersion rel pre).

(** Missing segments count as 0. *)
Definition compareInts : list Z -> list Z -> Z := cmp_pad compareInt 0.

(** Numeric identifiers below alphanumeric ones. *)
Definition comparePreIdent (a b : string) : Z :=
  match atoi_opt a, atoi_opt b with
  | Some na, Some nb => compareInt na nb
  | Some _, None => -1
  | None, Some _ => 1
  | None, None => Compare a b
  end.

(** The loop over the identifiers both prereleases have, then the number of
    identifiers: both have lost as many when the loop ends. *)
Fixpoint comparePre (a b : list string) : Z :=
  match a, b with
  | x :: a', y :: b' => then_cmp (comparePreIdent x y) (comparePre a' b')
  | _, _ => compareInt (Z.of_nat (length a)) (Z.of_nat (length b))
  end.

Definition semver_cmp (pa pb : semverVersion) : Z :=
  then_cmp (compareInts (release pa) (release pb))
    (match pre pa, pre pb with
     | [], [] => 0
     | [], _ => 1
     | _, [] => -1
     | _, _ => comparePre (pre pa) (pre pb)
     end).

Definition compareSemver (a b : string) : option Z :=
  match parseSemver a, parseSemver b with
  | Some pa, Some pb => Some (semver_cmp pa pb)
  | _, _ => None
  end.

Example semver_ex1 : compareSemver "1.2.3-rc.1" "v1.2.3" = Some (-1).
Proof. reflexivity. Qed.
Example semver_ex2 : compareSemver "1.2" "1.2.0+build5" = Some 0.
Proof. reflexivity. Qed.
Example semver_ex3 : compareSemver "1.0.0-2" "1.0.0-alpha" = Some (-1).
Proof. reflexivity. Qed.

(** * It is an order *)

Definition ident_key (s : string) : Z + string :=
  match atoi_opt s with Some n => inl n | None => inr s end.

Definition sum_cmp (x y : Z + string) : Z :=
  match x, y with
  | inl a, inl b => compareInt a b
  | inl _, inr _ => -1
  | inr _, inl _ => 1
  | inr a, inr b => Compare a b
  end.

#[global] Instance sum_cmp_comparator : Comparator sum_cmp.
Proof.
  split.
  - intros [a|a] [b|b]; simpl; try done; [apply (cmp_anti compareInt)|apply (cmp_anti Compare)].
  - intros [a|a] [b|b] [c|c]; simpl; try lia;
      [apply (cmp_trans compareInt)|apply (cmp_trans Compare)].
Qed.

#[global] Instance sum_cmp_signed : SignedComparator sum_cmp.
Proof.
  intros [a|a] [b|b]; simpl; unfold sign_ok; try lia;
    [apply (cmp_sign compareInt)|apply (cmp_sign Compare)].
Qed.

Lemma comparePreIdent_key a b : comparePreIdent a b = on_key ident_key sum_cmp a b.
Proof. unfold comparePreIdent, on_key, ident_key. by destruct (atoi_opt a), (atoi_opt b). Qed.

#[global] Instance comparePreIdent_comparator : Comparator comparePreIdent.
Proof.
  split; intros *; rewrite !comparePreIdent_key.
  - apply (cmp_anti (on_key ident_key sum_cmp)).
  - apply (cmp_trans (on_key ident_key sum_cmp)).
Qed.

#[global] Instance comparePreIdent_signed : SignedComparator comparePreIdent.
Proof. intros a b. rewrite comparePreIdent_key. apply (cmp_sign (on_key ident_key sum_cmp)). Qed.

#[global] Instance comparePre_comparator : Comparator comparePre.
Proof.
  split.
  - intros a. induction a as [|x a IH]; intros [|y b]; simpl; try done;
      try (case_int (Z.of_nat (S (length b))) 0; lia).
    by rewrite IH, (cmp_anti comparePreIdent x y), then_cmp_opp.
  - intros a. induction a as [|x a IH]; intros [|y b] [|z c]; simpl;
      rewrite ?compareInt_le; try lia. apply (then_cmp_trans comparePreIdent). apply IH.
Qed.

#[global] Instance comparePre_signed : SignedComparator comparePre.
Proof.
  intros a. induction a as [|x a IH]; intros [|y b]; simpl; try apply (cmp_sign compareInt).
  apply then_cmp_sign; [apply (cmp_sign comparePreIdent)|done].
Qed.

(** No prerelease is above every prerelease. *)
Definition pre_cmp (a b : list string) : Z :=
  match a, b with
  | [], [] => 0
  | [], _ => 1
  | _, [] => -1
  | _, _ => comparePre a b
  end.

#[global] Instance pre_cmp_comparator : Comparator pre_cmp.
Proof.
  split.
  - intros [|x a] [|y b]; try done. apply (cmp_anti comparePre).
  - intros [|x a] [|y b] [|z c]; unfold pre_cmp; try lia. apply (cmp_trans comparePre).
Qed.

#[global] Instance pre_cmp_signed : SignedComparator pre_cmp.
Proof. intros [|x a] [|y b]; unfold pre_cmp, sign_ok; try lia. apply (cmp_sign comparePre). Qed.

Lemma semver_cmp_lex a b : semver_cmp a b = lex (on_key release compareInts) (on_key pre pre_cmp) a b.
Proof. done. Qed.

#[export] Instance semver_scheme : VersionScheme compareSemver.
Proof.
  refine {| vs_parse := parseSemver;
            vs_cmp := lex (on_key release compareInts) (on_key pre pre_cmp) |};
    [unfold compareInts; apply _..|].
  intros a b. unfold compareSemver. by destruct (parseSemver a), (parseSemver b).
Defined.

(** A prerelease is below the release it precedes, whatever its
    identifiers: a version with a non-empty prerelease compares as -1 to any
    version of the same release numbers without one. *)
Theorem prerelease_below_release a b pa pb :
  parseSemver a = Some pa -> parseSemver b = Some pb ->
  compareInts (release pa) (release pb) = 0 -> pre pa <> [] -> pre pb = [] ->
  compareSemver a b = Some (-1).
Proof.
  intros Ha Hb Hr Hpa Hpb. unfold compareSemver. rewrite Ha, Hb. unfold semver_cmp.
  rewrite Hr, Hpb, then_cmp_0. by destruct (pre pa).
Qed.

Lemma prerelease_below_release_witness : compareSemver "1.2.0-rc.1" "v1.2" = Some (-1).
Proof.
  eapply prerelease_below_release; [vm_compute; reflexivity|vm_compute; reflexivity|reflexivity| |reflexivity].
  discriminate.
Defined.
