(* ===== verification/Pep440Version.v ===== *)
(** PEP 440 version order: [parsePEP440] and [comparePEP440] of
    internal/policy/osvmatch.go, the order OSV ranges of the PyPI ecosystem
    are read in. *)

From stdpp Require Import base list strings.
From Stdlib Require Import ZArith Lia Ascii.
From S2P Require Import Prelude GoStrings Regexp SemverVersion.

Definition digits : re := RPlus (RByte is_digit).
Definition lower_alnum : re := RPlus (RByte (fun c => is_digit c || is_lower c)).
Definition sep_opt : re := ROpt (RSet "-_.").

(** [pep440Pattern], its named groups numbered in order: 1 epoch, 2 release,
    3 pre, 4 pre_l, 5 pre_n, 6 post, 7 post_n1, 8 post_l, 9 post_n2, 10 dev,
    11 dev_n, 12 local. *)
Definition pep440Pattern : re :=
  ((RByte is_re_space)⋆
   · ROpt (RLit "v")
   · ROpt (RGroup 1 digits · RLit "!")
   · RGroup 2 (digits · (RLit "." · digits)⋆)
   · ROpt (RGroup 3 (sep_opt
       · RGroup 4 (RLit "a" ∥ RLit "b" ∥ RLit "c" ∥ RLit "rc" ∥ RLit "alpha" ∥ RLit "beta"
                   ∥ RLit "pre" ∥ RLit "preview")
       · sep_opt · ROpt (RGroup 5 digits)))
   · ROpt (RGroup 6 (RLit "-" · RGroup 7 digits
       ∥ sep_opt · RGroup 8 (RLit "post" ∥ RLit "rev" ∥ RLit "r") · sep_opt
         · ROpt (RGroup 9 digits)))
   · ROpt (RGroup 10 (sep_opt · RLit "dev" · ROpt (RGroup 11 digits)))
   · ROpt (RLit "+" · RGroup 12 (lower_alnum · (RSet "-_." · lower_alnum)⋆))
   · (RByte is_re_space)⋆)%re.

Record pep440Version := Pep440Version {
  epoch : Z;
  release : list Z;
  preRank : Z;
  preLtr : string;
  preNum : Z;
  postRank : Z;
  postNum : Z;
  devRank : Z;
  devNum : Z;
}.

Definition normalizePreLetter (l : string) : string :=
  if (l =? "alpha")%string then "a"
  else if (l =? "beta")%string then "b"
  else if (l =? "c")%string || (l =? "pre")%string || (l =? "preview")%string then "rc"
  else l.

(** [None] is the Go value with [ok] false.  The numbers beside the release
    ignore [Atoi]'s error, so an empty group is 0 and a huge one is clamped. *)
Definition parsePEP440 (v : string) : option pep440Version :=
  m ← full_match pep440Pattern (ToLower v);
  let group := group m in
  let nonempty n := negb (group n =? "")%string in
  let num n := (Atoi (group n)).1 in
  rel ← mapM atoi_opt (Split "." (group 2%nat));
  let hasPre := nonempty 3%nat in
  let hasPost := nonempty 6%nat in
  let hasDev := nonempty 10%nat in
  Some {|
    epoch := if nonempty 1%nat then num 1%nat else 0;
    release := rel;
    preRank := if hasPre then 0 else if negb hasPost && hasDev then -1 else 1;
    preLtr := if hasPre then normalizePreLetter (group 4%nat) else "";
    preNum := if hasPre then num 5%nat else 0;
    postRank := if hasPost then 0 else -1;
    postNum := if hasPost then (if nonempty 7%nat then num 7%nat else num 9%nat) else 0;
    devRank := if hasDev then 0 else 1;
    devNum := if hasDev then num 11%nat else 0
  |}.

Definition pep440_cmp (pa pb : pep440Version) : Z :=
  then_cmp (compareInt (epoch pa) (epoch pb))
    (then_cmp (compareInts (release pa) (release pb))
       (then_cmp (compareInt (preRank pa) (preRank pb))
          (then_cmp
             (if preRank pa =? 0
              then then_cmp (Compare (preLtr pa) (preLtr pb)) (compareInt (preNum pa) (preNum pb))
              else 0)
             (then_cmp (compareInt (postRank pa) (postRank pb))
                (then_cmp
                   (if postRank pa =? 0 then compareInt (postNum pa) (postNum pb) else 0)
                   (then_cmp (compareInt (devRank pa) (devRank pb))
                      (if devRank pa =? 0 then compareInt (devNum pa) (devNum pb) else 0))))))).

Definition comparePEP440 (a b : string) : option Z :=
  match parsePEP440 a, parsePEP440 b with
  | Some pa, Some pb => Some (pep440_cmp pa pb)
  | _, _ => None
  end.

Example pep440_ex1 : comparePEP440 "1.0.dev3" "1.0a1" = Some (-1).
Proof. vm_compute. reflexivity. Qed.
Example pep440_ex2 : comparePEP440 "1.0rc1" "1.0.0" = Some (-1).
Proof. vm_compute. reflexivity. Qed.
Example pep440_ex3 : comparePEP440 "1.0.post1" "1!0.5" = Some (-1).
Proof. vm_compute. reflexivity. Qed.
Example pep440_ex4 : comparePEP440 "1.0-1+local.7" "v1.0.0.post1" = Some 0.
Proof. vm_compute. reflexivity. Qed.
Example pep440_ex5 : comparePEP440 "not-a-version" "1.0" = None.
Proof. vm_compute. reflexivity. Qed.

(** * It is an order *)

(** The part of a version the code looks at only under one rank. *)
Definition guarded (rank : pep440Version -> Z) (c : pep440Version -> pep440Version -> Z)
    (a b : pep440Version) : Z :=
  then_cmp (compareInt (rank a) (rank b)) (if rank a =? 0 then c a b else 0).

#[local] Instance guarded_comparator rank c `{!Comparator c} : Comparator (guarded rank c).
Proof.
  unfold guarded. split.
  - intros a b. rewrite (cmp_anti compareInt (rank a)). case_int (rank a) (rank b).
    + by rewrite !then_cmp_ne.
    + replace (rank b) with (rank a) by lia. change (- 0) with 0. rewrite !then_cmp_0.
      destruct (rank a =? 0); [apply (cmp_anti c)|done].
    + by rewrite !then_cmp_ne.
  - intros a b d H1 H2. revert H1 H2.
    case_int (rank a) (rank b); case_int (rank b) (rank d); case_int (rank a) (rank d);
      unfold then_cmp; simpl; try lia.
    replace (rank b) with (rank a) by lia. destruct (rank a =? 0); [apply (cmp_trans c)|lia].
Qed.

#[local] Instance guarded_signed rank c `{!SignedComparator c} : SignedComparator (guarded rank c).
Proof.
  intros a b. unfold guarded. apply then_cmp_sign; [apply (cmp_sign compareInt)|].
  destruct (rank a =? 0); [apply (cmp_sign c)|right; by left].
Qed.

Definition pep440_order : pep440Version -> pep440Version -> Z :=
  lex (on_key epoch compareInt)
    (lex (on_key release (cmp_pad compareInt 0))
       (lex (guarded preRank (lex (on_key preLtr Compare) (on_key preNum compareInt)))
          (lex (guarded postRank (on_key postNum compareInt))
               (guarded devRank (on_key devNum compareInt))))).

Lemma pep440_cmp_order a b : pep440_cmp a b = pep440_order a b.
Proof.
  unfold pep440_cmp, pep440_order, lex, guarded, on_key, compareInts.
  by rewrite !then_cmp_assoc.
Qed.

#[export] Instance pep440_scheme : VersionScheme comparePEP440.
Proof.
  refine {| vs_parse := parsePEP440; vs_cmp := pep440_order |}; [unfold pep440_order; apply _..|].
  intros a b. unfold comparePEP440. destruct (parsePEP440 a), (parsePEP440 b); [|done..].
  simpl. by rewrite pep440_cmp_order.
Defined.

(** The phases of one release, from the earliest. *)
Inductive phase := Dev | Pre | Final | Post.

Definition phase_of (v : pep440Version) : phase :=
  if postRank v =? 0 then if preRank v =? 0 then Pre else Post
  else if preRank v =? 0 then Pre
  else if devRank v =? 0 then Dev else Final.

Definition phase_rank (p : phase) : Z :=
  match p with Dev => 0 | Pre => 1 | Final => 2 | Post => 3 end.

(** The ranks [parsePEP440] assigns. *)
Lemma parsePEP440_ranks v p :
  parsePEP440 v = Some p ->
  (postRank p = 0 \/ postRank p = -1) /\ (devRank p = 0 \/ devRank p = 1) /\
  (preRank p = 0 \/
   preRank p = (if (postRank p =? 0) then 1 else if devRank p =? 0 then -1 else 1)).
Proof.
  unfold parsePEP440. intros (m & _ & (rel & _ & [= <-])%bind_Some)%bind_Some. cbn.
  destruct (negb (group m 3 =? "")%string), (negb (group m 6 =? "")%string),
    (negb (group m 10 =? "")%string); cbn; repeat split; auto.
Qed.

(** Within one release of one epoch, every development release is below
    every prerelease, those below the final release, and it below every
    post-release: the phase of the version decides before anything else
    does. *)
Theorem pep440_phases a b pa pb :
  parsePEP440 a = Some pa -> parsePEP440 b = Some pb ->
  epoch pa = epoch pb -> compareInts (release pa) (release pb) = 0 ->
  phase_rank (phase_of pa) < phase_rank (phase_of pb) ->
  comparePEP440 a b = Some (-1).
Proof.
  intros Ha Hb He Hr Hlt. unfold comparePEP440. rewrite Ha, Hb. f_equal.
  apply parsePEP440_ranks in Ha as (Hpa & Hda & Hra), Hb as (Hpb & Hdb & Hrb).
  unfold pep440_cmp. rewrite He, (proj2 (compareInt_zero _ _) eq_refl), Hr, !then_cmp_0.
  unfold phase_of in Hlt.
  destruct Hpa as [Hpa|Hpa], Hpb as [Hpb|Hpb], Hda as [Hda|Hda], Hdb as [Hdb|Hdb];
    rewrite Hpa, ?Hpb, ?Hda, ?Hdb in *; simpl in Hra, Hrb;
    destruct Hra as [Hra|Hra], Hrb as [Hrb|Hrb]; rewrite Hra, ?Hrb in *; simpl in *; try lia; done.
Qed.

Lemma pep440_phases_witness : comparePEP440 "1.0.dev1" "1.0.post2" = Some (-1).
Proof.
  eapply pep440_phases; [vm_compute; reflexivity|vm_compute; reflexivity|reflexivity|reflexivity|].
  vm_compute. reflexivity.
Defined.
