(* ===== verification/GemVersion.v ===== *)
(** RubyGems version order: [parseGemVersion] and [compareGemVersions] of
    internal/policy/osvmatch.go. *)

From stdpp Require Import base list strings.
From Stdlib Require Import ZArith Lia Ascii.
From S2P Require Import Prelude GoStrings Regexp SemverVersion.

Definition gem_alnum (c : ascii) : bool := is_digit c || is_lower c || is_upper c.
Definition gem_pre_byte (c : ascii) : bool := gem_alnum c || Ascii.eqb c "-".

Definition gemVersionPattern : re :=
  ((RByte is_re_space)⋆
   · ROpt (RPlus (RByte is_digit) · (RLit "." · RPlus (RByte gem_alnum))⋆
           · ROpt (RLit "-" · RPlus (RByte gem_pre_byte)
                   · (RLit "." · RPlus (RByte gem_pre_byte))⋆))
   · (RByte is_re_space)⋆)%re.

Definition gemSegmentPattern : re := (RPlus (RByte is_digit) ∥ RPlus (RByte is_letter))%re.

(** A number, or a word when [str] is not empty. *)
Record gemSegment := GemSegment { num : Z; str : string }.

#[global] Instance gemSegment_eq_dec : EqDecision gemSegment.
Proof. solve_decision. Defined.

Definition zero_segment : gemSegment := GemSegment 0 "".

Definition gem_segment (m : string) : option gemSegment :=
  match atoi_opt m with
  | Some n => Some (GemSegment n "")
  | None => if starts is_digit m then None else Some (GemSegment 0 m)
  end.

(** The segments before the first word. *)
Fixpoint numeric_part (segs : list gemSegment) : list gemSegment :=
  match segs with
  | [] => []
  | s :: rest => if (str s =? "")%string then s :: numeric_part rest else []
  end.

Definition word_part (segs : list gemSegment) : list gemSegment :=
  drop (length (numeric_part segs)) segs.

(** Trailing zeros do not count. *)
Fixpoint trim_zeros (part : list gemSegment) : list gemSegment :=
  match part with
  | [] => []
  | s :: rest =>
      match trim_zeros rest with
      | [] => if decide (s = zero_segment) then [] else [s]
      | rest' => s :: rest'
      end
  end.

Definition parseGemVersion (v : string) : option (list gemSegment) :=
  if MatchString gemVersionPattern v then
    segs ← mapM gem_segment (FindAllString gemSegmentPattern (ReplaceAll (TrimSpace v) "-" ".pre."));
    Some (trim_zeros (numeric_part segs) ++ trim_zeros (word_part segs))
  else None.

(** The verdict on the first two segments that differ. *)
Definition segment_verdict (x y : gemSegment) : Z :=
  if negb (str x =? "")%string && (str y =? "")%string then -1
  else if (str x =? "")%string && negb (str y =? "")%string then 1
  else if negb (str x =? "")%string then Compare (str x) (str y)
  else compareInt (num x) (num y).

Definition gem_step (x y : gemSegment) (next : Z) : Z :=
  if decide (x = y) then next else segment_verdict x y.

Fixpoint gem_loop (a : list gemSegment) : list gemSegment -> Z :=
  match a with
  | [] => fix right (b : list gemSegment) : Z :=
      match b with
      | [] => 0
      | y :: b' => gem_step zero_segment y (right b')
      end
  | x :: a' => fun b =>
      match b with
      | [] => gem_step x zero_segment (gem_loop a' [])
      | y :: b' => gem_step x y (gem_loop a' b')
      end
  end.

Definition compareGemVersions (a b : string) : option Z :=
  match parseGemVersion a, parseGemVersion b with
  | Some sa, Some sb => Some (gem_loop sa sb)
  | _, _ => None
  end.

Example gem_ex1 : compareGemVersions "1.0.a" "1" = Some (-1).
Proof. vm_compute. reflexivity. Qed.
Example gem_ex2 : compareGemVersions "1.0" "1" = Some 0.
Proof. vm_compute. reflexivity. Qed.
Example gem_ex3 : compareGemVersions "2.0-beta" "2.0.0.rc1" = Some (-1).
Proof. vm_compute. reflexivity. Qed.
Example gem_ex4 : compareGemVersions "1.0-x86_64" "1" = None.
Proof. vm_compute. reflexivity. Qed.

(** * It is an order *)

(** Words below numbers, a missing segment being the number 0. *)
Definition segment_key (s : gemSegment) : string + Z :=
  if (str s =? "")%string then inr (num s) else inl (str s).

Definition word_num_cmp (x y : string + Z) : Z :=
  match x, y with
  | inl a, inl b => Compare a b
  | inl _, inr _ => -1
  | inr _, inl _ => 1
  | inr a, inr b => compareInt a b
  end.

#[local] Instance word_num_cmp_comparator : Comparator word_num_cmp.
Proof.
  split.
  - intros [a|a] [b|b]; simpl; try done; [apply (cmp_anti Compare)|apply (cmp_anti compareInt)].
  - intros [a|a] [b|b] [c|c]; simpl; try lia;
      [apply (cmp_trans Compare)|apply (cmp_trans compareInt)].
Qed.

#[local] Instance word_num_cmp_signed : SignedComparator word_num_cmp.
Proof.
  intros [a|a] [b|b]; simpl; unfold sign_ok; try lia;
    [apply (cmp_sign Compare)|apply (cmp_sign compareInt)].
Qed.

Definition gem_order : list gemSegment -> list gemSegment -> Z :=
  cmp_pad (on_key segment_key word_num_cmp) zero_segment.

(** A segment the parser produces: a word carries no number. *)
Definition segment_wf (s : gemSegment) : Prop := str s = "" \/ num s = 0.

Lemma gem_step_key x y z :
  segment_wf x -> segment_wf y ->
  gem_step x y z = then_cmp (on_key segment_key word_num_cmp x y) z.
Proof.
  unfold gem_step, segment_verdict, on_key, segment_key, segment_wf.
  destruct x as [n s], y as [m t]; cbn [num str]. intros Hx Hy.
  destruct (decide _) as [[= -> ->]|Hne].
  - by rewrite (cmp_refl word_num_cmp).
  - destruct (String.eqb_spec s "") as [->|Hs], (String.eqb_spec t "") as [->|Ht]; simpl; try done.
    + rewrite then_cmp_ne; [done|]. rewrite compareInt_zero. congruence.
    + rewrite then_cmp_ne; [done|]. rewrite Compare_zero. destruct Hx, Hy; congruence.
Qed.

Lemma gem_loop_nil_cons y b : gem_loop [] (y :: b) = gem_step zero_segment y (gem_loop [] b).
Proof. done. Qed.

Lemma gem_loop_cons_nil x a : gem_loop (x :: a) [] = gem_step x zero_segment (gem_loop a []).
Proof. done. Qed.

Lemma gem_loop_cons x a y b : gem_loop (x :: a) (y :: b) = gem_step x y (gem_loop a b).
Proof. done. Qed.

Lemma gem_loop_order a b :
  Forall segment_wf a -> Forall segment_wf b -> gem_loop a b = gem_order a b.
Proof.
  assert (Hz : segment_wf zero_segment) by by left.
  intros Ha. revert b. induction Ha as [|x a Hx Ha IH]; intros b Hb.
  - induction Hb as [|y b Hy Hb IH]; [done|].
    by rewrite gem_loop_nil_cons, gem_step_key, IH.
  - destruct Hb as [|y b Hy Hb].
    + by rewrite gem_loop_cons_nil, gem_step_key, IH.
    + by rewrite gem_loop_cons, gem_step_key, IH.
Qed.

Lemma gem_segments_wf l segs : mapM gem_segment l = Some segs -> Forall segment_wf segs.
Proof.
  intros H%mapM_Some_1. induction H as [|m s l segs Hm H IH]; constructor; [|done].
  unfold gem_segment in Hm. destruct (atoi_opt m); [injection Hm as <-; by left|].
  destruct (starts is_digit m); [done|]. injection Hm as <-. by right.
Qed.

Lemma trim_zeros_Forall P part : Forall P part -> Forall P (trim_zeros part).
Proof.
  induction 1 as [|s part Hs _ IH]; simpl; [done|]. destruct (trim_zeros part); [|by constructor].
  destruct (decide _); [done|by constructor].
Qed.

Lemma numeric_part_Forall P segs : Forall P segs -> Forall P (numeric_part segs).
Proof. induction 1; simpl; [done|]. destruct (_ =? _)%string; [by constructor|done]. Qed.

Lemma parseGemVersion_wf v segs : parseGemVersion v = Some segs -> Forall segment_wf segs.
Proof.
  unfold parseGemVersion. destruct (MatchString _ _); [|done].
  intros (l & Hl%gem_segments_wf & [= <-])%bind_Some. apply Forall_app. split; apply trim_zeros_Forall.
  - by apply numeric_part_Forall.
  - by apply Forall_drop.
Qed.

#[export] Instance gem_scheme : VersionScheme compareGemVersions.
Proof.
  refine {| vs_parse := parseGemVersion; vs_cmp := gem_order |}; [unfold gem_order; apply _..|].
  intros a b. unfold compareGemVersions.
  destruct (parseGemVersion a) eqn:Ha, (parseGemVersion b) eqn:Hb; [|done..].
  simpl. f_equal. apply gem_loop_order; by eapply parseGemVersion_wf.
Defined.

