(* ===== verification/BuilderSemver.v ===== *)
(** The semantic versions a constraint is matched with: internal/builder/semver.go.

    [sort.Slice] is the insertion sort it runs on up to twelve elements; the
    theorem about [FilterVersions] uses only that it orders and permutes. *)

From stdpp Require Import base list strings sorting.
From Stdlib Require Import ZArith Lia Ascii Sorted.
From S2P Require Import Prelude GoStrings GoSort Types.

Record SemVer := MkSemVer { Major : Z; Minor : Z; Patch : Z; Pre : string; Raw : string }.

(** [strings.IndexAny(s, "-+")]: the text before the first of them, and after. *)
Fixpoint split_pre (s : string) : string * string :=
  match s with
  | "" => ("", "")
  | String c s' =>
      if in_set "-+" c then ("", s')
      else let '(a, b) := split_pre s' in (String c a, b)
  end.

(** A part that is absent counts as 0. *)
Definition semver_part (parts : list string) (i : nat) : option Z :=
  match parts !! i with None => Some 0 | Some p => atoi_opt p end.

Definition ParseSemVer (raw : string) : option SemVer :=
  let s := TrimPrefix (TrimPrefix raw "v") "V" in
  let '(s, pre) := split_pre s in
  let parts := Split "." s in
  if (length parts <? 1)%nat || (3 <? length parts)%nat then None
  else
    major ← semver_part parts 0;
    minor ← semver_part parts 1;
    patch ← semver_part parts 2;
    Some (MkSemVer major minor patch pre raw).

Definition Less (a b : SemVer) : bool :=
  if negb (Major a =? Major b) then Major a <? Major b
  else if negb (Minor a =? Minor b) then Minor a <? Minor b
  else if negb (Patch a =? Patch b) then Patch a <? Patch b
  else if negb (Pre a =? "")%string && (Pre b =? "")%string then true
  else if (Pre a =? "")%string && negb (Pre b =? "")%string then false
  else Compare (Pre a) (Pre b) <? 0.

Definition Equal (a b : SemVer) : bool :=
  (Major a =? Major b) && (Minor a =? Minor b) && (Patch a =? Patch b) && (Pre a =? Pre b)%string.

Definition GTE (a b : SemVer) : bool := Equal a b || negb (Less a b).

(** The constraint switch of [FilterVersions]; an unknown one keeps nothing. *)
Definition keeps (constraint : string) (base : option SemVer) (sv : SemVer) : bool :=
  if slice_contains [ConstraintExact; ""] constraint then
    match base with Some b => Equal sv b | None => false end
  else if (constraint =? ConstraintAny)%string then true
  else if (constraint =? ConstraintCompatible)%string then
    match base with Some b => (Major sv =? Major b) && GTE sv b | None => false end
  else if (constraint =? ConstraintPatch)%string then
    match base with
    | Some b => (Major sv =? Major b) && (Minor sv =? Minor b) && GTE sv b
    | None => false
    end
  else false.

Definition FilterVersions (available : list string) (constraint baseVersion : string) : list string :=
  let base := ParseSemVer baseVersion in
  map Raw (SliceStable Less (List.filter (keeps constraint base) (omap ParseSemVer available))).

Example ParseSemVer_ex1 : ParseSemVer "v1.30.0-rc1" = Some (MkSemVer 1 30 0 "rc1" "v1.30.0-rc1").
Proof. reflexivity. Qed.
Example ParseSemVer_ex2 : ParseSemVer "1.2.3.4" = None.
Proof. reflexivity. Qed.
Example FilterVersions_ex :
  FilterVersions ["2.0.0"; "1.10.0"; "x"; "v1.2.0"; "1.2.0-rc1"; "1.9"] ConstraintCompatible "1.2"
  = ["v1.2.0"; "1.9"; "1.10.0"].
Proof. reflexivity. Qed.

(** ** The order *)

(** What [Less] compares: the three numbers, then the prerelease, a release
    above every prerelease of it. *)
Definition pre_cmp (a b : string) : Z :=
  if (a =? "")%string then (if (b =? "")%string then 0 else 1)
  else if (b =? "")%string then -1 else Compare a b.

#[global] Instance pre_cmp_comparator : Comparator pre_cmp.
Proof.
  split; unfold pre_cmp.
  - intros a b. destruct (String.eqb_spec a ""), (String.eqb_spec b ""); try done. apply Compare_anti.
  - intros a b c. destruct (String.eqb_spec a ""), (String.eqb_spec b ""), (String.eqb_spec c "");
      try lia. apply Compare_trans.
Qed.

Definition semver_cmp : SemVer -> SemVer -> Z :=
  lex (on_key Major compareInt) (lex (on_key Minor compareInt)
    (lex (on_key Patch compareInt) (on_key Pre pre_cmp))).

#[global] Instance semver_cmp_comparator : Comparator semver_cmp := _.

Lemma pre_cmp_zero a b : pre_cmp a b = 0 <-> a = b.
Proof.
  unfold pre_cmp. destruct (String.eqb_spec a "") as [->|Ha], (String.eqb_spec b "") as [->|Hb]; try done.
  apply Compare_zero.
Qed.

Lemma Less_cmp a b : Less a b = (semver_cmp a b <? 0).
Proof.
  unfold Less, semver_cmp, lex, on_key, then_cmp. rewrite !compareInt_eqb.
  destruct (Major a =? Major b) eqn:E1; cbn [negb]; [|by rewrite compareInt_ltb].
  destruct (Minor a =? Minor b) eqn:E2; cbn [negb]; [|by rewrite compareInt_ltb].
  destruct (Patch a =? Patch b) eqn:E3; cbn [negb]; [|by rewrite compareInt_ltb].
  unfold pre_cmp. destruct (String.eqb_spec (Pre a) ""), (String.eqb_spec (Pre b) ""); try done.
  by rewrite e, e0.
Qed.

Lemma Equal_cmp a b : Equal a b = (semver_cmp a b =? 0).
Proof.
  apply eq_true_iff_eq. rewrite Z.eqb_eq. unfold Equal, semver_cmp, lex, on_key.
  rewrite !andb_true_iff, !then_cmp_zero, pre_cmp_zero, String.eqb_eq, <- !Z.eqb_eq, !compareInt_eqb. tauto.
Qed.

Lemma GTE_cmp a b : GTE a b = (0 <=? semver_cmp a b).
Proof.
  unfold GTE. rewrite Equal_cmp, Less_cmp. apply eq_true_iff_eq.
  rewrite orb_true_iff, negb_true_iff, Z.eqb_eq, Z.ltb_ge, Z.leb_le. lia.
Qed.

Lemma ParseSemVer_Raw v sv : ParseSemVer v = Some sv -> Raw sv = v.
Proof.
  unfold ParseSemVer. destruct (split_pre _) as [s p]. destruct (_ || _); [done|].
  intros (x & _ & (y & _ & (z & _ & [= <-])%bind_Some)%bind_Some)%bind_Some. done.
Qed.

(** An absent part is 0, and a part that is there is a 64-bit [int]. *)
Lemma semver_part_range parts i n : semver_part parts i = Some n -> minInt <= n <= maxInt.
Proof.
  unfold semver_part. destruct (parts !! i) as [p|]; [|intros [= <-]; unfold minInt, maxInt; lia].
  unfold atoi_opt. destruct (Atoi p) as [m [e|]] eqn:E; [done|]. intros [= <-]. by apply Atoi_range in E.
Qed.

Lemma FilterVersions_mem available c base v :
  v ∈ FilterVersions available c base <->
  v ∈ available /\ exists sv, ParseSemVer v = Some sv /\ keeps c (ParseSemVer base) sv = true.
Proof.
  unfold FilterVersions. rewrite SliceStable_perm, list_elem_of_fmap. split.
  - intros (sv & -> & Hsv). apply list_elem_of_In, filter_In in Hsv as [Hsv Hk].
    apply list_elem_of_In, list_elem_of_omap in Hsv as (w & Hw & Hp).
    rewrite (ParseSemVer_Raw _ _ Hp). split; [done|]. by exists sv.
  - intros (Hv & sv & Hp & Hk). exists sv. split; [by rewrite (ParseSemVer_Raw _ _ Hp)|].
    apply list_elem_of_In, filter_In. split; [|done]. apply list_elem_of_In, list_elem_of_omap. by exists v.
Qed.

(** The three constraints that compare with a base keep what [same] holds of,
    when the base reads as a version. *)
Lemma keeps_base c base sv (same : SemVer -> SemVer -> Prop) :
  (forall b, keeps c (Some b) sv = true <-> same sv b) -> keeps c None sv = false ->
  keeps c (ParseSemVer base) sv = true <-> exists b, ParseSemVer base = Some b /\ same sv b.
Proof.
  intros Hs Hn. destruct (ParseSemVer base) as [b|].
  - rewrite Hs. split; [intros; by exists b|]. by intros (b' & [= ->] & ?).
  - rewrite Hn. split; [done|]. by intros (b' & ? & _).
Qed.

Lemma FilterVersions_base available c base v (same : SemVer -> SemVer -> Prop) :
  (forall b sv, keeps c (Some b) sv = true <-> same sv b) -> (forall sv, keeps c None sv = false) ->
  v ∈ FilterVersions available c base <-> v ∈ available /\
    exists sv b, ParseSemVer v = Some sv /\ ParseSemVer base = Some b /\ same sv b.
Proof.
  intros Hs Hn. rewrite FilterVersions_mem. apply and_iff_compat_l. split.
  - intros (sv & Hp & (b & Hb & H)%(keeps_base _ _ _ same)); [by exists sv, b|naive_solver..].
  - intros (sv & b & Hp & Hb & H). exists sv. split; [done|].
    apply (keeps_base _ _ _ same); [naive_solver|done|by exists b].
Qed.

Lemma keeps_compatible b sv :
  keeps ConstraintCompatible (Some b) sv = true <-> Major sv = Major b /\ 0 <= semver_cmp sv b.
Proof.
  change ((Major sv =? Major b) && GTE sv b = true <-> Major sv = Major b /\ 0 <= semver_cmp sv b).
  by rewrite GTE_cmp, andb_true_iff, Z.eqb_eq, Z.leb_le.
Qed.

Lemma keeps_patch b sv :
  keeps ConstraintPatch (Some b) sv = true <->
  (Major sv = Major b /\ Minor sv = Minor b) /\ 0 <= semver_cmp sv b.
Proof.
  change ((Major sv =? Major b) && (Minor sv =? Minor b) && GTE sv b = true <->
          (Major sv = Major b /\ Minor sv = Minor b) /\ 0 <= semver_cmp sv b).
  by rewrite GTE_cmp, !andb_true_iff, !Z.eqb_eq, Z.leb_le.
Qed.

(** A constraint keeps exactly the versions it describes.  "compatible"
    is the base version's major from the base up, "patch" its major and minor
    from the base up, "exact" (and the empty constraint) the versions equal to
    the base, "any" every version that reads as one; a base that does not read
    as a version keeps nothing under the first three.  The answer is ascending,
    a prerelease below its release. *)
Theorem FilterVersions_spec available base :
  let above c same := forall v, v ∈ FilterVersions available c base <-> v ∈ available /\
    exists sv b, ParseSemVer v = Some sv /\ ParseSemVer base = Some b /\ same sv b /\ 0 <= semver_cmp sv b in
  above ConstraintCompatible (fun sv b => Major sv = Major b) /\
  above ConstraintPatch (fun sv b => Major sv = Major b /\ Minor sv = Minor b) /\
  (forall c, c = ConstraintExact \/ c = "" -> above c (fun sv b => semver_cmp sv b = 0)) /\
  (forall v, v ∈ FilterVersions available ConstraintAny base <-> v ∈ available /\ is_Some (ParseSemVer v)) /\
  (forall c, exists kept, FilterVersions available c base = map Raw kept /\
     StronglySorted (fun x y => semver_cmp x y <= 0) kept).
Proof.
  cbv zeta. split; [|split; [|split; [|split]]].
  - intros v. apply FilterVersions_base; [apply keeps_compatible|done].
  - intros v. rewrite (FilterVersions_base _ _ _ _
      (fun sv b => (Major sv = Major b /\ Minor sv = Minor b) /\ 0 <= semver_cmp sv b)); [done| |done].
    apply keeps_patch.
  - intros c Hc v. apply FilterVersions_base.
    + intros b sv. transitivity (Equal sv b = true); [by destruct Hc as [->| ->]|].
      rewrite Equal_cmp, Z.eqb_eq. lia.
    + intros sv. by destruct Hc as [->| ->].
  - intros v. rewrite FilterVersions_mem. apply and_iff_compat_l. split; [intros (sv & Hp & _); by exists sv|].
    intros [sv Hp]. by exists sv.
  - intros c. eexists. split; [reflexivity|]. apply (SliceStable_by Less semver_cmp), Less_cmp.
Qed.
