(* ===== verification/MavenLayout.v ===== *)
(** The Maven repository layout (internal/manifest/maven.go): reading a request
    path into a coordinate, building the paths of a version, and the names and
    versions an entry may carry. *)

From stdpp Require Import base list gmap strings.
From Stdlib Require Import ZArith Lia Ascii.
From S2P Require Import Prelude GoStrings Regexp Types.

(** * Data *)

Definition MavenMetadataFile := "maven-metadata.xml".

Definition maven_head (c : ascii) : bool := is_alnum c || Ascii.eqb c "_".
Definition maven_rest (c : ascii) : bool := is_alnum c || in_set "._+-" c.

Definition mavenSegmentPattern : re := (RByte maven_head · RUpto 127 (RByte maven_rest))%re.

Definition mavenSnapshotStamp : re :=
  (RTimes 8 (RByte is_digit) · RLit "." · RTimes 6 (RByte is_digit) · RLit "-" · RPlus (RByte is_digit))%re.

Definition mavenCompanions : list string := ["sha1"; "md5"; "sha256"; "sha512"; "asc"].

Record MavenPath := MkMavenPath {
  mp_GroupID : string;
  mp_ArtifactID : string;
  mp_Version : string;
  mp_Classifier : string;
  mp_Extension : string;
  mp_Companion : string;
  mp_Metadata : bool;
  mp_GroupLevelID : string
}.

Definition MavenGroupWildcard := "*".

Definition mp_Name (p : MavenPath) : string := mp_GroupID p +:+ ":" +:+ mp_ArtifactID p.

Definition GroupLevelName (p : MavenPath) : string :=
  if (mp_GroupLevelID p =? "")%string then "" else mp_GroupLevelID p +:+ ":" +:+ MavenGroupWildcard.

Definition is_snapshot (version : string) : bool := HasSuffix version "-SNAPSHOT".

Definition Snapshot (p : MavenPath) : bool := is_snapshot (mp_Version p).

Definition Immutable (p : MavenPath) : bool := negb (mp_Metadata p) && negb (Snapshot p).

Definition MavenGroupEntry (name : string) : option string :=
  match cut_byte ":" name with
  | Some (group, _) => if (group =? "")%string then None else Some (group +:+ ":" +:+ MavenGroupWildcard)
  | None => None
  end.

(** * Reading a path *)

(** The last element and the ones before it, of a list that has one. *)
Definition final (l : list string) : string := List.last l "".

(** The loop over [mavenCompanions]: the file without the first companion
    suffix it carries, and that companion. *)
Definition cut_companion (file : string) : string * string :=
  default (file, "")
    (first_some (fun c => base ← cut_suffix file ("." +:+ c); Some (base, c)) mavenCompanions).

(** [FindString] of a pattern anchored at the start. *)
Definition FindPrefix (r : re) (s : string) : string :=
  match ends r s with
  | (t, _) :: _ => consumed s t
  | [] => ""
  end.

(** What follows the version in a file name that starts with it; a SNAPSHOT
    file may spell its version with the timestamp it was deployed under. *)
Definition after_version (version rest : string) : option string :=
  if is_snapshot version then
    rest ← cut_prefix rest (TrimSuffix version "SNAPSHOT");
    match cut_prefix rest "SNAPSHOT" with
    | Some after => Some after
    | None =>
        let stamp := FindPrefix mavenSnapshotStamp rest in
        if (stamp =? "")%string then None else Some (str_drop (String.length stamp) rest)
    end
  else cut_prefix rest version.

(** The classifier and the extension in what follows the version. *)
Definition classifier_ext (rest : string) : option (string * string) :=
  '(cls, ext) ← cut_byte "." rest;
  if existsb (fun part => (part =? "")%string || slice_contains mavenCompanions part) (Split "." ext)
  then None
  else if (cls =? "")%string then Some ("", ext)
  else match cls with
       | String c classifier =>
           if Ascii.eqb c "-" && negb (classifier =? "")%string then Some (classifier, ext) else None
       | "" => None
       end.

Definition metadata_path (dirs : list string) (companion : string) : MavenPath :=
  let last := final dirs in
  let snap := (3 <=? length dirs)%nat && is_snapshot last in
  let version := if snap then last else "" in
  let dirs := if snap then removelast dirs else dirs in
  MkMavenPath (Join (removelast dirs) ".") (final dirs) version "" "" companion true
    (if (version =? "")%string then Join dirs "." else "").

Definition artifact_path (dirs : list string) (file companion : string) : option MavenPath :=
  if (length dirs <? 3)%nat then None
  else
    let version := final dirs in
    let dirs := removelast dirs in
    let artifact := final dirs in
    let group := Join (removelast dirs) "." in
    rest ← cut_prefix file (artifact +:+ "-");
    rest ← after_version version rest;
    '(classifier, ext) ← classifier_ext rest;
    Some (MkMavenPath group artifact version classifier ext companion false "").

Definition ParseMavenPath (p : string) : option MavenPath :=
  let segs := Split "/" p in
  if negb (forallb (MatchString mavenSegmentPattern) segs) then None
  else if (length segs <? 3)%nat then None
  else
    let '(file, companion) := cut_companion (final segs) in
    let dirs := removelast segs in
    if (file =? MavenMetadataFile)%string then Some (metadata_path dirs companion)
    else artifact_path dirs file companion.

(** * Building paths *)

Definition MavenArtifactPath (name version : string) : option string :=
  match cut_byte ":" name with
  | Some (group, artifact) =>
      if (group =? "")%string || (artifact =? "")%string || (version =? "")%string then None
      else Some (ReplaceAll group "." "/" +:+ "/" +:+ artifact +:+ "/" +:+ version +:+ "/"
                 +:+ artifact +:+ "-" +:+ version +:+ ".pom")
  | None => None
  end.

Inductive maven_error :=
| NotCoordinate (name : string)
| BadGroup (name group : string)
| BadArtifact (name artifact : string)
| WildcardClassifiers (name : string) (classifiers : list string)
| BadVersion (name version : string)
| BadClassifier (classifier : string)
| BadExtension (classifier extension : string)
| UnheldFile (name version classifier : string)
| WantCoordinate (name version : string)
| UnheldMain (name version extension : string)
| AtVersion (name version : string) (err : maven_error).

Definition ValidateMavenName (name : string) : option maven_error :=
  match cut_byte ":" name with
  | None => Some (NotCoordinate name)
  | Some (group, artifact) =>
      if has_byte ":" artifact then Some (NotCoordinate name)
      else if negb (forallb (MatchString mavenSegmentPattern) (Split "." group))
      then Some (BadGroup name group)
      else if negb (artifact =? MavenGroupWildcard)%string
              && (HasPrefix artifact "." || negb (MatchString mavenSegmentPattern artifact))
      then Some (BadArtifact name artifact)
      else None
  end.

Definition MetaMavenExtension := "maven_extension".
Definition MetaMavenModule := "maven_module".

Definition MavenChecksumCompanions : list string := ["sha1"; "md5"; "sha256"; "sha512"].

Definition MavenPackagingExtension (packaging : string) : string :=
  let p := TrimSpace packaging in
  if slice_contains ["pom"; "war"; "aar"] p then p else "jar".

Definition ParseMavenClassifier (s : string) : (string * string) + maven_error :=
  let '(classifier, extension) := default (s, "jar") (cut_byte "@" s) in
  if negb (MatchString mavenSegmentPattern classifier) then inr (BadClassifier s)
  else if slice_contains ["jar"; "aar"; "war"] extension then inl (classifier, extension)
  else inr (BadExtension s extension).

Definition MavenFilePath (name version classifier extension : string) : option string :=
  match cut_byte ":" name with
  | Some (group, artifact) =>
      if (group =? "")%string || (artifact =? "")%string || (artifact =? MavenGroupWildcard)%string
         || (version =? "")%string then None
      else
        let file := artifact +:+ "-" +:+ version in
        let file := if (classifier =? "")%string then file else file +:+ "-" +:+ classifier in
        let p := ReplaceAll group "." "/" +:+ "/" +:+ artifact +:+ "/" +:+ version +:+ "/"
                 +:+ file +:+ "." +:+ extension in
        match ParseMavenPath p with
        | Some mp =>
            if (mp_Name mp =? name)%string && (mp_Version mp =? version)%string
               && (mp_Classifier mp +:+ "." +:+ mp_Extension mp =? classifier +:+ "." +:+ extension)%string
            then Some p else None
        | None => None
        end
  | None => None
  end.

(** One turn of the loops over [ve.Classifiers]. *)
Definition classifier_file (name : string) (ve : VersionEntry) (c : string) : string + maven_error :=
  match ParseMavenClassifier c with
  | inr err => inr (AtVersion name (ve_Version ve) err)
  | inl (cls, ext) =>
      match MavenFilePath name (ve_Version ve) cls ext with
      | Some p => inl p
      | None => inr (AtVersion name (ve_Version ve) (UnheldFile name (ve_Version ve) c))
      end
  end.

Definition first_error {A} (f : string -> A + maven_error) (l : list string) : option maven_error :=
  first_some (fun c => match f c with inr err => Some err | inl _ => None end) l.

(** The artifactId of a name with no ":" is empty. *)
Definition ValidateMavenVersion (name : string) (ve : VersionEntry) : option maven_error :=
  let artifact := match cut_byte ":" name with Some (_, a) => a | None => "" end in
  if (artifact =? MavenGroupWildcard)%string then
    match ve_Classifiers ve with [] => None | cs => Some (WildcardClassifiers name cs) end
  else
    match MavenArtifactPath name (ve_Version ve) with
    | Some _ =>
        if MatchString mavenSegmentPattern (ve_Version ve)
        then first_error (classifier_file name ve) (ve_Classifiers ve)
        else Some (BadVersion name (ve_Version ve))
    | None => Some (BadVersion name (ve_Version ve))
    end.

Fixpoint classifier_files (name : string) (ve : VersionEntry) (cs : list string)
  : list string + maven_error :=
  match cs with
  | [] => inl []
  | c :: cs =>
      match classifier_file name ve c with
      | inr err => inr err
      | inl p => match classifier_files name ve cs with
                 | inl ps => inl (p :: ps)
                 | inr err => inr err
                 end
      end
  end.

Definition MavenVersionFiles (name : string) (ve : VersionEntry) : list string + maven_error :=
  match MavenArtifactPath name (ve_Version ve) with
  | None => inr (WantCoordinate name (ve_Version ve))
  | Some pom =>
      let ext := map_get (ve_Metadata ve) MetaMavenExtension in
      let main :=
        if (ext =? "")%string || (ext =? "pom")%string then inl []
        else match MavenFilePath name (ve_Version ve) "" ext with
             | Some main => inl [main]
             | None => inr (UnheldMain name (ve_Version ve) ext)
             end in
      match main with
      | inr err => inr err
      | inl main =>
          let module :=
            if (map_get (ve_Metadata ve) MetaMavenModule =? "true")%string
            then [default "" (MavenFilePath name (ve_Version ve) "" "module")] else [] in
          match classifier_files name ve (ve_Classifiers ve) with
          | inl files => inl (main ++ pom :: module ++ files)
          | inr err => inr err
          end
      end
  end.

Example parse_ex1 :
  ParseMavenPath "org/apache/commons/commons-lang3/3.14.0/commons-lang3-3.14.0-sources.jar.sha1"
  = Some (MkMavenPath "org.apache.commons" "commons-lang3" "3.14.0" "sources" "jar" "sha1" false "").
Proof. vm_compute. reflexivity. Qed.
Example parse_ex2 :
  ParseMavenPath "g/a/1.0-SNAPSHOT/a-1.0-20231010.123456-12.tar.gz"
  = Some (MkMavenPath "g" "a" "1.0-SNAPSHOT" "" "tar.gz" "" false "").
Proof. vm_compute. reflexivity. Qed.
Example parse_ex3 :
  ParseMavenPath "org/apache/maven-metadata.xml"
  = Some (MkMavenPath "org" "apache" "" "" "" "" true "org.apache").
Proof. vm_compute. reflexivity. Qed.
Example parse_ex4 :
  map ParseMavenPath ["g/a/1/a-1.jar.sha1.asc"; "g/a/1/b-1.jar"; "g/../1/a-1.jar"; "g/a/1/a-1"; "a-1.jar"]
  = [None; None; None; None; None].
Proof. vm_compute. reflexivity. Qed.

(** * The layout, declaratively

    What a path of the layout is, with no cutting in it: the segments, the
    coordinate they spell, and the companion behind the file. *)

Definition with_companion (base companion file : string) : Prop :=
  (companion = "" /\ file = base) \/ (companion ∈ mavenCompanions /\ file = base +:+ "." +:+ companion).

(** How a file name may spell its version. *)
Definition spells (version text : string) : Prop :=
  if is_snapshot version then
    exists tail, text = TrimSuffix version "SNAPSHOT" +:+ tail
      /\ (tail = "SNAPSHOT" \/ lang mavenSnapshotStamp tail)
  else text = version.

Definition ext_ok (ext : string) : Prop :=
  Forall (fun part => part <> "" /\ ~ part ∈ mavenCompanions) (Split "." ext).

Definition classifier_text (classifier : string) : string :=
  if (classifier =? "")%string then "" else "-" +:+ classifier.

Inductive layout : list string -> MavenPath -> Prop :=
| layout_metadata groups artifact file c :
    groups <> [] ->
    is_snapshot artifact && (2 <=? length groups)%nat = false ->
    with_companion MavenMetadataFile c file ->
    layout (groups ++ [artifact; file])
      (MkMavenPath (Join groups ".") artifact "" "" "" c true (Join (groups ++ [artifact]) "."))
| layout_snapshot_metadata groups artifact version file c :
    groups <> [] -> is_snapshot version = true ->
    with_companion MavenMetadataFile c file ->
    layout (groups ++ [artifact; version; file])
      (MkMavenPath (Join groups ".") artifact version "" "" c true "")
| layout_file groups artifact version text classifier ext base file c :
    groups <> [] -> spells version text -> no_byte "." classifier = true -> ext_ok ext ->
    base = artifact +:+ "-" +:+ text +:+ classifier_text classifier +:+ "." +:+ ext ->
    base <> MavenMetadataFile ->
    with_companion base c file ->
    layout (groups ++ [artifact; version; file])
      (MkMavenPath (Join groups ".") artifact version classifier ext c false "").

(** ** Companions *)

Lemma companion_no_dot c : c ∈ mavenCompanions -> no_byte "." c = true /\ c <> "".
Proof.
  unfold mavenCompanions. rewrite !elem_of_cons, elem_of_nil.
  intros [->|[->|[->|[->|[->|[]]]]]]; done.
Qed.

(** A text ends in at most one companion. *)
Lemma companion_unique a c b d :
  c ∈ mavenCompanions -> no_byte "." d = true -> a +:+ "." +:+ c = b +:+ "." +:+ d -> a = b /\ c = d.
Proof.
  intros [Hc _]%companion_no_dot Hd E.
  pose proof (cut_last_byte_app "." a c Hc) as H1. pose proof (cut_last_byte_app "." b d Hd) as H2.
  change (a +:+ String "." c) with (a +:+ "." +:+ c) in H1. rewrite E in H1.
  change (b +:+ "." +:+ d) with (b +:+ String "." d) in H1. rewrite H2 in H1. by injection H1.
Qed.

Lemma first_some_elem {A B} (f : A -> option B) l y :
  first_some f l = Some y -> exists x, x ∈ l /\ f x = Some y.
Proof.
  induction l as [|x l IH]; [done|]. simpl. destruct (f x) eqn:E.
  - intros [= <-]. exists x. split; [by left|done].
  - intros (z & Hz & ?)%IH. exists z. split; [by right|done].
Qed.

Lemma cut_companion_sound file base c :
  cut_companion file = (base, c) -> with_companion base c file.
Proof.
  unfold cut_companion. destruct (first_some _ _) as [[b d]|] eqn:E; intros [= <- <-]; [|by left].
  apply first_some_elem in E as (x & Hx & Hf).
  apply bind_Some in Hf as (y & Hy & [= -> ->]). apply cut_suffix_Some in Hy as ->. by right.
Qed.

Lemma cut_companion_complete base c file :
  with_companion base c file ->
  (forall b d, d ∈ mavenCompanions -> base <> b +:+ "." +:+ d) ->
  cut_companion file = (base, c).
Proof.
  intros [[-> ->]|[Hc ->]] Hb; unfold cut_companion.
  - rewrite (proj2 (first_some_None _ _)); [done|]. apply Forall_forall. intros d Hd.
    destruct (cut_suffix base ("." +:+ d)) as [b|] eqn:E; [|done].
    apply cut_suffix_Some in E. by apply Hb in E.
  - destruct (first_some _ _) as [[b d]|] eqn:E.
    + apply first_some_elem in E as (x & Hx & Hf). apply bind_Some in Hf as (y & Hy & [= <- <-]).
      apply cut_suffix_Some in Hy. simpl.
      destruct (companion_unique base c y x Hc (proj1 (companion_no_dot x Hx)) Hy) as [-> ->]. done.
    + exfalso. rewrite first_some_None, Forall_forall in E. specialize (E c Hc). simpl in E.
      by rewrite cut_suffix_app in E.
Qed.

(** ** Classifier and extension *)

Lemma ext_ok_spec ext :
  existsb (fun part => (part =? "")%string || slice_contains mavenCompanions part) (Split "." ext) = false
  <-> ext_ok ext.
Proof.
  unfold ext_ok. induction (Split "." ext) as [|x l IH]; simpl; [by split|].
  rewrite Forall_cons, orb_false_iff, IH, orb_false_iff, String.eqb_neq.
  rewrite <- (slice_contains_spec mavenCompanions x), not_true_iff_false. done.
Qed.

Lemma classifier_ext_sound rest classifier ext :
  classifier_ext rest = Some (classifier, ext) ->
  rest = classifier_text classifier +:+ "." +:+ ext /\ no_byte "." classifier = true /\ ext_ok ext.
Proof.
  unfold classifier_ext. intros ([cls e] & [-> Hn]%cut_byte_Some & H)%bind_Some.
  destruct (existsb _ _) eqn:E; [done|]. apply ext_ok_spec in E.
  destruct (String.eqb_spec cls "") as [->|Hc]; [by injection H as <- <-|].
  destruct cls as [|x cls]; [done|]. destruct (Ascii.eqb_spec x "-") as [->|]; [|done].
  destruct (String.eqb_spec cls "") as [|Hne]; [done|]. injection H as <- <-.
  unfold classifier_text. rewrite (proj2 (String.eqb_neq _ _) Hne). done.
Qed.

Lemma classifier_ext_complete classifier ext :
  no_byte "." classifier = true -> ext_ok ext ->
  classifier_ext (classifier_text classifier +:+ "." +:+ ext) = Some (classifier, ext).
Proof.
  intros Hn He%ext_ok_spec. unfold classifier_ext, classifier_text.
  destruct (String.eqb_spec classifier "") as [->|Hne].
  - change ("" +:+ "." +:+ ext) with ("" +:+ String "." ext). rewrite cut_byte_app by done.
    cbv beta iota delta [mbind option_bind]. by rewrite He.
  - change (("-" +:+ classifier) +:+ "." +:+ ext) with (String "-" classifier +:+ String "." ext).
    rewrite cut_byte_app by (by rewrite no_byte_cons, Hn). cbv beta iota delta [mbind option_bind]. rewrite He.
    simpl. by rewrite (proj2 (String.eqb_neq _ _) Hne).
Qed.

(** ** The version in a file name *)

Lemma stamp_inv s :
  lang mavenSnapshotStamp s ->
  exists a b c d, s = a +:+ "." +:+ b +:+ "-" +:+ String c d
    /\ all_bytes is_digit a = true /\ String.length a = 8%nat
    /\ all_bytes is_digit b = true /\ String.length b = 6%nat
    /\ is_digit c = true /\ all_bytes is_digit d = true.
Proof.
  unfold mavenSnapshotStamp. rewrite !lang_seq_inv.
  intros (s1 & s5 & -> & (s2 & s4 & -> & (s3 & b & -> & (a & d1 & -> & Ha & Hd1)%lang_seq_inv & Hb)%lang_seq_inv & Hd2)%lang_seq_inv & Hp).
  apply lang_times_byte in Ha as [? ?], Hb as [? ?].
  apply lang_byte_inv in Hd1 as (x & -> & Hx%Ascii.eqb_eq), Hd2 as (y & -> & Hy%Ascii.eqb_eq).
  apply lang_plus_byte in Hp as (c & d & -> & ? & ?). subst x y.
  exists a, b, c, d. by rewrite !app_assoc.
Qed.

Lemma FindPrefix_sound r s p : FindPrefix r s = p -> p <> "" -> lang r p /\ exists t, s = p +:+ t.
Proof.
  unfold FindPrefix. destruct (ends r s) as [|[t c] l] eqn:E; [by intros <-|]. intros <- _.
  destruct (ends_sound r s t c) as (a & -> & Ha); [rewrite E; by left|].
  rewrite consumed_app. eauto.
Qed.

(** The stamp takes every digit of its build number. *)
Lemma FindPrefix_stamp stamp tail :
  lang mavenSnapshotStamp stamp -> starts is_digit tail = false ->
  FindPrefix mavenSnapshotStamp (stamp +:+ tail) = stamp.
Proof.
  intros (a & b & c & d & -> & Ha & La & Hb & Lb & Hc & Hd)%stamp_inv Ht.
  assert (E : exists l, ends mavenSnapshotStamp ((a +:+ "." +:+ b +:+ "-" +:+ String c d) +:+ tail)
                        = (tail, []) :: l).
  { destruct (ends_plus_byte is_digit c (d +:+ tail) Hc) as [l Hl].
    rewrite trim_left_app_all, (trim_left_id _ _ Ht) in Hl by done.
    rewrite !app_assoc. unfold mavenSnapshotStamp.
    set (tl := String c d +:+ tail) in *.
    assert (H1 := ends_times_one is_digit 8 a ("." +:+ b +:+ "-" +:+ tl) Ha La).
    assert (H2 := ends_times_one is_digit 6 b ("-" +:+ tl) Hb Lb).
    assert (S1 : ends (RTimes 8 (RByte is_digit) · RLit ".")%re (a +:+ "." +:+ b +:+ "-" +:+ tl)
                 = [(b +:+ "-" +:+ tl, [])]) by (by rewrite (ends_seq_one _ _ _ _ H1)).
    assert (S2 : ends (RTimes 8 (RByte is_digit) · RLit "." · RTimes 6 (RByte is_digit))%re
                   (a +:+ "." +:+ b +:+ "-" +:+ tl) = [("-" +:+ tl, [])])
      by (by rewrite (ends_seq_one _ _ _ _ S1), H2).
    assert (S3 : ends (RTimes 8 (RByte is_digit) · RLit "." · RTimes 6 (RByte is_digit) · RLit "-")%re
                   (a +:+ "." +:+ b +:+ "-" +:+ tl) = [(tl, [])])
      by (by rewrite (ends_seq_one _ _ _ _ S2)).
    rewrite (ends_seq_one _ _ _ _ S3). unfold tl. rewrite app_cons, Hl. apply dedup_cons. }
  destruct E as [l E]. unfold FindPrefix. rewrite E. apply consumed_app.
Qed.

Lemma after_version_sound version s rest :
  after_version version s = Some rest -> exists text, spells version text /\ s = text +:+ rest.
Proof.
  unfold after_version, spells. destruct (is_snapshot version).
  - intros (r & ->%cut_prefix_Some & H)%bind_Some. destruct (cut_prefix r "SNAPSHOT") as [t|] eqn:E.
    + injection H as ->. apply cut_prefix_Some in E as ->. eexists. split; [|symmetry; apply app_assoc].
      eauto.
    + destruct (String.eqb_spec (FindPrefix mavenSnapshotStamp r) "") as [|Hne]; [done|]. injection H as <-.
      destruct (FindPrefix_sound _ _ _ eq_refl Hne) as (Hl & t & Ht).
      set (st := FindPrefix mavenSnapshotStamp r) in *. rewrite Ht, str_drop_app.
      eexists. split; [|symmetry; apply app_assoc]. eauto.
  - intros ->%cut_prefix_Some. eauto.
Qed.

Lemma after_version_complete version text rest :
  spells version text -> starts is_digit rest = false ->
  after_version version (text +:+ rest) = Some rest.
Proof.
  unfold after_version, spells. destruct (is_snapshot version).
  - intros (tail & -> & Ht) Hr. rewrite app_assoc, cut_prefix_app.
    cbv beta iota delta [mbind option_bind]. destruct Ht as [->|Ht]; [by rewrite cut_prefix_app|].
    rewrite (FindPrefix_stamp tail rest Ht Hr), str_drop_app.
    apply stamp_inv in Ht as (a & b & c & d & -> & Ha & La & _). destruct a as [|x a]; [done|].
    rewrite !app_cons. cbn [cut_prefix]. destruct (Ascii.eqb_spec "S" x) as [<-|]; done.
  - intros -> _. apply cut_prefix_app.
Qed.

(** ** Segments *)

Lemma final_snoc l x : final (l ++ [x]) = x.
Proof. apply List.last_last. Qed.

Lemma removelast_snoc (l : list string) x : removelast (l ++ [x]) = l.
Proof. apply List.removelast_last. Qed.

Lemma final_split (l : list string) : l <> [] -> l = removelast l ++ [final l].
Proof. intros H. unfold final. by apply app_removelast_last. Qed.

Lemma segs_split (segs : list string) :
  (3 <= length segs)%nat ->
  exists groups artifact file, segs = groups ++ [artifact; file] /\ groups <> [].
Proof.
  intros Hl. assert (H1 : segs <> []) by (by destruct segs; [simpl in Hl; lia|]).
  pose proof (final_split segs H1) as E1. set (dirs := removelast segs) in *.
  assert (Hd : (2 <= length dirs)%nat) by (rewrite E1, length_app in Hl; simpl in Hl; lia).
  assert (H2 : dirs <> []) by (by destruct dirs; [simpl in Hd; lia|]).
  pose proof (final_split dirs H2) as E2. exists (removelast dirs), (final dirs), (final segs).
  split; [rewrite E1 at 1; rewrite E2 at 1; by rewrite <- List.app_assoc|].
  intros E3. rewrite E2, E3 in Hd. simpl in Hd. lia.
Qed.

Lemma groups_split (groups : list string) :
  (2 <= length groups)%nat -> exists g a, groups = g ++ [a] /\ g <> [].
Proof.
  intros Hl. exists (removelast groups), (final groups).
  assert (H : groups <> []) by (by destruct groups; [simpl in Hl; lia|]).
  pose proof (final_split groups H) as E. split; [done|]. intros E1. rewrite E, E1 in Hl. simpl in Hl. lia.
Qed.

Lemma is_snapshot_nonempty v : is_snapshot v = true -> (v =? "")%string = false.
Proof. by destruct v. Qed.

Lemma metadata_path_sound groups artifact c file :
  groups <> [] -> with_companion MavenMetadataFile c file ->
  layout (groups ++ [artifact; file]) (metadata_path (groups ++ [artifact]) c).
Proof.
  intros Hg Hf. unfold metadata_path. rewrite final_snoc, length_app. simpl length.
  replace (3 <=? length groups + 1)%nat with (2 <=? length groups)%nat
    by (destruct (Nat.leb_spec 2 (length groups)), (Nat.leb_spec 3 (length groups + 1)); lia).
  destruct (2 <=? length groups)%nat eqn:E1; [destruct (is_snapshot artifact) eqn:E2|].
  - cbn [andb]. rewrite removelast_snoc, is_snapshot_nonempty by done.
    apply Nat.leb_le, groups_split in E1 as (g & a & -> & Hg').
    rewrite final_snoc, removelast_snoc, <- List.app_assoc. by apply layout_snapshot_metadata.
  - cbn [andb]. rewrite final_snoc, removelast_snoc. by apply layout_metadata; rewrite ?E2.
  - cbn [andb]. rewrite final_snoc, removelast_snoc. by apply layout_metadata; rewrite ?E1, ?andb_false_r.
Qed.

Lemma artifact_path_sound groups artifact base c file mp :
  with_companion base c file -> base <> MavenMetadataFile ->
  artifact_path (groups ++ [artifact]) base c = Some mp -> layout (groups ++ [artifact; file]) mp.
Proof.
  intros Hf Hb. unfold artifact_path. rewrite length_app. simpl length.
  destruct (Nat.ltb_spec (length groups + 1) 3) as [|Hl]; [done|].
  destruct (groups_split groups) as (g & a & -> & Hg); [lia|].
  rewrite !final_snoc, !removelast_snoc, !final_snoc.
  intros (r1 & ->%cut_prefix_Some & (r2 & (text & Ht & ->)%after_version_sound
    & ([cls ext] & (-> & Hn & He)%classifier_ext_sound & [= <-])%bind_Some)%bind_Some)%bind_Some.
  rewrite app_assoc in Hb, Hf. rewrite <- List.app_assoc. simpl "++". by eapply layout_file.
Qed.

Lemma layout_length segs mp : layout segs mp -> (3 <= length segs)%nat.
Proof.
  destruct 1 as [g|g|g]; rewrite length_app; simpl; destruct g; try done; simpl; lia.
Qed.

Lemma metadata_no_companion b d : d ∈ mavenCompanions -> MavenMetadataFile <> b +:+ "." +:+ d.
Proof.
  intros Hd E. destruct (companion_unique b d "maven-metadata" "xml" Hd eq_refl (eq_sym E)) as [_ ->].
  by apply list_elem_of_In in Hd; simpl in Hd; intuition discriminate.
Qed.

(** The text of a file without its companion ends in no companion itself. *)
Lemma base_no_companion text ext b d :
  ext_ok ext -> d ∈ mavenCompanions -> text +:+ "." +:+ ext <> b +:+ "." +:+ d.
Proof.
  intros He Hd E. assert (H : d ∈ Split "." (text +:+ "." +:+ ext)).
  { rewrite E. change (b +:+ "." +:+ d) with (b +:+ String "." d).
    rewrite Split_concat, (Split_no_byte "." d) by (by apply companion_no_dot).
    apply elem_of_app. right. by left. }
  assert (Hl : d = List.last (Split "." ext) "").
  { assert (E2 := f_equal (fun s => List.last (Split "." s) "") E). cbv beta in E2.
    change (text +:+ "." +:+ ext) with (text +:+ String "." ext) in E2.
    change (b +:+ "." +:+ d) with (b +:+ String "." d) in E2.
    rewrite !Split_concat, (Split_no_byte "." d) in E2 by (by apply companion_no_dot).
    rewrite List.last_last in E2. rewrite <- E2.
    rewrite (final_split (Split "." ext)) by apply Split_nonempty.
    by rewrite List.app_assoc, !List.last_last. }
  assert (Hin : d ∈ Split "." ext).
  { rewrite (final_split (Split "." ext)) by apply Split_nonempty.
    apply elem_of_app. right. rewrite Hl at 1. by left. }
  unfold ext_ok in He. rewrite Forall_forall in He. by apply (He d Hin).
Qed.

Lemma starts_after_classifier classifier ext :
  starts is_digit (classifier_text classifier +:+ "." +:+ ext) = false.
Proof. unfold classifier_text. by destruct (classifier =? "")%string. Qed.

Lemma layout_parses segs mp :
  forallb (MatchString mavenSegmentPattern) segs = true -> layout segs mp ->
  (if negb (forallb (MatchString mavenSegmentPattern) segs) then None
   else if (length segs <? 3)%nat then None
   else
     let '(file, companion) := cut_companion (final segs) in
     let dirs := removelast segs in
     if (file =? MavenMetadataFile)%string then Some (metadata_path dirs companion)
     else artifact_path dirs file companion) = Some mp.
Proof.
  intros -> Hl. cbn [negb]. rewrite (proj2 (Nat.ltb_ge _ _) (layout_length _ _ Hl)).
  destruct Hl as [g a f c Hg Hs Hf|g a v f c Hg Hs Hf|g a v text cls ext base f c Hg Hv Hn He Hb Hm Hf].
  - change (g ++ [a; f]) with (g ++ [a] ++ [f]). rewrite List.app_assoc, final_snoc, removelast_snoc.
    rewrite (cut_companion_complete _ _ _ Hf (fun b d => metadata_no_companion b d)), String.eqb_refl.
    unfold metadata_path. rewrite final_snoc, length_app. simpl length.
    replace (3 <=? length g + 1)%nat with (2 <=? length g)%nat
      by (destruct (Nat.leb_spec 2 (length g)), (Nat.leb_spec 3 (length g + 1)); lia).
    rewrite andb_comm, Hs. by rewrite final_snoc, removelast_snoc.
  - change (g ++ [a; v; f]) with (g ++ [a] ++ [v] ++ [f]).
    rewrite !List.app_assoc, final_snoc, removelast_snoc.
    rewrite (cut_companion_complete _ _ _ Hf (fun b d => metadata_no_companion b d)), String.eqb_refl.
    unfold metadata_path. rewrite final_snoc, !length_app, Hs. simpl length.
    rewrite (proj2 (Nat.leb_le _ _)) by (destruct g; [done|simpl; lia]). cbn [andb].
    by rewrite removelast_snoc, is_snapshot_nonempty, final_snoc, removelast_snoc.
  - change (g ++ [a; v; f]) with (g ++ [a] ++ [v] ++ [f]).
    rewrite !List.app_assoc, final_snoc, removelast_snoc.
    rewrite (cut_companion_complete _ _ _ Hf), (proj2 (String.eqb_neq _ _) Hm).
    + unfold artifact_path. rewrite !length_app. simpl length.
      rewrite (proj2 (Nat.ltb_ge _ _)) by (destruct g; [done|simpl; lia]).
      rewrite !final_snoc, !removelast_snoc, !final_snoc, Hb.
      rewrite <- (app_assoc a "-"), cut_prefix_app. cbv beta iota delta [mbind option_bind].
      rewrite after_version_complete by (done || apply starts_after_classifier).
      by rewrite classifier_ext_complete.
    + intros b d Hd. intros E. eapply (base_no_companion (a +:+ "-" +:+ text +:+ classifier_text cls) ext b d He Hd).
      rewrite <- E, Hb. by rewrite !app_assoc.
Qed.

(** The reader of repository paths accepts exactly the paths of the Maven
    layout, and reads each into the coordinate the layout gives it: companions,
    SNAPSHOT spellings, classifiers and extensions included. *)
Theorem ParseMavenPath_layout p mp :
  ParseMavenPath p = Some mp <->
  Forall (fun s => MatchString mavenSegmentPattern s = true) (Split "/" p) /\ layout (Split "/" p) mp.
Proof.
  assert (Hf : Forall (fun s => MatchString mavenSegmentPattern s = true) (Split "/" p)
               <-> forallb (MatchString mavenSegmentPattern) (Split "/" p) = true).
  { rewrite forallb_forall, Forall_forall. by setoid_rewrite list_elem_of_In. }
  rewrite Hf. split; [|by intros [H1 H2]; apply layout_parses].
  unfold ParseMavenPath. cbv zeta. destruct (forallb _ _) eqn:Ef; [|done]. cbn [negb].
  destruct (Nat.ltb_spec (length (Split "/" p)) 3) as [|Hl]; [done|].
  destruct (segs_split _ Hl) as (g & a & file & -> & Hg).
  change (g ++ [a; file]) with (g ++ [a] ++ [file]). rewrite List.app_assoc, final_snoc, removelast_snoc.
  destruct (cut_companion file) as [base c] eqn:Ec. apply cut_companion_sound in Ec.
  destruct (String.eqb_spec base MavenMetadataFile) as [->|Hb].
  - intros [= <-]. split; [done|]. rewrite <- List.app_assoc. by apply metadata_path_sound.
  - intros H. split; [done|]. rewrite <- List.app_assoc. by eapply artifact_path_sound.
Qed.

(** * Addresses of a version *)

Definition maven_segment (s : string) : Prop := MatchString mavenSegmentPattern s = true.

Lemma maven_segment_spec s :
  maven_segment s <->
  exists c r, s = String c r /\ maven_head c = true /\ all_bytes maven_rest r = true
              /\ (String.length r <= 127)%nat.
Proof. unfold maven_segment. rewrite MatchString_lang. apply lang_head_upto. Qed.

Lemma maven_head_rest c : maven_head c = true -> maven_rest c = true.
Proof. unfold maven_head, maven_rest. destruct (is_alnum c); [done|]. by intros ->%Ascii.eqb_eq. Qed.

Lemma maven_segment_bytes s : maven_segment s -> s <> "" /\ all_bytes maven_rest s = true.
Proof.
  intros (c & r & -> & Hc & Hr & _)%maven_segment_spec. split; [done|]. simpl.
  by rewrite maven_head_rest.
Qed.

Lemma maven_rest_no s c : maven_rest c = false -> all_bytes maven_rest s = true -> no_byte c s = true.
Proof.
  intros Hc. apply all_bytes_impl. intros x Hx. destruct (Ascii.eqb_spec x c) as [->|]; [congruence|done].
Qed.

Lemma maven_file_segment artifact version rest :
  maven_segment artifact -> all_bytes maven_rest version = true -> all_bytes maven_rest rest = true ->
  (String.length (artifact +:+ "-" +:+ version +:+ rest) <= 128)%nat ->
  maven_segment (artifact +:+ "-" +:+ version +:+ rest).
Proof.
  intros (c & r & -> & Hc & Hr & _)%maven_segment_spec Hv He Hl. apply maven_segment_spec.
  exists c, (r +:+ "-" +:+ version +:+ rest). rewrite app_cons in *. split; [done|]. split; [done|].
  rewrite !all_bytes_app, Hr, Hv, He. split; [done|]. simpl in Hl. lia.
Qed.

Lemma spells_itself version : spells version version.
Proof.
  unfold spells. destruct (is_snapshot version) eqn:E; [|done]. exists "SNAPSHOT". split; [|by left].
  unfold is_snapshot, HasSuffix in E. destruct (cut_suffix version "-SNAPSHOT") as [r|] eqn:Er; [|done].
  apply cut_suffix_Some in Er as ->. unfold TrimSuffix.
  change "-SNAPSHOT" with ("-" +:+ "SNAPSHOT"). rewrite <- app_assoc, cut_suffix_app. done.
Qed.

(** What [ValidateMavenName] accepts besides a group-wide name. *)
Lemma ValidateMavenName_coordinate name :
  ValidateMavenName name = None ->
  exists group artifact, name = group +:+ ":" +:+ artifact /\ cut_byte ":" name = Some (group, artifact)
    /\ Forall maven_segment (Split "." group)
    /\ (artifact = MavenGroupWildcard \/ maven_segment artifact).
Proof.
  unfold ValidateMavenName. destruct (cut_byte ":" name) as [[group artifact]|] eqn:E; [|done].
  destruct (has_byte _ _); [done|]. destruct (forallb _ _) eqn:Ef; [|done]. cbn [negb].
  destruct (String.eqb_spec artifact MavenGroupWildcard) as [->|Hw].
  - intros _. exists group, MavenGroupWildcard. rewrite forallb_forall in Ef.
    split; [by apply cut_byte_Some in E as [-> _]|]. split; [done|]. split; [|by left].
    apply Forall_forall. intros x Hx. apply Ef. by apply list_elem_of_In.
  - cbn [negb andb]. destruct (HasPrefix artifact "."); [done|].
    destruct (MatchString mavenSegmentPattern artifact) eqn:Ea; [|done]. intros _.
    exists group, artifact. rewrite forallb_forall in Ef.
    split; [by apply cut_byte_Some in E as [-> _]|]. split; [done|]. split; [|by right].
    apply Forall_forall. intros x Hx. apply Ef. by apply list_elem_of_In.
Qed.

Lemma Forall_Split_no_byte c d s :
  Forall (fun seg => no_byte d seg = true) (Split c s) -> c <> d -> no_byte d s = true.
Proof.
  intros H Hcd. rewrite <- (Join_Split c s). induction H as [|x l Hx Hl IH]; [done|].
  destruct l as [|y l]; [done|]. rewrite Join_cons by done.
  rewrite !no_byte_app, Hx, IH, no_byte_cons. simpl.
  destruct (Ascii.eqb_spec c d); done.
Qed.

(** The path of a file of a version reads back as that version. *)
Lemma file_path_parses group artifact version classifier ext :
  Forall maven_segment (Split "." group) -> maven_segment artifact -> maven_segment version ->
  no_byte "." classifier = true -> ext_ok ext ->
  let file := artifact +:+ "-" +:+ version +:+ classifier_text classifier +:+ "." +:+ ext in
  maven_segment file -> file <> MavenMetadataFile ->
  ParseMavenPath (ReplaceAll group "." "/" +:+ "/" +:+ artifact +:+ "/" +:+ version +:+ "/" +:+ file)
  = Some (MkMavenPath group artifact version classifier ext "" false "").
Proof.
  intros Hg Ha Hv Hn He file Hf Hm. apply ParseMavenPath_layout.
  assert (Hno : forall s, maven_segment s -> no_byte "/" s = true).
  { intros s [_ H]%maven_segment_bytes. by apply (maven_rest_no s "/"). }
  assert (Hg' : no_byte "/" group = true).
  { apply (Forall_Split_no_byte "."); [|done]. eapply Forall_impl; [exact Hg|]. apply Hno. }
  assert (E : Split "/" (ReplaceAll group "." "/" +:+ "/" +:+ artifact +:+ "/" +:+ version +:+ "/" +:+ file)
              = Split "." group ++ [artifact; version; file]).
  { rewrite !Split_sep, Split_ReplaceAll by done. 
    rewrite (Split_no_byte "/" artifact), (Split_no_byte "/" version), (Split_no_byte "/" file)
      by (by apply Hno).
    done. }
  rewrite E. split.
  - apply Forall_app. split; [done|]. by repeat constructor.
  - assert (Hj := Join_Split "." group). rewrite <- Hj at 2.
    eapply layout_file; try done; [apply Split_nonempty|apply spells_itself|by left].
Qed.

Lemma pom_parses group artifact version :
  Forall maven_segment (Split "." group) -> maven_segment artifact -> maven_segment version ->
  (String.length artifact + String.length version + 5 <= 128)%nat ->
  ParseMavenPath (ReplaceAll group "." "/" +:+ "/" +:+ artifact +:+ "/" +:+ version +:+ "/"
                  +:+ artifact +:+ "-" +:+ version +:+ ".pom")
  = Some (MkMavenPath group artifact version "" "pom" "" false "").
Proof.
  intros Hg Ha Hv Hl. change ".pom" with (classifier_text "" +:+ "." +:+ "pom").
  apply file_path_parses; try done.
  - unfold ext_ok. simpl. repeat constructor; [done|]. by intros ?%list_elem_of_In; simpl in *; intuition.
  - apply maven_file_segment; [done|by apply maven_segment_bytes|done|].
    rewrite !length_app_string. simpl. lia.
  - intros E. change (artifact +:+ "-" +:+ version +:+ classifier_text "" +:+ "." +:+ "pom")
      with (artifact +:+ "-" +:+ version +:+ ".pom") in E.
    assert (H : HasSuffix MavenMetadataFile ".pom" = true); [|done].
    unfold HasSuffix. rewrite <- E, <- (app_assoc "-"), <- app_assoc. by rewrite cut_suffix_app.
Qed.

(** A path names a file of a version. *)
Definition addresses (name version path : string) : Prop :=
  exists mp, ParseMavenPath path = Some mp /\ mp_Name mp = name /\ mp_Version mp = version.

Lemma MavenFilePath_addresses name version classifier ext p :
  MavenFilePath name version classifier ext = Some p -> addresses name version p.
Proof.
  unfold MavenFilePath. destruct (cut_byte ":" name) as [[group artifact]|]; [|done].
  destruct (_ || _); [done|]. cbv zeta. destruct (ParseMavenPath _) as [mp|] eqn:E; [|done].
  destruct (_ && _) eqn:Eb; [|done]. intros [= <-]. to_prop. by exists mp.
Qed.

Lemma module_path_exists group artifact version :
  Forall maven_segment (Split "." group) -> maven_segment artifact -> maven_segment version ->
  artifact <> MavenGroupWildcard -> group <> "" ->
  cut_byte ":" (group +:+ ":" +:+ artifact) = Some (group, artifact) ->
  (String.length artifact + String.length version + 8 <= 128)%nat ->
  is_Some (MavenFilePath (group +:+ ":" +:+ artifact) version "" "module").
Proof.
  intros Hg Ha Hv Hw Hne Hc Hl. unfold MavenFilePath. rewrite Hc.
  rewrite (proj2 (String.eqb_neq _ _) Hne), (proj2 (String.eqb_neq _ _) Hw).
  rewrite (proj2 (String.eqb_neq artifact "")) by (by apply maven_segment_bytes in Ha as [? _]).
  rewrite (proj2 (String.eqb_neq version "")) by (by apply maven_segment_bytes in Hv as [? _]).
  rewrite String.eqb_refl. cbn [orb]. cbv zeta.
  assert (Hf := file_path_parses group artifact version "" "module" Hg Ha Hv eq_refl).
  rewrite !app_assoc. change (classifier_text "" +:+ "." +:+ "module") with ("." +:+ "module") in Hf.
  rewrite Hf;
    [|unfold ext_ok; simpl; repeat constructor; [done|];
      by intros ?%list_elem_of_In; simpl in *; intuition| |].
  - rewrite !String.eqb_refl. simpl. by eexists.
  - apply maven_file_segment; [done|by apply maven_segment_bytes|done|].
    rewrite !length_app_string. simpl. lia.
  - intros E. assert (H : HasSuffix MavenMetadataFile "module" = true); [|done].
    unfold HasSuffix. rewrite <- E. rewrite <- !app_assoc. by rewrite cut_suffix_app.
Qed.

Lemma classifier_files_addressed name ve cs files :
  classifier_files name ve cs = inl files -> Forall (addresses name (ve_Version ve)) files.
Proof.
  revert files. induction cs as [|c cs IH]; intros files; simpl; [intros [= <-]; constructor|].
  unfold classifier_file. destruct (ParseMavenClassifier c) as [[cls ext]|]; [|done].
  destruct (MavenFilePath _ _ _ _) as [p|] eqn:E; [|done].
  destruct (classifier_files name ve cs) as [ps|]; [|done]. intros [= <-].
  constructor; [by eapply MavenFilePath_addresses|by apply IH].
Qed.

(** The coordinate an accepted name and version give. *)
Lemma valid_version_segments name ve group artifact :
  ValidateMavenName name = None -> ValidateMavenVersion name ve = None ->
  cut_byte ":" name = Some (group, artifact) -> artifact <> MavenGroupWildcard ->
  name = group +:+ ":" +:+ artifact /\ group <> "" /\ Forall maven_segment (Split "." group)
  /\ maven_segment artifact /\ maven_segment (ve_Version ve)
  /\ MavenArtifactPath name (ve_Version ve)
     = Some (ReplaceAll group "." "/" +:+ "/" +:+ artifact +:+ "/" +:+ ve_Version ve +:+ "/"
             +:+ artifact +:+ "-" +:+ ve_Version ve +:+ ".pom").
Proof.
  intros (g & a & -> & Hc & Hg & Ha)%ValidateMavenName_coordinate Hv Hc' Hw.
  rewrite Hc in Hc'. injection Hc' as -> ->. destruct Ha as [?|Ha]; [done|].
  unfold ValidateMavenVersion in Hv. rewrite Hc, (proj2 (String.eqb_neq _ _) Hw) in Hv.
  destruct (MavenArtifactPath _ _) as [pom|] eqn:Ep; [|done].
  destruct (MatchString mavenSegmentPattern (ve_Version ve)) eqn:Es; [|done].
  split; [done|]. split.
  - intros ->. simpl in Hg. apply Forall_cons in Hg as [Hg _]. by apply maven_segment_bytes in Hg as [? _].
  - do 3 (split; [done|]). rewrite <- Ep. unfold MavenArtifactPath in *. rewrite Hc in *.
    by destruct (_ || _).
Qed.

(** The segment pattern as a scan: what evaluates long names quickly. *)
Definition maven_segment_scan (s : string) : bool :=
  match s with
  | "" => false
  | String c r => maven_head c && all_bytes maven_rest r && (String.length r <=? 127)%nat
  end.

Lemma MatchString_scan s : MatchString mavenSegmentPattern s = maven_segment_scan s.
Proof.
  apply eq_true_iff_eq. rewrite (maven_segment_spec s). unfold maven_segment_scan. split.
  - intros (c & r & -> & -> & -> & Hl). by apply Nat.leb_le in Hl.
  - destruct s as [|c r]; [done|]. intros [[H1 H2]%andb_true_iff H3%Nat.leb_le]%andb_true_iff. eauto 10.
Qed.

Lemma forallb_scan l : forallb (MatchString mavenSegmentPattern) l = forallb maven_segment_scan l.
Proof. induction l as [|s l IH]; [done|]. cbn [forallb]. by rewrite MatchString_scan, IH. Qed.

Lemma ParseMavenPath_scan p :
  ParseMavenPath p = if negb (forallb maven_segment_scan (Split "/" p)) then None
                     else let '(file, c) := cut_companion (final (Split "/" p)) in
                          if (length (Split "/" p) <? 3)%nat then None
                          else if (file =? MavenMetadataFile)%string
                               then Some (metadata_path (removelast (Split "/" p)) c)
                               else artifact_path (removelast (Split "/" p)) file c.
Proof.
  unfold ParseMavenPath. cbv zeta. rewrite forallb_scan.
  destruct (cut_companion _). by destruct (_ <? 3)%nat.
Qed.

Lemma ValidateMavenName_scan group artifact :
  no_byte ":" group = true -> no_byte ":" artifact = true ->
  forallb maven_segment_scan (Split "." group) = true -> maven_segment_scan artifact = true ->
  ValidateMavenName (group +:+ ":" +:+ artifact) = None.
Proof.
  intros Hg Ha Hs Ht. unfold ValidateMavenName. change (":" +:+ artifact) with (String ":" artifact).
  rewrite cut_byte_app by done. unfold has_byte. fold (no_byte ":" artifact).
  rewrite Ha, forallb_scan, Hs, MatchString_scan, Ht. simpl.
  destruct (HasPrefix artifact ".") eqn:E; [|by rewrite andb_false_r].
  apply HasPrefix_spec in E as [r ->]. done.
Qed.

(** A name and versions whose file names are longer than a segment. *)
Definition long_name : string := "g:" +:+ concat_string (repeat "abcdefghij" 12).

Definition with_version (version : string) (md : gmap string string) : VersionEntry :=
  MkVersionEntry version "" "" "" "" "" "" "" "" "" "" [] [] false "" "" "" [] None false "" None
    false 0 [] ∅ "" "" false false "" "" "" md.

Definition long_version : VersionEntry := with_version "1.20260101" ∅.
Definition long_module : VersionEntry := with_version "1.0" {[ MetaMavenModule := "true" ]}.

Lemma long_name_valid : ValidateMavenName long_name = None.
Proof. apply (ValidateMavenName_scan "g" (concat_string (repeat "abcdefghij" 12))); reflexivity. Qed.

Lemma maven_files_addressed name ve group artifact files :
  ValidateMavenName name = None -> ValidateMavenVersion name ve = None ->
  cut_byte ":" name = Some (group, artifact) -> artifact <> MavenGroupWildcard ->
  (String.length artifact + String.length (ve_Version ve) + 8 <= 128)%nat ->
  MavenVersionFiles name ve = inl files ->
  Forall (addresses name (ve_Version ve)) files
  /\ exists pom, MavenArtifactPath name (ve_Version ve) = Some pom /\ pom ∈ files.
Proof.
  intros Hn Hv Hc Hw Hl.
  destruct (valid_version_segments _ _ _ _ Hn Hv Hc Hw) as (-> & Hne & Hg & Ha & Hver & Hp).
  unfold MavenVersionFiles. rewrite Hp. destruct (if _ || _ then _ else _) as [main|] eqn:Em; [|done].
  destruct (classifier_files _ _ _) as [fs|] eqn:Ef; [|done]. intros [= <-].
  split; [|eexists; split; [done|]; apply elem_of_app; right; by left].
  apply Forall_app. split; [|apply Forall_cons; split; [|apply Forall_app; split]].
  + destruct (_ || _); [injection Em as <-; constructor|].
    destruct (MavenFilePath _ _ _ _) as [p|] eqn:E; [|done]. injection Em as <-.
    apply Forall_singleton. by eapply MavenFilePath_addresses.
  + eexists. split; [by apply pom_parses; try done; lia|]. done.
  + clear Em. destruct (_ =? _)%string; [|constructor]. apply Forall_singleton.
    destruct (module_path_exists group artifact (ve_Version ve)) as [p Hm]; try done.
    rewrite Hm. by eapply MavenFilePath_addresses.
  + by eapply classifier_files_addressed.
Qed.

(** Every file a fetched version holds, its POM, its main artifact, the
    Gradle module and each classified file, is at a path the repository route
    reads back as that package at that version, when the artifactId and the
    version are short enough for the file names to be segments.  Nothing checks
    that they are: a validated version beyond the bound has a POM no request
    can name, and a recorded module whose own name is too long adds the empty
    path to the files. *)
Theorem MavenVersionFiles_addressed :
  (forall name ve group artifact files,
     ValidateMavenName name = None -> ValidateMavenVersion name ve = None ->
     cut_byte ":" name = Some (group, artifact) -> artifact <> MavenGroupWildcard ->
     (String.length artifact + String.length (ve_Version ve) + 8 <= 128)%nat ->
     MavenVersionFiles name ve = inl files ->
     Forall (addresses name (ve_Version ve)) files
     /\ exists pom, MavenArtifactPath name (ve_Version ve) = Some pom /\ pom ∈ files)
  /\ (exists name ve pom, ValidateMavenName name = None /\ ValidateMavenVersion name ve = None
      /\ MavenArtifactPath name (ve_Version ve) = Some pom /\ ParseMavenPath pom = None)
  /\ (exists name ve pom, ValidateMavenName name = None /\ ValidateMavenVersion name ve = None
      /\ MavenVersionFiles name ve = inl [pom; ""]).
Proof.
  split; [|split].
  - exact maven_files_addressed.
  - exists long_name, long_version, (default "" (MavenArtifactPath long_name (ve_Version long_version))).
    split; [exact long_name_valid|]. split; [vm_compute; reflexivity|].
    rewrite ParseMavenPath_scan. split; vm_compute; reflexivity.
  - exists long_name, long_module, (default "" (MavenArtifactPath long_name (ve_Version long_module))).
    split; [exact long_name_valid|]. split; [vm_compute; reflexivity|].
    unfold MavenVersionFiles, MavenFilePath. destruct (cut_byte ":" long_name) as [[g a]|] eqn:E.
    + injection E as <- <-. cbv zeta. rewrite !ParseMavenPath_scan. vm_compute. reflexivity.
    + done.
Qed.

Lemma MavenVersionFiles_addressed_witness :
  Forall (addresses "g:a" "1.0") ["g/a/1.0/a-1.0.jar"; "g/a/1.0/a-1.0.pom"; "g/a/1.0/a-1.0-sources.jar"].
Proof.
  refine (proj1 (proj1 MavenVersionFiles_addressed "g:a"
    (MkVersionEntry "1.0" "" "" "" "" "" "" "" "" "" "" [] ["sources"] false "" "" "" [] None false ""
       None false 0 [] ∅ "" "" false false "" "" "" {[ MetaMavenExtension := "jar" ]})
    "g" "a" _ _ _ _ _ _ _)); try (vm_compute; reflexivity); [done|]. simpl. lia.
Defined.
