(* ===== verification/RpmKeys.v ===== *)
(** The keys of the rpm tree and the names rpm uses
    (internal/manifest/rpm.go). *)

From stdpp Require Import base list strings.
From Stdlib Require Import ZArith Lia Ascii.
From S2P Require Import Prelude GoStrings Regexp Types.

Definition RpmPrefix := "rpm/".
Definition rpmRepomdFile := "repomd.xml".
Definition rpmRepodataMarker := "repodata".
Definition rpmPackagesMarker := "packages".

Definition RpmBasearches : list string := ["x86_64"; "aarch64"; "noarch"; "ppc64le"; "s390x"].

(** * Names *)

Definition rpmRepoNameRE : re :=
  (RByte is_alnum · RUpto 63 (RByte (fun c => is_alnum c || in_set "._-" c)))%re.

Definition rpmReleaseverRE : re :=
  (RPlus (RByte is_digit) · ROpt (RLit "." · RPlus (RByte is_digit)))%re.

Definition rpmNameRE : re :=
  (RByte (fun c => is_alnum c || in_set "_+" c)
   · RUpto 254 (RByte (fun c => is_alnum c || in_set "._+-" c)))%re.

Definition rpm_evr_byte (c : ascii) : bool := is_alnum c || in_set "._+~^" c.

Definition rpmEVRRE : re :=
  (ROpt (RPlus (RByte is_digit) · RLit ":") · RPlus (RByte rpm_evr_byte) · RLit "-"
   · RPlus (RByte rpm_evr_byte))%re.

Definition RpmValidRepoName (name : string) : bool := MatchString rpmRepoNameRE name.

Definition RpmValidReleasever (v : string) : bool :=
  (String.length v <=? 16)%nat && MatchString rpmReleaseverRE v.

Definition RpmValidBasearch (a : string) : bool := slice_contains RpmBasearches a.

Definition RpmValidName (name : string) : bool :=
  MatchString rpmNameRE name && negb (Contains name "..").

Definition RpmValidEVR (v : string) : bool :=
  (String.length v <=? 255)%nat && MatchString rpmEVRRE v.

Definition RpmEVR (epoch version release : string) : string :=
  let evr := version +:+ "-" +:+ release in
  let e := TrimLeft epoch "0" in
  if (e =? "")%string then evr else e +:+ ":" +:+ evr.

Definition decimal_digits := "0123456789".

Definition RpmDropEpoch (v : string) : string :=
  match cut_byte ":" v with
  | Some (e, rest) =>
      if negb (e =? "")%string && (Trim e decimal_digits =? "")%string then rest else v
  | None => v
  end.

(** * Keys *)

Definition rpmRepoKey (repo releasever basearch : string) : string :=
  RpmPrefix +:+ repo +:+ "/" +:+ releasever +:+ "/" +:+ basearch +:+ "/".

Definition RpmRepomdKey (repo releasever basearch : string) : string :=
  rpmRepoKey repo releasever basearch +:+ rpmRepomdFile.

Definition RpmMetadataKey (repo releasever basearch checksum file : string) : string :=
  rpmRepoKey repo releasever basearch +:+ rpmRepodataMarker +:+ "/" +:+ checksum +:+ "/" +:+ file.

Definition RpmPackageKey (repo releasever basearch name evr file : string) : string :=
  rpmRepoKey repo releasever basearch +:+ rpmPackagesMarker +:+ "/" +:+ name +:+ "/" +:+ evr +:+ "/" +:+ file.

Definition parseRpmKey (key : string) : string * string :=
  match Split "/" (TrimPrefix key RpmPrefix) with
  | [_; _; _; marker; name; evr; _] =>
      if (marker =? rpmPackagesMarker)%string && RpmValidName name && RpmValidEVR evr
      then (name, evr) else ("", "")
  | _ => ("", "")
  end.

(** * File names *)

Definition RpmFileIdentity (file : string) : string * string :=
  match cut_suffix file ".rpm" with
  | None => ("", "")
  | Some base =>
      match cut_last_byte "." base with
      | Some (base, _) =>
          if (base =? "")%string then ("", "")
          else
            match cut_last_byte "-" base with
            | Some (before, release) =>
                if (before =? "")%string then ("", "")
                else
                  match cut_last_byte "-" before with
                  | Some (name, version) =>
                      if (name =? "")%string || (version =? "")%string || (release =? "")%string
                      then ("", "") else (name, version +:+ "-" +:+ release)
                  | None => ("", "")
                  end
            | None => ("", "")
            end
      | None => ("", "")
      end
  end.

Example rpm_file_ex :
  map RpmFileIdentity ["nginx-1.20.1-20.el9.x86_64.rpm"; "python3.12-foo-1.0-1.el9.noarch.rpm"; "a-1.rpm"; "x.deb"]
  = [("nginx", "1.20.1-20.el9"); ("python3.12-foo", "1.0-1.el9"); ("", ""); ("", "")].
Proof. reflexivity. Qed.

(** * Lemmas *)

Lemma rpm_name_no_slash name : RpmValidName name = true -> no_byte "/" name = true /\ name <> "".
Proof.
  intros [H _]%andb_true_iff. apply MatchString_lang, lang_head_upto in H as (c & s & -> & Hc & Hs & _).
  split; [|done]. rewrite no_byte_cons. apply andb_true_iff. split.
  - destruct (Ascii.eqb_spec c "/") as [->|]; done.
  - revert Hs. apply all_bytes_impl. intros x Hx. destruct (Ascii.eqb_spec x "/") as [->|]; done.
Qed.

Lemma rpm_evr_no_slash v : RpmValidEVR v = true -> no_byte "/" v = true /\ v <> "".
Proof.
  intros [_ H]%andb_true_iff. apply MatchString_lang in H. split.
  - apply (lang_bytes (fun c => negb (Ascii.eqb c "/")) rpmEVRRE); [|done].
    simpl. repeat split; intros c Hc; destruct (Ascii.eqb_spec c "/") as [->|]; done.
  - intros ->. apply lang_seq_inv in H as (a & b & Hab & _ & Hb). symmetry in Hab.
    apply app_eq_nil in Hab as [_ ->]. by apply lang_plus_byte in Hb as (? & ? & ? & _).
Qed.

(** A package key names its package; the keys of a repository name none. *)
Lemma parseRpmKey_package repo releasever basearch name evr file :
  no_byte "/" repo = true -> no_byte "/" releasever = true -> no_byte "/" basearch = true ->
  no_byte "/" file = true -> RpmValidName name = true -> RpmValidEVR evr = true ->
  parseRpmKey (RpmPackageKey repo releasever basearch name evr file) = (name, evr).
Proof.
  intros H1 H2 H3 H4 Hn He. unfold parseRpmKey, RpmPackageKey, rpmRepoKey.
  destruct (rpm_name_no_slash _ Hn) as [Hn' _], (rpm_evr_no_slash _ He) as [He' _].
  rewrite !app_assoc, TrimPrefix_app, !Split_sep, !Split_no_byte by done.
  cbn [List.app]. by rewrite String.eqb_refl, Hn, He.
Qed.

Lemma trim_left_all p s : all_bytes p s = true -> trim_left p s = "".
Proof. induction s as [|c s IH]; [done|]. simpl. intros [-> H]%andb_true_iff. auto. Qed.

(** The filename of a package reads back, whatever the name holds. *)
Lemma RpmFileIdentity_name name version release arch :
  name <> "" -> version <> "" -> release <> "" ->
  no_byte "-" version = true -> no_byte "-" release = true -> no_byte "." arch = true ->
  RpmFileIdentity (name +:+ "-" +:+ version +:+ "-" +:+ release +:+ "." +:+ arch +:+ ".rpm")
  = (name, version +:+ "-" +:+ release).
Proof.
  intros Hn Hv Hr Dv Dr Da. unfold RpmFileIdentity.
  assert (E : name +:+ "-" +:+ version +:+ "-" +:+ release +:+ "." +:+ arch +:+ ".rpm"
              = ((name +:+ "-" +:+ version +:+ "-" +:+ release) +:+ String "." arch) +:+ ".rpm")
    by (by rewrite !app_assoc).
  rewrite E, cut_suffix_app, cut_last_byte_app by done.
  rewrite (proj2 (String.eqb_neq _ _)) by (by destruct name).
  assert (E2 : name +:+ "-" +:+ version +:+ "-" +:+ release
               = (name +:+ "-" +:+ version) +:+ String "-" release) by (by rewrite !app_assoc).
  rewrite E2, cut_last_byte_app by done.
  rewrite (proj2 (String.eqb_neq _ _)) by (by destruct name).
  change ("-" +:+ version) with (String "-" version). rewrite cut_last_byte_app by done.
  rewrite !(proj2 (String.eqb_neq _ _)) by done. done.
Qed.

Lemma digit_in_set c : is_digit c = true -> in_set decimal_digits c = true.
Proof.
  intros H. assert (E : implb (is_digit c) (in_set decimal_digits c) = true).
  { apply (byte_ind (fun c => implb (is_digit c) (in_set decimal_digits c))). vm_compute. reflexivity. }
  by rewrite H in E.
Qed.

(** Dropping the epoch undoes writing it. *)
Lemma RpmDropEpoch_RpmEVR epoch version release :
  all_bytes is_digit epoch = true -> no_byte ":" version = true -> no_byte ":" release = true ->
  RpmDropEpoch (RpmEVR epoch version release) = version +:+ "-" +:+ release.
Proof.
  intros He Hv Hr. unfold RpmEVR, RpmDropEpoch. set (e := TrimLeft epoch "0").
  assert (Hd : all_bytes is_digit e = true) by (by apply all_bytes_trim_left).
  destruct (String.eqb_spec e "") as [->|Hne].
  - rewrite (proj2 (cut_byte_None _ _)); [done|]. by rewrite !no_byte_app, Hv, Hr.
  - change (":" +:+ version +:+ "-" +:+ release) with (String ":" (version +:+ "-" +:+ release)).
    rewrite cut_byte_app.
    + unfold Trim, TrimRight, TrimLeft.
      rewrite (trim_left_all (in_set decimal_digits)); [by rewrite (proj2 (String.eqb_neq _ _) Hne)|].
      revert Hd. apply all_bytes_impl. exact digit_in_set.
    + revert Hd. apply all_bytes_impl. intros c Hc. destruct (Ascii.eqb_spec c ":") as [->|]; done.
Qed.
