(* ===== verification/OciKeys.v ===== *)
(** The keys of the oci tree and the names of the distribution spec
    (internal/manifest/oci.go).

    A repository holds any number of segments, so each key puts marker segments
    behind it; reading a key back looks for the last occurrence of a marker.
    [markers] below says what that search finds in terms of segments. *)

From stdpp Require Import base list strings.
From Stdlib Require Import ZArith Lia Ascii.
From S2P Require Import Prelude GoStrings GoURL Regexp Types.

Definition ociBlobPrefix := "oci/blobs/".
Definition ociManifestPrefix := "oci/manifests/".
Definition ociTagPrefix := "oci/tags/".

Definition ociDigestsMarker := "/_digests/sha256/".
Definition ociTypesMarker := "/_types/sha256/".
Definition ociTagsMarker := "/_tags/".
Definition ociResolvedMarker := "/_resolved/sha256/".
Definition ociResolvedBy := "/_resolvedby/sha256/".
Definition ociChartsMarker := "/_charts/sha256/".
Definition ociUnsettledMarker := "/_unsettled/".
Definition ociReferrersMarker := "/_referrers/sha256/".
Definition ociListSuffix := "/_list".

Definition OCIDigestPrefix := "sha256:".

(** * Names *)

Definition lower_digit (c : ascii) : bool := is_lower c || is_digit c.

Definition ociComponent : re :=
  (RPlus (RByte lower_digit)
   · ((RLit "." ∥ RLit "_" ∥ RLit "__" ∥ RPlus (RLit "-")) · RPlus (RByte lower_digit))⋆)%re.

Definition ociRepositoryRE : re := (ociComponent · (RLit "/" · ociComponent)⋆)%re.

Definition ociTagRE : re :=
  (RByte (fun c => is_alnum c || Ascii.eqb c "_")
   · RUpto 127 (RByte (fun c => is_alnum c || in_set "._-" c)))%re.

Definition lower_hex (c : ascii) : bool := in_range 97 102 c || is_digit c.

Definition ociDigestRE : re := (RLit "sha256:" · RTimes 64 (RByte lower_hex))%re.

Definition host_label : re :=
  (RByte lower_digit
   · ROpt ((RByte (fun c => lower_digit c || Ascii.eqb c "-"))⋆ · RByte lower_digit))%re.

Definition ociRegistryNameRE : re := (host_label · RPlus (RLit "." · host_label))%re.

Definition helmChartNameRE : re :=
  (RByte is_alnum · (RByte (fun c => is_alnum c || in_set "._-" c))⋆)%re.

Definition OCIValidRepository (repo : string) : bool :=
  (String.length repo <=? 255)%nat && MatchString ociRepositoryRE repo.

Definition OCIValidTag (tag : string) : bool := MatchString ociTagRE tag.

Definition OCIValidDigest (d : string) : bool := MatchString ociDigestRE d.

Definition OCIValidRegistryName (name : string) : bool :=
  (String.length name <=? 253)%nat && MatchString ociRegistryNameRE name.

Definition HelmOCIConfigMediaType := "application/vnd.cncf.helm.config.v1+json".

Inductive oci_error :=
| BadHelmName (name : string)
| NoRegistry (name : string)
| NotRepository (name : string)
| NoNamespace (name repo : string).

Definition ValidateHelmName (name : string) : option oci_error :=
  if MatchString helmChartNameRE name then None
  else match cut_byte "/" name with
       | Some (registry, repo) =>
           if OCIValidRegistryName registry && OCIValidRepository repo then None
           else Some (BadHelmName name)
       | None => Some (BadHelmName name)
       end.

Definition OCINamespaceWildcard := "*".

Definition ValidateOCIName (name : string) : option oci_error :=
  match cut_byte "/" name with
  | None => Some (NoRegistry name)
  | Some (registry, repo) =>
      if negb (OCIValidRegistryName registry) then Some (NoRegistry name)
      else if match cut_suffix repo ("/" +:+ OCINamespaceWildcard) with
              | Some ns => MatchString ociComponent ns
              | None => false
              end then None
      else if negb (OCIValidRepository repo) then Some (NotRepository name)
      else if (registry =? "docker.io")%string && negb (Contains repo "/") then Some (NoNamespace name repo)
      else None
  end.

Definition OCINamespaceEntry (name : string) : option string :=
  match cut_byte "/" name with
  | Some (registry, repo) =>
      match cut_byte "/" repo with
      | Some (ns, _) =>
          if (ns =? "")%string then None
          else Some (registry +:+ "/" +:+ ns +:+ "/" +:+ OCINamespaceWildcard)
      | None => None
      end
  | None => None
  end.

(** * Keys *)

Definition hex_of (digest : string) : string := TrimPrefix digest OCIDigestPrefix.

Definition OCIBlobKey (digest : string) : string := ociBlobPrefix +:+ "sha256/" +:+ hex_of digest.

Definition OCIManifestKey (registry repo digest : string) : string :=
  ociManifestPrefix +:+ registry +:+ "/" +:+ repo +:+ ociDigestsMarker +:+ hex_of digest.

Definition OCIManifestTypeKey (registry repo digest : string) : string :=
  ociManifestPrefix +:+ registry +:+ "/" +:+ repo +:+ ociTypesMarker +:+ hex_of digest.

Definition OCITagKey (registry repo tag : string) : string :=
  ociTagPrefix +:+ registry +:+ "/" +:+ repo +:+ ociTagsMarker +:+ tag.

Definition OCITagListKey (registry repo : string) : string :=
  ociTagPrefix +:+ registry +:+ "/" +:+ repo +:+ ociListSuffix.

Definition OCIReferrersKey (registry repo digest artifactType : string) : string :=
  let key := ociTagPrefix +:+ registry +:+ "/" +:+ repo +:+ ociReferrersMarker +:+ hex_of digest in
  if (artifactType =? "")%string then key else key +:+ "/" +:+ PathEscape artifactType.

Definition OCIResolvedKey (registry repo digest : string) : string :=
  ociTagPrefix +:+ registry +:+ "/" +:+ repo +:+ ociResolvedMarker +:+ hex_of digest.

Definition OCIChartsPrefix (registry repo : string) : string :=
  ociTagPrefix +:+ registry +:+ "/" +:+ repo +:+ ociChartsMarker.

Definition OCIChartBlobPrefix (registry repo blob : string) : string :=
  OCIChartsPrefix registry repo +:+ hex_of blob +:+ "/".

Definition OCIChartBlobKey (registry repo blob manifestDigest : string) : string :=
  OCIChartBlobPrefix registry repo blob +:+ hex_of manifestDigest.

Definition OCIUnsettledPrefix (registry repo : string) : string :=
  ociTagPrefix +:+ registry +:+ "/" +:+ repo +:+ ociUnsettledMarker.

Definition OCIUnsettledKey (registry repo root child : string) : string :=
  OCIUnsettledPrefix registry repo +:+ hex_of root +:+ "." +:+ hex_of child.

Definition OCIResolvedByPrefix (registry repo digest : string) : string :=
  ociTagPrefix +:+ registry +:+ "/" +:+ repo +:+ ociResolvedBy +:+ hex_of digest +:+ "/".

Definition OCIResolvedByKey (registry repo digest tag : string) : string :=
  OCIResolvedByPrefix registry repo digest +:+ tag.

Definition OCIResolvedByTag (prefix key : string) : string * bool :=
  match cut_prefix key prefix with
  | Some tag => (tag, OCIValidTag tag)
  | None => (key, false)
  end.

(** * Reading a key *)

Definition ociName (n : string) : string :=
  match cut_byte "/" n with
  | Some (registry, repo) =>
      if OCIValidRegistryName registry && OCIValidRepository repo then n else ""
  | None => ""
  end.

Definition ociNameVersion (n version : string) : string * string :=
  let n := ociName n in
  if (n =? "")%string || (version =? "")%string then ("", "") else (n, version).

Definition ociDigestVersion (hex : string) : string :=
  if OCIValidDigest (OCIDigestPrefix +:+ hex) then OCIDigestPrefix +:+ hex else "".

(** [strings.LastIndex(rest, marker) > 0]: what is around the last occurrence. *)
Definition around_last (rest marker : string) : option (string * string) :=
  match cut_last rest marker with
  | Some (a, b) => if (a =? "")%string then None else Some (a, b)
  | None => None
  end.

Definition parse_manifest_key (rest : string) : string * string :=
  match around_last rest ociDigestsMarker with
  | Some (n, hex) => ociNameVersion n (ociDigestVersion hex)
  | None =>
      match around_last rest ociTypesMarker with
      | Some (n, hex) => if (ociDigestVersion hex =? "")%string then ("", "") else (ociName n, "")
      | None => ("", "")
      end
  end.

(** The tag tree, one marker after the other. *)
Definition parse_unsettled_or_list (rest : string) : string * string :=
  let list :=
    match cut_suffix rest ociListSuffix with
    | Some n => (ociName n, "")
    | None => ("", "")
    end in
  match around_last rest ociUnsettledMarker with
  | Some (n, both) =>
      match cut_byte "." both with
      | Some (root, child) =>
          if negb (ociDigestVersion root =? "")%string && negb (ociDigestVersion child =? "")%string
          then (ociName n, "") else list
      | None => list
      end
  | None => list
  end.

Definition parse_resolved_or_charts (rest : string) : string * string :=
  match around_last rest ociResolvedMarker with
  | Some (n, hex) => ociNameVersion n (ociDigestVersion hex)
  | None =>
      match around_last rest ociChartsMarker with
      | Some (n, both) =>
          match cut_byte "/" both with
          | Some (blob, m) =>
              if negb (ociDigestVersion blob =? "")%string && negb (ociDigestVersion m =? "")%string
              then (ociName n, "") else ("", "")
          | None => ("", "")
          end
      | None => parse_unsettled_or_list rest
      end
  end.

Definition parse_tag_key (rest : string) : string * string :=
  match around_last rest ociReferrersMarker with
  | Some (n, after) =>
      let hex := match cut_byte "/" after with Some (hex, _) => hex | None => after end in
      if (ociDigestVersion hex =? "")%string then ("", "") else (ociName n, "")
  | None =>
      match around_last rest ociResolvedBy with
      | Some (n, after) =>
          match cut_byte "/" after with
          | Some (hex, tag) =>
              if OCIValidTag tag then ociNameVersion n (ociDigestVersion hex) else ("", "")
          | None => ("", "")
          end
      | None =>
          match around_last rest ociTagsMarker with
          | Some (n, tag) =>
              if OCIValidTag tag then ociNameVersion n tag else parse_resolved_or_charts rest
          | None => parse_resolved_or_charts rest
          end
      end
  end.

Definition parseOCIKey (key : string) : string * string :=
  match cut_prefix key ociBlobPrefix with
  | Some rest =>
      match cut_prefix rest "sha256/" with
      | Some hex => if OCIValidDigest (OCIDigestPrefix +:+ hex) then ("", OCIDigestPrefix +:+ hex) else ("", "")
      | None => ("", "")
      end
  | None =>
      match cut_prefix key ociManifestPrefix with
      | Some rest => parse_manifest_key rest
      | None =>
          match cut_prefix key ociTagPrefix with
          | Some rest => parse_tag_key rest
          | None => ("", "")
          end
      end
  end.

Definition example_digest : string := OCIDigestPrefix +:+ concat_string (repeat "ab" 32).

Example parse_oci_ex :
  map parseOCIKey [OCIManifestKey "docker.io" "library/nginx" example_digest;
                   OCITagKey "ghcr.io" "acme/widget" "v4.1"; OCITagListKey "quay.io" "a/b/c"]
  = [("docker.io/library/nginx", example_digest); ("ghcr.io/acme/widget", "v4.1"); ("quay.io/a/b/c", "")].
Proof. vm_compute. reflexivity. Qed.

(** * Markers

    What [around_last] finds of a marker in a key whose segments are known: the
    last place where the marker's segments stand with segments around them. *)

Section markers.
Variable ms : list string.
Hypothesis ms_ne : ms <> [].
Hypothesis ms_plain : Forall (fun seg => no_byte "/" seg = true) ms.

Definition marker : string := "/" +:+ Join ms "/" +:+ "/".

Definition stands (segs A B : list string) : Prop := segs = A ++ ms ++ B /\ A <> [] /\ B <> [].

Lemma occurrence_stands segs a b :
  segs <> [] -> Forall (fun seg => no_byte "/" seg = true) segs ->
  Join segs "/" = a +:+ marker +:+ b -> stands segs (Split "/" a) (Split "/" b).
Proof.
  intros Hne Hs E. split; [|split; apply Split_nonempty].
  rewrite <- (Split_occurrence "/" ms a b ms_ne ms_plain). change ("/" +:+ Join ms "/" +:+ "/") with marker.
  rewrite <- E. symmetry. by apply Split_Join.
Qed.

Lemma stands_occurrence segs A B :
  stands segs A B -> Join segs "/" = Join A "/" +:+ marker +:+ Join B "/".
Proof.
  intros (-> & HA & HB). rewrite Join_app by (done || by destruct ms). rewrite Join_app by done.
  unfold marker. by rewrite !app_assoc.
Qed.

Lemma around_last_none segs :
  segs <> [] -> Forall (fun seg => no_byte "/" seg = true) segs ->
  (forall A B, ~ stands segs A B) -> around_last (Join segs "/") marker = None.
Proof.
  intros Hne Hs Hno. unfold around_last. destruct (cut_last _ _) as [[a b]|] eqn:E; [|done].
  apply cut_last_Some in E. exfalso. by apply (Hno (Split "/" a) (Split "/" b)), occurrence_stands.
Qed.

Lemma around_last_some segs A B :
  Forall (fun seg => no_byte "/" seg = true) segs -> Join A "/" <> "" ->
  stands segs A B -> (forall A' B', stands segs A' B' -> A' = A) ->
  around_last (Join segs "/") marker = Some (Join A "/", Join B "/").
Proof.
  intros Hs HA Hst Hu. assert (Hne : segs <> []) by (destruct Hst as (-> & ? & _); by destruct A).
  assert (E := stands_occurrence _ _ _ Hst).
  destruct (cut_last_max _ _ _ _ E) as (a & b & Hc & _).
  assert (E2 := cut_last_Some _ _ _ _ Hc). assert (Ha : Join A "/" = a).
  { rewrite <- (Hu _ _ (occurrence_stands _ _ _ Hne Hs E2)). apply Join_Split. }
  subst a. unfold around_last. rewrite Hc, (proj2 (String.eqb_neq _ _) HA).
  rewrite E in E2. apply app_inv_l, app_inv_l in E2. by subst b.
Qed.
End markers.

(** ** Names and digests *)

(** A segment of a repository path: it opens with a letter or digit and holds
    no slash. *)
Definition plain_name (s : string) : Prop := starts lower_digit s = true /\ no_byte "/" s = true.

Lemma lang_component_inv s : lang ociComponent s -> plain_name s.
Proof.
  intros H. split.
  - apply lang_seq_inv in H as (a & b & -> & (c & r & -> & Hc & _)%lang_plus_byte & _).
    by rewrite app_cons.
  - apply (lang_bytes (fun c => negb (Ascii.eqb c "/")) ociComponent); [|done].
    simpl. repeat split; intros c Hc; destruct (Ascii.eqb_spec c "/") as [->|]; done.
Qed.

Lemma lang_slash_components s :
  lang ((RLit "/" · ociComponent)⋆)%re s -> s = "" \/ exists r, s = String "/" r /\ Forall plain_name (Split "/" r).
Proof.
  intros H. remember ((RLit "/" · ociComponent)⋆)%re as q eqn:Hq.
  induction H as [| | | | |r|r a b Ha _ _ IH|]; try discriminate Hq; injection Hq as ->; [by left|].
  right. apply lang_seq_inv in Ha as (sl & c & -> & (x & -> & Hx%Ascii.eqb_eq)%lang_byte_inv & Hc%lang_component_inv).
  subst x. destruct (IH eq_refl) as [->|(r & -> & Hr)].
  - exists c. rewrite app_nil_r, app_cons, app_nil_l. split; [done|].
    rewrite Split_no_byte by apply Hc. by constructor.
  - exists (c +:+ String "/" r). rewrite app_assoc, app_cons, app_nil_l. split; [done|].
    rewrite Split_concat, Split_no_byte by apply Hc. by constructor.
Qed.

Lemma repository_segments repo : OCIValidRepository repo = true -> Forall plain_name (Split "/" repo).
Proof.
  intros [_ H]%andb_true_iff. apply MatchString_lang, lang_seq_inv in H as (c & s & -> & Hc%lang_component_inv & Hs).
  apply lang_slash_components in Hs as [->|(r & -> & Hr)].
  - rewrite app_nil_r, Split_no_byte by apply Hc. by constructor.
  - rewrite Split_concat, Split_no_byte by apply Hc. by constructor.
Qed.

Lemma registry_plain registry : OCIValidRegistryName registry = true -> plain_name registry.
Proof.
  intros [_ H]%andb_true_iff. apply MatchString_lang in H. split.
  - apply lang_seq_inv in H as (a & b & -> & Ha & _).
    apply lang_seq_inv in Ha as (x & y & -> & (c & -> & Hc)%lang_byte_inv & _). by rewrite !app_cons.
  - apply (lang_bytes (fun c => negb (Ascii.eqb c "/")) ociRegistryNameRE); [|done].
    simpl. repeat split; intros c Hc; destruct (Ascii.eqb_spec c "/") as [->|]; done.
Qed.

Lemma digest_hex d :
  OCIValidDigest d = true ->
  d = OCIDigestPrefix +:+ hex_of d /\ all_bytes lower_hex (hex_of d) = true.
Proof.
  intros H. apply MatchString_lang, lang_seq_inv in H as (p & h & -> & Hp & [Hh _]%lang_times_byte).
  assert (E : p = OCIDigestPrefix).
  { simpl in Hp. repeat (apply lang_seq_inv in Hp as (?x & ?y & -> & (?c & -> & ->%Ascii.eqb_eq)%lang_byte_inv & Hp)).
    by apply lang_byte_inv in Hp as (? & -> & ->%Ascii.eqb_eq). }
  subst p. unfold hex_of. by rewrite TrimPrefix_app.
Qed.

Lemma hex_no c s : lower_hex c = false -> all_bytes lower_hex s = true -> no_byte c s = true.
Proof. apply all_bytes_no_byte. Qed.

Lemma ociDigestVersion_hex d : OCIValidDigest d = true -> ociDigestVersion (hex_of d) = d /\ d <> "".
Proof.
  intros H. destruct (digest_hex d H) as [E _]. unfold ociDigestVersion. rewrite <- E, H.
  split; [done|]. intros ->. done.
Qed.

Lemma tag_plain tag : OCIValidTag tag = true -> no_byte "/" tag = true /\ tag <> "".
Proof.
  intros H. apply MatchString_lang, lang_head_upto in H as (c & s & -> & Hc & Hs & _).
  split; [|done]. rewrite no_byte_cons. apply andb_true_iff. split.
  - destruct (Ascii.eqb_spec c "/") as [->|]; done.
  - revert Hs. apply all_bytes_no_byte. done.
Qed.

Lemma starts_nonempty p s : starts p s = true -> s <> "".
Proof. by destruct s. Qed.

(** * Round trips *)

Section roundtrip.
Variables registry repo : string.
Hypothesis registry_ok : OCIValidRegistryName registry = true.
Hypothesis repo_ok : OCIValidRepository repo = true.

Definition image : string := registry +:+ "/" +:+ repo.

Definition image_segs : list string := registry :: Split "/" repo.

Lemma image_segs_plain : Forall plain_name image_segs.
Proof. constructor; [by apply registry_plain|by apply repository_segments]. Qed.

Lemma image_segs_no_slash : Forall (fun s => no_byte "/" s = true) image_segs.
Proof. eapply Forall_impl; [exact image_segs_plain|]. by intros s [_ ?]. Qed.

Lemma Join_image : Join image_segs "/" = image.
Proof. unfold image_segs. rewrite Join_cons by apply Split_nonempty. by rewrite Join_Split. Qed.

Lemma image_nonempty : Join image_segs "/" <> "".
Proof.
  rewrite Join_image. unfold image. destruct (registry_plain _ registry_ok) as [H _].
  by destruct registry.
Qed.

Lemma ociName_image : ociName image = image.
Proof.
  unfold ociName, image. change ("/" +:+ repo) with (String "/" repo).
  rewrite cut_byte_app by (by apply registry_plain). by rewrite registry_ok, repo_ok.
Qed.

Lemma ociNameVersion_image v : v <> "" -> ociNameVersion image v = (image, v).
Proof.
  intros Hv. unfold ociNameVersion. rewrite ociName_image, (proj2 (String.eqb_neq v "") Hv).
  rewrite <- Join_image, (proj2 (String.eqb_neq _ _) image_nonempty). done.
Qed.

(** A marker opens with "_", so it cannot stand inside the image's own path. *)
Lemma stands_after_image m ms T A B :
  stands (String "_" m :: ms) (image_segs ++ T) A B ->
  exists A', A = image_segs ++ A' /\ T = A' ++ (String "_" m :: ms) ++ B /\ B <> [].
Proof.
  intros (E & HA & HB). assert (Hp := image_segs_plain). revert E Hp. clear HA.
  generalize image_segs as R. intros R. revert A. induction R as [|x R IH]; intros A E Hp.
  - by exists A.
  - apply Forall_cons in Hp as [[Hx _] Hp]. destruct A as [|y A].
    + simpl in E. injection E as -> _. done.
    + simpl in E. injection E as <- E. destruct (IH A E Hp) as (A' & -> & ? & ?). by exists A'.
Qed.

Lemma key_segs T : T <> [] -> image +:+ "/" +:+ Join T "/" = Join (image_segs ++ T) "/".
Proof. intros HT. by rewrite Join_app, Join_image. Qed.

Lemma key_no_slash T :
  Forall (fun s => no_byte "/" s = true) T -> Forall (fun s => no_byte "/" s = true) (image_segs ++ T).
Proof. intros HT. apply Forall_app. split; [apply image_segs_no_slash|done]. Qed.

Section one_marker.
Variables (m : string) (ms T : list string).
Hypothesis ms_plain : Forall (fun seg => no_byte "/" seg = true) (String "_" m :: ms).
Hypothesis T_plain : Forall (fun seg => no_byte "/" seg = true) T.

Lemma marker_absent :
  (forall A B, T = A ++ (String "_" m :: ms) ++ B -> B <> [] -> False) ->
  around_last (Join (image_segs ++ T) "/") (marker (String "_" m :: ms)) = None.
Proof.
  intros Hno. apply around_last_none; [done|done|done|by apply key_no_slash|].
  intros A B (A' & -> & E & HB)%stands_after_image. by eapply Hno.
Qed.

Lemma marker_first B :
  T = (String "_" m :: ms) ++ B -> B <> [] ->
  (forall A' B', T = A' ++ (String "_" m :: ms) ++ B' -> B' <> [] -> A' = []) ->
  around_last (Join (image_segs ++ T) "/") (marker (String "_" m :: ms)) = Some (image, Join B "/").
Proof.
  intros HT HB Hu. rewrite <- Join_image. apply around_last_some; [done|done|by apply key_no_slash
    |exact image_nonempty| |].
  - rewrite HT. split; [done|]. split; [done|done].
  - intros A' B' (A2 & -> & E & HB')%stands_after_image. by rewrite (Hu A2 B' E HB'), List.app_nil_r.
Qed.
End one_marker.
End roundtrip.

(** Where the segments of a marker can stand in a short list. *)
Ltac no_stand :=
  intros ?A ?B ?E ?HB;
  repeat match goal with
  | E : _ = ?A ++ _ |- _ => is_var A; destruct A as [|? A]; simpl in E; simplify_eq; try done
  end;
  try match goal with
  | E : hex_of ?b = _, H : all_bytes lower_hex (hex_of ?b) = true |- _ => by rewrite E in H
  end.

Ltac plain_segs :=
  repeat (apply Forall_cons; split); try apply Forall_nil; try reflexivity;
  first [by apply (hex_no "/") | by apply tag_plain | apply PathEscape_no_slash | assumption].

Section tag_tree.
Variables registry repo : string.
Hypothesis registry_ok : OCIValidRegistryName registry = true.
Hypothesis repo_ok : OCIValidRepository repo = true.

#[local] Abbreviation img := (image registry repo).
#[local] Abbreviation key T := (Join (image_segs registry repo ++ T) "/").

(** Step over a marker that is not there, and stop at the one that is. *)
Ltac skip_marker m ms :=
  rewrite (marker_absent registry repo registry_ok repo_ok m ms); [|plain_segs|plain_segs|no_stand].

Ltac at_marker m ms b :=
  rewrite (marker_first registry repo registry_ok repo_ok m ms) with (B := b);
  [|plain_segs|plain_segs|done|done|no_stand].

(** The markers as segments. *)
Ltac tag_markers :=
  change ociReferrersMarker with (marker ["_referrers"; "sha256"]);
  change ociResolvedBy with (marker ["_resolvedby"; "sha256"]);
  change ociTagsMarker with (marker ["_tags"]);
  try change ociResolvedMarker with (marker ["_resolved"; "sha256"]);
  try change ociChartsMarker with (marker ["_charts"; "sha256"]);
  try change ociUnsettledMarker with (marker ["_unsettled"]).

Lemma tag_key_rest T rest :
  T <> [] -> rest = registry +:+ "/" +:+ repo +:+ "/" +:+ Join T "/" ->
  parseOCIKey (ociTagPrefix +:+ rest) = parse_tag_key (key T).
Proof.
  intros HT ->. unfold parseOCIKey.
  change (cut_prefix (ociTagPrefix +:+ ?r) ociBlobPrefix) with (@None string).
  change (cut_prefix (ociTagPrefix +:+ ?r) ociManifestPrefix) with (@None string). cbv iota.
  rewrite cut_prefix_app, <- key_segs by done. unfold image. by rewrite !app_assoc.
Qed.

Lemma manifest_key_rest T rest :
  T <> [] -> rest = registry +:+ "/" +:+ repo +:+ "/" +:+ Join T "/" ->
  parseOCIKey (ociManifestPrefix +:+ rest) = parse_manifest_key (key T).
Proof.
  intros HT ->. unfold parseOCIKey.
  change (cut_prefix (ociManifestPrefix +:+ ?r) ociBlobPrefix) with (@None string). cbv iota.
  rewrite cut_prefix_app, <- key_segs by done. unfold image. by rewrite !app_assoc.
Qed.

Lemma parse_digests d :
  OCIValidDigest d = true -> parseOCIKey (OCIManifestKey registry repo d) = (img, d).
Proof.
  intros Hd. destruct (ociDigestVersion_hex d Hd) as [Ev Hne], (digest_hex d Hd) as [_ Hh].
  unfold OCIManifestKey. rewrite (manifest_key_rest ["_digests"; "sha256"; hex_of d]) by done.
  unfold parse_manifest_key. change ociDigestsMarker with (marker ["_digests"; "sha256"]).
  at_marker "digests" ["sha256"] [hex_of d]. simpl Join. rewrite Ev. by apply ociNameVersion_image.
Qed.

Lemma parse_types d :
  OCIValidDigest d = true -> parseOCIKey (OCIManifestTypeKey registry repo d) = (img, "").
Proof.
  intros Hd. destruct (ociDigestVersion_hex d Hd) as [Ev Hne], (digest_hex d Hd) as [_ Hh].
  unfold OCIManifestTypeKey. rewrite (manifest_key_rest ["_types"; "sha256"; hex_of d]) by done.
  unfold parse_manifest_key. change ociDigestsMarker with (marker ["_digests"; "sha256"]).
  change ociTypesMarker with (marker ["_types"; "sha256"]). skip_marker "digests" ["sha256"].
  at_marker "types" ["sha256"] [hex_of d]. simpl Join.
  by rewrite Ev, (proj2 (String.eqb_neq _ _) Hne), ociName_image.
Qed.

Lemma parse_tag tag : OCIValidTag tag = true -> parseOCIKey (OCITagKey registry repo tag) = (img, tag).
Proof.
  intros Ht. destruct (tag_plain tag Ht) as [Hp Hne].
  unfold OCITagKey. rewrite (tag_key_rest ["_tags"; tag]) by done.
  unfold parse_tag_key. tag_markers.
  skip_marker "referrers" ["sha256"]. skip_marker "resolvedby" ["sha256"].
  at_marker "tags" (@nil string) [tag]. simpl Join. rewrite Ht. by apply ociNameVersion_image.
Qed.

Lemma parse_resolved d :
  OCIValidDigest d = true -> parseOCIKey (OCIResolvedKey registry repo d) = (img, d).
Proof.
  intros Hd. destruct (ociDigestVersion_hex d Hd) as [Ev Hne], (digest_hex d Hd) as [_ Hh].
  unfold OCIResolvedKey. rewrite (tag_key_rest ["_resolved"; "sha256"; hex_of d]) by done.
  unfold parse_tag_key, parse_resolved_or_charts. tag_markers.
  skip_marker "referrers" ["sha256"]. skip_marker "resolvedby" ["sha256"]. skip_marker "tags" (@nil string).
  at_marker "resolved" ["sha256"] [hex_of d]. simpl Join. rewrite Ev. by apply ociNameVersion_image.
Qed.

Lemma parse_resolvedby d tag :
  OCIValidDigest d = true -> OCIValidTag tag = true ->
  parseOCIKey (OCIResolvedByKey registry repo d tag) = (img, d).
Proof.
  intros Hd Ht. destruct (ociDigestVersion_hex d Hd) as [Ev Hne], (digest_hex d Hd) as [_ Hh].
  destruct (tag_plain tag Ht) as [Hp _].
  unfold OCIResolvedByKey, OCIResolvedByPrefix. rewrite !app_assoc.
  rewrite (tag_key_rest ["_resolvedby"; "sha256"; hex_of d; tag]) by done.
  unfold parse_tag_key. tag_markers. skip_marker "referrers" ["sha256"].
  at_marker "resolvedby" ["sha256"] [hex_of d; tag]. simpl Join.
  change ("/" +:+ tag) with (String "/" tag). rewrite cut_byte_app by (by apply (hex_no "/")).
  rewrite Ht, Ev. by apply ociNameVersion_image.
Qed.

Lemma parse_tag_list : parseOCIKey (OCITagListKey registry repo) = (img, "").
Proof.
  unfold OCITagListKey. rewrite (tag_key_rest ["_list"]) by done.
  unfold parse_tag_key, parse_resolved_or_charts, parse_unsettled_or_list. tag_markers.
  skip_marker "referrers" ["sha256"]. skip_marker "resolvedby" ["sha256"]. skip_marker "tags" (@nil string).
  skip_marker "resolved" ["sha256"]. skip_marker "charts" ["sha256"]. skip_marker "unsettled" (@nil string).
  rewrite <- key_segs by done. change ("/" +:+ Join ["_list"] "/") with ociListSuffix.
  by rewrite cut_suffix_app, ociName_image.
Qed.

Lemma parse_referrers d artifactType :
  OCIValidDigest d = true -> parseOCIKey (OCIReferrersKey registry repo d artifactType) = (img, "").
Proof.
  intros Hd. destruct (ociDigestVersion_hex d Hd) as [Ev Hne], (digest_hex d Hd) as [_ Hh].
  unfold OCIReferrersKey. destruct (String.eqb_spec artifactType "") as [->|Ha].
  - rewrite (tag_key_rest ["_referrers"; "sha256"; hex_of d]) by done.
    unfold parse_tag_key. tag_markers. at_marker "referrers" ["sha256"] [hex_of d]. simpl Join.
    rewrite (proj2 (cut_byte_None "/" _)) by (by apply (hex_no "/")).
    by rewrite Ev, (proj2 (String.eqb_neq _ _) Hne), ociName_image.
  - rewrite !app_assoc.
    rewrite (tag_key_rest ["_referrers"; "sha256"; hex_of d; PathEscape artifactType]) by done.
    unfold parse_tag_key. tag_markers.
    at_marker "referrers" ["sha256"] [hex_of d; PathEscape artifactType]. simpl Join.
    change ("/" +:+ ?x) with (String "/" x). rewrite cut_byte_app by (by apply (hex_no "/")).
    by rewrite Ev, (proj2 (String.eqb_neq _ _) Hne), ociName_image.
Qed.

Lemma parse_charts b d :
  OCIValidDigest b = true -> OCIValidDigest d = true ->
  parseOCIKey (OCIChartBlobKey registry repo b d) = (img, "").
Proof.
  intros Hb Hd. destruct (ociDigestVersion_hex d Hd) as [Ev Hne], (digest_hex d Hd) as [_ Hh].
  destruct (ociDigestVersion_hex b Hb) as [Evb Hneb], (digest_hex b Hb) as [_ Hhb].
  unfold OCIChartBlobKey, OCIChartBlobPrefix, OCIChartsPrefix. rewrite !app_assoc.
  rewrite (tag_key_rest ["_charts"; "sha256"; hex_of b; hex_of d]) by done.
  unfold parse_tag_key, parse_resolved_or_charts. tag_markers.
  skip_marker "referrers" ["sha256"]. skip_marker "resolvedby" ["sha256"]. skip_marker "tags" (@nil string).
  skip_marker "resolved" ["sha256"]. at_marker "charts" ["sha256"] [hex_of b; hex_of d]. simpl Join.
  change ("/" +:+ ?x) with (String "/" x). rewrite cut_byte_app by (by apply (hex_no "/")).
  by rewrite Evb, Ev, (proj2 (String.eqb_neq _ _) Hneb), (proj2 (String.eqb_neq _ _) Hne), ociName_image.
Qed.

Lemma parse_unsettled r c :
  OCIValidDigest r = true -> OCIValidDigest c = true ->
  parseOCIKey (OCIUnsettledKey registry repo r c) = (img, "").
Proof.
  intros Hr Hc. destruct (ociDigestVersion_hex r Hr) as [Evr Hner], (digest_hex r Hr) as [_ Hhr].
  destruct (ociDigestVersion_hex c Hc) as [Evc Hnec], (digest_hex c Hc) as [_ Hhc].
  unfold OCIUnsettledKey, OCIUnsettledPrefix. rewrite !app_assoc.
  assert (Hj : no_byte "/" (hex_of r +:+ "." +:+ hex_of c) = true).
  { rewrite !no_byte_app, (hex_no "/" (hex_of r)), (hex_no "/" (hex_of c)) by done. done. }
  rewrite (tag_key_rest ["_unsettled"; hex_of r +:+ "." +:+ hex_of c]) by done.
  unfold parse_tag_key, parse_resolved_or_charts, parse_unsettled_or_list. tag_markers.
  skip_marker "referrers" ["sha256"]. skip_marker "resolvedby" ["sha256"]. skip_marker "tags" (@nil string).
  skip_marker "resolved" ["sha256"]. skip_marker "charts" ["sha256"].
  at_marker "unsettled" (@nil string) [hex_of r +:+ "." +:+ hex_of c]. simpl Join.
  change ("." +:+ ?x) with (String "." x). rewrite cut_byte_app by (by apply (hex_no ".")).
  by rewrite Evr, Evc, (proj2 (String.eqb_neq _ _) Hner), (proj2 (String.eqb_neq _ _) Hnec), ociName_image.
Qed.
End tag_tree.

Lemma parse_blob d : OCIValidDigest d = true -> parseOCIKey (OCIBlobKey d) = ("", d).
Proof.
  intros Hd. destruct (digest_hex d Hd) as [E _]. unfold parseOCIKey, OCIBlobKey.
  rewrite !cut_prefix_app, <- E, Hd. done.
Qed.
