(* ===== verification/Composer.v ===== *)
(** Composer package names, references, versions and keys, the part of
    internal/manifest/keys.go that knows Packagist. *)

From stdpp Require Import base list strings.
From Stdlib Require Import ZArith Lia Ascii.
From S2P Require Import Prelude GoStrings GoURL Regexp Types.

(** ** Names *)

Definition composerMetaPrefix := "composer/p2/".
Definition composerDistPrefix := "composer/dist/".

Definition lower_alnum : re := RByte (fun c => is_lower c || is_digit c).

Definition composerVendorPattern : re :=
  (lower_alnum · (ROpt (RSet "_.-") · RPlus lower_alnum)⋆)%re.

Definition composerNamePattern : re :=
  (composerVendorPattern · RLit "/" · lower_alnum
   · (ROpt (RSet "_." ∥ RRange 1 2 (RLit "-")) · RPlus lower_alnum)⋆)%re.

Definition composerReferencePattern : re :=
  (RByte is_alnum · RUpto 127 (RByte (fun c => is_alnum c || in_set "._-" c)))%re.

Definition ComposerValidName (name : string) : bool := MatchString composerNamePattern name.

Definition ComposerValidReference (ref : string) : bool := MatchString composerReferencePattern ref.

Definition ComposerVendorWildcard := "*".

Inductive composer_error := BadComposerName (name : string).

Definition ValidateComposerName (name : string) : option composer_error :=
  if ComposerValidName name then None
  else match cut_suffix name ("/" +:+ ComposerVendorWildcard) with
       | Some vendor => if MatchString composerVendorPattern vendor then None else Some (BadComposerName name)
       | None => Some (BadComposerName name)
       end.

Definition ComposerVendorEntry (name : string) : option string :=
  match cut_byte "/" name with
  | Some (vendor, _) =>
      if (vendor =? "")%string then None else Some (vendor +:+ "/" +:+ ComposerVendorWildcard)
  | None => None
  end.

(** ** Versions *)

(** A letter in either case; the long s folds to s as well. *)
Definition RFold (c : ascii) : re :=
  let one := RByte (fun x => Ascii.eqb (lower_byte x) c) in
  if Ascii.eqb c "s" then (one ∥ RLit (utf8 [197; 191]))%re else one.

Fixpoint RFoldLit (s : string) : re :=
  match s with
  | "" => REps
  | String c "" => RFold c
  | String c s' => (RFold c · RFoldLit s')%re
  end.

(** Groups 1 to 7 as the source numbers them. *)
Definition composerTagPattern : re :=
  let d := RByte is_digit in
  let part := fun n => ROpt (RGroup n (RLit "." · RPlus d)) in
  (ROpt (RFoldLit "v") · RGroup 1 (RRange 1 5 d) · part 2%nat · part 3%nat · part 4%nat
   · ROpt (RSet "._-")
   · ROpt (RGroup 5 (RFoldLit "stable" ∥ RFoldLit "beta" ∥ RFoldLit "b" ∥ RFoldLit "rc"
                     ∥ RFoldLit "alpha" ∥ RFoldLit "a" ∥ RFoldLit "patch" ∥ RFoldLit "pl" ∥ RFoldLit "p")
           · RGroup 6 ((ROpt (RSet ".-") · RPlus d)⋆))
   · ROpt (RGroup 7 (ROpt (RSet ".-") · RFoldLit "dev")))%re.

Definition composerExpandStability (s : string) : string :=
  let l := ToLower s in
  if slice_contains ["a"; "alpha"] l then "alpha"
  else if slice_contains ["b"; "beta"] l then "beta"
  else if slice_contains ["p"; "pl"; "patch"] l then "patch"
  else if (l =? "rc")%string then "RC"
  else s.

Definition ComposerNormalizeVersion (version : string) : string :=
  let v := TrimSpace version in
  let v := match cut_byte "+" v with
           | Some (base, _) => if (base =? "")%string then v else base
           | None => v
           end in
  match full_match composerTagPattern v with
  | None => version
  | Some m =>
      let part n := if (group m n =? "")%string then ".0" else group m n in
      let out := group m 1 +:+ part 2%nat +:+ part 3%nat +:+ part 4%nat in
      if MatchString (RFoldLit "stable") (group m 5) then out
      else
        let out := if (group m 5 =? "")%string then out
                   else out +:+ "-" +:+ composerExpandStability (group m 5) +:+ TrimLeft (group m 6) ".-" in
        if (group m 7 =? "")%string then out else out +:+ "-dev"
  end.

Example composer_ex1 :
  map ComposerNormalizeVersion ["v7.1.5"; "7.1.5.0"; "2.0.0-rc1"; "1.0.0-beta.2+sha"; "dev-main"; "1.0-STABLE"; "3.1-p2-dev"]
  = ["7.1.5.0"; "7.1.5.0"; "2.0.0.0-RC1"; "1.0.0.0-beta2"; "dev-main"; "1.0.0.0"; "3.1.0.0-patch2-dev"].
Proof. vm_compute. reflexivity. Qed.

(** ** Keys *)

Definition ComposerMetadataKey (name : string) (dev : bool) : string :=
  if dev then composerMetaPrefix +:+ name +:+ "~dev.json" else composerMetaPrefix +:+ name +:+ ".json".

Definition ComposerDistKey (name version reference : string) : string :=
  composerDistPrefix +:+ name +:+ "/" +:+ PathEscape version +:+ "/" +:+ reference.

(** ** Lemmas *)

(** A package name is two segments, and holds no "~". *)
Lemma composer_name_shape name :
  ComposerValidName name = true ->
  exists vendor pkg, name = vendor +:+ "/" +:+ pkg /\ no_byte "/" vendor = true /\ no_byte "/" pkg = true
    /\ no_byte "~" name = true /\ vendor <> "" /\ pkg <> "".
Proof.
  intros H. apply MatchString_lang in H.
  assert (Ht : no_byte "~" name = true).
  { apply (lang_bytes (fun c => negb (Ascii.eqb c "~")) composerNamePattern); [|done].
    simpl. repeat split; intros c Hc; destruct (Ascii.eqb_spec c "~") as [->|]; done. }
  apply lang_seq_inv in H as (x & y & -> & H & Hy).
  apply lang_seq_inv in H as (z & h & -> & H & Hh).
  apply lang_seq_inv in H as (vendor & sl & -> & Hv & (c & -> & Hc%Ascii.eqb_eq)%lang_byte_inv). subst c.
  exists vendor, (h +:+ y). rewrite !app_assoc in *.
  assert (Hp : forall r s, lang r s -> re_bytes (fun c => negb (Ascii.eqb c "/") = true) r -> no_byte "/" s = true).
  { intros r s Hs Hr. by apply (lang_bytes (fun c => negb (Ascii.eqb c "/")) r). }
  repeat split; try done.
  - apply (Hp _ _ Hv). simpl. repeat split; intros c Hc; destruct (Ascii.eqb_spec c "/") as [->|]; done.
  - rewrite no_byte_app. rewrite (Hp _ _ Hh), (Hp _ _ Hy); [done| |];
      simpl; repeat split; intros c Hc; destruct (Ascii.eqb_spec c "/") as [->|]; done.
  - apply lang_seq_inv in Hv as (a & b & -> & (c & -> & _)%lang_byte_inv & _). by rewrite app_cons.
  - apply lang_byte_inv in Hh as (c & -> & _). by rewrite app_cons.
Qed.

Lemma composer_reference_plain ref :
  ComposerValidReference ref = true -> no_byte "/" ref = true /\ ref <> "".
Proof.
  intros H. apply MatchString_lang, lang_head_upto in H as (c & s & -> & Hc & Hs & _).
  split; [|done]. rewrite no_byte_cons. apply andb_true_iff. split.
  - destruct (Ascii.eqb_spec c "/") as [->|]; done.
  - revert Hs. apply all_bytes_no_byte. done.
Qed.
