(* ===== verification/Keys.v ===== *)
(** Object keys: the one derivation of where an artifact's bytes live, and its
    inverse (internal/manifest/keys.go).

    The escaping of module paths is golang.org/x/mod's; its two functions are
    variables here.  A time is given as the text it formats to.  The trees of
    oci, rpm, maven and composer have their constructors in [OciKeys],
    [RpmKeys], [MavenLayout] and [Composer]. *)

From stdpp Require Import base list gmap strings.
From Stdlib Require Import ZArith Lia Ascii.
From S2P Require Import Prelude GoStrings GoURL Regexp Types MavenLayout RpmKeys OciKeys Composer.

(** * Prefixes *)

Definition AptPrefix := "packages/apt/".
Definition AptPoolPrefix := AptPrefix +:+ "pool/".
Definition PypiWheelPrefix := "pypi/wheels/".
Definition HelmIndexKey := "charts/index.yaml".
Definition GitPrefix := "repos/".
Definition BinaryPrefix := "binaries/".
Definition FreeBSDPrefix := "freebsd/".
Definition DistfilesPrefix := "distfiles/".
Definition ManifestsPrefix := "manifests/".
Definition AttestationPrefix := "attestations/".
Definition gomodPrefix := "gomod/".
Definition helmPrefix := "charts/".
Definition npmPrefix := "npm/".
Definition cargoCratePrefix := "cargo/crates/".
Definition cargoIndexPrefix := "cargo/index/".
Definition mavenPrefix := "maven/".
Definition rubygemsGemPrefix := "rubygems/gems/".
Definition rubygemsSpecPrefix := "rubygems/quick/".
Definition rubygemsIndexPrefix := "rubygems/index/".

Definition StoragePrefixes : list string :=
  [AttestationPrefix; BinaryPrefix; cargoCratePrefix; cargoIndexPrefix; helmPrefix; composerDistPrefix;
   composerMetaPrefix; DistfilesPrefix; FreeBSDPrefix; gomodPrefix; ManifestsPrefix; mavenPrefix; npmPrefix;
   ociBlobPrefix; ociManifestPrefix; ociTagPrefix; AptPrefix; PypiWheelPrefix; GitPrefix; RpmPrefix;
   rubygemsGemPrefix; rubygemsIndexPrefix; rubygemsSpecPrefix].

(** The portion after the final slash. *)
Definition lastSegment (s : string) : string :=
  match cut_last_byte "/" s with Some (_, b) => b | None => s end.

(** * FreeBSD repositories *)

Definition FreeBSDMetaFile := "meta.conf".
Definition FreeBSDCatalogFile := "packagesite.pkg".
Definition FreeBSDDataFile := "data.pkg".

Definition FreeBSDCatalogFiles : list string := [FreeBSDMetaFile; FreeBSDDataFile; FreeBSDCatalogFile].

Definition FreeBSDLegacyRootFiles : list string :=
  ["digests.pkg"; "digests.txz"; "packagesite.txz"; "repo.txz"].

Definition FreeBSDFallbackRootFiles : list string :=
  ["meta.txz"; "data.tzst"; "data.txz"; "data.tbz"; "data.tgz"; "data.tar";
   "packagesite.tzst"; "packagesite.tbz"; "packagesite.tgz"; "packagesite.tar"].

(** [strings.EqualFold] against a name of ASCII bytes.  Two runes outside ASCII
    fold to an ASCII letter: the Kelvin sign to k, the long s to s. *)
Definition EqualFoldASCII (s name : string) : bool :=
  EqualFold (ReplaceAll (ReplaceAll s (utf8 [226; 132; 170]) "k") (utf8 [197; 191]) "s") name.

Definition FreeBSDReservedRoot (repoPath : string) : option string :=
  let first := (cut_or_whole "/" repoPath).1 in
  match List.find (EqualFoldASCII first) FreeBSDCatalogFiles with
  | Some name => Some name
  | None =>
      match List.find (EqualFoldASCII first) FreeBSDLegacyRootFiles with
      | Some name => Some name
      | None => List.find (EqualFoldASCII repoPath) FreeBSDFallbackRootFiles
      end
  end.

Definition FreeBSDRepoPrefix (abi repo : string) : string :=
  FreeBSDPrefix +:+ abi +:+ "/" +:+ repo +:+ "/".

Definition freeBSDABIPattern : re :=
  (RByte is_alnum · RUpto 63 (RByte (fun c => is_alnum c || in_set "._:-" c)))%re.

Definition freeBSDRepoPattern : re :=
  (RByte is_alnum · RUpto 63 (RByte (fun c => is_alnum c || in_set "._-" c)))%re.

Definition FreeBSDValidABI (abi : string) : bool := MatchString freeBSDABIPattern abi.
Definition FreeBSDValidRepo (repo : string) : bool := MatchString freeBSDRepoPattern repo.

Inductive path_error :=
| PathEmpty
| PathTooLong (name : string)
| PathAbsolute (name : string)
| PathBackslash (name : string)
| PathControl (name : string)
| PathEmptySegment (name : string)
| PathDotSegment (name segment : string).

Definition backslash : ascii := "092".

(** The loops over the runes and over the segments.  A control character is
    one byte. *)
Definition path_segment_error (p : string) : option path_error :=
  if negb (all_bytes (fun c => negb (is_ctl c)) p) then Some (PathControl p)
  else first_some (fun seg =>
         if (seg =? "")%string then Some (PathEmptySegment p)
         else if (seg =? ".")%string || (seg =? "..")%string then Some (PathDotSegment p seg)
         else None) (Split "/" p).

Definition FreeBSDValidRepoPath (repoPath : string) : option path_error :=
  if (repoPath =? "")%string then Some PathEmpty
  else if HasPrefix repoPath "/" then Some (PathAbsolute repoPath)
  else if has_byte backslash repoPath then Some (PathBackslash repoPath)
  else path_segment_error repoPath.

Definition FreeBSDKey (abi repo repoPath : string) : string := FreeBSDRepoPrefix abi repo +:+ repoPath.

(** * Distfiles *)

Definition DistfilesKey (name : string) : string := DistfilesPrefix +:+ name.

Definition DistfilesURLPath (name : string) : string := Join (PathEscape <$> Split "/" name) "/".

Definition DistfilesValidName (name : string) : option path_error :=
  if (name =? "")%string then Some PathEmpty
  else if (1024 <? String.length name)%nat then Some (PathTooLong name)
  else if HasPrefix name "/" then Some (PathAbsolute name)
  else if has_byte backslash name then Some (PathBackslash name)
  else path_segment_error name.

(** * One constructor per layout *)

Definition BinaryKey (name version filename : string) : string :=
  if (version =? "")%string then BinaryPrefix +:+ SafeName name +:+ "/" +:+ filename
  else BinaryPrefix +:+ SafeName name +:+ "/" +:+ version +:+ "/" +:+ filename.

Definition binaryStoredName (ve : VersionEntry) : string :=
  if negb (ve_Filename ve =? "")%string then ve_Filename ve else lastSegment (ve_URL ve).

Definition GitKey (name ref : string) (release : bool) : string :=
  let ext := if release then ".tar.gz" else ".bundle" in
  let safe := SafeName name in
  GitPrefix +:+ safe +:+ "/" +:+ safe +:+ "-" +:+ ref +:+ ext.

Definition PypiWheelKey (filename : string) : string := PypiWheelPrefix +:+ filename.

Definition AttestationExt := ".dsse.json".

Definition AttestationDir (objectKey : string) : string := AttestationPrefix +:+ objectKey +:+ "/".

(** [stamp] is the decision's time in the fixed-width UTC form. *)
Definition AttestationKey (objectKey stamp : string) : string :=
  AttestationDir objectKey +:+ stamp +:+ AttestationExt.

Definition AptKey (poolPath : string) : string := AptPrefix +:+ poolPath.

Definition HelmChartKey (name version : string) : string :=
  if (version =? "")%string then helmPrefix +:+ SafeName name +:+ ".tgz"
  else helmPrefix +:+ SafeName name +:+ "-" +:+ version +:+ ".tgz".

Definition NpmTarballKey (name version : string) : string :=
  let safe := SafeName name in npmPrefix +:+ safe +:+ "/" +:+ safe +:+ "-" +:+ version +:+ ".tgz".

Definition NpmPackumentKey (name : string) : string := npmPrefix +:+ SafeName name +:+ "/packument.json".

Definition CargoCrateKey (name version : string) : string :=
  cargoCratePrefix +:+ SafeName name +:+ "-" +:+ version +:+ ".crate".

Definition CargoIndexKey (indexPath : string) : string := cargoIndexPrefix +:+ indexPath.

Definition RubygemsGemKey (name version : string) : string :=
  rubygemsGemPrefix +:+ SafeName name +:+ "-" +:+ version +:+ ".gem".

Definition RubygemsSpecKey (file : string) : string := rubygemsSpecPrefix +:+ "Marshal.4.8/" +:+ file.

Definition RubygemsIndexKey (indexPath : string) : string := rubygemsIndexPrefix +:+ indexPath.

Definition MavenKey (repoPath : string) : string := mavenPrefix +:+ repoPath.

(** * Identities inside a file name *)

(** A RubyGems version: dotted alphanumeric segments, the first all digits. *)
Definition isGemVersion (s : string) : bool :=
  let first := (cut_or_whole "." s).1 in
  if (first =? "")%string || negb (Trim first "0123456789" =? "")%string then false
  else forallb (fun seg => negb (seg =? "")%string && all_bytes is_alnum seg) (Split "." s).

(** The split tried at one "-": a version, then nothing or a platform. *)
Definition gem_split_ok (rest : string) : bool :=
  match cut_byte "-" rest with
  | Some (ver, platform) => isGemVersion ver && starts is_letter platform
  | None => isGemVersion rest
  end.

(** The loops over the "-" of a flat file name: [before] is what precedes the
    position, and both ends of the name are left out. *)
Fixpoint first_dash (ok : string -> bool) (before s : string) : option (string * string) :=
  match s with
  | "" => None
  | String c rest =>
      if (rest =? "")%string then None
      else if negb (before =? "")%string && Ascii.eqb c "-" && ok rest then Some (before, rest)
      else first_dash ok (before +:+ String c "") rest
  end.

Definition RubygemsGemIdentity (filename : string) : string * string :=
  match cut_suffix filename ".gem" with
  | Some base => default ("", "") (first_dash gem_split_ok "" base)
  | None => ("", "")
  end.

Definition RubygemsPlatform (version : string) : string * string := cut_or_whole "-" version.

Definition opensVersion (s : string) : bool :=
  let run (s : string) :=
    let after := trim_left is_digit s in
    (negb (take_while is_digit s =? "")%string, after) in
  match s with
  | String c (String d rest) =>
      if Ascii.eqb c "v" || Ascii.eqb c "V" then
        let '(some, after) := run (String d rest) in some && starts (Ascii.eqb ".") after
      else
        let '(some, after) := run s in
        some && ((after =? "")%string || starts (Ascii.eqb ".") after)
  | _ =>
      let '(some, after) := run s in
      some && ((after =? "")%string || starts (Ascii.eqb ".") after)
  end.

Definition splitTrailingVersion (base : string) : string * string :=
  default (base, "") (first_dash opensVersion "" base).

Definition unsafeName (segment : string) : string := ReplaceAll segment "--" "/".

Definition AptDebIdentity (filename : string) : string * string :=
  match first_some (cut_suffix filename) [".deb"; ".udeb"; ".ddeb"; ".dsc"] with
  | Some trimmed =>
      match Split "_" trimmed with
      | name :: version :: _ =>
          if (name =? "")%string || (version =? "")%string then ("", "")
          else (name, ReplaceAll (ReplaceAll version "%3a" ":") "%3A" ":")
      | _ => ("", "")
      end
  | None => ("", "")
  end.

Example flat_ex :
  map splitTrailingVersion ["cert-manager-1.14.0-rc.1"; "md-5-0.10.6"; "mychart-v1.2.3"; "my-v1"; "md-5"; "foo-2.0-1.0"]
  = [("cert-manager", "1.14.0-rc.1"); ("md-5", "0.10.6"); ("mychart", "v1.2.3"); ("my-v1", ""); ("md", "5");
     ("foo", "2.0-1.0")].
Proof. reflexivity. Qed.
Example gem_ex :
  map RubygemsGemIdentity ["nokogiri-1.16.7-x86_64-linux.gem"; "md-5-1.0.gem"; "concurrent-ruby-1.3.4.gem"; "x.gem"]
  = [("nokogiri", "1.16.7-x86_64-linux"); ("md-5", "1.0"); ("concurrent-ruby", "1.3.4"); ("", "")].
Proof. reflexivity. Qed.
Example apt_ex :
  map AptDebIdentity ["nginx_1%3a1.24.0-2_amd64.deb"; "a_1.dsc"; "a.deb"; "_1_x.deb"]
  = [("nginx", "1:1.24.0-2"); ("a", "1"); ("", ""); ("", "")].
Proof. reflexivity. Qed.
Example reserved_ex :
  map FreeBSDReservedRoot ["Meta.conf"; "data.pkg/x.pkg"; "data.tzst/x"; "DATA.TZST"; "All/x.pkg"]
  = [Some "meta.conf"; Some "data.pkg"; None; Some "data.tzst"; None].
Proof. vm_compute. reflexivity. Qed.

(** * Keys and their identities *)

Definition identity := (string * string * string)%type.

(** What [strings.CutSuffix] leaves for the first extension that matches. *)
Definition cut_ext (file : string) (exts : list string) : option string :=
  first_some (cut_suffix file) exts.

Definition parse_apt_key (key : string) : identity :=
  if negb (HasPrefix key AptPoolPrefix) then (TypeApt, "", "")
  else let '(n, v) := AptDebIdentity (lastSegment key) in (TypeApt, n, v).

Definition parse_pypi_key (key : string) : identity :=
  match cut_suffix (lastSegment key) ".whl" with
  | None => (TypePypi, "", "")
  | Some base =>
      match SplitN "-" 3 base with
      | name :: version :: _ => (TypePypi, name, version)
      | _ => (TypePypi, base, "")
      end
  end.

Definition parse_git_key (rest : string) : identity :=
  match cut_byte "/" rest with
  | None => (TypeGit, "", "")
  | Some (dir, file) =>
      match cut_ext file [".bundle"; ".tar.gz"] with
      | Some base => (TypeGit, unsafeName dir, TrimPrefix base (dir +:+ "-"))
      | None => (TypeGit, unsafeName dir, "")
      end
  end.

Definition parse_binary_key (rest : string) : identity :=
  match Split "/" rest with
  | [name; _] => (TypeBinary, unsafeName name, "")
  | [name; version; _] => (TypeBinary, unsafeName name, version)
  | _ => (TypeBinary, "", "")
  end.

Definition parse_cargo_key (rest : string) : identity :=
  match cut_suffix rest ".crate" with
  | None => (TypeCargo, "", "")
  | Some base => let '(n, v) := splitTrailingVersion base in (TypeCargo, n, v)
  end.

Definition parse_maven_key (rest : string) : identity :=
  match ParseMavenPath rest with
  | None => (TypeMaven, "", "")
  | Some mp => (TypeMaven, mp_Name mp, mp_Version mp)
  end.

Definition gem_identity (filename : string) : identity :=
  let '(n, v) := RubygemsGemIdentity filename in
  if (n =? "")%string then (TypeRubygems, "", "") else (TypeRubygems, n, v).

Definition parse_gem_spec_key (key : string) : identity :=
  match cut_suffix (lastSegment key) ".gemspec.rz" with
  | None => (TypeRubygems, "", "")
  | Some base => gem_identity (base +:+ ".gem")
  end.

Definition parse_composer_meta_key (rest : string) : identity :=
  match cut_suffix rest ".json" with
  | None => (TypeComposer, "", "")
  | Some n =>
      let n := TrimSuffix n "~dev" in
      if ComposerValidName n then (TypeComposer, n, "") else (TypeComposer, "", "")
  end.

Definition parse_composer_dist_key (rest : string) : identity :=
  match Split "/" rest with
  | [vendor; pkg; version; _] =>
      let n := vendor +:+ "/" +:+ pkg in
      match PathUnescape version with
      | Some v => if negb (ComposerValidName n) || (v =? "")%string then (TypeComposer, "", "")
                  else (TypeComposer, n, v)
      | None => (TypeComposer, "", "")
      end
  | _ => (TypeComposer, "", "")
  end.

Definition parse_helm_key (key rest : string) : identity :=
  if (key =? HelmIndexKey)%string then (TypeHelm, "", "")
  else match cut_suffix rest ".tgz" with
       | None => (TypeHelm, "", "")
       | Some base => let '(n, v) := splitTrailingVersion base in (TypeHelm, n, v)
       end.

Definition parse_freebsd_key (rest : string) : identity :=
  match SplitN "/" 3 rest with
  | [abi; repo; _] =>
      if (abi =? "")%string || (repo =? "")%string then (TypeFreeBSD, "", "") else (TypeFreeBSD, repo, abi)
  | _ => (TypeFreeBSD, "", "")
  end.

Definition parse_distfiles_key (name : string) : identity :=
  match DistfilesValidName name with
  | Some _ => (TypeDistfiles, "", "")
  | None => (TypeDistfiles, name, "")
  end.

Definition parse_npm_key (rest : string) : identity :=
  match cut_byte "/" rest with
  | None => (TypeNpm, "", "")
  | Some (dir, file) =>
      match cut_suffix file ".tgz" with
      | Some base => (TypeNpm, unsafeName dir, TrimPrefix base (dir +:+ "-"))
      | None => (TypeNpm, unsafeName dir, "")
      end
  end.

Section module_paths.

(** [module.EscapePath] and [module.UnescapePath]; [None] is their error. *)
Variables EscapePath UnescapePath : string -> option string.

Definition GomodEscapedPath (module : string) : string := default module (EscapePath module).

Definition GomodFileKey (module file : string) : string :=
  gomodPrefix +:+ GomodEscapedPath module +:+ "/@v/" +:+ file.

Definition GomodSumdbKey (db rest : string) : string := gomodPrefix +:+ "sumdb/" +:+ db +:+ "/" +:+ rest.

Definition GomodKey (module version ext : string) : string := GomodFileKey module (version +:+ ext).

Definition GomodListKey (module : string) : string := GomodFileKey module "list".

Definition parse_gomod_key (rest : string) : identity :=
  match cut rest "/@v/" with
  | None => (TypeGomod, "", "")
  | Some (module, file) =>
      let module := default module (UnescapePath module) in
      match cut_ext file [".zip"; ".info"; ".mod"] with
      | Some base => (TypeGomod, module, base)
      | None => (TypeGomod, module, "")
      end
  end.

(** The switch over the prefixes, in its order. *)
Definition ParseKey (key : string) : identity :=
  if HasPrefix key AptPrefix then parse_apt_key key
  else if HasPrefix key PypiWheelPrefix then parse_pypi_key key
  else if HasPrefix key GitPrefix then parse_git_key (TrimPrefix key GitPrefix)
  else if HasPrefix key BinaryPrefix then parse_binary_key (TrimPrefix key BinaryPrefix)
  else if HasPrefix key gomodPrefix then parse_gomod_key (TrimPrefix key gomodPrefix)
  else if HasPrefix key cargoCratePrefix then parse_cargo_key (TrimPrefix key cargoCratePrefix)
  else if HasPrefix key cargoIndexPrefix then (TypeCargo, "", "")
  else if HasPrefix key mavenPrefix then parse_maven_key (TrimPrefix key mavenPrefix)
  else if HasPrefix key rubygemsGemPrefix then gem_identity (TrimPrefix key rubygemsGemPrefix)
  else if HasPrefix key rubygemsSpecPrefix then parse_gem_spec_key key
  else if HasPrefix key rubygemsIndexPrefix then (TypeRubygems, "", "")
  else if HasPrefix key composerMetaPrefix then parse_composer_meta_key (TrimPrefix key composerMetaPrefix)
  else if HasPrefix key composerDistPrefix then parse_composer_dist_key (TrimPrefix key composerDistPrefix)
  else if HasPrefix key "oci/" then let '(n, v) := parseOCIKey key in (TypeOCI, n, v)
  else if HasPrefix key RpmPrefix then let '(n, v) := parseRpmKey key in (TypeRpm, n, v)
  else if HasPrefix key helmPrefix then parse_helm_key key (TrimPrefix key helmPrefix)
  else if HasPrefix key FreeBSDPrefix then parse_freebsd_key (TrimPrefix key FreeBSDPrefix)
  else if HasPrefix key DistfilesPrefix then parse_distfiles_key (TrimPrefix key DistfilesPrefix)
  else if HasPrefix key npmPrefix then parse_npm_key (TrimPrefix key npmPrefix)
  else ("", "", "").

Inductive keys_error :=
| NilManifest
| BinaryFilename (name version : string) (err : filename_error)
| BinaryNothing (name version : string)
| GitNothing (name : string)
| ErrAptPoolPathUnknown
| MavenFiles (err : maven_error)
| ComposerNoReference (name version : string)
| OCINoDigest (name version : string)
| ErrRpmKeysListed
| FreeBSDNoABI (name : string)
| DistfilesName (name : string) (err : path_error)
| ErrPypiNoObjectKey
| UnknownType (typ : string).

Definition oci_artifact_keys (pm : PackageManifest) (ve : VersionEntry) : list string + keys_error :=
  let '(registry, repo) := cut_or_whole "/" (pm_Name pm) in
  if negb (OCIValidDigest (ve_Ref ve)) || (ociName (pm_Name pm) =? "")%string
  then inr (OCINoDigest (pm_Name pm) (ve_Version ve))
  else inl [OCIManifestKey registry repo (ve_Ref ve)].

Definition maven_artifact_keys (pm : PackageManifest) (ve : VersionEntry) : list string + keys_error :=
  match MavenVersionFiles (pm_Name pm) ve with
  | inr err => inr (MavenFiles err)
  | inl files =>
      inl ((MavenKey <$> files)
           ++ (files ≫= fun f => (fun c => MavenKey (f +:+ "." +:+ c)) <$> MavenChecksumCompanions))
  end.

Definition binary_artifact_keys (pm : PackageManifest) (ve : VersionEntry) : list string + keys_error :=
  match ValidateBinaryFilename (ve_Filename ve) with
  | Some err => inr (BinaryFilename (pm_Name pm) (ve_Version ve) err)
  | None =>
      let filename := binaryStoredName ve in
      if (filename =? "")%string then inr (BinaryNothing (pm_Name pm) (ve_Version ve))
      else inl [BinaryKey (pm_Name pm) (ve_Version ve) filename]
  end.

Definition ArtifactKeys (pm : option PackageManifest) (ve : VersionEntry) : list string + keys_error :=
  match pm with
  | None => inr NilManifest
  | Some pm =>
      let typ := pm_Type pm in
      let name := pm_Name pm in
      let version := ve_Version ve in
      if (typ =? TypeBinary)%string then binary_artifact_keys pm ve
      else if (typ =? TypeGit)%string then
        let ref := if (ve_Ref ve =? "")%string then version else ve_Ref ve in
        if (ref =? "")%string then inr (GitNothing name) else inl [GitKey name ref (IsRelease ve)]
      else if (typ =? TypeApt)%string then
        let rel := map_get (ve_Metadata ve) "_pool_path" in
        if (rel =? "")%string then inr ErrAptPoolPathUnknown else inl [AptKey rel]
      else if (typ =? TypeGomod)%string then
        inl [GomodKey name version ".zip"; GomodKey name version ".info"; GomodKey name version ".mod"]
      else if (typ =? TypeHelm)%string then inl [HelmChartKey name version]
      else if (typ =? TypeNpm)%string then inl [NpmTarballKey name version]
      else if (typ =? TypeCargo)%string then inl [CargoCrateKey name version]
      else if (typ =? TypeMaven)%string then maven_artifact_keys pm ve
      else if (typ =? TypeRubygems)%string then inl [RubygemsGemKey name version]
      else if (typ =? TypeComposer)%string then
        if (ve_Ref ve =? "")%string then inr (ComposerNoReference name version)
        else inl [ComposerDistKey name version (ve_Ref ve)]
      else if (typ =? TypeOCI)%string then oci_artifact_keys pm ve
      else if (typ =? TypeRpm)%string then inr ErrRpmKeysListed
      else if (typ =? TypeFreeBSD)%string then
        if (version =? "")%string then inr (FreeBSDNoABI name)
        else inl [FreeBSDKey version name FreeBSDCatalogFile; FreeBSDKey version name FreeBSDDataFile;
                  FreeBSDKey version name FreeBSDMetaFile]
      else if (typ =? TypeDistfiles)%string then
        match DistfilesValidName name with
        | Some err => inr (DistfilesName name err)
        | None => inl [DistfilesKey name]
        end
      else if (typ =? TypePypi)%string then inr ErrPypiNoObjectKey
      else inr (UnknownType typ)
  end.
End module_paths.
