(* ===== verification/KeysRoundtrip.v ===== *)
(** Round trips between object keys and identities: [ParseKey] inverts every
    constructor of [Keys], on the names each layout can carry. *)

From stdpp Require Import base list gmap strings.
From Stdlib Require Import ZArith Lia Ascii.
From S2P Require Import Prelude GoStrings GoURL Regexp Types MavenLayout RpmKeys OciKeys Composer Keys.

(** * Safe names *)

(** The names [unsafeName] gives back: two hyphens read as a slash, and a
    hyphen before a slash moves behind it. *)
Definition restorable (name : string) : Prop :=
  Contains name "--" = false /\ Contains name "-/" = false.

Lemma restorable_cons c s : restorable (String c s) -> restorable s.
Proof. unfold restorable. rewrite !Contains_cons, !orb_false_iff. tauto. Qed.

Lemma unsafeName_SafeName name : restorable name -> unsafeName (SafeName name) = name.
Proof.
  unfold unsafeName. induction name as [|c s IH]; [done|]. intros H.
  specialize (IH (restorable_cons _ _ H)). rewrite SafeName_cons. unfold ReplaceAll in *.
  destruct (Ascii.eqb_spec "/" c) as [<-|Hc].
  - change ("--" +:+ SafeName s) with (String "-" (String "-" (SafeName s))).
    change (String "/" (replace_go "--" "/" 0 (SafeName s)) = String "/" s). by rewrite IH.
  - rewrite app_cons, app_nil_l. cbn [replace_go].
    destruct (HasPrefix (String c (SafeName s)) "--") eqn:E; [|by rewrite IH].
    exfalso. apply HasPrefix_spec in E as [r E]. injection E as -> E.
    destruct H as [H1 H2]. rewrite Contains_cons, orb_false_iff in H1, H2.
    destruct s as [|d s]; [done|]. rewrite SafeName_cons in E.
    destruct (Ascii.eqb_spec "/" d) as [<-|Hd].
    + destruct H2 as [H2 _]. by vm_compute in H2.
    + rewrite app_cons in E. injection E as -> _. destruct H1 as [H1 _]. by vm_compute in H1.
Qed.

(** * Suffixes *)

Lemma list_ascii_app a b :
  String.list_ascii_of_string (a +:+ b) = String.list_ascii_of_string a ++ String.list_ascii_of_string b.
Proof. induction a as [|c a IH]; [done|]. rewrite app_cons. simpl. by rewrite IH. Qed.

(** Two texts that disagree at some byte counted from their ends. *)
Definition conflict (x y : string) : bool :=
  existsb (fun p => negb (Ascii.eqb p.1 p.2))
    (combine (rev (String.list_ascii_of_string x)) (rev (String.list_ascii_of_string y))).

Lemma combine_agree (l1 l2 a b : list ascii) :
  l1 ++ a = l2 ++ b -> existsb (fun p => negb (Ascii.eqb p.1 p.2)) (combine l1 l2) = false.
Proof.
  revert l2. induction l1 as [|x l1 IH]; intros [|y l2] E; try done.
  simpl in E. injection E as <- E. simpl. rewrite Ascii.eqb_refl. by apply IH.
Qed.

Lemma cut_suffix_conflict a x y : conflict x y = true -> cut_suffix (a +:+ x) y = None.
Proof.
  intros Hc. destruct (cut_suffix _ _) as [r|] eqn:E; [|done]. exfalso.
  apply cut_suffix_Some in E. apply (f_equal String.list_ascii_of_string) in E.
  rewrite !list_ascii_app in E. apply (f_equal (@rev ascii)) in E. rewrite !rev_app_distr in E.
  apply combine_agree in E. unfold conflict in Hc. congruence.
Qed.

(** The extensions a lookup tries, none of them ending in another. *)
Lemma first_ext exts base ext :
  ext ∈ exts -> (forall e, e ∈ exts -> e <> ext -> conflict ext e = true) ->
  first_some (cut_suffix (base +:+ ext)) exts = Some base.
Proof.
  induction exts as [|e exts IH]; [by intros ?%elem_of_nil|]. intros Hin Hc. cbn [first_some].
  destruct (decide (e = ext)) as [->|Hne]; [by rewrite cut_suffix_app|].
  rewrite cut_suffix_conflict by (apply Hc; [by left|done]). apply IH.
  - apply elem_of_cons in Hin as [?|?]; congruence.
  - intros e' He'. apply Hc. by right.
Qed.

Ltac decide_ext :=
  let e := fresh in let H := fresh in
  intros e H ?; apply list_elem_of_In in H; simpl in H;
  repeat (destruct H as [<-|H]; [try done; by vm_compute|]); destruct H.

Lemma cut_ext_git base (release : bool) :
  cut_ext (base +:+ (if release then ".tar.gz" else ".bundle")) [".bundle"; ".tar.gz"] = Some base.
Proof.
  apply first_ext; [destruct release; [by right; left|by left]|].
  destruct release; decide_ext.
Qed.

Lemma cut_ext_gomod base ext :
  ext ∈ [".zip"; ".info"; ".mod"] -> cut_ext (base +:+ ext) [".zip"; ".info"; ".mod"] = Some base.
Proof.
  intros Hin. apply first_ext; [done|]. apply list_elem_of_In in Hin. simpl in Hin.
  destruct Hin as [<-|[<-|[<-|[]]]]; decide_ext.
Qed.

Lemma cut_ext_apt base ext :
  ext ∈ [".deb"; ".udeb"; ".ddeb"; ".dsc"] ->
  first_some (cut_suffix (base +:+ ext)) [".deb"; ".udeb"; ".ddeb"; ".dsc"] = Some base.
Proof.
  intros Hin. apply first_ext; [done|]. apply list_elem_of_In in Hin. simpl in Hin.
  destruct Hin as [<-|[<-|[<-|[<-|[]]]]]; decide_ext.
Qed.

(** * Flat file names *)

(** The names a flat layout splits from their versions: no earlier "-" opens
    something that reads as a version. *)
Definition splits (ok : string -> bool) (name version : string) : Prop :=
  name <> "" /\ version <> "" /\ ok version = true /\
  forall a b, name = a +:+ "-" +:+ b -> a <> "" -> ok (b +:+ "-" +:+ version) = false.

Lemma first_dash_splits ok name version :
  splits ok name version -> first_dash ok "" (name +:+ "-" +:+ version) = Some (name, version).
Proof.
  intros (Hn & Hv & Hok & Hno).
  enough (H : forall s before, before +:+ s = name ->
    first_dash ok before (s +:+ "-" +:+ version) = Some (name, version)) by (by apply H).
  induction s as [|c s IH]; intros before E.
  - rewrite app_nil_r in E. subst before. rewrite app_nil_l.
    change ("-" +:+ version) with (String "-" version). cbn [first_dash].
    by rewrite (proj2 (String.eqb_neq _ _) Hv), (proj2 (String.eqb_neq _ _) Hn), Hok.
  - rewrite app_cons. cbn [first_dash]. rewrite (proj2 (String.eqb_neq _ _)) by (by destruct s).
    destruct (negb (before =? "")%string && Ascii.eqb c "-" && ok (s +:+ "-" +:+ version)) eqn:Eb.
    + exfalso. apply andb_true_iff in Eb as [Eb E3]. apply andb_true_iff in Eb as [E1 E2].
      apply Ascii.eqb_eq in E2. subst c. to_prop. rewrite (Hno before s) in E3; done.
    + apply IH. by rewrite app_assoc.
Qed.

Lemma lastSegment_app a b : no_byte "/" b = true -> lastSegment (a +:+ "/" +:+ b) = b.
Proof.
  intros Hb. unfold lastSegment. change ("/" +:+ b) with (String "/" b). by rewrite cut_last_byte_app.
Qed.

(** * Every key a constructor builds *)

Section keys.
Variables EscapePath UnescapePath : string -> option string.

(** Unescaping gives back the path that was escaped, and no escaped path holds
    the "@" that a version suffix opens with. *)
Class ModulePaths : Prop := {
  unescape_path : forall m e, EscapePath m = Some e -> UnescapePath e = Some m;
  escaped_no_at : forall m e, EscapePath m = Some e -> no_byte "@" e = true
}.

#[local] Abbreviation parse := (ParseKey UnescapePath).

Inductive key_of : string -> string -> string -> string -> Prop :=
| key_apt dir name version arch ext :
    name <> "" -> version <> "" -> no_byte "/" name = true -> no_byte "_" name = true ->
    no_byte "/" version = true -> no_byte "_" version = true -> no_byte "%" version = true ->
    no_byte "/" arch = true -> ext ∈ [".deb"; ".udeb"; ".ddeb"; ".dsc"] ->
    key_of (AptKey ("pool/" +:+ dir +:+ "/" +:+ name +:+ "_" +:+ ReplaceAll version ":" "%3a"
                    +:+ "_" +:+ arch +:+ ext)) TypeApt name version
| key_git name ref release :
    restorable name -> key_of (GitKey name ref release) TypeGit name ref
| key_binary name version filename :
    restorable name -> version <> "" -> no_byte "/" version = true -> no_byte "/" filename = true ->
    key_of (BinaryKey name version filename) TypeBinary name version
| key_binary_unversioned name filename :
    restorable name -> no_byte "/" filename = true ->
    key_of (BinaryKey name "" filename) TypeBinary name ""
| key_gomod module version ext :
    is_Some (EscapePath module) -> ext ∈ [".zip"; ".info"; ".mod"] ->
    key_of (GomodKey EscapePath module version ext) TypeGomod module version
| key_gomod_index module file :
    is_Some (EscapePath module) -> file ∈ ["list"; "@latest"] ->
    key_of (GomodFileKey EscapePath module file) TypeGomod module ""
| key_helm name version :
    no_byte "/" name = true -> splits opensVersion name version ->
    key_of (HelmChartKey name version) TypeHelm name version
| key_cargo name version :
    no_byte "/" name = true -> splits opensVersion name version ->
    key_of (CargoCrateKey name version) TypeCargo name version
| key_npm name version : restorable name -> key_of (NpmTarballKey name version) TypeNpm name version
| key_npm_packument name : restorable name -> key_of (NpmPackumentKey name) TypeNpm name ""
| key_pypi dir name version rest :
    no_byte "/" (name +:+ version +:+ rest) = true -> no_byte "-" name = true -> no_byte "-" version = true ->
    key_of (PypiWheelKey (dir +:+ "/" +:+ name +:+ "-" +:+ version +:+ "-" +:+ rest +:+ ".whl"))
      TypePypi name version
| key_maven path mp :
    ParseMavenPath path = Some mp -> key_of (MavenKey path) TypeMaven (mp_Name mp) (mp_Version mp)
| key_gem name version :
    no_byte "/" name = true -> splits gem_split_ok name version ->
    key_of (RubygemsGemKey name version) TypeRubygems name version
| key_gem_spec name version :
    no_byte "/" (name +:+ "-" +:+ version) = true -> splits gem_split_ok name version ->
    key_of (RubygemsSpecKey (name +:+ "-" +:+ version +:+ ".gemspec.rz")) TypeRubygems name version
| key_composer name version reference :
    ComposerValidName name = true -> version <> "" -> ComposerValidReference reference = true ->
    key_of (ComposerDistKey name version reference) TypeComposer name version
| key_composer_metadata name dev :
    ComposerValidName name = true -> key_of (ComposerMetadataKey name dev) TypeComposer name ""
| key_oci_blob digest : OCIValidDigest digest = true -> key_of (OCIBlobKey digest) TypeOCI "" digest
| key_oci registry repo key version :
    OCIValidRegistryName registry = true -> OCIValidRepository repo = true ->
    image_key registry repo key version -> key_of key TypeOCI (image registry repo) version
| key_rpm repo releasever basearch name evr file :
    no_byte "/" (repo +:+ releasever +:+ basearch +:+ file) = true ->
    RpmValidName name = true -> RpmValidEVR evr = true ->
    key_of (RpmPackageKey repo releasever basearch name evr file) TypeRpm name evr
| key_freebsd abi repo path :
    abi <> "" -> repo <> "" -> no_byte "/" abi = true -> no_byte "/" repo = true ->
    key_of (FreeBSDKey abi repo path) TypeFreeBSD repo abi
| key_distfiles name :
    DistfilesValidName name = None -> key_of (DistfilesKey name) TypeDistfiles name ""
with image_key : string -> string -> string -> string -> Prop :=
| key_manifest registry repo d : OCIValidDigest d = true -> image_key registry repo (OCIManifestKey registry repo d) d
| key_media_type registry repo d :
    OCIValidDigest d = true -> image_key registry repo (OCIManifestTypeKey registry repo d) ""
| key_tag registry repo tag : OCIValidTag tag = true -> image_key registry repo (OCITagKey registry repo tag) tag
| key_tag_list registry repo : image_key registry repo (OCITagListKey registry repo) ""
| key_referrers registry repo d filter :
    OCIValidDigest d = true -> image_key registry repo (OCIReferrersKey registry repo d filter) ""
| key_resolved registry repo d :
    OCIValidDigest d = true -> image_key registry repo (OCIResolvedKey registry repo d) d
| key_resolved_by registry repo d tag :
    OCIValidDigest d = true -> OCIValidTag tag = true ->
    image_key registry repo (OCIResolvedByKey registry repo d tag) d
| key_charts registry repo b d :
    OCIValidDigest b = true -> OCIValidDigest d = true -> image_key registry repo (OCIChartBlobKey registry repo b d) ""
| key_unsettled registry repo r c :
    OCIValidDigest r = true -> OCIValidDigest c = true -> image_key registry repo (OCIUnsettledKey registry repo r c) "".

(** Step over the prefixes a key does not have, and stop at its own. *)
Ltac at_prefix :=
  unfold ParseKey;
  repeat match goal with
  | |- context [HasPrefix (?p +:+ ?x) ?q] => change (HasPrefix (p +:+ x) q) with false; cbv iota
  end;
  rewrite ?HasPrefix_app, ?TrimPrefix_app; cbv iota.

Lemma parse_git name ref release : restorable name -> parse (GitKey name ref release) = (TypeGit, name, ref).
Proof.
  intros Hr. unfold GitKey. at_prefix. unfold parse_git_key.
  change ("/" +:+ ?x) with (String "/" x). rewrite cut_byte_app by apply SafeName_no_slash.
  rewrite <- !app_assoc, cut_ext_git, TrimPrefix_app, unsafeName_SafeName by done. done.
Qed.

Lemma parse_npm name version : restorable name -> parse (NpmTarballKey name version) = (TypeNpm, name, version).
Proof.
  intros Hr. unfold NpmTarballKey. at_prefix. unfold parse_npm_key.
  change ("/" +:+ ?x) with (String "/" x). rewrite cut_byte_app by apply SafeName_no_slash.
  rewrite <- !app_assoc, cut_suffix_app, TrimPrefix_app, unsafeName_SafeName by done. done.
Qed.

Lemma parse_binary name version filename :
  restorable name -> no_byte "/" version = true -> no_byte "/" filename = true ->
  parse (BinaryKey name version filename) = (TypeBinary, name, version).
Proof.
  intros Hr Hv Hf. unfold BinaryKey. destruct (String.eqb_spec version "") as [->|Hne]; at_prefix;
    unfold parse_binary_key; rewrite !Split_sep, !Split_no_byte by (done || apply SafeName_no_slash);
    cbn [List.app]; by rewrite unsafeName_SafeName.
Qed.

Lemma ReplaceAll_colon version :
  no_byte "%" version = true ->
  ReplaceAll (ReplaceAll (ReplaceAll version ":" "%3a") "%3a" ":") "%3A" ":" = version.
Proof.
  intros Hp. assert (E : ReplaceAll (ReplaceAll version ":" "%3a") "%3a" ":" = version).
  { induction version as [|c s IH]; [done|]. rewrite no_byte_cons in Hp. apply andb_true_iff in Hp as [Hc Hs].
    rewrite ReplaceAll_byte. specialize (IH Hs). unfold ReplaceAll in *.
    destruct (Ascii.eqb_spec ":" c) as [<-|Hne].
    - set (r := replace_go ":" "%3a" 0 s) in *.
      change (String ":" (replace_go "%3a" ":" 0 r) = String ":" s). by rewrite IH.
    - rewrite app_cons, app_nil_l. cbn [replace_go]. unfold HasPrefix. cbn [cut_prefix].
      destruct (Ascii.eqb_spec "%" c) as [<-|]; [done|]. by rewrite IH. }
  rewrite E. clear E. unfold ReplaceAll. induction version as [|c s IH]; [done|].
  rewrite no_byte_cons in Hp. apply andb_true_iff in Hp as [Hc Hs]. cbn [replace_go].
  unfold HasPrefix. cbn [cut_prefix]. destruct (Ascii.eqb_spec "%" c) as [<-|]; [done|]. by rewrite IH.
Qed.

Lemma ReplaceAll_colon_bytes c version :
  in_set "%3a" c = false -> no_byte c version = true -> no_byte c (ReplaceAll version ":" "%3a") = true.
Proof.
  intros Hc. induction version as [|x s IH]; [done|]. rewrite no_byte_cons. intros [Hx Hs]%andb_true_iff.
  rewrite ReplaceAll_byte, no_byte_app, IH, andb_true_r by done. destruct (Ascii.eqb ":" x).
  - unfold in_set, has_byte in Hc. apply negb_false_iff in Hc. revert Hc. simpl.
    destruct c as [[] [] [] [] [] [] [] []]; done.
  - by rewrite no_byte_cons, Hx.
Qed.

Lemma parse_apt dir name version arch ext :
  name <> "" -> version <> "" -> no_byte "/" name = true -> no_byte "_" name = true ->
  no_byte "/" version = true -> no_byte "_" version = true -> no_byte "%" version = true ->
  no_byte "/" arch = true -> ext ∈ [".deb"; ".udeb"; ".ddeb"; ".dsc"] ->
  parse (AptKey ("pool/" +:+ dir +:+ "/" +:+ name +:+ "_" +:+ ReplaceAll version ":" "%3a"
                 +:+ "_" +:+ arch +:+ ext)) = (TypeApt, name, version).
Proof.
  intros Hn Hv N1 N2 V1 V2 V3 Ha He. unfold AptKey. at_prefix. unfold parse_apt_key.
  set (v := ReplaceAll version ":" "%3a").
  set (file := name +:+ "_" +:+ v +:+ "_" +:+ arch +:+ ext).
  assert (Hex : no_byte "/" ext = true)
    by (apply list_elem_of_In in He; simpl in He; by destruct He as [<-|[<-|[<-|[<-|[]]]]]).
  assert (Hf : no_byte "/" file = true).
  { unfold file. rewrite !no_byte_app, N1, Ha, Hex. unfold v.
    by rewrite (ReplaceAll_colon_bytes "/"). }
  change (HasPrefix (AptPrefix +:+ "pool/" +:+ dir +:+ "/" +:+ file) AptPoolPrefix) with true. cbv iota.
  cbn [negb].
  assert (E : AptPrefix +:+ "pool/" +:+ dir +:+ "/" +:+ file = (AptPoolPrefix +:+ dir) +:+ "/" +:+ file)
    by (unfold AptPoolPrefix; by rewrite !app_assoc).
  rewrite E, lastSegment_app by done. unfold AptDebIdentity, file.
  assert (E2 : name +:+ "_" +:+ v +:+ "_" +:+ arch +:+ ext = (name +:+ "_" +:+ v +:+ "_" +:+ arch) +:+ ext)
    by (by rewrite !app_assoc).
  rewrite E2, cut_ext_apt, !Split_sep by done.
  rewrite (Split_no_byte "_" name), (Split_no_byte "_" v) by (done || by apply ReplaceAll_colon_bytes).
  cbn [List.app]. rewrite (proj2 (String.eqb_neq _ _) Hn). rewrite (proj2 (String.eqb_neq v "")).
  - cbn [orb]. unfold v. by rewrite ReplaceAll_colon.
  - unfold v. destruct version as [|c s]; [done|]. rewrite ReplaceAll_byte. by destruct (Ascii.eqb ":" c).
Qed.

Lemma parse_helm name version :
  no_byte "/" name = true -> splits opensVersion name version ->
  parse (HelmChartKey name version) = (TypeHelm, name, version).
Proof.
  intros Hn Hs. unfold HelmChartKey. destruct Hs as (H1 & Hv & H3).
  rewrite (proj2 (String.eqb_neq _ _) Hv), SafeName_id by done. at_prefix. unfold parse_helm_key.
  rewrite (proj2 (String.eqb_neq _ _)).
  - rewrite <- !app_assoc, cut_suffix_app, app_assoc. unfold splitTrailingVersion.
    by rewrite (first_dash_splits opensVersion).
  - intros E. apply (f_equal (fun s => cut_suffix s "yaml")) in E.
    rewrite <- !app_assoc in E. change ".tgz" with (".tgz") in E.
    rewrite (cut_suffix_conflict _ ".tgz" "yaml") in E by done. done.
Qed.

Lemma parse_cargo name version :
  no_byte "/" name = true -> splits opensVersion name version ->
  parse (CargoCrateKey name version) = (TypeCargo, name, version).
Proof.
  intros Hn Hs. unfold CargoCrateKey. rewrite SafeName_id by done. at_prefix. unfold parse_cargo_key.
  rewrite <- !app_assoc, cut_suffix_app, app_assoc. unfold splitTrailingVersion.
  by rewrite (first_dash_splits opensVersion).
Qed.

Lemma gem_identity_splits name version :
  splits gem_split_ok name version -> gem_identity ((name +:+ "-" +:+ version) +:+ ".gem") = (TypeRubygems, name, version).
Proof.
  intros Hs. unfold gem_identity, RubygemsGemIdentity. rewrite cut_suffix_app, first_dash_splits by done.
  cbn [default]. destruct Hs as [Hn _]. simpl. by rewrite (proj2 (String.eqb_neq _ _) Hn).
Qed.

Lemma parse_gem name version :
  no_byte "/" name = true -> splits gem_split_ok name version ->
  parse (RubygemsGemKey name version) = (TypeRubygems, name, version).
Proof.
  intros Hn Hs. unfold RubygemsGemKey. rewrite SafeName_id by done. at_prefix.
  rewrite <- gem_identity_splits by done. by rewrite !app_assoc.
Qed.

Lemma parse_gem_spec name version :
  no_byte "/" (name +:+ "-" +:+ version) = true -> splits gem_split_ok name version ->
  parse (RubygemsSpecKey (name +:+ "-" +:+ version +:+ ".gemspec.rz")) = (TypeRubygems, name, version).
Proof.
  intros Hn Hs. unfold RubygemsSpecKey. at_prefix. unfold parse_gem_spec_key.
  set (file := name +:+ "-" +:+ version +:+ ".gemspec.rz").
  assert (E : rubygemsSpecPrefix +:+ "Marshal.4.8/" +:+ file = "rubygems/quick/Marshal.4.8" +:+ "/" +:+ file)
    by done.
  rewrite E, lastSegment_app.
  - unfold file. rewrite <- (app_assoc "-"), <- app_assoc, cut_suffix_app. by apply gem_identity_splits.
  - unfold file. rewrite <- (app_assoc "-"), <- app_assoc, no_byte_app, Hn. done.
Qed.

Lemma cut_after_no_at e file : no_byte "@" e = true -> cut (e +:+ "/@v/" +:+ file) "/@v/" = Some (e, file).
Proof.
  induction e as [|c e IH]; intros He.
  - rewrite app_nil_l. cbn [cut]. change (cut_prefix ("/@v/" +:+ file) "/@v/") with (Some file).
    change ("/@v/" +:+ file) with (String "/" ("@v/" +:+ file)). done.
  - rewrite no_byte_cons in He. apply andb_true_iff in He as [Hc He]. rewrite app_cons. cbn [cut].
    assert (Hp : cut_prefix (String c (e +:+ "/@v/" +:+ file)) "/@v/" = None).
    { cbn [cut_prefix]. destruct (Ascii.eqb "/" c); [|done]. destruct e as [|d e]; [done|].
      rewrite app_cons. cbn [cut_prefix]. rewrite no_byte_cons in He. apply andb_true_iff in He as [Hd _].
      destruct (Ascii.eqb_spec "@" d) as [<-|]; done. }
    by rewrite Hp, IH.
Qed.

Lemma parse_gomod `{!ModulePaths} module file :
  is_Some (EscapePath module) ->
  parse (GomodFileKey EscapePath module file)
  = match cut_ext file [".zip"; ".info"; ".mod"] with
    | Some base => (TypeGomod, module, base)
    | None => (TypeGomod, module, "")
    end.
Proof.
  intros [e He]. unfold GomodFileKey, GomodEscapedPath. rewrite He. at_prefix.
  unfold parse_gomod_key. change (default module (Some e)) with e.
  rewrite cut_after_no_at by (by eapply escaped_no_at).
  by rewrite (unescape_path _ _ He).
Qed.

Lemma parse_pypi dir name version rest :
  no_byte "/" (name +:+ version +:+ rest) = true -> no_byte "-" name = true -> no_byte "-" version = true ->
  parse (PypiWheelKey (dir +:+ "/" +:+ name +:+ "-" +:+ version +:+ "-" +:+ rest +:+ ".whl"))
  = (TypePypi, name, version).
Proof.
  intros Hs Hn Hv. rewrite !no_byte_app in Hs. apply andb_true_iff in Hs as [S1 Hs].
  apply andb_true_iff in Hs as [S2 S3]. unfold PypiWheelKey. at_prefix. unfold parse_pypi_key.
  rewrite <- (app_assoc PypiWheelPrefix dir).
  rewrite lastSegment_app by (by rewrite !no_byte_app, S1, S2, S3).
  assert (E : name +:+ "-" +:+ version +:+ "-" +:+ rest +:+ ".whl"
              = (name +:+ String "-" (version +:+ String "-" rest)) +:+ ".whl")
    by (by rewrite !app_assoc, !app_cons, !app_assoc).
  rewrite E, cut_suffix_app. cbn [SplitN]. rewrite cut_byte_app by done.
  cbn [SplitN]. by rewrite cut_byte_app.
Qed.

Lemma parse_composer name version reference :
  ComposerValidName name = true -> version <> "" -> ComposerValidReference reference = true ->
  parse (ComposerDistKey name version reference) = (TypeComposer, name, version).
Proof.
  intros Hn Hv Hr. destruct (composer_name_shape name Hn) as (vendor & pkg & E & H1 & H2 & _).
  destruct (composer_reference_plain _ Hr) as [H3 _].
  unfold ComposerDistKey. at_prefix. unfold parse_composer_dist_key. rewrite E at 1.
  rewrite !app_assoc, !Split_sep, !Split_no_byte by (done || apply PathEscape_no_slash).
  cbn [List.app]. rewrite PathUnescape_PathEscape, <- E, Hn, (proj2 (String.eqb_neq _ _) Hv). done.
Qed.

Lemma parse_composer_meta name dev :
  ComposerValidName name = true -> parse (ComposerMetadataKey name dev) = (TypeComposer, name, "").
Proof.
  intros Hn. destruct (composer_name_shape name Hn) as (vendor & pkg & E & _ & _ & Ht & _).
  unfold ComposerMetadataKey. destruct dev; at_prefix; unfold parse_composer_meta_key.
  - change "~dev.json" with ("~dev" +:+ ".json"). rewrite <- app_assoc, cut_suffix_app.
    unfold TrimSuffix. by rewrite cut_suffix_app, Hn.
  - rewrite cut_suffix_app. unfold TrimSuffix. destruct (cut_suffix name "~dev") as [r|] eqn:Es; [|by rewrite Hn].
    apply cut_suffix_Some in Es as ->. rewrite no_byte_app in Ht. by rewrite andb_false_r in Ht.
Qed.

Lemma parse_freebsd abi repo path :
  abi <> "" -> repo <> "" -> no_byte "/" abi = true -> no_byte "/" repo = true ->
  parse (FreeBSDKey abi repo path) = (TypeFreeBSD, repo, abi).
Proof.
  intros Ha Hr Na Nr. unfold FreeBSDKey, FreeBSDRepoPrefix. rewrite !app_assoc. at_prefix.
  unfold parse_freebsd_key. cbn [SplitN].
  change ("/" +:+ repo +:+ "/" +:+ path) with (String "/" (repo +:+ String "/" path)).
  rewrite cut_byte_app by done. cbn [SplitN]. rewrite cut_byte_app by done.
  by rewrite (proj2 (String.eqb_neq _ _) Ha), (proj2 (String.eqb_neq _ _) Hr).
Qed.

Lemma parse_image registry repo key version :
  OCIValidRegistryName registry = true -> OCIValidRepository repo = true ->
  image_key registry repo key version -> parse key = (TypeOCI, image registry repo, version).
Proof.
  intros Hg Hr Hk. assert (E : parse key = let '(n, v) := parseOCIKey key in (TypeOCI, n, v)).
  { destruct Hk; unfold OCIReferrersKey; try destruct (_ =? _)%string; done. }
  rewrite E. clear E. destruct Hk.
  - by rewrite parse_digests.
  - by rewrite parse_types.
  - by rewrite parse_tag.
  - by rewrite parse_tag_list.
  - by rewrite parse_referrers.
  - by rewrite parse_resolved.
  - by rewrite parse_resolvedby.
  - by rewrite parse_charts.
  - by rewrite parse_unsettled.
Qed.

(** Every constructor's key reads back. *)
Lemma key_of_parses `{!ModulePaths} key typ name version :
  key_of key typ name version -> parse key = (typ, name, version).
Proof.
  destruct 1.
  - by apply parse_apt.
  - by apply parse_git.
  - by apply parse_binary.
  - by apply parse_binary.
  - unfold GomodKey. rewrite parse_gomod, cut_ext_gomod by done. done.
  - rewrite parse_gomod by done. match goal with Hf : file ∈ _ |- _ =>
      apply list_elem_of_In in Hf; by destruct Hf as [<-|[<-|[]]] end.
  - by apply parse_helm.
  - by apply parse_cargo.
  - by apply parse_npm.
  - unfold NpmPackumentKey. at_prefix. unfold parse_npm_key.
    change (SafeName name +:+ "/packument.json") with (SafeName name +:+ String "/" "packument.json").
    rewrite cut_byte_app by apply SafeName_no_slash. by rewrite unsafeName_SafeName.
  - by apply parse_pypi.
  - unfold MavenKey. at_prefix. unfold parse_maven_key.
    by match goal with Hp : ParseMavenPath _ = _ |- _ => rewrite Hp end.
  - by apply parse_gem.
  - by apply parse_gem_spec.
  - by apply parse_composer.
  - by apply parse_composer_meta.
  - change (parse (OCIBlobKey digest)) with (let '(n, v) := parseOCIKey (OCIBlobKey digest) in (TypeOCI, n, v)).
    by rewrite parse_blob.
  - by apply parse_image.
  - match goal with Hs : no_byte _ _ = true |- _ =>
      rewrite !no_byte_app, !andb_true_iff in Hs; destruct Hs as (N1 & N2 & N3 & N4) end.
    change (parse (RpmPackageKey repo releasever basearch name evr file))
      with (let '(n, v) := parseRpmKey (RpmPackageKey repo releasever basearch name evr file) in (TypeRpm, n, v)).
    by rewrite parseRpmKey_package.
  - by apply parse_freebsd.
  - unfold DistfilesKey. at_prefix. unfold parse_distfiles_key.
    by match goal with Hp : DistfilesValidName _ = _ |- _ => rewrite Hp end.
Qed.
End keys.

(** * The keys of a version *)

Section artifact_keys.
Variables EscapePath UnescapePath : string -> option string.
Context `{!ModulePaths EscapePath UnescapePath}.

#[local] Abbreviation parse := (ParseKey UnescapePath).

(** The version a key of this entry names. *)
Definition keyed_version (pm : PackageManifest) (ve : VersionEntry) : string :=
  if (pm_Type pm =? TypeGit)%string then (if (ve_Ref ve =? "")%string then ve_Version ve else ve_Ref ve)
  else if (pm_Type pm =? TypeOCI)%string then ve_Ref ve
  else if (pm_Type pm =? TypeDistfiles)%string then ""
  else ve_Version ve.

(** The names and versions a type's layout can spell without ambiguity. *)
Inductive keyable (pm : PackageManifest) (ve : VersionEntry) : Prop :=
| keyable_binary :
    pm_Type pm = TypeBinary -> restorable (pm_Name pm) -> no_byte "/" (ve_Version ve) = true ->
    no_byte "/" (binaryStoredName ve) = true -> keyable pm ve
| keyable_safe :
    pm_Type pm = TypeGit \/ pm_Type pm = TypeNpm -> restorable (pm_Name pm) -> keyable pm ve
| keyable_apt dir arch ext :
    pm_Type pm = TypeApt -> pm_Name pm <> "" -> ve_Version ve <> "" ->
    no_byte "/" (pm_Name pm) = true -> no_byte "_" (pm_Name pm) = true ->
    no_byte "/" (ve_Version ve) = true -> no_byte "_" (ve_Version ve) = true ->
    no_byte "%" (ve_Version ve) = true -> no_byte "/" arch = true ->
    ext ∈ [".deb"; ".udeb"; ".ddeb"; ".dsc"] ->
    map_get (ve_Metadata ve) "_pool_path"
      = "pool/" +:+ dir +:+ "/" +:+ pm_Name pm +:+ "_" +:+ ReplaceAll (ve_Version ve) ":" "%3a"
        +:+ "_" +:+ arch +:+ ext -> keyable pm ve
| keyable_gomod : pm_Type pm = TypeGomod -> is_Some (EscapePath (pm_Name pm)) -> keyable pm ve
| keyable_flat :
    pm_Type pm = TypeHelm \/ pm_Type pm = TypeCargo -> no_byte "/" (pm_Name pm) = true ->
    splits opensVersion (pm_Name pm) (ve_Version ve) -> keyable pm ve
| keyable_gem :
    pm_Type pm = TypeRubygems -> no_byte "/" (pm_Name pm) = true ->
    splits gem_split_ok (pm_Name pm) (ve_Version ve) -> keyable pm ve
| keyable_maven group artifact :
    pm_Type pm = TypeMaven -> ValidateMavenName (pm_Name pm) = None ->
    ValidateMavenVersion (pm_Name pm) ve = None -> cut_byte ":" (pm_Name pm) = Some (group, artifact) ->
    artifact <> MavenGroupWildcard ->
    (String.length artifact + String.length (ve_Version ve) + 8 <= 128)%nat -> keyable pm ve
| keyable_composer :
    pm_Type pm = TypeComposer -> ComposerValidName (pm_Name pm) = true -> ve_Version ve <> "" ->
    ComposerValidReference (ve_Ref ve) = true -> keyable pm ve
| keyable_whole : pm_Type pm = TypeOCI \/ pm_Type pm = TypeDistfiles -> keyable pm ve
| keyable_freebsd :
    pm_Type pm = TypeFreeBSD -> pm_Name pm <> "" -> no_byte "/" (pm_Name pm) = true ->
    no_byte "/" (ve_Version ve) = true -> keyable pm ve.

(** The identity of the entry, and the keys that carry it. *)
Definition entry_identity (pm : PackageManifest) (ve : VersionEntry) : identity :=
  (pm_Type pm, pm_Name pm, keyed_version pm ve).

Definition names_entry (pm : PackageManifest) (ve : VersionEntry) (keys : list string) : Prop :=
  exists own beside, keys = own ++ beside /\ own <> [] /\ Forall (fun k => parse k = entry_identity pm ve) own
    /\ Forall (fun k => exists f c, f ∈ own /\ c ∈ MavenChecksumCompanions /\ k = f +:+ "." +:+ c) beside
    /\ (pm_Type pm <> TypeMaven -> beside = []).

Lemma names_all pm ve keys :
  keys <> [] -> Forall (fun k => parse k = entry_identity pm ve) keys -> names_entry pm ve keys.
Proof. intros Hne H. exists keys, []. by rewrite List.app_nil_r. Qed.

(** Choose the branch of a switch over types that [H] fixes. *)
Ltac at_type H :=
  unfold ArtifactKeys; rewrite H;
  repeat match goal with
  | |- context [(?a =? ?b)%string] =>
      first [change (a =? b)%string with false | change (a =? b)%string with true]; cbv iota
  end.

Lemma ociName_valid n :
  ociName n <> "" -> exists registry repo, n = image registry repo /\ cut_or_whole "/" n = (registry, repo)
    /\ OCIValidRegistryName registry = true /\ OCIValidRepository repo = true.
Proof.
  unfold ociName, cut_or_whole. destruct (cut_byte "/" n) as [[registry repo]|] eqn:E; [|done].
  destruct (OCIValidRegistryName registry) eqn:H1; [|done].
  destruct (OCIValidRepository repo) eqn:H2; [|done]. intros _.
  apply cut_byte_Some in E as [-> _]. by exists registry, repo.
Qed.

Lemma maven_keys_named pm ve group artifact keys :
  pm_Type pm = TypeMaven -> ValidateMavenName (pm_Name pm) = None ->
  ValidateMavenVersion (pm_Name pm) ve = None -> cut_byte ":" (pm_Name pm) = Some (group, artifact) ->
  artifact <> MavenGroupWildcard -> (String.length artifact + String.length (ve_Version ve) + 8 <= 128)%nat ->
  maven_artifact_keys pm ve = inl keys -> names_entry pm ve keys.
Proof.
  intros Ht Hn Hv Hc Hw Hl. unfold maven_artifact_keys.
  destruct (MavenVersionFiles _ _) as [files|] eqn:Ef; [|done]. intros [= <-].
  destruct (maven_files_addressed _ _ _ _ _ Hn Hv Hc Hw Hl Ef) as [Ha (pom & _ & Hpom)].
  eexists _, _. split; [done|]. split; [by destruct files; [apply elem_of_nil in Hpom|]|].
  split; [|split; [|done]].
  - apply Forall_fmap. eapply Forall_impl; [exact Ha|]. intros f (mp & Hp & Hname & Hver). simpl.
    rewrite (key_of_parses EscapePath UnescapePath _ _ _ _ (key_maven EscapePath f mp Hp)).
    unfold entry_identity, keyed_version. by rewrite Ht, Hname, Hver.
  - apply Forall_forall. intros k (f & Hk & Hf)%list_elem_of_bind.
    change (k ∈ (fun c => MavenKey (f +:+ "." +:+ c)) <$> MavenChecksumCompanions) in Hk.
    apply list_elem_of_fmap in Hk as (c & -> & Hc'). exists (MavenKey f), c.
    split; [by apply list_elem_of_fmap; exists f|]. split; [done|]. unfold MavenKey. by rewrite app_assoc.
Qed.

Lemma artifact_keys_named pm ve keys :
  keyable pm ve -> ArtifactKeys EscapePath (Some pm) ve = inl keys -> names_entry pm ve keys.
Proof.
  destruct 1 as [Ht Hr Hv Hs|Ht Hr|dir arch ext Ht ? ? ? ? ? ? ? ? ? Hp|Ht He|Ht Hn Hs|Ht Hn Hs
    |group artifact Ht Hn Hv Hc Hw Hl|Ht Hn Hv Hr|Ht|Ht Hn Hnn Hvn].
  - at_type Ht. unfold binary_artifact_keys. destruct (ValidateBinaryFilename _); [done|].
    destruct (_ =? _)%string; [done|]. intros [= <-]. apply names_all; [done|]. apply Forall_singleton.
    rewrite parse_binary by done. unfold entry_identity, keyed_version. by rewrite Ht.
  - destruct Ht as [Ht|Ht]; at_type Ht.
    + cbv zeta. set (ref := if (ve_Ref ve =? "")%string then ve_Version ve else ve_Ref ve).
      destruct (ref =? "")%string; [done|]. intros [= <-]. apply names_all; [done|].
      apply Forall_singleton. rewrite parse_git by done. unfold entry_identity, keyed_version. by rewrite Ht.
    + intros [= <-]. apply names_all; [done|]. apply Forall_singleton.
      rewrite parse_npm by done. unfold entry_identity, keyed_version. by rewrite Ht.
  - at_type Ht. rewrite Hp. destruct (_ =? _)%string; [done|]. intros [= <-]. apply names_all; [done|].
    apply Forall_singleton. rewrite parse_apt by done. unfold entry_identity, keyed_version. by rewrite Ht.
  - at_type Ht. intros [= <-]. apply names_all; [done|]. unfold entry_identity, keyed_version. rewrite Ht.
    repeat apply Forall_cons_2; try apply Forall_nil_2; unfold GomodKey;
      rewrite parse_gomod, cut_ext_gomod by (done || by repeat constructor); done.
  - destruct Ht as [Ht|Ht]; at_type Ht; intros [= <-]; (apply names_all; [done|]); apply Forall_singleton;
      unfold entry_identity, keyed_version; rewrite Ht.
    + by rewrite parse_helm.
    + by rewrite parse_cargo.
  - at_type Ht. intros [= <-]. apply names_all; [done|]. apply Forall_singleton.
    unfold entry_identity, keyed_version. rewrite Ht. by rewrite parse_gem.
  - at_type Ht. intros Hk. by eapply maven_keys_named.
  - at_type Ht. destruct (_ =? _)%string; [done|]. intros [= <-]. apply names_all; [done|].
    apply Forall_singleton. unfold entry_identity, keyed_version. rewrite Ht. by rewrite parse_composer.
  - destruct Ht as [Ht|Ht]; at_type Ht.
    + unfold oci_artifact_keys. destruct (OCIValidDigest (ve_Ref ve)) eqn:Hd.
      * destruct (String.eqb_spec (ociName (pm_Name pm)) "") as [|Hne]; [by destruct (cut_or_whole _ _)|].
        destruct (ociName_valid _ Hne) as (g & r & E & Ec & Hg & Hr). rewrite Ec. intros [= <-].
        apply names_all; [done|]. apply Forall_singleton. unfold entry_identity, keyed_version. rewrite Ht, E.
        apply (parse_image EscapePath UnescapePath); [done|done|by constructor].
      * by destruct (cut_or_whole _ _).
    + destruct (DistfilesValidName (pm_Name pm)) eqn:Hd; [done|]. intros [= <-]. apply names_all; [done|].
      apply Forall_singleton. unfold entry_identity, keyed_version. rewrite Ht.
      apply (key_of_parses EscapePath UnescapePath). by constructor.
  - at_type Ht. destruct (String.eqb_spec (ve_Version ve) "") as [|Hv]; [done|]. intros [= <-].
    apply names_all; [done|]. unfold entry_identity, keyed_version. rewrite Ht.
    repeat apply Forall_cons_2; try apply Forall_nil_2; by apply parse_freebsd.
Qed.
End artifact_keys.

(** A module-path escaping for the examples: lower-case paths are themselves. *)
Definition plain_module (c : ascii) : bool := negb (is_upper c || in_set "@!" c).
Definition EscapeLower (m : string) : option string := if all_bytes plain_module m then Some m else None.

#[global] Instance EscapeLower_paths : ModulePaths EscapeLower Some.
Proof.
  split; intros m e; unfold EscapeLower; destruct (all_bytes plain_module m) eqn:E; try done; intros [= <-]; try done.
  revert E. by apply all_bytes_no_byte.
Qed.

(** C34: every key a constructor builds reads back as the type, the name and the
    version it was built from, and as nothing else such a key is built from: the
    trees are disjoint, and two packages never share an object.  That is on what
    each layout can spell: git, binary and npm names without "--" and "-/", a binary
    file of one segment, helm, cargo and gem names and versions that the last
    hyphen tells apart, module paths that escape, and for Maven the coordinates its
    path has.  Names outside share keys ([hyphens_share_a_key]). *)
Theorem ParseKey_inverts EscapePath UnescapePath `{!ModulePaths EscapePath UnescapePath} key typ name version :
  key_of EscapePath key typ name version ->
  ParseKey UnescapePath key = (typ, name, version)
  /\ forall typ' name' version', key_of EscapePath key typ' name' version' ->
       typ' = typ /\ name' = name /\ version' = version.
Proof.
  intros H%(key_of_parses EscapePath UnescapePath). split; [done|].
  intros typ' name' version' H'%(key_of_parses EscapePath UnescapePath).
  rewrite H in H'. by injection H'.
Qed.

(** A slash and two hyphens are one segment: the two packages share a key. *)
Example hyphens_share_a_key :
  GitKey "a/b" "v1" true = GitKey "a--b" "v1" true /\ NpmPackumentKey "a/b" = NpmPackumentKey "a--b".
Proof. split; vm_compute; reflexivity. Qed.

Lemma ParseKey_inverts_witness :
  ParseKey Some (GitKey "github.com/ravinald/bodega" "v1.2.0" true)
  = (TypeGit, "github.com/ravinald/bodega", "v1.2.0").
Proof.
  refine (proj1 (ParseKey_inverts EscapeLower Some _ _ _ _ (key_git _ _ _ _ _))).
  split; vm_compute; reflexivity.
Defined.

(** The keys a version is stored under are the keys that name it.  Where
    [ArtifactKeys] answers, it answers at least one key, and each reads back as
    the entry's type, name and version; for Maven the checksum files beside
    them are the only other keys.  Deleting a version and clearing its
    checksums therefore touch the same objects. *)
Theorem ArtifactKeys_identity EscapePath UnescapePath `{!ModulePaths EscapePath UnescapePath} pm ve keys :
  keyable EscapePath pm ve -> ArtifactKeys EscapePath (Some pm) ve = inl keys ->
  exists own beside, keys = own ++ beside /\ own <> []
    /\ Forall (fun k => ParseKey UnescapePath k = (pm_Type pm, pm_Name pm, keyed_version pm ve)) own
    /\ Forall (fun k => exists f c, f ∈ own /\ c ∈ MavenChecksumCompanions /\ k = f +:+ "." +:+ c) beside
    /\ (pm_Type pm <> TypeMaven -> beside = []).
Proof. exact (artifact_keys_named EscapePath UnescapePath pm ve keys). Qed.

Lemma ArtifactKeys_identity_witness :
  let pm := MkPackageManifest 1 "example.com/widget" TypeGomod "" "" "" [] [] in
  exists own beside,
    [GomodKey EscapeLower "example.com/widget" "v1.0.0" ".zip"; GomodKey EscapeLower "example.com/widget" "v1.0.0" ".info";
     GomodKey EscapeLower "example.com/widget" "v1.0.0" ".mod"] = own ++ beside /\ own <> []
    /\ Forall (fun k => ParseKey Some k = (TypeGomod, "example.com/widget", "v1.0.0")) own
    /\ Forall (fun k => exists f c, f ∈ own /\ c ∈ MavenChecksumCompanions /\ k = f +:+ "." +:+ c) beside
    /\ (pm_Type pm <> TypeMaven -> beside = []).
Proof.
  refine (ArtifactKeys_identity EscapeLower Some
    (MkPackageManifest 1 "example.com/widget" TypeGomod "" "" "" [] []) (with_version "v1.0.0" ∅) _ _ _).
  - apply keyable_gomod; [done|]. by exists "example.com/widget".
  - reflexivity.
Defined.

(** A stored filename of several segments gives a key that reads back as a
    version it does not have, or as no package at all. *)
Lemma nested_binary_key :
  ValidateBinaryFilename "linux/amd64.zip" = None
  /\ ParseKey Some (BinaryKey "tool" "" "linux/amd64.zip") = (TypeBinary, "tool", "linux")
  /\ ParseKey Some (BinaryKey "tool" "1.0" "linux/amd64.zip") = (TypeBinary, "", "").
Proof. repeat split; vm_compute; reflexivity. Qed.
