(* ===== verification/MirrorKeys.v ===== *)
(** Containment of the mirrored trees: the FreeBSD and distfiles paths that
    internal/manifest/keys.go accepts, and the keys it stores them under. *)

From stdpp Require Import base list strings.
From Stdlib Require Import ZArith Lia Ascii.
From S2P Require Import Prelude GoStrings GoURL Regexp Types Keys.

(** A path of names: no empty segment, no "." or "..", no control byte. *)
Definition plain_path (p : string) : Prop :=
  all_bytes (fun c => negb (is_ctl c)) p = true /\ Forall (fun s => plain_segment s = true) (Split "/" p).

Lemma path_segment_error_spec p : path_segment_error p = None <-> plain_path p.
Proof.
  unfold path_segment_error, plain_path. destruct (all_bytes _ p); cbn [negb]; [|split; [done|by intros []]].
  rewrite first_some_None. split.
  - intros H. split; [done|]. eapply Forall_impl; [exact H|]. intros seg. unfold plain_segment.
    destruct (seg =? "")%string; [done|]. by destruct (seg =? ".")%string, (seg =? "..")%string.
  - intros [_ H]. eapply Forall_impl; [exact H|]. intros seg. unfold plain_segment.
    destruct (seg =? "")%string; [done|]. by destruct (seg =? ".")%string, (seg =? "..")%string.
Qed.

Lemma plain_path_relative p : Forall (fun s => plain_segment s = true) (Split "/" p) -> p <> "" /\ HasPrefix p "/" = false.
Proof.
  intros H. split; [by intros ->; apply Forall_cons in H as [? _]|]. destruct (HasPrefix p "/") eqn:E; [|done].
  apply HasPrefix_spec in E as [r ->]. change ("/" +:+ r) with (String "/" r) in H.
  cbn [Split] in H. rewrite Ascii.eqb_refl in H. by apply Forall_cons in H as [? _].
Qed.

Lemma FreeBSDValidRepoPath_spec p :
  FreeBSDValidRepoPath p = None <-> has_byte backslash p = false /\ plain_path p.
Proof.
  rewrite <- path_segment_error_spec. unfold FreeBSDValidRepoPath. split.
  - destruct (p =? "")%string; [done|]. destruct (HasPrefix p "/"); [done|]. by destruct (has_byte backslash p).
  - intros [-> Hp]. pose proof (proj1 (path_segment_error_spec p) Hp) as [_ Hs].
    apply plain_path_relative in Hs as [Hne ->]. by rewrite (proj2 (String.eqb_neq p "")).
Qed.

Lemma DistfilesValidName_spec p :
  DistfilesValidName p = None <->
  (String.length p <= 1024)%nat /\ has_byte backslash p = false /\ plain_path p.
Proof.
  rewrite <- path_segment_error_spec. unfold DistfilesValidName. split.
  - destruct (p =? "")%string; [done|]. destruct (1024 <? String.length p)%nat eqn:El; [done|].
    apply Nat.ltb_ge in El. destruct (HasPrefix p "/"); [done|]. by destruct (has_byte backslash p).
  - intros (Hl & -> & Hp). pose proof (proj1 (path_segment_error_spec p) Hp) as [_ Hs].
    apply plain_path_relative in Hs as [Hne ->]. rewrite (proj2 (String.eqb_neq p "")) by done.
    by rewrite (proj2 (Nat.ltb_ge _ _)).
Qed.

(** A directory name opens with a letter or a digit and holds no slash. *)
Lemma directory_segment head rest n s :
  MatchString (RByte head · RUpto n (RByte rest))%re s = true ->
  head "."%char = false -> head "/"%char = false -> rest "/"%char = false ->
  no_byte "/" s = true /\ plain_segment s = true.
Proof.
  intros H Hd Hh Hr. apply MatchString_lang, lang_head_upto in H as (c & r & -> & Hc & Hb & _).
  assert (Hs : c <> "/"%char /\ c <> "."%char) by (split; congruence). split.
  - rewrite no_byte_cons. rewrite (proj2 (Ascii.eqb_neq c "/")) by tauto. cbn [negb andb].
    by apply (all_bytes_no_byte rest).
  - unfold plain_segment. destruct (String.eqb_spec (String c r) "."); [by simplify_eq; destruct Hs|].
    destruct (String.eqb_spec (String c r) ".."); [by simplify_eq; destruct Hs|done].
Qed.

Lemma Join_prefix_plain a segs p :
  Forall (fun s => no_byte "/" s = true /\ plain_segment s = true) (a :: segs) ->
  Forall (fun s => plain_segment s = true) (Split "/" p) ->
  Forall (fun s => plain_segment s = true) (Split "/" (Join (a :: segs) "/" +:+ "/" +:+ p)).
Proof.
  intros Hs Hp. rewrite Split_sep, Split_Join; [|done|by eapply Forall_impl; [exact Hs|by intros x []]].
  apply Forall_app. split; [by eapply Forall_impl; [exact Hs|by intros x []]|done].
Qed.

Lemma FreeBSDKey_Join abi repo path :
  FreeBSDKey abi repo path = Join ["freebsd"; abi; repo] "/" +:+ "/" +:+ path.
Proof. unfold FreeBSDKey, FreeBSDRepoPrefix. cbn [Join]. by rewrite !app_assoc. Qed.

(** Every key the FreeBSD and distfiles mirrors compose is its own cleaned
    path under the tree it is rooted in, so no accepted name reaches outside
    its repository, and two different objects never share a key. *)
Theorem mirror_keys_contained :
  (forall abi repo path,
     FreeBSDValidABI abi = true -> FreeBSDValidRepo repo = true -> FreeBSDValidRepoPath path = None ->
     path_Clean (FreeBSDKey abi repo path) = FreeBSDKey abi repo path
     /\ forall abi' repo' path',
          FreeBSDValidABI abi' = true -> FreeBSDValidRepo repo' = true ->
          FreeBSDKey abi repo path = FreeBSDKey abi' repo' path' -> (abi, repo, path) = (abi', repo', path'))
  /\ (forall name, DistfilesValidName name = None ->
        path_Clean (DistfilesKey name) = DistfilesKey name /\ HasPrefix (DistfilesKey name) DistfilesPrefix = true)
  /\ (forall path, FreeBSDValidRepoPath path = None <->
        has_byte backslash path = false /\ plain_path path).
Proof.
  split; [|split; [|exact FreeBSDValidRepoPath_spec]].
  - intros abi repo path Ha Hr [_ [_ Hp]]%FreeBSDValidRepoPath_spec.
    pose proof (directory_segment _ _ _ _ Ha eq_refl eq_refl eq_refl) as [Na Pa].
    pose proof (directory_segment _ _ _ _ Hr eq_refl eq_refl eq_refl) as [Nr Pr]. split.
    + rewrite FreeBSDKey_Join. apply plain_path_Clean, Join_prefix_plain; [|done].
      repeat (constructor; [done|]). constructor.
    + intros abi' repo' path' Ha' Hr' E.
      pose proof (directory_segment _ _ _ _ Ha' eq_refl eq_refl eq_refl) as [Na' _].
      pose proof (directory_segment _ _ _ _ Hr' eq_refl eq_refl eq_refl) as [Nr' _].
      rewrite !FreeBSDKey_Join in E. apply (f_equal (Split "/")) in E.
      rewrite !Split_sep, !Split_Join in E by (done || by repeat constructor).
      injection E as <- <- E. by rewrite <- (Join_Split "/" path), E, Join_Split.
  - intros name [_ [_ [_ Hp]]]%DistfilesValidName_spec. split; [|apply HasPrefix_app].
    unfold DistfilesKey. change DistfilesPrefix with (Join ["distfiles"] "/" +:+ "/").
    rewrite app_assoc. apply plain_path_Clean, Join_prefix_plain; [|done].
    by repeat constructor.
Qed.

Lemma mirror_keys_contained_witness :
  path_Clean "freebsd/FreeBSD:14:amd64/latest/All/Hashed/x-1~2.pkg" = "freebsd/FreeBSD:14:amd64/latest/All/Hashed/x-1~2.pkg"
  /\ path_Clean (DistfilesKey "gnome/x#1.tar.xz") = DistfilesKey "gnome/x#1.tar.xz".
Proof.
  split.
  - apply (proj1 mirror_keys_contained "FreeBSD:14:amd64" "latest" "All/Hashed/x-1~2.pkg"); vm_compute; reflexivity.
  - apply (proj1 (proj2 mirror_keys_contained) "gnome/x#1.tar.xz"). vm_compute. reflexivity.
Defined.
