(* ===== verification/BinaryLinks.v ===== *)
(** Download links of binary entries: the aliases, the paths under /binaries/
    and the filenames of internal/manifest/keys.go, and the copy of a manifest
    the read API publishes (Public in internal/manifest/types.go).

    HMAC-SHA256 is a parameter: a function of the key and the message. *)

From stdpp Require Import base list gmap strings.
From Stdlib Require Import ZArith Lia Ascii.
From S2P Require Import Prelude GoStrings GoRunes GoURL Types Keys.

Definition BinaryAliasDir := "~".
Definition binaryAliasTagLen : nat := 32.

(** [strings.Repeat] of one byte. *)
Definition repeat_byte (n : nat) (c : ascii) : string := concat_string (repeat (String c "") n).

Definition IsBinaryAlias (filename : string) : bool := HasPrefix filename (BinaryAliasDir +:+ "/").

Definition IsWithheldBinaryAlias (filename : string) : bool :=
  HasPrefix filename (BinaryAliasDir +:+ "/" +:+ repeat_byte binaryAliasTagLen "0" +:+ "/").

(** * Paths *)

Definition BinaryPathIdentity (p : string) : string * string * string :=
  match Split "/" p with
  | [pkg; filename] => (pkg, "", filename)
  | [pkg; version; filename] => (pkg, version, filename)
  | [pkg; a; tag; display] =>
      if (a =? BinaryAliasDir)%string then (pkg, "", Join [a; tag; display] "/") else ("", "", "")
  | [pkg; version; a; tag; display] =>
      if (a =? BinaryAliasDir)%string then (pkg, version, Join [a; tag; display] "/") else ("", "", "")
  | _ => ("", "", "")
  end.

Definition binaryVersionPath (name version filename : string) : string :=
  if (version =? "")%string then name +:+ "/" +:+ filename
  else name +:+ "/" +:+ version +:+ "/" +:+ filename.

Definition normalizeStorageName (name : string) : string :=
  if (name =? "default")%string then "" else name.

Definition binaryStorageName (ve : VersionEntry) : string := normalizeStorageName (ve_Storage ve).

(** * The displayed name *)

Definition alias_rune (r : Z) : ascii :=
  let c := ascii_of_N (Z.to_N r) in
  if (r <? 128) && (is_alnum c || in_set ".-_:" c) then c else "_"%char.

(** [for strings.Contains(d, "..") { d = strings.ReplaceAll(d, "..", "._") }],
    [None] when [fuel] passes of the body leave one. *)
Fixpoint undot (fuel : nat) (d : string) : option string :=
  if Contains d ".." then
    match fuel with
    | O => None
    | S k => undot k (ReplaceAll d ".." "._")
    end
  else Some d.

Definition alias_display (ve : VersionEntry) : string :=
  let raw := if (ve_Filename ve =? "")%string then lastSegment (PublicURL (ve_URL ve)) else ve_Filename ve in
  let display := default "" (undot 1 (MapASCII alias_rune raw)) in
  if (Trim display "." =? "")%string then "download" else display.

(** [hex.EncodeToString] *)
Fixpoint HexEncode (s : string) : string :=
  match s with
  | "" => ""
  | String c s => hex_digit (byteZ c / 16) +:+ hex_digit (byteZ c mod 16) +:+ HexEncode s
  end.

Definition alias_message (pm : PackageManifest) (ve : VersionEntry) : string :=
  "bodega binary download alias" +:+ nul +:+ pm_Name pm +:+ nul +:+ ve_Version ve +:+ nul
  +:+ binaryStorageName ve +:+ nul +:+ binaryStoredName ve.

Section links.
(** The digest of a message under a key, 32 bytes. *)
Variable HMAC : string -> string -> string.

Definition binaryAliasTag (key : string) (pm : PackageManifest) (ve : VersionEntry) : string :=
  if (key =? "")%string then repeat_byte binaryAliasTagLen "0"
  else str_take binaryAliasTagLen (HexEncode (HMAC key (alias_message pm ve))).

Definition binaryAliasName (key : string) (pm : PackageManifest) (ve : VersionEntry) : string :=
  BinaryAliasDir +:+ "/" +:+ binaryAliasTag key pm ve +:+ "/" +:+ alias_display ve.

(** [None] for any type but binary. *)
Definition binaryDownloadName (key : string) (pm : PackageManifest) (ve : VersionEntry) : option string :=
  if (pm_Type pm =? TypeBinary)%string then Some (binaryAliasName key pm ve) else None.

Definition alias_entry (key version tag : string) (pm : PackageManifest) : option VersionEntry :=
  List.find (fun ve => (ve_Version ve =? version)%string && (binaryAliasTag key pm ve =? tag)%string)
            (pm_Versions pm).

(** The stored name, and the entry an alias names; [None] when the request
    names nothing that may be served. *)
Definition BinaryStoredFilename (key : string) (pm : option PackageManifest) (version requested : string)
  : option (string * option VersionEntry) :=
  match cut_prefix requested (BinaryAliasDir +:+ "/") with
  | None => Some (requested, None)
  | Some rest =>
      let tag := (cut_or_whole "/" rest).1 in
      match pm with
      | None => None
      | Some pm =>
          if (key =? "")%string || negb (String.length tag =? binaryAliasTagLen)%nat then None
          else
            match alias_entry key version tag pm with
            | None => None
            | Some ve =>
                match ValidateBinaryFilename (ve_Filename ve) with
                | Some _ => None
                | None => Some (binaryStoredName ve, Some ve)
                end
            end
      end
  end.

(** Whether the URL parser and the route's safety check leave the path as it is. *)
Definition literal_spelling (p : string) : bool :=
  let whole := "/binaries/" +:+ p in
  match ParseRooted whole with
  | None => false
  | Some u =>
      (u_Path u =? whole)%string && (u_RawQuery u =? "")%string && negb (u_ForceQuery u)
      && (u_Fragment u =? "")%string && (path_Clean (u_Path u) =? u_Path u)%string
      && negb (Contains p "..")
  end.

(** The entry a stored name is served for. *)
Definition answers_version (version : string) (ve : VersionEntry) : bool :=
  (ve_Version ve =? version)%string || negb (version =? "")%string && (ve_Ref ve =? version)%string.

(** The path, and whether it reaches entry [i]. *)
Definition binaryLiteralPath (pm : PackageManifest) (i : nat) (ve : VersionEntry) (typeBackend : string)
  : string * bool :=
  let stored := binaryStoredName ve in
  let p := binaryVersionPath (pm_Name pm) (ve_Version ve) stored in
  if negb (literal_spelling p) then ("", false)
  else
    let '(pkg, version, filename) := BinaryPathIdentity p in
    if (pkg =? "")%string || IsBinaryAlias filename
       || negb (BinaryKey pkg version filename =? BinaryKey (pm_Name pm) (ve_Version ve) stored)%string
    then ("", false)
    else
      match list_find (fun other => answers_version version other) (pm_Versions pm) with
      | Some (j, other) =>
          (p, (j =? i)%nat || (binaryStorageName other =? binaryStorageName ve)%string)
      | None => (p, (typeBackend =? binaryStorageName ve)%string)
      end.

(** [None] when [i] is out of range, where Go panics. *)
Definition BinaryLinkName (key : string) (pm : PackageManifest) (typeBackend : string) (i : nat)
  : option (string * bool) :=
  ve ← pm_Versions pm !! i;
  Some (if negb (key =? "")%string
        then (binaryVersionPath (pm_Name pm) (ve_Version ve) (binaryAliasName key pm ve), true)
        else binaryLiteralPath pm i ve (normalizeStorageName typeBackend)).

(** * The published manifest *)

Definition set_published (filename url : string) (md : gmap string string) (ve : VersionEntry) : VersionEntry :=
  MkVersionEntry (ve_Version ve) url (ve_Mode ve) (ve_VersionConstraint ve) (ve_Ref ve) (ve_Source ve)
    (ve_SourceName ve) (ve_SourcePackage ve) (ve_CaptureSuite ve) (ve_BuildCmd ve) (ve_DebGlob ve)
    (ve_Suites ve) (ve_Classifiers ve) (ve_Generated ve) filename (ve_SHA256 ve) (ve_AppVersion ve)
    (ve_RequiredBy ve) (ve_Checksum ve) (ve_ChecksumVerified ve) (ve_Platform ve) (ve_BuildEnv ve)
    (ve_Hidden ve) (ve_ArtifactSize ve) (ve_Dependencies ve) (ve_NpmBin ve) (ve_PublishedAt ve)
    (ve_ArtifactDigest ve) (ve_Frozen ve) (ve_Baseline ve) (ve_BaselineAt ve) (ve_Storage ve)
    (ve_Description ve) md.

(** One entry as it goes out. *)
Definition public_entry (key : string) (pm : PackageManifest) (ve : VersionEntry) : VersionEntry :=
  set_published (default (ve_Filename ve) (binaryDownloadName key pm ve)) (PublicURL (ve_URL ve))
    (PublicMetadataValue <$> ve_Metadata ve) ve.

Definition Public (key : string) (pm : option PackageManifest) : option PackageManifest :=
  (fun pm => set_Versions (public_entry key pm <$> pm_Versions pm) pm) <$> pm.
End links.

(** A digest of 32 bytes that depends on the length of the message. *)
Definition length_mac (key message : string) : string :=
  concat_string (repeat (String (ascii_of_nat (String.length message)) "") 32).

Definition binary_entry (version url filename storage : string) : VersionEntry :=
  MkVersionEntry version url "" "" "" "" "" "" "" "" "" [] [] false filename "" "" [] None false "" None
    false 0 [] ∅ "" "" false false "" storage "" ∅.

Definition tool : PackageManifest :=
  MkPackageManifest 1 "tool" TypeBinary "" "" "" []
    [binary_entry "1.0" "https://u:p@host/dir/a..b?x=1" "" "default";
     binary_entry "1.0" "" "a..b" "other"; binary_entry "" "" "x/y" ""].

Example aliases_ex :
  map (BinaryLinkName length_mac "k" tool "") [0%nat; 2%nat]
  = [Some ("tool/1.0/~/" +:+ concat_string (repeat "2f" 16) +:+ "/a._b", true);
     Some ("tool/~/" +:+ concat_string (repeat "27" 16) +:+ "/x_y", true)]
  /\ map (BinaryLinkName length_mac "" tool "other") [0%nat; 1%nat; 2%nat]
     = [Some ("", false); Some ("", false); Some ("tool/x/y", false)].
Proof. split; vm_compute; reflexivity. Qed.

(** * Lemmas: the displayed name *)

Lemma undot_step_cons a s :
  ReplaceAll (String a s) ".." "._"
  = match s with
    | String b t =>
        if Ascii.eqb "." a && Ascii.eqb "." b then "._" +:+ ReplaceAll t ".." "._"
        else String a (ReplaceAll s ".." "._")
    | "" => String a ""
    end.
Proof.
  unfold ReplaceAll. destruct s as [|b t].
  - cbn [replace_go]. unfold HasPrefix. cbn [cut_prefix]. by destruct (Ascii.eqb "." a).
  - cbn [replace_go]. unfold HasPrefix. cbn [cut_prefix].
    destruct (Ascii.eqb "." a); [|done]. by destruct (Ascii.eqb "." b).
Qed.

Definition opens_dot : string -> bool := starts (Ascii.eqb ".").

Lemma Contains_dots_cons a s :
  Contains (String a s) ".." = Ascii.eqb "." a && opens_dot s || Contains s "..".
Proof.
  rewrite Contains_cons. unfold HasPrefix. cbn [cut_prefix]. destruct (Ascii.eqb "." a); [|done].
  destruct s as [|b t]; [done|]. unfold opens_dot, starts. cbn [cut_prefix]. by destruct (Ascii.eqb "." b).
Qed.

Lemma undot_step_opens s : opens_dot (ReplaceAll s ".." "._") = opens_dot s.
Proof.
  destruct s as [|a s]; [done|]. rewrite undot_step_cons. destruct s as [|b t]; [done|].
  destruct (Ascii.eqb_spec "." a) as [<-|]; [|done]. by destruct (Ascii.eqb "." b).
Qed.

(** One pass leaves no two dots in a row: the second dot of every pair it
    replaces becomes an underscore. *)
Lemma undot_step_clean s : Contains (ReplaceAll s ".." "._") ".." = false.
Proof.
  assert (H : forall n, (String.length s <= n)%nat -> Contains (ReplaceAll s ".." "._") ".." = false).
  { intros n. revert s. induction n as [|n IH]; intros [|a s] Hn; simpl in Hn; try lia; [done..|].
    rewrite undot_step_cons. destruct s as [|b t]; [by rewrite Contains_dots_cons, andb_false_r|].
    destruct (Ascii.eqb_spec "." a) as [<-|Ha]; cbn [andb].
    - destruct (Ascii.eqb_spec "." b) as [<-|Hb].
      + change ("._" +:+ ?r) with (String "." (String "_" r)).
        rewrite !Contains_dots_cons. simpl in Hn. rewrite IH by lia. done.
      + rewrite Contains_dots_cons, undot_step_opens, IH by (simpl in *; lia).
        unfold opens_dot, starts. destruct (Ascii.eqb_spec "." b); [done|]. by rewrite andb_false_r.
    - rewrite Contains_dots_cons, IH by (simpl in *; lia).
      by destruct (Ascii.eqb_spec "." a). }
  by apply (H (String.length s)).
Qed.

Lemma undot_one d fuel :
  exists d', undot (S fuel) d = Some d' /\ Contains d' ".." = false /\
             (Contains d ".." = false -> d' = d).
Proof.
  cbn [undot]. destruct (Contains d "..") eqn:E.
  - exists (ReplaceAll d ".." "._"). split; [|split; [apply undot_step_clean|done]].
    destruct fuel; cbn [undot]; by rewrite undot_step_clean.
  - exists d. done.
Qed.

Lemma ReplaceAll_bytes p s : p "_"%char = true -> all_bytes p s = true -> all_bytes p (ReplaceAll s ".." "._") = true.
Proof.
  intros Hu. assert (H : forall n, (String.length s <= n)%nat -> all_bytes p s = true ->
    all_bytes p (ReplaceAll s ".." "._") = true); [|by apply (H (String.length s))].
  intros n. revert s. induction n as [|n IH]; intros [|a s] Hn; simpl in Hn; try lia; [done..|].
  rewrite undot_step_cons. destruct s as [|b t]; [done|].
  cbn [all_bytes]. rewrite !andb_true_iff. intros (Ha & Hb & Ht).
  destruct (Ascii.eqb_spec "." a) as [<-|]; cbn [andb]; [destruct (Ascii.eqb "." b)|].
  - change ("._" +:+ ?r) with (String "." (String "_" r)). cbn [all_bytes]. simpl in Hn.
    rewrite Ha, Hu, IH by (done || lia). done.
  - cbn [all_bytes]. rewrite Ha. apply IH; [simpl in *; lia|]. cbn [all_bytes]. by rewrite Hb, Ht.
  - cbn [all_bytes]. rewrite Ha. apply IH; [simpl in *; lia|]. cbn [all_bytes]. by rewrite Hb, Ht.
Qed.

Definition alias_byte (c : ascii) : bool := is_alnum c || in_set ".-_:" c.

Lemma alias_rune_byte r : alias_byte (alias_rune r) = true.
Proof.
  unfold alias_rune, alias_byte. cbv zeta. destruct ((r <? 128) && _) eqn:E; [|done].
  by apply andb_true_iff in E as [_ E].
Qed.

(** The displayed name is one plain path segment of unreserved bytes. *)
Lemma alias_display_plain ve :
  all_bytes alias_byte (alias_display ve) = true /\ Contains (alias_display ve) ".." = false
  /\ Trim (alias_display ve) "." <> "".
Proof.
  unfold alias_display. cbv zeta.
  generalize (if (ve_Filename ve =? "")%string then lastSegment (PublicURL (ve_URL ve)) else ve_Filename ve).
  intros raw. set (m := MapASCII alias_rune raw).
  destruct (undot_one m 0) as (d & Hd & Hc & Hid). rewrite Hd. cbn [default]. unfold id.
  destruct (Trim d "." =? "")%string eqn:E; [split; [done|split; [done|by vm_compute]]|].
  split; [|split; [done|by apply String.eqb_neq]].
  assert (Hm : all_bytes alias_byte m = true) by apply MapASCII_bytes, alias_rune_byte.
  cbn [undot] in Hd. destruct (Contains m ".."); [|by simplify_eq].
  destruct (Contains (ReplaceAll m ".." "._") ".."); [done|]. simplify_eq. by apply ReplaceAll_bytes.
Qed.

(** * Lemmas: tags and paths *)

Definition hex_pair (c : ascii) : string := hex_digit (byteZ c / 16) +:+ hex_digit (byteZ c mod 16).

Lemma hex_pair_ok c : (String.length (hex_pair c) =? 2)%nat && all_bytes is_alnum (hex_pair c) = true.
Proof.
  revert c. apply (byte_ind (fun c => (String.length (hex_pair c) =? 2)%nat && all_bytes is_alnum (hex_pair c))).
  vm_compute. reflexivity.
Qed.

Lemma HexEncode_ok s :
  all_bytes is_alnum (HexEncode s) = true /\ String.length (HexEncode s) = (2 * String.length s)%nat.
Proof.
  induction s as [|c s [IH1 IH2]]; [done|]. cbn [HexEncode String.length].
  pose proof (hex_pair_ok c) as [Hl Hb]%andb_true_iff. apply Nat.eqb_eq in Hl.
  rewrite <- app_assoc. fold (hex_pair c). rewrite all_bytes_app, length_app_string, Hb, IH1, IH2, Hl. split; [done|lia].
Qed.

Lemma str_take_length n s : (n <= String.length s)%nat -> String.length (str_take n s) = n.
Proof. revert n. induction s as [|c s IH]; intros [|n]; simpl; try lia; intros. f_equal. apply IH. lia. Qed.

Lemma all_bytes_str_take p n s : all_bytes p s = true -> all_bytes p (str_take n s) = true.
Proof.
  revert n. induction s as [|c s IH]; intros [|n]; [done..|]. cbn [all_bytes str_take].
  intros [-> Hs]%andb_true_iff. by apply IH.
Qed.

Lemma alias_byte_no_slash s : all_bytes alias_byte s = true -> no_byte "/" s = true.
Proof. by apply all_bytes_no_byte. Qed.

Lemma alnum_no_slash s : all_bytes is_alnum s = true -> no_byte "/" s = true.
Proof. by apply all_bytes_no_byte. Qed.

(** A version path with an alias reads back as its three parts. *)
Lemma BinaryPathIdentity_alias name version tag display :
  no_byte "/" name = true -> no_byte "/" version = true ->
  no_byte "/" tag = true -> no_byte "/" display = true ->
  let alias := BinaryAliasDir +:+ "/" +:+ tag +:+ "/" +:+ display in
  BinaryPathIdentity (binaryVersionPath name version alias) = (name, version, alias).
Proof.
  intros Hn Hv Ht Hd. cbv zeta. unfold binaryVersionPath, BinaryAliasDir.
  destruct (String.eqb_spec version "") as [->|Hne]; unfold BinaryPathIdentity;
    rewrite !Split_sep, !Split_no_byte by done; reflexivity.
Qed.

(** The package a path names is one segment of it. *)
Lemma BinaryPathIdentity_segment p : no_byte "/" (BinaryPathIdentity p).1.1 = true.
Proof.
  pose proof (Split_segments "/" p) as H. unfold BinaryPathIdentity.
  destruct (Split "/" p) as [|a [|b [|c [|d [|e [|f l]]]]]]; try done;
    apply Forall_cons in H as [H _]; repeat break_goal; done.
Qed.

Section tags.
Variable HMAC : string -> string -> string.
Hypothesis HMAC_length : forall key message, String.length (HMAC key message) = 32%nat.

Lemma binaryAliasTag_ok key pm ve :
  all_bytes is_alnum (binaryAliasTag HMAC key pm ve) = true
  /\ String.length (binaryAliasTag HMAC key pm ve) = binaryAliasTagLen.
Proof.
  unfold binaryAliasTag. destruct (key =? "")%string; [done|].
  destruct (HexEncode_ok (HMAC key (alias_message pm ve))) as [Hb Hl]. rewrite HMAC_length in Hl.
  split; [by apply all_bytes_str_take|]. apply str_take_length. rewrite Hl.
  unfold binaryAliasTagLen. lia.
Qed.

(** No two entries of the manifest whose messages differ share a tag. *)
Definition tags_separate (key : string) (pm : PackageManifest) : Prop :=
  forall ve ve', ve ∈ pm_Versions pm -> ve' ∈ pm_Versions pm ->
  binaryAliasTag HMAC key pm ve = binaryAliasTag HMAC key pm ve' -> alias_message pm ve = alias_message pm ve'.

(** Two entries name the same bytes: one version, one backend, one stored name. *)
Definition same_object (ve ve' : VersionEntry) : Prop :=
  ve_Version ve' = ve_Version ve /\ binaryStorageName ve' = binaryStorageName ve
  /\ binaryStoredName ve' = binaryStoredName ve.

Lemma alias_message_object pm ve ve' :
  no_byte "000" (ve_Storage ve) = true -> no_byte "000" (ve_Storage ve') = true ->
  ve_Version ve' = ve_Version ve -> alias_message pm ve = alias_message pm ve' -> same_object ve ve'.
Proof.
  intros Hs Hs' Hv He. unfold alias_message in He. rewrite Hv in He. do 6 apply app_inv_l in He.
  assert (Hn : forall v, no_byte "000" (ve_Storage v) = true -> no_byte "000" (binaryStorageName v) = true).
  { intros v. unfold binaryStorageName, normalizeStorageName. by destruct (ve_Storage v =? "default")%string. }
  apply (f_equal (cut_byte "000")) in He. unfold nul in He.
  change (String "000" "" +:+ ?x) with (String "000" x) in He.
  rewrite !cut_byte_app in He by auto. injection He as H1 H2. by unfold same_object.
Qed.

Lemma alias_resolves key pm ve :
  key <> "" -> ve ∈ pm_Versions pm ->
  (forall e, e ∈ pm_Versions pm ->
     ValidateBinaryFilename (ve_Filename e) = None /\ no_byte "000" (ve_Storage e) = true) ->
  tags_separate key pm ->
  exists e, BinaryStoredFilename HMAC key (Some pm) (ve_Version ve) (binaryAliasName HMAC key pm ve)
            = Some (binaryStoredName ve, Some e) /\ e ∈ pm_Versions pm /\ same_object ve e.
Proof.
  intros Hk Hin Hok Hsep. unfold BinaryStoredFilename, binaryAliasName.
  rewrite <- (app_assoc BinaryAliasDir "/"), cut_prefix_app.
  destruct (binaryAliasTag_ok key pm ve) as [Ht%alnum_no_slash Hl].
  unfold cut_or_whole. change ("/" +:+ ?x) with (String "/" x). rewrite cut_byte_app by done. cbn [default fst id].
  rewrite (proj2 (String.eqb_neq key "") Hk), Hl, Nat.eqb_refl. cbn [orb negb].
  unfold alias_entry. destruct (List.find _ (pm_Versions pm)) as [e|] eqn:E.
  - apply List.find_some in E as [He [Hv Htag]%andb_true_iff].
    apply list_elem_of_In in He. apply String.eqb_eq in Hv, Htag.
    destruct (Hok e He) as [-> Hse], (Hok ve Hin) as [_ Hsv].
    assert (Hobj : same_object ve e) by (apply (alias_message_object pm); auto).
    exists e. split; [|done]. destruct Hobj as (_ & _ & ->). done.
  - exfalso. apply list_elem_of_In in Hin. pose proof (List.find_none _ _ E _ Hin) as Hn. cbn beta in Hn.
    by rewrite !String.eqb_refl in Hn.
Qed.
End tags.

(** * Lemmas: literal paths *)

Lemma unescape_length s q :
  unescape s = Some q ->
  (String.length q <= String.length s)%nat
  /\ (String.length q = String.length s -> no_byte "%" s = true).
Proof.
  assert (H : forall n s q, (String.length s <= n)%nat -> unescape s = Some q ->
    (String.length q <= String.length s)%nat
    /\ (String.length q = String.length s -> no_byte "%" s = true)); [|by apply (H (String.length s))].
  clear. induction n as [|n IH]; intros [|c s] q Hn; simpl in Hn; try lia; [by intros [= <-]..|].
  cbn [unescape]. destruct (Ascii.eqb c "%") eqn:Ec.
  - destruct s as [|a [|b s]]; [done..|]. destruct (is_hex a && is_hex b); [|done].
    intros (r & Hr & [= <-])%bind_Some. simpl in Hn. apply IH in Hr as [Hr _]; [|lia].
    cbn [String.length]. lia.
  - intros (r & Hr & [= <-])%bind_Some. apply IH in Hr as [Hr Hs]; [|lia].
    cbn [String.length]. split; [lia|]. intros [= E]. rewrite no_byte_cons, Ec. by apply Hs.
Qed.

Lemma cut_or_whole_length c s :
  let '(a, b) := cut_or_whole c s in
  (String.length a <= String.length s)%nat
  /\ (String.length a = String.length s -> a = s /\ no_byte c s = true).
Proof.
  unfold cut_or_whole. destruct (cut_byte c s) as [[a b]|] eqn:E; cbn.
  - apply cut_byte_Some in E as [-> _]. rewrite length_app_string. cbn [String.length]. lia.
  - split; [done|]. intros _. split; [done|]. by apply cut_byte_None.
Qed.

(** A path the URL parser gives back as it is holds nothing to decode or cut. *)
Lemma ParseRooted_fixed s u :
  ParseRooted s = Some u -> u_Path u = s ->
  no_byte "#" s = true /\ no_byte "?" s = true /\ no_byte "%" s = true.
Proof.
  unfold ParseRooted. pose proof (cut_or_whole_length "#" s) as H1.
  destruct (cut_or_whole "#" s) as [w frag]. destruct H1 as [H1 H1'].
  destruct (negb (all_bytes _ w)); [done|].
  destruct (HasSuffix w "?" && (count_byte "?" w =? 1)%nat) eqn:Ef.
  - intros (p & Hp & H)%bind_Some. apply bind_Some in H as (f & _ & [= <-]). cbn [u_Path].
    intros ->. exfalso. apply unescape_length in Hp as [Hp _].
    apply andb_true_iff in Ef as [Ef _]. unfold HasSuffix, TrimSuffix in *.
    destruct (cut_suffix w "?") as [r|] eqn:E; [|done]. apply cut_suffix_Some in E as ->.
    rewrite length_app_string in H1. simpl in H1. lia.
  - pose proof (cut_or_whole_length "?" w) as H2. destruct (cut_or_whole "?" w) as [r query].
    destruct H2 as [H2 H2']. intros (p & Hp & H)%bind_Some.
    apply bind_Some in H as (f & _ & [= <-]). cbn [u_Path]. intros ->.
    apply unescape_length in Hp as [Hp Hp'].
    destruct H2' as [-> H2']; [lia|]. destruct H1' as [-> H1']; [lia|]. auto.
Qed.

Lemma literal_spelling_inv p :
  literal_spelling p = true -> Contains p ".." = false /\ no_byte "%" p = true.
Proof.
  unfold literal_spelling. destruct (ParseRooted ("/binaries/" +:+ p)) as [u|] eqn:E; [|done].
  intros H. repeat (apply andb_true_iff in H as [H ?]). apply String.eqb_eq in H.
  split; [by apply negb_true_iff|]. apply ParseRooted_fixed in E as (_ & _ & E); [|done].
  rewrite no_byte_app in E. by apply andb_true_iff in E as [_ E].
Qed.

(** The first segment, which a path of several segments names as its package. *)
Lemma BinaryPathIdentity_first p :
  (BinaryPathIdentity p).1.1 <> "" -> (BinaryPathIdentity p).1.1 = (cut_or_whole "/" p).1.
Proof.
  unfold BinaryPathIdentity, cut_or_whole. destruct (cut_byte "/" p) as [[a b]|] eqn:E.
  - apply cut_byte_Some in E as [-> Ha]. rewrite Split_app by done. cbn [default fst id].
    destruct (Split "/" b) as [|x [|y [|z [|t [|u l]]]]]; cbn; try done; by repeat break_goal.
  - apply cut_byte_None in E. by rewrite Split_no_byte.
Qed.

(** A key names the package's own name, when the package is a segment of it. *)
Lemma BinaryKey_package pkg version filename name version' filename' :
  no_byte "/" pkg = true ->
  BinaryKey pkg version filename = BinaryKey name version' filename' -> pkg = SafeName name.
Proof.
  intros Hp H. assert (Hk : forall n v f, exists r, BinaryKey n v f = BinaryPrefix +:+ SafeName n +:+ String "/" r).
  { intros n v f. unfold BinaryKey. destruct (v =? "")%string; eexists; reflexivity. }
  destruct (Hk pkg version filename) as [r Hr], (Hk name version' filename') as [r' Hr'].
  rewrite Hr, Hr' in H. apply app_inv_l, (f_equal (cut_byte "/")) in H.
  rewrite !cut_byte_app in H by apply SafeName_no_slash. injection H as H _. by rewrite SafeName_id in H.
Qed.

(** What a literal path promises, when it is handed out. *)
Lemma binaryLiteralPath_ok pm i ve tb p :
  binaryLiteralPath pm i ve tb = (p, true) ->
  exists version filename,
    literal_spelling p = true /\ BinaryPathIdentity p = (pm_Name pm, version, filename)
    /\ pm_Name pm <> "" /\ IsBinaryAlias filename = false
    /\ BinaryKey (pm_Name pm) version filename = BinaryKey (pm_Name pm) (ve_Version ve) (binaryStoredName ve)
    /\ match list_find (fun other => answers_version version other) (pm_Versions pm) with
       | Some (j, other) => j = i \/ binaryStorageName other = binaryStorageName ve
       | None => tb = binaryStorageName ve
       end.
Proof.
  unfold binaryLiteralPath. cbv zeta. set (q := binaryVersionPath _ _ _).
  destruct (literal_spelling q) eqn:El; [|done]. cbn [negb].
  destruct (BinaryPathIdentity q) as [[pkg version] filename] eqn:Ei.
  destruct ((pkg =? "")%string || IsBinaryAlias filename || negb _) eqn:Eb; [done|]. to_prop.
  match goal with H : BinaryKey pkg _ _ = _ |- _ => rename H into Hk end.
  assert (Hname : pkg = pm_Name pm).
  { pose proof (BinaryPathIdentity_segment q) as Hs. pose proof (BinaryPathIdentity_first q) as Hf.
    rewrite Ei in Hs, Hf. cbn [fst] in Hs, Hf. apply BinaryKey_package in Hk; [|done].
    specialize (Hf ltac:(done)). destruct (cut_byte "/" (pm_Name pm)) as [[a b]|] eqn:Ec.
    - apply cut_byte_Some in Ec as [Ec Ha]. exfalso.
      assert (Hq : exists r, q = a +:+ String "/" r).
      { unfold q, binaryVersionPath. rewrite Ec. destruct (ve_Version ve =? "")%string; rewrite app_assoc;
          eexists; reflexivity. }
      destruct Hq as [r Hq]. unfold cut_or_whole in Hf. rewrite Hq, cut_byte_app in Hf by done.
      cbn in Hf. rewrite Hf, Ec, SafeName_app, (SafeName_id a), SafeName_cons, Ascii.eqb_refl in Hk by done.
      rewrite <- (app_nil_r a) in Hk at 1. by apply app_inv_l in Hk.
    - apply cut_byte_None in Ec. by rewrite SafeName_id in Hk. }
  subst pkg. intros Hp. exists version, filename.
  destruct (list_find _ (pm_Versions pm)) as [[j other]|]; injection Hp as <- Hp.
  - split_and!; try done. apply orb_true_iff in Hp as [Hp|Hp]; [left; by apply Nat.eqb_eq|].
    right. by apply String.eqb_eq.
  - split_and!; try done. by apply String.eqb_eq.
Qed.

(** * Properties *)

(** The loop that spells out ".." in a download alias ends: on every name
    one pass of its body is enough, more fuel changes nothing, and what it
    leaves holds no "..", so the alias passes the route's path check. *)
Theorem alias_display_ends fuel name :
  exists d, undot 1 name = Some d /\ undot (S fuel) name = Some d /\ Contains d ".." = false.
Proof.
  destruct (undot_one name 0) as (d & H1 & Hc & Hid). exists d. split; [done|split; [|done]].
  cbn [undot] in *. destruct (Contains name ".."); [|done].
  destruct (Contains (ReplaceAll name ".." "._") "..") eqn:E; [done|].
  destruct fuel; cbn [undot]; by rewrite E.
Qed.

(** A link is handed out for a package whose name holds a "/" as well, and the
    path it names is read as another package's. *)
Lemma BinaryLinkName_slash HMAC key pm i ve typeBackend :
  key <> "" -> pm_Versions pm !! i = Some ve -> no_byte "/" (pm_Name pm) = false ->
  exists path, BinaryLinkName HMAC key pm typeBackend i = Some (path, true)
               /\ (BinaryPathIdentity path).1.1 <> pm_Name pm.
Proof.
  intros Hk Hi Hn. unfold BinaryLinkName. rewrite Hi. cbv beta iota delta [mbind option_bind].
  rewrite (proj2 (String.eqb_neq key "") Hk). eexists. split; [reflexivity|]. intros He.
  pose proof (BinaryPathIdentity_segment
    (binaryVersionPath (pm_Name pm) (ve_Version ve) (binaryAliasName HMAC key pm ve))) as Hp.
  rewrite He in Hp. congruence.
Qed.
