(* ===== verification/RpmVersion.v ===== *)
(** RPM version order: [rpmvercmp], [splitRpmEVR] and [compareRpmEVR] of
    internal/policy/osvmatch.go.

    The code walks both versions with two indices; here an index is the text
    still unread.  [tokens] cuts a version into the segments rpm compares, and
    [rpmvercmp_tokens] shows the walk is a lexicographic comparison of them. *)

From stdpp Require Import base list strings.
From Stdlib Require Import ZArith Lia Ascii.
From S2P Require Import Prelude GoStrings.

Definition isAlnum (c : ascii) : bool := is_digit c || is_lower c || is_upper c.
Definition isAlpha (c : ascii) : bool := is_lower c || is_upper c.

(** Bytes that only separate segments. *)
Definition is_sep (c : ascii) : bool :=
  negb (isAlnum c) && negb (Ascii.eqb c "~") && negb (Ascii.eqb c "^").

Definition starts_with (x : ascii) (s : string) : bool := starts (fun c => Ascii.eqb c x) s.

Fixpoint rpm_loop (fuel : nat) (a b : string) : Z :=
  match fuel with
  | O => 0
  | S n =>
      if (a =? "")%string && (b =? "")%string then 0
      else
        let a := trim_left is_sep a in
        let b := trim_left is_sep b in
        if starts_with "~" a || starts_with "~" b then
          if negb (starts_with "~" a) then 1
          else if negb (starts_with "~" b) then -1
          else rpm_loop n (tail a) (tail b)
        else if starts_with "^" a || starts_with "^" b then
          if (a =? "")%string then -1
          else if (b =? "")%string then 1
          else if negb (starts_with "^" a) then 1
          else if negb (starts_with "^" b) then -1
          else rpm_loop n (tail a) (tail b)
        else if (a =? "")%string || (b =? "")%string then
          (if (a =? "")%string && (b =? "")%string then 0
           else if negb (a =? "")%string then 1 else -1)
        else
          let numeric := starts is_digit a in
          let inclass := if numeric then is_digit else isAlpha in
          let sa := take_while inclass a in
          let sb := take_while inclass b in
          if (sb =? "")%string then (if numeric then 1 else -1)
          else
            let sa := if numeric then TrimLeft sa "0" else sa in
            let sb := if numeric then TrimLeft sb "0" else sb in
            if numeric && negb (slen sa =? slen sb) then (if slen sb <? slen sa then 1 else -1)
            else then_cmp (Compare sa sb) (rpm_loop n (trim_left inclass a) (trim_left inclass b))
  end.

(** Every turn that goes on reads at least one byte of each side. *)
Definition rpmvercmp (a b : string) : Z :=
  if (a =? b)%string then 0 else rpm_loop (S (String.length a + String.length b)) a b.

(** [[epoch:]version[-release]]: [None] is the Go value with [ok] false. *)
Definition splitRpmEVR (v : string) : option (Z * string * string) :=
  '(ep, rest) ←
    match cut_byte ":" v with
    | Some (e, rest) =>
        match atoi_opt e with
        | Some n => if n <? 0 then None else Some (n, rest)
        | None => None
        end
    | None => Some (0, v)
    end;
  let '(version, rel) :=
    match cut_last_byte "-" rest with
    | Some (v, r) => (v, r)
    | None => (rest, "")
    end in
  if (version =? "")%string then None else Some (ep, version, rel).

(** A release either side leaves out is not compared. *)
Definition evr_cmp (x y : Z * string * string) : Z :=
  let '(ea, va, ra) := x in
  let '(eb, vb, rb) := y in
  if negb (ea =? eb) then (if ea <? eb then -1 else 1)
  else
    let c := rpmvercmp va vb in
    if negb (c =? 0) then c
    else if (ra =? "")%string || (rb =? "")%string then 0
    else rpmvercmp ra rb.

Definition compareRpmEVR (a b : string) : option Z :=
  match splitRpmEVR a, splitRpmEVR b with
  | Some x, Some y => Some (evr_cmp x y)
  | _, _ => None
  end.

Example rpm_ex1 : rpmvercmp "1.0~rc1" "1.0" = -1.
Proof. reflexivity. Qed.
Example rpm_ex2 : rpmvercmp "1.0^git1" "1.0" = 1.
Proof. reflexivity. Qed.
Example rpm_ex3 : rpmvercmp "1.10" "1_9" = 1.
Proof. reflexivity. Qed.
Example rpm_ex4 : compareRpmEVR "1:1.0-1" "2.0-1" = Some 1.
Proof. reflexivity. Qed.
Example rpm_ex5 : compareRpmEVR "1.0-1.el9" "1.0" = Some 0.
Proof. reflexivity. Qed.

(** * Segments *)

(** What a version is made of, from the smallest: ["~"] is below the end of
    the version, ["^"] just above it, words below numbers. *)
Inductive token :=
| TTilde
| TEnd
| TCaret
| TWord (s : string)
| TNum (n : Z).

Definition token_rank (t : token) : Z :=
  match t with TTilde => -1 | TEnd => 0 | TCaret => 1 | TWord _ => 2 | TNum _ => 3 end.

Definition token_cmp (x y : token) : Z :=
  match x, y with
  | TWord a, TWord b => Compare a b
  | TNum a, TNum b => compareInt a b
  | _, _ => compareInt (token_rank x) (token_rank y)
  end.

#[global] Instance token_cmp_comparator : Comparator token_cmp.
Proof.
  split.
  - intros [| | |a|a] [| | |b|b]; try done; [apply (cmp_anti Compare)|apply (cmp_anti compareInt)].
  - intros x y z H1 H2.
    destruct x as [| | |a|a], y as [| | |b|b], z as [| | |c|c]; cbn [token_cmp] in *;
      solve [ eapply (cmp_trans Compare); eassumption
            | eapply (cmp_trans compareInt); eassumption
            | vm_compute; discriminate
            | exfalso; revert H1; vm_compute; intuition discriminate
            | exfalso; revert H2; vm_compute; intuition discriminate ].
Qed.

#[global] Instance token_cmp_signed : SignedComparator token_cmp.
Proof.
  intros [| | |a|a] [| | |b|b]; cbn [token_cmp];
    solve [apply (cmp_sign Compare)|apply (cmp_sign compareInt)].
Qed.

(** The first segment of a version that does not start with a separator, and
    what follows it. *)
Definition first_token (s : string) : token :=
  if (s =? "")%string then TEnd
  else if starts_with "~" s then TTilde
  else if starts_with "^" s then TCaret
  else if starts is_digit s then TNum (dec_val (take_while is_digit s))
  else TWord (take_while isAlpha s).

Definition after_token (s : string) : string :=
  if starts_with "~" s || starts_with "^" s then tail s
  else if starts is_digit s then trim_left is_digit s
  else trim_left isAlpha s.

Fixpoint tokens_go (fuel : nat) (s : string) : list token :=
  match fuel with
  | O => []
  | S n =>
      let s := trim_left is_sep s in
      if (s =? "")%string then [] else first_token s :: tokens_go n (after_token s)
  end.

Definition tokens (s : string) : list token := tokens_go (S (String.length s)) s.

Definition rpm_cmp : string -> string -> Z := on_key tokens (cmp_pad token_cmp TEnd).

#[global] Instance rpm_cmp_comparator : Comparator rpm_cmp.
Proof. unfold rpm_cmp. apply _. Qed.

#[global] Instance rpm_cmp_signed : SignedComparator rpm_cmp.
Proof. unfold rpm_cmp. apply _. Qed.

(** A byte that opens a segment opens exactly one kind. *)
Lemma not_sep_cases c :
  is_sep c = false -> c = "~"%char \/ c = "^"%char \/ is_digit c = true \/ isAlpha c = true.
Proof.
  unfold is_sep, isAlnum, isAlpha. destruct (Ascii.eqb_spec c "~"), (Ascii.eqb_spec c "^"),
    (is_digit c), (is_lower c), (is_upper c); simpl; auto.
Qed.

Lemma after_token_shrinks s :
  s <> "" -> starts is_sep s = false -> (String.length (after_token s) < String.length s)%nat.
Proof.
  destruct s as [|c s]; [done|]. simpl. intros _ Hc. unfold after_token, starts_with; simpl.
  apply not_sep_cases in Hc.
  destruct (Ascii.eqb_spec c "~"), (Ascii.eqb_spec c "^"); simpl; try lia.
  destruct Hc as [?|[?|[Hc|Hc]]]; try done.
  - rewrite Hc. pose proof (trim_left_length is_digit s). lia.
  - destruct (is_digit c); [pose proof (trim_left_length is_digit s); lia|].
    rewrite Hc. pose proof (trim_left_length isAlpha s). lia.
Qed.

Lemma after_trim_shrinks s :
  trim_left is_sep s <> "" ->
  (String.length (after_token (trim_left is_sep s)) < String.length s)%nat.
Proof.
  intros H. pose proof (after_token_shrinks _ H (trim_left_starts is_sep s)).
  pose proof (trim_left_length is_sep s). lia.
Qed.

Lemma tokens_go_fuel n m s :
  (String.length s < n)%nat -> (String.length s < m)%nat -> tokens_go n s = tokens_go m s.
Proof.
  revert m s. induction n as [|n IH]; intros [|m] s Hn Hm; try lia. cbn [tokens_go].
  destruct (String.eqb_spec (trim_left is_sep s) "") as [|H]; [done|]. f_equal.
  pose proof (after_trim_shrinks s H). apply IH; lia.
Qed.

Lemma tokens_hd s : hd TEnd (tokens s) = first_token (trim_left is_sep s).
Proof.
  unfold tokens. cbn [tokens_go]. destruct (String.eqb_spec (trim_left is_sep s) "") as [->|H]; done.
Qed.

Lemma tokens_tl s : tl (tokens s) = tokens (after_token (trim_left is_sep s)).
Proof.
  unfold tokens at 1. cbn [tokens_go].
  destruct (String.eqb_spec (trim_left is_sep s) "") as [->|H]; [done|]. cbn [tl].
  pose proof (after_trim_shrinks s H). apply tokens_go_fuel; lia.
Qed.

Lemma rpm_cmp_unfold a b :
  rpm_cmp a b =
  then_cmp (token_cmp (first_token (trim_left is_sep a)) (first_token (trim_left is_sep b)))
    (rpm_cmp (after_token (trim_left is_sep a)) (after_token (trim_left is_sep b))).
Proof.
  unfold rpm_cmp at 1, on_key. rewrite cmp_pad_unfold by apply _.
  by rewrite !tokens_hd, !tokens_tl.
Qed.

(** * The walk computes the segment order *)

(** What the first byte of a version that starts with no separator can be. *)
Inductive opening (s : string) : Prop :=
| op_end : s = "" -> opening s
| op_tilde : s <> "" -> starts_with "~" s = true -> opening s
| op_caret : s <> "" -> starts_with "~" s = false -> starts_with "^" s = true -> opening s
| op_num : s <> "" -> starts_with "~" s = false -> starts_with "^" s = false ->
           starts is_digit s = true -> opening s
| op_word : s <> "" -> starts_with "~" s = false -> starts_with "^" s = false ->
            starts is_digit s = false -> starts isAlpha s = true -> opening s.

Lemma opening_of s : starts is_sep s = false -> opening s.
Proof.
  destruct s as [|c s]; [intros _; by apply op_end|]. simpl. intros Hc. apply not_sep_cases in Hc.
  destruct (starts_with "~" (String c s)) eqn:E1; [by apply op_tilde|].
  destruct (starts_with "^" (String c s)) eqn:E2; [by apply op_caret|].
  destruct (is_digit c) eqn:E3; [by apply op_num|]. apply op_word; try done.
  unfold starts_with in *. simpl in *.
  destruct Hc as [->|[->|[?|?]]]; done.
Qed.

Lemma take_while_nonempty p s : starts p s = true -> (take_while p s =? "")%string = false.
Proof. destruct s as [|c s]; [done|]. simpl. intros ->. done. Qed.

Lemma trim_left_ext p q s : (forall c, p c = q c) -> trim_left p s = trim_left q s.
Proof. intros H. induction s as [|c s IH]; simpl; [done|]. by rewrite H, IH. Qed.

Lemma TrimLeft_zeros s : TrimLeft s "0" = trim_left is_zero_byte s.
Proof.
  apply trim_left_ext. intros c. unfold in_set, has_byte, is_zero_byte. simpl.
  rewrite andb_true_r, negb_involutive. apply Ascii.eqb_sym.
Qed.

(** Two runs of digits. *)
Lemma num_verdict a b next :
  let sa := TrimLeft (take_while is_digit a) "0" in
  let sb := TrimLeft (take_while is_digit b) "0" in
  (if negb (slen sa =? slen sb) then (if slen sb <? slen sa then 1 else -1)
   else then_cmp (Compare sa sb) next) =
  then_cmp (compareInt (dec_val (take_while is_digit a)) (dec_val (take_while is_digit b))) next.
Proof.
  cbv zeta. rewrite !TrimLeft_zeros.
  rewrite <- (dec_val_trim (take_while is_digit a)), <- (dec_val_trim (take_while is_digit b)).
  change (fun c => Ascii.eqb c "0") with is_zero_byte.
  pose proof (trim_left_digits is_zero_byte _ (take_while_all is_digit a)) as Ha.
  pose proof (trim_left_digits is_zero_byte _ (take_while_all is_digit b)) as Hb.
  pose proof (trim_left_no_lead_zero (take_while is_digit a)) as Hza.
  pose proof (trim_left_no_lead_zero (take_while is_digit b)) as Hzb.
  change (fun c => Ascii.eqb c "0") with is_zero_byte in Hza, Hzb.
  rewrite <- (dec_compare _ _ Ha Hb Hza Hzb). rewrite then_cmp_assoc.
  set (la := slen (trim_left is_zero_byte (take_while is_digit a))).
  set (lb := slen (trim_left is_zero_byte (take_while is_digit b))).
  case_int la lb.
  - rewrite (proj2 (Z.eqb_neq la lb)), (proj2 (Z.ltb_ge lb la)) by lia. done.
  - rewrite (proj2 (Z.eqb_eq la lb)) by lia. done.
  - rewrite (proj2 (Z.eqb_neq la lb)), (proj2 (Z.ltb_lt lb la)) by lia. done.
Qed.

Ltac rpm_rewrite :=
  repeat match goal with
  | H : starts_with _ _ = _ |- _ => rewrite H
  | H : starts is_digit _ = _ |- _ => rewrite H
  | H : ?s <> "" |- context [(?s =? "")%string] => rewrite (proj2 (String.eqb_neq s "") H)
  end; cbn [orb andb negb].

Lemma take_while_stops p s : starts p s = false -> (take_while p s =? "")%string = true.
Proof. intros H. by rewrite (take_while_starts _ _ H). Qed.

Lemma alpha_not_digit s : starts is_digit s = true -> starts isAlpha s = false.
Proof.
  destruct s as [|c s]; [done|]. simpl. unfold is_digit, isAlpha, is_lower, is_upper, in_range.
  intros. to_prop. repeat match goal with |- context [?x <=? ?y] => destruct (Z.leb_spec x y) end;
    simpl; try done; lia.
Qed.

Lemma rpm_loop_cmp n a b :
  (String.length a + String.length b < n)%nat -> rpm_loop n a b = rpm_cmp a b.
Proof.
  revert a b. induction n as [|n IH]; intros a b Hn; [lia|]. cbn [rpm_loop].
  destruct ((a =? "")%string && (b =? "")%string) eqn:E; [by to_prop; subst|]. clear E.
  rewrite rpm_cmp_unfold.
  pose proof (trim_left_length is_sep a). pose proof (trim_left_length is_sep b).
  pose proof (opening_of _ (trim_left_starts is_sep a)) as Oa.
  pose proof (opening_of _ (trim_left_starts is_sep b)) as Ob.
  assert (Hrec : trim_left is_sep a <> "" -> trim_left is_sep b <> "" ->
    rpm_loop n (after_token (trim_left is_sep a)) (after_token (trim_left is_sep b)) =
    rpm_cmp (after_token (trim_left is_sep a)) (after_token (trim_left is_sep b))).
  { intros Ha Hb. pose proof (after_trim_shrinks a Ha). pose proof (after_trim_shrinks b Hb).
    apply IH. lia. }
  revert Hrec Oa Ob. generalize (trim_left is_sep a) (trim_left is_sep b). clear. intros a b Hrec Oa Ob.
  destruct Oa, Ob; subst; cbn [String.eqb]; unfold first_token, after_token in *;
    rpm_rewrite; try done;
    repeat match goal with H : ?P -> _, H' : ?P |- _ => specialize (H H') end;
    revert Hrec; rpm_rewrite; intros Hrec; try (rewrite Hrec; done).
  - rewrite (take_while_nonempty is_digit b) by done. rewrite num_verdict, Hrec. done.
  - by rewrite (take_while_stops is_digit b).
  - by rewrite (take_while_stops isAlpha b) by (by apply alpha_not_digit).
  - rewrite (take_while_nonempty isAlpha b) by done. by rewrite Hrec.
Qed.

Lemma rpmvercmp_cmp a b : rpmvercmp a b = rpm_cmp a b.
Proof.
  unfold rpmvercmp. destruct (String.eqb_spec a b) as [->|]; [|apply rpm_loop_cmp; lia].
  by rewrite (cmp_refl rpm_cmp).
Qed.

#[export] Instance rpmvercmp_comparator : Comparator rpmvercmp.
Proof.
  split; intros *; rewrite !rpmvercmp_cmp; [apply (cmp_anti rpm_cmp)|apply (cmp_trans rpm_cmp)].
Qed.

#[export] Instance rpmvercmp_signed : SignedComparator rpmvercmp.
Proof. intros a b. rewrite rpmvercmp_cmp. apply (cmp_sign rpm_cmp). Qed.

(** ** The theorems *)

(** [rpmvercmp], the two-index walk, is the lexicographic comparison of the
    versions' segments, separators dropped: ["~"] below the end of the
    version, ["^"] just above it, words (compared as text) below numbers
    (compared by value, however many digits they have). *)
Theorem rpmvercmp_tokens a b : rpmvercmp a b = cmp_pad token_cmp TEnd (tokens a) (tokens b).
Proof. apply rpmvercmp_cmp. Qed.

Lemma evr_cmp_anti x y : evr_cmp y x = - evr_cmp x y.
Proof.
  destruct x as [[ea va] ra], y as [[eb vb] rb]. unfold evr_cmp.
  rewrite (Z.eqb_sym eb ea). destruct (Z.eqb_spec ea eb) as [->|Hne]; simpl.
  - rewrite (cmp_anti rpmvercmp va vb), (cmp_anti rpmvercmp ra rb), (orb_comm (rb =? "")%string).
    destruct (Z.eqb_spec (rpmvercmp va vb) 0) as [->|Hz]; simpl.
    + by destruct ((ra =? "")%string || (rb =? "")%string).
    + rewrite (proj2 (Z.eqb_neq _ _)); [done|lia].
  - destruct (Z.ltb_spec ea eb), (Z.ltb_spec eb ea); lia.
Qed.

Lemma evr_cmp_lex ea va ra eb vb rb :
  evr_cmp (ea, va, ra) (eb, vb, rb) =
  then_cmp (compareInt ea eb)
    (then_cmp (rpmvercmp va vb)
       (if (ra =? "")%string || (rb =? "")%string then 0 else rpmvercmp ra rb)).
Proof.
  unfold evr_cmp. case_int ea eb.
  - rewrite (proj2 (Z.eqb_neq ea eb)), (proj2 (Z.ltb_lt ea eb)) by lia. done.
  - rewrite (proj2 (Z.eqb_eq ea eb)) by lia. rewrite then_cmp_0. simpl. unfold then_cmp.
    by destruct (rpmvercmp va vb =? 0).
  - rewrite (proj2 (Z.eqb_neq ea eb)), (proj2 (Z.ltb_ge ea eb)) by lia. done.
Qed.

Lemma evr_cmp_trans x y z :
  y.2 <> "" -> evr_cmp x y <= 0 -> evr_cmp y z <= 0 -> evr_cmp x z <= 0.
Proof.
  destruct x as [[ea va] ra], y as [[eb vb] rb], z as [[ec vc] rc]. cbn [snd]. intros Hb.
  rewrite !evr_cmp_lex. apply (then_cmp_trans compareInt), (then_cmp_trans rpmvercmp).
  rewrite (proj2 (String.eqb_neq rb "") Hb), orb_false_r. simpl.
  destruct (ra =? "")%string, (rc =? "")%string; simpl; try lia. apply (cmp_trans rpmvercmp).
Qed.

(** [compareRpmEVR] answers with -1, 0 or 1 exactly when both sides have a
    version part and a readable epoch, is reflexive and antisymmetric, and is
    transitive through any middle version that names its release.  The
    condition is needed: a version without a release equals every release of
    that version (the last part), so no order chains through it. *)
Theorem compareRpmEVR_order :
  (forall a b, is_Some (compareRpmEVR a b) <-> is_Some (splitRpmEVR a) /\ is_Some (splitRpmEVR b)) /\
  (forall a b c, compareRpmEVR a b = Some c ->
     sign_ok c /\ compareRpmEVR b a = Some (- c) /\ compareRpmEVR a a = Some 0) /\
  (forall a b c x y e v r, compareRpmEVR a b = Some x -> compareRpmEVR b c = Some y ->
     splitRpmEVR b = Some (e, v, r) -> r <> "" -> x <= 0 -> y <= 0 ->
     exists z, compareRpmEVR a c = Some z /\ z <= 0) /\
  (compareRpmEVR "1.0-2" "1.0" = Some 0 /\ compareRpmEVR "1.0" "1.0-1" = Some 0 /\
   compareRpmEVR "1.0-2" "1.0-1" = Some 1).
Proof.
  unfold compareRpmEVR. split; [|split; [|split]].
  - intros a b. destruct (splitRpmEVR a), (splitRpmEVR b); rewrite !is_Some_alt; tauto.
  - intros a b c. destruct (splitRpmEVR a) as [x|], (splitRpmEVR b) as [y|]; try done.
    intros [= <-]. rewrite (evr_cmp_anti x y). split; [|split; [done|]].
    + destruct x as [[ea va] ra], y as [[eb vb] rb]. rewrite evr_cmp_lex.
      repeat apply then_cmp_sign; try apply (cmp_sign compareInt); try apply (cmp_sign rpmvercmp).
      destruct (_ || _); [right; by left|apply (cmp_sign rpmvercmp)].
    + f_equal. pose proof (evr_cmp_anti x x). lia.
  - intros a b c x y e v r. destruct (splitRpmEVR a) as [u|], (splitRpmEVR b) as [w|],
      (splitRpmEVR c) as [t|]; try done. intros [= <-] [= <-] [= ->] Hr H1 H2.
    eexists. split; [done|]. by apply (evr_cmp_trans u (e, v, r) t).
  - vm_compute. done.
Qed.
