(* ===== verification/MavenVersion.v ===== *)
(** Maven version order: [parseMavenVersion], [trimNull] and [compare] of
    internal/policy/osvmatch.go, after Maven's ComparableVersion.

    The parser appends to the innermost open sublist only, so its pointer tree
    is a stack of unfinished lists here, the innermost first; a list's child
    is always its last item. *)

From stdpp Require Import base list strings.
From Stdlib Require Import ZArith Lia Ascii.
From S2P Require Import Prelude GoStrings.


Inductive mavenItem :=
| mavenNumber (num : string)
| mavenQualifier (str : string)
| mavenList (list : list mavenItem).

Definition mavenQualifiers : list string :=
  ["alpha"; "beta"; "milestone"; "rc"; "snapshot"; ""; "sp"].

Definition mavenReleaseRank : string := "5".

Definition mavenQualifierItem (s : string) (beforeDigit : bool) : mavenItem :=
  let s :=
    if beforeDigit then
      if (s =? "a")%string then "alpha"
      else if (s =? "b")%string then "beta"
      else if (s =? "m")%string then "milestone" else s
    else s in
  mavenQualifier
    (if (s =? "ga")%string || (s =? "final")%string || (s =? "release")%string then ""
     else if (s =? "cr")%string then "rc" else s).

Definition null (it : mavenItem) : bool :=
  match it with
  | mavenNumber num => (num =? "")%string
  | mavenQualifier str => (str =? "")%string
  | mavenList l => match l with [] => true | _ => false end
  end.

(** Read from the end: null items go, a sublist is passed over, and the first
    other item stops the walk. *)
Fixpoint trim_rev (l : list mavenItem) : list mavenItem :=
  match l with
  | [] => []
  | x :: l' =>
      if null x then trim_rev l'
      else match x with
           | mavenList _ => x :: trim_rev l'
           | _ => l
           end
  end.

Definition trimNull (l : list mavenItem) : list mavenItem := rev (trim_rev (rev l)).

(** The parser's state: the open lists, innermost first and each in reverse,
    the kind of the current token and its text so far, in reverse. *)
Record mavenState := MavenState {
  current : list mavenItem;
  outer : list (list mavenItem);
  digits : bool;
  pending : string;
}.

Definition add (it : mavenItem) (st : mavenState) : mavenState :=
  MavenState (it :: current st) (outer st) (digits st) (pending st).

Definition open (st : mavenState) : mavenState :=
  MavenState [] (current st :: outer st) (digits st) (pending st).

Definition token (digits : bool) (s : string) : mavenItem :=
  if digits then mavenNumber (TrimLeft s "0") else mavenQualifierItem s false.

Definition set_digits (d : bool) (st : mavenState) : mavenState :=
  MavenState (current st) (outer st) d (pending st).

(** [start = i], then the byte read joins the token. *)
Definition restart (st : mavenState) : mavenState :=
  MavenState (current st) (outer st) (digits st) "".

Definition push (c : ascii) (st : mavenState) : mavenState :=
  MavenState (current st) (outer st) (digits st) (pending st +:+ String c "").

Definition open_if_nonempty (st : mavenState) : mavenState :=
  match current st with [] => st | _ => open st end.

Definition maven_byte (c : ascii) (st : mavenState) : mavenState :=
  let started := negb (pending st =? "")%string in
  if Ascii.eqb c "." || Ascii.eqb c "-" then
    let st := if started then add (token (digits st) (pending st)) st
              else add (mavenNumber "") st in
    let st := restart st in
    if Ascii.eqb c "-" then open st else st
  else if is_digit c then
    let st :=
      if negb (digits st) && started
      then open (restart (add (mavenQualifierItem (pending st) true) (open_if_nonempty st)))
      else st in
    push c (set_digits true st)
  else
    let st :=
      if digits st && started
      then open (restart (add (token true (pending st)) st))
      else st in
    push c (set_digits false st).

Fixpoint maven_bytes (v : string) (st : mavenState) : mavenState :=
  match v with
  | "" => st
  | String c v' => maven_bytes v' (maven_byte c st)
  end.

(** Trim the innermost list, then each list around it, its child at its end. *)
Fixpoint close (child : list mavenItem) (outer : list (list mavenItem)) : list mavenItem :=
  match outer with
  | [] => trimNull child
  | l :: outer' => close (rev l ++ [mavenList (trimNull child)]) outer'
  end.

(** [None] is the Go result [(nil, false)]. *)
Definition parseMavenVersion (v : string) : option (list mavenItem) :=
  let v := ToLower (TrimSpace v) in
  if (v =? "")%string || ContainsAny v (utf8 [32; 9; 13; 10]) then None
  else
    let st := maven_bytes v (MavenState [] [] false "") in
    let st :=
      if negb (pending st =? "")%string then
        let st := if negb (digits st) then open_if_nonempty st else st in
        add (token (digits st) (pending st)) st
      else st in
    Some (close (rev (current st)) (outer st)).

Fixpoint index_of (i : nat) (s : string) (l : list string) : option nat :=
  match l with
  | [] => None
  | q :: l' => if (q =? s)%string then Some i else index_of (S i) s l'
  end.

Definition rank (str : string) : string :=
  match index_of 0 str mavenQualifiers with
  | Some i => String (ascii_of_nat (48 + i)) ""
  | None => "7-" +:+ str
  end.

(** [it.compare(nil)]: against the padding of a shorter list. *)
Fixpoint compare_nil (it : mavenItem) : Z :=
  match it with
  | mavenNumber num => if (num =? "")%string then 0 else 1
  | mavenQualifier str => Compare (rank str) mavenReleaseRank
  | mavenList l =>
      (fix all (l : list mavenItem) : Z :=
         match l with [] => 0 | x :: l' => then_cmp (compare_nil x) (all l') end) l
  end.

(** Only the right list has items left. *)
Fixpoint right_rest (l : list mavenItem) : Z :=
  match l with [] => 0 | y :: l' => then_cmp (- compare_nil y) (right_rest l') end.

Fixpoint compare (it o : mavenItem) : Z :=
  match it, o with
  | mavenNumber n, mavenNumber m => then_cmp (compareInt (slen n) (slen m)) (Compare n m)
  | mavenNumber _, _ => 1
  | mavenQualifier s, mavenQualifier t => Compare (rank s) (rank t)
  | mavenQualifier _, _ => -1
  | mavenList _, mavenNumber _ => -1
  | mavenList _, mavenQualifier _ => 1
  | mavenList l, mavenList m =>
      (fix zip (l m : list mavenItem) {struct l} : Z :=
         match l, m with
         | [], _ => right_rest m
         | x :: l', [] => then_cmp (compare_nil x) (zip l' [])
         | x :: l', y :: m' => then_cmp (compare x y) (zip l' m')
         end) l m
  end.

Definition compareMavenVersions (a b : string) : option Z :=
  match parseMavenVersion a, parseMavenVersion b with
  | Some pa, Some pb => Some (compare (mavenList pa) (mavenList pb))
  | _, _ => None
  end.

Example maven_ex1 : compareMavenVersions "1.0-alpha1" "1.0" = Some (-1).
Proof. reflexivity. Qed.
Example maven_ex2 : compareMavenVersions "31.1-jre" "31.1" = Some 1.
Proof. reflexivity. Qed.
Example maven_ex3 : compareMavenVersions "5.3.18.RELEASE" "5.3.18" = Some 0.
Proof. reflexivity. Qed.
Example maven_ex4 : compareMavenVersions "1.0.0" "1" = Some 0.
Proof. reflexivity. Qed.
Example maven_ex5 : compareMavenVersions "1.10" "1.9" = Some 1.
Proof. reflexivity. Qed.

(** * What holds of the comparison *)

(** [zip] and [all] by their equations. *)
Fixpoint compare_lists (l m : list mavenItem) : Z :=
  match l, m with
  | [], _ => right_rest m
  | x :: l', [] => then_cmp (compare_nil x) (compare_lists l' [])
  | x :: l', y :: m' => then_cmp (compare x y) (compare_lists l' m')
  end.

Lemma compare_list_list l m : compare (mavenList l) (mavenList m) = compare_lists l m.
Proof. revert m. induction l as [|x l IH]; intros [|y m]; simpl in *; rewrite ?IH; done. Qed.

(** Induction over items, sublists included. *)
Section item_ind.
Variable P : mavenItem -> Prop.
Hypothesis Hnum : forall n, P (mavenNumber n).
Hypothesis Hqual : forall s, P (mavenQualifier s).
Hypothesis Hlist : forall l, Forall P l -> P (mavenList l).

Fixpoint mavenItem_rect' (it : mavenItem) : P it :=
  match it with
  | mavenNumber n => Hnum n
  | mavenQualifier s => Hqual s
  | mavenList l =>
      Hlist l ((fix all (l : list mavenItem) : Forall P l :=
                  match l with
                  | [] => Forall_nil_2 P
                  | x :: l' => Forall_cons_2 P x l' (mavenItem_rect' x) (all l')
                  end) l)
  end.
End item_ind.

Lemma compare_lists_right m : compare_lists m [] = - right_rest m.
Proof.
  induction m as [|y m IH]; simpl; [done|]. by rewrite IH, <- then_cmp_opp, Z.opp_involutive.
Qed.

Lemma compare_anti a b : compare b a = - compare a b.
Proof.
  revert b. induction a as [n|s|l IH] using mavenItem_rect'; intros [m|t|m].
  1: { simpl. by rewrite (cmp_anti compareInt (slen n)), (cmp_anti Compare n m), then_cmp_opp. }
  1-4,6-7: try done; simpl; apply (cmp_anti Compare).
  - done.
  - rewrite !compare_list_list. revert m. induction IH as [|x l Hx _ IH]; intros m.
    + rewrite compare_lists_right. done.
    + destruct m as [|y m]; simpl.
      * by rewrite compare_lists_right, <- then_cmp_opp, Z.opp_involutive.
      * by rewrite Hx, IH, then_cmp_opp.
Qed.

Lemma compare_nil_sign a : sign_ok (compare_nil a).
Proof.
  induction a as [n|s|l IH] using mavenItem_rect'; simpl.
  - destruct (n =? "")%string; unfold sign_ok; lia.
  - apply (cmp_sign Compare).
  - induction IH as [|x l Hx _ IH]; [right; by left|]. by apply then_cmp_sign.
Qed.

Lemma opp_sign z : sign_ok z -> sign_ok (- z).
Proof. unfold sign_ok. lia. Qed.

Lemma right_rest_sign m : sign_ok (right_rest m).
Proof.
  induction m as [|y m IH]; simpl; [right; by left|].
  apply then_cmp_sign; [apply opp_sign, compare_nil_sign|done].
Qed.

Lemma compare_sign a b : sign_ok (compare a b).
Proof.
  revert b. induction a as [n|s|l IH] using mavenItem_rect'; intros [m|t|m];
    try (unfold sign_ok; simpl; lia).
  - apply then_cmp_sign; [apply (cmp_sign compareInt)|apply (cmp_sign Compare)].
  - apply (cmp_sign Compare).
  - rewrite compare_list_list. revert m. induction IH as [|x l Hx _ IH]; intros m.
    + apply right_rest_sign.
    + destruct m as [|y m]; simpl; apply then_cmp_sign; auto using compare_nil_sign.
Qed.

(** [compareMavenVersions] answers with -1, 0 or 1 exactly on two versions
    it parses, is reflexive and antisymmetric; but it is not an order: a
    sublist in a sublist outranks the qualifier "sp" and yet falls below the
    padding when it holds a prerelease, which closes a cycle. *)
Theorem compareMavenVersions_props :
  (forall a b, is_Some (compareMavenVersions a b) <->
     is_Some (parseMavenVersion a) /\ is_Some (parseMavenVersion b)) /\
  (forall a b c, compareMavenVersions a b = Some c ->
     sign_ok c /\ compareMavenVersions b a = Some (- c) /\ compareMavenVersions a a = Some 0) /\
  (compareMavenVersions "1-0-alpha" "1" = Some (-1) /\
   compareMavenVersions "1" "1-sp" = Some (-1) /\
   compareMavenVersions "1-sp" "1-0-alpha" = Some (-1)).
Proof.
  unfold compareMavenVersions. split; [|split].
  - intros a b. destruct (parseMavenVersion a), (parseMavenVersion b); rewrite !is_Some_alt; tauto.
  - intros a b c. destruct (parseMavenVersion a) as [x|], (parseMavenVersion b) as [y|]; try done.
    generalize (mavenList x) (mavenList y). intros u v Hc.
    assert (c = compare u v) as -> by congruence. split; [apply compare_sign|].
    rewrite (compare_anti u v). split; [done|]. f_equal. pose proof (compare_anti u u). lia.
  - vm_compute. done.
Qed.
