(* ===== verification/OsvRange.v ===== *)
(** The OSV matcher: version orders by name, range evaluation, and the trimming
    of enumerated versions, of internal/policy/osvmatch.go, with the part of
    internal/policy/osvdb.go that files and looks up advisories. *)

From stdpp Require Import base list gmap strings sorting.
From Stdlib Require Import ZArith Lia Ascii.
From S2P Require Import Prelude GoStrings GoSort DebianVersion SemverVersion Pep440Version GemVersion MavenVersion RpmVersion Types.

(** ** Orders *)

Definition orderSemver := "semver".
Definition orderPEP440 := "pep440".
Definition orderDebian := "debian".
Definition orderRubyGems := "rubygems".
Definition orderMaven := "maven".
Definition orderRpm := "rpm".

(** [None] is the Go result [(0, false)]. *)
Definition compareVersions (order a b : string) : option Z :=
  if (order =? orderPEP440)%string then comparePEP440 a b
  else if (order =? orderDebian)%string then compareDebian a b
  else if (order =? orderRubyGems)%string then compareGemVersions a b
  else if (order =? orderMaven)%string then compareMavenVersions a b
  else if (order =? orderRpm)%string then compareRpmEVR a b
  else compareSemver a b.

Definition orderable (order v : string) : bool :=
  if (order =? orderPEP440)%string then isSome (parsePEP440 v)
  else if (order =? orderDebian)%string then isSome (parseDebian v)
  else if (order =? orderRubyGems)%string then isSome (parseGemVersion v)
  else if (order =? orderMaven)%string then isSome (parseMavenVersion v)
  else if (order =? orderRpm)%string then isSome (splitRpmEVR v)
  else isSome (parseSemver v).

(** Maps a bodega package type to its order. *)
Definition packageVersionOrder (typ : string) : option string :=
  if slice_contains [TypeNpm; TypeCargo; TypeGomod; TypeComposer] typ then Some orderSemver
  else if (typ =? TypeOCI)%string then Some orderSemver
  else if (typ =? TypeMaven)%string then Some orderMaven
  else if (typ =? TypeRubygems)%string then Some orderRubyGems
  else if (typ =? TypeRpm)%string then Some orderRpm
  else None.

Definition CompareVersions (typ a b : string) : option Z :=
  order ← packageVersionOrder typ; compareVersions order a b.

(** The numbers a version opens with. *)
Fixpoint maven_release (l : list mavenItem) : option (list Z) :=
  match l with
  | mavenNumber n :: l' =>
      x ← (if (n =? "")%string then Some 0 else atoi_opt n);
      rest ← maven_release l'; Some (x :: rest)
  | _ => Some []
  end.

Fixpoint gem_release (segs : list gemSegment) : list Z :=
  match segs with
  | s :: segs' => if negb (str s =? "")%string then [] else num s :: gem_release segs'
  | [] => []
  end.

Fixpoint rpm_release (segs : list string) : list Z :=
  match segs with
  | seg :: segs' => match atoi_opt seg with Some n => n :: rpm_release segs' | None => [] end
  | [] => []
  end.

Definition release_of (order v : string) : option (list Z) :=
  if (order =? orderMaven)%string then root ← parseMavenVersion v; maven_release root
  else if (order =? orderRubyGems)%string then segs ← parseGemVersion v; Some (gem_release segs)
  else if (order =? orderRpm)%string then
    match splitRpmEVR v with
    | Some (_, version, _) =>
        let out := rpm_release (Split "." version) in
        if (0 <? length out)%nat then Some out else None
    | None => None
    end
  else sv ← parseSemver v; Some (SemverVersion.release sv).

Definition ReleaseSegments (typ v : string) : option (list Z) :=
  order ← packageVersionOrder typ; release_of order v.

(** ** Records *)

Record osvEvent := OsvEvent {
  Introduced : string;
  Fixed : string;
  LastAffected : string
}.

Record osvRange := OsvRange {
  range_Type : string;
  Events : list osvEvent
}.

Record osvAffected := OsvAffected {
  Versions : list string;
  Ranges : list osvRange
}.

(** [kind]: 0 introduced, 1 last_affected, 2 fixed.  [min] marks an
    [introduced] of "0", the beginning. *)
Record rangeEvent := RangeEvent {
  re_version : string;
  re_kind : Z;
  re_min : bool
}.

(** ** Range evaluation *)

Definition resolve_event (e : osvEvent) : option rangeEvent :=
  if negb (Introduced e =? "")%string
  then Some (RangeEvent (Introduced e) 0 (Introduced e =? "0")%string)
  else if negb (LastAffected e =? "")%string then Some (RangeEvent (LastAffected e) 1 false)
  else if negb (Fixed e =? "")%string then Some (RangeEvent (Fixed e) 2 false)
  else None.

Definition resolve_events (es : list osvEvent) : list rangeEvent := omap resolve_event es.

(** The comparator handed to [sort.SliceStable]; [c, _ :=] drops the second
    result, so an unordered pair compares 0. *)
Definition event_less (order : string) (i j : rangeEvent) : bool :=
  if negb (Bool.eqb (re_min i) (re_min j)) then re_min i
  else
    let c := default 0 (compareVersions order (re_version i) (re_version j)) in
    if negb (c =? 0) then c <? 0 else re_kind i <? re_kind j.

(** The comparison of the queried version with an event's: past the minimum. *)
Definition event_cmp (order version : string) (e : rangeEvent) : Z :=
  if re_min e then 1 else default 0 (compareVersions order version (re_version e)).

Definition walk_step (order version : string) (vulnerable : bool) (e : rangeEvent) : bool :=
  let c := event_cmp order version e in
  if re_kind e =? 0 then (if 0 <=? c then true else vulnerable)
  else if re_kind e =? 1 then (if 0 <? c then false else vulnerable)
  else if re_kind e =? 2 then (if 0 <=? c then false else vulnerable)
  else vulnerable.

Definition walk (order version : string) (events : list rangeEvent) : bool :=
  fold_left (walk_step order version) events false.

Definition rangeOrder (r : osvRange) (order : string) : string :=
  if (range_Type r =? "SEMVER")%string then orderSemver else order.

(** The result is [(matched, unorderable)]. *)
Definition range_affects (r : osvRange) (order version : string) : bool * string :=
  if (range_Type r =? "GIT")%string then (false, "")
  else
    let ro := rangeOrder r order in
    if negb (orderable ro version) then (false, version)
    else
      let events := resolve_events (Events r) in
      match List.find (fun e => negb (re_min e) && negb (orderable ro (re_version e))) events with
      | Some e => (false, re_version e)
      | None => (walk ro version (SliceStable (event_less ro) events), "")
      end.

(** ** One affected entry *)

(** An enumerated version names the queried one, as a string or in the order. *)
Definition version_hits (order version v : string) : bool :=
  (v =? version)%string ||
  match compareVersions order v version with Some c => c =? 0 | None => false end.

Fixpoint ranges_affect (rs : list osvRange) (order version unorderable : string) : bool * string :=
  match rs with
  | [] => (false, unorderable)
  | r :: rs' =>
      let '(hit, bad) := range_affects r order version in
      if hit then (true, "")
      else ranges_affect rs' order version
             (if negb (bad =? "")%string && (unorderable =? "")%string then bad else unorderable)
  end.

Definition affects (a : osvAffected) (order version : string) : bool * string :=
  if existsb (version_hits order version) (Versions a) then (true, "")
  else ranges_affect (Ranges a) order version "".

Definition trimCovered (order : string) (versions : list string) (ranges : list osvRange)
  : list string :=
  let covered :=
    List.filter (fun r => negb ((range_Type r =? "SEMVER")%string && negb (order =? orderSemver)%string))
      ranges in
  if (length covered =? 0)%nat then versions
  else
    List.filter (fun v => negb (orderable order v && (affects (OsvAffected [] covered) order v).1))
      versions.

(** ** Ecosystems *)

Definition RpmOSVEcosystems : list string := ["AlmaLinux"; "Red Hat"; "Rocky Linux"].

(** [strings.Cut(s, ":")] *)
Definition cut_colon (s : string) : string * string :=
  match cut_byte ":" s with Some p => p | None => (s, "") end.

Definition isDistroEcosystem (ecosystem : string) : bool :=
  let base := (cut_colon ecosystem).1 in
  (base =? "Ubuntu")%string || (base =? "Debian")%string.

Definition isRpmEcosystem (ecosystem : string) : bool :=
  slice_contains RpmOSVEcosystems (cut_colon ecosystem).1.

Definition osvVersionOrder (ecosystem : string) : string :=
  if (ecosystem =? "PyPI")%string then orderPEP440
  else if (ecosystem =? "RubyGems")%string then orderRubyGems
  else if (ecosystem =? "Maven")%string then orderMaven
  else if isDistroEcosystem ecosystem then orderDebian
  else if isRpmEcosystem ecosystem then orderRpm
  else orderSemver.

Definition rpmReleaseEcosystem (vendor releasever : string) : string :=
  let major := match cut_byte "." releasever with Some (m, _) => m | None => releasever end in
  if (vendor =? "")%string || (major =? "")%string || negb (Trim major "0123456789" =? "")%string
  then "" else vendor +:+ ":" +:+ major.

Definition rpmRecordedRelease (recorded : string) : string :=
  match Split ":" recorded with
  | vendor :: second :: more =>
      if negb (slice_contains RpmOSVEcosystems vendor) then ""
      else if (vendor =? "Red Hat")%string then
        match more with
        | third :: _ =>
            if negb (second =? "enterprise_linux")%string then "" else rpmReleaseEcosystem vendor third
        | [] => ""
        end
      else rpmReleaseEcosystem vendor second
  | _ => ""
  end.

Definition osvPackageKey (ecosystem name : string) : string :=
  if (ecosystem =? "PyPI")%string then CanonicalPypiName name
  else if (ecosystem =? "Go")%string then name
  else ToLower name.

Definition rpmIndexKey (major name : string) : string := major +:+ "/" +:+ ToLower name.

(** The index, the key in it, and whether it is kept by release. *)
Definition osvIndexFor (ecosystem name : string) : string * string * bool :=
  if isRpmEcosystem ecosystem then
    let '(vendor, major) := cut_colon ecosystem in (vendor, rpmIndexKey major name, true)
  else (ecosystem, osvPackageKey ecosystem name, false).

Record osvRecordedAffected := OsvRecordedAffected {
  Package_Name : string;
  Package_Ecosystem : string;
  rec_Versions : list string;
  rec_Ranges : list osvRange
}.

Fixpoint rpmAffectsRelease (ecosystem name version : string) (affected : list osvRecordedAffected)
  : bool :=
  match affected with
  | [] => false
  | aff :: rest =>
      let want := (osvIndexFor ecosystem name).1.2 in
      let release := rpmRecordedRelease (Package_Ecosystem aff) in
      if negb (release =? ecosystem)%string then rpmAffectsRelease ecosystem name version rest
      else if negb ((osvIndexFor release (Package_Name aff)).1.2 =? want)%string
      then rpmAffectsRelease ecosystem name version rest
      else
        let '(matched, bad) :=
          affects (OsvAffected (rec_Versions aff) (rec_Ranges aff)) orderRpm version in
        if matched || negb (bad =? "")%string then true
        else rpmAffectsRelease ecosystem name version rest
  end.

Definition ubuntuProEcosystem (ecosystem : string) : string :=
  match cut_prefix ecosystem "Ubuntu:" with
  | Some rel => "Ubuntu:Pro:" +:+ rel
  | None => ""
  end.

Definition distillEcosystem (ecosystems : list string) (recorded : string) : string :=
  let base := (cut_colon recorded).1 in
  default "" (List.find (fun eco => (recorded =? eco)%string || (base =? eco)%string
                                 || (recorded =? ubuntuProEcosystem eco)%string) ecosystems).

Definition OSVEcosystemFile (ecosystem : string) : string := ReplaceAll ecosystem ":" "-".

Example range_ex1 :
  range_affects (OsvRange "ECOSYSTEM" [OsvEvent "" "1.2" ""; OsvEvent "0" "" ""]) orderPEP440 "1.2rc1"
  = (true, "").
Proof. vm_compute. reflexivity. Qed.
Example range_ex2 :
  range_affects (OsvRange "ECOSYSTEM" [OsvEvent "0" "" ""; OsvEvent "" "" "4.1.0-NA"]) orderPEP440 "1.0"
  = (false, "4.1.0-NA").
Proof. vm_compute. reflexivity. Qed.

(** ** Which versions an order places consistently

    [comparable order v] is what the order needs of a version for its answers
    to chain: nothing beyond [orderable] for the four schemes, a release for
    rpm (a version without one equals every release of it), and it never
    holds for Maven, whose order has cycles. *)

Record ordered_on (ok : string -> Prop) (cmp : string -> string -> option Z) : Prop := {
  oo_defined : forall a b, ok a -> ok b -> is_Some (cmp a b);
  oo_anti : forall a b c, cmp a b = Some c -> cmp b a = Some (- c);
  oo_trans : forall a b c x y, ok b -> cmp a b = Some x -> cmp b c = Some y -> x <= 0 -> y <= 0 ->
             exists z, cmp a c = Some z /\ z <= 0
}.

Definition has_release (v : string) : bool :=
  match splitRpmEVR v with Some (_, _, r) => negb (r =? "")%string | None => false end.

Definition comparable (order v : string) : bool :=
  orderable order v && negb (order =? orderMaven)%string
  && (negb (order =? orderRpm)%string || has_release v).

Lemma version_preorder_ordered ok cmp : version_preorder ok cmp -> ordered_on ok cmp.
Proof.
  intros [Hd Hs Hr Ha Ht]. split; [|done|].
  - intros a b Ha' Hb. by apply Hd.
  - intros a b c x y _. apply Ht.
Qed.

Lemma ordered_on_impl (ok ok' : string -> Prop) cmp :
  (forall v, ok' v -> ok v) -> ordered_on ok cmp -> ordered_on ok' cmp.
Proof.
  intros Himpl [Hd Ha Ht]. split; [|done|]; [naive_solver|].
  intros a b c x y Hb. apply Ht. by apply Himpl.
Qed.

Lemma rpm_ordered : ordered_on (fun v => has_release v = true) compareRpmEVR.
Proof.
  unfold has_release, compareRpmEVR. split.
  - intros a b. destruct (splitRpmEVR a), (splitRpmEVR b); done.
  - intros a b c. destruct (splitRpmEVR a) as [x|], (splitRpmEVR b) as [y|]; try done.
    intros Hc. rewrite (evr_cmp_anti x y). congruence.
  - intros a b c x y. destruct (splitRpmEVR b) as [[[e v] r]|]; [|done].
    destruct (splitRpmEVR a) as [u|], (splitRpmEVR c) as [t|]; try done.
    intros Hr Hx Hy Hx0 Hy0. eexists. split; [done|]. simplify_eq.
    apply (evr_cmp_trans u (e, v, r) t); [|done..]. simpl. intros ->. done.
Qed.

(** The order [compareVersions] picks, case by case. *)
Lemma compareVersions_cases (P : string -> (string -> bool) -> (string -> string -> option Z) -> Prop) order :
  P orderPEP440 (fun v => isSome (parsePEP440 v)) comparePEP440 ->
  P orderDebian (fun v => isSome (parseDebian v)) compareDebian ->
  P orderRubyGems (fun v => isSome (parseGemVersion v)) compareGemVersions ->
  P orderMaven (fun v => isSome (parseMavenVersion v)) compareMavenVersions ->
  P orderRpm (fun v => isSome (splitRpmEVR v)) compareRpmEVR ->
  (forall o, o <> orderMaven -> o <> orderRpm -> P o (fun v => isSome (parseSemver v)) compareSemver) ->
  P order (orderable order) (compareVersions order).
Proof.
  intros H1 H2 H3 H4 H5 H6. unfold orderable, compareVersions.
  destruct (String.eqb_spec order orderPEP440) as [->|]; [done|].
  destruct (String.eqb_spec order orderDebian) as [->|]; [done|].
  destruct (String.eqb_spec order orderRubyGems) as [->|]; [done|].
  destruct (String.eqb_spec order orderMaven) as [->|]; [done|].
  destruct (String.eqb_spec order orderRpm) as [->|]; [done|]. by apply H6.
Qed.

Lemma comparable_ordered order : ordered_on (fun v => comparable order v = true) (compareVersions order).
Proof.
  unfold comparable.
  apply (compareVersions_cases (fun order ok cmp =>
    ordered_on (fun v => ok v && negb (order =? orderMaven)%string
                  && (negb (order =? orderRpm)%string || has_release v) = true) cmp)).
  1-3: eapply ordered_on_impl; [|apply version_preorder_ordered, (scheme_preorder _)];
    intros v Hv; apply isSome_spec; by apply andb_true_iff in Hv as [[? _]%andb_true_iff _].
  - apply (ordered_on_impl (fun _ => False)).
    { intros v Hv. by apply andb_true_iff in Hv as [[_ ?]%andb_true_iff _]. }
    split; try done. intros a b c.
    unfold compareMavenVersions. destruct (parseMavenVersion a), (parseMavenVersion b); try done.
    intros Hc. rewrite compare_anti. congruence.
  - eapply ordered_on_impl; [|apply rpm_ordered].
    intros v Hv. by apply andb_true_iff in Hv as [_ ?].
  - intros o Hm Hr. eapply ordered_on_impl; [|apply version_preorder_ordered, (scheme_preorder _)];
    intros v Hv; apply isSome_spec; by apply andb_true_iff in Hv as [[? _]%andb_true_iff _].
Qed.

Lemma compareVersions_defined order a b :
  is_Some (compareVersions order a b) <-> orderable order a = true /\ orderable order b = true.
Proof.
  apply (compareVersions_cases (fun order ok cmp => is_Some (cmp a b) <-> ok a = true /\ ok b = true)).
  1-3: rewrite !isSome_spec.
  - exact (vp_defined _ _ (scheme_preorder comparePEP440) a b).
  - exact (vp_defined _ _ (scheme_preorder compareDebian) a b).
  - exact (vp_defined _ _ (scheme_preorder compareGemVersions) a b).
  - unfold compareMavenVersions. rewrite !isSome_spec, !is_Some_alt.
    destruct (parseMavenVersion a), (parseMavenVersion b); tauto.
  - unfold compareRpmEVR. rewrite !isSome_spec, !is_Some_alt.
    destruct (splitRpmEVR a), (splitRpmEVR b); tauto.
  - intros o _ _. rewrite !isSome_spec. exact (vp_defined _ _ (scheme_preorder compareSemver) a b).
Qed.

(** ** Comparing on the comparable versions *)

Definition cmpz (order a b : string) : Z := default 0 (compareVersions order a b).

#[export] Instance comparable_comparator order :
  Comparator (fun a b : {v | comparable order v = true} => cmpz order (`a) (`b)).
Proof.
  destruct (comparable_ordered order) as [Hd Ha Ht]. unfold cmpz. split.
  - intros [a Ha'] [b Hb']. simpl. destruct (Hd a b Ha' Hb') as [c Hc].
    by rewrite Hc, (Ha a b c Hc).
  - intros [a Ha'] [b Hb'] [c Hc']. simpl. destruct (Hd a b Ha' Hb') as [x Hx].
    destruct (Hd b c Hb' Hc') as [y Hy]. rewrite Hx, Hy. simpl. intros Hx0 Hy0.
    destruct (Ht a b c x y Hb' Hx Hy Hx0 Hy0) as (z & -> & ?). done.
Qed.

Section comparable.
Context (order : string) {a b c : string}.
Context (Ha : comparable order a = true) (Hb : comparable order b = true)
        (Hc : comparable order c = true).
Let C := fun a b : {v | comparable order v = true} => cmpz order (`a) (`b).

Lemma cmpz_anti : cmpz order b a = - cmpz order a b.
Proof. apply (cmp_anti C (a ↾ Ha) (b ↾ Hb)). Qed.

Lemma cmpz_trans : cmpz order a b <= 0 -> cmpz order b c <= 0 -> cmpz order a c <= 0.
Proof. apply (cmp_trans C (a ↾ Ha) (b ↾ Hb) (c ↾ Hc)). Qed.

Lemma cmpz_trans_lt_l : cmpz order a b < 0 -> cmpz order b c <= 0 -> cmpz order a c < 0.
Proof. apply (cmp_trans_lt_l C (a ↾ Ha) (b ↾ Hb) (c ↾ Hc)). Qed.

Lemma cmpz_trans_lt_r : cmpz order a b <= 0 -> cmpz order b c < 0 -> cmpz order a c < 0.
Proof. apply (cmp_trans_lt_r C (a ↾ Ha) (b ↾ Hb) (c ↾ Hc)). Qed.
End comparable.

(** ** The events of a range *)

(** What [resolve_event] produces, with bounds the order places. *)
Record event_ok (order : string) (e : rangeEvent) : Prop := {
  eo_kind : re_kind e = 0 \/ re_kind e = 1 \/ re_kind e = 2;
  eo_min : re_min e = true -> re_kind e = 0 /\ re_version e = "0";
  eo_bound : re_min e = false -> comparable order (re_version e) = true
}.

Definition event_le (order : string) (f e : rangeEvent) : Prop := event_less order e f = false.

Lemma cmpz_zero order : cmpz order "0" "0" = 0.
Proof.
  unfold cmpz. destruct (compareVersions order "0" "0") as [c|] eqn:E; [|done]. simpl.
  revert E. apply (compareVersions_cases (fun _ _ cmp => cmp "0" "0" = Some c -> c = 0));
    try (intros; vm_compute in *; congruence).
Qed.

(** [event_less] by cases. *)
Lemma event_less_spec order i j :
  event_ok order i -> event_ok order j ->
  event_less order i j = true <->
  (re_min i = true /\ re_min j = false) \/
  (re_min i = false /\ re_min j = false /\
   (cmpz order (re_version i) (re_version j) < 0 \/
    (cmpz order (re_version i) (re_version j) = 0 /\ re_kind i < re_kind j))).
Proof.
  intros Hi Hj. unfold event_less, cmpz.
  destruct (re_min i) eqn:Ei, (re_min j) eqn:Ej; simpl.
  - destruct (eo_min _ _ Hi Ei) as [-> ->], (eo_min _ _ Hj Ej) as [-> ->].
    pose proof (cmpz_zero order) as Hz. unfold cmpz in Hz. rewrite Hz. simpl.
    split; [done|intros [[_ ?]|(? & _)]; done].
  - tauto.
  - split; [done|intros [[? _]|(_ & ? & _)]; done].
  - generalize (default 0 (compareVersions order (re_version i) (re_version j))). intros c.
    destruct (Z.eqb_spec c 0) as [->|]; simpl.
    + rewrite Z.ltb_lt. split; [intros; right; auto with lia|].
      intros [[? _]|(_ & _ & [?|[_ ?]])]; [done|lia|done].
    + rewrite Z.ltb_lt. split; [intros; right; auto|].
      intros [[? _]|(_ & _ & [?|[? _]])]; done.
Qed.

Lemma event_less_asym order i j :
  event_ok order i -> event_ok order j -> event_less order i j = true -> event_less order j i = false.
Proof.
  intros Hi Hj H. apply not_true_iff_false. intros H'.
  apply event_less_spec in H; [|done..]. apply event_less_spec in H'; [|done..].
  destruct H as [[? ?]|(Ei & Ej & H)], H' as [[? ?]|(? & ? & H')]; try congruence.
  rewrite (cmpz_anti order (eo_bound _ _ Hi Ei) (eo_bound _ _ Hj Ej)) in H'. lia.
Qed.

Lemma event_le_trans order e f g :
  event_ok order e -> event_ok order f -> event_ok order g ->
  event_le order e f -> event_le order f g -> event_le order e g.
Proof.
  unfold event_le. intros He Hf Hg H1 H2. apply not_true_iff_false. intros H3.
  apply not_true_iff_false in H1, H2. rewrite event_less_spec in H1, H2, H3 by done.
  destruct (re_min g) eqn:Eg.
  { destruct H3 as [[_ ?]|(? & _)]; [|done]. destruct (re_min f) eqn:Ef; [apply H1|apply H2]; auto. }
  destruct (re_min f) eqn:Ef.
  { destruct (re_min e) eqn:Ee; [|apply H1; auto]. destruct H3 as [[? ?]|(? & ? & ?)]; [|done]. done. }
  destruct (re_min e) eqn:Ee.
  { destruct H3 as [[? ?]|(? & ? & ?)]; [|done]. done. }
  pose proof (eo_bound _ _ He Ee) as He'. pose proof (eo_bound _ _ Hf Ef) as Hf'.
  pose proof (eo_bound _ _ Hg Eg) as Hg'.
  assert (H1' : 0 <= cmpz order (re_version f) (re_version e)).
  { apply Z.nlt_ge. intros ?. apply H1. right. auto. }
  assert (H2' : 0 <= cmpz order (re_version g) (re_version f)).
  { apply Z.nlt_ge. intros ?. apply H2. right. auto. }
  rewrite (cmpz_anti order He' Hf') in H1'. rewrite (cmpz_anti order Hf' Hg') in H2'.
  pose proof (cmpz_trans order He' Hf' Hg' ltac:(lia) ltac:(lia)) as Heg.
  rewrite (cmpz_anti order He' Hg') in H3.
  destruct H3 as [[? _]|(_ & _ & [?|[H3 Hk]])]; [done|lia|].
  pose proof (cmpz_trans_lt_l order He' Hf' Hg'). pose proof (cmpz_trans_lt_r order He' Hf' Hg').
  assert (cmpz order (re_version e) (re_version f) = 0) by lia.
  assert (cmpz order (re_version f) (re_version g) = 0) by lia.
  apply H1. right. split; [done|]. split; [done|]. right. rewrite (cmpz_anti order He' Hf'). split; [lia|].
  apply Z.nle_gt. intros ?. apply H2. right. split; [done|]. split; [done|]. right.
  rewrite (cmpz_anti order Hf' Hg'). lia.
Qed.

(** ** What a range matches

    An event applies to a version when the walk acts on it.  The version is
    vulnerable when some introduced event applies and every closing event
    that applies lies strictly before it. *)

Definition applies (order version : string) (e : rangeEvent) : bool :=
  let c := event_cmp order version e in
  if re_kind e =? 1 then 0 <? c else 0 <=? c.

Definition strictly_before (order : string) (f e : rangeEvent) : bool :=
  negb (re_min e) && (cmpz order (re_version f) (re_version e) <? 0).

Definition vulnerable_at (order version : string) (events : list rangeEvent) : Prop :=
  exists e, e ∈ events /\ re_kind e = 0 /\ applies order version e = true /\
    forall f, f ∈ events -> re_kind f <> 0 -> applies order version f = true ->
      strictly_before order f e = true.

Lemma vulnerable_at_perm order version l l' :
  l ≡ₚ l' -> vulnerable_at order version l -> vulnerable_at order version l'.
Proof.
  intros Hp (e & He & Hk & Ha & Hf). exists e. split; [by rewrite <- Hp|].
  split; [done|]. split; [done|]. intros f Hf'. apply Hf. by rewrite Hp.
Qed.

Lemma walk_step_applies order version b e :
  event_ok order e ->
  walk_step order version b e = if applies order version e then re_kind e =? 0 else b.
Proof.
  intros [Hk _ _]. unfold walk_step, applies. destruct Hk as [->|[->| ->]]; simpl.
  - by destruct (0 <=? _).
  - by destruct (0 <? _).
  - by destruct (0 <=? _).
Qed.

(** The last event that applies decides, whatever sort put the events in
    order. *)
Lemma walk_sorted order version l :
  Forall (event_ok order) l -> StronglySorted (event_le order) l ->
  walk order version l = true <-> vulnerable_at order version l.
Proof.
  unfold walk, event_le. induction l as [|e l IH] using rev_ind; intros Hok Hs.
  - simpl. split; [done|]. intros (e & He & _). by apply elem_of_nil in He.
  - apply Forall_app in Hok as [Hl [He _]%Forall_cons].
    assert (Hle : forall f, f ∈ l -> event_less order e f = false).
    { intros f Hf. apply (StronglySorted_app_1_elem_of (fun f e => event_less order e f = false) l [e] f e Hs Hf).
      by apply list_elem_of_singleton. }
    assert (Hs' := StronglySorted_app_1_l _ _ _ Hs). specialize (IH Hl Hs').
    rewrite fold_left_app. cbn [fold_left]. rewrite (walk_step_applies order version _ e He).
    rewrite Forall_forall in Hl. destruct (applies order version e) eqn:Ea;
      [destruct (Z.eqb_spec (re_kind e) 0) as [Hk|Hk]|].
    + split; [intros _|done]. exists e. split; [by apply elem_of_app; right; apply list_elem_of_singleton|].
      split; [done|]. split; [done|]. intros f Hf Hkf Haf.
      apply elem_of_app in Hf as [Hf| ->%list_elem_of_singleton]; [|done].
      specialize (Hl f Hf). specialize (Hle f Hf). apply not_true_iff_false in Hle.
      rewrite event_less_spec in Hle by done. unfold strictly_before.
      assert (Hmf : re_min f = false). { destruct (re_min f) eqn:E; [|done]. by destruct (eo_min _ _ Hl E). }
      rewrite Hmf in Hle. destruct (re_min e) eqn:Eme; [exfalso; apply Hle; auto|]. simpl. apply Z.ltb_lt.
      rewrite (cmpz_anti order (eo_bound _ _ He Eme) (eo_bound _ _ Hl Hmf)).
      assert (re_kind e < re_kind f) by (destruct (eo_kind _ _ Hl) as [?|[?|?]]; lia).
      apply Z.opp_neg_pos, Z.nle_gt. intros Hc. apply Hle. right.
      split; [done|]. split; [done|]. lia.
    + split; [done|]. intros (e' & He' & Hk' & Ha' & Hf). exfalso.
      apply elem_of_app in He' as [He'| ->%list_elem_of_singleton]; [|done].
      specialize (Hf e ltac:(by apply elem_of_app; right; apply list_elem_of_singleton) Hk Ea).
      specialize (Hle e' He'). specialize (Hl e' He'). unfold strictly_before in Hf.
      apply andb_true_iff in Hf as [Hm%negb_true_iff Hc%Z.ltb_lt].
      apply not_true_iff_false in Hle. apply Hle. apply event_less_spec; [done..|].
      destruct (re_min e) eqn:Eme; [by left|]. right. auto.
    + rewrite IH. split; intros (e' & He' & Hk' & Ha' & Hf); exists e'.
      * split; [apply elem_of_app; by left|]. split; [done|]. split; [done|].
        intros f Hf'. apply elem_of_app in Hf' as [Hf'| ->%list_elem_of_singleton]; [by apply Hf|].
        congruence.
      * apply elem_of_app in He' as [He'| ->%list_elem_of_singleton]; [|congruence].
        split; [done|]. split; [done|]. split; [done|].
        intros f Hf'. apply Hf. apply elem_of_app. by left.
Qed.

Definition bounds (r : osvRange) : list rangeEvent := resolve_events (Events r).

Definition bound_placed (P : string -> bool) (e : rangeEvent) : bool := re_min e || P (re_version e).

Lemma resolve_event_wf e x :
  resolve_event e = Some x ->
  (re_kind x = 0 \/ re_kind x = 1 \/ re_kind x = 2) /\
  (re_min x = true -> re_kind x = 0 /\ re_version x = "0") /\ re_version x <> "".
Proof.
  unfold resolve_event. destruct (String.eqb_spec (Introduced e) ""); simpl.
  - destruct (String.eqb_spec (LastAffected e) ""); simpl; [|intros [= <-]; simpl; naive_solver].
    destruct (String.eqb_spec (Fixed e) ""); simpl; [done|intros [= <-]; simpl; naive_solver].
  - intros [= <-]. simpl. split; [by left|]. split; [|done]. intros H. split; [done|].
    by apply String.eqb_eq.
Qed.

Lemma bounds_wf r e :
  e ∈ bounds r ->
  (re_kind e = 0 \/ re_kind e = 1 \/ re_kind e = 2) /\
  (re_min e = true -> re_kind e = 0 /\ re_version e = "0") /\ re_version e <> "".
Proof. intros (x & _ & Hx)%list_elem_of_omap. by apply resolve_event_wf in Hx. Qed.

Lemma bounds_ok order r :
  forallb (bound_placed (comparable order)) (bounds r) = true -> Forall (event_ok order) (bounds r).
Proof.
  rewrite forallb_forall, Forall_forall. intros H e He.
  pose proof (bounds_wf r e He) as (H1 & H2 & _). split; [done..|]. intros Hm.
  apply list_elem_of_In in He. specialize (H e He). unfold bound_placed in H. by rewrite Hm in H.
Qed.

Lemma comparable_orderable order v : comparable order v = true -> orderable order v = true.
Proof. by intros [[? _]%andb_true_iff _]%andb_true_iff. Qed.

Lemma find_none_forallb {A} (f g : A -> bool) l :
  (forall x, g x = true -> f x = false) -> forallb g l = true -> List.find f l = None.
Proof.
  intros H. induction l as [|x l IH]; simpl; [done|]. intros [Hx Hl]%andb_true_iff.
  by rewrite (H x Hx), IH.
Qed.

(** A range whose every bound, and the version, the order can read. *)
Lemma range_affects_walk r order version :
  range_Type r <> "GIT" -> orderable (rangeOrder r order) version = true ->
  forallb (bound_placed (orderable (rangeOrder r order))) (bounds r) = true ->
  range_affects r order version =
  (walk (rangeOrder r order) version (SliceStable (event_less (rangeOrder r order)) (bounds r)), "").
Proof.
  intros Hgit Hv Hb. unfold range_affects. rewrite (proj2 (String.eqb_neq _ _) Hgit), Hv. simpl.
  fold (bounds r). erewrite find_none_forallb; [done| |exact Hb].
  intros e He. unfold bound_placed in He. destruct (re_min e); [done|]. simpl in *. by rewrite He.
Qed.

(** C36: what an OSV range matches.  When the order places every bound (any
    bound but an [introduced] of "0", the beginning), a version is affected
    exactly when some introduced bound is at or below it and every closing
    bound that has been reached ([fixed] at or below the version,
    [last_affected] below it) lies strictly before that introduced bound.  The
    answer does not depend on how the events were ordered: any list of them
    sorted by [event_less] walks to the same result. *)
Theorem range_affects_spec r order version :
  let ro := rangeOrder r order in
  range_Type r <> "GIT" -> orderable ro version = true ->
  forallb (bound_placed (comparable ro)) (bounds r) = true ->
  (range_affects r order version).2 = "" /\
  ((range_affects r order version).1 = true <-> vulnerable_at ro version (bounds r)) /\
  (forall l, l ≡ₚ bounds r -> StronglySorted (event_le ro) l ->
     (range_affects r order version).1 = walk ro version l).
Proof.
  cbv zeta. set (ro := rangeOrder r order). intros Hgit Hv Hb.
  pose proof (bounds_ok ro r Hb) as Hok.
  assert (Hw : range_affects r order version = (walk ro version (SliceStable (event_less ro) (bounds r)), "")).
  { apply range_affects_walk; [done..|]. apply forallb_forall. intros e He.
    eapply forallb_forall in Hb; [|done]. unfold bound_placed in *.
    destruct (re_min e); [done|]. by apply comparable_orderable. }
  assert (Hs : StronglySorted (event_le ro) (SliceStable (event_less ro) (bounds r))).
  { apply (SliceStable_sorted _ (event_ok ro)); [apply event_less_asym| |done].
    intros x y z Hx Hy Hz. by apply event_le_trans. }
  assert (Hspec : forall l, l ≡ₚ bounds r -> StronglySorted (event_le ro) l ->
            walk ro version l = true <-> vulnerable_at ro version (bounds r)).
  { intros l Hl Hsl. rewrite walk_sorted by (by rewrite ?Hl).
    split; by apply vulnerable_at_perm. }
  rewrite Hw. simpl. split; [done|]. split; [apply Hspec; [apply SliceStable_perm|done]|].
  intros l Hl Hsl. apply eq_true_iff_eq. rewrite !Hspec; [done..| |done]. apply SliceStable_perm.
Qed.

Definition two_intervals : osvRange :=
  OsvRange "ECOSYSTEM" [OsvEvent "" "2.1" ""; OsvEvent "0" "" ""; OsvEvent "2.0" "" ""; OsvEvent "" "1.2" ""].

Lemma range_affects_spec_witness :
  (range_affects two_intervals orderPEP440 "2.0.5").1 = true <->
  vulnerable_at orderPEP440 "2.0.5" (bounds two_intervals).
Proof.
  apply (range_affects_spec two_intervals orderPEP440 "2.0.5"); [discriminate|vm_compute; reflexivity..].
Defined.

(** A range that could not be walked is never a match, and the string it
    names as unorderable is the queried version or one of its bounds that the
    range's order cannot read; a range is a match only when everything in it
    can be read.  An empty version is the one exception to being reported: it
    is what stops the walk and also what "no string" looks like. *)
Theorem range_affects_unorderable r order version matched bad :
  range_affects r order version = (matched, bad) ->
  (bad <> "" ->
     matched = false /\ orderable (rangeOrder r order) bad = false /\
     (bad = version \/ exists e, e ∈ bounds r /\ re_min e = false /\ re_version e = bad)) /\
  (matched = true ->
     range_Type r <> "GIT" /\ orderable (rangeOrder r order) version = true /\
     forallb (bound_placed (orderable (rangeOrder r order))) (bounds r) = true) /\
  (bad = "" -> range_Type r <> "GIT" -> version <> "" -> orderable (rangeOrder r order) version = true) /\
  affects (OsvAffected [] [two_intervals]) orderSemver "" = (false, "").
Proof.
  unfold range_affects. fold (bounds r). destruct (String.eqb_spec (range_Type r) "GIT") as [Hg|Hg].
  { intros [= <- <-]. split; [done|]. split; [done|]. split; [done|]. by vm_compute. }
  destruct (orderable _ version) eqn:Hv; simpl; last first.
  { intros [= <- <-]. split; [by auto|]. split; [done|]. split; [done|]. by vm_compute. }
  destruct (List.find _ _) as [e|] eqn:Hf.
  - apply find_some in Hf as [Hin [Hm%negb_true_iff Ho%negb_true_iff]%andb_true_iff].
    apply list_elem_of_In in Hin. intros [= <- <-]. split; [|split; [done|split; [done|by vm_compute]]].
    intros _. split; [done|]. split; [done|]. right. eauto.
  - intros [= Hm <-]. split; [done|]. split; [|split; [done|by vm_compute]].
    intros _. split; [done|]. split; [done|]. apply forallb_forall. intros e He.
    pose proof (find_none _ _ Hf e He) as Hn. simpl in Hn. unfold bound_placed.
    destruct (re_min e); [done|]. by destruct (orderable _ (re_version e)).
Qed.

Lemma range_affects_unorderable_witness :
  let r := OsvRange "ECOSYSTEM" [OsvEvent "0" "" ""; OsvEvent "" "" "4.1.0-NA"] in
  orderable (rangeOrder r orderPEP440) "4.1.0-NA" = false.
Proof.
  cbv zeta. apply (range_affects_unorderable _ orderPEP440 "1.0" false "4.1.0-NA"); [|discriminate].
  vm_compute. reflexivity.
Defined.

(** Swapping the sides negates the answer, under all six orders. *)
Lemma cmpz_swap order a b : cmpz order b a = - cmpz order a b.
Proof.
  unfold cmpz. destruct (compareVersions order a b) as [c|] eqn:E; last first.
  { destruct (compareVersions order b a) as [c|] eqn:E'; [|done]. exfalso.
    assert (H : is_Some (compareVersions order b a)) by by exists c.
    apply compareVersions_defined in H as [Ha Hb].
    assert (H : is_Some (compareVersions order a b)) by by apply compareVersions_defined.
    rewrite E in H. by destruct H. }
  revert E. apply (compareVersions_cases (fun _ _ cmp => cmp a b = Some c -> default 0 (cmp b a) = - c)).
  1-3: intros E; by rewrite (vp_anti _ _ (scheme_preorder _) _ _ _ E).
  - unfold compareMavenVersions. destruct (parseMavenVersion a), (parseMavenVersion b); try done.
    intros E. cbn [default]. rewrite compare_anti. simplify_eq. done.
  - unfold compareRpmEVR. destruct (splitRpmEVR a) as [x|], (splitRpmEVR b) as [y|]; try done.
    intros E. cbn [default]. rewrite (evr_cmp_anti x y). simplify_eq. done.
  - intros o _ _ E. by rewrite (vp_anti _ _ (scheme_preorder _) _ _ _ E).
Qed.

(** A closing event of a single interval. *)
Inductive closing := FixedAt (v : string) | LastAt (v : string).

Definition closing_version (c : closing) : string := match c with FixedAt v | LastAt v => v end.

Definition closing_event (c : closing) : osvEvent :=
  match c with FixedAt v => OsvEvent "" v "" | LastAt v => OsvEvent "" "" v end.

Definition inside (order : string) (c : closing) (version : string) : bool :=
  match c with
  | FixedAt v => cmpz order version v <? 0
  | LastAt v => cmpz order version v <=? 0
  end.

Lemma resolve_closing c :
  closing_version c <> "" ->
  exists k, (k = 1 \/ k = 2) /\ resolve_event (closing_event c) = Some (RangeEvent (closing_version c) k false)
    /\ (k = 1 <-> exists v, c = LastAt v).
Proof.
  intros Hv. destruct c as [v|v]; simpl in *; unfold resolve_event; simpl;
    rewrite (proj2 (String.eqb_neq v "") Hv); [exists 2|exists 1].
  - split; [by right|]. split; [done|]. split; [done|]. by intros [? ?].
  - split; [by left|]. split; [done|]. split; [by exists v|done].
Qed.

Lemma SliceStable_two {A} (less : A -> A -> bool) x y :
  less y x = false -> less x y = true -> SliceStable less [x; y] = [x; y] /\ SliceStable less [y; x] = [x; y].
Proof. intros H1 H2. unfold SliceStable. simpl. by rewrite H1, H2. Qed.

(** The common advisory, one interval: [introduced] a below its closing
    bound matches exactly the versions from a on that are before a fixed
    version (or not past a last affected one), in whichever order the two
    events are written, under every order the program has, Maven's and rpm's
    included; and [introduced] "0" reaches down to every version. *)
Theorem range_affects_interval order typ a c version :
  typ <> "GIT" -> let r := OsvRange typ [OsvEvent a "" ""; closing_event c] in
  let r' := OsvRange typ [closing_event c; OsvEvent a "" ""] in
  let ro := rangeOrder r order in
  a <> "" -> closing_version c <> "" ->
  orderable ro version = true -> orderable ro a = true -> orderable ro (closing_version c) = true ->
  (a = "0" \/ cmpz ro a (closing_version c) < 0) ->
  range_affects r order version =
    (((a =? "0")%string || (0 <=? cmpz ro version a)) && inside ro c version, "") /\
  range_affects r' order version = range_affects r order version.
Proof.
  intros Ht r r' ro Ha Hc Hv Hoa Hoc Hlt.
  destruct (resolve_closing c Hc) as (k & Hk & Hres & Hlast).
  set (ea := RangeEvent a 0 (a =? "0")%string). set (ec := RangeEvent (closing_version c) k false).
  assert (Hea : resolve_event (OsvEvent a "" "") = Some ea).
  { unfold resolve_event. simpl. by rewrite (proj2 (String.eqb_neq a "") Ha). }
  assert (Hb : bounds r = [ea; ec] /\ bounds r' = [ec; ea]).
  { unfold bounds, resolve_events, r, r'. simpl. by rewrite Hea, Hres. }
  destruct Hb as [Hb Hb'].
  assert (Hless : event_less ro ea ec = true /\ event_less ro ec ea = false).
  { unfold event_less, ea, ec. simpl. fold (cmpz ro a (closing_version c)). fold (cmpz ro (closing_version c) a).
    destruct (String.eqb_spec a "0") as [|Hn]; simpl; [done|]. destruct Hlt as [|Hlt]; [done|].
    rewrite (cmpz_swap ro a). set (x := cmpz _ _ _) in *.
    rewrite (proj2 (Z.eqb_neq x 0)), (proj2 (Z.eqb_neq (- x) 0)) by lia. simpl.
    rewrite (proj2 (Z.ltb_lt x 0)), (proj2 (Z.ltb_ge (- x) 0)) by lia. done. }
  destruct (SliceStable_two (event_less ro) ea ec) as [Hs Hs']; [apply Hless..|].
  assert (Hplaced : bound_placed (orderable ro) ea = true /\ bound_placed (orderable ro) ec = true).
  { unfold bound_placed. simpl. rewrite Hoa, Hoc. by rewrite orb_true_r. }
  destruct Hplaced as [Hpa Hpc]. change (rangeOrder r' order) with ro in *.
  rewrite !range_affects_walk; try done; change (rangeOrder r' order) with ro; change (rangeOrder r order) with ro.
  2,3: rewrite ?Hb, ?Hb'; simpl; by rewrite Hpa, Hpc.
  rewrite Hb, Hb', Hs, Hs'. split; [|done]. f_equal.
  unfold walk. cbn [fold_left]. unfold walk_step, event_cmp, ea, ec. simpl.
  fold (cmpz ro version a). fold (cmpz ro version (closing_version c)).
  assert (Hin : inside ro c version = if k =? 1 then cmpz ro version (closing_version c) <=? 0
                                      else cmpz ro version (closing_version c) <? 0).
  { destruct (Z.eqb_spec k 1) as [Hk1|Hk1].
    - apply Hlast in Hk1 as [v ->]. done.
    - destruct c as [v|v]; [done|]. exfalso. apply Hk1, Hlast. by exists v. }
  rewrite Hin. set (x := cmpz ro version a). set (y := cmpz ro version (closing_version c)).
  destruct (a =? "0")%string; simpl; destruct Hk as [->| ->]; simpl; repeat case_match; to_prop;
    rewrite ?andb_true_r, ?andb_false_r; try done; try lia.
Qed.

Lemma range_affects_interval_witness :
  range_affects (OsvRange "ECOSYSTEM" [OsvEvent "1.0-alpha" "" ""; closing_event (FixedAt "1.0")]) orderMaven "1.0-rc1"
  = (true, "").
Proof.
  eapply eq_trans.
  - apply (range_affects_interval orderMaven "ECOSYSTEM" "1.0-alpha" (FixedAt "1.0") "1.0-rc1");
      try discriminate; try (vm_compute; reflexivity). right. vm_compute. reflexivity.
  - vm_compute. reflexivity.
Defined.

(** ** Trimming *)

Lemma orderable_cmpz order a b :
  orderable order a = true -> orderable order b = true ->
  compareVersions order a b = Some (cmpz order a b).
Proof.
  intros Ha Hb. destruct (proj2 (compareVersions_defined order a b) (conj Ha Hb)) as [c Hc].
  unfold cmpz. by rewrite Hc.
Qed.

Lemma cmpz_le_trans order a b c :
  orderable order a = true -> comparable order b = true -> orderable order c = true ->
  cmpz order a b <= 0 -> cmpz order b c <= 0 -> cmpz order a c <= 0.
Proof.
  intros Ha Hb Hc Hab Hbc. pose proof (comparable_orderable order b Hb) as Hb'.
  destruct (oo_trans _ _ (comparable_ordered order) a b c (cmpz order a b) (cmpz order b c) Hb) as (z & Hz & Hz0);
    [by apply orderable_cmpz..|done|done|]. unfold cmpz. by rewrite Hz.
Qed.

(** Two equal versions stand in the same place relative to every bound. *)
Lemma cmpz_cong order v q x :
  comparable order v = true -> comparable order q = true -> cmpz order v q = 0 ->
  orderable order x = true ->
  (0 <=? cmpz order v x) = (0 <=? cmpz order q x) /\ (0 <? cmpz order v x) = (0 <? cmpz order q x).
Proof.
  intros Hv Hq Heq Hx. pose proof (comparable_orderable _ _ Hv) as Hv'.
  pose proof (comparable_orderable _ _ Hq) as Hq'. pose proof (cmpz_swap order v q) as Hqv.
  pose proof (cmpz_swap order v x) as Sv. pose proof (cmpz_swap order q x) as Sq.
  pose proof (cmpz_le_trans order q v x Hq' Hv Hx). pose proof (cmpz_le_trans order v q x Hv' Hq Hx).
  pose proof (cmpz_le_trans order x v q Hx Hv Hq'). pose proof (cmpz_le_trans order x q v Hx Hq Hv').
  split; apply eq_true_iff_eq; rewrite ?Z.leb_le, ?Z.ltb_lt; lia.
Qed.

Lemma range_affects_cong r order v q :
  rangeOrder r order = order -> comparable order v = true -> comparable order q = true ->
  cmpz order v q = 0 ->
  (range_affects r order v).1 = true -> range_affects r order q = (true, "").
Proof.
  intros Hro Hv Hq Heq. pose proof (comparable_orderable _ _ Hv) as Hv'.
  pose proof (comparable_orderable _ _ Hq) as Hq'. unfold range_affects.
  destruct (range_Type r =? "GIT")%string; [done|]. rewrite Hro, Hv', Hq'. simpl.
  destruct (List.find _ _) as [e|] eqn:Hf; [done|]. simpl. intros Hw. f_equal. rewrite <- Hw.
  set (l := SliceStable _ _).
  assert (Hl : forall e, e ∈ l -> re_min e = false -> orderable order (re_version e) = true).
  { intros e He Hm. unfold l in He. rewrite SliceStable_perm in He. apply list_elem_of_In in He.
    pose proof (find_none _ _ Hf e He) as Hn. simpl in Hn. rewrite Hm in Hn. simpl in Hn.
    by apply negb_false_iff in Hn. }
  unfold walk. clear Hw Hf. clearbody l. generalize false. revert Hl.
  induction l as [|e l IH]; intros Hl b; [done|]. cbn [fold_left].
  assert (He : walk_step order q b e = walk_step order v b e).
  { unfold walk_step, event_cmp. destruct (re_min e) eqn:Em; [done|].
    destruct (cmpz_cong order v q (re_version e)) as [H1 H2];
      [done..|apply Hl; [by left|done]|]. fold (cmpz order v (re_version e)) (cmpz order q (re_version e)).
    rewrite H1, H2. done. }
  rewrite He. apply IH. intros e' He'. apply Hl. by right.
Qed.

Lemma ranges_affect_hit rs order version u r :
  r ∈ rs -> (range_affects r order version).1 = true -> ranges_affect rs order version u = (true, "").
Proof.
  revert u. induction rs as [|s rs IH]; intros u Hr Hh; [by apply elem_of_nil in Hr|]. simpl.
  destruct (range_affects s order version) as [hit bad] eqn:E. destruct hit; [done|].
  apply elem_of_cons in Hr as [->|Hr]; [by rewrite E in Hh|]. by apply IH.
Qed.

Lemma ranges_affect_hit_inv rs order version u :
  (ranges_affect rs order version u).1 = true ->
  exists r, r ∈ rs /\ (range_affects r order version).1 = true.
Proof.
  revert u. induction rs as [|s rs IH]; intros u; simpl; [done|].
  destruct (range_affects s order version) as [hit bad] eqn:E. destruct hit.
  - intros _. exists s. split; [by left|]. by rewrite E.
  - intros (r & Hr & Hh)%IH. exists r. split; [by right|done].
Qed.

Lemma existsb_filter_drop {A} (p d : A -> bool) l :
  (existsb p l = true -> existsb p (List.filter (fun v => negb (d v)) l) = false ->
   exists v, v ∈ l /\ d v = true /\ p v = true) /\
  (existsb p l = false -> existsb p (List.filter (fun v => negb (d v)) l) = false).
Proof.
  induction l as [|x l [IH1 IH2]]; simpl; [done|]. split.
  - intros Hp. destruct (d x) eqn:Hd; simpl.
    + intros Hn. destruct (p x) eqn:Hpx; [exists x; split; [by left|done]|].
      destruct (IH1 Hp Hn) as (v & Hv & H). exists v. split; [by right|done].
    + intros [Hpx Hn]%orb_false_iff. rewrite Hpx in Hp.
      destruct (IH1 Hp Hn) as (v & Hv & H). exists v. split; [by right|done].
  - intros [Hpx Hn]%orb_false_iff. destruct (d x); simpl; rewrite ?Hpx; auto.
Qed.

(** Dropping the enumerated versions that an entry's own ranges place is
    invisible to every query: trimmed or not, an entry gives the same answer,
    match, miss or unorderable.  This holds for every order whose comparisons
    chain; for rpm it needs the enumerated versions and the queried one to
    name a release (see [trimCovered_rpm_release]). *)
Theorem trimCovered_no_op order versions ranges version :
  (forall v, v ∈ version :: versions -> orderable order v = true -> comparable order v = true) ->
  affects (OsvAffected (trimCovered order versions ranges) ranges) order version =
  affects (OsvAffected versions ranges) order version.
Proof.
  intros Hcomp. unfold affects, trimCovered. cbn [Versions Ranges existsb].
  set (covered := List.filter _ ranges). destruct (length covered =? 0)%nat; [done|].
  set (d := fun v => orderable order v && (ranges_affect covered order v "").1).
  change (List.filter _ versions) with (List.filter (fun v => negb (d v)) versions).
  destruct (existsb_filter_drop (version_hits order version) d versions) as [H1 H2].
  destruct (existsb (version_hits order version) versions) eqn:E; [|by rewrite H2].
  destruct (existsb _ (List.filter _ versions)) eqn:E'; [done|].
  destruct (H1 eq_refl eq_refl) as (v & Hv & [Hov Hr]%andb_true_iff & Hhit).
  apply ranges_affect_hit_inv in Hr as (r & Hr & Hm).
  apply list_elem_of_In, filter_In in Hr as [Hr Ht]. apply list_elem_of_In in Hr.
  apply (ranges_affect_hit _ _ _ _ r Hr). unfold version_hits in Hhit.
  destruct (String.eqb_spec v version) as [<-|Hne]; [done|]. simpl in Hhit.
  destruct (compareVersions order v version) as [c|] eqn:Ec; [|done]. apply Z.eqb_eq in Hhit as ->.
  assert (Hoq : orderable order version = true).
  { apply (compareVersions_defined order v version). by exists 0. }
  rewrite (range_affects_cong r order v version); [done| | | | |done].
  - unfold rangeOrder. destruct (range_Type r =? "SEMVER")%string; [|done]. simpl in Ht.
    by destruct (String.eqb_spec order orderSemver).
  - apply Hcomp; [by right|done].
  - apply Hcomp; [by left|done].
  - unfold cmpz. by rewrite Ec.
Qed.

Lemma trimCovered_no_op_witness :
  trimCovered orderDebian ["1.0-1"; "2.0-1"] [OsvRange "ECOSYSTEM" [OsvEvent "0" "" ""; OsvEvent "" "1.5" ""]]
    = ["2.0-1"] /\
  affects (OsvAffected ["2.0-1"] [OsvRange "ECOSYSTEM" [OsvEvent "0" "" ""; OsvEvent "" "1.5" ""]]) orderDebian "1.00-1"
  = affects (OsvAffected ["1.0-1"; "2.0-1"] [OsvRange "ECOSYSTEM" [OsvEvent "0" "" ""; OsvEvent "" "1.5" ""]]) orderDebian "1.00-1".
Proof.
  split; [vm_compute; reflexivity|].
  apply (trimCovered_no_op orderDebian ["1.0-1"; "2.0-1"]
           [OsvRange "ECOSYSTEM" [OsvEvent "0" "" ""; OsvEvent "" "1.5" ""]] "1.00-1").
  intros v Hv. repeat (apply elem_of_cons in Hv as [->|Hv]; [intros _; vm_compute; reflexivity|]).
  by apply elem_of_nil in Hv.
Defined.

(** Under rpm's order the trim is not a no-op.  A version that names no
    release equals every release of it, so an enumerated "1.0-1" answers for
    the query "1.0", while the range that covers "1.0-1" ends at a fixed
    "1.0-3" that "1.0" equals too: the entry matches before the trim and
    misses after it. *)
Theorem trimCovered_rpm_release :
  let ranges := [OsvRange "ECOSYSTEM" [OsvEvent "0" "" ""; OsvEvent "" "1.0-3" ""]] in
  osvVersionOrder "Rocky Linux" = orderRpm /\
  trimCovered orderRpm ["1.0-1"] ranges = [] /\
  affects (OsvAffected ["1.0-1"] ranges) orderRpm "1.0" = (true, "") /\
  affects (OsvAffected (trimCovered orderRpm ["1.0-1"] ranges) ranges) orderRpm "1.0" = (false, "").
Proof. vm_compute. done. Qed.

(** ** Where an rpm advisory is filed, and where it is looked up *)

Lemma trim_right_nil p s : trim_right p s = "" <-> all_bytes p s = true.
Proof.
  induction s as [|c s IH]; [done|]. simpl. rewrite andb_true_iff, <- IH.
  destruct (trim_right p s); destruct (p c); intuition congruence.
Qed.

Lemma trim_left_nil p s : trim_left p s = "" <-> all_bytes p s = true.
Proof.
  induction s as [|c s IH]; [done|]. simpl. rewrite andb_true_iff, <- IH.
  destruct (p c); intuition congruence.
Qed.

Lemma Trim_nil s chars : Trim s chars = "" -> all_bytes (in_set chars) s = true.
Proof.
  unfold Trim, TrimRight, TrimLeft. intros H. apply trim_right_nil in H.
  apply trim_left_nil. destruct (trim_left (in_set chars) s) as [|c r] eqn:E; [done|].
  pose proof (trim_left_starts (in_set chars) s) as Hs. rewrite E in Hs. simpl in H, Hs.
  by rewrite Hs in H.
Qed.

Lemma digits_no_byte x s :
  in_set "0123456789" x = false -> all_bytes (in_set "0123456789") s = true -> no_byte x s = true.
Proof.
  intros Hx. unfold no_byte. apply all_bytes_impl. intros c Hc. apply negb_true_iff, Ascii.eqb_neq.
  by intros ->; rewrite Hc in Hx.
Qed.

Definition major_of (releasever : string) : string :=
  match cut_byte "." releasever with Some (m, _) => m | None => releasever end.

Lemma rpmReleaseEcosystem_shape vendor releasever :
  rpmReleaseEcosystem vendor releasever <> "" ->
  rpmReleaseEcosystem vendor releasever = vendor +:+ ":" +:+ major_of releasever /\
  major_of releasever <> "" /\ all_bytes (in_set "0123456789") (major_of releasever) = true.
Proof.
  unfold rpmReleaseEcosystem. fold (major_of releasever).
  destruct (String.eqb_spec vendor ""), (String.eqb_spec (major_of releasever) ""); try done. simpl.
  destruct (String.eqb_spec (Trim (major_of releasever) "0123456789") "") as [E|]; [|done].
  intros _. split; [done|]. split; [done|]. by apply Trim_nil.
Qed.

(** A sync and a lookup agree on where an rpm advisory lives.  The
    ecosystem an rpm package is looked up under is its vendor and the major
    release alone (9 for a releasever of 9.4), is evaluated in rpm's order,
    reads the vendor's index under "<major>/<name>", and is exactly what the
    vendor's own spelling of that release is filed as: "Rocky Linux:9", but
    "Red Hat:enterprise_linux:9" with whatever stream follows. *)
Theorem rpm_release_lookup vendor releasever name stream :
  vendor ∈ RpmOSVEcosystems -> rpmReleaseEcosystem vendor releasever <> "" ->
  let eco := rpmReleaseEcosystem vendor releasever in
  let major := major_of releasever in
  osvVersionOrder eco = orderRpm /\
  osvIndexFor eco name = (vendor, major +:+ "/" +:+ ToLower name, true) /\
  rpmReleaseEcosystem vendor major = eco /\
  rpmRecordedRelease
    (if (vendor =? "Red Hat")%string then "Red Hat:enterprise_linux:" +:+ major +:+ ":" +:+ stream
     else eco) = eco.
Proof.
  intros Hv Hne eco major. pose proof (rpmReleaseEcosystem_shape vendor releasever Hne) as (He & Hm & Hd).
  fold eco in He. fold major in He, Hm, Hd.
  assert (Hdot : no_byte "." major = true) by by apply digits_no_byte.
  assert (Hcol : no_byte ":" major = true) by by apply digits_no_byte.
  assert (Hself : rpmReleaseEcosystem vendor major = eco).
  { unfold eco, rpmReleaseEcosystem. fold (major_of releasever). fold major.
    by rewrite (proj2 (cut_byte_None _ _) Hdot). }
  assert (Hsplit : forall rest, no_byte ":" rest = true -> Split ":" rest = [rest]) by apply Split_no_byte.
  assert (Hrh : forall s, Split ":" (major +:+ ":" +:+ s) = major :: Split ":" s) by (intros; by apply Split_app).
  unfold osvVersionOrder, osvIndexFor, isRpmEcosystem, isDistroEcosystem, cut_colon.
  unfold rpmRecordedRelease. rewrite He.
  unfold RpmOSVEcosystems in Hv. repeat (apply elem_of_cons in Hv as [->|Hv]);
    [..|by apply elem_of_nil in Hv].
  all: split; [reflexivity|split; [reflexivity|split; [by rewrite Hself|]]].
  - match goal with |- context [Split ":" ?x] => change (Split ":" x) with ("AlmaLinux" :: Split ":" major) end.
    rewrite (Hsplit major Hcol).
    simpl. by rewrite Hself.
  - match goal with |- context [Split ":" ?x] =>
      change (Split ":" x) with ("Red Hat" :: "enterprise_linux" :: Split ":" (major +:+ ":" +:+ stream)) end.
    rewrite Hrh. simpl. by rewrite Hself.
  - match goal with |- context [Split ":" ?x] => change (Split ":" x) with ("Rocky Linux" :: Split ":" major) end.
    rewrite (Hsplit major Hcol).
    simpl. by rewrite Hself.
Qed.

Lemma rpm_release_lookup_witness :
  rpmRecordedRelease ("Red Hat:enterprise_linux:" +:+ major_of "9.4" +:+ ":" +:+ "appstream")
  = rpmReleaseEcosystem "Red Hat" "9.4".
Proof.
  apply (rpm_release_lookup "Red Hat" "9.4" "openssl" "appstream").
  - right. left.
  - vm_compute. discriminate.
Defined.

(** ** The contract of the orders *)

Lemma version_preorder_ext (ok ok' : string -> Prop) compare :
  (forall v, ok v <-> ok' v) -> version_preorder ok compare -> version_preorder ok' compare.
Proof.
  intros He [H1 H2 H3 H4 H5]. split; [|done| |done|done].
  - intros a b. by rewrite H1, !He.
  - intros a Ha. by apply H3, He.
Qed.

(** The four orders that are orders.  Under the semver, PEP 440, Debian
    and RubyGems orders [compareVersions] answers exactly on pairs of versions
    [orderable] accepts, with -1, 0 or 1, is reflexive and antisymmetric up to
    sign, and is transitive and total: the contract the range walk is proved
    against. *)
Theorem compareVersions_preorder :
  Forall (fun order => version_preorder (fun v => orderable order v = true) (compareVersions order))
    [orderSemver; orderPEP440; orderDebian; orderRubyGems].
Proof.
  repeat (apply Forall_cons; split); [| | | |by apply Forall_nil].
  1: apply (version_preorder_ext (fun v => is_Some (parseSemver v))); [|exact (scheme_preorder compareSemver)].
  2: apply (version_preorder_ext (fun v => is_Some (parsePEP440 v))); [|exact (scheme_preorder comparePEP440)].
  3: apply (version_preorder_ext (fun v => is_Some (parseDebian v))); [|exact (scheme_preorder compareDebian)].
  4: apply (version_preorder_ext (fun v => is_Some (parseGemVersion v))); [|exact (scheme_preorder compareGemVersions)].
  all: intros v; symmetry; apply isSome_spec.
Qed.
