(* ===== verification/Scope.v ===== *)
(** Token scopes: internal/audit/scope.go.

    A [*Grant] of the parser is the name it is filed under: [byName] maps a
    scope to its types, and [current], which always points into [byName] or is
    nil, is the name it points at. *)

From stdpp Require Import base list gmap strings sorting.
From Stdlib Require Import ZArith Lia Ascii.
From S2P Require Import Prelude GoStrings Types.

Definition ScopeRead := "read".
Definition ScopeWrite := "write".
Definition ScopeAdmin := "admin".
Definition ScopeApprove := "approve".
Definition ScopeSuperadmin := "superadmin".
Definition ScopeInventory := "inventory".
Definition ScopeFull := "read,write,admin,approve,superadmin".
Definition scopeLegacyFull := "full".

Record Grant := MkGrant { g_Name : string; g_Types : list string }.

Definition Grant_String (g : Grant) : string :=
  match g_Types g with
  | [] => g_Name g
  | _ => g_Name g +:+ ":" +:+ Join (g_Types g) ","
  end.

Definition Scopes : Type := list Grant.

Definition scopeOrder : list string :=
  [ScopeRead; ScopeWrite; ScopeAdmin; ScopeApprove; ScopeSuperadmin; ScopeInventory].

Definition isScopeName (s : string) : bool := slice_contains scopeOrder s.

Definition Scopes_String (s : Scopes) : string := Join (map Grant_String s) ",".

(** [strings.FieldsFunc] on a comma or a Unicode space; [acc] is the field
    being read, its last byte first. *)
Definition cut_separator (s : string) : option string :=
  match cut_prefix s "," with
  | Some r => Some r
  | None => first_some (fun sp => cut_prefix s sp) unicode_spaces
  end.

Definition flush (field : string) (rest : list string) : list string :=
  if (field =? "")%string then rest else field :: rest.

Fixpoint fields_go (fuel : nat) (field s : string) : list string :=
  match fuel with
  | O => []
  | S fuel =>
      match cut_separator s with
      | Some rest => flush field (fields_go fuel "" rest)
      | None =>
          match s with
          | "" => flush field []
          | String c s' => fields_go fuel (field +:+ String c "") s'
          end
      end
  end.

Definition FieldsFunc (s : string) : list string := fields_go (S (String.length s)) "" s.

(** ** Parsing *)

Inductive scope_error :=
| NoScope
| UnknownScope (f : string)
| ScopeTakesNoTypes (name : string)
| UnknownType (typ name : string)
| InventoryCombined.

Record parse_state := ParseState {
  byName : gmap string (list string);
  untyped : gset string;
  current : option string
}.

Definition full_names : list string :=
  [ScopeRead; ScopeWrite; ScopeAdmin; ScopeApprove; ScopeSuperadmin].

(** One turn of the loop over the fields. *)
Definition scope_field (st : parse_state) (f : string) : parse_state + scope_error :=
  if (f =? scopeLegacyFull)%string then
    inl (ParseState (foldr (fun n m => <[n := []]> m) (byName st) full_names)
           (list_to_set full_names ∪ untyped st) None)
  else
    let '(name, typ, typed) :=
      match cut_byte ":" f with Some (a, b) => (a, b, true) | None => (f, "", false) end in
    match
      (if negb typed && negb (isScopeName name) then
         match current st with
         | Some c => if bool_decide (c ∈ untyped st) then inr (UnknownScope f) else inl (c, f, true)
         | None => inr (UnknownScope f)
         end
       else inl (name, typ, typed))
    with
    | inr err => inr err
    | inl (name, typ, typed) =>
        if negb (isScopeName name) then inr (UnknownScope name)
        else
          let types := default [] (byName st !! name) in
          let st' := ParseState (<[name := types]> (byName st)) (untyped st) (Some name) in
          if negb typed then inl (ParseState (byName st') ({[name]} ∪ untyped st) (Some name))
          else if negb (name =? ScopeRead)%string && negb (name =? ScopeWrite)%string
          then inr (ScopeTakesNoTypes name)
          else if negb (IsKnownType typ) then inr (UnknownType typ name)
          else if slice_contains types typ then inl st'
          else inl (ParseState (<[name := types ++ [typ]]> (byName st)) (untyped st) (Some name))
    end.

Fixpoint scope_fields (st : parse_state) (fs : list string) : parse_state + scope_error :=
  match fs with
  | [] => inl st
  | f :: fs => match scope_field st f with inl st => scope_fields st fs | inr err => inr err end
  end.

(** [slices.Sort] on strings: the order is total, so the sorted list does not
    depend on the algorithm. *)
Definition string_le (a b : string) : Prop := Compare a b <= 0.

#[export] Instance string_le_dec a b : Decision (string_le a b).
Proof. unfold string_le. apply _. Defined.

Definition Sort (l : list string) : list string := merge_sort string_le l.

Definition scopes_out (st : parse_state) : Scopes :=
  omap (fun n =>
    match byName st !! n with
    | None => None
    | Some types => Some (MkGrant n (Sort (if bool_decide (n ∈ untyped st) then [] else types)))
    end) scopeOrder.

Definition ParseScopes (s : string) : Scopes + scope_error :=
  match FieldsFunc s with
  | [] => inr NoScope
  | fields =>
      match scope_fields (ParseState ∅ ∅ None) fields with
      | inr err => inr err
      | inl st =>
          if bool_decide (is_Some (byName st !! ScopeInventory)) && (1 <? size (byName st))%nat
          then inr InventoryCombined
          else inl (scopes_out st)
      end
  end.

Definition CanonicalScopes (s : string) : string + scope_error :=
  match ParseScopes s with inl sc => inl (Scopes_String sc) | inr err => inr err end.

Definition ValidTokenScope (s : string) : bool :=
  match ParseScopes s with inl _ => true | inr _ => false end.

(** ** Asking *)

Fixpoint Allows (s : Scopes) (name pkgType : string) : bool :=
  match s with
  | [] => false
  | g :: s =>
      if (g_Name g =? ScopeInventory)%string && (name =? ScopeRead)%string then true
      else if negb (g_Name g =? name)%string then Allows s name pkgType
      else if (length (g_Types g) =? 0)%nat || (pkgType =? "")%string || slice_contains (g_Types g) pkgType
      then true
      else Allows s name pkgType
  end.

Definition Has (s : Scopes) (name : string) : bool := existsb (fun g => (g_Name g =? name)%string) s.

Definition HoldsAll (s : Scopes) : bool :=
  (length (List.filter (fun g =>
     (length (g_Types g) =? 0)%nat
     && ((g_Name g =? ScopeRead)%string || (g_Name g =? ScopeWrite)%string
         || (g_Name g =? ScopeAdmin)%string)) s) =? 3)%nat.

Example scopes_ex1 :
  ParseScopes "write:npm,pypi admin,read" = inl [MkGrant "read" []; MkGrant "write" ["npm"; "pypi"]; MkGrant "admin" []].
Proof. vm_compute. reflexivity. Qed.
Example scopes_ex2 : ParseScopes "inventory,read" = inr InventoryCombined.
Proof. vm_compute. reflexivity. Qed.
Example scopes_ex3 : CanonicalScopes "full" = inl ScopeFull.
Proof. vm_compute. reflexivity. Qed.

(** ** Canonical scope lists *)

Record grant_ok (g : Grant) : Prop := {
  go_types : g_Types g <> [] -> g_Name g = ScopeRead \/ g_Name g = ScopeWrite;
  go_known : Forall (fun t => IsKnownType t = true) (g_Types g);
  go_nodup : NoDup (g_Types g);
  go_sorted : Sorted string_le (g_Types g)
}.

(** At least one grant, each scope at most once and in [scopeOrder]. *)
Record canonical (sc : Scopes) : Prop := {
  can_nonempty : sc <> [];
  can_names : sublist (map g_Name sc) scopeOrder;
  can_grants : Forall grant_ok sc;
  can_inventory : ScopeInventory ∈ map g_Name sc -> map g_Name sc = [ScopeInventory]
}.

#[export] Instance string_le_total : Total string_le.
Proof. intros a b. unfold string_le. rewrite (Compare_anti a b). lia. Qed.

#[export] Instance string_le_trans : Transitive string_le.
Proof. intros a b c. apply Compare_trans. Qed.

#[export] Instance string_le_antisymm : AntiSymm (=) string_le.
Proof.
  intros a b Hab Hba. apply Compare_zero. unfold string_le in *. rewrite (Compare_anti a b) in Hba. lia.
Qed.

Lemma Sort_perm l : Sort l ≡ₚ l.
Proof. apply merge_sort_Permutation. Qed.

Lemma Sort_sorted l : Sorted string_le (Sort l).
Proof. apply Sorted_merge_sort, _. Qed.

Lemma Sort_id l : Sorted string_le l -> Sort l = l.
Proof. intros Hl. apply (Sorted_unique string_le); [apply Sort_sorted|done|apply Sort_perm]. Qed.

(** *** What the parser keeps *)

Record state_ok (st : parse_state) : Prop := {
  so_names : forall n, is_Some (byName st !! n) -> n ∈ scopeOrder;
  so_types : forall n types, byName st !! n = Some types ->
    (types <> [] -> n = ScopeRead \/ n = ScopeWrite) /\
    Forall (fun t => IsKnownType t = true) types /\ NoDup types;
  so_current : forall n, current st = Some n -> is_Some (byName st !! n);
  so_untyped : forall n, n ∈ untyped st -> is_Some (byName st !! n)
}.

Lemma state_ok_insert st n types c u :
  state_ok st -> n ∈ scopeOrder -> (types <> [] -> n = ScopeRead \/ n = ScopeWrite) ->
  Forall (fun t => IsKnownType t = true) types -> NoDup types ->
  (forall m, c = Some m -> m = n) -> (forall m, m ∈ u -> m = n \/ m ∈ untyped st) ->
  state_ok (ParseState (<[n := types]> (byName st)) u c).
Proof.
  intros [H1 H2 H3 H4] Hn Ht Hk Hd Hc Hu. split; simpl.
  - intros m. destruct (decide (m = n)) as [->|]; [done|]. rewrite lookup_insert_ne by done. apply H1.
  - intros m types'. destruct (decide (m = n)) as [->|].
    + rewrite lookup_insert_eq. by intros [= <-].
    + rewrite lookup_insert_ne by done. apply H2.
  - intros m Hm. apply Hc in Hm as ->. rewrite lookup_insert_eq. by eexists.
  - intros m Hm. destruct (decide (m = n)) as [->|]; [rewrite lookup_insert_eq; by eexists|].
    rewrite lookup_insert_ne by done. apply Hu in Hm as [?|?]; [done|]. by apply H4.
Qed.

Lemma is_scope_name n : isScopeName n = true <-> n ∈ scopeOrder.
Proof. apply slice_contains_spec. Qed.

Lemma state_ok_full st :
  state_ok st ->
  state_ok (ParseState (foldr (fun n m => <[n := []]> m) (byName st) full_names)
              (list_to_set full_names ∪ untyped st) None).
Proof.
  intros [H1 H2 H3 H4].
  assert (Hin : forall n, n ∈ full_names -> n ∈ scopeOrder).
  { intros n Hn. change scopeOrder with (full_names ++ [ScopeInventory]). apply elem_of_app. by left. }
  assert (Hl : forall l n, foldr (fun n m => <[n := []]> m) (byName st) l !! n =
            if bool_decide (n ∈ l) then Some [] else byName st !! n).
  { induction l as [|x l IH]; intros n; simpl; [done|].
    destruct (decide (n = x)) as [->|Hne].
    - rewrite lookup_insert_eq, bool_decide_eq_true_2; [done|by left].
    - rewrite lookup_insert_ne, IH by done.
      assert (Heq : bool_decide (n ∈ x :: l) = bool_decide (n ∈ l)); [|by rewrite Heq].
      apply bool_decide_ext. rewrite elem_of_cons. tauto. }
  split; cbn [byName untyped current]; [| |done|].
  - intros n. rewrite Hl. destruct (bool_decide (n ∈ full_names)) eqn:E; [|apply H1].
    apply bool_decide_eq_true in E. intros _. by apply Hin.
  - intros n types. rewrite Hl. destruct (bool_decide _); [|apply H2]. intros [= <-].
    split; [done|]. split; constructor.
  - intros n [Hn|Hn]%elem_of_union; rewrite Hl.
    + apply elem_of_list_to_set in Hn. rewrite bool_decide_eq_true_2 by done. by eexists.
    + destruct (bool_decide _); [by eexists|]. by apply H4.
Qed.

Lemma scope_field_ok st f st' : state_ok st -> scope_field st f = inl st' -> state_ok st'.
Proof.
  intros Hst. unfold scope_field. destruct (f =? scopeLegacyFull)%string.
  { intros [= <-]. by apply state_ok_full. }
  match goal with |- context [let '(_, _) := ?p in _] => destruct p as [[name0 typ0] typed0] end.
  match goal with |- context [match (if ?b then ?x else ?y) with _ => _ end] =>
    destruct (if b then x else y) as [[[name typ] typed]|] eqn:E end; [|done].
  destruct (isScopeName name) eqn:En; [|done]. apply is_scope_name in En. cbn [negb].
  assert (Ht : forall types, default [] (byName st !! name) = types ->
    (types <> [] -> name = ScopeRead \/ name = ScopeWrite) /\
    Forall (fun t => IsKnownType t = true) types /\ NoDup types).
  { intros types <-. destruct (byName st !! name) as [ts|] eqn:El; simpl.
    - by apply (so_types st Hst).
    - split; [done|]. split; constructor. }
  specialize (Ht _ eq_refl). destruct Ht as (Ht1 & Ht2 & Ht3).
  destruct typed; cbn [negb].
  - destruct (negb (name =? ScopeRead)%string && negb (name =? ScopeWrite)%string) eqn:Erw; [done|].
    destruct (IsKnownType typ) eqn:Ek; [|done]. cbn [negb].
    assert (Hrw : name = ScopeRead \/ name = ScopeWrite).
    { destruct (String.eqb_spec name ScopeRead), (String.eqb_spec name ScopeWrite); auto. }
    destruct (slice_contains _ typ) eqn:Ec; intros [= <-]; apply state_ok_insert; auto.
    + congruence.
    + apply Forall_app. split; [done|]. by constructor.
    + apply NoDup_app. split; [done|]. split; [|apply NoDup_singleton].
      intros t Hin Ht%list_elem_of_singleton. subst t. apply slice_contains_spec in Hin. congruence.
    + congruence.
  - intros [= <-]. apply state_ok_insert; auto; [congruence|].
    intros m [Hm%elem_of_singleton|]%elem_of_union; auto.
Qed.

Lemma scope_field_grows st f st' :
  state_ok st -> scope_field st f = inl st' -> byName st' <> ∅.
Proof.
  intros Hst H Hempty. revert H. unfold scope_field. destruct (f =? scopeLegacyFull)%string.
  { intros [= <-]. cbn [byName foldr full_names] in Hempty. by apply insert_non_empty in Hempty. }
  repeat case_match; try done; intros [= <-]; cbn [byName] in Hempty; by apply insert_non_empty in Hempty.
Qed.

Lemma scope_fields_ok fs st st' :
  state_ok st -> scope_fields st fs = inl st' -> fs <> [] -> state_ok st' /\ byName st' <> ∅.
Proof.
  revert st. induction fs as [|f fs IH]; intros st Hst; [done|]. simpl.
  destruct (scope_field st f) as [st1|] eqn:E; [|done]. intros H _.
  pose proof (scope_field_ok st f st1 Hst E) as Hst1.
  destruct fs as [|f' fs]; [|by apply (IH st1)]. simpl in H. simplify_eq.
  split; [done|]. by apply (scope_field_grows st f).
Qed.

(** *** What comes out *)

Lemma scopes_out_names st : sublist (map g_Name (scopes_out st)) scopeOrder.
Proof.
  unfold scopes_out. induction scopeOrder as [|n l IH]; [constructor|]. simpl.
  destruct (byName st !! n); simpl; by constructor.
Qed.

Lemma scopes_out_elem st g :
  g ∈ scopes_out st ->
  exists types, byName st !! g_Name g = Some types /\
    g_Types g = Sort (if bool_decide (g_Name g ∈ untyped st) then [] else types).
Proof.
  intros (n & _ & Hn)%list_elem_of_omap. destruct (byName st !! n) as [types|] eqn:E; [|done].
  simplify_eq. by exists types.
Qed.

Lemma scopes_out_grants st : state_ok st -> Forall grant_ok (scopes_out st).
Proof.
  intros Hst. apply Forall_forall. intros g (types & Hl & Ht)%scopes_out_elem.
  destruct (so_types st Hst _ _ Hl) as (H1 & H2 & H3).
  destruct g as [n ts]. simpl in *. subst ts. destruct (bool_decide _); simpl; split; simpl.
  - by intros [].
  - constructor.
  - constructor.
  - constructor.
  - intros Hne. apply H1. intros ->. by apply Hne.
  - by rewrite Sort_perm.
  - by rewrite Sort_perm.
  - apply Sort_sorted.
Qed.

Lemma scopes_out_has st n : n ∈ scopeOrder -> is_Some (byName st !! n) -> n ∈ map g_Name (scopes_out st).
Proof.
  intros Hn [types Ht]. apply list_elem_of_fmap.
  exists (MkGrant n (Sort (if bool_decide (n ∈ untyped st) then [] else types))).
  split; [done|]. apply list_elem_of_omap. exists n. split; [done|]. by rewrite Ht.
Qed.

Lemma singleton_sublist {A} (x : A) (l k : list A) :
  sublist l k -> NoDup k -> x ∈ l -> (forall y, y ∈ l -> y = x) -> l = [x].
Proof.
  intros Hs Hk Hx Hall. assert (Hl : NoDup l) by by eapply sublist_NoDup.
  destruct l as [|a [|b l]]; [by apply elem_of_nil in Hx| |].
  - by rewrite (Hall a ltac:(by left)).
  - exfalso. apply NoDup_cons in Hl as [Ha _]. apply Ha.
    rewrite (Hall a ltac:(by left)), <- (Hall b ltac:(right; by left)). by left.
Qed.

Lemma scopeOrder_nodup : NoDup scopeOrder.
Proof. apply (bool_decide_unpack _). by vm_compute. Qed.

(** Whatever scope list [ParseScopes] accepts, what it returns is
    canonical: at least one grant, each scope at most once and in the fixed
    order, only read and write narrowed, to known package types listed once
    and sorted; and inventory combines with nothing. *)
Theorem ParseScopes_canonical s sc : ParseScopes s = inl sc -> canonical sc.
Proof.
  unfold ParseScopes. destruct (FieldsFunc s) as [|f fs]; [done|].
  destruct (scope_fields _ _) as [st|] eqn:E; [|done].
  assert (H0 : state_ok (ParseState ∅ ∅ None)).
  { split; simpl; [intros n [? Hn]|intros n types Hn|done|set_solver]; by rewrite lookup_empty in Hn. }
  destruct (scope_fields_ok _ _ _ H0 E) as [Hst Hne]; [done|].
  destruct (_ && _) eqn:Einv; [done|]. intros [= <-]. split.
  - intros Hnil. apply Hne. apply map_eq. intros n. rewrite lookup_empty.
    apply eq_None_not_Some. intros Hn. pose proof (scopes_out_has st n (so_names st Hst n Hn) Hn) as Hin.
    rewrite Hnil in Hin. by apply elem_of_nil in Hin.
  - apply scopes_out_names.
  - by apply scopes_out_grants.
  - intros Hin. apply (singleton_sublist _ _ scopeOrder); [apply scopes_out_names|apply scopeOrder_nodup|done|].
    assert (Hlook : forall n, n ∈ map g_Name (scopes_out st) -> is_Some (byName st !! n)).
    { intros n (g & -> & (types & Hl & _)%scopes_out_elem)%list_elem_of_fmap. by exists types. }
    pose proof (Hlook _ Hin) as Hi. rewrite bool_decide_eq_true_2 in Einv by done. simpl in Einv.
    apply Nat.ltb_ge in Einv. intros n Hn. apply Hlook in Hn.
    destruct (decide (n = ScopeInventory)) as [|Hd]; [done|]. exfalso.
    assert (Hsz : (2 <= size (byName st))%nat); [|lia].
    destruct Hi as [ti Hi], Hn as [tn Hn]. rewrite <- (insert_delete_id (byName st) n tn) by done.
    rewrite map_size_insert_None by apply lookup_delete_eq.
    rewrite <- (insert_delete_id (delete n (byName st)) ScopeInventory ti) by by rewrite lookup_delete_ne.
    rewrite map_size_insert_None by apply lookup_delete_eq. lia.
Qed.

Lemma ParseScopes_canonical_witness : canonical [MkGrant "write" ["npm"; "pypi"]; MkGrant "admin" []].
Proof. apply (ParseScopes_canonical "admin write:pypi,npm,npm"). vm_compute. reflexivity. Defined.

(** *** Printing and reading back *)

Definition grant_fields (g : Grant) : list string :=
  match g_Types g with
  | [] => [g_Name g]
  | t :: ts => (g_Name g +:+ ":" +:+ t) :: ts
  end.

Lemma Grant_String_fields g : Grant_String g = Join (grant_fields g) ",".
Proof.
  unfold Grant_String, grant_fields. destruct (g_Types g) as [|t [|t' ts]]; [done..|].
  rewrite !(Join_cons _ (t' :: ts)) by done. by rewrite !GoStrings.app_assoc.
Qed.

Lemma Scopes_String_fields sc : Scopes_String sc = Join (concat (map grant_fields sc)) ",".
Proof.
  unfold Scopes_String. induction sc as [|g sc IH]; [done|]. simpl.
  assert (Hg : grant_fields g <> []) by (unfold grant_fields; by destruct (g_Types g)).
  destruct sc as [|g' sc].
  - simpl. rewrite List.app_nil_r. apply Grant_String_fields.
  - rewrite Join_app; [|done|].
    + rewrite <- IH. rewrite <- Grant_String_fields. done.
    + cbn [map concat]. unfold grant_fields at 1. by destruct (g_Types g').
Qed.

(** The bytes of scope and type names, and the colon between them. *)
Definition word_byte (c : ascii) : bool := is_lower c || Ascii.eqb c ":".

Definition word (s : string) : bool := negb (s =? "")%string && all_bytes word_byte s.

Lemma cut_separator_word c s : word_byte c = true -> cut_separator (String c s) = None.
Proof. destruct c as [[] [] [] [] [] [] [] []]; intros H; try discriminate; reflexivity. Qed.

Lemma fields_go_comma fuel field s :
  fields_go (S fuel) field (String "," s) = flush field (fields_go fuel "" s).
Proof. reflexivity. Qed.

Lemma fields_go_word fuel w field s :
  all_bytes word_byte w = true ->
  fields_go (String.length w + fuel) field (w +:+ s) = fields_go fuel (field +:+ w) s.
Proof.
  revert field. induction w as [|c w IH]; intros field.
  - by rewrite GoStrings.app_nil_r.
  - cbn [all_bytes]. intros [Hc Hw]%andb_true_iff. rewrite app_cons. cbn [String.length Nat.add fields_go].
    rewrite cut_separator_word, IH by done. by rewrite GoStrings.app_assoc.
Qed.

Lemma FieldsFunc_words l :
  l <> [] -> Forall (fun s => word s = true) l -> FieldsFunc (Join l ",") = l.
Proof.
  unfold FieldsFunc. induction l as [|w l IH]; [done|]. intros _ [[Hne Hw]%andb_true_iff Hl]%Forall_cons.
  assert (Hflush : forall rest, flush w rest = w :: rest).
  { intros rest. unfold flush. apply negb_true_iff in Hne. by rewrite Hne. }
  destruct l as [|w' l].
  - cbn [Join]. rewrite <- (GoStrings.app_nil_r w) at 2. rewrite <- Nat.add_1_r, fields_go_word by done.
    apply Hflush.
  - rewrite Join_cons by done. rewrite !length_app_string. cbn [String.length].
    rewrite <- Nat.add_succ_r, fields_go_word, GoStrings.app_nil_l by done.
    change (1 + String.length (Join (w' :: l) ","))%nat with (S (String.length (Join (w' :: l) ","))).
    rewrite app_cons, GoStrings.app_nil_l, fields_go_comma, IH by done. apply Hflush.
Qed.

Lemma known_type_word t :
  IsKnownType t = true -> word t = true /\ isScopeName t = false /\ t <> scopeLegacyFull /\ no_byte ":" t = true.
Proof.
  unfold IsKnownType. intros Ht%slice_contains_spec. unfold AllTypes in Ht.
  repeat (apply elem_of_cons in Ht as [->|Ht]; [by vm_compute|]). by apply elem_of_nil in Ht.
Qed.

Lemma scope_name_word n :
  n ∈ scopeOrder -> word n = true /\ isScopeName n = true /\ n <> scopeLegacyFull /\ no_byte ":" n = true.
Proof.
  unfold scopeOrder. intros Hn.
  repeat (apply elem_of_cons in Hn as [->|Hn]; [by vm_compute|]). by apply elem_of_nil in Hn.
Qed.

(** Reading the types that follow a narrowed scope. *)
Lemma scope_field_type st n t :
  current st = Some n -> n ∉ untyped st -> n = ScopeRead \/ n = ScopeWrite -> IsKnownType t = true ->
  t ∉ default [] (byName st !! n) ->
  scope_field st t =
    inl (ParseState (<[n := default [] (byName st !! n) ++ [t]]> (byName st)) (untyped st) (Some n)).
Proof.
  intros Hc Hu Hn Ht Hnew. destruct (known_type_word t Ht) as (_ & Hs & Hf & Hcol).
  unfold scope_field. rewrite (proj2 (String.eqb_neq _ _) Hf), (proj2 (cut_byte_None _ _) Hcol), Hs, Hc.
  cbn [negb andb]. rewrite bool_decide_eq_false_2 by done.
  rewrite Ht. assert (Hsl : slice_contains (default [] (byName st !! n)) t = false).
  { apply not_true_iff_false. by rewrite slice_contains_spec. }
  rewrite Hsl. by destruct Hn as [->| ->].
Qed.

Lemma scope_fields_types n ts st pre :
  current st = Some n -> n ∉ untyped st -> n = ScopeRead \/ n = ScopeWrite ->
  Forall (fun t => IsKnownType t = true) ts -> NoDup (pre ++ ts) -> byName st !! n = Some pre ->
  forall rest, scope_fields st (ts ++ rest) =
    scope_fields (ParseState (<[n := pre ++ ts]> (byName st)) (untyped st) (Some n)) rest.
Proof.
  revert st pre. induction ts as [|t ts IH]; intros st pre Hc Hu Hn Hts Hnd Hl rest.
  - rewrite List.app_nil_r, insert_id by done. destruct st; simpl in *. by subst.
  - apply Forall_cons in Hts as [Ht Hts]. cbn [app scope_fields].
    rewrite scope_field_type with (n := n); [|done..|]; rewrite Hl; cbn [default].
    + rewrite (IH _ (pre ++ [t])); cbn [current untyped byName]; [|done..| |].
      * rewrite insert_insert_eq. by rewrite <- List.app_assoc.
      * by rewrite <- List.app_assoc.
      * apply lookup_insert_eq.
    + intros Hin. apply NoDup_app in Hnd as (_ & Hnd & _). apply (Hnd t Hin). by left.
Qed.

(** The state after reading a whole grant of a scope not seen before. *)
Definition add_grant (st : parse_state) (g : Grant) : parse_state :=
  ParseState (<[g_Name g := g_Types g]> (byName st))
    (if bool_decide (g_Types g = []) then {[g_Name g]} ∪ untyped st else untyped st) (Some (g_Name g)).

Definition fresh_in (st : parse_state) (n : string) : Prop := byName st !! n = None /\ n ∉ untyped st.

Lemma scope_fields_grant g st rest :
  grant_ok g -> g_Name g ∈ scopeOrder -> fresh_in st (g_Name g) ->
  scope_fields st (grant_fields g ++ rest) = scope_fields (add_grant st g) rest.
Proof.
  intros [Ht Hk Hd _] Hn [Hl Hu]. destruct (scope_name_word _ Hn) as (_ & Hs & Hf & Hcol).
  unfold grant_fields, add_grant. destruct g as [n [|t ts]]; simpl in *.
  - unfold scope_field. rewrite (proj2 (String.eqb_neq _ _) Hf), (proj2 (cut_byte_None _ _) Hcol), Hs.
    cbn [negb andb]. by rewrite Hs, Hl.
  - apply Forall_cons in Hk as [Hk Hks]. specialize (Ht ltac:(done)).
    assert (Hfull : (n +:+ ":" +:+ t =? scopeLegacyFull)%string = false).
    { by destruct Ht as [->| ->]. }
    assert (Hfirst : scope_field st (n +:+ ":" +:+ t) =
              inl (ParseState (<[n := [t]]> (byName st)) (untyped st) (Some n))).
    { unfold scope_field. rewrite Hfull. change (n +:+ ":" +:+ t) with (n +:+ String ":" t).
      rewrite cut_byte_app by done. cbn [negb andb]. rewrite Hs, Hl. cbn [default negb]. rewrite Hk. cbn [negb].
      by destruct Ht as [->| ->]. }
    rewrite Hfirst. rewrite (scope_fields_types n ts _ [t]); cbn [byName untyped current];
      [|done..|apply lookup_insert_eq].
    by rewrite insert_insert_eq.
Qed.

Lemma add_grant_fresh st g n : fresh_in st n -> n <> g_Name g -> fresh_in (add_grant st g) n.
Proof.
  intros [Hl Hu] Hn. split; simpl.
  - by rewrite lookup_insert_ne.
  - destruct (bool_decide _); [|done]. set_solver.
Qed.

Lemma scope_fields_grants sc st :
  Forall grant_ok sc -> (forall n, n ∈ map g_Name sc -> n ∈ scopeOrder) -> NoDup (map g_Name sc) ->
  (forall n, n ∈ map g_Name sc -> fresh_in st n) ->
  scope_fields st (concat (map grant_fields sc)) = inl (fold_left add_grant sc st).
Proof.
  revert st. induction sc as [|g sc IH]; intros st Hok Hin Hnd Hfr; [done|].
  cbn [map concat fold_left] in *. apply Forall_cons in Hok as [Hg Hok].
  apply NoDup_cons in Hnd as [Hng Hnd].
  rewrite scope_fields_grant; [|done|apply Hin; by left|apply Hfr; by left].
  apply IH; [done| |done|].
  - intros n Hn. apply Hin. by right.
  - intros n Hn. apply add_grant_fresh; [apply Hfr; by right|]. by intros ->.
Qed.

Lemma fold_grants_lookup sc st :
  NoDup (map g_Name sc) -> (forall n, n ∈ map g_Name sc -> fresh_in st n) ->
  (forall g, g ∈ sc -> byName (fold_left add_grant sc st) !! g_Name g = Some (g_Types g) /\
     (g_Name g ∈ untyped (fold_left add_grant sc st) <-> g_Types g = [])) /\
  (forall n, n ∉ map g_Name sc ->
     byName (fold_left add_grant sc st) !! n = byName st !! n /\
     (n ∈ untyped (fold_left add_grant sc st) <-> n ∈ untyped st)).
Proof.
  revert st. induction sc as [|g sc IH]; intros st Hnd Hfr.
  { split; [intros g Hg; by apply elem_of_nil in Hg|done]. }
  cbn [map fold_left] in *. apply NoDup_cons in Hnd as [Hng Hnd].
  destruct (IH (add_grant st g)) as [IH1 IH2]; [done| |].
  { intros n Hn. apply add_grant_fresh; [apply Hfr; by right|]. by intros ->. }
  destruct (Hfr (g_Name g) ltac:(by left)) as [Hl Hu].
  split.
  - intros g' Hg'. apply elem_of_cons in Hg' as [->|Hg']; [|by apply IH1].
    destruct (IH2 _ Hng) as [-> ->]. simpl. rewrite lookup_insert_eq. split; [done|].
    destruct (g_Types g) eqn:E; [rewrite bool_decide_eq_true_2 by done; set_solver|].
    rewrite bool_decide_eq_false_2 by done. split; done.
  - intros n Hn. rewrite elem_of_cons in Hn. destruct (IH2 n) as [-> ->]; [tauto|]. simpl.
    rewrite lookup_insert_ne by (intros <-; tauto). split; [done|].
    destruct (bool_decide _); [|done]. rewrite elem_of_union, elem_of_singleton. tauto.
Qed.

Lemma omap_sublist {A} (f : string -> option A) (name : A -> string) l order :
  NoDup order -> sublist (map name l) order -> (forall x, x ∈ l -> f (name x) = Some x) ->
  (forall n, n ∈ order -> n ∉ map name l -> f n = None) -> omap f order = l.
Proof.
  intros Hnd Hs. remember (map name l) as ns eqn:Ens. revert l Ens.
  induction Hs as [|n ns order Hs IH|n ns order Hs IH]; intros l Ens Hin Hout.
  - symmetry in Ens. by apply map_eq_nil in Ens as ->.
  - destruct l as [|x l]; [done|]. simpl in Ens. simplify_eq. apply NoDup_cons in Hnd as [Hx Hnd].
    simpl. rewrite (Hin x) by by left. f_equal. apply IH; [done..| |].
    + intros y Hy. apply Hin. by right.
    + intros n Hn Hnin. apply Hout; [by right|]. rewrite elem_of_cons. intros [->|?]; [|done].
      by apply Hx.
  - apply NoDup_cons in Hnd as [Hx Hnd]. simpl. rewrite Hout; [|by left|].
    + apply IH; [done..|]. intros m Hm. apply Hout. by right.
    + intros Hn. apply Hx. eapply elem_of_submseteq; [exact Hn|by apply sublist_submseteq].
Qed.

Lemma grant_words g :
  grant_ok g -> g_Name g ∈ scopeOrder -> Forall (fun s => word s = true) (grant_fields g).
Proof.
  intros [_ Hk _ _] Hn. destruct (scope_name_word _ Hn) as (Hw & _). unfold grant_fields.
  destruct (g_Types g) as [|t ts]; [by constructor|]. apply Forall_cons in Hk as [Ht Hts]. constructor.
  - destruct (known_type_word t Ht) as (Htw & _). unfold word in *.
    apply andb_true_iff in Hw as [Hw1 Hw2], Htw as [_ Htw]. apply andb_true_iff. split.
    + by destruct (g_Name g).
    + by rewrite !all_bytes_app, Hw2, Htw.
  - eapply Forall_impl; [exact Hts|]. intros t' Ht'. by destruct (known_type_word t' Ht').
Qed.

(** The canonical text is a faithful encoding.  A canonical scope list
    reads back from what [String] prints as itself, so two texts grant the
    same scopes exactly when they print alike, and canonicalizing twice is
    canonicalizing once. *)
Theorem ParseScopes_roundtrip sc :
  canonical sc ->
  ParseScopes (Scopes_String sc) = inl sc /\ CanonicalScopes (Scopes_String sc) = inl (Scopes_String sc).
Proof.
  intros [Hne Hs Hg Hinv].
  assert (Hin : forall n, n ∈ map g_Name sc -> n ∈ scopeOrder).
  { intros n Hn. eapply elem_of_submseteq; [exact Hn|by apply sublist_submseteq]. }
  assert (Hnd : NoDup (map g_Name sc)) by (eapply sublist_NoDup; [exact scopeOrder_nodup|done]).
  assert (Hfr : forall n, n ∈ map g_Name sc -> fresh_in (ParseState ∅ ∅ None) n).
  { intros n _. split; simpl; [apply lookup_empty|set_solver]. }
  destruct (fold_grants_lookup sc (ParseState ∅ ∅ None) Hnd Hfr) as [Hl1 Hl2].
  assert (Hfields : FieldsFunc (Scopes_String sc) = concat (map grant_fields sc)).
  { rewrite Scopes_String_fields. apply FieldsFunc_words.
    - destruct sc as [|g sc']; [done|]. cbn [map concat]. unfold grant_fields at 1. by destruct (g_Types g).
    - apply Forall_concat, Forall_map, Forall_forall. intros g Hgin. apply grant_words.
      + rewrite Forall_forall in Hg. by apply Hg.
      + apply Hin. by apply list_elem_of_fmap_2. }
  assert (Hparse : ParseScopes (Scopes_String sc) = inl sc); [|unfold CanonicalScopes; by rewrite Hparse].
  unfold ParseScopes. rewrite Hfields.
  destruct (concat (map grant_fields sc)) as [|f fs] eqn:Ec.
  { exfalso. destruct sc as [|g sc']; [done|]. cbn [map concat] in Ec. unfold grant_fields in Ec at 1.
    by destruct (g_Types g). }
  rewrite <- Ec, scope_fields_grants by done. set (st := fold_left add_grant sc _) in *.
  assert (Hsz : bool_decide (is_Some (byName st !! ScopeInventory)) && (1 <? size (byName st))%nat = false).
  { destruct (decide (ScopeInventory ∈ map g_Name sc)) as [Hi|Hi].
    - specialize (Hinv Hi). destruct sc as [|g [|g' sc']]; try done. unfold st. simpl.
      by rewrite map_size_insert_None, map_size_empty, andb_false_r by apply lookup_empty.
    - destruct (Hl2 _ Hi) as [-> _]. simpl. by rewrite lookup_empty, bool_decide_eq_false_2 by by intros [? ?]. }
  rewrite Hsz. f_equal. unfold scopes_out. apply (omap_sublist _ g_Name); [apply scopeOrder_nodup|done| |].
  - intros g Hgin. destruct (Hl1 g Hgin) as [-> Hu]. f_equal. destruct g as [n ts]. simpl in *. f_equal.
    rewrite Forall_forall in Hg. pose proof (go_sorted _ (Hg _ Hgin)) as Hsort. simpl in Hsort.
    destruct (decide (ts = [])) as [->|Hts].
    + rewrite bool_decide_eq_true_2; [done|]. by apply Hu.
    + rewrite bool_decide_eq_false_2 by tauto. by apply Sort_id.
  - intros n _ Hn. destruct (Hl2 n Hn) as [-> _]. simpl. by rewrite lookup_empty.
Qed.

Definition grant_okb (g : Grant) : bool :=
  ((length (g_Types g) =? 0)%nat || (g_Name g =? ScopeRead)%string || (g_Name g =? ScopeWrite)%string)
  && forallb IsKnownType (g_Types g) && bool_decide (NoDup (g_Types g))
  && bool_decide (Sorted string_le (g_Types g)).

Lemma grant_okb_ok g : grant_okb g = true -> grant_ok g.
Proof.
  unfold grant_okb. intros [[[H1 H2]%andb_true_iff H3]%andb_true_iff H4]%andb_true_iff.
  apply bool_decide_eq_true in H3, H4. split; [|by apply Forall_forall; intros t Ht;
    eapply forallb_forall in H2; [|by apply list_elem_of_In]|done|done].
  intros Hne. destruct (String.eqb_spec (g_Name g) ScopeRead); [by left|].
  destruct (String.eqb_spec (g_Name g) ScopeWrite); [by right|]. by destruct (g_Types g).
Qed.

Lemma ParseScopes_roundtrip_witness :
  ParseScopes (Scopes_String [MkGrant "read" []; MkGrant "write" ["npm"; "pypi"]]) =
  inl [MkGrant "read" []; MkGrant "write" ["npm"; "pypi"]].
Proof.
  apply ParseScopes_roundtrip. split.
  - discriminate.
  - cbn. repeat constructor.
  - repeat (constructor; [apply grant_okb_ok; vm_compute; reflexivity|]). constructor.
  - cbn. intros Hin. repeat (apply elem_of_cons in Hin as [Hin|Hin]; [discriminate|]). by apply elem_of_nil in Hin.
Defined.
