(* ===== verification/ClientIP.v ===== *)
(** Which client a request is attributed to, and the deny list
    (internal/server/middleware.go: RealIPMiddleware, resolveClientIP,
    ParseDenyList, DenyListMiddleware; acl.go: AdminPermits).  A request is the
    fields these read: the method, the path, the peer of its connection and its
    headers, as the function [Header.Get] is. *)

From stdpp Require Import base list strings.
From Stdlib Require Import ZArith Lia Ascii.
From S2P Require Import Prelude GoStrings GoURL GoNet.

Record Request := MkRequest {
  rq_Method : string;
  rq_Path : string;
  rq_RemoteAddr : string;
  rq_Header : string -> string
}.

(** A NetsFunc's answer: no set at all, or a set that may be empty. *)
Definition Nets := option (list IPNet).

Definition nets (f : Nets) : list IPNet := default [] f.

Definition isTrusted (ip : Z) (ns : list IPNet) : bool := existsb (fun n => Net_Contains n ip) ns.

Definition defaultTrustedNets : list IPNet :=
  omap ParseCIDR ["127.0.0.0/8"; "10.0.0.0/8"; "172.16.0.0/12"; "192.168.0.0/16"; "::1/128"; "fc00::/7"].

(** A part of X-Forwarded-For that ends the walk from the right: one that is not
    an address of the trusted set. *)
Definition outside (trusted : list IPNet) (part : string) : bool :=
  match ParseIP (TrimSpace part) with Some ip => negb (isTrusted ip trusted) | None => true end.

Definition forwarded_for (trusted : list IPNet) (xff : string) : string :=
  let parts := Split "," xff in
  match List.find (outside trusted) (rev parts) with
  | Some part => TrimSpace part
  | None => TrimSpace (hd "" parts)
  end.

Definition resolveClientIP (r : Request) (trusted : list IPNet) : string * bool :=
  match SplitHostPort (rq_RemoteAddr r) with
  | None => (rq_RemoteAddr r, false)
  | Some (peerHost, _) =>
      let peer_trusted := match ParseIP peerHost with Some ip => isTrusted ip trusted | None => false end in
      if negb peer_trusted then (peerHost, false)
      else
        let realIP := rq_Header r "X-Real-IP" in
        if negb (realIP =? "")%string then (realIP, true)
        else
          let xff := rq_Header r "X-Forwarded-For" in
          if negb (xff =? "")%string then (forwarded_for trusted xff, true) else (peerHost, false)
  end.

(** What RealIPMiddleware puts in the context for the handlers behind it. *)
Record ClientCtx := MkCtx { cx_ip : string; cx_forwarded : bool; cx_trusted : list IPNet; cx_configured : bool }.

Definition RealIPMiddleware (trusted : Nets) (r : Request) : ClientCtx :=
  let trustedNets := match trusted with None => defaultTrustedNets | Some ns => ns end in
  let '(ip, forwarded) := resolveClientIP r trustedNets in
  MkCtx ip forwarded trustedNets (isSome trusted).

(** peerIsTrusted, which reads no header. *)
Definition peerIsTrusted (r : Request) (ns : list IPNet) : bool :=
  let host := match SplitHostPort (rq_RemoteAddr r) with Some (host, _) => host | None => rq_RemoteAddr r end in
  match ParseIP host with Some ip => isTrusted ip ns | None => false end.

(** cidrAddressTrusted (identity.go). *)
Definition cidrAddressTrusted (cx : ClientCtx) : bool := negb (cx_forwarded cx) || cx_configured cx.

(** ** The lists *)

(** An entry as a CIDR: an address with no slash is a network of its own. *)
Definition deny_entry (entry : string) : option IPNet :=
  if Contains entry "/" then ParseCIDR entry
  else match ParseIP entry with
       | None => None
       | Some ip => ParseCIDR (entry +:+ if isSome (To4 ip) then "/32" else "/128")
       end.

(** The networks of a list, or the first entry that does not parse. *)
Fixpoint ParseDenyList (entries : list string) : list IPNet + string :=
  match entries with
  | [] => inl []
  | entry :: entries =>
      let entry := TrimSpace entry in
      if (entry =? "")%string then ParseDenyList entries
      else match deny_entry entry with
           | None => inr entry
           | Some n => match ParseDenyList entries with inl ns => inl (n :: ns) | inr bad => inr bad end
           end
  end.

(** parseACLEntries (acl.go): what parses, and the text of what does not. *)
Definition parseACLEntries (entries : list string) : list IPNet * list string :=
  foldl (fun acc e =>
           match ParseDenyList [e] with
           | inl one => (acc.1 ++ one, acc.2)
           | inr _ => (acc.1, acc.2 ++ [e])
           end) ([], []) entries.

(** The network that refuses the client, when one does. *)
Definition DenyListMiddleware (deny : Nets) (cx : ClientCtx) : option IPNet :=
  match nets deny with
  | [] => None
  | ns => match ParseIP (cx_ip cx) with
          | Some ip => List.find (fun n => Net_Contains n ip) ns
          | None => None
          end
  end.

Definition AdminPermits (ns : list IPNet) (ip : option Z) : bool :=
  match ns, ip with
  | [], _ | _, None => false
  | _, Some ip => existsb (fun n => Net_Contains n ip) ns
  end.

Definition LocalhostOnly (ns : list IPNet) : bool := forallb (fun n => IsLoopback (net_16 n)) ns.

Definition no_header (h : string) : string := "".

Definition with_headers (xrip xff h : string) : string :=
  if (h =? "X-Real-IP")%string then xrip else if (h =? "X-Forwarded-For")%string then xff else "".

Definition from_peer (addr xrip xff : string) : Request := MkRequest "GET" "/" addr (with_headers xrip xff).

Example resolve_ex :
  map (fun r => resolveClientIP r defaultTrustedNets)
    [from_peer "203.0.113.7:99" "1.1.1.1" ""; from_peer "10.0.0.1:99" "1.1.1.1" "2.2.2.2";
     from_peer "127.0.0.1:99" "" "6.6.6.6, 198.51.100.4, 10.0.0.9"; from_peer "127.0.0.1:99" "" "10.0.0.8, 10.0.0.9";
     from_peer "127.0.0.1:99" "" ""; from_peer "[fe80::1%eth0]:99" "1.1.1.1" ""]
  = [("203.0.113.7", false); ("1.1.1.1", true); ("198.51.100.4", true); ("10.0.0.8", true); ("127.0.0.1", false);
     ("fe80::1%eth0", false)].
Proof. vm_compute. reflexivity. Qed.

(** * Lemmas *)

Lemma rev_find {A} (p : A -> bool) pre x post :
  p x = true -> Forall (fun y => p y = false) post -> List.find p (rev (pre ++ x :: post)) = Some x.
Proof.
  intros Hx Hpost. induction post as [|y post IH] using rev_ind; [rewrite rev_app_distr; cbn; by rewrite Hx|].
  apply Forall_app in Hpost as [Hpost [Hy _]%Forall_cons].
  replace (pre ++ x :: post ++ [y]) with ((pre ++ x :: post) ++ [y]) by by rewrite <- List.app_assoc.
  rewrite rev_app_distr. cbn. rewrite Hy. by apply IH.
Qed.

Lemma TrimSpace_blank s : TrimSpace (" " +:+ s) = TrimSpace s.
Proof.
  unfold TrimSpace. cbn [String.append String.length trim_space_left].
  replace (first_some (cut_prefix (String " " s)) unicode_spaces) with (Some s); [done|]. by destruct s.
Qed.

(** How a proxy writes X-Forwarded-For: its own peer after what it was sent. *)
Definition add_hop (xff hop : string) : string := if (xff =? "")%string then hop else xff +:+ ", " +:+ hop.

Lemma Split_add_hop xff hop : xff <> "" -> no_byte "," hop = true -> Split "," (add_hop xff hop) = Split "," xff ++ [" " +:+ hop].
Proof.
  intros Hx Hh. unfold add_hop. apply String.eqb_neq in Hx as ->.
  change (xff +:+ ", " +:+ hop) with (xff +:+ String "," (" " +:+ hop)). rewrite Split_concat.
  by rewrite (Split_no_byte _ (" " +:+ hop)).
Qed.

Lemma add_hop_nonempty xff hop : hop <> "" -> add_hop xff hop <> "".
Proof. unfold add_hop. destruct (String.eqb_spec xff "") as [->|]; [done|]. by destruct xff. Qed.

Lemma outside_blank trusted s : outside trusted (" " +:+ s) = outside trusted s.
Proof. unfold outside. by rewrite TrimSpace_blank. Qed.

(** An address a proxy of the trusted set appends. *)
Definition trusted_hop (trusted : list IPNet) (hop : string) : Prop :=
  hop <> "" /\ no_byte "," hop = true /\ outside trusted hop = false.

Lemma forwarded_hops trusted proxies : forall xff pre part post,
  xff <> "" -> Split "," xff = pre ++ part :: post -> Forall (fun s => outside trusted s = false) post ->
  Forall (trusted_hop trusted) proxies ->
  exists post', Split "," (foldl add_hop xff proxies) = pre ++ part :: post'
                /\ Forall (fun s => outside trusted s = false) post'.
Proof.
  induction proxies as [|h proxies IH]; intros xff pre part post Hx Hs Hp Hh; [by exists post|].
  apply Forall_cons in Hh as [(Hne & Hc & Ho) Hh]. cbn [foldl].
  apply (IH _ pre part (post ++ [" " +:+ h])); [by apply add_hop_nonempty| |
    apply Forall_app; split; [done|]; apply Forall_cons; split; [by rewrite outside_blank|done] | done].
  rewrite Split_add_hop, Hs by done. by rewrite <- List.app_assoc.
Qed.

Lemma first_hop claimed client :
  no_byte "," client = true ->
  exists pre part, Split "," (add_hop claimed client) = pre ++ [part] /\ TrimSpace part = TrimSpace client.
Proof.
  intros Hc. destruct (decide (claimed = "")) as [->|Hne].
  - exists [], client. by rewrite <- (Split_no_byte "," client Hc).
  - exists (Split "," claimed), (" " +:+ client). rewrite Split_add_hop by done. by rewrite TrimSpace_blank.
Qed.

Lemma forwarded_for_first trusted claimed client proxies :
  client <> "" -> no_byte "," client = true -> outside trusted client = true -> Forall (trusted_hop trusted) proxies ->
  forwarded_for trusted (foldl add_hop claimed (client :: proxies)) = TrimSpace client.
Proof.
  intros Hne Hc Ho Hp. destruct (first_hop claimed client Hc) as (pre & part & Hs & Ht). cbn [foldl].
  destruct (forwarded_hops trusted proxies _ pre part [] (add_hop_nonempty claimed client Hne) Hs (List.Forall_nil _) Hp)
    as (post & Hs' & Hpost).
  unfold forwarded_for. rewrite Hs'. rewrite (rev_find (outside trusted) pre part post); [done| |done].
  unfold outside in *. by rewrite Ht.
Qed.

(** ** A CIDR of one address *)

Lemma ParseDenyList_app es1 es2 ns1 ns2 :
  ParseDenyList es1 = inl ns1 -> ParseDenyList es2 = inl ns2 -> ParseDenyList (es1 ++ es2) = inl (ns1 ++ ns2).
Proof.
  revert ns1. induction es1 as [|e es1 IH]; intros ns1 H1 H2; cbn [ParseDenyList List.app] in *; [by simplify_eq|].
  destruct (TrimSpace e =? "")%string; [by apply IH|]. destruct (deny_entry (TrimSpace e)); [|done].
  destruct (ParseDenyList es1); [|done]. simplify_eq. by rewrite (IH _ eq_refl H2).
Qed.

Lemma deny_entry_single e a ip :
  ParseAddr e = Some a -> zone_free a = true -> Unmap a = a -> ParseIP e = Some ip -> no_byte "/" e = true ->
  exists n, deny_entry e = Some n /\ forall ip', Net_Contains n ip' = true <-> ip' = ip.
Proof.
  intros Ha Hz Hu Hip Hs. pose proof (ParseAddr_ok _ _ Ha) as Hok. unfold deny_entry.
  rewrite (Contains_no_byte "/" e "" Hs), Hip. unfold ParseIP in Hip. rewrite Ha, Hz in Hip. injection Hip as <-.
  destruct a as [v|v zone]; cbn [As16 addr_ok zone_free Unmap] in *.
  - rewrite To4_mapped by done. cbn [isSome]. unfold ParseCIDR.
    change (e +:+ "/32") with (e +:+ String "/" "32"). rewrite cut_byte_app by done. cbn [mbind option_bind].
    rewrite Ha. change (dtoi "32") with (Some 32). cbn [mbind option_bind zone_free BitLen]. rewrite Mask_all.
    eexists. split; [reflexivity|]. intros ip'. unfold Net_Contains, net_narrow. cbn [net_wide net_IP net_ones].
    destruct (To4 ip') as [a|] eqn:Ea.
    + apply To4_Some in Ea. rewrite !Z.shiftr_0_r, Z.eqb_eq. lia.
    + split; [done|]. intros ->. by rewrite To4_mapped in Ea.
  - destruct (To4 v) as [w|] eqn:Ev; [done|]. cbn [isSome]. unfold ParseCIDR.
    change (e +:+ "/128") with (e +:+ String "/" "128"). rewrite cut_byte_app by done. cbn [mbind option_bind].
    rewrite Ha. change (dtoi "128") with (Some 128). cbn [mbind option_bind zone_free BitLen]. rewrite Hz, Mask_all.
    eexists. split; [reflexivity|]. intros ip'. unfold Net_Contains, net_narrow. cbn [net_wide net_IP net_ones]. rewrite Ev.
    cbn [fmap option_fmap option_map]. destruct (To4 ip') eqn:Ea.
    + split; [done|]. intros ->. congruence.
    + by rewrite !Z.shiftr_0_r, Z.eqb_eq.
Qed.

(** An entry that is one address, written in its own width and without a zone. *)
Definition address_entry (e : string) (ip : Z) : Prop :=
  exists a, TrimSpace e <> "" /\ no_byte "/" (TrimSpace e) = true /\ ParseAddr (TrimSpace e) = Some a
            /\ zone_free a = true /\ Unmap a = a /\ ip = As16 a.

Lemma ParseDenyList_addresses entries ips :
  Forall2 address_entry entries ips ->
  exists ns, ParseDenyList entries = inl ns
             /\ Forall2 (fun n ip => forall ip', Net_Contains n ip' = true <-> ip' = ip) ns ips.
Proof.
  induction 1 as [|e ip entries ips (a & Hne & Hs & Ha & Hz & Hu & ->) _ (ns & Hns & Hf)]; [by exists []|].
  cbn [ParseDenyList]. apply String.eqb_neq in Hne as ->.
  destruct (deny_entry_single (TrimSpace e) a (As16 a) Ha Hz Hu ltac:(by unfold ParseIP; rewrite Ha, Hz) Hs) as (n & -> & Hn).
  rewrite Hns. eexists. split; [done|]. by constructor.
Qed.

Lemma find_some_iff {A} (p : A -> bool) l : is_Some (List.find p l) <-> exists x, x ∈ l /\ p x = true.
Proof.
  split.
  - intros [x Hx]. apply find_some in Hx as [Hin Hp]. exists x. by rewrite list_elem_of_In.
  - intros (x & Hin%list_elem_of_In & Hp). destruct (List.find p l) eqn:E; [done|].
    pose proof (find_none _ _ E _ Hin). congruence.
Qed.

Lemma DenyListMiddleware_iff ns cx ip :
  ParseIP (cx_ip cx) = Some ip ->
  is_Some (DenyListMiddleware (Some ns) cx) <-> exists n, n ∈ ns /\ Net_Contains n ip = true.
Proof.
  intros Hip. unfold DenyListMiddleware. cbn [nets default]. rewrite Hip. destruct ns as [|n ns].
  - split; [by intros []|]. by intros (n & H%elem_of_nil & _).
  - apply (find_some_iff (fun n => Net_Contains n ip)).
Qed.

Lemma AdminPermits_spec ns ip :
  AdminPermits ns ip = true <-> exists v n, ip = Some v /\ n ∈ ns /\ Net_Contains n v = true.
Proof.
  unfold AdminPermits. destruct ip as [v|]; [|by destruct ns; (split; [done|intros (? & ? & ? & _)])].
  assert (H : existsb (fun n => Net_Contains n v) ns = true <-> exists v' n, Some v = Some v' /\ n ∈ ns /\ Net_Contains n v' = true).
  { rewrite existsb_exists. setoid_rewrite <- list_elem_of_In. naive_solver. }
  by destruct ns.
Qed.

Lemma LocalhostOnly_loopback ns ip :
  Forall net_ok ns -> 0 <= ip -> LocalhostOnly ns = true -> AdminPermits ns (Some ip) = true -> IsLoopback ip = true.
Proof.
  intros Hok Hip Hl (v & n & [= <-] & Hin & Hc)%AdminPermits_spec. rewrite Forall_forall in Hok.
  unfold LocalhostOnly in Hl. rewrite forallb_forall in Hl.
  apply (loopback_network n); [by apply Hok|done|apply Hl; by apply list_elem_of_In|done].
Qed.

(** * Theorems *)

(** C30: who a request is attributed to.  A peer outside the trusted set is
    itself, whatever headers it sends.  Behind a trusted peer, when every proxy
    appends the peer it was called by, the address is the last one that is not
    of the trusted set: what the client itself wrote in X-Forwarded-For, any
    number of addresses included, does not matter.  An address is taken from a
    header only of a trusted peer. *)
Theorem resolveClientIP_attribution r trusted host port :
  SplitHostPort (rq_RemoteAddr r) = Some (host, port) ->
  (peerIsTrusted r trusted = false -> resolveClientIP r trusted = (host, false))
  /\ (forall claimed client proxies,
        peerIsTrusted r trusted = true -> rq_Header r "X-Real-IP" = "" ->
        rq_Header r "X-Forwarded-For" = foldl add_hop claimed (client :: proxies) ->
        client <> "" -> no_byte "," client = true -> outside trusted client = true -> Forall (trusted_hop trusted) proxies ->
        resolveClientIP r trusted = (TrimSpace client, true))
  /\ ((resolveClientIP r trusted).2 = true -> peerIsTrusted r trusted = true).
Proof.
  intros Hs. unfold peerIsTrusted, resolveClientIP. rewrite Hs.
  destruct (match ParseIP host with Some ip => isTrusted ip trusted | None => false end) eqn:Ht; cbn [negb].
  - split; [done|]. split; [|done]. intros claimed client proxies _ Hr Hx Hne Hc Ho Hp. rewrite Hr. cbn [String.eqb negb].
    assert (Hxne : rq_Header r "X-Forwarded-For" <> "").
    { rewrite Hx. cbn [foldl]. clear -Hne Hp. revert claimed client Hne.
      induction Hp as [|h proxies (Hh & _) _ IH]; intros claimed client Hne; [by apply add_hop_nonempty|].
      cbn [foldl]. by apply (IH (add_hop claimed client) h). }
    apply String.eqb_neq in Hxne. rewrite Hxne. cbn [negb]. rewrite Hx. by rewrite forwarded_for_first.
  - split; [done|]. split; [by intros ???|done].
Qed.

Lemma resolveClientIP_attribution_witness :
  resolveClientIP (from_peer "127.0.0.1:99" "" "10.0.0.1, 127.0.0.1, 198.51.100.4, 10.0.0.9") defaultTrustedNets
  = ("198.51.100.4", true).
Proof.
  destruct (resolveClientIP_attribution (from_peer "127.0.0.1:99" "" "10.0.0.1, 127.0.0.1, 198.51.100.4, 10.0.0.9")
              defaultTrustedNets "127.0.0.1" "99" ltac:(vm_compute; reflexivity)) as (_ & H & _).
  etransitivity; [apply (H "10.0.0.1, 127.0.0.1" "198.51.100.4" ["10.0.0.9"])|vm_compute; reflexivity].
  1-3, 5-6: vm_compute; reflexivity.
  - discriminate.
  - constructor; [|constructor]. split; [discriminate|split; vm_compute; reflexivity].
Defined.

(** The deny list.  A list of single addresses refuses a client whose
    address parses exactly when the address is one of them.  Two spellings
    escape it: an IPv4 address written inside an IPv6 one, as an entry, names
    another network and refuses no such client, and a client whose address
    carries a zone parses to nothing and passes every list. *)
Theorem deny_list_refuses entries ips cx :
  Forall2 address_entry entries ips ->
  (exists ns, ParseDenyList entries = inl ns /\
     forall ip, ParseIP (cx_ip cx) = Some ip -> is_Some (DenyListMiddleware (Some ns) cx) <-> ip ∈ ips)
  /\ (exists ns ip, ParseDenyList ["::ffff:10.1.2.3"] = inl ns /\ ParseIP "::ffff:10.1.2.3" = Some ip
        /\ ParseIP "10.1.2.3" = Some ip /\ existsb (fun n => Net_Contains n ip) ns = false)
  /\ (exists ns, ParseDenyList ["fe80::/10"] = inl ns
        /\ DenyListMiddleware (Some ns) (RealIPMiddleware None (from_peer "[fe80::1%eth0]:99" "" "")) = None).
Proof.
  intros H. split; [|split].
  - destruct (ParseDenyList_addresses _ _ H) as (ns & Hns & Hf). exists ns. split; [done|]. intros ip Hip.
    rewrite (DenyListMiddleware_iff ns cx ip Hip). clear -Hf. induction Hf as [|n ip' ns ips Hn _ IH].
    + rewrite elem_of_nil. split; [|done]. by intros (n & H%elem_of_nil & _).
    + rewrite elem_of_cons, <- IH. split.
      * intros (m & Hm & Hc). apply elem_of_cons in Hm as [->|Hm]; [left; by apply Hn|right; by exists m].
      * intros [->|(m & Hm & Hc)]; [exists n; split; [by left|by apply Hn]|exists m; split; [by right|done]].
  - eexists _, _. split; [vm_compute; reflexivity|]. split; [vm_compute; reflexivity|].
    split; vm_compute; reflexivity.
  - eexists. split; vm_compute; reflexivity.
Qed.

Lemma deny_list_refuses_witness :
  exists ns, ParseDenyList [" 192.0.2.7"; ""; "2001:db8::1"] = inl ns
             /\ is_Some (DenyListMiddleware (Some ns) (RealIPMiddleware None (from_peer "[2001:db8:0::1]:80" "" ""))).
Proof.
  destruct (deny_list_refuses [" 192.0.2.7"; "2001:db8::1"] [65535 * 2 ^ 32 + 3221225991; 42540766411282592856903984951653826561]
              (RealIPMiddleware None (from_peer "[2001:db8:0::1]:80" "" ""))) as [(ns & Hns & H) _].
  { constructor; [|constructor; [|constructor]]; (eexists; split; [discriminate|split; [vm_compute; reflexivity|
      split; [vm_compute; reflexivity|split; [vm_compute; reflexivity|split; vm_compute; reflexivity]]]]). }
  exists ns. split; [exact Hns|]. apply (H 42540766411282592856903984951653826561); [vm_compute; reflexivity|].
  right. left.
Defined.
