(* ===== verification/RouteScope.v ===== *)
(** Which package a path names, and which token scopes a request needs
    (internal/server/middleware.go: parsePackagePath, routeScope, scopeTypeOf,
    authorizeScope; oci.go: splitOCIPath, ociRegistryOf, parseOCIPackagePath;
    npm.go: npmVersionFromTarball).  [UnescapePath] is the inverse of the Go
    module path escaping and [lower_unicode] the lower case of a text that is not
    ASCII. *)

From stdpp Require Import base list strings gmap.
From Stdlib Require Import ZArith Lia Ascii.
From S2P Require Import Prelude GoStrings GoRunes Types MavenLayout RpmKeys Keys Scope ClientIP.

(** * Methods *)

Definition isOCIRoute (p : string) : bool := (p =? "/v2/")%string || HasPrefix p "/v2/".

Definition isGitUploadPack (r : Request) : bool :=
  (rq_Method r =? "POST")%string && HasPrefix (rq_Path r) "/git/" && HasSuffix (rq_Path r) "/git-upload-pack".

(** The requests the mutation gate lets by as reads. *)
Definition isRead (r : Request) : bool :=
  (negb (rq_Method r =? "POST")%string && negb (rq_Method r =? "DELETE")%string && negb (rq_Method r =? "PATCH")%string)
  || isGitUploadPack r || isOCIRoute (rq_Path r).

(** * The package a path names *)

Definition maxDetailField : nat := 256.

Definition ellipsis_char : string := utf8 [226; 128; 166].

Definition truncateField (s : string) (max : nat) : string :=
  if (String.length s <=? max)%nat then s else str_take max s +:+ ellipsis_char.

Definition parseAPIPackagePath (path : string) : string * string :=
  match cut_prefix path "/api/v1/packages/" with
  | None => ("", "")
  | Some rest =>
      match Split "/" rest with
      | [] => ("", "")
      | [t] => (truncateField t maxDetailField, "")
      | t :: n :: _ => (truncateField t maxDetailField, truncateField n maxDetailField)
      end
  end.

(** The text after the last slash, and the text before it. *)
Definition after_last_slash (s : string) : string := match cut_last_byte "/" s with Some (_, b) => b | None => s end.

Definition npmVersionFromTarball (pkgName tarball : string) : string :=
  match cut_prefix tarball (after_last_slash pkgName +:+ "-") with
  | None => ""
  | Some v => TrimSuffix v ".tgz"
  end.

Section paths.
Context (UnescapePath : string -> option string) (lower_unicode : string -> string).

Definition splitOCIPath (p : string) : option (string * string * string) :=
  match cut_last_byte "/" p with
  | None => None
  | Some (rest, ref) =>
      if (rest =? "")%string then None
      else match cut_last_byte "/" rest with
           | None => None
           | Some (name, kind) => if (name =? "")%string then None else Some (name, kind, ref)
           end
  end.

Definition ociDockerHub := "docker.io".

Definition ociRegistryOf (name ns : string) : string * string :=
  let '(registry, repo) :=
    if negb (ToLowerU lower_unicode ns =? "")%string then (ToLowerU lower_unicode ns, name)
    else match cut_byte "/" name with
         | Some (first, rest) =>
             if Contains first "." then (ToLowerU lower_unicode first, rest) else (ociDockerHub, name)
         | None => (ociDockerHub, name)
         end in
  (registry, if (registry =? ociDockerHub)%string && negb (Contains repo "/") then "library/" +:+ repo else repo).

Definition parseOCIPackagePath (path ns : string) : string * string :=
  match splitOCIPath (TrimPrefix path "/v2/") with
  | None => ("", "")
  | Some (n, kind, ref) =>
      let '(registry, repo) := ociRegistryOf n ns in
      (registry +:+ "/" +:+ repo, if (kind =? "tags")%string then "" else ref)
  end.

(** The parts of parsePackagePath, one per route, on the path below the prefix. *)

Definition pypi_wheel_path (filename : string) : identity :=
  match SplitN "-" 3 filename with
  | name :: version :: _ => (TypePypi, name, version)
  | _ => (TypePypi, filename, "")
  end.

Definition binary_path (rest : string) : identity :=
  match SplitN "/" 3 rest with
  | name :: version :: _ => (TypeBinary, name, version)
  | _ => (TypeBinary, rest, "")
  end.

Definition gomod_path (full : string) : identity :=
  match cut full "/@v/" with
  | Some (module, file) =>
      match cut_last_byte "." file with
      | Some (base, _) =>
          if negb (base =? "")%string && negb (file =? "list")%string then (TypeGomod, module, base) else (TypeGomod, module, "")
      | None => (TypeGomod, module, "")
      end
  | None => (TypeGomod, full, "")
  end.

Definition helm_chart_path (filename : string) : identity :=
  match cut_suffix filename ".tgz" with
  | None => (TypeHelm, filename, "")
  | Some base => let '(_, name, version) := ParseKey UnescapePath (HelmChartKey base "") in (TypeHelm, name, version)
  end.

Definition npm_path (full : string) : identity :=
  match cut full "/-/" with
  | Some (pkgName, tarball) => (TypeNpm, pkgName, npmVersionFromTarball pkgName tarball)
  | None => (TypeNpm, full, "")
  end.

Definition cargo_path (full : string) : identity :=
  let index := (TypeCargo, after_last_slash full, "") in
  match cut_suffix full "/download" with
  | Some crate => match SplitN "/" 2 crate with [name; version] => (TypeCargo, name, version) | _ => index end
  | None => index
  end.

Definition rubygems_path (full : string) : identity :=
  match cut_prefix full "gems/" with
  | Some file =>
      let '(n, v) := RubygemsGemIdentity file in
      if negb (n =? "")%string then (TypeRubygems, n, v) else (TypeRubygems, "", "")
  | None => match cut_prefix full "info/" with
            | Some name => (TypeRubygems, name, "")
            | None => (TypeRubygems, "", "")
            end
  end.

Definition composer_path (full : string) : identity :=
  match cut_prefix full "dist/" with
  | Some rest =>
      match SplitN "/" 3 rest with
      | [vendor; package; file] =>
          match cut_last_byte "/" file with
          | Some (version, _) =>
              if negb (version =? "")%string then (TypeComposer, vendor +:+ "/" +:+ package, version) else (TypeComposer, "", "")
          | None => (TypeComposer, "", "")
          end
      | _ => (TypeComposer, "", "")
      end
  | None =>
      match cut_prefix full "p2/" with
      | Some file => (TypeComposer, TrimSuffix (TrimSuffix file ".json") "~dev", "")
      | None => (TypeComposer, "", "")
      end
  end.

Definition rpm_path (path : string) : identity :=
  if HasSuffix path ".rpm" then
    let '(n, v) := RpmFileIdentity (after_last_slash path) in
    if negb (n =? "")%string then (TypeRpm, n, v) else (TypeRpm, "", "")
  else (TypeRpm, "", "").

Definition maven_path (rest : string) : identity :=
  match ParseMavenPath rest with Some mp => (TypeMaven, mp_Name mp, mp_Version mp) | None => (TypeMaven, "", "") end.

Definition freebsd_path (rest : string) : identity :=
  match SplitN "/" 3 rest with
  | abi :: repo :: _ => (TypeFreeBSD, repo, abi)
  | _ => (TypeFreeBSD, "", "")
  end.

(** The profile's view of the same tree: the call the code makes on
    "/freebsd/" and the rest can only reach the route of that prefix. *)
Definition freebsd_profile_path (rest : string) : identity :=
  match cut_byte "/" rest with Some (_, rest) => freebsd_path rest | None => (TypeFreeBSD, "", "") end.

(** The switch of parsePackagePath: the first prefix the path has. *)
Definition package_routes : list (string * (string -> identity)) :=
  [("/apt/", fun rest => (TypeApt, rest, ""));
   ("/pypi/wheels/", pypi_wheel_path);
   ("/pypi/simple/", fun rest => (TypePypi, Trim rest "/", ""));
   ("/git/", fun rest => (TypeGit, hd "" (SplitN "/" 2 rest), ""));
   ("/binaries/", binary_path);
   ("/go/", gomod_path);
   ("/helm/charts/", helm_chart_path);
   ("/helm/", fun _ => (TypeHelm, "index", ""));
   ("/npm/", npm_path);
   ("/cargo/", cargo_path);
   ("/rubygems/", rubygems_path);
   ("/composer/", composer_path);
   ("/v2/", fun rest => let '(name, version) := parseOCIPackagePath ("/v2/" +:+ rest) "" in (TypeOCI, name, version));
   ("/rpm/", fun rest => rpm_path ("/rpm/" +:+ rest));
   ("/maven/", maven_path);
   ("/freebsd-profile/", freebsd_profile_path);
   ("/freebsd/", freebsd_path)].

Definition parsePackagePath (path : string) : identity :=
  default ("", "", "")
    (first_some (fun route => route.2 <$> cut_prefix path route.1) package_routes).

Definition scopeTypeOf (p : string) : string :=
  let '(t, _) := parseAPIPackagePath p in
  if negb (t =? "")%string then t
  else if HasPrefix p "/distfiles/" then TypeDistfiles
  else (parsePackagePath p).1.1.

(** * The scopes a route needs *)

Definition authPathPrefix := "/api/v1/auth/".

Definition adminPrefixes : list string :=
  ["/api/v1/policies"; "/api/v1/audit"; "/api/v1/config";
   "/api/v1/inventory/"; "/api/v1/profiles/"; "/api/v1/overrides/"; "/api/v1/queue"].

Definition superadminPrefixes : list string := ["/api/v1/tokens"].

Definition isSuperadminRoute (p : string) : bool := existsb (HasPrefix p) superadminPrefixes.

Definition approveVerbs : list (string * list string) :=
  [("/api/v1/overrides/", ["approve"; "reject"]); ("/api/v1/queue/", ["approve"; "dismiss"])].

(** The map's prefixes exclude each other, so the order it is ranged over in
    does not matter. *)
Definition isApproveVote (p : string) : bool :=
  default false
    (first_some (fun pv =>
       match cut_prefix p pv.1 with
       | None => None
       | Some rest =>
           Some match cut_byte "/" rest with
                | Some (id, verb) => negb (id =? "")%string && slice_contains pv.2 verb
                | None => false
                end
       end) approveVerbs).

Definition reviewLists : list string := ["/api/v1/overrides"; "/api/v1/queue"].

Definition routeScope (r : Request) : list string * string :=
  let p := rq_Path r in
  if (p =? "/healthz")%string || HasPrefix p authPathPrefix then ([], "")
  else if isSuperadminRoute p then ([ScopeSuperadmin], "")
  else if isApproveVote p then ([ScopeApprove], "")
  else if isRead r && slice_contains reviewLists p then ([ScopeAdmin; ScopeApprove], "")
  else if existsb (HasPrefix p) adminPrefixes then ([ScopeAdmin], "")
  else if isRead r then ([ScopeRead], scopeTypeOf p)
  else
    let '(t, _) := parseAPIPackagePath p in
    ([ScopeWrite], if (t =? "import")%string then "" else t).

(** Whether a token's scopes reach the route. *)
Definition authorizeScope (r : Request) (scope : string) : bool :=
  let '(need, typ) := routeScope r in
  if (length need =? 0)%nat then true
  else match ParseScopes scope with
       | inr _ => false
       | inl scopes => existsb (fun n => Allows scopes n typ) need
       end.

Definition missingScope (need typ : string) : string := if (typ =? "")%string then need else need +:+ ":" +:+ typ.

End paths.

(** * Lemmas *)

Lemma Allows_spec sc name typ :
  Allows sc name typ = true <->
  exists g, g ∈ sc /\ ((g_Name g = ScopeInventory /\ name = ScopeRead)
                       \/ (g_Name g = name /\ (g_Types g = [] \/ typ = "" \/ typ ∈ g_Types g))).
Proof.
  induction sc as [|g sc IH]; [cbn; split; [done|]; by intros (g & H%elem_of_nil & _)|]. cbn [Allows].
  assert (Hc : forall P : Grant -> Prop, (exists g', g' ∈ g :: sc /\ P g') <-> P g \/ exists g', g' ∈ sc /\ P g').
  { intros P. setoid_rewrite elem_of_cons. naive_solver. }
  rewrite Hc, <- IH. clear Hc IH.
  destruct (String.eqb_spec (g_Name g) ScopeInventory) as [E|E]; cbn [andb].
  - destruct (String.eqb_spec name ScopeRead) as [->|Hn]; [naive_solver|].
    destruct (String.eqb_spec (g_Name g) name) as [E'|E']; cbn [negb]; [|naive_solver].
    destruct (g_Types g) as [|t ts]; cbn [length Nat.eqb orb]; [naive_solver|].
    destruct (String.eqb_spec typ "") as [->|Ht]; cbn [orb]; [naive_solver|].
    destruct (slice_contains (t :: ts) typ) eqn:Es.
    + apply slice_contains_spec in Es. naive_solver.
    + assert (~ typ ∈ t :: ts) by (intros H; apply slice_contains_spec in H; congruence). naive_solver.
  - destruct (String.eqb_spec (g_Name g) name) as [E'|E']; cbn [negb]; [|naive_solver].
    destruct (g_Types g) as [|t ts]; cbn [length Nat.eqb orb]; [naive_solver|].
    destruct (String.eqb_spec typ "") as [->|Ht]; cbn [orb]; [naive_solver|].
    destruct (slice_contains (t :: ts) typ) eqn:Es.
    + apply slice_contains_spec in Es. naive_solver.
    + assert (~ typ ∈ t :: ts) by (intros H; apply slice_contains_spec in H; congruence). naive_solver.
Qed.

Section path_lemmas.
Context (UnescapePath : string -> option string) (lower_unicode : string -> string).
Local Abbreviation scopeTypeOf := (scopeTypeOf UnescapePath lower_unicode).
Local Abbreviation routeScope := (routeScope UnescapePath lower_unicode).
Local Abbreviation authorizeScope := (authorizeScope UnescapePath lower_unicode).

(** The routes that serve packages, and the type each serves. *)
Definition artifact_routes : list (string * string) :=
  [("/apt/", TypeApt); ("/pypi/wheels/", TypePypi); ("/pypi/simple/", TypePypi); ("/git/", TypeGit);
   ("/binaries/", TypeBinary); ("/go/", TypeGomod); ("/helm/", TypeHelm); ("/npm/", TypeNpm); ("/cargo/", TypeCargo);
   ("/rubygems/", TypeRubygems); ("/composer/", TypeComposer); ("/v2/", TypeOCI); ("/rpm/", TypeRpm);
   ("/maven/", TypeMaven); ("/freebsd-profile/", TypeFreeBSD); ("/freebsd/", TypeFreeBSD); ("/distfiles/", TypeDistfiles)].

Ltac route_type := intros; repeat (case_match; simplify_eq/=); reflexivity.

Lemma route_types rest :
  (pypi_wheel_path rest).1.1 = TypePypi /\ (binary_path rest).1.1 = TypeBinary /\ (gomod_path rest).1.1 = TypeGomod
  /\ (helm_chart_path UnescapePath rest).1.1 = TypeHelm /\ (npm_path rest).1.1 = TypeNpm /\ (cargo_path rest).1.1 = TypeCargo
  /\ (rubygems_path rest).1.1 = TypeRubygems /\ (composer_path rest).1.1 = TypeComposer /\ (rpm_path rest).1.1 = TypeRpm
  /\ (maven_path rest).1.1 = TypeMaven /\ (freebsd_path rest).1.1 = TypeFreeBSD
  /\ (freebsd_profile_path rest).1.1 = TypeFreeBSD.
Proof.
  assert (Hf : forall r, (freebsd_path r).1.1 = TypeFreeBSD) by (intros r; unfold freebsd_path; route_type).
  split_and!.
  - unfold pypi_wheel_path. route_type.
  - unfold binary_path. route_type.
  - unfold gomod_path. route_type.
  - unfold helm_chart_path. route_type.
  - unfold npm_path. route_type.
  - unfold cargo_path. route_type.
  - unfold rubygems_path. route_type.
  - unfold composer_path. route_type.
  - unfold rpm_path. route_type.
  - unfold maven_path. route_type.
  - apply Hf.
  - unfold freebsd_profile_path. case_match; [|done]. case_match. apply Hf.
Qed.

(** Two prefixes neither of which starts the other. *)
Lemma clash a b rest : cut_prefix a b = None -> cut_prefix b a = None -> cut_prefix (a +:+ rest) b = None.
Proof.
  revert b. induction a as [|x a IH]; intros [|y b]; try done. rewrite app_cons. cbn [cut_prefix].
  rewrite (Ascii.eqb_sym x y). destruct (Ascii.eqb y x); [apply IH|done].
Qed.

Lemma scopeTypeOf_route pre ty p : (pre, ty) ∈ artifact_routes -> HasPrefix p pre = true -> scopeTypeOf p = ty.
Proof.
  intros Hin Hp. unfold HasPrefix in Hp. destruct (cut_prefix p pre) as [rest|] eqn:E; [|done].
  apply cut_prefix_Some in E as ->. clear Hp. unfold artifact_routes in Hin. rewrite !elem_of_cons, elem_of_nil in Hin.
  pose proof (route_types rest) as (? & ? & ? & ? & ? & ? & ? & ? & ? & ? & ? & ?).
  assert (Hrpm : (rpm_path ("/rpm/" +:+ rest)).1.1 = TypeRpm) by apply route_types.
  destruct_or!; try done; injection Hin as -> ->;
    unfold RouteScope.scopeTypeOf, parseAPIPackagePath, parsePackagePath, HasPrefix, package_routes; cbn [first_some fst snd];
    rewrite ?clash by reflexivity; rewrite ?cut_prefix_app; cbn [fmap option_fmap option_map default String.eqb negb fst snd];
    try done.
  - destruct (cut_prefix ("/helm/" +:+ rest) "/helm/charts/"); cbn; [|done]. apply route_types.
  - by destruct (parseOCIPackagePath _ _ _).
Qed.

Lemma artifact_route_scope pre ty r :
  (pre, ty) ∈ artifact_routes -> HasPrefix (rq_Path r) pre = true -> isRead r = true -> routeScope r = ([ScopeRead], ty).
Proof.
  intros Hin Hp Hr. pose proof (scopeTypeOf_route _ _ _ Hin Hp) as Ht.
  unfold RouteScope.routeScope. rewrite Hr, Ht. unfold HasPrefix in Hp.
  destruct (cut_prefix (rq_Path r) pre) as [rest|] eqn:E; [|done]. apply cut_prefix_Some in E as ->. clear Hp Ht.
  unfold artifact_routes in Hin. rewrite !elem_of_cons, elem_of_nil in Hin.
  destruct_or!; try done; injection Hin as -> ->; done.
Qed.

Lemma authorizeScope_one r scope name typ :
  routeScope r = ([name], typ) ->
  authorizeScope r scope = true <-> exists sc, ParseScopes scope = inl sc /\ Allows sc name typ = true.
Proof.
  intros H. unfold RouteScope.authorizeScope. rewrite H. cbn [length Nat.eqb]. destruct (ParseScopes scope) as [sc|err].
  - cbn [existsb]. rewrite orb_false_r. naive_solver.
  - naive_solver.
Qed.

Lemma parseAPIPackagePath_type t rest :
  no_byte "/" t = true -> (String.length t <= maxDetailField)%nat -> rest = "" \/ HasPrefix rest "/" = true ->
  (parseAPIPackagePath ("/api/v1/packages/" +:+ t +:+ rest)).1 = t.
Proof.
  intros Ht Hl Hr. unfold parseAPIPackagePath. rewrite cut_prefix_app.
  assert (Hx : truncateField t maxDetailField = t) by (unfold truncateField; by rewrite (proj2 (Nat.leb_le _ _) Hl)).
  destruct Hr as [->|[r ->]%HasPrefix_spec].
  - by rewrite app_nil_r, Split_no_byte, Hx.
  - change (t +:+ "/" +:+ r) with (t +:+ String "/" r). rewrite Split_app by done.
    destruct (Split "/" r); by rewrite Hx.
Qed.

Lemma package_mutation_scope r t rest :
  isRead r = false -> rq_Path r = "/api/v1/packages/" +:+ t +:+ rest -> t ∈ AllTypes ->
  rest = "" \/ HasPrefix rest "/" = true -> routeScope r = ([ScopeWrite], t).
Proof.
  intros Hr Hp Ht Hrest.
  assert (Hn : no_byte "/" t = true /\ (String.length t <= maxDetailField)%nat /\ (t =? "import")%string = false).
  { clear Hp. revert t Ht. apply Forall_forall. by repeat (constructor; [split; [done|split; [vm_compute; lia|done]]|]). }
  destruct Hn as (Hn & Hl & Hi). pose proof (parseAPIPackagePath_type t rest Hn Hl Hrest) as Ht'.
  unfold RouteScope.routeScope. rewrite Hr, Hp. cbn [andb].
  destruct (parseAPIPackagePath ("/api/v1/packages/" +:+ t +:+ rest)) as [t' n]. cbn [fst] in Ht'. subst t'. rewrite Hi.
  set (x := t +:+ rest). clearbody x. done.
Qed.
End path_lemmas.

(** * Theorems *)

(** C29: a typed token stays with its types.  On every route that serves
    packages, a read is let through exactly when the token's scopes parse and
    hold a read grant for the type of the route, or for every type (an inventory
    token reads as well); on the package API, a change is let through exactly
    when they hold such a write grant.  No path of a route, well formed or not,
    falls out of its type. *)
Theorem typed_token_contained UnescapePath lower_unicode r scope :
  let granted name ty :=
    exists sc g, ParseScopes scope = inl sc /\ g ∈ sc /\ g_Name g = name /\ (g_Types g = [] \/ ty ∈ g_Types g) in
  let inventory := exists sc g, ParseScopes scope = inl sc /\ g ∈ sc /\ g_Name g = ScopeInventory in
  (forall pre ty, (pre, ty) ∈ artifact_routes -> HasPrefix (rq_Path r) pre = true -> isRead r = true ->
     authorizeScope UnescapePath lower_unicode r scope = true <-> granted ScopeRead ty \/ inventory)
  /\ (forall t rest, isRead r = false -> rq_Path r = "/api/v1/packages/" +:+ t +:+ rest -> t ∈ AllTypes ->
        rest = "" \/ HasPrefix rest "/" = true ->
        authorizeScope UnescapePath lower_unicode r scope = true <-> granted ScopeWrite t).
Proof.
  assert (Hne : forall pre ty, (pre, ty) ∈ artifact_routes -> ty <> "").
  { intros pre ty Hin ->. unfold artifact_routes in Hin. rewrite !elem_of_cons, elem_of_nil in Hin. naive_solver. }
  intros granted inventory. split.
  - intros pre ty Hin Hp Hr. rewrite (authorizeScope_one _ _ _ _ _ _ (artifact_route_scope _ _ _ _ _ Hin Hp Hr)).
    setoid_rewrite Allows_spec. specialize (Hne _ _ Hin). unfold granted, inventory. naive_solver.
  - intros t rest Hr Hp Ht Hrest. rewrite (authorizeScope_one _ _ _ _ _ _ (package_mutation_scope _ _ _ _ _ Hr Hp Ht Hrest)).
    assert (Ht' : t <> "") by (intros ->; unfold AllTypes in Ht; rewrite !elem_of_cons, elem_of_nil in Ht; naive_solver).
    setoid_rewrite Allows_spec. unfold granted. split; [|naive_solver].
    intros (sc & Hs & g & Hg & [(_ & [=])|Hg']). exists sc, g. naive_solver.
Qed.

Definition npm_read (path : string) : Request := MkRequest "GET" path "10.0.0.1:99" no_header.

Lemma typed_token_contained_witness :
  authorizeScope Some (fun s => s) (npm_read "/maven/not-a-layout") "read:npm,pypi" = false
  /\ authorizeScope Some (fun s => s) (MkRequest "PATCH" "/api/v1/packages/npm/left-pad/hide" "10.0.0.1:99" no_header)
       "write:npm" = true.
Proof.
  destruct (typed_token_contained Some (fun s => s) (npm_read "/maven/not-a-layout") "read:npm,pypi") as [H _].
  destruct (typed_token_contained Some (fun s => s)
              (MkRequest "PATCH" "/api/v1/packages/npm/left-pad/hide" "10.0.0.1:99" no_header) "write:npm") as [_ H2].
  split.
  - apply not_true_is_false. intros E. apply (H "/maven/" "maven") in E; [|by repeat right|reflexivity|reflexivity].
    destruct E as [(sc & g & Hs & Hg & Hn & Ht)|(sc & g & Hs & Hg & Hn)];
      vm_compute in Hs; injection Hs as <-; apply list_elem_of_singleton in Hg as ->; [|discriminate].
    destruct Ht as [Ht|Ht]; [discriminate|]. cbn [g_Types] in Ht. rewrite !elem_of_cons, elem_of_nil in Ht. naive_solver.
  - apply (H2 "npm" "/left-pad/hide"); [reflexivity|reflexivity| |by right|].
    + unfold AllTypes. rewrite !elem_of_cons. tauto.
    + eexists _, _. split; [vm_compute; reflexivity|]. split; [by left|]. split; [reflexivity|]. right. by left.
Defined.
