(* ===== verification/TokenGate.v ===== *)
(** The gate every request passes (internal/server/middleware.go:
    MutationAuthMiddleware, requireSuperadmin, tokenCache; identity.go:
    credentialFrom; audit/audit.go: TokenHash).  The gate answers a request with
    the token it attached to it, if any, or with a refusal.

    [HashToken] is the keyed hash of a credential (audit/pepper.go),
    [UnescapePath] the inverse of the Go module path escaping, [lower_unicode]
    the lower case of a text that is not ASCII, and [pushRoute] the routes that
    authenticate their callers themselves. *)

From stdpp Require Import base list strings gmap sorting.
From Stdlib Require Import ZArith Lia Ascii.
From S2P Require Import Prelude GoStrings GoRunes GoTime GoURL GoNet Types Scope ClientIP RouteScope.

(** * Credentials *)

(** ** encoding/base64 *)

Definition b64_val (c : ascii) : option Z :=
  if is_upper c then Some (byteZ c - 65)
  else if is_lower c then Some (byteZ c - 71)
  else if is_digit c then Some (byteZ c + 4)
  else if Ascii.eqb c "+" then Some 62 else if Ascii.eqb c "/" then Some 63 else None.

Definition pad (c : ascii) : bool := Ascii.eqb c "=".

(** Four characters a turn; "=" stands only at the end, and the bits it leaves
    over are not looked at. *)
Fixpoint b64_quads (s : string) : option string :=
  match s with
  | "" => Some ""
  | String a (String b (String c (String d rest))) =>
      va ← b64_val a; vb ← b64_val b;
      let first := byte_of (va * 4 + vb / 16) in
      if pad d && (rest =? "")%string then
        if pad c then Some (String first "")
        else vc ← b64_val c; Some (String first (String (byte_of (vb mod 16 * 16 + vc / 4)) ""))
      else
        vc ← b64_val c; vd ← b64_val d; more ← b64_quads rest;
        Some (String first (String (byte_of (vb mod 16 * 16 + vc / 4)) (String (byte_of (vc mod 4 * 64 + vd)) more)))
  | _ => None
  end.

Fixpoint drop_newlines (s : string) : string :=
  match s with
  | "" => ""
  | String c rest => if (byteZ c =? 10) || (byteZ c =? 13) then drop_newlines rest else String c (drop_newlines rest)
  end.

Definition DecodeString (s : string) : option string := b64_quads (drop_newlines s).

(** ** The Authorization header *)

Inductive credentialForm := formNone | formBearer | formBasic | formRaw.

Section credentials.
Context (lower_unicode : string -> string).

Definition knownScheme (s : string) : bool :=
  slice_contains ["bearer"; "token"; "basic"; "digest"; "negotiate"; "ntlm"] (ToLowerU lower_unicode s).

Definition basic_credential (rest : string) : string * credentialForm :=
  match DecodeString rest with
  | None => ("", formNone)
  | Some raw =>
      match cut_byte ":" raw with
      | None => ("", formNone)
      | Some (user, pass) =>
          if negb (pass =? "")%string then (pass, formBasic)
          else if negb (user =? "")%string then (user, formBasic) else ("", formNone)
      end
  end.

Definition credentialFrom (r : Request) : string * credentialForm :=
  let h := TrimSpace (rq_Header r "Authorization") in
  if (h =? "")%string then ("", formNone)
  else
    let '(scheme, rest) := match cut_byte " " h with Some (a, b) => (a, b) | None => (h, "") end in
    let rest := TrimSpace rest in
    let kind := ToLowerU lower_unicode scheme in
    if (kind =? "bearer")%string || (kind =? "token")%string then
      if (rest =? "")%string then ("", formNone) else (rest, formBearer)
    else if (kind =? "basic")%string then basic_credential rest
    else if (rest =? "")%string && negb (knownScheme scheme) then (scheme, formRaw)
    else ("", formNone).
End credentials.

Definition bearerOf (r : Request) : option string :=
  let h := rq_Header r "Authorization" in
  match cut_prefix h "Bearer " with
  | Some auth => if (auth =? "")%string then None else Some auth
  | None => None
  end.

(** * Tokens *)

Record TokenHash := MkToken {
  tk_ID : string; tk_Hash : string; tk_ExpiresAt : option Z; tk_Scope : string;
  tk_Subject : string; tk_Issuer : string; tk_CreatedBy : string
}.

Definition expired (t : TokenHash) (now : Z) : bool :=
  match tk_ExpiresAt t with Some e => e <? now | None => false end.

(** The cache of the token table.  A list with no row is a nil slice, so an empty
    table is not cached. *)
Record tokenCache := MkTokenCache { tc_hashes : list TokenHash; tc_at : Z; tc_gen : Z }.

Definition tokenCacheTTL : Z := 30 * Second.

(** A write this process makes to the tokens, as minting, expiring and revoking do:
    when the statement commits, and when the counter is moved past it. *)
Record token_write := MkTokenWrite { w_at : Z; w_counted : Z }.

(** The counter at a time, an unsigned word. *)
Definition TokenGeneration (writes : list token_write) (t : Z) : Z :=
  Z.of_nat (length (List.filter (fun w => w_counted w <=? t) writes)) mod 2 ^ 64.

(** What one call of [all] meets: whether there is a database, its generation,
    the clock before and after, and what the query answers. *)
Record token_env := MkEnv {
  te_db : bool; te_gen : Z; te_now : Z; te_read : list TokenHash + string; te_loaded : Z
}.

Definition all (e : token_env) (c : tokenCache) : tokenCache * list TokenHash :=
  if negb (te_db e) then (c, [])
  else if (Time_Sub (te_now e) (tc_at c) <? tokenCacheTTL) && negb (length (tc_hashes c) =? 0)%nat
          && (te_gen e =? tc_gen c)
  then (c, tc_hashes c)
  else match te_read e with
       | inr _ => (c, tc_hashes c)
       | inl hashes => (MkTokenCache hashes (te_loaded e) (te_gen e), hashes)
       end.

Definition findHash (hashes : list TokenHash) (incoming : string) : option TokenHash :=
  List.find (fun t => (tk_Hash t =? incoming)%string) hashes.

(** * The gate *)

Inductive denial :=
| DenialAdminOnly | DenialUnparseableIP | DenialIPNotPermitted | DenialNoTokens | DenialTokenMissing
| DenialTokenInvalid | DenialTokenExpired | DenialTokenScope.

(** The handler runs, with the token that was attached; or the answer of a
    refusal. *)
Inductive gate_answer := Serve (token : option TokenHash) | Refuse (status : Z) (why : denial).

Section gate.
Context (HashToken : string -> string -> string) (UnescapePath : string -> option string)
        (lower_unicode : string -> string) (pushRoute : Request -> bool) (pepper : string).

Local Abbreviation authorize := (authorizeScope UnescapePath lower_unicode).

Definition lookup_token (hashes : list TokenHash) (cred : string) : option TokenHash :=
  findHash hashes (HashToken cred pepper).

Definition match_token (hashes : list TokenHash) (cred : string) (now : Z) : option TokenHash :=
  match lookup_token hashes cred with Some t => if expired t now then None else Some t | None => None end.

(** A token presented on the route is held to its scopes. *)
Definition held_to_scope (r : Request) (t : TokenHash) : gate_answer :=
  if authorize r (tk_Scope t) then Serve (Some t) else Refuse 403 DenialTokenScope.

(** A presented, known, unexpired token whose scopes reach the route. *)
Definition token_required (hashes : list TokenHash) (now : Z) (r : Request) : gate_answer :=
  match bearerOf r with
  | None => Refuse 401 DenialTokenMissing
  | Some auth =>
      match lookup_token hashes auth with
      | None => Refuse 401 DenialTokenInvalid
      | Some t => if expired t now then Refuse 401 DenialTokenExpired else held_to_scope r t
      end
  end.

Definition requireSuperadmin (e : token_env) (now : Z) (c : tokenCache) (r : Request) : tokenCache * gate_answer :=
  match bearerOf r with
  | None => (c, Refuse 401 DenialTokenMissing)
  | Some _ => let '(c, hashes) := all e c in (c, token_required hashes now r)
  end.

(** A token no one has to present. *)
Definition token_presented (e : token_env) (now : Z) (c : tokenCache) (cred : option string) (r : Request)
  : tokenCache * gate_answer :=
  match cred with
  | None => (c, Serve None)
  | Some cred =>
      let '(c, hashes) := all e c in
      (c, match match_token hashes cred now with Some t => held_to_scope r t | None => Serve None end)
  end.

Definition read_gate (admin : Nets) (cx : ClientCtx) (e : token_env) (now : Z) (c : tokenCache) (r : Request)
  : tokenCache * gate_answer :=
  if isSuperadminRoute (rq_Path r) then
    if negb (AdminPermits (nets admin) (ParseIP (cx_ip cx))) then (c, Refuse 403 DenialAdminOnly)
    else requireSuperadmin e now c r
  else
    let '(cred, _) := credentialFrom lower_unicode r in
    token_presented e now c (if (cred =? "")%string then None else Some cred) r.

(** A mutation: [e1] is what the first read of the tokens meets and [e2] the
    second. *)
Definition mutation_gate (admin : Nets) (cx : ClientCtx) (e1 e2 : token_env) (now : Z) (c : tokenCache) (r : Request)
  : tokenCache * gate_answer :=
  if pushRoute r then (c, Serve None)
  else
    match ParseIP (cx_ip cx) with
    | None => (c, Refuse 403 DenialUnparseableIP)
    | Some clientIP =>
        if negb (AdminPermits (nets admin) (Some clientIP)) then (c, Refuse 403 DenialIPNotPermitted)
        else if isSuperadminRoute (rq_Path r) then requireSuperadmin e1 now c r
        else if LocalhostOnly (nets admin) then token_presented e1 now c (bearerOf r) r
        else
          let '(c, hashes) := all e1 c in
          if (length hashes =? 0)%nat then (c, Refuse 401 DenialNoTokens)
          else match bearerOf r with
               | None => (c, Refuse 401 DenialTokenMissing)
               | Some _ => let '(c, hashes) := all e2 c in (c, token_required hashes now r)
               end
    end.

Definition mutationAuth (admin : Nets) (cx : ClientCtx) (e1 e2 : token_env) (now : Z) (c : tokenCache) (r : Request)
  : tokenCache * gate_answer :=
  if isRead r then read_gate admin cx e1 now c r else mutation_gate admin cx e1 e2 now c r.

(** ** The chain of handlers in front of the routes (server.go: handler) *)

Inductive chain_answer := DeniedClient (by_ : IPNet) | Gated (a : gate_answer).

(** The parts of the chain that decide: the client's address, the deny list and
    the gate. *)
Definition chain (trusted deny admin : Nets) (e1 e2 : token_env) (now : Z) (c : tokenCache) (r : Request)
  : tokenCache * chain_answer :=
  let cx := RealIPMiddleware trusted r in
  match DenyListMiddleware deny cx with
  | Some n => (c, DeniedClient n)
  | None => let '(c, a) := mutationAuth admin cx e1 e2 now c r in (c, Gated a)
  end.
End gate.

Example credentials_ex :
  map (fun h => credentialFrom (fun s => s) (MkRequest "GET" "/" "" (fun _ => h)))
    ["Bearer abc"; "bearer"; "Basic dXNlcjpwYXNz"; "Basic dG9rZW46"; "Basic dXNlcg=="; " crates-token "; "Digest x"; "Digest"; "token  t "]
  = [("abc", formBearer); ("", formNone); ("pass", formBasic); ("token", formBasic); ("", formNone);
     ("crates-token", formRaw); ("", formNone); ("", formNone); ("t", formBearer)].
Proof. vm_compute. reflexivity. Qed.

(** * Lemmas *)

Lemma exists_Some {A} (a : A) (P : A -> Prop) : (exists a', Some a = Some a' /\ P a') <-> P a.
Proof. split; [by intros (a' & [= <-] & H)|intros H; by exists a]. Qed.

Lemma and_true (P : Prop) : (true = true /\ P) <-> P.
Proof. split; [by intros [_ H]|by split]. Qed.

Section gate_lemmas.
Context (HashToken : string -> string -> string) (UnescapePath : string -> option string)
        (lower_unicode : string -> string) (pepper : string).

Local Abbreviation authorize := (authorizeScope UnescapePath lower_unicode).
Local Abbreviation known := (lookup_token HashToken pepper).

(** A Bearer credential of a listed token that is in force and reaches the route. *)
Definition holds (hashes : list TokenHash) (now : Z) (r : Request) (t : TokenHash) : Prop :=
  exists cred, bearerOf r = Some cred /\ known hashes cred = Some t /\ expired t now = false
               /\ authorize r (tk_Scope t) = true.

(** No Bearer credential of a token in force. *)
Definition tokenless (hashes : list TokenHash) (now : Z) (r : Request) : Prop :=
  forall cred, bearerOf r = Some cred -> match_token HashToken pepper hashes cred now = None.

Lemma held_to_scope_Serve r t tok :
  held_to_scope UnescapePath lower_unicode r t = Serve tok <-> tok = Some t /\ authorize r (tk_Scope t) = true.
Proof. unfold held_to_scope. destruct (authorize r (tk_Scope t)); naive_solver. Qed.

Lemma token_required_Serve hashes now r tok :
  token_required HashToken UnescapePath lower_unicode pepper hashes now r = Serve tok <->
  exists t, tok = Some t /\ holds hashes now r t.
Proof.
  unfold token_required, holds. destruct (bearerOf r) as [cred|]; [|naive_solver].
  destruct (known hashes cred) as [t|] eqn:E; [|naive_solver].
  destruct (expired t now) eqn:Ee.
  - split; [done|]. intros (t' & _ & cred' & [= <-] & Hk & He & _). congruence.
  - rewrite held_to_scope_Serve. split; [naive_solver|]. intros (t' & -> & cred' & [= <-] & Hk & _ & Ha).
    rewrite E in Hk. by injection Hk as <-.
Qed.

Lemma requireSuperadmin_Serve e now c r tok :
  (requireSuperadmin HashToken UnescapePath lower_unicode pepper e now c r).2 = Serve tok <->
  exists t, tok = Some t /\ holds (all e c).2 now r t.
Proof.
  rewrite <- token_required_Serve. unfold requireSuperadmin, token_required. destruct (bearerOf r); [|done].
  by destruct (all e c).
Qed.

Lemma token_presented_Serve e now c r tok :
  (token_presented HashToken UnescapePath lower_unicode pepper e now c (bearerOf r) r).2 = Serve tok <->
  match tok with Some t => holds (all e c).2 now r t | None => tokenless (all e c).2 now r end.
Proof.
  unfold token_presented, holds, tokenless. destruct (bearerOf r) as [cred|] eqn:Eb.
  - destruct (all e c) as [c' hashes]. cbn [snd]. unfold match_token.
    destruct (known hashes cred) as [t|] eqn:E.
    + destruct (expired t now) eqn:Ee.
      * destruct tok as [t'|].
        { split; [done|]. intros (cred' & [= <-] & Hk & He & _). congruence. }
        split; [|done]. intros _ cred' [= <-]. by rewrite E, Ee.
      * rewrite held_to_scope_Serve. destruct tok as [t'|].
        { split; [intros [[= ->] Ha]; by exists cred|]. intros (cred' & [= <-] & Hk & _ & Ha). split; congruence. }
        split; [intros [[=] _]|]. intros H. specialize (H cred eq_refl). by rewrite E, Ee in H.
    + destruct tok as [t'|]; [split; [done|]|].
      * intros (cred' & [= <-] & Hk & _). congruence.
      * split; [|done]. intros _ cred' [= <-]. by rewrite E.
  - destruct tok; naive_solver.
Qed.

(** ** The cache *)

(** One call of [all] while the table is [table] at each moment and this process
    makes [writes] to it: when the generation, the clock, the rows and the clock again
    are read, and whether the rows can be. *)
Record call := MkCall { k_gen_at : Z; k_now : Z; k_ok : bool; k_read_at : Z; k_loaded : Z }.

Definition call_ok (k : call) : Prop := k_gen_at k <= k_now k <= k_read_at k /\ k_read_at k <= k_loaded k.

(** The mutex: a call begins when the one before has ended. *)
Definition in_turn (ks : list call) : Prop := Forall call_ok ks /\ StronglySorted (fun a b => k_loaded a <= k_gen_at b) ks.

Definition env_of (table : Z -> list TokenHash) (writes : list token_write) (k : call) : token_env :=
  MkEnv true (TokenGeneration writes (k_gen_at k)) (k_now k)
    (if k_ok k then inl (table (k_read_at k)) else inr "the tokens could not be read") (k_loaded k).

(** The cache a process starts with, after calls in turn. *)
Definition empty_cache : tokenCache := MkTokenCache [] zero_time 0.

Definition after_calls (table : Z -> list TokenHash) (writes : list token_write) (ks : list call) : tokenCache :=
  foldl (fun c k => (all (env_of table writes k) c).1) empty_cache ks.

Definition cached_by (table : Z -> list TokenHash) (writes : list token_write) (k : call) : tokenCache :=
  MkTokenCache (table (k_read_at k)) (k_loaded k) (TokenGeneration writes (k_gen_at k)).

(** A call that the cache [k] left answered, or whose read failed. *)
Definition kept_by (table : Z -> list TokenHash) (writes : list token_write) (k x : call) : Prop :=
  (all (env_of table writes x) (cached_by table writes k)).1 = cached_by table writes k.

Lemma all_cases table writes k c :
  (all (env_of table writes k) c = (c, tc_hashes c)
   /\ (k_ok k = false \/ Time_Sub (k_now k) (tc_at c) < tokenCacheTTL /\ tc_hashes c <> [] /\ TokenGeneration writes (k_gen_at k) = tc_gen c))
  \/ k_ok k = true /\ all (env_of table writes k) c = (cached_by table writes k, table (k_read_at k)).
Proof.
  unfold all. cbn [te_db te_now te_gen te_read te_loaded env_of negb].
  destruct (_ && _) eqn:E.
  - left. split; [done|]. right. rewrite !andb_true_iff, Z.ltb_lt, Z.eqb_eq, negb_true_iff, Nat.eqb_neq in E.
    destruct E as ((H1 & H2) & H3). split_and!; try done. intros E0. apply H2. by rewrite E0.
  - destruct (k_ok k); [by right|left]. by split; [|left].
Qed.

(** What the cache holds is what the last call that read the table read. *)
Lemma after_calls_cases table writes ks :
  (after_calls table writes ks = empty_cache)
  \/ exists ks1 k ks2, ks = ks1 ++ k :: ks2 /\ k_ok k = true /\ after_calls table writes ks = cached_by table writes k
       /\ Forall (kept_by table writes k) ks2.
Proof.
  unfold after_calls. induction ks as [|k ks IH] using rev_ind; [by left|]. rewrite foldl_app. cbn [foldl].
  set (c := foldl _ _ ks) in *. destruct (all_cases table writes k c) as [[Hall _]|[Hk Hall]]; rewrite Hall; cbn [fst].
  - destruct IH as [IH|(ks1 & k' & ks2 & -> & Hk' & Hc & Hsame)]; [by left|right].
    exists ks1, k', (ks2 ++ [k]). rewrite <- List.app_assoc. do 3 (split; [done|]). apply Forall_app. split; [done|].
    apply Forall_singleton. unfold kept_by. by rewrite <- Hc, Hall.
  - right. by exists ks, k, [].
Qed.

Definition counted (t : Z) (w : token_write) : bool := w_counted w <=? t.

(** The counter moves with every write, so it is the same at two times only when
    no write was counted between. *)
Lemma TokenGeneration_same writes t1 t2 :
  Z.of_nat (length writes) < 2 ^ 64 -> t1 <= t2 -> TokenGeneration writes t1 = TokenGeneration writes t2 ->
  forall w, w ∈ writes -> w_counted w <= t2 -> w_counted w <= t1.
Proof.
  intros Hlen Ht. unfold TokenGeneration. fold (counted t1) (counted t2).
  assert (Hle : forall t, (length (List.filter (counted t) writes) <= length writes)%nat).
  { intros t. apply filter_length_le. }
  rewrite !Z.mod_small by (split; [lia|]; eapply Z.le_lt_trans; [|exact Hlen]; apply inj_le, Hle). clear Hle Hlen.
  assert (Hmono : forall l, (length (List.filter (counted t1) l) <= length (List.filter (counted t2) l))%nat).
  { intros l. induction l as [|w l IH]; [done|]. cbn [List.filter]. change (counted t1 w) with (w_counted w <=? t1). change (counted t2 w) with (w_counted w <=? t2).
    destruct (Z.leb_spec (w_counted w) t1), (Z.leb_spec (w_counted w) t2); cbn [length]; lia. }
  intros E w Hw Hw2. induction writes as [|x l IH]; [by apply elem_of_nil in Hw|].
  cbn [List.filter] in E. change (counted t1 x) with (w_counted x <=? t1) in E. change (counted t2 x) with (w_counted x <=? t2) in E. specialize (Hmono l).
  destruct (Z.leb_spec (w_counted x) t1), (Z.leb_spec (w_counted x) t2); cbn [length] in E; try lia;
    (apply elem_of_cons in Hw as [->|Hw]; [lia|apply IH; [lia|done]]).
Qed.
End gate_lemmas.

(** * Theorems *)

(** C19: who may change anything.  For a request that is a mutation and no route
    of its own authentication, the handler runs exactly when the client's
    address parses and is in the admin list, and: on the token routes, and
    whenever the list reaches beyond loopback, the request presents a Bearer
    credential of a listed token that is in force and whose scopes reach the
    route; on a loopback-only list, either that, or no token in force at all.  A
    mutation that is served with no token came from a loopback address. *)
Theorem mutation_served HashToken UnescapePath lower_unicode pushRoute pepper admin cx e1 e2 now c r :
  Forall net_ok (nets admin) -> isRead r = false -> pushRoute r = false ->
  let answer := (mutationAuth HashToken UnescapePath lower_unicode pushRoute pepper admin cx e1 e2 now c r).2 in
  let first := (all e1 c).2 in
  let second := (all e2 (all e1 c).1).2 in
  let holds := holds HashToken UnescapePath lower_unicode pepper in
  (forall tok, answer = Serve tok <->
     exists ip, ParseIP (cx_ip cx) = Some ip /\ AdminPermits (nets admin) (Some ip) = true /\
       (if isSuperadminRoute (rq_Path r) then exists t, tok = Some t /\ holds first now r t
        else if LocalhostOnly (nets admin)
        then match tok with Some t => holds first now r t | None => tokenless HashToken pepper first now r end
        else first <> [] /\ exists t, tok = Some t /\ holds second now r t))
  /\ (answer = Serve None -> exists ip, ParseIP (cx_ip cx) = Some ip /\ IsLoopback ip = true).
Proof.
  intros Hok Hr Hpush answer first second holds.
  assert (Hiff : forall tok, answer = Serve tok <->
     exists ip, ParseIP (cx_ip cx) = Some ip /\ AdminPermits (nets admin) (Some ip) = true /\
       (if isSuperadminRoute (rq_Path r) then exists t, tok = Some t /\ holds first now r t
        else if LocalhostOnly (nets admin)
        then match tok with Some t => holds first now r t | None => tokenless HashToken pepper first now r end
        else first <> [] /\ exists t, tok = Some t /\ holds second now r t)).
  { intros tok. unfold answer, mutationAuth, mutation_gate. rewrite Hr, Hpush.
    destruct (ParseIP (cx_ip cx)) as [ip|]; [|split; [done|by intros (? & [=] & _)]].
    rewrite exists_Some. destruct (AdminPermits (nets admin) (Some ip)); cbn [negb]; [|split; [done|by intros [[=] _]]].
    rewrite and_true. destruct (isSuperadminRoute (rq_Path r)); [unfold holds, first; by rewrite requireSuperadmin_Serve|].
    destruct (LocalhostOnly (nets admin)); [unfold holds, first; by rewrite token_presented_Serve|].
    unfold first, second. destruct (all e1 c) as [c1 h1]. cbn [fst snd].
    destruct h1 as [|t1 h1]; cbn [length Nat.eqb]; [split; [done|by intros [[] _]]|].
    transitivity (exists t, tok = Some t /\ holds (all e2 c1).2 now r t); [|by split; [intros ?; split|intros [_ ?]]].
    unfold holds. rewrite <- token_required_Serve. unfold token_required. destruct (bearerOf r); [|done].
    by destruct (all e2 c1) as [c2 h2]. }
  split; [exact Hiff|]. intros H. apply Hiff in H as (ip & Hip & Ha & H). exists ip. split; [done|].
  destruct (isSuperadminRoute _); [by destruct H as (t & [=] & _)|].
  destruct (LocalhostOnly (nets admin)) eqn:El; [|by destruct H as (_ & t & [=] & _)].
  apply (LocalhostOnly_loopback (nets admin)); [done| |done|done]. by apply ParseIP_range in Hip as [? _].
Qed.

Definition hash_pair (token pepper : string) : string := pepper +:+ ":" +:+ token.

Definition admin_list : list IPNet := match ParseDenyList ["127.0.0.0/8"; "10.9.0.0/16"] with inl ns => ns | _ => [] end.

Definition writer : TokenHash := MkToken "t1" "pp:secret" None "write:npm" "" "" "root".

Definition table_env : token_env := MkEnv true 1 Second (inl [writer]) Second.

Definition npm_patch : Request :=
  MkRequest "PATCH" "/api/v1/packages/npm/left-pad/hide" "10.9.0.4:99"
    (fun h => if (h =? "Authorization")%string then "Bearer secret" else "").

Lemma mutation_served_witness :
  (mutationAuth hash_pair Some (fun s => s) (fun _ => false) "pp" (Some admin_list) (RealIPMiddleware None npm_patch)
     table_env table_env 0 empty_cache npm_patch).2 = Serve (Some writer).
Proof.
  destruct (mutation_served hash_pair Some (fun s => s) (fun _ => false) "pp" (Some admin_list)
              (RealIPMiddleware None npm_patch) table_env table_env 0 empty_cache npm_patch) as [H _].
  - unfold nets, default, admin_list. constructor; [|constructor; [|constructor]]; (split; vm_compute; (split || reflexivity));
      congruence.
  - reflexivity.
  - reflexivity.
  - apply H. exists (65535 * 2 ^ 32 + 168361988). split; [vm_compute; reflexivity|]. split; [vm_compute; reflexivity|].
    split; [vm_compute; discriminate|]. exists writer. split; [reflexivity|]. exists "secret".
    split; [reflexivity|]. split; [vm_compute; reflexivity|]. split; [reflexivity|vm_compute; reflexivity].
Defined.

(** Minting and revoking tokens.  Whatever the method and whatever the admin
    list, a handler of the token routes runs only for a client the admin list
    permits that presents a listed, unexpired token holding superadmin. *)
Theorem token_routes_guarded HashToken UnescapePath lower_unicode pushRoute pepper admin cx e1 e2 now c r tok :
  isSuperadminRoute (rq_Path r) = true -> isRead r = true \/ pushRoute r = false ->
  (mutationAuth HashToken UnescapePath lower_unicode pushRoute pepper admin cx e1 e2 now c r).2 = Serve tok ->
  AdminPermits (nets admin) (ParseIP (cx_ip cx)) = true
  /\ exists t cred sc g, tok = Some t /\ bearerOf r = Some cred
       /\ lookup_token HashToken pepper (all e1 c).2 cred = Some t /\ expired t now = false
       /\ ParseScopes (tk_Scope t) = inl sc /\ g ∈ sc /\ g_Name g = ScopeSuperadmin.
Proof.
  intros Hs Hr. assert (Hroute : routeScope UnescapePath lower_unicode r = ([ScopeSuperadmin], "")).
  { unfold routeScope. rewrite Hs. unfold isSuperadminRoute, superadminPrefixes in Hs. cbn [existsb] in Hs.
    rewrite orb_false_r in Hs. apply HasPrefix_spec in Hs as [rest ->].
    destruct (String.eqb_spec ("/api/v1/tokens" +:+ rest) "/healthz"); [done|]. unfold HasPrefix, authPathPrefix.
    by rewrite clash. }
  assert (Hend : forall c', (requireSuperadmin HashToken UnescapePath lower_unicode pepper e1 now c r).2 = Serve tok -> c' = c ->
    exists t cred sc g, tok = Some t /\ bearerOf r = Some cred
       /\ lookup_token HashToken pepper (all e1 c).2 cred = Some t /\ expired t now = false
       /\ ParseScopes (tk_Scope t) = inl sc /\ g ∈ sc /\ g_Name g = ScopeSuperadmin).
  { intros c' H _. apply requireSuperadmin_Serve in H as (t & -> & cred & Hb & Hl & He & Ha).
    apply (authorizeScope_one _ _ _ _ _ _ Hroute) in Ha as (sc & Hsc & (g & Hg & Hn)%Allows_spec).
    exists t, cred, sc, g. split_and!; try done. destruct Hn as [[_ [=]]|[Hn _]]. done. }
  unfold mutationAuth. destruct (isRead r).
  - unfold read_gate. rewrite Hs. destruct (AdminPermits (nets admin) (ParseIP (cx_ip cx))); cbn [negb]; [|done].
    intros H. split; [done|]. by apply (Hend c).
  - destruct Hr as [[=]|Hr]. unfold mutation_gate. rewrite Hr, Hs. destruct (ParseIP (cx_ip cx)) as [ip|]; [|done].
    destruct (AdminPermits (nets admin) (Some ip)); cbn [negb]; [|done]. intros H. split; [done|]. by apply (Hend c).
Qed.

Definition minter : TokenHash := MkToken "t2" "pp:root" (Some 5) "superadmin" "" "" "root".

Definition list_tokens : Request :=
  MkRequest "GET" "/api/v1/tokens" "127.0.0.1:99"
    (fun h => if (h =? "Authorization")%string then "Bearer root" else "").

Definition minter_env : token_env := MkEnv true 1 Second (inl [writer; minter]) Second.

Lemma token_routes_guarded_witness :
  exists t, (mutationAuth hash_pair Some (fun s => s) (fun _ => false) "pp" (Some admin_list)
               (RealIPMiddleware None list_tokens) minter_env minter_env 4 empty_cache list_tokens).2 = Serve (Some t)
            /\ expired t 4 = false.
Proof.
  destruct (token_routes_guarded hash_pair Some (fun s => s) (fun _ => false) "pp" (Some admin_list)
              (RealIPMiddleware None list_tokens) minter_env minter_env 4 empty_cache list_tokens (Some minter))
    as (_ & t & _ & _ & _ & [= <-] & _ & _ & He & _); [reflexivity|by left|vm_compute; reflexivity|].
  exists minter. split; [vm_compute; reflexivity|exact He].
Defined.

(** C33: how long a revoked token lives.  What a call of the cache answers is the
    table as this call reads it, or as an earlier call read it less than thirty
    seconds before; either way every write of this process that was counted
    when the call began, as it is once minting, expiring or revoking returns, had
    committed when the table was read.  Only when this call's own read fails is an
    older answer served: what the last call that read the table read, or nothing
    when none did, for as long as no read succeeds. *)
Theorem token_cache_fresh table writes ks k :
  in_turn (ks ++ [k]) -> Z.of_nat (length writes) < 2 ^ 64 -> Forall (fun w => w_at w <= w_counted w) writes ->
  let answer := (all (env_of table writes k) (after_calls table writes ks)).2 in
  let current k' := answer = table (k_read_at k')
                    /\ forall w, w ∈ writes -> w_counted w <= k_gen_at k -> w_at w <= k_read_at k' in
  (k_ok k = true /\ current k)
  \/ (exists k', k' ∈ ks /\ k_ok k' = true /\ current k' /\ k_now k - k_loaded k' < tokenCacheTTL)
  \/ (k_ok k = false
      /\ (answer = [] \/ exists ks1 k' ks2, ks = ks1 ++ k' :: ks2 /\ k_ok k' = true /\ answer = table (k_read_at k')
                          /\ Forall (kept_by table writes k') ks2)).
Proof.
  intros [Hok Hturn] Hlen Hw. cbv zeta. apply Forall_app in Hok as [Hks Hk]. rewrite Forall_singleton in Hk. rewrite Forall_forall in Hks. rewrite Forall_forall in Hw. cbv beta in Hw.
  assert (Hnow : forall w t, w ∈ writes -> w_counted w <= t -> w_at w <= t) by (intros w t Hin Hle; specialize (Hw w Hin); lia).
  destruct (all_cases table writes k (after_calls table writes ks)) as [[-> Hwhy]|[Hko ->]]; cbn [snd].
  2:{ left. split; [done|]. split; [done|]. intros w Hin Hle. apply Hnow; [done|]. destruct Hk. lia. }
  destruct (after_calls_cases table writes ks) as [E|(ks1 & k' & ks2 & -> & Hko & E & Hkept)]; rewrite E in *; cbn [tc_hashes tc_at tc_gen cached_by empty_cache] in *.
  { destruct Hwhy as [Hwhy|(_ & ? & _)]; [|done]. right. right. split; [done|by left]. }
  assert (Hin : k' ∈ ks1 ++ k' :: ks2) by (apply elem_of_app; right; by left).
  destruct Hwhy as [Hwhy|(Ht & _ & Hg)].
  { right. right. split; [done|]. right. by exists ks1, k', ks2. }
  right. left. exists k'. split; [done|]. split; [done|]. destruct (Hks k' Hin) as [Hk1 Hk2]. split; [split; [done|]|].
  - rewrite <- List.app_assoc in Hturn. cbn [app] in Hturn. apply StronglySorted_app in Hturn as (_ & _ & Hturn).
    apply StronglySorted_inv in Hturn as [_ Hturn]. rewrite Forall_forall in Hturn.
    assert (Hle : k_loaded k' <= k_gen_at k) by (apply Hturn, elem_of_app; right; by left).
    intros w Hwin Hc. apply Hnow; [done|]. enough (w_counted w <= k_gen_at k') by lia.
    by apply (TokenGeneration_same writes _ (k_gen_at k) Hlen); [lia|..].
  - unfold Time_Sub, tokenCacheTTL, Second, maxInt, minInt in *. lia.
Qed.

(** The writer is revoked at ten seconds: the next call reads the table again though
    the cache is fresh.  When it cannot, the revoked token is still answered. *)
Lemma token_cache_fresh_witness :
  let table (t : Z) := if t <? 10 * Second then [writer; minter] else [minter] in
  let revoked := MkTokenWrite (10 * Second) (10 * Second) in
  let k1 := MkCall Second Second true Second Second in
  let k2 ok := MkCall (20 * Second) (20 * Second) ok (20 * Second) (20 * Second) in
  (all (env_of table [revoked] (k2 true)) (after_calls table [revoked] [k1])).2 = [minter]
  /\ (all (env_of table [revoked] (k2 false)) (after_calls table [revoked] [k1])).2 = [writer; minter]
  /\ in_turn [k1; k2 true].
Proof.
  intros table revoked k1 k2.
  assert (Hturn : in_turn [k1; k2 true]).
  { split; [constructor; [|constructor; [|constructor]]; unfold call_ok; cbn; lia|].
    apply SSorted_cons; [apply SSorted_cons; [apply SSorted_nil|apply Forall_nil_2]|apply Forall_singleton; vm_compute; discriminate]. }
  split; [|split; [vm_compute; reflexivity|exact Hturn]].
  destruct (token_cache_fresh table [revoked] [k1] (k2 true) Hturn) as [[_ [H _]]|[(k' & Hk' & _ & [_ H] & _)|[[=] _]]].
  - cbn. lia.
  - constructor; [cbn; lia|constructor].
  - exact H.
  - apply list_elem_of_singleton in Hk' as ->. exfalso.
    specialize (H revoked ltac:(by apply list_elem_of_singleton) ltac:(vm_compute; discriminate)). by vm_compute in H.
Defined.
