(* ===== verification/Identity.v ===== *)
(** Naming the host behind a request (audit/identity.go, server/identity.go).

    The table binds a token or a network to a name.  [AddIdentityBinding] keeps
    it unambiguous, [newIdentitySet] and [identity_match] resolve a request
    against it, and [identityMatchFor] is what the middleware asks for one
    request.  The database is the list of its rows, and reads and writes that
    fail are arguments where the code handles them.  An addition reads and then
    inserts, so what it read may be any earlier table. *)

From stdpp Require Import base list strings gmap sorting.
From Stdlib Require Import ZArith Lia Ascii Sorted.
From S2P Require Import Prelude GoStrings GoSort GoTime GoNet NetText Scope ClientIP TokenGate.

(** * The binding table (audit/identity.go) *)

Definition BindToken := "token".
Definition BindCIDR := "cidr".

Definition BindKinds : list string := [BindToken; BindCIDR].

Definition ValidBindKind (kind : string) : bool := (kind =? BindToken)%string || (kind =? BindCIDR)%string.

Record IdentityBinding := MkBinding {
  ib_Kind : string; ib_Key : string; ib_Identity : string; ib_Comment : string; ib_Actor : string
}.

Inductive conflict_reason := AlreadyBound (identity : string) | SameLengthOverlap (key : string).

Record BindingConflict := MkConflict { bc_Existing : IdentityBinding; bc_Want : IdentityBinding; bc_Reason : conflict_reason }.

Inductive bind_error :=
| ErrUnknownBindKind | ErrNoKey | ErrNoIdentity | ErrBadCIDR | ErrReadOnly | ErrDatabase | ErrConflict (c : BindingConflict).

Definition NormalizeBindCIDR (text : string) : option Prefix :=
  let text := TrimSpace text in
  if (text =? "")%string then None
  else if negb (Contains text "/") then
    addr ← ParseAddr text;
    let addr := Unmap addr in
    Some (PrefixFrom addr (BitLen addr))
  else
    p ← ParsePrefix text;
    let addr := px_addr p in
    if Is4In6 addr then
      let bits := px_bits p - (BitLen addr - BitLen (Unmap addr)) in
      if bits <? 0 then None else Some (Masked (PrefixFrom (Unmap addr) bits))
    else Some (Masked p).

Definition same_key (kind key : string) (e : IdentityBinding) : bool :=
  (ib_Kind e =? kind)%string && (ib_Key e =? key)%string.

(** A row of the second loop: a network of the length of [wp] that shares an
    address with it. *)
Definition ambiguous_with (want : IdentityBinding) (wp : Prefix) (e : IdentityBinding) : bool :=
  (ib_Kind e =? BindCIDR)%string && negb (ib_Key e =? ib_Key want)%string
  && match ParsePrefix (ib_Key e) with
     | Some ep => (px_bits ep =? px_bits wp) && Overlaps ep wp
     | None => false
     end.

Definition findBindingConflict (existing : list IdentityBinding) (want : IdentityBinding) : option BindingConflict :=
  match List.find (fun e => same_key (ib_Kind want) (ib_Key want) e
                            && negb (ib_Identity e =? ib_Identity want)%string) existing with
  | Some e => Some (MkConflict e want (AlreadyBound (ib_Identity e)))
  | None =>
      if negb (ib_Kind want =? BindCIDR)%string then None
      else
        wp ← ParsePrefix (ib_Key want);
        e ← List.find (ambiguous_with want wp) existing;
        Some (MkConflict e want (SameLengthOverlap (ib_Key e)))
  end.

(** ORDER BY kind, bind_key. *)
Definition row_less (a b : IdentityBinding) : bool :=
  let k := Compare (ib_Kind a) (ib_Kind b) in
  (k <? 0) || ((k =? 0) && (Compare (ib_Key a) (ib_Key b) <? 0)).

Definition ListIdentityBindings (rows : list IdentityBinding) : list IdentityBinding := SliceStable row_less rows.

(** What a write meets: the caller's name, whether the handle is read-only, and
    whether the read and the insert fail. *)
Record bind_env := MkBindEnv { be_actor : string; be_readOnly : bool; be_list_fails : bool; be_insert_fails : bool }.

Definition normalized (actor : string) (b : IdentityBinding) : IdentityBinding + bind_error :=
  if negb (ValidBindKind (ib_Kind b)) then inr ErrUnknownBindKind
  else
    let key := TrimSpace (ib_Key b) in
    let identity := TrimSpace (ib_Identity b) in
    if (key =? "")%string then inr ErrNoKey
    else if (identity =? "")%string then inr ErrNoIdentity
    else
      let given := TrimSpace (ib_Actor b) in
      let by_ := if (given =? "")%string then actor else given in
      if (ib_Kind b =? BindCIDR)%string then
        match NormalizeBindCIDR key with
        | None => inr ErrBadCIDR
        | Some p => inl (MkBinding (ib_Kind b) (Prefix_String p) identity (ib_Comment b) by_)
        end
      else inl (MkBinding (ib_Kind b) key identity (ib_Comment b) by_).

(** The read and the insert are two statements: [seen] is the table as the read
    found it.  The table is keyed on kind and key, so an insert of a key it holds
    fails. *)
Definition AddIdentityBinding (e : bind_env) (seen rows : list IdentityBinding) (b : IdentityBinding)
  : list IdentityBinding * (bool + bind_error) :=
  match normalized (be_actor e) b with
  | inr err => (rows, inr err)
  | inl b =>
      if be_readOnly e then (rows, inr ErrReadOnly)
      else if be_list_fails e then (rows, inr ErrDatabase)
      else
        let existing := ListIdentityBindings seen in
        match findBindingConflict existing b with
        | Some c => (rows, inr (ErrConflict c))
        | None =>
            if existsb (same_key (ib_Kind b) (ib_Key b)) existing then (rows, inl false)
            else if be_insert_fails e || existsb (same_key (ib_Kind b) (ib_Key b)) rows then (rows, inr ErrDatabase)
            else (rows ++ [b], inl true)
        end
  end.

Definition RemoveIdentityBinding (readOnly delete_fails : bool) (rows : list IdentityBinding) (kind key : string)
  : list IdentityBinding * (bool + bind_error) :=
  if negb (ValidBindKind kind) then (rows, inr ErrUnknownBindKind)
  else if readOnly then (rows, inr ErrReadOnly)
  else
    match (if (kind =? BindCIDR)%string then Prefix_String <$> NormalizeBindCIDR key else Some key) with
    | None => (rows, inr ErrBadCIDR)
    | Some key =>
        if delete_fails then (rows, inr ErrDatabase)
        else
          let rest := List.filter (fun e => negb (same_key kind key e)) rows in
          (rest, inl (length rows - length rest =? 1)%nat)
    end.

(** * Resolution (server/identity.go) *)

Record cidrBinding := MkCidr { cb_prefix : Prefix; cb_identity : string }.

Record identitySet := MkIdentitySet {
  is_byToken : gmap string string; is_actors : gmap string string; is_cidr : list cidrBinding; is_tokens : list TokenHash
}.

Definition set_token (s : identitySet) (id : string) : option TokenHash :=
  List.find (fun t => (tk_ID t =? id)%string) (is_tokens s).

Definition cidr_of (b : IdentityBinding) : option cidrBinding :=
  if (ib_Kind b =? BindCIDR)%string then
    p ← ParsePrefix (ib_Key b); Some (MkCidr (Masked p) (ib_Identity b))
  else None.

(** A map the code fills from the token rows, the last row of a key winning. *)
Definition token_map (value : IdentityBinding -> string) (bindings : list IdentityBinding) : gmap string string :=
  foldl (fun m b => if (ib_Kind b =? BindToken)%string then <[ib_Key b := value b]> m else m) ∅ bindings.

Definition longer (a b : cidrBinding) : bool := px_bits (cb_prefix b) <? px_bits (cb_prefix a).

Definition newIdentitySet (bindings : list IdentityBinding) (tokens : list TokenHash) : identitySet :=
  MkIdentitySet (token_map ib_Identity bindings) (token_map ib_Actor bindings)
    (SliceStable longer (omap cidr_of bindings)) tokens.

Record identityMatch := MkMatch { im_Identity : string; im_Kind : string; im_Key : string }.

Definition no_match : identityMatch := MkMatch "" "" "".

Definition identityMatch_String (m : identityMatch) : string :=
  if (im_Identity m =? "")%string then "" else im_Kind m +:+ ":" +:+ im_Key m.

Section resolve.
Context (HashToken : string -> string -> string) (lower_unicode : string -> string) (pepper : string).

Definition identityForToken (s : identitySet) (cred : string) (now : Z) : string * string :=
  match List.find (fun t => (tk_Hash t =? HashToken cred pepper)%string) (is_tokens s) with
  | None => ("", "")
  | Some t =>
      if expired t now then ("", "")
      else
        let id := default "" (is_byToken s !! tk_ID t) in
        if negb (id =? "")%string then (id, tk_ID t) else ("", "")
  end.

(** match on the address alone. *)
Definition address_match (s : identitySet) (clientIP : string) : identityMatch :=
  match ParseAddr clientIP with
  | None => no_match
  | Some addr =>
      match List.find (fun b => Prefix_Contains (cb_prefix b) (Unmap addr)) (is_cidr s) with
      | Some b => MkMatch (cb_identity b) BindCIDR (Prefix_String (cb_prefix b))
      | None => no_match
      end
  end.

(** identitySet.match. *)
Definition identity_match (s : identitySet) (cred clientIP : string) (now : Z) (cidrTrusted : bool) : identityMatch :=
  let '(id, tokenID) :=
    if negb (cred =? "")%string && (0 <? size (is_byToken s))%nat then identityForToken s cred now else ("", "") in
  if negb (id =? "")%string then MkMatch id BindToken tokenID
  else if negb cidrTrusted then no_match
  else address_match s clientIP.

Definition hasTokenBinding (bindings : list IdentityBinding) : bool :=
  existsb (fun b => (ib_Kind b =? BindToken)%string) bindings.

(** resolveIdentities: what the two reads answer, [None] being a failure, and the
    set held so far.  GetTokenHashes is asked only when a token is bound. *)
Definition resolveIdentities (db : bool) (bindings : option (list IdentityBinding)) (hashes : option (list TokenHash))
    (last : option identitySet) : identitySet :=
  if negb db then newIdentitySet [] []
  else match bindings with
       | None => default (newIdentitySet [] []) last
       | Some bs => newIdentitySet bs (if hasTokenBinding bs then default [] hashes else [])
       end.

(** identityMatchFor, on the set in force. *)
Definition identityMatchFor (s : identitySet) (cx : ClientCtx) (now : Z) (r : Request) : identityMatch :=
  if (size (is_byToken s) =? 0)%nat && (length (is_cidr s) =? 0)%nat then no_match
  else identity_match s (credentialFrom lower_unicode r).1 (cx_ip cx) now (cidrAddressTrusted cx).
End resolve.

Example normalize_ex :
  map (fun s => Prefix_String <$> NormalizeBindCIDR s)
    ["10.0.0.5/8"; " ::ffff:10.0.0.0/104 "; "192.0.2.1"; "::ffff:192.0.2.1"; "fe80::1%eth0"; "::ffff:10.0.0.0/90"; "10.0.0.0/33"; "x"; ""]
  = [Some "10.0.0.0/8"; Some "10.0.0.0/8"; Some "192.0.2.1/32"; Some "192.0.2.1/32"; Some "fe80::1/128"; None; None; None; None].
Proof. vm_compute. reflexivity. Qed.

(** * Lemmas *)

(** ** Finding the longest *)

Lemma longer_sorted l : StronglySorted (fun a b => px_bits (cb_prefix b) <= px_bits (cb_prefix a)) (SliceStable longer l).
Proof.
  assert (H : StronglySorted (fun a b => longer b a = false) (SliceStable longer l)).
  { apply (SliceStable_sorted longer (fun _ => True)).
    - intros a b _ _. unfold longer. rewrite Z.ltb_lt, Z.ltb_ge. lia.
    - intros a b c _ _ _. unfold longer. rewrite !Z.ltb_ge. lia.
    - by apply Forall_true. }
  induction H as [|a s _ IH Ha]; constructor; [done|]. eapply Forall_impl; [exact Ha|].
  intros b. unfold longer. by rewrite Z.ltb_ge.
Qed.

(** The first of an ordered list is the greatest. *)
Lemma find_first_sorted {A} (R : A -> A -> Prop) (p : A -> bool) l x :
  StronglySorted R l -> List.find p l = Some x -> x ∈ l /\ p x = true /\ (forall y, y ∈ l -> p y = true -> y = x \/ R x y).
Proof.
  intros Hs. induction Hs as [|a s Hs IH Ha]; cbn [List.find]; [done|]. destruct (p a) eqn:E.
  - intros [= <-]. split; [by left|]. split; [done|]. intros y [->|Hy]%elem_of_cons _; [by left|right].
    rewrite Forall_forall in Ha. by apply Ha.
  - intros (Hin & Hp & Hmax)%IH. split; [by right|]. split; [done|].
    intros y [->|Hy]%elem_of_cons Hpy; [congruence|by apply Hmax].
Qed.

Lemma find_None_iff {A} (p : A -> bool) l : List.find p l = None <-> forall x, x ∈ l -> p x = false.
Proof.
  induction l as [|a l IH]; cbn [List.find].
  - split; [by intros _ x ?%elem_of_nil|done].
  - destruct (p a) eqn:E.
    + split; [done|]. intros H. specialize (H a ltac:(by left)). congruence.
    + rewrite IH. split.
      * by intros H x [->|Hx]%elem_of_cons; [|apply H].
      * intros H x Hx. apply H. by right.
Qed.

(** The networks of [bs] that hold an address. *)
Definition holds_address (bs : list IdentityBinding) (addr : Addr) (b : IdentityBinding) (c : cidrBinding) : Prop :=
  b ∈ bs /\ cidr_of b = Some c /\ Prefix_Contains (cb_prefix c) (Unmap addr) = true.

Lemma address_match_spec bs tokens clientIP m :
  address_match (newIdentitySet bs tokens) clientIP = m ->
  match ParseAddr clientIP with
  | None => m = no_match
  | Some addr =>
      (m = no_match /\ forall b c, ~ holds_address bs addr b c)
      \/ exists b c, holds_address bs addr b c /\ m = MkMatch (ib_Identity b) BindCIDR (Prefix_String (cb_prefix c))
           /\ forall b' c', holds_address bs addr b' c' -> px_bits (cb_prefix c') <= px_bits (cb_prefix c)
  end.
Proof.
  unfold address_match, holds_address. intros <-. destruct (ParseAddr clientIP) as [addr|]; [|done].
  cbn [newIdentitySet is_cidr]. set (p := fun c => Prefix_Contains (cb_prefix c) (Unmap addr)).
  assert (Hin : forall c, c ∈ SliceStable longer (omap cidr_of bs) <-> exists b, b ∈ bs /\ cidr_of b = Some c).
  { intros c. by rewrite (SliceStable_perm longer (omap cidr_of bs)), list_elem_of_omap. }
  destruct (List.find p _) as [c|] eqn:E.
  - right. apply (find_first_sorted _ _ _ _ (longer_sorted _)) in E as (Hc & Hp & Hmax).
    apply Hin in Hc as (b & Hb & Hcb). exists b, c. split; [done|]. split.
    + f_equal. unfold cidr_of in Hcb. destruct (_ =? _)%string; [|done].
      by destruct (ParsePrefix _); [injection Hcb as <-|].
    + intros b' c' (Hb' & Hc' & Hp'). destruct (Hmax c') as [->|H]; [apply Hin; by exists b'|done|done|done].
  - left. split; [done|]. intros b c (Hb & Hc & Hp). rewrite find_None_iff in E.
    specialize (E c ltac:(apply Hin; by exists b)). unfold p in E. congruence.
Qed.

(** ** Two networks of one length *)

Lemma Mask_shiftr w n v k : 0 <= n <= w -> k = w - n -> Z.shiftr (Mask w n v) k = Z.shiftr v k.
Proof. intros Hn ->. unfold Mask. rewrite Z.shiftr_shiftl_l by lia. by rewrite Z.sub_diag, Z.shiftl_0_r. Qed.

Definition prefix_valid (p : Prefix) : Prop := 0 <= px_bits p <= BitLen (px_addr p).

Lemma ParsePrefix_valid s p : ParsePrefix s = Some p -> prefix_valid p.
Proof.
  unfold ParsePrefix, prefix_valid. destruct (cut_last_byte "/" s) as [[addr bits]|]; [|done]. cbn [mbind option_bind].
  destruct (ParseAddr addr) as [a|]; [|done]. cbn [mbind option_bind]. destruct (_ || _); [done|].
  destruct (atoi_opt bits) as [n|]; [|done]. cbn [mbind option_bind].
  destruct ((n <? 0) || (BitLen a <? n)) eqn:E; [done|]. intros [= <-]. cbn [px_bits px_addr].
  apply orb_false_iff in E. rewrite !Z.ltb_ge in E. lia.
Qed.

Lemma ParsePrefix_addr s p : ParsePrefix s = Some p -> addr_ok (px_addr p) /\ zone_free (px_addr p) = true.
Proof.
  unfold ParsePrefix. destruct (cut_last_byte "/" s) as [[addr bits]|]; [|done]. cbn [mbind option_bind].
  destruct (ParseAddr addr) as [a|] eqn:Ea; [|done]. apply ParseAddr_ok in Ea. cbn [mbind option_bind].
  destruct (zone_free a) eqn:Ez; cbn [negb orb]; [|done]. destruct (_ && _); [done|].
  destruct (atoi_opt bits); [|done]. cbn [mbind option_bind]. destruct (_ || _); [done|]. by intros [= <-].
Qed.

Lemma common_address_overlaps p q a :
  prefix_valid p -> prefix_valid q -> px_bits p = px_bits q ->
  Prefix_Contains (Masked p) a = true -> Prefix_Contains (Masked q) a = true -> Overlaps p q = true.
Proof.
  unfold prefix_valid, Prefix_Contains, Masked, Overlaps. destruct p as [[v|v z] n], q as [[w|w z'] n'], a as [x|x zx];
    cbn [px_addr px_bits BitLen]; intros Hp Hq <-; rewrite ?Z.min_id; try done.
  - rewrite !(Mask_shiftr 32 n) by lia. intros Hv%Z.eqb_eq Hw%Z.eqb_eq. apply orb_true_iff. right. apply Z.eqb_eq.
    unfold Mask. congruence.
  - destruct (_ =? _)%string; [|done]. cbn [andb]. rewrite !(Mask_shiftr 128 n) by lia.
    intros Hv%Z.eqb_eq Hw%Z.eqb_eq. apply orb_true_iff. right. apply Z.eqb_eq. unfold Mask. congruence.
Qed.

Lemma Overlaps_sym p q : Overlaps p q = Overlaps q p.
Proof.
  unfold Overlaps. rewrite (Z.min_comm (px_bits q)).
  destruct (px_addr p), (px_addr q); try done; by rewrite (Z.eqb_sym (Mask _ _ _)).
Qed.

(** ** The table *)

Definition row_key (b : IdentityBinding) : string * string := (ib_Kind b, ib_Key b).

Lemma same_key_spec kind key e : same_key kind key e = true <-> row_key e = (kind, key).
Proof. unfold same_key, row_key. rewrite andb_true_iff, !String.eqb_eq. split; [by intros [-> ->]|by intros [= -> ->]]. Qed.

Definition rows_clash (b b' : IdentityBinding) : Prop :=
  exists p p', ib_Kind b = BindCIDR /\ ib_Kind b' = BindCIDR /\ ParsePrefix (ib_Key b) = Some p
    /\ ParsePrefix (ib_Key b') = Some p' /\ px_bits p = px_bits p' /\ Overlaps p p' = true.

(** Each key is bound once, to a name, and each network is in normal form. *)
Definition row_ok (b : IdentityBinding) : Prop :=
  ValidBindKind (ib_Kind b) = true /\ ib_Identity b <> ""
  /\ (ib_Kind b = BindCIDR -> exists p, prefix_normal p /\ ib_Key b = Prefix_String p).

Record table_ok (rows : list IdentityBinding) : Prop := {
  tb_keys : NoDup (row_key <$> rows);
  tb_rows : Forall row_ok rows
}.

Inductive bind_step : list IdentityBinding -> list IdentityBinding -> Prop :=
| step_add e seen rows b : bind_step rows (AddIdentityBinding e seen rows b).1
| step_remove ro fails rows kind key : bind_step rows (RemoveIdentityBinding ro fails rows kind key).1.

Lemma ListIdentityBindings_elem rows b : b ∈ ListIdentityBindings rows <-> b ∈ rows.
Proof. unfold ListIdentityBindings. by rewrite (SliceStable_perm row_less rows). Qed.

Lemma NormalizeBindCIDR_normal text p : NormalizeBindCIDR text = Some p -> prefix_normal p.
Proof.
  unfold NormalizeBindCIDR. destruct (_ =? "")%string; [done|]. destruct (negb _).
  - destruct (ParseAddr _) as [a|] eqn:Ea; [|done]. apply ParseAddr_ok in Ea. cbn [mbind option_bind]. intros [= <-].
    destruct a as [v|v zone]; cbn [Unmap BitLen PrefixFrom addr_ok] in *.
    + cbn. split_and!; try lia. by rewrite Z.mod_1_r.
    + destruct (To4 v) as [w|] eqn:E4; cbn.
      * apply To4_Some in E4 as [_ Hw]. split_and!; try lia. by rewrite Z.mod_1_r.
      * split_and!; try done; try lia. by rewrite Z.mod_1_r.
  - destruct (ParsePrefix _) as [q|] eqn:Eq; [|done]. pose proof (ParsePrefix_valid _ _ Eq) as Hq.
    apply ParsePrefix_addr in Eq as [Ha Hz]. destruct q as [a n]. unfold prefix_valid in Hq. cbn [px_addr px_bits mbind option_bind] in *.
    destruct a as [v|v zone]; cbn [Is4In6 addr_ok zone_free BitLen] in *.
    + intros [= <-]. cbn. split; [apply Mask_range; lia|]. split; [done|]. apply Mask_mod. lia.
    + apply String.eqb_eq in Hz as ->. cbn [Unmap]. destruct (To4 v) as [w|] eqn:E4; cbn [isSome BitLen].
      * destruct (Z.ltb_spec (n - (128 - 32)) 0) as [|Hge]; [done|]. intros [= <-]. apply To4_Some in E4 as [_ Hw].
        cbn [Masked PrefixFrom px_addr px_bits prefix_normal]. unfold prefix_normal. cbn [px_addr px_bits].
        split; [apply Mask_range; lia|]. split; [lia|]. apply Mask_mod. lia.
      * intros [= <-]. unfold prefix_normal. cbn [Masked px_addr px_bits]. split; [done|].
        split; [apply Mask_range; lia|]. split; [apply To4_Mask; (done || lia)|]. split; [done|]. apply Mask_mod. lia.
Qed.

Lemma normalized_ok actor b b' : normalized actor b = inl b' -> row_ok b'.
Proof.
  unfold normalized, row_ok. destruct (ValidBindKind (ib_Kind b)) eqn:Ek; cbn [negb]; [|done].
  destruct (TrimSpace (ib_Key b) =? "")%string; [done|].
  destruct (String.eqb_spec (TrimSpace (ib_Identity b)) ""); [done|].
  destruct (String.eqb_spec (ib_Kind b) BindCIDR) as [Ec|Ec].
  - destruct (NormalizeBindCIDR _) as [p|] eqn:Ep; [|done]. apply NormalizeBindCIDR_normal in Ep. intros [= <-].
    cbn [ib_Kind ib_Identity ib_Key]. split; [done|]. split; [done|]. intros _. by exists p.
  - intros [= <-]. cbn [ib_Kind ib_Identity ib_Key]. by split_and!.
Qed.

(** Two networks in normal form of one length are the same or apart. *)
Lemma normal_overlap p q : prefix_normal p -> prefix_normal q -> px_bits p = px_bits q -> Overlaps p q = true -> p = q.
Proof.
  destruct p as [[v|v z] n], q as [[w|w z'] n']; unfold prefix_normal, Overlaps; cbn [px_addr px_bits];
    intros Hp Hq <-; rewrite ?Z.min_id; try done.
  - destruct Hp as (Hv & Hn & Hm), Hq as (Hw & _ & Hm'). rewrite !Mask_fix by (done || lia).
    intros [Hz%Z.eqb_eq|Hz%Z.eqb_eq]%orb_true_iff; subst; [|done].
    change (32 - 0) with 32 in *. rewrite !Z.mod_small in * by lia. congruence.
  - destruct Hp as (-> & Hv & _ & Hn & Hm), Hq as (-> & Hw & _ & _ & Hm'). rewrite !Mask_fix by (done || lia).
    intros [Hz%Z.eqb_eq|Hz%Z.eqb_eq]%orb_true_iff; subst; [|done].
    change (128 - 0) with 128 in *. rewrite !Z.mod_small in * by lia. congruence.
Qed.

Lemma same_key_row rows b b' : NoDup (row_key <$> rows) -> b ∈ rows -> b' ∈ rows -> row_key b = row_key b' -> b = b'.
Proof.
  intros Hk [i Hi]%list_elem_of_lookup [j Hj]%list_elem_of_lookup E.
  assert (i = j) as ->; [|congruence].
  eapply (NoDup_lookup _ i j (row_key b) Hk); rewrite list_lookup_fmap; [by rewrite Hi|by rewrite Hj, E].
Qed.

Lemma tb_apart rows b b' : table_ok rows -> b ∈ rows -> b' ∈ rows -> rows_clash b b' -> b = b'.
Proof.
  intros [Hk Hr] Hb Hb' (p & p' & Hkb & Hkb' & Hp & Hp' & Hbits & Ho). rewrite Forall_forall in Hr.
  apply (same_key_row rows); [done..|]. destruct (Hr b Hb) as (_ & _ & Hn), (Hr b' Hb') as (_ & _ & Hn').
  destruct (Hn Hkb) as (q & Hq & E), (Hn' Hkb') as (q' & Hq' & E').
  rewrite E, ParsePrefix_text in Hp by done. rewrite E', ParsePrefix_text in Hp' by done.
  injection Hp as ->. injection Hp' as ->. unfold row_key. rewrite Hkb, Hkb', E, E'.
  by rewrite (normal_overlap p p').
Qed.

Lemma AddIdentityBinding_ok e seen rows b : table_ok rows -> table_ok (AddIdentityBinding e seen rows b).1.
Proof.
  intros [Hk Hr]. unfold AddIdentityBinding. destruct (normalized (be_actor e) b) as [w|] eqn:En; [|done].
  apply normalized_ok in En. destruct (be_readOnly e); [done|]. destruct (be_list_fails e); [done|].
  destruct (findBindingConflict _ w); [done|]. destruct (existsb _ (ListIdentityBindings seen)); [done|].
  destruct (be_insert_fails e || _) eqn:Ei; [done|]. apply orb_false_iff in Ei as [_ Ei]. cbn [fst].
  constructor; [|apply Forall_app; split; [done|by constructor]].
  rewrite fmap_app. apply NoDup_app. split; [done|]. split; [|apply NoDup_singleton].
  intros k (e' & -> & He)%list_elem_of_fmap Hin. apply list_elem_of_singleton in Hin.
  assert (H : existsb (same_key (ib_Kind w) (ib_Key w)) rows = true); [|congruence].
  apply existsb_exists. exists e'. split; [by apply list_elem_of_In|by apply same_key_spec].
Qed.

Lemma RemoveIdentityBinding_ok ro fails rows kind key :
  table_ok rows -> table_ok (RemoveIdentityBinding ro fails rows kind key).1.
Proof.
  intros [Hk Hr]. unfold RemoveIdentityBinding. destruct (negb (ValidBindKind kind)); [done|]. destruct ro; [done|].
  destruct (if (kind =? BindCIDR)%string then _ else _) as [k|]; [|done]. destruct fails; [done|]. cbn [fst].
  set (keep := fun e => negb (same_key kind k e)).
  assert (Hin : forall x, x ∈ List.filter keep rows -> x ∈ rows).
  { intros x. rewrite !list_elem_of_In, filter_In. by intros [? _]. }
  constructor.
  - clear -Hk. induction rows as [|a rows IH]; [constructor|]. cbn [fmap list_fmap] in Hk. apply NoDup_cons in Hk as [Hn Hk].
    cbn [List.filter]. destruct (keep a); [|by apply IH]. cbn [fmap list_fmap]. apply NoDup_cons. split; [|by apply IH].
    intros (x & Hx & Hf)%list_elem_of_fmap. apply Hn. rewrite Hx. apply list_elem_of_fmap. exists x. split; [done|].
    rewrite list_elem_of_In, filter_In in Hf. apply list_elem_of_In. by destruct Hf.
  - rewrite Forall_forall in *. intros x Hx. by apply Hr, Hin.
Qed.

Lemma reachable_table_ok rows : rtc bind_step [] rows -> table_ok rows.
Proof.
  assert (H : forall a b, rtc bind_step a b -> table_ok a -> table_ok b).
  { induction 1 as [|a b c Hs _ IH]; [done|]. intros Ha. apply IH.
    destruct Hs; [by apply AddIdentityBinding_ok|by apply RemoveIdentityBinding_ok]. }
  intros Hr. apply (H _ _ Hr). constructor; constructor.
Qed.

(** ** What the order of the rows does not change *)

Lemma token_map_spec f bs k v :
  NoDup (row_key <$> bs) ->
  token_map f bs !! k = Some v <-> exists b, b ∈ bs /\ row_key b = (BindToken, k) /\ f b = v.
Proof.
  unfold token_map. induction bs as [|b bs IH] using rev_ind; intros Hk.
  - cbn [foldl]. rewrite lookup_empty. split; [done|]. by intros (b & ?%elem_of_nil & _).
  - rewrite fmap_app in Hk. apply NoDup_app in Hk as (Hk & Hb & _). specialize (IH Hk). rewrite foldl_app. cbn [foldl].
    assert (Hnot : ~ row_key b ∈ row_key <$> bs) by (intros H; apply (Hb _ H); by left).
    destruct (String.eqb_spec (ib_Kind b) BindToken) as [Et|Et].
    + destruct (decide (ib_Key b = k)) as [<-|Ek].
      * rewrite lookup_insert_eq. split.
        { intros [= <-]. exists b. split; [apply elem_of_app; right; by left|]. split; [|done]. unfold row_key. by rewrite Et. }
        intros (b' & [Hin|Hin%list_elem_of_singleton]%elem_of_app & Hkey & <-); [|by subst].
        exfalso. apply Hnot. apply list_elem_of_fmap. exists b'. split; [|done]. rewrite Hkey. unfold row_key. by rewrite Et.
      * rewrite lookup_insert_ne by done. rewrite IH. split; intros (b' & Hin & Hkey & Hv); exists b'.
        { split; [apply elem_of_app; by left|done]. }
        apply elem_of_app in Hin as [Hin|Hin%list_elem_of_singleton]; [done|]. subst. by injection Hkey.
    + rewrite IH. split; intros (b' & Hin & Hkey & Hv); exists b'.
      { split; [apply elem_of_app; by left|done]. }
      apply elem_of_app in Hin as [Hin|Hin%list_elem_of_singleton]; [done|]. subst. by injection Hkey.
Qed.

Lemma token_map_perm f bs rows : table_ok rows -> bs ≡ₚ rows -> token_map f bs = token_map f rows.
Proof.
  intros Hok Hp. apply map_eq. intros k. apply option_eq. intros v. rewrite !token_map_spec by (rewrite ?Hp; apply Hok).
  by setoid_rewrite Hp.
Qed.

Lemma cidr_of_spec b c :
  cidr_of b = Some c <->
  exists p, ib_Kind b = BindCIDR /\ ParsePrefix (ib_Key b) = Some p /\ c = MkCidr (Masked p) (ib_Identity b).
Proof.
  unfold cidr_of. destruct (String.eqb_spec (ib_Kind b) BindCIDR) as [E|E]; [|split; [done|naive_solver]].
  destruct (ParsePrefix (ib_Key b)) as [p|]; cbn [mbind option_bind]; [|split; [done|naive_solver]]. naive_solver.
Qed.

Lemma Masked_bits p : px_bits (Masked p) = px_bits p.
Proof. by destruct p as [[]]. Qed.

(** In a table of the operations, the longest network that holds an address is one. *)
Lemma longest_unique rows addr b c b' c' :
  table_ok rows -> holds_address rows addr b c -> holds_address rows addr b' c' ->
  px_bits (cb_prefix c) = px_bits (cb_prefix c') -> b = b' /\ c = c'.
Proof.
  intros Hok (Hb & Hc & Hp) (Hb' & Hc' & Hp') Hbits.
  apply cidr_of_spec in Hc as (p & Hk & Hparse & ->). apply cidr_of_spec in Hc' as (p' & Hk' & Hparse' & ->).
  cbn [cb_prefix] in *. rewrite !Masked_bits in Hbits.
  assert (b = b') as <-; [|split; congruence]. apply (tb_apart rows b b' Hok Hb Hb').
  exists p, p'. split_and!; try done.
  apply (common_address_overlaps p p' (Unmap addr)); [by eapply ParsePrefix_valid|by eapply ParsePrefix_valid|done..].
Qed.

Lemma address_match_perm rows bs tokens tokens' clientIP :
  table_ok rows -> bs ≡ₚ rows ->
  address_match (newIdentitySet bs tokens) clientIP = address_match (newIdentitySet rows tokens') clientIP.
Proof.
  intros Hok Hp. pose proof (address_match_spec bs tokens clientIP _ eq_refl) as H1.
  pose proof (address_match_spec rows tokens' clientIP _ eq_refl) as H2.
  destruct (ParseAddr clientIP) as [addr|]; [|congruence].
  assert (Hsame : forall b c, holds_address bs addr b c <-> holds_address rows addr b c).
  { intros b c. unfold holds_address. by rewrite Hp. }
  destruct H1 as [(-> & Hno)|(b & c & Hh & -> & Hmax)], H2 as [(-> & Hno')|(b' & c' & Hh' & -> & Hmax')].
  - done.
  - apply Hsame in Hh'. by destruct (Hno b' c').
  - apply Hsame in Hh. by destruct (Hno' b c).
  - apply Hsame in Hh as Hr. apply Hsame in Hh' as Hr'.
    destruct (longest_unique rows addr b c b' c' Hok Hr Hh') as [-> ->]; [|done].
    specialize (Hmax _ _ Hr'). specialize (Hmax' _ _ Hr). lia.
Qed.

(** ** The token half *)

(** The credential is a listed token in force that [b] binds. *)
Definition bound_token (HashToken : string -> string -> string) (pepper : string) (rows : list IdentityBinding)
    (tokens : list TokenHash) (cred : string) (now : Z) (t : TokenHash) (b : IdentityBinding) : Prop :=
  cred <> "" /\ findHash tokens (HashToken cred pepper) = Some t /\ expired t now = false
  /\ b ∈ rows /\ row_key b = (BindToken, tk_ID t).

Section token_half.
Context (HashToken : string -> string -> string) (pepper : string) (rows : list IdentityBinding) (Hok : table_ok rows).

(** What match reads of the credential. *)
Definition token_answer (s : identitySet) (cred : string) (now : Z) : string * string :=
  if negb (cred =? "")%string && (0 <? size (is_byToken s))%nat then identityForToken HashToken pepper s cred now
  else ("", "").

Lemma byToken_spec bs tokens k v :
  bs ≡ₚ rows ->
  is_byToken (newIdentitySet bs tokens) !! k = Some v <->
  exists b, b ∈ rows /\ row_key b = (BindToken, k) /\ ib_Identity b = v.
Proof.
  intros Hp. cbn [newIdentitySet is_byToken]. rewrite (token_map_perm ib_Identity bs rows Hok Hp).
  apply token_map_spec, Hok.
Qed.

Lemma token_answer_spec bs tokens cred now :
  bs ≡ₚ rows ->
  let a := token_answer (newIdentitySet bs tokens) cred now in
  (exists t b, bound_token HashToken pepper rows tokens cred now t b /\ a = (ib_Identity b, tk_ID t) /\ ib_Identity b <> "")
  \/ (a = ("", "") /\ forall t b, ~ bound_token HashToken pepper rows tokens cred now t b).
Proof.
  intros Hp a. subst a. unfold token_answer, bound_token.
  destruct (String.eqb_spec cred "") as [->|Hc]; cbn [negb andb].
  { right. split; [done|]. by intros t b [? _]. }
  unfold identityForToken. cbn [newIdentitySet is_tokens]. fold (findHash tokens (HashToken cred pepper)).
  set (s := newIdentitySet bs tokens).
  assert (Hby : forall k v, is_byToken s !! k = Some v <-> exists b, b ∈ rows /\ row_key b = (BindToken, k) /\ ib_Identity b = v)
    by (intros; by apply byToken_spec).
  assert (Hnone : forall P : Prop, (0 <? size (is_byToken s))%nat = false ->
            forall b k, b ∈ rows -> row_key b = (BindToken, k) -> P).
  { intros P Hs b k Hb Hkey. apply Nat.ltb_ge, Nat.le_0_r, map_size_empty_iff in Hs.
    assert (H : is_byToken s !! k = Some (ib_Identity b)) by (apply Hby; by exists b). by rewrite Hs, lookup_empty in H. }
  destruct (0 <? size (is_byToken s))%nat eqn:Es.
  2: { right. split; [done|]. intros t b (_ & _ & _ & Hb & Hkey). by apply (Hnone False eq_refl b (tk_ID t)). }
  destruct (findHash tokens (HashToken cred pepper)) as [t|].
  2: { right. split; [done|]. by intros t b (_ & [=] & _). }
  destruct (expired t now) eqn:Ee.
  { right. split; [done|]. intros t' b (_ & [= <-] & He & _). congruence. }
  destruct (is_byToken s !! tk_ID t) as [id|] eqn:Ei; cbn [default].
  - apply Hby in Ei as (b & Hb & Hkey & <-). pose proof (tb_rows _ Hok) as Hr. rewrite Forall_forall in Hr.
    destruct (Hr b Hb) as (_ & Hne & _). unfold id. apply String.eqb_neq in Hne as Hne'. rewrite Hne'. cbn [negb].
    left. exists t, b. by split_and!.
  - right. split; [done|]. intros t' b (_ & [= <-] & _ & Hb & Hkey).
    assert (H : is_byToken s !! tk_ID t = Some (ib_Identity b)) by (apply Hby; by exists b). congruence.
Qed.

Lemma identity_match_answer s cred clientIP now trusted :
  identity_match HashToken pepper s cred clientIP now trusted =
  let '(id, tokenID) := token_answer s cred now in
  if negb (id =? "")%string then MkMatch id BindToken tokenID
  else if negb trusted then no_match else address_match s clientIP.
Proof. done. Qed.
End token_half.

(** ** Where an address comes from *)

Lemma peer_not_trusted r ns :
  peerIsTrusted r ns = false -> (resolveClientIP r ns).2 = false.
Proof.
  unfold peerIsTrusted, resolveClientIP. destruct (SplitHostPort (rq_RemoteAddr r)) as [[host port]|]; [|done].
  destruct (ParseIP host) as [ip|]; [|done]. by intros ->.
Qed.

Lemma not_forwarded r ns ip :
  resolveClientIP r ns = (ip, false) ->
  resolveClientIP (MkRequest (rq_Method r) (rq_Path r) (rq_RemoteAddr r) no_header) ns = (ip, false).
Proof.
  unfold resolveClientIP. cbn [rq_RemoteAddr rq_Header no_header].
  destruct (SplitHostPort (rq_RemoteAddr r)) as [[host port]|]; [|done].
  destruct (negb match ParseIP host with Some ip => _ | None => _ end); [done|].
  destruct (rq_Header r "X-Real-IP" =? "")%string; cbn [negb]; [|done].
  by destruct (rq_Header r "X-Forwarded-For" =? "")%string.
Qed.

(** ** What an addition answers *)

(** Over a table of the operations the second loop of the check finds nothing. *)
Lemma findBindingConflict_key rows w :
  Forall row_ok rows -> row_ok w ->
  findBindingConflict rows w =
  (fun e => MkConflict e w (AlreadyBound (ib_Identity e))) <$>
    List.find (fun e => same_key (ib_Kind w) (ib_Key w) e && negb (ib_Identity e =? ib_Identity w)%string) rows.
Proof.
  intros Hr Hw. unfold findBindingConflict. destruct (List.find _ rows) eqn:E1; [done|]. cbn [fmap option_fmap option_map].
  destruct (String.eqb_spec (ib_Kind w) BindCIDR) as [Ek|]; cbn [negb]; [|done].
  destruct Hw as (_ & _ & Hn). destruct (Hn Ek) as (p & Hp & Ep). rewrite Ep, ParsePrefix_text by done. cbn [mbind option_bind].
  assert (List.find (ambiguous_with w p) rows = None) as ->; [|done]. apply find_None_iff. intros e He.
  rewrite Forall_forall in Hr. destruct (Hr e He) as (_ & _ & Hne). unfold ambiguous_with.
  destruct (String.eqb_spec (ib_Kind e) BindCIDR) as [Eke|]; cbn [andb]; [|done]. destruct (Hne Eke) as (q & Hq & Eq).
  rewrite Eq, Ep, ParsePrefix_text by done. destruct (String.eqb_spec (Prefix_String q) (Prefix_String p)) as [|Hd]; [done|].
  cbn [negb andb]. destruct (Z.eqb_spec (px_bits q) (px_bits p)) as [Hb|]; cbn [andb]; [|done].
  destruct (Overlaps q p) eqn:Eo; [|done]. by rewrite (normal_overlap q p Hq Hp Hb Eo) in Hd.
Qed.

(** * Theorems *)

(** C31: Who a request is, once and for all.  Over a table that only
    [AddIdentityBinding] and [RemoveIdentityBinding] wrote, the answer is the
    name the presented token is bound to, while that token is in force; else,
    where the address may name a host, the name of the one longest network that
    holds it; else nobody.  No other network of that length holds the address,
    so the order the rows are read in changes nothing. *)
Theorem identity_unambiguous HashToken pepper rows bs tokens cred clientIP now trusted :
  rtc bind_step [] rows -> bs ≡ₚ rows ->
  let m := identity_match HashToken pepper (newIdentitySet bs tokens) cred clientIP now trusted in
  let known := bound_token HashToken pepper rows tokens cred now in
  (exists t b, known t b /\ m = MkMatch (ib_Identity b) BindToken (tk_ID t))
  \/ (forall t b, ~ known t b) /\
     ((trusted = true /\ exists addr b c, ParseAddr clientIP = Some addr /\ holds_address rows addr b c
         /\ m = MkMatch (ib_Identity b) BindCIDR (Prefix_String (cb_prefix c))
         /\ forall b' c', holds_address rows addr b' c' -> b' = b \/ px_bits (cb_prefix c') < px_bits (cb_prefix c))
      \/ (m = no_match /\ (trusted = false \/ forall addr b c, ParseAddr clientIP = Some addr -> ~ holds_address rows addr b c))).
Proof.
  intros Hr Hp m known. apply reachable_table_ok in Hr as Hok. subst m known. rewrite identity_match_answer.
  destruct (token_answer_spec HashToken pepper rows Hok bs tokens cred now Hp) as [(t & b & Hb & -> & Hne)|[-> Hno]].
  - left. exists t, b. split; [done|]. apply String.eqb_neq in Hne. by rewrite Hne.
  - right. split; [done|]. cbn [String.eqb negb]. destruct trusted; cbn [negb]; [|right; split; [done|by left]].
    rewrite (address_match_perm rows bs tokens tokens clientIP Hok Hp).
    pose proof (address_match_spec rows tokens clientIP _ eq_refl) as H.
    destruct (ParseAddr clientIP) as [addr|].
    + destruct H as [(-> & H)|(b & c & Hh & -> & Hmax)].
      * right. split; [done|]. right. by intros addr' b c [= <-].
      * left. split; [done|]. exists addr, b, c. split_and!; try done. intros b' c' Hh'.
        specialize (Hmax _ _ Hh'). destruct (decide (px_bits (cb_prefix c') = px_bits (cb_prefix c))) as [E|E]; [left|right; lia].
        by destruct (longest_unique rows addr b' c' b c Hok Hh' Hh E).
    + right. split; [done|]. right. by intros ??? [=].
Qed.

(** What binding a key answers, when the read and the insert succeed.  A key
    that is free is bound; a key that has the name already is left alone and
    reported so; a key bound to another name is refused with the row that holds
    it, and nothing is written.  No network is ever refused for another row of
    its length, for in the form keys are stored in two networks of one length
    are one network or have no address in common. *)
Theorem AddIdentityBinding_answers e rows b w :
  table_ok rows -> normalized (be_actor e) b = inl w ->
  be_readOnly e = false -> be_list_fails e = false -> be_insert_fails e = false ->
  AddIdentityBinding e rows rows b =
  match List.find (fun r => same_key (ib_Kind w) (ib_Key w) r) rows with
  | None => (rows ++ [w], inl true)
  | Some r => if (ib_Identity r =? ib_Identity w)%string then (rows, inl false)
              else (rows, inr (ErrConflict (MkConflict r w (AlreadyBound (ib_Identity r)))))
  end.
Proof.
  intros [Hk Hr] En Hro Hlf Hif. pose proof (normalized_ok _ _ _ En) as Hw. unfold AddIdentityBinding. rewrite En, Hro, Hlf, Hif.
  rewrite findBindingConflict_key; [|by unfold ListIdentityBindings; rewrite (SliceStable_perm row_less rows)|done].
  assert (Hex : forall rows', rows' ≡ₚ rows ->
            existsb (same_key (ib_Kind w) (ib_Key w)) rows' = isSome (List.find (fun r => same_key (ib_Kind w) (ib_Key w) r) rows)).
  { intros rows' Hp. apply eq_true_iff_eq. rewrite existsb_exists. unfold isSome.
    destruct (List.find (fun r => same_key (ib_Kind w) (ib_Key w) r) rows) as [r|] eqn:E.
    - split; [done|]. intros _. apply find_some in E as [Hin Hs]. exists r. split; [|done].
      apply list_elem_of_In. rewrite Hp. by apply list_elem_of_In.
    - split; [|done]. intros (r & Hin & Hs). rewrite find_None_iff in E. apply list_elem_of_In in Hin. rewrite Hp in Hin.
      specialize (E r Hin). cbn beta in E. congruence. }
  rewrite !Hex by (done || apply SliceStable_perm).
  destruct (List.find (fun r => same_key (ib_Kind w) (ib_Key w) r) rows) as [r|] eqn:E; cbn [isSome orb].
  - apply find_some in E as [Hin Hs]. apply list_elem_of_In in Hin.
    assert (Huniq : forall r', r' ∈ rows -> same_key (ib_Kind w) (ib_Key w) r' = true -> r' = r).
    { intros r' Hin' Hs'. apply (same_key_row rows); try done. apply same_key_spec in Hs, Hs'. congruence. }
    destruct (List.find _ (ListIdentityBindings rows)) as [r'|] eqn:E'; cbn [fmap option_fmap option_map].
    + apply find_some in E' as [Hin' Hs'%andb_true_iff]. apply list_elem_of_In in Hin'. rewrite ListIdentityBindings_elem in Hin'.
      destruct Hs' as [Hs' Hne]. rewrite (Huniq r' Hin' Hs') in *. apply negb_true_iff in Hne. by rewrite Hne.
    + rewrite find_None_iff in E'. specialize (E' r (proj2 (ListIdentityBindings_elem rows r) Hin)). cbn beta in E'.
      rewrite Hs in E'. cbn [andb] in E'. apply negb_false_iff in E'. by rewrite E'.
  - destruct (List.find _ (ListIdentityBindings rows)) as [r'|] eqn:E'; cbn [fmap option_fmap option_map]; [|done].
    apply find_some in E' as [Hin' Hs'%andb_true_iff]. apply list_elem_of_In in Hin'. rewrite ListIdentityBindings_elem in Hin'.
    rewrite find_None_iff in E. specialize (E r' Hin'). destruct Hs' as [Hs' _]. cbn beta in E. congruence.
Qed.

Definition bind_ok : bind_env := MkBindEnv "root" false false false.

Definition bound (bs : list (string * string * string)) : list IdentityBinding :=
  foldl (fun rows b => (AddIdentityBinding bind_ok rows rows (MkBinding b.1.1 b.1.2 b.2 "" "")).1) [] bs.

Lemma bound_reachable bs : rtc bind_step [] (bound bs).
Proof.
  unfold bound. induction bs as [|b bs IH] using rev_ind; [apply rtc_refl|]. rewrite foldl_app. cbn [foldl].
  eapply rtc_r; [exact IH|]. apply step_add.
Qed.

(** Four rows, of five additions: the third is refused, as it names the network
    of the second. *)
Definition rack : IdentityBinding := MkBinding "cidr" "10.1.0.0/16" "rack" "" "root".
Definition rack_net : cidrBinding := MkCidr (MkPrefix (Addr4 167837696) 16) "rack".

Definition fleet : list IdentityBinding :=
  [MkBinding "cidr" "10.0.0.0/8" "fleet" "" "root"; rack; MkBinding "token" "t1" "ci" "" "root";
   MkBinding "cidr" "2001:db8::/32" "v6" "" "root"].

Lemma fleet_bound :
  bound [("cidr", "10.0.0.5/8", "fleet"); ("cidr", "::ffff:10.1.0.0/112", "rack"); ("cidr", "10.1.7.7/16", "other");
         ("token", "t1", "ci"); ("cidr", "2001:db8::/32", "v6")] = fleet.
Proof. vm_compute. reflexivity. Qed.

Lemma fleet_ok : table_ok fleet.
Proof. apply reachable_table_ok. rewrite <- fleet_bound. apply bound_reachable. Qed.

Lemma AddIdentityBinding_answers_witness :
  (AddIdentityBinding bind_ok fleet fleet (MkBinding "cidr" "::ffff:10.1.9.9/112" "other" "" "")).2
  = inr (ErrConflict (MkConflict rack (MkBinding "cidr" "10.1.0.0/16" "other" "" "root") (AlreadyBound "rack"))).
Proof.
  rewrite (AddIdentityBinding_answers bind_ok fleet (MkBinding "cidr" "::ffff:10.1.9.9/112" "other" "" "")
             (MkBinding "cidr" "10.1.0.0/16" "other" "" "root") fleet_ok); vm_compute; reflexivity.
Defined.

Lemma rack_holds : holds_address fleet (Addr6 281470849581571 "") rack rack_net.
Proof. split; [right; left|]. split; vm_compute; reflexivity. Qed.

Lemma identity_unambiguous_witness :
  identity_match hash_pair "pp" (newIdentitySet (rev fleet) [writer]) "nothing" "::ffff:10.1.2.3" 0 true
  = MkMatch "rack" BindCIDR "10.1.0.0/16".
Proof.
  destruct (identity_unambiguous hash_pair "pp" fleet (rev fleet) [writer] "nothing" "::ffff:10.1.2.3" 0 true) as [H|[_ H]].
  - rewrite <- fleet_bound. apply bound_reachable.
  - apply Permutation_sym, Permutation_rev.
  - exfalso. destruct H as (t & b & (_ & Hf & _) & _). vm_compute in Hf. discriminate.
  - destruct H as [(_ & addr & b & c & Ha & Hh & -> & Hmax)|[_ [[=]|H]]].
    + vm_compute in Ha. injection Ha as <-. specialize (Hmax _ _ rack_holds). destruct Hh as (Hb & Hc & Hp).
      apply list_elem_of_In in Hb. destruct Hb as [<-|[<-|[<-|[<-|[]]]]]; vm_compute in Hc; try discriminate;
        injection Hc as <-.
      * exfalso. destruct Hmax as [[=]|Hmax]. vm_compute in Hmax. discriminate.
      * vm_compute. reflexivity.
      * exfalso. vm_compute in Hp. discriminate.
    + exfalso. apply (H _ _ _ ltac:(vm_compute; reflexivity) rack_holds).
Defined.

(** C32: A forged header names no host.  A request with no credential, from a
    peer outside the trusted set or to a server whose operator never named the
    proxies to believe, is given nobody's name, or the name it is given with no
    header at all: the one of the address its connection came from. *)
Theorem forged_headers_name_nobody HashToken lower_unicode pepper s trusted now r :
  (credentialFrom lower_unicode r).1 = "" ->
  trusted = None \/ peerIsTrusted r (nets trusted) = false ->
  let ask r := identityMatchFor HashToken lower_unicode pepper s (RealIPMiddleware trusted r) now r in
  ask r = no_match \/ ask r = ask (MkRequest (rq_Method r) (rq_Path r) (rq_RemoteAddr r) no_header).
Proof.
  intros Hcred Ht ask. subst ask. cbn beta. unfold identityMatchFor. rewrite Hcred.
  change (credentialFrom lower_unicode (MkRequest (rq_Method r) (rq_Path r) (rq_RemoteAddr r) no_header)).1 with "".
  destruct (_ && _); [by left|]. rewrite !identity_match_answer. unfold token_answer. cbn [String.eqb negb andb].
  set (r0 := MkRequest (rq_Method r) (rq_Path r) (rq_RemoteAddr r) no_header).
  destruct (cx_forwarded (RealIPMiddleware trusted r)) eqn:Ef.
  - left. unfold cidrAddressTrusted. rewrite Ef. unfold RealIPMiddleware in *.
    destruct trusted as [ns|].
    + exfalso. destruct Ht as [[=]|Ht]. cbn [nets default] in Ht. apply peer_not_trusted in Ht. change (id ns) with ns in Ht.
      destruct (resolveClientIP r ns) as [ip f]. cbn [snd cx_forwarded] in *. congruence.
    + destruct (resolveClientIP r defaultTrustedNets) as [ip f]. done.
  - right. assert (Heq : RealIPMiddleware trusted r0 = RealIPMiddleware trusted r); [|by rewrite Heq].
    unfold RealIPMiddleware in *. set (ns := match trusted with None => _ | Some _ => _ end) in *.
    assert (resolveClientIP r0 ns = resolveClientIP r ns) as ->; [|done].
    destruct (resolveClientIP r ns) as [ip f] eqn:E. cbn [cx_forwarded] in Ef. subst f. by apply not_forwarded.
Qed.

Definition forger : Request := from_peer "10.0.0.77:99" "10.1.2.3" "".

Lemma forged_headers_name_nobody_witness :
  let ask r := identityMatchFor hash_pair (fun s => s) "pp" (newIdentitySet fleet []) (RealIPMiddleware None r) 0 r in
  ask forger = no_match /\ im_Identity (ask (MkRequest "GET" "/" "10.0.0.77:99" no_header)) = "fleet".
Proof.
  intros ask. assert (Hf : im_Identity (ask (MkRequest "GET" "/" "10.0.0.77:99" no_header)) = "fleet") by (vm_compute; reflexivity).
  split; [|exact Hf].
  destruct (forged_headers_name_nobody hash_pair (fun s => s) "pp" (newIdentitySet fleet []) None 0 forger
              ltac:(vm_compute; reflexivity) (or_introl eq_refl)) as [H|H]; [exact H|].
  vm_compute. reflexivity.
Defined.
