(* ===== verification/AccessLists.v ===== *)
(** The three access lists: admin, deny and trusted proxies.

    The lists live in the audit database (audit/acl.go) once it owns them, and in
    the config file until then.  The server copies and resolves them
    (server/acl.go); the command line changes them (cmd/bodega/cmd_acl.go).  The
    database is its two tables, and the statements that may fail are arguments. *)

From stdpp Require Import base list strings gmap pretty.
From Stdlib Require Import ZArith Lia Ascii Sorted.
From S2P Require Import Prelude GoStrings GoSort GoTime GoNet NetText Types ClientIP.

(** * The tables (audit/acl.go) *)

Definition ACLAdmin := "admin".
Definition ACLDeny := "deny".
Definition ACLProxies := "proxies".

Definition ACLLists : list string := [ACLAdmin; ACLDeny; ACLProxies].

Definition ACLConfigKey (name : string) : string :=
  if (name =? ACLAdmin)%string then "admin_permit_cidr"
  else if (name =? ACLDeny)%string then "deny_list"
  else if (name =? ACLProxies)%string then "trusted_proxies"
  else "".

Definition ValidACLList (name : string) : bool := negb (ACLConfigKey name =? "")%string.

Record ACLEntry := MkEntry { ae_List : string; ae_CIDR : string; ae_Comment : string; ae_Actor : string }.

(** acl_lists, the lists the database owns, and acl_entries. *)
Record acl_tables := MkTables { at_lists : list string; at_entries : list ACLEntry }.

Inductive acl_error := ErrACLUnknownList | ErrACLReadOnly | ErrACLDatabase | ErrACLRowCount.

Definition same_entry (name cidr : string) (e : ACLEntry) : bool :=
  (ae_List e =? name)%string && (ae_CIDR e =? cidr)%string.

(** INSERT OR IGNORE on the key (list, cidr). *)
Definition insert_ignore (rows : list ACLEntry) (e : ACLEntry) : list ACLEntry :=
  if existsb (same_entry (ae_List e) (ae_CIDR e)) rows then rows else rows ++ [e].

Definition ACLSeeded (fails : bool) (t : acl_tables) (name : string) : bool + acl_error :=
  if negb (ValidACLList name) then inr ErrACLUnknownList
  else if fails then inr ErrACLDatabase
  else inl (slice_contains (at_lists t) name).

(** One transaction: a failure leaves the tables as they were. *)
Definition SeedACL (readOnly fails : bool) (t : acl_tables) (name : string) (entries : list string) (actor : string)
  : acl_tables * (bool + acl_error) :=
  if negb (ValidACLList name) then (t, inr ErrACLUnknownList)
  else if readOnly then (t, inr ErrACLReadOnly)
  else if fails then (t, inr ErrACLDatabase)
  else if slice_contains (at_lists t) name then (t, inl false)
  else (MkTables (at_lists t ++ [name])
          (foldl (fun rows cidr => insert_ignore rows (MkEntry name cidr "" actor)) (at_entries t) entries), inl true).

(** WHERE list = ? ORDER BY cidr. *)
Definition ListACL (fails : bool) (t : acl_tables) (name : string) : list ACLEntry + acl_error :=
  if negb (ValidACLList name) then inr ErrACLUnknownList
  else if fails then inr ErrACLDatabase
  else inl (SliceStable (fun a b => Compare (ae_CIDR a) (ae_CIDR b) <? 0)
              (List.filter (fun e => (ae_List e =? name)%string) (at_entries t))).

Definition ACLCIDRs (fails : bool) (t : acl_tables) (name : string) : list string + acl_error :=
  match ListACL fails t name with inl entries => inl (map ae_CIDR entries) | inr e => inr e end.

Definition AddACL (readOnly fails : bool) (t : acl_tables) (e : ACLEntry) : acl_tables * (bool + acl_error) :=
  if negb (ValidACLList (ae_List e)) then (t, inr ErrACLUnknownList)
  else if readOnly then (t, inr ErrACLReadOnly)
  else if fails then (t, inr ErrACLDatabase)
  else
    let rows := insert_ignore (at_entries t) e in
    (MkTables (at_lists t) rows, inl (length rows - length (at_entries t) =? 1)%nat).

Definition RemoveACL (readOnly fails : bool) (t : acl_tables) (name cidr : string) : acl_tables * (bool + acl_error) :=
  if negb (ValidACLList name) then (t, inr ErrACLUnknownList)
  else if readOnly then (t, inr ErrACLReadOnly)
  else if fails then (t, inr ErrACLDatabase)
  else
    let rest := List.filter (fun e => negb (same_entry name cidr e)) (at_entries t) in
    let n := (length (at_entries t) - length rest)%nat in
    (MkTables (at_lists t) rest, if (1 <? n)%nat then inr ErrACLRowCount else inl (n =? 1)%nat).

(** * The server (server/acl.go) *)

(** The lists of the config file; trusted_proxies may be absent. *)
Record acl_config := MkAclConfig { cf_admin : list string; cf_deny : list string; cf_proxies : option (list string) }.

Record aclSet := MkAclSet { as_admin : list IPNet; as_deny : list IPNet; as_trusted : list IPNet; as_trustedSet : bool }.

(** parseAdminPermitCIDR: a list the operator wrote that parses to nothing is an
    error. *)
Definition parseAdminPermitCIDR (entries : list string) : option (list IPNet) :=
  match entries with
  | [] => Some []
  | _ => match ParseDenyList entries with inl (n :: ns) => Some (n :: ns) | _ => None end
  end.

(** What New parses of the file: a list that does not parse is left unset. *)
Definition config_set (cfg : acl_config) : aclSet :=
  let admin := default [] (parseAdminPermitCIDR (cf_admin cfg)) in
  let deny := match ParseDenyList (cf_deny cfg) with inl ns => ns | inr _ => [] end in
  match cf_proxies cfg with
  | None => MkAclSet admin deny [] false
  | Some entries => match ParseDenyList entries with
                    | inl ns => MkAclSet admin deny ns true
                    | inr _ => MkAclSet admin deny [] false
                    end
  end.

(** Which statements fail, per list. *)
Record acl_faults := MkAclFaults { af_seeded : string -> bool; af_cidrs : string -> bool; af_write : string -> bool }.

Definition with_list (name : string) (ns : list IPNet) (set : aclSet) : aclSet :=
  if (name =? ACLAdmin)%string then MkAclSet ns (as_deny set) (as_trusted set) (as_trustedSet set)
  else if (name =? ACLDeny)%string then MkAclSet (as_admin set) ns (as_trusted set) (as_trustedSet set)
  else if (name =? ACLProxies)%string then MkAclSet (as_admin set) (as_deny set) ns true
  else set.

Definition resolve_list (f : acl_faults) (t : acl_tables) (set : aclSet) (name : string) : aclSet :=
  match ACLSeeded (af_seeded f name) t name with
  | inl true =>
      match ACLCIDRs (af_cidrs f name) t name with
      | inl cidrs => with_list name (parseACLEntries cidrs).1 set
      | inr _ => set
      end
  | _ => set
  end.

Definition resolveACLs (db : bool) (f : acl_faults) (cfg : acl_config) (t : acl_tables) : aclSet :=
  if negb db then config_set cfg else foldl (resolve_list f t) (config_set cfg) ACLLists.

Definition trustedNetsFunc (set : aclSet) : Nets := if negb (as_trustedSet set) then None else Some (as_trusted set).

(** ** The cache *)

Definition aclCacheTTL : Z := 30 * Second.

Definition aclCached (now : Z) (c : option (aclSet * Z)) : option aclSet :=
  match c with
  | None => None
  | Some (set, at_) => if aclCacheTTL <=? Time_Sub now at_ then None else Some set
  end.

(** The clock before and after the lock is taken, what a fresh resolution answers
    and when it is stored. *)
Definition aclNow (now again : Z) (resolved : aclSet) (stored : Z) (c : option (aclSet * Z)) : option (aclSet * Z) * aclSet :=
  match aclCached now c with
  | Some set => (c, set)
  | None => match aclCached again c with
            | Some set => (c, set)
            | None => (Some (resolved, stored), resolved)
            end
  end.

Definition refreshACLs (resolved : aclSet) (stored : Z) : option (aclSet * Z) := Some (resolved, stored).

(** ** The first start *)

(** The entries of a list the file has an answer for. *)
Definition seed_entries (cfg : acl_config) (name : string) : option (list string) :=
  if (name =? ACLAdmin)%string then match cf_admin cfg with [] => None | es => Some es end
  else if (name =? ACLDeny)%string then match cf_deny cfg with [] => None | es => Some es end
  else cf_proxies cfg.

Definition seed_list (f : acl_faults) (readOnly : bool) (cfg : acl_config) (actor : string) (t : acl_tables) (name : string)
  : acl_tables :=
  match ACLSeeded (af_seeded f name) t name with
  | inl false =>
      match seed_entries cfg name with
      | None => t
      | Some entries =>
          if negb (length (parseACLEntries entries).2 =? 0)%nat then t
          else (SeedACL readOnly (af_write f name) t name entries actor).1
      end
  | _ => t
  end.

Definition seedACLs (db : bool) (f : acl_faults) (readOnly : bool) (cfg : acl_config) (actor : string) (t : acl_tables)
  : acl_tables :=
  if negb db then t else foldl (seed_list f readOnly cfg actor) t ACLLists.

(** sameCIDRs: the lists as sets of parsed networks, or of their texts. *)
Definition cidr_norm (entries : list string) : gset string :=
  match ParseDenyList entries with
  | inr _ => list_to_set entries
  | inl ns => list_to_set (map IPNet_String ns)
  end.

Definition sameCIDRs (a b : list string) : bool := bool_decide (cidr_norm a = cidr_norm b).

(** * The command line (cmd/bodega/cmd_acl.go) *)

Definition normalizeCIDR (text : string) : option string :=
  match ParseDenyList [text] with inl [n] => Some (IPNet_String n) | _ => None end.

Definition normalizeCIDRs (entries : list string) : list string :=
  map (fun e => default e (normalizeCIDR e)) entries.

Definition containsCIDR (entries : list string) (cidr : string) : bool := slice_contains entries cidr.

Definition aclConfigValue (cfg : acl_config) (name : string) : list string :=
  if (name =? ACLAdmin)%string then cf_admin cfg
  else if (name =? ACLDeny)%string then cf_deny cfg
  else if (name =? ACLProxies)%string then default [] (cf_proxies cfg)
  else [].

Inductive acl_refusal :=
| BadCIDR | NotInList | AdminListUnparsed | AdminWidening | AdminLockout | StoreFailed.

Inductive acl_outcome := Added (warned : bool) | AlreadyIn | Removed | Refused (why : acl_refusal).

(** What a command runs with: the config, the statements that fail, the number of
    tokens, and who runs it. *)
Record acl_cli := MkAclCli { cl_cfg : acl_config; cl_faults : acl_faults; cl_tokens : option Z; cl_actor : string }.

Section command.
Context (cli : acl_cli).

Local Abbreviation cfg := (cl_cfg cli).
Local Abbreviation f := (cl_faults cli).

(** The list as the server reads it today. *)
Definition effectiveACL (t : acl_tables) (name : string) : list string + acl_error :=
  match ACLSeeded (af_seeded f name) t name with
  | inr e => inr e
  | inl true => ACLCIDRs (af_cidrs f name) t name
  | inl false => inl (normalizeCIDRs (aclConfigValue cfg name))
  end.

Definition ensureACLSeeded (t : acl_tables) (name : string) : acl_tables + acl_error :=
  match ACLSeeded (af_seeded f name) t name with
  | inr e => inr e
  | inl true => inl t
  | inl false =>
      match SeedACL false (af_write f name) t name (normalizeCIDRs (aclConfigValue cfg name)) "" with
      | (t, inl _) => inl t
      | (_, inr e) => inr e
      end
  end.

Definition checkAdminWidening (current : list string) (adding : string) : option acl_refusal :=
  match ParseDenyList (current ++ [adding]) with
  | inr _ => Some AdminListUnparsed
  | inl after =>
      if LocalhostOnly after then None
      else match cl_tokens cli with
           | None => Some StoreFailed
           | Some n => if 0 <? n then None else Some AdminWidening
           end
  end.

Definition rfc1918 : list string := ["10.0.0.0/8"; "172.16.0.0/12"; "192.168.0.0/16"].

Definition admits_private (added : IPNet) : bool :=
  existsb (fun r => match ParseCIDR r with
                    | Some p => Net_Contains p (net_16 added) || Net_Contains added (net_16 p)
                    | None => false
                    end) rfc1918.

Definition warnProxyWidening (t : acl_tables) (adding : string) : bool + acl_error :=
  match ParseCIDR adding with
  | None => inl false
  | Some added =>
      if IsLoopback (net_16 added) then inl false
      else if negb (admits_private added) then inl false
      else match effectiveACL t ACLAdmin with
           | inr e => inr e
           | inl adminRaw =>
               match ParseDenyList adminRaw with
               | inl (n :: ns) => inl (LocalhostOnly (n :: ns))
               | _ => inl false
               end
           end
  end.

Definition checkAdminLockout (current : list string) (removing : string) : option acl_refusal :=
  if (0 <? length (List.filter (fun e => negb (e =? removing)%string) current))%nat then None else Some AdminLockout.

(** acl <list> add. *)
Definition acl_add (t : acl_tables) (name arg comment : string) (force : bool) : acl_tables * acl_outcome :=
  match normalizeCIDR arg with
  | None => (t, Refused BadCIDR)
  | Some cidr =>
      match effectiveACL t name with
      | inr _ => (t, Refused StoreFailed)
      | inl current =>
          if containsCIDR current cidr then (t, AlreadyIn)
          else
            match (if (name =? ACLAdmin)%string && negb force then checkAdminWidening current cidr else None) with
            | Some why => (t, Refused why)
            | None =>
                match (if (name =? ACLProxies)%string then warnProxyWidening t cidr else inl false) with
                | inr _ => (t, Refused StoreFailed)
                | inl warned =>
                    match ensureACLSeeded t name with
                    | inr _ => (t, Refused StoreFailed)
                    | inl t =>
                        match AddACL false (af_write f name) t (MkEntry name cidr comment (cl_actor cli)) with
                        | (t, inr _) => (t, Refused StoreFailed)
                        | (t, inl added) => (t, if added then Added warned else AlreadyIn)
                        end
                    end
                end
            end
      end
  end.

(** acl <list> remove, and remove --raw. *)
Definition acl_remove (t : acl_tables) (name arg : string) (raw force : bool) : acl_tables * acl_outcome :=
  match (if raw then Some arg else normalizeCIDR arg) with
  | None => (t, Refused BadCIDR)
  | Some cidr =>
      match effectiveACL t name with
      | inr _ => (t, Refused StoreFailed)
      | inl current =>
          if negb (containsCIDR current cidr) then (t, Refused NotInList)
          else
            match (if negb raw && (name =? ACLAdmin)%string && negb force then checkAdminLockout current cidr else None) with
            | Some why => (t, Refused why)
            | None =>
                match ensureACLSeeded t name with
                | inr _ => (t, Refused StoreFailed)
                | inl t =>
                    match RemoveACL false (af_write f name) t name cidr with
                    | (t, inr _) => (t, Refused StoreFailed)
                    | (t, inl _) => (t, Removed)
                    end
                end
            end
      end
  end.
End command.

(** A list with nothing failing, and a database that has seen nothing. *)
Definition no_faults : acl_faults := MkAclFaults (fun _ => false) (fun _ => false) (fun _ => false).
Definition no_tables : acl_tables := MkTables [] [].
Definition root_cli (cfg : acl_config) (tokens : Z) : acl_cli := MkAclCli cfg no_faults (Some tokens) "root".

Definition loopback_config : acl_config := MkAclConfig ["127.0.0.0/8"; "::1/128"] [] None.

Example acl_add_ex :
  map (fun a => (acl_add (root_cli loopback_config a.1.1) no_tables a.1.2 a.2 "" false).2)
    [(0, "admin", "10.0.0.1/8"); (1, "admin", "10.0.0.1/8"); (0, "admin", "127.1.0.0/16"); (0, "admin", "127.0.0.1/8");
     (0, "proxies", "10.1.0.0/16"); (0, "proxies", "203.0.113.7"); (0, "deny", "x")]
  = [Refused AdminWidening; Added false; Added false; AlreadyIn; Added true; Added false; Refused BadCIDR].
Proof. vm_compute. reflexivity. Qed.

(** * Lemmas *)

(** ** What an entry holds *)

(** The addresses an entry of a list stands for; one that does not parse stands
    for none. *)
Definition entry_holds (e : string) (ip : Z) : bool :=
  match ParseDenyList [e] with inl ns => existsb (fun n => Net_Contains n ip) ns | inr _ => false end.

Lemma ParseDenyList_one e :
  ParseDenyList [e] = if (TrimSpace e =? "")%string then inl []
                      else match deny_entry (TrimSpace e) with None => inr (TrimSpace e) | Some n => inl [n] end.
Proof. cbn [ParseDenyList]. destruct (_ =? "")%string; [done|]. by destruct (deny_entry _). Qed.

Lemma ParseDenyList_cons e es :
  ParseDenyList (e :: es) =
  match ParseDenyList [e] with
  | inr bad => inr bad
  | inl one => match ParseDenyList es with inl ns => inl (one ++ ns) | inr bad => inr bad end
  end.
Proof.
  rewrite ParseDenyList_one. cbn [ParseDenyList]. destruct (_ =? "")%string; [by destruct (ParseDenyList es)|].
  destruct (deny_entry _); [|done]. by destruct (ParseDenyList es).
Qed.

Lemma ParseDenyList_holds es ns ip :
  ParseDenyList es = inl ns -> existsb (fun n => Net_Contains n ip) ns = existsb (fun e => entry_holds e ip) es.
Proof.
  revert ns. induction es as [|e es IH]; intros ns; [by intros [= <-]|]. rewrite ParseDenyList_cons.
  cbn [existsb]. unfold entry_holds at 1. destruct (ParseDenyList [e]) as [one|]; [|done].
  destruct (ParseDenyList es) as [ns'|]; [|done]. intros [= <-]. by rewrite existsb_app, (IH ns').
Qed.

(** parseACLEntries keeps what parses, entry by entry. *)
Lemma parseACLEntries_spec es :
  parseACLEntries es =
  (flat_map (fun e => match ParseDenyList [e] with inl one => one | inr _ => [] end) es,
   List.filter (fun e => match ParseDenyList [e] with inl _ => false | inr _ => true end) es).
Proof.
  unfold parseACLEntries. enough (H : forall acc, foldl _ acc es = (acc.1 ++ _, acc.2 ++ _)) by apply (H ([], [])).
  induction es as [|e es IH]; intros [a b]; cbn [foldl flat_map List.filter]; [by rewrite !List.app_nil_r|].
  rewrite IH. destruct (ParseDenyList [e]); cbn [fst snd]; by rewrite <- !List.app_assoc.
Qed.

Lemma parseACLEntries_holds es ip :
  existsb (fun n => Net_Contains n ip) (parseACLEntries es).1 = existsb (fun e => entry_holds e ip) es.
Proof.
  rewrite parseACLEntries_spec. cbn [fst]. induction es as [|e es IH]; [done|]. cbn [flat_map existsb].
  rewrite existsb_app, IH. unfold entry_holds at 2. by destruct (ParseDenyList [e]).
Qed.

Lemma parseACLEntries_good es :
  (length (parseACLEntries es).2 =? 0)%nat = true <-> exists ns, ParseDenyList es = inl ns.
Proof.
  rewrite parseACLEntries_spec, Nat.eqb_eq. cbn [snd]. induction es as [|e es IH]; [by split; [exists []|]|].
  rewrite ParseDenyList_cons. cbn [List.filter]. destruct (ParseDenyList [e]) as [one|]; [|by split; [|intros [? [=]]]].
  rewrite IH. destruct (ParseDenyList es); split; try done; intros [? [=]]; by eexists.
Qed.

(** ** The canonical text *)

Lemma IPNet_String_printable n : net_parsed n -> all_bytes printable (IPNet_String n) = true.
Proof.
  intros Hn. assert (Hbits : forall b, 0 <= b <= 128 -> all_bytes printable ("/" +:+ pretty b) = true).
  { intros b Hb. apply (range_check 129 (fun b => all_bytes printable ("/" +:+ pretty b))); [vm_compute; reflexivity|lia]. }
  assert (Hoct : forall v k, all_bytes printable (pretty (v / 2 ^ k mod 256)) = true).
  { intros v k. apply (range_check 256 (fun b => all_bytes printable (pretty b))); [vm_compute; reflexivity|].
    apply Z.mod_pos_bound. lia. }
  unfold IPNet_String. destruct (net_narrow n) as [[v ones]|] eqn:E.
  - destruct (net_narrow_spec n v ones Hn E) as (_ & Ho & _). rewrite all_bytes_app, Hbits by lia.
    unfold quad_text. cbn [map Join]. rewrite !all_bytes_app, !Hoct. done.
  - destruct Hn as [[Ho _] _]. assert (Hw : net_wide n = true) by (unfold net_narrow in E; by destruct (net_wide n)).
    rewrite Hw in Ho. rewrite all_bytes_app, Hbits by lia. rewrite andb_true_r. apply string6_printable.
Qed.

Lemma IPNet_String_slash n : Contains (IPNet_String n) "/" = true.
Proof.
  unfold IPNet_String. destruct (net_narrow n) as [[v ones]|]; apply Contains_mid.
Qed.

(** A network's text is an entry of its own, of the same addresses. *)
Lemma text_entry n : net_parsed n -> ParseDenyList [IPNet_String n] = inl [net_canonical n].
Proof.
  intros Hn. rewrite ParseDenyList_one, TrimSpace_printable by by apply IPNet_String_printable.
  destruct (String.eqb_spec (IPNet_String n) "") as [E|_].
  { pose proof (IPNet_String_slash n) as H. by rewrite E in H. }
  unfold deny_entry. by rewrite IPNet_String_slash, ParseCIDR_text.
Qed.

Lemma deny_entry_parsed e n : deny_entry e = Some n -> net_parsed n.
Proof.
  unfold deny_entry. destruct (Contains e "/"); [apply ParseCIDR_parsed|]. destruct (ParseIP e); [|done]. apply ParseCIDR_parsed.
Qed.

Lemma normalizeCIDR_entry e t :
  normalizeCIDR e = Some t -> exists n, ParseDenyList [e] = inl [n] /\ net_parsed n /\ t = IPNet_String n.
Proof.
  unfold normalizeCIDR. rewrite ParseDenyList_one. destruct (_ =? "")%string; [done|].
  destruct (deny_entry _) as [n|] eqn:E; [|done]. intros [= <-]. exists n. by apply deny_entry_parsed in E.
Qed.

Lemma normalizeCIDR_holds e t ip : normalizeCIDR e = Some t -> entry_holds t ip = entry_holds e ip.
Proof.
  intros (n & Hn & Hp & ->)%normalizeCIDR_entry. unfold entry_holds. rewrite Hn, text_entry by done.
  cbn [existsb]. by rewrite canonical_contains.
Qed.

Lemma normalizeCIDRs_holds es ip : existsb (fun e => entry_holds e ip) (normalizeCIDRs es) = existsb (fun e => entry_holds e ip) es.
Proof.
  unfold normalizeCIDRs. induction es as [|e es IH]; [done|]. cbn [map existsb]. rewrite IH. f_equal.
  destruct (normalizeCIDR e) as [t|] eqn:E; cbn [default]; [|done]. by apply normalizeCIDR_holds.
Qed.

(** ** What is in force *)

Definition owned (t : acl_tables) (name : string) : bool := slice_contains (at_lists t) name.

(** The texts of a list, in any order. *)
Definition texts (t : acl_tables) (name : string) : list string :=
  map ae_CIDR (List.filter (fun e => (ae_List e =? name)%string) (at_entries t)).

Definition list_nets (set : aclSet) (name : string) : list IPNet :=
  if (name =? ACLAdmin)%string then as_admin set
  else if (name =? ACLDeny)%string then as_deny set
  else if (name =? ACLProxies)%string then as_trusted set
  else [].

(** Whether a list holds an address. *)
Definition in_force (set : aclSet) (name : string) (ip : Z) : bool :=
  existsb (fun n => Net_Contains n ip) (list_nets set name).

Definition live (cfg : acl_config) (t : acl_tables) : aclSet := resolveACLs true no_faults cfg t.

Lemma ACLLists_cases name : name ∈ ACLLists -> name = ACLAdmin \/ name = ACLDeny \/ name = ACLProxies.
Proof. unfold ACLLists. rewrite !elem_of_cons, elem_of_nil. naive_solver. Qed.

Lemma ACLLists_valid name : name ∈ ACLLists -> ValidACLList name = true.
Proof. by intros [-> |[-> | ->]]%ACLLists_cases. Qed.

Lemma ACLSeeded_ok t name : name ∈ ACLLists -> ACLSeeded false t name = inl (owned t name).
Proof. intros Hn%ACLLists_valid. unfold ACLSeeded. by rewrite Hn. Qed.

Lemma ACLCIDRs_ok t name :
  name ∈ ACLLists -> exists cidrs, ACLCIDRs false t name = inl cidrs /\ cidrs ≡ₚ texts t name.
Proof.
  intros Hn%ACLLists_valid. unfold ACLCIDRs, ListACL. rewrite Hn. cbn [negb]. eexists. split; [done|].
  apply Permutation_map, SliceStable_perm.
Qed.

Lemma with_list_nets name ns set other :
  name ∈ ACLLists -> list_nets (with_list name ns set) other = if (other =? name)%string then ns else list_nets set other.
Proof.
  intros Hn. unfold with_list, list_nets.
  assert (Ha : ACLAdmin <> ACLDeny) by done. assert (Hb : ACLAdmin <> ACLProxies) by done. assert (Hc : ACLDeny <> ACLProxies) by done.
  apply ACLLists_cases in Hn as [-> |[-> | ->]]; rewrite ?String.eqb_refl;
    repeat match goal with |- context [(?a =? ?b)%string] => destruct (String.eqb_spec a b) end; try done; congruence.
Qed.

Lemma resolve_list_nets t set name other :
  name ∈ ACLLists ->
  list_nets (resolve_list no_faults t set name) other =
  if (other =? name)%string && owned t name
  then (parseACLEntries (match ACLCIDRs false t name with inl cidrs => cidrs | inr _ => [] end)).1
  else list_nets set other.
Proof.
  intros Hn. unfold resolve_list. cbn [no_faults af_seeded af_cidrs]. rewrite ACLSeeded_ok by done.
  destruct (owned t name); [|by rewrite andb_false_r]. destruct (ACLCIDRs_ok t name Hn) as (cidrs & -> & _).
  rewrite with_list_nets by done. by rewrite andb_true_r.
Qed.

(** A list is its rows once the database owns it, and the file's until then. *)
Lemma live_nets cfg t name :
  name ∈ ACLLists ->
  list_nets (live cfg t) name =
  if owned t name then (parseACLEntries (match ACLCIDRs false t name with inl cidrs => cidrs | inr _ => [] end)).1
  else list_nets (config_set cfg) name.
Proof.
  intros Hn. unfold live, resolveACLs, ACLLists. cbn [negb foldl].
  rewrite !resolve_list_nets by (unfold ACLLists; rewrite !elem_of_cons; tauto).
  apply ACLLists_cases in Hn as [-> |[-> | ->]];
    change (ACLAdmin =? ACLProxies)%string with false; change (ACLAdmin =? ACLDeny)%string with false;
    change (ACLDeny =? ACLProxies)%string with false; change (ACLDeny =? ACLAdmin)%string with false;
    change (ACLProxies =? ACLAdmin)%string with false; change (ACLProxies =? ACLDeny)%string with false;
    rewrite ?String.eqb_refl; cbn [andb]; by destruct (owned t _).
Qed.

Lemma live_owned cfg t name ip :
  name ∈ ACLLists -> owned t name = true -> in_force (live cfg t) name ip = existsb (fun e => entry_holds e ip) (texts t name).
Proof.
  intros Hn Ho. unfold in_force. rewrite live_nets, Ho by done. destruct (ACLCIDRs_ok t name Hn) as (cidrs & -> & Hp).
  rewrite parseACLEntries_holds. by apply existsb_perm.
Qed.

(** The file's value of a list parses. *)
Definition config_parses (cfg : acl_config) (name : string) : Prop :=
  exists ns, ParseDenyList (aclConfigValue cfg name) = inl ns.

Lemma config_in_force cfg name ip :
  name ∈ ACLLists -> config_parses cfg name ->
  in_force (config_set cfg) name ip = existsb (fun e => entry_holds e ip) (aclConfigValue cfg name).
Proof.
  intros Hn (ns & Hns). rewrite <- (ParseDenyList_holds _ _ ip Hns). unfold in_force. revert Hns.
  unfold config_set, aclConfigValue, list_nets. apply ACLLists_cases in Hn as [-> |[-> | ->]].
  - change (ACLAdmin =? ACLAdmin)%string with true. intros Hns. unfold parseAdminPermitCIDR.
    destruct (cf_proxies cfg) as [es|]; [destruct (ParseDenyList es)|]; cbn [as_admin];
      (destruct (cf_admin cfg) as [|e es']; [by injection Hns as <-|]; rewrite Hns; by destruct ns).
  - change (ACLDeny =? ACLAdmin)%string with false. change (ACLDeny =? ACLDeny)%string with true. intros Hns. rewrite Hns.
    destruct (cf_proxies cfg) as [es|]; [destruct (ParseDenyList es)|]; done.
  - change (ACLProxies =? ACLAdmin)%string with false. change (ACLProxies =? ACLDeny)%string with false.
    change (ACLProxies =? ACLProxies)%string with true. intros Hns. destruct (cf_proxies cfg) as [es|]; cbn [default] in Hns.
    + change (id es) with es in Hns. by rewrite Hns.
    + by injection Hns as <-.
Qed.

Lemma live_unowned cfg t name ip :
  name ∈ ACLLists -> owned t name = false -> config_parses cfg name ->
  in_force (live cfg t) name ip = existsb (fun e => entry_holds e ip) (aclConfigValue cfg name).
Proof. intros Hn Ho Hc. unfold in_force. rewrite live_nets, Ho by done. by apply config_in_force. Qed.

Lemma with_list_set name ns set : name ∈ ACLLists -> as_trustedSet (with_list name ns set) = (name =? ACLProxies)%string || as_trustedSet set.
Proof. by intros [-> |[-> | ->]]%ACLLists_cases. Qed.

Lemma live_trustedSet cfg t : as_trustedSet (live cfg t) = owned t ACLProxies || as_trustedSet (config_set cfg).
Proof.
  assert (H : forall set name, name ∈ ACLLists ->
            as_trustedSet (resolve_list no_faults t set name) = owned t name && (name =? ACLProxies)%string || as_trustedSet set).
  { intros set name Hn. unfold resolve_list. cbn [no_faults af_seeded af_cidrs]. rewrite ACLSeeded_ok by done.
    destruct (owned t name); cbn [andb]; [|done]. destruct (ACLCIDRs_ok t name Hn) as (cidrs & -> & _). by apply with_list_set. }
  unfold live, resolveACLs, ACLLists. cbn [negb foldl]. rewrite !H by (unfold ACLLists; rewrite !elem_of_cons; tauto).
  change (ACLAdmin =? ACLProxies)%string with false. change (ACLDeny =? ACLProxies)%string with false.
  change (ACLProxies =? ACLProxies)%string with true. by rewrite !andb_false_r, andb_true_r.
Qed.

(** ** The tables *)

(** Every row belongs to a list the database owns. *)
Definition tables_ok (t : acl_tables) : Prop := Forall (fun e => owned t (ae_List e) = true) (at_entries t).

Inductive acl_step : acl_tables -> acl_tables -> Prop :=
| step_start db f readOnly cfg actor t : acl_step t (seedACLs db f readOnly cfg actor t)
| step_acl_add cli t name arg comment force : name ∈ ACLLists -> acl_step t (acl_add cli t name arg comment force).1
| step_acl_remove cli t name arg raw force : name ∈ ACLLists -> acl_step t (acl_remove cli t name arg raw force).1.

Lemma slice_contains_app l l' s : slice_contains (l ++ l') s = slice_contains l s || slice_contains l' s.
Proof. unfold slice_contains. apply existsb_app. Qed.

Definition texts_of (rows : list ACLEntry) (name : string) : list string :=
  map ae_CIDR (List.filter (fun e => (ae_List e =? name)%string) rows).

Section holds.
Context (h : string -> bool).

Lemma insert_ignore_holds rows e name :
  existsb h (texts_of (insert_ignore rows e) name)
  = existsb h (texts_of rows name) || ((ae_List e =? name)%string && h (ae_CIDR e)).
Proof.
  unfold insert_ignore. destruct (existsb _ rows) eqn:E.
  - apply existsb_exists in E as (x & Hx & [Hl%String.eqb_eq Hc%String.eqb_eq]%andb_true_iff).
    destruct (ae_List e =? name)%string eqn:En; cbn [andb]; [|by rewrite orb_false_r].
    destruct (h (ae_CIDR e)) eqn:Eh; [|by rewrite orb_false_r]. rewrite orb_true_r. apply existsb_exists.
    exists (ae_CIDR e). split; [|done]. unfold texts_of. apply in_map_iff. exists x. split; [done|].
    apply filter_In. split; [done|]. by rewrite Hl.
  - unfold texts_of. rewrite List.filter_app, map_app, existsb_app. cbn [List.filter]. f_equal.
    destruct (ae_List e =? name)%string; cbn [map existsb andb]; [by rewrite orb_false_r|done].
Qed.

Lemma insert_ignore_lists (P : string -> Prop) rows e :
  Forall (fun e => P (ae_List e)) rows -> P (ae_List e) -> Forall (fun e => P (ae_List e)) (insert_ignore rows e).
Proof. intros Hr He. unfold insert_ignore. destruct (existsb _ _); [done|]. apply Forall_app. split; [done|]. by constructor. Qed.

Lemma seed_rows_holds entries name actor other : forall rows,
  existsb h (texts_of (foldl (fun rows cidr => insert_ignore rows (MkEntry name cidr "" actor)) rows entries) other)
  = existsb h (texts_of rows other) || ((name =? other)%string && existsb h entries).
Proof.
  induction entries as [|e entries IH]; intros rows; cbn [foldl existsb]; [by rewrite andb_false_r, orb_false_r|].
  rewrite IH, insert_ignore_holds. cbn [ae_List ae_CIDR]. rewrite <- orb_assoc. f_equal. by destruct (name =? other)%string.
Qed.

Lemma seed_rows_lists (P : string -> Prop) entries name actor : P name -> forall rows,
  Forall (fun e => P (ae_List e)) rows ->
  Forall (fun e => P (ae_List e)) (foldl (fun rows cidr => insert_ignore rows (MkEntry name cidr "" actor)) rows entries).
Proof. intros Hn. induction entries as [|e entries IH]; intros rows Hr; [done|]. apply IH. by apply insert_ignore_lists. Qed.

(** A list the database does not own has no row. *)
Lemma unowned_no_texts t name : tables_ok t -> owned t name = false -> texts t name = [].
Proof.
  unfold tables_ok, texts. intros Hok Ho. rewrite Forall_forall in Hok.
  destruct (List.filter _ (at_entries t)) as [|e l] eqn:E; [done|].
  assert (Hin : In e (e :: l)) by by left. rewrite <- E, filter_In, String.eqb_eq in Hin. destruct Hin as [Hin Hl].
  apply list_elem_of_In in Hin. specialize (Hok e Hin). cbn beta in Hok. congruence.
Qed.

(** What a copy into the database leaves: the file's entries, and the other lists
    as they were. *)
Lemma SeedACL_effect readOnly fails t name entries actor t' :
  tables_ok t -> owned t name = false -> SeedACL readOnly fails t name entries actor = (t', inl true) ->
  tables_ok t' /\ (forall other, owned t' other = owned t other || (other =? name)%string)
  /\ (forall other, existsb h (texts t' other) = if (other =? name)%string then existsb h entries else existsb h (texts t other)).
Proof.
  intros Hok Ho. unfold SeedACL. destruct (negb _); [done|]. destruct readOnly; [done|]. destruct fails; [done|].
  unfold owned in Ho. rewrite Ho. intros [= <-].
  assert (Hown : forall other, owned (MkTables (at_lists t ++ [name]) (foldl (fun rows cidr => insert_ignore rows (MkEntry name cidr "" actor))
                   (at_entries t) entries)) other = owned t other || (other =? name)%string).
  { intros other. unfold owned. cbn [at_lists]. rewrite slice_contains_app. f_equal. unfold slice_contains. cbn [existsb].
    by rewrite orb_false_r, String.eqb_sym. }
  split; [|split; [exact Hown|]].
  - unfold tables_ok. cbn [at_entries]. apply (seed_rows_lists (fun l => owned _ l = true)).
    + by rewrite Hown, String.eqb_refl, orb_true_r.
    + eapply Forall_impl; [exact Hok|]. intros e He. cbn beta in *. by rewrite Hown, He.
  - intros other. unfold texts at 1. cbn [at_entries]. fold (texts_of (foldl (fun rows cidr => insert_ignore rows
      (MkEntry name cidr "" actor)) (at_entries t) entries) other). rewrite seed_rows_holds.
    change (texts_of (at_entries t) other) with (texts t other). rewrite (String.eqb_sym name).
    destruct (String.eqb_spec other name) as [->|]; cbn [andb]; [|by rewrite orb_false_r].
    by rewrite unowned_no_texts.
Qed.
End holds.

(** ** The commands *)

Lemma ACLSeeded_inl fails t name b : name ∈ ACLLists -> ACLSeeded fails t name = inl b -> owned t name = b.
Proof. intros Hn%ACLLists_valid. unfold ACLSeeded. rewrite Hn. destruct fails; [done|]. by intros [= <-]. Qed.

(** The list a command reads is the list in force. *)
Lemma effectiveACL_holds cli t name current ip :
  name ∈ ACLLists -> config_parses (cl_cfg cli) name -> effectiveACL cli t name = inl current ->
  existsb (fun e => entry_holds e ip) current = in_force (live (cl_cfg cli) t) name ip.
Proof.
  intros Hn Hc. unfold effectiveACL. destruct (ACLSeeded _ t name) as [[|]|] eqn:Es; [| |done];
    apply ACLSeeded_inl in Es; try done.
  - unfold ACLCIDRs, ListACL. rewrite (ACLLists_valid name) by done. destruct (af_cidrs _ _); [done|]. cbn [negb].
    intros [= <-]. rewrite live_owned by done. apply existsb_perm. apply Permutation_map, SliceStable_perm.
  - intros [= <-]. rewrite normalizeCIDRs_holds. symmetry. by apply live_unowned.
Qed.

(** Claiming a list changes nothing in force, and leaves its rows the list read. *)
Lemma ensureACLSeeded_effect cli t name t' current (h : string -> bool) :
  tables_ok t -> name ∈ ACLLists -> effectiveACL cli t name = inl current -> ensureACLSeeded cli t name = inl t' ->
  tables_ok t' /\ owned t' name = true
  /\ (forall other, other <> name -> owned t' other = owned t other)
  /\ (forall other, existsb h (texts t' other) = if (other =? name)%string then existsb h current else existsb h (texts t other)).
Proof.
  intros Hok Hn. unfold effectiveACL, ensureACLSeeded.
  destruct (ACLSeeded _ t name) as [[|]|] eqn:Es; [| |done]; apply ACLSeeded_inl in Es; try done.
  - intros Hcur [= <-]. split_and!; try done. intros other. destruct (String.eqb_spec other name) as [->|]; [|done].
    revert Hcur. unfold ACLCIDRs, ListACL. rewrite (ACLLists_valid name) by done. destruct (af_cidrs _ _); [done|]. cbn [negb].
    intros [= <-]. apply existsb_perm. symmetry. apply Permutation_map, SliceStable_perm.
  - intros [= <-]. destruct (SeedACL _ _ _ _ _ _) as [t2 [b|]] eqn:E; [|done]. intros [= <-].
    assert (b = true) as ->.
    { revert E. unfold SeedACL. rewrite (ACLLists_valid name) by done. cbn [negb]. destruct (af_write _ _); [done|].
      unfold owned in Es. rewrite Es. by intros [= _ <-]. }
    destruct (SeedACL_effect h _ _ _ _ _ _ _ Hok Es E) as (H1 & H2 & H3). split_and!; try done.
    + by rewrite H2, String.eqb_refl, orb_true_r.
    + intros other Hne%String.eqb_neq. by rewrite H2, Hne, orb_false_r.
Qed.

(** What a change of one list's rows leaves in force. *)
Lemma live_after cfg t t' name :
  (forall other, other <> name -> owned t' other = owned t other) ->
  (forall h other, other <> name -> existsb h (texts t' other) = existsb h (texts t other)) ->
  forall other ip, other ∈ ACLLists -> other <> name -> in_force (live cfg t') other ip = in_force (live cfg t) other ip.
Proof.
  intros Ho Ht other ip Hin Hne. destruct (owned t other) eqn:E.
  - rewrite !live_owned by (done || by rewrite Ho). by apply Ht.
  - unfold in_force. rewrite !live_nets by done. by rewrite Ho, E by done.
Qed.

Definition added (t : acl_tables) (e : ACLEntry) : acl_tables := MkTables (at_lists t) (insert_ignore (at_entries t) e).

Lemma AddACL_effect fails t e t' b :
  AddACL false fails t e = (t', b) -> (t' = t /\ exists err, b = inr err) \/ t' = added t e.
Proof.
  unfold AddACL. destruct (negb _); [intros [= <- <-]; left; split; [done|by eexists]|].
  destruct fails; [intros [= <- <-]; left; split; [done|by eexists]|]. intros [= <- _]. by right.
Qed.

Lemma acl_add_inv cli t name arg comment force t' o :
  acl_add cli t name arg comment force = (t', o) ->
  (t' = t /\ ((exists why, o = Refused why) \/ o = AlreadyIn))
  \/ exists cidr current t1 fails b, normalizeCIDR arg = Some cidr /\ effectiveACL cli t name = inl current
       /\ ensureACLSeeded cli t name = inl t1
       /\ AddACL false fails t1 (MkEntry name cidr comment (cl_actor cli)) = (t', b)
       /\ (forall w, o = Added w -> b = inl true).
Proof.
  unfold acl_add. destruct (normalizeCIDR arg) as [cidr|]; [|intros [= <- <-]; left; split; [done|left; by eexists]].
  destruct (effectiveACL cli t name) as [current|]; [|intros [= <- <-]; left; split; [done|left; by eexists]].
  destruct (containsCIDR current cidr); [intros [= <- <-]; left; split; [done|by right]|].
  destruct (if (name =? ACLAdmin)%string && negb force then _ else _); [intros [= <- <-]; left; split; [done|left; by eexists]|].
  destruct (if (name =? ACLProxies)%string then _ else _); [|intros [= <- <-]; left; split; [done|left; by eexists]].
  destruct (ensureACLSeeded cli t name) as [t1|]; [|intros [= <- <-]; left; split; [done|left; by eexists]].
  destruct (AddACL _ _ t1 _) as [t2 b2] eqn:E. intros H. right. exists cidr, current, t1, (af_write (cl_faults cli) name), b2.
  split_and!; try done; destruct b2 as [[|]|]; injection H as <- <-; done.
Qed.

Lemma acl_remove_inv cli t name arg raw force t' o :
  acl_remove cli t name arg raw force = (t', o) ->
  (t' = t /\ exists why, o = Refused why)
  \/ exists cidr current t1 fails b, (if raw then Some arg else normalizeCIDR arg) = Some cidr
       /\ effectiveACL cli t name = inl current /\ containsCIDR current cidr = true
       /\ (raw = false -> name = ACLAdmin -> force = false -> checkAdminLockout current cidr = None)
       /\ ensureACLSeeded cli t name = inl t1 /\ RemoveACL false fails t1 name cidr = (t', b)
       /\ (o = Removed -> exists b', b = inl b').
Proof.
  unfold acl_remove. destruct (if raw then _ else _) as [cidr|]; [|intros [= <- <-]; left; split; [done|by eexists]].
  destruct (effectiveACL cli t name) as [current|]; [|intros [= <- <-]; left; split; [done|by eexists]].
  destruct (containsCIDR current cidr) eqn:Ec; cbn [negb]; [|intros [= <- <-]; left; split; [done|by eexists]].
  destruct (if negb raw && (name =? ACLAdmin)%string && negb force then _ else _) eqn:El;
    [intros [= <- <-]; left; split; [done|by eexists]|].
  destruct (ensureACLSeeded cli t name) as [t1|]; [|intros [= <- <-]; left; split; [done|by eexists]].
  destruct (RemoveACL _ _ t1 _ _) as [t2 b2] eqn:E. intros H. right.
  exists cidr, current, t1, (af_write (cl_faults cli) name), b2. split_and!; try done.
  - intros -> -> ->. exact El.
  - destruct b2; injection H as <- <-; done.
  - destruct b2; injection H as <- <-; [by eexists|done].
Qed.

Definition removed (t : acl_tables) (name cidr : string) : acl_tables :=
  MkTables (at_lists t) (List.filter (fun e => negb (same_entry name cidr e)) (at_entries t)).

Lemma RemoveACL_effect fails t name cidr t' b :
  RemoveACL false fails t name cidr = (t', b) -> (t' = t /\ exists e, b = inr e) \/ t' = removed t name cidr.
Proof.
  unfold RemoveACL. destruct (negb _); [intros [= <- <-]; left; split; [done|by eexists]|].
  destruct fails; [intros [= <- <-]; left; split; [done|by eexists]|]. intros [= <- _]. by right.
Qed.

Lemma removed_holds (h : string -> bool) rows name cidr other :
  existsb h (texts_of (List.filter (fun e => negb (same_entry name cidr e)) rows) other)
  = existsb (fun e => h e && negb ((other =? name)%string && (e =? cidr)%string)) (texts_of rows other).
Proof.
  unfold texts_of. induction rows as [|e rows IH]; [done|]. cbn [List.filter].
  destruct (ae_List e =? other)%string eqn:El.
  - apply String.eqb_eq in El. subst other. cbn [map existsb]. rewrite <- IH. unfold same_entry at 1 3.
    destruct ((ae_List e =? name)%string && (ae_CIDR e =? cidr)%string); cbn [negb]; [by rewrite andb_false_r|].
    cbn [List.filter]. rewrite String.eqb_refl. cbn [map existsb]. by rewrite andb_true_r.
  - destruct (negb (same_entry name cidr e)); [|exact IH]. cbn [List.filter]. by rewrite El.
Qed.

Lemma seed_list_effect f readOnly cfg actor t name (h : string -> bool) :
  tables_ok t -> name ∈ ACLLists ->
  let t' := seed_list f readOnly cfg actor t name in
  t' = t
  \/ (exists ns, ParseDenyList (aclConfigValue cfg name) = inl ns) /\ owned t name = false /\ tables_ok t'
     /\ (name = ACLProxies -> exists es, cf_proxies cfg = Some es)
     /\ (forall other, owned t' other = owned t other || (other =? name)%string)
     /\ (forall other, existsb h (texts t' other)
           = if (other =? name)%string then existsb h (aclConfigValue cfg name) else existsb h (texts t other)).
Proof.
  intros Hok Hn t'. subst t'. unfold seed_list. destruct (ACLSeeded _ t name) as [[|]|] eqn:Es; [by left| |by left].
  apply ACLSeeded_inl in Es; [|done]. destruct (seed_entries cfg name) as [entries|] eqn:Ee; [|by left].
  destruct (_ =? 0)%nat eqn:Eb; cbn [negb]; [|by left]. apply parseACLEntries_good in Eb.
  assert (Hv : aclConfigValue cfg name = entries /\ (name = ACLProxies -> exists es, cf_proxies cfg = Some es)).
  { revert Ee. unfold seed_entries, aclConfigValue. apply ACLLists_cases in Hn as [-> |[-> | ->]].
    - change (ACLAdmin =? ACLAdmin)%string with true. by destruct (cf_admin cfg); [|intros [= <-]].
    - change (ACLDeny =? ACLAdmin)%string with false. change (ACLDeny =? ACLDeny)%string with true.
      by destruct (cf_deny cfg); [|intros [= <-]].
    - change (ACLProxies =? ACLAdmin)%string with false. change (ACLProxies =? ACLDeny)%string with false.
      change (ACLProxies =? ACLProxies)%string with true. intros Hp. rewrite Hp. split; [done|]. intros _. by eexists. }
  destruct Hv as [Hv Hp]. destruct (SeedACL _ _ _ _ _ _) as [t2 b] eqn:E. cbn [fst].
  assert (t2 = t \/ b = inl true) as [->| ->]; [|by left|right].
  { revert E. unfold SeedACL. destruct (negb _); [intros [= <- _]; by left|]. destruct readOnly; [intros [= <- _]; by left|].
    destruct (af_write _ _); [intros [= <- _]; by left|]. destruct (slice_contains _ _); [intros [= <- _]; by left|].
    intros [= _ <-]. by right. }
  destruct (SeedACL_effect h _ _ _ _ _ _ _ Hok Es E) as (H1 & H2 & H3). rewrite Hv. by split_and!.
Qed.

Lemma added_ok t e : tables_ok t -> owned t (ae_List e) = true -> tables_ok (added t e).
Proof. intros Hok Ho. unfold tables_ok, added. cbn [at_entries]. by apply (insert_ignore_lists (fun l => owned t l = true)). Qed.

Lemma removed_ok t name cidr : tables_ok t -> tables_ok (removed t name cidr).
Proof.
  unfold tables_ok, removed. cbn [at_entries]. rewrite !Forall_forall. intros H e He.
  rewrite list_elem_of_In, filter_In in He. apply H. apply list_elem_of_In. by destruct He.
Qed.

(** A list once owned stays owned, and every row stays in a list the database
    owns.  The commands name one of the three lists. *)
Lemma acl_step_ok t t' :
  acl_step t t' -> tables_ok t -> tables_ok t' /\ forall name, owned t name = true -> owned t' name = true.
Proof.
  intros Hs Hok. destruct Hs as [db f readOnly cfg actor t|cli t name arg comment force Hn|cli t name arg raw force Hn].
  - unfold seedACLs. destruct db; cbn [negb]; [|done].
    assert (H : forall names, Forall (fun n => n ∈ ACLLists) names -> forall t, tables_ok t ->
              tables_ok (foldl (seed_list f readOnly cfg actor) t names)
              /\ forall name, owned t name = true -> owned (foldl (seed_list f readOnly cfg actor) t names) name = true).
    { clear. induction names as [|n names IH]; intros Hns t Hok; [done|]. apply Forall_cons in Hns as [Hn Hns]. cbn [foldl].
      destruct (seed_list_effect f readOnly cfg actor t n (fun _ => true) Hok Hn) as [-> |(_ & _ & Hok' & _ & Ho & _)]; [by apply IH|].
      destruct (IH Hns _ Hok') as [H1 H2]. split; [done|]. intros name Hname. apply H2. by rewrite Ho, Hname. }
    apply H; [|done]. by apply Forall_forall.
  - destruct (acl_add cli t name arg comment force) as [t' o] eqn:E. cbn [fst].
    apply acl_add_inv in E as [(-> & _)|(cidr & current & t1 & fails & b & _ & Hcur & He & Ha & _)]; [done|].
    destruct (ensureACLSeeded_effect cli t name t1 current (fun _ => true) Hok Hn Hcur He) as (Hok1 & Ho1 & Ho & _).
    assert (Hkeep : forall other, owned t other = true -> owned t1 other = true).
    { intros other H. destruct (decide (other = name)) as [->|Hne]; [done|by rewrite Ho]. }
    apply AddACL_effect in Ha as [(-> & _)| ->]; [done|]. split; [by apply added_ok|exact Hkeep].
  - destruct (acl_remove cli t name arg raw force) as [t' o] eqn:E. cbn [fst].
    apply acl_remove_inv in E as [(-> & _)|(cidr & current & t1 & fails & b & _ & Hcur & _ & _ & He & Hr & _)]; [done|].
    destruct (ensureACLSeeded_effect cli t name t1 current (fun _ => true) Hok Hn Hcur He) as (Hok1 & Ho1 & Ho & _).
    assert (Hkeep : forall other, owned t other = true -> owned t1 other = true).
    { intros other H. destruct (decide (other = name)) as [->|Hne]; [done|by rewrite Ho]. }
    apply RemoveACL_effect in Hr as [(-> & _)| ->]; [done|]. split; [by apply removed_ok|exact Hkeep].
Qed.

Lemma acl_steps_ok t t' :
  rtc acl_step t t' -> tables_ok t -> tables_ok t' /\ forall name, owned t name = true -> owned t' name = true.
Proof.
  induction 1 as [|a b c Hs _ IH]; [done|]. intros Ha. destruct (acl_step_ok _ _ Hs Ha) as [Hb H1].
  destruct (IH Hb) as [Hc H2]. split; [done|]. intros name Hn. by apply H2, H1.
Qed.

Lemma reachable_tables_ok t : rtc acl_step no_tables t -> tables_ok t.
Proof. intros H. apply (acl_steps_ok _ _ H). constructor. Qed.

(** A network holds its own number. *)
Lemma net_self n : net_parsed n -> Net_Contains n (net_16 n) = true.
Proof.
  intros [_ Hr]. unfold Net_Contains, net_narrow, net_16. destruct (net_wide n).
  - destruct (To4 (net_IP n)) as [v|]; cbn [fmap option_fmap option_map]; apply Z.eqb_refl.
  - rewrite To4_mapped by done. apply Z.eqb_refl.
Qed.

Lemma entry_permits_some e n : ParseDenyList [e] = inl [n] -> exists ip, entry_holds e ip = true.
Proof.
  intros H. exists (net_16 n). unfold entry_holds. rewrite H. cbn [existsb]. rewrite net_self; [done|].
  rewrite ParseDenyList_one in H. destruct (_ =? "")%string; [done|]. destruct (deny_entry _) as [n'|] eqn:E; [|done].
  injection H as <-. by apply (deny_entry_parsed _ _ E).
Qed.

(** The lockout check counts the entries left, readable or not: with an entry the
    parser cannot read beside it, the last readable admin network is removed
    without force, and nobody is permitted. *)
Definition misspelt_config : acl_config := MkAclConfig ["10.0.0.0/833"; "127.0.0.0/8"] [] None.

Lemma unreadable_entry_unlocks :
  let r := acl_remove (root_cli misspelt_config 0) no_tables ACLAdmin "127.0.0.0/8" false false in
  r.2 = Removed /\ as_admin (live misspelt_config r.1) = [].
Proof. intros r. split; vm_compute; reflexivity. Qed.

(** * Theorems *)

(** Adding to a list.  When the command reports the network added, what is in
    force from then on, whatever the config file comes to say, is what was in
    force before and the network, and no more: claiming the list for the database
    keeps what the file gave.  The other lists stay as they are.  A proxies list
    is from then on the operator's answer, not the built-in default. *)
Theorem acl_add_takes_effect cli t name arg comment force t' warned :
  rtc acl_step no_tables t -> name ∈ ACLLists -> config_parses (cl_cfg cli) name ->
  acl_add cli t name arg comment force = (t', Added warned) ->
  exists n, ParseDenyList [arg] = inl [n] /\
    (forall cfg ip, in_force (live cfg t') name ip = in_force (live (cl_cfg cli) t) name ip || Net_Contains n ip)
    /\ (forall cfg other ip, other ∈ ACLLists -> other <> name -> in_force (live cfg t') other ip = in_force (live cfg t) other ip)
    /\ (name = ACLProxies -> forall cfg, trustedNetsFunc (live cfg t') = Some (as_trusted (live cfg t'))).
Proof.
  intros Hr Hn Hc E. apply reachable_tables_ok in Hr as Hok.
  apply acl_add_inv in E as [(_ & [[why [=]]|[=]])|(cidr & current & t1 & fails & b & Hcidr & Hcur & He & Ha & Hb)].
  specialize (Hb _ eq_refl) as ->. apply AddACL_effect in Ha as [(_ & err & [=])| ->].
  destruct (ensureACLSeeded_effect cli t name t1 current (fun _ => true) Hok Hn Hcur He) as (_ & Ho1 & Ho & _).
  apply normalizeCIDR_entry in Hcidr as Hn'. destruct Hn' as (n & Hparse & Hp & _). exists n. split; [done|].
  assert (Htexts : forall h other, existsb h (texts (added t1 (MkEntry name cidr comment (cl_actor cli))) other)
            = (if (other =? name)%string then existsb h current else existsb h (texts t other)) || ((name =? other)%string && h cidr)).
  { intros h other. destruct (ensureACLSeeded_effect cli t name t1 current h Hok Hn Hcur He) as (_ & _ & _ & Ht).
    rewrite <- Ht. apply insert_ignore_holds. }
  split; [|split].
  - intros cfg ip. rewrite live_owned, Htexts, !String.eqb_refl by done. cbn [andb].
    rewrite (effectiveACL_holds cli t name current ip) by done. f_equal.
    rewrite (normalizeCIDR_holds arg cidr ip) by done. unfold entry_holds. rewrite Hparse. cbn [existsb]. by rewrite orb_false_r.
  - intros cfg. apply live_after; [exact Ho|]. intros h other Hne%String.eqb_neq.
    rewrite Htexts, Hne, (String.eqb_sym name), Hne. by rewrite orb_false_r.
  - intros -> cfg. unfold trustedNetsFunc. rewrite live_trustedSet. change (owned (added t1 _) ACLProxies) with (owned t1 ACLProxies).
    by rewrite Ho1.
Qed.

Definition tokens_cli : acl_cli := root_cli loopback_config 1.

Lemma acl_add_takes_effect_witness :
  let t := (acl_add tokens_cli no_tables "admin" "10.9.0.0/16" "" false).1 in
  in_force (live (MkAclConfig [] [] None) t) "admin" (65535 * 2 ^ 32 + 2130706433) = true.
Proof.
  intros t. destruct (acl_add_takes_effect tokens_cli no_tables "admin" "10.9.0.0/16" "" false t false) as (n & _ & H & _).
  - apply rtc_refl.
  - left.
  - eexists. vm_compute. reflexivity.
  - vm_compute. reflexivity.
  - rewrite H. vm_compute. reflexivity.
Defined.

(** The server copies the entries as the file spells them. *)
Definition bare_config : acl_config := MkAclConfig ["127.0.0.0/8"; "10.9.0.4"] [] None.
Definition bare_cli : acl_cli := root_cli bare_config 1.
Definition bare_tables : acl_tables := seedACLs true no_faults false bare_config "root" no_tables.
Definition bare_added : acl_tables := (acl_add bare_cli bare_tables ACLAdmin "10.9.0.4" "" false).1.
Definition ip_10_9_0_4 : Z := 65535 * 2 ^ 32 + 168361988.

Lemma bare_spelling :
  (acl_remove bare_cli bare_tables ACLAdmin "10.9.0.4" false false).2 = Refused NotInList
  /\ (acl_remove bare_cli bare_added ACLAdmin "10.9.0.4" false false).2 = Removed
  /\ in_force (live bare_config (acl_remove bare_cli bare_added ACLAdmin "10.9.0.4" false false).1) ACLAdmin ip_10_9_0_4 = true.
Proof. split; [vm_compute; reflexivity|]. split; vm_compute; reflexivity. Qed.

(** Removing from a list.  When the command reports an entry removed, what is
    in force is what the other entries hold, whatever the config file says; the
    other lists stay.  Without force, a removal from an admin list whose entries
    all parse leaves one that permits somebody.  The entry is matched by its
    canonical text, and the server copies the file's own spelling: a bare address
    copied at a start is not found by its own name, and after it is added and
    reported removed it is still permitted. *)
Theorem acl_remove_takes_effect cli t name arg raw force t' :
  rtc acl_step no_tables t -> name ∈ ACLLists -> acl_remove cli t name arg raw force = (t', Removed) ->
  (exists cidr current, (if raw then Some arg else normalizeCIDR arg) = Some cidr /\ effectiveACL cli t name = inl current
    /\ cidr ∈ current
    /\ (forall cfg ip, in_force (live cfg t') name ip = existsb (fun e => entry_holds e ip && negb (e =? cidr)%string) current)
    /\ (forall cfg other ip, other ∈ ACLLists -> other <> name -> in_force (live cfg t') other ip = in_force (live cfg t) other ip)
    /\ (name = ACLAdmin -> raw = false -> force = false -> Forall (fun e => exists n, ParseDenyList [e] = inl [n]) current ->
        exists ip, forall cfg, in_force (live cfg t') name ip = true))
  /\ (acl_remove bare_cli bare_tables ACLAdmin "10.9.0.4" false false).2 = Refused NotInList
  /\ (acl_remove bare_cli bare_added ACLAdmin "10.9.0.4" false false).2 = Removed
  /\ in_force (live bare_config (acl_remove bare_cli bare_added ACLAdmin "10.9.0.4" false false).1) ACLAdmin ip_10_9_0_4 = true.
Proof.
  intros Hr Hn E. split; [|exact bare_spelling].
  apply reachable_tables_ok in Hr as Hok.
  apply acl_remove_inv in E as [(_ & why & [=])|(cidr & current & t1 & fails & b & Hcidr & Hcur & Hin & Hlock & He & Ha & Hb)].
  destruct (Hb eq_refl) as [b' ->]. apply RemoveACL_effect in Ha as [(_ & err & [=])| ->].
  destruct (ensureACLSeeded_effect cli t name t1 current (fun _ => true) Hok Hn Hcur He) as (_ & Ho1 & Ho & _).
  assert (Htexts : forall h other, existsb h (texts (removed t1 name cidr) other)
            = if (other =? name)%string then existsb (fun e => h e && negb (e =? cidr)%string) current else existsb h (texts t other)).
  { intros h other. change (texts (removed t1 name cidr) other) with (texts_of (at_entries (removed t1 name cidr)) other).
    unfold removed. cbn [at_entries]. rewrite removed_holds. destruct (other =? name)%string eqn:Eo; cbn [andb].
    - destruct (ensureACLSeeded_effect cli t name t1 current (fun e => h e && negb (e =? cidr)%string) Hok Hn Hcur He) as (_ & _ & _ & Ht).
      specialize (Ht other). rewrite Eo in Ht. exact Ht.
    - destruct (ensureACLSeeded_effect cli t name t1 current h Hok Hn Hcur He) as (_ & _ & _ & Ht).
      specialize (Ht other). rewrite Eo in Ht. rewrite <- Ht. cbn [negb]. unfold texts, texts_of.
      induction (map ae_CIDR _) as [|x l IH]; [done|]. cbn [existsb]. by rewrite IH, andb_true_r. }
  assert (Hlive : forall cfg ip, in_force (live cfg (removed t1 name cidr)) name ip
                  = existsb (fun e => entry_holds e ip && negb (e =? cidr)%string) current).
  { intros cfg ip. rewrite live_owned, Htexts, String.eqb_refl by done. done. }
  exists cidr, current. split_and!; try done.
  - by apply slice_contains_spec.
  - intros cfg. apply live_after; [exact Ho|]. intros h other Hne%String.eqb_neq. by rewrite Htexts, Hne.
  - intros -> -> -> Hparse. specialize (Hlock eq_refl eq_refl eq_refl). unfold checkAdminLockout in Hlock.
    destruct (List.filter _ current) as [|e l] eqn:Ef; [done|]. assert (Hel : In e (e :: l)) by by left.
    rewrite <- Ef, filter_In in Hel. destruct Hel as [Hel Hne]. rewrite Forall_forall in Hparse.
    destruct (Hparse e) as [n Hp]; [by apply list_elem_of_In|]. destruct (entry_permits_some e n Hp) as [ip Hip].
    exists ip. intros cfg. rewrite Hlive. apply existsb_exists. exists e. by rewrite Hip, Hne.
Qed.

Lemma acl_remove_takes_effect_witness :
  exists ip, forall cfg, in_force (live cfg (acl_remove tokens_cli no_tables "admin" "::1" false false).1) "admin" ip = true.
Proof.
  destruct (acl_remove_takes_effect tokens_cli no_tables "admin" "::1" false false
              (acl_remove tokens_cli no_tables "admin" "::1" false false).1) as [(cidr & current & _ & Hcur & _ & _ & _ & H) _].
  - apply rtc_refl.
  - left.
  - vm_compute. reflexivity.
  - apply H; [reflexivity..|]. vm_compute in Hcur. injection Hcur as <-.
    constructor; [eexists; vm_compute; reflexivity|]. constructor; [eexists; vm_compute; reflexivity|constructor].
Defined.

(** A start changes nothing in force.  Copying the file's lists into the
    database leaves every list, and whether the proxies list is the operator's
    answer, as they were; a list the database owns it owns from then on, through
    any starts and commands, and what the file says of it no longer matters. *)
Theorem acl_start_changes_nothing t :
  rtc acl_step no_tables t ->
  (forall f readOnly cfg actor name ip, name ∈ ACLLists ->
     in_force (live cfg (seedACLs true f readOnly cfg actor t)) name ip = in_force (live cfg t) name ip
     /\ as_trustedSet (live cfg (seedACLs true f readOnly cfg actor t)) = as_trustedSet (live cfg t))
  /\ (forall t' name, rtc acl_step t t' -> owned t name = true -> owned t' name = true)
  /\ (forall cfg cfg' name, name ∈ ACLLists -> owned t name = true -> list_nets (live cfg t) name = list_nets (live cfg' t) name).
Proof.
  intros Hr. apply reachable_tables_ok in Hr as Hok. split; [|split].
  - intros f readOnly cfg actor name ip Hn.
    assert (H : forall names, Forall (fun n => n ∈ ACLLists) names -> forall t, tables_ok t ->
              in_force (live cfg (foldl (seed_list f readOnly cfg actor) t names)) name ip = in_force (live cfg t) name ip
              /\ as_trustedSet (live cfg (foldl (seed_list f readOnly cfg actor) t names)) = as_trustedSet (live cfg t)).
    { clear t Hr Hok. induction names as [|n names IH]; intros Hns t Hok; [done|]. apply Forall_cons in Hns as [Hm Hns]. cbn [foldl].
      destruct (seed_list_effect f readOnly cfg actor t n (fun e => entry_holds e ip) Hok Hm)
        as [-> |(Hp & Ho & Hok' & Hprox & Hown & Ht)]; [by apply IH|].
      destruct (IH Hns _ Hok') as [-> ->]. split.
      - destruct (String.eqb_spec name n) as [->|Hne].
        + rewrite live_owned, Ht, String.eqb_refl by (done || by rewrite Hown, String.eqb_refl, orb_true_r). symmetry. by apply live_unowned.
        + destruct (owned t name) eqn:E.
          * rewrite !live_owned by (done || by rewrite Hown, E). rewrite Ht. by destruct (String.eqb_spec name n).
          * unfold in_force. rewrite !live_nets by done. rewrite Hown, E. by destruct (String.eqb_spec name n).
      - rewrite !live_trustedSet, Hown. destruct (String.eqb_spec ACLProxies n) as [<-|]; [|by rewrite orb_false_r].
        rewrite orb_true_r. destruct (Hprox eq_refl) as [es Hes]. destruct Hp as [ns Hns'].
        unfold aclConfigValue in Hns'. rewrite Hes in Hns'. change (default [] (Some es)) with es in Hns'.
        unfold config_set. rewrite Hes. change (ParseDenyList es = inl ns) in Hns'. rewrite Hns'. cbn [as_trustedSet]. rewrite !orb_true_r. done. }
    apply H; [|done]. rewrite Forall_forall. by intros n' Hn'.
  - intros t' name Hs. by apply (acl_steps_ok t t').
  - intros cfg cfg' name Hn Ho. by rewrite !live_nets, Ho.
Qed.

Lemma acl_start_changes_nothing_witness :
  in_force (live loopback_config (seedACLs true no_faults false loopback_config "root" no_tables)) "admin" 1
  = in_force (live loopback_config no_tables) "admin" 1.
Proof. destruct (acl_start_changes_nothing no_tables (rtc_refl _ _)) as [H _]. apply H. left. Defined.
