(* ===== verification/EditDistance.v ===== *)
(** The edit distance of the name-similarity check: damerauLevenshtein in
    internal/policy/similarity.go, the matrix filled row by row as the source
    fills it, against a definition by alignments.

    Runes are integers.  A matrix is a list of rows. *)

From stdpp Require Import base list gmap strings.
From Stdlib Require Import ZArith Lia.
From S2P Require Import Prelude GoStrings GoRunes.

(** * The matrix *)

Abbreviation Matrix := (list (list Z)).

Definition get (d : Matrix) (i j : nat) : Z := default 0 (row ← d !! i; row !! j).

Definition set (d : Matrix) (i j : nat) (v : Z) : Matrix := alter (fun row => <[j := v]> row) i d.

(** [make], then the border: a row and a column of [inf] around the distances
    from the empty text. *)
Definition border_column (inf : Z) (la : nat) (d : Matrix) : Matrix :=
  foldl (fun d i => set (set d (S i) 0 inf) (S i) 1 (Z.of_nat i)) d (seq 0 (S la)).

Definition border_row (inf : Z) (lb : nat) (d : Matrix) : Matrix :=
  foldl (fun d j => set (set d 0 (S j) inf) 1 (S j) (Z.of_nat j)) d (seq 0 (S lb)).

Definition new_matrix (la lb : nat) : Matrix :=
  let inf := Z.of_nat (la + lb) in
  border_row inf lb (border_column inf la (set (replicate (la + 2) (replicate (lb + 2) 0)) 0 0 inf)).

(** One cell: the row [i], its rune [x], the column [j], its rune [y]; [last]
    holds the row each rune was last seen in, [db] the column of the last match
    in this row. *)
Definition cell (last : gmap Z nat) (i : nat) (x : Z) (st : Matrix * nat) (jy : nat * Z) : Matrix * nat :=
  let '(d, db) := st in
  let '(j, y) := jy in
  let i1 := default 0%nat (last !! y) in
  let j1 := db in
  let same := x =? y in
  let cost := if same then 0 else 1 in
  let v := Z.min (Z.min (get d i j + cost) (get d (S i) j + 1))
                 (Z.min (get d i (S j) + 1)
                        (get d i1 j1 + (Z.of_nat i - Z.of_nat i1 - 1) + 1 + (Z.of_nat j - Z.of_nat j1 - 1))) in
  (set d (S i) (S j) v, if same then j else db).

(** [xs] with positions from 1. *)
Definition numbered (xs : list Z) : list (nat * Z) := zip (seq 1 (length xs)) xs.

Definition fill_row (rb : list Z) (st : Matrix * gmap Z nat) (ix : nat * Z) : Matrix * gmap Z nat :=
  let '(d, last) := st in
  let '(i, x) := ix in
  ((foldl (cell last i x) (d, 0%nat) (numbered rb)).1, <[x := i]> last).

Definition distance (ra rb : list Z) : Z :=
  let la := length ra in
  let lb := length rb in
  let d := (foldl (fill_row rb) (new_matrix la lb, ∅) (numbered ra)).1 in
  get d (S la) (S lb).

Definition damerauLevenshtein (a b : string) : Z := distance (Runes a) (Runes b).

Example distance_ex :
  map (fun p => damerauLevenshtein p.1 p.2)
    [("ca", "abc"); ("lodash", "lodahs"); ("", "abc"); ("kitten", "sitting"); ("a", "a"); ("ab", "ba")]
  = [2; 1; 3; 3; 0; 1].
Proof. vm_compute. reflexivity. Qed.

(** * The reference definition *)

(** An alignment of two texts read from the left, and its cost: a rune kept or
    substituted, deleted or inserted, or a transposition of two runes with the
    runes between them deleted on one side and inserted on the other. *)
Inductive align : list Z -> list Z -> Z -> Prop :=
| align_nil : align [] [] 0
| align_sub a b n x y : align a b n -> align (a ++ [x]) (b ++ [y]) (n + (if x =? y then 0 else 1))
| align_del a b n x : align a b n -> align (a ++ [x]) b (n + 1)
| align_ins a b n y : align a b n -> align a (b ++ [y]) (n + 1)
| align_swap a b n x u y v :
    align a b n ->
    align (a ++ [x] ++ u ++ [y]) (b ++ [y] ++ v ++ [x]) (n + Z.of_nat (length u) + 1 + Z.of_nat (length v)).

(** The cost of the cheapest alignment. *)
Definition best (a b : list Z) (n : Z) : Prop := align a b n /\ forall m, align a b m -> n <= m.

(** * Lemmas: alignments *)

Lemma align_extend a b n u v :
  align a b n -> align (a ++ u) (b ++ v) (n + Z.of_nat (length u) + Z.of_nat (length v)).
Proof.
  intros H. assert (Hu : align (a ++ u) b (n + Z.of_nat (length u))).
  { induction u as [|x u IH] using rev_ind; [by rewrite List.app_nil_r, Z.add_0_r|].
    rewrite List.app_assoc, length_app. cbn. replace (n + _) with (n + Z.of_nat (length u) + 1) by lia.
    by apply align_del. }
  clear H. induction v as [|y v IH] using rev_ind; [by rewrite List.app_nil_r, Z.add_0_r|].
  rewrite List.app_assoc, length_app. cbn.
  replace (n + _ + _) with (n + Z.of_nat (length u) + Z.of_nat (length v) + 1) by lia. by apply align_ins.
Qed.

Lemma align_whole a b : align a b (Z.of_nat (length a) + Z.of_nat (length b)).
Proof. apply (align_extend [] [] 0 a b align_nil). Qed.

Lemma align_nonneg a b n : align a b n -> 0 <= n.
Proof. induction 1; try lia. destruct (x =? y); lia. Qed.

Lemma align_gap a b n : align a b n -> Z.abs (Z.of_nat (length a) - Z.of_nat (length b)) <= n.
Proof.
  induction 1; rewrite ?length_app; cbn; rewrite ?length_app; cbn; try lia. destruct (x =? y); lia.
Qed.

Lemma align_sym a b n : align a b n -> align b a n.
Proof.
  induction 1; [constructor| | | |].
  - rewrite Z.eqb_sym. by constructor.
  - by constructor.
  - by constructor.
  - replace (n + _ + 1 + _) with (n + Z.of_nat (length v) + 1 + Z.of_nat (length u)) by lia. by constructor.
Qed.

Lemma align_refl a : align a a 0.
Proof.
  induction a as [|x a IH] using rev_ind; [constructor|]. pose proof (align_sub a a 0 x x IH) as H.
  by rewrite Z.eqb_refl in H.
Qed.

Lemma align_zero a b n : align a b n -> n = 0 -> a = b.
Proof.
  induction 1 as [|a b n x y H IH|a b n x H|a b n y H|a b n x u y v H IH]; intros Hn; [done| | | |];
    pose proof (align_nonneg _ _ _ H); try lia.
  destruct (Z.eqb_spec x y) as [->|]; [|lia]. by rewrite IH by lia.
Qed.

Lemma best_unique a b n m : best a b n -> best a b m -> n = m.
Proof. intros [H1 H2] [H3 H4]. apply H2 in H3 as ?. apply H4 in H1 as ?. lia. Qed.

Lemma best_nil_l b : best [] b (Z.of_nat (length b)).
Proof.
  split; [apply (align_whole [] b)|]. intros m H%align_gap. cbn in H. lia.
Qed.

Lemma best_nil_r a : best a [] (Z.of_nat (length a)).
Proof.
  split; [replace (Z.of_nat (length a)) with (Z.of_nat (length a) + Z.of_nat (@length Z [])) by (cbn; lia);
          apply align_whole|].
  intros m H%align_gap. cbn in H. lia.
Qed.

(** [k] is the place of the last [y] in [l], counted from 1, and 0 when there
    is none. *)
Definition occ (l : list Z) (y : Z) (k : nat) : Prop :=
  (k = 0%nat /\ y ∉ l) \/ exists a u, l = a ++ [y] ++ u /\ (y ∉ u) /\ k = S (length a).

Lemma occ_nil y : occ [] y 0.
Proof. left. split; [done|apply not_elem_of_nil]. Qed.

Lemma occ_snoc l x y k : occ l y k -> occ (l ++ [x]) y (if x =? y then S (length l) else k).
Proof.
  intros H. destruct (Z.eqb_spec x y) as [->|Hne].
  - right. exists l, []. split; [done|split; [apply not_elem_of_nil|done]].
  - destruct H as [[-> H]|(a & u & -> & Hu & ->)]; [left|right].
    + split; [done|]. rewrite elem_of_app, elem_of_cons, elem_of_nil. naive_solver.
    + exists a, (u ++ [x]). split; [by rewrite <- !List.app_assoc|]. split; [|done].
      rewrite elem_of_app, elem_of_cons, elem_of_nil. naive_solver.
Qed.

Lemma last_split (a A u U : list Z) y : a ++ [y] ++ u = A ++ [y] ++ U -> y ∉ U -> exists w, A = a ++ w.
Proof.
  intros E HU. apply app_eq_inv in E as [(k & -> & E)|(k & -> & E)]; [|by eexists].
  destruct k as [|z k]; [exists []; by rewrite !List.app_nil_r|]. exfalso. cbn in E. injection E as _ E.
  apply HU. rewrite E. apply elem_of_app. right. apply elem_of_cons. by left.
Qed.

(** One cell of the matrix, for the texts [a ++ [x]] and [b ++ [y]]: a
    transposition pairs the last occurrences, since an earlier pair costs the
    deletions and insertions in between as well. *)
Lemma best_cell a b x y n1 n2 n3 t :
  best a b n1 -> best (a ++ [x]) b n2 -> best a (b ++ [y]) n3 ->
  (exists A U B V n4, a = A ++ [y] ++ U /\ (y ∉ U) /\ b = B ++ [x] ++ V /\ (x ∉ V) /\ best A B n4
     /\ t = n4 + Z.of_nat (length U) + 1 + Z.of_nat (length V))
  \/ ((y ∉ a \/ x ∉ b) /\ Z.of_nat (length a) + Z.of_nat (length b) + 1 <= t) ->
  best (a ++ [x]) (b ++ [y])
    (Z.min (Z.min (n1 + (if x =? y then 0 else 1)) (n2 + 1)) (Z.min (n3 + 1) t)).
Proof.
  intros [H1 L1] [H2 L2] [H3 L3] Ht. split.
  - assert (Hc : (if x =? y then 0 else 1) <= 1) by by destruct (x =? y).
    pose proof (align_sub a b n1 x y H1) as Hsub.
    assert (Hcases : t <= n1 + (if x =? y then 0 else 1) -> align (a ++ [x]) (b ++ [y]) t).
    { destruct Ht as [(A & U & B & V & n4 & -> & _ & -> & _ & [H4 _] & ->)|[_ Ht]].
      - intros _. rewrite <- !List.app_assoc. by apply align_swap.
      - intros Hlt. pose proof (L1 _ (align_whole a b)).
        by replace t with (n1 + (if x =? y then 0 else 1)) by lia. } pose proof (align_del a (b ++ [y]) n3 x H3).
    pose proof (align_ins (a ++ [x]) b n2 y H2).
    repeat match goal with |- context [Z.min ?p ?q] => destruct (Z.min_spec p q) as [[? ->]|[? ->]] end;
      try done; apply Hcases; lia.
  - intros m Hm. remember (a ++ [x]) as p eqn:Ep. remember (b ++ [y]) as q eqn:Eq.
    destruct Hm as [|a' b' m x' y' Hm|a' b' m x' Hm|a' b' m y' Hm|a' b' m x' u y' v Hm].
    + by destruct a.
    + apply app_inj_tail in Ep as [-> ->], Eq as [-> ->]. apply L1 in Hm. lia.
    + subst b'. apply app_inj_tail in Ep as [-> ->]. apply L3 in Hm. lia.
    + subst a'. apply app_inj_tail in Eq as [-> ->]. apply L2 in Hm. lia.
    + rewrite !List.app_assoc in Ep, Eq. apply app_inj_tail in Ep as [Ea ->], Eq as [Eb ->].
      rewrite <- !List.app_assoc in Ea, Eb. destruct Ht as [(A & U & B & V & n4 & -> & HU & -> & HV & [_ L4] & ->)|[Hno _]].
      * destruct (last_split _ _ _ _ _ Ea HU) as [w ->], (last_split _ _ _ _ _ Eb HV) as [w' ->].
        pose proof (L4 _ (align_extend _ _ _ w w' Hm)) as Hle.
        apply (f_equal length) in Ea, Eb. rewrite !length_app in Ea, Eb. cbn in Ea, Eb. lia.
      * exfalso. subst a b. rewrite !elem_of_app, !elem_of_cons in Hno. tauto.
Qed.

(** * Lemmas: the matrix *)

Definition dim (d : Matrix) (n m : nat) : Prop := length d = n /\ Forall (fun row => length row = m) d.

Lemma set_dim d n m i j v : dim d n m -> dim (set d i j v) n m.
Proof.
  intros [Hn Hm]. unfold set. split; [by rewrite length_alter|].
  apply Forall_alter; [done|]. intros row Hr Hl. rewrite length_insert. rewrite Forall_lookup in Hm. by eapply Hm.
Qed.

Lemma get_set d n m i j v i' j' :
  dim d n m -> (i < n)%nat -> (j < m)%nat ->
  get (set d i j v) i' j' = if decide (i' = i /\ j' = j) then v else get d i' j'.
Proof.
  intros [Hn Hm] Hi Hj. unfold get, set. destruct (lookup_lt_is_Some_2 d i) as [row Hrow]; [lia|].
  rewrite Forall_lookup in Hm. specialize (Hm _ _ Hrow). cbn in Hm.
  destruct (decide (i' = i)) as [->|Hne].
  - rewrite list_lookup_alter_eq, Hrow. cbn. destruct (decide (j' = j)) as [->|Hnj].
    + rewrite list_lookup_insert_eq by lia. by rewrite decide_True.
    + rewrite list_lookup_insert_ne by done. rewrite decide_False by tauto. done.
  - rewrite list_lookup_alter_ne by done. by rewrite decide_False by tauto.
Qed.

Lemma get_set_eq d n m i j v : dim d n m -> (i < n)%nat -> (j < m)%nat -> get (set d i j v) i j = v.
Proof. intros Hd Hi Hj. rewrite (get_set d n m) by done. by rewrite decide_True. Qed.

Lemma get_set_ne d n m i j v i' j' :
  dim d n m -> (i < n)%nat -> (j < m)%nat -> i' <> i \/ j' <> j -> get (set d i j v) i' j' = get d i' j'.
Proof. intros Hd Hi Hj Hne. rewrite (get_set d n m) by done. rewrite decide_False; [done|]. intros []. tauto. Qed.

(** Settle every decision on places. *)
Ltac decide_lia :=
  repeat match goal with
  | |- context [decide ?P] => first [rewrite (decide_True (P := P)) by lia | rewrite (decide_False (P := P)) by lia]
  end.

(** What the border holds once its two loops ran. *)
Record bordered (d : Matrix) (la lb : nat) : Prop := {
  bd_dim : dim d (la + 2) (lb + 2);
  bd_row : forall j, (j <= S lb)%nat -> get d 0 j = Z.of_nat (la + lb);
  bd_column : forall i, (i <= S la)%nat -> get d i 0 = Z.of_nat (la + lb);
  bd_first_row : forall j, (j <= lb)%nat -> get d 1 (S j) = Z.of_nat j;
  bd_first_column : forall i, (i <= la)%nat -> get d (S i) 1 = Z.of_nat i
}.

Lemma border_column_ok inf la lb n d :
  (n <= S la)%nat -> dim d (la + 2) (lb + 2) ->
  let d' := foldl (fun d i => set (set d (S i) 0 inf) (S i) 1 (Z.of_nat i)) d (seq 0 n) in
  dim d' (la + 2) (lb + 2)
  /\ (forall i, (i < n)%nat -> get d' (S i) 0 = inf /\ get d' (S i) 1 = Z.of_nat i)
  /\ (forall j, get d' 0 j = get d 0 j).
Proof.
  intros Hn Hd. induction n as [|n IH]; [by cbn; split; [|split; [lia|]]|].
  cbv zeta in *. rewrite seq_S, foldl_app. cbn [foldl]. destruct IH as (Hdim & Hcol & Hrow); [lia|].
  set (d' := foldl _ d (seq 0 n)) in *. pose proof (set_dim _ _ _ (S (0 + n)) 0 inf Hdim) as Hdim'.
  split; [by apply set_dim|]. split.
  - intros i Hi. rewrite !(get_set _ (la + 2) (lb + 2)) by (done || lia).
    destruct (decide (i = n)) as [->|Hne].
    + by decide_lia.
    + decide_lia. apply Hcol. lia.
  - intros j. rewrite !(get_set _ (la + 2) (lb + 2)) by (done || lia). by decide_lia.
Qed.

Lemma border_row_ok inf la lb n d :
  (n <= S lb)%nat -> dim d (la + 2) (lb + 2) ->
  let d' := foldl (fun d j => set (set d 0 (S j) inf) 1 (S j) (Z.of_nat j)) d (seq 0 n) in
  dim d' (la + 2) (lb + 2)
  /\ (forall j, (j < n)%nat -> get d' 0 (S j) = inf /\ get d' 1 (S j) = Z.of_nat j)
  /\ (forall i j, (2 <= i \/ j = 0 \/ n < j)%nat -> get d' i j = get d i j).
Proof.
  intros Hn Hd. induction n as [|n IH]; [by cbn; split; [|split; [lia|]]|].
  cbv zeta in *. rewrite seq_S, foldl_app. cbn [foldl]. destruct IH as (Hdim & Hcol & Hrow); [lia|].
  set (d' := foldl _ d (seq 0 n)) in *. pose proof (set_dim _ _ _ 0 (S (0 + n)) inf Hdim) as Hdim'.
  split; [by apply set_dim|]. split.
  - intros j Hj. rewrite !(get_set _ (la + 2) (lb + 2)) by (done || lia).
    destruct (decide (j = n)) as [->|Hne].
    + by decide_lia.
    + decide_lia. apply Hcol. lia.
  - intros i j Hij. rewrite !(get_set _ (la + 2) (lb + 2)) by (done || lia).
    decide_lia. apply Hrow. lia.
Qed.

Lemma replicate_dim n m : dim (replicate n (replicate m 0)) n m.
Proof. split; [apply length_replicate|]. apply Forall_replicate, length_replicate. Qed.

Lemma new_matrix_bordered la lb : bordered (new_matrix la lb) la lb.
Proof.
  unfold new_matrix, border_row, border_column. set (inf := Z.of_nat (la + lb)).
  set (d0 := set (replicate _ _) 0 0 inf).
  assert (H0 : dim d0 (la + 2) (lb + 2)) by (apply set_dim, replicate_dim).
  assert (H00 : get d0 0 0 = inf) by (apply (get_set_eq _ (la + 2) (lb + 2)); [apply replicate_dim|lia..]).
  destruct (border_column_ok inf la lb (S la) d0 (le_n _) H0) as (H1 & Hc & Hr).
  set (d1 := foldl _ d0 _) in *.
  destruct (border_row_ok inf la lb (S lb) d1 (le_n _) H1) as (H2 & Hr' & Hs).
  set (d2 := foldl _ d1 _) in *. split; [done| | | |].
  - intros [|j] Hj; [by rewrite Hs, Hr by lia|]. apply Hr'. lia.
  - intros [|i] Hi; rewrite Hs by lia; [by rewrite Hr|]. apply Hc. lia.
  - intros j Hj. apply Hr'. lia.
  - intros [|i] Hi; [apply Hr'; lia|]. rewrite Hs by lia. apply Hc. lia.
Qed.

Section fill.
Variables ra rb : list Z.

#[local] Abbreviation la := (length ra).
#[local] Abbreviation lb := (length rb).

(** The cell of the prefixes of [p] and [q] runes. *)
Definition cell_ok (d : Matrix) (p q : nat) : Prop := best (take p ra) (take q rb) (get d (S p) (S q)).

Lemma border_cells d p q :
  bordered d la lb -> (p <= la)%nat -> (q <= lb)%nat -> p = 0%nat \/ q = 0%nat -> cell_ok d p q.
Proof.
  intros [_ _ _ Hr Hc] Hp Hq [->| ->]; unfold cell_ok.
  - rewrite Hr by done. replace q with (length (take q rb)) at 2 by (rewrite length_take; lia). apply best_nil_l.
  - rewrite Hc by done. replace p with (length (take p ra)) at 2 by (rewrite length_take; lia). apply best_nil_r.
Qed.

(** The rows of the runes [prea] are filled. *)
Record rows_filled (d : Matrix) (prea : list Z) : Prop := {
  rf_border : bordered d la lb;
  rf_cells : forall p q, (p <= length prea)%nat -> (q <= lb)%nat -> cell_ok d p q
}.

Definition last_ok (last : gmap Z nat) (prea : list Z) : Prop :=
  forall y, occ prea y (default 0%nat (last !! y)).

(** And, of the row of the next rune [x], the columns of [preb]. *)
Record row_filled (d : Matrix) (db : nat) (prea : list Z) (x : Z) (preb : list Z) : Prop := {
  pf_rows : rows_filled d prea;
  pf_cells : forall q, (q <= length preb)%nat -> cell_ok d (S (length prea)) q;
  pf_db : occ preb x db
}.

Lemma bordered_set d i j v :
  bordered d la lb -> (1 <= i <= la)%nat -> (1 <= j <= lb)%nat -> bordered (set d (S i) (S j) v) la lb.
Proof.
  intros [Hd H1 H2 H3 H4] Hi Hj.
  assert (E : forall i' j', (i' <= 1 \/ j' <= 1)%nat -> get (set d (S i) (S j) v) i' j' = get d i' j').
  { intros i' j' H. apply (get_set_ne _ (la + 2) (lb + 2)); [done|lia..]. }
  split; [by apply set_dim| | | |]; intros k Hk; rewrite E by lia; auto.
Qed.

(** The transposition's candidate, as [best_cell] wants it. *)
Lemma swap_candidate d prea x preb y i1 j1 :
  (length prea < la)%nat -> (length preb < lb)%nat ->
  (forall A u, prea = A ++ u -> take (length A) ra = A) -> (forall B v, preb = B ++ v -> take (length B) rb = B) ->
  rows_filled d prea -> occ prea y i1 -> occ preb x j1 ->
  let t := get d i1 j1 + (Z.of_nat (S (length prea)) - Z.of_nat i1 - 1) + 1
           + (Z.of_nat (S (length preb)) - Z.of_nat j1 - 1) in
  (exists A U B V n4, prea = A ++ [y] ++ U /\ (y ∉ U) /\ preb = B ++ [x] ++ V /\ (x ∉ V) /\ best A B n4
     /\ t = n4 + Z.of_nat (length U) + 1 + Z.of_nat (length V))
  \/ ((y ∉ prea \/ x ∉ preb) /\ Z.of_nat (length prea) + Z.of_nat (length preb) + 1 <= t).
Proof.
  intros Hla Hlb Ha Hb [Hbd Hcells] Hy Hx. cbv zeta. destruct Hbd as [_ Hrow Hcol _ _].
  destruct Hy as [[-> Hy]|(A & U & HA & HU & ->)]; destruct Hx as [[-> Hx]|(B & V & HB & HV & ->)].
  - right. split; [by left|]. rewrite Hrow by lia. lia.
  - right. split; [by left|]. apply (f_equal length) in HB. rewrite !length_app in HB. cbn in HB.
    rewrite Hrow by lia. lia.
  - right. split; [by right|]. apply (f_equal length) in HA. rewrite !length_app in HA. cbn in HA.
    rewrite Hcol by lia. lia.
  - left. pose proof (f_equal length HA) as La. pose proof (f_equal length HB) as Lb.
    rewrite !length_app in La, Lb. cbn in La, Lb.
    exists A, U, B, V, (get d (S (length A)) (S (length B))). split_and!; try done; [|lia].
    specialize (Hcells (length A) (length B) ltac:(lia) ltac:(lia)). unfold cell_ok in Hcells.
    by rewrite (Ha A ([y] ++ U)), (Hb B ([x] ++ V)) in Hcells.
Qed.

Lemma cell_step last d db prea x sufa preb y sufb :
  ra = prea ++ x :: sufa -> rb = preb ++ y :: sufb -> last_ok last prea ->
  row_filled d db prea x preb ->
  let st := cell last (S (length prea)) x (d, db) (S (length preb), y) in
  row_filled st.1 st.2 prea x (preb ++ [y]).
Proof.
  intros Ha Hb Hlast [[Hbd Hcells] Hrow Hdb].
  assert (Hta : forall A u, prea = A ++ u -> take (length A) ra = A).
  { intros A u ->. by rewrite Ha, <- List.app_assoc, take_app_length. }
  assert (Htb : forall B v, preb = B ++ v -> take (length B) rb = B).
  { intros B v ->. by rewrite Hb, <- List.app_assoc, take_app_length. }
  assert (Hla : (length prea < la)%nat) by (rewrite Ha, length_app; cbn; lia).
  assert (Hlb : (length preb < lb)%nat) by (rewrite Hb, length_app; cbn; lia).
  assert (Sa : take (S (length prea)) ra = prea ++ [x]).
  { rewrite Ha. rewrite cons_middle, List.app_assoc. by rewrite take_app_length' by (rewrite length_app; cbn; lia). }
  assert (Sb : take (S (length preb)) rb = preb ++ [y]).
  { rewrite Hb. rewrite cons_middle, List.app_assoc. by rewrite take_app_length' by (rewrite length_app; cbn; lia). }
  pose proof (swap_candidate d prea x preb y (default 0%nat (last !! y)) db Hla Hlb Hta Htb
    (Build_rows_filled _ _ Hbd Hcells) (Hlast y) Hdb) as Ht. cbv zeta in Ht.
  unfold cell. cbv zeta. cbn [fst snd].
  set (t := get d (default 0%nat (last !! y)) db + _ + 1 + _) in *.
  set (v := Z.min _ _). set (d' := set d (S (S (length prea))) (S (S (length preb))) v).
  assert (E : forall p q, (p <> S (length prea) \/ q <> S (length preb)) ->
    cell_ok d p q -> cell_ok d' p q).
  { intros p q Hne. unfold cell_ok, d'. rewrite (get_set_ne _ (la + 2) (lb + 2)); [done|apply Hbd|lia..]. }
  split; [split| |].
  - apply bordered_set; [done|lia..].
  - intros p q Hp Hq. apply E; [lia|]. by apply Hcells.
  - intros q. rewrite length_app. cbn. intros Hq. destruct (decide (q = S (length preb))) as [->|Hne];
      [|apply E; [lia|]; apply Hrow; lia].
    unfold cell_ok, d'. rewrite (get_set_eq _ (la + 2) (lb + 2)); [|apply Hbd|lia..]. rewrite Sa, Sb.
    apply best_cell; [| | |exact Ht].
    + pose proof (Hcells (length prea) (length preb) ltac:(lia) ltac:(lia)) as H. unfold cell_ok in H.
      by rewrite (Hta prea []), (Htb preb []) in H by by rewrite List.app_nil_r.
    + pose proof (Hrow (length preb) ltac:(lia)) as H. unfold cell_ok in H.
      by rewrite Sa, (Htb preb []) in H by by rewrite List.app_nil_r.
    + pose proof (Hcells (length prea) (S (length preb)) ltac:(lia) ltac:(lia)) as H. unfold cell_ok in H.
      by rewrite Sb, (Hta prea []) in H by by rewrite List.app_nil_r.
  - rewrite Z.eqb_sym. by apply occ_snoc.
Qed.
Lemma row_loop last prea x sufa sufb : forall preb d db,
  ra = prea ++ x :: sufa -> rb = preb ++ sufb -> last_ok last prea -> row_filled d db prea x preb ->
  let st := foldl (cell last (S (length prea)) x) (d, db) (zip (seq (S (length preb)) (length sufb)) sufb) in
  row_filled st.1 st.2 prea x rb.
Proof.
  induction sufb as [|y sufb IH]; intros preb d db Ha Hb Hlast Hf.
  - cbn. by rewrite Hb, List.app_nil_r.
  - cbv zeta. cbn [length seq zip zip_with foldl].
    pose proof (cell_step last d db prea x sufa preb y sufb Ha Hb Hlast Hf) as Hs. cbv zeta in Hs.
    destruct (cell last (S (length prea)) x (d, db) (S (length preb), y)) as [d' db'].
    specialize (IH (preb ++ [y]) d' db' Ha). rewrite length_app, Nat.add_comm in IH. apply IH; try done.
    by rewrite <- List.app_assoc.
Qed.

Lemma fill_row_ok d last prea x sufa :
  ra = prea ++ x :: sufa -> rows_filled d prea -> last_ok last prea ->
  let st := fill_row rb (d, last) (S (length prea), x) in
  rows_filled st.1 (prea ++ [x]) /\ last_ok st.2 (prea ++ [x]).
Proof.
  intros Ha Hf Hlast. assert (Hla : (length prea < la)%nat) by (rewrite Ha, length_app; cbn; lia).
  cbv zeta. unfold fill_row, numbered. cbn [fst snd]. split.
  - destruct (row_loop last prea x sufa rb [] d 0 Ha eq_refl Hlast) as [[Hb Hc] Hr _].
    + split; [done| |apply occ_nil]. intros q Hq. apply border_cells; [apply Hf|lia|cbn in Hq; lia|cbn in Hq; lia].
    + split; [exact Hb|]. intros p q. rewrite length_app. cbn. intros Hp Hq.
      destruct (decide (p = S (length prea))) as [->|Hne]; [by apply Hr|]. apply Hc; [lia|done].
  - intros y. pose proof (occ_snoc prea x y _ (Hlast y)) as H.
    destruct (Z.eqb_spec x y) as [->|Hne]; [by rewrite lookup_insert_eq|]. by rewrite lookup_insert_ne.
Qed.

Lemma rows_loop sufa : forall prea d last,
  ra = prea ++ sufa -> rows_filled d prea -> last_ok last prea ->
  rows_filled (foldl (fill_row rb) (d, last) (zip (seq (S (length prea)) (length sufa)) sufa)).1 ra.
Proof.
  induction sufa as [|x sufa IH]; intros prea d last Ha Hf Hlast.
  - cbn. by rewrite Ha, List.app_nil_r.
  - cbn [length seq zip zip_with foldl].
    destruct (fill_row_ok d last prea x sufa Ha Hf Hlast) as [Hf' Hlast'].
    destruct (fill_row rb (d, last) (S (length prea), x)) as [d' last'].
    specialize (IH (prea ++ [x]) d' last'). rewrite length_app, Nat.add_comm in IH. apply IH; try done.
    by rewrite <- List.app_assoc.
Qed.

Lemma distance_best : best ra rb (distance ra rb).
Proof.
  unfold distance, numbered. pose proof (new_matrix_bordered la lb) as Hb.
  destruct (rows_loop ra [] (new_matrix la lb) ∅ eq_refl) as [_ Hc].
  - split; [done|]. intros p q Hp Hq. apply border_cells; [done|cbn in Hp; lia|done|cbn in Hp; lia].
  - intros y. rewrite lookup_empty. apply occ_nil.
  - specialize (Hc la lb (le_n _) (le_n _)). unfold cell_ok in Hc. by rewrite !firstn_all in Hc.
Qed.
End fill.

(** * Properties *)

Lemma distance_unique ra rb n : best ra rb n -> distance ra rb = n.
Proof. intros H. eapply best_unique; [apply distance_best|done]. Qed.

Lemma distance_align ra rb n : align ra rb n -> distance ra rb <= n.
Proof. apply (distance_best ra rb). Qed.

Lemma distance_gap ra rb : Z.abs (Z.of_nat (length ra) - Z.of_nat (length rb)) <= distance ra rb.
Proof. apply align_gap, distance_best. Qed.

Lemma distance_sym ra rb : distance ra rb = distance rb ra.
Proof.
  pose proof (distance_align _ _ _ (align_sym _ _ _ (proj1 (distance_best ra rb)))).
  pose proof (distance_align _ _ _ (align_sym _ _ _ (proj1 (distance_best rb ra)))). lia.
Qed.

Lemma distance_zero ra rb : distance ra rb = 0 <-> ra = rb.
Proof.
  split; [apply align_zero, distance_best|]. intros ->. apply distance_unique.
  split; [apply align_refl|apply align_nonneg].
Qed.

Lemma distance_nonneg ra rb : 0 <= distance ra rb.
Proof. eapply align_nonneg, distance_best. Qed.

(** C37: the matrix of the source computes the edit distance: its last cell is
    the cost of the cheapest alignment of the two names' runes by kept,
    substituted, inserted, deleted and transposed runes, a transposition
    allowing edits between the two runes it swaps.  So the distance is symmetric, zero only between names
    of the same runes, and never less than their difference in length. *)
Theorem damerauLevenshtein_best a b :
  best (Runes a) (Runes b) (damerauLevenshtein a b)
  /\ damerauLevenshtein a b = damerauLevenshtein b a
  /\ (damerauLevenshtein a b = 0 <-> Runes a = Runes b)
  /\ Z.abs (Z.of_nat (RuneCount a) - Z.of_nat (RuneCount b)) <= damerauLevenshtein a b.
Proof.
  unfold damerauLevenshtein, RuneCount.
  split; [apply distance_best|split; [apply distance_sym|split; [apply distance_zero|apply distance_gap]]].
Qed.
