(* ===== verification/AllowList.v ===== *)
(** The upstream allow-list: rule matching, the checker with its cache, and the
    patterns the discovery log suggests (internal/policy/{policy,normalize,
    violation}.go).

    Two library functions are arguments: [Parse] stands for url.Parse, whose
    reading of an authority depends on net/netip, with the fields the code
    reads; [fold_unicode] compares two texts under Unicode case folding, which
    strings.EqualFold falls back on when one of them is not ASCII.  Times are
    seconds; the clock is monotonic. *)

From stdpp Require Import base list gmap strings.
From Stdlib Require Import ZArith Lia Ascii.
From S2P Require Import Prelude GoStrings GoURL Types MavenLayout Keys.

Definition KindHost := "host".
Definition KindOrg := "org".
Definition KindPackage := "package".
Definition KindPrefix := "prefix".

Definition ModeListed := "listed".
Definition ModeOpen := "open".

(** [audit.PolicyInfo] *)
Record Rule := MkRule {
  r_ID : string;
  r_RegistryType : string;
  r_RuleKind : string;
  r_Pattern : string;
  r_Comment : string;
  r_CreatedAt : Z;
  r_CreatedBy : string
}.

Definition one_of (l : list string) (t : string) : bool := slice_contains l t.

Definition RuleKindForType (t : string) : string :=
  if one_of [TypeApt; TypeFreeBSD; TypeDistfiles] t then KindHost
  else if one_of [TypeGit] t then KindOrg
  else if one_of [TypePypi; TypeNpm; TypeCargo; TypeMaven; TypeRubygems; TypeComposer; TypeOCI] t then KindPackage
  else if one_of [TypeRpm] t then KindPackage
  else if one_of [TypeGomod; TypeHelm; TypeBinary] t then KindPrefix
  else "".

Inductive type_error := UnknownRegistryType (t : string).

Definition ValidateType (t : string) : option type_error :=
  if slice_contains AllTypes t then None else Some (UnknownRegistryType t).

Definition KeysByName (t : string) : bool :=
  one_of [TypePypi; TypeNpm; TypeGomod; TypeCargo; TypeMaven; TypeRubygems; TypeComposer; TypeOCI; TypeRpm] t.

Definition CandidateFor (t packageName entryURL : string) : string :=
  if KeysByName t then packageName else entryURL.

(** * Matching *)

Definition stripScheme (u : string) : string :=
  match cut u "://" with Some (_, rest) => rest | None => u end.

Definition matchMaven (candidate pattern : string) : bool :=
  if (candidate =? pattern)%string then true
  else
    match cut_suffix pattern ":*" with
    | None => false
    | Some group =>
        match cut_byte ":" candidate with
        | Some (candGroup, _) => (candGroup =? group)%string
        | None => false
        end
    end.

Definition matchNpm (candidate pattern : string) : bool :=
  if (candidate =? pattern)%string then true
  else if HasSuffix pattern "/*" then HasPrefix candidate (TrimSuffix pattern "*")
  else false.

Record ParsedURL := MkParsed {
  p_Scheme : string;
  p_Host : string;
  p_Hostname : string;
  p_EscapedPath : string;
  p_WithoutUser : option string   (* [String] of the URL with its userinfo removed, when it has one *)
}.

Section matching.
Variable Parse : string -> option ParsedURL.
Variable fold_unicode : string -> string -> bool.

(** [strings.EqualFold]: the ASCII loop, and the Unicode one from the first
    byte that is not ASCII on either side. *)
Definition EqualFoldU (a b : string) : bool :=
  if all_bytes is_ascii a && all_bytes is_ascii b then EqualFold a b else fold_unicode a b.

Definition hostFromURL (raw : string) : string :=
  match Parse raw with
  | Some u => if (p_Host u =? "")%string then raw else p_Hostname u
  | None => raw
  end.

Definition RpmCandidate (name baseURL : string) : string :=
  let baseURL :=
    match Parse baseURL with
    | Some u => default baseURL (p_WithoutUser u)
    | None => baseURL
    end in
  name +:+ " " +:+ baseURL.

Definition matchRpm (candidate pattern : string) : bool :=
  let '(name, base) := cut_or_whole " " candidate in
  if negb (Contains pattern "://") then (name =? pattern)%string
  else if (base =? "")%string then false
  else
    match Parse base with
    | None => false
    | Some b =>
        match Parse pattern with
        | None => false
        | Some p =>
            if (p_Host p =? "")%string then false
            else EqualFoldU (p_Scheme b) (p_Scheme p) && EqualFoldU (p_Host b) (p_Host p)
                 && HasPrefix (p_EscapedPath b) (p_EscapedPath p)
        end
    end.

Definition matchRule (t : string) (r : Rule) (candidate : string) : bool :=
  let pattern := r_Pattern r in
  if one_of [TypeApt; TypeFreeBSD; TypeDistfiles] t then EqualFoldU (hostFromURL candidate) pattern
  else if one_of [TypeGit] t then HasPrefix (stripScheme candidate) (stripScheme pattern)
  else if one_of [TypePypi] t then (CanonicalPypiName candidate =? CanonicalPypiName pattern)%string
  else if one_of [TypeNpm] t then matchNpm candidate pattern
  else if one_of [TypeCargo; TypeRubygems] t then (candidate =? pattern)%string
  else if one_of [TypeMaven] t then matchMaven candidate pattern
  else if one_of [TypeComposer] t then EqualFoldU candidate pattern
  else if one_of [TypeOCI] t then matchNpm candidate pattern
  else if one_of [TypeRpm] t then matchRpm candidate pattern
  else if one_of [TypeGomod; TypeHelm; TypeBinary] t then HasPrefix candidate pattern
  else false.

(** * Suggestions *)

Definition firstSegment (p : string) : string :=
  let p := TrimPrefix p "/" in
  match cut_byte "/" p with Some (a, _) => a | None => p end.

(** [strings.IndexByte(name, '/') > 0] cuts the scope off a scoped name. *)
Definition npm_pattern (pkgName : string) : string :=
  if HasPrefix pkgName "@" then
    match cut_byte "/" pkgName with
    | Some (scope, _) => if (scope =? "")%string then pkgName else scope +:+ "/*"
    | None => pkgName
    end
  else pkgName.

Definition gomod_pattern (pkgName : string) : string :=
  match SplitN "/" 3 pkgName with
  | a :: b :: _ => a +:+ "/" +:+ b +:+ "/"
  | _ => pkgName
  end.

Definition SuggestPattern (t host fullPath pkgName : string) : string :=
  if one_of [TypeApt; TypeFreeBSD; TypeDistfiles] t then host
  else if one_of [TypeGit] t then host +:+ "/" +:+ firstSegment fullPath +:+ "/"
  else if one_of [TypePypi] t then CanonicalPypiName pkgName
  else if one_of [TypeNpm] t then npm_pattern pkgName
  else if one_of [TypeCargo; TypeMaven; TypeRubygems; TypeComposer; TypeOCI; TypeRpm] t then pkgName
  else if one_of [TypeGomod] t then gomod_pattern pkgName
  else if one_of [TypeHelm; TypeBinary] t then
    let seg := firstSegment fullPath in
    if (seg =? "")%string then "https://" +:+ host +:+ "/" else "https://" +:+ host +:+ "/" +:+ seg +:+ "/"
  else "".

(** * The checker *)

Record Mode := MkMode { m_Mode : string; m_Set : bool; m_Rules : nat }.

(** What the store answers: the rules of a type, or an error; the mode an
    operator set, none, or an error. *)
Inductive rules_answer := GotRules (rules : list Rule) | RulesFailed.
Inductive mode_answer := GotMode (mode : string) | ModeNotFound | ModeFailed | NoModeStore.

(** A type's entry in the three maps. *)
Record cached := MkCached { c_rules : list Rule; c_mode : string; c_loaded : Z }.

Definition Cache := gmap string cached.

Definition DefaultCacheTTL : Z := 30.

Definition modeOf (rules : list Rule) (set : string) : Mode :=
  if (set =? "")%string
  then MkMode (if (0 <? length rules)%nat then ModeListed else ModeOpen) false (length rules)
  else MkMode set true (length rules).

Inductive load_error := LoadPolicies | LoadMode.

(** [ok && time.Since(ts) < cacheTTL] *)
Definition fresh (ttl now : Z) (c : Cache) (t : string) : option cached :=
  e ← c !! t;
  if now - c_loaded e <? ttl then Some e else None.

(** What is stored once both reads answered. *)
Definition set_mode (a : mode_answer) : string + load_error :=
  match a with
  | GotMode m => inl m
  | ModeNotFound | NoModeStore => inl ""
  | ModeFailed => inr LoadMode
  end.

(** The times are those of the check under the read lock, of the check under
    the write lock, and of the stamp. *)
Definition load (ttl t1 t2 t3 : Z) (rules : rules_answer) (mode : mode_answer) (t : string) (c : Cache)
  : Cache * ((list Rule * Mode) + load_error) :=
  match fresh ttl t1 c t with
  | Some e => (c, inl (c_rules e, modeOf (c_rules e) (c_mode e)))
  | None =>
      match fresh ttl t2 c t with
      | Some e => (c, inl (c_rules e, modeOf (c_rules e) (c_mode e)))
      | None =>
          match rules with
          | RulesFailed => (c, inr LoadPolicies)
          | GotRules rules =>
              match set_mode mode with
              | inr err => (c, inr err)
              | inl set => (<[t := MkCached rules set t3]> c, inl (rules, modeOf rules set))
              end
          end
      end
  end.

Definition Invalidate (c : Cache) : Cache := ∅.

Inductive verdict := Permitted | Violation (t candidate : string) | LoadFailed (err : load_error).

(** [Check] on what [load] answered. *)
Definition judge (t candidate : string) (answer : (list Rule * Mode) + load_error) : verdict :=
  match answer with
  | inr err => LoadFailed err
  | inl (rules, mode) =>
      if (m_Mode mode =? ModeOpen)%string then Permitted
      else if existsb (fun r => matchRule t r candidate) rules then Permitted
      else Violation t candidate
  end.

(** A nil checker permits everything. *)
Definition Check_ (ttl t1 t2 t3 : Z) (rules : rules_answer) (mode : mode_answer) (t candidate : string)
  (c : option Cache) : option Cache * verdict :=
  match c with
  | None => (None, Permitted)
  | Some c => let '(c, answer) := load ttl t1 t2 t3 rules mode t c in (Some c, judge t candidate answer)
  end.

Definition rule_group (r : Rule) : option string :=
  match cut_byte ":" (r_Pattern r) with Some (g, _) => Some g | None => None end.

Definition judge_group (group : string) (answer : (list Rule * Mode) + load_error) : verdict :=
  match answer with
  | inr err => LoadFailed err
  | inl (rules, mode) =>
      if (m_Mode mode =? ModeOpen)%string then Permitted
      else if existsb (fun r => bool_decide (rule_group r = Some group)) rules then Permitted
      else Violation TypeMaven (group +:+ ":" +:+ MavenGroupWildcard)
  end.

Definition CheckMavenGroup (ttl t1 t2 t3 : Z) (rules : rules_answer) (mode : mode_answer) (group : string)
  (c : option Cache) : option Cache * verdict :=
  match c with
  | None => (None, Permitted)
  | Some c => let '(c, answer) := load ttl t1 t2 t3 rules mode TypeMaven c in (Some c, judge_group group answer)
  end.

Definition ModeFor (ttl t1 t2 t3 : Z) (rules : rules_answer) (mode : mode_answer) (t : string) (c : option Cache)
  : option Cache * (Mode + load_error) :=
  match c with
  | None => (None, inl (MkMode ModeOpen false 0))
  | Some c =>
      let '(c, answer) := load ttl t1 t2 t3 rules mode t c in
      (Some c, match answer with inl (_, m) => inl m | inr err => inr err end)
  end.

Definition Listed (ttl t1 t2 t3 : Z) (rules : rules_answer) (mode : mode_answer) (t : string) (c : option Cache)
  : option Cache * (bool + load_error) :=
  match c with
  | None => (None, inl false)
  | Some _ =>
      let '(c, answer) := ModeFor ttl t1 t2 t3 rules mode t c in
      (c, match answer with inl m => inl (m_Mode m =? ModeListed)%string | inr err => inr err end)
  end.
End matching.

(** * Errors *)

(** An error and what it wraps. *)
Inductive go_error := ViolationError (t candidate : string) | Opaque | Wrapped (err : go_error).

Fixpoint errorsAs (err : go_error) : option (string * string) :=
  match err with
  | ViolationError t candidate => Some (t, candidate)
  | Opaque => None
  | Wrapped err => errorsAs err
  end.

(** [None] is nil. *)
Definition IsViolation (err : option go_error) : bool :=
  match err with Some err => isSome (errorsAs err) | None => false end.

(** * Lemmas *)

Lemma HasPrefix_refl s : HasPrefix s s = true.
Proof. apply HasPrefix_spec. exists "". by rewrite app_nil_r. Qed.

Lemma HasPrefix_length s p : HasPrefix s p = true -> (String.length p <= String.length s)%nat.
Proof. intros [r ->]%HasPrefix_spec. rewrite length_app_string. lia. Qed.

Lemma stripScheme_cut a b : no_byte ":" a = true -> stripScheme (a +:+ "://" +:+ b) = b.
Proof.
  intros Ha. unfold stripScheme. assert (E : cut (a +:+ "://" +:+ b) "://" = Some (a, b)); [|by rewrite E].
  induction a as [|c a IH].
  - rewrite app_nil_l. pose proof (cut_prefix_app "://" b) as E.
    change ("://" +:+ b) with (String ":" ("//" +:+ b)) in *. cbn [cut]. by rewrite E.
  - rewrite no_byte_cons in Ha. apply andb_true_iff in Ha as [Hc Ha]. rewrite app_cons. cbn [cut].
    assert (E : cut_prefix (String c (a +:+ "://" +:+ b)) "://" = None).
    { cbn [cut_prefix]. rewrite Ascii.eqb_sym. apply negb_true_iff in Hc. by rewrite Hc. }
    rewrite E, IH by done. done.
Qed.

(** A text of three segments with a name in the middle has no scheme. *)
Lemma stripScheme_plain a b :
  no_byte "/" a = true -> no_byte "/" b = true -> b <> "" ->
  stripScheme (a +:+ "/" +:+ b +:+ "/") = a +:+ "/" +:+ b +:+ "/".
Proof.
  intros Ha Hb Hne. unfold stripScheme. destruct (cut _ "://") as [[x y]|] eqn:E; [|done].
  exfalso. apply cut_Some, (f_equal (Split "/")) in E.
  rewrite Split_sep, (Split_app "/" b "" Hb), Split_no_byte in E by done.
  change ("://" +:+ y) with (":" +:+ "/" +:+ "" +:+ "/" +:+ y) in E. rewrite <- app_assoc in E.
  rewrite !Split_sep in E. change (Split "/" "") with [""] in E.
  pose proof (Split_nonempty "/" y) as Hy. pose proof (Split_nonempty "/" (x +:+ ":")) as Hx.
  destruct (Split "/" (x +:+ ":")) as [|x1 [|x2 l]]; [done| |].
  - cbn in E. by injection E as _ -> _.
  - cbn in E. injection E as _ _ E. destruct l as [|? l]; cbn in E; [|by destruct l].
    by destruct (Split "/" y).
Qed.

Lemma npm_pattern_matches name : matchNpm name (npm_pattern name) = true.
Proof.
  unfold npm_pattern. assert (Hr : matchNpm name name = true) by (unfold matchNpm; by rewrite String.eqb_refl).
  destruct (HasPrefix name "@"); [|done]. destruct (cut_byte "/" name) as [[scope rest]|] eqn:E; [|done].
  destruct (scope =? "")%string; [done|]. apply cut_byte_Some in E as [-> _].
  unfold matchNpm. destruct (_ =? _)%string; [done|].
  assert (Hs : cut_suffix (scope +:+ "/*") "/*" = Some scope) by apply cut_suffix_app.
  unfold HasSuffix. rewrite Hs. unfold TrimSuffix.
  change "/*" with ("/" +:+ "*"). rewrite <- app_assoc, cut_suffix_app.
  change (String "/" rest) with ("/" +:+ rest). rewrite <- app_assoc. apply HasPrefix_app.
Qed.

(** A module's pattern matches it unless the path has exactly two segments. *)
Lemma gomod_pattern_matches name :
  HasPrefix name (gomod_pattern name) = negb (length (Split "/" name) =? 2)%nat.
Proof.
  unfold gomod_pattern. cbn [SplitN]. destruct (cut_byte "/" name) as [[a rest]|] eqn:E.
  - apply cut_byte_Some in E as [-> Ha]. rewrite Split_app by done. cbn [length].
    destruct (cut_byte "/" rest) as [[b c]|] eqn:E.
    + apply cut_byte_Some in E as [-> Hb]. rewrite Split_app by done. cbn [length].
      pose proof (Split_nonempty "/" c). destruct (Split "/" c); [done|]. cbn.
      apply HasPrefix_spec. exists c. by rewrite !app_assoc.
    + apply cut_byte_None in E. rewrite Split_no_byte by done. cbn.
      destruct (HasPrefix _ _) eqn:Hp; [|done]. apply HasPrefix_length in Hp.
      cbn in Hp. rewrite !length_app_string in Hp. cbn in Hp. rewrite ?length_app_string in Hp. cbn in Hp. lia.
  - apply cut_byte_None in E. rewrite Split_no_byte by done. cbn. apply HasPrefix_refl.
Qed.

Lemma firstSegment_cut seg rest : no_byte "/" seg = true -> firstSegment ("/" +:+ seg +:+ "/" +:+ rest) = seg.
Proof.
  intros H. unfold firstSegment. rewrite TrimPrefix_app. change ("/" +:+ rest) with (String "/" rest).
  by rewrite cut_byte_app.
Qed.

Definition rule_for (t pattern : string) : Rule := MkRule "" t (RuleKindForType t) pattern "" 0 "".

Lemma EqualFoldU_refl fold_unicode s : fold_unicode s s = true -> EqualFoldU fold_unicode s s = true.
Proof.
  intros H. unfold EqualFoldU, EqualFold. destruct (all_bytes is_ascii s && all_bytes is_ascii s); [|done].
  apply String.eqb_refl.
Qed.

(** The rules and the mode a check is judged on: those of a fresh entry, or
    what the store answers. *)
Definition in_force (ttl t1 t2 : Z) (rules : rules_answer) (mode : mode_answer) (t : string) (c : Cache)
  : option (list Rule * string) :=
  match fresh ttl t1 c t, fresh ttl t2 c t with
  | Some e, _ | None, Some e => Some (c_rules e, c_mode e)
  | None, None =>
      match rules, set_mode mode with
      | GotRules rules, inl set => Some (rules, set)
      | _, _ => None
      end
  end.

Lemma load_in_force ttl t1 t2 t3 rules mode t c :
  match in_force ttl t1 t2 rules mode t c with
  | Some (rs, set) => (load ttl t1 t2 t3 rules mode t c).2 = inl (rs, modeOf rs set)
  | None => exists err, load ttl t1 t2 t3 rules mode t c = (c, inr err)
  end.
Proof.
  unfold in_force, load. destruct (fresh ttl t1 c t); [done|]. destruct (fresh ttl t2 c t); [done|].
  destruct rules; [|by eexists]. by destruct (set_mode mode); [|eexists].
Qed.

Lemma modeOf_open rules set :
  (m_Mode (modeOf rules set) =? ModeOpen)%string = true <->
  set = ModeOpen \/ set = "" /\ rules = [].
Proof.
  unfold modeOf. destruct (String.eqb_spec set "") as [->|Hne]; cbn.
  - destruct rules; cbn; [split; [by right|done]|]. split; [done|]. by intros [[=]|[_ [=]]].
  - rewrite String.eqb_eq. split; [by left|]. by intros [?|[? _]].
Qed.

(** * Properties *)

(** What the allow-list decides, exactly: with the rules and the mode in
    force (a fresh cache entry's, or the store's), a candidate is permitted
    when the type is open (set so, or with no mode set and no rules) or a rule
    matches it; in listed mode with no rules nothing is; when the rules or the
    mode cannot be read the check fails, changes nothing, and permits nothing.
    Only an absent checker permits everything. *)
Theorem Check_decides Parse fold_unicode ttl t1 t2 t3 rules mode t candidate c :
  let '(c', v) := Check_ Parse fold_unicode ttl t1 t2 t3 rules mode t candidate (Some c) in
  match in_force ttl t1 t2 rules mode t c with
  | Some (rs, set) =>
      (v = Permitted \/ v = Violation t candidate)
      /\ (v = Permitted <-> set = ModeOpen \/ (set = "" /\ rs = [])
                           \/ exists r, r ∈ rs /\ matchRule Parse fold_unicode t r candidate = true)
  | None => c' = Some c /\ exists err, v = LoadFailed err
  end.
Proof.
  unfold Check_. pose proof (load_in_force ttl t1 t2 t3 rules mode t c) as H.
  destruct (load ttl t1 t2 t3 rules mode t c) as [c' a].
  destruct (in_force _ _ _ _ _ _ _) as [[rs set]|].
  - cbn in H. subst a. cbn. pose proof (modeOf_open rs set) as Hm.
    destruct (m_Mode (modeOf rs set) =? ModeOpen)%string.
    + split; [by left|]. split; [|done]. intros _. destruct Hm as [Hm _]. destruct (Hm eq_refl); tauto.
    + destruct (existsb _ rs) eqn:E.
      * split; [by left|]. split; [|done]. intros _. right. right.
        apply existsb_exists in E as (r & Hr & ?). exists r. by rewrite list_elem_of_In.
      * split; [by right|]. split; [done|]. intros [Hs|[Hs|(r & Hr & Hmr)]].
        -- destruct Hm as [_ Hm]. discriminate Hm. by left.
        -- destruct Hm as [_ Hm]. discriminate Hm. by right.
        -- assert (existsb (fun r => matchRule Parse fold_unicode t r candidate) rs = true); [|congruence].
           apply existsb_exists. exists r. by rewrite <- list_elem_of_In.
  - destruct H as [err [= -> ->]]. split; [done|]. by exists err.
Qed.

(** A rule made from the pattern suggested for an observation admits what
    was observed: every name-keyed type's package, a git repository or a file
    at least one directory below its host, and a Go module, except one whose
    path has exactly two segments, which the suggested pattern never matches. *)
Theorem SuggestPattern_admits Parse fold_unicode host path name :
  (forall s, fold_unicode s s = true) ->
  (forall t, t ∈ [TypePypi; TypeNpm; TypeCargo; TypeMaven; TypeRubygems; TypeComposer; TypeOCI] ->
     matchRule Parse fold_unicode t (rule_for t (SuggestPattern t host path name)) name = true)
  /\ matchRule Parse fold_unicode TypeGomod (rule_for TypeGomod (SuggestPattern TypeGomod host path name)) name
     = negb (length (Split "/" name) =? 2)%nat
  /\ (forall scheme org rest,
        path = "/" +:+ org +:+ "/" +:+ rest -> no_byte "/" org = true -> org <> "" ->
        no_byte "/" host = true -> no_byte ":" scheme = true ->
        matchRule Parse fold_unicode TypeGit (rule_for TypeGit (SuggestPattern TypeGit host path name))
          (scheme +:+ "://" +:+ host +:+ path) = true
        /\ forall t, t ∈ [TypeHelm; TypeBinary] ->
           matchRule Parse fold_unicode t (rule_for t (SuggestPattern t host path name))
             ("https://" +:+ host +:+ path) = true).
Proof.
  intros Hfold. split; [|split].
  - intros t. rewrite !elem_of_cons, elem_of_nil.
    destruct (CanonicalPypiName_normal name) as (_ & _ & Hp & _).
    intros [->|[->|[->|[->|[->|[->|[->|[]]]]]]]].
    + change ((CanonicalPypiName name =? CanonicalPypiName (CanonicalPypiName name))%string = true).
      rewrite Hp. apply String.eqb_refl.
    + apply npm_pattern_matches.
    + apply String.eqb_refl.
    + change (matchMaven name name = true). unfold matchMaven. by rewrite String.eqb_refl.
    + apply String.eqb_refl.
    + apply EqualFoldU_refl, Hfold.
    + change (matchNpm name name = true). unfold matchNpm. by rewrite String.eqb_refl.
  - apply gomod_pattern_matches.
  - intros scheme org rest -> Ho Hne Hh Hs. split.
    + change (HasPrefix (stripScheme (scheme +:+ "://" +:+ host +:+ "/" +:+ org +:+ "/" +:+ rest))
        (stripScheme (host +:+ "/" +:+ firstSegment ("/" +:+ org +:+ "/" +:+ rest) +:+ "/")) = true).
      rewrite firstSegment_cut, stripScheme_cut, stripScheme_plain by done.
      apply HasPrefix_spec. exists rest. by rewrite !app_assoc.
    + intros t Ht. assert (E : forall c, matchRule Parse fold_unicode t
        (rule_for t (SuggestPattern t host ("/" +:+ org +:+ "/" +:+ rest) name)) c
        = HasPrefix c ("https://" +:+ host +:+ "/" +:+ org +:+ "/")).
      { intros c. assert (Hp : (let seg := firstSegment ("/" +:+ org +:+ "/" +:+ rest) in
          if (seg =? "")%string then "https://" +:+ host +:+ "/" else "https://" +:+ host +:+ "/" +:+ seg +:+ "/")
          = "https://" +:+ host +:+ "/" +:+ org +:+ "/").
        { cbv zeta. rewrite firstSegment_cut by done. by rewrite (proj2 (String.eqb_neq org "")). }
        rewrite <- Hp. rewrite !elem_of_cons, elem_of_nil in Ht. destruct Ht as [->|[->|[]]]; reflexivity. }
      rewrite E. apply HasPrefix_spec. exists rest. by rewrite !app_assoc.
Qed.

Lemma SuggestPattern_admits_witness :
  (forall t, t ∈ [TypeNpm; TypeMaven] ->
     matchRule (fun _ => None) (fun a b => (a =? b)%string) t
       (rule_for t (SuggestPattern t "" "" "@types/node")) "@types/node" = true)
  /\ matchRule (fun _ => None) (fun a b => (a =? b)%string) TypeGit
       (rule_for TypeGit (SuggestPattern TypeGit "github.com" "/org/repo" "")) "https://github.com/org/repo" = true.
Proof.
  split.
  - intros t Ht. apply (proj1 (SuggestPattern_admits (fun _ => None) (fun a b => (a =? b)%string) "" "" "@types/node"
      String.eqb_refl)). rewrite !elem_of_cons, elem_of_nil in *. tauto.
  - destruct (proj2 (proj2 (SuggestPattern_admits (fun _ => None) (fun a b => (a =? b)%string) "github.com"
      "/org/repo" "" String.eqb_refl)) "https" "org" "repo") as [H _];
      [reflexivity|reflexivity|discriminate|reflexivity|reflexivity|exact H].
Defined.

(** The rule suggested for a two-segment module refuses that module. *)
Example two_segment_module :
  SuggestPattern TypeGomod "" "" "gopkg.in/yaml.v3" = "gopkg.in/yaml.v3/"
  /\ HasPrefix "gopkg.in/yaml.v3" "gopkg.in/yaml.v3/" = false.
Proof. split; reflexivity. Qed.
