(* ===== verification/AllowListCache.v ===== *)
(** The allow-list cache under concurrent checks: the critical sections of
    [Checker.load] and [Invalidate] in internal/policy/policy.go as a step
    relation, with the store changing between and inside them.

    A check either answers from a fresh entry, under the read lock or again
    under the write lock, or takes the write lock and makes two separate reads
    of the store, the rules and then the mode, before it stamps the entry.
    While it holds the lock no other check answers and no [Invalidate] runs,
    but the store, another process's, can change between its two reads. *)

From stdpp Require Import base list gmap strings relations.
From Stdlib Require Import ZArith Lia.
From S2P Require Import Prelude GoStrings Types AllowList.

(** What the store holds after one change, for every type. *)
Record Snapshot := MkSnapshot { sn_rules : gmap string (list Rule); sn_modes : gmap string string }.

Definition rules_of (s : Snapshot) (t : string) : list Rule := default [] (sn_rules s !! t).
Definition mode_of (s : Snapshot) (t : string) : string := default "" (sn_modes s !! t).

(** A cache entry with what the proofs keep about it: which states of the store
    its rules and its mode were read from, and when its reload took the lock. *)
Record entry := MkEntry { e_cached : cached; e_rv : nat; e_mv : nat; e_start : Z }.

(** The holder of the write lock, with the rules it has read. *)
Record pending := MkPending { pd_type : string; pd_start : Z; pd_rules : option (list Rule * nat) }.

(** The store's states, oldest first, with the time each was committed. *)
Record world := MkWorld {
  w_now : Z;
  w_hist : list (Z * Snapshot);
  w_cache : gmap string entry;
  w_lock : option pending;
  w_floor : nat   (* the store's state when [Invalidate] last ran *)
}.

(** A check of type [a_type] answered from these rules and this mode. *)
Record answer := MkAnswer { a_type : string; a_rules : list Rule; a_mode : string; a_entry : entry }.

Section cache.
Variable ttl : Z.

Definition current (w : world) : nat := pred (length (w_hist w)).

Definition holds (w : world) (v : nat) (s : Snapshot) : Prop := exists time, w_hist w !! v = Some (time, s).

Definition fresh_entry (w : world) (t : string) (e : entry) : Prop :=
  w_cache w !! t = Some e /\ w_now w - c_loaded (e_cached e) < ttl.

Definition answer_of (t : string) (e : entry) : answer :=
  MkAnswer t (c_rules (e_cached e)) (c_mode (e_cached e)) e.

Definition set_lock (l : option pending) (w : world) : world :=
  MkWorld (w_now w) (w_hist w) (w_cache w) l (w_floor w).

Inductive step (w : world) : option answer -> world -> Prop :=
| step_tick d :
    0 <= d -> step w None (MkWorld (w_now w + d) (w_hist w) (w_cache w) (w_lock w) (w_floor w))
| step_commit s :
    step w None (MkWorld (w_now w) (w_hist w ++ [(w_now w, s)]) (w_cache w) (w_lock w) (w_floor w))
| step_invalidate :
    w_lock w = None -> step w None (MkWorld (w_now w) (w_hist w) ∅ None (current w))
| step_hit t e :
    w_lock w = None -> fresh_entry w t e -> step w (Some (answer_of t e)) w
| step_lock t :
    w_lock w = None -> (forall e, ~ fresh_entry w t e) ->
    step w None (set_lock (Some (MkPending t (w_now w) None)) w)
| step_read_rules t start s :
    w_lock w = Some (MkPending t start None) -> holds w (current w) s ->
    step w None (set_lock (Some (MkPending t start (Some (rules_of s t, current w)))) w)
| step_failed p :
    w_lock w = Some p -> step w None (set_lock None w)
| step_fill t start rules rv s :
    w_lock w = Some (MkPending t start (Some (rules, rv))) -> holds w (current w) s ->
    let e := MkEntry (MkCached rules (mode_of s t) (w_now w)) rv (current w) start in
    step w (Some (answer_of t e))
      (MkWorld (w_now w) (w_hist w) (<[t := e]> (w_cache w)) None (w_floor w)).

Definition moves (w w' : world) : Prop := exists a, step w a w'.

(** The store holds something, nothing is cached and nobody holds the lock. *)
Definition initial (w : world) : Prop :=
  (exists s, w_hist w = [(w_now w, s)]) /\ w_cache w = ∅ /\ w_lock w = None /\ w_floor w = 0%nat.

(** What is known of the rules and the mode an entry was filled from. *)
Record rules_read (w : world) (t : string) (start : Z) (rules : list Rule) (rv : nat) : Prop := {
  rr_rules : exists s, holds w rv s /\ rules = rules_of s t;
  rr_start : start <= w_now w;
  rr_floor : (w_floor w <= rv)%nat;
  rr_seen : forall v time s, w_hist w !! v = Some (time, s) -> time < start -> (v <= rv)%nat
}.

Record entry_ok (w : world) (t : string) (e : entry) : Prop := {
  eo_rules : rules_read w t (e_start e) (c_rules (e_cached e)) (e_rv e);
  eo_mode : exists s, holds w (e_mv e) s /\ c_mode (e_cached e) = mode_of s t;
  eo_order : (e_rv e <= e_mv e)%nat;
  eo_loaded : e_start e <= c_loaded (e_cached e) <= w_now w
}.

Record invariant (w : world) : Prop := {
  inv_hist : w_hist w <> [];
  inv_times : forall v time s, w_hist w !! v = Some (time, s) -> time <= w_now w;
  inv_floor : (w_floor w <= current w)%nat;
  inv_cache : forall t e, w_cache w !! t = Some e -> entry_ok w t e;
  inv_lock : forall t start r, w_lock w = Some (MkPending t start r) ->
    start <= w_now w
    /\ match r with Some (rules, rv) => rules_read w t start rules rv /\ (rv <= current w)%nat | None => True end
}.

(** * The invariant *)

(** A world with more history, later in time, under the same floor. *)
Definition extends (w w' : world) : Prop :=
  w_now w <= w_now w' /\ w_floor w' = w_floor w
  /\ exists l, w_hist w' = w_hist w ++ l /\ Forall (fun c => w_now w <= fst c) l.

Lemma extends_now w w' : extends w w' -> w_now w <= w_now w'.
Proof. by intros []. Qed.

Lemma holds_extends w w' v s : extends w w' -> holds w v s -> holds w' v s.
Proof.
  intros (_ & _ & l & Hl & _) [time Hv]. exists time. rewrite Hl. by apply lookup_app_l_Some.
Qed.

Lemma seen_extends w w' start rv :
  extends w w' -> start <= w_now w ->
  (forall v time s, w_hist w !! v = Some (time, s) -> time < start -> (v <= rv)%nat) ->
  forall v time s, w_hist w' !! v = Some (time, s) -> time < start -> (v <= rv)%nat.
Proof.
  intros (_ & _ & l & Hl & Hnew) Hs Hseen v time s Hv Ht. rewrite Hl in Hv.
  apply lookup_app_Some in Hv as [Hv|[_ Hv]]; [by eapply Hseen|].
  rewrite Forall_lookup in Hnew. specialize (Hnew _ _ Hv). cbn in Hnew. lia.
Qed.

Lemma rules_read_extends w w' t start rules rv :
  extends w w' -> rules_read w t start rules rv -> rules_read w' t start rules rv.
Proof.
  intros He [(s & Hh & Hr) Hs Hf Hseen]. split.
  - exists s. split; [by eapply holds_extends|done].
  - pose proof (extends_now _ _ He). lia.
  - destruct He as (_ & -> & _). done.
  - by eapply seen_extends.
Qed.

Lemma entry_ok_extends w w' t e : extends w w' -> entry_ok w t e -> entry_ok w' t e.
Proof.
  intros He [Hr (s & Hh & Hm) Ho Hl]. split; [by eapply rules_read_extends| |done|].
  - exists s. split; [by eapply holds_extends|done].
  - pose proof (extends_now _ _ He). lia.
Qed.

Lemma extends_refl w w' :
  w_now w' = w_now w -> w_hist w' = w_hist w -> w_floor w' = w_floor w -> extends w w'.
Proof.
  intros Hn Hh Hf. split; [lia|split; [done|]]. exists []. by rewrite Hh, List.app_nil_r.
Qed.
Lemma current_bound w v time s : w_hist w !! v = Some (time, s) -> (v <= current w)%nat.
Proof. intros H%lookup_lt_Some. unfold current. lia. Qed.

Lemma current_grows w w' : extends w w' -> (current w <= current w')%nat.
Proof. intros (_ & _ & l & Hl & _). unfold current. rewrite Hl, length_app. lia. Qed.

(** A step that neither invalidates nor answers keeps every entry and the
    reads of the lock's holder. *)
Lemma invariant_extends w w' :
  extends w w' -> w_cache w' = w_cache w -> w_lock w' = w_lock w ->
  (forall v time s, w_hist w' !! v = Some (time, s) -> time <= w_now w') ->
  invariant w -> invariant w'.
Proof.
  intros He Hc Hl Ht [Hh _ Hf Hcache Hlock]. pose proof (extends_now _ _ He) as Hn.
  pose proof (current_grows _ _ He) as Hg. split; [| |by destruct He as (_ & -> & _); lia| |].
  - destruct He as (_ & _ & l & -> & _). by destruct (w_hist w).
  - exact Ht.
  - intros t e. rewrite Hc. intros H%Hcache. by eapply entry_ok_extends.
  - intros t start r. rewrite Hl. intros [Hs Hr]%Hlock. split; [lia|].
    destruct r as [[rules rv]|]; [|done]. destruct Hr as [Hr Hrv]. split; [|lia].
    by eapply rules_read_extends.
Qed.

Lemma fresh_read w t start :
  invariant w -> start <= w_now w -> forall s, holds w (current w) s ->
  rules_read w t start (rules_of s t) (current w).
Proof.
  intros Hi Hs s Hh. split; [by exists s|done|apply (inv_floor w Hi)|].
  intros v time s' Hv _. by eapply current_bound.
Qed.

Lemma set_lock_ok w l :
  invariant w ->
  (forall t start r, l = Some (MkPending t start r) -> start <= w_now w /\
     match r with Some (rules, rv) => rules_read w t start rules rv /\ (rv <= current w)%nat | None => True end) ->
  invariant (set_lock l w).
Proof.
  intros [Hh Ht Hf Hc _] Hl. split; [done|done|done| |].
  - intros t e H%Hc. by apply (entry_ok_extends w); [apply extends_refl|].
  - intros t start r [Hs Hr]%Hl. split; [done|]. destruct r as [[rules rv]|]; [|done].
    destruct Hr as [Hr Hrv]. split; [|done]. by apply (rules_read_extends w); [apply extends_refl|].
Qed.

(** The entry a reload stores. *)
Lemma filled_ok w t start rules rv s :
  invariant w -> w_lock w = Some (MkPending t start (Some (rules, rv))) -> holds w (current w) s ->
  entry_ok w t (MkEntry (MkCached rules (mode_of s t) (w_now w)) rv (current w) start).
Proof.
  intros Hi Hl Hs. destruct (inv_lock w Hi _ _ _ Hl) as (Hst & Hr & Hrv).
  split; cbn; [done|by exists s|done|lia].
Qed.

Lemma step_invariant w a w' : invariant w -> step w a w' -> invariant w'.
Proof.
  intros Hi Hs. destruct Hs as [d Hd|s|Hl|t e Hl He|t Hl Hf|t start s Hl Hs|p Hl|t start rules rv s Hl Hs].
  - eapply invariant_extends; [| | | |exact Hi]; try done.
    + split; [cbn; lia|split; [done|]]. exists []. by rewrite List.app_nil_r.
    + cbn. intros v time s Hv%(inv_times w Hi). lia.
  - eapply invariant_extends; [| | | |exact Hi]; try done.
    + split; [cbn; lia|split; [done|]]. eexists. split; [done|]. by repeat constructor.
    + cbn. intros v time s' Hv. apply lookup_app_Some in Hv as [Hv|[_ Hv]]; [by eapply (inv_times w Hi)|].
      apply list_lookup_singleton_Some in Hv as [_ [= <- _]]. done.
  - destruct Hi as [Hh Ht Hf _ _]. split; cbn; try done.
  - done.
  - apply set_lock_ok; [done|]. intros t' start r [= <- <- <-]. done.
  - apply set_lock_ok; [done|]. intros t' start' r [= <- <- <-].
    destruct (inv_lock w Hi _ _ _ Hl) as [Hst _]. split; [done|]. split; [by apply fresh_read|done].
  - by apply set_lock_ok.
  - pose proof (filled_ok _ _ _ _ _ _ Hi Hl Hs) as He. destruct Hi as [Hh Ht Hf Hc _].
    split; [done|done|done| |done]. cbn. intros t' e'.
    destruct (decide (t' = t)) as [->|Hne].
    + rewrite lookup_insert_eq. intros [= <-]. by apply (entry_ok_extends w); [apply extends_refl|].
    + rewrite lookup_insert_ne by done. intros H%Hc. by apply (entry_ok_extends w); [apply extends_refl|].
Qed.

Lemma initial_invariant w : initial w -> invariant w.
Proof.
  intros ((s & Hh) & Hc & Hl & Hf). split.
  - by rewrite Hh.
  - rewrite Hh. intros v time s' H%list_lookup_singleton_Some. destruct H as [_ [= <- _]]. done.
  - rewrite Hf. lia.
  - rewrite Hc. intros t e. by rewrite lookup_empty.
  - by rewrite Hl.
Qed.

Lemma reachable_invariant w0 w : initial w0 -> rtc moves w0 w -> invariant w.
Proof.
  intros Hi Hr. assert (Hinv : invariant w0) by by apply initial_invariant. clear Hi.
  induction Hr as [|w1 w2 w3 [a Hs] _ IH]; [done|]. apply IH. by eapply step_invariant.
Qed.

(** What an answer rests on. *)
Lemma answer_entry w a w' :
  invariant w -> step w (Some a) w' ->
  entry_ok w (a_type a) (a_entry a) /\ a = answer_of (a_type a) (a_entry a)
  /\ (e_mv (a_entry a) <= current w)%nat
  /\ (w_now w - c_loaded (e_cached (a_entry a)) < ttl \/ c_loaded (e_cached (a_entry a)) = w_now w).
Proof.
  intros Hi Hs. remember (Some a) as oa eqn:Ea.
  destruct Hs as [| | |t e Hl [He Hf]|t Hl Hf| |t|t start rules rv s Hl Hs]; try discriminate;
    injection Ea as <-; cbn.
  - pose proof (inv_cache _ Hi _ _ He) as Ho. split; [done|split; [done|split; [|by left]]].
    destruct (eo_mode _ _ _ Ho) as (s & (time & Hm) & _). by eapply current_bound.
  - split; [by apply filled_ok|split; [done|split; [done|by right]]].
Qed.

(** * The whole of [load] *)

Definition erase (w : world) : Cache := e_cached <$> w_cache w.

Definition mode_read (s : Snapshot) (t : string) : mode_answer :=
  match sn_modes s !! t with Some m => GotMode m | None => ModeNotFound end.

Lemma set_mode_read s t : set_mode (mode_read s t) = inl (mode_of s t).
Proof. unfold mode_read, mode_of. by destruct (sn_modes s !! t). Qed.

Lemma fresh_erase w t :
  fresh ttl (w_now w) (erase w) t
  = match w_cache w !! t with
    | Some e => if w_now w - c_loaded (e_cached e) <? ttl then Some (e_cached e) else None
    | None => None
    end.
Proof. unfold fresh, erase, Cache. rewrite lookup_fmap. by destruct (w_cache w !! t). Qed.

Lemma load_steps w t s :
  w_lock w = None -> holds w (current w) s ->
  exists w1 a w', rtc moves w w1 /\ step w1 (Some a) w' /\ a_type a = t /\
    load ttl (w_now w) (w_now w) (w_now w) (GotRules (rules_of s t)) (mode_read s t) t (erase w)
    = (erase w', inl (a_rules a, modeOf (a_rules a) (a_mode a))).
Proof.
  intros Hl Hs. unfold load. rewrite !fresh_erase, set_mode_read.
  assert (Hmiss : (forall e, ~ fresh_entry w t e) ->
    exists w1 a w', rtc moves w w1 /\ step w1 (Some a) w' /\ a_type a = t /\
      (<[t := MkCached (rules_of s t) (mode_of s t) (w_now w)]> (erase w),
       @inl _ load_error (rules_of s t, modeOf (rules_of s t) (mode_of s t)))
      = (erase w', inl (a_rules a, modeOf (a_rules a) (a_mode a)))).
  { intros Hf. pose (w1 := set_lock (Some (MkPending t (w_now w) None)) w).
    pose (w2 := set_lock (Some (MkPending t (w_now w) (Some (rules_of s t, current w)))) w1).
    exists w2. eexists _, _. split; [|split; [apply (step_fill w2 t (w_now w) (rules_of s t) (current w) s); done|]].
    - eapply rtc_l; [exists None; by apply (step_lock w t)|]. eapply rtc_l; [|apply rtc_refl].
      exists None. by apply (step_read_rules w1 t (w_now w) s).
    - split; [done|]. unfold erase. cbn [w_cache]. by rewrite fmap_insert. }
  destruct (w_cache w !! t) as [e|] eqn:Ee.
  - destruct (w_now w - c_loaded (e_cached e) <? ttl) eqn:Ef.
    + exists w, (answer_of t e), w. split; [apply rtc_refl|split; [|done]]. apply step_hit; [done|].
      split; [done|lia].
    + apply Hmiss. intros e' [He Hf]. rewrite Ee in He. injection He as <-. lia.
  - apply Hmiss. intros e' [He _]. congruence.
Qed.
End cache.

(** * Properties *)

(** C35: a check never answers from rules or a mode the store did not hold.
    However checks, changes of the store and invalidations interleave, an
    answer's rules are those of one state of the store and its mode that of the
    same state or a later one; neither is older than the last [Invalidate],
    every change committed before the reload took the lock is in them, and the
    reload's stamp is less than the cache's lifetime old. *)
Theorem answers_bounded_staleness ttl w0 w a w' :
  initial w0 -> rtc (moves ttl) w0 w -> step ttl w (Some a) w' ->
  exists rv mv start loaded,
    (exists s, holds w rv s /\ a_rules a = rules_of s (a_type a))
    /\ (exists s, holds w mv s /\ a_mode a = mode_of s (a_type a))
    /\ (w_floor w <= rv <= mv)%nat /\ (mv <= current w)%nat
    /\ start <= loaded <= w_now w
    /\ (w_now w - loaded < ttl \/ loaded = w_now w)
    /\ forall v time s, w_hist w !! v = Some (time, s) -> time < start -> (v <= rv)%nat.
Proof.
  intros Hi Hr Hs. apply (reachable_invariant ttl) in Hr; [|done].
  destruct (answer_entry ttl w a w' Hr Hs) as (He & Ha & Hmv & Hage).
  destruct He as [[Hrules Hst Hfl Hseen] Hmode Hord Hload].
  exists (e_rv (a_entry a)), (e_mv (a_entry a)), (e_start (a_entry a)), (c_loaded (e_cached (a_entry a))).
  rewrite Ha. cbn. destruct Hrules as (s1 & ? & ?), Hmode as (s2 & ? & ?). split_and!; eauto; lia.
Qed.

Definition state_with (rules : list Rule) (mode : string) : Snapshot :=
  MkSnapshot {[ "npm" := rules ]} {[ "npm" := mode ]}.

Definition lodash : Rule := MkRule "1" "npm" "package" "lodash" "" 0 "cli".

Definition start_world : world := MkWorld 100 [(100, state_with [] "open")] ∅ None 0.

Definition torn_world : world :=
  MkWorld 100 [(100, state_with [] "open"); (100, state_with [lodash] "listed")] ∅
    (Some (MkPending "npm" 100 (Some ([], 0%nat)))) 0.

(** A reload that read the rules before a change and the mode after it. *)
Lemma answers_bounded_staleness_witness :
  exists rv mv : nat,
    (exists s, holds torn_world rv s /\ [] = rules_of s "npm")
    /\ (exists s, holds torn_world mv s /\ "listed" = mode_of s "npm") /\ (rv <= mv)%nat.
Proof.
  pose (w1 := set_lock (Some (MkPending "npm" 100 None)) start_world).
  pose (w2 := set_lock (Some (MkPending "npm" 100 (Some ([], 0%nat)))) w1).
  destruct (answers_bounded_staleness 30 start_world torn_world
    (answer_of "npm" (MkEntry (MkCached [] "listed" 100) 0 1 100))
    (MkWorld 100 (w_hist torn_world) (<["npm" := MkEntry (MkCached [] "listed" 100) 0 1 100]> ∅) None 0))
    as (rv & mv & start & loaded & H1 & H2 & H3 & H4 & H5 & _).
  - split; [by eexists|done].
  - eapply rtc_l; [exists None; apply (step_lock 30 start_world "npm"); [done|]|].
    { intros e [He _]. cbn in He. by rewrite lookup_empty in He. }
    eapply rtc_l; [exists None; apply (step_read_rules 30 w1 "npm" 100 (state_with [] "open")); [done|by eexists]|].
    eapply rtc_l; [exists None; apply (step_commit 30 w2 (state_with [lodash] "listed"))|]. apply rtc_refl.
  - apply (step_fill 30 torn_world "npm" 100 [] 0 (state_with [lodash] "listed")); [done|by eexists].
  - exists rv, mv. split; [exact H1|split; [exact H2|lia]].
Defined.

(** The sequential code refines the step relation: run on the cache of a
    world whose lock is free, with what the store holds as its answers,
    [load] returns what a check of that world answers after the steps of its
    critical sections, and leaves that world's cache. *)
Theorem load_refines ttl w t s :
  w_lock w = None -> holds w (current w) s ->
  exists w1 a w', rtc (moves ttl) w w1 /\ step ttl w1 (Some a) w' /\ a_type a = t /\
    load ttl (w_now w) (w_now w) (w_now w) (GotRules (rules_of s t)) (mode_read s t) t (erase w)
    = (erase w', inl (a_rules a, modeOf (a_rules a) (a_mode a))).
Proof. apply load_steps. Qed.

Lemma load_refines_witness :
  exists w1 a w', rtc (moves 30) start_world w1 /\ step 30 w1 (Some a) w' /\ a_type a = "npm" /\
    load 30 100 100 100 (GotRules []) (GotMode "open") "npm" ∅
    = (erase w', inl (a_rules a, modeOf (a_rules a) (a_mode a))).
Proof.
  destruct (load_refines 30 start_world "npm" (state_with [] "open") eq_refl) as (w1 & a & w' & H1 & H2 & H3 & H4).
  - by eexists.
  - exists w1, a, w'. split; [exact H1|split; [exact H2|split; [exact H3|exact H4]]].
Defined.
