(* ===== verification/Override.v ===== *)
(** Two-person overrides: the record, the voting rules and the store of
    internal/audit/override.go, the request, listing and lookup of
    internal/admit/override.go, and the duration they are asked for with
    (ParseTTL of internal/config/config.go).

    A time is its nanoseconds since the epoch, which is what the RFC 3339
    column keeps.  Each store call is one SQLite transaction on the single
    writer, so it is one step here.  The two ORDER BY clauses are parameters:
    [order_votes] and [order_rows] may be any permutation.  The text of a
    refusal is the constructor that stands for it. *)

From stdpp Require Import base list gmap strings relations.
From Stdlib Require Import ZArith Lia Ascii.
From S2P Require Import Prelude GoStrings Regexp Types Scope.

(** ** Records *)

Definition OverridePending := "pending".
Definition OverrideApproved := "approved".
Definition OverrideRejected := "rejected".

Definition OverrideStatusPending := "pending".
Definition OverrideStatusActive := "active".
Definition OverrideStatusExpired := "expired".
Definition OverrideStatusRejected := "rejected".

Definition VoteApprove := "approve".
Definition VoteReject := "reject".

Definition OverrideScopeLocal := "local".

(** Why an approval does not count; [None] is the empty reason. *)
Inductive uncounted :=
| HoldsNoApprove (scope : string)
| TokenMintedBy (requester : string)
| BindingMadeBy (requester : string).

Record OverrideVote := MkVote {
  v_Identity : string;
  v_Vote : string;
  v_Comment : string;
  v_VotedAt : Z;
  v_Scope : string;
  v_Counted : bool;
  v_NotCounted : option uncounted
}.

Record Override := MkOverride {
  o_ID : string;
  o_PkgType : string;
  o_PkgName : string;
  o_PkgVersion : string;
  o_Check : string;
  o_Reason : string;
  o_RequestedBy : string;
  o_RequestedAt : Z;
  o_ExpiresAt : Z;
  o_Quorum : Z;
  o_RequesterCounts : bool;
  o_State : string;
  o_DecidedAt : option Z;
  o_Votes : list OverrideVote
}.

Record OverrideCaller := MkCaller {
  c_Identity : string;
  c_Scope : string;
  c_TokenCreatedBy : string;
  c_BindingActor : string
}.

Definition LocalOverrideCaller (identity : string) : OverrideCaller :=
  MkCaller identity OverrideScopeLocal "" "".

Definition set_votes (vs : list OverrideVote) (o : Override) : Override :=
  MkOverride (o_ID o) (o_PkgType o) (o_PkgName o) (o_PkgVersion o) (o_Check o) (o_Reason o)
    (o_RequestedBy o) (o_RequestedAt o) (o_ExpiresAt o) (o_Quorum o) (o_RequesterCounts o)
    (o_State o) (o_DecidedAt o) vs.

Definition set_decision (state : string) (at_ : option Z) (o : Override) : Override :=
  MkOverride (o_ID o) (o_PkgType o) (o_PkgName o) (o_PkgVersion o) (o_Check o) (o_Reason o)
    (o_RequestedBy o) (o_RequestedAt o) (o_ExpiresAt o) (o_Quorum o) (o_RequesterCounts o)
    state at_ (o_Votes o).

(** ** Weighing a caller *)

Definition HoldsApprove (c : OverrideCaller) : bool :=
  if (c_Scope c =? OverrideScopeLocal)%string then true
  else match ParseScopes (c_Scope c) with
       | inl s => Has s ScopeApprove
       | inr _ => false
       end.

Definition notCounted (c : OverrideCaller) (requester : string) : option uncounted :=
  if negb (HoldsApprove c) then Some (HoldsNoApprove (c_Scope c))
  else if (c_TokenCreatedBy c =? requester)%string then Some (TokenMintedBy requester)
  else if (c_BindingActor c =? requester)%string then Some (BindingMadeBy requester)
  else None.

(** ** Reading an override *)

Definition counts (o : Override) (v : OverrideVote) : bool :=
  (v_Vote v =? VoteApprove)%string && v_Counted v && negb (v_Identity v =? o_RequestedBy o)%string.

Definition Approvers (o : Override) : list string :=
  (if o_RequesterCounts o then [o_RequestedBy o] else [])
  ++ map v_Identity (List.filter (counts o) (o_Votes o)).

Definition Remaining (o : Override) : Z := Z.max (o_Quorum o - Z.of_nat (length (Approvers o))) 0.

(** [!now.Before(o.ExpiresAt)] *)
Definition Expired (o : Override) (now : Z) : bool := negb (now <? o_ExpiresAt o).

Definition Active (o : Override) (now : Z) : bool :=
  (o_State o =? OverrideApproved)%string && negb (Expired o now).

Definition StatusAt (o : Override) (now : Z) : string :=
  if (o_State o =? OverrideRejected)%string then OverrideStatusRejected
  else if Expired o now then OverrideStatusExpired
  else if (o_State o =? OverrideApproved)%string then OverrideStatusActive
  else OverrideStatusPending.

(** ** The store *)

Inductive override_error :=
| ErrOverrideNotFound
| ErrSelfApproval
| ErrAlreadyVoted (vote : string) (at_ : Z)
| ClosedRejected
| ClosedExpired (at_ : Z)
| ClosedApproved
| StoreConstraint.

(** The schema's constraints: the id is the primary key and the quorum is two
    or more.  The votes of a new id are the empty table. *)
Definition InsertOverride (db : gmap string Override) (o : Override) : gmap string Override + override_error :=
  if bool_decide (is_Some (db !! o_ID o)) || (o_Quorum o <? 2) then inr StoreConstraint
  else inl (<[o_ID o := set_votes [] (set_decision OverridePending None o)]> db).

Section store.
Context (order_votes : list OverrideVote -> list OverrideVote).
Context (order_rows : list Override -> list Override).

Definition getOverride (db : gmap string Override) (id : string) : Override + override_error :=
  match db !! id with
  | Some o => inl (set_votes (order_votes (o_Votes o)) o)
  | None => inr ErrOverrideNotFound
  end.

(** The row as the vote leaves it, or the refusal, with nothing written. *)
Definition cast_vote (o : Override) (voter : OverrideCaller) (vote comment : string) (now : Z)
  : Override + override_error :=
  let identity := c_Identity voter in
  if (o_State o =? OverrideRejected)%string then inr ClosedRejected
  else if Expired o now then inr (ClosedExpired (o_ExpiresAt o))
  else if (vote =? VoteApprove)%string && (o_State o =? OverrideApproved)%string then inr ClosedApproved
  else if (vote =? VoteApprove)%string && (identity =? o_RequestedBy o)%string then inr ErrSelfApproval
  else
    match List.find (fun v => (v_Identity v =? identity)%string) (o_Votes o) with
    | Some v => inr (ErrAlreadyVoted (v_Vote v) (v_VotedAt v))
    | None =>
        let why := if (vote =? VoteApprove)%string then notCounted voter (o_RequestedBy o) else None in
        let v := MkVote identity vote comment now (c_Scope voter)
                   (match why with None => true | Some _ => false end) why in
        if negb (slice_contains [VoteApprove; VoteReject] vote) then inr StoreConstraint
        else
          let o := set_votes (o_Votes o ++ [v]) o in
          let next :=
            if (vote =? VoteReject)%string then OverrideRejected
            else if o_Quorum o <=? Z.of_nat (length (Approvers o)) then OverrideApproved
            else o_State o in
          if negb (next =? o_State o)%string then inl (set_decision next (Some now) o) else inl o
    end.

(** The transaction: read, vote, write back.  The vote's row joins the table
    as it was stored; the order it is read back in is the query's. *)
Definition VoteOverride (db : gmap string Override) (id : string) (voter : OverrideCaller) (vote comment : string)
  (now : Z) : gmap string Override * (Override + override_error) :=
  match getOverride db id with
  | inr err => (db, inr err)
  | inl o =>
      match cast_vote o voter vote comment now with
      | inr err => (db, inr err)
      | inl o' => (<[id := o']> db, inl o')
      end
  end.

Record OverrideFilter := MkFilter { f_PkgType : string; f_PkgName : string; f_State : string }.

Definition selects (f : OverrideFilter) (o : Override) : bool :=
  ((f_PkgType f =? "")%string || (o_PkgType o =? f_PkgType f)%string)
  && ((f_PkgName f =? "")%string || (o_PkgName o =? f_PkgName f)%string)
  && ((f_State f =? "")%string || (o_State o =? f_State f)%string).

Definition ListOverrides (db : gmap string Override) (f : OverrideFilter) : list Override :=
  map (fun o => set_votes (order_votes (o_Votes o)) o)
    (order_rows (List.filter (selects f) (map snd (map_to_list db)))).
End store.

(** ** The life of an override

    A ballot is an accepted vote: the override, the caller, the vote. *)

Definition ballot : Type := string * OverrideCaller * string.

Section life.
Context (order_votes : list OverrideVote -> list OverrideVote).
Context (order_votes_perm : forall vs, order_votes vs ≡ₚ vs).

Inductive step : gmap string Override * list ballot -> gmap string Override * list ballot -> Prop :=
| step_request db h o db' :
    InsertOverride db o = inl db' -> step (db, h) (db', h)
| step_vote db h id voter vote comment now db' r :
    VoteOverride order_votes db id voter vote comment now = (db', r) ->
    step (db, h) (db', match r with inl _ => (id, voter, vote) :: h | inr _ => h end).

Definition reachable (s : gmap string Override * list ballot) : Prop := rtc step (∅, []) s.

(** The state the votes decide. *)
Definition rejects (v : OverrideVote) : bool := (v_Vote v =? VoteReject)%string.

Definition decided (o : Override) : string :=
  if existsb rejects (o_Votes o) then OverrideRejected
  else if o_Quorum o <=? Z.of_nat (length (Approvers o)) then OverrideApproved
  else OverridePending.

Record vote_ok (h : list ballot) (id : string) (o : Override) (v : OverrideVote) : Prop := {
  vo_kind : v_Vote v = VoteApprove \/ v_Vote v = VoteReject;
  vo_ballot : exists c, (id, c, v_Vote v) ∈ h /\ c_Identity c = v_Identity v /\ c_Scope c = v_Scope v /\
    (v_Vote v = VoteApprove -> v_NotCounted v = notCounted c (o_RequestedBy o));
  vo_counted : v_Vote v = VoteApprove ->
    v_Identity v <> o_RequestedBy o /\ (v_Counted v = true <-> v_NotCounted v = None)
}.

Record override_inv (h : list ballot) (id : string) (o : Override) : Prop := {
  oi_id : o_ID o = id;
  oi_quorum : 2 <= o_Quorum o;
  oi_state : o_State o = decided o;
  oi_once : NoDup (map v_Identity (o_Votes o));
  oi_votes : Forall (vote_ok h id o) (o_Votes o)
}.

Lemma filter_perm {A} (p : A -> bool) l l' : l ≡ₚ l' -> List.filter p l ≡ₚ List.filter p l'.
Proof.
  induction 1 as [|x l l' _ IH|x y l|l l' l'' _ IH1 _ IH2]; simpl; [done| | |by rewrite IH1].
  - destruct (p x); by rewrite IH.
  - destruct (p x), (p y); try done. apply Permutation_swap.
Qed.

Lemma Approvers_perm o vs : vs ≡ₚ o_Votes o -> Approvers (set_votes vs o) ≡ₚ Approvers o.
Proof.
  intros Hp. unfold Approvers. cbn [o_RequesterCounts o_RequestedBy o_Votes set_votes].
  apply Permutation_app_head, Permutation_map.
  change (List.filter _ vs) with (List.filter (counts o) vs). by apply filter_perm.
Qed.

Lemma inv_perm h id o vs : vs ≡ₚ o_Votes o -> override_inv h id o -> override_inv h id (set_votes vs o).
Proof.
  intros Hp [H1 H2 H3 H4 H5]. split; simpl; [done|done| |by rewrite Hp|].
  - rewrite H3. unfold decided. simpl. rewrite (existsb_perm _ _ _ Hp).
    by rewrite (Permutation_length (Approvers_perm o vs Hp)).
  - apply (Forall_impl (vote_ok h id o)); [by rewrite Hp|]. intros v [K1 K2 K3]. by split.
Qed.

Lemma vote_ok_mono h h' id o v : h ⊆ h' -> vote_ok h id o v -> vote_ok h' id o v.
Proof.
  intros Hh [H1 (c & Hc & H) H3]. split; [done| |done]. exists c. split; [by apply Hh|done].
Qed.

Lemma inv_mono h h' id o : h ⊆ h' -> override_inv h id o -> override_inv h' id o.
Proof.
  intros Hh [H1 H2 H3 H4 H5]. split; [done..|]. eapply Forall_impl; [exact H5|].
  intros v. by apply vote_ok_mono.
Qed.

(** What an accepted vote writes. *)
Definition new_vote (o : Override) (voter : OverrideCaller) (vote comment : string) (now : Z)
  : OverrideVote :=
  let why := if (vote =? VoteApprove)%string then notCounted voter (o_RequestedBy o) else None in
  MkVote (c_Identity voter) vote comment now (c_Scope voter)
    (match why with None => true | Some _ => false end) why.

Lemma cast_vote_accepts o voter vote comment now o' :
  cast_vote o voter vote comment now = inl o' ->
  o_State o <> OverrideRejected /\ Expired o now = false /\
  (vote = VoteApprove -> o_State o <> OverrideApproved /\ c_Identity voter <> o_RequestedBy o) /\
  (vote = VoteApprove \/ vote = VoteReject) /\
  (c_Identity voter ∉ map v_Identity (o_Votes o)) /\
  exists at_, (let o2 := set_votes (o_Votes o ++ [new_vote o voter vote comment now]) o in
    o' = set_decision (if (vote =? VoteReject)%string then OverrideRejected
                       else if o_Quorum o <=? Z.of_nat (length (Approvers o2)) then OverrideApproved
                       else o_State o) at_ o2).
Proof.
  unfold cast_vote. destruct (String.eqb_spec (o_State o) OverrideRejected) as [|Hnr]; [done|].
  destruct (Expired o now); [done|].
  destruct (_ && (o_State o =? OverrideApproved)%string) eqn:Ea; [done|].
  destruct (_ && (c_Identity voter =? o_RequestedBy o)%string) eqn:Er; [done|].
  destruct (List.find _ _) as [|] eqn:Ef; [done|].
  destruct (slice_contains [VoteApprove; VoteReject] vote) eqn:Ev; [|done].
  cbn [negb]. intros H. split; [done|]. split; [done|]. split; [|split; [|split]].
  - intros ->. rewrite String.eqb_refl in Ea, Er. simpl in Ea, Er.
    by apply String.eqb_neq in Ea, Er.
  - apply slice_contains_spec in Ev. rewrite !elem_of_cons, elem_of_nil in Ev. tauto.
  - intros (v & Hv & Hin)%list_elem_of_fmap. apply list_elem_of_In in Hin.
    pose proof (find_none _ _ Ef v Hin) as Hn. simpl in Hn. by rewrite Hv, String.eqb_refl in Hn.
  - fold (new_vote o voter vote comment now) in H. cbv zeta in H |- *.
    set (o3 := set_votes _ o) in *.
    match type of H with (if ?b then _ else _) = _ => destruct b eqn:En end; injection H as <-.
    + by exists (Some now).
    + apply negb_false_iff, String.eqb_eq in En. exists (o_DecidedAt o3).
      transitivity (set_decision (o_State o3) (o_DecidedAt o3) o3); [done|]. f_equal. symmetry. exact En.
Qed.

Lemma decided_add o v :
  decided (set_votes (o_Votes o ++ [v]) o) =
  if existsb rejects (o_Votes o) || rejects v then OverrideRejected
  else if o_Quorum o <=? Z.of_nat (length (Approvers (set_votes (o_Votes o ++ [v]) o)))
  then OverrideApproved else OverridePending.
Proof. unfold decided. cbn [o_Votes set_votes o_Quorum]. rewrite existsb_app. cbn [existsb]. by rewrite orb_false_r. Qed.

(** A vote keeps the invariant. *)
Lemma cast_vote_inv h id o voter vote comment now o' :
  override_inv h id o -> cast_vote o voter vote comment now = inl o' ->
  override_inv ((id, voter, vote) :: h) id o'.
Proof.
  intros [H1 H2 H3 H4 H5] Hcast.
  destruct (cast_vote_accepts _ _ _ _ _ _ Hcast) as (Hnr & _ & Happ & Hv & Hnew & at_ & ->).
  set (v := new_vote o voter vote comment now) in *.
  assert (Hrej : existsb rejects (o_Votes o) = false).
  { rewrite H3 in Hnr. revert Hnr. unfold decided. by destruct (existsb _ _). }
  split; cbn [o_ID o_Quorum o_State o_Votes set_decision set_votes]; [done|done| | |].
  - change (decided _) with (decided (set_votes (o_Votes o ++ [v]) o)). rewrite decided_add, Hrej.
    change (rejects v) with (vote =? VoteReject)%string. cbn [orb].
    destruct (String.eqb_spec vote VoteReject) as [|Hvr]; [done|].
    destruct Hv as [Hva|]; [|done]. destruct (o_Quorum o <=? _); [done|].
    destruct (Happ Hva) as [Hna _]. revert Hna. rewrite H3. unfold decided. rewrite Hrej.
    by destruct (o_Quorum o <=? _).
  - rewrite map_app. apply NoDup_app. split; [done|]. split; [|apply NoDup_singleton].
    intros x Hx Hx'%list_elem_of_singleton. subst x. done.
  - apply Forall_app. split.
    + eapply Forall_impl; [exact H5|]. intros v' [K1 (c & K & K') K3]. split; [done| |done].
      exists c. split; [by right|done].
    + constructor; [|constructor]. split; [done| |].
      * exists voter. split; [by left|]. split; [done|]. split; [done|].
        unfold v, new_vote. cbn [v_Vote v_NotCounted o_RequestedBy set_decision set_votes]. intros ->. done.
      * unfold v, new_vote. cbn [v_Vote v_Identity v_Counted v_NotCounted o_RequestedBy set_decision set_votes].
        intros Hva. split; [by destruct (Happ Hva)|]. subst vote. simpl.
        by destruct (notCounted voter (o_RequestedBy o)).
Qed.

Lemma Approvers_new o : (length (Approvers (set_votes [] o)) <= 1)%nat.
Proof. unfold Approvers. cbn. destruct (o_RequesterCounts o); simpl; lia. Qed.

Lemma insert_inv h db o db' :
  InsertOverride db o = inl db' ->
  db !! o_ID o = None /\ exists o', db' = <[o_ID o := o']> db /\ override_inv h (o_ID o) o'.
Proof.
  unfold InsertOverride. destruct (db !! o_ID o) as [x|] eqn:E.
  { rewrite bool_decide_eq_true_2; [done|by eexists]. }
  rewrite bool_decide_eq_false_2 by by intros [? ?]. simpl.
  destruct (Z.ltb_spec (o_Quorum o) 2) as [|Hq]; [done|]. intros [= <-].
  split; [done|]. eexists. split; [done|]. split; simpl; [done|done| |constructor|constructor].
  unfold decided. cbn [o_Votes set_votes existsb o_Quorum].
  pose proof (Approvers_new (set_decision OverridePending None o)) as Hl.
  cbn [o_Quorum set_decision]. rewrite (proj2 (Z.leb_gt _ _)); [done|]. lia.
Qed.

Lemma reachable_inv db h : reachable (db, h) -> map_Forall (override_inv h) db.
Proof.
  unfold reachable. revert db h.
  assert (H : forall s, rtc step (∅, []) s -> map_Forall (override_inv s.2) s.1); [|intros db h; apply H].
  apply (rtc_ind_r (fun s => map_Forall (override_inv s.2) s.1)); [apply map_Forall_empty|].
  intros s1 s2 _ Hst IH.
  inversion Hst as [db0 h0 o db' Hins|db0 h0 id voter vote comment now db' r Hvote]; subst; cbn [fst snd] in *.
  - destruct (insert_inv h0 db0 o db' Hins) as (_ & o' & -> & Ho').
    by apply map_Forall_insert_2.
  - unfold VoteOverride, getOverride in Hvote.
    destruct (db0 !! id) as [o|] eqn:El; [|by simplify_eq].
    pose proof (map_Forall_lookup_1 _ _ _ _ IH El) as Ho.
    destruct (cast_vote _ _ _ _ _) as [o'|err] eqn:Ec; simplify_eq; [|done].
    apply map_Forall_insert_2.
    + eapply cast_vote_inv; [|exact Ec]. apply inv_perm; [apply order_votes_perm|done].
    + eapply map_Forall_impl; [exact IH|]. intros i x Hx. eapply inv_mono; [|exact Hx]. set_solver.
Qed.
End life.

(** ** What holds of every override *)

(** C18: in every reachable store, each override is filed under its id, asks for
    at least two approvers, holds at most one vote per identity, each one a
    vote some caller cast, none of them the requester's own approval; and its
    state is nothing but what its votes decide: rejected when anyone rejected
    it, else approved when the counted approvers reach the quorum, else
    pending. *)
Theorem override_state_is_its_votes order_votes db h id o
  (Hperm : forall vs, order_votes vs ≡ₚ vs) (Hr : reachable order_votes (db, h)) (Ho : db !! id = Some o) :
  o_ID o = id /\ 2 <= o_Quorum o /\ o_State o = decided o /\ NoDup (map v_Identity (o_Votes o)) /\
  (forall v, v ∈ o_Votes o ->
     (exists c, (id, c, v_Vote v) ∈ h /\ c_Identity c = v_Identity v /\ c_Scope c = v_Scope v) /\
     (v_Vote v = VoteApprove -> v_Identity v <> o_RequestedBy o)).
Proof.
  pose proof (map_Forall_lookup_1 _ _ _ _ (reachable_inv order_votes Hperm db h Hr) Ho) as [H1 H2 H3 H4 H5].
  do 4 (split; [done|]). intros v Hv. rewrite Forall_forall in H5. destruct (H5 v Hv) as [_ (c & ? & ? & ? & _) K3].
  split; [by exists c|]. intros Hva. by destruct (K3 Hva).
Qed.

Lemma Approvers_elem o a :
  a ∈ Approvers o <->
  (a = o_RequestedBy o /\ o_RequesterCounts o = true) \/
  (exists v, v ∈ o_Votes o /\ v_Vote v = VoteApprove /\ v_Counted v = true /\ v_Identity v = a /\ a <> o_RequestedBy o).
Proof.
  unfold Approvers. rewrite elem_of_app.
  split; intros [H|H].
  - left. destruct (o_RequesterCounts o); [|by apply elem_of_nil in H].
    by apply list_elem_of_singleton in H.
  - right. apply list_elem_of_fmap in H as (v & -> & Hv).
    apply list_elem_of_In, filter_In in Hv as [Hv Hc]. apply list_elem_of_In in Hv.
    unfold counts in Hc. apply andb_true_iff in Hc as [[Ha%String.eqb_eq Hc]%andb_true_iff Hn%negb_true_iff%String.eqb_neq].
    by exists v.
  - left. destruct H as [-> ->]. by apply list_elem_of_singleton.
  - right. destruct H as (v & Hv & Ha & Hc & <- & Hn). apply list_elem_of_fmap_2.
    apply list_elem_of_In, filter_In. split; [by apply list_elem_of_In|]. unfold counts.
    rewrite Ha, Hc, String.eqb_refl. simpl. by apply negb_true_iff, String.eqb_neq.
Qed.

Lemma Approvers_nodup o : NoDup (map v_Identity (o_Votes o)) -> NoDup (Approvers o).
Proof.
  intros Hnd. assert (Hf : NoDup (map v_Identity (List.filter (counts o) (o_Votes o)))).
  { eapply sublist_NoDup; [exact Hnd|]. apply (fmap_sublist v_Identity).
    clear Hnd. induction (o_Votes o) as [|v vs IH]; simpl; [constructor|].
    destruct (counts o v); by constructor. }
  unfold Approvers. destruct (o_RequesterCounts o); [|done]. simpl. apply NoDup_cons. split; [|done].
  intros (v & Hv & Hin)%list_elem_of_fmap. apply list_elem_of_In, filter_In in Hin as [_ Hc].
  unfold counts in Hc. rewrite <- Hv, String.eqb_refl, andb_false_r in Hc. done.
Qed.

Lemma notCounted_None c requester :
  notCounted c requester = None <->
  HoldsApprove c = true /\ c_TokenCreatedBy c <> requester /\ c_BindingActor c <> requester.
Proof.
  unfold notCounted. destruct (HoldsApprove c); simpl; [|split; [done|by intros [? _]]].
  destruct (String.eqb_spec (c_TokenCreatedBy c) requester), (String.eqb_spec (c_BindingActor c) requester);
    split; try done; intros (? & ? & ?); done.
Qed.

(** C17: no override is approved on fewer people than its quorum.  The counted
    approvers of a reachable approved override are pairwise distinct, as many
    as the quorum, which is two or more; each of them is the requester, when
    the request counted them, or voted approve through a caller that holds
    approve, whose token the requester did not mint and whose identity binding
    the requester did not make; so at least one of them is somebody else. *)
Theorem approved_has_quorum order_votes db h id o
  (Hperm : forall vs, order_votes vs ≡ₚ vs) (Hr : reachable order_votes (db, h)) (Ho : db !! id = Some o)
  (Happ : o_State o = OverrideApproved) :
  NoDup (Approvers o) /\ 2 <= o_Quorum o <= Z.of_nat (length (Approvers o)) /\
  (forall a, a ∈ Approvers o ->
     (a = o_RequestedBy o /\ o_RequesterCounts o = true) \/
     (a <> o_RequestedBy o /\
      exists c, (id, c, VoteApprove) ∈ h /\ c_Identity c = a /\ HoldsApprove c = true /\
        c_TokenCreatedBy c <> o_RequestedBy o /\ c_BindingActor c <> o_RequestedBy o)) /\
  (exists a, a ∈ Approvers o /\ a <> o_RequestedBy o).
Proof.
  pose proof (map_Forall_lookup_1 _ _ _ _ (reachable_inv order_votes Hperm db h Hr) Ho) as [H1 H2 H3 H4 H5].
  pose proof (Approvers_nodup o H4) as Hnd.
  assert (Hq : o_Quorum o <= Z.of_nat (length (Approvers o))).
  { rewrite H3 in Happ. revert Happ. unfold decided. destruct (existsb _ _); [done|].
    destruct (Z.leb_spec (o_Quorum o) (Z.of_nat (length (Approvers o)))); done. }
  split; [done|]. split; [done|]. split.
  - intros a [?|(v & Hv & Ha & Hc & <- & Hn)]%Approvers_elem; [by left|]. right. split; [done|].
    rewrite Forall_forall in H5. destruct (H5 v Hv) as [_ (c & Hin & Hid & _ & Hnc) K3].
    rewrite Ha in Hin. exists c. split; [done|]. split; [done|].
    apply notCounted_None. rewrite <- Hnc by done. by apply K3.
  - destruct (Approvers o) as [|a [|b l]] eqn:E; simpl in Hq; [lia|lia|].
    apply NoDup_cons in Hnd as [Hab _]. destruct (decide (a = o_RequestedBy o)) as [->|].
    + exists b. split; [right; by left|]. intros ->. apply Hab. by left.
    + exists a. split; [by left|done].
Qed.

(** A run: alice asks, bob and carol approve. *)
Definition demo_request : Override :=
  MkOverride "id1" "npm" "left-pad" "1.0.0" "osv" "why" "alice" 0 1000 2 false "" None [].

Definition demo_voter (who : string) : OverrideCaller := MkCaller who "approve" "root" "".

Definition demo_opened : gmap string Override :=
  <["id1" := set_decision OverridePending None demo_request]> ∅.
Definition demo_vote (db : gmap string Override) (who : string) (now : Z)
  : gmap string Override * (Override + override_error) :=
  VoteOverride id db "id1" (demo_voter who) VoteApprove "" now.
Definition demo_approved : gmap string Override := (demo_vote (demo_vote demo_opened "bob" 5).1 "carol" 6).1.
Definition demo_history : list ballot :=
  [("id1", demo_voter "carol", VoteApprove); ("id1", demo_voter "bob", VoteApprove)].
Definition demo_override : Override := default demo_request (demo_approved !! "id1").

Lemma demo_reachable : reachable id (demo_approved, demo_history).
Proof.
  eapply rtc_l; [by apply (step_request id ∅ [] demo_request)|].
  eapply rtc_l; [apply (step_vote id _ _ "id1" (demo_voter "bob") VoteApprove "" 5 _ _ (surjective_pairing _))|].
  eapply rtc_l; [apply (step_vote id _ _ "id1" (demo_voter "carol") VoteApprove "" 6 _ _ (surjective_pairing _))|].
  apply rtc_refl.
Qed.

Lemma override_state_is_its_votes_witness :
  o_State demo_override = decided demo_override /\ o_State demo_override = OverrideApproved.
Proof.
  split; [|vm_compute; reflexivity].
  apply (override_state_is_its_votes id demo_approved demo_history "id1" demo_override);
    [reflexivity|exact demo_reachable|vm_compute; reflexivity].
Defined.

Lemma approved_has_quorum_witness :
  NoDup (Approvers demo_override) /\ Approvers demo_override = ["bob"; "carol"].
Proof.
  split; [|vm_compute; reflexivity].
  apply (approved_has_quorum id demo_approved demo_history "id1" demo_override);
    [reflexivity|exact demo_reachable|vm_compute; reflexivity|vm_compute; reflexivity].
Defined.

(** An override's history only moves forward.  A step keeps every row and
    everything the row was requested with; it keeps the votes already cast;
    the state changes from pending to approved or rejected, or from approved
    to rejected; and a rejected override is never touched again. *)
Theorem override_moves_forward order_votes s s' id o
  (Hperm : forall vs, order_votes vs ≡ₚ vs) (Hst : step order_votes s s') (Ho : s.1 !! id = Some o) :
  exists o', s'.1 !! id = Some o' /\
    (exists st at_ vs, o' = set_decision st at_ (set_votes vs o)) /\
    o_Votes o ⊆+ o_Votes o' /\
    (o_State o' = o_State o \/ o_State o' = OverrideRejected \/
     (o_State o' = OverrideApproved /\ o_State o <> OverrideRejected)) /\
    (o_State o = OverrideRejected -> o' = o).
Proof.
  assert (Hsame : forall o : Override, o = set_decision (o_State o) (o_DecidedAt o) (set_votes (o_Votes o) o))
    by (intros []; done).
  assert (Hkeep : exists o', Some o = Some o' /\
    (exists st at_ vs, o' = set_decision st at_ (set_votes vs o)) /\ o_Votes o ⊆+ o_Votes o' /\
    (o_State o' = o_State o \/ o_State o' = OverrideRejected \/
     (o_State o' = OverrideApproved /\ o_State o <> OverrideRejected)) /\
    (o_State o = OverrideRejected -> o' = o)).
  { exists o. split; [done|]. split; [by eexists _, _, _|]. split; [done|]. split; [by left|done]. }
  inversion Hst as [db h r db' Hins|db h id' voter vote comment now db' r Hvote]; subst; cbn [fst] in *.
  - destruct (insert_inv h db r db' Hins) as (Hnew & o' & -> & _).
    rewrite lookup_insert_ne by (intros <-; congruence). by rewrite Ho.
  - unfold VoteOverride, getOverride in Hvote. destruct (db !! id') as [x|] eqn:El; [|simplify_eq; by rewrite Ho].
    destruct (cast_vote _ _ _ _ _) as [x'|err] eqn:Ec; simplify_eq; [|by rewrite Ho].
    destruct (decide (id = id')) as [<-|Hne]; [|rewrite lookup_insert_ne by done; by rewrite Ho].
    rewrite lookup_insert_eq. simplify_eq.
    destruct (cast_vote_accepts _ _ _ _ _ _ Ec) as (Hnr & _ & Happ & Hv & _ & at_ & ->).
    cbn [o_State o_Votes set_votes set_decision] in *. eexists. split; [done|].
    split; [by eexists _, _, _|]. split.
    { cbn [o_Votes set_votes set_decision]. rewrite <- (Hperm (o_Votes o)) at 1. by apply submseteq_inserts_r. }
    split; [|done]. cbn [o_State set_votes set_decision]. destruct (vote =? VoteReject)%string; [auto|].
    destruct (_ <=? _); auto.
Qed.

Lemma override_moves_forward_witness :
  exists o', demo_approved !! "id1" = Some o' /\ o_Votes (set_decision OverridePending None demo_request) ⊆+ o_Votes o'.
Proof.
  destruct (override_moves_forward id ((demo_vote demo_opened "bob" 5).1, [("id1", demo_voter "bob", VoteApprove)])
              (demo_approved, demo_history) "id1"
              (default demo_request ((demo_vote demo_opened "bob" 5).1 !! "id1")))
    as (o' & Ho' & _).
  - reflexivity.
  - exact (step_vote id (demo_vote demo_opened "bob" 5).1 [("id1", demo_voter "bob", VoteApprove)] "id1"
             (demo_voter "carol") VoteApprove "" 6 _ _ (surjective_pairing _)).
  - vm_compute. reflexivity.
  - exists o'. split; [exact Ho'|]. apply submseteq_nil_l.
Defined.

(** When a vote is accepted.  A vote lands exactly when the override
    exists, has not been rejected and has not expired, the vote is approve or
    reject, its caster has not voted on it before and, to approve, the
    override is not approved yet and the caster did not request it.  A refused
    vote changes nothing in the store, and an accepted one changes that row
    alone. *)
Theorem VoteOverride_accepts order_votes db id voter vote comment now
  (Hperm : forall vs, order_votes vs ≡ₚ vs) :
  let '(db', r) := VoteOverride order_votes db id voter vote comment now in
  ((exists o', r = inl o') <->
   exists o, db !! id = Some o /\ o_State o <> OverrideRejected /\ now < o_ExpiresAt o /\
     (vote = VoteApprove \/ vote = VoteReject) /\
     (c_Identity voter ∉ map v_Identity (o_Votes o)) /\
     (vote = VoteApprove -> o_State o <> OverrideApproved /\ c_Identity voter <> o_RequestedBy o)) /\
  (forall err, r = inr err -> db' = db) /\
  (forall o', r = inl o' -> db' = <[id := o']> db).
Proof.
  unfold VoteOverride, getOverride. destruct (db !! id) as [o|] eqn:El; last first.
  { split; [split; [by intros [? ?]|by intros (? & ? & _)]|done]. }
  set (o1 := set_votes (order_votes (o_Votes o)) o).
  assert (Hids : forall i, i ∈ map v_Identity (o_Votes o1) <-> i ∈ map v_Identity (o_Votes o)).
  { intros i. unfold o1. cbn [o_Votes set_votes]. by rewrite Hperm. }
  destruct (cast_vote o1 voter vote comment now) as [o'|err] eqn:Ec.
  - split; [|split; [done|by intros ? [= <-]]]. split; [intros _|by eexists].
    destruct (cast_vote_accepts _ _ _ _ _ _ Ec) as (H1 & H2 & H3 & H4 & H5 & _). exists o.
    split; [done|]. split; [done|]. split.
    { unfold Expired in H2. apply negb_false_iff, Z.ltb_lt in H2. done. }
    split; [done|]. split; [by rewrite <- Hids|]. intros Hv. by destruct (H3 Hv).
  - split; [|split; [done|done]]. split; [by intros [? ?]|]. intros (o0 & [= <-] & H1 & H2 & H3 & H4 & H5).
    exfalso. revert Ec. unfold cast_vote, Expired. cbn [o_State o1 set_votes o_ExpiresAt o_RequestedBy].
    rewrite (proj2 (String.eqb_neq _ _) H1), (proj2 (Z.ltb_lt _ _) H2). cbn [negb].
    assert (Ha : forall b, (vote = VoteApprove -> b = false) -> (vote =? VoteApprove)%string && b = false).
    { intros b Hb. destruct (String.eqb_spec vote VoteApprove); [by apply Hb|done]. }
    rewrite !Ha by (intros Hv; apply String.eqb_neq; by destruct (H5 Hv)).
    destruct (List.find _ _) as [v|] eqn:Ef.
    + apply find_some in Ef as [Hin Hv%String.eqb_eq]. exfalso. apply H4, Hids. rewrite <- Hv.
      apply list_elem_of_fmap_2. by apply list_elem_of_In.
    + destruct H3 as [->| ->]; cbn [slice_contains existsb negb]; simpl; by case_match.
Qed.

Lemma VoteOverride_accepts_witness :
  exists o', (demo_vote demo_opened "bob" 5).2 = inl o'.
Proof.
  pose proof (VoteOverride_accepts id demo_opened "id1" (demo_voter "bob") VoteApprove "" 5 ltac:(reflexivity)) as H.
  unfold demo_vote. destruct (VoteOverride id demo_opened "id1" (demo_voter "bob") VoteApprove "" 5) as [db' r].
  apply H. eexists. split; [vm_compute; reflexivity|].
  repeat split; try (vm_compute; discriminate); try (vm_compute; reflexivity).
  - by left.
  - intros Hin. by apply elem_of_nil in Hin.
Defined.
