(* ===== verification/OverrideProgress.v ===== *)
(** Progress of an override: as many approvals as are missing, from callers
    whose approval counts, make a pending override active
    (internal/audit/override.go). *)

From stdpp Require Import base list gmap strings relations.
From Stdlib Require Import ZArith Lia.
From S2P Require Import Prelude GoStrings Types Scope Override.

Section progress.
Context (order_votes : list OverrideVote -> list OverrideVote).
Context (order_votes_perm : forall vs, order_votes vs ≡ₚ vs).

(** The callers approve in turn, at one time. *)
Definition approve_all (db : gmap string Override) (id : string) (now : Z) (voters : list OverrideCaller)
  : gmap string Override :=
  foldl (fun db c => (VoteOverride order_votes db id c VoteApprove "" now).1) db voters.

(** A caller who has not voted, is not the requester, and whose approval counts. *)
Record fresh_approver (o : Override) (c : OverrideCaller) : Prop := {
  fa_unvoted : c_Identity c ∉ map v_Identity (o_Votes o);
  fa_other : c_Identity c <> o_RequestedBy o;
  fa_counts : notCounted c (o_RequestedBy o) = None
}.

Lemma Approvers_add o c now :
  fresh_approver o c ->
  length (Approvers (set_votes (o_Votes o ++ [new_vote o c VoteApprove "" now]) o)) = S (length (Approvers o)).
Proof.
  intros [_ Ho Hc]. set (v := new_vote _ _ _ _ _). set (o2 := set_votes _ o). unfold Approvers.
  change (o_RequesterCounts o2) with (o_RequesterCounts o). change (o_RequestedBy o2) with (o_RequestedBy o).
  change (counts o2) with (counts o). change (o_Votes o2) with (o_Votes o ++ [v]).
  assert (Hv : counts o v = true).
  { unfold counts, v, new_vote. cbn. rewrite Hc. cbn. by rewrite (proj2 (String.eqb_neq _ _) Ho). }
  rewrite !length_app, !length_map, List.filter_app, length_app. cbn [List.filter]. rewrite Hv. cbn. lia.
Qed.

(** One approval of a fresh approver. *)
Lemma approve_step db id o c now :
  db !! id = Some o -> o_State o = OverridePending -> now < o_ExpiresAt o -> fresh_approver o c ->
  exists o', VoteOverride order_votes db id c VoteApprove "" now = (<[id := o']> db, inl o')
    /\ o_Quorum o' = o_Quorum o /\ o_RequestedBy o' = o_RequestedBy o /\ o_ExpiresAt o' = o_ExpiresAt o
    /\ map v_Identity (o_Votes o') ≡ₚ map v_Identity (o_Votes o) ++ [c_Identity c]
    /\ length (Approvers o') = S (length (Approvers o))
    /\ o_State o' = if o_Quorum o <=? Z.of_nat (S (length (Approvers o))) then OverrideApproved else OverridePending.
Proof.
  intros Hl Hs He Hf. unfold VoteOverride, getOverride. rewrite Hl.
  set (o1 := set_votes (order_votes (o_Votes o)) o).
  assert (Hf1 : fresh_approver o1 c).
  { destruct Hf as [H1 H2 H3]. split; [|done|done]. unfold o1. cbn. by rewrite order_votes_perm. }
  assert (Hlen : length (Approvers o1) = length (Approvers o)) by (apply Permutation_length, Approvers_perm, order_votes_perm).
  pose proof (Approvers_add o1 c now Hf1) as Hadd. rewrite Hlen in Hadd.
  unfold cast_vote. change (o_State o1) with (o_State o). rewrite Hs.
  unfold Expired. change (o_ExpiresAt o1) with (o_ExpiresAt o). rewrite (proj2 (Z.ltb_lt _ _) He).
  change (o_RequestedBy o1) with (o_RequestedBy o). rewrite (proj2 (String.eqb_neq _ _) (fa_other _ _ Hf)).
  destruct (List.find _ (o_Votes o1)) as [v|] eqn:Ef.
  { exfalso. apply find_some in Ef as [Hin Hv%String.eqb_eq]. apply (fa_unvoted _ _ Hf1). rewrite <- Hv.
    apply list_elem_of_fmap_2. by apply list_elem_of_In. }
  change (slice_contains [VoteApprove; VoteReject] VoteApprove) with true.
  set (v := new_vote o1 c VoteApprove "" now) in *. cbv zeta.
  change (o_State (set_votes _ o1)) with (o_State o). change (o_Quorum (set_votes _ o1)) with (o_Quorum o).
  rewrite Hs. cbn [negb andb].
  match goal with |- context [set_votes (o_Votes o1 ++ [?w]) o1] => change w with v end. rewrite Hadd.
  change (VoteApprove =? VoteReject)%string with false. rewrite String.eqb_refl.
  change (OverridePending =? OverrideRejected)%string with false.
  change (OverridePending =? OverrideApproved)%string with false.
  assert (Hvotes : map v_Identity (o_Votes o1 ++ [v]) ≡ₚ map v_Identity (o_Votes o) ++ [c_Identity c]).
  { rewrite map_app. unfold o1. cbn. by rewrite order_votes_perm. }
  cbn [negb andb]. destruct (o_Quorum o <=? _).
  - eexists. split; [reflexivity|]. split_and!; done.
  - rewrite String.eqb_refl. eexists. split; [reflexivity|]. split_and!; done.
Qed.

Lemma fresh_approver_next o o' c c' :
  o_RequestedBy o' = o_RequestedBy o ->
  map v_Identity (o_Votes o') ≡ₚ map v_Identity (o_Votes o) ++ [c_Identity c] ->
  c_Identity c' <> c_Identity c -> fresh_approver o c' -> fresh_approver o' c'.
Proof.
  intros Hr Hv Hne [H1 H2 H3]. split; [|by rewrite Hr|by rewrite Hr].
  rewrite Hv, elem_of_app, elem_of_cons, elem_of_nil. tauto.
Qed.

Lemma approve_all_active id now voters : forall db o,
  db !! id = Some o -> o_State o = OverridePending -> now < o_ExpiresAt o ->
  NoDup (map c_Identity voters) -> Forall (fresh_approver o) voters -> voters <> [] ->
  Z.of_nat (length voters) = o_Quorum o - Z.of_nat (length (Approvers o)) ->
  exists o', approve_all db id now voters !! id = Some o' /\ Active o' now = true
    /\ o_Quorum o' = o_Quorum o /\ length (Approvers o') = (length (Approvers o) + length voters)%nat.
Proof.
  induction voters as [|c voters IH]; intros db o Hl Hs He Hnd Hf Hne Hq; [done|].
  apply Forall_cons in Hf as [Hc Hf]. cbn [map] in Hnd. apply NoDup_cons in Hnd as [Hcn Hnd].
  destruct (approve_step db id o c now Hl Hs He Hc) as (o1 & E & Hq1 & Hr1 & He1 & Hv1 & Ha1 & Hs1).
  unfold approve_all. cbn [foldl]. rewrite E. cbn [fst]. fold (approve_all (<[id:=o1]> db) id now voters).
  assert (Hl1 : <[id:=o1]> db !! id = Some o1) by by rewrite lookup_insert_eq.
  cbn [length] in Hq |- *. destruct voters as [|c2 voters].
  - exists o1. split; [done|]. rewrite (proj2 (Z.leb_le _ _)) in Hs1 by (cbn in Hq; lia).
    split; [|split; [done|cbn; lia]]. unfold Active, Expired. rewrite Hs1, He1, (proj2 (Z.ltb_lt _ _) He). done.
  - rewrite (proj2 (Z.leb_gt _ _)) in Hs1 by (cbn in Hq; lia).
    destruct (IH (<[id:=o1]> db) o1 Hl1 Hs1) as (o' & H1 & H2 & H3 & H4);
      [by rewrite He1|done| |done|rewrite Hq1, Ha1; cbn in Hq |- *; lia|].
    + rewrite Forall_forall in Hf |- *. intros c' Hin. eapply fresh_approver_next; [done|exact Hv1| |by apply Hf].
      intros Heq. apply Hcn. rewrite <- Heq. by apply list_elem_of_fmap_2.
    + exists o'. split; [done|split; [done|split; [by rewrite H3|]]]. rewrite H4, Ha1. cbn. lia.
Qed.
End progress.

(** C39: an override that is asked for can be granted: from any reachable store,
    a pending override that has not expired becomes active once as many callers
    as it still lacks approve, provided they are distinct, have not voted, did
    not ask for it, and hold an approval that counts. *)
Theorem override_can_be_approved order_votes db h id o now voters
  (Hperm : forall vs, order_votes vs ≡ₚ vs) (Hr : reachable order_votes (db, h)) (Ho : db !! id = Some o)
  (Hp : o_State o = OverridePending) (He : Expired o now = false)
  (Hnd : NoDup (map c_Identity voters)) (Hf : Forall (fresh_approver o) voters)
  (Hlen : Z.of_nat (length voters) = Remaining o) :
  exists o', approve_all order_votes db id now voters !! id = Some o' /\ Active o' now = true.
Proof.
  pose proof (map_Forall_lookup_1 _ _ _ _ (reachable_inv order_votes Hperm db h Hr) Ho) as [_ _ H3 _ _].
  assert (Hlack : Z.of_nat (length (Approvers o)) < o_Quorum o).
  { rewrite H3 in Hp. revert Hp. unfold decided. destruct (existsb _ _); [done|].
    destruct (Z.leb_spec (o_Quorum o) (Z.of_nat (length (Approvers o)))); [done|lia]. }
  unfold Remaining in Hlen. rewrite Z.max_l in Hlen by lia.
  unfold Expired in He. apply negb_false_iff, Z.ltb_lt in He.
  destruct (approve_all_active order_votes Hperm id now voters db o Ho Hp He Hnd Hf) as (o' & H1 & H2 & _);
    [intros ->; cbn in Hlen; lia|done|]. by exists o'.
Qed.

Definition pending_override : Override := default demo_request (demo_opened !! "id1").

Lemma override_can_be_approved_witness :
  exists o', approve_all id demo_opened "id1" 5 [demo_voter "bob"; demo_voter "carol"] !! "id1" = Some o'
             /\ Active o' 5 = true.
Proof.
  apply (override_can_be_approved id demo_opened [] "id1" pending_override 5 [demo_voter "bob"; demo_voter "carol"]).
  - intros vs. reflexivity.
  - eapply rtc_l; [|apply rtc_refl]. apply (step_request id ∅ [] demo_request). vm_compute. reflexivity.
  - vm_compute. reflexivity.
  - vm_compute. reflexivity.
  - vm_compute. reflexivity.
  - refine (bool_decide_eq_true_1 _ _). vm_compute. reflexivity.
  - repeat constructor; try (vm_compute; reflexivity); try (vm_compute; discriminate);
      refine (bool_decide_eq_true_1 _ _); vm_compute; reflexivity.
  - vm_compute. reflexivity.
Defined.
