(* ===== verification/AdmitOverride.v ===== *)
(** Requesting and applying overrides: internal/admit/override.go, with the
    admission record of internal/audit/admission.go it reads, the result of a
    check (internal/policy/checks.go), and the durations of
    internal/config/config.go.

    Read from outside: [ParseDuration] is Go's time.ParseDuration, [rfc3339]
    its time formatting, [newest] the checks of the newest admission row for a
    version, and [iterate] the order in which Go walks a map. *)

From stdpp Require Import base list gmap strings.
From Stdlib Require Import ZArith Lia Ascii.
From S2P Require Import Prelude GoStrings GoTime Regexp Types Scope Override.

(** ** Check records *)

Definition CheckAllowList := "allowlist".
Definition CheckAge := "age".
Definition CheckOSV := "osv".
Definition CheckUpstreamProvenance := "upstream_provenance".
Definition CheckChecksumDatabase := "checksum_database".
Definition CheckOverride := "override".
Definition CheckNameSimilarity := "name_similarity".

Definition CheckPass := "pass".
Definition CheckWarn := "warn".
Definition CheckBlock := "block".
Definition CheckNotEvaluated := "not_evaluated".
Definition CheckOverridden := "overridden".
Definition CheckBaseline := "baseline".

Definition ActionNone := "none".
Definition ActionPass := "pass".
Definition ActionWarn := "warn".
Definition ActionBlock := "block".
Definition ActionIgnore := "ignore".
Definition ActionNotEvaluated := "not_evaluated".

Definition ProvenanceInvalid := "invalid".

Record UpstreamProvenance := MkProvenance {
  up_Outcome : string;
  up_SourceRepositoryURI : string;
  up_WorkflowRef : string;
  up_BuilderID : string;
  up_BundleDigest : string;
  up_SignerFingerprint : string;
  up_SubjectDigest : string
}.

Record ChecksumDatabase := MkChecksumDatabase {
  cd_Outcome : string;
  cd_Database : string;
  cd_TreeSize : Z;
  cd_TreeHash : string;
  cd_ZipHash : string;
  cd_ModHash : string;
  cd_File : string;
  cd_Computed : string
}.

Record AdmissionCheck := MkCheck {
  ac_Check : string;
  ac_Action : string;
  ac_Status : string;
  ac_Detail : string;
  ac_Provenance : option UpstreamProvenance;
  ac_ChecksumDatabase : option ChecksumDatabase;
  ac_Override : string;
  ac_Unwaivable : string
}.

(** A policy result; a detail is kept as its text. *)
Record Result := MkResult {
  r_Check : string;
  r_Action : string;
  r_Reason : string;
  r_Details : gmap string string;
  r_Provenance : option UpstreamProvenance;
  r_ChecksumDatabase : option ChecksumDatabase
}.

(** ** Check names *)

Definition versionChecks : list string :=
  [CheckAge; CheckOSV; CheckUpstreamProvenance; CheckNameSimilarity].

Definition allChecks : list string := CheckAllowList :: versionChecks ++ [CheckChecksumDatabase].

Definition CheckPrefix := "integration:".

(** [^[a-z0-9][a-z0-9_-]{0,62}$] *)
Definition instanceName : re :=
  (RByte (fun c => is_lower c || is_digit c)
   · RUpto 62 (RByte (fun c => is_lower c || is_digit c || in_set "_-" c)))%re.

Definition ValidInstanceName (name : string) : bool := MatchString instanceName name.

Definition isIntegrationCheck (check : string) : bool :=
  match cut_prefix check CheckPrefix with
  | Some name => ValidInstanceName name
  | None => false
  end.

(** ** Durations *)

Definition ParseTTL (ParseDuration : string -> option Z) (s : string) : option Z :=
  match cut_suffix s "d" with
  | Some n =>
      match atoi_opt n with
      | Some days => if days <=? 0 then None else Some (wrap64 (wrap64 (days * 24) * Hour))
      | None => None
      end
  | None =>
      match ParseDuration s with
      | Some d => if d <=? 0 then None else Some d
      | None => None
      end
  end.

Definition DefaultOverrideMaxTTL : Z := 30 * 24 * Hour.
Definition DefaultOverrideQuorum : Z := 2.

Record Config := MkConfig { cfg_OverrideMaxTTL : string; cfg_OverrideQuorum : Z }.

Definition ResolveOverrideMaxTTL (ParseDuration : string -> option Z) (cfg : Config) : Z :=
  if (cfg_OverrideMaxTTL cfg =? "")%string then DefaultOverrideMaxTTL
  else match ParseTTL ParseDuration (cfg_OverrideMaxTTL cfg) with
       | Some d => d
       | None => DefaultOverrideMaxTTL
       end.

Definition ResolveOverrideQuorum (cfg : Config) : Z :=
  if cfg_OverrideQuorum cfg =? 0 then DefaultOverrideQuorum else cfg_OverrideQuorum cfg.

(** ** Requesting *)

Record OverrideRequest := MkRequest {
  rq_Type : string;
  rq_Name : string;
  rq_Version : string;
  rq_Check : string;
  rq_Reason : string;
  rq_Expires : string
}.

Inductive request_error :=
| NoAuditStore
| NoIdentity
| UnknownRequestType (typ : string)
| NameRequired
| VersionRequired
| UnknownCheck (check : string)
| ReasonRequired
| ExpiryRequired
| InvalidName (err : name_error)
| Unwaivable (check why : string)
| InvalidTTL
| TTLBeyondMax (limit : Z)
| NotRecorded (err : override_error).

(** The loop over the newest row's checks: the last one named [req_check], or
    else the first unwaivable one, is kept. *)
Fixpoint unwaivable_loop (req_check check why : string) (checks : list AdmissionCheck) : string * string :=
  match checks with
  | [] => (check, why)
  | c :: checks =>
      if negb (ac_Unwaivable c =? "")%string && ((check =? "")%string || (ac_Check c =? req_check)%string)
      then unwaivable_loop req_check (ac_Check c) (ac_Unwaivable c) checks
      else unwaivable_loop req_check check why checks
  end.

Definition recordedUnwaivable (newest : option (list AdmissionCheck)) (req : OverrideRequest)
  : string * string :=
  match newest with
  | Some checks => unwaivable_loop (rq_Check req) "" "" checks
  | None => ("", "")
  end.

Section request.
Context (ParseDuration : string -> option Z).

(** [newest] reads the newest admission row of a version; [id] is the random
    id.  An override event is recorded too, and its failure ignored. *)
Definition RequestOverride (adb : option (gmap string Override)) (cfg : Config)
  (newest : string -> string -> string -> option (list AdmissionCheck)) (id : string)
  (req : OverrideRequest) (requester : OverrideCaller) (now : Z)
  : option (gmap string Override) * (Override + request_error) :=
  match adb with
  | None => (adb, inr NoAuditStore)
  | Some db =>
      let reason := TrimSpace (rq_Reason req) in
      let limit := ResolveOverrideMaxTTL ParseDuration cfg in
      if (c_Identity requester =? "")%string then (adb, inr NoIdentity)
      else if negb (IsKnownType (rq_Type req)) then (adb, inr (UnknownRequestType (rq_Type req)))
      else if (rq_Name req =? "")%string then (adb, inr NameRequired)
      else if (rq_Version req =? "")%string then (adb, inr VersionRequired)
      else if negb (slice_contains allChecks (rq_Check req)) && negb (isIntegrationCheck (rq_Check req))
      then (adb, inr (UnknownCheck (rq_Check req)))
      else if (reason =? "")%string then (adb, inr ReasonRequired)
      else if (rq_Expires req =? "")%string then (adb, inr ExpiryRequired)
      else
        match ValidatePackageName (rq_Name req) with
        | Some err => (adb, inr (InvalidName err))
        | None =>
            let '(check, why) :=
              recordedUnwaivable (newest (rq_Type req) (rq_Name req) (rq_Version req)) req in
            if (check =? rq_Check req)%string || negb (check =? "")%string
            then (adb, inr (Unwaivable check why))
            else
              match ParseTTL ParseDuration (rq_Expires req) with
              | None => (adb, inr InvalidTTL)
              | Some ttl =>
                  if limit <? ttl then (adb, inr (TTLBeyondMax limit))
                  else
                    let o :=
                      MkOverride id (rq_Type req) (rq_Name req) (rq_Version req) (rq_Check req) reason
                        (c_Identity requester) now (now + ttl) (ResolveOverrideQuorum cfg)
                        (HoldsApprove requester) OverridePending None [] in
                    match InsertOverride db o with
                    | inr err => (adb, inr (NotRecorded err))
                    | inl db' => (Some db', inl o)
                    end
              end
        end
  end.
End request.

(** [admit.VoteOverride]: both surfaces vote through it. *)
Inductive cast_error := VoteNoStore | VoteNoIdentity | VoteRefused (err : override_error).

Definition AdmitVoteOverride (order_votes : list OverrideVote -> list OverrideVote)
  (adb : option (gmap string Override)) (id : string) (voter : OverrideCaller) (approve : bool)
  (comment : string) (now : Z) : option (gmap string Override) * (Override + cast_error) :=
  match adb with
  | None => (adb, inr VoteNoStore)
  | Some db =>
      if (c_Identity voter =? "")%string then (adb, inr VoteNoIdentity)
      else
        match VoteOverride order_votes db id voter (if approve then VoteApprove else VoteReject)
                (TrimSpace comment) now with
        | (db', inl o) => (Some db', inl o)
        | (db', inr err) => (Some db', inr (VoteRefused err))
        end
  end.

Definition VoteBy (o : Override) (identity : string) : option OverrideVote :=
  List.find (fun v => (v_Identity v =? identity)%string) (o_Votes o).

(** [Status] and [ApprovalsNeeded] are read, never stored: the pair beside the
    override. *)
Definition withStatus (o : Override) (now : Z) : Override * string * Z :=
  let status := StatusAt o now in
  (o, status, if (status =? OverrideStatusPending)%string then Remaining o else 0).

Definition AdmitListOverrides (all : list Override) (want : string) (now : Z)
  : list (Override * string * Z) :=
  List.filter (fun '(_, status, _) => (want =? "")%string || (status =? want)%string)
    (map (fun o => withStatus o now) all).

(** ** Applying *)


Definition overrideNameKey (typ name : string) : string :=
  if (typ =? TypePypi)%string then CanonicalPypiName name else SafeName name.

Definition override_key (version check : string) : string := version +:+ nul +:+ check.

Fixpoint load_loop (want : string) (now : Z) (all : list Override) (out : gmap string Override)
  : gmap string Override :=
  match all with
  | [] => out
  | o :: all =>
      if negb (Active o now) || negb (overrideNameKey (o_PkgType o) (o_PkgName o) =? want)%string
      then load_loop want now all out
      else
        let k := override_key (o_PkgVersion o) (o_Check o) in
        load_loop want now all
          (match out !! k with Some _ => out | None => <[k := o]> out end)
  end.

(** [all] is what ListOverrides answers for the type's approved overrides. *)
Definition LoadOverrides (list : OverrideFilter -> list Override) (typ name : string) (now : Z)
  : gmap string Override :=
  load_loop (overrideNameKey typ name) now (list (MkFilter typ "" OverrideApproved)) ∅.

Definition For (iterate : gmap string Override -> list Override) (ovs : gmap string Override)
  (version check : string) : option Override :=
  if negb (version =? "")%string then ovs !! override_key version check
  else List.find (fun o => (o_Check o =? check)%string) (iterate ovs).

Definition ActiveOverride (iterate : gmap string Override -> list Override)
  (list : OverrideFilter -> list Override) (typ name version check : string) (now : Z) : option Override :=
  For iterate (LoadOverrides list typ name now) version check.

(** [c] as an override admits it. *)
Definition OverriddenCheck (rfc3339 : Z -> string) (c : AdmissionCheck) (o : Override) : AdmissionCheck :=
  MkCheck (ac_Check c) (ac_Action c) CheckOverridden
    (ac_Detail c +:+ "; overridden by " +:+ o_ID o +:+ " (approved by " +:+ Join (Approvers o) ", "
     +:+ "; expires " +:+ rfc3339 (o_ExpiresAt o) +:+ ")")
    (ac_Provenance c) (ac_ChecksumDatabase c) (o_ID o) (ac_Unwaivable c).

(** Why a failed result admits no override; "" when it does. *)
Definition ChecksumDatabaseInvalidReason :=
  "a disagreement with the Go checksum database is never overridden".

Definition notOverridable (r : Result) : string :=
  if bool_decide (is_Some (r_Details r !! "malware"))
     && ((r_Check r =? CheckOSV)%string || isIntegrationCheck (r_Check r))
  then "known malware is never overridden"
  else if (r_Check r =? CheckUpstreamProvenance)%string
          && match r_Provenance r with Some p => (up_Outcome p =? ProvenanceInvalid)%string | None => false end
  then "invalid upstream provenance is never overridden"
  else if (r_Check r =? CheckChecksumDatabase)%string
          && match r_ChecksumDatabase r with Some c => (cd_Outcome c =? ProvenanceInvalid)%string | None => false end
  then ChecksumDatabaseInvalidReason
  else "".

(** [blocks[0]] needs a block. *)
Definition reportedBlock (blocks : list Result) : option Result :=
  match List.find (fun b => negb (notOverridable b =? "")%string) blocks with
  | Some b => Some b
  | None => head blocks
  end.

(** ** Theorems *)

(** A duration written in days.  Up to 106751 days, "<n>d" is n days,
    positive and unwrapped.  Past that the int64 product wraps: 106752 days
    read as a negative duration and 213504 as 25 minutes, so the promise of a
    positive duration, and the cap an override's expiry is compared with, hold
    only below the bound. *)
Theorem ParseTTL_days ParseDuration s n :
  atoi_opt s = Some n ->
  (0 < n <= 106751 -> ParseTTL ParseDuration (s +:+ "d") = Some (n * 24 * Hour) /\ 0 < n * 24 * Hour) /\
  (n <= 0 -> ParseTTL ParseDuration (s +:+ "d") = None) /\
  (forall d, ParseTTL ParseDuration "106752d" = Some d -> d < 0) /\
  is_Some (ParseTTL ParseDuration "106752d") /\
  (exists d, ParseTTL ParseDuration "213504d" = Some d /\ 0 < d < Hour).
Proof.
  intros Hn. unfold ParseTTL at 1 2. rewrite cut_suffix_app, Hn. unfold Hour. repeat split.
  - destruct (Z.leb_spec n 0); [lia|]. rewrite !wrap64_id; [done|lia|]. rewrite wrap64_id; lia.
  - lia.
  - intros Hle. by rewrite (proj2 (Z.leb_le n 0) Hle).
  - intros d Hd. vm_compute in Hd. simplify_eq. lia.
  - vm_compute. by eexists.
  - exists 1526290448384. vm_compute. done.
Qed.

Lemma ParseTTL_days_witness : ParseTTL (fun _ => None) ("30" +:+ "d") = Some (30 * 24 * Hour).
Proof. apply (ParseTTL_days (fun _ => None) "30" 30); [reflexivity|lia]. Defined.

Lemma unwaivable_loop_kept req check why checks :
  req <> "" -> check <> "" -> (unwaivable_loop req check why checks).1 <> "".
Proof.
  intros Hr. revert check why. induction checks as [|c checks IH]; intros check why Hc; [done|]. simpl.
  destruct (_ && _) eqn:E; [|by apply IH]. apply IH. apply andb_true_iff in E as [_ E].
  rewrite (proj2 (String.eqb_neq _ _) Hc) in E. by apply String.eqb_eq in E as ->.
Qed.

Lemma unwaivable_loop_none req why checks :
  req <> "" -> (unwaivable_loop req "" why checks).1 = "" ->
  Forall (fun c => ac_Unwaivable c = "" \/ ac_Check c = "") checks.
Proof.
  intros Hr. revert why. induction checks as [|c checks IH]; intros why; [constructor|]. simpl.
  destruct (String.eqb_spec (ac_Unwaivable c) "") as [Hu|Hu]; simpl.
  - intros H. constructor; [by left|by eapply IH].
  - destruct (decide (ac_Check c = "")) as [Hc|Hc].
    + rewrite Hc. intros H. constructor; [by right|by eapply IH].
    + intros H. by apply (unwaivable_loop_kept req) in H.
Qed.

Lemma request_check_nonempty check :
  slice_contains allChecks check || isIntegrationCheck check = true -> check <> "".
Proof. intros H ->. vm_compute in H. done. Qed.

(** What a request must satisfy. *)
Record request_ok (ParseDuration : string -> option Z) (cfg : Config) (req : OverrideRequest)
  (requester : OverrideCaller) (ttl : Z) : Prop := {
  ro_identity : c_Identity requester <> "";
  ro_type : IsKnownType (rq_Type req) = true;
  ro_version : rq_Version req <> "" /\ rq_Name req <> "" /\ ValidatePackageName (rq_Name req) = None;
  ro_check : rq_Check req ∈ allChecks \/ isIntegrationCheck (rq_Check req) = true;
  ro_reason : TrimSpace (rq_Reason req) <> "";
  ro_ttl : ParseTTL ParseDuration (rq_Expires req) = Some ttl;
  ro_limit : ttl <= ResolveOverrideMaxTTL ParseDuration cfg
}.

(** A request is recorded only when all of it is well formed: an identity
    to record, a known type, a name and version, a check that exists, a reason,
    an expiry within the configured cap, and no check of the version's newest
    admission that no override may waive.  What is recorded is pending, with
    no votes, under the requester's identity and the quorum of the moment, and
    it ends within the cap; a refused request changes nothing. *)
Theorem RequestOverride_records ParseDuration db cfg newest id req requester now adb' r :
  RequestOverride ParseDuration (Some db) cfg newest id req requester now = (adb', r) ->
  match r with
  | inr _ => adb' = Some db
  | inl o =>
      (exists ttl, request_ok ParseDuration cfg req requester ttl /\ o_ExpiresAt o = now + ttl) /\
      (forall checks, newest (rq_Type req) (rq_Name req) (rq_Version req) = Some checks ->
         Forall (fun c => ac_Unwaivable c = "" \/ ac_Check c = "") checks) /\
      o_ExpiresAt o <= now + ResolveOverrideMaxTTL ParseDuration cfg /\
      o_RequestedBy o = c_Identity requester /\ o_RequesterCounts o = HoldsApprove requester /\
      o_Quorum o = ResolveOverrideQuorum cfg /\ 2 <= o_Quorum o /\
      o_State o = OverridePending /\ o_Votes o = [] /\
      db !! id = None /\ adb' = Some (<[id := o]> db)
  end.
Proof.
  unfold RequestOverride.
  destruct (String.eqb_spec (c_Identity requester) "") as [|Hid]; [by intros [= <- <-]|].
  destruct (IsKnownType (rq_Type req)) eqn:Ht; [|by intros [= <- <-]].
  destruct (String.eqb_spec (rq_Name req) "") as [|Hn]; [by intros [= <- <-]|].
  destruct (String.eqb_spec (rq_Version req) "") as [|Hv]; [by intros [= <- <-]|].
  destruct (negb _ && negb _) eqn:Hc; [by intros [= <- <-]|]. cbn [negb].
  destruct (String.eqb_spec (TrimSpace (rq_Reason req)) "") as [|Hre]; [by intros [= <- <-]|].
  destruct (String.eqb_spec (rq_Expires req) "") as [|He]; [by intros [= <- <-]|].
  destruct (ValidatePackageName (rq_Name req)) eqn:Hvn; [by intros [= <- <-]|].
  destruct (recordedUnwaivable _ req) as [check why] eqn:Hu.
  destruct ((check =? rq_Check req)%string || _) eqn:Hw; [by intros [= <- <-]|].
  apply orb_false_iff in Hw as [_ Hw%negb_false_iff%String.eqb_eq]. subst check.
  destruct (ParseTTL _ _) as [ttl|] eqn:Httl; [|by intros [= <- <-]].
  destruct (Z.ltb_spec (ResolveOverrideMaxTTL ParseDuration cfg) ttl) as [|Hlim]; [by intros [= <- <-]|].
  assert (Hck : slice_contains allChecks (rq_Check req) || isIntegrationCheck (rq_Check req) = true).
  { rewrite <- negb_orb in Hc. by apply negb_false_iff. }
  destruct (InsertOverride db _) as [db'|err] eqn:Hins; [|by intros [= <- <-]].
  unfold InsertOverride in Hins. cbn [o_ID o_Quorum] in Hins.
  destruct (bool_decide _ || _) eqn:Hb; [done|]. apply orb_false_iff in Hb as [Hfresh Hq].
  apply bool_decide_eq_false in Hfresh. apply Z.ltb_ge in Hq.
  intros [= <- <-]. cbn [o_ExpiresAt o_RequestedBy o_RequesterCounts o_Quorum o_State o_Votes].
  split; [|split; [|split; [lia|]]].
  - exists ttl. split; [|done]. split; try done. apply orb_true_iff in Hck as [?|?]; [left|by right].
    by apply slice_contains_spec.
  - intros checks Hchecks. unfold recordedUnwaivable in Hu. rewrite Hchecks in Hu.
    apply (unwaivable_loop_none (rq_Check req) ""); [by apply request_check_nonempty|]. by rewrite Hu.
  - do 4 (split; [done|]). split; [done|]. split; [done|]. split; [by apply eq_None_not_Some|].
    injection Hins as <-. done.
Qed.

(** The override a recorded request becomes. *)
Lemma RequestOverride_inl ParseDuration db cfg newest id req requester now adb' o :
  RequestOverride ParseDuration (Some db) cfg newest id req requester now = (adb', inl o) ->
  exists expires, o = MkOverride id (rq_Type req) (rq_Name req) (rq_Version req) (rq_Check req) (TrimSpace (rq_Reason req))
    (c_Identity requester) now expires (ResolveOverrideQuorum cfg) (HoldsApprove requester) OverridePending None []
  /\ db !! id = None /\ adb' = Some (<[id := o]> db).
Proof.
  unfold RequestOverride, InsertOverride. intros H. repeat case_match; simplify_eq. eexists. split; [reflexivity|].
  match goal with H : bool_decide _ || _ = false |- _ => apply orb_false_iff in H as [H%bool_decide_eq_false _] end.
  split; [by apply eq_None_not_Some|done].
Qed.

Definition demo_request_body : OverrideRequest :=
  MkRequest "npm" "left-pad" "1.0.0" "osv" "needed" "7d".

Definition demo_asked : Override :=
  MkOverride "id1" "npm" "left-pad" "1.0.0" "osv" "needed" "alice" 0 (7 * 24 * Hour) 2 true
    OverridePending None [].

Lemma RequestOverride_records_witness :
  o_ExpiresAt demo_asked <= 0 + ResolveOverrideMaxTTL (fun _ => None) (MkConfig "" 0).
Proof.
  apply (RequestOverride_records (fun _ => None) ∅ (MkConfig "" 0) (fun _ _ _ => None) "id1"
           demo_request_body (LocalOverrideCaller "alice") 0 (Some (<["id1" := demo_asked]> ∅)) (inl demo_asked)).
  vm_compute. reflexivity.
Defined.

(** *** Lookup *)

Definition applies_to (want : string) (now : Z) (o : Override) : bool :=
  Active o now && (overrideNameKey (o_PkgType o) (o_PkgName o) =? want)%string.

Lemma override_key_inj v c v' c' :
  no_byte "000" c = true -> no_byte "000" c' = true ->
  override_key v c = override_key v' c' -> v = v' /\ c = c'.
Proof.
  unfold override_key, nul. intros Hc Hc' E.
  change (v +:+ String "000" "" +:+ c) with (v +:+ String "000" c) in E.
  change (v' +:+ String "000" "" +:+ c') with (v' +:+ String "000" c') in E.
  assert (H : cut_last_byte "000" (v +:+ String "000" c) = Some (v', c')).
  { rewrite E. by apply cut_last_byte_app. }
  rewrite cut_last_byte_app in H by done. by simplify_eq.
Qed.

Lemma load_loop_lookup want now all out k :
  load_loop want now all out !! k =
  match out !! k with
  | Some o => Some o
  | None => List.find (fun o => applies_to want now o
                                && (override_key (o_PkgVersion o) (o_Check o) =? k)%string) all
  end.
Proof.
  revert out. induction all as [|o all IH]; intros out; simpl; [by destruct (out !! k)|].
  unfold applies_to at 1. rewrite <- negb_andb.
  destruct (Active o now && _) eqn:Ea; simpl; [|apply IH].
  rewrite IH. destruct (String.eqb_spec (override_key (o_PkgVersion o) (o_Check o)) k) as [->|Hne].
  - destruct (out !! k) as [x|] eqn:El; [by rewrite El|]. by rewrite lookup_insert_eq.
  - assert (Hl : (match out !! override_key (o_PkgVersion o) (o_Check o) with
                  | Some _ => out | None => <[override_key (o_PkgVersion o) (o_Check o):=o]> out end) !! k
                 = out !! k).
    { destruct (out !! override_key _ _); [done|]. by rewrite lookup_insert_ne. }
    by rewrite Hl.
Qed.

Lemma find_ext_in {A} (f g : A -> bool) l : (forall x, x ∈ l -> f x = g x) -> List.find f l = List.find g l.
Proof.
  induction l as [|x l IH]; intros H; [done|]. simpl. rewrite (H x) by by left.
  rewrite IH; [done|]. intros y Hy. apply H. by right.
Qed.

(** Which override applies.  A check of one version is waived by exactly
    the first listed override that is approved and unexpired at that moment
    and names the package (pypi names in their PEP 503 form), that version and
    that check, and by none when there is no such override; a lookup that
    names no version finds one exactly when some version of the package has
    one for the check. *)
Theorem ActiveOverride_applies iterate list typ name version check now
  (Hit : forall m, iterate m ≡ₚ map snd (map_to_list m))
  (Hnul : forall o, o ∈ list (MkFilter typ "" OverrideApproved) -> no_byte "000" (o_Check o) = true)
  (Hcheck : no_byte "000" check = true) :
  let rows := list (MkFilter typ "" OverrideApproved) in
  let applies o := applies_to (overrideNameKey typ name) now o && (o_Check o =? check)%string in
  (version <> "" ->
     ActiveOverride iterate list typ name version check now =
     List.find (fun o => applies o && (o_PkgVersion o =? version)%string) rows) /\
  (is_Some (ActiveOverride iterate list typ name "" check now) <-> exists o, o ∈ rows /\ applies o = true).
Proof.
  cbv zeta. set (rows := list _) in *. unfold ActiveOverride, LoadOverrides, For. fold rows. split.
  - intros Hv. rewrite (proj2 (String.eqb_neq _ _) Hv). cbn [negb].
    rewrite load_loop_lookup, lookup_empty. apply find_ext_in. intros o Ho.
    destruct (String.eqb_spec (override_key (o_PkgVersion o) (o_Check o)) (override_key version check)) as [E|E].
    + apply override_key_inj in E as [-> ->]; [|by apply Hnul|done]. by rewrite !String.eqb_refl, !andb_true_r.
    + rewrite andb_false_r. destruct (String.eqb_spec (o_Check o) check) as [Hc|]; [|by rewrite andb_false_r].
      destruct (String.eqb_spec (o_PkgVersion o) version) as [Hpv|]; [|by rewrite andb_false_r].
      exfalso. apply E. by rewrite Hc, Hpv.
  - cbn [negb String.eqb]. set (m := load_loop _ _ _ _).
    assert (Hm : forall o, o ∈ map snd (map_to_list m) <->
              exists k, m !! k = Some o).
    { intros o. rewrite list_elem_of_fmap. split.
      - intros ([k x] & -> & Hin). exists k. by apply elem_of_map_to_list in Hin.
      - intros [k Hk]. exists (k, o). split; [done|]. by apply elem_of_map_to_list. }
    split.
    + intros [o Ho]. apply find_some in Ho as [Hin Hc]. apply list_elem_of_In in Hin.
      rewrite Hit in Hin. apply Hm in Hin as [k Hk]. unfold m in Hk.
      rewrite load_loop_lookup, lookup_empty in Hk. apply find_some in Hk as [Hin Ha].
      exists o. split; [by apply list_elem_of_In|]. rewrite Hc, andb_true_r.
      by apply andb_true_iff in Ha as [? _].
    + intros (o & Ho & [Ha Hc]%andb_true_iff).
      set (k := override_key (o_PkgVersion o) (o_Check o)).
      destruct (m !! k) as [o'|] eqn:Ek.
      * pose proof Ek as Ek'. unfold m in Ek'. rewrite load_loop_lookup, lookup_empty in Ek'.
        apply find_some in Ek' as [Hin' [_ Hk']%andb_true_iff]. apply String.eqb_eq in Hk'.
        apply list_elem_of_In in Hin'.
        apply override_key_inj in Hk' as [_ Hk']; [|by apply Hnul..].
        destruct (List.find _ (iterate m)) as [x|] eqn:Ef; [by eexists|]. exfalso.
        pose proof (find_none _ _ Ef o') as Hn. cbn beta in Hn. rewrite Hk', Hc in Hn.
        discriminate Hn. apply list_elem_of_In. rewrite Hit. apply Hm. by exists k.
      * exfalso. unfold m in Ek. rewrite load_loop_lookup, lookup_empty in Ek.
        pose proof (find_none _ _ Ek o) as Hn. cbn beta in Hn. unfold k in Hn.
        rewrite Ha, String.eqb_refl in Hn. discriminate Hn. by apply list_elem_of_In.
Qed.

Definition demo_list : list Override :=
  [set_decision OverrideApproved (Some 6) demo_asked].

Lemma ActiveOverride_applies_witness :
  ActiveOverride (fun m => map snd (map_to_list m)) (fun _ => demo_list) "npm" "left-pad" "1.0.0" "osv" 10
  = Some (set_decision OverrideApproved (Some 6) demo_asked).
Proof.
  eapply eq_trans.
  - apply (ActiveOverride_applies (fun m => map snd (map_to_list m)) (fun _ => demo_list) "npm" "left-pad"
             "1.0.0" "osv" 10); [reflexivity| |reflexivity|discriminate].
    intros o Ho. apply list_elem_of_singleton in Ho as ->. reflexivity.
  - vm_compute. reflexivity.
Defined.

(** The block a refusal names.  There is one whenever something blocked,
    it is one of the blocks, and it is one no override may waive whenever any
    of them is: malware an advisory or an integration found, upstream
    provenance that does not verify, or a disagreement with the Go checksum
    database. *)
Theorem reportedBlock_unwaivable blocks :
  (reportedBlock blocks = None <-> blocks = []) /\
  (forall b, reportedBlock blocks = Some b ->
     b ∈ blocks /\
     (notOverridable b <> "" <-> exists x, x ∈ blocks /\ notOverridable x <> "")).
Proof.
  unfold reportedBlock. destruct (List.find _ blocks) as [b|] eqn:Ef.
  - apply find_some in Ef as [Hin Hb%negb_true_iff%String.eqb_neq]. apply list_elem_of_In in Hin. split.
    + split; [done|]. intros ->. by apply elem_of_nil in Hin.
    + intros x [= <-]. split; [done|]. split; [by exists b|done].
  - split; [by destruct blocks|]. intros b Hb. destruct blocks as [|b' bs]; [done|]. simpl in Hb. simplify_eq.
    split; [by left|]. split; [exists b; split; [by left|done]|]. intros (x & Hx & Hne). exfalso.
    pose proof (find_none _ _ Ef x) as Hn. apply list_elem_of_In in Hx. specialize (Hn Hx). cbn beta in Hn.
    by apply negb_false_iff, String.eqb_eq in Hn.
Qed.
