(* ===== verification/Age.v ===== *)
(** The age gate: when a version was published upstream, and what the
    ecosystem's policy says of it (internal/policy/age.go, with SharedLookup of
    internal/policy/checks.go).

    A lookup's answer is what the registry returned once decoded, or an error's
    text: [Upstreams] holds them.  Arguments stand for [ParseTime], Go's
    time.Parse of RFC 3339 with nanoseconds; [ParseHTTPTime], http.ParseTime;
    [FormatTime], the printing of a time; [decode_p2], the JSON reading of a
    Composer document; and [lower_unicode], the lower case of a text that is not
    ASCII. *)

From stdpp Require Import base list gmap strings pretty.
From Stdlib Require Import ZArith Lia Ascii.
From S2P Require Import Prelude GoStrings GoRunes GoSort GoTime GoURL Types MavenLayout Keys Override AdmitOverride.

Record AgePolicy := MkAgePolicy {
  ap_Ecosystem : string;
  ap_MinAgeSeconds : Z;
  ap_Action : string;
  ap_UpdatedAt : Z
}.

Inductive policy_answer := AgePolicyFound (p : AgePolicy) | AgePolicyNotFound | AgePolicyFailed (err : string).

Definition OCIDatedByKey := "oci_dated_by".
Definition OCIDatedByCreated := "created".
Definition OCIDatedByFirstSeen := "first_seen".
Definition OCIDateErrorKey := "oci_date_error".
Definition RpmDatedByKey := "rpm_dated_by".
Definition RpmDatedByBuild := "build".
Definition RpmDatedByFile := "file".

Record AgeChecker := MkAgeChecker {
  NpmRegistry : string;
  PypiBase : string;
  GoProxy : string;
  CratesBase : string;
  RubygemsBase : string;
  MavenBases : list string;
  ComposerBase : string
}.

(** [NewAgeChecker]'s endpoints. *)
Definition NewAgeChecker : AgeChecker :=
  MkAgeChecker "https://registry.npmjs.org" "https://pypi.org" "https://proxy.golang.org" "https://crates.io"
    "https://rubygems.org" ["https://repo.maven.apache.org/maven2"; "https://plugins.gradle.org/m2"]
    "https://repo.packagist.org".

Record GemBuild := MkGemBuild { gb_Number : string; gb_Platform : string; gb_CreatedAt : string }.

Inductive head_answer := HeadFailed (err : string) | HeadStatus (status : Z) (lastModified : string).

(** A JSON value where the code wants a string, and a Composer document. *)
Inductive raw := RawString (s : string) | RawNull | RawOther.

Record p2_doc := MkP2 {
  p2_Minified : string;
  p2_Packages : gmap string (list (gmap string raw))
}.

Record Upstreams := MkUpstreams {
  up_npm : string -> gmap string string + string;
  up_pypi : string -> list string + string;
  up_gomod : string -> string + string;
  up_crates : string -> string + string;
  up_gems : string -> list GemBuild + string;
  up_p2 : string -> string + string;
  up_head : string -> head_answer
}.

(** ** Asking once *)

(** [answers] is [None] outside a ShareLookups context; the answers of one check
    are told from another's by the key. *)
Definition SharedLookup {A} (answers : option (gmap string A)) (key : string) (look : A)
  : option (gmap string A) * A :=
  match answers with
  | None => (None, look)
  | Some m =>
      match m !! key with
      | Some a => (Some m, a)
      | None => (Some (<[key := look]> m), look)
      end
  end.

(** ** Composer *)

(** A value read into a string that was empty: null and an error leave it so. *)
Definition raw_string (r : raw) : string := match r with RawString s => s | _ => "" end.

(** [composerBareVersion] drops a "v" before a digit. *)
Definition composerBareVersion (v : string) : string :=
  match v with
  | String c (String d _ as rest) => if (Ascii.eqb c "v" || Ascii.eqb c "V") && is_digit d then rest else v
  | _ => v
  end.

Section dating.
Variable ParseTime : string -> Z + string.
Variable ParseHTTPTime : string -> Z + string.
Variable FormatTime : Z -> string.
Variable decode_p2 : string -> p2_doc + string.
Variable lower_unicode : string -> string.
Variable up : Upstreams.

Definition parse_opt (stamp : string) : option Z := match ParseTime stamp with inl t => Some t | inr _ => None end.

(** The stamp a version carries or inherits, and what it adds to the list. *)
Definition p2_stamp (minified : bool) (stamp : string) (v : gmap string raw) : string :=
  let stamp := if minified then stamp else "" in
  match v !! "time" with Some r => raw_string r | None => stamp end.

Definition p2_step (minified : bool) (st : string * (list string * gmap string Z)) (v : gmap string raw)
  : string * (list string * gmap string Z) :=
  let '(stamp, (versions, times)) := st in
  let stamp := p2_stamp minified stamp v in
  let version := match v !! "version" with Some r => raw_string r | None => "" end in
  if (version =? "")%string then (stamp, (versions, times))
  else (stamp, (versions ++ [version],
                match parse_opt stamp with Some t => <[version := t]> times | None => times end)).

Definition publish_times (doc : p2_doc) (name : string) : list string * gmap string Z :=
  (foldl (p2_step (p2_Minified doc =? "composer/2.0")%string) ("", ([], ∅))
     (default [] (p2_Packages doc !! name))).2.

Definition ComposerPublishTimes (doc name : string) : (list string * gmap string Z) + string :=
  match decode_p2 doc with inl doc => inl (publish_times doc name) | inr err => inr err end.

(** The version listed as written, or the first that differs by the "v". *)
Fixpoint composer_match (listed : list string) (version found : string) : string :=
  match listed with
  | [] => found
  | v :: listed =>
      if (v =? version)%string then v
      else
        composer_match listed version
          (if (found =? "")%string && (composerBareVersion v =? composerBareVersion version)%string then v else found)
  end.

Definition composerPublishedAt (c : AgeChecker) (name version : string) : Z + string :=
  let name := ToLowerU lower_unicode name in
  let file := if HasPrefix version "dev-" || HasSuffix version "-dev" then name +:+ "~dev.json" else name +:+ ".json" in
  match up_p2 up (ComposerBase c +:+ "/p2/" +:+ file) with
  | inr err => inr err
  | inl doc =>
      match ComposerPublishTimes doc name with
      | inr err => inr ("packagist metadata for " +:+ name +:+ ": " +:+ err)
      | inl (listed, times) =>
          let found := composer_match listed version "" in
          if (found =? "")%string
          then inr ("packagist metadata does not list " +:+ name +:+ " " +:+ version)
          else
            match times !! found with
            | Some t => inl t
            | None => inr ("packagist metadata lists " +:+ name +:+ " " +:+ found +:+ " with no readable time")
            end
      end
  end.

(** ** The other registries *)

Definition npmPublishedAt (c : AgeChecker) (name version : string) : Z + string :=
  match up_npm up (NpmRegistry c +:+ "/" +:+ name) with
  | inr err => inr err
  | inl times =>
      match times !! version with
      | None => inr ("npm packument has no time entry for " +:+ version)
      | Some ts => ParseTime ts
      end
  end.

(** The zero time reads as no time yet. *)
Definition earliest_step (earliest : Z) (stamp : string) : Z :=
  if (stamp =? "")%string then earliest
  else
    match ParseTime stamp with
    | inr _ => earliest
    | inl t => if (earliest =? zero_time) || (t <? earliest) then t else earliest
    end.

Definition pypiPublishedAt (c : AgeChecker) (name version : string) : Z + string :=
  match up_pypi up (PypiBase c +:+ "/pypi/" +:+ name +:+ "/" +:+ version +:+ "/json") with
  | inr err => inr err
  | inl [] => inr ("pypi response for " +:+ name +:+ "@" +:+ version +:+ " has no urls[]")
  | inl stamps =>
      let earliest := foldl earliest_step zero_time stamps in
      if earliest =? zero_time
      then inr ("pypi response for " +:+ name +:+ "@" +:+ version +:+ " has no parseable upload_time")
      else inl earliest
  end.

Definition gomod_info_url (c : AgeChecker) (module version : string) : string :=
  GoProxy c +:+ "/" +:+ ToLowerU lower_unicode module +:+ "/@v/" +:+ version +:+ ".info".

Definition gomodPublishedAt (c : AgeChecker) (module version : string) : Z + string :=
  match up_gomod up (gomod_info_url c module version) with
  | inr err => inr err
  | inl stamp =>
      if (stamp =? "")%string then inr ("gomod .info has no Time field for " +:+ module +:+ "@" +:+ version)
      else ParseTime stamp
  end.

Definition cratesPublishedAt (c : AgeChecker) (name version : string) : Z + string :=
  match up_crates up (CratesBase c +:+ "/api/v1/crates/" +:+ name +:+ "/" +:+ version) with
  | inr err => inr err
  | inl stamp =>
      if (stamp =? "")%string
      then inr ("crates.io response has no version.created_at for " +:+ name +:+ "@" +:+ version)
      else ParseTime stamp
  end.

Definition gem_named (number platform : string) (b : GemBuild) : bool :=
  (gb_Number b =? number)%string && (gb_Platform b =? platform)%string.

Definition gemPublishedAt (c : AgeChecker) (name version : string) : Z + string :=
  let '(number, platform) :=
    match cut_byte "-" version with Some np => np | None => (version, "ruby") end in
  match up_gems up (RubygemsBase c +:+ "/api/v1/versions/" +:+ PathEscape name +:+ ".json") with
  | inr err => inr err
  | inl builds =>
      match List.find (gem_named number platform) builds with
      | None => inr ("rubygems versions API does not list " +:+ name +:+ " " +:+ number +:+ " for platform " +:+ platform)
      | Some b =>
          if (gb_CreatedAt b =? "")%string
          then inr ("rubygems versions API lists " +:+ name +:+ " " +:+ number +:+ " (" +:+ platform
                    +:+ ") with no created_at")
          else ParseTime (gb_CreatedAt b)
      end
  end.

(** One repository's answer for a POM: it answered 200, it does not publish it,
    or the read failed. *)
Inductive pom_answer := PomAnswered (dated : Z + string) | PomNotFound (err : string) | PomFailed (err : string).

Definition mavenPOMModified (endpoint name version : string) : pom_answer :=
  match up_head up endpoint with
  | HeadFailed err => PomFailed err
  | HeadStatus status lastModified =>
      if status =? 404 then PomNotFound ("HEAD " +:+ endpoint +:+ ": HTTP 404: the repository does not publish this POM")
      else if negb (status =? 200) then PomFailed ("HEAD " +:+ endpoint +:+ ": HTTP " +:+ pretty status)
      else if (lastModified =? "")%string
      then PomAnswered (inr ("HEAD " +:+ endpoint +:+ " answered with no Last-Modified, so " +:+ name +:+ " "
                             +:+ version +:+ " has no deploy time"))
      else
        match ParseHTTPTime lastModified with
        | inl t => PomAnswered (inl t)
        | inr err => PomAnswered (inr ("HEAD " +:+ endpoint +:+ ": Last-Modified " +:+ Quote lastModified +:+ ": " +:+ err))
        end
  end.

(** The first repository that answers decides; the first failure of each kind is
    kept for when none does. *)
Fixpoint pom_loop (bases : list string) (p name version : string) (notFound failed : option string) : Z + string :=
  match bases with
  | [] =>
      match failed, notFound with
      | Some err, _ => inr err
      | None, Some err => inr err
      | None, None => inr ("maven " +:+ name +:+ " " +:+ version +:+ ": no maven upstream is configured to date it")
      end
  | base :: bases =>
      match mavenPOMModified (base +:+ "/" +:+ p) name version with
      | PomAnswered dated => dated
      | PomNotFound err =>
          pom_loop bases p name version (match notFound with None => Some err | _ => notFound end) failed
      | PomFailed err =>
          pom_loop bases p name version notFound (match failed with None => Some err | _ => failed end)
      end
  end.

Definition mavenPublishedAt (c : AgeChecker) (name version : string) : Z + string :=
  match p ← MavenArtifactPath name version; _ ← ParseMavenPath p; Some p with
  | None => inr ("maven " +:+ Quote name +:+ " at " +:+ Quote version +:+ " names no POM in the repository layout")
  | Some p => pom_loop (MavenBases c) p name version None None
  end.

Definition ociPublishedAt (c : AgeChecker) (name tag : string) : Z + string :=
  inr ("oci " +:+ name +:+ ":" +:+ tag
       +:+ " is dated by bodega's registry from the image config when it resolves the tag, not by a lookup").

Definition rpmPublishedAt (c : AgeChecker) (name version : string) : Z + string :=
  inr ("rpm " +:+ name +:+ " " +:+ version
       +:+ " is dated by the time its repository's primary gives it as /rpm/ serves it, not by a lookup").

Definition agePublishers : list (string * (AgeChecker -> string -> string -> Z + string)) :=
  [(TypeNpm, npmPublishedAt); (TypePypi, pypiPublishedAt); (TypeGomod, gomodPublishedAt);
   (TypeCargo, cratesPublishedAt); (TypeRubygems, gemPublishedAt); (TypeMaven, mavenPublishedAt);
   (TypeComposer, composerPublishedAt); (TypeOCI, ociPublishedAt); (TypeRpm, rpmPublishedAt)].

Definition AgeEcosystems : list string := sort_Strings (map fst agePublishers).

Definition LookupDatedEcosystems : list string :=
  List.filter (fun t => negb ((t =? TypeOCI)%string || (t =? TypeRpm)%string)) AgeEcosystems.

Definition PublishedAt (c : AgeChecker) (ecosystem name version : string) : Z + string :=
  match List.find (fun e => (e.1 =? ecosystem)%string) agePublishers with
  | None => inr ("ecosystem " +:+ Quote ecosystem +:+ " has no upstream timestamp source")
  | Some (_, publisher) => publisher c name version
  end.

(** A copy that reads a type's times from another root. *)
Definition AtUpstream (c : AgeChecker) (typ upstream : string) : AgeChecker :=
  let upstream := TrimRight (TrimSpace upstream) "/" in
  if (upstream =? "")%string then c
  else if (typ =? TypeNpm)%string
  then MkAgeChecker upstream (PypiBase c) (GoProxy c) (CratesBase c) (RubygemsBase c) (MavenBases c) (ComposerBase c)
  else if (typ =? TypePypi)%string
  then MkAgeChecker (NpmRegistry c) upstream (GoProxy c) (CratesBase c) (RubygemsBase c) (MavenBases c) (ComposerBase c)
  else if (typ =? TypeGomod)%string
  then MkAgeChecker (NpmRegistry c) (PypiBase c) upstream (CratesBase c) (RubygemsBase c) (MavenBases c) (ComposerBase c)
  else c.

(** ** The check *)

Definition unpinned (version : string) : bool :=
  (version =? "")%string || (version =? "*")%string || (version =? ConstraintAny)%string.

Definition UndatableVersion (typ version : string) : bool :=
  let v := TrimSpace version in
  if unpinned v || (typ =? TypeOCI)%string then true
  else (typ =? TypeNpm)%string && (v =? "latest")%string.

(** A key the map does not hold reads as "". *)
Definition metadata (ve : VersionEntry) (key : string) : string := default "" (ve_Metadata ve !! key).

Definition recorded_time (what stamp : string) : Z + string :=
  match ParseTime stamp with
  | inl t => inl t
  | inr err => inr ("the time recorded for the " +:+ what +:+ " does not parse: " +:+ err)
  end.

Definition ociDated (ve : VersionEntry) : Z * string + string :=
  let msg := metadata ve OCIDateErrorKey in
  if negb (msg =? "")%string then inr msg
  else
    let by_ := metadata ve OCIDatedByKey in
    if (ve_PublishedAt ve =? "")%string || negb ((by_ =? OCIDatedByCreated)%string || (by_ =? OCIDatedByFirstSeen)%string)
    then inr "an image is dated by bodega's registry when it resolves the tag, and this entry carries no time from it"
    else match recorded_time "tag" (ve_PublishedAt ve) with inl t => inl (t, by_) | inr err => inr err end.

Definition rpmDated (ve : VersionEntry) : Z * string + string :=
  let by_ := metadata ve RpmDatedByKey in
  if (ve_PublishedAt ve =? "")%string || negb ((by_ =? RpmDatedByBuild)%string || (by_ =? RpmDatedByFile)%string)
  then inr ("an rpm package is dated by the build or file time its repository's primary gives it, and this entry "
            +:+ "carries neither: primary lists it with both at 0, or it was not served through /rpm/")
  else match recorded_time "package" (ve_PublishedAt ve) with inl t => inl (t, by_) | inr err => inr err end.

Definition datedPhrase (datedBy : string) : string :=
  if (datedBy =? OCIDatedByFirstSeen)%string
  then "dated by when bodega first resolved the tag: the image config carries no created time, or the Unix epoch"
  else if (datedBy =? RpmDatedByBuild)%string then "dated by the build time primary gives the package"
  else if (datedBy =? RpmDatedByFile)%string then "dated by the file time primary gives the package: its build time is 0"
  else "dated by the image config's created time".

Definition versionLabel (version : string) : string :=
  if (version =? "")%string then "(unset)" else Quote version.

Definition ShortDuration (d : Z) : string :=
  let days := Z.quot d (24 * Hour) in
  let hours := Z.quot d Hour in
  if 1 <=? days then pretty days +:+ "d"
  else if 1 <=? hours then pretty hours +:+ "h"
  else Duration_String (Duration_Round d Second).

Definition minAge (p : AgePolicy) : Z := wrap64 (ap_MinAgeSeconds p * Second).

Definition age_result (action reason : string) (details : gmap string string) : Result :=
  MkResult CheckAge action reason details None None.

(** The verdict on a version dated [publishedAt]. *)
Definition age_verdict (policy : AgePolicy) (now : Z) (name version : string) (publishedAt : Z) (datedBy : string)
  : Result :=
  let age := Time_Sub now publishedAt in
  let dates := {[ "published_at" := FormatTime publishedAt; "age_seconds" := pretty (Seconds age) ]} in
  let dated := if (datedBy =? "")%string then dates else <["dated_by" := datedBy]> dates in
  if minAge policy <=? age
  then age_result ActionPass (if (datedBy =? "")%string then "" else datedPhrase datedBy) dated
  else
    age_result (ap_Action policy)
      (name +:+ "@" +:+ version +:+ " is " +:+ ShortDuration age +:+ " old, policy requires "
       +:+ ShortDuration (minAge policy)
       +:+ (if (datedBy =? "")%string then "" else " (" +:+ datedPhrase datedBy +:+ ")"))
      (<["min_age_seconds" := pretty (ap_MinAgeSeconds policy)]> dated).

Definition resolvedOCI (pm : PackageManifest) (ve : VersionEntry) : bool :=
  (pm_Type pm =? TypeOCI)%string
  && (negb (metadata ve OCIDatedByKey =? "")%string || negb (metadata ve OCIDateErrorKey =? "")%string).

(** When the version was published, by what, and the answers shared since. *)
Definition version_date (c : AgeChecker) (shared : option (gmap string (Z + string))) (pm : PackageManifest)
  (ve : VersionEntry) (version : string) : option (gmap string (Z + string)) * (Z * string + string) :=
  if (pm_Type pm =? TypeOCI)%string then (shared, ociDated ve)
  else if (pm_Type pm =? TypeRpm)%string then (shared, rpmDated ve)
  else
    let '(shared, d) :=
      SharedLookup shared ("age" +:+ nul +:+ pm_Type pm +:+ nul +:+ pm_Name pm +:+ nul +:+ version)
        (PublishedAt c (pm_Type pm) (pm_Name pm) version) in
    (shared, match d with inl t => inl (t, "") | inr err => inr err end).

(** What the version's date gets under a policy that is not ignored. *)
Definition check_dated (c : AgeChecker) (policy : AgePolicy) (now : Z) (shared : option (gmap string (Z + string)))
  (pm : PackageManifest) (ve : VersionEntry) : option (gmap string (Z + string)) * Result :=
  let version := TrimSpace (ve_Version ve) in
  if negb (resolvedOCI pm ve) && unpinned version
  then (shared, age_result ActionPass
                  ("version " +:+ versionLabel version +:+ " pins nothing; age gate is version-aware") ∅)
  else
    let '(shared, dated) := version_date c shared pm ve version in
    (shared,
     match dated with
     | inr err => age_result ActionWarn
                    ("upstream timestamp unavailable for " +:+ pm_Type pm +:+ "/" +:+ pm_Name pm +:+ "@" +:+ version
                     +:+ ": " +:+ err) ∅
     | inl (publishedAt, datedBy) => age_verdict policy now (pm_Name pm) version publishedAt datedBy
     end).

Definition CheckAgeGate (c : AgeChecker) (store : string -> policy_answer) (now : Z)
  (shared : option (gmap string (Z + string))) (pm : option PackageManifest) (ve : option VersionEntry)
  : option (gmap string (Z + string)) * Result :=
  match pm, ve with
  | Some pm, Some ve =>
      match store (pm_Type pm) with
      | AgePolicyNotFound => (shared, age_result ActionPass "" ∅)
      | AgePolicyFailed err => (shared, age_result ActionWarn ("load age policy: " +:+ err) ∅)
      | AgePolicyFound policy =>
          if (ap_Action policy =? ActionIgnore)%string then (shared, age_result ActionPass "" ∅)
          else check_dated c policy now shared pm ve
      end
  | _, _ => (shared, age_result ActionPass "" ∅)
  end.
End dating.

(** * Lemmas *)

Lemma age_verdict_action FormatTime policy now name version t by_ :
  r_Action (age_verdict FormatTime policy now name version t by_)
  = if minAge policy <=? Time_Sub now t then ActionPass else ap_Action policy.
Proof. unfold age_verdict. by destruct (minAge policy <=? Time_Sub now t). Qed.

(** A policy of seconds that fit a duration is compared exactly, however far the
    two times are apart. *)
Lemma minAge_exact policy : 0 <= ap_MinAgeSeconds policy <= 9223372036 ->
  minAge policy = ap_MinAgeSeconds policy * Second.
Proof. intros H. unfold minAge, Second. apply wrap64_id. lia. Qed.

Lemma minAge_wraps policy : 9223372037 <= ap_MinAgeSeconds policy <= 18446744073 -> minAge policy < 0.
Proof.
  intros H. unfold minAge, wrap64, Second.
  rewrite <- (Z.mod_unique (ap_MinAgeSeconds policy * 10 ^ 9 + 2 ^ 63) (2 ^ 64) 1
    (ap_MinAgeSeconds policy * 10 ^ 9 + 2 ^ 63 - 2 ^ 64)) by lia. lia.
Qed.

Section lemmas.
Variable ParseTime : string -> Z + string.
Variable ParseHTTPTime : string -> Z + string.
Variable FormatTime : Z -> string.
Variable decode_p2 : string -> p2_doc + string.
Variable lower_unicode : string -> string.
Variable up : Upstreams.

#[local] Abbreviation date := (version_date ParseTime ParseHTTPTime decode_p2 lower_unicode up).
#[local] Abbreviation gate := (CheckAgeGate ParseTime ParseHTTPTime FormatTime decode_p2 lower_unicode up).
#[local] Abbreviation pom := (mavenPOMModified ParseHTTPTime up).

(** The cases of [CheckAgeGate] that reach a date. *)
Lemma CheckAgeGate_action c store now shared pm ve policy :
  store (pm_Type pm) = AgePolicyFound policy -> ap_Action policy <> ActionIgnore ->
  r_Action (gate c store now shared (Some pm) (Some ve)).2
  = if negb (resolvedOCI pm ve) && unpinned (TrimSpace (ve_Version ve)) then ActionPass
    else
      match (date c shared pm ve (TrimSpace (ve_Version ve))).2 with
      | inr _ => ActionWarn
      | inl (t, _) => if minAge policy <=? Time_Sub now t then ActionPass else ap_Action policy
      end.
Proof.
  intros Hs Ha. unfold CheckAgeGate. rewrite Hs. destruct (String.eqb_spec (ap_Action policy) ActionIgnore) as [|_]; [done|].
  unfold check_dated. destruct (negb _ && unpinned _); [done|].
  destruct (date c shared pm ve (TrimSpace (ve_Version ve))) as [shared' [[t by_]|err]]; [|done].
  apply age_verdict_action.
Qed.

(** ** Maven *)

Definition answered (a : pom_answer) : option (Z + string) :=
  match a with PomAnswered dated => Some dated | _ => None end.

Lemma pom_loop_first p name version t pre : forall base post notFound failed,
  Forall (fun b => answered (pom (b +:+ "/" +:+ p) name version) = None) pre ->
  pom (base +:+ "/" +:+ p) name version = PomAnswered t ->
  pom_loop ParseHTTPTime up (pre ++ base :: post) p name version notFound failed = t.
Proof.
  induction pre as [|b pre IH]; intros base post notFound failed Hpre Hb; cbn [List.app pom_loop].
  - by rewrite Hb.
  - apply Forall_cons in Hpre as [Hn Hpre]. destruct (pom _ name version) as [?|err|err] in Hn |- *; [done|eauto|eauto].
Qed.

Lemma pom_loop_inv p name version t bases : forall notFound failed,
  pom_loop ParseHTTPTime up bases p name version notFound failed = inl t ->
  exists pre base post, bases = pre ++ base :: post
    /\ Forall (fun b => answered (pom (b +:+ "/" +:+ p) name version) = None) pre
    /\ pom (base +:+ "/" +:+ p) name version = PomAnswered (inl t).
Proof.
  induction bases as [|b bases IH]; intros notFound failed; cbn [pom_loop].
  - by destruct failed; destruct notFound.
  - destruct (pom (b +:+ "/" +:+ p) name version) as [dated|err|err] eqn:E.
    + intros ->. by exists [], b, bases.
    + intros (pre & base & post & -> & Hpre & Hb)%IH. exists (b :: pre), base, post.
      split; [done|]. split; [|done]. constructor; [by rewrite E|done].
    + intros (pre & base & post & -> & Hpre & Hb)%IH. exists (b :: pre), base, post.
      split; [done|]. split; [|done]. constructor; [by rewrite E|done].
Qed.

(** ** Composer *)

(** A minified document written out: a version that names no time is given the
    one before it. *)
Fixpoint spelled_out (prev : option raw) (vs : list (gmap string raw)) : list (gmap string raw) :=
  match vs with
  | [] => []
  | v :: vs =>
      let time := match v !! "time" with Some r => Some r | None => prev end in
      match time with Some r => <["time" := r]> v | None => v end :: spelled_out time vs
  end.

Definition stamp_of (prev : option raw) : string := match prev with Some r => raw_string r | None => "" end.

Lemma p2_step_spelled_out v prev acc stamp :
  let time := match v !! "time" with Some r => Some r | None => prev end in
  (p2_step ParseTime true (stamp_of prev, acc) v)
  = (p2_step ParseTime false (stamp, acc) (match time with Some r => <["time" := r]> v | None => v end))
  /\ (p2_step ParseTime true (stamp_of prev, acc) v).1 = stamp_of time.
Proof.
  intros time. destruct acc as [versions times]. unfold p2_step, p2_stamp.
  assert (Hv : match time with Some r => <["time" := r]> v | None => v end !! "version" = v !! "version").
  { destruct time; [by rewrite lookup_insert_ne|done]. }
  rewrite Hv. subst time. destruct (v !! "time") as [r|] eqn:E.
  - rewrite lookup_insert_eq. by destruct (_ =? "")%string.
  - destruct prev as [r|]; [rewrite lookup_insert_eq|rewrite E]; by destruct (_ =? "")%string.
Qed.

Lemma p2_fold_spelled_out vs : forall prev stamp acc,
  (foldl (p2_step ParseTime true) (stamp_of prev, acc) vs).2
  = (foldl (p2_step ParseTime false) (stamp, acc) (spelled_out prev vs)).2.
Proof.
  induction vs as [|v vs IH]; intros prev stamp acc; [done|]. cbn [foldl spelled_out].
  destruct (p2_step_spelled_out v prev acc stamp) as [E1 E2]. rewrite <- E1.
  destruct (p2_step ParseTime true (stamp_of prev, acc) v) as [s acc'] eqn:E. cbn in E2. subst s. apply IH.
Qed.
End lemmas.

(** The proxy a module is dated by is asked for its lower case, so two modules
    that differ in case get one answer. *)
Lemma gomod_info_url_folds lower_unicode c m m' version :
  ToLowerU lower_unicode m = ToLowerU lower_unicode m' ->
  gomod_info_url lower_unicode c m version = gomod_info_url lower_unicode c m' version.
Proof. unfold gomod_info_url. by intros ->. Qed.

(** * Theorems *)

(** What the age gate refuses.  A version is blocked exactly when a block
    policy is stored for its ecosystem, the version names one release (or is a
    tag the registry resolved), a date was read for it, and fewer nanoseconds
    have passed since than the policy asks for.  A version nothing could date,
    a policy that could not be read and an unpinned version are never blocked;
    the first two are warned about. *)
Theorem CheckAgeGate_blocks ParseTime ParseHTTPTime FormatTime decode_p2 lower_unicode up c store now shared pm ve :
  let gate := CheckAgeGate ParseTime ParseHTTPTime FormatTime decode_p2 lower_unicode up c store now shared in
  let date p v := (version_date ParseTime ParseHTTPTime decode_p2 lower_unicode up c shared p v
                     (TrimSpace (ve_Version v))).2 in
  (r_Action (gate pm ve).2 = ActionBlock <->
   exists p v policy t by_,
     pm = Some p /\ ve = Some v /\ store (pm_Type p) = AgePolicyFound policy /\ ap_Action policy = ActionBlock
     /\ (resolvedOCI p v = true \/ unpinned (TrimSpace (ve_Version v)) = false)
     /\ date p v = inl (t, by_) /\ Time_Sub now t < minAge policy)
  /\ (forall p v policy err,
        store (pm_Type p) = AgePolicyFound policy -> ap_Action policy <> ActionIgnore ->
        (resolvedOCI p v = true \/ unpinned (TrimSpace (ve_Version v)) = false) -> date p v = inr err ->
        r_Action (gate (Some p) (Some v)).2 = ActionWarn).
Proof.
  intros gate date.
  assert (Hpin : forall p v, resolvedOCI p v = true \/ unpinned (TrimSpace (ve_Version v)) = false ->
                   negb (resolvedOCI p v) && unpinned (TrimSpace (ve_Version v)) = false).
  { intros p v [->| ->]; [done|apply andb_false_r]. }
  split; [split|].
  - destruct pm as [p|]; [|done]. destruct ve as [v|]; [|done]. intros H.
    destruct (store (pm_Type p)) as [policy| |err] eqn:Es;
      [|by unfold gate, CheckAgeGate in H; rewrite Es in H..].
    destruct (decide (ap_Action policy = ActionIgnore)) as [Hi|Hi].
    { unfold gate, CheckAgeGate in H. rewrite Es, Hi in H. done. }
    unfold gate in H. rewrite (CheckAgeGate_action _ _ _ _ _ _ _ _ _ _ _ _ policy) in H by done.
    destruct (resolvedOCI p v) eqn:Er, (unpinned _) eqn:Eu; cbn [negb andb] in H; [..|done|];
      (destruct (version_date _ _ _ _ _ _ _ _ _ _) as [s [[t by_]|err]] eqn:Ed in H; cbn [snd] in H; [|done];
       destruct (Z.leb_spec (minAge policy) (Time_Sub now t)); [done|];
       exists p, v, policy, t, by_; unfold date; rewrite Ed; auto 10).
  - intros (p & v & policy & t & by_ & -> & -> & Es & Ha & Hp & Hd & Hlt).
    unfold gate. rewrite (CheckAgeGate_action _ _ _ _ _ _ _ _ _ _ _ _ policy) by (rewrite ?Ha; done).
    rewrite Hpin by done. unfold date in Hd. rewrite Hd. by destruct (Z.leb_spec (minAge policy) (Time_Sub now t)); [lia|].
  - intros p v policy err Es Ha Hp Hd. unfold gate. rewrite (CheckAgeGate_action _ _ _ _ _ _ _ _ _ _ _ _ policy) by done.
    rewrite Hpin by done. unfold date in Hd. by rewrite Hd.
Qed.

(** The window of an age policy.  A minimum age of up to 9223372036 seconds
    is compared exactly: the verdict is a pass when at least that long has
    passed, even where the difference of the two times leaves int64.  From
    9223372037 seconds to 18446744073 the product wraps to a negative duration,
    and a policy that means to wait centuries passes whatever was published
    before now. *)
Theorem age_verdict_window FormatTime policy now name version t by_ :
  let action := r_Action (age_verdict FormatTime policy now name version t by_) in
  let s := ap_MinAgeSeconds policy in
  (0 <= s <= 9223372036 -> action = if s * Second <=? now - t then ActionPass else ap_Action policy) /\
  (9223372037 <= s <= 18446744073 -> t <= now -> action = ActionPass).
Proof.
  intros action s. subst action. rewrite age_verdict_action. split.
  - intros H. rewrite minAge_exact by done. fold s.
    pose proof (Time_Sub_lt now t (s * Second)) as Hlt. unfold minInt, maxInt, Second in *.
    destruct (Z.leb_spec (s * 10 ^ 9) (Time_Sub now t)), (Z.leb_spec (s * 10 ^ 9) (now - t)); lia || done.
  - intros H Ht. pose proof (minAge_wraps policy H). unfold Time_Sub, maxInt, minInt.
    destruct (Z.leb_spec (minAge policy) (Z.max (- 2 ^ 63) (Z.min (2 ^ 63 - 1) (now - t)))); lia || done.
Qed.

(** The date of a Maven release is that of the repository the route would
    serve its POM from: the first configured one that answers the POM's path,
    every one before it having answered 404 or failed.  One that answers without
    a date ends the search. *)
Theorem mavenPublishedAt_first ParseHTTPTime up c name version t :
  mavenPublishedAt ParseHTTPTime up c name version = inl t <->
  exists p pre base post,
    MavenArtifactPath name version = Some p /\ is_Some (ParseMavenPath p)
    /\ MavenBases c = pre ++ base :: post
    /\ Forall (fun b => answered (mavenPOMModified ParseHTTPTime up (b +:+ "/" +:+ p) name version) = None) pre
    /\ mavenPOMModified ParseHTTPTime up (base +:+ "/" +:+ p) name version = PomAnswered (inl t).
Proof.
  unfold mavenPublishedAt. split.
  - destruct (MavenArtifactPath name version) as [p|] eqn:Ep; cbn [mbind option_bind]; [|done].
    destruct (ParseMavenPath p) as [mp|] eqn:Em; cbn [mbind option_bind]; [|done].
    intros (pre & base & post & Hb & Hpre & Ht)%pom_loop_inv. exists p, pre, base, post. rewrite Em. eauto 10.
  - intros (p & pre & base & post & -> & [mp Em] & -> & Hpre & Ht). cbn [mbind option_bind].
    rewrite Em. cbn [mbind option_bind]. by apply pom_loop_first.
Qed.

(** A minified Composer document dates its versions as the same document
    written out does: a version that names no time has the time of the one
    before it, "__unset" included, and nothing else is inherited. *)
Theorem publish_times_spelled_out ParseTime packages name :
  publish_times ParseTime (MkP2 "composer/2.0" packages) name
  = publish_times ParseTime (MkP2 "" (spelled_out None <$> packages)) name.
Proof.
  unfold publish_times. cbn [p2_Minified p2_Packages]. rewrite lookup_fmap.
  change ("composer/2.0" =? "composer/2.0")%string with true. change ("" =? "composer/2.0")%string with false.
  destruct (packages !! name) as [vs|]; [|done]. cbn [default fmap option_fmap option_map].
  apply (p2_fold_spelled_out ParseTime vs None).
Qed.
