(* ===== verification/OsvLookup.v ===== *)
(** What a version entry is looked up under in the OSV database: the ecosystems
    of a registry type and of an apt suite, and the targets of one entry
    (internal/policy/osvapt.go, and the tables of internal/policy/osv.go).

    [lower_unicode] lower-cases a text that is not ASCII. *)

From stdpp Require Import base list gmap strings pretty.
From Stdlib Require Import ZArith Lia Ascii.
From S2P Require Import Prelude GoStrings GoRunes GoSort Types BuilderSemver OsvRange Age.

(** ** Registry types *)

Definition osvEcosystemFor : list (string * string) :=
  [(TypeNpm, "npm"); (TypePypi, "PyPI"); (TypeGomod, "Go"); (TypeCargo, "crates.io");
   (TypeRubygems, "RubyGems"); (TypeMaven, "Maven"); (TypeComposer, "Packagist")].

(** A table read as a Go map: "" for a key it does not hold. *)
Definition table_get (table : list (string * string)) (key : string) : string :=
  match List.find (fun kv => (kv.1 =? key)%string) table with Some (_, v) => v | None => "" end.

Definition OSVEcosystemFor (registryType : string) : string := table_get osvEcosystemFor registryType.

Definition OSVCovers (registryType : string) : bool :=
  (registryType =? TypeApt)%string || (registryType =? TypeRpm)%string
  || negb (OSVEcosystemFor registryType =? "")%string.

Definition OSVEcosystems : list string := sort_Strings (map fst osvEcosystemFor ++ [TypeApt; TypeRpm]).

Definition OSVNotRunOCI : string :=
  "not run: OSV has no container image ecosystem, so no advisory or malware record can be looked up for an image".

Definition RpmOSVEcosystemKey := "rpm_osv_ecosystem".
Definition RpmRepositoryKey := "rpm_repository".
Definition RpmReleaseKey := "rpm_release".

Definition rpmNotRunReason (name : string) (ve : VersionEntry) : string :=
  let repo := metadata ve RpmRepositoryKey in
  if negb (repo =? "")%string
  then "not run: rpm repository " +:+ repo +:+ " belongs to no OSV ecosystem, so no advisory covers " +:+ name
       +:+ " from it. OSV publishes RPM advisories for Rocky Linux, AlmaLinux and Red Hat builds only, and none for EPEL"
       +:+ " or another add-on repository; a mirror of one of those three names it with osv_ecosystem on its"
       +:+ " rpm_upstreams entry"
  else "not run: rpm " +:+ name +:+ " names no repository, and the OSV ecosystem an rpm package is checked against is"
       +:+ " its repository's".

(** The version an advisory is matched against. *)
Definition osvQueryVersion (ecosystem version : string) : string :=
  if (ecosystem =? "RubyGems")%string
  then match cut_byte "-" version with Some (release, _) => release | None => version end
  else if (ecosystem =? "Packagist")%string then composerBareVersion version
  else version.

(** ** apt suites *)

Definition aptOSVEcosystem : list (string * string) :=
  [("trusty", "Ubuntu:14.04:LTS"); ("xenial", "Ubuntu:16.04:LTS"); ("bionic", "Ubuntu:18.04:LTS");
   ("focal", "Ubuntu:20.04:LTS"); ("jammy", "Ubuntu:22.04:LTS"); ("noble", "Ubuntu:24.04:LTS");
   ("questing", "Ubuntu:25.10"); ("resolute", "Ubuntu:26.04:LTS"); ("wheezy", "Debian:7"); ("jessie", "Debian:8");
   ("stretch", "Debian:9"); ("buster", "Debian:10"); ("bullseye", "Debian:11"); ("bookworm", "Debian:12");
   ("trixie", "Debian:13"); ("forky", "Debian:14")].

Definition aptPockets : list string := ["-security"; "-updates"; "-backports"; "-proposed"].

Record osvTarget := MkTarget { tg_ecosystem : string; tg_name : string }.

Record osvLookup := MkLookup {
  lk_targets : list osvTarget;
  lk_queried : string;
  lk_note : string;
  lk_unverifiedName : string;
  lk_reason : string
}.

Definition no_lookup (reason : string) : osvLookup := MkLookup [] "" "" "" reason.

(** Each value once, in the order first seen; "" is passed over. *)
Fixpoint fold_once (seen : list string) (l : list string) : list string :=
  match l with
  | [] => []
  | x :: l => if (x =? "")%string || slice_contains seen x then fold_once seen l else x :: fold_once (seen ++ [x]) l
  end.

Section lookup.
Variable lower_unicode : string -> string.

Definition aptSuiteBase (suite : string) : string :=
  foldl TrimSuffix (ToLowerU lower_unicode (TrimSpace suite)) aptPockets.

Definition AptOSVEcosystem (suite : string) : string := table_get aptOSVEcosystem (aptSuiteBase suite).

Definition served_release (suite : string) : string :=
  let id := AptOSVEcosystem suite in if (id =? "")%string then aptSuiteBase suite else id.

Definition aptServedReleases (suites : list string) : list string := fold_once [] (map served_release suites).

(** The exports, sorted, and the suites none covers. *)
Definition OSVExportsFor (registryType : string) (aptSuites : list string) : list string * list string :=
  if negb (registryType =? TypeApt)%string then
    let eco := OSVEcosystemFor registryType in (if (eco =? "")%string then [] else [eco], [])
  else
    (sort_Strings (fold_once [] (map AptOSVEcosystem aptSuites)),
     List.filter (fun s => (AptOSVEcosystem s =? "")%string) aptSuites).

Definition OSVExportSource (ecosystem : string) : string :=
  match cut_byte ":" ecosystem with
  | Some (base, _) => if isDistroEcosystem ecosystem then base else ecosystem
  | None => ecosystem
  end.

Definition aptUnverifiedNameReason (name : string) (exports : list string) : string :=
  "apt entry " +:+ name +:+ " was queried under its binary name in " +:+ Join exports ", "
  +:+ " and matched nothing, but Ubuntu and Debian advisories are issued against the source package, so an empty"
  +:+ " answer here is not a clean one; re-capture the host with dpkg-query -W"
  +:+ " -f='${Package}\t${Version}\t${Architecture}\t${Status}\t${source:Package}\n' and re-import, or set"
  +:+ " source_package on the version entry".

Definition aptAmbiguousSuiteReason (name : string) (releases : list string) : string :=
  "apt entry " +:+ name +:+ " names no release and this bodega serves " +:+ pretty (Z.of_nat (length releases))
  +:+ " releases (" +:+ Join releases ", " +:+ "), so nothing identifies which release's advisories cover its version;"
  +:+ " set capture_suite on the version entry, or re-capture the host with 'bodega pkg convert apt --suite <codename>'"
  +:+ " and re-import".

Definition aptUnmappedReason (name : string) (suites unmapped : list string) : string :=
  match suites with
  | [] => "apt entry " +:+ name +:+ " names no release, so no Ubuntu or Debian advisories identify the ones that cover"
          +:+ " it; set capture_suite on the version entry"
  | _ => "apt entry " +:+ name +:+ " names suite(s) " +:+ Join unmapped ", " +:+ ", which OSV publishes no Ubuntu or"
         +:+ " Debian export for"
  end.

(** An apt entry looked up in the releases of [suites]. *)
Definition apt_lookup (pm : PackageManifest) (ve : VersionEntry) (suites : list string) : osvLookup :=
  let name := if (ve_SourcePackage ve =? "")%string then pm_Name pm else ve_SourcePackage ve in
  let kind := if (ve_SourcePackage ve =? "")%string then "binary package" else "source package" in
  let '(exports, unmapped) := OSVExportsFor TypeApt suites in
  match exports with
  | [] => no_lookup (aptUnmappedReason (pm_Name pm) suites unmapped)
  | _ =>
      MkLookup (map (fun eco => MkTarget eco name) exports)
        (kind +:+ " " +:+ name +:+ " in " +:+ Join exports ", ")
        (match unmapped with
         | [] => ""
         | _ => "suite(s) " +:+ Join unmapped ", "
                +:+ " were not queried: OSV publishes no Ubuntu or Debian export for them"
         end)
        (if (ve_SourcePackage ve =? "")%string then aptUnverifiedNameReason (pm_Name pm) exports else "")
        ""
  end.

Definition rpm_lookup (pm : PackageManifest) (ve : VersionEntry) : osvLookup :=
  let vendor := metadata ve RpmOSVEcosystemKey in
  let eco := rpmReleaseEcosystem vendor (metadata ve RpmReleaseKey) in
  if (eco =? "")%string
  then no_lookup ("rpm entry " +:+ pm_Name pm +:+ " names no Enterprise Linux release (" +:+ RpmReleaseKey +:+ " "
                  +:+ Quote (metadata ve RpmReleaseKey) +:+ "), so nothing selects which of " +:+ vendor
                  +:+ "'s releases' advisories cover it; fetch it through /rpm/<repository>/<releasever>/, which records"
                  +:+ " the release")
  else MkLookup [MkTarget eco (pm_Name pm)] (pm_Name pm +:+ " in " +:+ eco) "" "" "".

Definition osvLookupFor (pm : PackageManifest) (ve : VersionEntry) (defaultSuite : string) (servedSuites : list string)
  : osvLookup :=
  if (pm_Type pm =? TypeRpm)%string then rpm_lookup pm ve
  else if negb (pm_Type pm =? TypeApt)%string then
    let eco := OSVEcosystemFor (pm_Type pm) in
    if (eco =? "")%string then no_lookup (pm_Type pm +:+ " has no OSV ecosystem")
    else MkLookup [MkTarget eco (pm_Name pm)] "" "" "" ""
  else if negb (ve_CaptureSuite ve =? "")%string then apt_lookup pm ve [ve_CaptureSuite ve]
  else
    let releases := aptServedReleases servedSuites in
    if (length (ve_Suites ve) =? 0)%nat && (1 <? length releases)%nat
    then no_lookup (aptAmbiguousSuiteReason (pm_Name pm) releases)
    else apt_lookup pm ve (EffectiveSuites ve defaultSuite).
End lookup.

(** [queryName] *)
Definition queryName (lk : osvLookup) : string := match lk_targets lk with t :: _ => tg_name t | [] => "" end.
