(* ===== verification/OsvGate.v ===== *)
(** The OSV gate: the answer of the local database and of api.osv.dev, the check
    that turns it into a verdict, and the stamp it leaves on the version
    (internal/policy/{osv,osvrescan}.go, and Meta and Match of osvdb.go).

    Arguments stand for what is read from outside: [api_post], one request to
    api.osv.dev with its answer decoded; [FormatTime], the printing of a time in
    UTC; [marshal], the JSON of the severities; and [lower_unicode].  What the
    database's files hold is a field of [OSVDatabase]. *)

From stdpp Require Import base list gmap strings pretty.
From Stdlib Require Import ZArith Lia Ascii.
From S2P Require Import Prelude GoStrings GoSort GoTime Types Override AdmitOverride OsvRange Age OsvLookup.

(** ** Records *)

Record OSVSeverity := MkSeverity { sv_Type : string; sv_Score : string }.

Record osvVuln := MkVuln {
  vu_ID : string;
  vu_Summary : string;
  vu_Severity : list OSVSeverity;
  vu_Malicious : bool
}.

Definition isMalware (v : osvVuln) : bool := HasPrefix (vu_ID v) "MAL-" || vu_Malicious v.

(** [database_specific]: the raw value of the origins, and the CWE ids. *)
Definition malicious (origins : string) (cwes : list string) : bool :=
  negb (origins =? "")%string && negb (origins =? "null")%string || existsb (fun id => (id =? "CWE-506")%string) cwes.

Definition splitMalware (vs : list osvVuln) : list osvVuln * list osvVuln :=
  (List.filter isMalware vs, List.filter (fun v => negb (isMalware v)) vs).

Definition vulnIDs (vs : list osvVuln) : list string :=
  sort_Strings (List.filter (fun id => negb (id =? "")%string) (map vu_ID vs)).

Definition by_id (vs : list osvVuln) : list osvVuln := SliceStable (fun a b => Compare (vu_ID a) (vu_ID b) <? 0) vs.

Definition describeMalware (vs : list osvVuln) : string :=
  Join (map (fun v => if (vu_Summary v =? "")%string then vu_ID v
                      else vu_ID v +:+ " (" +:+ vu_Summary v +:+ ")") (by_id vs)) ", ".

Definition vulnSeverities (vs : list osvVuln) : gmap string (list OSVSeverity) :=
  foldl (fun out v => if (vu_ID v =? "")%string || (length (vu_Severity v) =? 0)%nat then out
                      else <[vu_ID v := vu_Severity v]> out) ∅ vs.

Definition splitIDs (raw : string) : list string :=
  sort_Strings (List.filter (fun id => negb (id =? "")%string) (map TrimSpace (Split "," raw))).

(** ** The local database *)

Record osvRecord := MkRecord {
  rc_ID : string;
  rc_Summary : string;
  rc_Severity : list OSVSeverity;
  rc_Malicious : bool;
  rc_Affected : list osvAffected
}.

Record osvIndex := MkIndex { ByRelease : bool; Packages : gmap string (list osvRecord) }.

Record OSVDBMeta := MkMeta {
  mt_Ecosystem : string;
  mt_Source : string;
  mt_FetchedAt : Z;
  mt_Records : Z;
  mt_Packages : Z;
  mt_Bytes : Z;
  mt_Trimmed : bool
}.

(** An ecosystem that was never synced, or another error's text. *)
Inductive db_error := ErrOSVDBMissing | DBError (err : string).

Definition missing_text : string := "ecosystem not present in the local OSV database".

Definition db_text (err : db_error) : string := match err with ErrOSVDBMissing => missing_text | DBError err => err end.

(** [read_meta] is the metadata file parsed, or absent; [has_index] whether the
    archive is there; [load] the archive decoded. *)
Record OSVDatabase := MkDatabase {
  od_dir : string;
  read_meta : string -> OSVDBMeta + db_error;
  has_index : string -> bool;
  load : string -> osvIndex + string
}.

Definition validEcosystemFile (ecosystem : string) : bool :=
  negb ((ecosystem =? "")%string || (ecosystem =? ".")%string || (ecosystem =? "..")%string
        || has_byte "/" ecosystem || has_byte "\" ecosystem).

Definition Meta (d : option OSVDatabase) (ecosystem : string) : OSVDBMeta + db_error :=
  match d with
  | None => inr ErrOSVDBMissing
  | Some d =>
      let ecosystem := (osvIndexFor ecosystem "").1.1 in
      if negb (validEcosystemFile ecosystem) then inr (DBError ("invalid OSV ecosystem " +:+ Quote ecosystem))
      else
        match read_meta d (OSVEcosystemFile ecosystem) with
        | inr err => inr err
        | inl meta => if has_index d (OSVEcosystemFile ecosystem) then inl meta else inr ErrOSVDBMissing
        end
  end.

(** One record: a hit, or the first bound nothing could place. *)
Fixpoint record_affects (affs : list osvAffected) (order version bad : string) : bool * string :=
  match affs with
  | [] => (false, bad)
  | aff :: affs =>
      let '(matched, b) := affects aff order version in
      if matched then (true, bad) else record_affects affs order version (if (bad =? "")%string then b else bad)
  end.

Definition vuln_of (r : osvRecord) : osvVuln := MkVuln (rc_ID r) (rc_Summary r) (rc_Severity r) (rc_Malicious r).

Definition match_step (order version : string) (acc : list osvVuln * list string) (r : osvRecord)
  : list osvVuln * list string :=
  let '(vulns, skipped) := acc in
  match record_affects (rc_Affected r) order version "" with
  | (true, _) => (vulns ++ [vuln_of r], skipped)
  | (false, bad) => if (bad =? "")%string then (vulns, skipped)
                    else (vulns, skipped ++ [rc_ID r +:+ " (bound " +:+ Quote bad +:+ ")"])
  end.

Definition Match (d : option OSVDatabase) (ecosystem name version : string) : list osvVuln * list string + db_error :=
  match d with
  | None => inr ErrOSVDBMissing
  | Some d =>
      let '(index, key, byRelease) := osvIndexFor ecosystem name in
      if byRelease && negb (has_byte ":" ecosystem)
      then inr (DBError ("rpm lookup in " +:+ ecosystem +:+ " names no release, and " +:+ ecosystem
                         +:+ "'s advisories are kept per release"))
      else
        match load d index with
        | inr err => inr (DBError err)
        | inl idx =>
            if byRelease && negb (ByRelease idx)
            then inr (DBError ("the " +:+ index +:+ " index was written before rpm advisories were kept per release, so"
                               +:+ " it cannot tell " +:+ ecosystem +:+ "'s records from another release's; run `bodega"
                               +:+ " policy osv sync rpm`"))
            else
              let '(vulns, skipped) :=
                foldl (match_step (osvVersionOrder ecosystem) version) ([], []) (default [] (Packages idx !! key)) in
              inl (by_id vulns, sort_Strings skipped)
        end
  end.

(** ** One lookup *)

(** [an_answered] false is no verdict at all; [an_degraded] says what limits the
    answer. *)
Record osvAnswer := MkAnswer {
  an_vulns : list osvVuln;
  an_degraded : string;
  an_answered : bool;
  an_err : option string
}.

Definition conclusive (a : osvAnswer) : bool :=
  negb (isSome (an_err a)) && an_answered a && (an_degraded a =? "")%string.

Inductive action_answer := ActionFound (action : string) | ActionNotFound | ActionFailed (err : string).

Record OSVStore := MkOSVStore { GetOSVPolicy : string -> action_answer; GetOSVMalwarePolicy : string -> action_answer }.

Record OSVChecker := MkOSVChecker {
  oc_store : option OSVStore;
  oc_Endpoint : string;
  oc_LocalDB : option OSVDatabase;
  oc_AllowAPIFallback : bool;
  oc_MaxAge : Z;
  oc_DefaultAptSuite : string;
  oc_ServedAptSuites : list string
}.

Definition DefaultOSVMaxAge : Z := 7 * 24 * Hour.

Definition maxAge (c : OSVChecker) : Z := if oc_MaxAge c <=? 0 then DefaultOSVMaxAge else oc_MaxAge c.

Definition osvSkipListLimit : nat := 5.

Definition unevaluatedReason (name version : string) (skipped : list string) : string :=
  match skipped with
  | [] => ""
  | _ =>
      pretty (Z.of_nat (length skipped)) +:+ " OSV record(s) for " +:+ name +:+ " were not evaluated against "
      +:+ version +:+ ": " +:+ Join (take osvSkipListLimit skipped) ", "
      +:+ (if (osvSkipListLimit <? length skipped)%nat
           then " and " +:+ pretty (Z.of_nat (length skipped - osvSkipListLimit)) +:+ " more" else "")
  end.

(** A record of an API answer, with what [query] reads beside it. *)
Record api_vuln := MkApiVuln {
  av_ID : string;
  av_Summary : string;
  av_Severity : list OSVSeverity;
  av_Origins : string;
  av_CWEs : list string;
  av_Affected : list osvRecordedAffected
}.

Inductive api_answer := ApiFailed (err : string) | ApiAnswered (status size : Z) (vulns : list api_vuln + string).

Definition osvAPIBodyLimit (ecosystem : string) : Z :=
  if isDistroEcosystem ecosystem then 64 * 2 ^ 20 else 4 * 2 ^ 20.

Section gate.
Variable api_post : string -> string -> string -> string -> api_answer.
Variable FormatTime : Z -> string.
Variable marshal : gmap string (list OSVSeverity) -> string.
Variable lower_unicode : string -> string.

Definition query (c : OSVChecker) (ecosystem name version : string) : list osvVuln + string :=
  let queryEco := (osvIndexFor ecosystem "").1.1 in
  match api_post (oc_Endpoint c) queryEco name version with
  | ApiFailed err => inr err
  | ApiAnswered status size vulns =>
      if negb (status =? 200) then inr ("POST " +:+ oc_Endpoint c +:+ ": HTTP " +:+ pretty status)
      else if osvAPIBodyLimit ecosystem <? size
      then inr ("osv response for " +:+ ecosystem +:+ " " +:+ name +:+ "@" +:+ version +:+ " is larger than the "
                +:+ pretty (osvAPIBodyLimit ecosystem / 2 ^ 20)
                +:+ " MiB cap; run `bodega policy osv sync` and answer from the local database")
      else
        match vulns with
        | inr err => inr ("parse osv response: " +:+ err)
        | inl vulns =>
            inl (map (fun v => MkVuln (av_ID v) (av_Summary v) (av_Severity v) (malicious (av_Origins v) (av_CWEs v)))
                   (List.filter (fun v => (queryEco =? ecosystem)%string
                                          || rpmAffectsRelease ecosystem name version (av_Affected v)) vulns))
        end
  end.

(** What the local database answers, or why it cannot. *)
Definition local_answer (c : OSVChecker) (now : Z) (osvEco name version : string) : osvAnswer + string :=
  let unreadable err := "local OSV database for " +:+ osvEco +:+ " is unreadable (" +:+ err
                        +:+ "); run `bodega policy osv sync`" in
  match Meta (oc_LocalDB c) osvEco with
  | inr (DBError err) => inr (unreadable err)
  | inr ErrOSVDBMissing =>
      inr (match oc_LocalDB c with
           | None => "no local OSV database configured (set osv_db_dir); run `bodega policy osv sync`"
           | Some d => "no local OSV database for " +:+ osvEco +:+ " in " +:+ od_dir d
                       +:+ "; run `bodega policy osv sync`"
           end)
  | inl meta =>
      match Match (oc_LocalDB c) osvEco name version with
      | inr err => inr (unreadable (db_text err))
      | inl (vulns, skipped) =>
          let degraded := unevaluatedReason name version skipped in
          let age := Time_Sub now (mt_FetchedAt meta) in
          if age <=? maxAge c then inl (MkAnswer vulns degraded true None)
          else
            let stale := "local OSV database for " +:+ osvEco +:+ " is " +:+ ShortDuration age +:+ " old (synced "
                         +:+ FormatTime (mt_FetchedAt meta) +:+ "); run `bodega policy osv sync`" in
            let stale_answer :=
              MkAnswer vulns (if (degraded =? "")%string then stale else stale +:+ "; " +:+ degraded) false None in
            inl (if oc_AllowAPIFallback c
                 then match query c osvEco name version with
                      | inl fresh => MkAnswer fresh "" true None
                      | inr _ => stale_answer
                      end
                 else stale_answer)
      end
  end.

Definition lookup (c : OSVChecker) (now : Z) (osvEco name version : string) : osvAnswer :=
  match local_answer c now osvEco name version with
  | inl ans => ans
  | inr unusable =>
      if negb (oc_AllowAPIFallback c)
      then MkAnswer [] (unusable +:+ "; osv_api_fallback is off, so nothing was queried") false None
      else
        match query c osvEco name version with
        | inr err => MkAnswer [] "" false (Some (unusable +:+ "; api fallback failed: " +:+ err))
        | inl vulns => MkAnswer vulns "" true None
        end
  end.

(** ** All the targets of an entry *)

Definition OSVDatable (ve : VersionEntry) : bool :=
  (ve_VersionConstraint ve =? "")%string || (ve_VersionConstraint ve =? ConstraintExact)%string.

Definition constraintUnevaluatedReason (name : string) (ve : VersionEntry) : string :=
  if OSVDatable ve then ""
  else name +:+ " is stored under the " +:+ Quote (ve_VersionConstraint ve)
       +:+ " version constraint, so the versions served are resolved upstream and only " +:+ ve_Version ve
       +:+ " was queried".

Definition add_vuln (vulns : list osvVuln) (v : osvVuln) : list osvVuln :=
  if existsb (fun u => (vu_ID u =? vu_ID v)%string) vulns then vulns else vulns ++ [v].

(** The records, whether every target answered, and what was degraded. *)
Record gathered := MkGathered { ga_vulns : list osvVuln; ga_answered : bool; ga_degraded : list string }.

Definition gather (g : gathered) (ans : osvAnswer) : gathered :=
  MkGathered (foldl add_vuln (ga_vulns g) (an_vulns ans)) (ga_answered g && an_answered ans)
    (ga_degraded g ++ (if (an_degraded ans =? "")%string then [] else [an_degraded ans])).

(** A target nothing answered ends the loop, and is the answer. *)
Fixpoint answer_targets (c : OSVChecker) (now : Z) (shared : option (gmap string osvAnswer)) (targets : list osvTarget)
  (entry_version : string) (g : gathered) : option (gmap string osvAnswer) * (gathered + osvAnswer) :=
  match targets with
  | [] => (shared, inl g)
  | t :: targets =>
      let version := osvQueryVersion (tg_ecosystem t) entry_version in
      let '(shared, ans) :=
        SharedLookup shared
          ("osv" +:+ nul +:+ tg_ecosystem t +:+ nul +:+ tg_name t +:+ nul +:+ version)
          (lookup c now (tg_ecosystem t) (tg_name t) version) in
      match an_err ans with
      | Some _ => (shared, inr ans)
      | None => answer_targets c now shared targets entry_version (gather g ans)
      end
  end.

Definition no_records : gathered := MkGathered [] true [].

(** A qualification that is not "" leaves the entry unanswered. *)
Definition qualified (note : string) (g : gathered) : gathered :=
  if (note =? "")%string then g else MkGathered (ga_vulns g) false (ga_degraded g ++ [note]).

Definition answerFor (c : OSVChecker) (now : Z) (shared : option (gmap string osvAnswer)) (lk : osvLookup)
  (ve : VersionEntry) : option (gmap string osvAnswer) * osvAnswer :=
  match answer_targets c now shared (lk_targets lk) (ve_Version ve) (qualified (lk_note lk) no_records) with
  | (shared, inr ans) => (shared, ans)
  | (shared, inl g) =>
      let g := qualified (constraintUnevaluatedReason (queryName lk) ve) g in
      (shared, MkAnswer (ga_vulns g) (Join (ga_degraded g) "; ") (ga_answered g) None)
  end.

(** ** The stamp *)

Definition OSVMetaVulns := "vetting.osv.vulns".
Definition OSVMetaSeverity := "vetting.osv.severity".
Definition OSVMetaCheckedAt := "vetting.osv.checked_at".
Definition OSVMetaQueried := "vetting.osv.queried".
Definition OSVMetaMalware := "vetting.osv.malware".

Definition stamp_ids (vulns : list osvVuln) (md : gmap string string) : gmap string string :=
  match vulnIDs vulns with
  | [] => delete OSVMetaSeverity (delete OSVMetaVulns md)
  | ids =>
      let md := <[OSVMetaVulns := Join ids ","]> md in
      let sev := vulnSeverities vulns in
      if bool_decide (sev = ∅) then delete OSVMetaSeverity md else <[OSVMetaSeverity := marshal sev]> md
  end.

Definition stamped (vulns : list osvVuln) (checkedAt : Z) (queried : string) (md : gmap string string)
  : gmap string string :=
  let md := if (queried =? "")%string then delete OSVMetaQueried md else <[OSVMetaQueried := queried]> md in
  let md := if checkedAt =? zero_time then delete OSVMetaCheckedAt md
            else <[OSVMetaCheckedAt := FormatTime checkedAt]> md in
  let malware := (splitMalware vulns).1 in
  let md := if (0 <? length malware)%nat then <[OSVMetaMalware := Join (vulnIDs malware) ","]> md
            else delete OSVMetaMalware md in
  stamp_ids vulns md.

Definition stampOSV (ve : VersionEntry) (vulns : list osvVuln) (checkedAt : Z) (queried : string) : VersionEntry :=
  set_Metadata (stamped vulns checkedAt queried (ve_Metadata ve)) ve.

(** ** The check *)

Record osvActions := MkActions { ac_advisory : string; ac_malware : string; ac_notes : list string }.

Definition osv_result (action reason : string) (details : gmap string string) : Result :=
  MkResult CheckOSV action reason details None None.

Definition osv_pass (a : osvActions) : Result :=
  match ac_notes a with
  | [] => osv_result ActionPass "" ∅
  | notes => osv_result ActionWarn (Join notes "; ") ∅
  end.

Definition qualify (a : osvActions) (reason : string) : string :=
  match ac_notes a with [] => reason | notes => reason +:+ "; " +:+ Join notes "; " end.

(** The action and the error of reading it. *)
Definition MalwareAction (c : OSVChecker) (registryType : string) : string * option string :=
  match oc_store c with
  | None => (ActionBlock, None)
  | Some st =>
      match GetOSVMalwarePolicy st registryType with
      | ActionNotFound => (ActionBlock, None)
      | ActionFailed err => (ActionBlock, Some err)
      | ActionFound action => (action, None)
      end
  end.

Definition actions (c : OSVChecker) (registryType : string) : osvActions :=
  match oc_store c with
  | None => MkActions ActionIgnore ActionBlock []
  | Some st =>
      let '(advisory, notes) :=
        match GetOSVPolicy st registryType with
        | ActionNotFound => (ActionIgnore, [])
        | ActionFailed err => (ActionWarn, ["load osv policy: " +:+ err])
        | ActionFound action => (action, [])
        end in
      let '(malware, err) := MalwareAction c registryType in
      MkActions advisory malware
        (notes ++ match err with Some err => ["load osv malware policy: " +:+ err] | None => [] end)
  end.

Definition priorMalware (pm : PackageManifest) (ve : VersionEntry) (action degraded : string) : option Result :=
  if (action =? ActionIgnore)%string || (metadata ve OSVMetaMalware =? "")%string then None
  else
    let ids := splitIDs (metadata ve OSVMetaMalware) in
    Some (osv_result action
            (pm_Name pm +:+ "@" +:+ ve_Version ve +:+ " is known malware: " +:+ Join ids ", "
             +:+ ", found by an earlier check; this one could not confirm it (" +:+ degraded +:+ ")")
            {[ "malware" := Join ids "," ]}).

Definition action_rank (a : string) : Z :=
  if (a =? ActionWarn)%string then 1 else if (a =? ActionBlock)%string then 2 else 0.

Definition stricter (a b : string) : string := if action_rank a <? action_rank b then b else a.

Definition emptyAnswerReason (lk : osvLookup) (vulns : list osvVuln) : string :=
  if (0 <? length vulns)%nat then "" else lk_unverifiedName lk.

(** What an answer that could not settle the version gets. *)
Definition inconclusive (pm : PackageManifest) (ve : VersionEntry) (acts : osvActions) (reason : string) : Result :=
  match priorMalware pm ve (ac_malware acts) reason with
  | Some r => r
  | None => osv_result ActionWarn (qualify acts reason) ∅
  end.

Definition malware_part (pm : PackageManifest) (ve : VersionEntry) (malware : list osvVuln) : list string :=
  match malware with
  | [] => []
  | _ => [pm_Name pm +:+ "@" +:+ ve_Version ve +:+ " is known malware: " +:+ describeMalware malware]
  end.

Definition advisory_part (pm : PackageManifest) (ve : VersionEntry) (advisories : list osvVuln) : list string :=
  match advisories with
  | [] => []
  | _ => [pm_Name pm +:+ "@" +:+ ve_Version ve +:+ " has " +:+ pretty (Z.of_nat (length advisories))
          +:+ " OSV record(s): " +:+ Join (vulnIDs advisories) ", "]
  end.

Definition put (k : string) (v : option string) (m : gmap string string) : gmap string string :=
  match v with Some v => <[k := v]> m | None => m end.

(** The verdict on the records an action answers to. *)
Definition found_result (pm : PackageManifest) (ve : VersionEntry) (acts : osvActions) (lk : osvLookup)
  (ans : osvAnswer) (malware advisories : list osvVuln) : Result :=
  let sev := vulnSeverities (an_vulns ans) in
  let details :=
    put "severity" (if bool_decide (sev = ∅) then None else Some (marshal sev))
      (put "queried" (if (lk_queried lk =? "")%string then None else Some (lk_queried lk))
        (put "malware" (if (0 <? length malware)%nat then Some (Join (vulnIDs malware) ",") else None)
          (put "vulns" (if (0 <? length advisories)%nat then Some (Join (vulnIDs advisories) ",") else None)
            (put "count" (if (0 <? length advisories)%nat then Some (pretty (Z.of_nat (length advisories))) else None)
               ∅)))) in
  let action := if (0 <? length malware)%nat then ac_malware acts else ActionPass in
  let action := if (0 <? length advisories)%nat then stricter action (ac_advisory acts) else action in
  let reason :=
    Join (malware_part pm ve malware ++ advisory_part pm ve advisories) "; "
    +:+ (if (lk_queried lk =? "")%string then "" else ", queried as " +:+ lk_queried lk)
    +:+ (if (an_degraded ans =? "")%string then "" else " (" +:+ an_degraded ans +:+ ")") in
  osv_result action (qualify acts reason) details.

(** What an answer gets, and the stamp it leaves. *)
Definition judge_answer (now : Z) (pm : PackageManifest) (ve : VersionEntry) (acts : osvActions) (lk : osvLookup)
  (ans : osvAnswer) : VersionEntry * Result :=
  match an_err ans with
  | Some err =>
      (ve, inconclusive pm ve acts ("osv lookup failed for " +:+ pm_Type pm +:+ "/" +:+ pm_Name pm +:+ "@"
                                    +:+ ve_Version ve +:+ ": " +:+ err))
  | None =>
      let '(malware, advisories) := splitMalware (an_vulns ans) in
      let malware := if (ac_malware acts =? ActionIgnore)%string then [] else malware in
      let advisories := if (ac_advisory acts =? ActionIgnore)%string then [] else advisories in
      if (length malware =? 0)%nat && (length advisories =? 0)%nat then
        if negb (conclusive ans) then (ve, inconclusive pm ve acts (an_degraded ans))
        else
          let reason := emptyAnswerReason lk (an_vulns ans) in
          if negb (reason =? "")%string then (ve, osv_result ActionWarn (qualify acts reason) ∅)
          else (stampOSV ve (an_vulns ans) now (lk_queried lk), osv_pass acts)
      else
        (stampOSV ve (an_vulns ans) (if conclusive ans then now else zero_time) (lk_queried lk),
         found_result pm ve acts lk ans malware advisories)
  end.

Definition set_advisory (advisory : string) (a : osvActions) : osvActions :=
  MkActions advisory (ac_malware a) (ac_notes a).

(** The actions a run of the check is under. *)
Definition acts_for (c : OSVChecker) (malwareOnly : bool) (typ : string) : osvActions :=
  if malwareOnly then set_advisory ActionIgnore (actions c typ) else actions c typ.

Definition check (c : OSVChecker) (now : Z) (shared : option (gmap string osvAnswer)) (pm : option PackageManifest)
  (ve : option VersionEntry) (malwareOnly : bool) : option (gmap string osvAnswer) * option VersionEntry * Result :=
  match pm, ve with
  | Some pm, Some ve =>
      let uncoveredRpm := (pm_Type pm =? TypeRpm)%string && (metadata ve RpmOSVEcosystemKey =? "")%string in
      let acts := acts_for c malwareOnly (pm_Type pm) in
      let stop r := (shared, Some ve, r) in
      if (pm_Type pm =? TypeOCI)%string then stop (osv_result ActionNotEvaluated OSVNotRunOCI ∅)
      else if negb (OSVCovers (pm_Type pm)) then stop (osv_result ActionPass "" ∅)
      else if (ve_Version ve =? "")%string && negb (pm_Type pm =? TypeApt)%string && negb uncoveredRpm
      then stop (osv_result ActionPass "" ∅)
      else if uncoveredRpm
      then stop (osv_result ActionNotEvaluated (qualify acts (rpmNotRunReason (pm_Name pm) ve)) ∅)
      else if (ac_advisory acts =? ActionIgnore)%string && (ac_malware acts =? ActionIgnore)%string
      then stop (osv_pass acts)
      else if (ve_Version ve =? "")%string
      then stop (osv_result ActionWarn
                   (qualify acts ("apt entry " +:+ pm_Name pm
                                  +:+ " carries no version, so no advisory can be evaluated against it")) ∅)
      else
        let lk := osvLookupFor lower_unicode pm ve (oc_DefaultAptSuite c) (oc_ServedAptSuites c) in
        if negb (lk_reason lk =? "")%string then stop (osv_result ActionWarn (qualify acts (lk_reason lk)) ∅)
        else
          let '(shared, ans) := answerFor c now shared lk ve in
          let '(ve, r) := judge_answer now pm ve acts lk ans in
          (shared, Some ve, r)
  | _, _ => (shared, ve, osv_result ActionPass "" ∅)
  end.

Definition CheckOSVGate (c : OSVChecker) (now : Z) (shared : option (gmap string osvAnswer))
  (pm : option PackageManifest) (ve : option VersionEntry) := check c now shared pm ve false.

Definition CheckMalware (c : OSVChecker) (now : Z) (shared : option (gmap string osvAnswer))
  (pm : option PackageManifest) (ve : option VersionEntry) := check c now shared pm ve true.

(** ** Rescanning *)

Record OSVRescanChange := MkChange {
  ch_Answered : bool;
  ch_Vulns : list string;
  ch_Flagged : bool;
  ch_Cleared : bool;
  ch_Malware : list string;
  ch_NewMalware : list string;
  ch_Reason : string
}.

Definition no_change (reason : string) : OSVRescanChange := MkChange false [] false false [] [] reason.

Definition seen_ids (ve : VersionEntry) : list string :=
  splitIDs (metadata ve OSVMetaVulns) ++ splitIDs (metadata ve OSVMetaMalware).

(** The malware ids, and those no earlier stamp names. *)
Definition malwareSince (ve : VersionEntry) (vulns : list osvVuln) : list string * list string :=
  match (splitMalware vulns).1 with
  | [] => ([], [])
  | malware => (vulnIDs malware, List.filter (fun id => negb (slice_contains (seen_ids ve) id)) (vulnIDs malware))
  end.

Definition rescan_answer (now : Z) (ve : VersionEntry) (lk : osvLookup) (ans : osvAnswer)
  : VersionEntry * OSVRescanChange :=
  let reason := emptyAnswerReason lk (an_vulns ans) in
  let '(all, new) := malwareSince ve (an_vulns ans) in
  if negb (isSome (an_err ans)) && negb (reason =? "")%string then (ve, no_change reason)
  else if negb (conclusive ans)
  then (ve, MkChange false (vulnIDs (an_vulns ans)) false false all new (default (an_degraded ans) (an_err ans)))
  else
    let ids := vulnIDs (an_vulns ans) in
    let had := negb (metadata ve OSVMetaVulns =? "")%string in
    (stampOSV ve (an_vulns ans) now (lk_queried lk),
     MkChange true ids ((0 <? length ids)%nat && negb had) ((length ids =? 0)%nat && had) all new (an_degraded ans)).

Definition Rescan (c : OSVChecker) (now : Z) (shared : option (gmap string osvAnswer)) (pm : option PackageManifest)
  (ve : option VersionEntry) : option (gmap string osvAnswer) * option VersionEntry * OSVRescanChange :=
  match pm, ve with
  | Some pm, Some ve =>
      if (ve_Version ve =? "")%string then (shared, Some ve, no_change "no version to look up")
      else
        let lk := osvLookupFor lower_unicode pm ve (oc_DefaultAptSuite c) (oc_ServedAptSuites c) in
        if negb (lk_reason lk =? "")%string then (shared, Some ve, no_change (lk_reason lk))
        else
          let '(shared, ans) := answerFor c now shared lk ve in
          let '(ve, ch) := rescan_answer now ve lk ans in
          (shared, Some ve, ch)
  | _, _ => (shared, ve, no_change "no version to look up")
  end.
End gate.

(** The run's counters, and how often each reason came up, in the order first
    seen. *)
Record OSVRescanSummary := MkSummary {
  su_Walked : Z;
  su_Answered : Z;
  su_Flagged : Z;
  su_Cleared : Z;
  su_reasons : list (string * Z)
}.

Fixpoint count_reason (reason : string) (l : list (string * Z)) : list (string * Z) :=
  match l with
  | [] => [(reason, 1)]
  | (r, n) :: l => if (r =? reason)%string then (r, n + 1) :: l else (r, n) :: count_reason reason l
  end.

Definition Add (s : OSVRescanSummary) (ch : OSVRescanChange) : OSVRescanSummary :=
  let one (b : bool) := if b then 1 else 0 in
  MkSummary (su_Walked s + 1) (su_Answered s + one (ch_Answered ch))
    (su_Flagged s + one (ch_Answered ch && ch_Flagged ch)) (su_Cleared s + one (ch_Answered ch && ch_Cleared ch))
    (if (ch_Reason ch =? "")%string then su_reasons s else count_reason (ch_Reason ch) (su_reasons s)).

Definition Unanswered (s : OSVRescanSummary) : Z := su_Walked s - su_Answered s.

(** * Lemmas *)

(** ** Identifiers *)

Lemma vulnIDs_in vs id : id ∈ vulnIDs vs <-> id <> "" /\ exists v, v ∈ vs /\ vu_ID v = id.
Proof.
  unfold vulnIDs. rewrite sort_Strings_perm, list_elem_of_In, filter_In, in_map_iff, negb_true_iff, String.eqb_neq.
  setoid_rewrite <- list_elem_of_In. naive_solver.
Qed.

Lemma isMalware_split vs v : v ∈ (splitMalware vs).1 <-> v ∈ vs /\ isMalware v = true.
Proof. unfold splitMalware. cbn [fst]. by rewrite list_elem_of_In, filter_In, <- list_elem_of_In. Qed.

(** A record found stays found; a new one is added unless its id was there. *)
Lemma add_vuln_cases vs v :
  (exists w, w ∈ vs /\ vu_ID w = vu_ID v /\ add_vuln vs v = vs)
  \/ (Forall (fun w => vu_ID w <> vu_ID v) vs /\ add_vuln vs v = vs ++ [v]).
Proof.
  unfold add_vuln. destruct (existsb _ vs) eqn:E.
  - left. apply existsb_exists in E as (w & Hw & He). exists w. rewrite list_elem_of_In.
    by apply String.eqb_eq in He.
  - right. split; [|done]. apply Forall_forall. intros w Hw He.
    assert (existsb (fun u => (vu_ID u =? vu_ID v)%string) vs = true) as E'; [|by rewrite E' in E].
    apply existsb_exists. exists w. by rewrite <- list_elem_of_In, He, String.eqb_refl.
Qed.

Lemma fold_add_vuln_keeps new : forall vs u, u ∈ vs -> u ∈ foldl add_vuln vs new.
Proof.
  induction new as [|v new IH]; intros vs u Hu; [done|]. cbn [foldl]. apply IH.
  destruct (add_vuln_cases vs v) as [(w & _ & _ & ->)|[_ ->]]; [done|]. rewrite elem_of_app. auto.
Qed.

Lemma fold_add_vuln_ids new : forall vs u, u ∈ new -> exists w, w ∈ foldl add_vuln vs new /\ vu_ID w = vu_ID u.
Proof.
  induction new as [|v new IH]; intros vs u Hu; [by apply elem_of_nil in Hu|]. cbn [foldl].
  apply elem_of_cons in Hu as [->|Hu]; [|by apply IH].
  destruct (add_vuln_cases vs v) as [(w & Hw & He & ->)|[_ ->]].
  - exists w. split; [|done]. by apply fold_add_vuln_keeps.
  - exists v. split; [|done]. apply fold_add_vuln_keeps. rewrite elem_of_app, elem_of_cons. auto.
Qed.

(** Records come from the ones held and the new ones. *)
Lemma fold_add_vuln_from new : forall vs u, u ∈ foldl add_vuln vs new -> u ∈ vs \/ u ∈ new.
Proof.
  induction new as [|v new IH]; intros vs u Hu; [auto|]. cbn [foldl] in Hu. apply IH in Hu as [Hu|Hu].
  - destruct (add_vuln_cases vs v) as [(w & _ & _ & E)|[_ E]]; rewrite E in Hu; [auto|].
    rewrite elem_of_app, elem_of_cons, elem_of_nil in Hu. rewrite elem_of_cons. naive_solver.
  - rewrite elem_of_cons. auto.
Qed.

(** ** The database *)

Lemma match_step_in order version acc r v :
  v ∈ (match_step order version acc r).1 <->
  v ∈ acc.1 \/ vuln_of r = v /\ (record_affects (rc_Affected r) order version "").1 = true.
Proof.
  destruct acc as [vulns skipped]. unfold match_step.
  destruct (record_affects (rc_Affected r) order version "") as [[|] bad]; [|destruct (bad =? "")%string]; cbn [fst];
    rewrite ?elem_of_app, ?elem_of_cons, ?elem_of_nil; naive_solver.
Qed.

Lemma match_fold order version recs : forall acc v,
  v ∈ (foldl (match_step order version) acc recs).1 <->
  v ∈ acc.1 \/ exists r, r ∈ recs /\ vuln_of r = v /\ (record_affects (rc_Affected r) order version "").1 = true.
Proof.
  induction recs as [|r recs IH]; intros acc v; cbn [foldl].
  - split; [auto|]. intros [H|(r & Hr & _)]; [done|by apply elem_of_nil in Hr].
  - rewrite IH, match_step_in. setoid_rewrite elem_of_cons. naive_solver.
Qed.

Lemma by_id_perm vs : by_id vs ≡ₚ vs.
Proof. apply SliceStable_perm. Qed.

(** A registry type with one ecosystem of its own is neither apt nor rpm, and
    its index is the ecosystem's, kept by package. *)
Lemma OSVEcosystemFor_in t : OSVEcosystemFor t <> "" -> (t, OSVEcosystemFor t) ∈ osvEcosystemFor.
Proof.
  unfold OSVEcosystemFor, table_get. destruct (List.find _ osvEcosystemFor) as [[k v]|] eqn:E; [|done].
  intros _. apply find_some in E as [Hin He]. cbn [fst] in He. apply String.eqb_eq in He. subst k.
  by apply list_elem_of_In.
Qed.

Lemma language_type t name : OSVEcosystemFor t <> "" ->
  (t =? TypeApt)%string = false /\ (t =? TypeRpm)%string = false /\ (t =? TypeOCI)%string = false /\ OSVCovers t = true
  /\ osvIndexFor (OSVEcosystemFor t) name = (OSVEcosystemFor t, osvPackageKey (OSVEcosystemFor t) name, false).
Proof.
  intros Hne. assert (Hc : OSVCovers t = true).
  { unfold OSVCovers. apply String.eqb_neq in Hne. rewrite Hne. by rewrite !orb_true_r. }
  rewrite Hc. clear Hc. apply OSVEcosystemFor_in in Hne. revert Hne. generalize (OSVEcosystemFor t). intros eco Hne.
  unfold osvEcosystemFor in Hne. rewrite !elem_of_cons, elem_of_nil in Hne.
  destruct_or! Hne; injection Hne as -> ->; split_and!; reflexivity.
Qed.

(** What a readable index answers: the records under the key that cover the
    version. *)
Lemma Match_found d eco name version key idx :
  osvIndexFor eco name = (eco, key, false) -> load d eco = inl idx ->
  exists vulns skipped, Match (Some d) eco name version = inl (vulns, skipped)
    /\ forall v, v ∈ vulns <-> exists r, r ∈ default [] (Packages idx !! key) /\ vuln_of r = v
                                   /\ (record_affects (rc_Affected r) (osvVersionOrder eco) version "").1 = true.
Proof.
  intros Hidx Hl. unfold Match. rewrite Hidx. cbn [andb]. rewrite Hl.
  pose proof (match_fold (osvVersionOrder eco) version (default [] (Packages idx !! key)) ([], [])) as Hfold.
  destruct (foldl (match_step _ _) _ _) as [vs sk]. eexists _, _. split; [reflexivity|].
  intros v. rewrite by_id_perm. specialize (Hfold v). cbn [fst] in Hfold. rewrite Hfold, elem_of_nil. naive_solver.
Qed.

(** ** Verdicts *)

Lemma stricter_rank a b : action_rank (stricter a b) = Z.max (action_rank a) (action_rank b).
Proof. unfold stricter. destruct (Z.ltb_spec (action_rank a) (action_rank b)); lia. Qed.

Lemma action_rank_bound a : 0 <= action_rank a <= 2.
Proof. unfold action_rank. destruct (a =? ActionWarn)%string, (a =? ActionBlock)%string; lia. Qed.

Lemma stricter_block b : stricter ActionBlock b = ActionBlock.
Proof.
  unfold stricter. change (action_rank ActionBlock) with 2. pose proof (action_rank_bound b).
  destruct (Z.ltb_spec 2 (action_rank b)); [lia|done].
Qed.

Lemma osv_pass_action a : r_Action (osv_pass a) = ActionPass <-> ac_notes a = [].
Proof. unfold osv_pass. by destruct (ac_notes a). Qed.

(** The three actions a policy row may hold. *)
Definition known_action (a : string) : Prop := a ∈ [ActionIgnore; ActionWarn; ActionBlock].

Lemma not_known_pass : ~ known_action ActionPass.
Proof.
  unfold known_action. rewrite !elem_of_cons, elem_of_nil.
  intros [H|[H|[H|[]]]]; vm_compute in H; discriminate H.
Qed.

Lemma known_stricter a b : known_action a -> known_action b -> a <> ActionIgnore \/ b <> ActionIgnore ->
  stricter a b <> ActionPass.
Proof.
  unfold known_action. rewrite !elem_of_cons, !elem_of_nil. intros Ha Hb Hne.
  destruct Ha as [->|[->|[->|Ha]]]; destruct Hb as [->|[->|[->|Hb]]]; try done;
    first [intros E; vm_compute in E; discriminate E|destruct Hne; congruence].
Qed.

Section lemmas.
Variable api_post : string -> string -> string -> string -> api_answer.
Variable FormatTime : Z -> string.
Variable marshal : gmap string (list OSVSeverity) -> string.
Variable lower_unicode : string -> string.

#[local] Abbreviation judge := (judge_answer FormatTime marshal).
#[local] Abbreviation answer := (answerFor api_post FormatTime).
#[local] Abbreviation found := (found_result marshal).

(** A local database that can be read answers with what it matched, current or
    stale, unless a fresh answer of the API replaces stale data. *)
Lemma lookup_local c now eco name version meta vulns skipped :
  Meta (oc_LocalDB c) eco = inl meta -> Match (oc_LocalDB c) eco name version = inl (vulns, skipped) ->
  Time_Sub now (mt_FetchedAt meta) <= maxAge c \/ oc_AllowAPIFallback c = false ->
  exists degraded answered, lookup api_post FormatTime c now eco name version = MkAnswer vulns degraded answered None.
Proof.
  intros Hm Hv Hfresh. unfold lookup, local_answer. rewrite Hm, Hv.
  destruct (Z.leb_spec (Time_Sub now (mt_FetchedAt meta)) (maxAge c)); [by eexists _, _|].
  destruct Hfresh as [|Hf]; [lia|]. rewrite Hf. by eexists _, _.
Qed.

Lemma qualified_vulns note g : ga_vulns (qualified note g) = ga_vulns g.
Proof. unfold qualified. by destruct (note =? "")%string. Qed.

(** One target, asked directly. *)
Lemma answerFor_single c now lk ve eco name vulns degraded answered :
  lk_targets lk = [MkTarget eco name] ->
  lookup api_post FormatTime c now eco name (osvQueryVersion eco (ve_Version ve)) = MkAnswer vulns degraded answered None ->
  an_vulns (answer c now None lk ve).2 = foldl add_vuln [] vulns /\ an_err (answer c now None lk ve).2 = None.
Proof.
  intros Ht Hl. unfold answerFor. rewrite Ht. cbn [answer_targets SharedLookup tg_ecosystem tg_name]. rewrite Hl.
  cbn [an_err snd an_vulns]. split; [|done]. rewrite qualified_vulns. unfold gather. cbn [an_vulns ga_vulns].
  by rewrite qualified_vulns.
Qed.

(** A malware record under a blocking action is a block, whatever else the
    answer holds or lacks. *)
Lemma judge_answer_malware now pm ve acts lk ans v :
  an_err ans = None -> v ∈ an_vulns ans -> isMalware v = true -> ac_malware acts = ActionBlock ->
  r_Action (judge now pm ve acts lk ans).2 = ActionBlock.
Proof.
  intros He Hv Hm Ha. unfold judge_answer. rewrite He.
  assert (Hin : v ∈ (splitMalware (an_vulns ans)).1) by by apply isMalware_split.
  destruct (splitMalware (an_vulns ans)) as [malware advisories]. cbn [fst] in Hin. rewrite Ha.
  change (ActionBlock =? ActionIgnore)%string with false. cbv iota.
  destruct malware as [|m malware]; [by apply elem_of_nil in Hin|]. cbn [length Nat.eqb andb snd].
  unfold found_result. cbn [length Nat.ltb Nat.leb r_Action osv_result]. rewrite Ha.
  match goal with |- (if ?b then _ else _) = _ => destruct b end; [apply stricter_block|done].
Qed.

Lemma inconclusive_fails pm ve acts reason : known_action (ac_malware acts) ->
  r_Action (inconclusive pm ve acts reason) <> ActionPass.
Proof.
  intros Hk. unfold inconclusive, priorMalware. destruct (String.eqb_spec (ac_malware acts) ActionIgnore) as [|Hi]; [done|].
  destruct (metadata ve OSVMetaMalware =? "")%string; [done|]. cbn [orb r_Action osv_result]. intros E.
  by rewrite E in Hk; apply not_known_pass in Hk.
Qed.

(** The records an action does not ignore. *)
Lemma kept_nil (a : string) (l : list osvVuln) :
  length (if (a =? ActionIgnore)%string then [] else l) = 0%nat <-> a = ActionIgnore \/ l = [].
Proof. destruct (String.eqb_spec a ActionIgnore) as [->|H]; cbn [length]; destruct l; naive_solver. Qed.

Lemma found_result_fails pm ve acts lk ans :
  known_action (ac_malware acts) -> known_action (ac_advisory acts) ->
  let malware := if (ac_malware acts =? ActionIgnore)%string then [] else (splitMalware (an_vulns ans)).1 in
  let advisories := if (ac_advisory acts =? ActionIgnore)%string then [] else (splitMalware (an_vulns ans)).2 in
  (length malware =? 0)%nat && (length advisories =? 0)%nat = false ->
  r_Action (found pm ve acts lk ans malware advisories) <> ActionPass.
Proof.
  intros Hkm Hka malware advisories Hne. unfold found_result. cbn [r_Action osv_result].
  assert (Hkp : forall a, known_action a -> a <> ActionIgnore -> stricter ActionPass a <> ActionPass /\ a <> ActionPass).
  { intros a Ha Hi. unfold known_action in Ha. rewrite !elem_of_cons, elem_of_nil in Ha.
    destruct Ha as [->|[->|[->|[]]]]; done. }
  assert (Hm : (0 <? length malware)%nat = true -> ac_malware acts <> ActionIgnore).
  { unfold malware. by destruct (String.eqb_spec (ac_malware acts) ActionIgnore). }
  assert (Ha : (0 <? length advisories)%nat = true -> ac_advisory acts <> ActionIgnore).
  { unfold advisories. by destruct (String.eqb_spec (ac_advisory acts) ActionIgnore). }
  clearbody malware advisories.
  destruct (0 <? length malware)%nat eqn:E1, (0 <? length advisories)%nat eqn:E2.
  - apply known_stricter; auto.
  - by apply (Hkp (ac_malware acts) Hkm (Hm eq_refl)).
  - by apply (Hkp (ac_advisory acts) Hka (Ha eq_refl)).
  - apply Nat.ltb_ge in E1, E2. apply andb_false_iff in Hne as [H%Nat.eqb_neq|H%Nat.eqb_neq]; lia.
Qed.

Lemma judge_answer_passes now pm ve acts lk ans :
  known_action (ac_malware acts) -> known_action (ac_advisory acts) ->
  r_Action (judge now pm ve acts lk ans).2 = ActionPass <->
  ac_notes acts = [] /\ conclusive ans = true /\ emptyAnswerReason lk (an_vulns ans) = ""
  /\ (forall v, v ∈ an_vulns ans -> (if isMalware v then ac_malware acts else ac_advisory acts) = ActionIgnore).
Proof.
  intros Hkm Hka. unfold judge_answer. destruct (an_err ans) as [err|] eqn:Eerr.
  - cbn [snd]. pose proof (inconclusive_fails pm ve acts ("osv lookup failed for " +:+ pm_Type pm +:+ "/" +:+ pm_Name pm
      +:+ "@" +:+ ve_Version ve +:+ ": " +:+ err) Hkm). unfold conclusive. rewrite Eerr. naive_solver.
  - pose proof (found_result_fails pm ve acts lk ans Hkm Hka) as Hfound. cbv zeta in Hfound.
    destruct (splitMalware (an_vulns ans)) as [malware advisories] eqn:Es. cbn [fst snd] in Hfound.
    unfold splitMalware in Es. injection Es as Em Ea.
    assert (Hall : (forall v, v ∈ an_vulns ans -> (if isMalware v then ac_malware acts else ac_advisory acts) = ActionIgnore)
                   <-> (ac_malware acts = ActionIgnore \/ malware = []) /\ (ac_advisory acts = ActionIgnore \/ advisories = [])).
    { rewrite <- Em, <- Ea, !filter_nil_iff. split.
      - intros H. split.
        + destruct (decide (ac_malware acts = ActionIgnore)) as [|Hn]; [auto|right]. intros v Hv. specialize (H v Hv).
          by destruct (isMalware v).
        + destruct (decide (ac_advisory acts = ActionIgnore)) as [|Hn]; [auto|right]. intros v Hv. specialize (H v Hv).
          by destruct (isMalware v).
      - intros [H1 H2] v Hv. destruct (isMalware v) eqn:E.
        + destruct H1 as [H1|H1]; [done|]. by rewrite (H1 v Hv) in E.
        + destruct H2 as [H2|H2]; [done|]. specialize (H2 v Hv). by rewrite E in H2. }
    rewrite Hall, <- !kept_nil, <- !Nat.eqb_eq. clear Hall.
    destruct (_ && _) eqn:Ek in Hfound |- *.
    + apply andb_true_iff in Ek as [-> ->]. destruct (conclusive ans) eqn:Ec; cbn [negb].
      * destruct (String.eqb_spec (emptyAnswerReason lk (an_vulns ans)) "") as [Ee|Ee]; cbn [negb snd].
        -- rewrite osv_pass_action. naive_solver.
        -- naive_solver.
      * cbn [snd]. pose proof (inconclusive_fails pm ve acts (an_degraded ans) Hkm). naive_solver.
    + cbn [snd]. apply andb_false_iff in Ek as [E|E]; rewrite E; naive_solver.
Qed.

(** An entry the gate can ask about and is told to act on. *)
Record evaluated (c : OSVChecker) (malwareOnly : bool) (pm : PackageManifest) (ve : VersionEntry) : Prop := {
  ev_covered : OSVCovers (pm_Type pm) = true;
  ev_version : ve_Version ve <> "";
  ev_rpm : (pm_Type pm =? TypeRpm)%string && (metadata ve RpmOSVEcosystemKey =? "")%string = false
}.

Lemma check_evaluated c now shared pm ve malwareOnly :
  evaluated c malwareOnly pm ve ->
  let acts := acts_for c malwareOnly (pm_Type pm) in
  let lk := osvLookupFor lower_unicode pm ve (oc_DefaultAptSuite c) (oc_ServedAptSuites c) in
  check api_post FormatTime marshal lower_unicode c now shared (Some pm) (Some ve) malwareOnly
  = if (ac_advisory acts =? ActionIgnore)%string && (ac_malware acts =? ActionIgnore)%string
    then (shared, Some ve, osv_pass acts)
    else if negb (lk_reason lk =? "")%string
    then (shared, Some ve, osv_result ActionWarn (qualify acts (lk_reason lk)) ∅)
    else let '(shared, ans) := answer c now shared lk ve in
         let '(ve, r) := judge now pm ve acts lk ans in (shared, Some ve, r).
Proof.
  intros [Hc Hv Hr] acts lk. unfold check. rewrite Hc, Hr. fold acts. fold lk.
  assert (Ho : (pm_Type pm =? TypeOCI)%string = false).
  { destruct (String.eqb_spec (pm_Type pm) TypeOCI) as [E|]; [|done]. by rewrite E in Hc. }
  apply String.eqb_neq in Hv. rewrite Ho, Hv. done.
Qed.

Lemma check_result c now shared pm ve malwareOnly :
  evaluated c malwareOnly pm ve ->
  let acts := acts_for c malwareOnly (pm_Type pm) in
  let lk := osvLookupFor lower_unicode pm ve (oc_DefaultAptSuite c) (oc_ServedAptSuites c) in
  (ac_advisory acts =? ActionIgnore)%string && (ac_malware acts =? ActionIgnore)%string = false ->
  lk_reason lk = "" ->
  (check api_post FormatTime marshal lower_unicode c now shared (Some pm) (Some ve) malwareOnly).2
  = (judge now pm ve acts lk (answer c now shared lk ve).2).2.
Proof.
  intros Hev acts lk Hi Hr. rewrite (check_evaluated c now shared pm ve malwareOnly Hev). fold acts. fold lk.
  rewrite Hi, Hr. change (negb ("" =? "")%string) with false. cbv iota.
  destruct (answer c now shared lk ve) as [shared' ans]. cbn [snd]. by destruct (judge now pm ve acts lk ans).
Qed.
End lemmas.

(** * Theorems *)

(** C27: a package recorded as malware is refused.  When the local database of a
    language ecosystem can be read and lists, under the package's name, a
    malware record that covers the version, the check blocks: with no policy row
    (block is the malware action nobody has to set), with a malware row that
    cannot be read, under any advisory action, on stale data as on current data,
    and for a check of malware alone. *)
Theorem malware_record_blocks api_post FormatTime marshal lower_unicode c now pm ve malwareOnly d meta idx rec :
  OSVEcosystemFor (pm_Type pm) <> "" -> ve_Version ve <> "" -> (MalwareAction c (pm_Type pm)).1 = ActionBlock ->
  oc_LocalDB c = Some d -> Meta (Some d) (OSVEcosystemFor (pm_Type pm)) = inl meta ->
  load d (OSVEcosystemFor (pm_Type pm)) = inl idx ->
  Time_Sub now (mt_FetchedAt meta) <= maxAge c \/ oc_AllowAPIFallback c = false ->
  let eco := OSVEcosystemFor (pm_Type pm) in
  let recs := default [] (Packages idx !! osvPackageKey eco (pm_Name pm)) in
  rec ∈ recs -> (forall r, r ∈ recs -> rc_ID r = rc_ID rec -> isMalware (vuln_of r) = true) ->
  (record_affects (rc_Affected rec) (osvVersionOrder eco) (osvQueryVersion eco (ve_Version ve)) "").1 = true ->
  r_Action (check api_post FormatTime marshal lower_unicode c now None (Some pm) (Some ve) malwareOnly).2 = ActionBlock.
Proof.
  intros Hne Hv Ha Hd Hm Hl Hf eco recs Hrec Hmal Haff.
  destruct (language_type (pm_Type pm) (pm_Name pm) Hne) as (Hapt & Hrpm & _ & Hc & Hidx).
  set (lk := osvLookupFor lower_unicode pm ve (oc_DefaultAptSuite c) (oc_ServedAptSuites c)).
  assert (Hlk : lk = MkLookup [MkTarget eco (pm_Name pm)] "" "" "" "").
  { unfold lk, osvLookupFor. rewrite Hrpm, Hapt. apply String.eqb_neq in Hne. by rewrite Hne. }
  assert (Hacts : ac_malware (acts_for c malwareOnly (pm_Type pm)) = ActionBlock).
  { unfold acts_for, actions. revert Ha. unfold MalwareAction.
    destruct (oc_store c) as [st|]; [|by destruct malwareOnly].
    destruct (GetOSVPolicy st _), (GetOSVMalwarePolicy st _), malwareOnly; done. }
  destruct (Match_found d eco (pm_Name pm) (osvQueryVersion eco (ve_Version ve)) _ idx Hidx Hl)
    as (vulns & skipped & Hmatch & Hin).
  destruct (lookup_local api_post FormatTime c now eco (pm_Name pm) (osvQueryVersion eco (ve_Version ve)) meta vulns skipped)
    as (degraded & answered & Hlook); [by rewrite Hd..|done|].
  destruct (answerFor_single api_post FormatTime c now lk ve eco (pm_Name pm) vulns degraded answered) as [Hvs Herr];
    [by rewrite Hlk|done|].
  destruct (fold_add_vuln_ids vulns [] (vuln_of rec)) as (w & Hw & Hid); [apply Hin; eauto|].
  rewrite check_result; fold lk.
  - apply (judge_answer_malware FormatTime marshal now pm ve _ lk _ w); [done|by rewrite Hvs| |done].
    apply fold_add_vuln_from in Hw as [Hw|(r & Hr & <- & _)%Hin]; [by apply elem_of_nil in Hw|]. by apply Hmal.
  - split; [done|done|by rewrite Hrpm].
  - rewrite Hacts. by rewrite andb_false_r.
  - by rewrite Hlk.
Qed.

(** ** A concrete gate *)

Definition no_api (endpoint eco name version : string) : api_answer := ApiFailed "connection refused".
Definition demo_time (t : Z) : string := pretty t.
Definition no_json (m : gmap string (list OSVSeverity)) : string := "{}".
Definition ascii_only (s : string) : string := s.

Definition evil_record : osvRecord := MkRecord "MAL-2024-1" "steals credentials" [] false [OsvAffected ["1.0.0"] []].
Definition flaw_record : osvRecord :=
  MkRecord "GHSA-1" "" [] false [OsvAffected [] [OsvRange "SEMVER" [OsvEvent "0" "" ""; OsvEvent "" "2.0.0" ""]]].

Definition demo_db (fetched : Z) : OSVDatabase :=
  MkDatabase "/var/osv" (fun _ => inl (MkMeta "npm" "npm" fetched 2 1 0 true)) (fun _ => true)
    (fun _ => inl (MkIndex false {[ "left-pad" := [flaw_record; evil_record] ]})).

Definition demo_osv (st : option OSVStore) (fetched : Z) : OSVChecker :=
  MkOSVChecker st "https://api.osv.dev/v1/query" (Some (demo_db fetched)) false 0 "jammy" [].

Definition osv_pm (typ : string) : PackageManifest := MkPackageManifest 1 "left-pad" typ "" "" "" [] [].

Definition osv_entry (version : string) : VersionEntry :=
  MkVersionEntry version "" "" "" "" "" "" "" "" "" "" [] [] false "" "" "" [] None false "" None
    false 0 [] ∅ "" "" false false "" "" "" ∅.

Definition demo_now : Z := 100 * 24 * Hour.

Definition demo_check (c : OSVChecker) (version : string) :=
  check no_api demo_time no_json ascii_only c demo_now None (Some (osv_pm TypeNpm)) (Some (osv_entry version)) false.

(** With no policy row the malware record blocks and the flaw is not asked about;
    an old database warns where it would have been clean. *)
Example check_ex :
  map (fun fv => r_Action (demo_check (demo_osv None fv.1) fv.2).2)
    [(demo_now, "1.0.0"); (demo_now, "1.5.0"); (demo_now, "2.1.0"); (0, "1.0.0"); (0, "2.1.0")]
  = [ActionBlock; ActionPass; ActionPass; ActionBlock; ActionWarn].
Proof. vm_compute. reflexivity. Qed.

Lemma malware_record_blocks_witness :
  r_Action (demo_check (demo_osv None 0) "1.0.0").2 = ActionBlock.
Proof.
  apply (malware_record_blocks no_api demo_time no_json ascii_only (demo_osv None 0) demo_now (osv_pm TypeNpm)
           (osv_entry "1.0.0") false (demo_db 0) (MkMeta "npm" "npm" 0 2 1 0 true)
           (MkIndex false {[ "left-pad" := [flaw_record; evil_record] ]}) evil_record);
    try (vm_compute; reflexivity).
  - computes_false.
  - computes_false.
  - right. reflexivity.
  - apply list_elem_of_In. vm_compute. auto.
  - intros r Hr He. apply list_elem_of_In in Hr. vm_compute in Hr. destruct Hr as [<-|[<-|[]]]; [|reflexivity].
    vm_compute in He. discriminate He.
Defined.

(** C28: what a pass of the OSV gate says.  For an entry the gate covers that
    names a version, under the actions a policy row can hold, a pass means that
    both settings were read, and either both actions are ignored, or the entry
    resolved to something to query, every target was answered from current data
    with nothing left unread, an empty answer was not made under an apt binary's
    name, and no record found answers to an action that is not ignored; and each
    such entry passes. *)
Theorem check_passes api_post FormatTime marshal lower_unicode c now shared pm ve malwareOnly :
  evaluated c malwareOnly pm ve ->
  let acts := acts_for c malwareOnly (pm_Type pm) in
  known_action (ac_advisory acts) -> known_action (ac_malware acts) ->
  let lk := osvLookupFor lower_unicode pm ve (oc_DefaultAptSuite c) (oc_ServedAptSuites c) in
  let ans := (answerFor api_post FormatTime c now shared lk ve).2 in
  r_Action (check api_post FormatTime marshal lower_unicode c now shared (Some pm) (Some ve) malwareOnly).2 = ActionPass <->
  ac_notes acts = []
  /\ (ac_advisory acts = ActionIgnore /\ ac_malware acts = ActionIgnore
      \/ lk_reason lk = "" /\ conclusive ans = true /\ emptyAnswerReason lk (an_vulns ans) = ""
         /\ (forall v, v ∈ an_vulns ans ->
               (if isMalware v then ac_malware acts else ac_advisory acts) = ActionIgnore)).
Proof.
  intros Hev acts Hka Hkm lk ans.
  destruct ((ac_advisory acts =? ActionIgnore)%string && (ac_malware acts =? ActionIgnore)%string) eqn:Eign.
  - rewrite (check_evaluated api_post FormatTime marshal lower_unicode c now shared pm ve malwareOnly Hev).
    fold acts. rewrite Eign. cbn [snd]. rewrite osv_pass_action.
    apply andb_true_iff in Eign as [E1%String.eqb_eq E2%String.eqb_eq]. naive_solver.
  - assert (Hne : ac_advisory acts <> ActionIgnore \/ ac_malware acts <> ActionIgnore).
    { apply andb_false_iff in Eign as [E%String.eqb_neq|E%String.eqb_neq]; auto. }
    destruct (String.eqb_spec (lk_reason lk) "") as [Er|Er].
    + rewrite check_result by done. fold acts. fold lk. fold ans.
      rewrite judge_answer_passes by done. naive_solver.
    + rewrite (check_evaluated api_post FormatTime marshal lower_unicode c now shared pm ve malwareOnly Hev).
      fold acts. fold lk. rewrite Eign. apply String.eqb_neq in Er. rewrite Er. apply String.eqb_neq in Er.
      cbn [negb snd r_Action osv_result]. split; [done|naive_solver].
Qed.

Lemma check_passes_witness :
  r_Action (demo_check (demo_osv None demo_now) "2.1.0").2 = ActionPass.
Proof.
  apply (check_passes no_api demo_time no_json ascii_only (demo_osv None demo_now) demo_now None (osv_pm TypeNpm)
           (osv_entry "2.1.0") false).
  - split; [reflexivity|computes_false|reflexivity].
  - unfold known_action. rewrite elem_of_cons. by left.
  - unfold known_action. rewrite !elem_of_cons. auto.
  - split; [reflexivity|]. right. split; [reflexivity|]. split; [vm_compute; reflexivity|].
    split; [vm_compute; reflexivity|]. intros v Hv. apply list_elem_of_In in Hv. vm_compute in Hv. destruct Hv.
Defined.

(** ** Two releases *)

(** jammy is synced and lists a flaw; noble was never synced. *)
Definition jammy_db : OSVDatabase :=
  MkDatabase "/var/osv"
    (fun file => if (file =? "Ubuntu-22.04-LTS")%string then inl (MkMeta "Ubuntu:22.04:LTS" "Ubuntu" demo_now 1 1 0 true)
                 else inr ErrOSVDBMissing)
    (fun _ => true)
    (fun _ => inl (MkIndex false {[ "openssl" := [MkRecord "USN-1" "" [] false [OsvAffected ["1.0"] []]] ]})).

Definition two_suites (fallback : bool) : OSVChecker :=
  MkOSVChecker (Some (MkOSVStore (fun _ => ActionFound ActionBlock) (fun _ => ActionNotFound)))
    "https://api.osv.dev/v1/query" (Some jammy_db) fallback 0 "" [].

Definition two_suite_entry : VersionEntry :=
  MkVersionEntry "1.0" "" "" "" "" "" "" "openssl" "" "" "" ["jammy"; "noble"] [] false "" "" "" [] None false "" None
    false 0 [] ∅ "" "" false false "" "" "" ∅.

(** An entry published to both, under a blocking policy.  The record found in
    jammy's database blocks it while the API is not asked; once it may be asked
    and does not answer for noble, the record is dropped with the rest of the
    answer and the same entry is only warned about. *)
Lemma failed_target_drops_records :
  let pm := MkPackageManifest 1 "openssl" TypeApt "" "" "" [] [] in
  let run fallback :=
    (check no_api demo_time no_json ascii_only (two_suites fallback) demo_now None (Some pm) (Some two_suite_entry) false).2 in
  r_Action (run false) = ActionBlock /\ r_Action (run true) = ActionWarn.
Proof. vm_compute. done. Qed.
