(* ===== verification/OsvStamp.v ===== *)
(** What the OSV check leaves on a version, and a rescan of it: the stamp of
    internal/policy/osvrescan.go read back.  The definitions are those of
    [OsvGate]. *)

From stdpp Require Import base list gmap strings.
From Stdlib Require Import ZArith Lia Ascii.
From S2P Require Import Prelude GoStrings GoSort GoTime Types Override AdmitOverride OsvRange Age OsvLookup OsvGate.

(** ** Keys *)

Lemma metadata_set md ve key : metadata (set_Metadata md ve) key = default "" (md !! key).
Proof. done. Qed.

Lemma stamp_ids_other marshal vulns md key :
  key <> OSVMetaVulns -> key <> OSVMetaSeverity -> stamp_ids marshal vulns md !! key = md !! key.
Proof.
  intros H1 H2. unfold stamp_ids. destruct (vulnIDs vulns) as [|id ids].
  - by rewrite !lookup_delete_ne.
  - destruct (bool_decide _); [rewrite lookup_delete_ne by done|rewrite lookup_insert_ne by done];
      by rewrite lookup_insert_ne.
Qed.

Lemma stamped_checked FormatTime marshal vulns at_ queried md :
  stamped FormatTime marshal vulns at_ queried md !! OSVMetaCheckedAt
  = if at_ =? zero_time then None else Some (FormatTime at_).
Proof.
  unfold stamped. rewrite stamp_ids_other by computes_false.
  destruct (0 <? length _)%nat; [rewrite lookup_insert_ne by computes_false|rewrite lookup_delete_ne by computes_false];
    (destruct (at_ =? zero_time); [apply lookup_delete_eq|apply lookup_insert_eq]).
Qed.

Lemma stamped_queried FormatTime marshal vulns at_ queried md :
  stamped FormatTime marshal vulns at_ queried md !! OSVMetaQueried
  = if (queried =? "")%string then None else Some queried.
Proof.
  unfold stamped. rewrite stamp_ids_other by computes_false.
  destruct (0 <? length _)%nat; [rewrite lookup_insert_ne by computes_false|rewrite lookup_delete_ne by computes_false];
    (destruct (at_ =? zero_time); [rewrite lookup_delete_ne by computes_false|rewrite lookup_insert_ne by computes_false]);
    (destruct (queried =? "")%string; [apply lookup_delete_eq|apply lookup_insert_eq]).
Qed.

Lemma stamped_malware FormatTime marshal vulns at_ queried md :
  stamped FormatTime marshal vulns at_ queried md !! OSVMetaMalware
  = if (0 <? length (splitMalware vulns).1)%nat then Some (Join (vulnIDs (splitMalware vulns).1) ",") else None.
Proof.
  unfold stamped. rewrite stamp_ids_other by computes_false.
  destruct (0 <? length _)%nat; [apply lookup_insert_eq|apply lookup_delete_eq].
Qed.

Lemma stamped_vulns FormatTime marshal vulns at_ queried md :
  stamped FormatTime marshal vulns at_ queried md !! OSVMetaVulns
  = match vulnIDs vulns with [] => None | ids => Some (Join ids ",") end.
Proof.
  unfold stamped, stamp_ids. destruct (vulnIDs vulns) as [|id ids].
  - by rewrite lookup_delete_ne, lookup_delete_eq by computes_false.
  - destruct (bool_decide _); [rewrite lookup_delete_ne by computes_false|rewrite lookup_insert_ne by computes_false];
      by rewrite lookup_insert_eq.
Qed.

Lemma stamped_severity FormatTime marshal vulns at_ queried md :
  stamped FormatTime marshal vulns at_ queried md !! OSVMetaSeverity
  = match vulnIDs vulns with
    | [] => None
    | _ => if bool_decide (vulnSeverities vulns = ∅) then None else Some (marshal (vulnSeverities vulns))
    end.
Proof.
  unfold stamped, stamp_ids. destruct (vulnIDs vulns) as [|id ids]; [apply lookup_delete_eq|].
  destruct (bool_decide _); [apply lookup_delete_eq|apply lookup_insert_eq].
Qed.

Lemma stamped_other FormatTime marshal vulns at_ queried md key :
  key ∉ [OSVMetaVulns; OSVMetaSeverity; OSVMetaCheckedAt; OSVMetaQueried; OSVMetaMalware] ->
  stamped FormatTime marshal vulns at_ queried md !! key = md !! key.
Proof.
  rewrite !elem_of_cons. intros Hk. unfold stamped. rewrite stamp_ids_other by tauto.
  destruct (0 <? length _)%nat; [rewrite lookup_insert_ne by (intros <-; tauto)|rewrite lookup_delete_ne by (intros <-; tauto)];
    (destruct (at_ =? zero_time); [rewrite lookup_delete_ne by (intros <-; tauto)|rewrite lookup_insert_ne by (intros <-; tauto)]);
    (destruct (queried =? "")%string; [by rewrite lookup_delete_ne by (intros <-; tauto)|by rewrite lookup_insert_ne by (intros <-; tauto)]).
Qed.

(** Stamping the same answer again changes nothing. *)
Lemma stamped_twice FormatTime marshal vulns at_ queried md :
  stamped FormatTime marshal vulns at_ queried (stamped FormatTime marshal vulns at_ queried md)
  = stamped FormatTime marshal vulns at_ queried md.
Proof.
  apply map_eq. intros key.
  destruct (decide (key ∈ [OSVMetaVulns; OSVMetaSeverity; OSVMetaCheckedAt; OSVMetaQueried; OSVMetaMalware])) as [Hk|Hk];
    [|by apply stamped_other].
  rewrite !elem_of_cons, elem_of_nil in Hk. destruct Hk as [->|[->|[->|[->|[->|[]]]]]];
    by rewrite ?stamped_vulns, ?stamped_severity, ?stamped_checked, ?stamped_queried, ?stamped_malware.
Qed.

(** ** Rescanning twice *)

(** An id the comma-separated stamp holds as it is. *)
Definition plain_id (id : string) : Prop := no_byte "," id = true /\ TrimSpace id = id.

Lemma splitIDs_Join ids id : ids <> [] -> Forall (fun i => plain_id i /\ i <> "") ids ->
  id ∈ splitIDs (Join ids ",") <-> id ∈ ids.
Proof.
  intros Hne Hids. unfold splitIDs. rewrite sort_Strings_perm, Split_Join.
  - assert (E : map TrimSpace ids = ids).
    { clear Hne. induction Hids as [|i l [[_ Ht] _] Hl IH]; [done|]. cbn [map]. by rewrite Ht, IH. }
    rewrite E. rewrite list_elem_of_In, filter_In, <- list_elem_of_In, negb_true_iff, String.eqb_neq.
    split; [naive_solver|]. intros H. split; [done|]. rewrite Forall_forall in Hids. by destruct (Hids id H).
  - done.
  - eapply Forall_impl; [exact Hids|]. by intros i [[H _] _].
Qed.

Lemma vulnIDs_plain vs : Forall plain_id (vulnIDs vs) -> Forall (fun i => plain_id i /\ i <> "") (vulnIDs vs).
Proof.
  rewrite !Forall_forall. intros H i Hi. split; [by apply H|]. by apply vulnIDs_in in Hi as [Hne _].
Qed.

Lemma malware_ids vs id : id ∈ vulnIDs (splitMalware vs).1 -> id ∈ vulnIDs vs.
Proof. rewrite !vulnIDs_in. intros (Hne & v & [Hv _]%isMalware_split & He). eauto. Qed.

(** After a stamp, every malware id of the answer has been seen. *)
Lemma malwareSince_stamped FormatTime marshal ve vulns at_ queried :
  Forall plain_id (vulnIDs vulns) ->
  malwareSince (stampOSV FormatTime marshal ve vulns at_ queried) vulns = ((malwareSince ve vulns).1, []).
Proof.
  intros Hp. unfold malwareSince. destruct (splitMalware vulns).1 as [|m ms] eqn:Em; [done|]. cbn [fst].
  f_equal. apply filter_nil_iff. intros id Hid. apply negb_false_iff, slice_contains_spec.
  unfold seen_ids. rewrite elem_of_app. right. unfold stampOSV. rewrite metadata_set, stamped_malware, Em.
  cbn [length Nat.ltb Nat.leb default]. apply splitIDs_Join; [|apply vulnIDs_plain|done].
  - intros E. rewrite E in Hid. by apply elem_of_nil in Hid.
  - rewrite Forall_forall in *. intros i Hi. apply Hp, malware_ids. by rewrite Em.
Qed.

Lemma stamped_flag FormatTime marshal ve vulns at_ queried :
  (metadata (stampOSV FormatTime marshal ve vulns at_ queried) OSVMetaVulns =? "")%string = (length (vulnIDs vulns) =? 0)%nat.
Proof.
  unfold stampOSV. rewrite metadata_set, stamped_vulns.
  destruct (vulnIDs vulns) as [|id ids] eqn:E; [done|]. cbn [default length Nat.eqb]. apply String.eqb_neq.
  assert (Hid : id ∈ vulnIDs vulns) by (rewrite E, elem_of_cons; auto). apply vulnIDs_in in Hid as [Hne _].
  cbn [Join]. destruct ids; [done|]. by destruct id.
Qed.

Lemma answer_targets_none api_post FormatTime c now targets version : forall g,
  (answer_targets api_post FormatTime c now None targets version g).1 = None.
Proof.
  induction targets as [|t targets IH]; intros g; [done|]. cbn [answer_targets SharedLookup].
  by destruct (an_err _).
Qed.

(** What a lookup reads of an entry, a stamp leaves as it was. *)
Lemma stamp_lookup FormatTime marshal lower_unicode pm ve vulns at_ queried def served :
  osvLookupFor lower_unicode pm (stampOSV FormatTime marshal ve vulns at_ queried) def served
  = osvLookupFor lower_unicode pm ve def served.
Proof.
  assert (Hmd : forall key, key ∈ [RpmOSVEcosystemKey; RpmReleaseKey] ->
            metadata (stampOSV FormatTime marshal ve vulns at_ queried) key = metadata ve key).
  { intros key Hk. unfold stampOSV. rewrite metadata_set, stamped_other; [done|].
    intros Hin. rewrite !elem_of_cons, !elem_of_nil in Hk; rewrite !elem_of_cons, !elem_of_nil in Hin.
    destruct Hk as [->|[->|[]]]; destruct Hin as [E|[E|[E|[E|[E|[]]]]]]; vm_compute in E; discriminate E. }
  unfold osvLookupFor, rpm_lookup. rewrite !Hmd by (rewrite !elem_of_cons; auto). done.
Qed.

(** Rescanning settles.  When a rescan answers for a version, the rescan
    right after it answers the same: it reports the same records, flags and
    clears nothing, finds no malware that was not there before, and leaves the
    entry as it is. *)
Theorem Rescan_settles api_post FormatTime marshal lower_unicode c now pm ve ve1 ch1 :
  Rescan api_post FormatTime marshal lower_unicode c now None (Some pm) (Some ve) = (None, Some ve1, ch1) ->
  ch_Answered ch1 = true -> Forall plain_id (ch_Vulns ch1) ->
  Rescan api_post FormatTime marshal lower_unicode c now None (Some pm) (Some ve1)
  = (None, Some ve1, MkChange true (ch_Vulns ch1) false false (ch_Malware ch1) [] (ch_Reason ch1)).
Proof.
  unfold Rescan. destruct (ve_Version ve =? "")%string eqn:Ev; [by intros [= <- <-]|].
  set (lk := osvLookupFor lower_unicode pm ve _ _). destruct (negb (lk_reason lk =? "")%string) eqn:Er; [by intros [= <- <-]|].
  destruct (answerFor api_post FormatTime c now None lk ve) as [shared ans] eqn:Ea.
  assert (shared = None) as ->.
  { pose proof (answer_targets_none api_post FormatTime c now (lk_targets lk) (ve_Version ve) (qualified (lk_note lk) no_records)) as H.
    unfold answerFor in Ea. destruct (answer_targets _ _ _ _ _ _ _ _) as [s [g|a]]; cbn [fst] in H; by injection Ea as <- <-. }
  unfold rescan_answer. destruct (malwareSince ve (an_vulns ans)) as [all new] eqn:Em.
  destruct (negb (isSome (an_err ans)) && _) eqn:Ee; [by intros [= <- <-]|].
  destruct (conclusive ans) eqn:Ec; cbn [negb]; [|by intros [= <- <-]].
  intros [= <- <-] _ Hp. cbn [ch_Vulns ch_Malware ch_Reason] in *.
  rewrite stamp_lookup. fold lk. change (ve_Version (stampOSV FormatTime marshal ve (an_vulns ans) now (lk_queried lk))) with (ve_Version ve).
  rewrite Ev, Er.
  assert (Ea' : answerFor api_post FormatTime c now None lk (stampOSV FormatTime marshal ve (an_vulns ans) now (lk_queried lk))
                = (None, ans)) by exact Ea.
  rewrite Ea', malwareSince_stamped by done. rewrite Em. cbn [fst]. rewrite Ee, Ec. cbn [negb].
  rewrite stamped_flag. unfold stampOSV at 1. cbn [ve_Metadata set_Metadata stampOSV]. rewrite stamped_twice.
  destruct (vulnIDs (an_vulns ans)); done.
Qed.

Definition rescan_once :=
  Rescan no_api demo_time no_json ascii_only (demo_osv None demo_now) demo_now None (Some (osv_pm TypeNpm))
    (Some (osv_entry "1.0.0")).

Lemma Rescan_settles_witness :
  exists ve1, rescan_once.1.2 = Some ve1 /\ ch_NewMalware rescan_once.2 = ["MAL-2024-1"]
    /\ Rescan no_api demo_time no_json ascii_only (demo_osv None demo_now) demo_now None (Some (osv_pm TypeNpm)) (Some ve1)
       = (None, Some ve1, MkChange true ["GHSA-1"; "MAL-2024-1"] false false ["MAL-2024-1"] [] "").
Proof.
  eexists. split; [vm_compute; reflexivity|]. split; [vm_compute; reflexivity|].
  refine (Rescan_settles no_api demo_time no_json ascii_only (demo_osv None demo_now) demo_now (osv_pm TypeNpm)
            (osv_entry "1.0.0") _ (MkChange true ["GHSA-1"; "MAL-2024-1"] true false ["MAL-2024-1"] ["MAL-2024-1"] "") _ eq_refl _).
  - vm_compute. reflexivity.
  - cbn [ch_Vulns]. repeat constructor.
Defined.

(** The check date.  A check leaves the version's metadata as it found it, or
    stamps it with the records of an answer no target failed; the date is
    written only when every target answered from current data with nothing left
    unread, and an older date is taken away otherwise. *)
Theorem check_stamp api_post FormatTime marshal lower_unicode c now shared pm ve ve' malwareOnly :
  let lk := osvLookupFor lower_unicode pm ve (oc_DefaultAptSuite c) (oc_ServedAptSuites c) in
  let ans := (answerFor api_post FormatTime c now shared lk ve).2 in
  (check api_post FormatTime marshal lower_unicode c now shared (Some pm) (Some ve) malwareOnly).1.2 = Some ve' ->
  ve' = ve \/
  (an_err ans = None
   /\ metadata ve' OSVMetaCheckedAt = (if conclusive ans && negb (now =? zero_time) then FormatTime now else "")
   /\ metadata ve' OSVMetaVulns = Join (vulnIDs (an_vulns ans)) ","
   /\ forall key, key ∉ [OSVMetaVulns; OSVMetaSeverity; OSVMetaCheckedAt; OSVMetaQueried; OSVMetaMalware] ->
        metadata ve' key = metadata ve key).
Proof.
  intros lk ans. unfold check. fold lk.
  repeat match goal with |- context [if ?b then (_, Some ve, _) else _] =>
    destruct b; [intros H; left; by injection H as <-|] end.
  destruct (answerFor api_post FormatTime c now shared lk ve) as [shared' a] eqn:Ea. subst ans. cbn [snd].
  assert (Hstamp : forall at_, at_ = (if conclusive a then now else zero_time) ->
    let s := stampOSV FormatTime marshal ve (an_vulns a) at_ (lk_queried lk) in
    metadata s OSVMetaCheckedAt = (if conclusive a && negb (now =? zero_time) then FormatTime now else "")
    /\ metadata s OSVMetaVulns = Join (vulnIDs (an_vulns a)) ","
    /\ forall key, key ∉ [OSVMetaVulns; OSVMetaSeverity; OSVMetaCheckedAt; OSVMetaQueried; OSVMetaMalware] ->
         metadata s key = metadata ve key).
  { intros at_ -> s. unfold s, stampOSV. rewrite !metadata_set, stamped_checked, stamped_vulns. split; [|split].
    - destruct (conclusive a); [|done]. by destruct (now =? zero_time).
    - by destruct (vulnIDs (an_vulns a)).
    - intros key Hk. by rewrite metadata_set, stamped_other. }
  unfold judge_answer. destruct (an_err a) as [err|] eqn:Eerr; cbn [fst snd]; [intros H; left; by injection H as <-|].
  destruct (splitMalware (an_vulns a)) as [malware advisories]. cbv zeta.
  match goal with |- context [if ?b then _ else (stampOSV _ _ _ _ _ _, _)] => destruct b end;
    [|cbn [fst snd]; intros H; injection H as <-; right; split; [done|by apply Hstamp]].
  destruct (conclusive a) eqn:Ec; cbn [negb fst snd]; [|intros H; left; by injection H as <-].
  destruct (negb (_ =? "")%string); cbn [fst snd]; [intros H; left; by injection H as <-|].
  intros H; injection H as <-; right; split; [done|by apply Hstamp].
Qed.

Lemma check_stamp_witness :
  exists ve', (demo_check (demo_osv None demo_now) "1.0.0").1.2 = Some ve'
    /\ metadata ve' OSVMetaCheckedAt = demo_time demo_now.
Proof.
  eexists. split; [vm_compute; reflexivity|].
  pose proof (check_stamp no_api demo_time no_json ascii_only (demo_osv None demo_now) demo_now None (osv_pm TypeNpm)
                (osv_entry "1.0.0") _ false eq_refl) as H.
  destruct H as [H|(_ & H & _)]; [|exact H].
  apply (f_equal (fun ve => metadata ve OSVMetaVulns)) in H. vm_compute in H. discriminate H.
Defined.
