(* ===== verification/IndexFilter.v ===== *)
(** The index filter: which versions a proxied index leaves out
    (internal/policy/indexfilter.go), and that it leaves out what the age gate
    and the OSV gate would refuse.

    The arguments are those of [Age] and [OsvGate]. *)

From stdpp Require Import base list gmap strings.
From Stdlib Require Import ZArith Lia Ascii.
From S2P Require Import Prelude GoStrings GoTime Types Override AdmitOverride OsvRange Age OsvLookup OsvGate.

Definition WithheldAge := "age".
Definition WithheldOSV := "osv".

Definition IndexFilterEcosystems : list string := [TypeComposer; TypeGomod; TypeMaven; TypeNpm; TypePypi].

(** The store's three halves, and the OSV checker when there is one. *)
Record IndexFilter := MkIndexFilter {
  if_Enabled : string -> bool + string;
  if_Age : string -> policy_answer;
  if_OSV : OSVStore;
  if_osv : option OSVChecker
}.

Record IndexGate := MkIndexGate {
  ig_Ecosystem : string;
  ig_MinAge : Z;
  ig_osv : option OSVChecker;
  ig_now : Z
}.

(** [fixedOSVPolicy]: rows already read; no advisory row reads as none. *)
Record fixedOSVPolicy := MkFixed { fx_advisory : option string; fx_malware : string }.

Definition fixed_store (p : fixedOSVPolicy) : OSVStore :=
  MkOSVStore (fun _ => match fx_advisory p with Some a => ActionFound a | None => ActionNotFound end)
    (fun _ => ActionFound (fx_malware p)).

(** A copy of the checker answering from the rows read, with the API off. *)
Definition with_fixed (p : fixedOSVPolicy) (c : OSVChecker) : OSVChecker :=
  MkOSVChecker (Some (fixed_store p)) (oc_Endpoint c) (oc_LocalDB c) false (oc_MaxAge c) (oc_DefaultAptSuite c)
    (oc_ServedAptSuites c).

Definition gate_min_age (answer : policy_answer) : Z + string :=
  match answer with
  | AgePolicyNotFound => inl 0
  | AgePolicyFailed err => inr err
  | AgePolicyFound p =>
      if (ap_Action p =? ActionBlock)%string && (0 <? ap_MinAgeSeconds p) then inl (minAge p) else inl 0
  end.

Definition gate_advisory (answer : action_answer) : option string + string :=
  match answer with
  | ActionNotFound => inl None
  | ActionFailed err => inr err
  | ActionFound a => inl (if (a =? ActionBlock)%string then Some a else None)
  end.

Definition gate_malware (answer : action_answer) : string + string :=
  match answer with
  | ActionNotFound => inl ActionBlock
  | ActionFailed err => inr err
  | ActionFound a => inl a
  end.

(** The checker in force: there is one, and something blocks. *)
Definition gate_osv (p : fixedOSVPolicy) (osv : option OSVChecker) : option OSVChecker :=
  match osv with
  | Some c => if isSome (fx_advisory p) || (fx_malware p =? ActionBlock)%string then Some (with_fixed p c) else None
  | None => None
  end.

(** [Gate]: the rules in force, [None] when there are none, or an error. *)
Definition FilterGate (f : option IndexFilter) (now : Z) (ecosystem : string) : option IndexGate + string :=
  match f with
  | None => inl None
  | Some f =>
      match if_Enabled f ecosystem with
      | inr err => inr err
      | inl false => inl None
      | inl true =>
          match gate_min_age (if_Age f ecosystem) with
          | inr err => inr err
          | inl min =>
              match gate_advisory (GetOSVPolicy (if_OSV f) ecosystem) with
              | inr err => inr err
              | inl advisory =>
                  match gate_malware (GetOSVMalwarePolicy (if_OSV f) ecosystem) with
                  | inr err => inr err
                  | inl malware =>
                      let osv := gate_osv (MkFixed advisory malware) (if_osv f) in
                      if (min =? 0) && negb (isSome osv) then inl None
                      else inl (Some (MkIndexGate ecosystem min osv now))
                  end
              end
          end
      end
  end.

Definition Dates (g : IndexGate) : bool := 0 <? ig_MinAge g.

Definition Young (g : IndexGate) (t : Z) : bool := (0 <? ig_MinAge g) && (Time_Sub (ig_now g) t <? ig_MinAge g).

(** The package and the entry an index names. *)
Definition index_package (ecosystem name : string) : PackageManifest :=
  MkPackageManifest 0 name ecosystem "" "" "" [] [].

Definition index_entry (version : string) : VersionEntry :=
  MkVersionEntry version "" "" "" "" "" "" "" "" "" "" [] [] false "" "" "" [] None false "" None
    false 0 [] ∅ "" "" false false "" "" "" ∅.

Section withholding.
Variable api_post : string -> string -> string -> string -> api_answer.
Variable FormatTime : Z -> string.
Variable marshal : gmap string (list OSVSeverity) -> string.
Variable lower_unicode : string -> string.

Definition osv_verdict (c : OSVChecker) (now : Z) (ecosystem name version : string) : Result :=
  (check api_post FormatTime marshal lower_unicode c now None (Some (index_package ecosystem name))
     (Some (index_entry version)) false).2.

(** "" keeps the version; a zero time is one nobody read. *)
Definition Withhold (g : IndexGate) (name version : string) (published : Z) : string :=
  if negb (published =? zero_time) && Young g published then WithheldAge
  else
    match ig_osv g with
    | Some c => if (r_Action (osv_verdict c (ig_now g) (ig_Ecosystem g) name version) =? ActionBlock)%string
                then WithheldOSV else ""
    | None => ""
    end.

Definition Malicious (g : IndexGate) (name version : string) : bool :=
  match ig_osv g with
  | None => false
  | Some c =>
      let r := osv_verdict c (ig_now g) (ig_Ecosystem g) name version in
      (r_Action r =? ActionBlock)%string && isSome (r_Details r !! "malware")
  end.

(** The two lists as their text; [None] where the detail is absent. *)
Definition OSVRecords (g : IndexGate) (name version : string) : option string * option string :=
  match ig_osv g with
  | None => (None, None)
  | Some c =>
      let r := osv_verdict c (ig_now g) (ig_Ecosystem g) name version in
      (r_Details r !! "malware", r_Details r !! "vulns")
  end.
End withholding.

(** * Lemmas *)

Lemma stricter_block_iff a b : stricter a b = ActionBlock <-> a = ActionBlock \/ b = ActionBlock.
Proof.
  assert (Hr : forall x, action_rank x = 2 <-> x = ActionBlock).
  { intros x. unfold action_rank. destruct (String.eqb_spec x ActionWarn) as [->|_]; [done|].
    by destruct (String.eqb_spec x ActionBlock). }
  rewrite <- !Hr, stricter_rank. pose proof (action_rank_bound a). pose proof (action_rank_bound b). lia.
Qed.

Lemma Existsb_records (p : osvVuln -> bool) vs : (0 <? length (List.filter p vs))%nat = true <-> exists v, v ∈ vs /\ p v = true.
Proof.
  rewrite Nat.ltb_lt. setoid_rewrite list_elem_of_In. setoid_rewrite <- filter_In.
  destruct (List.filter p vs) as [|v l] eqn:E; cbn [length]; split; intros H; [lia|by destruct H as [v []]| |lia].
  exists v. by left.
Qed.

(** The records an action blocks on. *)
Definition blocking (acts : osvActions) (ans : osvAnswer) : Prop :=
  (ac_malware acts = ActionBlock /\ exists v, v ∈ an_vulns ans /\ isMalware v = true)
  \/ (ac_advisory acts = ActionBlock /\ exists v, v ∈ an_vulns ans /\ negb (isMalware v) = true).

(** The actions of a checker and of its copy block on the same records. *)
Lemma blocking_fixed c st eco advisory malware ans :
  oc_store c = Some st -> gate_advisory (GetOSVPolicy st eco) = inl advisory ->
  gate_malware (GetOSVMalwarePolicy st eco) = inl malware ->
  (blocking (actions c eco) ans <-> blocking (actions (with_fixed (MkFixed advisory malware) c) eco) ans)
  /\ (isSome advisory || (malware =? ActionBlock)%string = false -> ~ blocking (actions c eco) ans).
Proof.
  intros Hs Ha Hm.
  assert (Hm' : ac_malware (actions c eco) = malware /\ ac_malware (actions (with_fixed (MkFixed advisory malware) c) eco) = malware).
  { unfold actions, MalwareAction. cbn [oc_store with_fixed fixed_store GetOSVPolicy GetOSVMalwarePolicy fx_malware fx_advisory].
    rewrite Hs. unfold gate_malware in Hm. by destruct (GetOSVPolicy st eco), (GetOSVMalwarePolicy st eco), advisory; simplify_eq. }
  assert (Ha' : (ac_advisory (actions c eco) = ActionBlock <-> isSome advisory = true)
                /\ (ac_advisory (actions (with_fixed (MkFixed advisory malware) c) eco) = ActionBlock <-> isSome advisory = true)).
  { unfold actions, MalwareAction. cbn [oc_store with_fixed fixed_store GetOSVPolicy GetOSVMalwarePolicy fx_malware fx_advisory].
    rewrite Hs. unfold gate_advisory in Ha. destruct (GetOSVPolicy st eco) as [a| |]; [| |done].
    - injection Ha as <-. destruct (String.eqb_spec a ActionBlock) as [->|Hn];
        destruct (GetOSVMalwarePolicy st eco); cbn; split; split; done || computes_false.
    - injection Ha as <-. destruct (GetOSVMalwarePolicy st eco); cbn; split; split; done || computes_false. }
  destruct Hm' as [E1 E2], Ha' as [A1 A2]. unfold blocking. rewrite E1, E2, A1, A2. split; [done|].
  intros [Hn Hb]%orb_false_iff. apply String.eqb_neq in Hb. rewrite Hn. naive_solver.
Qed.

Section lemmas.
Variable api_post : string -> string -> string -> string -> api_answer.
Variable FormatTime : Z -> string.
Variable marshal : gmap string (list OSVSeverity) -> string.
Variable lower_unicode : string -> string.

#[local] Abbreviation verdict := (osv_verdict api_post FormatTime marshal lower_unicode).

Lemma found_result_blocks pm ve acts lk ans :
  r_Action (found_result marshal pm ve acts lk ans
    (if (ac_malware acts =? ActionIgnore)%string then [] else List.filter isMalware (an_vulns ans))
    (if (ac_advisory acts =? ActionIgnore)%string then [] else List.filter (fun v => negb (isMalware v)) (an_vulns ans)))
  = ActionBlock <-> blocking acts ans.
Proof.
  unfold blocking. rewrite <- !Existsb_records. unfold found_result. cbn [r_Action osv_result].
  assert (Hi : forall a l, (0 <? length (if (a =? ActionIgnore)%string then [] else l : list osvVuln))%nat
                           = (if (a =? ActionIgnore)%string then false else (0 <? length l)%nat)).
  { intros a l. by destruct (a =? ActionIgnore)%string. }
  rewrite !Hi. generalize (0 <? length (List.filter isMalware (an_vulns ans)))%nat as m.
  generalize (0 <? length (List.filter (fun v => negb (isMalware v)) (an_vulns ans)))%nat as d. intros d m.
  assert (Hpass : forall b, stricter ActionPass b = ActionBlock <-> b = ActionBlock).
  { intros b. rewrite stricter_block_iff. split; [|auto]. by intros [H|H]; [vm_compute in H; discriminate H|]. }
  assert (Hip : ActionIgnore <> ActionBlock /\ ActionPass <> ActionBlock) by (split; computes_false).
  destruct (String.eqb_spec (ac_malware acts) ActionIgnore) as [Em|Em],
           (String.eqb_spec (ac_advisory acts) ActionIgnore) as [Ea|Ea], d, m;
    rewrite ?Hpass, ?stricter_block_iff; intuition congruence.
Qed.
Lemma kept_records (a : string) (p : osvVuln -> bool) vs :
  a = ActionBlock -> (exists v, v ∈ vs /\ p v = true) ->
  length (if (a =? ActionIgnore)%string then [] else List.filter p vs) <> 0%nat.
Proof. intros -> H. apply Existsb_records, Nat.ltb_lt in H. change (ActionBlock =? ActionIgnore)%string with false. lia. Qed.

(** An entry no earlier check stamped is blocked on records alone. *)
Lemma judge_answer_blocks now pm ve acts lk ans :
  metadata ve OSVMetaMalware = "" ->
  r_Action (judge_answer FormatTime marshal now pm ve acts lk ans).2 = ActionBlock
  <-> an_err ans = None /\ blocking acts ans.
Proof.
  intros Hmd.
  assert (Hinc : forall reason, r_Action (inconclusive pm ve acts reason) <> ActionBlock).
  { intros reason. unfold inconclusive, priorMalware. rewrite Hmd. change ("" =? "")%string with true.
    rewrite orb_true_r. intros H. vm_compute in H. discriminate H. }
  unfold judge_answer. destruct (an_err ans) as [err|].
  - cbn [snd]. split; [intros H; by apply Hinc in H|by intros [? _]].
  - unfold splitMalware. cbv zeta. destruct (_ && _) eqn:E; cbn [snd].
    + assert (Hno : ~ blocking acts ans).
      { apply andb_true_iff in E as [E1%Nat.eqb_eq E2%Nat.eqb_eq].
        intros [[Ha Hv]|[Ha Hv]]; by apply (kept_records _ _ _ Ha) in Hv. }
      split; [|intros [_ H]; by apply Hno in H].
      destruct (negb (conclusive ans)); cbn [snd]; [intros H; by apply Hinc in H|].
      destruct (negb (_ =? "")%string); cbn [snd]; [computes_false|].
      unfold osv_pass. destruct (ac_notes acts); computes_false.
    + rewrite found_result_blocks. naive_solver.
Qed.

(** What the gate of a checker refuses of an index entry. *)
Lemma osv_verdict_blocks c now eco name version :
  let ve := index_entry version in
  let pm := index_package eco name in
  let lk := osvLookupFor lower_unicode pm ve (oc_DefaultAptSuite c) (oc_ServedAptSuites c) in
  let ans := (answerFor api_post FormatTime c now None lk ve).2 in
  r_Action (verdict c now eco name version) = ActionBlock
  <-> OSVCovers eco = true /\ version <> "" /\ (eco =? TypeRpm)%string = false /\ lk_reason lk = ""
      /\ an_err ans = None /\ blocking (actions c eco) ans.
Proof.
  intros ve pm lk ans. unfold osv_verdict. fold pm ve.
  assert (Hign : (ac_advisory (actions c eco) =? ActionIgnore)%string && (ac_malware (actions c eco) =? ActionIgnore)%string = true ->
                 ~ blocking (actions c eco) ans).
  { intros [E1%String.eqb_eq E2%String.eqb_eq]%andb_true_iff. unfold blocking. rewrite E1, E2.
    by intros [[H _]|[H _]]; vm_compute in H. }
  destruct (OSVCovers eco && negb (version =? "")%string && negb (eco =? TypeRpm)%string) eqn:Eg.
  - rewrite !andb_true_iff, !negb_true_iff, String.eqb_neq in Eg. destruct Eg as [[Hc Hv] Hr].
    assert (Hev : evaluated c false pm ve) by (split; [done|done|]; cbn [pm pm_Type index_package]; by rewrite Hr).
    destruct ((ac_advisory _ =? _)%string && _) eqn:Ei in Hign.
    { rewrite (check_evaluated api_post FormatTime marshal lower_unicode c now None pm ve false Hev).
      change (acts_for c false (pm_Type pm)) with (actions c eco). rewrite Ei. cbn [snd]. unfold osv_pass.
      split; [destruct (ac_notes _); computes_false|]. intros (_ & _ & _ & _ & _ & H). by apply Hign in H. }
    destruct (String.eqb_spec (lk_reason lk) "") as [El|El].
    + rewrite check_result by done. fold lk. change (acts_for c false (pm_Type pm)) with (actions c eco). fold ans.
      rewrite judge_answer_blocks by done. naive_solver.
    + rewrite (check_evaluated api_post FormatTime marshal lower_unicode c now None pm ve false Hev).
      change (acts_for c false (pm_Type pm)) with (actions c eco). rewrite Ei. fold lk.
      apply String.eqb_neq in El. rewrite El. apply String.eqb_neq in El. cbn [negb snd].
      split; [computes_false|]. by intros (_ & _ & _ & H & _).
  - split; [|intros (Hc & Hv & Hr & _); apply String.eqb_neq in Hv; by rewrite Hc, Hv, Hr in Eg].
    unfold check. cbn [pm pm_Type index_package]. change (metadata ve RpmOSVEcosystemKey) with "".
    change (ve_Version ve) with version. change ("" =? "")%string with true. rewrite andb_true_r.
    destruct (eco =? TypeOCI)%string; [computes_false|].
    destruct (OSVCovers eco); cbn [negb andb] in *; [|computes_false].
    destruct (eco =? TypeRpm)%string; cbn [negb andb] in *.
    + rewrite !andb_false_r. computes_false.
    + rewrite !andb_true_r in *. apply negb_false_iff in Eg. rewrite Eg. cbn [andb].
      destruct (negb (eco =? TypeApt)%string); [computes_false|].
      destruct (_ && _); cbn [snd]; [|computes_false].
      unfold osv_pass. destruct (ac_notes _); computes_false.
Qed.
(** A copy answers as the checker does while the API is off. *)
Lemma answerFor_fixed p c now lk ve : oc_AllowAPIFallback c = false ->
  (answerFor api_post FormatTime (with_fixed p c) now None lk ve).2 = (answerFor api_post FormatTime c now None lk ve).2.
Proof.
  intros Hf. assert (Hl : forall eco name version,
    lookup api_post FormatTime (with_fixed p c) now eco name version = lookup api_post FormatTime c now eco name version).
  { intros eco name version. unfold lookup, local_answer. cbn [oc_LocalDB oc_AllowAPIFallback with_fixed]. by rewrite Hf. }
  assert (Ht : forall targets version g,
    answer_targets api_post FormatTime (with_fixed p c) now None targets version g
    = answer_targets api_post FormatTime c now None targets version g).
  { intros targets version. induction targets as [|t targets IH]; intros g; [done|].
    cbn [answer_targets SharedLookup]. rewrite Hl. destruct (an_err _); [done|apply IH]. }
  unfold answerFor. by rewrite Ht.
Qed.

End lemmas.

(** * Theorems *)

(** The index and the artifact route agree.  While the filter is in force,
    every policy row can be read and the live API is off, the index leaves out a
    version exactly when the age gate would refuse it for the time the index
    read, or the OSV gate would refuse it.  A version nothing could date is
    never left out for its age. *)
Theorem Withhold_refusals api_post FormatTime marshal lower_unicode f c now eco g name version published :
  FilterGate (Some f) now eco = inl (Some g) ->
  if_osv f = Some c -> oc_store c = Some (if_OSV f) -> oc_AllowAPIFallback c = false ->
  (forall policy, if_Age f eco = AgePolicyFound policy -> ap_MinAgeSeconds policy <= 9223372036) ->
  Withhold api_post FormatTime marshal lower_unicode g name version published <> "" <->
  (published <> zero_time /\ exists policy, if_Age f eco = AgePolicyFound policy /\ 0 < ap_MinAgeSeconds policy
     /\ r_Action (age_verdict FormatTime policy now name version published "") = ActionBlock)
  \/ r_Action (osv_verdict api_post FormatTime marshal lower_unicode c now eco name version) = ActionBlock.
Proof.
  intros Hg Hc Hst Hf Hmax. unfold FilterGate in Hg.
  destruct (if_Enabled f eco) as [[|]|]; [|done|done].
  destruct (gate_min_age (if_Age f eco)) as [min|] eqn:Emin; [|done].
  destruct (gate_advisory _) as [advisory|] eqn:Ea; [|done].
  destruct (gate_malware _) as [malware|] eqn:Em; [|done].
  destruct (_ && _) in Hg; [done|]. injection Hg as <-. rewrite Hc.
  assert (Hage : negb (published =? zero_time) && Young (MkIndexGate eco min (gate_osv (MkFixed advisory malware) (Some c)) now) published = true
    <-> published <> zero_time /\ exists policy, if_Age f eco = AgePolicyFound policy /\ 0 < ap_MinAgeSeconds policy
          /\ r_Action (age_verdict FormatTime policy now name version published "") = ActionBlock).
  { unfold Young. cbn [ig_MinAge ig_now]. rewrite !andb_true_iff, negb_true_iff, Z.eqb_neq, !Z.ltb_lt.
    setoid_rewrite age_verdict_action. unfold gate_min_age in Emin. destruct (if_Age f eco) as [policy| |err] eqn:Ep; [| |done].
    - specialize (Hmax policy eq_refl). destruct (String.eqb_spec (ap_Action policy) ActionBlock) as [Eb|Eb].
      + destruct (Z.ltb_spec 0 (ap_MinAgeSeconds policy)) as [Hs|Hs]; cbn [andb] in Emin; injection Emin as <-.
        * assert (Hpos : 0 < minAge policy) by (rewrite minAge_exact by lia; unfold Second; lia).
          split; [intros [Hz [_ Hlt]]|intros (Hz & p & [= <-] & _ & Hb)]; (split; [done|]).
          -- exists policy. rewrite Eb. destruct (Z.leb_spec (minAge policy) (Time_Sub now published)); [lia|done].
          -- destruct (Z.leb_spec (minAge policy) (Time_Sub now published)); [vm_compute in Hb; discriminate Hb|lia].
        * split; [lia|]. intros (_ & p & [= <-] & Hp & _). lia.
      + cbn [andb] in Emin. injection Emin as <-. split; [lia|]. intros (_ & p & [= <-] & _ & Hb).
        destruct (_ <=? _); [vm_compute in Hb; discriminate Hb|done].
    - injection Emin as <-. split; [lia|]. by intros (_ & p & ? & _). }
  assert (Hosv : (match gate_osv (MkFixed advisory malware) (Some c) with
                  | Some c' => (r_Action (osv_verdict api_post FormatTime marshal lower_unicode c' now eco name version) =? ActionBlock)%string
                  | None => false
                  end) = true
    <-> r_Action (osv_verdict api_post FormatTime marshal lower_unicode c now eco name version) = ActionBlock).
  { rewrite osv_verdict_blocks.
    match goal with |- context [blocking (actions c eco) ?a] => set (ans := a) end.
    destruct (blocking_fixed c (if_OSV f) eco advisory malware ans Hst Ea Em) as [Hsame Hnone].
    cbn [gate_osv fx_advisory fx_malware]. destruct (isSome advisory || _) eqn:Eany; [|naive_solver].
    rewrite String.eqb_eq, osv_verdict_blocks. cbn [oc_DefaultAptSuite oc_ServedAptSuites with_fixed].
    rewrite answerFor_fixed by done. fold ans. by rewrite Hsame. }
  rewrite <- Hage, <- Hosv. unfold Withhold. cbn [ig_osv ig_now ig_Ecosystem].
  destruct (negb (published =? zero_time) && _); [split; [by left|intros _; computes_false]|].
  destruct (gate_osv _ _) as [c'|]; [|naive_solver].
  destruct (r_Action _ =? ActionBlock)%string; [split; [by right|intros _; computes_false]|naive_solver].
Qed.

Definition week_policy : AgePolicy := MkAgePolicy "npm" (7 * 24 * 3600) ActionBlock 0.
Definition no_rows : OSVStore := MkOSVStore (fun _ => ActionNotFound) (fun _ => ActionNotFound).

Definition demo_filter : IndexFilter :=
  MkIndexFilter (fun _ => inl true) (fun _ => AgePolicyFound week_policy) no_rows (Some (demo_osv (Some no_rows) demo_now)).

Definition demo_gate : IndexGate :=
  MkIndexGate "npm" (7 * 24 * Hour)
    (Some (with_fixed (MkFixed None ActionBlock) (demo_osv (Some no_rows) demo_now))) demo_now.

Definition demo_withhold (version : string) (published : Z) : string :=
  Withhold no_api demo_time no_json ascii_only demo_gate "left-pad" version published.

Example Withhold_ex :
  [demo_withhold "2.1.0" 0; demo_withhold "2.1.0" (demo_now - Hour); demo_withhold "2.1.0" zero_time;
   demo_withhold "1.0.0" 0]
  = [""; WithheldAge; ""; WithheldOSV].
Proof. vm_compute. reflexivity. Qed.

Lemma Withhold_refusals_witness :
  FilterGate (Some demo_filter) demo_now "npm" = inl (Some demo_gate) /\ demo_withhold "1.0.0" 0 <> "".
Proof.
  split; [vm_compute; reflexivity|].
  apply (Withhold_refusals no_api demo_time no_json ascii_only demo_filter (demo_osv (Some no_rows) demo_now) demo_now "npm"
           demo_gate "left-pad" "1.0.0" 0).
  - vm_compute. reflexivity.
  - reflexivity.
  - reflexivity.
  - reflexivity.
  - intros policy E. injection E as <-. vm_compute. discriminate.
  - right. vm_compute. reflexivity.
Defined.
