(* ===== verification/Similarity.v ===== *)
(** The name-similarity check: internal/policy/similarity.go over the edit
    distance.

    Arguments stand for what is not read here: [lower_unicode] lower-cases a
    text that is not ASCII, [url_path] is the Path of url.Parse or an error,
    [sha256] a digest in hex, and a store's answers are given.  An error is its
    text.  The embedded lists are data and an argument. *)

From stdpp Require Import base list gmap strings pretty.
From Stdlib Require Import ZArith Lia Ascii.
From S2P Require Import Prelude GoStrings GoRunes GoURL Types MavenLayout AllowList EditDistance Override AdmitOverride.

Definition MaxSimilarityDistance : Z := 2.

Definition SimilarityEcosystems : list string :=
  [TypeCargo; TypeComposer; TypeGit; TypeHelm; TypeMaven; TypeNpm; TypeOCI; TypePypi; TypeRpm; TypeRubygems].

(** * The name that is compared *)

Definition gitNativeScheme (scheme : string) : bool :=
  one_of ["file"; "ssh"; "git"; "git+ssh"; "ssh+git"] scheme.

(** A malformed escape, and one of NUL, is kept as written. *)
Fixpoint gitURLDecode (s : string) : string :=
  match s with
  | "" => ""
  | String c rest =>
      if Ascii.eqb c "%" then
        match rest with
        | String a (String b s') =>
            if is_hex a && is_hex b && negb (16 * unhex a + unhex b =? 0)
            then String (byte_of (16 * unhex a + unhex b)) (gitURLDecode s')
            else String c (gitURLDecode rest)
        | _ => String c (gitURLDecode rest)
        end
      else String c (gitURLDecode rest)
  end.

(** [strings.IndexByte] *)
Definition IndexByte (c : ascii) (s : string) : option nat :=
  match cut_byte c s with Some (a, _) => Some (String.length a) | None => None end.

Definition gitSCPPath (u : string) : string :=
  let start := match cut u "@[" with Some (a, _) => S (String.length a) | None => 0%nat end in
  let stop :=
    if HasPrefix (str_drop start u) "[" then
      match IndexByte "]" (str_drop start u) with Some j => (start + j)%nat | None => start end
    else 0%nat in
  match cut_byte ":" (str_drop stop u) with Some (_, path) => path | None => u end.

(** The last [n] elements. *)
Definition last_n (n : nat) (l : list string) : list string := drop (length l - n) l.

Definition segments (s : string) : list string := filter (fun seg => negb (seg =? "")%string) (Split "/" s).

(** What follows the first "/", as [strings.Cut] gives it. *)
Definition after_slash (s : string) : string := (cut_or_whole "/" s).2.

Definition git_path (url_path : string -> option string) (u : string) : string :=
  match cut u "://" with
  | Some (scheme, rest) =>
      if gitNativeScheme scheme then after_slash (gitURLDecode rest)
      else
        match url_path u with
        | Some p => p
        | None => (cut_or_whole "#" (cut_or_whole "?" (after_slash rest)).1).1
        end
  | None =>
      match cut_byte ":" u with
      | Some (host, _) => if has_byte "/" host then u else gitSCPPath u
      | None => u
      end
  end.

Definition GitSimilarityName (url_path : string -> option string) (upstream : string) : string :=
  let u := git_path url_path (TrimSpace upstream) in
  let u := TrimSuffix (Trim (path_Clean ("/" +:+ u)) "/") ".git" in
  Join (last_n 2 (segments u)) "/".

Definition SimilarityName (typ name : string) : string :=
  if negb (typ =? TypeOCI)%string then name
  else
    let segs := Split "/" (TrimSpace name) in
    Join (last_n 2 (match segs with _ :: (_ :: _) as rest => rest | _ => segs end)) "/".

(** * Splitting names *)

(** The part before the separator, and the name when there is none. *)
Definition split_owner (c : ascii) (name : string) : string * string :=
  match cut_byte c name with Some (owner, rest) => (owner, rest) | None => ("", name) end.

Definition splitComposerName : string -> string * string := split_owner "/".
Definition splitMavenName : string -> string * string := split_owner ":".

Definition splitNpmScope (name : string) : string * string :=
  match cut_prefix name "@" with
  | Some rest => match cut_byte "/" rest with Some (s, n) => (s, n) | None => ("", name) end
  | None => ("", name)
  end.

(** * Distances *)

Definition lengthGap (a b : string) : Z := Z.abs (Z.of_nat (RuneCount a) - Z.of_nat (RuneCount b)).

Definition is_forge (ecosystem : string) : bool := one_of [TypeComposer; TypeGit] ecosystem.

Definition nameDistance (ecosystem a b : string) (shared : gset string) : Z :=
  if (ecosystem =? TypeNpm)%string then
    let '(as_, an) := splitNpmScope a in
    let '(bs, bn) := splitNpmScope b in
    damerauLevenshtein as_ bs + damerauLevenshtein an bn
  else if (ecosystem =? TypeMaven)%string then
    let '(ag, aa) := splitMavenName a in
    let '(bg, ba) := splitMavenName b in
    if (aa =? ba)%string && (ag =? bg)%string then 0
    else if (aa =? ba)%string && negb (bool_decide (aa ∈ shared)) then 1
    else damerauLevenshtein ag bg + damerauLevenshtein aa ba
  else if is_forge ecosystem then
    let '(av, ap) := splitComposerName a in
    let '(bv, bp) := splitComposerName b in
    if (ap =? bp)%string && negb (av =? bv)%string && negb (bool_decide (ap ∈ shared)) then 1
    else damerauLevenshtein av bv + damerauLevenshtein ap bp
  else damerauLevenshtein a b.

Definition distanceFloor (ecosystem a b : string) : Z :=
  if (ecosystem =? TypeNpm)%string then
    let '(as_, an) := splitNpmScope a in
    let '(bs, bn) := splitNpmScope b in
    lengthGap as_ bs + lengthGap an bn
  else if (ecosystem =? TypeMaven)%string then
    let '(ag, aa) := splitMavenName a in
    let '(bg, ba) := splitMavenName b in
    if (aa =? ba)%string then 0 else lengthGap ag bg + lengthGap aa ba
  else if is_forge ecosystem then
    let '(av, ap) := splitComposerName a in
    let '(bv, bp) := splitComposerName b in
    if (ap =? bp)%string then 0 else lengthGap av bv + lengthGap ap bp
  else lengthGap a b.

(** * Names every owner shares *)

Definition groupNamesArtifact (group artifact : string) : bool :=
  existsb (fun label => HasPrefix label artifact) (Split "." group).

(** [strings.FieldsFunc] at "-", "_" and ".". *)
Definition vendor_labels (vendor : string) : list string :=
  filter (fun l => negb (l =? "")%string) (Split "-" (ReplaceAll (ReplaceAll vendor "_" "-") "." "-")).

Definition vendorNamesPackage (vendor pkg : string) : bool :=
  existsb (fun label => HasPrefix label pkg) (vendor_labels vendor).

(** The owners each name is carried under, in order. *)
Definition carriers (split : string -> string * string) (keys : list string) : gmap string (list string) :=
  foldl (fun m k =>
    let '(owner, name) := split k in
    let owners := default [] (m !! name) in
    if slice_contains owners owner then m else <[name := owners ++ [owner]]> m) ∅ keys.

Definition shared_names (split : string -> string * string) (names : string -> string -> bool) (keys : list string)
  : gset string :=
  dom (filter (fun e : string * list string =>
                 (1 < length e.2)%nat /\ existsb (fun owner => names owner e.1) e.2 = false)
              (carriers split keys)).

Definition sharedMavenArtifacts : list string -> gset string := shared_names splitMavenName groupNamesArtifact.
Definition sharedComposerPackages : list string -> gset string := shared_names splitComposerName vendorNamesPackage.

(** * Lists *)

Record PopularNames := MkPopular {
  pn_Ecosystem : string;
  pn_Names : list string;
  pn_keys : list string;
  pn_set : gset string;
  pn_sharedArtifacts : gset string;
  pn_Source : string;
  pn_Date : string;
  pn_Loaded : bool;
  pn_SHA256 : string
}.

Section lists.
Variable lower_unicode : string -> string.

Definition NormalizeName (typ name : string) : string :=
  let name := TrimSpace name in
  if (typ =? TypePypi)%string then CanonicalPypiName name
  else if (typ =? TypeCargo)%string then ReplaceAll (ToLowerU lower_unicode name) "_" "-"
  else ToLowerU lower_unicode name.

Definition pn_Contains (p : PopularNames) (name : string) : bool :=
  bool_decide (NormalizeName (pn_Ecosystem p) name ∈ pn_set p).

(** One name of the list: the best distance so far, -1 before the first. *)
Definition nearest_step (p : PopularNames) (key : string) (st : string * Z) (kn : string * string) : string * Z :=
  let '(popular, best) := st in
  let '(k, name) := kn in
  if (0 <=? best) && (best <=? distanceFloor (pn_Ecosystem p) key k) then st
  else
    let d := nameDistance (pn_Ecosystem p) key k (pn_sharedArtifacts p) in
    if (best <? 0) || (d <? best) then (name, d) else st.

Definition Nearest (p : PopularNames) (name : string) : string * Z * bool :=
  let key := NormalizeName (pn_Ecosystem p) name in
  let '(popular, best) := foldl (nearest_step p key) ("", -1) (zip (pn_keys p) (pn_Names p)) in
  (popular, best, 0 <=? best).

Definition Near (p : PopularNames) (name : string) : option (string * Z) :=
  if pn_Contains p name then None
  else
    let '(popular, distance, ok) := Nearest p name in
    if negb ok || (MaxSimilarityDistance <? distance) then None else Some (popular, distance).

Definition print_Z (n : Z) : string := pretty n.

Definition pn_Label (p : PopularNames) : string :=
  let origin := if pn_Loaded p then "loaded" else "embedded" in
  let base := origin +:+ " list of " +:+ print_Z (Z.of_nat (length (pn_Names p))) in
  if negb (pn_Date p =? "")%string then base +:+ ", " +:+ pn_Date p else base.
(** ** Reading a list *)

(** [bufio.Scanner] over lines: the text up to each newline without a trailing
    carriage return, no line for an empty rest.  A line of 64 KiB or more is
    [None], and ends the scan. *)
Definition MaxScanTokenSize : Z := 64 * 1024.

Definition drop_cr (line : string) : string := TrimSuffix line (String "013" "").

Definition scan_line (line : string) : option string :=
  if MaxScanTokenSize <=? slen line then None else Some (drop_cr line).

Definition newline : ascii := "010".

(** The pieces between newlines; the last one counts when it is not empty. *)
Definition scan_lines (data : string) : list (option string) :=
  let pieces := Split newline data in
  scan_line <$> (removelast pieces ++ (if (List.last pieces "" =? "")%string then [] else [List.last pieces ""])).

Inductive list_error := NotAName (line : nat) (text : string) | TooLong | NamesNothing.

Definition is_blank_byte (c : ascii) : bool := Ascii.eqb c " " || Ascii.eqb c "009".

Definition add_name (key text : string) (p : PopularNames) : PopularNames :=
  MkPopular (pn_Ecosystem p) (pn_Names p ++ [text]) (pn_keys p ++ [key]) ({[ key ]} ∪ pn_set p)
    (pn_sharedArtifacts p) (pn_Source p) (pn_Date p) (pn_Loaded p) (pn_SHA256 p).

Definition set_header (source date : string) (p : PopularNames) : PopularNames :=
  MkPopular (pn_Ecosystem p) (pn_Names p) (pn_keys p) (pn_set p) (pn_sharedArtifacts p) source date
    (pn_Loaded p) (pn_SHA256 p).

Definition set_shared (shared : gset string) (p : PopularNames) : PopularNames :=
  MkPopular (pn_Ecosystem p) (pn_Names p) (pn_keys p) (pn_set p) shared (pn_Source p) (pn_Date p)
    (pn_Loaded p) (pn_SHA256 p).

Definition set_Loaded (p : PopularNames) : PopularNames :=
  MkPopular (pn_Ecosystem p) (pn_Names p) (pn_keys p) (pn_set p) (pn_sharedArtifacts p) (pn_Source p) (pn_Date p)
    true (pn_SHA256 p).

(** A comment's header key. *)
Definition header_line (c : string) (p : PopularNames) : PopularNames :=
  let '(k, v) := cut_or_whole ":" c in
  if (TrimSpace k =? "source")%string then set_header (TrimSpace v) (pn_Date p) p
  else if (TrimSpace k =? "date")%string then set_header (pn_Source p) (TrimSpace v) p
  else p.

Definition name_line (line : nat) (text : string) (p : PopularNames) : PopularNames + list_error :=
  if negb (all_bytes (fun c => negb (is_blank_byte c)) text) then inr (NotAName line text)
  else
    let key := NormalizeName (pn_Ecosystem p) text in
    if bool_decide (key ∈ pn_set p) then inl p else inl (add_name key text p).

Definition list_line (line : nat) (raw : string) (p : PopularNames) : PopularNames + list_error :=
  let text := TrimSpace raw in
  if (text =? "")%string then inl p
  else
    match cut_prefix text "#" with
    | Some c => inl (header_line c p)
    | None => name_line line text p
    end.

Fixpoint list_lines (line : nat) (lines : list (option string)) (p : PopularNames) : PopularNames + list_error :=
  match lines with
  | [] => inl p
  | None :: _ => inr TooLong
  | Some raw :: lines =>
      match list_line line raw p with
      | inr err => inr err
      | inl p => list_lines (S line) lines p
      end
  end.

Definition shared_of (ecosystem : string) (keys : list string) : gset string :=
  if (ecosystem =? TypeMaven)%string then sharedMavenArtifacts keys
  else if is_forge ecosystem then sharedComposerPackages keys
  else ∅.

Definition ParsePopularNames (sha256 : string -> string) (ecosystem data : string) : PopularNames + list_error :=
  let p := MkPopular ecosystem [] [] ∅ ∅ "" "" false ("sha256:" +:+ sha256 data) in
  match list_lines 1 (scan_lines data) p with
  | inr err => inr err
  | inl p =>
      if (length (pn_Names p) =? 0)%nat then inr NamesNothing
      else inl (set_shared (shared_of ecosystem (pn_keys p)) p)
  end.

(** ** The check *)

(** What a store answers: a value, nothing under that key, or an error's text. *)
Inductive answered (A : Type) := Found (a : A) | NotFound | Failed (err : string).
#[global] Arguments Found {A}. #[global] Arguments NotFound {A}. #[global] Arguments Failed {A}.

(** What [Check] reads: the action of the ecosystem, the operator's list as
    [ParsePopularNames] reads it, the rules, and whether the baseline was taken,
    when, and holds the name. *)
Record SimilarityStore := MkSimilarityStore {
  ss_Action : string -> answered string;
  ss_List : string -> answered (PopularNames + string);
  ss_Rules : string -> list Rule + string;
  ss_Baseline : option string + string;
  ss_InBaseline : string -> string -> bool + string
}.

(** A store that is absent is [None]. *)
Definition SimilarityAction (store : option SimilarityStore) (ecosystem : string) : string + string :=
  match store with
  | None => inl ActionWarn
  | Some st =>
      match ss_Action st ecosystem with
      | NotFound => inl ActionWarn
      | Failed err => inr err
      | Found action => inl action
      end
  end.

Variable embedded : string -> option PopularNames.

Definition LoadPopularNames (store : option SimilarityStore) (ecosystem : string) : option PopularNames + string :=
  match store with
  | None => inl (embedded ecosystem)
  | Some st =>
      match ss_List st ecosystem with
      | Found (inl p) => inl (Some (set_Loaded p))
      | Found (inr err) => inr ("loaded " +:+ ecosystem +:+ " popular list: " +:+ err)
      | Failed err => inr ("load " +:+ ecosystem +:+ " popular list: " +:+ err)
      | NotFound => inl (embedded ecosystem)
      end
  end.

Definition ExactRule (typ pattern : string) : bool :=
  if one_of [TypePypi; TypeCargo; TypeRubygems; TypeComposer] typ then true
  else if one_of [TypeNpm; TypeOCI] typ then negb (HasSuffix pattern "/*")
  else if (typ =? TypeMaven)%string then negb (HasSuffix pattern (":" +:+ MavenGroupWildcard))
  else false.

(** Why a near name is exempt, "" when it is not. *)
Definition exemption (st : SimilarityStore) (typ name : string) : string + string :=
  match ss_Rules st typ with
  | inr err => inr err
  | inl rules =>
      if existsb (fun rule => ExactRule typ (r_Pattern rule)
                   && (NormalizeName typ (r_Pattern rule) =? NormalizeName typ name)%string) rules
      then inl "allow-listed by an exact rule"
      else
        match ss_Baseline st with
        | inr err => inr err
        | inl None => inl ""
        | inl (Some date) =>
            match ss_InBaseline st typ (NormalizeName typ (SafeName name)) with
            | inr err => inr err
            | inl true =>
                inl ("in use (in the manifest store or admitted) when the name baseline was taken on " +:+ date)
            | inl false => inl ""
            end
        end
  end.

Definition similarity_result (action reason : string) (details : gmap string string) : Result :=
  MkResult CheckNameSimilarity action reason details None None.

(** What a near name gets. *)
Definition near_result (st : SimilarityStore) (typ name hit action : string) (details : gmap string string)
  : Result :=
  match exemption st typ name with
  | inr err => similarity_result ActionWarn (hit +:+ "; exemptions could not be read: " +:+ err) details
  | inl exempt =>
      if negb (exempt =? "")%string
      then similarity_result ActionPass ("exempt, " +:+ exempt +:+ ": " +:+ hit) details
      else similarity_result (if one_of [ActionBlock; ActionIgnore] action then action else ActionWarn) hit details
  end.

Definition judge_name (st : SimilarityStore) (typ name compared action : string) (p : PopularNames) : Result :=
  if (compared =? "")%string
  then similarity_result ActionNotEvaluated
         ("not run: " +:+ name +:+ " names no upstream URL with an {owner}/{repo} path to compare") ∅
  else
    let subject := if negb (compared =? SimilarityName typ name)%string
                   then name +:+ " (" +:+ compared +:+ ")" else name in
    if pn_Contains p compared
    then similarity_result ActionPass
           (subject +:+ " is itself on the popular " +:+ typ +:+ " list (" +:+ pn_Label p +:+ ")") ∅
    else
      match Near p compared with
      | None => similarity_result ActionPass
                  ("no popular " +:+ typ +:+ " name within distance " +:+ print_Z MaxSimilarityDistance +:+ " ("
                   +:+ pn_Label p +:+ ")") ∅
      | Some (popular, distance) =>
          near_result st typ name
            (subject +:+ " is distance " +:+ print_Z distance +:+ " from the popular " +:+ typ +:+ " name "
             +:+ popular +:+ " (" +:+ pn_Label p +:+ ")")
            action {[ "nearest" := popular; "distance" := print_Z distance ]}
      end.

Definition check_name (store : option SimilarityStore) (typ name compared : string) : Result :=
  if negb (slice_contains SimilarityEcosystems typ)
  then similarity_result ActionNotEvaluated
         ("no popular-name list for " +:+ typ +:+ ": " +:+ typ
          +:+ " packages are not named by whoever publishes them on an open registry") ∅
  else
    match store with
    | None => similarity_result ActionNotEvaluated
                "not run: no audit database to read the policy and the name baseline from" ∅
    | Some st =>
        match SimilarityAction store typ with
        | inr err => similarity_result ActionWarn ("load name similarity policy: " +:+ err) ∅
        | inl action =>
            match LoadPopularNames store typ with
            | inr err => similarity_result ActionWarn err ∅
            | inl None => similarity_result ActionNotEvaluated ("no popular-name list for " +:+ typ) ∅
            | inl (Some p) => judge_name st typ name compared action p
            end
        end
    end.

(** The name a version of a package is compared under. *)
Definition compared_name (url_path : string -> option string) (pm : PackageManifest) (ve : option VersionEntry)
  : string :=
  if (pm_Type pm =? TypeGit)%string
  then match ve with Some ve => GitSimilarityName url_path (ve_URL ve) | None => "" end
  else SimilarityName (pm_Type pm) (pm_Name pm).

(** [Check] with the results seen so far. *)
Definition CheckSimilarity (url_path : string -> option string) (store : option SimilarityStore)
  (seen : gmap string Result) (pm : option PackageManifest) (ve : option VersionEntry)
  : gmap string Result * Result :=
  match pm with
  | None => (seen, similarity_result ActionPass "" ∅)
  | Some pm =>
      let compared := compared_name url_path pm ve in
      let key := pm_Type pm +:+ nul +:+ pm_Name pm +:+ nul +:+ compared in
      match seen !! key with
      | Some prev => (seen, prev)
      | None =>
          let r := check_name store (pm_Type pm) (pm_Name pm) compared in
          (<[key := r]> seen, r)
      end
  end.

(** ** Writing an exact rule *)

Definition NearPopularName (store : option SimilarityStore) (typ name : string) : option (string * Z) + string :=
  if negb (slice_contains SimilarityEcosystems typ) || negb (ExactRule typ name) then inl None
  else
    match LoadPopularNames store typ with
    | inr err => inr err
    | inl None => inl None
    | inl (Some p) => inl (Near p (SimilarityName typ name))
    end.

(** A rule that may be written: near a popular name the caller confirmed, with
    a comparison that could not run, or neither; or one that may not. *)
Inductive near_verdict :=
| NotNear
| Confirmed (popular : string) (distance : Z)
| CheckFailed (err : string)
| NearPopularError (typ pattern popular : string) (distance : Z).

Definition ConfirmNearPopular (store : option SimilarityStore) (typ pattern confirm : string) : near_verdict :=
  match NearPopularName store typ pattern with
  | inr err => CheckFailed err
  | inl None => NotNear
  | inl (Some (popular, distance)) =>
      if (TrimSpace confirm =? "")%string || negb (NormalizeName typ confirm =? NormalizeName typ popular)%string
      then NearPopularError typ pattern popular distance
      else Confirmed popular distance
  end.

Definition AuditDetails (v : near_verdict) : string :=
  match v with
  | CheckFailed _ => " near_popular_check=failed"
  | Confirmed popular distance =>
      if (popular =? "")%string then ""
      else " near_popular=" +:+ popular +:+ " distance=" +:+ print_Z distance +:+ " confirmed=yes"
  | _ => ""
  end.
End lists.

Definition example_list : PopularNames + list_error :=
  ParsePopularNames (fun s => s) (fun _ => "") TypeNpm
    ("# source: x: y" +:+ String newline ("# date: 2026" +:+ String newline ("lodash" +:+ String newline
      ("Lodash" +:+ String newline ("@types/node" +:+ String "013" (String newline "react")))))).

Example list_ex :
  match example_list with
  | inl p => (pn_Names p, pn_Source p, pn_Date p, Near (fun s => s) p "lodahs", Near (fun s => s) p "@typess/node",
              Near (fun s => s) p "REACT", pn_Label p)
  | inr _ => ([], "", "", None, None, None, "")
  end
  = (["lodash"; "@types/node"; "react"], "x: y", "2026", Some ("lodash", 1), Some ("@types/node", 1), None,
     "embedded list of 3, 2026").
Proof. vm_compute. reflexivity. Qed.

Example git_ex :
  map (GitSimilarityName (fun _ => Some "/kubernetes/kubernetes.git"))
    ["https://github.com/%6bubernetes/kubernetes.git"; "git@github.com:owner/repo.git"; "ssh://h%2Fowner/re%70o/.";
     "git@[2001:db8::1]:owner/repo"; "/srv/git/owner/repo"; "host:repo?x"; "https"]
  = ["kubernetes/kubernetes"; "owner/repo"; "owner/repo"; "owner/repo"; "owner/repo"; "repo?x"; "https"].
Proof. vm_compute. reflexivity. Qed.

(** * Lemmas *)

Lemma lengthGap_le a b : lengthGap a b <= damerauLevenshtein a b.
Proof. apply distance_gap. Qed.

Lemma damerauLevenshtein_nonneg a b : 0 <= damerauLevenshtein a b.
Proof. apply distance_nonneg. Qed.

#[local] Hint Resolve lengthGap_le damerauLevenshtein_nonneg : bodega.

Lemma nameDistance_nonneg eco a b shared : 0 <= nameDistance eco a b shared.
Proof.
  unfold nameDistance. repeat break_goal; auto with bodega; try lia; apply Z.add_nonneg_nonneg; auto with bodega.
Qed.

(** The floor is one: what it prunes cannot beat the best so far. *)
Lemma distanceFloor_le eco a b shared : distanceFloor eco a b <= nameDistance eco a b shared.
Proof.
  unfold distanceFloor, nameDistance.
  destruct (eco =? TypeNpm)%string;
    [destruct (splitNpmScope a), (splitNpmScope b); apply Z.add_le_mono; auto with bodega|].
  destruct (eco =? TypeMaven)%string; [destruct (splitMavenName a), (splitMavenName b)|
    destruct (is_forge eco); [destruct (splitComposerName a), (splitComposerName b)|auto with bodega]].
  - destruct (_ =? _)%string; cbn [andb]; [|apply Z.add_le_mono; auto with bodega].
    repeat case_match; try lia; apply Z.add_nonneg_nonneg; auto with bodega.
  - destruct (_ =? _)%string; cbn [andb]; [|apply Z.add_le_mono; auto with bodega].
    repeat case_match; try lia; apply Z.add_nonneg_nonneg; auto with bodega.
Qed.

(** ** The scan of a list *)

(** The first place of the least element. *)
Definition first_least (ds : list Z) (i : nat) (d : Z) : Prop :=
  ds !! i = Some d /\ (forall j e, ds !! j = Some e -> d <= e) /\ (forall j e, (j < i)%nat -> ds !! j = Some e -> d < e).

Lemma first_least_snoc ds i d e :
  first_least ds i d -> first_least (ds ++ [e]) (if e <? d then length ds else i) (Z.min d e).
Proof.
  intros (Hi & Hall & Hlt). pose proof (lookup_lt_Some _ _ _ Hi) as Hl. destruct (Z.ltb_spec e d) as [He|He].
  - rewrite Z.min_r by lia. split; [|split].
    + rewrite lookup_app_r, Nat.sub_diag by lia. done.
    + intros j x [Hj|[_ Hj]]%lookup_app_Some; [apply Hall in Hj; lia|].
      apply list_lookup_singleton_Some in Hj as [_ <-]. lia.
    + intros j x Hj Hx. rewrite lookup_app_l in Hx by lia. apply Hall in Hx. lia.
  - rewrite Z.min_l by lia. split; [by apply lookup_app_l_Some|split].
    + intros j x [Hj|[_ Hj]]%lookup_app_Some; [by eapply Hall|].
      apply list_lookup_singleton_Some in Hj as [_ <-]. lia.
    + intros j x Hj Hx. rewrite lookup_app_l in Hx by lia. by eapply Hlt.
Qed.

Lemma first_least_unique ds i j d e : first_least ds i d -> first_least ds j e -> i = j /\ d = e.
Proof.
  intros (Hi & Ai & Li) (Hj & Aj & Lj). assert (d = e) as -> by (apply Ai in Hj; apply Aj in Hi; lia).
  split; [|done]. destruct (Nat.lt_trichotomy i j) as [H|[H|H]]; [|done|].
  - specialize (Lj _ _ H Hi). lia.
  - specialize (Li _ _ H Hj). lia.
Qed.

Section nearest.
Variable p : PopularNames.
Variable key : string.

(** The distance of every name of the list. *)
Definition distances (keys : list string) : list Z :=
  (fun k => nameDistance (pn_Ecosystem p) key k (pn_sharedArtifacts p)) <$> keys.

(** What the scan has found in a prefix of the list. *)
Definition scanned (keys names : list string) (st : string * Z) : Prop :=
  (keys = [] /\ st = ("", -1))
  \/ exists i, first_least (distances keys) i st.2 /\ names !! i = Some st.1.

Lemma nearest_step_ok keys names st k name :
  length keys = length names -> scanned keys names st ->
  scanned (keys ++ [k]) (names ++ [name]) (nearest_step p key st (k, name)).
Proof.
  intros Hl. destruct st as [popular best]. pose proof (distanceFloor_le (pn_Ecosystem p) key k (pn_sharedArtifacts p)) as Hf.
  pose proof (nameDistance_nonneg (pn_Ecosystem p) key k (pn_sharedArtifacts p)) as Hn.
  unfold nearest_step. cbv zeta. set (d := nameDistance _ _ _ _) in *. set (fl := distanceFloor _ _ _) in *.
  intros [[-> [= -> ->]]|(i & Hi & Hname)]; right.
  - cbn. exists 0%nat. destruct names; [|done]. split; [|done]. split; [done|split].
    + intros j e Hj. apply list_lookup_singleton_Some in Hj as [_ <-]. unfold d. lia.
    + intros j e Hj. lia.
  - cbn [fst snd] in *. assert (Hb : 0 <= best).
    { destruct Hi as [Hi _]. apply list_lookup_fmap_Some in Hi as (k' & -> & _). apply nameDistance_nonneg. }
    pose proof (first_least_snoc _ _ _ d Hi) as Hs.
    assert (Hds : distances keys ++ [d] = distances (keys ++ [k])) by (unfold distances; by rewrite fmap_app).
    rewrite Hds in Hs. unfold distances in Hs at 2. rewrite length_fmap, Hl in Hs.
    rewrite (proj2 (Z.leb_le 0 best)) by done. rewrite (proj2 (Z.ltb_ge best 0)) by done. cbn [andb orb].
    destruct (best <=? fl) eqn:Ef; [|destruct (d <? best) eqn:Ed].
    + exists i. rewrite (proj2 (Z.ltb_ge d best)), Z.min_l in Hs by lia. split; [done|].
      by apply lookup_app_l_Some.
    + exists (length names). rewrite Z.min_r in Hs by lia. split; [done|]. cbn.
      by rewrite lookup_app_r, Nat.sub_diag by lia.
    + exists i. rewrite Z.min_l in Hs by lia. split; [done|]. by apply lookup_app_l_Some.
Qed.

Lemma nearest_loop keys names : forall ks ns st,
  length ks = length ns -> length keys = length names -> scanned keys names st ->
  scanned (keys ++ ks) (names ++ ns) (foldl (nearest_step p key) st (zip ks ns)).
Proof.
  intros ks. revert keys names. induction ks as [|k ks IH]; intros keys names [|n ns] st Hl Hk Hs; try done.
  - by rewrite !List.app_nil_r.
  - cbn [zip zip_with foldl]. rewrite (cons_middle k), (cons_middle n), !List.app_assoc.
    apply IH; [by injection Hl|rewrite !length_app, Hk; done|]. by apply nearest_step_ok.
Qed.
End nearest.

Section facts.
Variable lower_unicode : string -> string.

#[local] Abbreviation norm := (NormalizeName lower_unicode).

Lemma Nearest_found p name :
  length (pn_keys p) = length (pn_Names p) -> pn_keys p <> [] ->
  exists i d popular,
    first_least (distances p (norm (pn_Ecosystem p) name) (pn_keys p)) i d
    /\ pn_Names p !! i = Some popular /\ Nearest lower_unicode p name = (popular, d, true).
Proof.
  intros Hl Hne. unfold Nearest. cbv zeta. set (key := norm _ _).
  destruct (nearest_loop p key [] [] (pn_keys p) (pn_Names p) ("", -1) Hl eq_refl ltac:(by left))
    as [[? _]|(i & Hi & Hn)]; [done|].
  cbn [app] in *. destruct (foldl _ _ _) as [popular best]. cbn [fst snd] in *.
  exists i, best, popular. split; [done|split; [done|]]. rewrite (proj2 (Z.leb_le 0 best)); [done|].
  destruct Hi as [Hi _]. apply list_lookup_fmap_Some in Hi as (k & -> & _). apply nameDistance_nonneg.
Qed.

Lemma Nearest_empty p name : pn_keys p = [] -> Nearest lower_unicode p name = ("", -1, false).
Proof. intros H. unfold Nearest. by rewrite H. Qed.

(** A name is near exactly when it is not listed and some listed name is within
    the reach of the check. *)
Lemma Near_spec p name :
  length (pn_keys p) = length (pn_Names p) ->
  is_Some (Near lower_unicode p name) <->
  (norm (pn_Ecosystem p) name ∉ pn_set p)
  /\ exists k, k ∈ pn_keys p
       /\ nameDistance (pn_Ecosystem p) (norm (pn_Ecosystem p) name) k (pn_sharedArtifacts p) <= MaxSimilarityDistance.
Proof.
  intros Hl. unfold Near, pn_Contains. case_bool_decide as Hc; [split; [by intros []|by intros [? _]]|].
  destruct (decide (pn_keys p = [])) as [He|Hne].
  - rewrite Nearest_empty by done. cbn. split; [by intros []|]. rewrite He. intros (_ & k & Hk & _).
    by apply not_elem_of_nil in Hk.
  - destruct (Nearest_found p name Hl Hne) as (i & d & popular & (Hi & Hall & _) & _ & ->). cbn.
    apply list_lookup_fmap_Some in Hi as (k & Hd & Hk).
    destruct (Z.ltb_spec MaxSimilarityDistance d) as [Hfar|Hnear].
    + split; [by intros []|]. intros (_ & k' & Hk' & Hd'). exfalso.
      apply list_elem_of_lookup_1 in Hk' as (j & Hj).
      assert (Hle : d <= nameDistance (pn_Ecosystem p) (norm (pn_Ecosystem p) name) k' (pn_sharedArtifacts p)).
      { apply (Hall j). unfold distances. by rewrite list_lookup_fmap, Hj. }
      lia.
    + split; [|by eauto]. intros _. split; [done|]. exists k.
      split; [by eapply list_elem_of_lookup_2|]. by rewrite <- Hd.
Qed.

(** ** Lists that were read *)

(** Names and keys go together, without a repeated key, and the set holds the
    keys. *)
Record list_wf (p : PopularNames) : Prop := {
  lw_keys : pn_keys p = norm (pn_Ecosystem p) <$> pn_Names p;
  lw_nodup : NoDup (pn_keys p);
  lw_set : forall k, k ∈ pn_set p <-> k ∈ pn_keys p
}.

Lemma list_line_wf line raw p p' : list_wf p -> list_line lower_unicode line raw p = inl p' ->
  list_wf p' /\ pn_Ecosystem p' = pn_Ecosystem p.
Proof.
  intros [Hk Hn Hs]. unfold list_line. destruct (TrimSpace raw =? "")%string; [by intros [= <-]|].
  destruct (cut_prefix (TrimSpace raw) "#") as [c|].
  - intros [= <-]. unfold header_line. destruct (cut_or_whole ":" c) as [k v].
    by repeat (destruct (_ =? _)%string; [done|]).
  - unfold name_line. destruct (negb _); [done|]. cbv zeta. case_bool_decide as Hin; intros [= <-]; [done|].
    split; [|done]. split; cbn.
    + by rewrite fmap_app, Hk.
    + apply NoDup_app. split; [done|]. split; [|apply NoDup_singleton].
      intros k Hk' Hk1. rewrite elem_of_cons, elem_of_nil in Hk1. destruct Hk1 as [->|[]]. apply Hin. by apply Hs.
    + intros k. rewrite elem_of_union, elem_of_singleton, elem_of_app, elem_of_cons, elem_of_nil, Hs. tauto.
Qed.

Lemma list_lines_wf lines : forall line p p',
  list_wf p -> list_lines lower_unicode line lines p = inl p' -> list_wf p' /\ pn_Ecosystem p' = pn_Ecosystem p.
Proof.
  induction lines as [|[raw|] lines IH]; intros line p p' Hp; cbn; [by intros [= <-]| |done].
  destruct (list_line lower_unicode line raw p) as [q|] eqn:E; [|done]. intros H.
  destruct (list_line_wf _ _ _ _ Hp E) as [Hq Heq]. destruct (IH _ _ _ Hq H) as [Hp' ?]. split; [done|congruence].
Qed.

Lemma parsed_wf sha256 ecosystem data p :
  ParsePopularNames lower_unicode sha256 ecosystem data = inl p ->
  list_wf p /\ pn_Ecosystem p = ecosystem /\ pn_Names p <> [] /\ pn_sharedArtifacts p = shared_of ecosystem (pn_keys p).
Proof.
  unfold ParsePopularNames. destruct (list_lines _ _ _ _) as [q|] eqn:E; [|done].
  apply list_lines_wf in E as [[Hk Hn Hs] He]; cycle 1.
  { split; [done|constructor|]. intros k. cbn. rewrite elem_of_empty, elem_of_nil. tauto. }
  cbn in He. destruct (length (pn_Names q) =? 0)%nat eqn:El; [done|]. intros [= <-]. cbn.
  split; [by split|]. split; [done|]. split; [|done]. intros Hnil. by rewrite Hnil in El.
Qed.

Lemma list_wf_lengths p : list_wf p -> length (pn_keys p) = length (pn_Names p).
Proof. intros [-> _ _]. apply length_fmap. Qed.
End facts.

(** * Properties *)

(** The scan that prunes finds what a scan of every name finds: the name
    it returns is the first of the list at the least distance, its distance is
    that minimum, and only an empty list gives none.  The lower bound it prunes
    by is one, and the most popular of several equally near names wins. *)
Theorem Nearest_first_minimum lower_unicode p name :
  length (pn_keys p) = length (pn_Names p) ->
  let ds := distances p (NormalizeName lower_unicode (pn_Ecosystem p) name) (pn_keys p) in
  (forall popular d ok, Nearest lower_unicode p name = (popular, d, ok) ->
     ok = true <-> pn_keys p <> [])
  /\ (forall i d popular,
        Nearest lower_unicode p name = (popular, d, true) ->
        first_least ds i d -> pn_Names p !! i = Some popular)
  /\ (pn_keys p <> [] -> exists i popular d, first_least ds i d /\ Nearest lower_unicode p name = (popular, d, true)).
Proof.
  intros Hl ds. destruct (decide (pn_keys p = [])) as [He|Hne].
  - pose proof (Nearest_empty lower_unicode p name He) as E. rewrite E. split; [|split; [|done]].
    + intros popular d ok [= <- <- <-]. done.
    + by intros.
  - destruct (Nearest_found lower_unicode p name Hl Hne) as (i & d & popular & Hi & Hn & E). rewrite E.
    split; [|split].
    + by intros ? ? ? [= <- <- <-].
    + intros j e q [= <- <-] Hj. destruct (first_least_unique _ _ _ _ _ Hi Hj) as [-> _]. done.
    + intros _. by exists i, popular, d.
Qed.

Definition two_names : PopularNames :=
  match ParsePopularNames (fun s => s) (fun _ => "") TypeNpm ("lodash" +:+ String newline "react") with
  | inl p => p
  | inr _ => MkPopular "" [] [] ∅ ∅ "" "" false ""
  end.

Lemma Nearest_first_minimum_witness :
  exists i popular d,
    first_least (distances two_names (NormalizeName (fun s => s) (pn_Ecosystem two_names) "lodahs")
                   (pn_keys two_names)) i d
    /\ Nearest (fun s => s) two_names "lodahs" = (popular, d, true).
Proof.
  destruct (Nearest_first_minimum (fun s => s) two_names "lodahs") as (_ & _ & H); [vm_compute; reflexivity|].
  apply H. vm_compute. discriminate.
Defined.

(** The check blocks a name exactly when its ecosystem is one it compares,
    there is a store, its action is block, a list is in force, the compared
    name is not empty and not itself listed, some listed name is within two
    edits of it, and neither an exact rule nor the baseline exempts it.  An
    error in any read warns and never blocks. *)
Theorem check_name_blocks lower_unicode embedded store typ name compared :
  (forall p, LoadPopularNames embedded store typ = inl (Some p) -> length (pn_keys p) = length (pn_Names p)) ->
  r_Action (check_name lower_unicode embedded store typ name compared) = ActionBlock <->
  (typ ∈ SimilarityEcosystems) /\ exists st p,
    store = Some st /\ SimilarityAction store typ = inl ActionBlock
    /\ LoadPopularNames embedded store typ = inl (Some p) /\ compared <> ""
    /\ (NormalizeName lower_unicode (pn_Ecosystem p) compared ∉ pn_set p)
    /\ (exists k, k ∈ pn_keys p
          /\ nameDistance (pn_Ecosystem p) (NormalizeName lower_unicode (pn_Ecosystem p) compared) k
               (pn_sharedArtifacts p) <= MaxSimilarityDistance)
    /\ exemption lower_unicode st typ name = inl "".
Proof.
  intros Hlen. unfold check_name. rewrite <- slice_contains_spec.
  destruct (slice_contains SimilarityEcosystems typ); cbn [negb]; [|by split; [|intros []]].
  destruct store as [st|]; [|split; [done|by intros (_ & ? & ? & ? & _)]].
  destruct (SimilarityAction (Some st) typ) as [action|err] eqn:Ea;
    [|split; [done|by intros (_ & ? & ? & _ & ? & _)]].
  destruct (LoadPopularNames embedded (Some st) typ) as [[p|]|err] eqn:Ep;
    [|split; [done|by intros (_ & ? & ? & _ & _ & ? & _)]..].
  pose proof (Near_spec lower_unicode p compared (Hlen p eq_refl)) as Hnear.
  unfold judge_name. destruct (String.eqb_spec compared "") as [->|Hne].
  { split; [done|]. by intros (_ & ? & ? & _ & _ & _ & ? & _). }
  unfold pn_Contains. case_bool_decide as Hc.
  { split; [done|]. intros (_ & st' & p' & _ & _ & [= <-] & _ & ? & _). done. }
  destruct (Near lower_unicode p compared) as [[popular distance]|].
  - unfold near_result. destruct Hnear as [Hnear _]. specialize (Hnear ltac:(done)) as [_ Hk].
    destruct (exemption lower_unicode st typ name) as [exempt|err] eqn:Ex;
      [|split; [done|by intros (_ & st' & ? & [= <-] & _ & _ & _ & _ & _ & ?); congruence]].
    destruct (String.eqb_spec exempt "") as [->|Hx]; cbn [negb].
    + destruct (String.eqb_spec action ActionBlock) as [->|Hb].
      * split; [|done]. intros _. split; [done|]. by exists st, p.
      * split; [|by intros (_ & ? & ? & _ & [= ?] & _)]. cbn.
        unfold one_of, slice_contains. cbn [existsb].
        rewrite (proj2 (String.eqb_neq ActionBlock action)) by done. cbn [orb].
        destruct (String.eqb_spec ActionIgnore action) as [<-|]; done.
    + split; [done|]. intros (_ & st' & ? & [= <-] & _ & _ & _ & _ & _ & Hx'). rewrite Ex in Hx'. by injection Hx'.
  - split; [done|]. intros (_ & st' & p' & _ & _ & [= <-] & _ & Hs & Hk & _).
    destruct Hnear as [_ Hnear]. by destruct (Hnear (conj Hs Hk)).
Qed.

Definition blocking_store : SimilarityStore :=
  MkSimilarityStore (fun _ => Found ActionBlock) (fun _ => NotFound) (fun _ => inl []) (inl None)
    (fun _ _ => inl false).

Lemma check_name_blocks_witness :
  r_Action (check_name (fun s => s) (fun _ => Some two_names) (Some blocking_store) TypeNpm "lodahs" "lodahs")
  = ActionBlock.
Proof.
  apply (check_name_blocks (fun s => s) (fun _ => Some two_names) (Some blocking_store) TypeNpm "lodahs" "lodahs").
  - intros p H. apply (f_equal (fun r => match r with inl (Some q) => q | _ => two_names end)) in H.
    change (two_names = p) in H. rewrite <- H. vm_compute. reflexivity.
  - split; [apply slice_contains_spec; reflexivity|]. exists blocking_store, two_names.
    split; [reflexivity|split; [reflexivity|split; [reflexivity|split; [discriminate|split]]]].
    + refine (bool_decide_eq_false_1 _ _). vm_compute. reflexivity.
    + split; [|reflexivity]. exists "lodash". split; [|vm_compute; discriminate].
      apply list_elem_of_lookup_2 with 0%nat. vm_compute. reflexivity.
Defined.

(** A list that was read names each package once: its names and their
    normalized forms go together, no form repeats, the set looked up holds
    exactly those forms, and it is never empty, so the scan always finds a
    nearest name. *)
Theorem ParsePopularNames_wf lower_unicode sha256 ecosystem data p :
  ParsePopularNames lower_unicode sha256 ecosystem data = inl p ->
  list_wf lower_unicode p /\ pn_Ecosystem p = ecosystem /\ pn_Names p <> []
  /\ forall name, exists popular d, Nearest lower_unicode p name = (popular, d, true) /\ popular ∈ pn_Names p.
Proof.
  intros H. destruct (parsed_wf _ _ _ _ _ H) as (Hwf & He & Hne & _).
  pose proof (list_wf_lengths _ _ Hwf) as Hl. split; [done|split; [done|split; [done|]]]. intros name.
  destruct (Nearest_found lower_unicode p name Hl) as (i & d & popular & _ & Hn & E).
  - intros Hk. rewrite Hk in Hl. by destruct (pn_Names p).
  - exists popular, d. split; [done|]. by eapply list_elem_of_lookup_2.
Qed.

Lemma ParsePopularNames_wf_witness :
  exists p, ParsePopularNames (fun s => s) (fun _ => "") TypeNpm ("lodash" +:+ String newline "react") = inl p
            /\ NoDup (pn_keys p).
Proof.
  destruct (ParsePopularNames (fun s => s) (fun _ => "") TypeNpm ("lodash" +:+ String newline "react")) as [p|] eqn:E.
  - exists p. split; [reflexivity|]. apply (ParsePopularNames_wf _ _ _ _ _ E).
  - exfalso. vm_compute in E. discriminate E.
Defined.
