(* ===== verification/Gate.v ===== *)
(** The admission gate: the evaluation of internal/admit/record.go, the
    baseline marks of internal/admit/baseline.go, the verdicts of
    internal/policy/checks.go and the version checks and the fetch decision of
    internal/admit/admit.go.

    A checker is its answers: what [Check] says about a version, whether it is
    scoped to types, whether it names its own check, and what its [Commit]
    changes once the admission is decided.  An index of -1 ("every version")
    is [None].  What is written to the audit database is returned: the events
    of a check run, and the admission row. *)

From stdpp Require Import base list gmap strings sorting.
From Stdlib Require Import ZArith Lia Ascii Sorted.
From S2P Require Import Prelude GoStrings GoSort Types Override AdmitOverride.

(** ** Checkers and verdicts *)

Record VersionChecker := MkChecker {
  vc_Check : PackageManifest -> VersionEntry -> Result;
  vc_AppliesTo : option (string -> bool);
  vc_ActionChecker : option (string * (string -> string));
  vc_Commit : list (nat * Result)
}.

Record Combined := MkCombined { Warns : list Result; Blocks : list Result }.

(** [Combine]: one result at a time, in order. *)
Definition combine_step (out : Combined) (r : Result) : Combined :=
  if slice_contains [""; ActionPass; ActionIgnore; ActionNotEvaluated] (r_Action r) then out
  else if (r_Action r =? ActionWarn)%string then MkCombined (Warns out ++ [r]) (Blocks out)
  else if (r_Action r =? ActionBlock)%string then MkCombined (Warns out) (Blocks out ++ [r])
  else out.

Definition Combine (results : list Result) : Combined :=
  fold_left combine_step results (MkCombined [] []).

Definition Blocked (c : Combined) : bool := (0 <? length (Blocks c))%nat.

Definition Reasons (c : Combined) : string :=
  Join (map (fun r => r_Check r +:+ ": " +:+ r_Reason r) (Blocks c)
        ++ map (fun r => r_Check r +:+ ": " +:+ r_Reason r +:+ " (warn)") (Warns c)) "; ".

(** ** The evaluation *)

(** The two read errors only add a warning to the result and are left out: a
    digest that could not be read is the empty one, and overrides that could
    not be read are none. *)
Record evaluation := MkEvaluation {
  ev_checks : list (list AdmissionCheck);
  ev_versionChecks : list string;
  ev_digest : string;
  ev_actions : gmap string string;
  ev_overrides : gmap string Override
}.

Definition set_checks (cs : list (list AdmissionCheck)) (ev : evaluation) : evaluation :=
  MkEvaluation cs (ev_versionChecks ev) (ev_digest ev) (ev_actions ev) (ev_overrides ev).

(** What the policy tables answer; [None] is a read that failed, and a policy
    that is not set leaves the default. *)
Record policy_reads := MkReads {
  pr_provenance : option string;
  pr_similarity : option string;
  pr_age : option (option string);
  pr_osv : option (option string);
  pr_digest : string;
  pr_overrides : gmap string Override
}.

Definition read_action (check : string) (answer : option (option string)) (m : gmap string string)
  : gmap string string :=
  match answer with
  | Some (Some a) => <[check := a]> m
  | Some None => m
  | None => <[check := "unknown"]> m
  end.

Definition readActions (reads : policy_reads) (m : gmap string string) : gmap string string :=
  read_action CheckOSV (pr_osv reads)
    (read_action CheckAge (pr_age reads)
       (<[CheckNameSimilarity := default "unknown" (pr_similarity reads)]>
          (<[CheckUpstreamProvenance := default "unknown" (pr_provenance reads)]> m))).

Definition default_actions : gmap string string :=
  list_to_map [(CheckAge, ActionNone); (CheckOSV, ActionNone);
               (CheckUpstreamProvenance, ActionWarn); (CheckNameSimilarity, ActionWarn)].

(** [slices.Insert(vs, slices.Index(vs, x)+1, y)] *)
Fixpoint insert_after (x y : string) (vs : list string) : list string :=
  match vs with
  | [] => [y]
  | v :: vs => if (v =? x)%string then v :: y :: vs else v :: insert_after x y vs
  end.

Definition newEvaluation (adb : option policy_reads) (pm : PackageManifest) : evaluation :=
  let gomod := (pm_Type pm =? TypeGomod)%string in
  let checks := repeat [] (Nat.max (length (pm_Versions pm)) 1) in
  let names := if gomod then insert_after CheckUpstreamProvenance CheckChecksumDatabase versionChecks
               else versionChecks in
  let actions := if gomod then <[CheckChecksumDatabase := ActionBlock]> default_actions
                 else default_actions in
  match adb with
  | None => MkEvaluation checks names "" actions ∅
  | Some reads =>
      MkEvaluation checks names (pr_digest reads) (readActions reads actions) (pr_overrides reads)
  end.

(** [include]: the checks that name themselves. *)
Definition include_one (typ : string) (ev : evaluation) (c : VersionChecker) : evaluation :=
  match vc_ActionChecker c with
  | None => ev
  | Some (name, action) =>
      if slice_contains (ev_versionChecks ev) name then ev
      else MkEvaluation (ev_checks ev) (ev_versionChecks ev ++ [name]) (ev_digest ev)
             (<[name := action typ]> (ev_actions ev)) (ev_overrides ev)
  end.

Definition include (pm : PackageManifest) (checkers : list VersionChecker) (ev : evaluation) : evaluation :=
  fold_left (include_one (pm_Type pm)) checkers ev.

Definition ev_allChecks (ev : evaluation) : list string := CheckAllowList :: ev_versionChecks ev.

(** ** Recording verdicts *)

Fixpoint upsertCheck (checks : list AdmissionCheck) (c : AdmissionCheck) (keep : bool)
  : list AdmissionCheck :=
  match checks with
  | [] => [c]
  | x :: rest =>
      if (ac_Check x =? ac_Check c)%string then (if keep then x else c) :: rest
      else x :: upsertCheck rest c keep
  end.

Definition at_indexes (i : option nat) (f : list AdmissionCheck -> list AdmissionCheck) (ev : evaluation)
  : evaluation :=
  set_checks
    (match i with
     | Some j => alter f j (ev_checks ev)
     | None => map f (ev_checks ev)
     end) ev.

Definition ev_set (i : option nat) (c : AdmissionCheck) (ev : evaluation) : evaluation :=
  at_indexes i (fun checks => upsertCheck checks c false) ev.

Definition notRunCheck (ev : evaluation) (name detail : string) : AdmissionCheck :=
  let action := map_get (ev_actions ev) name in
  let action := if (name =? CheckAllowList)%string || (action =? "")%string then ActionNone else action in
  MkCheck name action CheckNotEvaluated detail None None "" "".

Definition notRunChecks (i : option nat) (detail : string) (names : list string) (ev : evaluation)
  : evaluation :=
  at_indexes i (fun checks =>
    fold_left (fun checks name => upsertCheck checks (notRunCheck ev name detail) true) names checks) ev.

Definition notRun (detail : string) (ev : evaluation) : evaluation :=
  notRunChecks None detail (ev_allChecks ev) ev.

Definition notRunAfter (i : nat) (detail : string) (ev : evaluation) : evaluation :=
  fold_left (fun ev j => notRunChecks (Some j) detail (ev_allChecks ev) ev)
    (seq (S i) (length (ev_checks ev) - S i))
    (notRunChecks (Some i) detail (ev_versionChecks ev) ev).

(** ** Admitting past a failure *)

Definition admissionVersion (ve : VersionEntry) : string :=
  if negb (ve_Version ve =? "")%string then ve_Version ve else ve_Ref ve.

Definition overrideFor (ev : evaluation) (pm : PackageManifest) (i : nat) (check : string)
  : option Override :=
  match pm_Versions pm !! i with
  | None => None
  | Some ve => ev_overrides ev !! override_key (admissionVersion ve) check
  end.

Section gate.
Context (rfc3339 : Z -> string).

Definition overrideCheck (ev : evaluation) (pm : PackageManifest) (i : nat) (c : AdmissionCheck)
  : option AdmissionCheck :=
  if negb (ac_Status c =? CheckBlock)%string then None
  else match overrideFor ev pm i (ac_Check c) with
       | Some o => Some (OverriddenCheck rfc3339 c o)
       | None => None
       end.

Definition BaselineCheck (ve : VersionEntry) (c : AdmissionCheck) : option AdmissionCheck :=
  if negb (ac_Status c =? CheckBlock)%string || negb (ve_Baseline ve) then None
  else Some (MkCheck (ac_Check c) (ac_Action c) CheckBaseline
               (ac_Detail c +:+ "; admitted as baseline (marked " +:+ ve_BaselineAt ve +:+ ")")
               (ac_Provenance c) (ac_ChecksumDatabase c) (ac_Override c) (ac_Unwaivable c)).

Definition admitPast (ev : evaluation) (pm : PackageManifest) (i : nat) (c : AdmissionCheck)
  : option AdmissionCheck :=
  match overrideCheck ev pm i c with
  | Some oc => Some oc
  | None => match pm_Versions pm !! i with Some ve => BaselineCheck ve c | None => None end
  end.

Definition result_status (r : Result) : string :=
  if (r_Action r =? ActionWarn)%string then CheckWarn
  else if (r_Action r =? ActionBlock)%string then CheckBlock
  else if (r_Action r =? ActionNotEvaluated)%string then CheckNotEvaluated
  else CheckPass.

Definition setResult (ev : evaluation) (pm : PackageManifest) (i : nat) (r : Result)
  : evaluation * Result :=
  let action := map_get (ev_actions ev) (r_Check r) in
  let action := if (action =? "")%string then ActionNone else action in
  let c := MkCheck (r_Check r) action (result_status r) (r_Reason r) (r_Provenance r)
             (r_ChecksumDatabase r) "" "" in
  if (result_status r =? CheckBlock)%string then
    let why := notOverridable r in
    if (why =? "")%string then
      match admitPast ev pm i c with
      | Some oc =>
          (ev_set (Some i) oc ev,
           MkResult (r_Check r) ActionPass "" ∅ (r_Provenance r) (r_ChecksumDatabase r))
      | None => (ev_set (Some i) c ev, r)
      end
    else
      let detail := ac_Detail c +:+
        (match overrideFor ev pm i (r_Check r) with
         | Some o => "; override " +:+ o_ID o +:+ " does not apply: " +:+ why
         | None => ""
         end) +:+
        (match pm_Versions pm !! i with
         | Some ve => if ve_Baseline ve then "; the baseline mark does not apply: " +:+ why else ""
         | None => ""
         end) in
      (ev_set (Some i) (MkCheck (ac_Check c) (ac_Action c) (ac_Status c) detail (ac_Provenance c)
                          (ac_ChecksumDatabase c) "" why) ev, r)
  else (ev_set (Some i) c ev, r).

(** [runVersion]: every checker that applies, in order. *)
Fixpoint runVersion (ev : evaluation) (pm : PackageManifest) (i : nat) (checkers : list VersionChecker)
  : evaluation * list Result :=
  match checkers with
  | [] => (ev, [])
  | c :: checkers =>
      let skip := match vc_AppliesTo c with Some f => negb (f (pm_Type pm)) | None => false end in
      if skip then runVersion ev pm i checkers
      else
        let ve := default zero_entry (pm_Versions pm !! i) in
        let '(ev, r) := setResult ev pm i (vc_Check c pm ve) in
        let '(ev, rs) := runVersion ev pm i checkers in
        (ev, r :: rs)
  end.

(** [commit]: what each checker's write changes is recorded and decided again;
    the results are kept per version. *)
Fixpoint commit_one (ev : evaluation) (pm : PackageManifest) (changes : list (nat * Result))
  (out : list (list Result)) : evaluation * list (list Result) :=
  match changes with
  | [] => (ev, out)
  | (i, r) :: changes =>
      if (i <? length (pm_Versions pm))%nat then
        let '(ev, r) := setResult ev pm i r in
        commit_one ev pm changes (alter (fun rs => rs ++ [r]) i out)
      else commit_one ev pm changes out
  end.

Fixpoint commit_all (ev : evaluation) (pm : PackageManifest) (checkers : list VersionChecker)
  (out : list (list Result)) : evaluation * list (list Result) :=
  match checkers with
  | [] => (ev, out)
  | c :: checkers =>
      let '(ev, out) := commit_one ev pm (vc_Commit c) out in
      commit_all ev pm checkers out
  end.

(** A version with no change has the empty list, Go's nil slice. *)
Definition commit (ev : evaluation) (pm : PackageManifest) (checkers : list VersionChecker)
  : evaluation * list (list Result) :=
  commit_all ev pm checkers (repeat [] (length (pm_Versions pm))).
End gate.

(** ** The row of a version *)

Record Admission := MkAdmission {
  ad_ID : Z;
  ad_PkgType : string;
  ad_PkgName : string;
  ad_PkgVersion : string;
  ad_ObjectKey : string;
  ad_Decision : string;
  ad_Checks : list AdmissionCheck;
  ad_PolicyDigest : string;
  ad_Actor : string;
  ad_Identity : string;
  ad_DecidedAt : option Z
}.

Record Who := MkWho { w_Actor : string; w_Identity : string }.

Definition checkRank (name : string) : Z :=
  if (name =? CheckAllowList)%string then 0
  else if (name =? CheckOverride)%string then 1
  else if (name =? CheckAge)%string then 2
  else if (name =? CheckOSV)%string then 3
  else if (name =? CheckUpstreamProvenance)%string then 4
  else if (name =? CheckChecksumDatabase)%string then 5
  else if (name =? CheckNameSimilarity)%string then 6
  else 7.

Definition rank_less (a b : AdmissionCheck) : bool := checkRank (ac_Check a) <? checkRank (ac_Check b).

Definition sort_checks (checks : list AdmissionCheck) : list AdmissionCheck := SliceStable rank_less checks.

Definition row_checks (ev : evaluation) (pm : PackageManifest) (i : nat) : list AdmissionCheck :=
  let fill := if (length (pm_Versions pm) =? 0)%nat then "not run: the manifest names no version"
              else "not run" in
  fold_left (fun checks name => upsertCheck checks (notRunCheck ev name fill) true) (ev_allChecks ev)
    (default [] (ev_checks ev !! i)).

Definition row (ev : evaluation) (pm : PackageManifest) (i : nat) (decision : string) (who : Who)
  : Admission :=
  MkAdmission 0 (pm_Type pm) (pm_Name pm)
    (match pm_Versions pm !! i with Some ve => admissionVersion ve | None => "" end) "" decision
    (sort_checks (row_checks ev pm i)) (ev_digest ev) (w_Actor who) (w_Identity who) None.

(** ** Deciding *)

Definition AdmissionAdmitted := "admitted".
Definition AdmissionPolicyBlocked := "policy_blocked".

(** The refusal of a version: which block is named, and of which version. *)
Record refusal := MkRefusal {
  rf_version : string;
  rf_reason : string;
  rf_block : option Result
}.

(** The event a version's warns and blocks leave in the audit log. *)
Record policy_event := MkEvent { pe_version : string; pe_status : string }.

Record run_state := MkRun {
  rs_ev : evaluation;
  rs_warns : list (string * Result);
  rs_events : list policy_event
}.

(** [decide] on the results of version [i]. *)
Definition decide_version (pm : PackageManifest) (i : nat) (results : list Result) (st : run_state)
  : run_state * option refusal :=
  let ve := default zero_entry (pm_Versions pm !! i) in
  let combined := Combine results in
  let warns := rs_warns st ++ map (fun r => (ve_Version ve, r)) (Warns combined) in
  let events :=
    if (length (Warns combined) =? 0)%nat && (length (Blocks combined) =? 0)%nat then rs_events st
    else rs_events st ++
           [MkEvent (ve_Version ve) (if Blocked combined then "policy_violation" else "policy_warn")] in
  if Blocked combined then
    (MkRun (notRunAfter i ("not run: " +:+ admissionVersion ve +:+ " was refused first") (rs_ev st))
       warns events,
     Some (MkRefusal (ve_Version ve)
             ("policy blocked " +:+ pm_Name pm +:+ "@" +:+ ve_Version ve +:+ ": " +:+ Reasons combined)
             (reportedBlock (Blocks combined))))
  else (MkRun (rs_ev st) warns events, None).

Section decisions.
Context (rfc3339 : Z -> string).

(** The versions from [i] on, [n] of them. *)
Fixpoint check_each (pm : PackageManifest) (checkers : list VersionChecker) (i n : nat) (st : run_state)
  : run_state * option refusal :=
  match n with
  | O => (st, None)
  | S n =>
      let '(ev, results) := runVersion rfc3339 (rs_ev st) pm i checkers in
      match decide_version pm i results (MkRun ev (rs_warns st) (rs_events st)) with
      | (st, Some refused) => (st, Some refused)
      | (st, None) => check_each pm checkers (S i) n st
      end
  end.

Fixpoint decide_changes (pm : PackageManifest) (i : nat) (changes : list (list Result)) (st : run_state)
  : run_state * option refusal :=
  match changes with
  | [] => (st, None)
  | changed :: changes =>
      if (length changed =? 0)%nat then decide_changes pm (S i) changes st
      else match decide_version pm i changed st with
           | (st, Some refused) => (st, Some refused)
           | (st, None) => decide_changes pm (S i) changes st
           end
  end.

Definition checkVersions (adb : bool) (pm : PackageManifest) (checkers : list VersionChecker)
  (ev : evaluation) : run_state * option refusal :=
  let st := MkRun ev [] [] in
  if negb adb then (st, None)
  else
    match check_each pm checkers 0 (length (pm_Versions pm)) st with
    | (st, Some refused) => (st, Some refused)
    | (st, None) =>
        let '(ev, changes) := commit rfc3339 (rs_ev st) pm checkers in
        decide_changes pm 0 changes (MkRun ev (rs_warns st) (rs_events st))
    end.

(** Less the random incident id a block carries and the JSON rendering of the
    warns and blocks. *)
Record FetchResult := MkFetch {
  fr_Admission : option Admission;
  fr_Block : option Result;
  fr_Warns : list Result
}.

(** Each entry of [changed] in place of the one for the same check. *)
Definition replaceResults (results changed : list Result) : list Result :=
  fold_left (fun out c => map (fun x => if (r_Check x =? r_Check c)%string then c else x) out)
    changed results.

(** [checkers] nil is [None]. *)
Definition Fetch (adb : option policy_reads) (checkers : option (list VersionChecker)) (typ name : string)
  (ve : VersionEntry) (allow : AdmissionCheck) (who : Who) (notRunDetail : string) : FetchResult :=
  match adb with
  | None => MkFetch None None []
  | Some _ =>
      let pm := MkPackageManifest 0 name typ "" "" "" [] [ve] in
      let ev := ev_set (Some 0%nat) allow (include pm (default [] checkers) (newEvaluation adb pm)) in
      if (ac_Status allow =? CheckBlock)%string then
        let ev := notRunChecks (Some 0%nat) "not run: the allow-list refused this version"
                    (ev_versionChecks ev) ev in
        MkFetch (Some (row ev pm 0 AdmissionPolicyBlocked who)) None []
      else
        match checkers with
        | None =>
            let detail := if (notRunDetail =? "")%string then "not run" else notRunDetail in
            let ev := notRunChecks (Some 0%nat) detail (ev_versionChecks ev) ev in
            MkFetch (Some (row ev pm 0 AdmissionAdmitted who)) None []
        | Some checkers =>
            let '(ev, results) := runVersion rfc3339 ev pm 0 checkers in
            let ev := if negb (notRunDetail =? "")%string
                      then notRunChecks (Some 0%nat) notRunDetail (ev_versionChecks ev) ev else ev in
            let combined := Combine results in
            let '(ev, combined) :=
              if negb (Blocked combined) then
                let '(ev, changes) := commit rfc3339 ev pm checkers in
                (ev, Combine (replaceResults results (default [] (changes !! 0%nat))))
              else (ev, combined) in
            let block := if Blocked combined then reportedBlock (Blocks combined) else None in
            let decision := if Blocked combined then AdmissionPolicyBlocked else AdmissionAdmitted in
            MkFetch (Some (row ev pm 0 decision who)) block (Warns combined)
        end
  end.
End decisions.

(** ** Baseline marks *)

Definition set_baseline (b : bool) (at_ : string) (ve : VersionEntry) : VersionEntry :=
  MkVersionEntry (ve_Version ve) (ve_URL ve) (ve_Mode ve) (ve_VersionConstraint ve) (ve_Ref ve)
    (ve_Source ve) (ve_SourceName ve) (ve_SourcePackage ve) (ve_CaptureSuite ve) (ve_BuildCmd ve)
    (ve_DebGlob ve) (ve_Suites ve) (ve_Classifiers ve) (ve_Generated ve) (ve_Filename ve)
    (ve_SHA256 ve) (ve_AppVersion ve) (ve_RequiredBy ve) (ve_Checksum ve) (ve_ChecksumVerified ve)
    (ve_Platform ve) (ve_BuildEnv ve) (ve_Hidden ve) (ve_ArtifactSize ve) (ve_Dependencies ve)
    (ve_NpmBin ve) (ve_PublishedAt ve) (ve_ArtifactDigest ve) (ve_Frozen ve) b at_
    (ve_Storage ve) (ve_Description ve) (ve_Metadata ve).

Definition MarkBaseline (pm : PackageManifest) (at_ : string) : PackageManifest :=
  set_Versions (map (set_baseline true at_) (pm_Versions pm)) pm.

(** The entry a key holds: the last marked one. *)
Definition held_step (m : gmap string string) (ve : VersionEntry) : gmap string string :=
  if ve_Baseline ve then <[admissionVersion ve := ve_BaselineAt ve]> m else m.

Definition held_marks (existing : option PackageManifest) : gmap string string :=
  match existing with
  | None => ∅
  | Some ex => fold_left held_step (pm_Versions ex) ∅
  end.

Definition carry_one (held : gmap string string) (ve : VersionEntry) : VersionEntry * list string :=
  match held !! admissionVersion ve with
  | Some at_ => (set_baseline true at_ ve, [])
  | None =>
      (set_baseline false "" ve,
       if ve_Baseline ve || negb (ve_BaselineAt ve =? "")%string then [admissionVersion ve] else [])
  end.

(** The manifest as it is written, and the versions whose mark was dropped. *)
Definition CarryBaseline (pm : PackageManifest) (existing : option PackageManifest)
  : PackageManifest * list string :=
  let held := held_marks existing in
  (set_Versions (map (fun ve => (carry_one held ve).1) (pm_Versions pm)) pm,
   concat (map (fun ve => (carry_one held ve).2) (pm_Versions pm))).

Definition MarkHeld (existing imported : PackageManifest) : PackageManifest :=
  let marks := held_marks (Some imported) in
  set_Versions
    (map (fun ve =>
       match marks !! admissionVersion ve with
       | Some at_ => if ve_Baseline ve then ve else set_baseline true at_ ve
       | None => ve
       end) (pm_Versions existing)) existing.

(** ** Lemmas: verdicts *)

(** The override or the baseline mark that lets a failed check through. *)
Definition waived (ev : evaluation) (pm : PackageManifest) (i : nat) (check : string) : bool :=
  isSome (overrideFor ev pm i check)
  || match pm_Versions pm !! i with Some ve => ve_Baseline ve | None => false end.

(** What the caller decides on: depends on the overrides alone. *)
Definition verdict (ev : evaluation) (pm : PackageManifest) (i : nat) (r : Result) : Result :=
  if (r_Action r =? ActionBlock)%string && (notOverridable r =? "")%string && waived ev pm i (r_Check r)
  then MkResult (r_Check r) ActionPass "" ∅ (r_Provenance r) (r_ChecksumDatabase r)
  else r.

Lemma result_status_block r : (result_status r =? CheckBlock)%string = (r_Action r =? ActionBlock)%string.
Proof.
  unfold result_status. destruct (String.eqb_spec (r_Action r) ActionWarn) as [->|]; [done|].
  destruct (r_Action r =? ActionBlock)%string; [done|]. by destruct (r_Action r =? ActionNotEvaluated)%string.
Qed.

Section verdicts.
Context (rfc3339 : Z -> string).

Lemma admitPast_waived ev pm i c :
  ac_Status c = CheckBlock -> isSome (admitPast rfc3339 ev pm i c) = waived ev pm i (ac_Check c).
Proof.
  intros Hs. unfold admitPast, overrideCheck, waived, BaselineCheck. rewrite Hs. cbn [negb String.eqb].
  change (CheckBlock =? CheckBlock)%string with true. cbn [negb].
  destruct (overrideFor ev pm i (ac_Check c)); [done|]. cbn [isSome orb].
  destruct (pm_Versions pm !! i) as [ve|]; [|done]. by destruct (ve_Baseline ve).
Qed.

Lemma setResult_verdict ev pm i r : (setResult rfc3339 ev pm i r).2 = verdict ev pm i r.
Proof.
  unfold setResult, verdict. rewrite result_status_block.
  destruct (String.eqb_spec (r_Action r) ActionBlock) as [Ha|Ha]; [|done].
  destruct (notOverridable r =? "")%string; [|done]. cbn [andb].
  match goal with |- context [admitPast _ _ _ _ ?c] => set (c0 := c) end.
  assert (Hs : ac_Status c0 = CheckBlock).
  { apply String.eqb_eq. unfold c0. cbn [ac_Status]. rewrite result_status_block. by apply String.eqb_eq. }
  pose proof (admitPast_waived ev pm i c0 Hs) as Hw. cbn [ac_Check c0] in Hw.
  destruct (admitPast _ _ _ _ _); cbn [isSome] in Hw; unfold c0 in Hw; cbn [ac_Check] in Hw; by rewrite <- Hw.
Qed.

Lemma setResult_same ev pm i r :
  let ev' := (setResult rfc3339 ev pm i r).1 in
  ev_overrides ev' = ev_overrides ev /\ ev_versionChecks ev' = ev_versionChecks ev /\
  ev_actions ev' = ev_actions ev.
Proof.
  unfold setResult. destruct (_ =? CheckBlock)%string; [|done].
  destruct (_ =? "")%string; [|done]. by destruct (admitPast _ _ _ _ _).
Qed.

Definition applicable (pm : PackageManifest) (c : VersionChecker) : bool :=
  match vc_AppliesTo c with Some f => f (pm_Type pm) | None => true end.

Definition version_at (pm : PackageManifest) (i : nat) : VersionEntry :=
  default zero_entry (pm_Versions pm !! i).

Lemma verdict_overrides ev ev' pm i r :
  ev_overrides ev' = ev_overrides ev -> verdict ev' pm i r = verdict ev pm i r.
Proof. unfold verdict, waived, overrideFor. by intros ->. Qed.

Lemma runVersion_results ev pm i checkers :
  (runVersion rfc3339 ev pm i checkers).2 =
    map (fun c => verdict ev pm i (vc_Check c pm (version_at pm i))) (List.filter (applicable pm) checkers)
  /\ ev_overrides (runVersion rfc3339 ev pm i checkers).1 = ev_overrides ev.
Proof.
  revert ev. induction checkers as [|c cs IH]; intros ev; [done|]. cbn [runVersion List.filter].
  unfold applicable at 1. destruct (vc_AppliesTo c) as [f|]; [destruct (f (pm_Type pm)); cbn [negb]; [|apply IH]|];
  (pose proof (setResult_verdict ev pm i (vc_Check c pm (version_at pm i))) as Hv;
   pose proof (setResult_same ev pm i (vc_Check c pm (version_at pm i))) as (Ho & _ & _);
   unfold version_at in Hv, Ho |- *;
   destruct (setResult rfc3339 ev pm i _) as [ev1 r]; cbn [fst snd] in Hv, Ho;
   destruct (IH ev1) as [IH1 IH2]; destruct (runVersion rfc3339 ev1 pm i cs) as [ev2 rs];
   cbn [fst snd] in IH1, IH2 |- *; split; [|by rewrite IH2];
   cbn [map]; rewrite Hv, IH1; f_equal; apply map_ext; intros c';
   by apply verdict_overrides).
Qed.

Lemma Combine_go rs out :
  fold_left combine_step rs out =
  MkCombined (Warns out ++ List.filter (fun r => (r_Action r =? ActionWarn)%string) rs)
             (Blocks out ++ List.filter (fun r => (r_Action r =? ActionBlock)%string) rs).
Proof.
  revert out. induction rs as [|r rs IH]; intros out; cbn [fold_left List.filter].
  { rewrite !List.app_nil_r. by destruct out. }
  rewrite IH. unfold combine_step. destruct (slice_contains _ _) eqn:E.
  - apply slice_contains_spec in E. rewrite !elem_of_cons, elem_of_nil in E.
    assert (Hw : (r_Action r =? ActionWarn)%string = false /\ (r_Action r =? ActionBlock)%string = false).
    { destruct E as [->|[->|[->|[->|[]]]]]; done. }
    destruct Hw as [-> ->]. done.
  - destruct (String.eqb_spec (r_Action r) ActionWarn) as [Ea|Ea].
    + rewrite Ea. cbn [Warns Blocks]. by rewrite <- List.app_assoc.
    + destruct (r_Action r =? ActionBlock)%string; cbn [Warns Blocks]; [by rewrite <- List.app_assoc|done].
Qed.

Lemma Combine_spec rs :
  Warns (Combine rs) = List.filter (fun r => (r_Action r =? ActionWarn)%string) rs /\
  Blocks (Combine rs) = List.filter (fun r => (r_Action r =? ActionBlock)%string) rs.
Proof. unfold Combine. by rewrite Combine_go. Qed.

Lemma Blocked_spec rs : Blocked (Combine rs) = existsb (fun r => (r_Action r =? ActionBlock)%string) rs.
Proof.
  unfold Blocked. destruct (Combine_spec rs) as [_ ->]. induction rs as [|r rs IH]; [done|]. simpl.
  by destruct (r_Action r =? ActionBlock)%string.
Qed.

(** A block stands when nothing may or does let it through. *)
Definition stands (ev : evaluation) (pm : PackageManifest) (i : nat) (r : Result) : bool :=
  (r_Action r =? ActionBlock)%string && (negb (notOverridable r =? "")%string || negb (waived ev pm i (r_Check r))).

Lemma verdict_blocks ev pm i r : (r_Action (verdict ev pm i r) =? ActionBlock)%string = stands ev pm i r.
Proof.
  unfold verdict, stands. destruct (r_Action r =? ActionBlock)%string eqn:Ea; [|by rewrite ?Ea].
  destruct (notOverridable r =? "")%string, (waived ev pm i (r_Check r)); simpl; rewrite ?Ea; done.
Qed.

Lemma runVersion_blocked ev pm i checkers :
  Blocked (Combine (runVersion rfc3339 ev pm i checkers).2) =
  existsb (fun c => applicable pm c && stands ev pm i (vc_Check c pm (version_at pm i))) checkers.
Proof.
  rewrite Blocked_spec. destruct (runVersion_results ev pm i checkers) as [-> _].
  induction checkers as [|c cs IH]; [done|]. cbn [List.filter existsb].
  destruct (applicable pm c); cbn [map existsb]; rewrite IH; [by rewrite verdict_blocks|done].
Qed.

Lemma stands_overrides ev ev' pm i r :
  ev_overrides ev' = ev_overrides ev -> stands ev' pm i r = stands ev pm i r.
Proof. unfold stands, waived, overrideFor. by intros ->. Qed.

(** Some applicable checker's verdict on version [i] stands. *)
Definition refused_at (ev : evaluation) (pm : PackageManifest) (checkers : list VersionChecker) (i : nat)
  : bool :=
  existsb (fun c => applicable pm c && stands ev pm i (vc_Check c pm (version_at pm i))) checkers.

Lemma refused_at_overrides ev ev' pm checkers i :
  ev_overrides ev' = ev_overrides ev -> refused_at ev' pm checkers i = refused_at ev pm checkers i.
Proof.
  intros Ho. unfold refused_at. induction checkers as [|c cs IH]; [done|]. cbn [existsb].
  by rewrite IH, (stands_overrides ev ev').
Qed.

Lemma ev_overrides_include pm checkers ev :
  ev_overrides (include pm checkers ev) = ev_overrides ev.
Proof.
  unfold include. revert ev. induction checkers as [|c cs IH]; intros ev; [done|]. cbn [fold_left].
  rewrite IH. unfold include_one. destruct (vc_ActionChecker c) as [[n a]|]; [|done].
  by destruct (slice_contains _ _).
Qed.

Lemma reportedBlock_some bs : bs <> [] -> exists b, reportedBlock bs = Some b /\ b ∈ bs.
Proof.
  intros Hne. unfold reportedBlock. destruct (List.find _ bs) as [b|] eqn:Ef.
  - exists b. split; [done|]. apply find_some in Ef as [Hin _]. by apply list_elem_of_In.
  - destruct bs as [|b bs]; [done|]. exists b. split; [done|by left].
Qed.

Lemma Blocked_some c : Blocked c = true -> Blocks c <> [].
Proof. unfold Blocked. by destruct (Blocks c). Qed.

Lemma commit_nothing ev pm checkers :
  Forall (fun c => vc_Commit c = []) checkers ->
  commit rfc3339 ev pm checkers = (ev, repeat [] (length (pm_Versions pm))).
Proof.
  unfold commit. generalize (repeat (@nil Result) (length (pm_Versions pm))). intros out.
  induction checkers as [|c cs IH]; intros Hc; [done|]. apply Forall_cons in Hc as [Hc Hcs].
  cbn [commit_all]. rewrite Hc. cbn [commit_one]. by apply IH.
Qed.

Lemma decide_version_spec pm i results st :
  (decide_version pm i results st).2 = None <-> Blocked (Combine results) = false.
Proof. unfold decide_version. by destruct (Blocked (Combine results)). Qed.

Lemma check_each_spec pm checkers i n st :
  (check_each rfc3339 pm checkers i n st).2 = None <->
  forall j, (i <= j < i + n)%nat -> refused_at (rs_ev st) pm checkers j = false.
Proof.
  revert i st. induction n as [|n IH]; intros i st; cbn [check_each].
  { split; [intros _ j Hj; lia|done]. }
  pose proof (runVersion_blocked (rs_ev st) pm i checkers) as Hb.
  destruct (runVersion_results (rs_ev st) pm i checkers) as [_ Ho].
  destruct (runVersion rfc3339 (rs_ev st) pm i checkers) as [ev results]. cbn [fst snd] in Hb, Ho.
  fold (refused_at (rs_ev st) pm checkers i) in Hb.
  assert (Hd : (decide_version pm i results (MkRun ev (rs_warns st) (rs_events st))).2 = None <->
             refused_at (rs_ev st) pm checkers i = false).
  { rewrite decide_version_spec. by rewrite Hb. }
  assert (Hev : (decide_version pm i results (MkRun ev (rs_warns st) (rs_events st))).2 = None ->
             rs_ev (decide_version pm i results (MkRun ev (rs_warns st) (rs_events st))).1 = ev).
  { unfold decide_version. by destruct (Blocked (Combine results)). }
  destruct (decide_version _ _ _ _) as [st1 [rf|]]; cbn [fst snd] in Hd, Hev |- *.
  - split; [done|]. intros H. apply Hd. apply H. lia.
  - rewrite IH, (Hev eq_refl). split; intros H j Hj.
    + destruct (decide (j = i)) as [->|]; [by apply Hd|].
      rewrite <- (refused_at_overrides (rs_ev st) ev) by done. apply H. lia.
    + rewrite (refused_at_overrides (rs_ev st) ev) by done. apply H. lia.
Qed.

(** What the checkers' writes answer for version [i], in the order they write. *)
Definition written_by (i : nat) (changes : list (nat * Result)) : list Result :=
  map snd (List.filter (fun x => (x.1 =? i)%nat) changes).
Definition written (checkers : list VersionChecker) (i : nat) : list Result :=
  concat (map (fun c => written_by i (vc_Commit c)) checkers).

(** A check's answer once the writes are in: the last one written for it. *)
Definition revised (changed : list Result) (r : Result) : Result :=
  default r (last (List.filter (fun c => (r_Check r =? r_Check c)%string) changed)).

Lemma verdict_check ev pm i r : r_Check (verdict ev pm i r) = r_Check r.
Proof. unfold verdict. by destruct (_ && _). Qed.

Lemma revised_verdict ev pm i changed r :
  revised (map (verdict ev pm i) changed) (verdict ev pm i r) = verdict ev pm i (revised changed r).
Proof.
  unfold revised. rewrite verdict_check.
  assert (List.filter (fun c => (r_Check r =? r_Check c)%string) (map (verdict ev pm i) changed)
          = verdict ev pm i <$> List.filter (fun c => (r_Check r =? r_Check c)%string) changed) as ->.
  { induction changed as [|c cs IH]; [done|]. cbn [map List.filter]. rewrite verdict_check, IH.
    by destruct (r_Check r =? r_Check c)%string. }
  rewrite fmap_last. by destruct (last _).
Qed.

Lemma replaceResults_revised results changed : replaceResults results changed = map (revised changed) results.
Proof.
  unfold replaceResults. revert results. induction changed as [|c cs IH]; intros results; cbn [fold_left].
  { symmetry. apply map_id. }
  rewrite IH, map_map. apply map_ext. intros x. unfold revised. cbn [List.filter].
  destruct (String.eqb_spec (r_Check x) (r_Check c)) as [E|E]; [|done].
  rewrite E, last_cons. by destruct (last _).
Qed.

Lemma commit_one_written ev pm changes out :
  (forall i, (i < length (pm_Versions pm))%nat ->
     (commit_one rfc3339 ev pm changes out).2 !! i = (fun rs => rs ++ map (verdict ev pm i) (written_by i changes)) <$> out !! i)
  /\ ev_overrides (commit_one rfc3339 ev pm changes out).1 = ev_overrides ev.
Proof.
  revert ev out. induction changes as [|[j r] cs IH]; intros ev out; cbn [commit_one].
  { split; [|done]. intros i _. cbn [snd]. destruct (out !! i); cbn; [by rewrite List.app_nil_r|done]. }
  destruct (Nat.ltb_spec j (length (pm_Versions pm))) as [Hj|Hj].
  - pose proof (setResult_verdict ev pm j r) as Hv. pose proof (setResult_same ev pm j r) as (Ho & _ & _).
    destruct (setResult rfc3339 ev pm j r) as [ev1 r1]. cbn [fst snd] in Hv, Ho. subst r1.
    destruct (IH ev1 (alter (fun rs => rs ++ [verdict ev pm j r]) j out)) as [IH1 IH2]. split; [|by rewrite IH2].
    intros i Hi. rewrite (IH1 i Hi). unfold written_by. cbn [List.filter fst].
    rewrite (map_ext (verdict ev1 pm i) (verdict ev pm i)) by (intros; by apply verdict_overrides).
    destruct (Nat.eqb_spec j i) as [->|Hne].
    + rewrite list_lookup_alter_eq. destruct (out !! i); [|done]. cbn. by rewrite <- List.app_assoc.
    + by rewrite list_lookup_alter_ne.
  - destruct (IH ev out) as [IH1 IH2]. split; [|done]. intros i Hi. rewrite (IH1 i Hi). unfold written_by. cbn [List.filter fst].
    by destruct (Nat.eqb_spec j i) as [->|]; [lia|].
Qed.

Lemma commit_written ev pm checkers i :
  (i < length (pm_Versions pm))%nat ->
  (commit rfc3339 ev pm checkers).2 !! i = Some (map (verdict ev pm i) (written checkers i)).
Proof.
  intros Hi. unfold commit.
  assert (H : forall out rs, out !! i = Some rs ->
            (commit_all rfc3339 ev pm checkers out).2 !! i = Some (rs ++ map (verdict ev pm i) (written checkers i))).
  { revert ev. induction checkers as [|c cs IH]; intros ev out rs Hrs; cbn [commit_all].
    { cbn. by rewrite Hrs, List.app_nil_r. }
    destruct (commit_one_written ev pm (vc_Commit c) out) as [H1 H2].
    destruct (commit_one _ _ _ _ _) as [ev1 out1]. cbn [fst snd] in H1, H2. specialize (H1 i Hi). rewrite Hrs in H1. cbn in H1.
    rewrite (IH ev1 out1 _ H1), <- List.app_assoc. unfold written. cbn [map concat]. rewrite map_app.
    by rewrite (map_ext (verdict ev1 pm i) (verdict ev pm i)) by (intros; by apply verdict_overrides). }
  apply (H _ []). clear H. revert i Hi. induction (length (pm_Versions pm)) as [|n IH]; intros [|i] Hi; [lia|lia|done|]. apply IH. lia.
Qed.

(** Some applicable checker's block stands on version [i] once the writes are in. *)
Definition refused_written (ev : evaluation) (pm : PackageManifest) (checkers : list VersionChecker) (i : nat) : bool :=
  existsb (fun c => applicable pm c && stands ev pm i (revised (written checkers i) (vc_Check c pm (version_at pm i)))) checkers.

Lemma replaced_blocked ev ev' ev'' pm i checkers :
  ev_overrides ev' = ev_overrides ev -> ev_overrides ev'' = ev_overrides ev -> (i < length (pm_Versions pm))%nat ->
  Blocked (Combine (replaceResults (runVersion rfc3339 ev pm i checkers).2
                      (default [] ((commit rfc3339 ev' pm checkers).2 !! i)))) = refused_written ev'' pm checkers i.
Proof.
  intros Ho Ho' Hi. rewrite (commit_written ev' pm checkers i Hi). change (default [] (Some ?l)) with l. rewrite Blocked_spec, replaceResults_revised.
  destruct (runVersion_results ev pm i checkers) as [-> _]. unfold refused_written.
  generalize (written checkers i). intros W. induction checkers as [|c cs IH]; [done|]. cbn [List.filter existsb].
  destruct (applicable pm c); cbn [map existsb]; rewrite IH; [|done]. f_equal.
  rewrite (map_ext (verdict ev' pm i) (verdict ev pm i)) by (intros; by apply verdict_overrides).
  rewrite revised_verdict, verdict_blocks. cbn [andb]. symmetry. by apply stands_overrides.
Qed.

Lemma decide_changes_nothing pm i n st : decide_changes pm i (repeat [] n) st = (st, None).
Proof. revert i. induction n as [|n IH]; intros i; [done|]. cbn [repeat decide_changes]. apply IH. Qed.
End verdicts.

(** ** Theorems *)

Lemma upsertCheck_elem cs c : c ∈ upsertCheck cs c false.
Proof.
  induction cs as [|x cs IH]; cbn [upsertCheck]; [by left|].
  destruct (_ =? _)%string; [by left|by right].
Qed.

(** C3: what one verdict is decided as, and what is recorded for it.  A result
    passes on unchanged unless it is a block that may be waived and an active
    override or the version's baseline mark waives it; then it decides as a
    pass.  A verdict that says the version is hostile is never waived: it is
    decided as the block it is and recorded as one, with the reason. *)
Theorem setResult_waives rfc3339 ev pm i r :
  let res := setResult rfc3339 ev pm i r in
  (res.2 = r \/ r_Action res.2 = ActionPass) /\
  (r_Action r = ActionBlock ->
     (r_Action res.2 = ActionBlock <-> notOverridable r <> "" \/ waived ev pm i (r_Check r) = false)) /\
  (r_Action r = ActionBlock -> notOverridable r <> "" -> (i < length (ev_checks ev))%nat ->
     res.2 = r /\
     exists cs c, ev_checks res.1 !! i = Some cs /\ c ∈ cs /\ ac_Check c = r_Check r /\
       ac_Status c = CheckBlock /\ ac_Unwaivable c = notOverridable r).
Proof.
  cbv zeta. rewrite setResult_verdict. split; [|split].
  - unfold verdict. destruct (_ && _); [by right|by left].
  - intros Ha. rewrite <- String.eqb_eq, verdict_blocks. unfold stands. rewrite Ha.
    change (ActionBlock =? ActionBlock)%string with true. cbn [andb].
    rewrite orb_true_iff, negb_true_iff, negb_true_iff, String.eqb_neq. done.
  - intros Ha Hn Hi. apply String.eqb_neq in Hn. split.
    { unfold verdict. by rewrite Hn, andb_false_r. }
    unfold setResult. rewrite result_status_block, Ha, Hn.
    change (ActionBlock =? ActionBlock)%string with true. cbn [fst].
    match goal with |- context [ev_set (Some i) ?x ev] => set (c := x) end.
    destruct (lookup_lt_is_Some_2 _ _ Hi) as [cs Hcs]. unfold ev_set, at_indexes. cbn [ev_checks set_checks].
    exists (upsertCheck cs c false), c. rewrite list_lookup_alter_eq, Hcs. split; [done|].
    split; [apply upsertCheck_elem|]. split; [done|]. split; [|done].
    apply String.eqb_eq. unfold c. cbn [ac_Status]. rewrite result_status_block, Ha. done.
Qed.

Definition demo_malware : Result :=
  MkResult CheckOSV ActionBlock "MAL-1" {["malware" := "true"]} None None.
Definition demo_pm : PackageManifest :=
  MkPackageManifest 1 "left-pad" "npm" "" "" "" [] [set_baseline true "2026-01-01T00:00:00Z" zero_entry].

Lemma setResult_waives_witness :
  let ev := newEvaluation None demo_pm in
  (setResult (fun _ => "") ev demo_pm 0 demo_malware).2 = demo_malware.
Proof.
  apply (setResult_waives (fun _ => "") (newEvaluation None demo_pm) demo_pm 0 demo_malware).
  - reflexivity.
  - vm_compute. discriminate.
  - vm_compute. lia.
Defined.

(** C2: the decision of a fetch, against an audit database and with checkers to
    run.  It is admitted exactly when the allow-list did not refuse, no applicable
    checker's block stands, and none stands once each check's answer is the last
    one a checker wrote for it at commit; otherwise it is refused as the policy's
    block, and with a block named exactly when it was not the allow-list. *)
Theorem Fetch_decides rfc3339 reads checkers typ name ve allow who detail :
  let pm := MkPackageManifest 0 name typ "" "" "" [] [ve] in
  let ev := newEvaluation (Some reads) pm in
  let f := Fetch rfc3339 (Some reads) (Some checkers) typ name ve allow who detail in
  let decision := option_map ad_Decision (fr_Admission f) in
  (decision = Some AdmissionAdmitted <->
     ac_Status allow <> CheckBlock /\ refused_at ev pm checkers 0 = false /\ refused_written ev pm checkers 0 = false) /\
  (decision = Some AdmissionAdmitted \/ decision = Some AdmissionPolicyBlocked) /\
  (is_Some (fr_Block f) <-> decision = Some AdmissionPolicyBlocked /\ ac_Status allow <> CheckBlock).
Proof.
  cbv zeta. set (pm := MkPackageManifest _ _ _ _ _ _ _ _). unfold Fetch. fold pm.
  set (ev0 := ev_set _ _ _).
  assert (Ho : ev_overrides ev0 = ev_overrides (newEvaluation (Some reads) pm)).
  { unfold ev0, ev_set. cbn [ev_overrides set_checks at_indexes]. apply ev_overrides_include. }
  destruct (String.eqb_spec (ac_Status allow) CheckBlock) as [Ha|Ha].
  { cbn [fr_Admission fr_Block option_map ad_Decision row]. split; [|split; [by right|]].
    - split; [done|by intros [? _]].
    - split; [by intros []|by intros [_ ?]]. }
  rewrite <- (refused_at_overrides _ ev0) by done.
  pose proof (runVersion_blocked rfc3339 ev0 pm 0 checkers) as Hb. fold (refused_at ev0 pm checkers 0) in Hb.
  destruct (runVersion_results rfc3339 ev0 pm 0 checkers) as [_ Ho1].
  set (ev2 := if negb (detail =? "")%string then notRunChecks (Some 0%nat) detail
                (ev_versionChecks (runVersion rfc3339 ev0 pm 0 checkers).1) (runVersion rfc3339 ev0 pm 0 checkers).1
              else (runVersion rfc3339 ev0 pm 0 checkers).1).
  assert (Ho2 : ev_overrides ev2 = ev_overrides ev0).
  { unfold ev2. destruct (negb _); [|done]. by rewrite <- Ho1. }
  pose proof (replaced_blocked rfc3339 ev0 ev2 (newEvaluation (Some reads) pm) pm 0 checkers Ho2 (eq_sym Ho) ltac:(cbn; lia)) as Hw.
  destruct (runVersion rfc3339 ev0 pm 0 checkers) as [ev1 results]. cbn [fst snd] in Hb, ev2, Hw. fold ev2.
  destruct (Blocked (Combine results)) eqn:Eb; cbn [negb].
  - rewrite Eb, <- Hb. cbn [fr_Block fr_Admission option_map ad_Decision row].
    destruct (reportedBlock_some _ (Blocked_some _ Eb)) as (b & -> & _).
    split; [split; [done|by intros (_ & ? & _)]|]. split; [by right|]. by split; [|eexists].
  - destruct (commit _ _ _ _) as [ev3 changes]. cbn [snd] in Hw. rewrite <- Hb, <- Hw.
    destruct (Blocked (Combine (replaceResults _ _))) eqn:Ew; cbn [fr_Block fr_Admission option_map ad_Decision row].
    + destruct (reportedBlock_some _ (Blocked_some _ Ew)) as (b & -> & _).
      split; [split; [done|by intros (_ & _ & ?)]|]. split; [by right|]. by split; [|eexists].
    + split; [done|]. split; [by left|]. split; [by intros []|by intros []].
Qed.

Definition demo_checker : VersionChecker :=
  MkChecker (fun _ _ => demo_malware) None None [].
Definition demo_reads : policy_reads := MkReads (Some "warn") (Some "warn") (Some None) (Some None) "" ∅.
Definition demo_allow : AdmissionCheck := MkCheck CheckAllowList ActionNone CheckPass "" None None "" "".

(** The checks pass and the write at commit refuses. *)
Definition refused_at_commit : VersionChecker :=
  MkChecker (fun _ _ => MkResult "provenance" ActionPass "" ∅ None None) None None
    [(0%nat, MkResult "provenance" ActionBlock "not written" ∅ None None)].

Lemma Fetch_decides_witness :
  option_map ad_Decision
    (fr_Admission (Fetch (fun _ => "") (Some demo_reads) (Some [demo_checker]) "npm" "left-pad"
                     (set_baseline true "" zero_entry) demo_allow (MkWho "" "") "")) <> Some AdmissionAdmitted
  /\ is_Some (fr_Block (Fetch (fun _ => "") (Some demo_reads) (Some [refused_at_commit]) "npm" "left-pad"
                     zero_entry demo_allow (MkWho "" "") "")).
Proof.
  split.
  - intros H. apply (Fetch_decides (fun _ => "") demo_reads [demo_checker] "npm" "left-pad" (set_baseline true "" zero_entry)
                       demo_allow (MkWho "" "") "") in H as (_ & H & _). vm_compute in H. discriminate.
  - apply (Fetch_decides (fun _ => "") demo_reads [refused_at_commit] "npm" "left-pad" zero_entry demo_allow (MkWho "" "") "").
    split; [vm_compute; reflexivity|discriminate].
Defined.

(** An import is admitted only when every version is.  The version checks
    refuse a manifest when any applicable checker's block stands on any of its
    versions, and, when nothing is written at commit, only then. *)
Theorem checkVersions_admits rfc3339 pm checkers ev :
  ((checkVersions rfc3339 true pm checkers ev).2 = None ->
     forall i, (i < length (pm_Versions pm))%nat -> refused_at ev pm checkers i = false) /\
  (Forall (fun c => vc_Commit c = []) checkers ->
     (forall i, (i < length (pm_Versions pm))%nat -> refused_at ev pm checkers i = false) ->
     (checkVersions rfc3339 true pm checkers ev).2 = None).
Proof.
  unfold checkVersions. cbn [negb].
  pose proof (check_each_spec rfc3339 pm checkers 0 (length (pm_Versions pm)) (MkRun ev [] [])) as Hs.
  destruct (check_each _ _ _ _ _ _) as [st [rf|]]; cbn [snd rs_ev] in Hs; split.
  - done.
  - intros _ H. apply Hs. intros j Hj. apply H. lia.
  - intros _ i Hi. apply (proj1 Hs eq_refl). lia.
  - intros Hc _. rewrite commit_nothing by done. by rewrite decide_changes_nothing.
Qed.

Lemma checkVersions_admits_witness :
  (checkVersions (fun _ => "") true demo_pm [] (newEvaluation None demo_pm)).2 = None.
Proof.
  apply (checkVersions_admits (fun _ => "") demo_pm [] (newEvaluation None demo_pm)); [constructor|].
  intros i _. reflexivity.
Defined.

(** ** Lemmas: rows *)

Definition names (checks : list AdmissionCheck) : list string := map ac_Check checks.

Lemma upsertCheck_names checks c keep :
  names (upsertCheck checks c keep) = names checks
  \/ (names (upsertCheck checks c keep) = names checks ++ [ac_Check c] /\ ac_Check c ∉ names checks).
Proof.
  induction checks as [|x cs IH]; cbn [upsertCheck].
  { right. split; [done|]. apply not_elem_of_nil. }
  destruct (String.eqb_spec (ac_Check x) (ac_Check c)) as [E|E].
  - left. unfold names. cbn [map]. f_equal. by destruct keep.
  - unfold names in *. cbn [map]. destruct IH as [->|[-> Hn]]; [by left|right]. split; [done|].
    rewrite not_elem_of_cons. split; [congruence|done].
Qed.

Lemma upsertCheck_mem checks c keep s :
  s ∈ names (upsertCheck checks c keep) <-> s ∈ names checks \/ s = ac_Check c.
Proof.
  induction checks as [|x cs IH]; cbn [upsertCheck].
  { unfold names. cbn [map]. rewrite list_elem_of_singleton, elem_of_nil. tauto. }
  destruct (String.eqb_spec (ac_Check x) (ac_Check c)) as [E|E].
  - replace (names ((if keep then x else c) :: cs)) with (names (x :: cs)).
    2:{ unfold names. cbn [map]. f_equal. by destruct keep. }
    unfold names. cbn [map]. rewrite elem_of_cons. split; [tauto|]. intros [H| ->]; [done|by left].
  - unfold names in *. cbn [map]. rewrite !elem_of_cons, IH. tauto.
Qed.

Lemma upsertCheck_nodup checks c keep : NoDup (names checks) -> NoDup (names (upsertCheck checks c keep)).
Proof.
  intros Hd. destruct (upsertCheck_names checks c keep) as [->|[-> Hn]]; [done|].
  apply NoDup_app. repeat split; [done| |apply NoDup_singleton].
  intros x Hx Hx'. apply list_elem_of_singleton in Hx' as ->. done.
Qed.

Lemma fold_upsert ev detail ns checks :
  let out := fold_left (fun checks name => upsertCheck checks (notRunCheck ev name detail) true) ns checks in
  (NoDup (names checks) -> NoDup (names out)) /\
  (forall s, s ∈ names out <-> s ∈ names checks \/ s ∈ ns).
Proof.
  cbv zeta. revert checks. induction ns as [|n ns IH]; intros checks; cbn [fold_left].
  { split; [done|]. intros s. rewrite elem_of_nil. tauto. }
  destruct (IH (upsertCheck checks (notRunCheck ev n detail) true)) as [H1 H2]. split.
  - intros Hd. apply H1. by apply upsertCheck_nodup.
  - intros s. rewrite H2, upsertCheck_mem, elem_of_cons.
    change (ac_Check (notRunCheck ev n detail)) with n. tauto.
Qed.

Definition rank_cmp (a b : AdmissionCheck) : Z := on_key (fun c => checkRank (ac_Check c)) compareInt a b.

#[global] Instance rank_cmp_comparator : Comparator rank_cmp.
Proof. apply on_key_comparator, _. Qed.

Definition rank_le (a b : AdmissionCheck) : Prop := rank_cmp a b <= 0.

Lemma sort_checks_perm l : sort_checks l ≡ₚ l.
Proof. apply SliceStable_perm. Qed.

Lemma sort_checks_sorted l : StronglySorted rank_le (sort_checks l).
Proof. apply (SliceStable_by rank_less rank_cmp). intros x y. symmetry. apply compareInt_ltb. Qed.

(** Every version's record names each check once. *)
Definition one_each (ev : evaluation) : Prop := Forall (fun cs => NoDup (names cs)) (ev_checks ev).

Lemma at_indexes_one_each i f ev :
  (forall cs, NoDup (names cs) -> NoDup (names (f cs))) -> one_each ev -> one_each (at_indexes i f ev).
Proof.
  unfold one_each, at_indexes. cbn [ev_checks set_checks]. intros Hf Hw. destruct i as [j|].
  - apply Forall_alter; [done|]. intros cs Hcs. intros Hd. by apply Hf.
  - apply Forall_map. eapply Forall_impl; [exact Hw|]. exact Hf.
Qed.

Lemma ev_set_one_each i c ev : one_each ev -> one_each (ev_set i c ev).
Proof. apply at_indexes_one_each. intros cs. apply upsertCheck_nodup. Qed.

Lemma notRunChecks_one_each i detail ns ev : one_each ev -> one_each (notRunChecks i detail ns ev).
Proof. apply at_indexes_one_each. intros cs. apply fold_upsert. Qed.

Lemma include_checks pm checkers ev :
  ev_checks (include pm checkers ev) = ev_checks ev /\
 forall s, s ∈ ev_versionChecks ev -> s ∈ ev_versionChecks (include pm checkers ev).
Proof.
  unfold include. revert ev. induction checkers as [|c cs IH]; intros ev; [done|]. cbn [fold_left].
  destruct (IH (include_one (pm_Type pm) ev c)) as [-> H]. revert H. unfold include_one.
  destruct (vc_ActionChecker c) as [[n a]|]; [|done]. destruct (slice_contains _ _); [done|].
  cbn [ev_checks ev_versionChecks]. intros H. split; [done|]. intros s Hs. apply H, elem_of_app. by left.
Qed.

Lemma newEvaluation_one_each adb pm : one_each (newEvaluation adb pm).
Proof.
  unfold one_each, newEvaluation. destruct adb; cbn [ev_checks]; apply List.Forall_forall;
    intros cs Hcs; apply repeat_spec in Hcs as ->; constructor.
Qed.

Section recording.
Context (rfc3339 : Z -> string).

Lemma setResult_one_each ev pm i r : one_each ev -> one_each (setResult rfc3339 ev pm i r).1.
Proof.
  intros Hw. unfold setResult. destruct (_ =? CheckBlock)%string; [|by apply ev_set_one_each].
  destruct (_ =? "")%string; [|by apply ev_set_one_each].
  destruct (admitPast _ _ _ _ _); by apply ev_set_one_each.
Qed.

Lemma runVersion_one_each ev pm i checkers :
  one_each ev -> one_each (runVersion rfc3339 ev pm i checkers).1 /\
 ev_versionChecks (runVersion rfc3339 ev pm i checkers).1 = ev_versionChecks ev.
Proof.
  revert ev. induction checkers as [|c cs IH]; intros ev Hw; [done|]. cbn [runVersion].
  destruct (match vc_AppliesTo c with Some f => _ | None => _ end); [by apply IH|].
  pose proof (setResult_one_each ev pm i (vc_Check c pm (default zero_entry (pm_Versions pm !! i))) Hw) as H1.
  pose proof (setResult_same rfc3339 ev pm i (vc_Check c pm (default zero_entry (pm_Versions pm !! i))))
    as (_ & H2 & _).
  destruct (setResult _ _ _ _ _) as [ev1 r]. destruct (IH ev1 H1) as [H3 H4].
  destruct (runVersion rfc3339 ev1 pm i cs) as [ev2 rs]. cbn [fst] in *. split; [done|congruence].
Qed.

Lemma commit_one_one_each ev pm changes out :
  one_each ev -> one_each (commit_one rfc3339 ev pm changes out).1 /\
 ev_versionChecks (commit_one rfc3339 ev pm changes out).1 = ev_versionChecks ev.
Proof.
  revert ev out. induction changes as [|[i r] cs IH]; intros ev out Hw; [done|]. cbn [commit_one].
  destruct (i <? _)%nat; [|by apply IH].
  pose proof (setResult_one_each ev pm i r Hw) as H1.
  pose proof (setResult_same rfc3339 ev pm i r) as (_ & H2 & _).
  destruct (setResult _ _ _ _ _) as [ev1 r1]. cbn [fst] in *.
  destruct (IH ev1 (alter (fun rs => rs ++ [r1]) i out) H1) as [H3 H4]. split; [done|congruence].
Qed.

Lemma commit_one_each ev pm checkers :
  one_each ev -> one_each (commit rfc3339 ev pm checkers).1 /\
 ev_versionChecks (commit rfc3339 ev pm checkers).1 = ev_versionChecks ev.
Proof.
  unfold commit. generalize (repeat (@nil Result) (length (pm_Versions pm))). revert ev.
  induction checkers as [|c cs IH]; intros ev out Hw; [done|]. cbn [commit_all].
  destruct (commit_one_one_each ev pm (vc_Commit c) out Hw) as [H1 H2].
  destruct (commit_one _ _ _ _ _) as [ev1 out1]. cbn [fst] in H1, H2.
  destruct (IH ev1 out1 H1) as [H3 H4]. split; [done|congruence].
Qed.
End recording.

(** What a recorded row is: each check once, none of the expected left out,
    in rank order. *)
Definition complete_row (expected : list string) (ad : Admission) : Prop :=
  NoDup (names (ad_Checks ad)) /\ (forall s, s ∈ expected -> s ∈ names (ad_Checks ad)) /\
 StronglySorted rank_le (ad_Checks ad).

Lemma row_complete ev pm i decision who :
  one_each ev -> complete_row (ev_allChecks ev) (row ev pm i decision who).
Proof.
  intros Hw. unfold complete_row, row. cbn [ad_Checks].
  assert (Hn : NoDup (names (default [] (ev_checks ev !! i)))).
  { destruct (ev_checks ev !! i) as [cs|] eqn:E; [|constructor]. by apply (Forall_lookup_1 _ _ _ _ Hw E). }
  unfold row_checks. cbv zeta.
  match goal with |- context [fold_left _ _ ?c] => set (c0 := c) in * end.
  match goal with |- context [notRunCheck ev _ ?d] => set (d0 := d) in * end.
  destruct (fold_upsert ev d0 (ev_allChecks ev) c0) as [H1 H2]. cbv zeta in H1, H2.
  set (out := fold_left _ _ _) in *.
  assert (Hp : names (sort_checks out) ≡ₚ names out) by (unfold names; by rewrite sort_checks_perm).
  split; [|split; [|apply sort_checks_sorted]].
  - rewrite Hp. by apply H1.
  - intros s Hs. rewrite Hp. apply H2. by right.
Qed.

(** The row a fetch leaves.  Whatever the checkers answer, whatever is
    written at commit and however the fetch is decided, a fetch that has an
    audit database records exactly one row for the version it asked for; the
    row names no check twice, leaves out neither the allow-list nor any check
    of the type, a not-evaluated one being recorded as that, and is in the
    order of the checks' ranks. *)
Theorem Fetch_row rfc3339 reads checkers typ name ve allow who detail :
  let pm := MkPackageManifest 0 name typ "" "" "" [] [ve] in
  match fr_Admission (Fetch rfc3339 (Some reads) checkers typ name ve allow who detail) with
  | None => False
  | Some ad =>
      ad_PkgType ad = typ /\ ad_PkgName ad = name /\ ad_PkgVersion ad = admissionVersion ve /\
     complete_row (ev_allChecks (newEvaluation (Some reads) pm)) ad
  end.
Proof.
  cbv zeta. set (pm := MkPackageManifest _ _ _ _ _ _ _ _). unfold Fetch. fold pm.
  destruct (include_checks pm (default [] checkers) (newEvaluation (Some reads) pm)) as [Hi1 Hi2].
  pose proof (newEvaluation_one_each (Some reads) pm) as Hn. unfold one_each in Hn. rewrite <- Hi1 in Hn.
  fold (one_each (include pm (default [] checkers) (newEvaluation (Some reads) pm))) in Hn.
  apply (ev_set_one_each (Some 0%nat) allow) in Hn. set (ev0 := ev_set _ _ _) in *.
  assert (Hc : forall ev d, one_each ev -> ev_versionChecks ev = ev_versionChecks ev0 ->
            complete_row (ev_allChecks (newEvaluation (Some reads) pm)) (row ev pm 0 d who)).
  { intros ev d Hw He. destruct (row_complete ev pm 0 d who Hw) as (H1 & H2 & H3). split; [done|].
    split; [|done]. intros s Hs. apply H2. unfold ev_allChecks in *. apply elem_of_cons in Hs as [->|Hs]; [by left|].
    right. rewrite He. by apply Hi2. }
  destruct (ac_Status allow =? CheckBlock)%string.
  { cbn [fr_Admission]. repeat split. all: apply Hc; [by apply notRunChecks_one_each|done]. }
  destruct checkers as [checkers|].
  2:{ cbn [fr_Admission]. repeat split. all: apply Hc; [by apply notRunChecks_one_each|done]. }
  destruct (runVersion_one_each rfc3339 ev0 pm 0 checkers Hn) as [Hr1 Hr2].
  destruct (runVersion _ _ _ _ _) as [ev1 results]. cbn [fst] in Hr1, Hr2.
  set (ev2 := if negb (detail =? "")%string then _ else _).
  assert (H2 : one_each ev2 /\ ev_versionChecks ev2 = ev_versionChecks ev0).
  { unfold ev2. destruct (negb _); [|done]. split; [by apply notRunChecks_one_each|done]. }
  clearbody ev2. destruct H2 as [Hw2 He2].
  destruct (negb (Blocked (Combine results))).
  - destruct (commit_one_each rfc3339 ev2 pm checkers Hw2) as [H3 H4].
    destruct (commit _ _ _ _) as [ev3 changes]. cbn [fst fr_Admission] in *.
    repeat split; apply Hc; congruence.
  - cbn [fr_Admission]. repeat split; by apply Hc.
Qed.

(** ** Baseline marks *)

Definition marked (vs : list VersionEntry) (v at_ : string) : Prop :=
  exists ve, ve ∈ vs /\ admissionVersion ve = v /\ ve_Baseline ve = true /\ ve_BaselineAt ve = at_.

Lemma held_fold_none vs m v :
  fold_left held_step vs m !! v = None <-> m !! v = None /\ forall a, ~ marked vs v a.
Proof.
  revert m. induction vs as [|ve vs IH]; intros m; cbn [fold_left].
  { split; [|tauto]. intros H. split; [done|]. intros a (x & Hx & _). by apply elem_of_nil in Hx. }
  rewrite IH. unfold held_step. destruct (ve_Baseline ve) eqn:Eb.
  - destruct (decide (admissionVersion ve = v)) as [<-|Hv].
    + rewrite lookup_insert_eq. split; [by intros [? _]|]. intros [_ H]. exfalso.
      apply (H (ve_BaselineAt ve)). exists ve. split; [by left|done].
    + rewrite lookup_insert_ne by done. apply and_iff_compat_l.
      split; intros H a (x & Hx & Ha & Hr).
      * apply elem_of_cons in Hx as [->|Hx]; [done|]. apply (H a). by exists x.
      * apply (H a). exists x. split; [by right|done].
  - apply and_iff_compat_l. split; intros H a (x & Hx & Ha & Hb & Hr).
    + apply elem_of_cons in Hx as [->|Hx]; [congruence|]. apply (H a). by exists x.
    + apply (H a). exists x. split; [by right|done].
Qed.

Lemma held_fold_some vs m v a :
  fold_left held_step vs m !! v = Some a -> m !! v = Some a \/ marked vs v a.
Proof.
  revert m. induction vs as [|ve vs IH]; intros m; cbn [fold_left]; [by left|].
  intros H. apply IH in H as [H|(x & Hx & Hr)].
  - unfold held_step in H. destruct (ve_Baseline ve) eqn:Eb; [|by left].
    destruct (decide (admissionVersion ve = v)) as [<-|Hv].
    + rewrite lookup_insert_eq in H. injection H as <-. right. exists ve. split; [by left|done].
    + rewrite lookup_insert_ne in H by done. by left.
  - right. exists x. split; [by right|done].
Qed.

Definition versions_of (existing : option PackageManifest) : list VersionEntry :=
  match existing with Some ex => pm_Versions ex | None => [] end.

Lemma held_marks_none existing v :
  held_marks existing !! v = None <-> forall a, ~ marked (versions_of existing) v a.
Proof.
  destruct existing as [ex|]; cbn [held_marks versions_of].
  - rewrite held_fold_none, lookup_empty. tauto.
  - rewrite lookup_empty. split; [|done]. intros _ a (x & Hx & _). by apply elem_of_nil in Hx.
Qed.

Lemma held_marks_some existing v a :
  held_marks existing !! v = Some a -> marked (versions_of existing) v a.
Proof.
  destruct existing as [ex|]; cbn [held_marks versions_of].
  - intros H. apply held_fold_some in H as [H|H]; [by rewrite lookup_empty in H|done].
  - by rewrite lookup_empty.
Qed.

(** The mark a written entry has: the stored one of its version, or none. *)
Definition carried (existing : option PackageManifest) (ve ve' : VersionEntry) : Prop :=
  ve' = set_baseline (ve_Baseline ve') (ve_BaselineAt ve') ve /\
  ((ve_Baseline ve' = true /\
    marked (versions_of existing) (admissionVersion ve) (ve_BaselineAt ve')) \/
   (ve_Baseline ve' = false /\ ve_BaselineAt ve' = "" /\
    forall a, ~ marked (versions_of existing) (admissionVersion ve) a)).

Definition claims_mark (ve : VersionEntry) : Prop := ve_Baseline ve = true \/ ve_BaselineAt ve <> "".

(** A write cannot mark a version.  What [CarryBaseline] writes is the
    manifest it was given, entry for entry, with the baseline mark alone
    replaced: an entry is marked exactly when the stored manifest marks its
    version, with a time stored for that version; a mark the caller supplied
    for another version is dropped, and the dropped versions are exactly the
    ones reported. *)
Theorem CarryBaseline_keeps pm existing :
  let '(pm', dropped) := CarryBaseline pm existing in
  set_Versions (pm_Versions pm) pm' = pm /\
  Forall2 (carried existing) (pm_Versions pm) (pm_Versions pm') /\
  (forall v, v ∈ dropped <->
     exists ve, ve ∈ pm_Versions pm /\ admissionVersion ve = v /\ claims_mark ve /\
       forall a, ~ marked (versions_of existing) v a).
Proof.
  unfold CarryBaseline. split; [by destruct pm|]. split.
  - destruct pm as [cv n t d u l dp vs]. cbn [set_Versions pm_Versions].
    induction vs as [|ve vs IH]; [constructor|]. cbn [map]. constructor; [|done].
    unfold carry_one, carried. destruct (held_marks existing !! admissionVersion ve) as [a|] eqn:E; cbn [fst].
    + split; [done|]. left. split; [done|]. by apply held_marks_some in E.
    + split; [done|]. right. split; [done|]. split; [done|]. by apply held_marks_none.
  - intros v. rewrite list_elem_of_In, in_concat. split.
    + intros (l & Hl & Hv). apply in_map_iff in Hl as (ve & <- & Hve). exists ve.
      apply list_elem_of_In in Hve. unfold carry_one in Hv.
      destruct (held_marks existing !! admissionVersion ve) as [a|] eqn:E; [done|]. cbn [snd] in Hv.
      destruct (ve_Baseline ve || _) eqn:Ec; [|done]. destruct Hv as [<-|[]].
      repeat split; [done| |by apply held_marks_none]. apply orb_true_iff in Ec as [Ec|Ec]; [by left|right].
      by apply negb_true_iff, String.eqb_neq in Ec.
    + intros (ve & Hve & <- & Hc & Hn). apply held_marks_none in Hn.
      exists [admissionVersion ve]. split; [|by left]. apply in_map_iff. exists ve.
      split; [|by apply list_elem_of_In]. unfold carry_one. rewrite Hn. cbn [snd].
      replace (ve_Baseline ve || negb (ve_BaselineAt ve =? "")%string) with true; [done|].
      symmetry. apply orb_true_iff. destruct Hc as [Hc|Hc]; [by left|right].
      by apply negb_true_iff, String.eqb_neq.
Qed.
