(* ===== verification/Admissions.v ===== *)
(** The admissions table (internal/audit/admission.go): recording a decision,
    attaching an object to the decision it was fetched under, and reading both
    back.

    The table is its rows in the order of their ids; a key that is not set is
    NULL.  [decided_at] is kept to the microsecond, as the text of the SQLite
    column is, and the order of two texts is that of the times.  A statement
    that fails aborts its transaction, so one argument says whether the store
    answers.  The JSON of the checks column is read back as it was written, and
    two entries marshal to one text when they are equal. *)

From stdpp Require Import base list gmap strings sorting.
From Stdlib Require Import ZArith Lia Ascii Sorted.
From S2P Require Import Prelude GoStrings GoSort Types Override AdmitOverride Gate.

#[global] Instance provenance_eq_dec : EqDecision UpstreamProvenance.
Proof. solve_decision. Defined.
#[global] Instance checksum_database_eq_dec : EqDecision ChecksumDatabase.
Proof. solve_decision. Defined.
#[global] Instance check_eq_dec : EqDecision AdmissionCheck.
Proof. solve_decision. Defined.

(** ** What a row says *)

Definition AdmissionInvalid := "invalid".

Definition ValidAdmissionDecision (d : string) : bool :=
  slice_contains [AdmissionAdmitted; AdmissionPolicyBlocked; AdmissionInvalid] d.

Definition ProvenanceVerified := "verified".

Definition SignedSubjectDigest (a : Admission) : string :=
  match List.find (fun c => (ac_Check c =? CheckUpstreamProvenance)%string
                            && match ac_Provenance c with Some p => (up_Outcome p =? ProvenanceVerified)%string | None => false end)
                  (ad_Checks a) with
  | Some c => match ac_Provenance c with Some p => up_SubjectDigest p | None => "" end
  | None => ""
  end.

Definition evaluated (checks : list AdmissionCheck) : bool :=
  existsb (fun c => negb (ac_Status c =? CheckNotEvaluated)%string) checks.

Definition Evaluated (a : Admission) : bool := evaluated (ad_Checks a).

Definition not_evaluated_check (detail name : string) : AdmissionCheck :=
  MkCheck name ActionNone CheckNotEvaluated detail None None "" "".

Definition NotEvaluatedChecks (detail : string) : list AdmissionCheck :=
  map (not_evaluated_check detail) [CheckAllowList; CheckAge; CheckOSV; CheckUpstreamProvenance; CheckNameSimilarity].

Definition NotEvaluatedChecksFor (typ detail : string) : list AdmissionCheck :=
  if negb (typ =? TypeGomod)%string then NotEvaluatedChecks detail
  else map (not_evaluated_check detail)
         [CheckAllowList; CheckAge; CheckOSV; CheckUpstreamProvenance; CheckChecksumDatabase; CheckNameSimilarity].

Definition checksum_entry (checks : list AdmissionCheck) : option AdmissionCheck :=
  List.find (fun c => (ac_Check c =? CheckChecksumDatabase)%string) checks.

Definition sameChecksumEvidence (a b : list AdmissionCheck) : bool := bool_decide (checksum_entry a = checksum_entry b).

Definition verifiedChecksumEvidence (checks : list AdmissionCheck) : bool :=
  existsb (fun c => (ac_Check c =? CheckChecksumDatabase)%string
                    && match ac_ChecksumDatabase c with Some d => (cd_Outcome d =? ProvenanceVerified)%string | None => false end) checks.

(** ** The table *)

Record admission_row := MkRow {
  rw_ID : Z;
  rw_PkgType : string;
  rw_PkgName : string;
  rw_PkgVersion : string;
  rw_key : option string;
  rw_Decision : string;
  rw_Checks : list AdmissionCheck;
  rw_PolicyDigest : string;
  rw_Actor : string;
  rw_Identity : string;
  rw_decided : Z
}.

Record table := MkTable { tb_rows : list admission_row; tb_next : Z }.

Definition empty_table : table := MkTable [] 1.

Definition nullKey (k : string) : option string := if (k =? "")%string then None else Some k.

(** The column's six digits of the second. *)
Definition sqliteDecidedAt (ns : Z) : Z := ns / 1000 * 1000.

(** What [Scan] makes of a row. *)
Definition scan (r : admission_row) : Admission :=
  MkAdmission (rw_ID r) (rw_PkgType r) (rw_PkgName r) (rw_PkgVersion r) (default "" (rw_key r)) (rw_Decision r)
    (rw_Checks r) (rw_PolicyDigest r) (rw_Actor r) (rw_Identity r) (Some (rw_decided r)).

Definition set_key (k : string) (r : admission_row) : admission_row :=
  MkRow (rw_ID r) (rw_PkgType r) (rw_PkgName r) (rw_PkgVersion r) (Some k) (rw_Decision r) (rw_Checks r)
    (rw_PolicyDigest r) (rw_Actor r) (rw_Identity r) (rw_decided r).

Definition set_id (id : Z) (r : admission_row) : admission_row :=
  MkRow id (rw_PkgType r) (rw_PkgName r) (rw_PkgVersion r) (rw_key r) (rw_Decision r) (rw_Checks r)
    (rw_PolicyDigest r) (rw_Actor r) (rw_Identity r) (rw_decided r).

Definition insert_row (r : admission_row) (t : table) : table :=
  MkTable (tb_rows t ++ [set_id (tb_next t) r]) (tb_next t + 1).

(** [ORDER BY decided_at DESC, id DESC] *)
Definition desc {A} (cmp : A -> A -> Z) (a b : A) : Z := cmp b a.

Definition row_cmp : admission_row -> admission_row -> Z :=
  lex (desc (on_key rw_decided compareInt)) (desc (on_key rw_ID compareInt)).

Definition newest_first (rows : list admission_row) : list admission_row :=
  SliceStable (fun a b => row_cmp a b <? 0) rows.

(** ** Reading *)

Record AdmissionFilter := MkFilter {
  af_PkgType : string;
  af_PkgName : string;
  af_PkgVersion : string;
  af_ObjectKey : string;
  af_Since : option Z;
  af_Limit : Z
}.

Definition effectiveLimit (limit : Z) : Z := if limit <=? 0 then 1000 else limit.

(** An empty field matches everything. *)
Definition field_matches (want have : string) : bool := (want =? "")%string || (have =? want)%string.

(** [col = ?] on a column that may be NULL. *)
Definition key_matches (want : string) (have : option string) : bool :=
  (want =? "")%string || match have with Some k => (k =? want)%string | None => false end.

Definition row_matches (f : AdmissionFilter) (r : admission_row) : bool :=
  field_matches (af_PkgType f) (rw_PkgType r) && field_matches (af_PkgName f) (rw_PkgName r)
  && field_matches (af_PkgVersion f) (rw_PkgVersion r) && key_matches (af_ObjectKey f) (rw_key r)
  && match af_Since f with Some t => sqliteDecidedAt t <=? rw_decided r | None => true end.

Definition QueryAdmissions (f : AdmissionFilter) (t : table) : list Admission :=
  map scan (take (Z.to_nat (effectiveLimit (af_Limit f))) (newest_first (List.filter (row_matches f) (tb_rows t)))).

Record AdmissionPin := MkPin {
  pn_PkgType : string;
  pn_PkgName : string;
  pn_PkgVersion : string;
  pn_ObjectKey : string;
  pn_Admitted : option Admission
}.

Definition pin_text (p : AdmissionPin) : list string := [pn_PkgType p; pn_PkgName p; pn_PkgVersion p; pn_ObjectKey p].

Definition versioned_pin (f : AdmissionFilter) (r : admission_row) : option AdmissionPin :=
  if negb (rw_PkgVersion r =? "")%string && ((rw_Decision r =? AdmissionAdmitted)%string || isSome (rw_key r))
     && field_matches (af_PkgType f) (rw_PkgType r) && field_matches (af_PkgName f) (rw_PkgName r)
     && field_matches (af_PkgVersion f) (rw_PkgVersion r)
  then Some (MkPin (rw_PkgType r) (rw_PkgName r) (rw_PkgVersion r) "" None) else None.

Definition unversioned_pin (f : AdmissionFilter) (r : admission_row) : option AdmissionPin :=
  match rw_key r with
  | None => None
  | Some k =>
      if (rw_PkgVersion r =? "")%string && negb (k =? "")%string
         && field_matches (af_PkgType f) (rw_PkgType r) && field_matches (af_PkgName f) (rw_PkgName r)
         && field_matches (af_ObjectKey f) k
      then Some (MkPin (rw_PkgType r) (rw_PkgName r) "" k None) else None
  end.

(** [ORDER BY 1, 2, 3, 4] *)
Definition pin_cmp : AdmissionPin -> AdmissionPin -> Z :=
  lex (on_key pn_PkgType Compare) (lex (on_key pn_PkgName Compare)
    (lex (on_key pn_PkgVersion Compare) (on_key pn_ObjectKey Compare))).

Definition pin_less (a b : AdmissionPin) : bool := pin_cmp a b <? 0.

(** [GROUP BY] every column keeps one row of each. *)
Fixpoint group_pins (l : list AdmissionPin) : list AdmissionPin :=
  match l with
  | [] => []
  | p :: l => if existsb (fun q => bool_decide (pin_text q = pin_text p)) l then group_pins l else p :: group_pins l
  end.

Definition admittedVersions (f : AdmissionFilter) (t : table) : list AdmissionPin :=
  SliceStable pin_less
    ((if (af_ObjectKey f =? "")%string then group_pins (omap (versioned_pin f) (tb_rows t)) else [])
     ++ (if (af_PkgVersion f =? "")%string then group_pins (omap (unversioned_pin f) (tb_rows t)) else [])).

(** ** Pinning *)

Inductive pin_error :=
| ErrAdmissionNotLocated
| ErrUnboundChecksumEvidence
| PinFailed.

(** [pinCandidate] over the rows read. *)
Definition pinCandidate (rows : list admission_row) (admitted : option Admission) : option admission_row :=
  match admitted with
  | None => head rows
  | Some a => List.find (fun r => sameChecksumEvidence (rw_Checks r) (ad_Checks a)) rows
  end.

Definition pinCandidateWindow : nat := 200.

Definition pin_rows (p : AdmissionPin) (t : table) : list admission_row :=
  newest_first (List.filter (fun r => (rw_PkgType r =? pn_PkgType p)%string && (rw_PkgName r =? pn_PkgName p)%string
    && (rw_PkgVersion r =? pn_PkgVersion p)%string && (rw_Decision r =? AdmissionAdmitted)%string) (tb_rows t)).

Definition pin_target (p : AdmissionPin) (t : table) : option admission_row :=
  match pinCandidate (take 1 (pin_rows p t)) None with
  | None => None
  | Some r =>
      match pn_Admitted p with
      | None => Some r
      | Some a =>
          if sameChecksumEvidence (rw_Checks r) (ad_Checks a) then Some r
          else pinCandidate (take pinCandidateWindow (pin_rows p t)) (Some a)
      end
  end.

Record pin_result := MkPinResult { pr_Found : bool; pr_Attached : bool; pr_Row : option admission_row }.

Definition key_is (k : string) (r : admission_row) : bool := match rw_key r with Some k' => (k' =? k)%string | None => false end.

Definition pinTx (p : AdmissionPin) (t : table) : table * (pin_result + pin_error) :=
  match pin_target p t with
  | None =>
      match pn_Admitted p with
      | Some _ => (t, inr ErrAdmissionNotLocated)
      | None => (t, inl (MkPinResult false false None))
      end
  | Some row =>
      let key := pn_ObjectKey p in
      if negb (isSome (pn_Admitted p)) && negb (default "" (rw_key row) =? key)%string && verifiedChecksumEvidence (rw_Checks row)
      then (t, inr ErrUnboundChecksumEvidence)
      else
        match rw_key row with
        | None =>
            (MkTable (map (fun r => if rw_ID r =? rw_ID row then set_key key r else r) (tb_rows t)) (tb_next t),
             inl (MkPinResult true true (Some (set_key key row))))
        | Some k =>
            if (k =? key)%string then (t, inl (MkPinResult true false (Some row)))
            else if existsb (key_is key) (pin_rows p t) then (t, inl (MkPinResult true false (Some row)))
            else (insert_row (set_key key row) t, inl (MkPinResult true true (Some (set_key key row))))
        end
  end.

(** ** The sink *)

(** A sink that is only written to keeps the lines in order. *)
Inductive line := AdmissionLine (a : Admission) | PinLine (p : AdmissionPin).
Inductive sink := Queryable (t : table) | WriteOnly (lines : list line).

Record DB := MkAuditDB { db_readOnly : bool; db_sink : sink }.

Inductive record_error := DecisionOutsideSet (decision : string) | RecordFailed.

Section writes.
Context (principal : option (string * string)) (now : Z).

Definition stamped (row : Admission) : Admission :=
  let '(actor, identity) := default (ad_Actor row, ad_Identity row) principal in
  MkAdmission (ad_ID row) (ad_PkgType row) (ad_PkgName row) (ad_PkgVersion row) (ad_ObjectKey row) (ad_Decision row)
    (ad_Checks row) (ad_PolicyDigest row) actor identity (Some (default now (ad_DecidedAt row))).

Definition row_of_admission (a : Admission) : admission_row :=
  MkRow 0 (ad_PkgType a) (ad_PkgName a) (ad_PkgVersion a) (nullKey (ad_ObjectKey a)) (ad_Decision a) (ad_Checks a)
    (ad_PolicyDigest a) (ad_Actor a) (ad_Identity a) (sqliteDecidedAt (default now (ad_DecidedAt a))).

Definition sink_record (ok : bool) (row : Admission) (s : sink) : sink * option record_error :=
  if negb ok then (s, Some RecordFailed)
  else match s with
       | Queryable t => (Queryable (insert_row (row_of_admission row) t), None)
       | WriteOnly lines => (WriteOnly (lines ++ [AdmissionLine row]), None)
       end.

Definition RecordAdmission (ok : bool) (row : Admission) (a : DB) : DB * option record_error :=
  if db_readOnly a then (a, None)
  else if negb (ValidAdmissionDecision (ad_Decision row)) then (a, Some (DecisionOutsideSet (ad_Decision row)))
  else let '(s, err) := sink_record ok (stamped row) (db_sink a) in (MkAuditDB false s, err).

Inductive PinOutcome := PinAttached | PinUnadmitted | PinUnverified.

Definition undecided_row (p : AdmissionPin) : Admission :=
  MkAdmission 0 (pn_PkgType p) (pn_PkgName p) (pn_PkgVersion p) (pn_ObjectKey p) AdmissionAdmitted
    (NotEvaluatedChecksFor (pn_PkgType p) "pinned with no admission decision on record for this version") "" "" "" None.

(** [ok]: the transaction commits; [record_ok]: the row written after it is. *)
Definition PinAdmission (ok record_ok : bool) (p : AdmissionPin) (a : DB) : DB * PinOutcome * option (pin_error + record_error) :=
  if db_readOnly a then (a, PinUnverified, None)
  else
    match db_sink a with
    | WriteOnly lines =>
        if ok then (MkAuditDB false (WriteOnly (lines ++ [PinLine p])), PinUnverified, None)
        else (a, PinUnverified, Some (inl PinFailed))
    | Queryable t =>
        if negb ok then (a, PinAttached, Some (inl PinFailed))
        else
          match pinTx p t with
          | (_, inr err) => (a, PinAttached, Some (inl err))
          | (t, inl res) =>
              let a := MkAuditDB false (Queryable t) in
              if pr_Found res then
                if pr_Attached res && negb (match pr_Row res with Some r => evaluated (rw_Checks r) | None => false end)
                then (a, PinUnadmitted, None) else (a, PinAttached, None)
              else
                let '(a, err) := RecordAdmission record_ok (undecided_row p) a in (a, PinUnadmitted, option_map inr err)
          end
    end.
End writes.

(** ** Reading for a signer *)

Record ChecksumComparison := MkComparison { cc_SHA256 : string; cc_Checks : list AdmissionCheck }.

Definition vouches (sha : string) (compared : option ChecksumComparison) (r : Admission) : bool :=
  match compared with
  | None => false
  | Some c => negb (sha =? "")%string && EqualFold (cc_SHA256 c) sha && sameChecksumEvidence (ad_Checks r) (cc_Checks c)
  end.

Definition ComparedAdmissions (sha : string) (compared : option ChecksumComparison) (rows : list Admission) : list Admission :=
  List.filter (fun r => negb ((ad_Decision r =? AdmissionAdmitted)%string && verifiedChecksumEvidence (ad_Checks r)
                              && negb (vouches sha compared r))) rows.

(** ** The order of the rows *)

Lemma desc_comparator {A} (cmp : A -> A -> Z) : Comparator cmp -> Comparator (desc cmp).
Proof.
  intros Hc. split; unfold desc; [intros a b; apply (cmp_anti cmp)|]. intros a b c H1 H2. by apply (cmp_trans cmp c b a).
Qed.

#[global] Instance row_cmp_comparator : Comparator row_cmp.
Proof. apply lex_comparator; apply desc_comparator, _. Qed.
#[global] Instance pin_cmp_comparator : Comparator pin_cmp := _.

Lemma newest_first_perm rows : newest_first rows ≡ₚ rows.
Proof. apply SliceStable_perm. Qed.

Lemma newest_first_sorted rows : StronglySorted (fun a b => row_cmp a b <= 0) (newest_first rows).
Proof. by apply (SliceStable_by _ row_cmp). Qed.

Lemma pin_rows_elem p t r : r ∈ pin_rows p t <->
  r ∈ tb_rows t /\ rw_PkgType r = pn_PkgType p /\ rw_PkgName r = pn_PkgName p /\ rw_PkgVersion r = pn_PkgVersion p
  /\ rw_Decision r = AdmissionAdmitted.
Proof. unfold pin_rows. rewrite newest_first_perm, filter_elem, !andb_true_iff, !String.eqb_eq. tauto. Qed.

(** ** Pinning *)

(** Ids are assigned once. *)
Definition table_ok (t : table) : Prop :=
  NoDup (map rw_ID (tb_rows t)) /\ Forall (fun r => rw_ID r < tb_next t) (tb_rows t).

Lemma insert_row_ok r t : table_ok t -> table_ok (insert_row r t).
Proof.
  intros [Hn Hf]. split; cbn.
  - rewrite map_app. apply NoDup_app. split_and!; [done| |apply NoDup_singleton]. cbn.
    intros id (r0 & E & Hr)%list_elem_of_In%in_map_iff E'%list_elem_of_singleton. rewrite Forall_forall in Hf.
    apply list_elem_of_In, Hf in Hr. lia.
  - apply Forall_app. split; [eapply Forall_impl; [exact Hf|]; cbn; lia|]. apply Forall_singleton. cbn. lia.
Qed.

Lemma same_row t r r' : table_ok t -> r ∈ tb_rows t -> r' ∈ tb_rows t -> rw_ID r = rw_ID r' -> r = r'.
Proof.
  intros [Hn _]. revert Hn. induction (tb_rows t) as [|x rows IH]; cbn; [by intros _ ?%elem_of_nil|].
  intros [Hx Hn]%NoDup_cons [->|Hr]%elem_of_cons [->|Hr']%elem_of_cons E; [done| | |by apply IH].
  - destruct Hx. rewrite E. by apply list_elem_of_In, in_map, list_elem_of_In.
  - destruct Hx. rewrite <- E. by apply list_elem_of_In, in_map, list_elem_of_In.
Qed.

(** The evidence a pin may attach to. *)
Definition evidence_ok (p : AdmissionPin) (checks : list AdmissionCheck) : bool :=
  match pn_Admitted p with
  | Some a => sameChecksumEvidence checks (ad_Checks a)
  | None => negb (verifiedChecksumEvidence checks)
  end.

Lemma pin_target_Some p t r : pin_target p t = Some r ->
  r ∈ pin_rows p t /\ forall a, pn_Admitted p = Some a -> sameChecksumEvidence (rw_Checks r) (ad_Checks a) = true.
Proof.
  unfold pin_target, pinCandidate. intros H.
  assert (Hh : forall r0, head (take 1 (pin_rows p t)) = Some r0 -> r0 ∈ pin_rows p t).
  { intros r0. destruct (pin_rows p t); cbn; [done|]. intros [= ->]. by left. }
  destruct (head (take 1 (pin_rows p t))) as [r0|] eqn:E; [|done]. specialize (Hh r0 eq_refl).
  destruct (pn_Admitted p) as [a|]; [|by injection H as <-].
  destruct (sameChecksumEvidence (rw_Checks r0) (ad_Checks a)) eqn:Es.
  - injection H as <-. split; [done|]. by intros a' [= <-].
  - apply find_some in H as [Hin Hs]. split; [|by intros a' [= <-]].
    apply list_elem_of_In in Hin. by apply elem_of_take in Hin as (i & Hi%list_elem_of_lookup_2 & _).
Qed.

Lemma pin_target_None p t : pin_target p t = None -> pn_Admitted p = None -> pin_rows p t = [].
Proof.
  unfold pin_target, pinCandidate. intros H Ha. rewrite Ha in H. destruct (pin_rows p t); [done|]. by cbn in H.
Qed.

(** What a pin may do to the table. *)
Definition attached (p : AdmissionPin) (t : table) (r r' : admission_row) : Prop :=
  r' = r \/ (r ∈ pin_rows p t /\ rw_key r = None /\ evidence_ok p (rw_Checks r) = true /\ r' = set_key (pn_ObjectKey p) r).

Definition extra_row (p : AdmissionPin) (t : table) (r' : admission_row) : Prop :=
  (exists r, r ∈ pin_rows p t /\ evidence_ok p (rw_Checks r) = true /\ r' = set_id (tb_next t) (set_key (pn_ObjectKey p) r))
  \/ (pn_Admitted p = None /\ pin_rows p t = [] /\ evaluated (rw_Checks r') = false).

Definition carries (p : AdmissionPin) (r : admission_row) : Prop :=
  rw_PkgType r = pn_PkgType p /\ rw_PkgName r = pn_PkgName p /\ rw_PkgVersion r = pn_PkgVersion p
  /\ rw_Decision r = AdmissionAdmitted /\ rw_key r = Some (pn_ObjectKey p).

Definition pinned (p : AdmissionPin) (t t' : table) : Prop :=
  table_ok t' /\ exists rows extra, tb_rows t' = rows ++ extra /\ Forall2 (attached p t) (tb_rows t) rows
  /\ (length extra <= 1)%nat /\ Forall (extra_row p t) extra.

Lemma pinned_same p t : table_ok t -> pinned p t t.
Proof.
  intros Ht. split; [done|]. exists (tb_rows t), []. rewrite List.app_nil_r. split_and!; [done| |cbn; lia|done].
  apply Forall2_same_length_lookup_2; [done|]. intros i x y Hx Hy. left. congruence.
Qed.

Lemma pinned_insert p t r : table_ok t -> extra_row p t (set_id (tb_next t) r) -> pinned p t (insert_row r t).
Proof.
  intros Ht Hr. split; [by apply insert_row_ok|]. exists (tb_rows t), [set_id (tb_next t) r]. split_and!; [done| |cbn; lia|by apply Forall_singleton].
  apply Forall2_same_length_lookup_2; [done|]. intros i x y Hx Hy. left. congruence.
Qed.

Lemma pinTx_spec p t : table_ok t -> pn_ObjectKey p <> "" ->
  match pinTx p t with
  | (t', inr _) => t' = t
  | (t', inl res) =>
      pinned p t t'
      /\ if pr_Found res then exists r, r ∈ tb_rows t' /\ carries p r
         else t' = t /\ pn_Admitted p = None /\ pin_rows p t = []
  end.
Proof.
  intros Ht Hk. unfold pinTx. destruct (pin_target p t) as [row|] eqn:Et.
  2:{ destruct (pn_Admitted p) eqn:Ea; [done|]. split; [by apply pinned_same|]. cbn. split_and!; [done..|]. by apply pin_target_None. }
  apply pin_target_Some in Et as [Hin Hev]. pose proof Hin as (Hrow & H1 & H2 & H3 & H4)%pin_rows_elem.
  destruct (negb (isSome (pn_Admitted p)) && _ && _) eqn:Eu; [done|].
  assert (Hev' : rw_key row = Some (pn_ObjectKey p) \/ evidence_ok p (rw_Checks row) = true).
  { unfold evidence_ok. destruct (pn_Admitted p) as [a|]; [right; by apply Hev|]. cbn in Eu.
    destruct (String.eqb_spec (default "" (rw_key row)) (pn_ObjectKey p)) as [E|]; [|right; cbn in Eu; by rewrite Eu].
    left. destruct (rw_key row); cbn in E; [by rewrite E|]. by rewrite E in Hk. }
  destruct (rw_key row) as [k|] eqn:Ek.
  - destruct (String.eqb_spec k (pn_ObjectKey p)) as [->|Hne].
    { split; [by apply pinned_same|]. cbn. exists row. by split. }
    destruct Hev' as [[= ->]|Hev']; [done|].
    destruct (existsb _ _) eqn:Ex.
    { split; [by apply pinned_same|]. cbn. apply existsb_exists in Ex as (r & Hr%list_elem_of_In%pin_rows_elem & Hkr).
      exists r. destruct Hr as (? & ? & ? & ? & ?). unfold key_is in Hkr. destruct (rw_key r) eqn:Er; [|done].
      apply String.eqb_eq in Hkr as ->. by split. }
    split.
    + apply pinned_insert; [done|]. left. by exists row.
    + cbn. eexists. split; [apply elem_of_app; right; by apply list_elem_of_singleton|]. by unfold carries.
  - destruct Hev' as [[=]|Hev']. set (upd := fun r => if rw_ID r =? rw_ID row then set_key (pn_ObjectKey p) r else r).
    assert (Hid : forall r, rw_ID (upd r) = rw_ID r) by (intros r; unfold upd; by destruct (rw_ID r =? rw_ID row)).
    split.
    + split.
      * destruct Ht as [Hn Hf]. split; cbn.
        -- rewrite map_map. by rewrite (map_ext _ _ Hid).
        -- apply Forall_map. eapply Forall_impl; [exact Hf|]. intros r. cbn beta. by rewrite Hid.
      * exists (map upd (tb_rows t)), []. rewrite List.app_nil_r. split_and!; [done| |cbn; lia|done].
        apply Forall2_fmap_r, Forall2_same_length_lookup_2; [done|]. intros i x y Hx Hy. replace y with x by congruence.
        apply list_elem_of_lookup_2 in Hx. destruct (Z.eq_dec (rw_ID x) (rw_ID row)) as [E|n].
        -- right. rewrite (same_row t x row Ht Hx Hrow E). split_and!; [done..|]. unfold upd. by rewrite Z.eqb_refl.
        -- left. unfold upd. by rewrite (proj2 (Z.eqb_neq _ _) n).
    + cbn. exists (upd row). split; [by apply list_elem_of_In, in_map, list_elem_of_In|]. unfold upd. rewrite Z.eqb_refl. by unfold carries.
Qed.

(** C6: A pin decides nothing.  Whatever it answers, the table afterwards has every
    row it had, each as it was or, where no object was attached and the checksum
    evidence is the one the pin may attach to, with the object; and at most one
    row more, a copy of such a row with the object or, when the version has no
    admitted row and the caller names no admission, one whose checks all say not
    evaluated.  An error changes nothing, and a pin that succeeds leaves an
    admitted row of the version that carries the object. *)
Theorem PinAdmission_binds principal now ok record_ok p t : table_ok t -> pn_ObjectKey p <> "" ->
  let '(a, outcome, err) := PinAdmission principal now ok record_ok p (MkAuditDB false (Queryable t)) in
  exists t', db_sink a = Queryable t' /\ pinned p t t'
    /\ (err = None -> exists r, r ∈ tb_rows t' /\ carries p r)
    /\ (is_Some err -> t' = t)
    /\ (outcome = PinUnverified -> False).
Proof.
  intros Ht Hk. unfold PinAdmission. cbn [db_readOnly db_sink]. destruct ok; cbn [negb].
  2:{ exists t. split_and!; [done|by apply pinned_same|done..]. }
  pose proof (pinTx_spec p t Ht Hk) as H. destruct (pinTx p t) as [t1 [res|err]].
  2:{ exists t. split_and!; [done|by apply pinned_same|done..]. }
  destruct H as [Hp H]. destruct (pr_Found res).
  { destruct (pr_Attached res && _); exists t1; (split_and!; [done|done|done|by intros []|done]). }
  destruct H as (-> & Ha & Hr). unfold RecordAdmission. cbn [db_readOnly undecided_row ad_Decision].
  replace (ValidAdmissionDecision AdmissionAdmitted) with true by done. cbn [negb db_sink].
  unfold sink_record. destruct record_ok; cbn [negb option_map].
  2:{ exists t. split_and!; [done|done|done..]. }
  eexists. split; [done|]. split_and!; [|intros _; eexists; split; [apply elem_of_app; right; by apply list_elem_of_singleton|]|by intros []|done].
  - apply pinned_insert; [done|]. right. split_and!; [done|done|]. cbn. unfold stamped. destruct principal as [[]|]; cbn; unfold NotEvaluatedChecksFor;
      by destruct (negb _).
  - unfold stamped, carries. destruct (default _ principal) as [actor identity]. cbn. unfold nullKey.
    by rewrite (proj2 (String.eqb_neq _ _) Hk).
Qed.

(** ** Reading *)

Lemma effectiveLimit_pos l : 0 < effectiveLimit l.
Proof. unfold effectiveLimit. destruct (Z.leb_spec l 0); lia. Qed.

(** The newest of the rows a filter selects, in order: a row left out is older
    than every row answered. *)
Lemma QueryAdmissions_newest f t :
  exists rows, QueryAdmissions f t = map scan rows
    /\ StronglySorted (fun a b => row_cmp a b <= 0) rows
    /\ Forall (fun r => r ∈ tb_rows t /\ row_matches f r = true) rows
    /\ forall r, r ∈ tb_rows t -> row_matches f r = true -> r ∈ rows \/ Forall (fun r' => row_cmp r' r <= 0) rows.
Proof.
  unfold QueryAdmissions. set (n := Z.to_nat _). set (all := List.filter _ _). exists (take n (newest_first all)).
  pose proof (newest_first_sorted all) as Hs. pose proof (newest_first_perm all) as Hp.
  rewrite <- (take_drop n (newest_first all)) in Hs, Hp. apply StronglySorted_app in Hs as (Hx & Hs1 & _).
  split_and!; [done|done| |].
  - apply Forall_forall. intros r Hr. apply filter_elem. change (r ∈ all). rewrite <- Hp. apply elem_of_app. by left.
  - intros r Hr Hm. assert (Hin : r ∈ all) by by apply filter_elem. rewrite <- Hp in Hin.
    apply elem_of_app in Hin as [|Hin]; [by left|right]. apply Forall_forall. intros r' Hr'. by apply Hx.
Qed.

Lemma pin_text_inj p q : pn_Admitted p = None -> pn_Admitted q = None -> pin_text p = pin_text q -> p = q.
Proof. destruct p, q. cbn. by intros -> -> [= -> -> -> ->]. Qed.

Lemma group_pins_spec l : Forall (fun p => pn_Admitted p = None) l ->
  NoDup (group_pins l) /\ forall p, p ∈ group_pins l <-> p ∈ l.
Proof.
  induction 1 as [|x l Hx Hl [IH1 IH2]]; [split; [constructor|done]|]. cbn.
  destruct (existsb _ l) eqn:E.
  - split; [done|]. intros p. rewrite IH2, elem_of_cons. split; [by right|]. intros [->|]; [|done].
    apply existsb_exists in E as (q & Hq%list_elem_of_In & Ht%bool_decide_eq_true). rewrite Forall_forall in Hl.
    by rewrite <- (pin_text_inj q x (Hl q Hq) Hx Ht).
  - split; [|intros p; by rewrite !elem_of_cons, IH2]. constructor; [|done]. rewrite IH2. intros Hin.
    apply not_true_iff_false in E. apply E, existsb_exists. exists x. split; [by apply list_elem_of_In|by apply bool_decide_eq_true].
Qed.

(** What the table says was served: a version with a row that admitted it or
    that an object was pinned under, and each object of a row with no version. *)
Definition served (f : AdmissionFilter) (t : table) (p : AdmissionPin) : Prop :=
  exists r, r ∈ tb_rows t
    /\ ((af_ObjectKey f = "" /\ versioned_pin f r = Some p) \/ (af_PkgVersion f = "" /\ unversioned_pin f r = Some p)).

(** Each is listed once, in order. *)
Lemma admittedVersions_lists f t :
  NoDup (admittedVersions f t) /\ StronglySorted (fun a b => pin_cmp a b <= 0) (admittedVersions f t)
  /\ forall p, p ∈ admittedVersions f t <-> served f t p.
Proof.
  unfold admittedVersions. match goal with |- context [SliceStable pin_less (?a ++ ?b)] => set (l1 := a); set (l2 := b) end.
  assert (H1 : NoDup l1 /\ forall p, p ∈ l1 <-> exists r, r ∈ tb_rows t /\ af_ObjectKey f = "" /\ versioned_pin f r = Some p).
  { unfold l1. destruct (String.eqb_spec (af_ObjectKey f) "") as [E|]; [|split; [constructor|intros p; rewrite elem_of_nil; naive_solver]].
    destruct (group_pins_spec (omap (versioned_pin f) (tb_rows t))) as [Hn He].
    { apply Forall_forall. intros p (r & _ & Hr)%list_elem_of_omap. unfold versioned_pin in Hr. destruct (_ && _); by simplify_eq. }
    split; [done|]. intros p. rewrite He, list_elem_of_omap. naive_solver. }
  assert (H2 : NoDup l2 /\ forall p, p ∈ l2 <-> exists r, r ∈ tb_rows t /\ af_PkgVersion f = "" /\ unversioned_pin f r = Some p).
  { unfold l2. destruct (String.eqb_spec (af_PkgVersion f) "") as [E|]; [|split; [constructor|intros p; rewrite elem_of_nil; naive_solver]].
    destruct (group_pins_spec (omap (unversioned_pin f) (tb_rows t))) as [Hn He].
    { apply Forall_forall. intros p (r & _ & Hr)%list_elem_of_omap. unfold unversioned_pin in Hr. destruct (rw_key r); [|done]. destruct (_ && _); by simplify_eq. }
    split; [done|]. intros p. rewrite He, list_elem_of_omap. naive_solver. }
  destruct H1 as [N1 E1], H2 as [N2 E2]. split_and!.
  - rewrite SliceStable_perm. apply NoDup_app. split_and!; [done| |done].
    intros p (r & _ & _ & Hr)%E1 (r' & _ & _ & Hr')%E2. unfold versioned_pin in Hr. unfold unversioned_pin in Hr'.
    destruct (rw_key r'); [|done]. destruct (String.eqb_spec (rw_PkgVersion r) "") as [|Hv]; [done|].
    destruct (negb false && _ && _ && _ && _); [|done]. destruct (_ && _); by simplify_eq.
  - by apply (SliceStable_by _ pin_cmp).
  - intros p. rewrite SliceStable_perm, elem_of_app, E1, E2. unfold served. naive_solver.
Qed.

(** What a signer reads: every refusal, and an admission only where its checksum
    evidence is not verified or a comparison of these very bytes vouches for it. *)
Lemma ComparedAdmissions_spec sha compared rows r : r ∈ ComparedAdmissions sha compared rows <->
  r ∈ rows /\ (ad_Decision r = AdmissionAdmitted -> verifiedChecksumEvidence (ad_Checks r) = true -> vouches sha compared r = true).
Proof.
  unfold ComparedAdmissions. rewrite filter_elem. destruct (String.eqb_spec (ad_Decision r) AdmissionAdmitted), (verifiedChecksumEvidence _), (vouches _ _ _); naive_solver.
Qed.

(** ** Concrete runs *)

Definition demo_pin (key : string) (admitted : option Admission) : AdmissionPin := MkPin TypeGomod "m" "v1" key admitted.
Definition sumdb_check (outcome : string) : AdmissionCheck :=
  MkCheck CheckChecksumDatabase ActionBlock "pass" "" None (Some (MkChecksumDatabase outcome "sum" 1 "" "" "" "" "")) "" "".
Definition demo_row (id : Z) (outcome : string) (key : option string) : admission_row :=
  MkRow id TypeGomod "m" "v1" key AdmissionAdmitted [sumdb_check outcome] "" "" "" 0.
Definition demo_admitted (outcome : string) : Admission := scan (demo_row 0 outcome None).
Definition demo_table : table := MkTable [demo_row 1 ProvenanceVerified None; demo_row 2 "unknown" None] 3.

Lemma demo_table_ok : table_ok demo_table.
Proof. split; [by apply NoDup_ListNoDup; repeat constructor; cbn; intuition congruence|by repeat constructor]. Qed.

(** The newest row has other evidence than the fetch was decided under, so the
    object goes to the one that has it; a fetch that names no admission may not
    take a verified row, nor may one whose evidence no row has. *)
Example pins_by_evidence :
  option_map (fun r => map rw_key (tb_rows r)) (match (PinAdmission None 0 true true (demo_pin "k" (Some (demo_admitted ProvenanceVerified)))
      (MkAuditDB false (Queryable demo_table))).1.1 with MkAuditDB _ (Queryable t) => Some t | _ => None end) = Some [Some "k"; None]
  /\ (PinAdmission None 0 true true (demo_pin "k" None) (MkAuditDB false (Queryable (MkTable [demo_row 1 ProvenanceVerified None] 2)))).2
     = Some (inl ErrUnboundChecksumEvidence)
  /\ (PinAdmission None 0 true true (demo_pin "k" (Some (demo_admitted "invalid"))) (MkAuditDB false (Queryable demo_table))).2
     = Some (inl ErrAdmissionNotLocated).
Proof. split_and!; by vm_compute. Qed.

(** An object with no decision behind it is reported once: pinned again under the
    same key it counts as covered by the row that says nothing was evaluated. *)
Example unadmitted_once :
  let first := PinAdmission None 0 true true (demo_pin "k" None) (MkAuditDB false (Queryable empty_table)) in
  first.1.2 = PinUnadmitted /\ (PinAdmission None 0 true true (demo_pin "k" None) first.1.1).1.2 = PinAttached.
Proof. split; by vm_compute. Qed.

(** The row that already carries the object is not held to the evidence: the
    object of a fetch the log never verified counts as pinned while the only row
    that carries it says verified. *)
Definition split_table : table := MkTable [demo_row 1 ProvenanceVerified (Some "k"); demo_row 2 "unknown" (Some "k2")] 3.

Example other_evidence_carries :
  PinAdmission None 0 true true (demo_pin "k" (Some (demo_admitted "unknown"))) (MkAuditDB false (Queryable split_table))
  = (MkAuditDB false (Queryable split_table), PinAttached, None).
Proof. by vm_compute. Qed.

Lemma PinAdmission_binds_witness :
  exists t', pinned (demo_pin "k" (Some (demo_admitted ProvenanceVerified))) demo_table t'.
Proof.
  pose proof (PinAdmission_binds None 0 true true (demo_pin "k" (Some (demo_admitted ProvenanceVerified))) demo_table demo_table_ok ltac:(done)) as H.
  destruct (PinAdmission _ _ _ _ _ _) as [[a outcome] err]. destruct H as (t' & _ & H & _). by exists t'.
Defined.
