(* ===== verification/Origin.v ===== *)
(** Where a version was cataloged from: internal/admit/origin.go.

    The hosts are one comma-separated text in an entry's metadata.  The stored
    map of an entry that is appended is the incoming entry's own; nothing reads
    it after, and the model copies it. *)

From stdpp Require Import base list gmap strings.
From Stdlib Require Import ZArith Lia Ascii.
From S2P Require Import Prelude GoStrings Types.
From S2P Require Import Override AdmitOverride Gate.

Definition MetaOrigin := "_origin".

Definition Origins (ve : VersionEntry) : list string :=
  let raw := map_get (ve_Metadata ve) MetaOrigin in
  if (raw =? "")%string then []
  else List.filter (fun name => negb (name =? "")%string) (map TrimSpace (Split "," raw)).

Definition setOrigins (names : list string) (ve : VersionEntry) : VersionEntry :=
  if (length names =? 0)%nat then ve
  else set_Metadata (<[MetaOrigin := Join names ","]> (ve_Metadata ve)) ve.

Definition add_name (merged : list string) (name : string) : list string :=
  if slice_contains merged name then merged else merged ++ [name].

Definition addOrigins (names : list string) (ve : VersionEntry) : VersionEntry :=
  if (length names =? 0)%nat then ve else setOrigins (fold_left add_name names (Origins ve)) ve.

Definition admitVersionLabel (ve : VersionEntry) : string :=
  if negb (ve_Version ve =? "")%string then ve_Version ve
  else if negb (ve_Ref ve =? "")%string then ve_Ref ve else "(unnamed)".

Inductive origin_error :=
| OriginHasComma (origin : string)
| OriginDisagrees (typ name version origin have : string).

Definition ValidateOrigin (origin : string) : option origin_error :=
  if has_byte "," origin then Some (OriginHasComma origin) else None.

(** The entries before one that disagrees keep the origin they were given. *)
Fixpoint apply_origin (typ name origin : string) (vs : list VersionEntry) : list VersionEntry * option origin_error :=
  match vs with
  | [] => ([], None)
  | ve :: rest =>
      let have := Origins ve in
      if (length have =? 0)%nat then
        let '(rest, err) := apply_origin typ name origin rest in (setOrigins [origin] ve :: rest, err)
      else if slice_contains have origin then
        let '(rest, err) := apply_origin typ name origin rest in (ve :: rest, err)
      else (vs, Some (OriginDisagrees typ name (admitVersionLabel ve) origin (Join have ", ")))
  end.

Definition ApplyOrigin (origin : string) (pm : PackageManifest) : PackageManifest * option origin_error :=
  let origin := TrimSpace origin in
  if (origin =? "")%string then (pm, None)
  else match ValidateOrigin origin with
       | Some err => (pm, Some err)
       | None =>
           let '(vs, err) := apply_origin (pm_Type pm) (pm_Name pm) origin (pm_Versions pm) in
           (set_Versions vs pm, err)
       end.

(** ** Merging *)

Fixpoint merge_target (byURL : bool) (i : nat) (urlless : option nat) (vs : list VersionEntry) (ve : VersionEntry) : option nat :=
  match vs with
  | [] => urlless
  | stored :: vs =>
      if negb (admissionVersion stored =? admissionVersion ve)%string then merge_target byURL (S i) urlless vs ve
      else if negb byURL || (ve_URL stored =? ve_URL ve)%string then Some i
      else
        let urlless := if (ve_URL stored =? "")%string then match urlless with None => Some i | u => u end else urlless in
        merge_target byURL (S i) urlless vs ve
  end.

Definition mergeTarget (typ : string) (vs : list VersionEntry) (ve : VersionEntry) : option nat :=
  merge_target ((typ =? TypeApt)%string && negb (ve_URL ve =? "")%string) 0 None vs ve.

Definition merge_one (typ : string) (vs : list VersionEntry) (ve : VersionEntry) : list VersionEntry * bool :=
  match mergeTarget typ vs ve with
  | Some i => (alter (addOrigins (Origins ve)) i vs, false)
  | None => (vs ++ [ve], true)
  end.

Fixpoint merge_all (typ : string) (vs incoming : list VersionEntry) (added folded : nat) : list VersionEntry * (nat * nat) :=
  match incoming with
  | [] => (vs, (added, folded))
  | ve :: incoming =>
      let '(vs, new) := merge_one typ vs ve in
      if (new : bool) then merge_all typ vs incoming (S added) folded else merge_all typ vs incoming added (S folded)
  end.

Definition MergeVersions (existing incoming : PackageManifest) : PackageManifest * (nat * nat) :=
  let '(vs, counts) := merge_all (pm_Type existing) (pm_Versions existing) (pm_Versions incoming) 0 0 in
  (set_Versions vs existing, counts).

(** ** The text of the origins *)

(** A name the list can carry. *)
Definition origin_ok (name : string) : Prop := name <> "" /\ no_byte "," name = true /\ TrimSpace name = name.

Lemma trim_space_left_part fuel s : exists head, s = head +:+ trim_space_left fuel s.
Proof.
  revert s. induction fuel as [|fuel IH]; intros s; cbn [trim_space_left]; [by exists ""|].
  destruct (first_some (cut_prefix s) unicode_spaces) as [r|] eqn:E; [|by exists ""].
  apply first_some_Some in E as (sp & _ & ->%cut_prefix_Some). destruct (IH r) as [head E].
  exists (sp +:+ head). by rewrite app_assoc, <- E.
Qed.

Lemma TrimSpace_part s : exists head tail, s = head +:+ TrimSpace s +:+ tail.
Proof.
  unfold TrimSpace. destruct (trim_space_left_part (String.length s) s) as [head E]. set (l := trim_space_left _ s) in *.
  destruct (trim_space_right_none (String.length l) l ltac:(lia)) as [_ [tail Ht]].
  exists head, tail. by rewrite <- Ht.
Qed.

Lemma TrimSpace_no_byte c s : no_byte c s = true -> no_byte c (TrimSpace s) = true.
Proof.
  destruct (TrimSpace_part s) as (head & tail & E). rewrite E at 1. rewrite !no_byte_app, !andb_true_iff. tauto.
Qed.

Lemma Origins_ok ve : Forall origin_ok (Origins ve).
Proof.
  unfold Origins. destruct (_ =? "")%string; [constructor|]. apply Forall_forall. intros name Hn.
  apply list_elem_of_In, filter_In in Hn as [Hin Hne]. apply in_map_iff in Hin as (part & <- & Hp).
  split; [by apply negb_true_iff, String.eqb_neq in Hne|]. split; [|apply TrimSpace_idemp].
  apply TrimSpace_no_byte. pose proof (Split_segments "," (map_get (ve_Metadata ve) MetaOrigin)) as Hs.
  rewrite Forall_forall in Hs. by apply Hs, list_elem_of_In.
Qed.

Lemma kept_names names : Forall origin_ok names ->
  List.filter (fun name => negb (name =? "")%string) (map TrimSpace names) = names.
Proof.
  induction 1 as [|n names (Hne & _ & Ht) _ IH]; [done|]. cbn [map List.filter]. rewrite Ht.
  rewrite (proj2 (String.eqb_neq n "") Hne). cbn [negb]. by rewrite IH.
Qed.

Lemma Origins_text names ve : Forall origin_ok names -> names <> [] -> Origins (setOrigins names ve) = names.
Proof.
  intros Hok Hne. unfold setOrigins. destruct names as [|n names]; [done|]. cbn [length Nat.eqb].
  unfold Origins, map_get. cbn [set_Metadata ve_Metadata]. rewrite lookup_insert_eq. cbn [default from_option id].
  destruct (String.eqb_spec (Join (n :: names) ",") "") as [E|_].
  - apply Forall_cons in Hok as [(Hn & _) _]. destruct names; cbn [Join] in E; [done|]. by apply app_eq_nil in E as [-> _].
  - change "," with (String "," ""). rewrite Split_Join; [by apply kept_names|done|].
    eapply Forall_impl; [exact Hok|]. by intros ? (_ & ? & _).
Qed.

(** ** What a merge keeps *)

Lemma add_names_spec names merged :
  exists new, fold_left add_name names merged = merged ++ new /\ (forall n, n ∈ new -> n ∈ names)
    /\ forall n, n ∈ names -> n ∈ merged ++ new.
Proof.
  revert merged. induction names as [|n names IH]; intros merged; cbn [fold_left].
  { exists []. rewrite List.app_nil_r. split_and!; [done|by intros n ?%elem_of_nil|by intros n ?%elem_of_nil]. }
  unfold add_name at 2. destruct (slice_contains merged n) eqn:E.
  - destruct (IH merged) as (new & -> & Hn & Ha). exists new. split_and!; [done|intros x Hx; right; auto|].
    apply slice_contains_spec in E. intros x [->|Hx]%elem_of_cons; [apply elem_of_app; by left|auto].
  - destruct (IH (merged ++ [n])) as (new & -> & Hn & Ha). rewrite <- List.app_assoc in Ha |- *. exists ([n] ++ new).
    split_and!; [done|intros x [Hx%list_elem_of_singleton|Hx]%elem_of_app; [subst; by left|right; auto]|].
    intros x [->|Hx]%elem_of_cons; [|auto]. apply elem_of_app. right. apply elem_of_app. left. by left.
Qed.

(** An entry as it is but for its origins, and its origins as they are but for
    new ones at the end. *)
Definition same_entry (a b : VersionEntry) : Prop :=
  set_Metadata (delete MetaOrigin (ve_Metadata a)) a = set_Metadata (delete MetaOrigin (ve_Metadata b)) b
  /\ exists new, Origins b = Origins a ++ new.

Lemma setOrigins_rest names ve :
  set_Metadata (delete MetaOrigin (ve_Metadata (setOrigins names ve))) (setOrigins names ve)
  = set_Metadata (delete MetaOrigin (ve_Metadata ve)) ve.
Proof.
  unfold setOrigins. destruct (_ =? 0)%nat; [done|]. cbn [set_Metadata ve_Metadata]. by rewrite delete_insert_eq.
Qed.

Lemma addOrigins_Origins names ve : Forall origin_ok names ->
  Origins (addOrigins names ve) = fold_left add_name names (Origins ve).
Proof.
  intros Hok. unfold addOrigins. destruct names as [|n names]; [done|]. cbn [length Nat.eqb].
  destruct (add_names_spec (n :: names) (Origins ve)) as (new & E & Hn & Ha). rewrite E. apply Origins_text.
  - apply Forall_app. split; [apply Origins_ok|]. apply Forall_forall. intros x Hx. rewrite Forall_forall in Hok. auto.
  - intros Hnil. specialize (Ha n ltac:(by left)). rewrite Hnil in Ha. by apply elem_of_nil in Ha.
Qed.

Lemma addOrigins_same names ve : Forall origin_ok names -> same_entry ve (addOrigins names ve).
Proof.
  intros Hok. split; [|rewrite addOrigins_Origins by done; destruct (add_names_spec names (Origins ve)) as (new & E & _); by exists new].
  unfold addOrigins. destruct (_ =? 0)%nat; [done|]. by rewrite setOrigins_rest.
Qed.

#[global] Instance same_entry_preorder : PreOrder same_entry.
Proof.
  split.
  - intros a. split; [done|]. exists []. by rewrite List.app_nil_r.
  - intros a b c [E1 [n1 H1]] [E2 [n2 H2]]. split; [by rewrite E1|]. exists (n1 ++ n2). by rewrite H2, H1, List.app_assoc.
Qed.

(** What identifies an entry to a merge. *)
Definition id_of (ve : VersionEntry) : string * string := (admissionVersion ve, ve_URL ve).

Lemma same_entry_id a b : same_entry a b -> id_of a = id_of b.
Proof.
  intros [E _]. unfold id_of, admissionVersion. pose proof (f_equal ve_Version E) as Ev. pose proof (f_equal ve_Ref E) as Er.
  pose proof (f_equal ve_URL E) as Eu. cbn in Ev, Er, Eu. by rewrite Ev, Er, Eu.
Qed.

(** A merge looks at nothing else. *)
Lemma merge_target_ids byURL i u vs ve vs' ve' : map id_of vs = map id_of vs' -> id_of ve = id_of ve' ->
  merge_target byURL i u vs ve = merge_target byURL i u vs' ve'.
Proof.
  intros Hvs [= Hv Hu]. revert i u vs' Hvs. induction vs as [|s vs IH]; intros i u vs' Hvs; destruct vs' as [|s' vs']; try done.
  injection Hvs as Hsv Hsu Hvs. cbn [merge_target]. rewrite Hsv, Hsu, Hv, Hu. repeat case_match; auto.
Qed.

(** An entry that is a match, and one an apt entry folds into for want of one. *)
Definition full (byURL : bool) (ve stored : VersionEntry) : bool :=
  (admissionVersion stored =? admissionVersion ve)%string && (negb byURL || (ve_URL stored =? ve_URL ve)%string).

Definition fits (byURL : bool) (ve stored : VersionEntry) : bool :=
  (admissionVersion stored =? admissionVersion ve)%string
  && (negb byURL || (ve_URL stored =? ve_URL ve)%string || (ve_URL stored =? "")%string).

Lemma merge_target_cons byURL i u s vs ve :
  merge_target byURL i u (s :: vs) ve
  = if full byURL ve s then Some i
    else merge_target byURL (S i) (if fits byURL ve s then match u with None => Some i | u => u end else u) vs ve.
Proof.
  cbn [merge_target]. unfold full, fits. destruct (admissionVersion s =? _)%string; cbn [negb andb]; [|done].
  destruct (negb byURL || (ve_URL s =? ve_URL ve)%string); cbn [orb]; [done|]. by destruct (ve_URL s =? "")%string.
Qed.

Lemma full_fits byURL ve s : full byURL ve s = true -> fits byURL ve s = true.
Proof. unfold full, fits. intros [-> ->]%andb_true_iff. done. Qed.

Lemma merge_target_spec byURL i u vs ve :
  match merge_target byURL i u vs ve with
  | Some j => u = Some j \/ (i <= j)%nat /\ exists s, vs !! (j - i)%nat = Some s /\ fits byURL ve s = true
  | None => u = None /\ Forall (fun s => fits byURL ve s = false) vs
  end.
Proof.
  revert i u. induction vs as [|s vs IH]; intros i u; [destruct u; [by left|done]|].
  rewrite merge_target_cons. destruct (full byURL ve s) eqn:Ef.
  { right. split; [lia|]. exists s. rewrite Nat.sub_diag. split; [done|by apply full_fits]. }
  specialize (IH (S i) (if fits byURL ve s then match u with None => Some i | u => u end else u)).
  destruct (merge_target _ _ _ _ _) as [j|].
  - destruct IH as [E|(Hj & s' & Hs & Hf)].
    + destruct (fits byURL ve s) eqn:Efit; [|by left]. destruct u as [k|]; [by left|]. injection E as <-.
      right. split; [lia|]. exists s. by rewrite Nat.sub_diag.
    + right. split; [lia|]. exists s'. replace (j - i)%nat with (S (j - S i)) by lia. done.
  - destruct IH as [E Hf]. destruct (fits byURL ve s) eqn:Efit; [by destruct u|]. by split; [|constructor].
Qed.

(** A later entry changes the target only by being the first match. *)
Lemma merge_target_app byURL i u vs x ve j : merge_target byURL i u vs ve = Some j ->
  full byURL ve x = false \/ Exists (fun s => full byURL ve s = true) vs -> merge_target byURL i u (vs ++ [x]) ve = Some j.
Proof.
  revert i u. induction vs as [|s vs IH]; intros i u Ht Hx.
  - destruct Hx as [Hx|Hx]; [|by apply Exists_nil in Hx]. cbn [merge_target] in Ht. subst u. cbn [app].
    rewrite merge_target_cons, Hx. by destruct (fits byURL ve x).
  - cbn [app]. rewrite merge_target_cons in Ht |- *. destruct (full byURL ve s) eqn:Ef; [done|]. apply IH; [done|].
    destruct Hx as [Hx|Hx]; [by left|]. apply Exists_cons in Hx as [Hx|Hx]; [congruence|by right].
Qed.

(** The incoming entry is in: there is an entry it folds into, with its origins. *)
Definition by_url (typ : string) (ve : VersionEntry) : bool := (typ =? TypeApt)%string && negb (ve_URL ve =? "")%string.

Definition settled (typ : string) (vs : list VersionEntry) (ve : VersionEntry) : Prop :=
  exists i stored, mergeTarget typ vs ve = Some i /\ vs !! i = Some stored /\ forall n, n ∈ Origins ve -> n ∈ Origins stored.

Lemma mergeTarget_Some typ vs ve i : mergeTarget typ vs ve = Some i ->
  exists s, vs !! i = Some s /\ fits (by_url typ ve) ve s = true.
Proof.
  unfold mergeTarget. fold (by_url typ ve). intros E. pose proof (merge_target_spec (by_url typ ve) 0 None vs ve) as H.
  rewrite E in H. destruct H as [|(_ & s & Hs & Hf)]; [done|]. exists s. by rewrite Nat.sub_0_r in Hs.
Qed.

Lemma mergeTarget_None typ vs ve : mergeTarget typ vs ve = None -> Forall (fun s => fits (by_url typ ve) ve s = false) vs.
Proof.
  unfold mergeTarget. fold (by_url typ ve). intros E. pose proof (merge_target_spec (by_url typ ve) 0 None vs ve) as H.
  rewrite E in H. apply H.
Qed.

Lemma mergeTarget_new typ vs ve : mergeTarget typ vs ve = None -> mergeTarget typ (vs ++ [ve]) ve = Some (length vs).
Proof.
  intros Hf%mergeTarget_None. unfold mergeTarget. fold (by_url typ ve).
  assert (H : forall i, merge_target (by_url typ ve) i None (vs ++ [ve]) ve = Some (i + length vs)%nat); [|apply (H 0%nat)].
  induction Hf as [|s vs Hs _ IH]; intros i; cbn [app]; rewrite merge_target_cons.
  - unfold full. by rewrite !String.eqb_refl, orb_true_r, Nat.add_0_r.
  - destruct (full _ ve s) eqn:Ef; [apply full_fits in Ef; congruence|]. rewrite Hs, IH. f_equal. cbn. lia.
Qed.

Lemma mergeTarget_stays typ vs x ve i : mergeTarget typ vs x = None -> mergeTarget typ vs ve = Some i ->
  mergeTarget typ (vs ++ [x]) ve = Some i.
Proof.
  intros Hx%mergeTarget_None Ht. pose proof (mergeTarget_Some _ _ _ _ Ht) as (s & Hs & Hfit).
  unfold mergeTarget in Ht |- *. fold (by_url typ ve) in Ht |- *. apply merge_target_app; [done|].
  destruct (full (by_url typ ve) ve x) eqn:Ex; [right|by left].
  destruct (full (by_url typ ve) ve s) eqn:Es; [apply Exists_exists; exists s; split; [by eapply list_elem_of_lookup_2|done]|].
  exfalso. rewrite Forall_forall in Hx. specialize (Hx s ltac:(by eapply list_elem_of_lookup_2)).
  unfold full, fits in Ex, Es, Hfit, Hx. apply andb_true_iff in Ex as [Exv _]. apply andb_true_iff in Hfit as [Hv Hu].
  rewrite Hv in Es. cbn [andb] in Es. rewrite Es in Hu. cbn [orb] in Hu. apply String.eqb_eq in Exv, Hv.
  rewrite Hv, Exv, String.eqb_refl, Hu, orb_true_r in Hx. done.
Qed.

(** Entries kept in place, and incoming ones after them. *)
Definition grown (incoming vs vs' : list VersionEntry) : Prop :=
  exists kept new, vs' = kept ++ new /\ Forall2 same_entry vs kept
    /\ Forall (fun x => exists ve, ve ∈ incoming /\ same_entry ve x) new.

Lemma alter_same (f : VersionEntry -> VersionEntry) (R : relation VersionEntry) `{!Reflexive R} i vs :
  (forall s, vs !! i = Some s -> R s (f s)) -> Forall2 R vs (alter f i vs).
Proof.
  revert i. induction vs as [|s vs IH]; intros i Hf; [constructor|]. destruct i as [|i]; cbn.
  - constructor; [by apply Hf|]. reflexivity.
  - constructor; [done|]. by apply IH.
Qed.

Lemma same_entry_ids vs vs' : Forall2 same_entry vs vs' -> map id_of vs = map id_of vs'.
Proof. induction 1 as [|a b vs vs' H _ IH]; [done|]. cbn. by rewrite (same_entry_id a b H), IH. Qed.

Lemma mergeTarget_ids typ vs vs' ve : Forall2 same_entry vs vs' -> mergeTarget typ vs ve = mergeTarget typ vs' ve.
Proof. intros H. apply merge_target_ids; [by apply same_entry_ids|done]. Qed.

Lemma settled_kept typ vs vs' ve : Forall2 same_entry vs vs' -> settled typ vs ve -> settled typ vs' ve.
Proof.
  intros H (i & s & Ht & Hs & Ho). destruct (Forall2_lookup_l _ _ _ _ _ H Hs) as (s' & Hs' & [_ [new Hn]]).
  exists i, s'. rewrite <- (mergeTarget_ids typ vs vs' ve H). split_and!; [done..|]. intros n Hin. rewrite Hn.
  apply elem_of_app. left. auto.
Qed.

Lemma merge_one_step typ vs x :
  let '(vs', new) := merge_one typ vs x in
  grown [x] vs vs' /\ settled typ vs' x /\ (forall ve, settled typ vs ve -> settled typ vs' ve)
  /\ (if (new : bool) then vs' = vs ++ [x] else length vs' = length vs).
Proof.
  unfold merge_one. destruct (mergeTarget typ vs x) as [i|] eqn:Et.
  - assert (Hk : Forall2 same_entry vs (alter (addOrigins (Origins x)) i vs)).
    { apply alter_same; [apply _|]. intros s _. apply addOrigins_same, Origins_ok. }
    split_and!; [exists (alter (addOrigins (Origins x)) i vs), []; split_and!; [by rewrite List.app_nil_r|done|constructor]| |intros ve; by apply settled_kept|by apply length_alter].
    destruct (mergeTarget_Some _ _ _ _ Et) as (s & Hs & _). exists i, (addOrigins (Origins x) s).
    rewrite <- (mergeTarget_ids typ vs _ x Hk), list_lookup_alter_eq, Hs. split_and!; [done..|]. intros n Hn.
    rewrite addOrigins_Origins by apply Origins_ok. destruct (add_names_spec (Origins x) (Origins s)) as (new & -> & _ & Ha). auto.
  - split_and!; [exists vs, [x]; split_and!; [done|reflexivity|repeat constructor; exists x; split; [by left|reflexivity]]| | |done].
    + exists (length vs), x. split_and!; [by apply mergeTarget_new|by rewrite list_lookup_middle|done].
    + intros ve (i & s & Ht & Hs & Ho). exists i, s. split_and!; [by apply mergeTarget_stays|by apply lookup_app_l_Some|done].
Qed.

Lemma grown_weaken inc inc' vs vs' : (forall x, x ∈ inc -> x ∈ inc') -> grown inc vs vs' -> grown inc' vs vs'.
Proof.
  intros Hi (kept & new & -> & Hk & Hn). exists kept, new. split_and!; [done..|]. eapply Forall_impl; [exact Hn|].
  intros x (ve & Hve & Hs). exists ve. auto.
Qed.

Lemma grown_trans inc vs1 vs2 vs3 : grown inc vs1 vs2 -> grown inc vs2 vs3 -> grown inc vs1 vs3.
Proof.
  intros (k1 & n1 & -> & H1 & N1) (k2 & n2 & -> & H2 & N2). apply Forall2_app_inv_l in H2 as (k & n & Hk & Hn & ->).
  exists k, (n ++ n2). split_and!; [by rewrite List.app_assoc|by transitivity k1|]. apply Forall_app. split; [|done].
  clear -N1 Hn. induction Hn as [|a b n1 n Hab _ IH]; [constructor|]. apply Forall_cons in N1 as [(ve & Hve & Hs) N1].
  constructor; [|auto]. exists ve. split; [done|]. by transitivity a.
Qed.

Lemma merge_all_spec typ inc vs added folded :
  let '(vs', (a, f)) := merge_all typ vs inc added folded in
  grown inc vs vs' /\ Forall (settled typ vs') inc /\ (forall ve, settled typ vs ve -> settled typ vs' ve)
  /\ (length vs' + added = length vs + a)%nat /\ (a + f = added + folded + length inc)%nat.
Proof.
  revert vs added folded. induction inc as [|x inc IH]; intros vs added folded; cbn [merge_all].
  { split_and!; [exists vs, []; split_and!; [by rewrite List.app_nil_r|reflexivity|constructor]|constructor|done|lia|cbn; lia]. }
  pose proof (merge_one_step typ vs x) as Hs. destruct (merge_one typ vs x) as [vs1 new].
  destruct Hs as (Hg & Hx & Hkeep & Hlen).
  assert (Hl : (length vs1 = length vs + if new then 1 else 0)%nat).
  { destruct new; [rewrite Hlen, length_app; cbn; lia|lia]. }
  assert (H : forall a' f', let '(vs', (a, f)) := merge_all typ vs1 inc a' f' in
    grown (x :: inc) vs vs' /\ Forall (settled typ vs') (x :: inc) /\ (forall ve, settled typ vs ve -> settled typ vs' ve)
    /\ (length vs' + a' = length vs1 + a)%nat /\ (a + f = a' + f' + length inc)%nat).
  { intros a' f'. specialize (IH vs1 a' f'). destruct (merge_all typ vs1 inc a' f') as [vs' [a f]].
    destruct IH as (G & Hin & Hk & L1 & L2). split_and!; [|constructor; auto|auto|done|done].
    apply (grown_trans _ _ vs1); [|eapply grown_weaken; [|exact G]; by right].
    eapply grown_weaken; [|exact Hg]. intros y Hy%list_elem_of_singleton. subst. by left. }
  destruct new; [specialize (H (S added) folded)|specialize (H added (S folded))]; destruct (merge_all _ _ _ _ _) as [vs' [a f]];
    destruct H as (? & ? & ? & L1 & L2); split_and!; try done; cbn [length]; lia.
Qed.

(** A merge of what is in already. *)
Definition same_all (a b : VersionEntry) : Prop := same_entry a b /\ Origins b = Origins a.

#[global] Instance same_all_preorder : PreOrder same_all.
Proof. split; [by split|]. intros a b c [H1 E1] [H2 E2]. split; [by transitivity b|congruence]. Qed.

Lemma add_names_in names merged : (forall n, n ∈ names -> n ∈ merged) -> fold_left add_name names merged = merged.
Proof.
  induction names as [|n names IH]; intros Hn; [done|]. cbn [fold_left]. unfold add_name at 2.
  rewrite (proj2 (slice_contains_spec merged n)) by (apply Hn; by left). apply IH. intros m Hm. apply Hn. by right.
Qed.

Lemma merge_all_settled typ inc vs added folded : Forall (settled typ vs) inc ->
  let '(vs', (a, f)) := merge_all typ vs inc added folded in
  Forall2 same_all vs vs' /\ a = added /\ f = (folded + length inc)%nat.
Proof.
  revert vs added folded. induction inc as [|x inc IH]; intros vs added folded; cbn [merge_all].
  { intros _. split_and!; [reflexivity|done|cbn; lia]. }
  intros [Hx Hin]%Forall_cons. unfold merge_one. destruct Hx as (i & s & Ht & Hs & Ho). rewrite Ht.
  assert (Hk : Forall2 same_all vs (alter (addOrigins (Origins x)) i vs)).
  { apply alter_same; [apply _|]. intros s' Hs'. replace s' with s by congruence.
    split; [apply addOrigins_same, Origins_ok|]. rewrite addOrigins_Origins by apply Origins_ok. by apply add_names_in. }
  specialize (IH (alter (addOrigins (Origins x)) i vs) added (S folded)).
  destruct (merge_all _ _ _ _ _) as [vs' [a f]]. destruct IH as (H2 & -> & ->).
  - eapply Forall_impl; [exact Hin|]. intros ve. apply settled_kept. eapply Forall2_impl; [exact Hk|]. by intros ? ? [].
  - split_and!; [by transitivity (alter (addOrigins (Origins x)) i vs)|done|cbn; lia].
Qed.

(** A merge keeps every stored entry as it is but for its origins, which it
    only adds to; what it appends are incoming entries, as many as it counts;
    every incoming entry has an entry it folds into, with its origins among that
    one's.  So the same manifest merged again appends nothing and changes no
    origin. *)
Theorem merge_settles existing incoming :
  let '(merged, (added, folded)) := MergeVersions existing incoming in
  set_Versions (pm_Versions existing) merged = existing
  /\ grown (pm_Versions incoming) (pm_Versions existing) (pm_Versions merged)
  /\ Forall (settled (pm_Type existing) (pm_Versions merged)) (pm_Versions incoming)
  /\ length (pm_Versions merged) = (length (pm_Versions existing) + added)%nat
  /\ (added + folded)%nat = length (pm_Versions incoming)
  /\ let '(again, counts) := MergeVersions merged incoming in
     counts = (0%nat, length (pm_Versions incoming)) /\ Forall2 same_all (pm_Versions merged) (pm_Versions again).
Proof.
  unfold MergeVersions. pose proof (merge_all_spec (pm_Type existing) (pm_Versions incoming) (pm_Versions existing) 0 0) as H.
  destruct (merge_all _ _ _ _ _) as [vs [added folded]]. destruct H as (Hg & Hs & _ & Hl & Hc). cbn [set_Versions pm_Versions pm_Type].
  split_and!; [by destruct existing|done|done|lia|lia|].
  pose proof (merge_all_settled (pm_Type existing) (pm_Versions incoming) vs 0 0 Hs) as H.
  destruct (merge_all _ _ _ _ _) as [vs' [a f]]. destruct H as (H2 & -> & ->). done.
Qed.

Lemma slice_contains_false l s : slice_contains l s = false <-> s ∉ l.
Proof. by rewrite <- slice_contains_spec, not_true_iff_false. Qed.

Lemma apply_origin_spec typ name origin vs : origin_ok origin ->
  let '(vs', err) := apply_origin typ name origin vs in
  (err = None <-> Forall (fun ve => Origins ve = [] \/ origin ∈ Origins ve) vs)
  /\ (err = None -> Forall2 (fun ve ve' => same_entry ve ve' /\ origin ∈ Origins ve' /\ (Origins ve <> [] -> ve' = ve)) vs vs').
Proof.
  intros Hok. induction vs as [|ve vs IH]; cbn [apply_origin]; [split; [done|constructor]|].
  destruct (apply_origin typ name origin vs) as [rest err]. destruct IH as [IHn IHs].
  assert (Ht : Origins (setOrigins [origin] ve) = [origin]) by (apply Origins_text; [constructor; [done|constructor]|done]).
  destruct (Nat.eqb_spec (length (Origins ve)) 0) as [E%nil_length_inv|E].
  - split; [rewrite IHn, Forall_cons; tauto|]. intros Hn. constructor; [|auto]. split_and!.
    + split; [by rewrite setOrigins_rest|]. exists [origin]. by rewrite Ht, E.
    + rewrite Ht. by left.
    + by rewrite E.
  - assert (Hne : Origins ve <> []) by (intros Hn; by rewrite Hn in E).
    destruct (slice_contains (Origins ve) origin) eqn:Ec.
    + apply slice_contains_spec in Ec. split; [rewrite IHn, Forall_cons; tauto|]. intros Hn. constructor; [|auto].
      split_and!; [reflexivity|done|done].
    + apply slice_contains_false in Ec. split; [split; [done|rewrite Forall_cons; tauto]|done].
Qed.

(** The import flag: it is accepted exactly when no entry names other hosts
    only; then every entry names the origin, one that named hosts is as it was,
    and one that named none is the same but for it.  And the names an entry is
    given are the names it has. *)
Theorem ApplyOrigin_spec origin pm :
  origin_ok (TrimSpace origin) ->
  let '(pm', err) := ApplyOrigin origin pm in
  (err = None <-> Forall (fun ve => Origins ve = [] \/ TrimSpace origin ∈ Origins ve) (pm_Versions pm))
  /\ (err = None -> Forall2 (fun ve ve' => same_entry ve ve' /\ TrimSpace origin ∈ Origins ve' /\ (Origins ve <> [] -> ve' = ve))
                     (pm_Versions pm) (pm_Versions pm'))
  /\ forall names ve, Forall origin_ok names -> names <> [] -> Origins (setOrigins names ve) = names.
Proof.
  intros Hok. pose proof Hok as (Hne & Hc & _). unfold ApplyOrigin. rewrite (proj2 (String.eqb_neq _ _) Hne).
  unfold ValidateOrigin, has_byte. unfold no_byte in Hc. rewrite Hc. cbn [negb].
  pose proof (apply_origin_spec (pm_Type pm) (pm_Name pm) (TrimSpace origin) (pm_Versions pm) Hok) as H.
  destruct (apply_origin _ _ _ _) as [vs err]. destruct H as [H1 H2]. split_and!; [done|done|apply Origins_text].
Qed.

Definition captured (version url : string) (origins : list string) : VersionEntry :=
  setOrigins origins (MkVersionEntry version url "" "" "" "" "" "" "" "" "" [] [] false "" "" "" [] None false "" None
    false 0 [] ∅ "" "" false false "" "" "" ∅).

Definition captured_apt (vs : list VersionEntry) : PackageManifest := MkPackageManifest 1 "curl" TypeApt "" "" "" [] vs.

Lemma ApplyOrigin_spec_witness :
  (ApplyOrigin " db01 " (captured_apt [captured "7.1" "" []; captured "7.2" "" ["db02"; "db01"]])).2 = None
  /\ (ApplyOrigin "db01" (captured_apt [captured "7.1" "" ["db02"]])).2
     = Some (OriginDisagrees TypeApt "curl" "7.1" "db01" "db02")
  /\ let '(pm', err) := ApplyOrigin " db01 " (captured_apt [captured "7.1" "" []]) in
     err = None <-> Forall (fun ve => Origins ve = [] \/ TrimSpace " db01 " ∈ Origins ve)
                      (pm_Versions (captured_apt [captured "7.1" "" []])).
Proof.
  split; [by vm_compute|]. split; [by vm_compute|].
  assert (Hok : origin_ok (TrimSpace " db01 ")) by (split_and!; by vm_compute).
  pose proof (ApplyOrigin_spec " db01 " (captured_apt [captured "7.1" "" []]) Hok) as H.
  destruct (ApplyOrigin _ _) as [pm' err]. exact (proj1 H).
Defined.

(** Two architectures of one version, the first recorded without a URL. *)
Example merge_ex :
  let '(pm, counts) := MergeVersions (captured_apt [captured "7.1" "" ["db01"]])
                         (captured_apt [captured "7.1" "u/amd64" ["db02"]; captured "7.2" "u/a" []; captured "7.2" "u/b" ["db02"]]) in
  counts = (2%nat, 1%nat) /\ map (fun ve => (id_of ve, Origins ve)) (pm_Versions pm)
  = [(("7.1", ""), ["db01"; "db02"]); (("7.2", "u/a"), []); (("7.2", "u/b"), ["db02"])].
Proof. by vm_compute. Qed.
