(* ===== verification/Rollout.v ===== *)
(** Report mode: switching an ecosystem's gates to warn and back
    (internal/policy/rollout.go over the rows of internal/audit/rollout.go), and
    the report of what the gates flagged.

    The database is its policy rows and its rollout rows.  [fails] says which of
    its operations answers an error: a read by the gate's name or "rollout", the
    transaction by "write", the audit event by "record".  [rfc3339] prints a
    time. *)

From stdpp Require Import base list gmap strings sorting relations.
From Stdlib Require Import ZArith Lia Ascii.
From S2P Require Import Prelude GoStrings GoSort Types Override AdmitOverride Gate.

Definition RolloutGates : list string := [CheckAge; CheckOSV; CheckUpstreamProvenance; CheckNameSimilarity].

Definition RolloutReport := "report".
Definition RolloutEnforce := "enforce".

Record GateSwitch := MkSwitch { gs_Gate : string; gs_Before : string; gs_After : string }.

Record RolloutRow := MkRollout {
  ro_Ecosystem : string;
  ro_Saved : list GateSwitch;
  ro_Actor : string;
  ro_UpdatedAt : Z
}.

Record event := MkPolicyEvent { pv_PkgType : string; pv_Actor : string; pv_Status : string; pv_Gates : list GateSwitch }.

(** The action of each gate's row per ecosystem, the ecosystems in report mode,
    and the events recorded. *)
Record policy_db := MkDB {
  db_rows : gmap (string * string) string;
  db_rollouts : gmap string RolloutRow;
  db_events : list event
}.

Inductive rollout_error :=
| ReadRollout (err : string)
| ReadPolicy (gate err : string)
| AlreadyReporting (eco since actor : string)
| NotReporting (eco : string)
| UnknownState (state : string)
| NoTable (eco state gate : string)
| WriteFailed (eco state err : string)
| EventNotWritten (eco state err : string).

(** The tables [SetRollout] knows. *)
Definition has_table (gate : string) : bool := slice_contains RolloutGates gate.

(** UPDATE changes a row that is there and adds none. *)
Definition update_action (eco : string) (rows : gmap (string * string) string) (ga : string * string)
  : gmap (string * string) string :=
  match rows !! (ga.1, eco) with Some _ => <[(ga.1, eco) := ga.2]> rows | None => rows end.

(** The transaction: all of it or none.  [actions] is walked in any order, a gate
    at a time. *)
Definition SetRollout (fails : string -> option string) (now : Z) (r : RolloutRow) (actions : gmap string string)
  (report : bool) (db : policy_db) : policy_db + (string + string) :=
  match List.find (fun ga => negb (has_table ga.1)) (map_to_list actions) with
  | Some (gate, _) => inr (inl gate)
  | None =>
      match fails "write" with
      | Some err => inr (inr err)
      | None =>
          inl (MkDB (foldl (update_action (ro_Ecosystem r)) (db_rows db) (map_to_list actions))
                 (if report
                  then <[ro_Ecosystem r := MkRollout (ro_Ecosystem r) (ro_Saved r) (ro_Actor r) now]> (db_rollouts db)
                  else delete (ro_Ecosystem r) (db_rollouts db))
                 (db_events db))
      end
  end.

Definition GetRollout (fails : string -> option string) (db : policy_db) (eco : string) : option RolloutRow + string :=
  match fails "rollout" with Some err => inr err | None => inl (db_rollouts db !! eco) end.

(** [gateActions]: a gate with no row is absent; the first read that fails is
    the answer. *)
Fixpoint gate_actions (fails : string -> option string) (db : policy_db) (eco : string) (gates : list string)
  (out : gmap string string) : gmap string string + rollout_error :=
  match gates with
  | [] => inl out
  | gate :: gates =>
      match fails gate with
      | Some err => inr (ReadPolicy gate err)
      | None =>
          gate_actions fails db eco gates
            (match db_rows db !! (gate, eco) with Some action => <[gate := action]> out | None => out end)
      end
  end.

Definition gateActions (fails : string -> option string) (db : policy_db) (eco : string)
  : gmap string string + rollout_error := gate_actions fails db eco RolloutGates ∅.

(** The gates with a row, in order, each to warn. *)
Definition report_switches (current : gmap string string) : list GateSwitch :=
  omap (fun gate => (fun before => MkSwitch gate before ActionWarn) <$> current !! gate) RolloutGates.

Definition enforce_switches (current : gmap string string) (saved : list GateSwitch) : list GateSwitch :=
  map (fun s => MkSwitch (gs_Gate s) (default "removed" (current !! gs_Gate s)) (gs_Before s)) saved.

(** A map filled in order: a later write of a key wins. *)
Definition after_actions (switches : list GateSwitch) : gmap string string :=
  foldl (fun m s => <[gs_Gate s := gs_After s]> m) ∅ switches.

Section switch.
Variable rfc3339 : Z -> string.
Variable fails : string -> option string.

(** What the two states switch, or why not. *)
Definition switches_for (state eco : string) (prev : option RolloutRow) (current : gmap string string)
  : list GateSwitch + rollout_error :=
  if (state =? RolloutReport)%string then
    match prev with
    | Some r => inr (AlreadyReporting eco (rfc3339 (ro_UpdatedAt r)) (ro_Actor r))
    | None => inl (report_switches current)
    end
  else if (state =? RolloutEnforce)%string then
    match prev with
    | None => inr (NotReporting eco)
    | Some r => inl (enforce_switches current (ro_Saved r))
    end
  else inr (UnknownState state).

(** The database after, and the switches made with an error beside them when the
    event could not be written. *)
Definition SwitchRollout (now : Z) (eco state actor : string) (db : policy_db)
  : policy_db * (list GateSwitch * option rollout_error) :=
  match GetRollout fails db eco with
  | inr err => (db, ([], Some (ReadRollout err)))
  | inl prev =>
      match gateActions fails db eco with
      | inr err => (db, ([], Some err))
      | inl current =>
          match switches_for state eco prev current with
          | inr err => (db, ([], Some err))
          | inl switches =>
              match SetRollout fails now (MkRollout eco switches actor 0) (after_actions switches)
                      (state =? RolloutReport)%string db with
              | inr (inl gate) => (db, ([], Some (NoTable eco state gate)))
              | inr (inr err) => (db, ([], Some (WriteFailed eco state err)))
              | inl db =>
                  match fails "record" with
                  | Some err => (db, (switches, Some (EventNotWritten eco state err)))
                  | None => (MkDB (db_rows db) (db_rollouts db)
                               (db_events db ++ [MkPolicyEvent eco actor state switches]), (switches, None))
                  end
              end
          end
      end
  end.

(** Each ecosystem's gates under enforce. *)
Fixpoint EnforceActions (db : policy_db) (ecosystems : list string) (out : gmap string (gmap string string))
  : gmap string (gmap string string) + (string * rollout_error) :=
  match ecosystems with
  | [] => inl out
  | eco :: ecosystems =>
      match gateActions fails db eco with
      | inr err => inr (eco, err)
      | inl current =>
          match GetRollout fails db eco with
          | inr err => inr (eco, ReadRollout err)
          | inl prev =>
              EnforceActions db ecosystems
                (<[eco := foldl (fun m s => <[gs_Gate s := gs_Before s]> m) current
                            (match prev with Some r => ro_Saved r | None => [] end)]> out)
          end
      end
  end.
End switch.

(** ** The report *)

Record ReportEntry := MkReportEntry {
  re_Ecosystem : string;
  re_Check : string;
  re_Package : string;
  re_Status : string;
  re_OnEnforce : string;
  re_Requests : Z;
  re_Versions : list string;
  re_Hosts : list string;
  re_Unidentified : Z;
  re_Detail : string
}.

Definition group_key (row : Admission) (c : AdmissionCheck) : string :=
  ad_PkgType row +:+ nul +:+ ac_Check c +:+ nul +:+ ad_PkgName row.

Definition new_entry (onEnforce : gmap string (gmap string string)) (row : Admission) (c : AdmissionCheck) : ReportEntry :=
  MkReportEntry (ad_PkgType row) (ac_Check c) (ad_PkgName row) (ac_Status c)
    (default "" (onEnforce !! ad_PkgType row ≫= fun m => m !! ac_Check c)) 0 [] [] 0 (ac_Detail c).

Definition add_once (x : string) (l : list string) : list string := if slice_contains l x then l else l ++ [x].

(** One check of one row added to its group. *)
Definition count_check (row : Admission) (c : AdmissionCheck) (e : ReportEntry) : ReportEntry :=
  MkReportEntry (re_Ecosystem e) (re_Check e) (re_Package e)
    (if (ac_Status c =? CheckBlock)%string then ac_Status c else re_Status e)
    (re_OnEnforce e) (re_Requests e + 1)
    (if (ad_PkgVersion row =? "")%string then re_Versions e else add_once (ad_PkgVersion row) (re_Versions e))
    (if (ad_Identity row =? "")%string then re_Hosts e else add_once (ad_Identity row) (re_Hosts e))
    (if (ad_Identity row =? "")%string then re_Unidentified e + 1 else re_Unidentified e)
    (re_Detail e).

Definition group_step (onEnforce : gmap string (gmap string string)) (byKey : gmap string ReportEntry)
  (rc : Admission * AdmissionCheck) : gmap string ReportEntry :=
  let '(row, c) := rc in
  let k := group_key row c in
  <[k := count_check row c (default (new_entry onEnforce row c) (byKey !! k))]> byKey.

(** The checks the report keeps, row by row. *)
Definition kept_checks (keep : AdmissionCheck -> bool) (rows : list Admission) : list (Admission * AdmissionCheck) :=
  rows ≫= (fun row => map (pair row) (List.filter keep (ad_Checks row))).

Definition sort_entry (e : ReportEntry) : ReportEntry :=
  MkReportEntry (re_Ecosystem e) (re_Check e) (re_Package e) (re_Status e) (re_OnEnforce e) (re_Requests e)
    (sort_Strings (re_Versions e)) (sort_Strings (re_Hosts e)) (re_Unidentified e) (re_Detail e).

Definition group (rows : list Admission) (onEnforce : gmap string (gmap string string)) (keep : AdmissionCheck -> bool)
  : list ReportEntry :=
  let byKey := foldl (group_step onEnforce) ∅ (kept_checks keep rows) in
  omap (fun k => sort_entry <$> byKey !! k) (sort_Strings (map fst (map_to_list byKey))).

Record Report := MkReport { rp_Since : Z; rp_Flagged : list ReportEntry; rp_BaselineDebt : list ReportEntry }.

Definition BuildReport (since : Z) (flagged debt : list Admission) (onEnforce : gmap string (gmap string string)) : Report :=
  MkReport since
    (group flagged onEnforce (fun c => (ac_Status c =? CheckWarn)%string || (ac_Status c =? CheckBlock)%string))
    (group debt onEnforce (fun c => (ac_Status c =? CheckBaseline)%string)).

(** * Lemmas *)

(** ** Rows *)

(** What the updates leave of a gate's row. *)
Definition updated (row : option string) (action : option string) : option string :=
  match row with Some old => Some (default old action) | None => None end.

Lemma update_action_other eco rows ga k : k <> (ga.1, eco) -> update_action eco rows ga !! k = rows !! k.
Proof. intros Hk. unfold update_action. destruct (rows !! (ga.1, eco)); [|done]. by rewrite lookup_insert_ne. Qed.

Lemma update_action_row eco rows g a : update_action eco rows (g, a) !! (g, eco) = updated (rows !! (g, eco)) (Some a).
Proof. unfold update_action. cbn [fst snd]. destruct (rows !! (g, eco)) eqn:E; [by rewrite lookup_insert_eq|done]. Qed.

Lemma fold_update_other eco l : forall rows k, k.2 <> eco -> foldl (update_action eco) rows l !! k = rows !! k.
Proof.
  induction l as [|ga l IH]; intros rows k Hk; [done|]. cbn [foldl]. rewrite IH by done.
  apply update_action_other. by intros ->.
Qed.

Lemma fold_update_row eco gate l : forall rows, NoDup l.*1 ->
  foldl (update_action eco) rows l !! (gate, eco)
  = updated (rows !! (gate, eco)) ((list_to_map l : gmap string string) !! gate).
Proof.
  induction l as [|[g a] l IH]; intros rows Hnd; cbn [foldl].
  - by destruct (rows !! (gate, eco)).
  - apply NoDup_cons in Hnd as [Hg Hnd]. rewrite IH by done. cbn [list_to_map foldr fst snd].
    destruct (decide (gate = g)) as [->|Hne].
    + rewrite update_action_row, lookup_insert_eq.
      rewrite not_elem_of_list_to_map_1 by done. by destruct (rows !! (g, eco)).
    + rewrite (update_action_other eco rows (g, a)) by (cbn [fst]; congruence). by rewrite lookup_insert_ne.
Qed.

(** ** Reads *)

Lemma gate_actions_out fails db eco gates : forall out out',
  gate_actions fails db eco gates out = inl out' ->
  forall gate, out' !! gate = if bool_decide (gate ∈ gates)
                              then match db_rows db !! (gate, eco) with Some a => Some a | None => out !! gate end
                              else out !! gate.
Proof.
  induction gates as [|g gates IH]; intros out out' H gate; cbn [gate_actions] in H.
  - by injection H as ->.
  - destruct (fails g); [done|]. rewrite (IH _ _ H gate). clear IH H.
    destruct (decide (gate = g)) as [->|Hne].
    + rewrite (bool_decide_eq_true_2 (g ∈ g :: gates)) by (rewrite elem_of_cons; auto).
      destruct (db_rows db !! (g, eco)); case_bool_decide; by rewrite ?lookup_insert_eq.
    + rewrite (bool_decide_ext (gate ∈ g :: gates) (gate ∈ gates)) by (rewrite elem_of_cons; naive_solver).
      destruct (db_rows db !! (g, eco)); by rewrite ?lookup_insert_ne.
Qed.

Lemma gateActions_row fails db eco current gate : gateActions fails db eco = inl current -> gate ∈ RolloutGates ->
  current !! gate = db_rows db !! (gate, eco).
Proof.
  intros H Hg. rewrite (gate_actions_out _ _ _ _ _ _ H), bool_decide_eq_true_2 by done. rewrite lookup_empty.
  by destruct (db_rows db !! (gate, eco)).
Qed.

(** ** Switches *)

Lemma after_actions_fold switches : forall m gate,
  (forall s, s ∈ switches -> gs_Gate s <> gate) ->
  foldl (fun m s => <[gs_Gate s := gs_After s]> m) m switches !! gate = (m : gmap string string) !! gate.
Proof.
  induction switches as [|s switches IH]; intros m gate H; [done|]. cbn [foldl].
  rewrite IH by (intros s' Hs'; apply H, elem_of_cons; auto). apply lookup_insert_ne, H, elem_of_cons. auto.
Qed.

(** With one switch per gate, its [After] is what the gate is set to. *)
Lemma after_actions_in switches s : NoDup (map gs_Gate switches) -> s ∈ switches ->
  after_actions switches !! gs_Gate s = Some (gs_After s).
Proof.
  unfold after_actions. generalize (∅ : gmap string string) as m.
  induction switches as [|s0 switches IH]; intros m Hnd Hs; [by apply elem_of_nil in Hs|].
  cbn [map] in Hnd. apply NoDup_cons in Hnd as [Hn Hnd]. cbn [foldl].
  apply elem_of_cons in Hs as [->|Hs]; [|by apply IH].
  rewrite after_actions_fold; [apply lookup_insert_eq|]. intros s' Hs' He. apply Hn. rewrite <- He.
  apply list_elem_of_In, in_map, list_elem_of_In, Hs'.
Qed.

Lemma after_actions_none switches gate : (forall s, s ∈ switches -> gs_Gate s <> gate) -> after_actions switches !! gate = None.
Proof. intros H. unfold after_actions. rewrite after_actions_fold by done. apply lookup_empty. Qed.

Lemma report_switches_in current s : s ∈ report_switches current <->
  gs_Gate s ∈ RolloutGates /\ current !! gs_Gate s = Some (gs_Before s) /\ gs_After s = ActionWarn.
Proof.
  unfold report_switches. rewrite list_elem_of_omap. split.
  - intros (gate & Hg & Hs). apply fmap_Some in Hs as (before & Hb & ->). done.
  - intros (Hg & Hb & Ha). exists (gs_Gate s). split; [done|]. rewrite Hb. destruct s. cbn in *. by subst.
Qed.

Lemma report_switches_gates current : NoDup (map gs_Gate (report_switches current)).
Proof.
  assert (H : forall gates, NoDup gates -> NoDup (map gs_Gate (omap (fun gate =>
            (fun before => MkSwitch gate before ActionWarn) <$> current !! gate) gates))).
  { induction 1 as [|g gates Hg Hnd IH]; [constructor|]. cbn [omap list_omap]. destruct (current !! g) as [a|]; [|done].
    cbn [fmap option_fmap option_map map gs_Gate]. constructor; [|done]. intros Hin. apply Hg.
    apply list_elem_of_In, in_map_iff in Hin as (s & <- & Hs). apply list_elem_of_In, list_elem_of_omap in Hs as (g' & Hg' & Hs).
    apply fmap_Some in Hs as (b & _ & ->). done. }
  apply H. apply (bool_decide_unpack _). vm_compute. done.
Qed.

(** The gates of the saved switches are those of the report. *)
Lemma enforce_switches_gates current saved : map gs_Gate (enforce_switches current saved) = map gs_Gate saved.
Proof. unfold enforce_switches. rewrite map_map. done. Qed.

Section lemmas.
Variable rfc3339 : Z -> string.

(** A switch that answered no error: what it read, and what it wrote. *)
Lemma SwitchRollout_done fails now eco state actor db db' switches :
  SwitchRollout rfc3339 fails now eco state actor db = (db', (switches, None)) ->
  exists current,
    gateActions fails db eco = inl current
    /\ switches_for rfc3339 state eco (db_rollouts db !! eco) current = inl switches
    /\ (forall gate, db_rows db' !! (gate, eco) = updated (db_rows db !! (gate, eco)) (after_actions switches !! gate))
    /\ (forall k, k.2 <> eco -> db_rows db' !! k = db_rows db !! k)
    /\ db_rollouts db' = if (state =? RolloutReport)%string then <[eco := MkRollout eco switches actor now]> (db_rollouts db)
                         else delete eco (db_rollouts db).
Proof.
  unfold SwitchRollout, GetRollout. destruct (fails "rollout"); [done|].
  destruct (gateActions fails db eco) as [current|]; [|done].
  destruct (switches_for _ _ _ _ _) as [sw|] eqn:Es; [|done].
  unfold SetRollout. destruct (List.find _ _) as [[g a]|]; [done|]. destruct (fails "write"); [done|].
  destruct (fails "record"); [done|]. intros [= <- <-]. exists current. cbn [db_rows db_rollouts ro_Ecosystem ro_Saved ro_Actor].
  split; [done|]. split; [done|]. split; [|split; [|done]].
  - intros gate. rewrite fold_update_row, list_to_map_to_list by apply NoDup_fst_map_to_list. done.
  - intros k Hk. by apply fold_update_other.
Qed.

(** ** Editing during report mode *)

(** What may happen to the policy of [eco] and of every other ecosystem while
    [eco] is in report mode: a row set or removed, and any switch but the one
    that enforces [eco]. *)
Inductive edited (eco : string) : policy_db -> policy_db -> Prop :=
| set_row gate e action db :
    edited eco db (MkDB (<[(gate, e) := action]> (db_rows db)) (db_rollouts db) (db_events db))
| remove_row gate e db : edited eco db (MkDB (delete (gate, e) (db_rows db)) (db_rollouts db) (db_events db))
| switch fails now e state actor db :
    e <> eco \/ state <> RolloutEnforce -> edited eco db (SwitchRollout rfc3339 fails now e state actor db).1.

Lemma SwitchRollout_keeps fails now eco e state actor db r :
  e <> eco \/ state <> RolloutEnforce -> db_rollouts db !! eco = Some r ->
  db_rollouts (SwitchRollout rfc3339 fails now e state actor db).1 !! eco = Some r.
Proof.
  intros Hne Hr. unfold SwitchRollout, GetRollout. destruct (fails "rollout"); [done|].
  destruct (gateActions fails db e) as [current|]; [|done].
  destruct (switches_for _ _ _ _ _) as [sw|] eqn:Es; [|done].
  unfold SetRollout. destruct (List.find _ _) as [[g a]|]; [done|]. destruct (fails "write"); [done|].
  assert (He : e <> eco).
  { destruct Hne as [|Hs]; [done|]. intros ->. rewrite Hr in Es. unfold switches_for in Es.
    destruct (state =? RolloutReport)%string; [done|]. apply String.eqb_neq in Hs. by rewrite Hs in Es. }
  destruct (fails "record"); cbn [fst db_rollouts ro_Ecosystem];
    (destruct (state =? RolloutReport)%string; [by rewrite lookup_insert_ne|by rewrite lookup_delete_ne]).
Qed.

Lemma edited_keeps eco db db' r : rtc (edited eco) db db' -> db_rollouts db !! eco = Some r -> db_rollouts db' !! eco = Some r.
Proof.
  induction 1 as [|db1 db2 db3 Hstep _ IH]; [done|]. intros Hr. apply IH. clear IH.
  destruct Hstep; [done|done|by apply SwitchRollout_keeps].
Qed.
End lemmas.

(** * Theorems *)

(** C38: what report mode saves, enforce restores.  A switch to report sets every
    gate that has a row to warn.  Whatever is edited then, another switch to
    report of the same ecosystem and switches of others included, a switch back
    gives each gate that had a row, and still has one, the action it had before
    the report; a gate that had none keeps what it was given since, a row removed
    since stays removed, and no other ecosystem's row is touched. *)
Theorem enforce_restores rfc3339 fails1 now1 actor1 fails2 now2 actor2 eco db0 db1 db2 db3 sw1 sw2 :
  SwitchRollout rfc3339 fails1 now1 eco RolloutReport actor1 db0 = (db1, (sw1, None)) ->
  rtc (edited rfc3339 eco) db1 db2 ->
  SwitchRollout rfc3339 fails2 now2 eco RolloutEnforce actor2 db2 = (db3, (sw2, None)) ->
  (forall gate, gate ∈ RolloutGates ->
     db_rows db1 !! (gate, eco) = (fun _ => ActionWarn) <$> db_rows db0 !! (gate, eco)
     /\ db_rows db3 !! (gate, eco) = updated (db_rows db2 !! (gate, eco)) (db_rows db0 !! (gate, eco)))
  /\ (forall k, k.2 <> eco -> db_rows db3 !! k = db_rows db2 !! k)
  /\ db_rollouts db3 !! eco = None.
Proof.
  intros H1 Hed H3.
  apply SwitchRollout_done in H1 as (cur1 & Hc1 & Hs1 & Hr1 & _ & Hroll1).
  apply SwitchRollout_done in H3 as (cur3 & Hc3 & Hs3 & Hr3 & Hother & Hroll3).
  assert (Hsaved : db_rollouts db2 !! eco = Some (MkRollout eco sw1 actor1 now1)).
  { eapply edited_keeps; [exact Hed|]. rewrite Hroll1. apply lookup_insert_eq. }
  unfold switches_for in Hs1, Hs3. rewrite Hsaved in Hs3.
  change (RolloutReport =? RolloutReport)%string with true in Hs1.
  change (RolloutEnforce =? RolloutReport)%string with false in Hs3.
  change (RolloutEnforce =? RolloutEnforce)%string with true in Hs3. cbv iota in Hs1, Hs3. cbn [ro_Saved] in Hs3.
  destruct (db_rollouts db0 !! eco) as [|]; [done|]. injection Hs1 as <-. injection Hs3 as <-.
  split; [|split; [done|rewrite Hroll3; apply lookup_delete_eq]].
  intros gate Hg. rewrite Hr1, Hr3. pose proof (gateActions_row _ _ _ _ gate Hc1 Hg) as Hcur.
  destruct (db_rows db0 !! (gate, eco)) as [a|] eqn:E0.
  - set (s := MkSwitch gate a ActionWarn).
    assert (Hs : s ∈ report_switches cur1) by by apply report_switches_in.
    change gate with (gs_Gate s) at 2. rewrite (after_actions_in _ s) by (apply report_switches_gates || done).
    split; [done|]. f_equal.
    set (s' := MkSwitch gate (default "removed" (cur3 !! gate)) a).
    change gate with (gs_Gate s'). rewrite (after_actions_in _ s'); [done| |].
    + rewrite enforce_switches_gates. apply report_switches_gates.
    + unfold enforce_switches. apply list_elem_of_In, in_map_iff. exists s. split; [done|]. by apply list_elem_of_In.
  - assert (Hno : forall s, s ∈ report_switches cur1 -> gs_Gate s <> gate).
    { intros s Hs <-. apply report_switches_in in Hs as (_ & Hs & _). by rewrite Hcur in Hs. }
    split; [done|]. f_equal. apply after_actions_none. intros s Hs He.
    apply list_elem_of_In, in_map_iff in Hs as (s0 & <- & Hs0). by apply (Hno s0); [by apply list_elem_of_In|].
Qed.

Definition blocking_db : policy_db :=
  MkDB {[ (CheckAge, "npm") := ActionBlock; (CheckOSV, "npm") := ActionIgnore; (CheckAge, "pypi") := ActionBlock ]} ∅ [].

Definition no_fault (op : string) : option string := None.
Definition any_time (t : Z) : string := "2026-01-01T00:00:00Z".

Definition reporting_db : policy_db := (SwitchRollout any_time no_fault 1 "npm" RolloutReport "root" blocking_db).1.

Definition edited_db : policy_db :=
  MkDB (<[(CheckAge, "npm") := ActionIgnore]> (db_rows reporting_db)) (db_rollouts reporting_db) (db_events reporting_db).

Definition enforced_db : policy_db := (SwitchRollout any_time no_fault 2 "npm" RolloutEnforce "root" edited_db).1.

Lemma enforce_restores_witness :
  db_rows reporting_db !! (CheckAge, "npm") = Some ActionWarn /\ db_rows enforced_db !! (CheckAge, "npm") = Some ActionBlock.
Proof.
  destruct (enforce_restores any_time no_fault 1 "root" no_fault 2 "root" "npm" blocking_db reporting_db edited_db enforced_db
    (SwitchRollout any_time no_fault 1 "npm" RolloutReport "root" blocking_db).2.1
    (SwitchRollout any_time no_fault 2 "npm" RolloutEnforce "root" edited_db).2.1) as [H _].
  - vm_compute. reflexivity.
  - eapply rtc_l; [|apply rtc_refl]. apply (set_row any_time "npm" CheckAge "npm" ActionIgnore).
  - vm_compute. reflexivity.
  - destruct (H CheckAge) as [H1 H2]; [unfold RolloutGates; rewrite elem_of_cons; auto|].
    rewrite H1, H2. split; vm_compute; reflexivity.
Defined.

(** A row removed in report mode: enforce reports the action it had as written
    back, and writes nothing. *)
Lemma enforce_reports_removed_row :
  let db := MkDB (delete (CheckAge, "npm") (db_rows reporting_db)) (db_rollouts reporting_db) [] in
  let '(after, (switches, err)) := SwitchRollout any_time no_fault 2 "npm" RolloutEnforce "root" db in
  err = None /\ MkSwitch CheckAge "removed" ActionBlock ∈ switches /\ db_rows after !! (CheckAge, "npm") = None.
Proof. vm_compute. split; [done|]. split; [by left|done]. Qed.

(** ** The report *)

Definition of_key (k : string) (rc : Admission * AdmissionCheck) : bool := (group_key rc.1 rc.2 =? k)%string.

Definition count_one (e : ReportEntry) (rc : Admission * AdmissionCheck) : ReportEntry := count_check rc.1 rc.2 e.

(** A group is its own checks counted in order, from the entry the first makes. *)
Lemma group_fold onEnforce l : forall m k,
  foldl (group_step onEnforce) m l !! k
  = match List.filter (of_key k) l with
    | [] => m !! k
    | rc :: rest => Some (foldl count_one (default (new_entry onEnforce rc.1 rc.2) (m !! k)) (rc :: rest))
    end.
Proof.
  induction l as [|[row c] l IH]; intros m k; [done|]. cbn [foldl List.filter]. rewrite IH. clear IH.
  unfold of_key at 2 3. cbn [fst snd group_step].
  destruct (String.eqb_spec (group_key row c) k) as [->|Hne].
  - change (fun rc => (group_key rc.1 rc.2 =? k)%string) with (of_key k). rewrite !lookup_insert_eq.
    by destruct (List.filter (of_key k) l).
  - by rewrite lookup_insert_ne.
Qed.

Lemma add_once_in x l y : y ∈ add_once x l <-> y = x \/ y ∈ l.
Proof.
  unfold add_once. destruct (slice_contains l x) eqn:E; [apply slice_contains_spec in E; naive_solver|].
  rewrite elem_of_app, elem_of_cons, elem_of_nil. naive_solver.
Qed.

Lemma add_once_NoDup x l : NoDup l -> NoDup (add_once x l).
Proof.
  unfold add_once. destruct (slice_contains l x) eqn:E; [done|]. intros Hnd. apply NoDup_app. split; [done|].
  split; [|apply NoDup_singleton]. intros y Hy ->%list_elem_of_singleton.
  apply slice_contains_spec in Hy. by rewrite Hy in E.
Qed.

(** The values of a field that some check of the group gives, each once. *)
Definition once (field : Admission -> string) (l : list (Admission * AdmissionCheck)) (vs : list string) : Prop :=
  NoDup vs /\ forall v, v ∈ vs <-> v <> "" /\ exists rc, rc ∈ l /\ field rc.1 = v.

Lemma once_snoc field l rc vs : once field l vs ->
  once field (l ++ [rc]) (if (field rc.1 =? "")%string then vs else add_once (field rc.1) vs).
Proof.
  intros [Hnd Hvs]. assert (Hin : forall v, (exists rc', rc' ∈ l ++ [rc] /\ field rc'.1 = v)
                                     <-> (exists rc', rc' ∈ l /\ field rc'.1 = v) \/ field rc.1 = v).
  { intros v. setoid_rewrite elem_of_app. setoid_rewrite list_elem_of_singleton. naive_solver. }
  destruct (String.eqb_spec (field rc.1) "") as [E|E]; (split; [by try apply add_once_NoDup|]); intros v; rewrite Hin.
  - rewrite Hvs. naive_solver.
  - rewrite add_once_in, Hvs. naive_solver.
Qed.

Definition is_block (rc : Admission * AdmissionCheck) : bool := (ac_Status rc.2 =? CheckBlock)%string.

(** What an entry says of the checks it groups. *)
Record counts (onEnforce : gmap string (gmap string string)) (first : Admission * AdmissionCheck)
  (l : list (Admission * AdmissionCheck)) (e : ReportEntry) : Prop := {
  co_named : re_Ecosystem e = ad_PkgType first.1 /\ re_Check e = ac_Check first.2 /\ re_Package e = ad_PkgName first.1
             /\ re_Detail e = ac_Detail first.2
             /\ re_OnEnforce e = default "" (onEnforce !! ad_PkgType first.1 ≫= fun m => m !! ac_Check first.2);
  co_requests : re_Requests e = Z.of_nat (length l);
  co_status : re_Status e = if existsb is_block l then CheckBlock else ac_Status first.2;
  co_versions : once ad_PkgVersion l (re_Versions e);
  co_hosts : once ad_Identity l (re_Hosts e);
  co_unidentified : re_Unidentified e = Z.of_nat (length (List.filter (fun rc => (ad_Identity rc.1 =? "")%string) l))
}.

Lemma once_nil field : once field [] [].
Proof. split; [constructor|]. intros v. rewrite elem_of_nil. split; [done|]. by intros (_ & rc & H%elem_of_nil & _). Qed.

Lemma counts_new onEnforce rc : counts onEnforce rc [] (new_entry onEnforce rc.1 rc.2).
Proof. split; try done; apply once_nil. Qed.

Lemma counts_snoc onEnforce first l e rc : counts onEnforce first l e -> counts onEnforce first (l ++ [rc]) (count_one e rc).
Proof.
  intros [Hn Hr Hs Hv Hh Hu]. unfold count_one, count_check. split; cbn [re_Ecosystem re_Check re_Package re_Detail re_OnEnforce
    re_Requests re_Status re_Versions re_Hosts re_Unidentified].
  - done.
  - rewrite length_app, Hr. cbn [length]. lia.
  - rewrite existsb_app. cbn [existsb]. rewrite orb_false_r. unfold is_block at 2.
    destruct (String.eqb_spec (ac_Status rc.2) CheckBlock) as [->|_]; [by rewrite orb_true_r|by rewrite orb_false_r].
  - by apply once_snoc.
  - by apply once_snoc.
  - rewrite List.filter_app, length_app. cbn [List.filter]. destruct (ad_Identity rc.1 =? "")%string; cbn [length]; lia.
Qed.

Lemma counts_fold onEnforce first l2 : forall l1 e, counts onEnforce first l1 e ->
  counts onEnforce first (l1 ++ l2) (foldl count_one e l2).
Proof.
  induction l2 as [|rc l2 IH]; intros l1 e H; [by rewrite List.app_nil_r|]. cbn [foldl].
  replace (l1 ++ rc :: l2) with ((l1 ++ [rc]) ++ l2) by by rewrite <- List.app_assoc.
  by apply IH, counts_snoc.
Qed.

Lemma counts_sorted onEnforce first l e : counts onEnforce first l e -> counts onEnforce first l (sort_entry e).
Proof.
  assert (Ho : forall field vs, once field l vs -> once field l (sort_Strings vs)).
  { intros field vs [Hnd Hvs]. split; [by rewrite sort_Strings_perm|]. intros v. by rewrite sort_Strings_perm. }
  intros [Hn Hr Hs Hv Hh Hu]. split; cbn; auto.
Qed.

(** The report of the gates.  Its entries are the groups of the kept checks
    by ecosystem, check and package, in key order: one entry for each group that
    has a check and none for another, with the number of checks in it, the worst
    status, each version and each host once and sorted, the number of rows that
    carried no identity, and the newest row's detail. *)
Theorem group_entries rows onEnforce keep :
  let checks k := List.filter (of_key k) (kept_checks keep rows) in
  exists keys,
    StronglySorted (fun a b => Compare a b <= 0) keys /\ NoDup keys /\ (forall k, k ∈ keys <-> checks k <> [])
    /\ Forall2 (fun k e => (exists first rest, checks k = first :: rest /\ counts onEnforce first (checks k) e)
                           /\ StronglySorted (fun a b => Compare a b <= 0) (re_Versions e)
                           /\ StronglySorted (fun a b => Compare a b <= 0) (re_Hosts e))
         keys (group rows onEnforce keep).
Proof.
  intros checks. unfold group. set (byKey := foldl (group_step onEnforce) ∅ (kept_checks keep rows)).
  assert (Hk : forall k, byKey !! k = match checks k with
    | [] => None | rc :: rest => Some (foldl count_one (new_entry onEnforce rc.1 rc.2) (rc :: rest)) end).
  { intros k. unfold byKey. rewrite group_fold. fold (checks k). rewrite lookup_empty. by destruct (checks k). }
  exists (sort_Strings (map fst (map_to_list byKey))). split; [apply sort_Strings_sorted|].
  assert (Hin : forall k, k ∈ sort_Strings (map fst (map_to_list byKey)) <-> is_Some (byKey !! k)).
  { intros k. rewrite sort_Strings_perm, list_elem_of_In, in_map_iff. split.
    - intros ([k' e] & <- & He). apply list_elem_of_In, elem_of_map_to_list in He. by eexists.
    - intros [e He]. exists (k, e). split; [done|]. by apply list_elem_of_In, elem_of_map_to_list. }
  split; [rewrite sort_Strings_perm; apply NoDup_fst_map_to_list|]. split.
  { intros k. rewrite Hin, Hk. destruct (checks k); [|by split]. split; [by intros []|done]. }
  assert (Hall : Forall (fun k => is_Some (byKey !! k)) (sort_Strings (map fst (map_to_list byKey)))).
  { apply Forall_forall. intros k. apply Hin. }
  clear Hin. revert Hall. generalize (sort_Strings (map fst (map_to_list byKey))) as keys.
  induction keys as [|k keys IH]; intros Hall; [constructor|]. apply Forall_cons in Hall as [[e He] Hall].
  cbn [omap list_omap]. rewrite He. cbn [fmap option_fmap option_map]. constructor; [|by apply IH].
  split; [|split; apply sort_Strings_sorted]. rewrite Hk in He. destruct (checks k) as [|rc rest] eqn:E; [done|].
  exists rc, rest. split; [done|]. injection He as <-. apply counts_sorted.
  exact (counts_fold onEnforce rc (rc :: rest) [] _ (counts_new onEnforce rc)).
Qed.
