(* ===== verification/Store.v ===== *)
(** The manifest store: internal/manifest/store.go and graph.go, with the
    writers of integrity.go.

    The backend's package manifests are a map from path to manifest (JSON in
    between is the identity), and what the backend answers is an argument of
    each operation.  The cache holds pointers: a manifest handed out by
    [GetPackage] is the cached object itself, so the operations that change it
    in place before they save it change the cache, whether or not the save
    succeeds.  The operations are taken one at a time; the mutex makes the map
    accesses atomic.  [bad_glob] is the error of [path.Match(g, "")]. *)

From stdpp Require Import base list gmap strings sorting.
From Stdlib Require Import ZArith Lia Ascii.
From S2P Require Import Prelude GoStrings GoSort Types.

Definition manifestFile := "manifest.json".

Definition packageKey (typ name : string) : string := typ +:+ "/" +:+ SafeName name.

Definition manifestPath (typ name : string) : string :=
  typ +:+ "/" +:+ SafeName name +:+ "/" +:+ manifestFile.

Record Index := MkIndex { idx_ConfigVersion : Z; idx_Packages : gmap string (list string) }.

Record DepEdge := MkEdge { de_Parent : string; de_Child : string; de_Constraint : string; de_RawSpec : string }.

Record Store := MkStore {
  st_files : gmap string PackageManifest;
  st_index_file : option Index;
  st_index : option Index;
  st_graph : option (list DepEdge);
  st_packages : gmap string PackageManifest
}.

Definition set_files (fs : gmap string PackageManifest) (s : Store) : Store :=
  MkStore fs (st_index_file s) (st_index s) (st_graph s) (st_packages s).
Definition set_index (i : option Index) (s : Store) : Store :=
  MkStore (st_files s) (st_index_file s) i (st_graph s) (st_packages s).
Definition set_graph (g : option (list DepEdge)) (s : Store) : Store :=
  MkStore (st_files s) (st_index_file s) (st_index s) g (st_packages s).
Definition set_packages (ps : gmap string PackageManifest) (s : Store) : Store :=
  MkStore (st_files s) (st_index_file s) (st_index s) (st_graph s) ps.

(** ** The backend *)

(** Data and sidecar written; the data refused; the data written and the
    sidecar refused, which the caller sees as an error as well. *)
Inductive outcome := Done | Refused | SidecarRefused.

Definition writeManifest (o : outcome) (path : string) (pm : PackageManifest) (s : Store) : Store * bool :=
  match o with
  | Done => (set_files (<[path := pm]> (st_files s)) s, true)
  | Refused => (s, false)
  | SidecarRefused => (set_files (<[path := pm]> (st_files s)) s, false)
  end.

Definition deleteManifest (o : outcome) (path : string) (s : Store) : Store * bool :=
  match o with
  | Done => (set_files (delete path (st_files s)) s, true)
  | Refused => (s, false)
  | SidecarRefused => (set_files (delete path (st_files s)) s, false)
  end.

(** ** deb_glob *)

Inductive glob_error :=
| GlobUnread | GlobBytes | GlobAbsolute | GlobUnclean | GlobMalformed | GlobLeavesClone | GlobLeavesSources.

Inductive store_error :=
| NoType
| NoName
| InvalidName (e : name_error)
| InvalidBinary (e : string * string * filename_error)
| InvalidGlob (version : string) (e : glob_error)
| ReadFailed
| WriteFailed
| DeleteFailed
| VersionExists (version : string)
| PackageNotFound
| VersionNotFound (version : string).

Section store.
Context (bad_glob : string -> bool).

Definition ValidateDebGlob (ve : VersionEntry) : option glob_error :=
  let g := ve_DebGlob ve in
  if (g =? "")%string then None
  else if (ve_BuildCmd ve =? "")%string then Some GlobUnread
  else if ContainsAny g bad_key_bytes then Some GlobBytes
  else if path_IsAbs g then Some GlobAbsolute
  else if negb (path_Clean g =? g)%string then Some GlobUnclean
  else if bad_glob g then Some GlobMalformed
  else if negb (ve_URL ve =? "")%string then
    if (g =? "..")%string || HasPrefix g "../" then Some GlobLeavesClone else None
  else
    let rel := path_Clean ("tree/" +:+ g) in
    if (rel =? "..")%string || HasPrefix rel "../" then Some GlobLeavesSources else None.

Definition ValidateDebGlobs (pm : PackageManifest) : option (string * glob_error) :=
  if negb (pm_Type pm =? TypeApt)%string then None
  else first_some (fun ve =>
         match ValidateDebGlob ve with Some err => Some (ve_Version ve, err) | None => None end)
         (pm_Versions pm).

(** ** The index *)

Definition empty_index : Index := MkIndex CurrentConfigVersion ∅.

Definition listed (i : Index) (typ : string) : list string := default [] (idx_Packages i !! typ).

Definition indexAdd (typ name : string) (s : Store) : Store :=
  let i := default empty_index (st_index s) in
  let safe := SafeName name in
  if slice_contains (listed i typ) safe then set_index (Some i) s
  else set_index (Some (MkIndex (idx_ConfigVersion i) (<[typ := listed i typ ++ [safe]]> (idx_Packages i)))) s.

Definition indexRemove (typ name : string) (s : Store) : Store :=
  match st_index s with
  | None => s
  | Some i =>
      let safe := SafeName name in
      set_index (Some (MkIndex (idx_ConfigVersion i)
        (<[typ := List.filter (fun x => negb (x =? safe)%string) (listed i typ)]> (idx_Packages i)))) s
  end.

(** The cache is cleared when an index is read. *)
Definition LoadIndex (read_ok : bool) (s : Store) : Store * option store_error :=
  if negb read_ok then (s, Some ReadFailed)
  else match st_index_file s with
       | None => (s, None)
       | Some i => (set_packages ∅ (set_index (Some i) s), None)
       end.

(** Less the metrics file, which is rewritten after the index. *)
Definition SaveIndex (o : outcome) (s : Store) : Store * option store_error :=
  let i := default empty_index (st_index s) in
  let written := MkStore (st_files s) (Some i) (st_index s) (st_graph s) (st_packages s) in
  match o with
  | Done => (written, None)
  | Refused => (s, Some WriteFailed)
  | SidecarRefused => (written, Some WriteFailed)
  end.

Definition ListPackages (s : Store) (typ : string) : list string :=
  match st_index s with None => [] | Some i => listed i typ end.

(** ** Packages *)

(** The key under which the manifest found is cached, and the manifest. *)
Definition GetPackage (read_ok : bool) (s : Store) (typ name : string)
  : Store * (option PackageManifest + store_error) :=
  let name := CanonicalName typ name in
  let key := packageKey typ name in
  match st_packages s !! key with
  | Some pm => (s, inl (Some pm))
  | None =>
      if negb read_ok then (s, inr ReadFailed)
      else match st_files s !! manifestPath typ name with
           | None => (s, inl None)
           | Some pm => (set_packages (<[key := pm]> (st_packages s)) s, inl (Some pm))
           end
  end.

Definition set_identity (name : string) (pm : PackageManifest) : PackageManifest :=
  MkPackageManifest CurrentConfigVersion name (pm_Type pm) (pm_Description pm) (pm_DepPolicy pm)
    (pm_StoragePolicy pm) (pm_StorageGroups pm) (pm_Versions pm).

(** The object cached under [alias] is the one being changed. *)
Definition mutate (alias : option string) (pm : PackageManifest) (s : Store) : Store :=
  match alias with
  | Some key => set_packages (<[key := pm]> (st_packages s)) s
  | None => s
  end.

Definition validate_saved (pm : PackageManifest) : option store_error :=
  if (pm_Type pm =? "")%string then Some NoType
  else if (pm_Name pm =? "")%string then Some NoName
  else match ValidatePackageName (pm_Name pm) with
       | Some err => Some (InvalidName err)
       | None =>
           match ValidateBinaryFilenames pm with
           | Some err => Some (InvalidBinary err)
           | None =>
               match ValidateDebGlobs pm with
               | Some (v, err) => Some (InvalidGlob v err)
               | None => None
               end
           end
       end.

(** [alias]: where the saved object is cached already, if it is. *)
Definition SavePackage (o : outcome) (alias : option string) (pm : PackageManifest) (s : Store)
  : Store * option store_error :=
  match validate_saved pm with
  | Some err => (s, Some err)
  | None =>
      let pm := set_identity (CanonicalName (pm_Type pm) (pm_Name pm)) pm in
      let s := mutate alias pm s in
      match writeManifest o (manifestPath (pm_Type pm) (pm_Name pm)) pm s with
      | (s, false) => (s, Some WriteFailed)
      | (s, true) =>
          let s := set_packages (<[packageKey (pm_Type pm) (pm_Name pm) := pm]> (st_packages s)) s in
          (indexAdd (pm_Type pm) (pm_Name pm) s, None)
      end
  end.

Definition DeletePackage (o : outcome) (typ name : string) (s : Store) : Store * option store_error :=
  let name := CanonicalName typ name in
  match deleteManifest o (manifestPath typ name) s with
  | (s, false) => (s, Some DeleteFailed)
  | (s, true) =>
      (indexRemove typ name (set_packages (delete (packageKey typ name) (st_packages s)) s), None)
  end.

(** ** Versions *)

Definition FindVersion (read_ok : bool) (s : Store) (typ name version : string)
  : Store * (option VersionEntry + store_error) :=
  match GetPackage read_ok s typ name with
  | (s, inr err) => (s, inr err)
  | (s, inl None) => (s, inl None)
  | (s, inl (Some pm)) =>
      (s, inl (List.find (fun ve => (ve_Version ve =? version)%string || (ve_Ref ve =? version)%string)
                 (pm_Versions pm)))
  end.

(** The version, or the ref of an entry without one. *)
Definition entry_label (ve : VersionEntry) : string :=
  if (ve_Version ve =? "")%string then ve_Ref ve else ve_Version ve.

(** The cache key a manifest that [GetPackage] found is held under. *)
Definition found_key (typ name : string) : option string := Some (packageKey typ (CanonicalName typ name)).

Definition AddVersion (read_ok : bool) (o : outcome) (typ name : string) (ve : VersionEntry) (s : Store)
  : Store * option store_error :=
  match GetPackage read_ok s typ name with
  | (s, inr err) => (s, Some err)
  | (s, inl found) =>
      let pm := default (MkPackageManifest 0 name typ "" "" "" [] []) found in
      let ver := entry_label ve in
      if existsb (fun x => (entry_label x =? ver)%string && negb (ver =? "")%string) (pm_Versions pm)
      then (s, Some (VersionExists ver))
      else
        let pm := set_Versions (pm_Versions pm ++ [ve]) pm in
        let alias := match found with Some _ => found_key typ name | None => None end in
        SavePackage o alias pm (mutate alias pm s)
  end.

Definition RemoveVersion (read_ok : bool) (o : outcome) (typ name version : string) (s : Store)
  : Store * option store_error :=
  match GetPackage read_ok s typ name with
  | (s, inr err) => (s, Some err)
  | (s, inl None) => (s, Some PackageNotFound)
  | (s, inl (Some pm)) =>
      let filtered := List.filter (fun ve => negb (ve_Version ve =? version)%string
                                             && negb (ve_Ref ve =? version)%string) (pm_Versions pm) in
      if (length filtered =? length (pm_Versions pm))%nat then (s, Some (VersionNotFound version))
      else
        let pm := set_Versions filtered pm in
        SavePackage o (found_key typ name) pm (mutate (found_key typ name) pm s)
  end.
End store.

(** ** The dependency graph *)

Definition same_edge (parent child : string) (e : DepEdge) : bool :=
  (de_Parent e =? parent)%string && (de_Child e =? child)%string.

Definition addEdge (g : list DepEdge) (edge : DepEdge) : list DepEdge :=
  if existsb (same_edge (de_Parent edge) (de_Child edge)) g then g else g ++ [edge].

Definition removeEdge (g : list DepEdge) (parent child : string) : list DepEdge :=
  List.filter (fun e => negb (de_Parent e =? parent)%string || negb (de_Child e =? child)%string) g.

Definition AddEdge (edge : DepEdge) (s : Store) : Store :=
  set_graph (Some (addEdge (default [] (st_graph s)) edge)) s.

Definition RemoveEdge (parent child : string) (s : Store) : Store :=
  set_graph (Some (removeEdge (default [] (st_graph s)) parent child)) s.

Definition ParentsOf (s : Store) (child : string) : list DepEdge :=
  List.filter (fun e => (de_Child e =? child)%string) (default [] (st_graph s)).

Definition ChildrenOf (s : Store) (parent : string) : list DepEdge :=
  List.filter (fun e => (de_Parent e =? parent)%string) (default [] (st_graph s)).

Definition edgeBaseName (ref : string) : string :=
  match cut_byte "@" ref with Some (base, _) => base | None => ref end.

(** The nodes of the graph, once each, in the order of their names. *)
Definition orphans (g : list DepEdge) : list string :=
  SliceStable (fun a b => Compare a b <? 0)
    (remove_dups (concat (map (fun e => [edgeBaseName (de_Parent e); edgeBaseName (de_Child e)]) g))).

(** [None] is the panic on an index that was never loaded. *)
Definition Orphans (s : Store) : option (list string) :=
  match st_graph s with
  | None => Some []
  | Some g =>
      let candidates := orphans g in
      match st_index s with
      | None => None
      | Some i =>
          Some (List.filter (fun ref =>
            match cut_byte "/" ref with
            | None => false
            | Some (typ, name) => negb (slice_contains (listed i typ) (SafeName name))
            end) candidates)
      end
  end.

Example Orphans_ex :
  let edge p c := MkEdge p c "" "" in
  Orphans (set_graph (Some [edge "git/widget@v1" "pypi/django@5.2"; edge "npm/@scope/pkg@1.0.0" "apt/curl"])
    (set_index (Some (MkIndex 1 {["git" := ["widget"]; "npm" := ["@scope--pkg"]]}))
       (MkStore ∅ None None None ∅)))
  = Some ["apt/curl"; "npm/"; "pypi/django"].
Proof. vm_compute. reflexivity. Qed.

(** ** Paths *)

Lemma manifestPath_key typ name : manifestPath typ name = packageKey typ name +:+ "/" +:+ manifestFile.
Proof. unfold manifestPath, packageKey. by rewrite !GoStrings.app_assoc. Qed.

(** The path of the manifest cached under a key. *)
Definition key_path (key : string) : string := key +:+ "/" +:+ manifestFile.

Lemma key_path_inj k k' : key_path k = key_path k' -> k = k'.
Proof. apply app_inv_r. Qed.

(** ** The cache and the backend *)

Definition home (pm : PackageManifest) : string :=
  packageKey (pm_Type pm) (CanonicalName (pm_Type pm) (pm_Name pm)).

(** What is cached is what is stored, and every stored manifest is where its
    own name says. *)
Record agree (s : Store) : Prop := {
  ag_cache : forall k pm, st_packages s !! k = Some pm -> st_files s !! key_path k = Some pm;
  ag_home : forall path pm, st_files s !! path = Some pm -> path = key_path (home pm)
}.

Lemma agree_cached s k pm : agree s -> st_packages s !! k = Some pm -> k = home pm.
Proof. intros [H1 H2] Hk. apply key_path_inj, H2. by apply H1. Qed.

Lemma home_set_Versions vs pm : home (set_Versions vs pm) = home pm.
Proof. by destruct pm. Qed.

Lemma CanonicalName_idem typ name : CanonicalName typ (CanonicalName typ name) = CanonicalName typ name.
Proof.
  unfold CanonicalName. destruct (typ =? TypePypi)%string; [|done].
  destruct (CanonicalPypiName_normal name) as (_ & _ & H & _). exact H.
Qed.

(** The manifest as a save leaves it. *)
Definition saved (pm : PackageManifest) : PackageManifest :=
  set_identity (CanonicalName (pm_Type pm) (pm_Name pm)) pm.

Lemma home_saved pm : home (saved pm) = home pm.
Proof. unfold home, saved, set_identity. cbn [pm_Type pm_Name]. by rewrite CanonicalName_idem. Qed.

Lemma home_saved_path pm : manifestPath (pm_Type (saved pm)) (pm_Name (saved pm)) = key_path (home pm).
Proof. rewrite manifestPath_key. done. Qed.

(** Agreement everywhere but at one key, where an object was changed in place. *)
Definition agree_but (key : string) (s : Store) : Prop :=
  (forall k pm, st_packages s !! k = Some pm -> k <> key -> st_files s !! key_path k = Some pm) /\
  (forall path pm, st_files s !! path = Some pm -> path = key_path (home pm)).

Lemma agree_agree_but key s : agree s -> agree_but key s.
Proof. intros [H1 H2]. split; [|done]. intros k pm Hk _. by apply H1. Qed.

Lemma agree_but_mutate key pm s : agree_but key s -> agree_but key (mutate (Some key) pm s).
Proof.
  intros [H1 H2]. split; [|done]. intros k q Hk Hne. cbn in Hk. rewrite lookup_insert_ne in Hk by done. by apply H1.
Qed.

(** Writing the manifest the changed object now is. *)
Lemma agree_but_write pm s :
  home pm = packageKey (pm_Type pm) (pm_Name pm) -> agree_but (home pm) s ->
  agree (set_packages (<[home pm := pm]> (st_packages s)) (set_files (<[key_path (home pm) := pm]> (st_files s)) s)).
Proof.
  intros Hh [H1 H2]. split; cbn.
  - intros k q Hk. destruct (decide (k = home pm)) as [->|Hne].
    + rewrite lookup_insert_eq in Hk |- *. done.
    + rewrite lookup_insert_ne in Hk by done. rewrite lookup_insert_ne; [by apply H1|].
      intros E. by apply key_path_inj in E.
  - intros path q Hq. destruct (decide (path = key_path (home pm))) as [->|Hne].
    + rewrite lookup_insert_eq in Hq. by injection Hq as <-.
    + rewrite lookup_insert_ne in Hq by done. by apply H2.
Qed.

Lemma agree_same_data s s' :
  st_files s' = st_files s -> st_packages s' = st_packages s -> agree s -> agree s'.
Proof. intros E1 E2 [H1 H2]. split; rewrite E1, ?E2; [exact H1|exact H2]. Qed.

Lemma indexAdd_data typ name s :
  st_files (indexAdd typ name s) = st_files s /\ st_packages (indexAdd typ name s) = st_packages s.
Proof. unfold indexAdd. by destruct (slice_contains _ _). Qed.

Lemma indexRemove_data typ name s :
  st_files (indexRemove typ name s) = st_files s /\ st_packages (indexRemove typ name s) = st_packages s.
Proof. unfold indexRemove. by destruct (st_index s). Qed.

Section agreement.
Context (bad_glob : string -> bool).

(** What a save that succeeds has done. *)
Lemma SavePackage_success o alias pm s s' :
  SavePackage bad_glob o alias pm s = (s', None) ->
  validate_saved bad_glob pm = None /\ o = Done /\
  st_files s' = <[key_path (home pm) := saved pm]> (st_files s) /\
  st_packages s' = <[home pm := saved pm]> (st_packages (mutate alias (saved pm) s)).
Proof.
  unfold SavePackage. destruct (validate_saved bad_glob pm) as [err|]; [done|]. fold (saved pm).
  rewrite home_saved_path. destruct o; cbn [writeManifest]; [|done|done]. intros [= <-].
  split; [done|]. split; [done|].
  destruct (indexAdd_data (pm_Type (saved pm)) (pm_Name (saved pm))
    (set_packages (<[home pm:=saved pm]> (st_packages (mutate alias (saved pm) s)))
       (set_files (<[key_path (home pm):=saved pm]> (st_files (mutate alias (saved pm) s)))
          (mutate alias (saved pm) s)))) as [H1 H2].
  split.
  - etransitivity; [exact H1|]. by destruct alias.
  - exact H2.
Qed.

Lemma SavePackage_agree o alias pm s s' :
  alias = None \/ alias = Some (home pm) -> agree_but (home pm) s ->
  SavePackage bad_glob o alias pm s = (s', None) -> agree s'.
Proof.
  intros Ha Hs H. apply SavePackage_success in H as (_ & _ & Hf & Hp).
  pose proof (agree_but_write (saved pm) s) as Hw. rewrite home_saved in Hw. specialize (Hw eq_refl Hs).
  eapply agree_same_data; [..|exact Hw]; [exact Hf|]. rewrite Hp. destruct Ha as [->| ->]; [done|].
  cbn. by rewrite insert_insert_eq.
Qed.

Lemma GetPackage_found read_ok s typ name s' pm :
  GetPackage read_ok s typ name = (s', inl (Some pm)) ->
  st_packages s' !! packageKey typ (CanonicalName typ name) = Some pm /\ st_files s' = st_files s.
Proof.
  unfold GetPackage. destruct (st_packages s !! _) as [q|] eqn:E; [by intros [= <- <-]|].
  destruct (negb read_ok); [done|]. destruct (st_files s !! _) as [q|]; [|done]. intros [= <- <-].
  cbn. by rewrite lookup_insert_eq.
Qed.

Lemma GetPackage_agree read_ok s typ name : agree s -> agree (GetPackage read_ok s typ name).1.
Proof.
  intros Hs. unfold GetPackage. destruct (st_packages s !! _) as [q|] eqn:E; [done|].
  destruct (negb read_ok); [done|]. destruct (st_files s !! _) as [q|] eqn:Ef; [|done].
  destruct Hs as [H1 H2]. split; cbn; [|done]. intros k pm Hk.
  destruct (decide (k = packageKey typ (CanonicalName typ name))) as [->|Hne].
  - rewrite lookup_insert_eq in Hk. injection Hk as <-. by rewrite manifestPath_key in Ef.
  - rewrite lookup_insert_ne in Hk by done. by apply H1.
Qed.

(** The found manifest, its versions changed in place and then saved. *)
Lemma update_agree read_ok o s typ name s1 pm vs s2 :
  agree s -> GetPackage read_ok s typ name = (s1, inl (Some pm)) ->
  SavePackage bad_glob o (found_key typ name) (set_Versions vs pm)
    (mutate (found_key typ name) (set_Versions vs pm) s1) = (s2, None) -> agree s2.
Proof.
  intros Hs Hg Hsave. pose proof (GetPackage_agree read_ok s typ name Hs) as Hs1. rewrite Hg in Hs1. cbn in Hs1.
  apply GetPackage_found in Hg as [Hc _]. apply (agree_cached _ _ _ Hs1) in Hc.
  unfold found_key in Hsave. rewrite Hc in Hsave.
  eapply SavePackage_agree; [|..|exact Hsave].
  - right. by rewrite home_set_Versions.
  - rewrite home_set_Versions. by apply agree_but_mutate, agree_agree_but.
Qed.

Lemma DeletePackage_agree o typ name s s' :
  agree s -> DeletePackage o typ name s = (s', None) -> agree s'.
Proof.
  unfold DeletePackage. destruct o; cbn [deleteManifest]; [|done|done]. intros Hs [= <-].
  match goal with |- agree (indexRemove ?t ?n ?x) => destruct (indexRemove_data t n x) as [E1 E2] end.
  eapply agree_same_data; [exact E1|exact E2|]. clear E1 E2. destruct Hs as [H1 H2].
  rewrite manifestPath_key. fold (key_path (packageKey typ (CanonicalName typ name))). split; cbn.
  - intros k pm [Hne Hk]%lookup_delete_Some. rewrite lookup_delete_ne; [by apply H1|].
    intros E. by apply key_path_inj in E.
  - intros path pm [_ Hp]%lookup_delete_Some. by apply H2.
Qed.

(** ** A session of the store *)

Inductive store_op :=
| OpLoadIndex (read_ok : bool)
| OpSaveIndex (o : outcome)
| OpGet (read_ok : bool) (typ name : string)
| OpSave (o : outcome) (pm : PackageManifest)
| OpUpdate (read_ok : bool) (o : outcome) (typ name : string) (f : list VersionEntry -> list VersionEntry)
| OpAdd (read_ok : bool) (o : outcome) (typ name : string) (ve : VersionEntry)
| OpRemove (read_ok : bool) (o : outcome) (typ name version : string)
| OpDelete (o : outcome) (typ name : string)
| OpAddEdge (e : DepEdge)
| OpRemoveEdge (parent child : string).

(** [OpUpdate]: the versions of a manifest found are changed and saved, as an
    upload's placement record and a cleared baseline do. *)
Definition run (op : store_op) (s : Store) : Store * option store_error :=
  match op with
  | OpLoadIndex r => LoadIndex r s
  | OpSaveIndex o => SaveIndex o s
  | OpGet r typ name =>
      match GetPackage r s typ name with (s, inl _) => (s, None) | (s, inr err) => (s, Some err) end
  | OpSave o pm => SavePackage bad_glob o None pm s
  | OpUpdate r o typ name f =>
      match GetPackage r s typ name with
      | (s, inl (Some pm)) =>
          let pm := set_Versions (f (pm_Versions pm)) pm in
          SavePackage bad_glob o (found_key typ name) pm (mutate (found_key typ name) pm s)
      | (s, inl None) => (s, None)
      | (s, inr err) => (s, Some err)
      end
  | OpAdd r o typ name ve => AddVersion bad_glob r o typ name ve s
  | OpRemove r o typ name v => RemoveVersion bad_glob r o typ name v s
  | OpDelete o typ name => DeletePackage o typ name s
  | OpAddEdge e => (AddEdge e s, None)
  | OpRemoveEdge p c => (RemoveEdge p c s, None)
  end.

Lemma run_agree op s s' : agree s -> run op s = (s', None) -> agree s'.
Proof.
  intros Hs. destruct op as [r|o|r typ name|o pm|r o typ name f|r o typ name ve|r o typ name v|o typ name|e|p c];
    cbn [run].
  - unfold LoadIndex. destruct (negb r); [done|]. destruct (st_index_file s); intros [= <-]; [|done].
    destruct Hs as [_ H2]. split; cbn; [|done]. intros k pm. by rewrite lookup_empty.
  - unfold SaveIndex. destruct o; [|done|done]. intros [= <-]. by apply (agree_same_data s).
  - pose proof (GetPackage_agree r s typ name Hs) as H. destruct (GetPackage r s typ name) as [s1 [x|err]]; [|done].
    by intros [= <-].
  - apply SavePackage_agree; [by left|by apply agree_agree_but].
  - pose proof (GetPackage_agree r s typ name Hs) as H.
    destruct (GetPackage r s typ name) as [s1 [[pm|]|err]] eqn:Hg; [|by intros [= <-]|done].
    by apply (update_agree _ _ _ _ _ _ _ _ _ Hs Hg).
  - unfold AddVersion. pose proof (GetPackage_agree r s typ name Hs) as H.
    destruct (GetPackage r s typ name) as [s1 [[pm|]|err]] eqn:Hg; [| |done]; cbn [default];
      (destruct (existsb _ _); [done|]).
    + by apply (update_agree _ _ _ _ _ _ _ _ _ Hs Hg).
    + apply SavePackage_agree; [by left|]. by apply agree_agree_but.
  - unfold RemoveVersion. destruct (GetPackage r s typ name) as [s1 [[pm|]|err]] eqn:Hg; [|done|done].
    destruct (_ =? _)%nat; [done|]. by apply (update_agree _ _ _ _ _ _ _ _ _ Hs Hg).
  - by apply DeletePackage_agree.
  - intros [= <-]. by apply (agree_same_data s).
  - intros [= <-]. by apply (agree_same_data s).
Qed.

Definition empty_store : Store := MkStore ∅ None None None ∅.

(** Operations in a row, every one of which succeeded. *)
Inductive session : list store_op -> Store -> Prop :=
| session_start : session [] empty_store
| session_step ops s op s' : session ops s -> run op s = (s', None) -> session (ops ++ [op]) s'.
End agreement.

(** While every operation succeeds, the cache is the backend: after any
    session of reads, saves, in-place changes, added and removed versions and
    deletions, what [GetPackage] answers from the cache is what is stored at
    that package's path, and every stored manifest sits at the path its own
    type and name compose. *)
Theorem session_agrees bad_glob ops s typ name pm :
  session bad_glob ops s ->
  forall read_ok, (GetPackage read_ok s typ name).2 = inl (Some pm) ->
    st_files s !! manifestPath typ (CanonicalName typ name) = Some pm /\
    home pm = packageKey typ (CanonicalName typ name).
Proof.
  intros Hsess. assert (Hs : agree s).
  { induction Hsess as [|ops s op s' _ IH Hrun]; [|by eapply run_agree].
    split; intros k q; cbn; by rewrite lookup_empty. }
  intros read_ok Hg. pose proof (GetPackage_agree read_ok s typ name Hs) as Hs1.
  destruct (GetPackage read_ok s typ name) as [s1 x] eqn:E. cbn in Hg, Hs1. subst x.
  apply GetPackage_found in E as [Hc Hf]. rewrite <- Hf, manifestPath_key. split; [by apply Hs1|].
  symmetry. by eapply agree_cached.
Qed.

Definition no_bad_glob (_ : string) : bool := false.
Definition versioned (v : string) : VersionEntry :=
  MkVersionEntry v "" "" "" "" "" "" "" "" "" "" [] [] false "" "" "" [] None false "" None
    false 0 [] ∅ "" "" false false "" "" "" ∅.

(** One version of a pypi distribution added under a spelling that is not
    canonical, and the package read back under another. *)
Definition demo_ops : list store_op := [OpAdd true Done TypePypi "Zope.Interface" (versioned "5.0")].
Definition demo_state : Store := (run no_bad_glob (OpAdd true Done TypePypi "Zope.Interface" (versioned "5.0")) empty_store).1.
Definition demo_saved : PackageManifest := MkPackageManifest 1 "zope-interface" "pypi" "" "" "" [] [versioned "5.0"].

Lemma session_agrees_witness :
  st_files demo_state !! manifestPath TypePypi (CanonicalName TypePypi "zope_interface") = Some demo_saved /\
  home demo_saved = packageKey TypePypi (CanonicalName TypePypi "zope_interface").
Proof.
  apply (session_agrees no_bad_glob demo_ops demo_state TypePypi "zope_interface" demo_saved) with (read_ok := true).
  - apply (session_step no_bad_glob [] empty_store _ demo_state); [apply session_start|]. vm_compute. reflexivity.
  - vm_compute. reflexivity.
Defined.

(** ** A refused change *)

Lemma GetPackage_cached read_ok s typ name pm :
  st_packages s !! packageKey typ (CanonicalName typ name) = Some pm ->
  GetPackage read_ok s typ name = (s, inl (Some pm)).
Proof. unfold GetPackage. by intros ->. Qed.

(** A refused version stays in the cache.  [AddVersion] appends to the
    cached manifest before the save that validates it, so a version a
    validator refuses, or a write that fails, is reported as an error and is
    served by the store from then on; nothing was written, and the next
    version added to the package meets the refused one again. *)
Theorem AddVersion_refused_stays bad_glob o s typ name pm ve err :
  st_packages s !! packageKey typ (CanonicalName typ name) = Some pm ->
  existsb (fun x => (entry_label x =? entry_label ve)%string && negb (entry_label ve =? "")%string)
    (pm_Versions pm) = false ->
  validate_saved bad_glob (set_Versions (pm_Versions pm ++ [ve]) pm) = Some err ->
  let '(s', res) := AddVersion bad_glob true o typ name ve s in
  res = Some err /\ st_files s' = st_files s /\
  (GetPackage true s' typ name).2 = inl (Some (set_Versions (pm_Versions pm ++ [ve]) pm)).
Proof.
  intros Hc Hd Hv. unfold AddVersion. rewrite (GetPackage_cached true s typ name pm Hc). cbn [default from_option id].
  rewrite Hd. unfold SavePackage. rewrite Hv. split; [done|]. split; [done|].
  erewrite GetPackage_cached; [done|]. cbn. by rewrite lookup_insert_eq.
Qed.

Definition escaping : VersionEntry :=
  MkVersionEntry "2" "" "" "" "" "" "" "" "" "" "" [] [] false "../evil" "" "" [] None false "" None
    false 0 [] ∅ "" "" false false "" "" "" ∅.
Definition demo_tool : PackageManifest := MkPackageManifest 1 "tool" TypeBinary "" "" "" [] [versioned "1"].
Definition demo_cached : Store := set_packages {[packageKey TypeBinary "tool" := demo_tool]} empty_store.

Lemma AddVersion_refused_stays_witness :
  (AddVersion no_bad_glob true Done TypeBinary "tool" escaping demo_cached).2
    = Some (InvalidBinary ("tool", "2", InvalidFilename "../evil")) /\
  (GetPackage true (AddVersion no_bad_glob true Done TypeBinary "tool" escaping demo_cached).1 TypeBinary "tool").2
    = inl (Some (set_Versions [versioned "1"; escaping] demo_tool)).
Proof.
  pose proof (AddVersion_refused_stays no_bad_glob Done demo_cached TypeBinary "tool" demo_tool escaping
    (InvalidBinary ("tool", "2", InvalidFilename "../evil")) eq_refl eq_refl eq_refl) as H.
  destruct (AddVersion no_bad_glob true Done TypeBinary "tool" escaping demo_cached) as [s' res].
  split; [exact (proj1 H)|exact (proj2 (proj2 H))].
Defined.

(** ** What a save does to the packages read *)

(** A saved package is read back, under every spelling of its name, and
    under every other name that is stored at the same path: after a save that
    succeeds, [GetPackage] answers the saved manifest exactly for the names
    whose canonical form makes the same path segment, and answers what it did
    for all others.  [SafeName] writes "/" as "--", so a name holding "--" and
    the one holding "/" are one package to the store: saving either replaces
    the other. *)
Theorem SavePackage_read_back bad_glob o pm s s' typ name :
  SavePackage bad_glob o None pm s = (s', None) ->
  (GetPackage true s' typ name).2 =
    if decide (packageKey typ (CanonicalName typ name) = home pm)
    then inl (Some (saved pm)) else (GetPackage true s typ name).2.
Proof.
  intros H. apply SavePackage_success in H as (_ & _ & Hf & Hp). cbn [mutate] in Hp.
  unfold GetPackage. rewrite Hp, Hf. destruct (decide _) as [->|Hne].
  { by rewrite lookup_insert_eq. }
  rewrite lookup_insert_ne by done. destruct (st_packages s !! _); [done|]. cbn [negb].
  rewrite lookup_insert_ne; [by destruct (st_files s !! _)|].
  rewrite manifestPath_key. intros E. by apply key_path_inj in E.
Qed.

Definition slashed : PackageManifest := MkPackageManifest 0 "acme/tool" TypeGit "" "" "" [] [versioned "1"].

Lemma SavePackage_read_back_witness :
  (GetPackage true (SavePackage no_bad_glob Done None slashed empty_store).1 TypeGit "acme--tool").2
  = inl (Some (saved slashed)).
Proof.
  rewrite (SavePackage_read_back no_bad_glob Done slashed empty_store
             (SavePackage no_bad_glob Done None slashed empty_store).1 TypeGit "acme--tool") by reflexivity.
  reflexivity.
Defined.

(** ** Orphans *)

(** The base names of the nodes of a graph. *)
Definition node_of (g : list DepEdge) (ref : string) : Prop :=
  exists e, e ∈ g /\ (ref = edgeBaseName (de_Parent e) \/ ref = edgeBaseName (de_Child e)).

Lemma edgeBaseName_no_at ref : no_byte "@" (edgeBaseName ref) = true.
Proof.
  unfold edgeBaseName. destruct (cut_byte "@" ref) as [[a b]|] eqn:E.
  - apply cut_byte_Some in E as [_ Ha]. exact Ha.
  - by apply cut_byte_None.
Qed.

Lemma orphans_spec g ref : ref ∈ orphans g <-> node_of g ref.
Proof.
  unfold orphans. rewrite SliceStable_perm, elem_of_remove_dups, list_elem_of_In, in_concat. split.
  - intros (l & Hl & Hr). apply in_map_iff in Hl as (e & <- & He). exists e.
    split; [by apply list_elem_of_In|]. cbn in Hr. destruct Hr as [<-|[<-|[]]]; tauto.
  - intros (e & He & Hr). exists [edgeBaseName (de_Parent e); edgeBaseName (de_Child e)]. split.
    + apply in_map_iff. exists e. split; [done|]. by apply list_elem_of_In.
    + cbn. destruct Hr as [->| ->]; tauto.
Qed.

Lemma orphans_order g :
  NoDup (orphans g) /\ StronglySorted (fun a b => Compare a b <= 0) (orphans g).
Proof.
  split; unfold orphans.
  - rewrite SliceStable_perm. apply NoDup_remove_dups.
  - by apply (SliceStable_by _ Compare).
Qed.

(** What [Orphans] answers.  With a graph and an index loaded it is, once
    each and in order, the base names of the edges that are a type and a name
    the index does not list.  The base name ends at the first "@", so an npm
    package with a scope is looked up as the type with an empty name: an edge
    to one is always reported, as "npm/", and the package itself never is.
    With a graph and no index it panics. *)
Theorem Orphans_spec s g i :
  st_graph s = Some g -> st_index s = Some i ->
  (exists out, Orphans s = Some out /\ NoDup out /\ StronglySorted (fun a b => Compare a b <= 0) out /\
     (forall ref, ref ∈ out <-> node_of g ref /\
        exists typ name, cut_byte "/" ref = Some (typ, name) /\ ~ SafeName name ∈ listed i typ) /\
     (forall e scoped, e ∈ g -> de_Child e = "npm/@" +:+ scoped -> ~ "" ∈ listed i TypeNpm -> "npm/" ∈ out) /\
     (forall ref, ref ∈ out -> no_byte "@" ref = true)) /\
  Orphans (set_index None s) = None.
Proof.
  intros Hg Hi. split; [|unfold Orphans; cbn; by rewrite Hg].
  unfold Orphans. rewrite Hg, Hi. eexists. split; [reflexivity|].
  match goal with |- context [List.filter ?f _] => set (p := f) end.
  assert (Hp : forall ref, p ref = true <->
            exists typ name, cut_byte "/" ref = Some (typ, name) /\ ~ SafeName name ∈ listed i typ).
  { intros ref. unfold p. destruct (cut_byte "/" ref) as [[typ name]|]; [|split; [done|by intros (? & ? & ? & _)]].
    rewrite negb_true_iff, <- not_true_iff_false, slice_contains_spec.
    split; [by exists typ, name|]. by intros (? & ? & [= <- <-] & ?). }
  assert (Hm : forall ref, ref ∈ List.filter p (orphans g) <-> node_of g ref /\ p ref = true).
  { intros ref. rewrite list_elem_of_In, filter_In, <- list_elem_of_In. by rewrite orphans_spec. }
  destruct (orphans_order g) as [Hn Hs]. split; [|split; [|split; [|split]]].
  - apply NoDup_ListNoDup, List.NoDup_filter. by apply NoDup_ListNoDup.
  - clear -Hs. induction Hs as [|x l Hl IH Hx]; cbn; [constructor|]. destruct (p x); [|done].
    constructor; [done|]. apply List.Forall_forall. intros y [Hy _]%filter_In. by apply (proj1 (List.Forall_forall _ _) Hx).
  - intros ref. by rewrite Hm, Hp.
  - intros e scoped He Hc Hno. apply Hm. split.
    + exists e. split; [done|]. right. rewrite Hc. reflexivity.
    + apply Hp. exists "npm", "". split; [done|exact Hno].
  - intros ref [(e & _ & [->| ->]) _]%Hm; apply edgeBaseName_no_at.
Qed.

Definition demo_graph : list DepEdge := [MkEdge "git/widget@v1" "npm/@acme/pkg@1.0.0" "" ""].
Definition demo_index : Index := MkIndex 1 (<["npm" := ["@acme--pkg"]]> (<["git" := ["widget"]]> ∅)).
Definition demo_linked : Store := set_graph (Some demo_graph) (set_index (Some demo_index) empty_store).

Lemma Orphans_spec_witness : Orphans (set_index None demo_linked) = None.
Proof. apply (Orphans_spec demo_linked demo_graph demo_index); reflexivity. Defined.
