(* ===== verification/GoPath.v ===== *)
(** Go's path.Join, which filepath.Join is on a Unix system, and what cleaning a
    rooted path leaves.

    A clean rooted path is its list of names; [resolve] is where a relative text
    leads from one, and the rooted [path_Clean] is proved to compute it. *)

From stdpp Require Import base list strings.
From Stdlib Require Import ZArith Lia Ascii.
From S2P Require Import Prelude GoStrings Types.

(** Empty elements before the first one that is not are skipped; the rest are
    joined and cleaned. *)
Fixpoint drop_empty (elems : list string) : list string :=
  match elems with
  | [] => []
  | e :: elems => if (e =? "")%string then drop_empty elems else e :: elems
  end.

Definition path_Join (elems : list string) : string :=
  match drop_empty elems with
  | [] => ""
  | elems => path_Clean (Join elems "/")
  end.

(** A clean absolute path with these names. *)
Definition abs_path (names : list string) : string := "/" +:+ Join names "/".

(** Names a clean path can have. *)
Definition names_ok (names : list string) : Prop :=
  Forall (fun s => plain_segment s = true /\ no_byte "/" s = true) names.

Definition resolve (base : list string) (key : string) : list string :=
  rev (clean_segments true (rev base) (Split "/" key)).

Lemma clean_segments_app rooted st a b :
  clean_segments rooted st (a ++ b) = clean_segments rooted (clean_segments rooted st a) b.
Proof. revert st. induction a as [|x a IH]; intros st; [done|]. rewrite <- app_comm_cons. cbn [clean_segments]. apply IH. Qed.

Lemma names_ok_rev l : names_ok (rev l) <-> names_ok l.
Proof. unfold names_ok. by rewrite Forall_rev_iff || (split; intros H; [rewrite <- (rev_involutive l)|]; by apply Forall_rev). Qed.

(** Cleaning a rooted path keeps names. *)
Lemma clean_rooted_names segs st :
  names_ok st -> Forall (fun s => no_byte "/" s = true) segs -> names_ok (clean_segments true st segs).
Proof.
  revert st. induction segs as [|x segs IH]; intros st Hst Hs; [done|]. apply Forall_cons in Hs as [Hx Hs].
  cbn [clean_segments]. apply IH; [|done].
  destruct ((x =? "")%string || (x =? ".")%string) eqn:E1; [done|].
  destruct (String.eqb_spec x "..") as [->|E2].
  - destruct st as [|top st]; [constructor|]. apply Forall_cons in Hst as [[Ht _] Hst].
    destruct (String.eqb_spec top "..") as [->|]; [done|done].
  - constructor; [|done]. split; [|done]. unfold plain_segment. rewrite E1. cbn. apply negb_true_iff, String.eqb_neq, E2.
Qed.

Lemma resolve_names base key : names_ok base -> names_ok (resolve base key).
Proof.
  intros Hb. unfold resolve. apply names_ok_rev, clean_rooted_names; [by apply names_ok_rev|apply Split_segments].
Qed.

(** Names push themselves. *)
Lemma clean_rooted_plain segs st :
  Forall (fun s => plain_segment s = true) segs -> clean_segments true st segs = rev segs ++ st.
Proof.
  revert st. induction segs as [|x segs IH]; intros st; [done|]. intros [Hx Hs]%Forall_cons. cbn [clean_segments].
  unfold plain_segment in Hx. apply negb_true_iff in Hx. apply orb_false_iff in Hx as [-> ->]. rewrite IH by done.
  cbn [rev]. by rewrite <- List.app_assoc.
Qed.

Lemma names_ok_plain l : names_ok l -> Forall (fun s => plain_segment s = true) l.
Proof. intros H. eapply Forall_impl; [exact H|]. by intros x []. Qed.

Lemma names_ok_segments l : names_ok l -> Forall (fun s => no_byte "/" s = true) l.
Proof. intros H. eapply Forall_impl; [exact H|]. by intros x []. Qed.

Lemma Join_names_ne l : names_ok l -> l <> [] -> Join l "/" <> "".
Proof.
  destruct l as [|x l]; [done|]. intros [[Hx _] _]%Forall_cons _. destruct l as [|y l]; cbn [Join].
  - intros ->. done.
  - intros [-> _]%app_eq_nil. done.
Qed.

(** The clean text of a rooted path is the one of its names. *)
Lemma path_Clean_rooted names key :
  names_ok names -> path_Clean (abs_path names +:+ "/" +:+ key) = abs_path (resolve names key).
Proof.
  intros Hn. unfold path_Clean. assert (Ha : path_IsAbs (abs_path names +:+ "/" +:+ key) = true).
  { unfold path_IsAbs, abs_path. rewrite <- app_assoc. apply HasPrefix_spec. by eexists. }
  rewrite Ha. cbv zeta. assert (Hs : clean_segments true [] (Split "/" (abs_path names +:+ "/" +:+ key)) = rev (resolve names key)).
  { unfold resolve. rewrite rev_involutive.
    change (abs_path names +:+ "/" +:+ key) with (abs_path names +:+ String "/" key). rewrite Split_concat.
    rewrite clean_segments_app. f_equal. unfold abs_path. change ("/" +:+ Join names "/") with ("" +:+ String "/" (Join names "/")).
    rewrite Split_app by done. cbn [clean_segments]. change (("" =? "")%string || ("" =? ".")%string) with true. cbv iota.
    destruct names as [|x names]; [done|]. rewrite Split_Join by (done || by apply names_ok_segments).
    by rewrite clean_rooted_plain, List.app_nil_r by (by apply names_ok_plain). }
  rewrite Hs, rev_involutive. fold (abs_path (resolve names key)). done.
Qed.

Lemma path_Clean_slash key : path_Clean ("/" +:+ key) = abs_path (resolve [] key).
Proof.
  unfold path_Clean. assert (Ha : path_IsAbs ("/" +:+ key) = true) by apply HasPrefix_app. rewrite Ha. cbv zeta.
  change ("/" +:+ key) with ("" +:+ String "/" key). rewrite Split_app by done. cbn [clean_segments].
  change (("" =? "")%string || ("" =? ".")%string) with true. cbv iota. done.
Qed.

Lemma path_Join_rooted names key : names_ok names -> path_Join [abs_path names; key] = abs_path (resolve names key).
Proof. intros Hn. rewrite <- path_Clean_rooted by done. done. Qed.

Lemma abs_path_inj a b : names_ok a -> names_ok b -> abs_path a = abs_path b -> a = b.
Proof.
  unfold abs_path. intros Ha Hb E. injection E as E. change (Join a "/" = Join b "/") in E.
  destruct a as [|x a], b as [|y b]; [done| | |].
  - symmetry in E. by apply Join_names_ne in E.
  - by apply Join_names_ne in E.
  - rewrite <- (Split_Join "/" (x :: a)), <- (Split_Join "/" (y :: b)) by (done || by apply names_ok_segments). by rewrite E.
Qed.

(** Below a directory. *)
Lemma below_spec base l : names_ok base -> base <> [] -> names_ok l ->
  HasPrefix (abs_path l) (abs_path base +:+ "/") || (abs_path l =? abs_path base)%string = true
  <-> exists tail, l = base ++ tail.
Proof.
  intros Hb Hne Hl. rewrite orb_true_iff, String.eqb_eq, HasPrefix_spec. split.
  - intros [[r E]|E]; [|exists []; rewrite List.app_nil_r; by apply abs_path_inj].
    exists (Split "/" r). assert (Hlne : l <> []).
    { intros ->. unfold abs_path in E. rewrite !app_assoc in E. cbn [Join] in E. injection E as E.
      destruct (Join base "/") eqn:Ej; [by apply Join_names_ne in Ej|done]. }
    assert (Ej : Join l "/" = Join base "/" +:+ String "/" r).
    { unfold abs_path in E. rewrite !app_assoc in E. by injection E. }
    apply (f_equal (Split "/")) in Ej. rewrite Split_concat in Ej.
    rewrite !Split_Join in Ej by (done || by apply names_ok_segments). done.
  - intros [tail ->]. destruct tail as [|x tail]; [right; by rewrite List.app_nil_r|left].
    exists (Join (x :: tail) "/"). unfold abs_path. rewrite !app_assoc. f_equal.
    rewrite Join_app by done. done.
Qed.

Lemma resolve_plain base keys : names_ok base -> Forall (fun s => plain_segment s = true) keys ->
  Forall (fun s => no_byte "/" s = true) keys -> keys <> [] -> resolve base (Join keys "/") = base ++ keys.
Proof.
  intros Hb Hk Hs Hne. unfold resolve. rewrite Split_Join, clean_rooted_plain by done. by rewrite rev_app_distr, !rev_involutive.
Qed.

(** A text with no ".." only goes down. *)
Definition no_dotdot (key : string) : Prop := ".." ∉ Split "/" key.

Lemma clean_down segs st : ".." ∉ segs -> exists new, clean_segments true st segs = new ++ st.
Proof.
  revert st. induction segs as [|x segs IH]; intros st Hd; [by exists []|]. apply not_elem_of_cons in Hd as [Hx Hd].
  cbn [clean_segments]. destruct (_ || _); [by apply IH|]. rewrite (proj2 (String.eqb_neq x "..")) by congruence.
  destruct (IH (x :: st) Hd) as [new ->]. exists (new ++ [x]). by rewrite <- List.app_assoc.
Qed.

Lemma resolve_down base key : no_dotdot key -> exists tail, resolve base key = base ++ tail.
Proof.
  intros Hd. unfold resolve. destruct (clean_down _ (rev base) Hd) as [new ->]. exists (rev new).
  by rewrite rev_app_distr, rev_involutive.
Qed.

Lemma resolve_app base names key : names_ok names -> names <> [] -> resolve base (Join names "/" +:+ "/" +:+ key) = resolve (base ++ names) key.
Proof.
  intros Hn Hne. unfold resolve. change (Join names "/" +:+ "/" +:+ key) with (Join names "/" +:+ String "/" key).
  rewrite Split_concat, Split_Join, clean_segments_app, (clean_rooted_plain names) by (done || (by apply names_ok_segments) || (by apply names_ok_plain)).
  by rewrite rev_app_distr.
Qed.

Example path_Join_ex : map path_Join [["/store"; "../store/x"]; ["/store"; "a//b"]; ["/store"; "../../x"]; [""; ""]; ["a"; ""]]
  = ["/store/x"; "/store/a/b"; "/x"; ""; "a"].
Proof. reflexivity. Qed.
