(* ===== verification/ObjectStore.v ===== *)
(** The storage backends as their callers see them: internal/storage/{storage,
    memory,local,s3target}.go and the storage part of internal/config/config.go.

    An [ObjectStore] is the interface's operations over the state of a backend;
    [FlatStore] is its contract: a backend answers as a map from keys to objects
    does.  [Memory] meets it, and so does a backend under a prefix when the one
    beneath does.  Of [Local], whose objects are files, the path a key names is
    modelled; what the file system answers is not.  A time is its nanoseconds. *)

From stdpp Require Import base list gmap strings sorting pretty.
From Stdlib Require Import ZArith Lia Ascii Sorted.
From S2P Require Import Prelude GoStrings GoSort Types GoPath.

(** ** Keys *)

Inductive store_error :=
| KeyHasNUL (key : string)
| KeyEscapes (key : string)
| SourceUnread.

Definition keyRoot := "/store".

Definition ValidateKey (key : string) : option store_error :=
  if has_byte "000" key then Some (KeyHasNUL key)
  else
    let p := path_Join [keyRoot; key] in
    if negb (p =? keyRoot)%string && negb (HasPrefix p (keyRoot +:+ "/")) then Some (KeyEscapes key) else None.

Definition valid_key (key : string) : bool := negb (isSome (ValidateKey key)).

(** ** The interface *)

Record StreamResult := MkStream {
  sr_Body : string; sr_ContentLength : Z; sr_ETag : string; sr_ContentType : string; sr_LastModified : Z
}.

Record ObjectInfo := MkInfo { oi_Key : string; oi_Exists : bool; oi_Size : Z; oi_LastModified : Z; oi_ETag : string }.

(** [now] is the time a write stamps, [content] what the file read is found to
    hold, nothing when it cannot be read. *)
Record ObjectStore (S : Type) := MkObjectStore {
  os_Get : string -> S -> option string + store_error;
  os_GetStream : string -> S -> option StreamResult + store_error;
  os_Head : string -> S -> ObjectInfo + store_error;
  os_List : string -> S -> list string + store_error;
  os_Put : Z -> string -> string -> S -> S * option store_error;
  os_PutFile : Z -> option string -> string -> S -> S * option store_error;
  os_Delete : string -> S -> S * option store_error;
  os_Label : string
}.
Arguments MkObjectStore {S}. Arguments os_Get {S}. Arguments os_GetStream {S}. Arguments os_Head {S}. Arguments os_List {S}.
Arguments os_Put {S}. Arguments os_PutFile {S}. Arguments os_Delete {S}. Arguments os_Label {S}.

(** ** Memory *)

Record memObject := MkMemObject { mo_data : string; mo_modified : Z }.

Local Abbreviation objects := (gmap string memObject).

Definition mem_guard {A} (key : string) (a : A) : A + store_error :=
  match ValidateKey key with Some err => inr err | None => inl a end.

Definition mem_Get (key : string) (m : objects) : option string + store_error := mem_guard key (mo_data <$> m !! key).

Definition mem_GetStream (key : string) (m : objects) : option StreamResult + store_error :=
  mem_guard key ((fun o => MkStream (mo_data o) (slen (mo_data o)) "" "application/octet-stream" (mo_modified o)) <$> m !! key).

Definition mem_Head (key : string) (m : objects) : ObjectInfo + store_error :=
  mem_guard key
    (match m !! key with
     | None => MkInfo key false 0 0 ""
     | Some o => MkInfo key true (slen (mo_data o)) (mo_modified o) ""
     end).

Definition mem_Keys (m : objects) : list string := sort_Strings (map fst (map_to_list m)).

Definition mem_List (prefix : string) (m : objects) : list string + store_error :=
  mem_guard prefix (sort_Strings (List.filter (fun k => HasPrefix k prefix) (map fst (map_to_list m)))).

Definition mem_Put (now : Z) (key data : string) (m : objects) : objects * option store_error :=
  match ValidateKey key with
  | Some err => (m, Some err)
  | None => (<[key := MkMemObject data now]> m, None)
  end.

Definition mem_PutFile (now : Z) (content : option string) (key : string) (m : objects) : objects * option store_error :=
  match ValidateKey key with
  | Some err => (m, Some err)
  | None =>
      match content with
      | None => (m, Some SourceUnread)
      | Some data => mem_Put now key data m
      end
  end.

Definition mem_Delete (key : string) (m : objects) : objects * option store_error :=
  match ValidateKey key with Some err => (m, Some err) | None => (delete key m, None) end.

Definition Memory (label : string) : ObjectStore objects :=
  MkObjectStore mem_Get mem_GetStream mem_Head mem_List mem_Put mem_PutFile mem_Delete label.

(** ** A backend under a prefix *)

Section prefixed.
Context {S : Type} (inner : ObjectStore S) (prefix : string).

Definition prefixed_key (k : string) : string + store_error :=
  match ValidateKey k with Some err => inr err | None => inl (prefix +:+ k) end.

Definition at_key {A} (k : string) (f : string -> A + store_error) : A + store_error :=
  match prefixed_key k with inr err => inr err | inl k => f k end.

Definition write_key (k : string) (s : S) (f : string -> S * option store_error) : S * option store_error :=
  match prefixed_key k with inr err => (s, Some err) | inl k => f k end.

Definition prefixed_Head (key : string) (s : S) : ObjectInfo + store_error :=
  at_key key (fun k =>
    match os_Head inner k s with
    | inl i => inl (MkInfo key (oi_Exists i) (oi_Size i) (oi_LastModified i) (oi_ETag i))
    | inr err => inr err
    end).

Definition prefixed_List (p : string) (s : S) : list string + store_error :=
  at_key p (fun k =>
    match os_List inner k s with
    | inl keys => inl (map (fun k => TrimPrefix k prefix) keys)
    | inr err => inr err
    end).

Definition prefixed_Label : string :=
  let cleaned := TrimPrefix (path_Clean ("/" +:+ prefix)) "/" in
  let base := TrimSuffix (os_Label inner) "/" in
  if (cleaned =? "")%string then base else base +:+ "/" +:+ cleaned.

Definition prefixed : ObjectStore S :=
  MkObjectStore (fun k s => at_key k (fun k => os_Get inner k s)) (fun k s => at_key k (fun k => os_GetStream inner k s))
    prefixed_Head prefixed_List
    (fun now k d s => write_key k s (fun k => os_Put inner now k d s))
    (fun now c k s => write_key k s (fun k => os_PutFile inner now c k s))
    (fun k s => write_key k s (fun k => os_Delete inner k s)) prefixed_Label.
End prefixed.

(** The prefix a name is rooted at: without a leading "/", with a trailing one. *)
Definition rooted_prefix (prefix : string) : string :=
  let prefix := TrimPrefix prefix "/" in
  if (prefix =? "")%string || HasSuffix prefix "/" then prefix else prefix +:+ "/".

Definition withPrefix {S} (store : ObjectStore S) (prefix : string) : ObjectStore S :=
  if (TrimPrefix prefix "/" =? "")%string then store else prefixed store (rooted_prefix prefix).

(** ** Local *)

Definition Local_path (root key : string) : string + store_error :=
  match ValidateKey key with
  | Some err => inr err
  | None =>
      let p := path_Join [root; key] in
      if negb (HasPrefix p (root +:+ "/")) && negb (p =? root)%string then inr (KeyEscapes key) else inl p
  end.

Definition Local_Label (root : string) : string := "file://" +:+ root.

(** The size a copied file is reported with; a division by a power of two is
    exact, and "%.1f" rounds it to the even tenth.  [None]: "KMG" has no unit. *)
Fixpoint units (fuel : nat) (n div exp : Z) : Z * Z :=
  match fuel with
  | O => (div, exp)
  | S fuel => if 1024 <=? n then units fuel (n / 1024) (div * 1024) (exp + 1) else (div, exp)
  end.

Definition tenths (b div : Z) : Z :=
  let q := b * 10 / div in
  let r := b * 10 mod div in
  if (div <? 2 * r) || ((2 * r =? div) && Z.odd q) then q + 1 else q.

Definition humanSize (b : Z) : option string :=
  if b <? 1024 then Some (pretty b +:+ " B")
  else
    let '(div, exp) := units 6 (b / 1024) 1024 0 in
    let t := tenths b div in
    match String.get (Z.to_nat exp) "KMG" with
    | Some unit_ => Some (pretty (t / 10) +:+ "." +:+ pretty (t mod 10) +:+ " " +:+ String unit_ "iB")
    | None => None
    end.

(** filepath.Abs and filepath.EvalSymlinks ask the system. *)
Definition canonicalRoot (Abs EvalSymlinks : string -> option string) (root : string) : string :=
  match Abs root with
  | None => path_Clean root
  | Some abs => default abs (EvalSymlinks abs)
  end.

(** ** The contract *)

Inductive call :=
| CGet (key : string)
| CGetStream (key : string)
| CHead (key : string)
| CList (p : string)
| CPut (now : Z) (key data : string)
| CPutFile (now : Z) (content : option string) (key : string)
| CDelete (key : string).

(** What a caller learns.  The ETag and the content type are the backend's. *)
Inductive answer :=
| AFailed (err : store_error)
| ABody (body : option string)
| AStream (stream : option (string * Z * Z))
| AInfo (key : string) (exists_ : bool) (size modified : Z)
| AKeys (keys : list string)
| ADone.

Definition read_answer {S A} (s : S) (f : A -> answer) (r : A + store_error) : S * answer :=
  (s, match r with inl a => f a | inr err => AFailed err end).

Definition write_answer {S} (r : S * option store_error) : S * answer :=
  (r.1, match r.2 with Some err => AFailed err | None => ADone end).

Definition do_call {S} (o : ObjectStore S) (c : call) (s : S) : S * answer :=
  match c with
  | CGet k => read_answer s ABody (os_Get o k s)
  | CGetStream k =>
      read_answer s (fun r => AStream ((fun r => (sr_Body r, sr_ContentLength r, sr_LastModified r)) <$> r)) (os_GetStream o k s)
  | CHead k => read_answer s (fun i => AInfo (oi_Key i) (oi_Exists i) (oi_Size i) (oi_LastModified i)) (os_Head o k s)
  | CList p => read_answer s AKeys (os_List o p s)
  | CPut now k d => write_answer (os_Put o now k d s)
  | CPutFile now c k => write_answer (os_PutFile o now c k s)
  | CDelete k => write_answer (os_Delete o k s)
  end.

Definition call_key (c : call) : string :=
  match c with
  | CGet k | CGetStream k | CHead k | CList k | CPut _ k _ | CPutFile _ _ k | CDelete k => k
  end.

Class FlatStore {S} (o : ObjectStore S) := {
  fs_view : S -> objects;
  fs_call c s : do_call (Memory "") c (fs_view s) = (fs_view (do_call o c s).1, (do_call o c s).2)
}.

#[global] Instance memory_flat label : FlatStore (Memory label).
Proof. exists id. intros [] s; apply surjective_pairing. Defined.

Fixpoint run {S} (o : ObjectStore S) (calls : list call) (s : S) : S * list answer :=
  match calls with
  | [] => (s, [])
  | c :: calls =>
      let (s, a) := do_call o c s in
      let (s, answers) := run o calls s in (s, a :: answers)
  end.

(** ** A prefix of plain names *)

Definition root_of (names : list string) : string := Join names "/" +:+ "/".

Definition prefix_ok (names : list string) : Prop :=
  names_ok names /\ names <> [] /\ has_byte "000" (root_of names) = false.

Lemma ValidateKey_None key : ValidateKey key = None <->
  has_byte "000" key = false /\ exists tail, resolve ["store"] key = "store" :: tail.
Proof.
  assert (Hs : names_ok ["store"]) by (by repeat constructor).
  unfold ValidateKey. destruct (has_byte "000" key); [split; [done|by intros []]|].
  change keyRoot with (abs_path ["store"]). rewrite path_Join_rooted by done. cbv zeta.
  rewrite <- negb_orb, orb_comm.
  pose proof (below_spec ["store"] (resolve ["store"] key) Hs ltac:(done) (resolve_names _ _ Hs)) as Hb.
  destruct (_ || _) eqn:E; cbn [negb].
  - split; [intros _; split; [done|]|done]. by apply Hb.
  - split; [done|]. intros [_ Ht]. apply Hb in Ht. congruence.
Qed.

Lemma names_top top st : names_ok (top :: st) -> (top =? "..")%string = false.
Proof. intros [[Ht _] _]%Forall_cons. by destruct (String.eqb_spec top "..") as [->|]. Qed.

(** Two cleanings of one text, the second from names pushed onto the first's. *)
Definition deeper (st1 st2 : list string) : Prop :=
  st1 = st2 \/ exists w x, st2 = w ++ x ++ ["store"] /\ (st1 = w ++ ["store"] \/ st1 = w).

Lemma clean_deeper segs st1 st2 :
  Forall (fun s => no_byte "/" s = true) segs -> names_ok st1 -> names_ok st2 -> deeper st1 st2 ->
  deeper (clean_segments true st1 segs) (clean_segments true st2 segs).
Proof.
  revert st1 st2. induction segs as [|seg segs IH]; intros st1 st2 Hs N1 N2 Hd; [done|].
  apply Forall_cons in Hs as [Hseg Hs]. cbn [clean_segments].
  assert (Hstep : forall st, names_ok st -> names_ok (clean_segments true st [seg])).
  { intros st Hst. apply clean_rooted_names; [done|by repeat constructor]. }
  pose proof (Hstep st1 N1) as M1. pose proof (Hstep st2 N2) as M2. cbn [clean_segments] in M1, M2.
  apply IH; [done|exact M1|exact M2|]. clear IH Hstep M1 M2.
  destruct (_ || _); [done|]. destruct (seg =? "..")%string.
  - destruct Hd as [->|(w & x & -> & Hd)]; [by left|]. destruct w as [|a w].
    + destruct Hd as [->| ->]; cbn [app]; (destruct x as [|b x]; cbn [app];
        [left; reflexivity|rewrite (names_top b _ N2); right; exists [], x; auto]).
    + destruct Hd as [->| ->]; cbn [app] in *; rewrite (names_top a _ N2); right; exists w, x; auto.
  - destruct Hd as [->|(w & x & -> & Hd)]; [by left|]. right. exists (seg :: w), x. split; [done|].
    destruct Hd as [->| ->]; auto.
Qed.

Lemma last_store st1 st2 tail : deeper st1 st2 -> rev st1 = "store" :: tail -> exists tail, rev st2 = "store" :: tail.
Proof. intros [->|(w & x & -> & _)] E; [by eexists|]. rewrite List.app_assoc, rev_app_distr. by eexists. Qed.

Lemma prefixed_valid names key : prefix_ok names -> ValidateKey key = None -> ValidateKey (root_of names +:+ key) = None.
Proof.
  intros (Hn & Hne & Hz) [Hk [tail Ht]]%ValidateKey_None. apply ValidateKey_None. split.
  { revert Hz Hk. unfold has_byte. intros Hz%negb_false_iff Hk%negb_false_iff. apply negb_false_iff.
    change (no_byte "000" (root_of names +:+ key) = true). by rewrite no_byte_app, andb_true_iff. }
  unfold root_of. rewrite app_assoc, resolve_app by done. unfold resolve in Ht |- *.
  eapply last_store, Ht. apply clean_deeper; [apply Split_segments|by repeat constructor| |].
  - apply names_ok_rev. constructor; [done|exact Hn].
  - right. exists [], (rev names). cbn. auto.
Qed.

(** The objects under a prefix, by their keys there. *)
Definition under (P : string) (m : objects) : objects :=
  map_fold (fun k o acc => match cut_prefix k P with Some r => <[r := o]> acc | None => acc end) ∅ m.

Lemma lookup_under P m k : under P m !! k = m !! (P +:+ k).
Proof.
  unfold under. revert k. apply (map_fold_weak_ind (fun acc m => forall k, acc !! k = m !! (P +:+ k))); [done|].
  intros i o m' acc Hi IH k. destruct (cut_prefix i P) as [r|] eqn:E.
  - apply cut_prefix_Some in E as ->. destruct (decide (k = r)) as [->|Hne]; [by rewrite !lookup_insert_eq|].
    rewrite !lookup_insert_ne by (done || intros ?%app_inv_l; done). apply IH.
  - rewrite lookup_insert_ne; [apply IH|]. intros ->. by rewrite cut_prefix_app in E.
Qed.

Lemma under_insert P m k o : under P (<[P +:+ k := o]> m) = <[k := o]> (under P m).
Proof.
  apply map_eq. intros k'. rewrite lookup_under. destruct (decide (k = k')) as [->|Hne]; [by rewrite !lookup_insert_eq|].
  rewrite !lookup_insert_ne by (done || intros ?%app_inv_l; done). by rewrite lookup_under.
Qed.

Lemma under_delete P m k : under P (delete (P +:+ k) m) = delete k (under P m).
Proof.
  apply map_eq. intros k'. rewrite lookup_under. destruct (decide (k = k')) as [->|Hne]; [by rewrite !lookup_delete_eq|].
  rewrite !lookup_delete_ne by (done || intros ?%app_inv_l; done). by rewrite lookup_under.
Qed.

Lemma Compare_app P a b : Compare (P +:+ a) (P +:+ b) = Compare a b.
Proof. induction P as [|c P IH]; [done|]. rewrite !app_cons. cbn. unfold compareInt. by rewrite Z.ltb_irrefl. Qed.

Definition listed (p : string) (m : objects) : list string :=
  List.filter (fun k => HasPrefix k p) (map fst (map_to_list m)).

Lemma elem_of_listed p m k : k ∈ listed p m <-> is_Some (m !! k) /\ HasPrefix k p = true.
Proof.
  unfold listed. rewrite !list_elem_of_In, filter_In, in_map_iff. split.
  - intros [([k' o] & <- & Hm) Hp]. apply list_elem_of_In, elem_of_map_to_list in Hm. split; [by eexists|done].
  - intros [[o Hm] Hp]. split; [|done]. exists (k, o). split; [done|]. by apply list_elem_of_In, elem_of_map_to_list.
Qed.

Lemma listed_NoDup p m : NoDup (listed p m).
Proof. apply NoDup_ListNoDup, List.NoDup_filter, NoDup_ListNoDup, NoDup_fst_map_to_list. Qed.

(** A list is its members, once sorted. *)
Lemma sorted_same l1 l2 : StronglySorted (fun a b => Compare a b <= 0) l1 -> StronglySorted (fun a b => Compare a b <= 0) l2 ->
  l1 ≡ₚ l2 -> l1 = l2.
Proof.
  intros S1 S2 Hp. assert (AntiSymm (=) (fun a b => Compare a b <= 0)).
  { intros a b Ha Hb. apply Compare_zero. rewrite Compare_anti in Hb. lia. }
  by apply (StronglySorted_unique (fun a b => Compare a b <= 0)).
Qed.

Lemma sort_Strings_NoDup l : NoDup l -> NoDup (sort_Strings l).
Proof. by rewrite sort_Strings_perm. Qed.

Definition rooted_at (P : string) (k : string) : Prop := exists r, k = P +:+ r.

(** Stripping a prefix all of a list has keeps its order and its distinctness. *)
Lemma strip_sorted P l : Forall (rooted_at P) l -> StronglySorted (fun a b => Compare a b <= 0) l ->
  StronglySorted (fun a b => Compare a b <= 0) (map (fun k => TrimPrefix k P) l).
Proof.
  intros Hall Hs. induction Hs as [|k l Hl IH Hk]; cbn; constructor; apply Forall_cons in Hall as [[r ->] Hall].
  - by apply IH.
  - apply Forall_fmap. rewrite TrimPrefix_app. apply Forall_forall. intros k Hin. rewrite Forall_forall in Hk.
    specialize (Hk k Hin). rewrite Forall_forall in Hall. destruct (Hall k Hin) as [r' ->]. cbn.
    by rewrite TrimPrefix_app, <- (Compare_app P).
Qed.

Lemma elem_of_strip P l r : Forall (rooted_at P) l -> r ∈ map (fun k => TrimPrefix k P) l <-> P +:+ r ∈ l.
Proof.
  intros Hall. split.
  - intros Hin. apply list_elem_of_fmap in Hin as (k & -> & Hin). rewrite Forall_forall in Hall.
    destruct (Hall k Hin) as [r' ->]. by rewrite TrimPrefix_app.
  - intros Hin. apply list_elem_of_fmap. exists (P +:+ r). by rewrite TrimPrefix_app.
Qed.

Lemma strip_NoDup P l : Forall (rooted_at P) l -> NoDup l -> NoDup (map (fun k => TrimPrefix k P) l).
Proof.
  intros Hall Hnd. induction Hnd as [|k l Hk Hnd IH]; cbn; constructor; apply Forall_cons in Hall as [[r ->] Hall].
  - by rewrite TrimPrefix_app, elem_of_strip.
  - by apply IH.
Qed.

(** The keys a prefixed listing returns are those of the objects under it. *)
Lemma listed_under P p m :
  map (fun k => TrimPrefix k P) (sort_Strings (listed (P +:+ p) m)) = sort_Strings (listed p (under P m)).
Proof.
  assert (Hall : Forall (rooted_at P) (sort_Strings (listed (P +:+ p) m))).
  { apply Forall_forall. intros k. rewrite sort_Strings_perm, elem_of_listed, HasPrefix_spec. intros [_ [r ->]].
    rewrite app_assoc. by eexists. }
  apply sorted_same; [apply strip_sorted; [done|]; apply sort_Strings_sorted|apply sort_Strings_sorted|].
  apply NoDup_Permutation; [by apply strip_NoDup, sort_Strings_NoDup, listed_NoDup|apply sort_Strings_NoDup, listed_NoDup|].
  intros k. rewrite elem_of_strip, !sort_Strings_perm, !elem_of_listed, lookup_under by done. rewrite !HasPrefix_spec.
  split; (intros [Hm [r Hr]]; split; [done|exists r]).
  - rewrite app_assoc in Hr. by apply app_inv_l in Hr.
  - by rewrite Hr, app_assoc.
Qed.

(** ** A backend under a prefix is a backend *)

Definition call_at (P : string) (c : call) : call :=
  match c with
  | CGet k => CGet (P +:+ k)
  | CGetStream k => CGetStream (P +:+ k)
  | CHead k => CHead (P +:+ k)
  | CList p => CList (P +:+ p)
  | CPut now k d => CPut now (P +:+ k) d
  | CPutFile now content k => CPutFile now content (P +:+ k)
  | CDelete k => CDelete (P +:+ k)
  end.

Definition strip_answer (P : string) (c : call) (a : answer) : answer :=
  match a with
  | AInfo _ e size modified => AInfo (call_key c) e size modified
  | AKeys keys => AKeys (map (fun k => TrimPrefix k P) keys)
  | a => a
  end.

Section refinement.
Context {S : Type} (o : ObjectStore S) `{!FlatStore o}.

Lemma prefixed_invalid P c s err : ValidateKey (call_key c) = Some err -> do_call (prefixed o P) c s = (s, AFailed err).
Proof.
  intros Hk. destruct c; cbn in Hk |- *;
    unfold prefixed_Head, prefixed_List, at_key, write_key, prefixed_key; by rewrite Hk.
Qed.

Lemma memory_invalid c m err : ValidateKey (call_key c) = Some err -> do_call (Memory "") c m = (m, AFailed err).
Proof.
  intros Hk. destruct c; cbn in Hk |- *;
    unfold mem_Get, mem_GetStream, mem_Head, mem_List, mem_Put, mem_PutFile, mem_Delete, mem_guard; by rewrite Hk.
Qed.

Lemma prefixed_call P c s : ValidateKey (call_key c) = None ->
  do_call (prefixed o P) c s = ((do_call o (call_at P c) s).1, strip_answer P c (do_call o (call_at P c) s).2).
Proof.
  intros Hk. destruct c; cbn in Hk |- *;
    unfold prefixed_Head, prefixed_List, at_key, write_key, prefixed_key, write_answer, read_answer; rewrite Hk;
    cbn; repeat (case_match; simplify_eq; cbn); done.
Qed.

Lemma memory_call P c m : ValidateKey (call_key c) = None -> ValidateKey (P +:+ call_key c) = None ->
  do_call (Memory "") c (under P m)
  = (under P (do_call (Memory "") (call_at P c) m).1, strip_answer P c (do_call (Memory "") (call_at P c) m).2).
Proof.
  intros Hk Hp. destruct c; cbn in Hk, Hp |- *;
    unfold mem_Get, mem_GetStream, mem_Head, mem_List, mem_Put, mem_PutFile, mem_Delete, mem_guard; rewrite Hk, Hp;
    unfold read_answer, write_answer; cbn.
  - by rewrite lookup_under.
  - rewrite lookup_under. by destruct (m !! _).
  - rewrite lookup_under. by destruct (m !! _).
  - fold (listed (P +:+ p) m) (listed p (under P m)). by rewrite listed_under.
  - by rewrite under_insert.
  - destruct content; cbn; [|done]. unfold mem_Put. rewrite Hk, Hp. cbn. by rewrite under_insert.
  - by rewrite under_delete.
Qed.

(** Only keys the call names change. *)
Lemma memory_frame c m k : k <> call_key c -> (do_call (Memory "") c m).1 !! k = m !! k.
Proof.
  intros Hne. destruct c; cbn in Hne |- *; try done;
    unfold mem_Put, mem_PutFile, mem_Delete; repeat case_match; cbn; try done; unfold mem_Put; repeat case_match; cbn; try done;
    by rewrite ?lookup_insert_ne, ?lookup_delete_ne by done.
Qed.

Lemma call_at_key P c : call_key (call_at P c) = P +:+ call_key c.
Proof. by destruct c. Qed.

Lemma prefixed_step names c s : prefix_ok names ->
  let P := root_of names in
  let r := do_call (prefixed o P) c s in
  do_call (Memory "") c (under P (fs_view s)) = (under P (fs_view r.1), r.2)
  /\ forall k, HasPrefix k P = false -> fs_view r.1 !! k = fs_view s !! k.
Proof.
  intros Hn P. destruct (ValidateKey (call_key c)) as [err|] eqn:Hk.
  { rewrite (prefixed_invalid P c s err Hk), (memory_invalid c _ err Hk). done. }
  pose proof (fs_call (call_at P c) s) as Hf. cbv zeta. rewrite (prefixed_call P c s Hk), memory_call by (done || by apply prefixed_valid).
  destruct (do_call o (call_at P c) s) as [s' a]. cbn in Hf |- *. rewrite Hf. split; [done|].
  intros k Hkp. change (fs_view s') with (fs_view s', a).1. rewrite <- Hf. apply memory_frame. rewrite call_at_key.
  intros ->. by rewrite HasPrefix_app in Hkp.
Qed.
End refinement.

#[global] Instance prefixed_flat {S} (o : ObjectStore S) `{!FlatStore o} names (Hn : prefix_ok names) :
  FlatStore (prefixed o (root_of names)).
Proof. exists (fun s => under (root_of names) (fs_view s)). intros c s. by apply prefixed_step. Defined.

(** *** Calls through several prefixes of one backend *)

Fixpoint run_at {S} (o : ObjectStore S) (calls : list (list string * call)) (s : S) : S * list (list string * answer) :=
  match calls with
  | [] => (s, [])
  | (names, c) :: calls =>
      let (s, a) := do_call (withPrefix o (Join names "/")) c s in
      let (s, answers) := run_at o calls s in (s, (names, a) :: answers)
  end.

Definition calls_of {A} (names : list string) (l : list (list string * A)) : list A :=
  omap (fun x => if decide (x.1 = names) then Some x.2 else None) l.

Lemma calls_of_cons {A} names ns (a : A) l :
  calls_of names ((ns, a) :: l) = if decide (ns = names) then a :: calls_of names l else calls_of names l.
Proof. unfold calls_of. cbn. by destruct (decide (ns = names)). Qed.

(** Prefixes neither of which is below the other. *)
Definition apart (a b : list string) : Prop :=
  HasPrefix (root_of a) (root_of b) = false /\ HasPrefix (root_of b) (root_of a) = false.

Lemma one_prefixes a b x y : a +:+ x = b +:+ y -> HasPrefix a b = true \/ HasPrefix b a = true.
Proof.
  rewrite !HasPrefix_spec. revert b. induction a as [|c a IH]; intros b E; [right; exists b; by rewrite app_nil_l|].
  destruct b as [|d b]; [left; exists (String c a); by rewrite app_nil_l|]. rewrite !app_cons in E. injection E as -> E.
  destruct (IH b E) as [[r ->]|[r ->]]; [left|right]; exists r; by rewrite app_cons.
Qed.

Lemma apart_keys a b k : apart a b -> HasPrefix (root_of a +:+ k) (root_of b) = false.
Proof.
  intros [Hab Hba]. apply not_true_iff_false. intros [r E]%HasPrefix_spec.
  destruct (one_prefixes _ _ _ _ E); congruence.
Qed.

Lemma apart_irrefl a : ~ apart a a.
Proof. intros [Ha _]. apply not_true_iff_false in Ha. apply Ha, HasPrefix_spec. exists "". by rewrite app_nil_r. Qed.

Lemma withPrefix_names {S} (o : ObjectStore S) names : names_ok names -> names <> [] ->
  withPrefix o (Join names "/") = prefixed o (root_of names).
Proof.
  intros Hn Hne. pose proof (Split_Join "/" names Hne (names_ok_segments _ Hn)) as Hs.
  assert (Hplain : "" ∉ Split "/" (Join names "/")).
  { rewrite Hs. intros Hin. apply names_ok_plain in Hn. rewrite Forall_forall in Hn. by apply Hn in Hin. }
  assert (Ht : TrimPrefix (Join names "/") "/" = Join names "/").
  { unfold TrimPrefix. destruct (cut_prefix _ _) as [r|] eqn:E; [|done]. apply cut_prefix_Some in E. destruct Hplain.
    rewrite E. change ("/" +:+ r) with ("" +:+ String "/" r). rewrite Split_app by done. by left. }
  assert (Hsuf : HasSuffix (Join names "/") "/" = false).
  { unfold HasSuffix. destruct (cut_suffix _ _) as [r|] eqn:E; [|done]. apply cut_suffix_Some in E. destruct Hplain.
    rewrite E. change (r +:+ "/") with (r +:+ String "/" ""). rewrite Split_concat. apply elem_of_app. right. by left. }
  unfold withPrefix, rooted_prefix. rewrite Ht, Hsuf.
  rewrite (proj2 (String.eqb_neq _ _) (Join_names_ne names Hn Hne)). done.
Qed.

(** C23: A backend under a prefix of plain names is a store of its own.  Whatever
    calls are made through it, and through prefixes apart from it, and in
    whatever order, its own are answered as [Memory] answers them over the
    objects under its prefix alone: the others neither show in its answers nor
    change its objects.  And a key under none of the prefixes keeps its object. *)
Theorem prefix_is_a_store {S} (o : ObjectStore S) `{!FlatStore o} names calls s :
  Forall (fun x => prefix_ok x.1 /\ (x.1 = names \/ apart names x.1)) calls ->
  let (s', answers) := run_at o calls s in
  run (Memory "") (calls_of names calls) (under (root_of names) (fs_view s))
  = (under (root_of names) (fs_view s'), calls_of names answers)
  /\ forall k, Forall (fun x => HasPrefix k (root_of x.1) = false) calls -> fs_view s' !! k = fs_view s !! k.
Proof.
  revert s. induction calls as [|[ns c] calls IH]; intros s; [done|]. intros [[Hok Hor] Hc]%Forall_cons. cbn in Hok, Hor.
  cbn [run_at]. rewrite withPrefix_names by apply Hok. pose proof (prefixed_step o ns c s Hok) as [Hstep Hframe].
  destruct (do_call (prefixed o (root_of ns)) c s) as [s1 a]. cbn in Hstep, Hframe. specialize (IH s1 Hc).
  destruct (run_at o calls s1) as [s2 answers]. destruct IH as [IH Hrest]. split.
  - rewrite !calls_of_cons. destruct Hor as [->|Hap].
    + rewrite !decide_True by done. cbn [run]. by rewrite Hstep, IH.
    + rewrite !decide_False by (intros ->; by apply apart_irrefl in Hap).
      rewrite <- IH. f_equal. apply map_eq. intros k. rewrite !lookup_under. symmetry. apply Hframe. by apply apart_keys.
  - intros k [Hk Hks]%Forall_cons. rewrite Hrest by done. by apply Hframe.
Qed.

(** ** Local keys are paths below the root *)

Lemma Local_path_inl root key p : names_ok root -> root <> [] ->
  Local_path (abs_path root) key = inl p <->
  ValidateKey key = None /\ p = abs_path (resolve root key) /\ exists tail, resolve root key = root ++ tail.
Proof.
  intros Hr Hne. unfold Local_path. destruct (ValidateKey key); [split; [done|by intros [? _]]|].
  rewrite path_Join_rooted by done. cbv zeta. rewrite <- negb_orb.
  pose proof (below_spec root (resolve root key) Hr Hne (resolve_names _ _ Hr)) as Hb.
  destruct (_ || _); cbn [negb].
  - split; [intros [= <-]; split_and!; [done|done|by apply Hb]|by intros (_ & -> & _)].
  - split; [done|]. intros (_ & _ & Ht). apply Hb in Ht. done.
Qed.

(** C24: A key reaches one file, at or below the root of a local backend, whatever
    its text; one made of names reaches the file of those names, so two reach
    two; and under a prefix a key without a ".." stays below the prefix. *)
Theorem local_path_contained root names key p :
  names_ok root -> root <> [] -> prefix_ok names ->
  (Local_path (abs_path root) key = inl p -> exists tail, names_ok tail /\ p = abs_path (root ++ tail))
  /\ (key = Join names "/" -> Local_path (abs_path root) key = inl (abs_path (root ++ names)))
  /\ (no_dotdot key -> Local_path (abs_path root) (root_of names +:+ key) = inl p ->
      exists tail, names_ok tail /\ p = abs_path (root ++ names ++ tail)).
Proof.
  intros Hr Hne (Hn & Hnne & Hz). split_and!.
  - intros (_ & -> & [tail Ht])%(Local_path_inl root _ _ Hr Hne). exists tail. rewrite Ht. split; [|done].
    pose proof (resolve_names root key Hr) as Hk. rewrite Ht in Hk. by apply Forall_app in Hk as [_ Hk].
  - intros ->. pose proof (names_ok_plain _ Hn) as Hp. pose proof (names_ok_segments _ Hn) as Hsg.
    apply (Local_path_inl root _ _ Hr Hne). rewrite (resolve_plain root names) by done. split_and!; [|done|by eexists].
    apply ValidateKey_None. rewrite (resolve_plain ["store"] names) by (done || by repeat constructor). split; [|by eexists].
    revert Hz. unfold root_of, has_byte. intros Hz%negb_false_iff. apply negb_false_iff.
    rewrite all_bytes_app, andb_true_iff in Hz. apply Hz.
  - intros Hd (_ & -> & _)%(Local_path_inl root _ _ Hr Hne). unfold root_of. rewrite app_assoc, resolve_app by done.
    destruct (resolve_down (root ++ names) key Hd) as [tail Ht]. exists tail. rewrite Ht, List.app_assoc. split; [|done].
    assert (Hk : names_ok (resolve (root ++ names) key)) by (apply resolve_names, Forall_app; done).
    rewrite Ht in Hk. by apply Forall_app in Hk as [_ Hk].
Qed.

(** A key that climbs to the virtual root and comes back through its name is
    accepted, and leaves the prefix it is rooted at. *)
Example prefix_escape : ValidateKey "../store/x" = None
  /\ Local_path "/srv/data" ("cold/x/" +:+ "../store/x") = inl "/srv/data/cold/store/x"
  /\ Local_path "/srv/data" "../store/x" = inr (KeyEscapes "../store/x")
  /\ map (fun k => isSome (ValidateKey k)) ["a/../../x"; String "000" "a"; "a//b"; ""] = [true; true; false; false].
Proof. by vm_compute. Qed.

(** A size of a TiB has no unit. *)
Example humanSize_ex : map humanSize [0; 1023; 1024; 1536; 1048576; 1048575; 1099511627775; 1099511627776]
  = [Some "0 B"; Some "1023 B"; Some "1.0 KiB"; Some "1.5 KiB"; Some "1.0 MiB"; Some "1024.0 KiB"; Some "1024.0 GiB"; None].
Proof. by vm_compute. Qed.

(** *** At concrete inputs *)

Lemma cold_ok : prefix_ok ["cold"; "x"].
Proof. split_and!; [by repeat constructor|done|by vm_compute]. Qed.

Lemma hot_ok : prefix_ok ["hot"].
Proof. split_and!; [by repeat constructor|done|by vm_compute]. Qed.

Definition two_tenants : list (list string * call) :=
  [(["cold"; "x"], CPut 5 "a" "old"); (["hot"], CPut 6 "a" "new"); (["cold"; "x"], CGet "a"); (["hot"], CDelete "a");
   (["cold"; "x"], CList ""); (["cold"; "x"], CHead "../b")].

Lemma prefix_is_a_store_witness :
  (run_at (Memory "mem://1") two_tenants ∅).2
  = [(["cold"; "x"], ADone); (["hot"], ADone); (["cold"; "x"], ABody (Some "old")); (["hot"], ADone);
     (["cold"; "x"], AKeys ["a"]); (["cold"; "x"], AFailed (KeyEscapes "../b"))]
  /\ let (s', answers) := run_at (Memory "mem://1") two_tenants ∅ in
     run (Memory "") (calls_of ["cold"; "x"] two_tenants) (under (root_of ["cold"; "x"]) (fs_view (o := Memory "mem://1") ∅))
     = (under (root_of ["cold"; "x"]) (fs_view (o := Memory "mem://1") s'), calls_of ["cold"; "x"] answers)
     /\ forall k, Forall (fun x => HasPrefix k (root_of x.1) = false) two_tenants -> fs_view (o := Memory "mem://1") s' !! k = fs_view (o := Memory "mem://1") ∅ !! k.
Proof.
  split; [by vm_compute|]. apply (prefix_is_a_store (Memory "mem://1") ["cold"; "x"] two_tenants ∅).
  assert (Ha : apart ["cold"; "x"] ["hot"]) by (by split; vm_compute).
  repeat (constructor; [split; cbn; first [apply cold_ok|apply hot_ok|by left|by right]|]). constructor.
Defined.

Lemma local_path_contained_witness :
  Local_path "/srv/data" "a/../b" = inl "/srv/data/b"
  /\ (Local_path (abs_path ["srv"; "data"]) "a/../b" = inl "/srv/data/b" ->
      exists tail, names_ok tail /\ "/srv/data/b" = abs_path (["srv"; "data"] ++ tail)).
Proof.
  split; [by vm_compute|]. apply (local_path_contained ["srv"; "data"] ["cold"; "x"] "a/../b" "/srv/data/b");
    [by repeat constructor|done|apply cold_ok].
Defined.
