(* ===== verification/Placement.v ===== *)
(** Which backend an upload writes to: the resolver of
    internal/storage/resolver.go, and the placer and the drift report of
    internal/placement over the manifest store.

    An object store is a parameter with its label.  A backend map holds the
    configured stores; the warnings an upload prints are returned.  [head] is
    what a backend answers to a probe of one key, [None] an error. *)

From stdpp Require Import base list gmap strings sorting.
From Stdlib Require Import ZArith Lia Ascii.
From S2P Require Import Prelude GoStrings GoSort Types Store.

Definition DefaultName := "default".

Inductive Level := LevelDefault | LevelType | LevelGroup | LevelPackage.

#[global] Instance Level_eq_dec : EqDecision Level.
Proof. solve_decision. Defined.

Record Decision := MkDecision {
  d_Name : string;
  d_Level : Level;
  d_Group : string;
  d_IgnoredPolicy : string;
  d_IgnoredGroup : string
}.

Definition Reason (d : Decision) (typ : string) : string :=
  let reason :=
    match d_Level d with
    | LevelPackage => "package policy"
    | LevelGroup => "group rule: storage_by_group." +:+ d_Group d +:+ ", from storage_groups on the package"
    | LevelType => "type rule: storage_by_type." +:+ typ
    | LevelDefault => "global default; no type, group or package rule"
    end in
  let reason := if negb (d_IgnoredPolicy d =? "")%string
                then reason +:+ "; storage_policy " +:+ Quote (d_IgnoredPolicy d) +:+ " is not consulted for " +:+ typ
                else reason in
  if negb (d_IgnoredGroup d =? "")%string
  then reason +:+ "; storage_by_group." +:+ d_IgnoredGroup d +:+ " is not consulted for " +:+ typ
  else reason.

Section placement.
Context {ObjectStore : Type} (Label : ObjectStore -> string).

(** ** The resolver *)

Record NamedStore := MkNamed { ns_Name : string; ns_Store : ObjectStore }.

Inductive Resolver :=
| single (store : ObjectStore)
| multi (stores : gmap string ObjectStore) (def : ObjectStore) (byType byGroup : gmap string string)
    (names : list string).

(** [names] is the default backend and the others sorted; [def] stands for the
    default backend should the map not hold one. *)
Record Config := MkConfig {
  StorageBackends : list string;
  StorageByType : gmap string string;
  StorageByGroup : gmap string string
}.

(** [open_named]: the backend of a [storage_backends] entry, [None] when it
    cannot be built; the error names the first that cannot. *)
Fixpoint open_all (open_named : string -> option ObjectStore) (named : list string)
  (stores : gmap string ObjectStore) (names : list string)
  : (gmap string ObjectStore * list string) + string :=
  match named with
  | [] => inl (stores, names)
  | name :: named =>
      match open_named name with
      | None => inr name
      | Some st => open_all open_named named (<[name := st]> stores) (names ++ [name])
      end
  end.

Definition NewResolver (def : option ObjectStore) (open_named : string -> option ObjectStore) (cfg : Config)
  : option (Resolver + string) :=
  match def with
  | None => None
  | Some def =>
      if (length (StorageBackends cfg) =? 0)%nat && (size (StorageByType cfg) =? 0)%nat
         && (size (StorageByGroup cfg) =? 0)%nat
      then Some (inl (single def))
      else
        match open_all open_named (sort_Strings (StorageBackends cfg)) {[DefaultName := def]} [DefaultName] with
        | inr name => Some (inr name)
        | inl (stores, names) =>
            Some (inl (multi stores def (StorageByType cfg) (StorageByGroup cfg) names))
        end
  end.

Definition Default (r : Resolver) : ObjectStore :=
  match r with single st => st | multi stores def _ _ _ => default def (stores !! DefaultName) end.

(** [None] is the unknown backend. *)
Definition ByName (r : Resolver) (name : string) : option ObjectStore :=
  match r with
  | single st => if (name =? "")%string || (name =? DefaultName)%string then Some st else None
  | multi stores _ _ _ _ => stores !! (if (name =? "")%string then DefaultName else name)
  end.

(** [m[k]], "" when there is none. *)
Definition rule_of (m : gmap string string) (k : string) : string := default "" (m !! k).

Definition groupRule (byGroup : gmap string string) (groups : list string) : string * string :=
  if (length groups =? 0)%nat || (size byGroup =? 0)%nat then ("", "")
  else
    match List.find (fun g => negb (rule_of byGroup g =? "")%string) (sort_Strings groups) with
    | Some g => (g, rule_of byGroup g)
    | None => ("", "")
    end.

Definition Placement (r : Resolver) (typ policy : string) (groups : list string) : Decision :=
  if negb (policy =? "")%string then MkDecision policy LevelPackage "" "" ""
  else
    match r with
    | single _ => MkDecision DefaultName LevelDefault "" "" ""
    | multi _ _ byType byGroup _ =>
        let '(group, name) := groupRule byGroup groups in
        if negb (name =? "")%string then MkDecision name LevelGroup group "" ""
        else if negb (rule_of byType typ =? "")%string then MkDecision (rule_of byType typ) LevelType "" "" ""
        else MkDecision DefaultName LevelDefault "" "" ""
    end.

Definition ForTypeStore (r : Resolver) (typ : string) : ObjectStore :=
  match r with
  | single st => st
  | multi _ _ _ _ _ => default (Default r) (ByName r (d_Name (Placement r typ "" [])))
  end.

Fixpoint dedup_go (seen : list string) (l : list NamedStore) : list NamedStore :=
  match l with
  | [] => []
  | ns :: l =>
      let label := Label (ns_Store ns) in
      if slice_contains seen label then dedup_go seen l else ns :: dedup_go (label :: seen) l
  end.

Definition dedupByLabel (l : list NamedStore) : list NamedStore := dedup_go [] l.

(** A name of [names] the map lacks has no store; none is built that way. *)
Definition named_stores (stores : gmap string ObjectStore) (names : list string) : list NamedStore :=
  omap (fun n => MkNamed n <$> stores !! n) names.

Definition All (r : Resolver) : list NamedStore :=
  match r with
  | single st => [MkNamed DefaultName st]
  | multi stores _ _ _ names => named_stores stores names
  end.

Definition Fanout (r : Resolver) (typ : string) (recorded : list string) : list NamedStore :=
  match r with
  | single _ => All r
  | multi stores _ byType _ names =>
      let want :=
        DefaultName :: (if negb (rule_of byType typ =? "")%string then [rule_of byType typ] else [])
        ++ map (fun name => if (name =? "")%string then DefaultName else name) recorded in
      dedupByLabel (named_stores stores (List.filter (slice_contains want) names))
  end.

(** ** The write path *)

Definition DirectoryPlaced (typ : string) : bool := (typ =? TypePypi)%string.

Definition setPlaced (typ : string) : bool := (typ =? TypeFreeBSD)%string.

Definition WritePlacement (r : Resolver) (typ policy : string) (groups : list string) : Decision :=
  if negb (DirectoryPlaced typ) then Placement r typ policy groups
  else
    let d := Placement r typ "" [] in
    let g := Placement r typ "" groups in
    MkDecision (d_Name d) (d_Level d) (d_Group d) policy
      (if decide (d_Level g = LevelGroup) then d_Group g else d_IgnoredGroup d).

Definition EffectiveStorage (recorded : string) : string :=
  if (recorded =? "")%string then DefaultName else recorded.

Fixpoint version_index (i : nat) (v : string) (vs : list VersionEntry) : option nat :=
  match vs with
  | [] => None
  | ve :: vs =>
      if (ve_Version ve =? v)%string || (negb (v =? "")%string && (ve_Ref ve =? v)%string) then Some i
      else version_index (S i) v vs
  end.

Definition VersionIndex (pm : PackageManifest) (v : string) : option nat := version_index 0 v (pm_Versions pm).

Definition VersionLabel (ve : VersionEntry) : string :=
  if negb (ve_Version ve =? "")%string then ve_Version ve
  else if negb (ve_Ref ve =? "")%string then ve_Ref ve else "?".

(** ** The placer *)

Record pin := MkPin { pin_pkg : string; pin_version : string; pin_backend : string; pin_applied : bool }.

Definition pin_matches (p : option pin) (pkg : string) (ve : VersionEntry) : bool :=
  match p with
  | None => false
  | Some p =>
      if negb (pin_pkg p =? pkg)%string then false
      else (ve_Version ve =? pin_version p)%string
           || (negb (ve_Ref ve =? "")%string && (ve_Ref ve =? pin_version p)%string)
  end.

Record Placer := MkPlacer { pl_stores : Resolver; pl_replace : bool; pl_pin : option pin }.

Definition PlaceVersion (pkg version backend : string) (p : Placer) : Placer :=
  MkPlacer (pl_stores p) (pl_replace p) (Some (MkPin pkg version backend false)).

Definition PlacedVersion (p : Placer) : bool :=
  match pl_pin p with Some pn => pin_applied pn | None => false end.

(** A version that leaves a copy behind, and where. *)
Record left_behind := MkLeft { lb_pkg : string; lb_version : string; lb_to : string; lb_from : string }.

Inductive place_error :=
| RecordFailed (e : store_error)
| UnknownBackend (name : string)
| Stranded (versions : list (string * string * string)).

Definition set_Storage (name : string) (ve : VersionEntry) : VersionEntry :=
  MkVersionEntry (ve_Version ve) (ve_URL ve) (ve_Mode ve) (ve_VersionConstraint ve) (ve_Ref ve)
    (ve_Source ve) (ve_SourceName ve) (ve_SourcePackage ve) (ve_CaptureSuite ve) (ve_BuildCmd ve)
    (ve_DebGlob ve) (ve_Suites ve) (ve_Classifiers ve) (ve_Generated ve) (ve_Filename ve)
    (ve_SHA256 ve) (ve_AppVersion ve) (ve_RequiredBy ve) (ve_Checksum ve) (ve_ChecksumVerified ve)
    (ve_Platform ve) (ve_BuildEnv ve) (ve_Hidden ve) (ve_ArtifactSize ve) (ve_Dependencies ve)
    (ve_NpmBin ve) (ve_PublishedAt ve) (ve_ArtifactDigest ve) (ve_Frozen ve) (ve_Baseline ve)
    (ve_BaselineAt ve) name (ve_Description ve) (ve_Metadata ve).

Context (bad_glob : string -> bool) (head : ObjectStore -> string -> option bool).

Definition strandedAt (r : Resolver) (recorded key : string) : option bool :=
  match ByName r recorded with None => None | Some st => head st key end.

(** The name as it is recorded: the default is the empty one. *)
Definition recorded_as (name : string) : string := if (name =? DefaultName)%string then "" else name.

(** [pm] is the object cached under [alias]; its entry [i] is [ve]. *)
Definition record (o : outcome) (r : Resolver) (alias : option string) (pm : PackageManifest) (i : nat)
  (ve : VersionEntry) (name key : string) (s : Store) : Store * list left_behind * option store_error :=
  let want := recorded_as name in
  let old := ve_Storage ve in
  if (old =? want)%string then (s, [], None)
  else
    let warned :=
      if negb (key =? "")%string then
        match strandedAt r old key with
        | Some true => [MkLeft (pm_Name pm) (VersionLabel ve) name (EffectiveStorage old)]
        | _ => []
        end
      else [] in
    let pm := set_Versions (<[i := set_Storage want ve]> (pm_Versions pm)) pm in
    let '(s, err) := SavePackage bad_glob o alias pm (mutate alias pm s) in
    (s, warned, err).

(** What the rule, the record and the pin say of one version. *)
Definition chosen_name (p : Placer) (typ : string) (pm : PackageManifest) (ve : VersionEntry) : string :=
  let rule := d_Name (WritePlacement (pl_stores p) typ (pm_StoragePolicy pm) (pm_StorageGroups pm)) in
  let name := if negb (ve_Storage ve =? "")%string && negb (pl_replace p) then ve_Storage ve else rule in
  if pin_matches (pl_pin p) (pm_Name pm) ve
  then match pl_pin p with Some pn => pin_backend pn | None => name end
  else name.

Definition apply_pin (p : Placer) (pm : PackageManifest) (ve : VersionEntry) : Placer :=
  if pin_matches (pl_pin p) (pm_Name pm) ve
  then match pl_pin p with
       | Some pn => MkPlacer (pl_stores p) (pl_replace p)
                      (Some (MkPin (pin_pkg pn) (pin_version pn) (pin_backend pn) true))
       | None => p
       end
  else p.

Definition ForVersion (read_ok : bool) (o : outcome) (p : Placer) (typ pkg version key : string) (s : Store)
  : Store * Placer * list left_behind * (ObjectStore + place_error) :=
  let by_type := ForTypeStore (pl_stores p) typ in
  if (pkg =? "")%string then (s, p, [], inl by_type)
  else
    match GetPackage read_ok s typ pkg with
    | (s, inr _) | (s, inl None) => (s, p, [], inl by_type)
    | (s, inl (Some pm)) =>
        match VersionIndex pm version with
        | None => (s, p, [], inl by_type)
        | Some i =>
            let ve := default zero_entry (pm_Versions pm !! i) in
            let name := chosen_name p typ pm ve in
            let p := apply_pin p pm ve in
            match record o (pl_stores p) (found_key typ pkg) pm i ve name key s with
            | (s, warned, Some err) => (s, p, warned, inr (RecordFailed err))
            | (s, warned, None) =>
                (s, p, warned,
                 match ByName (pl_stores p) name with
                 | Some st => inl st
                 | None => inr (UnknownBackend name)
                 end)
            end
        end
    end.

(** [destination]: a set-placed version is resolved once and held. *)
Definition destination (read_ok : bool) (o : outcome) (p : Placer) (typ pkg version key : string)
  (bound : gmap (string * string) ObjectStore) (s : Store)
  : Store * Placer * gmap (string * string) ObjectStore * (ObjectStore + place_error) :=
  if negb (setPlaced typ) || (pkg =? "")%string then
    let '(s, p, _, res) := ForVersion read_ok o p typ pkg version key s in (s, p, bound, res)
  else
    match bound !! (pkg, version) with
    | Some st => (s, p, bound, inl st)
    | None =>
        match ForVersion read_ok o p typ pkg version key s with
        | (s, p, _, inl st) => (s, p, <[(pkg, version) := st]> bound, inl st)
        | (s, p, _, inr err) => (s, p, bound, inr err)
        end
    end.

(** ** Drift *)

Record DriftRow := MkDrift {
  dr_Type : string;
  dr_Package : string;
  dr_Version : string;
  dr_On : string;
  dr_Rule : string;
  dr_Frozen : bool;
  dr_IgnoredPolicy : string;
  dr_IgnoredGroup : string
}.

Definition drift_version (typ : string) (pm : PackageManifest) (d : Decision) (ve : VersionEntry)
  : list DriftRow :=
  let on := EffectiveStorage (ve_Storage ve) in
  if (on =? d_Name d)%string then []
  else [MkDrift typ (pm_Name pm) (VersionLabel ve) on (d_Name d) (ve_Frozen ve)
          (d_IgnoredPolicy d) (d_IgnoredGroup d)].

(** The packages of one type; the rows so far are kept when a read fails. *)
Fixpoint drift_packages (reads : string -> bool) (r : Resolver) (typ : string) (pkgs : list string)
  (out : list DriftRow) (s : Store) : Store * list DriftRow * option (string * string) :=
  match pkgs with
  | [] => (s, out, None)
  | pkg :: pkgs =>
      match GetPackage (reads pkg) s typ pkg with
      | (s, inr _) => (s, out, Some (typ, pkg))
      | (s, inl None) => drift_packages reads r typ pkgs out s
      | (s, inl (Some pm)) =>
          let d := WritePlacement r typ (pm_StoragePolicy pm) (pm_StorageGroups pm) in
          drift_packages reads r typ pkgs (out ++ concat (map (drift_version typ pm d) (pm_Versions pm))) s
      end
  end.

Fixpoint Drift (reads : string -> bool) (r : Resolver) (types : list string) (out : list DriftRow) (s : Store)
  : Store * list DriftRow * option (string * string) :=
  match types with
  | [] => (s, out, None)
  | typ :: types =>
      match drift_packages reads r typ (ListPackages s typ) out s with
      | (s, out, Some err) => (s, out, Some err)
      | (s, out, None) => Drift reads r types out s
      end
  end.
End placement.

(** ** The hierarchy *)

Lemma find_least (ok : string -> bool) l :
  StronglySorted (fun a b => Compare a b <= 0) l ->
  match List.find ok l with
  | Some g => g ∈ l /\ ok g = true /\ forall h, h ∈ l -> ok h = true -> Compare g h <= 0
  | None => forall h, h ∈ l -> ok h = false
  end.
Proof.
  induction 1 as [|x l Hl IH Hx]; cbn [List.find]; [by intros h Hh%elem_of_nil|].
  destruct (ok x) eqn:Ex.
  - split; [by left|]. split; [done|]. intros h [->|Hh]%elem_of_cons _.
    + by rewrite (cmp_refl Compare).
    + apply (proj1 (List.Forall_forall _ _) Hx). by apply list_elem_of_In.
  - destruct (List.find ok l) as [g|].
    + destruct IH as (Hg & Hok & Hmin). split; [by right|]. split; [done|].
      intros h [->|Hh]%elem_of_cons Hh'; [congruence|]. by apply Hmin.
    + intros h [->|Hh]%elem_of_cons; [done|]. by apply IH.
Qed.

(** The group that decides: of those with a rule, the first by name. *)
Definition deciding (byGroup : gmap string string) (groups : list string) (g : string) : Prop :=
  g ∈ groups /\ rule_of byGroup g <> "" /\
  forall h, h ∈ groups -> rule_of byGroup h <> "" -> Compare g h <= 0.

Lemma rule_of_size byGroup g : rule_of byGroup g <> "" -> size byGroup <> 0%nat.
Proof.
  unfold rule_of. intros H E. apply map_size_empty_iff in E. rewrite E, lookup_empty in H. done.
Qed.

Lemma groupRule_spec byGroup groups :
  let '(g, name) := groupRule byGroup groups in
  (name <> "" /\ name = rule_of byGroup g /\ deciding byGroup groups g) \/
  (g = "" /\ name = "" /\ forall h, h ∈ groups -> rule_of byGroup h = "").
Proof.
  unfold groupRule. destruct ((length groups =? 0)%nat || (size byGroup =? 0)%nat) eqn:E.
  { right. split; [done|]. split; [done|]. intros h Hh. apply orb_true_iff in E as [E%Nat.eqb_eq|E%Nat.eqb_eq].
    - apply nil_length_inv in E as ->. by apply elem_of_nil in Hh.
    - destruct (decide (rule_of byGroup h = "")) as [|Hn]; [done|]. by apply rule_of_size in Hn. }
  pose proof (find_least (fun g => negb (rule_of byGroup g =? "")%string) (sort_Strings groups)
    (SliceStable_by _ Compare groups (fun _ _ => eq_refl))) as H.
  destruct (List.find _ _) as [g|].
  - left. destruct H as (Hg & Hok & Hmin). apply negb_true_iff, String.eqb_neq in Hok.
    split; [done|]. split; [done|]. split; [by rewrite sort_Strings_perm in Hg|]. split; [done|].
    intros h Hh Hr. apply Hmin; [by rewrite sort_Strings_perm|]. by apply negb_true_iff, String.eqb_neq.
  - right. split; [done|]. split; [done|]. intros h Hh.
    apply String.eqb_eq, negb_false_iff, H. by rewrite sort_Strings_perm.
Qed.

Lemma deciding_unique byGroup groups g h :
  deciding byGroup groups g -> deciding byGroup groups h -> g = h.
Proof.
  intros (Hg & Hgr & Hgm) (Hh & Hhr & Hhm). apply Compare_zero.
  pose proof (Hgm h Hh Hhr). pose proof (Hhm g Hg Hgr). pose proof (Compare_anti g h). lia.
Qed.

Lemma groupRule_perm byGroup groups groups' :
  groups ≡ₚ groups' -> groupRule byGroup groups = groupRule byGroup groups'.
Proof.
  intros Hp. pose proof (groupRule_spec byGroup groups) as H1. pose proof (groupRule_spec byGroup groups') as H2.
  destruct (groupRule byGroup groups) as [g n], (groupRule byGroup groups') as [g' n'].
  assert (Hd : forall h, deciding byGroup groups' h -> deciding byGroup groups h).
  { intros h (Ha & Hb & Hc). split; [by rewrite Hp|]. split; [done|]. intros k Hk. apply Hc. by rewrite <- Hp. }
  destruct H1 as [(Hn & -> & H1)|(-> & -> & H1)], H2 as [(Hn' & -> & H2)|(-> & -> & H2)]; [| | |done].
  - apply Hd in H2. by rewrite (deciding_unique _ _ _ _ H1 H2).
  - destruct H1 as (Ha & Hb & _). rewrite Hp in Ha. by apply H2 in Ha.
  - destruct H2 as (Ha & Hb & _). rewrite <- Hp in Ha. by apply H1 in Ha.
Qed.

(** The placement hierarchy.  The package's policy decides where it has
    one; else the rule of the first group by name that has one; else the
    type's rule; else the default backend.  The answer does not depend on the
    order the manifest lists its groups in. *)
Theorem Placement_spec {ObjectStore} (stores : gmap string ObjectStore) def byType byGroup names typ policy groups :
  let d := Placement (multi stores def byType byGroup names) typ policy groups in
  (policy <> "" /\ d_Level d = LevelPackage /\ d_Name d = policy \/
   policy = "" /\ d_Level d = LevelGroup /\ deciding byGroup groups (d_Group d) /\
     d_Name d = rule_of byGroup (d_Group d) \/
   policy = "" /\ (forall g, g ∈ groups -> rule_of byGroup g = "") /\
     (if decide (rule_of byType typ = "") then d_Level d = LevelDefault /\ d_Name d = DefaultName
      else d_Level d = LevelType /\ d_Name d = rule_of byType typ)) /\
  (forall groups', groups ≡ₚ groups' ->
     Placement (multi stores def byType byGroup names) typ policy groups' = d).
Proof.
  cbv zeta. split.
  - unfold Placement. destruct (String.eqb_spec policy "") as [->|Hp]; cbn [negb]; [|by left]. right.
    pose proof (groupRule_spec byGroup groups) as H. destruct (groupRule byGroup groups) as [g n].
    destruct H as [(Hn & -> & H)|(-> & -> & H)].
    + left. apply String.eqb_neq in Hn. rewrite Hn. done.
    + right. split; [done|]. split; [done|].
      change (negb ("" =? "")%string) with false. cbn match.
      destruct (decide (rule_of byType typ = "")) as [->|Hr]; [done|]. apply String.eqb_neq in Hr. by rewrite Hr.
  - intros groups' Hp. unfold Placement. by rewrite (groupRule_perm _ _ _ Hp).
Qed.

Lemma Placement_spec_witness :
  Placement (multi ∅ tt ∅ (<["web" := "fast"]> (<["db" := "bulk"]> ∅)) []) TypeNpm "" ["web"; "db"]
  = Placement (multi ∅ tt ∅ (<["web" := "fast"]> (<["db" := "bulk"]> ∅)) []) TypeNpm "" ["db"; "web"].
Proof.
  apply (Placement_spec ∅ tt ∅ (<["web" := "fast"]> (<["db" := "bulk"]> ∅)) [] TypeNpm "" ["db"; "web"]).
  apply Permutation_swap.
Defined.

(** ** Recording *)

Lemma version_index_lookup v vs i j :
  version_index i v vs = Some j -> (i <= j)%nat /\ is_Some (vs !! (j - i)%nat).
Proof.
  revert i. induction vs as [|ve vs IH]; intros i; cbn [version_index]; [done|].
  destruct (_ || _); [intros [= <-]; split; [lia|]; by rewrite Nat.sub_diag|].
  intros H. apply IH in H as [H1 H2]. split; [lia|].
  replace (j - i)%nat with (S (j - S i)) by lia. exact H2.
Qed.

Lemma VersionIndex_lookup pm v i : VersionIndex pm v = Some i -> exists ve, pm_Versions pm !! i = Some ve.
Proof. intros H. apply version_index_lookup in H as [_ [ve H]]. rewrite Nat.sub_0_r in H. by exists ve. Qed.

Lemma ByName_recorded {ObjectStore} (r : @Resolver ObjectStore) name :
  ByName r (EffectiveStorage (recorded_as name)) = ByName r name.
Proof.
  unfold recorded_as, EffectiveStorage. destruct (String.eqb_spec name DefaultName) as [->|Hd].
  - done.
  - destruct (String.eqb_spec name "") as [->|]; [by destruct r|done].
Qed.

Section recording.
Context {ObjectStore : Type} (bad_glob : string -> bool) (head : ObjectStore -> string -> option bool).

(** An entry found by an upload, its key, and what the upload decides. *)
Record upload_of (read_ok : bool) (s : Store) (typ pkg version : string) (s1 : Store) (pm : PackageManifest)
  (i : nat) (ve : VersionEntry) : Prop := {
  uo_pkg : pkg <> "";
  uo_get : GetPackage read_ok s typ pkg = (s1, inl (Some pm));
  uo_index : VersionIndex pm version = Some i;
  uo_entry : pm_Versions pm !! i = Some ve
}.

Lemma ForVersion_found read_ok o p typ pkg version key s s1 pm i ve :
  upload_of read_ok s typ pkg version s1 pm i ve ->
  let name := chosen_name p typ pm ve in
  let '(s2, warned, err) := record bad_glob head o (pl_stores p) (found_key typ pkg) pm i ve name key s1 in
  ForVersion bad_glob head read_ok o p typ pkg version key s =
    (s2, apply_pin p pm ve, warned,
     match err with
     | Some err => inr (RecordFailed err)
     | None => match ByName (pl_stores p) name with Some st => inl st | None => inr (UnknownBackend name) end
     end).
Proof.
  intros [Hp Hg Hi He]. cbv zeta. unfold ForVersion. apply String.eqb_neq in Hp. rewrite Hp, Hg, Hi, He.
  cbn [default from_option id].
  assert (Hst : pl_stores (apply_pin p pm ve) = pl_stores p).
  { unfold apply_pin. destruct (pin_matches _ _ _); [|done]. by destruct (pl_pin p). }
  rewrite Hst.
  destruct (record bad_glob head o (pl_stores p) (found_key typ pkg) pm i ve (chosen_name p typ pm ve) key s1)
    as [[s2 warned] [err|]]; done.
Qed.

(** The stored manifest after a record that reported no error. *)
Lemma record_stored read_ok o r typ pkg version pm i ve name key s s1 s2 warned :
  agree s -> upload_of read_ok s typ pkg version s1 pm i ve ->
  record bad_glob head o r (found_key typ pkg) pm i ve name key s1 = (s2, warned, None) ->
  agree s2 /\ exists pm',
    st_files s2 !! manifestPath typ (CanonicalName typ pkg) = Some pm' /\
    pm_Versions pm' !! i = Some (set_Storage (recorded_as name) ve).
Proof.
  intros Hs [Hp Hg Hi He] Hr. pose proof (GetPackage_agree read_ok s typ pkg Hs) as Hs1. rewrite Hg in Hs1. cbn in Hs1.
  pose proof Hg as [Hc _]%GetPackage_found. unfold record in Hr.
  rewrite manifestPath_key. fold (key_path (packageKey typ (CanonicalName typ pkg))).
  destruct (String.eqb_spec (ve_Storage ve) (recorded_as name)) as [Ho|Ho].
  - injection Hr as <- <-. split; [done|]. exists pm. split; [by apply Hs1|]. rewrite <- Ho, He. by destruct ve.
  - set (vs := <[i := _]> (pm_Versions pm)) in Hr.
    destruct (SavePackage bad_glob o (found_key typ pkg) (set_Versions vs pm) _) as [s3 err] eqn:Hsave.
    injection Hr as <- _ ->. split; [by apply (update_agree _ _ _ _ _ _ _ _ _ _ Hs Hg Hsave)|].
    apply SavePackage_success in Hsave as (_ & _ & Hf & _). rewrite Hf, home_set_Versions.
    rewrite (agree_cached _ _ _ Hs1 Hc), lookup_insert_eq. eexists. split; [reflexivity|].
    unfold saved, set_identity, vs. cbn [pm_Versions set_Versions]. apply list_lookup_insert_eq.
    by eapply lookup_lt_Some.
Qed.


Lemma version_index_same v vs ws i :
  Forall2 (fun x y => ve_Version x = ve_Version y /\ ve_Ref x = ve_Ref y) vs ws ->
  version_index i v vs = version_index i v ws.
Proof.
  intros H. revert i. induction H as [|x y vs ws [Hv Hr] _ IH]; intros i; [done|]. cbn [version_index].
  rewrite Hv, Hr. by destruct (_ || _).
Qed.

Lemma version_index_set_Storage v vs i name ve :
  vs !! i = Some ve -> version_index 0 v (<[i := set_Storage name ve]> vs) = version_index 0 v vs.
Proof.
  intros Hi. apply version_index_same. apply Forall2_same_length_lookup. split; [by rewrite length_insert|].
  intros j x y Hx Hy. destruct (decide (i = j)) as [<-|Hne].
  - rewrite list_lookup_insert_eq in Hx by (by eapply lookup_lt_Some). rewrite Hi in Hy. by simplify_eq.
  - rewrite list_lookup_insert_ne in Hx by done. rewrite Hx in Hy. by injection Hy as ->.
Qed.

(** The state a refused write leaves: the cache holds the new record. *)
Lemma record_refused r typ pkg pm i ve name key s :
  validate_saved bad_glob (set_Versions (<[i := set_Storage (recorded_as name) ve]> (pm_Versions pm)) pm) = None ->
  ve_Storage ve <> recorded_as name ->
  let '(s', _, err) := record bad_glob head Refused r (found_key typ pkg) pm i ve name key s in
  err = Some WriteFailed /\ st_files s' = st_files s /\
  st_packages s' !! packageKey typ (CanonicalName typ pkg)
    = Some (saved (set_Versions (<[i := set_Storage (recorded_as name) ve]> (pm_Versions pm)) pm)).
Proof.
  intros Hv Ho. unfold record. apply String.eqb_neq in Ho. rewrite Ho. unfold SavePackage. rewrite Hv.
  cbn. split; [done|]. split; [done|]. by rewrite lookup_insert_eq.
Qed.

End recording.

(** An upload writes where the record says.  When the cache agrees with
    the backend, the backend [ForVersion] hands out for an entry is the one
    the stored manifest names for that entry, which it does before any byte is
    written; nothing else of the entry changed, and the cache still agrees. *)
Theorem ForVersion_records {ObjectStore} bad_glob (head : ObjectStore -> string -> option bool)
  read_ok o p typ pkg version key s s1 pm i ve s2 p2 warned st :
  agree s -> upload_of read_ok s typ pkg version s1 pm i ve ->
  ForVersion bad_glob head read_ok o p typ pkg version key s = (s2, p2, warned, inl st) ->
  agree s2 /\ exists pm' ve',
    st_files s2 !! manifestPath typ (CanonicalName typ pkg) = Some pm' /\ pm_Versions pm' !! i = Some ve' /\
    ve' = set_Storage (ve_Storage ve') ve /\ ByName (pl_stores p) (EffectiveStorage (ve_Storage ve')) = Some st.
Proof.
  intros Hs Hu Hf. pose proof (ForVersion_found bad_glob head read_ok o p typ pkg version key s s1 pm i ve Hu) as H.
  cbv zeta in H. destruct (record _ _ _ _ _ _ _ _ _ _) as [[s3 w] [err|]] eqn:Hr; rewrite H in Hf; [done|].
  destruct (ByName (pl_stores p) (chosen_name p typ pm ve)) as [st'|] eqn:Hb; [|done].
  injection Hf as <- _ _ <-.
  destruct (record_stored _ _ _ _ _ _ _ _ _ _ _ _ _ _ _ _ _ Hs Hu Hr) as (Ha & pm' & Hpm & He).
  split; [done|]. exists pm', (set_Storage (recorded_as (chosen_name p typ pm ve)) ve).
  split; [done|]. split; [done|]. split; [done|]. cbn [ve_Storage set_Storage]. by rewrite ByName_recorded.
Qed.

(** A recorded name wins.  An entry that records a backend keeps it:
    whatever rules the resolver holds, [ForVersion] hands out the recorded
    backend, unless the run replaces placements or names this version. *)
Theorem ForVersion_sticky {ObjectStore} bad_glob (head : ObjectStore -> string -> option bool)
  read_ok o p typ pkg version key s s1 pm i ve s2 p2 warned st :
  upload_of read_ok s typ pkg version s1 pm i ve ->
  ve_Storage ve <> "" -> pl_replace p = false -> pin_matches (pl_pin p) (pm_Name pm) ve = false ->
  ForVersion bad_glob head read_ok o p typ pkg version key s = (s2, p2, warned, inl st) ->
  ByName (pl_stores p) (ve_Storage ve) = Some st.
Proof.
  intros Hu Ho Hrep Hpin Hf.
  pose proof (ForVersion_found bad_glob head read_ok o p typ pkg version key s s1 pm i ve Hu) as H.
  cbv zeta in H. destruct (record _ _ _ _ _ _ _ _ _ _) as [[s3 w] [err|]]; rewrite H in Hf; [done|].
  assert (Hn : chosen_name p typ pm ve = ve_Storage ve).
  { unfold chosen_name. apply String.eqb_neq in Ho. by rewrite Ho, Hrep, Hpin. }
  rewrite Hn in Hf. destruct (ByName _ _); [|done]. by injection Hf as _ _ _ <-.
Qed.

(** A failed record is not tried again.  [record] changes the cached entry
    before it saves the manifest, so when the write is refused the upload is
    refused, and the next attempt in the same process finds the entry already
    recorded and hands the backend out with nothing written: the bytes go to
    one backend while the stored manifest names another. *)
Theorem ForVersion_after_refused_write {ObjectStore} bad_glob (head : ObjectStore -> string -> option bool)
  read_ok o p typ pkg version key s s1 pm i ve st :
  agree s -> upload_of read_ok s typ pkg version s1 pm i ve -> pl_pin p = None -> pl_replace p = false ->
  ve_Storage ve = "" ->
  let name := d_Name (WritePlacement (pl_stores p) typ (pm_StoragePolicy pm) (pm_StorageGroups pm)) in
  name <> DefaultName -> name <> "" -> ByName (pl_stores p) name = Some st ->
  validate_saved bad_glob (set_Versions (<[i := set_Storage name ve]> (pm_Versions pm)) pm) = None ->
  let first := ForVersion bad_glob head read_ok Refused p typ pkg version key s in
  let second := ForVersion bad_glob head read_ok o p typ pkg version key first.1.1.1 in
  first.2 = inr (RecordFailed WriteFailed) /\ second.2 = inl st /\
  st_files second.1.1.1 = st_files s /\
  st_files s !! manifestPath typ (CanonicalName typ pkg) = Some pm /\
  pm_Versions pm !! i = Some ve /\ EffectiveStorage (ve_Storage ve) = DefaultName.
Proof.
  intros Hs Hu Hpin Hrep Ho name Hd Hne Hb Hv first second. unfold second, first. clear second first.
  assert (Hn : chosen_name p typ pm ve = name) by (unfold chosen_name; by rewrite Ho, Hpin).
  assert (Hra : recorded_as name = name) by (unfold recorded_as; apply String.eqb_neq in Hd; by rewrite Hd).
  assert (Hap : forall q e, apply_pin p q e = p) by (intros q e; unfold apply_pin; by rewrite Hpin).
  pose proof (GetPackage_agree read_ok s typ pkg Hs) as Hs1. rewrite (uo_get _ _ _ _ _ _ _ _ _ Hu) in Hs1.
  destruct (GetPackage_found _ _ _ _ _ _ (uo_get _ _ _ _ _ _ _ _ _ Hu)) as [Hc Hfs].
  pose proof (ForVersion_found bad_glob head read_ok Refused p typ pkg version key s s1 pm i ve Hu) as H1.
  cbv zeta in H1. rewrite Hn, Hap in H1.
  pose proof (record_refused bad_glob head (pl_stores p) typ pkg pm i ve name key s1) as Hr.
  rewrite Hra, Ho in Hr. specialize (Hr Hv (not_eq_sym Hne)).
  destruct (record _ _ _ _ _ _ _ _ _ _ _) as [[s2 w] err]. destruct Hr as (-> & Hf2 & Hc2). rewrite H1. cbn [fst snd].
  assert (Hu2 : upload_of read_ok s2 typ pkg version s2
            (saved (set_Versions (<[i := set_Storage name ve]> (pm_Versions pm)) pm)) i (set_Storage name ve)).
  { split; [by apply Hu|by apply GetPackage_cached| |].
    - unfold VersionIndex. cbn. rewrite version_index_set_Storage; apply Hu.
    - cbn. apply list_lookup_insert_eq. eapply lookup_lt_Some, Hu. }
  pose proof (ForVersion_found bad_glob head read_ok o p typ pkg version key s2 s2 _ i _ Hu2) as H2.
  cbv zeta in H2. rewrite Hap in H2.
  assert (Hn2 : chosen_name p typ (saved (set_Versions (<[i := set_Storage name ve]> (pm_Versions pm)) pm))
            (set_Storage name ve) = name).
  { unfold chosen_name. rewrite Hpin, Hrep. cbn. apply String.eqb_neq in Hne. by rewrite Hne. }
  rewrite Hn2 in H2. unfold record in H2. cbn [ve_Storage set_Storage] in H2. rewrite Hra, String.eqb_refl in H2.
  rewrite H2, Hb. cbn [fst snd]. split; [done|]. split; [done|]. split; [by rewrite Hf2|].
  split; [|split; [apply Hu|by rewrite Ho]]. rewrite <- Hfs, manifestPath_key. by apply Hs1.
Qed.

(** ** Witnesses *)

Definition demo_resolver : @Resolver string :=
  multi (<["default" := "DEFAULT"]> (<["bulk" := "BULK"]> ∅)) "DEFAULT" (<["npm" := "bulk"]> ∅) ∅ ["default"; "bulk"].
Definition demo_placer : @Placer string := MkPlacer demo_resolver false None.
Definition demo_pad (storage : string) : PackageManifest :=
  MkPackageManifest 1 "left-pad" TypeNpm "" "" "" [] [set_Storage storage (versioned "1.0")].
Definition demo_filed (storage : string) : Store :=
  set_files (<[manifestPath TypeNpm "left-pad" := demo_pad storage]> ∅) empty_store.
Definition demo_read (storage : string) : Store := (GetPackage true (demo_filed storage) TypeNpm "left-pad").1.
Definition silent (_ : string) (_ : string) : option bool := Some false.
Definition demo_upload (o : outcome) (storage : string) :=
  ForVersion no_bad_glob silent true o demo_placer TypeNpm "left-pad" "1.0" "k" (demo_filed storage).

Lemma demo_agree storage : agree (demo_filed storage).
Proof.
  split; cbn; [intros k pm; by rewrite lookup_empty|]. intros path pm.
  destruct (decide (path = manifestPath TypeNpm "left-pad")) as [->|Hne].
  - rewrite lookup_insert_eq. intros [= <-]. reflexivity.
  - by rewrite lookup_insert_ne, lookup_empty by done.
Qed.

Lemma demo_upload_of storage :
  upload_of true (demo_filed storage) TypeNpm "left-pad" "1.0" (demo_read storage) (demo_pad storage) 0
    (set_Storage storage (versioned "1.0")).
Proof. by split. Qed.

Lemma ForVersion_records_witness :
  agree (demo_upload Done "").1.1.1 /\ exists pm' ve',
    st_files (demo_upload Done "").1.1.1 !! manifestPath TypeNpm (CanonicalName TypeNpm "left-pad") = Some pm' /\
    pm_Versions pm' !! 0%nat = Some ve' /\ ve' = set_Storage (ve_Storage ve') (set_Storage "" (versioned "1.0")) /\
    ByName demo_resolver (EffectiveStorage (ve_Storage ve')) = Some "BULK".
Proof.
  apply (ForVersion_records no_bad_glob silent true Done demo_placer TypeNpm "left-pad" "1.0" "k"
           (demo_filed "") (demo_read "") (demo_pad "") 0 (set_Storage "" (versioned "1.0"))
           (demo_upload Done "").1.1.1 (demo_upload Done "").1.1.2 (demo_upload Done "").1.2 "BULK").
  - apply demo_agree.
  - apply demo_upload_of.
  - vm_compute. reflexivity.
Defined.

Lemma ForVersion_sticky_witness : ByName demo_resolver "default" = Some "DEFAULT".
Proof.
  apply (ForVersion_sticky no_bad_glob silent true Done demo_placer TypeNpm "left-pad" "1.0" "k"
           (demo_filed "default") (demo_read "default") (demo_pad "default") 0 (set_Storage "default" (versioned "1.0"))
           (demo_upload Done "default").1.1.1 (demo_upload Done "default").1.1.2 (demo_upload Done "default").1.2
           "DEFAULT").
  - apply demo_upload_of.
  - discriminate.
  - vm_compute. reflexivity.
  - vm_compute. reflexivity.
  - vm_compute. reflexivity.
Defined.

Lemma ForVersion_after_refused_write_witness :
  let first := demo_upload Refused "" in
  let second := ForVersion no_bad_glob silent true Done demo_placer TypeNpm "left-pad" "1.0" "k" first.1.1.1 in
  first.2 = inr (RecordFailed WriteFailed) /\ second.2 = inl "BULK" /\
  st_files second.1.1.1 = st_files (demo_filed "") /\
  st_files (demo_filed "") !! manifestPath TypeNpm (CanonicalName TypeNpm "left-pad") = Some (demo_pad "") /\
  pm_Versions (demo_pad "") !! 0%nat = Some (set_Storage "" (versioned "1.0")) /\
  EffectiveStorage (ve_Storage (set_Storage "" (versioned "1.0"))) = DefaultName.
Proof.
  apply (ForVersion_after_refused_write no_bad_glob silent true Done demo_placer TypeNpm "left-pad" "1.0" "k"
           (demo_filed "") (demo_read "") (demo_pad "") 0 (set_Storage "" (versioned "1.0")) "BULK").
  - apply demo_agree.
  - apply demo_upload_of.
  - vm_compute. reflexivity.
  - vm_compute. reflexivity.
  - vm_compute. reflexivity.
  - discriminate.
  - discriminate.
  - vm_compute. reflexivity.
  - vm_compute. reflexivity.
Defined.
