(* ===== verification/StorageConfig.v ===== *)
(** From the configuration to the stores: the storage part of
    internal/config/config.go, and SpecFor, NewFromSpec and the s3 targets of
    internal/storage/{storage,s3target}.go.

    [StorageSpec] of the configuration and [Spec] of the stores have the same
    fields and are one record.  A driver's constructor is a parameter.  A map is
    ranged over in some order: what ranges takes the entries in that order. *)

From stdpp Require Import base list gmap strings sorting pretty.
From Stdlib Require Import ZArith Lia Ascii Sorted.
From S2P Require Import Prelude GoStrings GoSort Types Store.
From S2P Require Import GoPath ObjectStore Placement.

Record Spec := MkSpec {
  sp_Driver : string;
  sp_Path : string;
  sp_Bucket : string;
  sp_Region : string;
  sp_Prefix : string
}.

Record StorageConfig := MkStorageConfig {
  sc_StorageBackend : string;
  sc_StoragePath : string;
  sc_Bucket : string;
  sc_Region : string;
  sc_StorageBackends : gmap string Spec;
  sc_StorageByType : gmap string string;
  sc_StorageByGroup : gmap string string
}.

Definition DefaultStorageName := "default".
Definition DefaultStoragePath := "/var/lib/bodega".

(** ** Validation *)

Inductive config_error :=
| EmptyBackend
| ReservedBackend (name : string)
| DriverBackend (name drivers : string)
| NoDriver (name drivers : string)
| UnknownDriver (name driver drivers : string)
| PrefixLeaves (name prefix : string)
| PrefixNothing (name prefix : string)
| PrefixNotCanonical (name prefix want : string)
| TypeEmpty (typ : string)
| TypeUndefined (typ name defined : string)
| GroupUnnamed
| GroupEmpty (group : string)
| GroupUndefined (group name defined : string).

Definition validatePrefix (name prefix : string) : option config_error :=
  let trimmed := TrimSuffix (TrimPrefix prefix "/") "/" in
  if (trimmed =? "")%string then None
  else if existsb (fun seg => seg =? "..")%string (Split "/" trimmed) then Some (PrefixLeaves name prefix)
  else
    let cleaned := path_Clean ("/" +:+ trimmed) in
    if (cleaned =? "/" +:+ trimmed)%string then None
    else
      let want := TrimPrefix cleaned "/" in
      if (want =? "")%string then Some (PrefixNothing name prefix) else Some (PrefixNotCanonical name prefix want).

Definition definedStorageNames (c : StorageConfig) : string :=
  Join (DefaultStorageName :: sort_Strings (map fst (map_to_list (sc_StorageBackends c)))) ", ".

Definition backend_error (drivers : list string) (e : string * Spec) : option config_error :=
  let '(name, spec) := e in
  let driverList := Join drivers ", " in
  if (name =? "")%string then Some EmptyBackend
  else if (name =? DefaultStorageName)%string then Some (ReservedBackend name)
  else if slice_contains drivers name then Some (DriverBackend name driverList)
  else if (sp_Driver spec =? "")%string then Some (NoDriver name driverList)
  else if (0 <? length drivers)%nat && negb (slice_contains drivers (sp_Driver spec))
  then Some (UnknownDriver name (sp_Driver spec) driverList)
  else validatePrefix name (sp_Prefix spec).

Definition type_error (c : StorageConfig) (e : string * string) : option config_error :=
  let '(typ, name) := e in
  if (name =? "")%string then Some (TypeEmpty typ)
  else if (name =? DefaultStorageName)%string then None
  else match sc_StorageBackends c !! name with
       | Some _ => None
       | None => Some (TypeUndefined typ name (definedStorageNames c))
       end.

Definition group_error (c : StorageConfig) (e : string * string) : option config_error :=
  let '(group, name) := e in
  if (group =? "")%string then Some GroupUnnamed
  else if (name =? "")%string then Some (GroupEmpty group)
  else if (name =? DefaultStorageName)%string then None
  else match sc_StorageBackends c !! name with
       | Some _ => None
       | None => Some (GroupUndefined group name (definedStorageNames c))
       end.

Definition validateStorage (drivers : list string) (bs : list (string * Spec)) (ts gs : list (string * string))
  (c : StorageConfig) : option config_error :=
  match first_some (backend_error drivers) bs with
  | Some err => Some err
  | None =>
      match first_some (type_error c) ts with
      | Some err => Some err
      | None => first_some (group_error c) gs
      end
  end.

(** ** Stores *)

Definition SpecFromConfig (c : StorageConfig) : Spec :=
  MkSpec (sc_StorageBackend c) (sc_StoragePath c) (sc_Bucket c) (sc_Region c) "".

Definition SpecFor (c : StorageConfig) (name : string) : option Spec :=
  if (name =? DefaultName)%string then Some (SpecFromConfig c)
  else
    match sc_StorageBackends c !! name with
    | None => None
    | Some spec => Some (MkSpec (sp_Driver spec) (sp_Path spec) (sp_Bucket spec) (sp_Region spec) (sp_Prefix spec))
    end.

Inductive open_error :=
| UnknownStorage (driver : string) (available : list string)
| DriverRefused.

Definition driver_of (spec : Spec) : string := if (sp_Driver spec =? "")%string then "local" else sp_Driver spec.

Definition Drivers {A} (backends : gmap string A) : list string := sort_Strings (map fst (map_to_list backends)).

Section stores.
Context {S : Type} (backends : gmap string (Spec -> option (ObjectStore S))).

Definition NewFromSpec (spec : Spec) : ObjectStore S + open_error :=
  match backends !! driver_of spec with
  | None => inr (UnknownStorage (driver_of spec) (Drivers backends))
  | Some fn =>
      match fn spec with
      | None => inr DriverRefused
      | Some store => inl (withPrefix store (sp_Prefix spec))
      end
  end.

Definition opened (r : ObjectStore S + open_error) : option (ObjectStore S) :=
  match r with inl store => Some store | inr _ => None end.

Definition New (c : StorageConfig) : ObjectStore S + open_error := NewFromSpec (SpecFromConfig c).

(** The resolver of the whole configuration: [SpecFor] of a name it does not
    have is the empty spec. *)
Definition resolver_of (c : StorageConfig) : option (Resolver + string) :=
  NewResolver (opened (New c)) (fun name => opened (NewFromSpec (default (MkSpec "" "" "" "" "") (SpecFor c name))))
    (MkConfig (map fst (map_to_list (sc_StorageBackends c))) (sc_StorageByType c) (sc_StorageByGroup c)).
End stores.

(** ** The s3 backend an init action acts on *)

Record S3Target := MkTarget { t_Name : string; t_Bucket : string; t_Region : string; t_Prefix : string }.

Inductive target_error :=
| TargetUnknown (name configured : string)
| TargetNotS3 (name driver : string)
| TargetNoBucket (name : string)
| TargetNoRegion (name : string)
| DialFailed (name : string).

Definition S3TargetNames (c : StorageConfig) : list string :=
  (if (sc_StorageBackend c =? "s3")%string then [DefaultName] else [])
  ++ sort_Strings (omap (fun '(n, b) => if (sp_Driver b =? "s3")%string then Some n else None)
       (map_to_list (sc_StorageBackends c))).

Definition ResolveS3Target (c : StorageConfig) (name : string) : S3Target + target_error :=
  match SpecFor c name with
  | None =>
      inr (TargetUnknown name (Join (DefaultName :: sort_Strings (map fst (map_to_list (sc_StorageBackends c)))) ", "))
  | Some spec =>
      if negb (driver_of spec =? "s3")%string then inr (TargetNotS3 name (driver_of spec))
      else if (sp_Bucket spec =? "")%string then inr (TargetNoBucket name)
      else inl (MkTarget name (sp_Bucket spec) (sp_Region spec) (sp_Prefix spec))
  end.

Definition RequireS3Region (t : S3Target) (region : string) : option target_error :=
  if negb (region =? "")%string then None else Some (TargetNoRegion (t_Name t)).

(** [dial] gives a client by the region it resolved. *)
Definition DialS3TargetWith (t : S3Target) (dial : string -> string -> option string) : string + target_error :=
  match dial (t_Bucket t) (t_Region t) with
  | None => inr (DialFailed (t_Name t))
  | Some region =>
      match RequireS3Region t region with Some err => inr err | None => inl region end
  end.

(** ** What validation accepts *)

Lemma TrimSuffix_cases s suf : s = TrimSuffix s suf +:+ suf \/ s = TrimSuffix s suf /\ HasSuffix s suf = false.
Proof.
  unfold TrimSuffix, HasSuffix. destruct (cut_suffix s suf) as [r|] eqn:E; [left; by apply cut_suffix_Some|by right].
Qed.

Lemma HasSuffix_app r suf : HasSuffix (r +:+ suf) suf = true.
Proof. unfold HasSuffix. by rewrite cut_suffix_app. Qed.

Definition trimmed_prefix (prefix : string) : string := TrimSuffix (TrimPrefix prefix "/") "/".

Lemma validatePrefix_None name prefix : validatePrefix name prefix = None <->
  trimmed_prefix prefix = "" \/ exists names, names_ok names /\ names <> [] /\ trimmed_prefix prefix = Join names "/".
Proof.
  unfold validatePrefix. fold (trimmed_prefix prefix). set (t := trimmed_prefix prefix). cbv zeta.
  destruct (String.eqb_spec t "") as [|Ht]; [split; [by left|done]|]. rewrite path_Clean_slash. split.
  - intros H. right. exists (resolve [] t). repeat case_match; simplify_eq. apply String.eqb_eq in H1.
    unfold abs_path in H1. injection H1 as H1. change (Join (resolve [] t) "/" = t) in H1.
    split_and!; [by apply resolve_names; constructor| |done]. intros E. rewrite E in H1. by symmetry in H1.
  - intros [|(names & Hn & Hne & E)]; [done|]. pose proof (names_ok_plain _ Hn) as Hp. pose proof (names_ok_segments _ Hn) as Hs.
    rewrite E, (resolve_plain [] names) by (done || constructor). cbn [app]. rewrite Split_Join by done.
    destruct (existsb _ names) eqn:Ed.
    { apply existsb_exists in Ed as (x & Hx & ->%String.eqb_eq). apply list_elem_of_In in Hx.
      rewrite Forall_forall in Hp. by apply Hp in Hx. }
    unfold abs_path. by rewrite String.eqb_refl.
Qed.

Lemma withPrefix_trimmed {S} (o : ObjectStore S) prefix : trimmed_prefix prefix <> "" ->
  withPrefix o prefix = prefixed o (trimmed_prefix prefix +:+ "/").
Proof.
  unfold withPrefix, rooted_prefix, trimmed_prefix. set (b := TrimPrefix prefix "/"). intros Ht.
  destruct (TrimSuffix_cases b "/") as [E|[E Hs]].
  - assert (Hb : (b =? "")%string = false).
    { apply String.eqb_neq. rewrite E. intros [_ H]%app_eq_nil. done. }
    rewrite Hb. cbn [orb]. rewrite E at 1. rewrite HasSuffix_app. by rewrite <- E.
  - rewrite E, (proj2 (String.eqb_neq _ _) Ht), <- E, Hs. cbn [orb]. by rewrite <- E.
Qed.

(** Where a rule may point. *)
Definition usable (c : StorageConfig) (name : string) : Prop :=
  name = DefaultStorageName \/ is_Some (sc_StorageBackends c !! name).

Record backend_ok (drivers : list string) (name : string) (spec : Spec) : Prop := {
  bo_name : name <> "" /\ name <> DefaultStorageName /\ name ∉ drivers;
  bo_driver : sp_Driver spec <> "" /\ (drivers = [] \/ sp_Driver spec ∈ drivers);
  bo_prefix : validatePrefix name (sp_Prefix spec) = None
}.

Record storage_ok (drivers : list string) (c : StorageConfig) : Prop := {
  so_backends : forall name spec, sc_StorageBackends c !! name = Some spec -> backend_ok drivers name spec;
  so_types : forall typ name, sc_StorageByType c !! typ = Some name -> name <> "" /\ usable c name;
  so_groups : forall group name, sc_StorageByGroup c !! group = Some name -> group <> "" /\ name <> "" /\ usable c name
}.

Lemma backend_error_None drivers name spec : backend_error drivers (name, spec) = None <-> backend_ok drivers name spec.
Proof.
  assert (Hd : (0 <? length drivers)%nat && negb (slice_contains drivers (sp_Driver spec)) = false
               <-> drivers = [] \/ sp_Driver spec ∈ drivers).
  { rewrite andb_false_iff, negb_false_iff, slice_contains_spec. destruct drivers; cbn; naive_solver. }
  unfold backend_error. destruct (String.eqb_spec name "") as [|H1]; [split; [done|]; by intros [(? & _) _ _]|].
  destruct (String.eqb_spec name DefaultStorageName) as [|H2]; [split; [done|]; by intros [(_ & ? & _) _ _]|].
  destruct (slice_contains drivers name) eqn:E.
  { apply slice_contains_spec in E. split; [done|]. by intros [(_ & _ & ?) _ _]. }
  destruct (String.eqb_spec (sp_Driver spec) "") as [|H3]; [split; [done|]; by intros [_ [? _] _]|].
  destruct (_ && _) eqn:Ed; [split; [done|]; intros [_ [_ H] _]; apply Hd in H; congruence|].
  assert (Hnd : name ∉ drivers) by (rewrite <- slice_contains_spec; congruence).
  split; [intros H; split; [done|split; [done|by apply Hd]|done]|by intros []].
Qed.

Lemma rule_error_None c name (err : config_error) :
  (if (name =? DefaultStorageName)%string then None else match sc_StorageBackends c !! name with Some _ => None | None => Some err end) = None
  <-> usable c name.
Proof.
  unfold usable. destruct (String.eqb_spec name DefaultStorageName) as [->|Hn]; [split; [by left|done]|].
  destruct (sc_StorageBackends c !! name) eqn:E; split; try done; [by intros; right|by intros [|[]]].
Qed.

Lemma type_error_None c typ name : type_error c (typ, name) = None <-> name <> "" /\ usable c name.
Proof.
  unfold type_error. destruct (String.eqb_spec name "") as [|H1]; [split; [done|by intros []]|].
  rewrite rule_error_None. naive_solver.
Qed.

Lemma group_error_None c group name : group_error c (group, name) = None <-> group <> "" /\ name <> "" /\ usable c name.
Proof.
  unfold group_error. destruct (String.eqb_spec group "") as [|H0]; [split; [done|by intros []]|].
  destruct (String.eqb_spec name "") as [|H1]; [split; [done|by intros (_ & ? & _)]|].
  rewrite rule_error_None. naive_solver.
Qed.

Lemma range_None {A} (f : string * A -> option config_error) (P : string -> A -> Prop) (m : gmap string A) l :
  (forall k x, f (k, x) = None <-> P k x) -> l ≡ₚ map_to_list m ->
  first_some f l = None <-> forall k x, m !! k = Some x -> P k x.
Proof.
  intros Hf Hl. rewrite first_some_None, Hl, Forall_forall. split.
  - intros H k x Hk. apply Hf, H. by apply elem_of_map_to_list.
  - intros H [k x] Hk. apply Hf, H. by apply elem_of_map_to_list.
Qed.

Lemma validateStorage_None drivers c bs ts gs :
  bs ≡ₚ map_to_list (sc_StorageBackends c) -> ts ≡ₚ map_to_list (sc_StorageByType c) ->
  gs ≡ₚ map_to_list (sc_StorageByGroup c) -> validateStorage drivers bs ts gs c = None <-> storage_ok drivers c.
Proof.
  intros Hb Ht Hg. unfold validateStorage.
  pose proof (range_None _ _ _ _ (backend_error_None drivers) Hb) as B.
  pose proof (range_None _ _ _ _ (type_error_None c) Ht) as T. pose proof (range_None _ _ _ _ (group_error_None c) Hg) as G.
  destruct (first_some (backend_error drivers) bs) as [e|].
  { split; [done|]. intros [H _ _]. by apply B in H. }
  destruct (first_some (type_error c) ts) as [e|].
  { split; [done|]. intros [_ H _]. by apply T in H. }
  rewrite G. split; [intros H; split; [by apply B|by apply T|done]|by intros []].
Qed.

(** Validation accepts a configuration exactly when no backend's name is empty,
    the reserved one or a driver's, each names a registered driver and a
    canonical prefix, and every rule points at a usable backend; in whatever
    order the maps are ranged over, and a prefix is canonical exactly when,
    less one "/" at each end, it is empty or plain names. *)
Theorem validateStorage_accepts drivers c bs ts gs :
  bs ≡ₚ map_to_list (sc_StorageBackends c) -> ts ≡ₚ map_to_list (sc_StorageByType c) ->
  gs ≡ₚ map_to_list (sc_StorageByGroup c) ->
  (validateStorage drivers bs ts gs c = None <-> storage_ok drivers c)
  /\ forall name prefix, validatePrefix name prefix = None <->
       trimmed_prefix prefix = "" \/ exists names, names_ok names /\ names <> [] /\ trimmed_prefix prefix = Join names "/".
Proof. intros Hb Ht Hg. split; [by apply validateStorage_None|apply validatePrefix_None]. Qed.

(** ** The resolver of an accepted configuration *)

Lemma open_all_spec {O} (open_named : string -> option O) named stores names :
  match open_all open_named named stores names with
  | inl (stores', names') =>
      names' = names ++ named
      /\ (forall n, n ∈ named -> is_Some (open_named n))
      /\ forall n, stores' !! n = if decide (n ∈ named) then open_named n else stores !! n
  | inr n => n ∈ named /\ open_named n = None
  end.
Proof.
  revert stores names. induction named as [|x named IH]; intros stores names; cbn [open_all].
  { split_and!; [by rewrite List.app_nil_r|by intros n Hn%elem_of_nil|done]. }
  destruct (open_named x) as [st|] eqn:E; [|split; [by left|done]].
  specialize (IH (<[x := st]> stores) (names ++ [x])). destruct (open_all _ _ _ _) as [[stores' names']|n].
  - destruct IH as (-> & Ho & Hs). split_and!; [by rewrite <- List.app_assoc|intros n [->|Hn]%elem_of_cons; eauto|].
    intros n. rewrite Hs. destruct (decide (n = x)) as [->|Hne].
    + rewrite (decide_True (P := x ∈ x :: named)) by (by left). rewrite lookup_insert_eq. by destruct (decide (x ∈ named)).
    + rewrite lookup_insert_ne by done. do 2 destruct (decide _) as [?|?]; try done; exfalso; set_solver.
  - destruct IH as [Hn Ho]. split; [by right|done].
Qed.

Section accepted.
Context {S : Type} (backends : gmap string (Spec -> option (ObjectStore S))) (drivers : list string) (c : StorageConfig).

Definition open_name (name : string) : option (ObjectStore S) :=
  opened (NewFromSpec backends (default (MkSpec "" "" "" "" "") (SpecFor c name))).

Definition backend_names : list string := map fst (map_to_list (sc_StorageBackends c)).

Lemma elem_of_backend_names name : name ∈ backend_names <-> is_Some (sc_StorageBackends c !! name).
Proof.
  unfold backend_names. rewrite list_elem_of_In, in_map_iff. split.
  - intros ([n spec] & <- & Hin). apply list_elem_of_In, elem_of_map_to_list in Hin. by eexists.
  - intros [spec Hs]. exists (name, spec). split; [done|]. by apply list_elem_of_In, elem_of_map_to_list.
Qed.

Lemma SpecFor_usable name : usable c name <-> is_Some (SpecFor c name).
Proof.
  unfold usable, SpecFor. change DefaultStorageName with DefaultName. destruct (String.eqb_spec name DefaultName) as [->|Hn].
  - split; [by eexists|by left].
  - destruct (sc_StorageBackends c !! name); split; [by eexists|by right; eexists|by intros [|[]]|by intros []].
Qed.

Lemma resolver_of_stores (Hok : storage_ok drivers c) :
  match resolver_of backends c with
  | None => open_name DefaultName = None
  | Some (inr name) => usable c name /\ open_name name = None
  | Some (inl r) => forall name, usable c name -> is_Some (open_name name) /\ ByName r name = open_name name
  end.
Proof.
  assert (Hnd : DefaultName ∉ backend_names).
  { rewrite elem_of_backend_names. intros [spec Hs]. by destruct (so_backends _ _ Hok _ _ Hs) as [(_ & ? & _) _ _]. }
  unfold resolver_of, NewResolver. fold backend_names. change (opened (New backends c)) with (open_name DefaultName).
  destruct (open_name DefaultName) as [def|] eqn:Ed; [|done]. cbn [StorageBackends StorageByType StorageByGroup].
  destruct (_ && _) eqn:Esingle.
  { apply andb_true_iff in Esingle as [[El%Nat.eqb_eq _]%andb_true_iff _]. apply nil_length_inv in El.
    intros name [->|Hs]; [change DefaultStorageName with DefaultName; rewrite Ed; by split; [eexists|]|]. apply elem_of_backend_names in Hs. rewrite El in Hs.
    by apply elem_of_nil in Hs. }
  pose proof (open_all_spec open_name (sort_Strings backend_names) {[DefaultName := def]} [DefaultName]) as Ho.
  unfold open_name in Ho at 1. destruct (open_all _ _ _ _) as [[stores names]|n].
  - destruct Ho as (_ & Hopen & Hs). intros name Hu. assert (Hne : (name =? "")%string = false).
    { apply String.eqb_neq. intros ->. destruct Hu as [|[spec Hsp]]; [done|].
      by destruct (so_backends _ _ Hok _ _ Hsp) as [(? & _) _ _]. }
    unfold ByName. rewrite Hne, Hs. destruct (decide (name ∈ sort_Strings backend_names)) as [Hin|Hin].
    + by split; [apply Hopen|].
    + rewrite sort_Strings_perm, elem_of_backend_names in Hin. destruct Hu as [->|Hu]; [|done].
      change DefaultStorageName with DefaultName. rewrite lookup_singleton_eq, Ed. by split; [eexists|].
  - destruct Ho as [Hin Hn]. rewrite sort_Strings_perm, elem_of_backend_names in Hin. split; [by right|done].
Qed.

Lemma resolver_of_rules r : resolver_of backends c = Some (inl r) ->
  (exists def, r = single def) \/ exists stores def names, r = multi stores def (sc_StorageByType c) (sc_StorageByGroup c) names.
Proof.
  unfold resolver_of, NewResolver. destruct (opened _); [|done]. cbn [StorageBackends StorageByType StorageByGroup].
  destruct (_ && _); [intros [= <-]; left; by eexists|]. destruct (open_all _ _ _ _) as [[stores names]|]; [|done].
  intros [= <-]. right. by do 3 eexists.
Qed.

Lemma rule_usable (Hok : storage_ok drivers c) (r : @Resolver (ObjectStore S)) typ groups :
  resolver_of backends c = Some (inl r) -> usable c (d_Name (Placement r typ "" groups)).
Proof.
  intros [[def ->]|(stores & def & names & ->)]%resolver_of_rules; [by left|]. unfold Placement. cbn [negb String.eqb].
  pose proof (groupRule_spec (sc_StorageByGroup c) groups) as Hg. destruct (groupRule _ groups) as [g n].
  destruct Hg as [(Hn & E & _)|(-> & -> & _)].
  - rewrite (proj2 (String.eqb_neq n "") Hn). cbn. rewrite E in Hn |- *. clear E. revert Hn. unfold rule_of.
    destruct (sc_StorageByGroup c !! g) as [name|] eqn:Hs; [intros _|done]. by apply (so_groups _ _ Hok _ _ Hs).
  - change (negb ("" =? "")%string) with false. cbv iota. destruct (String.eqb_spec (rule_of (sc_StorageByType c) typ) "") as [E|Hn]; [by left|].
    cbn. revert Hn. unfold rule_of. destruct (sc_StorageByType c !! typ) as [name|] eqn:Hs; [intros _|done].
    by apply (so_types _ _ Hok _ _ Hs).
Qed.

Lemma open_name_inv name store : usable c name -> open_name name = Some store ->
  exists spec fn inner, SpecFor c name = Some spec /\ backends !! driver_of spec = Some fn /\ fn spec = Some inner
    /\ store = withPrefix inner (sp_Prefix spec).
Proof.
  intros [spec Hs]%SpecFor_usable. unfold open_name. rewrite Hs. cbn [from_option id]. unfold NewFromSpec.
  destruct (backends !! driver_of spec) as [fn|] eqn:Ef; [|done]. destruct (fn spec) as [inner|] eqn:Ei; [|done].
  intros [= <-]. by exists spec, fn, inner.
Qed.

(** A configuration validation accepts gives a resolver exactly when the
    constructor of every backend's driver does its part.  Then every placement
    the rules decide, whatever the type and the groups, is on a backend there
    is; and each usable name is the store of its own driver on its own spec
    under its own prefix. *)
Theorem accepted_storage_places bs ts gs :
  bs ≡ₚ map_to_list (sc_StorageBackends c) -> ts ≡ₚ map_to_list (sc_StorageByType c) ->
  gs ≡ₚ map_to_list (sc_StorageByGroup c) -> validateStorage drivers bs ts gs c = None ->
  ((exists r, resolver_of backends c = Some (inl r)) <-> forall name, usable c name -> is_Some (open_name name))
  /\ forall r, resolver_of backends c = Some (inl r) ->
       (forall typ groups, is_Some (ByName r (d_Name (Placement r typ "" groups))))
       /\ forall name, usable c name -> exists spec fn inner,
            SpecFor c name = Some spec /\ backends !! driver_of spec = Some fn /\ fn spec = Some inner
            /\ ByName r name = Some (withPrefix inner (sp_Prefix spec)).
Proof.
  intros Hb Ht Hg Hok%validateStorage_None; [|done..]. pose proof (resolver_of_stores Hok) as H. split.
  - split.
    + intros [r E]. rewrite E in H. intros name Hu. by apply H.
    + intros Hall. destruct (resolver_of backends c) as [[r|n]|]; [by eexists| |].
      * destruct H as [Hu Hn]. apply Hall in Hu. rewrite Hn in Hu. by destruct Hu.
      * destruct (Hall DefaultName) as [st Hst]; [by left|]. congruence.
  - intros r E. pose proof E as E'. rewrite E in H. split.
    + intros typ groups. destruct (H _ (rule_usable Hok r typ groups E')) as [Ho ->]. done.
    + intros name Hu. destruct (H name Hu) as [[store Ho] Hby].
      destruct (open_name_inv name store Hu Ho) as (spec & fn & inner & Hs & Hf & Hi & ->).
      exists spec, fn, inner. by rewrite Hby.
Qed.
End accepted.

(** ** The s3 targets *)

Lemma elem_of_S3TargetNames c name : name ∈ S3TargetNames c <->
  (name = DefaultName /\ sc_StorageBackend c = "s3")
  \/ exists spec, sc_StorageBackends c !! name = Some spec /\ sp_Driver spec = "s3".
Proof.
  unfold S3TargetNames. rewrite elem_of_app, sort_Strings_perm, list_elem_of_omap. f_equiv.
  - destruct (String.eqb_spec (sc_StorageBackend c) "s3"); rewrite ?list_elem_of_singleton, ?elem_of_nil; naive_solver.
  - split.
    + intros ([n spec] & Hin%elem_of_map_to_list & E). destruct (String.eqb_spec (sp_Driver spec) "s3"); naive_solver.
    + intros (spec & Hs & E). exists (name, spec). rewrite elem_of_map_to_list, E. done.
Qed.

(** An init action accepts a backend of a validated configuration exactly when
    it is among the s3 backends listed and names a bucket; what it dials is the
    bucket, region and prefix of the spec the store is built from; and the
    refusal of another says whether it is unknown, on another driver or without
    a bucket. *)
Theorem ResolveS3Target_spec drivers c bs ts gs name :
  bs ≡ₚ map_to_list (sc_StorageBackends c) -> ts ≡ₚ map_to_list (sc_StorageByType c) ->
  gs ≡ₚ map_to_list (sc_StorageByGroup c) -> validateStorage drivers bs ts gs c = None ->
  match ResolveS3Target c name with
  | inl t => name ∈ S3TargetNames c /\ t_Name t = name /\ t_Bucket t <> ""
             /\ exists spec, SpecFor c name = Some spec /\ t_Bucket t = sp_Bucket spec
                  /\ t_Region t = sp_Region spec /\ t_Prefix t = sp_Prefix spec
  | inr (TargetUnknown n _) => n = name /\ ~ usable c name
  | inr (TargetNotS3 n _) => n = name /\ usable c name /\ name ∉ S3TargetNames c
  | inr (TargetNoBucket n) => n = name /\ name ∈ S3TargetNames c
  | inr _ => False
  end.
Proof.
  intros Hb Ht Hg Hok%validateStorage_None; [|done..]. pose proof (SpecFor_usable c name) as Hu.
  assert (Hs : forall spec, SpecFor c name = Some spec -> name ∈ S3TargetNames c <-> driver_of spec = "s3").
  { intros spec. unfold SpecFor. rewrite elem_of_S3TargetNames. unfold driver_of.
    destruct (String.eqb_spec name DefaultName) as [->|Hn].
    - intros [= <-]. cbn. split.
      + intros [[_ ->]|(spec & Hsp & _)]; [done|]. by destruct (so_backends _ _ Hok _ _ Hsp) as [(_ & ? & _) _ _].
      + destruct (sc_StorageBackend c =? "")%string; [done|]. by left.
    - destruct (sc_StorageBackends c !! name) as [spec'|] eqn:E; [|done]. intros [= <-]. cbn.
      destruct (so_backends _ _ Hok _ _ E) as [_ [Hd _] _]. rewrite (proj2 (String.eqb_neq _ _) Hd). naive_solver. }
  unfold ResolveS3Target. destruct (SpecFor c name) as [spec|].
  - specialize (Hs spec eq_refl). destruct (String.eqb_spec (driver_of spec) "s3") as [E|E]; cbn [negb].
    + apply Hs in E. destruct (String.eqb_spec (sp_Bucket spec) ""); [done|]. split_and!; [done..|]. by exists spec.
    + split_and!; [done|by apply Hu|by rewrite Hs].
  - split; [done|]. intros [? ?]%Hu. done.
Qed.

(** *** At a concrete configuration *)

Definition two_stores : StorageConfig :=
  MkStorageConfig "local" "/srv/data" "" ""
    (<["bulk" := MkSpec "s3" "" "artifacts" "eu-west-1" "cold/x/"]> ∅)
    (<[TypeNpm := "bulk"]> ∅) (<["web" := "default"]> ∅).

Definition two_drivers : list string := ["local"; "s3"].

Definition valid_two : option config_error :=
  validateStorage two_drivers [("bulk", MkSpec "s3" "" "artifacts" "eu-west-1" "cold/x/")] [(TypeNpm, "bulk")] [("web", "default")] two_stores.

Definition memory_drivers : gmap string (Spec -> option (ObjectStore (gmap string memObject))) :=
  <["local" := fun spec => Some (Memory (Local_Label (sp_Path spec)))]>
    (<["s3" := fun spec => if (sp_Bucket spec =? "")%string then None else Some (Memory ("s3://" +:+ sp_Bucket spec))]> ∅).

Lemma two_stores_backends : [("bulk", MkSpec "s3" "" "artifacts" "eu-west-1" "cold/x/")] ≡ₚ map_to_list (sc_StorageBackends two_stores).
Proof. apply reflexive_eq. by vm_compute. Qed.

Lemma two_stores_types : [(TypeNpm, "bulk")] ≡ₚ map_to_list (sc_StorageByType two_stores).
Proof. apply reflexive_eq. by vm_compute. Qed.

Lemma two_stores_groups : [("web", "default")] ≡ₚ map_to_list (sc_StorageByGroup two_stores).
Proof. apply reflexive_eq. by vm_compute. Qed.

Lemma validateStorage_accepts_witness : valid_two = None /\ storage_ok two_drivers two_stores.
Proof.
  split; [by vm_compute|].
  apply (validateStorage_accepts two_drivers two_stores _ _ _ two_stores_backends two_stores_types two_stores_groups). by vm_compute.
Defined.

Lemma accepted_storage_places_witness :
  match resolver_of memory_drivers two_stores with
  | Some (inl r) => option_map os_Label (ByName r (d_Name (Placement r TypeNpm "" []))) = Some "s3://artifacts/cold/x"
                    /\ option_map os_Label (ByName r (d_Name (Placement r TypeNpm "" ["web"]))) = Some "file:///srv/data"
  | _ => False
  end
  /\ forall r, resolver_of memory_drivers two_stores = Some (inl r) ->
      forall typ groups, is_Some (ByName r (d_Name (Placement r typ "" groups))).
Proof.
  split; [by vm_compute|]. intros r Hr.
  apply (accepted_storage_places memory_drivers two_drivers two_stores _ _ _ two_stores_backends two_stores_types
    two_stores_groups); [by vm_compute|exact Hr].
Defined.

Lemma ResolveS3Target_spec_witness :
  ResolveS3Target two_stores "bulk" = inl (MkTarget "bulk" "artifacts" "eu-west-1" "cold/x/")
  /\ ResolveS3Target two_stores "default" = inr (TargetNotS3 "default" "local")
  /\ "default" ∉ S3TargetNames two_stores.
Proof.
  split; [by vm_compute|]. split; [by vm_compute|].
  apply (ResolveS3Target_spec two_drivers two_stores _ _ _ "default" two_stores_backends two_stores_types two_stores_groups).
  by vm_compute.
Defined.

(** "//" is accepted as a prefix that names nothing, and is one slash. *)
Example double_slash : validatePrefix "n" "//" = None /\ rooted_prefix "//" = "/" /\ validatePrefix "n" "/" = None
  /\ Local_path "/srv/data" ("/" +:+ "k") = inl "/srv/data/k" /\ HasPrefix "k" ("/" +:+ "") = false.
Proof. by vm_compute. Qed.

Example prefix_errors : map (validatePrefix "n") ["cold//x"; "../x"; "./."; "cold/y/../x"; "/cold/x/"; "."]
  = [Some (PrefixNotCanonical "n" "cold//x" "cold/x"); Some (PrefixLeaves "n" "../x"); Some (PrefixNothing "n" "./.");
     Some (PrefixLeaves "n" "cold/y/../x"); None; Some (PrefixNothing "n" ".")].
Proof. by vm_compute. Qed.
