(* ===== verification/Admit.v ===== *)
(** The whole decision on a manifest that is about to be stored: the structural
    checks, the allow-list, the version checks and the rows they leave
    (internal/admit/admit.go, record.go).

    The allow-list checker is what it answers: whether a type is listed, and
    [Check] on each candidate.  The audit database is what its policy tables hold
    and which rows it takes.  The text of an error is a parameter, as is what
    golang.org/x/mod and path.Match say of a name.  Incident ids are random and
    left out, and the details of an audit event are its version and status. *)

From stdpp Require Import base list gmap strings sorting pretty.
From Stdlib Require Import ZArith Lia Ascii Sorted.
From S2P Require Import Prelude GoStrings GoSort Types MavenLayout Store Placement StorageConfig.
From S2P Require Import AllowList Override AdmitOverride Gate Origin.

Inductive AdmitDecision := DecisionAdmitted | InvalidManifest | PolicyBlocked.

#[global] Instance AdmitDecision_eq_dec : EqDecision AdmitDecision.
Proof. solve_decision. Defined.

Definition decision_String (d : AdmitDecision) : string :=
  match d with DecisionAdmitted => "admitted" | InvalidManifest => "invalid" | PolicyBlocked => "policy_blocked" end.

Record AdmitResult := MkAdmitResult {
  ar_Decision : AdmitDecision;
  ar_Reason : string;
  ar_Warnings : list string;
  ar_Admissions : list Admission;
  ar_Check : string;
  ar_Version : string;
  ar_Details : gmap string string
}.

Definition plain_result (d : AdmitDecision) (reason : string) (warnings : list string) : AdmitResult :=
  MkAdmitResult d reason warnings [] "" "" ∅.

Definition set_Warnings (ws : list string) (r : AdmitResult) : AdmitResult :=
  MkAdmitResult (ar_Decision r) (ar_Reason r) ws (ar_Admissions r) (ar_Check r) (ar_Version r) (ar_Details r).

Definition OK (r : AdmitResult) : bool := bool_decide (ar_Decision r = DecisionAdmitted).

(** ** What a manifest may name *)

Inductive admit_error :=
| NameRequired
| BadPackageName (e : name_error)
| TypeRequired
| UnknownType (typ : string)
| BadGomodName (e : gomod_error)
| BadMaven (e : maven_error)
| BadBinary (e : string * string * filename_error)
| BadDebGlob (e : string * glob_error)
| BadDepPolicy (e : dep_policy_error)
| UnknownBackendName (name defined : string)
| BadStoragePolicy (e : admit_error)
| EmptyGroupName
| UnknownGroup (group defined : string)
| GroupsDisagree (parts : list (string * string)) (winner : string)
| BadStorageGroups (e : admit_error)
| BadVersion (label : string) (e : admit_error)
| WithheldURI
| AptNoVersion (name : string)
| EmptySuite
| SuiteWithSlash (suite : string)
| WithheldIdentity (key : string).

Definition CheckBackendName (cfg : option StorageConfig) (name : string) : option admit_error :=
  if (name =? "")%string || (name =? DefaultStorageName)%string then None
  else match cfg with
       | None => None
       | Some c => match sc_StorageBackends c !! name with
                   | Some _ => None
                   | None => Some (UnknownBackendName name (definedStorageNames c))
                   end
       end.

Definition definedGroupNames (c : StorageConfig) : string :=
  if (size (sc_StorageByGroup c) =? 0)%nat then "none"
  else Join (sort_Strings (map fst (map_to_list (sc_StorageByGroup c)))) ", ".

Definition GroupRule (cfg : option StorageConfig) (groups : list string) : string :=
  match cfg with
  | None => ""
  | Some c =>
      if (length groups =? 0)%nat || (size (sc_StorageByGroup c) =? 0)%nat then ""
      else default "" (List.find (fun g => negb (map_get (sc_StorageByGroup c) g =? "")%string) (sort_Strings groups))
  end.

(** The groups of each backend they resolve to. *)
Definition group_backends (c : StorageConfig) (groups : list string) : gmap string (list string) :=
  fold_left (fun m g => let name := map_get (sc_StorageByGroup c) g in <[name := default [] (m !! name) ++ [g]]> m) groups ∅.

Definition CheckGroupNames (cfg : option StorageConfig) (groups : list string) : option admit_error :=
  if (length groups =? 0)%nat then None
  else if existsb (fun g => (TrimSpace g =? "")%string) groups then Some EmptyGroupName
  else
    match cfg with
    | None => None
    | Some c =>
        match List.find (fun g => negb (isSome (sc_StorageByGroup c !! g))) groups with
        | Some g => Some (UnknownGroup g (definedGroupNames c))
        | None =>
            let backends := group_backends c groups in
            if (size backends <? 2)%nat then None
            else
              let names := sort_Strings (map fst (map_to_list backends)) in
              Some (GroupsDisagree (map (fun name => (Join (sort_Strings (default [] (backends !! name))) ", ", name)) names)
                      (GroupRule cfg groups))
        end
    end.

Definition NoPerPackagePlacement (typ : string) : string :=
  typ +:+ " wheels upload as a directory with no per-version object key, so one package cannot be placed apart from the rest of its type".

Definition placement_warning (what name typ : string) : string :=
  if (name =? "")%string || negb (DirectoryPlaced typ) then ""
  else "warning: " +:+ what +:+ " " +:+ Quote name +:+ " has no effect for " +:+ typ +:+ ": " +:+ NoPerPackagePlacement typ
       +:+ ". Set storage_by_type." +:+ typ +:+ " to place the whole type; 'bodega pkg move' refuses " +:+ typ +:+ " for the same reason.".

Definition StoragePolicyWarning (typ policy : string) : string := placement_warning "storage_policy" policy typ.
Definition StorageGroupWarning (typ group : string) : string := placement_warning "storage group" group typ.

Definition warn_of (w : string) : list string := if (w =? "")%string then [] else [w].

Definition ValidateAptSuite (suite : string) : option admit_error :=
  if (suite =? "")%string then Some EmptySuite
  else if Contains suite "/" then Some (SuiteWithSlash suite) else None.

(** ** Structure *)

Section admission.
Context (UnescapePath : string -> option string) (bad_glob : string -> bool) (rfc3339 : Z -> string).
Context (message : admit_error -> string) (allow_message : AllowList.verdict -> string).

Definition structure_error (pm : PackageManifest) : option admit_error :=
  if (pm_Name pm =? "")%string then Some NameRequired
  else match ValidatePackageName (pm_Name pm) with Some e => Some (BadPackageName e) | None =>
  if (pm_Type pm =? "")%string then Some TypeRequired
  else if negb (IsKnownType (pm_Type pm)) then Some (UnknownType (pm_Type pm))
  else match (if (pm_Type pm =? TypeGomod)%string then ValidateGomodName UnescapePath (pm_Name pm) else None) with
  | Some e => Some (BadGomodName e)
  | None =>
  match (if (pm_Type pm =? TypeMaven)%string
         then match ValidateMavenName (pm_Name pm) with
              | Some e => Some e
              | None => first_some (ValidateMavenVersion (pm_Name pm)) (pm_Versions pm)
              end
         else None) with
  | Some e => Some (BadMaven e)
  | None =>
  match ValidateBinaryFilenames pm with Some e => Some (BadBinary e) | None =>
  match ValidateDebGlobs bad_glob pm with Some e => Some (BadDebGlob e) | None =>
  match (if (pm_Type pm =? TypeApt)%string || (pm_Type pm =? TypeGit)%string
         then ValidateDepPolicy (pm_Type pm) (pm_Name pm) (pm_DepPolicy pm) else None) with
  | Some e => Some (BadDepPolicy e)
  | None => None
  end end end end end end.

Definition entry_error (cfg : option StorageConfig) (ve : VersionEntry) : option admit_error :=
  match CheckBackendName cfg (ve_Storage ve) with
  | Some e => Some (BadVersion (admitVersionLabel ve) e)
  | None =>
      if AttestationURIWithheld (map_get (ve_Metadata ve) MetaAttestationURI)
      then Some (BadVersion (admitVersionLabel ve) WithheldURI) else None
  end.

Definition apt_entry_error (pm : PackageManifest) (ve : VersionEntry) : option admit_error :=
  if (ve_Version ve =? "")%string then Some (AptNoVersion (pm_Name pm))
  else match first_some ValidateAptSuite (ve_Suites ve) with
       | Some e => Some (BadVersion (admitVersionLabel ve) e)
       | None =>
           let k := AptIdentityWithheld (ve_Metadata ve) in
           if negb (k =? "")%string then Some (BadVersion (admitVersionLabel ve) (WithheldIdentity k)) else None
       end.

(** The warnings there were before the error, and the error. *)
Definition validate (cfg : option StorageConfig) (pm : PackageManifest) : list string * option admit_error :=
  match structure_error pm with
  | Some e => ([], Some e)
  | None =>
      match CheckBackendName cfg (pm_StoragePolicy pm) with
      | Some e => ([], Some (BadStoragePolicy e))
      | None =>
          let ws := warn_of (StoragePolicyWarning (pm_Type pm) (pm_StoragePolicy pm)) in
          match CheckGroupNames cfg (pm_StorageGroups pm) with
          | Some e => (ws, Some (BadStorageGroups e))
          | None =>
              let ws := ws ++ warn_of (StorageGroupWarning (pm_Type pm) (GroupRule cfg (pm_StorageGroups pm))) in
              match first_some (entry_error cfg) (pm_Versions pm) with
              | Some e => (ws, Some e)
              | None =>
                  (ws, if (pm_Type pm =? TypeApt)%string then first_some (apt_entry_error pm) (pm_Versions pm) else None)
              end
          end
      end
  end.

(** ** The allow-list *)

Record AllowChecker := MkAllow { al_Listed : bool; al_Check : string -> AllowList.verdict }.

Definition AllowListCheck (listed : bool) (candidate : string) (v : AllowList.verdict) : AdmissionCheck :=
  let action := if listed then ActionBlock else ActionNone in
  let check status detail := MkCheck CheckAllowList action status detail None None "" "" in
  match v with
  | Permitted =>
      if (candidate =? "")%string then check CheckNotEvaluated "the entry names no upstream the allow-list can rule on"
      else if listed then check CheckPass ("matched: " +:+ candidate)
      else check CheckPass ("open admission mode, no allow-list rule required: " +:+ candidate)
  | v => check CheckBlock (allow_message v)
  end.

(** The versions from [i] on: the evaluation, and the version refused with the
    reason. *)
Fixpoint allow_each (al : AllowChecker) (pm : PackageManifest) (i : nat) (vs : list VersionEntry) (ev : evaluation)
  : evaluation * option (string * string) :=
  match vs with
  | [] => (ev, None)
  | ve :: vs =>
      let candidate := CandidateFor (pm_Type pm) (pm_Name pm) (ve_URL ve) in
      if (candidate =? "")%string
      then allow_each al pm (S i) vs (ev_set (Some i) (AllowListCheck (al_Listed al) "" Permitted) ev)
      else
        let v := al_Check al candidate in
        let check := AllowListCheck (al_Listed al) candidate v in
        match v with
        | Permitted => allow_each al pm (S i) vs (ev_set (Some i) check ev)
        | LoadFailed _ =>
            (notRunAfter i ("not run: the allow-list refused " +:+ admissionVersion ve) (ev_set (Some i) check ev),
             Some (ve_Version ve, allow_message v))
        | Violation _ _ =>
            match admitPast rfc3339 ev pm i check with
            | Some c => allow_each al pm (S i) vs (ev_set (Some i) c ev)
            | None =>
                (notRunAfter i ("not run: the allow-list refused " +:+ admissionVersion ve) (ev_set (Some i) check ev),
                 Some (ve_Version ve, allow_message v))
            end
        end
  end.

Definition checkAllowList (checker : option AllowChecker) (pm : PackageManifest) (ev : evaluation)
  : evaluation * option AdmitResult :=
  match checker with
  | None => (notRunChecks None "not run: no allow-list loaded" [CheckAllowList] ev, None)
  | Some al =>
      let '(ev, refused) := allow_each al pm 0 (pm_Versions pm) ev in
      (ev, option_map (fun '(version, reason) => MkAdmitResult PolicyBlocked reason [] [] "allow-list" version ∅) refused)
  end.
(** ** Warnings *)

Record versionWarnings := MkWarnings { vw_order : list string; vw_versions : gmap string (list string) }.

Definition warning_line (r : Result) : string := r_Check r +:+ ": " +:+ r_Reason r.

Definition vw_add (w : versionWarnings) (x : string * Result) : versionWarnings :=
  let line := warning_line x.2 in
  match vw_versions w !! line with
  | Some vs => MkWarnings (vw_order w) (<[line := vs ++ [x.1]]> (vw_versions w))
  | None => MkWarnings (vw_order w ++ [line]) (<[line := [x.1]]> (vw_versions w))
  end.

Definition describeVersions (versions : list string) : string :=
  match versions with
  | [v] => v
  | _ =>
      let n := pretty (Z.of_nat (length versions)) +:+ " versions (" in
      if (length versions <=? 3)%nat then n +:+ Join versions ", " +:+ ")"
      else n +:+ Join (take 3 versions) ", " +:+ ", ...)"
  end.

Definition vw_flush (w : versionWarnings) : list string :=
  map (fun line => describeVersions (default [] (vw_versions w !! line)) +:+ ": " +:+ line) (vw_order w).

Definition warnings_of (warns : list (string * Result)) : list string :=
  vw_flush (fold_left vw_add warns (MkWarnings [] ∅)).

(** ** The rows *)

(** Two reads an evaluation makes may fail and leave a warning; a row that is
    not taken leaves its error. *)
Record audit_db := MkDB {
  db_reads : policy_reads;
  db_digestErr : option string;
  db_overrideErr : option string;
  db_record : Admission -> option string
}.

Fixpoint record_rows (db : audit_db) (pm : PackageManifest) (rows : list Admission) (warnings : list string)
  (taken : list Admission) : list string * list Admission :=
  match rows with
  | [] => (warnings, taken)
  | ad :: rows =>
      match db_record db ad with
      | Some err =>
          record_rows db pm rows
            (warnings ++ ["admission decision not recorded for " +:+ pm_Type pm +:+ "/" +:+ pm_Name pm +:+ "@"
                          +:+ ad_PkgVersion ad +:+ ": " +:+ err]) taken
      | None => record_rows db pm rows warnings (taken ++ [ad])
      end
  end.

Definition rows_of (ev : evaluation) (pm : PackageManifest) (decision : AdmitDecision) (who : Who) : list Admission :=
  map (fun i => row ev pm i (decision_String decision) who) (seq 0 (length (ev_checks ev))).

Definition error_line (what : string) (err : option string) : list string :=
  match err with Some e => [what +:+ e] | None => [] end.

Definition record (adb : option audit_db) (pm : PackageManifest) (ev : evaluation) (res : AdmitResult) (who : Who)
  : AdmitResult :=
  match adb with
  | None => res
  | Some db =>
      let ws := ar_Warnings res ++ error_line "admission recorded with no policy digest: " (db_digestErr db)
                ++ error_line "overrides not read, so none applied: " (db_overrideErr db) in
      let '(ws, taken) := record_rows db pm (rows_of ev pm (ar_Decision res) who) ws (ar_Admissions res) in
      MkAdmitResult (ar_Decision res) (ar_Reason res) ws taken (ar_Check res) (ar_Version res) (ar_Details res)
  end.

(** ** Deciding *)

(** The evaluation after the version checks, the warnings they flush, and the
    refusal as a result. *)
Definition check_versions (adb : option audit_db) (pm : PackageManifest) (checkers : list VersionChecker)
  (ev : evaluation) : evaluation * list string * option AdmitResult :=
  let '(st, refused) := checkVersions rfc3339 (isSome adb) pm checkers ev in
  (rs_ev st, warnings_of (rs_warns st),
   option_map (fun rf =>
     MkAdmitResult PolicyBlocked (rf_reason rf) [] []
       (match rf_block rf with Some b => r_Check b | None => "" end) (rf_version rf)
       (match rf_block rf with Some b => r_Details b | None => ∅ end)) refused).

(** [Create]'s decision; [ws] are the warnings there are already. *)
Definition decide_policy (adb : option audit_db) (checker : option AllowChecker) (checkers : list VersionChecker)
  (pm : PackageManifest) (ws : list string) (ev : evaluation) : evaluation * AdmitResult :=
  match checkAllowList checker pm ev with
  | (ev, Some blocked) => (ev, set_Warnings ws blocked)
  | (ev, None) =>
      let '(ev, flushed, blocked) := check_versions adb pm checkers ev in
      (ev, match blocked with
           | Some blocked => set_Warnings (ws ++ flushed) blocked
           | None => plain_result DecisionAdmitted "" (ws ++ flushed)
           end)
  end.

Definition start (adb : option audit_db) (checkers : list VersionChecker) (pm : PackageManifest) : evaluation :=
  include pm checkers (newEvaluation (option_map db_reads adb) pm).

Definition AdmitAs (adb : option audit_db) (cfg : option StorageConfig) (checker : option AllowChecker)
  (checkers : list VersionChecker) (pm : PackageManifest) (who : Who) : AdmitResult :=
  let ev := start adb checkers pm in
  match validate cfg pm with
  | (ws, Some err) =>
      record adb pm (notRun ("not run: the manifest is invalid: " +:+ message err) ev)
        (plain_result InvalidManifest (message err) ws) who
  | (ws, None) =>
      let '(ev, res) := decide_policy adb checker checkers pm ws ev in record adb pm ev res who
  end.

Definition Admit (adb : option audit_db) (cfg : option StorageConfig) (checker : option AllowChecker)
  (checkers : list VersionChecker) (pm : PackageManifest) (actor : string) : AdmitResult :=
  AdmitAs adb cfg checker checkers pm (MkWho actor "").

Definition Create (adb : option audit_db) (checker : option AllowChecker) (checkers : list VersionChecker)
  (pm : PackageManifest) (who : Who) : AdmitResult :=
  let '(ev, res) := decide_policy adb checker checkers pm [] (start adb checkers pm) in record adb pm ev res who.

(** ** The preview *)

Record Verdict := MkVerdict { vd_Decision : AdmitDecision; vd_Reason : string; vd_Checks : list AdmissionCheck }.

Definition set_actions (m : gmap string string) (ev : evaluation) : evaluation :=
  MkEvaluation (ev_checks ev) (ev_versionChecks ev) (ev_digest ev) m (ev_overrides ev).

Definition first_checks (ev : evaluation) : list AdmissionCheck := default [] (ev_checks ev !! 0%nat).

Definition Evaluate (cfg : option StorageConfig) (checker : option AllowChecker) (adb : option audit_db)
  (store : option policy_reads) (checkers : list VersionChecker) (pm : PackageManifest) : Verdict :=
  match (validate cfg pm).2 with
  | Some err => MkVerdict InvalidManifest (message err) []
  | None =>
      match pm_Versions pm with
      | [ve] =>
          let ev := newEvaluation (option_map db_reads adb) pm in
          let store := match adb with
                       | None => None
                       | Some db => Some (match store with Some s => s | None => db_reads db end)
                       end in
          let ev := match store with
                    | None => ev
                    | Some s => include pm checkers (set_actions (readActions s (ev_actions ev)) ev)
                    end in
          match checkAllowList checker pm ev with
          | (ev, Some blocked) => MkVerdict PolicyBlocked (ar_Reason blocked) (first_checks ev)
          | (ev, None) =>
              match store with
              | None => MkVerdict DecisionAdmitted "" (first_checks ev)
              | Some _ =>
                  let '(ev, results) := runVersion rfc3339 ev pm 0 checkers in
                  let combined := Combine results in
                  if Blocked combined then
                    MkVerdict PolicyBlocked
                      ("policy blocked " +:+ pm_Name pm +:+ "@" +:+ ve_Version ve +:+ ": " +:+ Reasons combined) (first_checks ev)
                  else MkVerdict DecisionAdmitted "" (first_checks ev)
              end
          end
      | vs => MkVerdict InvalidManifest ("evaluate wants one version, got " +:+ pretty (Z.of_nat (length vs))) []
      end
  end.
End admission.

(** ** What is decided *)

(** The allow-list's answer on a version stands. *)
Definition allow_refuses (al : AllowChecker) (ev : evaluation) (pm : PackageManifest) (i : nat) (ve : VersionEntry) : bool :=
  let candidate := CandidateFor (pm_Type pm) (pm_Name pm) (ve_URL ve) in
  negb (candidate =? "")%string
  && match al_Check al candidate with
     | Permitted => false
     | LoadFailed _ => true
     | Violation _ _ => negb (waived ev pm i CheckAllowList)
     end.

(** What a step leaves alone. *)
Definition same_base (ev ev' : evaluation) : Prop :=
  ev_overrides ev' = ev_overrides ev /\ ev_versionChecks ev' = ev_versionChecks ev /\ ev_actions ev' = ev_actions ev
  /\ length (ev_checks ev') = length (ev_checks ev).

#[global] Instance same_base_preorder : PreOrder same_base.
Proof. split; [done|]. intros a b c (A & B & C & D) (A' & B' & C' & D'). split_and!; congruence. Qed.

Lemma at_indexes_base i f ev : same_base ev (at_indexes i f ev).
Proof. unfold at_indexes. split_and!; [done..|]. cbn. destruct i; [apply length_alter|apply length_map]. Qed.

Lemma notRunAfter_base i d ev : same_base ev (notRunAfter i d ev).
Proof.
  unfold notRunAfter. assert (H : forall js ev, same_base ev (fold_left (fun ev j => notRunChecks (Some j) d (ev_allChecks ev) ev) js ev)).
  { intros js. induction js as [|j js IH]; intros e; [done|]. cbn [fold_left]. etransitivity; [|apply IH]. apply at_indexes_base. }
  etransitivity; [apply (at_indexes_base (Some i))|apply H].
Qed.

Lemma notRunAfter_one_each i d ev : one_each ev -> one_each (notRunAfter i d ev).
Proof.
  intros Hw. unfold notRunAfter. apply (notRunChecks_one_each (Some i) d (ev_versionChecks ev)) in Hw.
  revert Hw. generalize (notRunChecks (Some i) d (ev_versionChecks ev) ev). generalize (seq (S i) (length (ev_checks ev) - S i)).
  intros js. induction js as [|j js IH]; intros e Hw; [done|]. cbn [fold_left]. by apply IH, notRunChecks_one_each.
Qed.

Lemma waived_base ev ev' pm i check : same_base ev ev' -> waived ev' pm i check = waived ev pm i check.
Proof. intros (Ho & _). unfold waived, overrideFor. by rewrite Ho. Qed.

Lemma allow_refuses_base al ev ev' pm i ve : same_base ev ev' -> allow_refuses al ev' pm i ve = allow_refuses al ev pm i ve.
Proof. intros H. unfold allow_refuses. by rewrite (waived_base _ _ _ _ _ H). Qed.

Section admission.
Context (UnescapePath : string -> option string) (bad_glob : string -> bool) (rfc3339 : Z -> string).
Context (message : admit_error -> string) (allow_message : AllowList.verdict -> string).

Lemma allow_each_spec al pm i vs ev :
  let r := allow_each rfc3339 allow_message al pm i vs ev in
  same_base ev r.1 /\ (one_each ev -> one_each r.1)
  /\ (r.2 = None <-> forall j ve, vs !! j = Some ve -> allow_refuses al ev pm (i + j) ve = false).
Proof.
  revert i ev. induction vs as [|ve vs IH]; intros i ev; cbn [allow_each]; [done|].
  assert (Hstep : forall c, allow_refuses al ev pm i ve = false ->
    let r := allow_each rfc3339 allow_message al pm (S i) vs (ev_set (Some i) c ev) in
    same_base ev r.1 /\ (one_each ev -> one_each r.1)
    /\ (r.2 = None <-> forall j ve', (ve :: vs) !! j = Some ve' -> allow_refuses al ev pm (i + j) ve' = false)).
  { intros c Hok. pose proof (at_indexes_base (Some i) (fun cs => upsertCheck cs c false) ev) as Hb.
    fold (ev_set (Some i) c ev) in Hb. destruct (IH (S i) (ev_set (Some i) c ev)) as (H1 & H2 & H3). cbv zeta.
    split_and!; [by etransitivity; [apply Hb|]|intros Hw; by apply H2, ev_set_one_each|]. rewrite H3. split.
    - intros H [|j] ve' Hj; [injection Hj as <-; by rewrite Nat.add_0_r|]. rewrite <- (allow_refuses_base al ev _ pm _ _ Hb).
      replace (i + S j)%nat with (S i + j)%nat by lia. by apply H.
    - intros H j ve' Hj. rewrite (allow_refuses_base al ev _ pm _ _ Hb). replace (S i + j)%nat with (i + S j)%nat by lia. by apply H. }
  assert (Hstop : forall c d (rs : string * string), allow_refuses al ev pm i ve = true ->
    let r := (notRunAfter i d (ev_set (Some i) c ev), Some rs) in
    same_base ev r.1 /\ (one_each ev -> one_each r.1)
    /\ (r.2 = None <-> forall j ve', (ve :: vs) !! j = Some ve' -> allow_refuses al ev pm (i + j) ve' = false)).
  { intros c d rs Hr. cbn [fst snd]. split_and!.
    - etransitivity; [apply (at_indexes_base (Some i))|apply notRunAfter_base].
    - intros Hw. by apply notRunAfter_one_each, ev_set_one_each.
    - split; [done|]. intros H. specialize (H 0%nat ve eq_refl). rewrite Nat.add_0_r in H. congruence. }
  set (candidate := CandidateFor _ _ _) in *.
  assert (Har : allow_refuses al ev pm i ve = negb (candidate =? "")%string && match al_Check al candidate with
     | Permitted => false | LoadFailed _ => true | Violation _ _ => negb (waived ev pm i CheckAllowList) end) by done.
  destruct (candidate =? "")%string; [by apply Hstep|]. cbn [negb andb] in Har.
  destruct (al_Check al candidate) as [|t c|e] eqn:Ev; [by apply Hstep| |by apply Hstop].
  pose proof (admitPast_waived rfc3339 ev pm i (AllowListCheck allow_message (al_Listed al) candidate (Violation t c)) eq_refl) as Hw.
  cbn [ac_Check AllowListCheck] in Hw. destruct (admitPast _ _ _ _ _) as [oc|]; cbn [isSome] in Hw.
  - apply Hstep. by rewrite Har, <- Hw.
  - apply Hstop. by rewrite Har, <- Hw.
Qed.

Lemma checkAllowList_spec checker pm ev :
  let r := checkAllowList rfc3339 allow_message checker pm ev in
  same_base ev r.1 /\ (one_each ev -> one_each r.1)
  /\ (r.2 = None <-> forall al, checker = Some al -> forall i ve, pm_Versions pm !! i = Some ve -> allow_refuses al ev pm i ve = false)
  /\ forall b, r.2 = Some b -> ar_Decision b = PolicyBlocked /\ ar_Admissions b = [].
Proof.
  destruct checker as [al|]; cbn [checkAllowList].
  - destruct (allow_each_spec al pm 0 (pm_Versions pm) ev) as (H1 & H2 & H3).
    destruct (allow_each _ _ _ _ _ _ _) as [ev' [[v rs]|]]; cbn [fst snd option_map] in *; split_and!; try done.
    + split; [done|]. intros H. destruct H3 as [_ H3]. discriminate H3. intros j ve. by apply H.
    + by intros b [= <-].
    + split; [|done]. intros _ al' [= <-]. by apply H3.
  - split_and!; [apply at_indexes_base|apply notRunChecks_one_each|done|done].
Qed.

Lemma setResult_base ev pm i r : same_base ev (setResult rfc3339 ev pm i r).1.
Proof.
  unfold setResult. repeat first [destruct (_ =? _)%string|destruct (admitPast _ _ _ _ _)]; apply at_indexes_base.
Qed.

Lemma runVersion_base ev pm i checkers : same_base ev (runVersion rfc3339 ev pm i checkers).1.
Proof.
  revert ev. induction checkers as [|c cs IH]; intros ev; [done|]. cbn [runVersion].
  destruct (match vc_AppliesTo c with Some f => _ | None => _ end); [apply IH|].
  pose proof (setResult_base ev pm i (vc_Check c pm (default zero_entry (pm_Versions pm !! i)))) as H1.
  destruct (setResult _ _ _ _ _) as [ev1 r]. specialize (IH ev1). destruct (runVersion _ ev1 _ _ _) as [ev2 rs].
  by transitivity ev1.
Qed.

Lemma commit_base ev pm checkers : same_base ev (commit rfc3339 ev pm checkers).1.
Proof.
  unfold commit. generalize (repeat (@nil Result) (length (pm_Versions pm))). revert ev.
  assert (H1 : forall changes ev out, same_base ev (commit_one rfc3339 ev pm changes out).1).
  { induction changes as [|[i r] changes IH]; intros ev out; [done|]. cbn [commit_one]. destruct (i <? _)%nat; [|apply IH].
    pose proof (setResult_base ev pm i r) as H. destruct (setResult _ _ _ _ _) as [ev1 r1]. by transitivity ev1. }
  induction checkers as [|c cs IH]; intros ev out; [done|]. cbn [commit_all]. specialize (H1 (vc_Commit c) ev out).
  destruct (commit_one _ _ _ _ _) as [ev1 out1]. specialize (IH ev1 out1). by transitivity ev1.
Qed.

(** Kept by every step of a decision. *)
Definition kept (ev ev' : evaluation) : Prop := same_base ev ev' /\ (one_each ev -> one_each ev').

#[global] Instance kept_preorder : PreOrder kept.
Proof. split; [by split|]. intros a b c [H1 W1] [H2 W2]. split; [by transitivity b|auto]. Qed.

Lemma decide_version_kept pm i results st : kept (rs_ev st) (rs_ev (decide_version pm i results st).1).
Proof.
  unfold decide_version. destruct (Blocked _); [|done]. split; [apply notRunAfter_base|apply notRunAfter_one_each].
Qed.

Lemma check_each_kept pm checkers i n st : kept (rs_ev st) (rs_ev (check_each rfc3339 pm checkers i n st).1).
Proof.
  revert i st. induction n as [|n IH]; intros i st; [done|]. cbn [check_each].
  assert (Hr : kept (rs_ev st) (runVersion rfc3339 (rs_ev st) pm i checkers).1).
  { split; [apply runVersion_base|]. intros Hw. by apply runVersion_one_each. }
  destruct (runVersion _ _ _ _ _) as [ev results]. pose proof (decide_version_kept pm i results (MkRun ev (rs_warns st) (rs_events st))) as Hd.
  destruct (decide_version _ _ _ _) as [st1 [rf|]]; cbn [fst rs_ev] in *; [by transitivity ev|].
  transitivity ev; [done|]. transitivity (rs_ev st1); [done|apply IH].
Qed.

Lemma decide_changes_kept pm i changes st : kept (rs_ev st) (rs_ev (decide_changes pm i changes st).1).
Proof.
  revert i st. induction changes as [|ch changes IH]; intros i st; [done|]. cbn [decide_changes].
  destruct (length ch =? 0)%nat; [apply IH|]. pose proof (decide_version_kept pm i ch st) as Hd.
  destruct (decide_version _ _ _ _) as [st1 [rf|]]; [done|]. transitivity (rs_ev st1); [done|apply IH].
Qed.

Lemma check_versions_spec adb pm checkers ev :
  let '(ev', _, blocked) := check_versions rfc3339 adb pm checkers ev in
  kept ev ev'
  /\ (blocked = None -> is_Some adb -> forall i, (i < length (pm_Versions pm))%nat -> refused_at ev pm checkers i = false)
  /\ (Forall (fun c => vc_Commit c = []) checkers ->
      (is_Some adb -> forall i, (i < length (pm_Versions pm))%nat -> refused_at ev pm checkers i = false) -> blocked = None)
  /\ (forall b, blocked = Some b -> ar_Decision b = PolicyBlocked /\ ar_Admissions b = []).
Proof.
  unfold check_versions, checkVersions. destruct adb as [db|]; cbn [isSome negb].
  2:{ cbn. split_and!; [done|by intros _ []|done|done]. }
  pose proof (check_each_kept pm checkers 0 (length (pm_Versions pm)) (MkRun ev [] [])) as Hk.
  pose proof (check_each_spec rfc3339 pm checkers 0 (length (pm_Versions pm)) (MkRun ev [] [])) as Hs.
  destruct (check_each _ _ _ _ _ _) as [st [rf|]]; cbn [fst snd rs_ev option_map] in *.
  - split_and!; [done|done| |by intros b [= <-]]. intros _ H. exfalso. destruct Hs as [_ Hs].
    assert (Some rf = None); [|done]. apply Hs. intros j Hj. apply H; [by eexists|lia].
  - assert (Hall : forall i, (i < length (pm_Versions pm))%nat -> refused_at ev pm checkers i = false).
    { intros i Hi. apply (proj1 Hs eq_refl). lia. }
    assert (Hc : kept (rs_ev st) (commit rfc3339 (rs_ev st) pm checkers).1).
    { split; [apply commit_base|]. intros Hw. by apply commit_one_each. }
    destruct (commit rfc3339 (rs_ev st) pm checkers) as [ev2 changes] eqn:Ec.
    pose proof (decide_changes_kept pm 0 changes (MkRun ev2 (rs_warns st) (rs_events st))) as Hd.
    destruct (decide_changes _ _ _ _) as [st2 refused] eqn:Ed. cbn [fst rs_ev] in *. split_and!.
    + transitivity (rs_ev st); [done|]. by transitivity ev2.
    + by intros _ _.
    + intros Hn _. rewrite (commit_nothing rfc3339 (rs_ev st) pm checkers Hn) in Ec. injection Ec as <- <-.
      rewrite decide_changes_nothing in Ed. by injection Ed as <- <-.
    + by destruct refused; intros b [= <-].
Qed.
End admission.

Lemma allow_refuses_overrides al ev ev' pm i ve :
  ev_overrides ev' = ev_overrides ev -> allow_refuses al ev' pm i ve = allow_refuses al ev pm i ve.
Proof. intros Ho. unfold allow_refuses, waived, overrideFor. by rewrite Ho. Qed.

Lemma start_spec adb checkers pm :
  ev_overrides (start adb checkers pm) = ev_overrides (newEvaluation (option_map db_reads adb) pm)
  /\ one_each (start adb checkers pm) /\ length (ev_checks (start adb checkers pm)) = Nat.max (length (pm_Versions pm)) 1.
Proof.
  unfold start. split; [apply ev_overrides_include|]. destruct (include_checks pm checkers (newEvaluation (option_map db_reads adb) pm)) as [E _].
  split; [unfold one_each; rewrite E; apply newEvaluation_one_each|]. rewrite E. unfold newEvaluation.
  destruct adb; cbn [option_map ev_checks]; apply repeat_length.
Qed.

Lemma record_decision adb pm ev res who :
  ar_Decision (record adb pm ev res who) = ar_Decision res /\ ar_Reason (record adb pm ev res who) = ar_Reason res.
Proof. unfold record. destruct adb as [db|]; [|done]. by destruct (record_rows _ _ _ _ _). Qed.

Lemma record_rows_taken db pm rows ws taken :
  (record_rows db pm rows ws taken).2 = taken ++ List.filter (fun ad => negb (isSome (db_record db ad))) rows.
Proof.
  revert ws taken. induction rows as [|ad rows IH]; intros ws taken; cbn [record_rows List.filter]; [by rewrite List.app_nil_r|].
  destruct (db_record db ad); cbn [isSome negb]; rewrite IH; [done|]. by rewrite <- List.app_assoc.
Qed.

Lemma readActions_twice reads m : readActions reads (readActions reads m) = readActions reads m.
Proof.
  apply map_eq. intros k. unfold readActions, read_action.
  destruct (pr_osv reads) as [[a|]|], (pr_age reads) as [[a'|]|]; rewrite ?lookup_insert; repeat case_decide; congruence.
Qed.

Lemma set_actions_same reads pm :
  let ev := newEvaluation (Some reads) pm in set_actions (readActions reads (ev_actions ev)) ev = ev.
Proof. cbv zeta. unfold newEvaluation, set_actions. cbn. by rewrite readActions_twice. Qed.

(** Marking the checks that did not run keeps the ones that did. *)
Lemma upsert_keep checks c : (forall x, x ∈ checks -> x ∈ upsertCheck checks c true)
  /\ forall x, x ∈ upsertCheck checks c true -> x ∈ checks \/ x = c.
Proof.
  induction checks as [|y checks [IH1 IH2]]; cbn [upsertCheck].
  - split; [by intros x ?%elem_of_nil|]. intros x ->%list_elem_of_singleton. by right.
  - destruct (_ =? _)%string; [split; [done|by left]|]. split; intros x [->|Hx]%elem_of_cons; [by left|right; auto|left; by left|].
    destruct (IH2 x Hx); [left; by right|by right].
Qed.

Lemma fold_keep ev d ns checks :
  let out := fold_left (fun checks name => upsertCheck checks (notRunCheck ev name d) true) ns checks in
  (forall x, x ∈ checks -> x ∈ out) /\ forall x, x ∈ out -> x ∈ checks \/ ac_Status x = CheckNotEvaluated.
Proof.
  cbv zeta. revert checks. induction ns as [|n ns IH]; intros checks; cbn [fold_left]; [split; auto|].
  destruct (IH (upsertCheck checks (notRunCheck ev n d) true)) as [H1 H2].
  destruct (upsert_keep checks (notRunCheck ev n d)) as [U1 U2]. split; [auto|].
  intros x Hx. destruct (H2 x Hx) as [Hu|]; [|by right]. destruct (U2 x Hu) as [| ->]; [by left|by right].
Qed.

(** A row shows these checks, and others only as not run. *)
Definition shows (checks : list AdmissionCheck) (ad : Admission) : Prop :=
  (forall c, c ∈ checks -> c ∈ ad_Checks ad)
  /\ forall c, c ∈ ad_Checks ad -> c ∈ checks \/ ac_Status c = CheckNotEvaluated.

Lemma row_shows ev pm decision who : shows (first_checks ev) (row ev pm 0 decision who).
Proof.
  unfold shows, row, row_checks. cbn [ad_Checks]. fold (first_checks ev). cbv zeta.
  match goal with |- context [notRunCheck ev _ ?d] => destruct (fold_keep ev d (ev_allChecks ev) (first_checks ev)) as [H1 H2] end.
  cbv zeta in H1, H2. split; intros c; rewrite sort_checks_perm; auto.
Qed.

Lemma shows_more ev i d ns ad : shows (first_checks (notRunChecks (Some i) d ns ev)) ad -> (0 < length (ev_checks ev))%nat ->
  shows (first_checks ev) ad.
Proof.
  unfold first_checks, notRunChecks, at_indexes. cbn [ev_checks set_checks]. intros [H1 H2] Hl.
  destruct (ev_checks ev) as [|cs rest] eqn:E; [cbn in Hl; lia|]. destruct i as [|i]; [|done]. cbn in H1, H2 |- *.
  destruct (fold_keep ev d ns cs) as [F1 F2]. split; [auto|]. intros c Hc. destruct (H2 c Hc) as [H|]; [|by right]. by apply F2.
Qed.

Lemma shows_refused ev d ad : length (ev_checks ev) = 1%nat ->
  shows (first_checks (notRunAfter 0 d ev)) ad -> shows (first_checks ev) ad.
Proof.
  intros Hl. unfold notRunAfter. rewrite Hl. cbn [Nat.sub seq fold_left]. intros H. by apply shows_more in H; [|rewrite Hl; lia].
Qed.

Lemma one_row db pm ev res who ad : length (ev_checks ev) = 1%nat -> ar_Admissions res = [] ->
  ad ∈ ar_Admissions (record (Some db) pm ev res who) -> ad = row ev pm 0 (decision_String (ar_Decision res)) who.
Proof.
  intros Hl Ha. unfold record. match goal with |- context [record_rows db pm ?rows ?ws ?taken] =>
    pose proof (record_rows_taken db pm rows ws taken) as Ht; destruct (record_rows db pm rows ws taken) as [ws' tk] end.
  cbn in Ht |- *. rewrite Ht, Ha. unfold rows_of. rewrite Hl. cbn. destruct (negb _); [by intros ?%list_elem_of_singleton|].
  by intros ?%elem_of_nil.
Qed.

Section theorems.
Context (UnescapePath : string -> option string) (bad_glob : string -> bool) (rfc3339 : Z -> string).
Context (message : admit_error -> string) (allow_message : AllowList.verdict -> string).

(** Every version passes the allow-list, or is let past it. *)
Definition listed_ok (checker : option AllowChecker) (ev : evaluation) (pm : PackageManifest) : Prop :=
  forall al, checker = Some al -> forall i ve, pm_Versions pm !! i = Some ve -> allow_refuses al ev pm i ve = false.

(** No version check's block stands on any version. *)
Definition checked_ok (adb : option audit_db) (checkers : list VersionChecker) (ev : evaluation) (pm : PackageManifest) : Prop :=
  is_Some adb -> forall i, (i < length (pm_Versions pm))%nat -> refused_at ev pm checkers i = false.

Lemma decide_policy_spec adb checker checkers pm ws ev :
  let '(ev', res) := decide_policy rfc3339 allow_message adb checker checkers pm ws ev in
  kept ev ev' /\ ar_Admissions res = [] /\ (ar_Decision res = DecisionAdmitted \/ ar_Decision res = PolicyBlocked)
  /\ (ar_Decision res = DecisionAdmitted -> listed_ok checker ev pm /\ checked_ok adb checkers ev pm)
  /\ (Forall (fun c => vc_Commit c = []) checkers -> listed_ok checker ev pm -> checked_ok adb checkers ev pm ->
      ar_Decision res = DecisionAdmitted).
Proof.
  unfold decide_policy. destruct (checkAllowList_spec rfc3339 allow_message checker pm ev) as (B1 & W1 & N1 & D1).
  destruct (checkAllowList _ _ _ _ _) as [ev1 [b|]]; cbn [fst snd] in *.
  { destruct (D1 b eq_refl) as [Hd Ha]. cbn. rewrite Hd. split_and!; [done|done|by right|done|]. intros _ Hl _.
    destruct N1 as [_ N1]. discriminate N1. exact Hl. }
  pose proof (check_versions_spec rfc3339 adb pm checkers ev1) as Hc.
  destruct (check_versions rfc3339 adb pm checkers ev1) as [[ev2 flushed] blocked]. destruct Hc as (K2 & C1 & C2 & D2).
  assert (Hr : forall i, refused_at ev1 pm checkers i = refused_at ev pm checkers i).
  { intros i. apply refused_at_overrides. apply B1. }
  assert (Hk : kept ev ev2) by (transitivity ev1; [by split|done]).
  destruct blocked as [b|]; cbn.
  - destruct (D2 b eq_refl) as [Hd Ha]. rewrite Hd. split_and!; [done|done|by right|done|]. intros Hn _ Hch.
    discriminate C2; [done|]. intros Hs i Hi. rewrite Hr. by apply Hch.
  - split_and!; [done|done|by left| |done]. intros _. split; [exact (proj1 N1 eq_refl)|]. intros Hs i Hi. rewrite <- Hr. exact (C1 eq_refl Hs i Hi).
Qed.

(** C4: The decision of an import.  It is refused as invalid exactly when the
    manifest is; admitted only when it is valid, no version's allow-list refusal
    stands and no version check's block stands on any version; and, when no
    checker writes at commit, always then.  A refusal stands unless an active
    override or the version's baseline mark lets it past, and an allow-list that
    could not be read always stands. *)
Theorem AdmitAs_decides adb cfg checker checkers pm who :
  let ev := newEvaluation (option_map db_reads adb) pm in
  let valid := (validate UnescapePath bad_glob cfg pm).2 = None in
  let decision := ar_Decision (AdmitAs UnescapePath bad_glob rfc3339 message allow_message adb cfg checker checkers pm who) in
  (decision = InvalidManifest <-> ~ valid)
  /\ (decision = DecisionAdmitted -> valid /\ listed_ok checker ev pm /\ checked_ok adb checkers ev pm)
  /\ (Forall (fun c => vc_Commit c = []) checkers -> valid -> listed_ok checker ev pm -> checked_ok adb checkers ev pm ->
      decision = DecisionAdmitted).
Proof.
  cbv zeta. unfold AdmitAs. destruct (start_spec adb checkers pm) as (Ho & _ & _).
  destruct (validate _ _ _ _) as [ws [err|]]; cbn [snd].
  { destruct (record_decision adb pm (notRun ("not run: the manifest is invalid: " +:+ message err) (start adb checkers pm))
      (plain_result InvalidManifest (message err) ws) who) as [-> _]. done. }
  pose proof (decide_policy_spec adb checker checkers pm ws (start adb checkers pm)) as H.
  destruct (decide_policy _ _ _ _ _ _ _ _) as [ev' res]. destruct (record_decision adb pm ev' res who) as [-> _].
  destruct H as (_ & _ & Hd & H1 & H2).
  assert (Hl : listed_ok checker (start adb checkers pm) pm <-> listed_ok checker (newEvaluation (option_map db_reads adb) pm) pm).
  { unfold listed_ok. split; intros Hx al Hal i ve Hi; [rewrite <- (allow_refuses_overrides al _ _ pm i ve Ho)|rewrite (allow_refuses_overrides al _ _ pm i ve Ho)]; by apply Hx. }
  assert (Hc : checked_ok adb checkers (start adb checkers pm) pm <-> checked_ok adb checkers (newEvaluation (option_map db_reads adb) pm) pm).
  { unfold checked_ok. split; intros Hx Hs i Hi; [rewrite <- (refused_at_overrides _ _ pm checkers i Ho)|rewrite (refused_at_overrides _ _ pm checkers i Ho)]; by apply Hx. }
  split_and!.
  - split; [|done]. by destruct Hd as [->| ->].
  - intros E. apply H1 in E as [E1 E2]. split_and!; [done|by apply Hl|by apply Hc].
  - intros Hn _ E1 E2. apply H2; [done|by apply Hl|by apply Hc].
Qed.

(** The evaluation a decision is recorded with. *)
Lemma AdmitAs_recorded adb cfg checker checkers pm who :
  exists ev res, kept (start adb checkers pm) ev /\ ar_Admissions res = []
    /\ AdmitAs UnescapePath bad_glob rfc3339 message allow_message adb cfg checker checkers pm who = record adb pm ev res who.
Proof.
  unfold AdmitAs. destruct (validate _ _ _ _) as [ws [err|]].
  { exists (notRun ("not run: the manifest is invalid: " +:+ message err) (start adb checkers pm)), (plain_result InvalidManifest (message err) ws).
    split; [|done]. split; [apply at_indexes_base|by apply notRunChecks_one_each]. }
  pose proof (decide_policy_spec adb checker checkers pm ws (start adb checkers pm)) as H.
  destruct (decide_policy _ _ _ _ _ _ _ _) as [ev' res]. exists ev', res. by destruct H as (? & ? & _).
Qed.

(** What is written decides nothing. *)
Lemma AdmitAs_writes a b cfg checker checkers pm who : option_map db_reads a = option_map db_reads b ->
  let decided adb := AdmitAs UnescapePath bad_glob rfc3339 message allow_message adb cfg checker checkers pm who in
  ar_Decision (decided a) = ar_Decision (decided b) /\ ar_Reason (decided a) = ar_Reason (decided b).
Proof.
  intros Hr. cbv zeta. assert (Hs : start a checkers pm = start b checkers pm) by (unfold start; by rewrite Hr).
  assert (Hi : isSome a = isSome b) by (by destruct a, b).
  unfold AdmitAs, decide_policy, check_versions. rewrite Hs, Hi. destruct (validate _ _ _ _) as [ws [err|]];
    [|destruct (checkAllowList _ _ _ _ _) as [ev [bl|]]; [|destruct (checkVersions _ _ _ _ _) as [st rf]]];
    match goal with |- ar_Decision (record _ _ ?e ?r _) = _ /\ _ =>
      destruct (record_decision a pm e r who) as [-> ->]; by destruct (record_decision b pm e r who) as [-> ->] end.
Qed.

(** The rows an import leaves, whatever is decided.  There is one per version,
    or one when the manifest has none, each with the decision of the whole; no
    row names a check twice or leaves out one that the evaluation has, and its
    checks are in rank order.  A row the database does not take is left out of
    the result and changes neither the decision nor the reason. *)
Theorem AdmitAs_rows db cfg checker checkers pm who :
  let decided db := AdmitAs UnescapePath bad_glob rfc3339 message allow_message (Some db) cfg checker checkers pm who in
  exists rows,
    length rows = Nat.max (length (pm_Versions pm)) 1
    /\ (forall i ad, rows !! i = Some ad ->
         ad_PkgVersion ad = match pm_Versions pm !! i with Some ve => admissionVersion ve | None => "" end
         /\ ad_Decision ad = decision_String (ar_Decision (decided db))
         /\ complete_row (ev_allChecks (start (Some db) checkers pm)) ad)
    /\ ar_Admissions (decided db) = List.filter (fun ad => negb (isSome (db_record db ad))) rows
    /\ forall takes, let db' := MkDB (db_reads db) (db_digestErr db) (db_overrideErr db) takes in
         ar_Decision (decided db') = ar_Decision (decided db) /\ ar_Reason (decided db') = ar_Reason (decided db).
Proof.
  cbv zeta. destruct (AdmitAs_recorded (Some db) cfg checker checkers pm who) as (ev & res & [Hb Hw] & Ha & E).
  destruct (start_spec (Some db) checkers pm) as (_ & Hone & Hlen). rewrite E.
  destruct (record_decision (Some db) pm ev res who) as [Hd Hr].
  exists (rows_of ev pm (ar_Decision res) who). split_and!.
  - unfold rows_of. rewrite length_map, length_seq. destruct Hb as (_ & _ & _ & ->). exact Hlen.
  - intros i ad Hi. unfold rows_of in Hi. apply list_lookup_fmap_Some in Hi as (j & -> & Hj).
    apply lookup_seq in Hj as [-> _]. cbn [Nat.add]. rewrite Hd. split_and!; [done|done|].
    pose proof (row_complete ev pm i (decision_String (ar_Decision res)) who (Hw Hone)) as Hrow.
    unfold ev_allChecks in Hrow |- *. destruct Hb as (_ & <- & _). exact Hrow.
  - unfold record. pose proof (record_rows_taken db pm (rows_of ev pm (ar_Decision res) who)) as Ht.
    match goal with |- context [record_rows db pm ?rows ?ws ?taken] => specialize (Ht ws taken) end.
    destruct (record_rows _ _ _ _ _) as [ws taken]. cbn in Ht |- *. by rewrite Ht, Ha.
  - rewrite <- E. intros takes. by apply AdmitAs_writes.
Qed.

(** C5: The preview agrees with the admission it previews.  On a manifest of one
    version, over one state of an audit database and with no simulated policies, what
    [Evaluate] refuses
    [AdmitAs] refuses, for the same reason, whatever the checkers write at commit,
    and what the preview says of each check is what the admission's row says; the
    row has others only as not evaluated.  What it passes is admitted alike when
    the checkers write nothing at commit, which the preview does not run: a write
    that fails then can refuse what the preview passed. *)
Theorem Evaluate_previews db cfg checker checkers pm who :
  length (pm_Versions pm) = 1%nat ->
  let v := Evaluate UnescapePath bad_glob rfc3339 message allow_message cfg checker (Some db) None checkers pm in
  let res := AdmitAs UnescapePath bad_glob rfc3339 message allow_message (Some db) cfg checker checkers pm who in
  vd_Decision v <> DecisionAdmitted \/ Forall (fun c => vc_Commit c = []) checkers ->
  vd_Decision v = ar_Decision res /\ vd_Reason v = ar_Reason res
  /\ (vd_Decision v <> InvalidManifest -> forall ad, ad ∈ ar_Admissions res -> shows (vd_Checks v) ad).
Proof.
  intros Hone. cbv zeta. unfold Evaluate, AdmitAs. destruct (start_spec (Some db) checkers pm) as (_ & _ & Hlen).
  rewrite Hone in Hlen. destruct (validate _ _ _ _) as [ws [err|]]; cbn [snd].
  { match goal with |- context [record ?a pm ?e ?r who] => destruct (record_decision a pm e r who) as [-> ->] end. done. }
  destruct (pm_Versions pm) as [|ve [|]] eqn:Evs; try done. cbn [option_map]. rewrite set_actions_same.
  fold (start (Some db) checkers pm). change (include pm checkers (newEvaluation (Some (db_reads db)) pm)) with (start (Some db) checkers pm).
  unfold decide_policy. destruct (checkAllowList_spec rfc3339 allow_message checker pm (start (Some db) checkers pm)) as (B1 & _ & _ & D1).
  destruct (checkAllowList _ _ _ _ _) as [ev1 [b|]]; cbn [fst snd] in *; assert (L1 : length (ev_checks ev1) = 1%nat) by (destruct B1 as (_ & _ & _ & ->); exact Hlen).
  { destruct (D1 b eq_refl) as [Hd Ha]. destruct (record_decision (Some db) pm ev1 (set_Warnings ws b) who) as [-> ->].
    intros _. split_and!; [done|done|]. intros _ ad Had. rewrite (one_row _ _ _ (set_Warnings ws b) _ _ L1 Ha Had). apply row_shows. }
  unfold check_versions, checkVersions. cbn [isSome negb]. rewrite Evs. cbn [length check_each rs_ev].
  pose proof (runVersion_base rfc3339 ev1 pm 0 checkers) as B2.
  destruct (runVersion rfc3339 ev1 pm 0 checkers) as [ev2 results]. cbn [fst] in B2.
  assert (L2 : length (ev_checks ev2) = 1%nat) by (destruct B2 as (_ & _ & _ & ->); exact L1).
  unfold decide_version. destruct (Blocked (Combine results)) eqn:Eb.
  - cbn [option_map rs_ev rs_warns]. match goal with |- context [record ?a pm ?e ?r who] => set (e0 := e); set (r0 := r) end.
    destruct (record_decision (Some db) pm e0 r0 who) as [-> ->]. intros _. split_and!; [done|unfold r0; cbn; by rewrite Evs|].
    intros _ ad Had. assert (L3 : length (ev_checks e0) = 1%nat).
    { unfold e0. destruct (notRunAfter_base 0 ("not run: " +:+ admissionVersion (default zero_entry (pm_Versions pm !! 0%nat)) +:+ " was refused first") ev2) as (_ & _ & _ & ->). exact L2. }
    rewrite (one_row db pm e0 r0 who ad L3 eq_refl Had). cbn [vd_Checks].
    eapply shows_refused; [exact L2|apply row_shows].
  - cbn [option_map vd_Decision rs_ev rs_warns rs_events]. intros [[]|Hn]; [done|]. rewrite (commit_nothing rfc3339 ev2 pm checkers Hn), decide_changes_nothing. cbn [option_map rs_ev rs_warns].
    match goal with |- context [record ?a pm ?e ?r who] => set (r0 := r) end.
    destruct (record_decision (Some db) pm ev2 r0 who) as [-> ->]. split_and!; [done|done|].
    intros _ ad Had. rewrite (one_row db pm ev2 r0 who ad L2 eq_refl Had). apply row_shows.
Qed.
End theorems.

(** ** Storage groups *)

(** The copy of the resolver's rule answers as the resolver does. *)
Lemma GroupRule_resolver c groups : GroupRule (Some c) groups = (groupRule (sc_StorageByGroup c) groups).1.
Proof.
  unfold GroupRule, groupRule. destruct (_ || _); [done|]. change (map_get (sc_StorageByGroup c)) with (rule_of (sc_StorageByGroup c)).
  by destruct (List.find _ _).
Qed.

Lemma group_backends_keys c groups name :
  is_Some (group_backends c groups !! name) <-> exists g, g ∈ groups /\ map_get (sc_StorageByGroup c) g = name.
Proof.
  unfold group_backends. assert (H : forall m : gmap string (list string), is_Some (fold_left (fun m g => let name := map_get (sc_StorageByGroup c) g in
      <[name := default [] (m !! name) ++ [g]]> m) groups m !! name) <->
    is_Some (m !! name) \/ exists g, g ∈ groups /\ map_get (sc_StorageByGroup c) g = name).
  { induction groups as [|g groups IH]; intros m; cbn [fold_left].
    { split; [by left|]. intros [|(g & Hg & _)]; [done|]. by apply elem_of_nil in Hg. }
    rewrite IH. cbv zeta. destruct (decide (map_get (sc_StorageByGroup c) g = name)) as [<-|Hne].
    - rewrite lookup_insert_eq. split; [|by left; eexists]. intros _. right. exists g. by split; [left|].
    - rewrite lookup_insert_ne by done. split; (intros [|(h & Hh & E)]; [by left|right]).
      + exists h. by split; [right|].
      + apply elem_of_cons in Hh as [->|Hh]; [done|]. by exists h. }
  rewrite H, lookup_empty. split; [intros [[]|]; done|by right].
Qed.

Lemma one_key {A} (m : gmap string A) a b : (size m < 2)%nat -> is_Some (m !! a) -> is_Some (m !! b) -> a = b.
Proof.
  intros Hs Ha Hb. apply elem_of_dom in Ha, Hb. rewrite <- size_dom in Hs. destruct (decide (a = b)) as [|Hne]; [done|].
  assert (H : {[a; b]} ⊆ dom m) by set_solver. apply subseteq_size in H. rewrite size_union, !size_singleton in H by set_solver. lia.
Qed.

(** The groups an edit is accepted with.  When the configuration was accepted
    too, every group names one backend, the same for all of them: so the package
    goes there whichever of its groups decides, in whatever order they are
    listed, and the group a warning names is the one the resolver uses. *)
Theorem accepted_groups_agree drivers c groups :
  storage_ok drivers c -> groups <> [] -> CheckGroupNames (Some c) groups = None ->
  exists backend, backend <> "" /\ usable c backend
    /\ (forall g, g ∈ groups -> sc_StorageByGroup c !! g = Some backend)
    /\ (forall (O : Type) (stores : gmap string O) def byType names typ,
         let d := Placement (multi stores def byType (sc_StorageByGroup c) names) typ "" groups in
         d_Level d = LevelGroup /\ d_Name d = backend /\ d_Group d = GroupRule (Some c) groups).
Proof.
  intros Hok Hne. unfold CheckGroupNames. destruct groups as [|g0 rest] eqn:Eg; [done|]. rewrite <- Eg. cbn [length Nat.eqb].
  destruct (existsb _ _); [by rewrite Eg|]. destruct (List.find _ groups) as [g|] eqn:Ef; [by rewrite Eg|].
  destruct (size (group_backends c groups) <? 2)%nat eqn:Es; [|by rewrite Eg]. intros _. apply Nat.ltb_lt in Es.
  assert (Hdef : forall g, g ∈ groups -> is_Some (sc_StorageByGroup c !! g)).
  { intros g Hg. apply list_elem_of_In in Hg. apply (List.find_none _ _ Ef) in Hg. by destruct (sc_StorageByGroup c !! g); [eexists|]. }
  assert (Hin : g0 ∈ groups) by (rewrite Eg; by left). destruct (Hdef g0 Hin) as [backend Hb].
  destruct (so_groups _ _ Hok _ _ Hb) as (_ & Hbn & Hu).
  assert (Hall : forall g, g ∈ groups -> sc_StorageByGroup c !! g = Some backend).
  { intros g Hg. destruct (Hdef g Hg) as [b' Hb']. rewrite Hb'. f_equal.
    apply (one_key (group_backends c groups)); [done| |]; apply group_backends_keys.
    - exists g. split; [done|]. unfold map_get. by rewrite Hb'.
    - exists g0. split; [done|]. unfold map_get. by rewrite Hb. }
  exists backend. split_and!; [done|done|done|]. intros O stores def byType names typ. unfold Placement. cbn [negb String.eqb].
  rewrite GroupRule_resolver. pose proof (groupRule_spec (sc_StorageByGroup c) groups) as Hg.
  destruct (groupRule _ groups) as [g n]. destruct Hg as [(Hn & E & Hd)|(-> & -> & Hd)].
  - rewrite (proj2 (String.eqb_neq n "") Hn). cbn. split_and!; [done| |done]. destruct Hd as (Hg & _). rewrite E. unfold rule_of.
    by rewrite (Hall g Hg).
  - specialize (Hd g0 Hin). unfold rule_of in Hd. rewrite Hb in Hd. cbn in Hd. done.
Qed.

(** *** At concrete inputs *)

Definition demo_db : audit_db :=
  MkDB (MkReads (Some "warn") (Some "warn") (Some (Some "block")) (Some None) "" ∅) None (Some "locked") (fun _ => None).
Definition demo_deny : AllowChecker := MkAllow true (fun candidate => Violation TypeNpm candidate).
Definition demo_fresh (action : string) : VersionChecker := MkChecker (fun _ _ => MkResult CheckAge action "fresh" ∅ None None) None None [].
Definition demo_unmarked : PackageManifest :=
  MkPackageManifest 1 "left-pad" TypeNpm "" "" "" [] [captured "1.3.0" "https://registry.npmjs.org" []].
Definition demo_marked : PackageManifest := set_Versions (map (set_baseline true "2026-01-01T00:00:00Z") (pm_Versions demo_unmarked)) demo_unmarked.
Definition no_text {A} (_ : A) : string := "".
Definition demo_admit := AdmitAs (fun _ => None) (fun _ => false) no_text no_text no_text (Some demo_db) (Some two_stores).
Definition demo_preview := Evaluate (fun _ => None) (fun _ => false) no_text no_text no_text (Some two_stores).

Lemma AdmitAs_decides_witness :
  ar_Decision (demo_admit (Some demo_deny) [] demo_unmarked (MkWho "op" "")) = PolicyBlocked
  /\ ar_Decision (demo_admit (Some demo_deny) [] demo_marked (MkWho "op" "")) = DecisionAdmitted.
Proof.
  split; [by vm_compute|].
  apply (AdmitAs_decides (fun _ => None) (fun _ => false) no_text no_text no_text (Some demo_db) (Some two_stores) (Some demo_deny) []
    demo_marked (MkWho "op" "")); [constructor|by vm_compute| |by intros _ i _].
  intros al [= <-] i ve Hve. destruct i as [|i]; [injection Hve as <-; by vm_compute|by destruct i].
Defined.

Lemma Evaluate_previews_witness :
  vd_Decision (demo_preview None (Some demo_db) None [demo_fresh "block"] demo_unmarked) = PolicyBlocked
  /\ vd_Reason (demo_preview None (Some demo_db) None [demo_fresh "block"] demo_unmarked)
     = ar_Reason (demo_admit None [demo_fresh "block"] demo_unmarked (MkWho "op" "")).
Proof.
  split; [by vm_compute|].
  apply (Evaluate_previews (fun _ => None) (fun _ => false) no_text no_text no_text demo_db (Some two_stores) None [demo_fresh "block"]
    demo_unmarked (MkWho "op" "")); [done|left; by vm_compute].
Defined.

Lemma accepted_groups_agree_witness :
  CheckGroupNames (Some two_stores) ["web"] = None /\ CheckGroupNames (Some two_stores) ["web"; "db"] = Some (UnknownGroup "db" "web")
  /\ exists backend, backend <> "" /\ usable two_stores backend
     /\ forall g, g ∈ ["web"] -> sc_StorageByGroup two_stores !! g = Some backend.
Proof.
  split; [by vm_compute|]. split; [by vm_compute|].
  assert (Hok : storage_ok two_drivers two_stores).
  { apply (validateStorage_None two_drivers two_stores _ _ _ two_stores_backends two_stores_types two_stores_groups). by vm_compute. }
  destruct (accepted_groups_agree two_drivers two_stores ["web"] Hok ltac:(done) ltac:(by vm_compute)) as (b & H1 & H2 & H3 & _).
  by exists b.
Defined.

(** A simulation of a policy that leaves the age of a type unset reports the age
    check under the action the written policy has. *)
Example simulated_action :
  map ac_Action (vd_Checks (demo_preview None (Some demo_db) (Some (MkReads (Some "warn") (Some "warn") (Some None) (Some None) "" ∅))
    [demo_fresh "pass"] demo_unmarked)) = ["none"; "block"].
Proof. by vm_compute. Qed.

Example admit_warnings :
  ar_Warnings (demo_admit None [demo_fresh "warn"] (set_Versions [captured "1" "" []; captured "2" "" []; captured "3" "" []; captured "4" "" []] demo_unmarked)
    (MkWho "op" ""))
  = ["4 versions (1, 2, 3, ...): age: fresh"; "overrides not read, so none applied: locked"].
Proof. by vm_compute. Qed.
