(* ===== verification/Baseline.v ===== *)
(** Clearing baseline marks over the store (internal/admit/baseline.go), and the
    publish times an import records (internal/admit/admit.go).

    The store's reads and writes are answered per package; [failing] is what the
    gates say of a cleared version, and [Parse] reads an RFC 3339 time.  Times
    are nanoseconds. *)

From stdpp Require Import base list gmap strings.
From Stdlib Require Import ZArith Lia Ascii.
From S2P Require Import Prelude GoStrings GoSort Types Store.
From S2P Require Import AllowList Override AdmitOverride Gate Age Origin Admit.

(** ** Clearing marks *)

Record BaselineCleared := MkCleared {
  bc_Type : string;
  bc_Name : string;
  bc_Version : string;
  bc_BaselineAt : string;
  bc_Failing : list AdmissionCheck
}.

(** [ClearPanic]: the index names a package whose manifest the backend does not
    have, and its versions are read through a nil pointer. *)
Inductive clear_result :=
| ClearDone
| ClearLoad (name : string) (err : Store.store_error)
| ClearSave (name : string) (err : Store.store_error)
| ClearIndex (err : Store.store_error)
| ClearPanic.

Section clearing.
Context (bad_glob : string -> bool) (Parse : string -> option Z).
Context (failing : PackageManifest -> VersionEntry -> list AdmissionCheck).
Context (reads : string -> bool) (saves : string -> outcome).
Context (olderThan cutoff : Z).

Definition clearable (ve : VersionEntry) : bool :=
  ve_Baseline ve
  && negb ((0 <? olderThan) && match Parse (ve_BaselineAt ve) with Some at_ => cutoff <? at_ | None => false end).

Definition unmark (ve : VersionEntry) : VersionEntry := if clearable ve then set_baseline false "" ve else ve.

Definition cleared_row (typ : string) (pm : PackageManifest) (ve : VersionEntry) : BaselineCleared :=
  let unmarked := set_baseline false "" ve in
  MkCleared typ (pm_Name pm) (admissionVersion unmarked) (ve_BaselineAt ve) (failing pm unmarked).

Fixpoint clear_names (typ : string) (names : list string) (out : list BaselineCleared) (s : Store)
  : Store * list BaselineCleared * clear_result :=
  match names with
  | [] => (s, out, ClearDone)
  | name :: names =>
      match GetPackage (reads name) s typ name with
      | (s, inr err) => (s, out, ClearLoad name err)
      | (s, inl None) => (s, out, ClearPanic)
      | (s, inl (Some pm)) =>
          let cleared := List.filter clearable (pm_Versions pm) in
          if (length cleared =? 0)%nat then clear_names typ names out s
          else
            let pm := set_Versions (map unmark (pm_Versions pm)) pm in
            match SavePackage bad_glob (saves name) (found_key typ name) pm (mutate (found_key typ name) pm s) with
            | (s, Some err) => (s, out, ClearSave name err)
            | (s, None) => clear_names typ names (out ++ map (cleared_row typ (saved pm)) cleared) s
            end
      end
  end.

Definition ClearBaseline (typ : string) (index_write : outcome) (s : Store) : Store * list BaselineCleared * clear_result :=
  match clear_names typ (ListPackages s typ) [] s with
  | (s, out, ClearDone) =>
      if (0 <? length out)%nat then
        match SaveIndex index_write s with
        | (s, Some err) => (s, out, ClearIndex err)
        | (s, None) => (s, out, ClearDone)
        end
      else (s, out, ClearDone)
  | r => r
  end.
End clearing.

(** What a cleared version fails now; nothing is recorded. *)
Definition failingChecks (rfc3339 : Z -> string) (allow_message : AllowList.verdict -> string) (checker : option AllowChecker)
  (adb : option policy_reads) (checkers : list VersionChecker) (pkg : PackageManifest) (ve : VersionEntry) : list AdmissionCheck :=
  let pm := MkPackageManifest 0 (pm_Name pkg) (pm_Type pkg) "" "" "" [] [ve] in
  let ev := newEvaluation adb pm in
  let ev :=
    match checker with
    | None => ev
    | Some al =>
        let candidate := CandidateFor (pm_Type pm) (pm_Name pm) (ve_URL ve) in
        if (candidate =? "")%string then ev
        else
          let c := AllowListCheck allow_message (al_Listed al) candidate (al_Check al candidate) in
          ev_set (Some 0%nat) (default c (admitPast rfc3339 ev pm 0 c)) ev
    end in
  let ev := match adb with None => ev | Some _ => (runVersion rfc3339 (include pm checkers ev) pm 0 checkers).1 end in
  List.filter (fun c => (ac_Status c =? CheckBlock)%string) (first_checks ev).

(** ** Publish times *)

Section published.
Context (LookupDated : string -> bool) (rfc3339 : Z -> string).

(** What upstream says of a version; an error is of the transport or not. *)
Context (lookup : string -> string -> Z + string * bool).

Definition holdsVersion (existing : option PackageManifest) (version : string) : bool :=
  match existing with
  | None => false
  | Some pm => existsb (fun ve => (ve_Version ve =? version)%string) (pm_Versions pm)
  end.

Definition set_PublishedAt (at_ : string) (ve : VersionEntry) : VersionEntry :=
  MkVersionEntry (ve_Version ve) (ve_URL ve) (ve_Mode ve) (ve_VersionConstraint ve) (ve_Ref ve)
    (ve_Source ve) (ve_SourceName ve) (ve_SourcePackage ve) (ve_CaptureSuite ve) (ve_BuildCmd ve)
    (ve_DebGlob ve) (ve_Suites ve) (ve_Classifiers ve) (ve_Generated ve) (ve_Filename ve)
    (ve_SHA256 ve) (ve_AppVersion ve) (ve_RequiredBy ve) (ve_Checksum ve) (ve_ChecksumVerified ve)
    (ve_Platform ve) (ve_BuildEnv ve) (ve_Hidden ve) (ve_ArtifactSize ve) (ve_Dependencies ve)
    (ve_NpmBin ve) at_ (ve_ArtifactDigest ve) (ve_Frozen ve) (ve_Baseline ve) (ve_BaselineAt ve)
    (ve_Storage ve) (ve_Description ve) (ve_Metadata ve).

Definition published_warning (err : string) : Result :=
  MkResult "published_at" "" ("no publish time recorded, so a client's release-age cooldown cannot evaluate this version: " +:+ err)
    ∅ None None.

Definition entry_upstream (ve : VersionEntry) : string := TrimRight (TrimSpace (ve_URL ve)) "/".

(** [asked]: the upstreams looked up, in order. *)
Fixpoint date_versions (typ : string) (existing : option PackageManifest) (unreachable : gmap string string)
  (vs : list VersionEntry) : list VersionEntry * list (string * Result) * list string :=
  match vs with
  | [] => ([], [], [])
  | ve :: vs =>
      if negb (ve_PublishedAt ve =? "")%string || UndatableVersion typ (ve_Version ve) || holdsVersion existing (ve_Version ve) then
        let '(vs, warns, asked) := date_versions typ existing unreachable vs in (ve :: vs, warns, asked)
      else
        let upstream := entry_upstream ve in
        match unreachable !! upstream with
        | Some err =>
            let '(vs, warns, asked) := date_versions typ existing unreachable vs in
            (ve :: vs, (ve_Version ve, published_warning err) :: warns, asked)
        | None =>
            match lookup upstream (TrimSpace (ve_Version ve)) with
            | inl t =>
                let '(vs, warns, asked) := date_versions typ existing unreachable vs in
                (set_PublishedAt (rfc3339 t) ve :: vs, warns, upstream :: asked)
            | inr (err, transport) =>
                let unreachable := if (transport : bool) then <[upstream := err]> unreachable else unreachable in
                let '(vs, warns, asked) := date_versions typ existing unreachable vs in
                (ve :: vs, (ve_Version ve, published_warning err) :: warns, upstream :: asked)
            end
        end
  end.

(** The manifest, the warnings and the upstreams asked. *)
Definition RecordPublished (pm : PackageManifest) (existing : option PackageManifest) (warnings : list string)
  : PackageManifest * list string * list string :=
  if negb (LookupDated (pm_Type pm)) then (pm, warnings, [])
  else
    let '(vs, warns, asked) := date_versions (pm_Type pm) existing ∅ (pm_Versions pm) in
    (set_Versions vs pm, warnings ++ warnings_of warns, asked).
End published.

(** ** What clearing does *)

Section clear_facts.
Context (bad_glob : string -> bool) (Parse : string -> option Z).
Context (failing : PackageManifest -> VersionEntry -> list AdmissionCheck).
Context (reads : string -> bool) (saves : string -> outcome).
Context (olderThan cutoff : Z).

Local Abbreviation clearable_ := (clearable Parse olderThan cutoff).
Local Abbreviation unmark_ := (unmark Parse olderThan cutoff).

Definition unmarked (pm : PackageManifest) : PackageManifest := saved (set_Versions (map unmark_ (pm_Versions pm)) pm).

Lemma unmark_settled ve : clearable_ (unmark_ ve) = false.
Proof. unfold unmark. destruct (clearable_ ve) eqn:E; [by unfold clearable|exact E]. Qed.

Lemma unmark_idem ve : unmark_ (unmark_ ve) = unmark_ ve.
Proof. unfold unmark at 1. by rewrite unmark_settled. Qed.

Lemma unmarked_idem pm : unmarked (unmarked pm) = unmarked pm.
Proof.
  unfold unmarked, saved, set_identity, set_Versions. cbn. rewrite CanonicalName_idem, map_map. f_equal.
  apply map_ext, unmark_idem.
Qed.

Lemma unmarked_settled pm : Forall (fun ve => clearable_ ve = false) (pm_Versions (unmarked pm)).
Proof. cbn. apply Forall_map, Forall_true. intros ve. apply unmark_settled. Qed.

(** A stored manifest after some clearing. *)
Definition touched (pm pm' : PackageManifest) : Prop := pm' = pm \/ pm' = unmarked pm.

(** What a row of the answer reports: a marked version of a stored manifest. *)
Definition reports (typ : string) (s : Store) (r : BaselineCleared) : Prop :=
  exists path pm ve, st_files s !! path = Some pm /\ ve ∈ pm_Versions pm /\ clearable_ ve = true
    /\ bc_Type r = typ /\ bc_BaselineAt r = ve_BaselineAt ve
    /\ bc_Version r = admissionVersion (set_baseline false "" ve)
    /\ bc_Failing r = failing (unmarked pm) (set_baseline false "" ve).

Lemma reports_unmarked typ s s2 pm r path : st_files s2 = <[path := unmarked pm]> (st_files s) -> reports typ s2 r -> reports typ s r.
Proof.
  intros Hf (p & pm0 & ve & Hp & Hin & Hc & H). exists p, pm0, ve. split; [|done].
  rewrite Hf, lookup_insert in Hp. case_decide as E; [|done]. injection Hp as <-.
  pose proof (proj1 (Forall_forall _ _) (unmarked_settled pm) _ Hin) as Hno. cbn in Hno. congruence.
Qed.

Lemma clear_names_spec typ names out s : agree s ->
  let '(s', out', res) := clear_names bad_glob Parse failing reads saves olderThan cutoff typ names out s in
  res = ClearDone ->
  agree s'
  /\ (forall path, match st_files s' !! path with
                 | Some pm' => exists pm, st_files s !! path = Some pm /\ touched pm pm'
                 | None => st_files s !! path = None
                 end)
  /\ (exists rows, out' = out ++ rows /\ Forall (reports typ s) rows)
  /\ forall name, name ∈ names -> exists pm', st_files s' !! manifestPath typ (CanonicalName typ name) = Some pm'
       /\ Forall (fun ve => clearable_ ve = false) (pm_Versions pm').
Proof.
  revert out s. induction names as [|name names IH]; intros out s Hs; cbn [clear_names].
  { intros _. split_and!; [done| |by exists []; rewrite List.app_nil_r|by intros n ?%elem_of_nil]. intros path. destruct (st_files s !! path) as [pm|]; [|done].
    exists pm. by split; [|left]. }
  pose proof (GetPackage_agree (reads name) s typ name Hs) as Hs1.
  destruct (GetPackage (reads name) s typ name) as [s1 [[pm|]|err]] eqn:Eg; [|done|done]. cbn [fst] in Hs1.
  pose proof (GetPackage_found _ _ _ _ _ _ Eg) as [Hc Hf].
  pose proof (ag_cache _ Hs1 _ _ Hc) as Hst. pose proof (agree_cached _ _ _ Hs1 Hc) as Hhome.
  assert (Hpath : manifestPath typ (CanonicalName typ name) = key_path (home pm)).
  { rewrite manifestPath_key. fold (key_path (packageKey typ (CanonicalName typ name))). by rewrite Hhome. }
  destruct (Nat.eqb_spec (length (List.filter clearable_ (pm_Versions pm))) 0) as [E|_].
  - specialize (IH out s1 Hs1). destruct (clear_names _ _ _ _ _ _ _ _ _ _ _) as [[s' out'] res].
    intros Hr. destruct (IH Hr) as (Ha & Hpaths & (rows & -> & Hrows) & Hnames). rewrite Hf in Hpaths. split_and!; [done|done|by exists rows; split; [|unfold reports in Hrows; by rewrite Hf in Hrows]|].
    intros n [->|Hn]%elem_of_cons; [|by apply Hnames]. rewrite Hpath. specialize (Hpaths (key_path (home pm))).
    rewrite <- Hf, <- Hhome, Hst in Hpaths. rewrite <- Hhome. destruct (st_files s' !! _) as [pm'|]; [|done].
    exists pm'. split; [done|]. destruct Hpaths as (pm0 & [= <-] & [->| ->]); [|apply unmarked_settled].
    apply nil_length_inv in E. apply Forall_forall. intros ve Hve. destruct (clearable_ ve) eqn:Ec; [|done]. exfalso.
    assert (Hin : In ve (List.filter clearable_ (pm_Versions pm))) by (apply filter_In; split; [by apply list_elem_of_In|done]).
    by rewrite E in Hin.
  - set (pm1 := set_Versions (map unmark_ (pm_Versions pm)) pm).
    destruct (SavePackage bad_glob (saves name) (found_key typ name) pm1 _) as [s2 [err|]] eqn:Esave; [done|].
    assert (Hs2 : agree s2) by exact (update_agree _ _ _ _ _ _ _ _ _ _ Hs Eg Esave).
    apply SavePackage_success in Esave as (_ & _ & Hf2 & _). unfold pm1 in Hf2. rewrite home_set_Versions in Hf2. cbn in Hf2. rewrite Hf in Hf2.
    specialize (IH (out ++ map (cleared_row failing typ (saved pm1)) (List.filter clearable_ (pm_Versions pm))) s2 Hs2).
    destruct (clear_names _ _ _ _ _ _ _ _ _ _ _) as [[s' out'] res]. intros Hr. destruct (IH Hr) as (Ha & Hpaths & (rows & -> & Hrows) & Hnames).
    split_and!; [done| | |].
    + intros path. specialize (Hpaths path). rewrite Hf2 in Hpaths. destruct (decide (path = key_path (home pm))) as [->|Hne].
      * rewrite lookup_insert_eq in Hpaths. rewrite <- Hf, <- Hhome, Hst. rewrite <- Hhome in Hpaths.
        destruct (st_files s' !! _) as [pm'|]; [|done]. exists pm. split; [done|]. right.
        destruct Hpaths as (pm0 & [= <-] & [->| ->]); [done|]. apply unmarked_idem.
      * by rewrite lookup_insert_ne in Hpaths by done.
    + eexists. split; [by rewrite <- List.app_assoc|]. apply Forall_app. split.
      * apply Forall_map, Forall_forall. intros ve Hve%list_elem_of_In%filter_In.
        exists (key_path (home pm)), pm, ve. rewrite <- Hf, <- Hhome, Hst. destruct Hve.
        split_and!; [done|by apply list_elem_of_In|done..].
      * eapply Forall_impl; [exact Hrows|]. intros r. by eapply reports_unmarked.
    + intros n [->|Hn]%elem_of_cons; [|by apply Hnames]. rewrite Hpath. specialize (Hpaths (key_path (home pm))).
      rewrite Hf2, lookup_insert_eq in Hpaths. destruct (st_files s' !! _) as [pm'|]; [|done]. exists pm'. split; [done|].
      destruct Hpaths as (pm0 & [= <-] & [->| ->]); apply unmarked_settled.
Qed.
(** A run that succeeds leaves no package of the type, of those the index
    names, with a mark it should have cleared; a stored manifest is the one
    before or that with the marks cleared, none appears and none is lost; and
    each row of the answer is a marked version of a manifest stored before,
    judged as the manifest without its marks. *)
Theorem ClearBaseline_settles typ index_write s s' out :
  agree s ->
  ClearBaseline bad_glob Parse failing reads saves olderThan cutoff typ index_write s = (s', out, ClearDone) ->
  (forall path, match st_files s' !! path with
                | Some pm' => exists pm, st_files s !! path = Some pm /\ touched pm pm'
                | None => st_files s !! path = None
                end)
  /\ (forall name, name ∈ ListPackages s typ -> exists pm', st_files s' !! manifestPath typ (CanonicalName typ name) = Some pm'
       /\ Forall (fun ve => clearable_ ve = false) (pm_Versions pm'))
  /\ Forall (reports typ s) out.
Proof.
  intros Hs. unfold ClearBaseline. pose proof (clear_names_spec typ (ListPackages s typ) [] s Hs) as H.
  destruct (clear_names _ _ _ _ _ _ _ _ _ _ _) as [[s1 out1] res]. destruct res; [|done..].
  destruct (H eq_refl) as (_ & Hp & (rows & -> & Hrows) & Hn). cbn [app] in *.
  destruct (0 <? length rows)%nat; [|by intros [= <- <-]].
  destruct (SaveIndex index_write s1) as [s2 [err|]] eqn:Ei; [done|]. intros [= <- <-].
  assert (st_files s2 = st_files s1) as ->; [|done].
  unfold SaveIndex in Ei. clear -Ei.
  repeat (case_match; simplify_eq/=); try done.
Qed.
End clear_facts.

(** ** Concrete runs *)

Definition marked (v at_ : string) : VersionEntry := set_baseline true at_ (versioned v).
Definition marked_pkg : PackageManifest := MkPackageManifest 1 "tool" TypePypi "" "" "" [] [marked "1" "old"; versioned "2"].
Definition marked_state : Store := (run no_bad_glob (OpSave Done marked_pkg) empty_store).1.
Definition cold_state : Store := set_packages ∅ marked_state.
Definition clear_run (save : outcome) (s : Store) :=
  ClearBaseline no_bad_glob (fun _ => None) (fun _ _ => []) (fun _ => true) (fun _ => save) 0 0 TypePypi Done s.

(** The mark is cleared in the cached manifest before the save: a save refused
    is reported, and the next run finds nothing marked, clears nothing and
    succeeds, with the stored manifest still marked. *)
Definition refused_state : Store := (clear_run Refused marked_state).1.1.

Example clear_retry :
  (clear_run Refused marked_state).2 = ClearSave "tool" WriteFailed /\
  (clear_run Done refused_state).2 = ClearDone /\ (clear_run Done refused_state).1.2 = [] /\
  st_files (clear_run Done refused_state).1.1 !! "pypi/tool/manifest.json" = Some marked_pkg.
Proof. split_and!; by vm_compute. Qed.

(** A package the index names whose manifest is gone. *)
Example clear_panics : (clear_run Done (set_files ∅ cold_state)).2 = ClearPanic.
Proof. by vm_compute. Qed.

Lemma marked_agrees : agree marked_state.
Proof.
  apply (run_agree no_bad_glob (OpSave Done marked_pkg) empty_store); [|by vm_compute].
  split; intros ? ?; cbn; by rewrite lookup_empty.
Qed.

Lemma ClearBaseline_settles_witness :
  exists pm', st_files (clear_run Done marked_state).1.1 !! "pypi/tool/manifest.json" = Some pm'
    /\ Forall (fun ve => clearable (fun _ => None) 0 0 ve = false) (pm_Versions pm').
Proof.
  apply (ClearBaseline_settles no_bad_glob (fun _ => None) (fun _ _ => []) (fun _ => true) (fun _ => Done) 0 0 TypePypi Done
    marked_state (clear_run Done marked_state).1.1 (clear_run Done marked_state).1.2 marked_agrees) with (name := "tool").
  - by vm_compute.
  - apply list_elem_of_In. left. by vm_compute.
Defined.

(** ** What dating does *)

Section published_facts.
Context (LookupDated : string -> bool) (rfc3339 : Z -> string).
Context (lookup : string -> string -> Z + string * bool).
Context (typ : string) (existing : option PackageManifest).

(** An import dates the versions nobody else dated. *)
Definition to_date (ve : VersionEntry) : bool :=
  negb (negb (ve_PublishedAt ve =? "")%string || UndatableVersion typ (ve_Version ve) || holdsVersion existing (ve_Version ve)).

(** Dated from its upstream, or warned about and left, if it is to be dated;
    left as it is if not. *)
Definition dated_ok (warns : list (string * Result)) (ve ve' : VersionEntry) : Prop :=
  if to_date ve then
    (exists t, lookup (entry_upstream ve) (TrimSpace (ve_Version ve)) = inl t /\ ve' = set_PublishedAt (rfc3339 t) ve)
    \/ ve' = ve /\ exists e, (ve_Version ve, published_warning e) ∈ warns
  else ve' = ve.

Lemma dated_ok_mono w warns vs vs' : Forall2 (dated_ok warns) vs vs' -> Forall2 (dated_ok (w :: warns)) vs vs'.
Proof.
  intros H. eapply Forall2_impl; [exact H|]. intros a b. unfold dated_ok. destruct (to_date a); [|done].
  intros [Ht|[-> [e He]]]; [by left|right]. split; [done|]. exists e. by right.
Qed.

Local Abbreviation run := (date_versions rfc3339 lookup typ existing).

Definition asked_of (u : string) (asked : list string) : nat := length (List.filter (String.eqb u) asked).

Lemma asked_of_none u asked : Forall (fun u' => u' <> u) asked -> asked_of u asked = 0%nat.
Proof.
  unfold asked_of. induction 1 as [|u' asked Hu _ IH]; [done|]. cbn. by destruct (String.eqb_spec u u') as [->|].
Qed.

Lemma date_versions_spec vs un :
  let '(vs', warns, asked) := run un vs in
  Forall2 (dated_ok warns) vs vs'
  /\ Forall (fun u => un !! u = None) asked
  /\ forall u, (forall v, exists e, lookup u v = inr (e, true)) -> (asked_of u asked <= 1)%nat.
Proof.
  revert un. induction vs as [|ve vs IH]; intros un; cbn [date_versions].
  { split_and!; [constructor..|]. intros u _. cbn. lia. }
  destruct (negb _ || _ || _) eqn:Ed.
  { assert (Hd : to_date ve = false) by (unfold to_date; by rewrite Ed).
    specialize (IH un). destruct (run un vs) as [[vs' warns] asked]. destruct IH as (H1 & H2 & H3).
    split_and!; [constructor; [by unfold dated_ok; rewrite Hd|done]|done|done]. }
  assert (Hd : to_date ve = true) by (unfold to_date; by rewrite Ed).
  destruct (un !! entry_upstream ve) as [err|] eqn:Eu;
    [|destruct (lookup (entry_upstream ve) (TrimSpace (ve_Version ve))) as [t|[err transport]] eqn:El].
  - specialize (IH un). destruct (run un vs) as [[vs' warns] asked]. destruct IH as (H1 & H2 & H3).
    split_and!; [|done|done]. constructor; [|by apply dated_ok_mono].
    unfold dated_ok. rewrite Hd. right. split; [done|]. exists err. by left.
  - specialize (IH un). destruct (run un vs) as [[vs' warns] asked]. destruct IH as (H1 & H2 & H3).
    split_and!; [|by constructor|].
    + constructor; [|done]. unfold dated_ok. rewrite Hd. left. by exists t.
    + intros u Hu. cbn. destruct (String.eqb_spec u (entry_upstream ve)) as [->|]; [|by apply H3].
      destruct (Hu (TrimSpace (ve_Version ve))) as [e He]. congruence.
  - specialize (IH (if transport : bool then <[entry_upstream ve := err]> un else un)).
    destruct (run _ vs) as [[vs' warns] asked]. destruct IH as (H1 & H2 & H3).
    split_and!; [| |].
    + constructor; [|by apply dated_ok_mono].
      unfold dated_ok. rewrite Hd. right. split; [done|]. exists err. by left.
    + constructor; [done|]. eapply Forall_impl; [exact H2|]. intros u. cbn. destruct transport; [|done].
      by intros [? _]%lookup_insert_None.
    + intros u Hu. cbn. destruct (String.eqb_spec u (entry_upstream ve)) as [->|]; [|by apply H3].
      destruct (Hu (TrimSpace (ve_Version ve))) as [e He]. rewrite He in El. injection El as -> <-. cbn.
      change (S (asked_of (entry_upstream ve) asked) <= 1)%nat.
      rewrite (asked_of_none (entry_upstream ve) asked); [lia|]. eapply Forall_impl; [exact H2|].
      intros u. cbn. by intros [_ Hne%not_eq_sym]%lookup_insert_None.
Qed.

(** An import dates the versions that have no publish time, can have one and
    are not held already: each gets the time its upstream gives or stays as it
    is with a warning, every other is left alone, and an upstream that cannot
    be reached is asked at most once however many versions name it. *)
Theorem RecordPublished_dates pm warnings : pm_Type pm = typ ->
  let '(pm', warnings', asked) := RecordPublished LookupDated rfc3339 lookup pm existing warnings in
  if LookupDated typ then
    exists warns, Forall2 (dated_ok warns) (pm_Versions pm) (pm_Versions pm') /\ warnings' = warnings ++ warnings_of warns
    /\ forall u, (forall v, exists e, lookup u v = inr (e, true)) -> (asked_of u asked <= 1)%nat
  else pm' = pm /\ warnings' = warnings /\ asked = [].
Proof.
  intros Ht. unfold RecordPublished. rewrite Ht. destruct (LookupDated typ); cbn [negb]; [|done].
  pose proof (date_versions_spec (pm_Versions pm) ∅) as H. destruct (run ∅ _) as [[vs' warns] asked].
  exists warns. by destruct H as (H1 & _ & H3).
Qed.
End published_facts.

Lemma RecordPublished_dates_witness :
  (asked_of "" (RecordPublished (fun _ => true) (fun _ => "t") (fun _ _ => inr ("refused", true))
    (MkPackageManifest 1 "tool" TypePypi "" "" "" [] [versioned "1"; versioned "2"]) None []).2 <= 1)%nat.
Proof.
  pose proof (RecordPublished_dates (fun _ => true) (fun _ => "t") (fun _ _ => inr ("refused", true)) TypePypi None
    (MkPackageManifest 1 "tool" TypePypi "" "" "" [] [versioned "1"; versioned "2"]) [] eq_refl) as H.
  destruct (RecordPublished _ _ _ _ _ _) as [[pm' w] asked]. destruct H as (warns & _ & _ & H). cbn.
  apply H. intros v. by exists "refused".
Defined.
