(* ===== verification/Revet.v ===== *)
(** Re-vetting what was admitted (internal/admit/revet.go).

    A re-vet is the gate run again over a version of the catalog or of the proxy
    cache: its state is the manifest store, the admissions table and the events
    written.  What the world answers is an argument: the stores' objects, the
    recorded origins and checksums, the emitter of envelopes, and whether each
    read or write succeeds.  [meanwhile] is what other writers do to the store
    between the checks and the hide.  The mutexes, the log lines and the JSON of
    the events are left out, and the text of an error a store or a database gives is a
    fixed one; one re-vet runs at a time, as [serial] sees to. *)

From stdpp Require Import base list gmap strings sorting.
From Stdlib Require Import ZArith Lia Ascii Sorted.
From S2P Require Import Prelude GoStrings GoSort Types Keys Store.
From S2P Require Import AllowList Override AdmitOverride Gate Admissions Admit.

Definition RevetActor := "revet".
Definition RevetNone := "none".
Definition RevetReported := "reported".
Definition RevetHidden := "hidden".
Definition RevetFrozen := "frozen".
Definition RevetAlreadyHidden := "already_hidden".
Definition RevetHide := "hide".
Definition RevetErrorKey := "revet_error".

Record RevetFilter := MkRevetFilter { rf_Type : string; rf_Name : string; rf_Version : string; rf_OlderThan : Z }.

Record RevetTarget := MkTarget { tg_Type : string; tg_Name : string; tg_Version : string; tg_ObjectKey : string }.

#[global] Instance target_eq_dec : EqDecision RevetTarget.
Proof. solve_decision. Defined.

Record RevetOutcome := MkOutcome {
  ro_Target : RevetTarget;
  ro_Previous : string;
  ro_Decision : string;
  ro_Action : string;
  ro_Failing : list AdmissionCheck;
  ro_Envelopes : list string;
  ro_Notes : list string;
  ro_Error : string
}.

Definition Blocked_outcome (o : RevetOutcome) : bool := (ro_Decision o =? AdmissionPolicyBlocked)%string.

Record RevetSummary := MkSummary {
  rs_Walked : Z; rs_Admitted : Z; rs_Blocked : Z; rs_Hidden : Z; rs_Frozen : Z; rs_Errors : Z
}.

Definition count (b : bool) : Z := if b then 1 else 0.

Definition Add (s : RevetSummary) (o : RevetOutcome) : RevetSummary :=
  let failed := negb (ro_Error o =? "")%string in
  MkSummary (rs_Walked s + 1)
    (rs_Admitted s + count (negb failed && negb (Blocked_outcome o)))
    (rs_Blocked s + count (negb failed && Blocked_outcome o))
    (rs_Hidden s + count (ro_Action o =? RevetHidden)%string)
    (rs_Frozen s + count (ro_Action o =? RevetFrozen)%string)
    (rs_Errors s + count failed).

(** ** What a re-vet reads *)

(** The rows of the newest decision: [continue] on another version, [break] at
    an older time. *)
Fixpoint newest_decision (version : string) (rows out : list Admission) : list Admission :=
  match rows with
  | [] => out
  | row :: rows =>
      if negb (ad_PkgVersion row =? version)%string then newest_decision version rows out
      else match out with
           | first :: _ =>
               if bool_decide (ad_DecidedAt row = ad_DecidedAt first) then newest_decision version rows (out ++ [row]) else out
           | [] => newest_decision version rows [row]
           end
  end.

Definition unqueryable := "the audit sink keeps no admissions table this process can query".

(** [ok]: the query succeeds. *)
Definition previous (ok : bool) (db : DB) (tg : RevetTarget) : list Admission + string :=
  match db_sink db with
  | WriteOnly _ => inr unqueryable
  | Queryable t =>
      if negb ok then inr "query failed"
      else inl (newest_decision (tg_Version tg)
                  (QueryAdmissions (MkFilter (tg_Type tg) (tg_Name tg) (tg_Version tg) (tg_ObjectKey tg) None 200) t) [])
  end.

Definition admitted_versions (ok : bool) (db : DB) (f : AdmissionFilter) : list AdmissionPin + string :=
  match db_sink db with
  | WriteOnly _ => inr unqueryable
  | Queryable t => if negb ok then inr "query failed" else inl (admittedVersions f t)
  end.

Fixpoint keys_of (prev : list Admission) (keys : list string) : list string :=
  match prev with
  | [] => keys
  | p :: prev =>
      keys_of prev (if negb (ad_ObjectKey p =? "")%string && negb (slice_contains keys (ad_ObjectKey p))
                    then keys ++ [ad_ObjectKey p] else keys)
  end.

(** ** Ages *)

Section age.
Context (rfc3339 : Z -> string).

(** The age entry of the row, or [None] when the gate is run again. *)
Fixpoint carried_from (decided : Z) (checks : list AdmissionCheck) : option (option AdmissionCheck) :=
  match checks with
  | [] => None
  | c :: checks =>
      if negb (ac_Check c =? CheckAge)%string then carried_from decided checks
      else if slice_contains [CheckPass; CheckWarn] (ac_Status c) then
        Some (Some (MkCheck (ac_Check c) (ac_Action c) (ac_Status c)
          ("not re-run, carried from the decision of " +:+ rfc3339 decided +:+ ": " +:+ ac_Detail c)
          (ac_Provenance c) (ac_ChecksumDatabase c) (ac_Override c) (ac_Unwaivable c)))
      else if slice_contains [CheckBlock; CheckOverridden; CheckBaseline] (ac_Status c) then Some None
      else carried_from decided checks
  end.

Definition carriedAge (prev : list Admission) (action : string) : option AdmissionCheck :=
  let action := if (action =? "")%string then ActionNone else action in
  let unknown := MkCheck CheckAge action CheckNotEvaluated
    "not re-run: a version only gets older, and no earlier decision on record evaluated it" None None "" "" in
  match prev with
  | [] => Some unknown
  | first :: _ =>
      match carried_from (default 0 (ad_DecidedAt first)) (ad_Checks first) with
      | Some answer => answer
      | None => Some unknown
      end
  end.
End age.

(** ** Where a cached object came from *)

Record ObjectIdentity := MkIdentity { id_Backend : string; id_Size : Z; id_ETag : string; id_Modified : string }.

(** An open handle's metadata; [None] is the zero time. *)
Record stream := MkStream { sm_ContentLength : Z; sm_ETag : string; sm_LastModified : option Z }.

Record object_store := MkObjects { ob_Label : string; ob_GetStream : string -> option stream + string }.

Record stores := MkStores { st_ByName : string -> object_store + string; st_ForType : string -> object_store }.

Definition StreamIdentity (rfc3339nano : Z -> string) (store : option object_store) (res : option stream) : ObjectIdentity :=
  match store, res with
  | Some store, Some res =>
      MkIdentity (ob_Label store) (sm_ContentLength res) (sm_ETag res)
        (match sm_LastModified res with Some t => rfc3339nano t | None => "" end)
  | _, _ => MkIdentity "" 0 "" ""
  end.

Section origins.
Context (UnescapePath : string -> option string).
Context (rfc3339nano : Z -> string) (CacheOrigin : string -> ObjectIdentity -> string + string).

(** The manifest's backend for a cataloged version, the one of the key's type
    for the proxy cache. *)
Definition objectStore (ss : stores) (ve : VersionEntry) (cataloged : bool) (typ key : string) : object_store + string :=
  if cataloged then st_ByName ss (ve_Storage ve)
  else
    let '(t, _, _) := ParseKey UnescapePath key in
    inl (st_ForType ss (if (t =? "")%string then typ else t)).

Definition cacheOrigin (ss : stores) (ve : VersionEntry) (cataloged : bool) (typ key : string) : string + string :=
  match objectStore ss ve cataloged typ key with
  | inr err => inr err
  | inl store =>
      match ob_GetStream store key with
      | inr err => inr err
      | inl None => inr "the object is no longer in the store"
      | inl (Some res) => CacheOrigin key (StreamIdentity rfc3339nano (Some store) (Some res))
      end
  end.

(** The distinct origins, and why each other object has none. *)
Fixpoint origins_of (ss : stores) (ve : VersionEntry) (cataloged : bool) (typ : string) (keys origins unknown : list string)
  : list string * list string :=
  match keys with
  | [] => (origins, unknown)
  | k :: keys =>
      match cacheOrigin ss ve cataloged typ k with
      | inr err => origins_of ss ve cataloged typ keys origins (unknown ++ [k +:+ ": " +:+ err])
      | inl u =>
          if (u =? "")%string then
            origins_of ss ve cataloged typ keys origins
              (unknown ++ [k +:+ ": no upstream is recorded for the object now at that key"])
          else origins_of ss ve cataloged typ keys (if slice_contains origins u then origins else origins ++ [u]) unknown
      end
  end.

Definition cacheOrigins (ss : option stores) (ve : VersionEntry) (cataloged : bool) (prev : list Admission)
  : list string * list string :=
  let keys := keys_of prev [] in
  if (length keys =? 0)%nat then ([], ["no cached object of this version is on record"])
  else match ss with
       | None => ([], ["no object store is open to identify the cached object"])
       | Some ss => origins_of ss ve cataloged (match prev with p :: _ => ad_PkgType p | [] => "" end) keys [] []
       end.

(** ** The allow-list *)

Context (allow_message : AllowList.verdict -> string).

Fixpoint check_candidates (al : AllowChecker) (first : bool) (candidates : list string) (check : AdmissionCheck) : AdmissionCheck :=
  match candidates with
  | [] => check
  | c :: candidates =>
      let got := AllowListCheck allow_message (al_Listed al) c (al_Check al c) in
      if (ac_Status got =? CheckBlock)%string then got
      else check_candidates al false candidates (if first then got else check)
  end.

Definition no_check : AdmissionCheck := MkCheck "" "" "" "" None None "" "".

(** The check, and the notes. *)
Definition allowList (Allow : option (string -> AllowChecker)) (ss : option stores) (pm : PackageManifest) (ve : VersionEntry)
  (cataloged : bool) (prev : list Admission) : AdmissionCheck * list string :=
  match Allow with
  | None => (MkCheck CheckAllowList ActionNone CheckNotEvaluated "not run: no allow-list loaded" None None "" "", [])
  | Some al =>
      let al := al (pm_Type pm) in
      let candidate := CandidateFor (pm_Type pm) (pm_Name pm) (ve_URL ve) in
      let '(candidates, notes) :=
        if (candidate =? "")%string && negb (KeysByName (pm_Type pm)) && (negb cataloged || negb (ve_Mode ve =? ModeHosted)%string) then
          let '(candidates, unknown) := cacheOrigins ss ve cataloged prev in
          (candidates, map (fun why => "allow-list not re-run: the upstream of the cached object is unknown: " +:+ why) unknown)
        else ([candidate], []) in
      match candidates with
      | [] => (AllowListCheck allow_message (al_Listed al) "" Permitted, notes)
      | c :: _ =>
          if (c =? "")%string then (AllowListCheck allow_message (al_Listed al) "" Permitted, notes)
          else (check_candidates al true candidates no_check, notes)
      end
  end.
End origins.

(** ** What a re-vet writes *)

Record revet_event := MkRevetEvent { re_Kind : string; re_Type : string; re_Name : string; re_Version : string; re_Action : string }.

Record revet_state := MkRevetState { rv_store : Store; rv_db : DB; rv_events : list revet_event }.

Definition set_db (db : DB) (st : revet_state) : revet_state := MkRevetState (rv_store st) db (rv_events st).
Definition set_store (s : Store) (st : revet_state) : revet_state := MkRevetState s (rv_db st) (rv_events st).

Definition write_event (ok : bool) (e : revet_event) (failed : string) (st : revet_state) : revet_state * list string :=
  if ok then (MkRevetState (rv_store st) (rv_db st) (rv_events st ++ [e]), []) else (st, [failed]).

Definition with_key (key : string) (now : Z) (row : Admission) : Admission :=
  MkAdmission (ad_ID row) (ad_PkgType row) (ad_PkgName row) (ad_PkgVersion row) key (ad_Decision row) (ad_Checks row)
    (ad_PolicyDigest row) (ad_Actor row) (ad_Identity row) (Some now).

(** [record_ok]: whether the row of a key is taken.  A principal the context
    carries names the actor of the row that is stored. *)
Fixpoint write_rows (principal : option (string * string)) (record_ok : string -> bool) (now : Z) (row : Admission) (keys : list string) (db : DB)
  : DB * list Admission * list string :=
  match keys with
  | [] => (db, [], [])
  | k :: keys =>
      let row_k := with_key k now row in
      let '(db, err) := RecordAdmission principal now (record_ok k) row_k db in
      let '(db, rows, notes) := write_rows principal record_ok now row keys db in
      (db, row_k :: rows, match err with Some _ => ["admission row not written"] | None => [] end ++ notes)
  end.

Definition row_keys (tg : RevetTarget) (prev : list Admission) : list string :=
  let keys := keys_of prev [] in if (length keys =? 0)%nat then [tg_ObjectKey tg] else keys.

Inductive hide_error :=
| HideLoad
| PackageGone
| FrozenMeanwhile
| VersionGone
| HideSave (err : Store.store_error).

Definition hide_message (e : hide_error) : string :=
  match e with
  | HideLoad => "the manifest was not read"
  | PackageGone => "the package is no longer in the catalog"
  | FrozenMeanwhile => "the version was frozen while the re-vet ran"
  | VersionGone => "the version is no longer in the catalog"
  | HideSave _ => "the manifest was not saved"
  end.

Definition set_Hidden (ve : VersionEntry) : VersionEntry :=
  MkVersionEntry (ve_Version ve) (ve_URL ve) (ve_Mode ve) (ve_VersionConstraint ve) (ve_Ref ve)
    (ve_Source ve) (ve_SourceName ve) (ve_SourcePackage ve) (ve_CaptureSuite ve) (ve_BuildCmd ve)
    (ve_DebGlob ve) (ve_Suites ve) (ve_Classifiers ve) (ve_Generated ve) (ve_Filename ve)
    (ve_SHA256 ve) (ve_AppVersion ve) (ve_RequiredBy ve) (ve_Checksum ve) (ve_ChecksumVerified ve)
    (ve_Platform ve) (ve_BuildEnv ve) true (ve_ArtifactSize ve) (ve_Dependencies ve)
    (ve_NpmBin ve) (ve_PublishedAt ve) (ve_ArtifactDigest ve) (ve_Frozen ve) (ve_Baseline ve) (ve_BaselineAt ve)
    (ve_Storage ve) (ve_Description ve) (ve_Metadata ve).

(** The entries after the loop, in place, and [true] when it stopped at a frozen
    one; [found] is whether one was hidden. *)
Fixpoint hide_versions (version : string) (vs : list VersionEntry) (found : bool) : list VersionEntry * bool * bool :=
  match vs with
  | [] => ([], found, false)
  | ve :: rest =>
      if negb (admissionVersion ve =? version)%string then
        let '(rest, found, frozen) := hide_versions version rest found in (ve :: rest, found, frozen)
      else if ve_Frozen ve then (vs, found, true)
      else let '(rest, found, frozen) := hide_versions version rest true in (set_Hidden ve :: rest, found, frozen)
  end.

Record emit_pin := MkEmitPin {
  ep_Type : string; ep_Name : string; ep_Version : string; ep_ObjectKey : string; ep_SHA256 : string; ep_RequiredBy : list string
}.

(** What the world answers one re-vet. *)
Record answers := MkAnswers {
  an_lookup : bool;
  an_query : bool;
  an_listed : bool;
  an_principal : option (string * string);
  an_record : string -> bool;
  an_event : bool;
  an_hide_load : bool;
  an_hide_save : outcome;
  an_hide_event : bool;
  an_meanwhile : Store -> Store;
  an_checksum : string -> option (string * string);
  an_now : Z
}.

Section revet.
Context (UnescapePath : string -> option string) (bad_glob : string -> bool) (rfc3339 rfc3339nano : Z -> string).
Context (allow_message : AllowList.verdict -> string) (CacheOrigin : string -> ObjectIdentity -> string + string).

Definition hide (load_ok : bool) (save : outcome) (event_ok : bool) (tg : RevetTarget) (st : revet_state)
  : revet_state * list string * option hide_error :=
  match GetPackage load_ok (rv_store st) (tg_Type tg) (tg_Name tg) with
  | (s, inr _) => (set_store s st, [], Some HideLoad)
  | (s, inl None) => (set_store s st, [], Some PackageGone)
  | (s, inl (Some pm)) =>
      let '(vs, found, frozen) := hide_versions (tg_Version tg) (pm_Versions pm) false in
      let pm := set_Versions vs pm in
      let key := found_key (tg_Type tg) (tg_Name tg) in
      let s := mutate key pm s in
      if (frozen : bool) then (set_store s st, [], Some FrozenMeanwhile)
      else if negb found then (set_store s st, [], Some VersionGone)
      else
        match SavePackage bad_glob save key pm s with
        | (s, Some err) => (set_store s st, [], Some (HideSave err))
        | (s, None) =>
            let '(st, notes) := write_event event_ok (MkRevetEvent "hide" (tg_Type tg) (tg_Name tg) (tg_Version tg) "")
                                  "hidden, but the hide event was not written" (set_store s st) in
            (st, notes, None)
        end
  end.

Definition noCatalogEntry := "not hidden: no catalog entry exists to hide; the version is served from the proxy cache".
Definition noVersionInKey := "not re-run: the object's key names no version the per-version checks can evaluate".

(** The action revet_on_block takes, less the event. *)
Definition block_action (OnBlock : string) (an : answers) (tg : RevetTarget) (ve : VersionEntry) (cataloged : bool) (st : revet_state)
  : revet_state * string * list string :=
  if negb cataloged then (st, RevetReported, [noCatalogEntry])
  else if ve_Frozen ve then (st, RevetFrozen, [])
  else if ve_Hidden ve then (st, RevetAlreadyHidden, [])
  else if (OnBlock =? RevetHide)%string then
    match hide (an_hide_load an) (an_hide_save an) (an_hide_event an) tg (set_store (an_meanwhile an (rv_store st)) st) with
    | (st, notes, Some err) => (st, RevetReported, notes ++ ["not hidden: " +:+ hide_message err])
    | (st, notes, None) => (st, RevetHidden, notes)
    end
  else (st, RevetReported, []).

Definition onBlock (OnBlock : string) (an : answers) (tg : RevetTarget) (ve : VersionEntry) (cataloged : bool) (st : revet_state)
  : revet_state * string * list string :=
  let '(st, action, notes) := block_action OnBlock an tg ve cataloged st in
  let '(st, failed) := write_event (an_event an) (MkRevetEvent "revet" (tg_Type tg) (tg_Name tg) (tg_Version tg) action)
                         "audit event not written" st in
  (st, action, notes ++ failed).

(** ** One version *)

Definition proxied (version : string) : VersionEntry :=
  MkVersionEntry version "" ModeProxy "" "" "" "" "" "" "" "" [] [] false "" "" "" [] None false "" None
    false 0 [] ∅ "" "" false false "" "" "" ∅.

Definition lookup (an : answers) (tg : RevetTarget) (st : revet_state)
  : revet_state * (PackageManifest * VersionEntry * bool + string) :=
  match GetPackage (an_lookup an) (rv_store st) (tg_Type tg) (tg_Name tg) with
  | (s, inr _) => (set_store s st, inr "the manifest was not read")
  | (s, inl found) =>
      let st := set_store s st in
      let entry := match found with
                   | Some pm => if (tg_ObjectKey tg =? "")%string
                                then option_map (pair pm) (List.find (fun ve => (admissionVersion ve =? tg_Version tg)%string) (pm_Versions pm))
                                else None
                   | None => None
                   end in
      match entry with
      | Some (pm, ve) => (st, inl (pm, ve, true))
      | None =>
          let f := if (tg_ObjectKey tg =? "")%string
                   then MkFilter (tg_Type tg) (tg_Name tg) (tg_Version tg) "" None 0
                   else MkFilter (tg_Type tg) (tg_Name tg) "" (tg_ObjectKey tg) None 0 in
          let label := if (tg_ObjectKey tg =? "")%string
                       then tg_Type tg +:+ "/" +:+ tg_Name tg +:+ "@" +:+ tg_Version tg
                       else tg_Type tg +:+ "/" +:+ tg_Name tg +:+ " object " +:+ tg_ObjectKey tg in
          match admitted_versions (an_listed an) (rv_db st) f with
          | inr err => (st, inr (label +:+ " is not in the catalog, and the admissions table could not be read: " +:+ err))
          | inl [] => (st, inr (label +:+ " is neither in the catalog nor admitted to the proxy cache"))
          | inl _ =>
              let ve := proxied (tg_Version tg) in
              (st, inl (MkPackageManifest 0 (tg_Name tg) (tg_Type tg) "" "" "" [] [ve], ve, false))
          end
      end
  end.

(** A signer: the emitter, [true] revoking, and the stores it writes to. *)
Record signer := MkSigner { sg_stores : stores; sg_emit : bool -> object_store -> emit_pin -> string + string }.

Fixpoint sign (sg : signer) (an : answers) (ve : VersionEntry) (cataloged : bool) (rows : list Admission) : list string * list string :=
  match rows with
  | [] => ([], [])
  | row :: rows =>
      let skip note := let '(envelopes, notes) := sign sg an ve cataloged rows in (envelopes, note :: notes) in
      let key := ad_ObjectKey row in
      if (key =? "")%string then skip "no envelope signed: no object of this version is pinned"
      else
        match an_checksum an key with
        | Some (algorithm, value) =>
            if negb (EqualFold algorithm "sha256") then skip ("no envelope signed for " +:+ key +:+ ": no sha256 pinned for it")
            else
              match objectStore UnescapePath (sg_stores sg) ve cataloged (ad_PkgType row) key with
              | inr err => ([], ["no envelope signed: " +:+ err])
              | inl into =>
                  let pin := MkEmitPin (ad_PkgType row) (ad_PkgName row) (ad_PkgVersion row) key value (ve_RequiredBy ve) in
                  match sg_emit sg (ad_Decision row =? AdmissionPolicyBlocked)%string into pin with
                  | inr err => skip ("no envelope signed for " +:+ key +:+ ": " +:+ err)
                  | inl envelope =>
                      let '(envelopes, notes) := sign sg an ve cataloged rows in
                      ((if (envelope =? "")%string then envelopes else envelope :: envelopes), notes)
                  end
              end
        | None => skip ("no envelope signed for " +:+ key +:+ ": no sha256 pinned for it")
        end
  end.

Record Revetter := MkRevetter {
  rt_Allow : option (string -> AllowChecker);
  rt_OnBlock : string;
  rt_checkers : list VersionChecker;
  rt_age : VersionChecker;
  rt_stores : option stores;
  rt_signer : option signer;
  rt_reads : PackageManifest -> policy_reads;
  rt_digestErr : option string;
  rt_overrideErr : option string
}.

(** The verdict on one version: the evaluation, whether it is refused, and the
    notes.  [prev] is the newest decision on record. *)
Definition judge (rt : Revetter) (tg : RevetTarget) (pm : PackageManifest) (ve : VersionEntry) (cataloged : bool) (prev : list Admission)
  : evaluation * bool * list string :=
  let cp := set_Versions [ve] pm in
  let checkers := rt_checkers rt in
  let ev := include cp checkers (newEvaluation (Some (rt_reads rt cp)) cp) in
  let '(allow, notes) := allowList UnescapePath rfc3339nano CacheOrigin allow_message (rt_Allow rt) (rt_stores rt) cp ve cataloged prev in
  let allow := default allow (admitPast rfc3339 ev cp 0 allow) in
  let ev := ev_set (Some 0%nat) allow ev in
  let '(ev, ageResults) :=
    if (tg_ObjectKey tg =? "")%string then
      match carriedAge rfc3339 prev (map_get (ev_actions ev) CheckAge) with
      | None => runVersion rfc3339 ev cp 0 [rt_age rt]
      | Some age => (ev_set (Some 0%nat) age ev, [])
      end
    else (ev, []) in
  let blocked := (ac_Status allow =? CheckBlock)%string in
  if negb (tg_ObjectKey tg =? "")%string then (notRunChecks (Some 0%nat) noVersionInKey (ev_versionChecks ev) ev, blocked, notes)
  else if blocked then
    (notRunChecks (Some 0%nat) "not run: the allow-list refused this version" (ev_versionChecks ev) ev, true, notes)
  else
    let '(ev, results) := runVersion rfc3339 ev cp 0 checkers in
    let results := ageResults ++ results in
    let asked := omap (fun res => option_map (fun msg => r_Check res +:+ " could not be asked: " +:+ msg) (r_Details res !! RevetErrorKey)) results in
    let combined := Combine results in
    if negb (Blocked combined) then
      let '(ev, changes) := commit rfc3339 ev cp checkers in
      (ev, Blocked (Combine (replaceResults results (default [] (changes !! 0%nat)))), notes ++ asked)
    else (ev, true, notes ++ asked).

Definition failed_outcome (tg : RevetTarget) (err : string) : RevetOutcome := MkOutcome tg "" "" "" [] [] [] err.

(** [db] nil is [None] in the caller: every run has one. *)
Definition One (rt : Revetter) (an : answers) (tg : RevetTarget) (trigger : string) (st : revet_state) : revet_state * RevetOutcome :=
  match lookup an tg st with
  | (st, inr err) => (st, failed_outcome tg err)
  | (st, inl (pm, ve, cataloged)) =>
      let '(prev, notes) := match previous (an_query an) (rv_db st) tg with
                            | inl prev => (prev, [])
                            | inr err => ([], ["no earlier decision read: " +:+ err])
                            end in
      let before := match prev with p :: _ => ad_Decision p | [] => "" end in
      let '(ev, blocked, judged) := judge rt tg pm ve cataloged prev in
      let decision := if (blocked : bool) then AdmissionPolicyBlocked else AdmissionAdmitted in
      let row := row ev (set_Versions [ve] pm) 0 decision (MkWho RevetActor trigger) in
      let '(db, rows, written) := write_rows (an_principal an) (an_record an) (an_now an) row (row_keys tg prev) (rv_db st) in
      let notes := notes ++ judged ++ error_line "recorded with no policy digest: " (rt_digestErr rt)
                   ++ error_line "overrides not read, so none applied: " (rt_overrideErr rt) ++ written in
      let failing := List.filter (fun c => (ac_Status c =? CheckBlock)%string) (ad_Checks row) in
      let '(st, action, acted) := if (blocked : bool) then onBlock (rt_OnBlock rt) an tg ve cataloged (set_db db st)
                                  else (set_db db st, RevetNone, []) in
      let '(envelopes, signed) := match rt_signer rt with
                                  | Some sg => if blocked || (before =? AdmissionPolicyBlocked)%string then sign sg an ve cataloged rows else ([], [])
                                  | None => ([], [])
                                  end in
      (st, MkOutcome tg before decision action failing envelopes (notes ++ acted ++ signed) "")
  end.

(** A sweep; [answers] are those to each target in turn, and it stops where they
    do, as it does when its context ends. *)
Fixpoint Sweep (rt : Revetter) (trigger : string) (targets : list RevetTarget) (ans : list answers) (sum : RevetSummary) (st : revet_state)
  : revet_state * RevetSummary * list RevetOutcome :=
  match targets, ans with
  | tg :: targets, an :: ans =>
      let '(st, o) := One rt an tg trigger st in
      let '(st, sum, os) := Sweep rt trigger targets ans (Add sum o) st in
      (st, sum, o :: os)
  | _, _ => (st, sum, [])
  end.
End revet.

(** ** The targets *)

Inductive target_error :=
| UnknownType (t : string)
| OlderThanUnqueryable
| TargetLoad (typ name : string)
| TargetQuery
| ErrNoRevetTargets.

Section targets.
Context (load_ok : string -> string -> bool) (query_ok listed_ok : bool) (db : DB) (f : RevetFilter) (now : Z).

(** Whether the newest decision is older than the filter wants. *)
Definition old_enough (tg : RevetTarget) : bool + target_error :=
  if rf_OlderThan f <=? 0 then inl true
  else match previous query_ok db tg with
       | inr _ => inr TargetQuery
       | inl [] => inl true
       | inl (p :: _) => inl (negb (now - rf_OlderThan f <? default 0 (ad_DecidedAt p)))
       end.

Definition want : string := if (rf_Name f =? "")%string then "" else SafeName (rf_Name f).

(** The entries of one package: what the catalog holds, and what is selected. *)
Fixpoint walk_entries (typ name pmName : string) (vs : list VersionEntry) (cataloged : list (string * string * string)) (out : list RevetTarget)
  : list (string * string * string) * list RevetTarget + target_error :=
  match vs with
  | [] => inl (cataloged, out)
  | ve :: vs =>
      let v := admissionVersion ve in
      let cataloged := cataloged ++ [(typ, name, v)] in
      if negb (rf_Version f =? "")%string && negb (v =? rf_Version f)%string then walk_entries typ name pmName vs cataloged out
      else
        let tg := MkTarget typ pmName v "" in
        match old_enough tg with
        | inr err => inr err
        | inl true => walk_entries typ name pmName vs cataloged (out ++ [tg])
        | inl false => walk_entries typ name pmName vs cataloged out
        end
  end.

Fixpoint walk_packages (packages : list (string * string)) (s : Store) (cataloged : list (string * string * string)) (out : list RevetTarget)
  : Store * (list (string * string * string) * list RevetTarget + target_error) :=
  match packages with
  | [] => (s, inl (cataloged, out))
  | (typ, name) :: packages =>
      if negb (want =? "")%string && negb (name =? want)%string then walk_packages packages s cataloged out
      else
        match GetPackage (load_ok typ name) s typ name with
        | (s, inr _) => (s, inr (TargetLoad typ name))
        | (s, inl None) => walk_packages packages s cataloged out
        | (s, inl (Some pm)) =>
            match walk_entries typ name (pm_Name pm) (pm_Versions pm) cataloged out with
            | inr err => (s, inr err)
            | inl (cataloged, out) => walk_packages packages s cataloged out
            end
        end
  end.

(** Versions go after the catalog's, objects after both. *)
Fixpoint walk_admitted (cataloged : list (string * string * string)) (admitted : list AdmissionPin) (out objects : list RevetTarget)
  : list RevetTarget + target_error :=
  match admitted with
  | [] => inl (out ++ objects)
  | a :: admitted =>
      let safe := SafeName (pn_PkgName a) in
      if (negb (want =? "")%string && negb (safe =? want)%string) || bool_decide ((pn_PkgType a, safe, pn_PkgVersion a) ∈ cataloged)
      then walk_admitted cataloged admitted out objects
      else
        let tg := MkTarget (pn_PkgType a) (pn_PkgName a) (pn_PkgVersion a) (pn_ObjectKey a) in
        match old_enough tg with
        | inr err => inr err
        | inl false => walk_admitted cataloged admitted out objects
        | inl true =>
            if negb (tg_ObjectKey tg =? "")%string then walk_admitted cataloged admitted out (objects ++ [tg])
            else walk_admitted cataloged admitted (out ++ [tg]) objects
        end
  end.

(** A read of a package leaves the index, so the packages are listed at once. *)
Definition packages_of (types : list string) (s : Store) : list (string * string) :=
  concat (map (fun t => map (pair t) (ListPackages s t)) types).

Definition Targets (s : Store) : Store * (list RevetTarget + target_error) :=
  if negb (rf_Type f =? "")%string && negb (IsKnownType (rf_Type f)) then (s, inr (UnknownType (rf_Type f)))
  else if (0 <? rf_OlderThan f) && (match db_sink db with WriteOnly _ => true | _ => false end) then (s, inr OlderThanUnqueryable)
  else
    let types := if (rf_Type f =? "")%string then AllTypes else [rf_Type f] in
    match walk_packages (packages_of types s) s [] [] with
    | (s, inr err) => (s, inr err)
    | (s, inl (cataloged, out)) =>
        let admitted := match admitted_versions listed_ok db (MkFilter (rf_Type f) "" (rf_Version f) "" None 0) with
                        | inl admitted => admitted
                        | inr _ => []
                        end in
        match walk_admitted cataloged admitted out [] with
        | inr err => (s, inr err)
        | inl out =>
            if (length out =? 0)%nat && (negb (rf_Name f =? "")%string || negb (rf_Version f =? "")%string)
            then (s, inr ErrNoRevetTargets) else (s, inl out)
        end
    end.
End targets.

(** ** Carried ages *)

Section age_facts.
Context (rfc3339 : Z -> string).

Definition excepted (c : AdmissionCheck) : bool :=
  (ac_Check c =? CheckAge)%string && slice_contains [CheckBlock; CheckOverridden; CheckBaseline] (ac_Status c).

Definition kept_verdict (c : AdmissionCheck) : bool :=
  (ac_Check c =? CheckAge)%string && slice_contains [CheckPass; CheckWarn] (ac_Status c).

Lemma carried_from_spec decided checks :
  match carried_from rfc3339 decided checks with
  | None => Forall (fun c => excepted c = false /\ kept_verdict c = false) checks
  | Some None => exists c, c ∈ checks /\ excepted c = true
  | Some (Some c') => exists c, c ∈ checks /\ kept_verdict c = true /\ ac_Check c' = ac_Check c /\ ac_Status c' = ac_Status c
  end.
Proof.
  induction checks as [|c checks IH]; [constructor|]. cbn [carried_from].
  assert (Hup : excepted c = false -> kept_verdict c = false ->
    match carried_from rfc3339 decided checks with
    | None => Forall (fun c => excepted c = false /\ kept_verdict c = false) (c :: checks)
    | Some None => exists c0, c0 ∈ c :: checks /\ excepted c0 = true
    | Some (Some c') => exists c0, c0 ∈ c :: checks /\ kept_verdict c0 = true /\ ac_Check c' = ac_Check c0 /\ ac_Status c' = ac_Status c0
    end).
  { intros H1 H2. destruct (carried_from rfc3339 decided checks) as [[c'|]|].
    - destruct IH as (c0 & Hin & H). exists c0. split; [by right|done].
    - destruct IH as (c0 & Hin & H). exists c0. split; [by right|done].
    - by constructor. }
  unfold excepted, kept_verdict in *. destruct (ac_Check c =? CheckAge)%string eqn:Ec; cbn [negb andb] in *; [|by apply Hup].
  destruct (slice_contains [CheckPass; CheckWarn] (ac_Status c)) eqn:Ek.
  { exists c. split; [by left|]. by rewrite Ec, Ek. }
  destruct (slice_contains [CheckBlock; CheckOverridden; CheckBaseline] (ac_Status c)) eqn:Ex; [|by apply Hup].
  exists c. split; [by left|]. by rewrite Ec, Ex.
Qed.

(** No exception is carried: what a re-vet carries is a pass or a warn of the
    newest decision or says that nothing was evaluated, and where that decision
    recorded the age as failing, overridden or a baseline, and no pass or warn
    beside it, the gate runs again. *)
Lemma carriedAge_spec prev action :
  match carriedAge rfc3339 prev action with
  | Some c => ac_Check c = CheckAge /\ (ac_Status c = CheckNotEvaluated
      \/ exists p c0, head prev = Some p /\ c0 ∈ ad_Checks p /\ kept_verdict c0 = true /\ ac_Status c = ac_Status c0)
  | None => exists p c, head prev = Some p /\ c ∈ ad_Checks p /\ excepted c = true
  end
  /\ (forall p, head prev = Some p -> existsb excepted (ad_Checks p) = true -> existsb kept_verdict (ad_Checks p) = false ->
      carriedAge rfc3339 prev action = None).
Proof.
  unfold carriedAge. destruct prev as [|p prev]; [split; [by split; [|left]|done]|].
  pose proof (carried_from_spec (default 0 (ad_DecidedAt p)) (ad_Checks p)) as H.
  destruct (carried_from _ _ _) as [[c|]|].
  - destruct H as (c0 & Hin & Hk & H1 & H2). split.
    + split; [|right; by exists p, c0]. rewrite H1. unfold kept_verdict in Hk. apply andb_true_iff in Hk as [Hk _]. by apply String.eqb_eq.
    + intros ? [= <-] _ Hno. exfalso. apply not_true_iff_false in Hno. apply Hno, existsb_exists. exists c0. by rewrite <- list_elem_of_In.
  - destruct H as (c & Hin & He). split; [by exists p, c|done].
  - split; [by split; [|left]|]. intros ? [= <-] He _. exfalso. apply existsb_exists in He as (c & Hin & He).
    rewrite Forall_forall in H. apply list_elem_of_In, H in Hin as [Hno _]. congruence.
Qed.
End age_facts.

(** ** Hiding *)

(** The entries hidden, in order. *)
Definition hidden_as (version : string) (ve ve' : VersionEntry) : Prop :=
  ve' = if (admissionVersion ve =? version)%string then set_Hidden ve else ve.

Lemma hide_versions_spec version vs found :
  let '(vs', found', frozen) := hide_versions version vs found in
  frozen = existsb (fun ve => (admissionVersion ve =? version)%string && ve_Frozen ve) vs
  /\ (frozen = false -> Forall2 (hidden_as version) vs vs'
      /\ found' = found || existsb (fun ve => (admissionVersion ve =? version)%string) vs).
Proof.
  revert found. induction vs as [|ve vs IH]; intros found; cbn [hide_versions existsb].
  { split; [done|]. intros _. split; [constructor|by rewrite orb_false_r]. }
  destruct (admissionVersion ve =? version)%string eqn:E; cbn [negb andb orb].
  - destruct (ve_Frozen ve) eqn:Ef; [by split|]. specialize (IH true).
    destruct (hide_versions version vs true) as [[vs' found'] frozen]. destruct IH as [-> IH]. split; [done|].
    intros Hf. destruct (IH Hf) as [H1 ->]. split; [|by rewrite orb_true_r]. constructor; [|done]. unfold hidden_as. by rewrite E.
  - specialize (IH found). destruct (hide_versions version vs found) as [[vs' found'] frozen]. destruct IH as [-> IH]. split; [done|].
    intros Hf. destruct (IH Hf) as [H1 ->]. split; [|done]. constructor; [|done]. unfold hidden_as. by rewrite E.
Qed.

(** The manifest a load answers: the cached one, or the stored one when none is
    cached.  While the cache agrees with the store they are one. *)
Definition manifest_seen (tg : RevetTarget) (s : Store) : option PackageManifest :=
  match st_packages s !! packageKey (tg_Type tg) (CanonicalName (tg_Type tg) (tg_Name tg)) with
  | Some pm => Some pm
  | None => st_files s !! manifestPath (tg_Type tg) (CanonicalName (tg_Type tg) (tg_Name tg))
  end.

(** What hiding a version does to the stored manifests: it writes the one seen,
    with its entries of the version hidden and nothing else changed, and no entry
    of the version is frozen. *)
Definition hides (bad_glob : string -> bool) (tg : RevetTarget) (s s' : Store) : Prop :=
  exists pm vs, manifest_seen tg s = Some pm
    /\ Forall2 (hidden_as (tg_Version tg)) (pm_Versions pm) vs
    /\ existsb (fun ve => (admissionVersion ve =? tg_Version tg)%string) (pm_Versions pm) = true
    /\ existsb (fun ve => (admissionVersion ve =? tg_Version tg)%string && ve_Frozen ve) (pm_Versions pm) = false
    /\ st_files s' = <[key_path (home pm) := saved (set_Versions vs pm)]> (st_files s).

Lemma manifest_seen_stored tg s : agree s ->
  manifest_seen tg s = st_files s !! manifestPath (tg_Type tg) (CanonicalName (tg_Type tg) (tg_Name tg)).
Proof.
  intros Hs. unfold manifest_seen. destruct (st_packages s !! _) as [pm|] eqn:E; [|done].
  apply (ag_cache _ Hs) in E. by rewrite manifestPath_key.
Qed.

Lemma GetPackage_seen ok s tg s' pm :
  GetPackage ok s (tg_Type tg) (tg_Name tg) = (s', inl (Some pm)) -> manifest_seen tg s = Some pm /\ st_files s' = st_files s.
Proof.
  unfold GetPackage, manifest_seen. destruct (st_packages s !! _) as [q|]; [by intros [= <- <-]|].
  destruct (negb ok); [done|]. destruct (st_files s !! _) as [q|]; [|done]. by intros [= <- <-].
Qed.

Lemma GetPackage_files ok s typ name : st_files (GetPackage ok s typ name).1 = st_files s.
Proof. unfold GetPackage. destruct (st_packages s !! _); [done|]. destruct ok; [|done]. by destruct (st_files s !! _). Qed.

(** A save that fails wrote nothing, or the manifest and not its sidecar. *)
Lemma SavePackage_failed bad_glob o alias pm s s' err :
  SavePackage bad_glob o alias pm s = (s', Some err) ->
  st_files s' = st_files s \/ o = SidecarRefused /\ st_files s' = <[key_path (home pm) := saved pm]> (st_files s).
Proof.
  unfold SavePackage. destruct (validate_saved bad_glob pm); [intros [= <- _]; by left|]. fold (saved pm).
  rewrite home_saved_path. intros H.
  destruct o; cbn [writeManifest] in H; [done|injection H as <- _; left; by destruct alias|].
  right. split; [done|]. injection H as <- _. by destruct alias.
Qed.

Lemma hide_spec bad_glob load_ok save event_ok tg st :
  let '(st', notes, err) := hide bad_glob load_ok save event_ok tg st in
  rv_db st' = rv_db st
  /\ match err with
     | None => hides bad_glob tg (rv_store st) (rv_store st')
     | Some _ => st_files (rv_store st') = st_files (rv_store st)
                 \/ save = SidecarRefused /\ hides bad_glob tg (rv_store st) (rv_store st')
     end.
Proof.
  unfold hide. pose proof (GetPackage_files load_ok (rv_store st) (tg_Type tg) (tg_Name tg)) as Hfiles.
  destruct (GetPackage load_ok (rv_store st) (tg_Type tg) (tg_Name tg)) as [s1 [[pm|]|err]] eqn:Eg; cbn [fst] in Hfiles;
    [|by split; [|left]..].
  apply GetPackage_seen in Eg as [Hseen _].
  pose proof (hide_versions_spec (tg_Version tg) (pm_Versions pm) false) as Hv.
  destruct (hide_versions _ _ _) as [[vs found] frozen]. destruct Hv as [-> Hv].
  destruct (existsb _ (pm_Versions pm)) eqn:Ez; [by split; [|left]|]. destruct (Hv eq_refl) as [Hv2 ->]. cbn [orb].
  destruct (existsb (fun ve => (admissionVersion ve =? tg_Version tg)%string) (pm_Versions pm)) eqn:Ex; cbn [negb]; [|by split; [|left]].
  destruct (SavePackage bad_glob save _ _ _) as [s2 [err|]] eqn:Esave.
  - split; [done|]. apply SavePackage_failed in Esave as [E|[Ho E]]; rewrite ?home_set_Versions in E; cbn in E |- *.
    + left. by rewrite E.
    + right. split; [done|]. exists pm, vs. rewrite <- Hfiles. by split_and!.
  - apply SavePackage_success in Esave as (_ & _ & Hf & _). rewrite home_set_Versions in Hf. cbn in Hf.
    unfold write_event. destruct event_ok; (split; [done|]); exists pm, vs; rewrite <- Hfiles; by split_and!.
Qed.

(** ** The rows *)

Lemma with_key_record principal now ok k row db db' err :
  RecordAdmission principal now ok (with_key k now row) db = (db', err) ->
  ValidAdmissionDecision (ad_Decision row) = true -> db_readOnly db = false -> forall t, db_sink db = Queryable t ->
  db_readOnly db' = false /\ if ok then exists r, db_sink db' = Queryable (insert_row r t)
      /\ rw_PkgType r = ad_PkgType row /\ rw_PkgName r = ad_PkgName row /\ rw_PkgVersion r = ad_PkgVersion row
      /\ rw_Decision r = ad_Decision row /\ rw_Checks r = ad_Checks row /\ rw_decided r = sqliteDecidedAt now /\ rw_key r = nullKey k
    else db_sink db' = db_sink db.
Proof.
  unfold RecordAdmission. intros H Hv Hro t Ht. rewrite Hro in H. cbn [with_key ad_Decision] in H. rewrite Hv in H. cbn [negb] in H.
  unfold sink_record in H. destruct ok; cbn [negb] in H; rewrite Ht in *; injection H as <- _; split; [done| |done|done].
  eexists. split; [done|]. unfold stamped. by destruct (default _ principal).
Qed.

(** A row of the decision of [row], under one of the keys. *)
Definition copy_of (now : Z) (row : Admission) (r : admission_row) : Prop :=
  rw_PkgType r = ad_PkgType row /\ rw_PkgName r = ad_PkgName row /\ rw_PkgVersion r = ad_PkgVersion row
  /\ rw_Decision r = ad_Decision row /\ rw_Checks r = ad_Checks row /\ rw_decided r = sqliteDecidedAt now.

Lemma write_rows_spec principal record_ok now row keys db t :
  ValidAdmissionDecision (ad_Decision row) = true -> db_readOnly db = false -> db_sink db = Queryable t ->
  let '(db', rows, notes) := write_rows principal record_ok now row keys db in
  db_readOnly db' = false /\ exists t' new, db_sink db' = Queryable t' /\ tb_rows t' = tb_rows t ++ new
    /\ Forall (copy_of now row) new /\ map rw_key new = map nullKey (List.filter record_ok keys)
    /\ Forall (fun r => tb_next t <= rw_ID r) new /\ (table_ok t -> table_ok t').
Proof.
  intros Hv. revert db t. induction keys as [|k keys IH]; intros db t Hro Ht; cbn [write_rows].
  { split; [done|]. exists t, []. rewrite List.app_nil_r. by split_and!. }
  destruct (RecordAdmission principal now (record_ok k) (with_key k now row) db) as [db1 err] eqn:E.
  destruct (with_key_record _ _ _ _ _ _ _ _ E Hv Hro t Ht) as [Hro1 H1]. cbn [List.filter].
  destruct (record_ok k).
  - destruct H1 as (r & Ht1 & Hr). specialize (IH db1 _ Hro1 Ht1). destruct (write_rows _ _ _ _ _ _) as [[db2 rows] notes].
    destruct IH as (Hro2 & t2 & new & Ht2 & Hrows & Hnew & Hkeys & Hids & Hok). split; [done|]. destruct Hr as (? & ? & ? & ? & ? & ? & Hk).
    exists t2, (set_id (tb_next t) r :: new). split_and!; [done|by rewrite Hrows; cbn; rewrite <- List.app_assoc|constructor; [by unfold copy_of|done]| | |].
    + cbn. by rewrite Hk, Hkeys.
    + constructor; [cbn; lia|]. eapply Forall_impl; [exact Hids|]. intros x. cbn. lia.
    + intros Hok0. by apply Hok, insert_row_ok.
  - rewrite Ht in H1. specialize (IH db1 _ Hro1 H1). by destruct (write_rows _ _ _ _ _ _) as [[db2 rows] notes].
Qed.

(** ** One version *)

Section one_facts.
Context (UnescapePath : string -> option string) (bad_glob : string -> bool) (rfc3339 rfc3339nano : Z -> string).
Context (allow_message : AllowList.verdict -> string) (CacheOrigin : string -> ObjectIdentity -> string + string).

Local Abbreviation One_ := (One UnescapePath bad_glob rfc3339 rfc3339nano allow_message CacheOrigin).
Local Abbreviation judge_ := (judge UnescapePath rfc3339 rfc3339nano allow_message CacheOrigin).
Local Abbreviation Sweep_ := (Sweep UnescapePath bad_glob rfc3339 rfc3339nano allow_message CacheOrigin).

(** The entry a re-vet judges: the first the catalog has of the version, or one
    made of the name for what only the cache holds. *)
Definition judged (tg : RevetTarget) (s : Store) (pm : PackageManifest) (ve : VersionEntry) (cataloged : bool) : Prop :=
  admissionVersion ve = tg_Version tg
  /\ if cataloged then tg_ObjectKey tg = "" /\ (exists ok, (GetPackage ok s (tg_Type tg) (tg_Name tg)).2 = inl (Some pm))
       /\ List.find (fun ve => (admissionVersion ve =? tg_Version tg)%string) (pm_Versions pm) = Some ve
     else pm = MkPackageManifest 0 (tg_Name tg) (tg_Type tg) "" "" "" [] [ve] /\ ve = proxied (tg_Version tg).

Lemma proxied_version v : admissionVersion (proxied v) = v.
Proof. unfold admissionVersion. cbn. by destruct (String.eqb_spec v "") as [->|]. Qed.

Lemma lookup_spec an tg st :
  let '(st', res) := lookup an tg st in
  rv_db st' = rv_db st /\ rv_store st' = (GetPackage (an_lookup an) (rv_store st) (tg_Type tg) (tg_Name tg)).1
  /\ match res with
     | inl (pm, ve, cataloged) => judged tg (rv_store st) pm ve cataloged
     | inr err => err <> ""
     end.
Proof.
  unfold lookup. destruct (GetPackage (an_lookup an) (rv_store st) (tg_Type tg) (tg_Name tg)) as [s [found|err]] eqn:Eg; [|by split_and!].
  match goal with |- context [match ?e with Some _ => _ | None => _ end] => destruct e as [[pm ve]|] eqn:Ee end.
  - split_and!; [done|done|]. destruct found as [pm0|]; [|done]. destruct (String.eqb_spec (tg_ObjectKey tg) "") as [Ek|]; [|done].
    destruct (List.find _ (pm_Versions pm0)) as [ve0|] eqn:Ef; [|done]. injection Ee as -> ->.
    pose proof (find_some _ _ Ef) as [_ Hl%String.eqb_eq]. split; [done|]. split_and!; [done| |done]. exists (an_lookup an). by rewrite Eg.
  - destruct (admitted_versions _ _ _) as [[|a l]|err]; (split_and!; [done|done|]); try (destruct (_ =? "")%string; by destruct (tg_Type tg)).
    split; [by apply proxied_version|done].
Qed.

(** The store when a hide starts. *)
Definition at_hide (an : answers) (tg : RevetTarget) (st : revet_state) : Store :=
  an_meanwhile an (GetPackage (an_lookup an) (rv_store st) (tg_Type tg) (tg_Name tg)).1.

Lemma write_event_store ok e failed st :
  rv_store (write_event ok e failed st).1 = rv_store st /\ rv_db (write_event ok e failed st).1 = rv_db st.
Proof. by unfold write_event; destruct ok. Qed.

(** What a refusal does to the state, by the action reported. *)
(** What an action that is not reported as a hide left in the store: nothing, what
    others wrote meanwhile, or a hide that was written without its sidecar and so
    reported as failed. *)
Definition shown (OnBlock : string) (an : answers) (tg : RevetTarget) (ve : VersionEntry) (cataloged : bool) (s meanwhile s' : Store) : Prop :=
  st_files s' = st_files s \/ st_files s' = st_files meanwhile
  \/ an_hide_save an = SidecarRefused /\ OnBlock = RevetHide /\ cataloged = true /\ ve_Frozen ve = false /\ hides bad_glob tg meanwhile s'.

Definition acts (OnBlock : string) (an : answers) (tg : RevetTarget) (ve : VersionEntry) (cataloged : bool) (st st' : revet_state) (action : string) : Prop :=
  rv_db st' = rv_db st
  /\ if (action =? RevetHidden)%string then OnBlock = RevetHide /\ cataloged = true /\ ve_Frozen ve = false
                                /\ hides bad_glob tg (an_meanwhile an (rv_store st)) (rv_store st')
     else (action = RevetFrozen -> cataloged = true /\ ve_Frozen ve = true)
          /\ action <> RevetNone
          /\ shown OnBlock an tg ve cataloged (rv_store st) (an_meanwhile an (rv_store st)) (rv_store st').

(** An action that hides nothing. *)
Lemma acts_shown OnBlock an tg ve cataloged st st' action : rv_db st' = rv_db st -> action <> RevetHidden -> action <> RevetNone ->
  (action = RevetFrozen -> cataloged = true /\ ve_Frozen ve = true) ->
  shown OnBlock an tg ve cataloged (rv_store st) (an_meanwhile an (rv_store st)) (rv_store st') ->
  acts OnBlock an tg ve cataloged st st' action.
Proof. intros Hd H%String.eqb_neq Hn Hf Hs. unfold acts. by rewrite H. Qed.

Lemma block_action_spec OnBlock an tg ve cataloged st :
  let '(st', action, notes) := block_action bad_glob OnBlock an tg ve cataloged st in acts OnBlock an tg ve cataloged st st' action.
Proof.
  unfold block_action. destruct cataloged; cbn [negb]; [|apply acts_shown; try done; by left].
  destruct (ve_Frozen ve) eqn:Ef; [apply acts_shown; try done; by left|]. destruct (ve_Hidden ve); [apply acts_shown; try done; by left|].
  destruct (String.eqb_spec OnBlock RevetHide) as [->|]; [|apply acts_shown; try done; by left].
  pose proof (hide_spec bad_glob (an_hide_load an) (an_hide_save an) (an_hide_event an) tg (set_store (an_meanwhile an (rv_store st)) st)) as Hh.
  destruct (hide _ _ _ _ _ _) as [[st1 notes] [err|]]; destruct Hh as [Hd Hh]; cbn [rv_db set_store rv_store] in Hd, Hh; [|done].
  apply acts_shown; try done. right. destruct Hh as [Hh|[Ho Hh]]; [by left|right]. by split_and!.
Qed.

Lemma onBlock_spec OnBlock an tg ve cataloged st :
  let '(st', action, notes) := onBlock bad_glob OnBlock an tg ve cataloged st in acts OnBlock an tg ve cataloged st st' action.
Proof.
  unfold onBlock. pose proof (block_action_spec OnBlock an tg ve cataloged st) as H.
  destruct (block_action _ _ _ _ _ _ _) as [[st1 action] notes].
  match goal with |- context [write_event ?a ?b ?c ?d] => pose proof (write_event_store a b c d) as [H1 H2]; destruct (write_event a b c d) as [st2 failed] end.
  cbn [fst] in H1, H2. unfold acts, shown, hides in *. by rewrite H1, H2.
Qed.

(** C8: A re-vet changes the stored manifests only by hiding.  Unless it reports
    the version hidden, they are those before it or those other writers left
    while it ran.  When it does, the version was refused, revet_on_block says so,
    the entry judged was cataloged and not frozen, and the manifest a load answers
    when the hide begins, which is the stored one while the cache agrees with it,
    has no frozen entry of the version and is stored with the version's entries
    hidden and nothing else changed.  A hide whose manifest is written and whose
    sidecar is not is reported as failed, under the same conditions and with the
    same change.  A version admitted changes no manifest.  What the cache holds
    is another matter: see [half_hidden]. *)
Theorem One_touches rt an tg trigger st :
  let '(st', o) := One_ rt an tg trigger st in
  let may_hide := ro_Decision o = AdmissionPolicyBlocked /\ rt_OnBlock rt = RevetHide
     /\ (exists pm ve, judged tg (rv_store st) pm ve true /\ ve_Frozen ve = false)
     /\ hides bad_glob tg (at_hide an tg st) (rv_store st') in
  (if (ro_Action o =? RevetHidden)%string then may_hide
   else st_files (rv_store st') = st_files (rv_store st) \/ st_files (rv_store st') = st_files (at_hide an tg st)
        \/ an_hide_save an = SidecarRefused /\ may_hide)
  /\ (ro_Decision o <> AdmissionPolicyBlocked -> st_files (rv_store st') = st_files (rv_store st))
  /\ (agree (at_hide an tg st) ->
       manifest_seen tg (at_hide an tg st)
       = st_files (at_hide an tg st) !! manifestPath (tg_Type tg) (CanonicalName (tg_Type tg) (tg_Name tg))).
Proof.
  unfold One. pose proof (lookup_spec an tg st) as Hl. destruct (lookup an tg st) as [st1 [[[pm ve] cataloged]|err]].
  2:{ destruct Hl as (_ & Hst & _). cbn [ro_Action failed_outcome ro_Decision]. replace ("" =? RevetHidden)%string with false by done.
      rewrite Hst, GetPackage_files. split; [by left|]. split; [done|apply manifest_seen_stored]. }
  destruct Hl as (Hdb & Hst & Hj).
  assert (Hf : st_files (rv_store st1) = st_files (rv_store st)) by (rewrite Hst; apply GetPackage_files).
  destruct (match previous (an_query an) (rv_db st1) tg with inl prev => (prev, []) | inr err => ([], [_]) end) as [prev notes].
  destruct (judge_ rt tg pm ve cataloged prev) as [[ev blocked] noted]. destruct (write_rows _ _ _ _ _ _) as [[db rows] written].
  destruct blocked.
  2:{ cbn [orb]. destruct (match rt_signer rt with Some sg => _ | None => _ end) as [envelopes signed]. cbn [ro_Action ro_Decision rv_store set_db].
      replace (RevetNone =? RevetHidden)%string with false by done. rewrite Hf. split; [by left|]. split; [done|apply manifest_seen_stored]. }
  pose proof (onBlock_spec (rt_OnBlock rt) an tg ve cataloged (set_db db st1)) as Hb. cbn [rv_store set_db] in Hb.
  destruct (onBlock _ _ _ _ _ _ _) as [[st2 action] acted]. destruct (match rt_signer rt with Some sg => _ | None => _ end) as [envelopes signed].
  cbn [ro_Action ro_Decision]. split; [|split; [done|apply manifest_seen_stored]]. destruct Hb as [_ Hb]. cbn [set_db rv_store] in Hb.
  destruct (action =? RevetHidden)%string; rewrite Hst in Hb; fold (at_hide an tg st) in Hb.
  - destruct Hb as (H1 & -> & H2 & H3). split_and!; [done|done|by exists pm, ve|done].
  - destruct Hb as (_ & _ & Hb). unfold shown in Hb. rewrite GetPackage_files in Hb.
    destruct Hb as [Hb|[Hb|(Ho & H1 & -> & H2 & H3)]]; [by left|by right; left|].
    right. right. split_and!; [done|done|done|by exists pm, ve|done].
Qed.

(** ** Counting *)

Definition no_summary : RevetSummary := MkSummary 0 0 0 0 0 0.

Definition summary_ok (s : RevetSummary) : Prop :=
  rs_Walked s = rs_Admitted s + rs_Blocked s + rs_Errors s /\ rs_Hidden s + rs_Frozen s <= rs_Blocked s.

(** An outcome reports an action only of a refusal. *)
Definition outcome_ok (o : RevetOutcome) : Prop :=
  ro_Action o = RevetHidden \/ ro_Action o = RevetFrozen -> ro_Error o = "" /\ Blocked_outcome o = true.

Lemma One_outcome rt an tg trigger st :
  let o := (One_ rt an tg trigger st).2 in outcome_ok o /\ ro_Target o = tg /\ (ro_Error o = "" -> (ro_Action o = RevetNone <-> Blocked_outcome o = false)).
Proof.
  cbv zeta. unfold One. pose proof (lookup_spec an tg st) as Hl. destruct (lookup an tg st) as [st1 [[[pm ve] cataloged]|err]].
  2:{ destruct Hl as (_ & _ & He). split_and!; [by intros [H|H]|done|by intros H]. }
  destruct (match previous (an_query an) (rv_db st1) tg with inl prev => (prev, []) | inr err => ([], [_]) end) as [prev notes].
  destruct (judge_ rt tg pm ve cataloged prev) as [[ev blocked] noted]. destruct (write_rows _ _ _ _ _ _) as [[db rows] written].
  destruct blocked.
  2:{ destruct (match rt_signer rt with Some sg => _ | None => _ end) as [envelopes signed]. cbn. split_and!; [by intros [H|H]|done|done]. }
  destruct (onBlock _ _ _ _ _ _ _) as [[st2 action] acted] eqn:Eb. destruct (match rt_signer rt with Some sg => _ | None => _ end) as [envelopes signed].
  cbn. split_and!; [by intros _|done|]. intros _. split; [|done]. intros ->. exfalso.
  unfold onBlock, block_action in Eb. destruct (negb cataloged); [|destruct (ve_Frozen ve); [|destruct (ve_Hidden ve); [|destruct (_ =? RevetHide)%string]]];
    try destruct (hide _ _ _ _ _ _) as [[? ?] [?|]]; destruct (write_event _ _ _ _); done.
Qed.

Lemma Add_ok s o : outcome_ok o -> summary_ok s -> summary_ok (Add s o).
Proof.
  unfold outcome_ok, summary_ok, Add. cbn. intros Ho [H1 H2].
  destruct (String.eqb_spec (ro_Action o) RevetHidden) as [Eh|Eh], (String.eqb_spec (ro_Action o) RevetFrozen) as [Ef|Ef].
  - rewrite Eh in Ef. done.
  - destruct (Ho (or_introl Eh)) as [-> ->]. rewrite String.eqb_refl. cbn. lia.
  - destruct (Ho (or_intror Ef)) as [-> ->]. rewrite String.eqb_refl. cbn. lia.
  - destruct (ro_Error o =? "")%string, (Blocked_outcome o); cbn; lia.
Qed.

(** A sweep re-vets its targets in order, as many as the context lives for; its
    summary counts each outcome once, as admitted, refused or failed, and counts
    as hidden or frozen only what was refused. *)
Theorem Sweep_counts rt trigger targets ans st :
  let '(st', sum, os) := Sweep_ rt trigger targets ans no_summary st in
  map ro_Target os = take (length ans) targets /\ rs_Walked sum = Z.of_nat (length os) /\ summary_ok sum.
Proof.
  assert (H : forall sum st, summary_ok sum -> let '(st', sum', os) := Sweep_ rt trigger targets ans sum st in
    map ro_Target os = take (length ans) targets /\ rs_Walked sum' = rs_Walked sum + Z.of_nat (length os) /\ summary_ok sum').
  { revert ans. induction targets as [|tg targets IH]; intros [|an ans] sum st0 Hs; cbn [Sweep]; try (split_and!; [done|cbn; lia|done]).
    pose proof (One_outcome rt an tg trigger st0) as (Ho & Htg & _). destruct (One_ rt an tg trigger st0) as [st1 o]. cbn [snd] in *.
    specialize (IH ans (Add sum o) st1 (Add_ok _ _ Ho Hs)). destruct (Sweep_ _ _ _ _ _ _) as [[st2 sum2] os].
    destruct IH as (H1 & H2 & H3). split_and!; [cbn; by rewrite Htg, H1| |done]. rewrite H2. cbn [Add rs_Walked length]. lia. }
  apply (H no_summary st). by split.
Qed.

(** ** The verdict *)

Lemma admitPast_status ev pm i c c' : admitPast rfc3339 ev pm i c = Some c' -> ac_Status c' <> CheckBlock.
Proof.
  unfold admitPast, overrideCheck, BaselineCheck. destruct (ac_Status c =? CheckBlock)%string; cbn [negb orb].
  - destruct (overrideFor ev pm i (ac_Check c)) as [o|]; [by intros [= <-]|].
    destruct (pm_Versions pm !! i) as [ve|]; [|done]. destruct (negb (ve_Baseline ve)); [done|by intros [= <-]].
  - by destruct (pm_Versions pm !! i).
Qed.

(** A failed allow-list check stands unless an override or the version's
    baseline mark lets it past. *)
Definition check_stands (ev : evaluation) (pm : PackageManifest) (c : AdmissionCheck) : bool :=
  (ac_Status c =? CheckBlock)%string && negb (waived ev pm 0 (ac_Check c)).

Lemma past_or_stands ev ev' pm c : ev_overrides ev' = ev_overrides ev ->
  (ac_Status (default c (admitPast rfc3339 ev' pm 0 c)) =? CheckBlock)%string = check_stands ev pm c.
Proof.
  intros Ho. unfold check_stands. assert (Hw : waived ev' pm 0 (ac_Check c) = waived ev pm 0 (ac_Check c)) by (unfold waived, overrideFor; by rewrite Ho).
  destruct (String.eqb_spec (ac_Status c) CheckBlock) as [E|E].
  - pose proof (admitPast_waived rfc3339 ev' pm 0 c E) as Hp. rewrite Hw in Hp. rewrite <- Hp.
    destruct (admitPast _ _ _ _ _) as [c'|] eqn:Ep; cbn [default isSome negb andb from_option id].
    + apply String.eqb_neq. by eapply admitPast_status.
    + by apply String.eqb_eq.
  - cbn [andb]. destruct (admitPast _ _ _ _ _) as [c'|] eqn:Ep; cbn; apply String.eqb_neq; [by eapply admitPast_status|done].
Qed.

Lemma Blocked_app a b : Blocked (Combine (a ++ b)) = Blocked (Combine a) || Blocked (Combine b).
Proof. by rewrite !Blocked_spec, existsb_app. Qed.

Lemma carriedAge_action prev a b : carriedAge rfc3339 prev a = None <-> carriedAge rfc3339 prev b = None.
Proof. unfold carriedAge. destruct prev as [|p prev]; [done|]. by destruct (carried_from _ _ _) as [[]|]. Qed.

Lemma age_step rt ev cp prev action :
  let '(ev', results) := match carriedAge rfc3339 prev action with
                         | None => runVersion rfc3339 ev cp 0 [rt_age rt]
                         | Some age => (ev_set (Some 0%nat) age ev, [])
                         end in
  ev_overrides ev' = ev_overrides ev
  /\ Blocked (Combine results) = bool_decide (carriedAge rfc3339 prev "" = None) && refused_at ev cp [rt_age rt] 0.
Proof.
  destruct (carriedAge rfc3339 prev action) as [age|] eqn:E.
  - split; [done|]. rewrite bool_decide_eq_false_2; [done|]. intros H%(carriedAge_action prev "" action). congruence.
  - rewrite bool_decide_eq_true_2 by by apply (carriedAge_action prev action "").
    pose proof (runVersion_blocked rfc3339 ev cp 0 [rt_age rt]) as Hb. destruct (runVersion_results rfc3339 ev cp 0 [rt_age rt]) as [_ Ho].
    by destruct (runVersion _ _ _ _ _).
Qed.

(** C7: What a re-vet decides.  An object whose key names no version is refused
    exactly when the allow-list's answer on it stands.  A version is refused when
    that answer stands, when a check's block stands, and, where the newest
    decision left the age failing or excepted, when the age gate's does; and,
    if no checker writes at commit, only then. *)
Theorem judge_decides rt tg pm ve cataloged prev :
  let cp := set_Versions [ve] pm in
  let ev := newEvaluation (Some (rt_reads rt cp)) cp in
  let listed := check_stands ev cp
    (allowList UnescapePath rfc3339nano CacheOrigin allow_message (rt_Allow rt) (rt_stores rt) cp ve cataloged prev).1 in
  let checked := refused_at ev cp (rt_checkers rt) 0 in
  let aged := bool_decide (carriedAge rfc3339 prev "" = None) && refused_at ev cp [rt_age rt] 0 in
  let blocked := (judge_ rt tg pm ve cataloged prev).1.2 in
  if negb (tg_ObjectKey tg =? "")%string then blocked = listed
  else (listed || checked || aged = true -> blocked = true)
       /\ (Forall (fun c => vc_Commit c = []) (rt_checkers rt) -> blocked = listed || checked || aged).
Proof.
  cbv zeta. unfold judge. set (cp := set_Versions [ve] pm). set (ev0 := newEvaluation _ cp).
  destruct (allowList _ _ _ _ _ _ _ _ _ _) as [allow notes]. cbn [fst].
  rewrite (past_or_stands ev0 (include cp (rt_checkers rt) ev0)) by apply ev_overrides_include.
  set (ev1 := ev_set _ _ _). assert (Ho1 : ev_overrides ev1 = ev_overrides ev0) by (unfold ev1; cbn; apply ev_overrides_include).
  destruct (tg_ObjectKey tg =? "")%string; cbn [negb]; [|done].
  pose proof (age_step rt ev1 cp prev (map_get (ev_actions ev1) CheckAge)) as Ha.
  destruct (match carriedAge rfc3339 prev _ with Some _ => _ | None => _ end) as [ev2 ageResults]. destruct Ha as [Ho2 Ha].
  rewrite (refused_at_overrides ev0 ev1 cp [rt_age rt] 0 Ho1) in Ha.
  destruct (check_stands ev0 cp allow); cbn [orb]; [done|].
  pose proof (runVersion_blocked rfc3339 ev2 cp 0 (rt_checkers rt)) as Hb.
  destruct (runVersion rfc3339 ev2 cp 0 (rt_checkers rt)) as [ev3 results]. cbn [snd] in Hb. fold (refused_at ev2 cp (rt_checkers rt) 0) in Hb.
  rewrite (refused_at_overrides ev0 ev2) in Hb by congruence.
  assert (Hc : Blocked (Combine (ageResults ++ results)) = refused_at ev0 cp (rt_checkers rt) 0
     || bool_decide (carriedAge rfc3339 prev "" = None) && refused_at ev0 cp [rt_age rt] 0).
  { by rewrite Blocked_app, Ha, Hb, orb_comm. }
  rewrite <- Hc. destruct (Blocked (Combine (ageResults ++ results))) eqn:E; cbn [negb]; [done|].
  split; [done|]. intros Hn. rewrite (commit_nothing rfc3339 ev3 cp (rt_checkers rt) Hn).
  change (default [] (repeat [] (length (pm_Versions cp)) !! 0%nat)) with (@nil Result).
  change (replaceResults (ageResults ++ results) []) with (ageResults ++ results). by rewrite E.
Qed.

(** ** What is recorded *)

Lemma newest_decision_in v rows out x : x ∈ newest_decision v rows out -> x ∈ out \/ x ∈ rows.
Proof.
  revert out. induction rows as [|row rows IH]; intros out; cbn [newest_decision]; [by left|].
  destruct (negb _); [intros [|]%IH; [by left|right; by right]|].
  destruct out as [|first out]; [intros [->%list_elem_of_singleton|]%IH; right; [by left|by right]|].
  case_bool_decide; [|by left]. intros [Hx|]%IH; [|right; by right]. apply elem_of_app in Hx as [| ->%list_elem_of_singleton]; [by left|right; by left].
Qed.

Lemma newest_decision_head v rows x out : exists rest, newest_decision v rows (x :: out) = x :: rest.
Proof.
  revert out. induction rows as [|row rows IH]; intros out; cbn [newest_decision]; [by exists out|].
  destruct (negb _); [apply IH|]. case_bool_decide; [|by exists out]. apply (IH (out ++ [row])).
Qed.

Lemma keys_of_in prev keys k : k ∈ keys_of prev keys -> k ∈ keys \/ exists p, p ∈ prev /\ ad_ObjectKey p = k.
Proof.
  revert keys. induction prev as [|p prev IH]; intros keys; cbn [keys_of]; [by left|].
  intros [H|(q & Hq & <-)]%IH; [|right; exists q; split; [by right|done]].
  destruct (_ && _); [|by left]. apply elem_of_app in H as [H| ->%list_elem_of_singleton]; [by left|right; exists p; split; [by left|done]].
Qed.

(** Every key a re-vet of an object writes under is the object's. *)
Lemma row_keys_object ok db tg prev : previous ok db tg = inl prev \/ prev = [] -> tg_ObjectKey tg <> "" ->
  Forall (fun k => k = tg_ObjectKey tg) (row_keys tg prev).
Proof.
  intros Hp Hk. unfold row_keys. destruct (Nat.eqb_spec (length (keys_of prev [])) 0) as [|_]; [by apply Forall_singleton|].
  apply Forall_forall. intros k [Hnil|(p & Hin & <-)]%keys_of_in; [by apply elem_of_nil in Hnil|]. destruct Hp as [Hp| ->]; [|by apply elem_of_nil in Hin].
  unfold previous in Hp. destruct (db_sink db) as [t|]; [|done]. destruct ok; [|done]. injection Hp as <-.
  apply newest_decision_in in Hin as [Hnil|Hin]; [by apply elem_of_nil in Hnil|].
  match type of Hin with p ∈ QueryAdmissions ?f t => destruct (QueryAdmissions_newest f t) as (rows & E & _ & Hm & _) end.
  rewrite E in Hin. apply list_elem_of_In, in_map_iff in Hin as (r & <- & Hr%list_elem_of_In). rewrite Forall_forall in Hm.
  apply Hm in Hr as [_ Hr]. unfold row_matches in Hr. rewrite !andb_true_iff in Hr. destruct Hr as [[_ Hr] _].
  unfold key_matches in Hr. cbn [af_ObjectKey] in Hr. rewrite (proj2 (String.eqb_neq _ _) Hk) in Hr. cbn in Hr.
  cbn. destruct (rw_key r); [by apply String.eqb_eq|done].
Qed.

Lemma row_keys_some tg prev : row_keys tg prev <> [].
Proof. unfold row_keys. destruct (Nat.eqb_spec (length (keys_of prev [])) 0) as [|H]; [done|]. by intros E; rewrite E in H. Qed.

(** The rows written later than any other are what the next read of the newest
    decision finds. *)
Lemma previous_new t t' new now tg db :
  db_sink db = Queryable t' -> tb_rows t' = tb_rows t ++ new -> new <> [] ->
  (forall r, r ∈ tb_rows t -> rw_decided r < sqliteDecidedAt now) ->
  Forall (fun r => rw_PkgType r = tg_Type tg /\ rw_PkgName r = tg_Name tg /\ rw_PkgVersion r = tg_Version tg
                   /\ key_matches (tg_ObjectKey tg) (rw_key r) = true /\ rw_decided r = sqliteDecidedAt now) new ->
  exists r rest, r ∈ new /\ previous true db tg = inl (scan r :: rest).
Proof.
  intros Hdb Hrows Hne Hold Hnew. unfold previous. rewrite Hdb. cbn [negb].
  set (f := MkFilter _ _ _ _ _ _). destruct (QueryAdmissions_newest f t') as (rows & E & Hs & Hm & Hall). rewrite E.
  destruct new as [|r0 new]; [done|]. clear Hne.
  assert (Hmatch : row_matches f r0 = true).
  { apply Forall_cons in Hnew as [(H1 & H2 & H3 & H4 & _) _]. unfold row_matches, f, field_matches. cbn.
    rewrite H1, H2, H3, H4, !String.eqb_refl, !orb_true_r. done. }
  assert (Hin : r0 ∈ tb_rows t') by (rewrite Hrows; apply elem_of_app; right; by left).
  assert (Hhead : exists h rest, rows = h :: rest /\ row_cmp h r0 <= 0).
  { destruct rows as [|h rows].
    - exfalso. assert (Hf : r0 ∈ newest_first (List.filter (row_matches f) (tb_rows t'))) by (rewrite newest_first_perm; by apply filter_elem).
      unfold QueryAdmissions in E. destruct (newest_first _); [by apply elem_of_nil in Hf|].
      change (Z.to_nat (effectiveLimit (af_Limit f))) with 200%nat in E. done.
    - exists h, rows. split; [done|]. destruct (Hall r0 Hin Hmatch) as [Hr0|Hr0]; [|rewrite Forall_forall in Hr0; apply Hr0; by left].
      apply elem_of_cons in Hr0 as [->|Hr0]; [by rewrite (cmp_refl row_cmp)|].
      apply StronglySorted_inv in Hs as [_ Hs]. rewrite Forall_forall in Hs. by apply Hs. }
  destruct Hhead as (h & rest & -> & Hh).
  assert (Hhn : h ∈ r0 :: new).
  { rewrite Forall_forall in Hm. destruct (Hm h ltac:(by left)) as [Hhin _]. rewrite Hrows in Hhin. apply elem_of_app in Hhin as [Hhin|]; [exfalso|done].
    apply Hold in Hhin. apply Forall_cons in Hnew as [(_ & _ & _ & _ & Hd) _].
    unfold row_cmp, lex, desc, on_key, then_cmp in Hh. rewrite Hd in Hh. pose proof (compareInt_le (sqliteDecidedAt now) (rw_decided h)) as Hc.
    destruct (Z.eqb_spec (compareInt (sqliteDecidedAt now) (rw_decided h)) 0); lia. }
  rewrite Forall_forall in Hnew. destruct (Hnew h Hhn) as (_ & _ & Hv & _). cbn [map newest_decision scan ad_PkgVersion].
  rewrite Hv, String.eqb_refl. cbn [negb]. destruct (newest_decision_head (tg_Version tg) (map scan rest) (scan h) []) as [rest' ->].
  by exists h, rest'.
Qed.

(** A re-vet is remembered.  Over a table that takes its rows, at a time later
    than any recorded, a re-vet that reaches a decision adds rows of that
    decision and changes no row there was, and what the next re-vet of the
    version reads as the newest decision is this one, with its checks. *)
Theorem One_remembered rt an tg trigger st t :
  db_readOnly (rv_db st) = false -> db_sink (rv_db st) = Queryable t ->
  (forall r, r ∈ tb_rows t -> rw_decided r < sqliteDecidedAt (an_now an)) -> (forall k, an_record an k = true) ->
  (forall ok pm, (GetPackage ok (rv_store st) (tg_Type tg) (tg_Name tg)).2 = inl (Some pm) -> pm_Type pm = tg_Type tg /\ pm_Name pm = tg_Name tg) ->
  let '(st', o) := One_ rt an tg trigger st in
  ro_Error o = "" ->
  exists t' new, db_sink (rv_db st') = Queryable t' /\ tb_rows t' = tb_rows t ++ new
    /\ Forall (fun r => rw_Decision r = ro_Decision o
                        /\ List.filter (fun c => (ac_Status c =? CheckBlock)%string) (rw_Checks r) = ro_Failing o) new
    /\ exists r rest, r ∈ new /\ previous true (rv_db st') tg = inl (scan r :: rest).
Proof.
  intros Hro Hsink Hold Hrec Hnames. unfold One. pose proof (lookup_spec an tg st) as Hl.
  destruct (lookup an tg st) as [st1 [[[pm ve] cataloged]|err]]; destruct Hl as (Hdb & Hst & Hj); [|done].
  destruct (match previous (an_query an) (rv_db st1) tg with inl prev => (prev, []) | inr err => ([], [_]) end) as [prev notes] eqn:Ep.
  assert (Hprev : previous (an_query an) (rv_db st1) tg = inl prev \/ prev = []).
  { destruct (previous _ _ _) as [prev'|err]; injection Ep as <- <-; [by left|by right]. }
  destruct (judge_ rt tg pm ve cataloged prev) as [[ev blocked] noted]. set (decision := if blocked then _ else _).
  set (row := row ev (set_Versions [ve] pm) 0 decision (MkWho RevetActor trigger)).
  assert (Hv : ValidAdmissionDecision (ad_Decision row) = true) by (unfold row, decision; cbn; by destruct blocked).
  rewrite <- Hdb in Hro, Hsink.
  pose proof (write_rows_spec (an_principal an) (an_record an) (an_now an) row (row_keys tg prev) (rv_db st1) t Hv Hro Hsink) as Hw.
  destruct (write_rows _ _ _ _ _ _) as [[db rows] written]. destruct Hw as (_ & t' & new & Ht' & Hrows & Hnew & Hkeys & _).
  assert (Hend : forall st2 o, rv_db st2 = db -> ro_Decision o = decision ->
    ro_Failing o = List.filter (fun c => (ac_Status c =? CheckBlock)%string) (ad_Checks row) ->
    exists t' new, db_sink (rv_db st2) = Queryable t' /\ tb_rows t' = tb_rows t ++ new
    /\ Forall (fun r => rw_Decision r = ro_Decision o
                        /\ List.filter (fun c => (ac_Status c =? CheckBlock)%string) (rw_Checks r) = ro_Failing o) new
    /\ exists r rest, r ∈ new /\ previous true (rv_db st2) tg = inl (scan r :: rest)).
  { intros st2 o -> -> ->. exists t', new. split_and!; [done|done| |].
    { eapply Forall_impl; [exact Hnew|]. intros r (_ & _ & _ & -> & -> & _). done. }
    apply (previous_new t t' new (an_now an) tg db Ht' Hrows); [|done|].
    { intros ->. destruct (row_keys tg prev) as [|k keys] eqn:Ek; [by eapply row_keys_some|]. cbn in Hkeys. by rewrite Hrec in Hkeys. }
    assert (Hident : ad_PkgType row = tg_Type tg /\ ad_PkgName row = tg_Name tg /\ ad_PkgVersion row = tg_Version tg).
    { destruct Hj as [Hve Hj]. unfold row. cbn. split_and!; [| |done]; destruct cataloged; try (by destruct Hj as [-> _]);
        destruct Hj as (_ & (ok & Hg) & _); by apply Hnames in Hg as []. }
    destruct Hident as (I1 & I2 & I3). apply Forall_forall. intros r Hr. pose proof Hr as Hk.
    rewrite Forall_forall in Hnew. destruct (Hnew r Hr) as (-> & -> & -> & _ & _ & Hd). split_and!; [done|done|done| |done].
    unfold key_matches. destruct (String.eqb_spec (tg_ObjectKey tg) "") as [|Hne]; [done|]. cbn [orb].
    pose proof (row_keys_object _ _ _ _ Hprev Hne) as Hobj. apply list_elem_of_In, (in_map rw_key) in Hk. rewrite Hkeys in Hk.
    apply in_map_iff in Hk as (k & Ek & (Hk & _)%filter_In). rewrite Forall_forall in Hobj. rewrite (Hobj k) in Ek by by apply list_elem_of_In.
    unfold nullKey in Ek. rewrite (proj2 (String.eqb_neq _ _) Hne) in Ek. rewrite <- Ek. apply String.eqb_refl. }
  destruct blocked.
  - pose proof (onBlock_spec (rt_OnBlock rt) an tg ve cataloged (set_db db st1)) as Hb. cbn [rv_store set_db] in Hb.
    destruct (onBlock _ _ _ _ _ _ _) as [[st2 action] acted]. destruct (match rt_signer rt with Some sg => _ | None => _ end) as [envelopes signed].
    intros _. apply Hend; [|done|done]. by destruct Hb as [Hb _].
  - destruct (match rt_signer rt with Some sg => _ | None => _ end) as [envelopes signed]. intros _. by apply Hend.
Qed.
End one_facts.

(** ** The targets *)

Section target_facts.
Context (load_ok : string -> string -> bool) (query_ok listed_ok : bool) (db : DB) (f : RevetFilter) (now : Z).
Context (Hold : rf_OlderThan f <= 0) (Hname : rf_Name f = "") (Hversion : rf_Version f = "").

Lemma GetPackage_stored ok s s' typ name found : agree s -> GetPackage ok s typ name = (s', inl found) ->
  found = st_files s !! manifestPath typ (CanonicalName typ name).
Proof.
  intros Hs. unfold GetPackage. rewrite manifestPath_key. fold (key_path (packageKey typ (CanonicalName typ name))).
  destruct (st_packages s !! _) as [pm|] eqn:Ec; [intros [= _ <-]; by rewrite (ag_cache _ Hs _ _ Ec)|].
  destruct ok; [|done]. cbn. by destruct (st_files s !! _); intros [= _ <-].
Qed.

Definition catalog_entry (typ name : string) (s : Store) : list VersionEntry * string :=
  match st_files s !! manifestPath typ (CanonicalName typ name) with Some pm => (pm_Versions pm, pm_Name pm) | None => ([], "") end.

Definition entry_keys (s : Store) (p : string * string) : list (string * string * string) :=
  map (fun ve => (p.1, p.2, admissionVersion ve)) (catalog_entry p.1 p.2 s).1.

Definition entry_targets (s : Store) (p : string * string) : list RevetTarget :=
  map (fun ve => MkTarget p.1 (catalog_entry p.1 p.2 s).2 (admissionVersion ve) "") (catalog_entry p.1 p.2 s).1.

Lemma old_enough_all tg : old_enough query_ok db f now tg = inl true.
Proof. unfold old_enough. by rewrite (proj2 (Z.leb_le _ _) Hold). Qed.

Lemma walk_entries_all typ name pmName vs cataloged out :
  walk_entries query_ok db f now typ name pmName vs cataloged out
  = inl (cataloged ++ map (fun ve => (typ, name, admissionVersion ve)) vs, out ++ map (fun ve => MkTarget typ pmName (admissionVersion ve) "") vs).
Proof.
  revert cataloged out. induction vs as [|ve vs IH]; intros cataloged out; cbn [walk_entries map]; [by rewrite !List.app_nil_r|].
  rewrite Hversion, String.eqb_refl, old_enough_all. cbn [negb andb]. rewrite IH. by rewrite <- !List.app_assoc.
Qed.

Lemma walk_packages_all packages s cataloged out : agree s ->
  match walk_packages load_ok query_ok db f now packages s cataloged out with
  | (s', inl (cataloged', out')) =>
      agree s' /\ st_files s' = st_files s
      /\ cataloged' = cataloged ++ concat (map (entry_keys s) packages) /\ out' = out ++ concat (map (entry_targets s) packages)
  | (_, inr _) => True
  end.
Proof.
  revert s cataloged out. induction packages as [|[typ name] packages IH]; intros s cataloged out Hs; cbn [walk_packages].
  { by rewrite !List.app_nil_r. }
  unfold want. rewrite Hname, String.eqb_refl. cbn [negb andb map concat].
  pose proof (GetPackage_agree (load_ok typ name) s typ name Hs) as Hs1. pose proof (GetPackage_files (load_ok typ name) s typ name) as Hf.
  destruct (GetPackage (load_ok typ name) s typ name) as [s1 [found|err]] eqn:Eg; [|done]. cbn [fst] in Hs1, Hf.
  apply GetPackage_stored in Eg; [|done].
  assert (Hk : entry_keys s (typ, name) = map (fun ve => (typ, name, admissionVersion ve)) (match found with Some pm => pm_Versions pm | None => [] end)
    /\ entry_targets s (typ, name) = match found with Some pm => map (fun ve => MkTarget typ (pm_Name pm) (admissionVersion ve) "") (pm_Versions pm) | None => [] end).
  { unfold entry_keys, entry_targets, catalog_entry. cbn [fst snd]. rewrite <- Eg. by destruct found. }
  destruct Hk as [-> ->].
  assert (Hsame : forall p, entry_keys s1 p = entry_keys s p /\ entry_targets s1 p = entry_targets s p).
  { intros p. unfold entry_keys, entry_targets, catalog_entry. by rewrite Hf. }
  assert (Hmap : map (entry_keys s1) packages = map (entry_keys s) packages /\ map (entry_targets s1) packages = map (entry_targets s) packages)
    by (split; apply map_ext; intros p; apply Hsame).
  destruct Hmap as [Hm1 Hm2].
  destruct found as [pm|].
  - rewrite walk_entries_all. match goal with |- context [walk_packages _ _ _ _ _ _ _ ?c ?o] => specialize (IH s1 c o Hs1) end.
    destruct (walk_packages _ _ _ _ _ _ _ _ _) as [s2 [[c o]|]]; [|done]. destruct IH as (H1 & H2 & -> & ->).
    rewrite Hm1, Hm2, <- !List.app_assoc. split_and!; [done|congruence|done|done].
  - specialize (IH s1 cataloged out Hs1). destruct (walk_packages _ _ _ _ _ _ _ _ _) as [s2 [[c o]|]]; [|done]. destruct IH as (H1 & H2 & -> & ->).
    rewrite Hm1, Hm2. split_and!; [done|congruence|done|done].
Qed.

Definition pin_target_of (a : AdmissionPin) : RevetTarget := MkTarget (pn_PkgType a) (pn_PkgName a) (pn_PkgVersion a) (pn_ObjectKey a).

Lemma walk_admitted_all cataloged admitted out objects :
  exists out', walk_admitted query_ok db f now cataloged admitted out objects = inl out'
    /\ forall tg, tg ∈ out' <-> tg ∈ out \/ tg ∈ objects
         \/ exists a, a ∈ admitted /\ tg = pin_target_of a /\ (pn_PkgType a, SafeName (pn_PkgName a), pn_PkgVersion a) ∉ cataloged.
Proof.
  revert out objects. induction admitted as [|a admitted IH]; intros out objects; cbn [walk_admitted].
  { eexists. split; [done|]. intros tg. rewrite elem_of_app. split; [intros [|]; [by left|right; by left]|].
    intros [|[|(a & H & _)]]; [by left|by right|by apply elem_of_nil in H]. }
  unfold want at 1. rewrite Hname, String.eqb_refl. cbn [negb andb orb].
  assert (Hup : forall tg, (exists a0, a0 ∈ a :: admitted /\ tg = pin_target_of a0 /\ (pn_PkgType a0, SafeName (pn_PkgName a0), pn_PkgVersion a0) ∉ cataloged)
     <-> (tg = pin_target_of a /\ (pn_PkgType a, SafeName (pn_PkgName a), pn_PkgVersion a) ∉ cataloged)
         \/ exists a0, a0 ∈ admitted /\ tg = pin_target_of a0 /\ (pn_PkgType a0, SafeName (pn_PkgName a0), pn_PkgVersion a0) ∉ cataloged).
  { intros tg. split.
    - intros (a0 & [->|Ha]%elem_of_cons & H); [by left|right; by exists a0].
    - intros [H|(a0 & Ha & H)]; [exists a; split; [by left|done]|exists a0; split; [by right|done]]. }
  setoid_rewrite Hup. case_bool_decide as Ec.
  { destruct (IH out objects) as (out' & E & H). exists out'. split; [done|]. intros tg. rewrite H. naive_solver. }
  rewrite old_enough_all. fold (pin_target_of a). destruct (tg_ObjectKey (pin_target_of a) =? "")%string; cbn [negb].
  - destruct (IH (out ++ [pin_target_of a]) objects) as (out' & E & H). exists out'. split; [done|]. intros tg.
    rewrite H, elem_of_app, list_elem_of_singleton. naive_solver.
  - destruct (IH out (objects ++ [pin_target_of a])) as (out' & E & H). exists out'. split; [done|]. intros tg.
    rewrite H, elem_of_app, list_elem_of_singleton. naive_solver.
Qed.

(** A version a catalog entry of a listed package has. *)
Definition cataloged_as (s : Store) (types : list string) (typ name version : string) (pm : PackageManifest) : Prop :=
  (typ, name) ∈ packages_of types s /\ st_files s !! manifestPath typ (CanonicalName typ name) = Some pm
  /\ exists ve, ve ∈ pm_Versions pm /\ admissionVersion ve = version.

(** Nothing that is served escapes a re-vet.  With no filter but a type, the
    targets are the versions of the listed packages and, beside them, every
    version and every unversioned object the admissions table says was admitted
    or pinned, save a version the catalog has under that name. *)
Theorem Targets_all s s' t out :
  agree s -> db_sink db = Queryable t -> listed_ok = true ->
  Targets load_ok query_ok listed_ok db f now s = (s', inl out) ->
  let types := if (rf_Type f =? "")%string then AllTypes else [rf_Type f] in
  forall tg, tg ∈ out <->
    (exists name pm, cataloged_as s types (tg_Type tg) name (tg_Version tg) pm /\ tg_Name tg = pm_Name pm /\ tg_ObjectKey tg = "")
    \/ exists a, served (MkFilter (rf_Type f) "" "" "" None 0) t a /\ tg = pin_target_of a
         /\ ~ exists pm, cataloged_as s types (pn_PkgType a) (SafeName (pn_PkgName a)) (pn_PkgVersion a) pm.
Proof.
  intros Hs Hdb Hlisted. unfold Targets. destruct (negb _ && negb _); [done|]. rewrite Hdb, andb_false_r. cbv zeta.
  set (types := if (rf_Type f =? "")%string then AllTypes else [rf_Type f]).
  pose proof (walk_packages_all (packages_of types s) s [] [] Hs) as Hw.
  destruct (walk_packages _ _ _ _ _ _ _ _ _) as [s1 [[cataloged out0]|]]; [|done]. destruct Hw as (_ & _ & -> & ->). cbn [app].
  unfold admitted_versions. rewrite Hdb, Hlisted, Hversion, Hname, String.eqb_refl. cbn [negb orb].
  destruct (walk_admitted_all (concat (map (entry_keys s) (packages_of types s))) (admittedVersions (MkFilter (rf_Type f) "" "" "" None 0) t)
    (concat (map (entry_targets s) (packages_of types s))) []) as (out' & -> & Hout).
  rewrite andb_false_r. intros [= _ <-] tg. rewrite Hout. destruct (admittedVersions_lists (MkFilter (rf_Type f) "" "" "" None 0) t) as (_ & _ & Hsv).
  assert (Hkeys : forall typ name v, (typ, name, v) ∈ concat (map (entry_keys s) (packages_of types s)) <-> exists pm, cataloged_as s types typ name v pm).
  { intros typ name v. rewrite list_elem_of_In, in_concat. setoid_rewrite in_map_iff. unfold cataloged_as, entry_keys, catalog_entry. split.
    - intros (l & ([typ0 name0] & <- & Hp%list_elem_of_In) & Hin). cbn [fst snd] in Hin. apply in_map_iff in Hin as (ve & [= <- <- <-] & Hve).
      destruct (st_files s !! _) as [pm|] eqn:E; [|done]. exists pm. split_and!; [done|done|]. exists ve. by rewrite list_elem_of_In.
    - intros (pm & Hp & E & ve & Hve & <-). eexists. split; [exists (typ, name); split; [done|by apply list_elem_of_In]|]. cbn [fst snd]. rewrite E.
      apply in_map_iff. exists ve. by rewrite <- list_elem_of_In. }
  setoid_rewrite Hkeys. setoid_rewrite Hsv.
  assert (Htargets : tg ∈ concat (map (entry_targets s) (packages_of types s)) <->
    exists name pm, cataloged_as s types (tg_Type tg) name (tg_Version tg) pm /\ tg_Name tg = pm_Name pm /\ tg_ObjectKey tg = "").
  { rewrite list_elem_of_In, in_concat. setoid_rewrite in_map_iff. unfold cataloged_as, entry_targets, catalog_entry. split.
    - intros (l & ([typ0 name0] & <- & Hp%list_elem_of_In) & Hin). cbn [fst snd] in Hin. apply in_map_iff in Hin as (ve & <- & Hve).
      destruct (st_files s !! _) as [pm|] eqn:E; [|done]. exists name0, pm. cbn. split_and!; [done|done| |done|done]. exists ve. by rewrite list_elem_of_In.
    - intros (name & pm & (Hp & E & ve & Hve & Hv) & Hn & Hk). eexists. split; [exists (tg_Type tg, name); split; [done|by apply list_elem_of_In]|].
      cbn [fst snd]. rewrite E. cbn [fst snd]. apply in_map_iff. exists ve. rewrite <- list_elem_of_In. split; [|done]. destruct tg. cbn in *. congruence. }
  rewrite Htargets. split; [intros [|[Hnil|]]; [by left|by apply elem_of_nil in Hnil|by right]|intros [|]; [by left|right; by right]].
Qed.
End target_facts.

(** ** Concrete runs *)

Definition all_ok (principal : option (string * string)) : answers :=
  MkAnswers true true true principal (fun _ => true) true true Done true (fun s => s) (fun _ => None) 5000.

Definition deny_url (url : string) (typ : string) : AllowChecker :=
  MkAllow true (fun candidate => if (candidate =? url)%string then Violation typ candidate else Permitted).
Definition unread (_ : string) : AllowChecker := MkAllow true (fun candidate => LoadFailed LoadPolicies).

Definition passing : VersionChecker := MkChecker (fun _ _ => MkResult CheckOSV ActionPass "" ∅ None None) None None [].

Definition revetter (allow : string -> AllowChecker) : Revetter :=
  MkRevetter (Some allow) RevetHide [passing] passing None None (fun _ => demo_reads) None None.

Definition arch (url : string) (frozen : bool) : VersionEntry :=
  MkVersionEntry "8.5" url "proxy" "" "" "" "" "" "" "" "" [] [] false "" "" "" [] None false "" None
    false 0 [] ∅ "" "" frozen false "" "" "" ∅.

Definition curl (vs : list VersionEntry) : PackageManifest := MkPackageManifest 1 "curl" TypeApt "" "" "" [] vs.
Definition curl_store (vs : list VersionEntry) : Store := (run no_bad_glob (OpSave Done (curl vs)) empty_store).1.
Definition curl_state (vs : list VersionEntry) : revet_state := MkRevetState (curl_store vs) (MkAuditDB false (Queryable empty_table)) [].
Definition curl_target : RevetTarget := MkTarget TypeApt "curl" "8.5" "".

Definition demo_one (allow : string -> AllowChecker) (an : answers) (vs : list VersionEntry) : revet_state * RevetOutcome :=
  One (fun _ => None) no_bad_glob (fun _ => "") (fun _ => "") (fun _ => "refused") (fun _ _ => inl "") (revetter allow) an curl_target "schedule" (curl_state vs).

(** Two architectures of one apt version are two entries and one target, listed
    twice; each run judges the first, so what is refused of the second alone is
    never found. *)
Example second_architecture :
  (demo_one (deny_url "http://arm") (all_ok None) [arch "http://amd" false; arch "http://arm" false]).2.(ro_Decision) = AdmissionAdmitted
  /\ (demo_one (deny_url "http://arm") (all_ok None) [arch "http://arm" false; arch "http://amd" false]).2.(ro_Decision) = AdmissionPolicyBlocked
  /\ (Targets (fun _ _ => true) true true (MkAuditDB false (Queryable empty_table)) (MkRevetFilter "" "" "" 0) 0
       (curl_store [arch "http://amd" false; arch "http://arm" false])).2 = inl [curl_target; curl_target].
Proof. split_and!; by vm_compute. Qed.

(** A hide that meets a frozen entry after it hid another is reported as not
    done, with the entry hidden in the cached manifest and shown in the stored
    one. *)
Example half_hidden :
  let '(st, o) := demo_one (deny_url "http://amd") (all_ok None) [arch "http://amd" false; arch "http://arm" true] in
  ro_Action o = RevetReported /\ ro_Notes o = ["not hidden: the version was frozen while the re-vet ran"]
  /\ map ve_Hidden (default [] (option_map pm_Versions (st_packages (rv_store st) !! "apt/curl"))) = [true; false]
  /\ map ve_Hidden (default [] (option_map pm_Versions (st_files (rv_store st) !! "apt/curl/manifest.json"))) = [false; false].
Proof. vm_compute. by split_and!. Qed.

(** An allow-list that cannot be read refuses, and hides, what it permitted. *)
Example unread_hides : (demo_one unread (all_ok None) [arch "http://amd" false]).2.(ro_Action) = RevetHidden.
Proof. by vm_compute. Qed.

(** A principal the context carries is the actor of the stored row. *)
Example principal_is_actor :
  match db_sink (rv_db (demo_one (deny_url "") (all_ok (Some ("alice", "idp"))) [arch "http://amd" false]).1) with
  | Queryable t => map rw_Actor (tb_rows t)
  | WriteOnly _ => []
  end = ["alice"].
Proof. by vm_compute. Qed.

Lemma curl_agrees vs : validate_saved no_bad_glob (curl vs) = None -> agree (curl_store vs).
Proof.
  intros Hv. apply (run_agree no_bad_glob (OpSave Done (curl vs)) empty_store).
  - split; intros ? ?; cbn; by rewrite lookup_empty.
  - unfold curl_store. cbn [run]. unfold SavePackage. rewrite Hv. done.
Qed.

Definition hidden_run := demo_one (deny_url "http://amd") (all_ok None) [arch "http://amd" false].

Lemma One_touches_witness :
  ro_Action hidden_run.2 = RevetHidden
  /\ hides no_bad_glob curl_target (at_hide (all_ok None) curl_target (curl_state [arch "http://amd" false])) (rv_store hidden_run.1).
Proof.
  pose proof (One_touches (fun _ => None) no_bad_glob (fun _ => "") (fun _ => "") (fun _ => "refused") (fun _ _ => inl "")
    (revetter (deny_url "http://amd")) (all_ok None) curl_target "schedule" (curl_state [arch "http://amd" false])) as H.
  fold (demo_one (deny_url "http://amd") (all_ok None) [arch "http://amd" false]) in H. fold hidden_run in H.
  assert (Ha : ro_Action hidden_run.2 = RevetHidden) by (vm_compute; reflexivity).
  destruct hidden_run as [st o]. cbn [fst snd] in *. rewrite Ha in H. change (RevetHidden =? RevetHidden)%string with true in H.
  destruct H as [(_ & _ & _ & H) _]. by split.
Defined.

Lemma One_remembered_witness :
  exists r rest, previous true (rv_db hidden_run.1) curl_target = inl (scan r :: rest).
Proof.
  pose proof (One_remembered (fun _ => None) no_bad_glob (fun _ => "") (fun _ => "") (fun _ => "refused") (fun _ _ => inl "")
    (revetter (deny_url "http://amd")) (all_ok None) curl_target "schedule" (curl_state [arch "http://amd" false]) empty_table
    eq_refl eq_refl ltac:(by intros r ?%elem_of_nil) ltac:(done)) as H.
  fold (demo_one (deny_url "http://amd") (all_ok None) [arch "http://amd" false]) in H. fold hidden_run in H.
  assert (Ha : ro_Error hidden_run.2 = "") by (vm_compute; reflexivity).
  destruct hidden_run as [st o]. cbn [fst snd] in *. destruct H as (t' & new & _ & _ & _ & r & rest & _ & H); [|done|by exists r, rest].
  intros ok pm. by destruct ok; vm_compute; intros [= <-].
Defined.

Lemma Targets_all_witness : curl_target ∈ [curl_target].
Proof.
  pose proof (Targets_all (fun _ _ => true) true true (MkAuditDB false (Queryable empty_table)) (MkRevetFilter "" "" "" 0) 0 ltac:(done) eq_refl eq_refl
    (curl_store [arch "http://amd" false]) (curl_store [arch "http://amd" false]) empty_table [curl_target]
    (curl_agrees [arch "http://amd" false] eq_refl) eq_refl eq_refl) as H.
  assert (Ht : Targets (fun _ _ => true) true true (MkAuditDB false (Queryable empty_table)) (MkRevetFilter "" "" "" 0) 0
    (curl_store [arch "http://amd" false]) = (curl_store [arch "http://amd" false], inl [curl_target])) by (vm_compute; reflexivity).
  apply (proj2 (H Ht curl_target)). left. exists "curl", (curl [arch "http://amd" false]). split; [|by split]. unfold cataloged_as.
  split; [apply list_elem_of_In; vm_compute; tauto|]. split; [by vm_compute|]. exists (arch "http://amd" false). split; [by left|done].
Defined.
