(* ===== verification/BinaryRoute.v ===== *)
(** The /binaries/ route from the storage tree: handleBinary in
    internal/server/binary.go with the path checks and the backend choice of
    internal/server/{apt,git,server}.go.

    What the manifest store answers for a package is an argument, and so is the
    entitlement gate.  The copy from a binary upstream and the transfer of the
    bytes from a backend are not modelled: an answer names what they are called
    with. *)

From stdpp Require Import base list gmap strings.
From Stdlib Require Import ZArith Lia Ascii.
From S2P Require Import Prelude GoStrings GoURL Types Keys BinaryLinks Store Placement.

Definition isSafePath (p : string) : bool :=
  negb (Contains p "..") && negb (Contains p "%2e" || Contains p "%2E") && negb (p =? "")%string.

Definition splitNamespace (p : string) : option (string * string) :=
  if HasPrefix p "/" || negb (isSafePath p) then None
  else
    let '(namespace, rest) := cut_or_whole "/" p in
    if (namespace =? "")%string || (namespace =? ".")%string then None
    else if existsb (fun el => (el =? ".")%string) (Split "/" rest) then None
    else Some (namespace, rest).

(** What the handler answers: a status, or the backend, the key and the
    recorded digest [serveArtifact] is called with. *)
Inductive answer {ObjectStore : Type} :=
| BadRequest
| Upstream (namespace rest : string)
| NoNamespace (namespace : string)
| Unavailable
| NotFound
| Refused
| BackendError
| Artifact (store : ObjectStore) (key digest : string).
#[global] Arguments answer : clear implicits.

Section route.
Context {ObjectStore : Type}.
Variable HMAC : string -> string -> string.
Variable EscapePath : string -> option string.

(** [stores] is nil when no backend came up; [lookup] is the package a name
    reads, [entitled] the gate's verdict on the client. *)
Variable stores : option (@Resolver ObjectStore).
Variable lookup : string -> option PackageManifest.
Variable entitled : string -> string -> bool.
Variable BinaryUpstreams : gset string.
Variable pepper : string.

(** [None] is the unknown backend. *)
Definition versionStore (r : @Resolver ObjectStore) (typ pkg version : string) : option ObjectStore :=
  if (pkg =? "")%string then Some (ForTypeStore r typ)
  else
    match lookup pkg with
    | None => Some (ForTypeStore r typ)
    | Some pm =>
        match List.find (answers_version version) (pm_Versions pm) with
        | Some ve => ByName r (ve_Storage ve)
        | None => Some (ForTypeStore r typ)
        end
    end.

Definition entryDigest (pkg version key : string) : string :=
  if (pkg =? "")%string then ""
  else
    match lookup pkg with
    | None => ""
    | Some pm =>
        match List.find (answers_version version) (pm_Versions pm) with
        | None => ""
        | Some ve =>
            if (ve_ArtifactDigest ve =? "")%string then ""
            else
              match ArtifactKeys EscapePath (Some pm) ve with
              | inl [k] => if (k =? key)%string then ve_ArtifactDigest ve else ""
              | _ => ""
              end
        end
    end.

Definition proxyVersion (r : @Resolver ObjectStore) (typ pkg version key : string) : answer ObjectStore :=
  match versionStore r typ pkg version with
  | None => BackendError
  | Some store => Artifact store key (entryDigest pkg version key)
  end.

Definition hostsBinary (p : string) : bool :=
  let pkg := (BinaryPathIdentity p).1.1 in
  if (pkg =? "")%string then false
  else match lookup pkg with Some pm => (pm_Name pm =? pkg)%string | None => false end.

(** What follows the namespace check. *)
Definition serve_binary (r : @Resolver ObjectStore) (p : string) : answer ObjectStore :=
  let '(pkg, version, filename) := BinaryPathIdentity p in
  if (pkg =? "")%string then NotFound
  else if negb (entitled pkg version) then Refused
  else
    match BinaryStoredFilename HMAC pepper (lookup pkg) version filename with
    | None => NotFound
    | Some (filename, entry) =>
        let key := BinaryKey pkg version filename in
        match entry with
        | None => proxyVersion r TypeBinary pkg version key
        | Some ve =>
            match ByName r (ve_Storage ve) with
            | None => BackendError
            | Some store => Artifact store key ""
            end
        end
    end.

Definition from_storage (p : string) : answer ObjectStore :=
  match stores with None => Unavailable | Some r => serve_binary r p end.

Definition handleBinary (p : string) : answer ObjectStore :=
  if negb (isSafePath p) then BadRequest
  else
    match splitNamespace p with
    | Some (ns, rest) =>
        if decide (BinaryUpstreams = ∅) then from_storage p
        else if decide (ns ∈ BinaryUpstreams) then Upstream ns rest
        else if negb (hostsBinary p) then NoNamespace ns
        else from_storage p
    | None => from_storage p
    end.
End route.

(** * Lemmas *)

Lemma isSafePath_plain p : p <> "" -> Contains p ".." = false -> no_byte "%" p = true -> isSafePath p = true.
Proof.
  intros Hp Hd Hn. unfold isSafePath. rewrite Hd, !Contains_no_byte by done.
  by rewrite (proj2 (String.eqb_neq p "") Hp).
Qed.

(** Two dots in a row do not straddle a slash. *)
Lemma Contains_slash a b : Contains (a +:+ "/" +:+ b) ".." = Contains a ".." || Contains b "..".
Proof.
  induction a as [|x a IH]; [by rewrite app_nil_l, app_cons, Contains_dots_cons|].
  rewrite app_cons, !Contains_dots_cons, IH, orb_assoc. f_equal. f_equal. f_equal.
  by destruct a.
Qed.

Lemma ByName_normalize {ObjectStore} (r : @Resolver ObjectStore) name :
  ByName r (normalizeStorageName name) = ByName r name.
Proof. unfold normalizeStorageName. by destruct (String.eqb_spec name "default") as [->|]; destruct r. Qed.

Lemma list_find_List_find {A} (f : A -> bool) (l : list A) :
  List.find f l = snd <$> list_find (fun x => f x) l.
Proof.
  induction l as [|x l IH]; [done|]. cbn [List.find list_find]. destruct (decide (f x)) as [H|H].
  - by rewrite (Is_true_true_1 _ H).
  - apply Is_true_false_1 in H. rewrite H, IH. by destruct (list_find _ l) as [[]|].
Qed.

Lemma alias_path_safe name version tag display :
  all_bytes alias_byte name = true -> name <> "" -> Contains name ".." = false ->
  all_bytes alias_byte version = true -> Contains version ".." = false ->
  all_bytes is_alnum tag = true -> all_bytes alias_byte display = true -> Contains display ".." = false ->
  isSafePath (binaryVersionPath name version (BinaryAliasDir +:+ "/" +:+ tag +:+ "/" +:+ display)) = true.
Proof.
  intros Hn Hne Hnd Hv Hvd Ht Hd Hdd.
  assert (Htd : Contains tag ".." = false) by (apply Contains_no_byte; by apply (all_bytes_no_byte is_alnum)).
  assert (Hp : forall s, all_bytes alias_byte s = true -> no_byte "%" s = true).
  { intros s. by apply all_bytes_no_byte. }
  assert (Htp : no_byte "%" tag = true) by by apply (all_bytes_no_byte is_alnum).
  unfold binaryVersionPath. apply isSafePath_plain.
  - destruct name; [done|]. by destruct (version =? "")%string.
  - destruct (version =? "")%string; rewrite !Contains_slash, Hnd, ?Hvd, Htd, Hdd; done.
  - destruct (version =? "")%string; rewrite !no_byte_app, (Hp name Hn), ?(Hp version Hv), (Hp display Hd), Htp; done.
Qed.

Section reached.
Context {ObjectStore : Type}.
Variable HMAC : string -> string -> string.
Variable EscapePath : string -> option string.
Variable r : @Resolver ObjectStore.
Variable lookup : string -> option PackageManifest.
Variable entitled : string -> string -> bool.
Variable BinaryUpstreams : gset string.

#[local] Abbreviation handle := (handleBinary HMAC EscapePath (Some r) lookup entitled BinaryUpstreams).
#[local] Abbreviation serve := (serve_binary HMAC EscapePath lookup entitled).

(** The namespaces do not take a hosted package's path. *)
Lemma handleBinary_hosted pepper p pm version filename :
  isSafePath p = true -> BinaryPathIdentity p = (pm_Name pm, version, filename) -> pm_Name pm <> "" ->
  lookup (pm_Name pm) = Some pm -> pm_Name pm ∉ BinaryUpstreams ->
  handle pepper p = serve pepper r p.
Proof.
  intros Hs Hp Hne Hl Hu. unfold handleBinary. rewrite Hs. cbn [negb].
  destruct (splitNamespace p) as [[ns rest]|] eqn:E; [|done].
  assert (ns = pm_Name pm) as ->.
  { pose proof (BinaryPathIdentity_first p) as Hf. rewrite Hp in Hf. cbn [fst] in Hf. rewrite Hf by done.
    unfold splitNamespace in E. destruct (_ || _); [done|]. destruct (cut_or_whole "/" p) as [a b].
    destruct (_ || _); [done|]. destruct (existsb _ _); [done|]. by injection E as <- _. }
  destruct (decide (BinaryUpstreams = ∅)); [done|]. rewrite decide_False by done.
  unfold hostsBinary. rewrite Hp. cbn [fst]. by rewrite (proj2 (String.eqb_neq _ _) Hne), Hl, String.eqb_refl.
Qed.
End reached.

(** * Properties *)

(** The alias the read API publishes for a binary entry is answered from
    the backend the entry records, under the entry's own key, whatever order
    the manifest lists its entries in: the request a client composes from the
    link goes through the path check, the namespaces and the gate to the
    entry's object, or says that its backend is not configured. *)
Theorem handleBinary_alias {ObjectStore} HMAC EscapePath (r : @Resolver ObjectStore) lookup entitled upstreams
    key pm i ve typeBackend :
  (forall k m, String.length (HMAC k m) = 32%nat) ->
  key <> "" -> pm_Versions pm !! i = Some ve ->
  all_bytes alias_byte (pm_Name pm) = true -> pm_Name pm <> "" -> Contains (pm_Name pm) ".." = false ->
  all_bytes alias_byte (ve_Version ve) = true -> Contains (ve_Version ve) ".." = false ->
  (forall e, e ∈ pm_Versions pm ->
     ValidateBinaryFilename (ve_Filename e) = None /\ no_byte "000" (ve_Storage e) = true) ->
  tags_separate HMAC key pm ->
  lookup (pm_Name pm) = Some pm -> pm_Name pm ∉ upstreams -> entitled (pm_Name pm) (ve_Version ve) = true ->
  exists path,
    BinaryLinkName HMAC key pm typeBackend i = Some (path, true) /\
    handleBinary HMAC EscapePath (Some r) lookup entitled upstreams key path
    = match ByName r (ve_Storage ve) with
      | Some store => Artifact store (BinaryKey (pm_Name pm) (ve_Version ve) (binaryStoredName ve)) ""
      | None => BackendError
      end.
Proof.
  intros HL Hk Hi Hn Hne Hnd Hv Hvd Hok Hsep Hl Hu He.
  destruct (binaryAliasTag_ok HMAC HL key pm ve) as [Hta _]. pose proof (alnum_no_slash _ Hta) as Ht.
  destruct (alias_display_plain ve) as (Hd & Hdd & _).
  destruct (alias_resolves HMAC HL key pm ve) as (e & Hr & _ & _ & Hst & _); eauto using list_elem_of_lookup_2.
  eexists. unfold BinaryLinkName. rewrite Hi. cbv beta iota delta [mbind option_bind].
  rewrite (proj2 (String.eqb_neq key "") Hk). split; [reflexivity|].
  pose proof (BinaryPathIdentity_alias (pm_Name pm) (ve_Version ve) (binaryAliasTag HMAC key pm ve)
    (alias_display ve) ltac:(by apply alias_byte_no_slash) ltac:(by apply alias_byte_no_slash) Ht
    ltac:(by apply alias_byte_no_slash)) as Hp. cbv zeta in Hp.
  rewrite (handleBinary_hosted _ _ _ _ _ _ _ _ pm (ve_Version ve) (binaryAliasName HMAC key pm ve)); try done.
  - unfold serve_binary, binaryAliasName at 1. rewrite Hp. rewrite (proj2 (String.eqb_neq _ _) Hne), He, Hl.
    cbn [negb]. unfold binaryAliasName in Hr. rewrite Hr.
    rewrite <- (ByName_normalize r (ve_Storage e)), <- (ByName_normalize r (ve_Storage ve)).
    fold (binaryStorageName e) (binaryStorageName ve). by rewrite Hst.
  - by apply alias_path_safe.
Qed.

Definition no_modules (m : string) : option string := Some m.

Lemma tool_tags_separate : tags_separate length_mac "k" tool.
Proof.
  intros a b Ha Hb. unfold tool in Ha, Hb. cbn [pm_Versions] in Ha, Hb.
  rewrite !elem_of_cons, elem_of_nil in Ha, Hb.
  destruct Ha as [->|[->|[->|[]]]], Hb as [->|[->|[->|[]]]]; vm_compute; intros H; reflexivity || discriminate H.
Qed.

Lemma tool_valid e :
  e ∈ pm_Versions tool -> ValidateBinaryFilename (ve_Filename e) = None /\ no_byte "000" (ve_Storage e) = true.
Proof.
  unfold tool. cbn [pm_Versions]. rewrite !elem_of_cons, elem_of_nil.
  intros [->|[->|[->|[]]]]; split; vm_compute; reflexivity.
Qed.

(** Two stores, the default and "other"; every package reads as [tool]. *)
Definition two_stores : @Resolver string :=
  multi {[ "default" := "D"; "other" := "O" ]} "D" ∅ ∅ ["default"; "other"].

Lemma handleBinary_alias_witness :
  exists path,
    BinaryLinkName length_mac "k" tool "" 1 = Some (path, true) /\
    handleBinary length_mac no_modules (Some two_stores) (fun _ => Some tool) (fun _ _ => true) ∅ "k" path
    = Artifact "O" "binaries/tool/1.0/a..b" "".
Proof.
  apply (handleBinary_alias length_mac no_modules two_stores (fun _ => Some tool) (fun _ _ => true) ∅
           "k" tool 1 (binary_entry "1.0" "" "a..b" "other") ""); try reflexivity.
  - discriminate.
  - discriminate.
  - exact tool_valid.
  - exact tool_tags_separate.
  - apply not_elem_of_empty.
Defined.

(** A stored-name link is handed out only when the route serves that path
    from the entry's own object on the entry's own backend: the producer of
    the link and the handler of the request cannot disagree. *)
Theorem handleBinary_literal {ObjectStore} HMAC EscapePath (r : @Resolver ObjectStore) lookup entitled upstreams
    pepper pm i ve typeBackend path :
  pm_Versions pm !! i = Some ve ->
  BinaryLinkName HMAC "" pm typeBackend i = Some (path, true) ->
  ByName r typeBackend = Some (ForTypeStore r TypeBinary) ->
  lookup (pm_Name pm) = Some pm -> pm_Name pm ∉ upstreams ->
  (forall version, entitled (pm_Name pm) version = true) ->
  exists digest,
    handleBinary HMAC EscapePath (Some r) lookup entitled upstreams pepper path
    = match ByName r (ve_Storage ve) with
      | Some store => Artifact store (BinaryKey (pm_Name pm) (ve_Version ve) (binaryStoredName ve)) digest
      | None => BackendError
      end.
Proof.
  intros Hi Hlink Htb Hl Hu He. unfold BinaryLinkName in Hlink. rewrite Hi in Hlink.
  cbv beta iota delta [mbind option_bind] in Hlink. injection Hlink as Hlink.
  apply binaryLiteralPath_ok in Hlink as (version & filename & Hs & Hp & Hne & Ha & Hk & Hb).
  apply literal_spelling_inv in Hs as [Hd Hn].
  assert (Hpath : path <> "") by (intros ->; cbn in Hp; congruence).
  rewrite (handleBinary_hosted _ _ _ _ _ _ _ _ pm version filename); try done; [|by apply isSafePath_plain].
  unfold serve_binary. rewrite Hp, (proj2 (String.eqb_neq _ _) Hne), He. cbn [negb].
  unfold BinaryStoredFilename. unfold IsBinaryAlias, HasPrefix in Ha.
  destruct (cut_prefix filename (BinaryAliasDir +:+ "/")); [done|].
  rewrite Hk. unfold proxyVersion, versionStore. rewrite (proj2 (String.eqb_neq _ _) Hne), Hl.
  rewrite list_find_List_find. rewrite <- (ByName_normalize r (ve_Storage ve)). fold (binaryStorageName ve).
  destruct (list_find _ (pm_Versions pm)) as [[j other]|] eqn:Ef; cbn [fmap option_fmap option_map snd].
  - assert (Hst : ByName r (ve_Storage other) = ByName r (binaryStorageName ve)).
    { rewrite <- (ByName_normalize r (ve_Storage other)). fold (binaryStorageName other).
      destruct Hb as [Hb|Hb]; rewrite ?Hb; [subst j|done]. apply list_find_Some in Ef as (Ef & _). congruence. }
    rewrite Hst. by destruct (ByName r (binaryStorageName ve)); eexists.
  - rewrite <- Hb, ByName_normalize, Htb. by eexists.
Qed.

Definition plain_tool : PackageManifest :=
  MkPackageManifest 1 "tool" TypeBinary "" "" "" []
    [binary_entry "1.0" "" "a.zip" "other"; binary_entry "1.0" "" "b.zip" ""].

Lemma handleBinary_literal_witness :
  exists digest,
    handleBinary length_mac no_modules (Some two_stores) (fun _ => Some plain_tool) (fun _ _ => true) ∅ "" "tool/1.0/a.zip"
    = Artifact "O" "binaries/tool/1.0/a.zip" digest.
Proof.
  apply (handleBinary_literal length_mac no_modules two_stores (fun _ => Some plain_tool) (fun _ _ => true) ∅
           "" plain_tool 0 (binary_entry "1.0" "" "a.zip" "other") ""); try reflexivity.
  apply not_elem_of_empty.
Defined.
