(* ===== verification/Entitle.v ===== *)
(** Host profiles: the predicate of internal/entitle/entitle.go over the rows
    of internal/audit/profile.go.

    A nil profile is [None].  SHA-256 in [Fingerprint] is a parameter, and so
    is the order a map is ranged over in [CoversMavenGroup].  [%q] keeps bytes
    above 127 as they are, which is what Go does with printable text. *)

From stdpp Require Import base list gmap strings sorting.
From Stdlib Require Import ZArith Lia Ascii.
From S2P Require Import Prelude GoStrings GoSort Regexp Types MavenLayout OciKeys Composer BuilderSemver.

(** ** Rows *)

Definition MembershipClosed := "closed".
Definition MembershipOpen := "open".
Definition VersionPinned := "pinned".
Definition VersionFloating := "floating".
Definition ExpansionWarn := "warn".
Definition ExpansionBlock := "block".
Definition ExpansionIgnore := "ignore".

Definition ExpansionOrDefault (e : string) : string := if (e =? "")%string then ExpansionWarn else e.

Record ProfileTypeRule := MkRule {
  pt_Profile : string;
  pt_Type : string;
  pt_Membership : string;
  pt_VersionDefault : string;
  pt_Expansion : string;
  pt_AptBase : string;
  pt_AptArchives : list string;
  pt_Actor : string;
  pt_UpdatedAt : Z
}.

Definition zero_rule : ProfileTypeRule := MkRule "" "" "" "" "" "" [] "" 0.

Record ProfileEntry := MkEntry {
  pe_Profile : string;
  pe_Type : string;
  pe_Name : string;
  pe_Constraint : string;
  pe_Version : string;
  pe_Origin : string;
  pe_Reason : string;
  pe_ReviewAfter : string;
  pe_Actor : string;
  pe_CreatedAt : Z;
  pe_PinnedAt : Z;
  pe_PinnedBy : string
}.

Definition Pinned (e : ProfileEntry) : bool :=
  (pe_Constraint e =? ConstraintExact)%string && negb (pe_Version e =? "")%string.

(** A row of the profiles table. *)
Record ProfileRow := MkProfileRow { pr_Name : string; pr_Description : string; pr_Actor : string; pr_CreatedAt : Z }.

Record ProfileDetail := MkDetail {
  pd_Profile : ProfileRow;
  pd_Types : list ProfileTypeRule;
  pd_Entries : list ProfileEntry
}.

(** Of the profile's row, the predicate reads the name. *)
Definition pd_Name (d : ProfileDetail) : string := pr_Name (pd_Profile d).

(** ** The resolved profile *)

Definition RefusalMembership := "membership".
Definition RefusalConstraint := "constraint".

Record Decision := MkDecision {
  d_Permitted : bool;
  d_Governed : bool;
  d_Reason : string;
  d_Refusal : string;
  d_Outside : bool;
  d_Rule : option ProfileTypeRule;
  d_Entry : option ProfileEntry
}.

Definition Reportable (d : Decision) : bool :=
  d_Outside d && match d_Rule d with
                 | Some r => negb (pt_Expansion r =? ExpansionIgnore)%string
                 | None => false
                 end.

Record Profile := MkProfile {
  p_name : string;
  p_types : gmap string ProfileTypeRule;
  p_entries : gmap string (gmap string ProfileEntry)
}.

Definition Key (typ name : string) : string := CanonicalName typ name.

Definition add_rule (m : gmap string ProfileTypeRule) (r : ProfileTypeRule) : gmap string ProfileTypeRule :=
  <[pt_Type r := r]> m.

Definition add_entry (m : gmap string (gmap string ProfileEntry)) (e : ProfileEntry)
  : gmap string (gmap string ProfileEntry) :=
  <[pe_Type e := <[Key (pe_Type e) (pe_Name e) := e]> (default ∅ (m !! pe_Type e))]> m.

(** The last row of a key is the one kept. *)
Definition New (d : option ProfileDetail) : option Profile :=
  match d with
  | None => None
  | Some d => Some (MkProfile (pd_Name d) (fold_left add_rule (pd_Types d) ∅)
                      (fold_left add_entry (pd_Entries d) ∅))
  end.

(** [p.entries[typ]], the nil map when there is none. *)
Definition entries_of (p : Profile) (typ : string) : gmap string ProfileEntry :=
  default ∅ (p_entries p !! typ).

(** The base, and why there is none where the profile names one. *)
Definition AptScope (p : option Profile) : string * string :=
  match p with
  | None => ("", "")
  | Some p =>
      match p_types p !! TypeApt with
      | None => ("", "")
      | Some r =>
          if (pt_AptBase r =? "")%string then ("", "")
          else if negb (pt_Membership r =? MembershipClosed)%string then
            ("", "its apt membership is " +:+ pt_Membership r
                 +:+ ", which admits every package the archive publishes")
          else if negb (pt_Expansion r =? ExpansionBlock)%string then
            ("", "its apt expansion is " +:+ ExpansionOrDefault (pt_Expansion r)
                 +:+ ", which permits a package the profile does not list, so the filtered index would carry every upstream paragraph")
          else (pt_AptBase r, "")
      end
  end.

Definition AptArchives (p : option Profile) : list string :=
  match p with
  | None => []
  | Some p => pt_AptArchives (default zero_rule (p_types p !! TypeApt))
  end.


(** Each field ends with a NUL byte. *)
Definition nul_fields (fields : list string) : string := concat_string (map (fun f => f +:+ nul) fields).

Definition entry_fields (ke : string * ProfileEntry) : list string :=
  [ke.1; pe_Constraint ke.2; pe_Version ke.2].

(** [sort.Strings] on the keys of the type's entries. *)
Definition sorted_entries (p : Profile) (typ : string) : list (string * ProfileEntry) :=
  SliceStable (fun a b => Compare a.1 b.1 <? 0) (map_to_list (entries_of p typ)).

Definition fingerprint_fields (p : Profile) (typ : string) : list string :=
  let r := default zero_rule (p_types p !! typ) in
  [p_name p; pt_Type r; pt_Membership r; pt_VersionDefault r; pt_Expansion r]
  ++ concat (map entry_fields (sorted_entries p typ)).

(** What is written to the hash. *)
Definition fingerprint_text (p : Profile) (typ : string) : string := nul_fields (fingerprint_fields p typ).

Section hash.
Context (sha256hex : string -> string).

Definition Fingerprint (p : option Profile) (typ : string) : string :=
  match p with
  | None => ""
  | Some p => sha256hex (fingerprint_text p typ)
  end.
End hash.

Definition Governs (p : option Profile) (typ : string) : bool :=
  match p with None => false | Some p => isSome (p_types p !! typ) end.

Definition Lists (p : option Profile) (typ : string) : bool :=
  match p with None => false | Some p => (0 <? size (entries_of p typ))%nat end.

Definition Excludes (p : option Profile) (typ : string) : string :=
  match p with
  | None => ""
  | Some pr =>
      match p_types pr !! typ with
      | None => ""
      | Some r =>
          if negb (pt_Membership r =? MembershipClosed)%string
             || negb (pt_Expansion r =? ExpansionBlock)%string
             || (0 <? size (entries_of pr typ))%nat then ""
          else "profile " +:+ Quote (p_name pr) +:+ " is closed for " +:+ typ +:+ ", lists no " +:+ typ
               +:+ " package and blocks the rest, so every " +:+ typ +:+ " fetch is refused"
      end
  end.

Definition entry (p : Profile) (typ name : string) : option ProfileEntry :=
  match entries_of p typ !! Key typ name with
  | Some e => Some e
  | None =>
      let wide :=
        if (typ =? TypeMaven)%string then MavenGroupEntry name
        else if (typ =? TypeComposer)%string then ComposerVendorEntry name
        else if (typ =? TypeOCI)%string then OCINamespaceEntry name
        else None in
      match wide with
      | Some w => entries_of p typ !! w
      | None => None
      end
  end.

Definition Covers (p : option Profile) (typ name : string) : Decision :=
  match p with
  | None => MkDecision true false "no profile is bound to this host" "" false None None
  | Some p =>
      match p_types p !! typ with
      | None =>
          MkDecision true false ("profile " +:+ Quote (p_name p) +:+ " states no rule for " +:+ typ)
            "" false None None
      | Some rule =>
          if isSome (entry p typ name) || negb (pt_Membership rule =? MembershipClosed)%string
          then MkDecision true true "" "" false (Some rule) None
          else if (pt_Expansion rule =? ExpansionBlock)%string then
            MkDecision false true
              ("profile " +:+ Quote (p_name p) +:+ " is closed for " +:+ typ +:+ " and does not list " +:+ name)
              RefusalMembership true (Some rule) None
          else if (pt_Expansion rule =? ExpansionIgnore)%string then
            MkDecision true true
              ("profile " +:+ Quote (p_name p) +:+ " is closed for " +:+ typ
               +:+ " and ignores packages it does not list") "" true (Some rule) None
          else
            MkDecision true true
              ("profile " +:+ Quote (p_name p) +:+ " is closed for " +:+ typ +:+ " and does not list "
               +:+ name +:+ ", permitted because " +:+ typ +:+ " expansion is " +:+ ExpansionWarn)
              "" true (Some rule) None
      end
  end.

(** [keys]: the order the entries are ranged over. *)
Definition CoversMavenGroup (keys : list string) (p : option Profile) (group : string) : Decision :=
  let wide := Covers p TypeMaven (group +:+ ":" +:+ MavenGroupWildcard) in
  match p with
  | None => wide
  | Some _ =>
      match List.find (fun k => HasPrefix k (group +:+ ":")) keys with
      | Some k => Covers p TypeMaven k
      | None => wide
      end
  end.

Definition versionRule (rule : ProfileTypeRule) (e : option ProfileEntry) : string * string :=
  let deferred :=
    if (pt_VersionDefault rule =? VersionFloating)%string then (ConstraintAny, "")
    else match e with
         | Some e => if negb (pe_Version e =? "")%string then (ConstraintExact, pe_Version e)
                     else (VersionPinned, "")
         | None => (VersionPinned, "")
         end in
  match e with
  | Some e => if negb (pe_Constraint e =? "")%string then (pe_Constraint e, pe_Version e) else deferred
  | None => deferred
  end.

Definition matches (typ kind base version : string) : bool * string :=
  if (kind =? ConstraintAny)%string then (true, "any version")
  else if slice_contains [ConstraintExact; ""] kind then
    let equal :=
      if (typ =? TypeComposer)%string
      then (ComposerNormalizeVersion version =? ComposerNormalizeVersion base)%string
      else (version =? base)%string in
    (equal, "pinned to " +:+ base)
  else if slice_contains [ConstraintCompatible; ConstraintPatch] kind then
    if negb (isSome (ParseSemVer base)) then
      (false, "constraint " +:+ kind +:+ " needs a semantic version to compare against and "
              +:+ Quote base +:+ " is not one")
    else if negb (isSome (ParseSemVer version)) then
      (false, "constraint " +:+ kind +:+ " cannot place " +:+ Quote version
              +:+ ", which is not a semantic version")
    else if (length (FilterVersions [version] kind base) =? 1)%nat then (true, kind +:+ " " +:+ base)
    else (false, "outside " +:+ kind +:+ " " +:+ base)
  else (false, "unknown constraint " +:+ Quote kind).

Definition Permits (p : option Profile) (typ name version : string) : Decision :=
  let d := Covers p typ name in
  match p with
  | None => d
  | Some pr =>
      if negb (d_Permitted d) || negb (d_Governed d) || d_Outside d then d
      else
        let rule := default zero_rule (d_Rule d) in
        let e := entry pr typ name in
        let '(kind, base) := versionRule rule e in
        if (kind =? VersionPinned)%string then
          MkDecision false true
            ("profile " +:+ Quote (p_name pr) +:+ " pins every " +:+ typ +:+ " version and names none for " +:+ name)
            RefusalConstraint false (d_Rule d) None
        else
          let '(ok, reason) := matches typ kind base version in
          if ok then
            MkDecision true true
              ("profile " +:+ Quote (p_name pr) +:+ " permits " +:+ typ +:+ "/" +:+ name +:+ " at "
               +:+ version +:+ " (" +:+ reason +:+ ")") "" false (d_Rule d) e
          else
            MkDecision false true
              ("profile " +:+ Quote (p_name pr) +:+ " does not permit " +:+ typ +:+ "/" +:+ name +:+ " at "
               +:+ version +:+ ": " +:+ reason) RefusalConstraint false (d_Rule d) e
  end.

Definition PermitsOneOf (p : option Profile) (typ name : string) (candidates : list string)
  : Decision * string :=
  let d := Covers p typ name in
  match p with
  | None => (d, "")
  | Some pr =>
      if negb (d_Permitted d) || negb (d_Governed d) || d_Outside d then (d, "")
      else
        match List.find (fun v => d_Permitted (Permits p typ name v)) candidates with
        | Some v => (Permits p typ name v, v)
        | None =>
            match candidates with
            | v :: _ => (Permits p typ name v, v)
            | [] =>
                let e := entry pr typ name in
                let '(kind, base) := versionRule (default zero_rule (d_Rule d)) e in
                if (kind =? ConstraintAny)%string then
                  (MkDecision true true
                     ("profile " +:+ Quote (p_name pr) +:+ " permits " +:+ typ +:+ "/" +:+ name
                      +:+ " at any version") "" false (d_Rule d) None, "")
                else
                  let held :=
                    if (kind =? VersionPinned)%string then "pinned, with no version named for it"
                    else if (kind =? ConstraintExact)%string then "pinned to " +:+ base
                    else kind +:+ " " +:+ base in
                  (MkDecision false true
                     ("profile " +:+ Quote (p_name pr) +:+ " does not permit " +:+ typ +:+ "/" +:+ name
                      +:+ " without a version to compare: " +:+ held)
                     RefusalConstraint false (d_Rule d) e, "")
            end
        end
  end.

Definition demo_detail : ProfileDetail :=
  MkDetail (MkProfileRow "web" "" "" 0)
    [MkRule "web" TypePypi MembershipClosed VersionPinned ExpansionBlock "" [] "" 0;
     MkRule "web" TypeMaven MembershipClosed VersionFloating ExpansionWarn "" [] "" 0;
     MkRule "web" TypeApt MembershipClosed VersionPinned ExpansionBlock "noble" [] "" 0]
    [MkEntry "web" TypePypi "django" "" "4.2.11" "" "" "" "" 0 0 "";
     MkEntry "web" TypePypi "requests" ConstraintCompatible "2.0" "" "" "" "" 0 0 "";
     MkEntry "web" TypeMaven "org.acme:*" "" "" "" "" "" "" 0 0 ""].

Example Permits_ex :
  map (fun '(t, n, v) => d_Permitted (Permits (New (Some demo_detail)) t n v))
    [(TypePypi, "Django", "4.2.11"); (TypePypi, "Django", "4.2.12"); (TypePypi, "requests", "2.31.0");
     (TypePypi, "flask", "1.0"); (TypeMaven, "org.acme:widget", "1"); (TypeMaven, "com.other:x", "1");
     (TypeNpm, "left-pad", "1.0.0")]
  = [true; false; true; false; true; true; true].
Proof. vm_compute. reflexivity. Qed.

(** ** The version rule *)

Definition same_version (typ a b : string) : Prop :=
  if (typ =? TypeComposer)%string then ComposerNormalizeVersion a = ComposerNormalizeVersion b else a = b.

(** At or above the base, within what [same] fixes. *)
Definition within (same : SemVer -> SemVer -> Prop) (base version : string) : Prop :=
  exists sv b, ParseSemVer version = Some sv /\ ParseSemVer base = Some b /\ same sv b /\ 0 <= semver_cmp sv b.

(** What a constraint admits. *)
Definition constraint_admits (typ kind base version : string) : Prop :=
  kind = ConstraintAny
  \/ ((kind = ConstraintExact \/ kind = "") /\ same_version typ version base)
  \/ (kind = ConstraintCompatible /\ within (fun sv b => Major sv = Major b) base version)
  \/ (kind = ConstraintPatch /\ within (fun sv b => Major sv = Major b /\ Minor sv = Minor b) base version).

Lemma filter_one c base version :
  (length (FilterVersions [version] c base) =? 1)%nat = true <->
  exists sv, ParseSemVer version = Some sv /\ keeps c (ParseSemVer base) sv = true.
Proof.
  rewrite Nat.eqb_eq. unfold FilterVersions. rewrite length_map, SliceStable_perm. cbn [omap list_omap].
  destruct (ParseSemVer version) as [sv|]; cbn [List.filter].
  - destruct (keeps c (ParseSemVer base) sv) eqn:E; cbn [length]; split; try done.
    + intros _. by exists sv.
    + intros (? & [= <-] & H). congruence.
  - split; [done|]. by intros (? & ? & _).
Qed.

Lemma filter_within c base version (same : SemVer -> SemVer -> Prop) :
  (forall b sv, keeps c (Some b) sv = true <-> same sv b /\ 0 <= semver_cmp sv b) ->
  (forall sv, keeps c None sv = false) ->
  (length (FilterVersions [version] c base) =? 1)%nat = true <-> within same base version.
Proof.
  intros Hs Hn. rewrite filter_one. unfold within. split.
  - intros (sv & Hv & (b & Hb & H)%(keeps_base _ _ _ (fun sv b => same sv b /\ 0 <= semver_cmp sv b)));
      [by exists sv, b|naive_solver..].
  - intros (sv & b & Hv & Hb & H). exists sv. split; [done|].
    apply (keeps_base _ _ _ (fun sv b => same sv b /\ 0 <= semver_cmp sv b)); [naive_solver|done|by exists b].
Qed.

Lemma within_parses same base version :
  within same base version -> isSome (ParseSemVer base) = true /\ isSome (ParseSemVer version) = true.
Proof. by intros (sv & b & -> & -> & _). Qed.

Lemma matches_placed typ kind base version (P : Prop) :
  kind = ConstraintCompatible \/ kind = ConstraintPatch ->
  ((length (FilterVersions [version] kind base) =? 1)%nat = true <-> P) ->
  (P -> isSome (ParseSemVer base) = true /\ isSome (ParseSemVer version) = true) ->
  (matches typ kind base version).1 = true <-> P.
Proof.
  intros Hk H1 H2. unfold matches.
  replace (kind =? ConstraintAny)%string with false by (by destruct Hk as [->| ->]).
  replace (slice_contains [ConstraintExact; ""] kind) with false by (by destruct Hk as [->| ->]).
  replace (slice_contains [ConstraintCompatible; ConstraintPatch] kind) with true by (by destruct Hk as [->| ->]).
  destruct (isSome (ParseSemVer base)); [|naive_solver].
  destruct (isSome (ParseSemVer version)); [|naive_solver].
  destruct (length _ =? 1)%nat; cbn [negb fst]; naive_solver.
Qed.

Lemma matches_equal typ kind base version :
  kind = ConstraintExact \/ kind = "" ->
  (matches typ kind base version).1 = true <-> same_version typ version base.
Proof.
  intros Hk. unfold matches, same_version.
  replace (kind =? ConstraintAny)%string with false by (by destruct Hk as [->| ->]).
  replace (slice_contains [ConstraintExact; ""] kind) with true by (by destruct Hk as [->| ->]).
  cbn [fst]. destruct (typ =? TypeComposer)%string; apply String.eqb_eq.
Qed.

(** [matches] admits what the constraint says. *)
Lemma matches_spec typ kind base version :
  (matches typ kind base version).1 = true <-> constraint_admits typ kind base version.
Proof.
  unfold constraint_admits. destruct (decide (kind = ConstraintAny)) as [->|Hany]; [split; [by left|done]|].
  destruct (decide (kind = ConstraintExact \/ kind = "")) as [He|He].
  { rewrite matches_equal by done. split; [tauto|].
    intros [?|[[_ ?]|[[-> _]|[-> _]]]]; [done|done|by destruct He..]. }
  destruct (decide (kind = ConstraintCompatible)) as [->|Hc].
  { rewrite (matches_placed _ _ _ _ (within (fun sv b => Major sv = Major b) base version));
      [|by left|apply filter_within; [apply keeps_compatible|done]|apply within_parses].
    split; [tauto|]. by intros [?|[[? _]|[[_ ?]|[? _]]]]. }
  destruct (decide (kind = ConstraintPatch)) as [->|Hp].
  { rewrite (matches_placed _ _ _ _ (within (fun sv b => Major sv = Major b /\ Minor sv = Minor b) base version));
      [|by right|apply filter_within; [apply keeps_patch|done]|apply within_parses].
    split; [tauto|]. by intros [?|[[? _]|[[? _]|[_ ?]]]]. }
  split; [|by intros [?|[[? _]|[[? _]|[? _]]]]].
  unfold matches. rewrite (proj2 (String.eqb_neq _ _) Hany).
  destruct (slice_contains [ConstraintExact; ""] kind) eqn:E.
  { apply slice_contains_spec in E. rewrite !elem_of_cons, elem_of_nil in E. tauto. }
  destruct (slice_contains [ConstraintCompatible; ConstraintPatch] kind) eqn:E'; [|done].
  apply slice_contains_spec in E'. rewrite !elem_of_cons, elem_of_nil in E'. tauto.
Qed.

(** What the profile's version rule admits of a package it covers. *)
Definition version_admitted (typ : string) (rule : ProfileTypeRule) (e : option ProfileEntry) (version : string)
  : Prop :=
  match e with
  | Some e =>
      if (pe_Constraint e =? "")%string
      then pt_VersionDefault rule = VersionFloating
           \/ (pe_Version e <> "" /\ same_version typ version (pe_Version e))
      else constraint_admits typ (pe_Constraint e) (pe_Version e) version
  | None => pt_VersionDefault rule = VersionFloating
  end.

Lemma versionRule_spec typ rule e version :
  let '(kind, base) := versionRule rule e in
  (kind <> VersionPinned /\ constraint_admits typ kind base version) <-> version_admitted typ rule e version.
Proof.
  assert (Hp : forall base, ~ constraint_admits typ VersionPinned base version).
  { intros base. unfold constraint_admits. by intros [?|[[[?|?] _]|[[? _]|[? _]]]]. }
  assert (Hd : forall v, constraint_admits typ ConstraintExact v version <-> same_version typ version v).
  { intros v. rewrite <- matches_spec, matches_equal by (by left). done. }
  unfold versionRule, version_admitted.
  destruct e as [e|]; [destruct (String.eqb_spec (pe_Constraint e) "") as [Hc|Hc]|]; cbn [negb].
  - destruct (String.eqb_spec (pt_VersionDefault rule) VersionFloating) as [->|Hf].
    { split; [by left|]. intros _. split; [done|]. by left. }
    destruct (String.eqb_spec (pe_Version e) "") as [Hv|Hv]; cbn [negb]; [naive_solver|].
    rewrite Hd. naive_solver.
  - split; [by intros [_ ?]|]. intros H. split; [|done]. intros E. rewrite E in H. by apply Hp in H.
  - destruct (String.eqb_spec (pt_VersionDefault rule) VersionFloating) as [->|Hf]; [|naive_solver].
    split; [done|]. intros _. split; [done|]. by left.
Qed.

(** ** The decision *)

(** Inside the set a rule governs: listed, or the type is open. *)
Definition inside (p : Profile) (rule : ProfileTypeRule) (typ name : string) : bool :=
  isSome (entry p typ name) || negb (pt_Membership rule =? MembershipClosed)%string.

(** [Covers] of a bound profile with a rule for the type. *)
Lemma Covers_rule p rule typ name :
  p_types p !! typ = Some rule ->
  let d := Covers (Some p) typ name in
  d_Governed d = true /\ d_Rule d = Some rule /\ d_Outside d = negb (inside p rule typ name) /\
  d_Permitted d = inside p rule typ name || negb (pt_Expansion rule =? ExpansionBlock)%string /\
  d_Refusal d = (if d_Permitted d then "" else RefusalMembership).
Proof.
  intros Hr. cbv zeta. unfold Covers. rewrite Hr. fold (inside p rule typ name).
  destruct (inside p rule typ name); [done|].
  destruct (pt_Expansion rule =? ExpansionBlock)%string; [done|].
  by destruct (pt_Expansion rule =? ExpansionIgnore)%string.
Qed.

Lemma Covers_ungoverned p typ name :
  match p with Some p => p_types p !! typ = None | None => True end ->
  let d := Covers p typ name in d_Permitted d = true /\ d_Governed d = false /\ d_Refusal d = "".
Proof. destruct p as [p|]; [|done]. intros Hr. cbv zeta. unfold Covers. by rewrite Hr. Qed.

(** Which profiles and names reach the version rule. *)
Lemma Permits_outside p typ name version :
  d_Permitted (Covers p typ name) && d_Governed (Covers p typ name) && negb (d_Outside (Covers p typ name)) = false ->
  Permits p typ name version = Covers p typ name.
Proof.
  intros H. unfold Permits. destruct p as [p|]; [|done].
  destruct (d_Permitted _), (d_Governed _), (d_Outside _); done.
Qed.

Lemma Permits_inside p rule typ name version :
  p_types p !! typ = Some rule -> inside p rule typ name = true ->
  let d := Permits (Some p) typ name version in
  (d_Permitted d = true <-> version_admitted typ rule (entry p typ name) version) /\
  d_Governed d = true /\ d_Rule d = Some rule /\ d_Outside d = false /\
  d_Refusal d = (if d_Permitted d then "" else RefusalConstraint).
Proof.
  intros Hr Hi. destruct (Covers_rule p rule typ name Hr) as (H1 & H2 & H3 & H4 & _).
  cbv zeta. unfold Permits. rewrite H1, H2, H3, H4, Hi. cbn [orb negb default id from_option].
  pose proof (versionRule_spec typ rule (entry p typ name) version) as Hv.
  destruct (versionRule rule (entry p typ name)) as [kind base].
  destruct (String.eqb_spec kind VersionPinned) as [->|Hk].
  { split; [|done]. cbn [d_Permitted]. rewrite <- Hv. naive_solver. }
  pose proof (matches_spec typ kind base version) as Hm.
  destruct (matches typ kind base version) as [[|] reason]; cbn [fst] in Hm;
    (split; [|done]); cbn [d_Permitted]; rewrite <- Hv; naive_solver.
Qed.

(** What a profile admits, stated on its rows. *)
Definition admitted (p : option Profile) (typ name version : string) : Prop :=
  match p with
  | None => True
  | Some p =>
      match p_types p !! typ with
      | None => True
      | Some rule =>
          if inside p rule typ name then version_admitted typ rule (entry p typ name) version
          else pt_Expansion rule <> ExpansionBlock
      end
  end.

Lemma Permits_admitted p typ name version :
  d_Permitted (Permits p typ name version) = true <-> admitted p typ name version.
Proof.
  unfold admitted. destruct p as [p|]; [|done].
  destruct (p_types p !! typ) as [rule|] eqn:Hr.
  - destruct (inside p rule typ name) eqn:Hi; [by apply Permits_inside|].
    destruct (Covers_rule p rule typ name Hr) as (H1 & H2 & H3 & H4 & _).
    rewrite Permits_outside by (by rewrite H3, Hi, andb_false_r).
    by rewrite H4, Hi, orb_false_l, negb_true_iff, String.eqb_neq.
  - destruct (Covers_ungoverned (Some p) typ name Hr) as (H1 & H2 & _).
    rewrite Permits_outside by (by rewrite H2, andb_false_r). by rewrite H1.
Qed.

(** C1: what a profile permits.  A fetch is permitted exactly when nothing is
    bound, or the profile states no rule for the type, or the package is
    outside the closed set and the expansion does not block it, or it is
    inside the set (listed, by its own entry or a wide one, or the type is
    open) and the version rule admits the version: the entry's constraint if
    it states one, any version where the type's default floats, the version
    the entry names where it names one, and none otherwise. *)
Theorem Permits_spec p typ name version :
  d_Permitted (Permits p typ name version) = true <-> admitted p typ name version.
Proof. apply Permits_admitted. Qed.

(** The profile bound states a rule for the type, of which [P] holds. *)
Definition ruled (p : option Profile) (typ : string) (P : Profile -> ProfileTypeRule -> Prop) : Prop :=
  match p with
  | Some pr => match p_types pr !! typ with Some rule => P pr rule | None => False end
  | None => False
  end.

(** What a denial says.  A decision is a permit exactly when it names no
    refusal; it is governed exactly when the profile states a rule for the
    type; a membership refusal is a package outside a closed set that blocks
    what it does not list, and a constraint refusal is a package inside the
    set at a version its rule does not admit. *)
Theorem Permits_refusal p typ name version :
  let d := Permits p typ name version in
  (d_Permitted d = true <-> d_Refusal d = "") /\
  d_Governed d = Governs p typ /\
  (d_Refusal d = RefusalMembership <->
     ruled p typ (fun pr rule => inside pr rule typ name = false /\ pt_Expansion rule = ExpansionBlock)) /\
  (d_Refusal d = RefusalConstraint <->
     ruled p typ (fun pr rule => inside pr rule typ name = true /\
       ~ version_admitted typ rule (entry pr typ name) version)).
Proof.
  cbv zeta. unfold Governs, ruled. destruct p as [p|]; [|by repeat split].
  destruct (p_types p !! typ) as [rule|] eqn:Hr; cbn [isSome].
  2:{ destruct (Covers_ungoverned (Some p) typ name Hr) as (H1 & H2 & H3).
      rewrite Permits_outside by (by rewrite H2, andb_false_r). rewrite H1, H2, H3. by repeat split. }
  destruct (inside p rule typ name) eqn:Hi.
  - destruct (Permits_inside p rule typ name version Hr Hi) as (H1 & -> & _ & _ & ->). rewrite <- H1.
    destruct (d_Permitted _); repeat split; try done; by intros [].
  - destruct (Covers_rule p rule typ name Hr) as (H1 & H2 & H3 & H4 & H5).
    rewrite Permits_outside by (by rewrite H3, Hi, andb_false_r).
    rewrite H5, H1, H4, Hi, orb_false_l. destruct (String.eqb_spec (pt_Expansion rule) ExpansionBlock); cbn [negb];
      repeat split; try done; by intros [].
Qed.

(** A request with no version of its own.  With candidates it is permitted
    exactly when one of them is, and the answer is then the decision on the
    first permitted one; with none it is permitted only when every version
    would be, so no rule admits what no candidate supports. *)
Theorem PermitsOneOf_spec p typ name candidates :
  let res := PermitsOneOf p typ name candidates in
  (candidates <> [] ->
     (d_Permitted res.1 = true <-> exists v, v ∈ candidates /\ d_Permitted (Permits p typ name v) = true)) /\
  (res.2 <> "" -> res.2 ∈ candidates /\ res.1 = Permits p typ name res.2) /\
  (candidates = [] -> d_Permitted res.1 = true -> forall v, d_Permitted (Permits p typ name v) = true).
Proof.
  cbv zeta. unfold PermitsOneOf.
  set (d := Covers p typ name).
  assert (Hout : d_Permitted d && d_Governed d && negb (d_Outside d) = false ->
    forall v, Permits p typ name v = d) by (intros H v; by apply Permits_outside).
  destruct p as [p|].
  2:{ cbn [fst snd]. split; [|split; [done|]].
      - intros Hc. split; [intros _|done]. destruct candidates as [|v vs]; [done|]. exists v. split; [by left|done].
      - done. }
  destruct (negb (d_Permitted d) || negb (d_Governed d) || d_Outside d) eqn:Ho; cbn [fst snd].
  { assert (H : d_Permitted d && d_Governed d && negb (d_Outside d) = false)
      by (destruct (d_Permitted d), (d_Governed d), (d_Outside d); done).
    specialize (Hout H). split; [|split; [done|]].
    - intros Hc. destruct candidates as [|v vs]; [done|]. split.
      + intros Hd. exists v. split; [by left|]. by rewrite Hout.
      + intros (w & _ & Hw). by rewrite Hout in Hw.
    - intros _ Hd v. by rewrite Hout. }
  destruct (List.find _ candidates) as [v|] eqn:Ef.
  { apply find_some in Ef as [Hin Hp]. apply list_elem_of_In in Hin. cbn [fst snd].
    split; [|split; [done|]]; [intros _; split; [by exists v|done]|].
    intros ->. by apply elem_of_nil in Hin. }
  assert (Hno : forall v, v ∈ candidates -> d_Permitted (Permits (Some p) typ name v) = false).
  { intros v Hv. apply list_elem_of_In in Hv. exact (find_none _ _ Ef v Hv). }
  destruct candidates as [|v vs].
  - split; [done|]. destruct (versionRule _ _) as [kind base] eqn:Ev.
    destruct (String.eqb_spec kind ConstraintAny) as [->|Hk]; [|done]. cbn [fst snd]. split; [done|].
    intros _ _ v. apply Permits_admitted. unfold admitted.
    subst d. destruct (p_types p !! typ) as [rule|] eqn:Hr; [|done].
    destruct (Covers_rule p rule typ name Hr) as (H1 & H2 & H3 & _). rewrite H2 in Ev. cbn [default] in Ev.
    rewrite H3 in Ho. destruct (inside p rule typ name); [|by rewrite orb_true_r in Ho].
    pose proof (versionRule_spec typ rule (entry p typ name) v) as Hv. cbn in Ev. rewrite Ev in Hv.
    apply Hv. split; [done|]. by left.
  - cbn [fst snd]. split; [|split; [|done]].
    + intros _. rewrite Hno by (by left). split; [done|]. intros (w & Hw & Hp). by rewrite Hno in Hp.
    + intros _. split; [by left|done].
Qed.

Lemma PermitsOneOf_spec_witness :
  d_Permitted (Permits (New (Some demo_detail)) TypeMaven "org.acme:widget" "9.9") = true.
Proof.
  apply (PermitsOneOf_spec (New (Some demo_detail)) TypeMaven "org.acme:widget" []); vm_compute; reflexivity.
Defined.

(** ** Fingerprints *)

Lemma nul_fields_inj l1 l2 :
  Forall (fun f => no_byte (ascii_of_nat 0) f = true) l1 -> Forall (fun f => no_byte (ascii_of_nat 0) f = true) l2 ->
  nul_fields l1 = nul_fields l2 -> l1 = l2.
Proof.
  unfold nul_fields, nul. revert l2. induction l1 as [|a l1 IH]; intros [|b l2]; cbn [map concat_string foldr].
  - done.
  - intros _ _ E. symmetry in E. apply app_eq_nil in E as [E _]. by apply app_eq_nil in E as [_ ?].
  - intros _ _ E. apply app_eq_nil in E as [E _]. by apply app_eq_nil in E as [_ ?].
  - intros [Ha Hl1]%Forall_cons [Hb Hl2]%Forall_cons E. rewrite !GoStrings.app_assoc, !app_cons, !GoStrings.app_nil_l in E.
    apply (f_equal (cut_byte (ascii_of_nat 0))) in E.
    rewrite !cut_byte_app in E by done. injection E as -> E. f_equal. by apply IH.
Qed.

Lemma entry_fields_inj l1 l2 :
  concat (map entry_fields l1) = concat (map entry_fields l2) -> map entry_fields l1 = map entry_fields l2.
Proof.
  revert l2. induction l1 as [|a l1 IH]; intros [|b l2]; cbn [map concat]; try done.
  unfold entry_fields at 1 3. cbn [app]. intros [= H1 H2 H3 H4]. unfold entry_fields at 1 3.
  rewrite H1, H2, H3. f_equal. by apply IH.
Qed.

(** The constraint and the version, which is what an entry decides by. *)
Definition entry_rule (e : ProfileEntry) : string * string := (pe_Constraint e, pe_Version e).

Lemma sorted_entries_lookup p typ k x :
  entry_rule <$> entries_of p typ !! k = Some x <->
  [k; x.1; x.2] ∈ map entry_fields (sorted_entries p typ).
Proof.
  unfold sorted_entries. rewrite SliceStable_perm, fmap_Some, list_elem_of_fmap. split.
  - intros (e & He & ->). exists (k, e). split; [done|]. by apply elem_of_map_to_list.
  - intros ([k' e] & [= -> H1 H2] & He%elem_of_map_to_list). exists e. split; [done|].
    destruct x. cbn in *. by subst.
Qed.

Lemma sorted_entries_same p q typ :
  map entry_fields (sorted_entries p typ) = map entry_fields (sorted_entries q typ) ->
  forall name, entry_rule <$> entry p typ name = entry_rule <$> entry q typ name.
Proof.
  intros E. assert (Hk : forall k, entry_rule <$> entries_of p typ !! k = entry_rule <$> entries_of q typ !! k).
  { intros k. apply option_eq. intros x. by rewrite !sorted_entries_lookup, E. }
  intros name. unfold entry. pose proof (Hk (Key typ name)) as H.
  destruct (entries_of p typ !! Key typ name), (entries_of q typ !! Key typ name); try done.
  destruct (if (typ =? TypeMaven)%string then _ else _); [apply Hk|done].
Qed.

Lemma version_admitted_same typ r1 r2 e1 e2 version :
  pt_VersionDefault r1 = pt_VersionDefault r2 -> entry_rule <$> e1 = entry_rule <$> e2 ->
  version_admitted typ r1 e1 version <-> version_admitted typ r2 e2 version.
Proof.
  unfold version_admitted. intros -> He. destruct e1 as [e1|], e2 as [e2|]; try done.
  cbn in He. injection He as -> ->. done.
Qed.

(** Every stored rule is filed under its own type. *)
Definition well_keyed (p : Profile) : Prop := forall t r, p_types p !! t = Some r -> pt_Type r = t.

Lemma New_well_keyed d p : New (Some d) = Some p -> well_keyed p.
Proof.
  intros [= <-]. unfold well_keyed. cbn [p_types].
  enough (H : forall m : gmap string ProfileTypeRule, (forall t r, m !! t = Some r -> pt_Type r = t) ->
            forall t r, fold_left add_rule (pd_Types d) m !! t = Some r -> pt_Type r = t).
  { apply H. intros t r. by rewrite lookup_empty. }
  induction (pd_Types d) as [|x l IH]; intros m Hm; [done|]. cbn [fold_left]. apply IH. intros t r.
  unfold add_rule. destruct (decide (pt_Type x = t)) as [<-|Hne].
  - rewrite lookup_insert_eq. by intros [= <-].
  - rewrite lookup_insert_ne by done. apply Hm.
Qed.

Lemma admitted_same p q typ name version :
  well_keyed p -> well_keyed q -> typ <> "" ->
  fingerprint_fields p typ = fingerprint_fields q typ ->
  admitted (Some p) typ name version <-> admitted (Some q) typ name version.
Proof.
  intros Hp Hq Ht E. unfold fingerprint_fields in E. cbn [app] in E.
  injection E as _ H1 H2 H3 H4 H5. apply entry_fields_inj in H5.
  pose proof (sorted_entries_same p q typ H5 name) as He. unfold admitted.
  destruct (p_types p !! typ) as [r1|] eqn:E1, (p_types q !! typ) as [r2|] eqn:E2; cbn [default] in *.
  - assert (Hi : inside p r1 typ name = inside q r2 typ name).
    { unfold inside. cbn in H2. rewrite H2. f_equal. by destruct (entry p typ name), (entry q typ name). }
    rewrite Hi. destruct (inside q r2 typ name); [by apply version_admitted_same|]. cbn in H4. by rewrite H4.
  - apply Hp in E1. cbn in H1. congruence.
  - apply Hq in E2. cbn in H1. congruence.
  - done.
Qed.

(** A fingerprint identifies what a profile decides for a type.  Two stored
    profiles whose fields hold no NUL byte and whose fingerprints for a type
    agree, where the hash does not collide on the two texts, permit the same
    packages of that type at the same versions: a catalog kept while the
    fingerprint stays serves nothing the profile has stopped permitting. *)
Theorem Fingerprint_decides sha256hex d1 d2 p q typ :
  New (Some d1) = Some p -> New (Some d2) = Some q -> typ <> "" ->
  Forall (fun f => no_byte (ascii_of_nat 0) f = true) (fingerprint_fields p typ) ->
  Forall (fun f => no_byte (ascii_of_nat 0) f = true) (fingerprint_fields q typ) ->
  (sha256hex (fingerprint_text p typ) = sha256hex (fingerprint_text q typ) ->
   fingerprint_text p typ = fingerprint_text q typ) ->
  Fingerprint sha256hex (Some p) typ = Fingerprint sha256hex (Some q) typ ->
  forall name version,
    d_Permitted (Permits (Some p) typ name version) = d_Permitted (Permits (Some q) typ name version).
Proof.
  intros Hp Hq Ht Hn1 Hn2 Hsha Hf name version. apply eq_true_iff_eq. rewrite !Permits_admitted.
  apply admitted_same; [by eapply New_well_keyed..|done|]. apply Hsha in Hf. by apply nul_fields_inj in Hf.
Qed.

Definition resolved (d : ProfileDetail) : Profile :=
  MkProfile (pd_Name d) (fold_left add_rule (pd_Types d) ∅) (fold_left add_entry (pd_Entries d) ∅).

(** The same rows in another order, with another origin and reason. *)
Definition demo_detail_2 : ProfileDetail :=
  MkDetail (MkProfileRow "web" "" "" 0) (rev (pd_Types demo_detail))
    [MkEntry "web" TypePypi "requests" ConstraintCompatible "2.0" "host-1" "later" "" "op" 5 5 "";
     MkEntry "web" TypePypi "Django" "" "4.2.11" "" "" "" "" 7 0 ""].

Lemma Fingerprint_decides_witness :
  d_Permitted (Permits (Some (resolved demo_detail)) TypePypi "Django" "4.2.11")
  = d_Permitted (Permits (Some (resolved demo_detail_2)) TypePypi "Django" "4.2.11").
Proof.
  apply (Fingerprint_decides (fun s => s) demo_detail demo_detail_2 (resolved demo_detail) (resolved demo_detail_2)
           TypePypi eq_refl eq_refl).
  - discriminate.
  - vm_compute. repeat constructor.
  - vm_compute. repeat constructor.
  - exact (fun H => H).
  - vm_compute. reflexivity.
Defined.

(** The fingerprint says nothing of the apt base and archives. *)
Lemma Fingerprint_apt_base :
  let rule base := MkRule "web" TypeApt MembershipClosed VersionPinned ExpansionBlock base [] "" 0 in
  let p base := New (Some (MkDetail (MkProfileRow "web" "" "" 0) [rule base] [])) in
  forall sha, Fingerprint sha (p "noble") TypeApt = Fingerprint sha (p "jammy") TypeApt /\
    AptScope (p "noble") = ("noble", "") /\ AptScope (p "jammy") = ("jammy", "").
Proof. intros rule p sha. split; [|done]. unfold Fingerprint, p, New. f_equal. Qed.

(** ** Sets that admit nothing, and the apt scope *)

(** Where an entry is filed, and what is filed under a key. *)
Lemma New_entries d typ :
  let es := default ∅ (fold_left add_entry (pd_Entries d) ∅ !! typ) in
  (forall k e, es !! k = Some e -> e ∈ pd_Entries d /\ pe_Type e = typ /\ Key typ (pe_Name e) = k) /\
  (forall e, e ∈ pd_Entries d -> pe_Type e = typ -> is_Some (es !! Key typ (pe_Name e))).
Proof.
  cbv zeta. induction (pd_Entries d) as [|x l IH] using rev_ind.
  { split; intros; cbn in *; rewrite ?lookup_empty in *; [done|by apply not_elem_of_nil in H]. }
  rewrite fold_left_app. cbn [fold_left]. unfold add_entry at 1 3. destruct IH as [IH1 IH2].
  set (m := fold_left add_entry l ∅) in *. destruct (decide (pe_Type x = typ)) as [<-|Hne].
  - rewrite lookup_insert_eq. cbn [from_option]. unfold id. split.
    + intros k e He. destruct (decide (Key (pe_Type x) (pe_Name x) = k)) as [<-|Hk].
      * rewrite lookup_insert_eq in He. injection He as <-. split; [|done]. apply elem_of_app. right. by left.
      * rewrite lookup_insert_ne in He by done. apply IH1 in He as (H1 & H2 & H3).
        split; [|done]. apply elem_of_app. by left.
    + intros e He Ht. apply elem_of_app in He as [He|He%list_elem_of_singleton].
      * destruct (decide (Key (pe_Type x) (pe_Name x) = Key (pe_Type x) (pe_Name e))) as [<-|Hk];
          [by rewrite lookup_insert_eq|]. rewrite lookup_insert_ne by done. by apply IH2.
      * subst e. by rewrite lookup_insert_eq.
  - rewrite lookup_insert_ne by done. split.
    + intros k e He. apply IH1 in He as (H1 & H2 & H3). split; [|done]. apply elem_of_app. by left.
    + intros e He Ht. apply elem_of_app in He as [He|He%list_elem_of_singleton]; [by apply IH2|by subst e].
Qed.

Lemma New_keyed d typ name e :
  e ∈ pd_Entries d -> pe_Type e = typ -> name = pe_Name e ->
  isSome (entry (resolved d) typ name) = true.
Proof.
  intros He Ht ->. destruct (New_entries d typ) as [_ H]. destruct (H e He Ht) as [x Hx].
  unfold entry, entries_of, resolved. cbn [p_entries]. by rewrite Hx.
Qed.

Lemma entry_empty p typ name : entries_of p typ = ∅ -> entry p typ name = None.
Proof.
  intros E. unfold entry. rewrite E, lookup_empty.
  destruct (if (typ =? TypeMaven)%string then _ else _); [apply lookup_empty|done].
Qed.

(** [Excludes] names the sets that can cover nothing.  For a stored
    profile it answers a reason exactly when no package of the type is
    covered; every other profile covers at least one.  It does not look at
    versions: an open type that pins every version and names none is not
    excluded, and every fetch under it is refused. *)
Theorem Excludes_spec d typ :
  (Excludes (New d) typ <> "" <-> forall name, d_Permitted (Covers (New d) typ name) = false) /\
  (let p := New (Some (MkDetail (MkProfileRow "p" "" "" 0) [MkRule "p" typ MembershipOpen VersionPinned ExpansionBlock "" [] "" 0] [])) in
   Excludes p typ = "" /\ forall name version, d_Permitted (Permits p typ name version) = false).
Proof.
  split.
  - destruct d as [d|]; cbn [New]; [|split; [done|intros H; by specialize (H "")]].
    fold (resolved d). unfold Excludes. destruct (p_types (resolved d) !! typ) as [r|] eqn:Hr.
    2:{ split; [done|]. intros H. specialize (H ""). unfold Covers in H. by rewrite Hr in H. }
    assert (Hc : forall name, d_Permitted (Covers (Some (resolved d)) typ name) =
              inside (resolved d) r typ name || negb (pt_Expansion r =? ExpansionBlock)%string)
      by (intros name; by apply Covers_rule).
    destruct (pt_Membership r =? MembershipClosed)%string eqn:Em; cbn [negb orb].
    2:{ split; [done|]. intros H. specialize (H ""). rewrite Hc in H. unfold inside in H.
        by rewrite Em, orb_true_r in H. }
    destruct (pt_Expansion r =? ExpansionBlock)%string eqn:Ex; cbn [negb orb].
    2:{ split; [done|]. intros H. specialize (H ""). rewrite Hc in H. by rewrite orb_true_r in H. }
    unfold inside in Hc. rewrite Em in Hc. cbn [negb] in Hc.
    destruct (Nat.ltb_spec 0 (size (entries_of (resolved d) typ))) as [Hs|Hs].
    + split; [done|]. intros H. exfalso.
      destruct (map_choose (entries_of (resolved d) typ)) as (k & e & Hk).
      { intros E. rewrite E, map_size_empty in Hs. lia. }
      destruct (New_entries d typ) as [H1 _]. destruct (H1 k e Hk) as (He & Ht & _).
      specialize (H (pe_Name e)). rewrite Hc, (New_keyed d typ _ e He Ht eq_refl) in H. done.
    + split; [|done]. intros _ name. rewrite Hc. rewrite entry_empty; [done|].
      apply map_size_empty_iff. lia.
  - cbv zeta. set (r := MkRule _ _ _ _ _ _ _ _ _). set (d' := MkDetail (MkProfileRow "p" "" "" 0) [r] []).
    change (New (Some d')) with (Some (resolved d')).
    assert (Hr : p_types (resolved d') !! typ = Some r) by (cbn; apply lookup_insert_eq).
    split; [unfold Excludes; by rewrite Hr|]. intros name version.
    assert (Hi : inside (resolved d') r typ name = true) by (unfold inside; by rewrite orb_true_r).
    apply not_true_is_false. rewrite Permits_admitted. unfold admitted. rewrite Hr, Hi.
    rewrite entry_empty; [done|]. unfold entries_of. cbn. by rewrite lookup_empty.
Qed.

Lemma AptScope_cases p :
  let '(base, refused) := AptScope p in
  (base <> "" -> refused = "" /\ exists pr r, p = Some pr /\ p_types pr !! TypeApt = Some r /\
     pt_Membership r = MembershipClosed /\ pt_Expansion r = ExpansionBlock) /\
  (refused <> "" -> base = "" /\ exists pr r, p = Some pr /\ p_types pr !! TypeApt = Some r /\
     (pt_Membership r <> MembershipClosed \/ pt_Expansion r <> ExpansionBlock)).
Proof.
  unfold AptScope. destruct p as [p|]; [|done].
  destruct (p_types p !! TypeApt) as [r|] eqn:Hr; [|done].
  destruct (pt_AptBase r =? "")%string; [done|].
  destruct (String.eqb_spec (pt_Membership r) MembershipClosed) as [Hm|Hm]; cbn [negb].
  2:{ split; [done|]. intros _. split; [done|]. exists p, r. tauto. }
  destruct (String.eqb_spec (pt_Expansion r) ExpansionBlock) as [He|He]; cbn [negb]; (split; [|done || intros _]).
  - intros _. split; [done|]. by exists p, r.
  - done.
  - split; [done|]. exists p, r. tauto.
Qed.

(** A filtered apt index is never the upstream one re-signed.  Where
    [AptScope] answers a base, the packages covered are exactly the ones the
    profile lists; where it withdraws one, it is because the profile covers
    every package. *)
Theorem AptScope_filters p name :
  ((AptScope p).1 <> "" ->
     (AptScope p).2 = "" /\
     (d_Permitted (Covers p TypeApt name) = true <->
      exists pr, p = Some pr /\ is_Some (entry pr TypeApt name))) /\
  ((AptScope p).2 <> "" ->
     (AptScope p).1 = "" /\ d_Permitted (Covers p TypeApt name) = true).
Proof.
  pose proof (AptScope_cases p) as H. destruct (AptScope p) as [base refused]. cbn [fst snd].
  destruct H as [H1 H2]. split.
  - intros Hb. destruct (H1 Hb) as (-> & pr & r & -> & Hr & Hm & He). split; [done|].
    destruct (Covers_rule pr r TypeApt name Hr) as (_ & _ & _ & -> & _).
    unfold inside. rewrite Hm, He. change (MembershipClosed =? MembershipClosed)%string with true.
    change (ExpansionBlock =? ExpansionBlock)%string with true. cbn [negb].
    rewrite !orb_false_r, isSome_spec. split; [by exists pr|]. by intros (? & [= <-] & ?).
  - intros Hb. destruct (H2 Hb) as (-> & pr & r & -> & Hr & Hx). split; [done|].
    destruct (Covers_rule pr r TypeApt name Hr) as (_ & _ & _ & -> & _). unfold inside.
    destruct Hx as [Hx|Hx]; apply String.eqb_neq in Hx; rewrite Hx; by rewrite ?orb_true_r.
Qed.

Lemma AptScope_filters_witness :
  d_Permitted (Covers (Some (resolved demo_detail)) TypeApt "curl") = true <->
  exists pr, Some (resolved demo_detail) = Some pr /\ is_Some (entry pr TypeApt "curl").
Proof.
  apply (AptScope_filters (Some (resolved demo_detail)) "curl"). vm_compute. discriminate.
Defined.

(** The answer for a groupId does not depend on the order of the entries. *)
Lemma CoversMavenGroup_order p group keys :
  keys ≡ₚ (map_to_list (entries_of p TypeMaven)).*1 ->
  forall keys', keys' ≡ₚ keys ->
  CoversMavenGroup keys (Some p) group = CoversMavenGroup keys' (Some p) group.
Proof.
  intros Hk keys' Hk'. unfold CoversMavenGroup.
  assert (Hc : forall k k', k ∈ keys -> k' ∈ keys -> Covers (Some p) TypeMaven k = Covers (Some p) TypeMaven k').
  { assert (He : forall k, k ∈ keys -> isSome (entry p TypeMaven k) = true).
    { intros k Hin. rewrite Hk in Hin. apply list_elem_of_fmap in Hin as ([k' e] & -> & He%elem_of_map_to_list).
      cbn [fst]. unfold entry. change (Key TypeMaven k') with k'. by rewrite He. }
    intros k k' H1 H2. unfold Covers. by rewrite (He k H1), (He k' H2). }
  destruct (List.find _ keys) as [k|] eqn:E1, (List.find _ keys') as [k'|] eqn:E2; [| | |done].
  - apply find_some in E1 as [E1 _], E2 as [E2 _]. apply list_elem_of_In in E1, E2.
    apply Hc; [done|]. by rewrite <- Hk'.
  - apply find_some in E1 as [E1 E1']. apply list_elem_of_In in E1. rewrite <- Hk' in E1.
    apply list_elem_of_In in E1. apply (find_none _ _ E2) in E1. congruence.
  - apply find_some in E2 as [E2 E2']. apply list_elem_of_In in E2. rewrite Hk' in E2.
    apply list_elem_of_In in E2. apply (find_none _ _ E1) in E2. congruence.
Qed.
