(* ===== verification/Closure.v ===== *)
(** What a pin holds still (pins/closure.go).

    [Of] walks the dependency edges down from one package at one version, level
    by level, and [Conflicts] asks a profile about the members.  The walk stops
    when a level finds nothing new; here it has a number of levels to spend, and
    [walk_stops] shows that one more than there are edges is enough. *)

From stdpp Require Import base list strings gmap sorting.
From Stdlib Require Import ZArith Lia Ascii Sorted.
From S2P Require Import Prelude GoStrings GoSort Types Store Entitle.

(** * References *)

Definition SplitRef (ref : string) : string * string * string :=
  match cut_byte "/" ref with
  | None => ("", "", "")
  | Some (typ, rest) =>
      if (typ =? "")%string || (rest =? "")%string then ("", "", "")
      else match cut_last_byte "@" rest with
           | Some (name, version) => if (name =? "")%string then (typ, rest, "") else (typ, name, version)
           | None => (typ, rest, "")
           end
  end.

Record Member := MkMember {
  m_Type : string; m_Name : string; m_Version : string; m_Constraint : string; m_RawSpec : string;
  m_Via : string; m_Depth : Z
}.

Definition Ref (m : Member) : string := m_Type m +:+ "/" +:+ m_Name m.

Record Closure := MkClosure { c_Type : string; c_Name : string; c_Version : string; c_Members : list Member }.

Definition Closure_Ref (c : Closure) : string := c_Type c +:+ "/" +:+ c_Name c.

(** * The walk *)

Local Abbreviation edge_map := (gmap string (list DepEdge)).

Definition edges_at (g : edge_map) (key : string) : list DepEdge := default [] (g !! key).

Definition append_edge (g : edge_map) (key : string) (e : DepEdge) : edge_map := <[key := edges_at g key ++ [e]]> g.

(** The edges under their parents, with a version and without. *)
Definition index_edge (g : edge_map * edge_map) (e : DepEdge) : edge_map * edge_map :=
  let '(pt, pn, pv) := SplitRef (de_Parent e) in
  if (pn =? "")%string then g
  else if (pv =? "")%string then (g.1, append_edge g.2 (pt +:+ "/" +:+ pn) e)
  else (append_edge g.1 (pt +:+ "/" +:+ pn +:+ "@" +:+ pv) e, g.2).

Definition index_edges (edges : list DepEdge) : edge_map * edge_map := foldl index_edge (∅, ∅) edges.

Definition childrenOf (g : edge_map * edge_map) (m : Member) : list DepEdge :=
  if (m_Version m =? "")%string then edges_at g.2 (Ref m)
  else
    let byVersion := edges_at g.1 (Ref m +:+ "@" +:+ m_Version m) in
    if (length byVersion =? 0)%nat then edges_at g.2 (Ref m) else edges_at g.2 (Ref m) ++ byVersion.

Record walk_state := MkWalk { w_seen : gset string; w_members : list Member; w_next : list Member }.

Definition visit (parent : Member) (depth : Z) (st : walk_state) (e : DepEdge) : walk_state :=
  let '(ct, cn, cv) := SplitRef (de_Child e) in
  let ref := ct +:+ "/" +:+ cn in
  if (cn =? "")%string || bool_decide (ref ∈ w_seen st) then st
  else
    let m := MkMember ct cn cv (de_Constraint e) (de_RawSpec e) (Ref parent) depth in
    MkWalk ({[ref]} ∪ w_seen st) (w_members st ++ [m]) (w_next st ++ [m]).

Definition expand (g : edge_map * edge_map) (depth : Z) (st : walk_state) (parent : Member) : walk_state :=
  foldl (visit parent depth) st (childrenOf g parent).

(** One level: [w_next] holds the frontier before and what it found after. *)
Definition level (g : edge_map * edge_map) (depth : Z) (st : walk_state) : walk_state :=
  foldl (expand g depth) (MkWalk (w_seen st) (w_members st) []) (w_next st).

Fixpoint walk (g : edge_map * edge_map) (fuel : nat) (depth : Z) (st : walk_state) : option (list Member) :=
  match w_next st with
  | [] => Some (w_members st)
  | _ :: _ => match fuel with O => None | S fuel => walk g fuel (depth + 1) (level g depth st) end
  end.

Definition root_member (typ name version : string) : Member := MkMember typ name version "" "" "" 0.

Definition root_state (root : Member) : walk_state := MkWalk {[Ref root]} [] [root].

Definition ref_less (a b : Member) : bool := Compare (Ref a) (Ref b) <? 0.

Definition Of (edges : list DepEdge) (typ name version : string) : option Closure :=
  members ← walk (index_edges edges) (S (length edges)) 1 (root_state (root_member typ name version));
  Some (MkClosure typ name version (SliceStable ref_less members)).

(** * Reading a closure *)

Record Conflict := MkConflict { x_Member : Member; x_Reason : string }.

Definition conflict_of (c : Closure) (p : Profile) (m : Member) : option Conflict :=
  if (m_Version m =? "")%string then None
  else
    let d := Permits (Some p) (m_Type m) (m_Name m) (m_Version m) in
    if d_Permitted d || negb (d_Governed d) then None
    else Some (MkConflict m (Closure_Ref c +:+ " at " +:+ c_Version c +:+ " needs " +:+ Ref m +:+ " " +:+ m_Version m
                             +:+ ", and the profile refuses it: " +:+ d_Reason d)).

Definition Conflicts (c : Closure) (p : option Profile) : list Conflict :=
  match p with None => [] | Some p => omap (conflict_of c p) (c_Members c) end.

Definition Resolved (c : Closure) : list Member :=
  List.filter (fun m => negb (m_Version m =? "")%string) (c_Members c).

Example SplitRef_ex :
  map SplitRef ["apt/postgresql-14"; "npm/@babel/core@7.24.0"; "npm/@babel/core"; "pypi/django@5.2"; "x"; "/x"; "x/"]
  = [("apt", "postgresql-14", ""); ("npm", "@babel/core", "7.24.0"); ("npm", "@babel/core", ""); ("pypi", "django", "5.2");
     ("", "", ""); ("", "", ""); ("", "", "")].
Proof. vm_compute. reflexivity. Qed.

(** * Lemmas *)

(** ** References and keys *)

Definition node : Type := string * string * string.

Definition node_of (m : Member) : node := (m_Type m, m_Name m, m_Version m).

(** What the keys of the maps rely on. *)
Definition proper (m : Member) : Prop := no_byte "/" (m_Type m) = true /\ no_byte "@" (m_Version m) = true.

Lemma SplitRef_spec ref t n v :
  SplitRef ref = (t, n, v) -> n <> "" -> no_byte "/" t = true /\ no_byte "@" v = true.
Proof.
  unfold SplitRef. destruct (cut_byte "/" ref) as [[typ rest]|] eqn:E; [|by intros [= _ <- _]].
  apply cut_byte_Some in E as [_ Ht]. destruct (_ || _); [by intros [= _ <- _]|].
  destruct (cut_last_byte "@" rest) as [[name version]|] eqn:El.
  - apply cut_last_byte_Some in El as [_ Hv]. destruct (name =? "")%string; intros [= <- <- <-] _; by split.
  - intros [= <- <- <-] _. by split.
Qed.

Lemma ref_inj t n t' n' : no_byte "/" t = true -> no_byte "/" t' = true -> t +:+ "/" +:+ n = t' +:+ "/" +:+ n' -> t = t' /\ n = n'.
Proof.
  intros Ht Ht' E. change (t +:+ String "/" n = t' +:+ String "/" n') in E.
  pose proof (cut_byte_app "/" t n Ht) as H. rewrite E, cut_byte_app in H by done. by injection H as -> ->.
Qed.

Lemma versioned_inj k v k' v' : no_byte "@" v = true -> no_byte "@" v' = true -> k +:+ "@" +:+ v = k' +:+ "@" +:+ v' -> k = k' /\ v = v'.
Proof.
  intros Hv Hv' E. change (k +:+ String "@" v = k' +:+ String "@" v') in E.
  pose proof (cut_last_byte_app "@" k v Hv) as H. rewrite E, cut_last_byte_app in H by done. by injection H as -> ->.
Qed.

(** ** The index *)

Lemma edges_at_insert g k l key : edges_at (<[k := l]> g) key = if decide (key = k) then l else edges_at g key.
Proof.
  unfold edges_at. destruct (decide (key = k)) as [->|]; [by rewrite lookup_insert_eq|by rewrite lookup_insert_ne].
Qed.

Lemma append_edge_elem g k e key x :
  x ∈ edges_at (append_edge g k e) key <-> x ∈ edges_at g key \/ (key = k /\ x = e).
Proof.
  unfold append_edge. rewrite edges_at_insert. destruct (decide (key = k)) as [->|]; [|naive_solver].
  rewrite elem_of_app, list_elem_of_singleton. naive_solver.
Qed.

(** The keys an edge is filed under. *)
Definition unversioned_key (e : DepEdge) (key : string) : Prop :=
  exists pt pn, SplitRef (de_Parent e) = (pt, pn, "") /\ pn <> "" /\ key = pt +:+ "/" +:+ pn.

Definition versioned_key (e : DepEdge) (key : string) : Prop :=
  exists pt pn pv, SplitRef (de_Parent e) = (pt, pn, pv) /\ pn <> "" /\ pv <> "" /\ key = pt +:+ "/" +:+ pn +:+ "@" +:+ pv.

Lemma index_edge_step g x e key :
  (e ∈ edges_at (index_edge g x).2 key <-> e ∈ edges_at g.2 key \/ (e = x /\ unversioned_key x key))
  /\ (e ∈ edges_at (index_edge g x).1 key <-> e ∈ edges_at g.1 key \/ (e = x /\ versioned_key x key)).
Proof.
  unfold index_edge, unversioned_key, versioned_key. destruct (SplitRef (de_Parent x)) as [[pt pn] pv].
  destruct (String.eqb_spec pn "") as [->|Hn]; [|destruct (String.eqb_spec pv "") as [->|Hv]]; cbn [fst snd];
    rewrite ?append_edge_elem; split.
  - split; [by left|]. intros [H|[_ (pt' & pn' & [= <- <- _] & Hn & _)]]; done.
  - split; [by left|]. intros [H|[_ (pt' & pn' & pv' & [= <- <- _] & Hn & _)]]; done.
  - split; (intros [H|H]; [by left|right]).
    + destruct H as [-> ->]. split; [done|]. by exists pt, pn.
    + destruct H as [-> (pt' & pn' & [= <- <-] & _ & ->)]. done.
  - split; [by left|]. intros [H|[_ (pt' & pn' & pv' & [= <- <- <-] & _ & Hv & _)]]; done.
  - split; [by left|]. intros [H|[_ (pt' & pn' & [= <- <- E] & _)]]; done.
  - split; (intros [H|H]; [by left|right]).
    + destruct H as [-> ->]. split; [done|]. by exists pt, pn, pv.
    + destruct H as [-> (pt' & pn' & pv' & [= <- <- <-] & _ & _ & ->)]. done.
Qed.

Lemma index_edges_spec edges :
  (forall key e, e ∈ edges_at (index_edges edges).2 key <-> e ∈ edges /\ unversioned_key e key)
  /\ (forall key e, e ∈ edges_at (index_edges edges).1 key <-> e ∈ edges /\ versioned_key e key).
Proof.
  unfold index_edges. induction edges as [|x edges [IH2 IH1]] using rev_ind.
  - cbn [foldl]. split; intros key e; unfold edges_at; cbn [fst snd]; rewrite lookup_empty, !elem_of_nil; by split; [|intros [? _]].
  - rewrite foldl_app. cbn [foldl]. split; intros key e.
    + rewrite (proj1 (index_edge_step _ _ _ _)), IH2, elem_of_app, list_elem_of_singleton. naive_solver.
    + rewrite (proj2 (index_edge_step _ _ _ _)), IH1, elem_of_app, list_elem_of_singleton. naive_solver.
Qed.

(** An edge of the graph, as [childrenOf] reads its parent. *)
Definition edge_from (e : DepEdge) (m : Member) : Prop :=
  m_Name m <> "" /\ exists pv, SplitRef (de_Parent e) = (m_Type m, m_Name m, pv) /\ (pv = "" \/ pv = m_Version m).

Lemma unversioned_from edges m e :
  proper m -> e ∈ edges_at (index_edges edges).2 (Ref m) <->
  e ∈ edges /\ m_Name m <> "" /\ SplitRef (de_Parent e) = (m_Type m, m_Name m, "").
Proof.
  intros [Ht _]. rewrite (proj1 (index_edges_spec edges)). apply and_iff_compat_l. split.
  - intros (pt & pn & Hs & Hne & E). destruct (SplitRef_spec _ _ _ _ Hs Hne) as [Ht' _].
    apply ref_inj in E as [-> ->]; done.
  - intros [Hne Hs]. by exists (m_Type m), (m_Name m).
Qed.

Lemma versioned_from edges m e :
  proper m -> m_Version m <> "" -> e ∈ edges_at (index_edges edges).1 (Ref m +:+ "@" +:+ m_Version m) <->
  e ∈ edges /\ m_Name m <> "" /\ SplitRef (de_Parent e) = (m_Type m, m_Name m, m_Version m).
Proof.
  intros [Ht Hv] Hnv. rewrite (proj2 (index_edges_spec edges)). apply and_iff_compat_l. unfold Ref. split.
  - intros (pt & pn & pv & Hs & Hne & _ & E). destruct (SplitRef_spec _ _ _ _ Hs Hne) as [Ht' Hv'].
    rewrite !app_assoc in E. change (pt +:+ "/" +:+ pn +:+ "@" +:+ pv) with (pt +:+ "/" +:+ (pn +:+ "@" +:+ pv)) in E.
    assert (E' : (m_Type m +:+ "/" +:+ m_Name m) +:+ "@" +:+ m_Version m = (pt +:+ "/" +:+ pn) +:+ "@" +:+ pv)
      by by rewrite !app_assoc.
    apply versioned_inj in E' as [E' ->]; [|done..]. apply ref_inj in E' as [-> ->]; done.
  - intros [Hne Hs]. exists (m_Type m), (m_Name m), (m_Version m). by rewrite !app_assoc.
Qed.

Lemma childrenOf_spec edges m e :
  proper m -> e ∈ childrenOf (index_edges edges) m <-> e ∈ edges /\ edge_from e m.
Proof.
  intros Hm. unfold childrenOf, edge_from. destruct (String.eqb_spec (m_Version m) "") as [Ev|Ev].
  - rewrite unversioned_from by done. rewrite Ev. naive_solver.
  - assert (H : e ∈ (edges_at (index_edges edges).2 (Ref m) ++ edges_at (index_edges edges).1 (Ref m +:+ "@" +:+ m_Version m))
                <-> e ∈ edges /\ m_Name m <> "" /\ exists pv, SplitRef (de_Parent e) = (m_Type m, m_Name m, pv) /\ (pv = "" \/ pv = m_Version m)).
    { rewrite elem_of_app, unversioned_from, versioned_from by done. naive_solver. }
    rewrite <- H. destruct (edges_at (index_edges edges).1 _) as [|x l]; cbn [length Nat.eqb]; [by rewrite List.app_nil_r|done].
Qed.

(** ** What the graph says *)

(** [a] needs [b]: an edge names [a] as its parent, at its version or at none. *)
Definition needs (edges : list DepEdge) (a b : node) : Prop :=
  exists e pv, e ∈ edges /\ a.1.2 <> "" /\ SplitRef (de_Parent e) = (a.1, pv) /\ (pv = "" \/ pv = a.2)
    /\ SplitRef (de_Child e) = b /\ b.1.2 <> "".

(** ** The walk *)

Section walk.
Context (edges : list DepEdge) (root : Member) (Hroot : proper root).

Local Abbreviation g := (index_edges edges).

(** A member that follows from [parent] by an edge. *)
Definition follows (parent m : Member) : Prop :=
  exists e, e ∈ edges /\ edge_from e parent /\ SplitRef (de_Child e) = node_of m /\ m_Name m <> ""
    /\ m_Constraint m = de_Constraint e /\ m_RawSpec m = de_RawSpec e /\ m_Via m = Ref parent /\ m_Depth m = m_Depth parent + 1.

Lemma follows_needs p m : follows p m -> needs edges (node_of p) (node_of m).
Proof. intros (e & He & (Hn & pv & Hs & Hv) & Hc & Hne & _). by exists e, pv. Qed.

Record walk_ok (st : walk_state) : Prop := {
  wk_seen : forall ref, ref ∈ w_seen st <-> ref ∈ Ref <$> (root :: w_members st);
  wk_distinct : NoDup (Ref <$> (root :: w_members st));
  wk_follow : Forall (fun m => exists parent, parent ∈ root :: w_members st /\ follows parent m) (w_members st);
  wk_reached : Forall (fun m => rtc (needs edges) (node_of root) (node_of m)) (root :: w_members st)
}.

(** Everything an edge from [m] names is seen. *)
Definition expanded (st : walk_state) (m : Member) : Prop :=
  forall e t n v, e ∈ edges -> edge_from e m -> SplitRef (de_Child e) = (t, n, v) -> n <> "" -> t +:+ "/" +:+ n ∈ w_seen st.

Definition grows (depth : Z) (st st' : walk_state) : Prop :=
  exists new, w_members st' = w_members st ++ new /\ w_next st' = w_next st ++ new
    /\ Forall (fun m => m_Depth m = depth) new.

Lemma grows_trans depth a b c : grows depth a b -> grows depth b c -> grows depth a c.
Proof.
  intros (n1 & Hm1 & Hx1 & H1) (n2 & Hm2 & Hx2 & H2). exists (n1 ++ n2).
  rewrite Hm2, Hx2, Hm1, Hx1, <- !List.app_assoc. split; [done|]. split; [done|]. by apply Forall_app.
Qed.

Lemma grows_refl depth st : grows depth st st.
Proof. exists []. by rewrite !List.app_nil_r. Qed.

Lemma grows_elem depth st st' m : grows depth st st' -> m ∈ root :: w_members st -> m ∈ root :: w_members st'.
Proof. intros (new & -> & _). rewrite !elem_of_cons, elem_of_app. tauto. Qed.

Lemma grows_seen depth st st' ref : walk_ok st -> walk_ok st' -> grows depth st st' -> ref ∈ w_seen st -> ref ∈ w_seen st'.
Proof.
  intros H1 H2 Hg. rewrite (wk_seen _ H1), (wk_seen _ H2), !list_elem_of_fmap. intros (m & -> & Hm). exists m.
  split; [done|]. by apply (grows_elem depth st).
Qed.

Lemma visit_ok depth parent e st :
  walk_ok st -> parent ∈ root :: w_members st -> m_Depth parent = depth - 1 -> e ∈ edges -> edge_from e parent ->
  let st' := visit parent depth st e in
  walk_ok st' /\ grows depth st st'
  /\ forall t n v, SplitRef (de_Child e) = (t, n, v) -> n <> "" -> t +:+ "/" +:+ n ∈ w_seen st'.
Proof.
  intros Hok Hp Hd He Hf st'. subst st'. unfold visit. destruct (SplitRef (de_Child e)) as [[ct cn] cv] eqn:Es.
  destruct (String.eqb_spec cn "") as [->|Hne]; cbn [orb].
  { split; [done|]. split; [apply grows_refl|]. by intros t n v [= _ <- _]. }
  destruct (bool_decide_reflect (ct +:+ "/" +:+ cn ∈ w_seen st)) as [Hin|Hnot].
  { split; [done|]. split; [apply grows_refl|]. by intros t n v [= <- <- _]. }
  set (m := MkMember ct cn cv (de_Constraint e) (de_RawSpec e) (Ref parent) depth).
  assert (Hm : follows parent m).
  { exists e. split_and!; try done. cbn. lia. }
  split; [|split; [by exists [m]; split_and!; [..|constructor]|]].
  - constructor; cbn [w_seen w_members].
    + intros ref. rewrite elem_of_union, elem_of_singleton, (wk_seen _ Hok), app_comm_cons, fmap_app, elem_of_app.
      cbn [fmap list_fmap]. rewrite list_elem_of_singleton. by change (Ref m) with (ct +:+ "/" +:+ cn); tauto.
    + rewrite app_comm_cons, fmap_app. apply NoDup_app. split; [apply Hok|]. split; [|apply NoDup_singleton].
      intros ref Hr Hr'. apply list_elem_of_singleton in Hr' as ->. by apply Hnot, (wk_seen _ Hok).
    + apply Forall_app. split.
      * eapply Forall_impl; [apply (wk_follow _ Hok)|]. intros x (p & Hp' & Hx). exists p. split; [|done].
        rewrite app_comm_cons. apply elem_of_app. by left.
      * constructor; [|constructor]. exists parent. split; [|done]. rewrite app_comm_cons. apply elem_of_app. by left.
    + rewrite app_comm_cons. apply Forall_app. split; [apply Hok|]. constructor; [|constructor].
      pose proof (wk_reached _ Hok) as H. rewrite Forall_forall in H. eapply rtc_r; [apply (H parent Hp)|]. by apply follows_needs.
  - intros t n v [= <- <- _] _. cbn [w_seen]. apply elem_of_union. left. by apply elem_of_singleton.
Qed.

Lemma members_proper st m : walk_ok st -> m ∈ root :: w_members st -> proper m.
Proof.
  intros Hok [->|Hm]%elem_of_cons; [done|]. pose proof (wk_follow _ Hok) as H. rewrite Forall_forall in H.
  destruct (H m Hm) as (p & _ & e & _ & _ & Hs & Hne & _). by apply (SplitRef_spec _ _ _ _ Hs).
Qed.

Lemma expand_ok depth st parent :
  walk_ok st -> parent ∈ root :: w_members st -> m_Depth parent = depth - 1 ->
  let st' := expand g depth st parent in
  walk_ok st' /\ grows depth st st' /\ expanded st' parent.
Proof.
  intros Hok Hp Hd. pose proof (members_proper _ _ Hok Hp) as Hprop. unfold expand.
  assert (H : forall es, (forall e, e ∈ es -> e ∈ edges /\ edge_from e parent) -> forall st, walk_ok st -> parent ∈ root :: w_members st ->
            let st' := foldl (visit parent depth) st es in
            walk_ok st' /\ grows depth st st'
            /\ forall e t n v, e ∈ es -> SplitRef (de_Child e) = (t, n, v) -> n <> "" -> t +:+ "/" +:+ n ∈ w_seen st').
  { clear st Hok Hp. induction es as [|e es IH]; intros Hes st Hok Hp; cbn [foldl].
    - split; [done|]. split; [apply grows_refl|]. by intros e t n v ?%elem_of_nil.
    - destruct (Hes e ltac:(by left)) as [He Hf].
      destruct (visit_ok depth parent e st Hok Hp Hd He Hf) as (Hok1 & Hg1 & Hs1).
      destruct (IH (fun x Hx => Hes x ltac:(by right)) _ Hok1 (grows_elem _ _ _ _ Hg1 Hp)) as (Hok2 & Hg2 & Hs2).
      split; [done|]. split; [by apply (grows_trans _ _ _ _ Hg1)|]. intros x t n v [->|Hx]%elem_of_cons Hs Hn.
      + apply (grows_seen _ _ _ _ Hok1 Hok2 Hg2). by apply (Hs1 t n v).
      + by apply (Hs2 x t n v). }
  destruct (H (childrenOf g parent) (fun e => proj1 (childrenOf_spec edges parent e Hprop)) st Hok Hp) as (H1 & H2 & H3).
  split; [done|]. split; [done|]. intros e t n v He Hf. apply H3. by apply childrenOf_spec.
Qed.

Lemma expanded_grows depth st st' m : walk_ok st -> walk_ok st' -> grows depth st st' -> expanded st m -> expanded st' m.
Proof. intros H1 H2 Hg He e t n v Hin Hf Hs Hn. apply (grows_seen _ _ _ _ H1 H2 Hg). by apply (He e t n v). Qed.

(** Where the walk stands at the start of a level: the frontier is what the level
    before found, and the rest has been expanded. *)
Record level_ok (depth : Z) (st : walk_state) : Prop := {
  lv_walk : walk_ok st;
  lv_frontier : Forall (fun m => m ∈ root :: w_members st /\ m_Depth m = depth - 1) (w_next st);
  lv_rest : forall m, m ∈ root :: w_members st -> m ∈ w_next st \/ expanded st m
}.

Lemma level_step depth st :
  level_ok depth st ->
  let st' := level g depth st in
  level_ok (depth + 1) st' /\ exists new, w_members st' = w_members st ++ new /\ w_next st' = new.
Proof.
  intros [Hok Hf Hr] st'. subst st'. unfold level.
  assert (H : forall ps, Forall (fun m => m ∈ root :: w_members st /\ m_Depth m = depth - 1) ps -> forall st1, walk_ok st1 ->
            grows depth (MkWalk (w_seen st) (w_members st) []) st1 ->
            let st' := foldl (expand g depth) st1 ps in
            walk_ok st' /\ grows depth st1 st' /\ forall p, p ∈ ps -> expanded st' p).
  { induction ps as [|p ps IH]; intros Hps st1 Hok1 Hg1; cbn [foldl].
    - split; [done|]. split; [apply grows_refl|]. by intros p ?%elem_of_nil.
    - apply Forall_cons in Hps as [[Hp Hd] Hps].
      assert (Hp1 : p ∈ root :: w_members st1) by by apply (grows_elem depth (MkWalk (w_seen st) (w_members st) [])).
      destruct (expand_ok depth st1 p Hok1 Hp1 Hd) as (Hok2 & Hg2 & He2).
      destruct (IH Hps _ Hok2 (grows_trans _ _ _ _ Hg1 Hg2)) as (Hok3 & Hg3 & He3).
      split; [done|]. split; [by apply (grows_trans _ _ _ _ Hg2)|]. intros x [->|Hx]%elem_of_cons; [|by apply He3].
      by apply (expanded_grows _ _ _ _ Hok2 Hok3 Hg3). }
  set (st0 := MkWalk (w_seen st) (w_members st) []).
  assert (Hok0 : walk_ok st0) by by destruct Hok.
  destruct (H _ Hf st0 Hok0 (grows_refl _ _)) as (Hok' & Hg & He). destruct Hg as (new & Hm & Hn & Hd).
  cbn [st0 w_members w_next app] in Hm, Hn. split; [|by exists new]. constructor; [done| |].
  - rewrite Hn, Hm. rewrite Forall_forall in *. intros m Hin. split; [|specialize (Hd m Hin); cbn beta in Hd; lia].
    rewrite app_comm_cons. apply elem_of_app. by right.
  - intros m. rewrite Hm, app_comm_cons, elem_of_app, Hn. intros [Hin|Hin]; [right|by left].
    destruct (Hr m Hin) as [Hx|Hx]; [by apply He|].
    apply (expanded_grows depth st0); try done. by exists new.
Qed.

Lemma root_level : level_ok (m_Depth root + 1) (root_state root).
Proof.
  constructor; cbn.
  - constructor; cbn.
    + intros ref. by rewrite elem_of_singleton, list_elem_of_singleton.
    + apply NoDup_singleton.
    + constructor.
    + constructor; [apply rtc_refl|constructor].
  - constructor; [|constructor]. split; [by left|lia].
  - intros m Hm. by left.
Qed.
(** ** The end of it *)

Lemma members_bound st : walk_ok st -> (length (w_members st) <= length edges)%nat.
Proof.
  intros Hok. set (child e := (SplitRef (de_Child e)).1.1 +:+ "/" +:+ (SplitRef (de_Child e)).1.2).
  assert (Hsub : Ref <$> w_members st ⊆+ child <$> edges).
  { apply NoDup_submseteq.
    - pose proof (wk_distinct _ Hok) as H. cbn [fmap list_fmap] in H. by apply NoDup_cons in H as [_ H].
    - intros ref (m & -> & Hm)%list_elem_of_fmap. pose proof (wk_follow _ Hok) as H. rewrite Forall_forall in H.
      destruct (H m Hm) as (p & _ & e & He & _ & Hs & _). apply list_elem_of_fmap. exists e. split; [|done].
      unfold child. by rewrite Hs. }
  apply submseteq_length in Hsub. by rewrite !length_fmap in Hsub.
Qed.

Lemma walk_stops fuel : forall depth st,
  level_ok depth st -> w_next st = [] \/ (length edges < fuel + length (w_members st))%nat ->
  exists depth' st', walk g fuel depth st = Some (w_members st') /\ level_ok depth' st' /\ w_next st' = [].
Proof.
  induction fuel as [|fuel IH]; intros depth st Hl Hf.
  - destruct Hf as [Hn|Hf].
    + exists depth, st. cbn [walk]. by rewrite Hn.
    + pose proof (members_bound st (lv_walk _ _ Hl)). lia.
  - cbn [walk]. destruct (w_next st) as [|x l] eqn:En; [by exists depth, st|].
    destruct Hf as [|Hf]; [done|]. destruct (level_step depth st Hl) as (Hl' & new & Hm & Hn).
    apply (IH (depth + 1)); [done|]. destruct new as [|y new]; [by left|right]. rewrite Hm, List.length_app. cbn [length]. lia.
Qed.

Lemma walk_root :
  m_Depth root = 0 ->
  exists depth st, walk g (S (length edges)) 1 (root_state root) = Some (w_members st) /\ level_ok depth st /\ w_next st = [].
Proof. intros Hd. pose proof root_level as Hl. rewrite Hd in Hl. apply (walk_stops _ _ _ Hl). right. lia. Qed.
End walk.

(** No package is reached at two versions. *)
Definition coherent (edges : list DepEdge) (root : node) : Prop :=
  forall x y, rtc (needs edges) root x -> rtc (needs edges) root y -> x.1 = y.1 -> x = y.

Lemma Ref_node m m' : proper m -> proper m' -> Ref m = Ref m' -> (node_of m).1 = (node_of m').1.
Proof. intros [H _] [H' _] E. apply ref_inj in E as [E1 E2]; [|done..]. unfold node_of. cbn. congruence. Qed.

(** A walk that is over has placed everything the graph reaches. *)
Lemma walk_complete edges root depth st :
  proper root -> level_ok edges root depth st -> w_next st = [] -> coherent edges (node_of root) ->
  forall x, rtc (needs edges) (node_of root) x -> exists m, m ∈ root :: w_members st /\ node_of m = x.
Proof.
  intros Hroot Hl Hn Hc. pose proof (lv_walk _ _ _ _ Hl) as Hok. apply rtc_ind_r; [exists root; split; [by left|done]|].
  intros y z Hy Hyz (m & Hm & <-). assert (Hz : rtc (needs edges) (node_of root) z) by by eapply rtc_r.
  destruct Hyz as (e & pv & He & Hne & Hp & Hv & Hch & Hnz).
  destruct (lv_rest _ _ _ _ Hl m Hm) as [Hin|Hex]; [rewrite Hn in Hin; by apply elem_of_nil in Hin|].
  destruct z as [[t n] v]. cbn [fst snd] in *.
  assert (Hseen : t +:+ "/" +:+ n ∈ w_seen st).
  { apply (Hex e t n v He); [|done|done]. split; [done|]. by exists pv. }
  apply (wk_seen _ _ _ Hok), list_elem_of_fmap in Hseen as (m' & E & Hm'). exists m'. split; [done|].
  pose proof (wk_reached _ _ _ Hok) as H. rewrite Forall_forall in H. apply Hc; [by apply H|done|].
  apply (members_proper edges root Hroot st) in Hm' as [Ht _]; [|done].
  apply ref_inj in E as [-> ->]; [done| |done]. by apply (SplitRef_spec _ _ _ _ Hch).
Qed.

Lemma ref_sorted l : StronglySorted (fun a b => Compare (Ref a) (Ref b) <= 0) (SliceStable ref_less l).
Proof. by apply (SliceStable_by ref_less (on_key Ref Compare)). Qed.

Lemma Of_walk edges typ name version :
  no_byte "/" typ = true -> no_byte "@" version = true ->
  exists depth st, Of edges typ name version = Some (MkClosure typ name version (SliceStable ref_less (w_members st)))
    /\ level_ok edges (root_member typ name version) depth st /\ w_next st = [].
Proof.
  intros Ht Hv. assert (Hroot : proper (root_member typ name version)) by by split.
  destruct (walk_root edges _ Hroot eq_refl) as (depth & st & Hw & Hl & Hn). exists depth, st.
  split; [|done]. unfold Of. by rewrite Hw.
Qed.

Lemma conflict_of_None c p m :
  conflict_of c p m = None <->
  m_Version m = "" \/ d_Permitted (Permits (Some p) (m_Type m) (m_Name m) (m_Version m)) = true
  \/ d_Governed (Permits (Some p) (m_Type m) (m_Name m) (m_Version m)) = false.
Proof.
  unfold conflict_of. destruct (String.eqb_spec (m_Version m) "") as [E|E]; [by split; [left|]|].
  destruct (d_Permitted _) eqn:Ep; cbn [orb]; [by split; [right; left|]|].
  destruct (d_Governed _) eqn:Eg; cbn [negb]; [|by split; [right; right|]]. split; [done|]. by intros [?|[?|?]].
Qed.

Lemma Conflicts_nil c p : Conflicts c (Some p) = [] <-> forall m, m ∈ c_Members c -> conflict_of c p m = None.
Proof.
  unfold Conflicts. induction (c_Members c) as [|m l IH]; cbn [omap list_omap].
  - split; [by intros _ m ?%elem_of_nil|done].
  - destruct (conflict_of c p m) as [x|] eqn:E.
    + split; [done|]. intros H. specialize (H m ltac:(by left)). congruence.
    + rewrite IH. split.
      * by intros H y [->|Hy]%elem_of_cons; [|apply H].
      * intros H y Hy. apply H. by right.
Qed.

(** * Theorems *)

(** C40: what a pin holds still.  The walk always ends.  The members are distinct
    packages, in the order of their references, none of them the pinned one; the
    graph reaches each of them from the pinned version, by an edge from another
    member or the pinned package, which the member names together with the
    constraint the edge wrote.  When no package is reached at two versions, they
    are everything the graph reaches. *)
Theorem Of_closure edges typ name version :
  no_byte "/" typ = true -> no_byte "@" version = true ->
  let root := root_member typ name version in
  let reached := rtc (needs edges) (typ, name, version) in
  exists c, Of edges typ name version = Some c
    /\ NoDup (Ref <$> (root :: c_Members c)) /\ StronglySorted (fun a b => Compare (Ref a) (Ref b) <= 0) (c_Members c)
    /\ (forall m, m ∈ c_Members c ->
          reached (node_of m) /\ exists parent, parent ∈ root :: c_Members c /\ follows edges parent m)
    /\ (coherent edges (typ, name, version) ->
          forall x, reached x <-> x = (typ, name, version) \/ exists m, m ∈ c_Members c /\ node_of m = x).
Proof.
  intros Ht Hv root reached. assert (Hroot : proper root) by by split.
  destruct (Of_walk edges typ name version Ht Hv) as (depth & st & -> & Hl & Hn). fold root in Hl.
  eexists. split; [done|]. cbn [c_Members]. pose proof (lv_walk _ _ _ _ Hl) as Hok.
  assert (Hperm : SliceStable ref_less (w_members st) ≡ₚ w_members st) by apply SliceStable_perm.
  assert (Hin : forall m, m ∈ root :: SliceStable ref_less (w_members st) <-> m ∈ root :: w_members st) by (intros m; by rewrite Hperm).
  split; [rewrite Hperm; apply Hok|]. split; [apply ref_sorted|]. split.
  - intros m Hm. rewrite Hperm in Hm. pose proof (wk_reached _ _ _ Hok) as Hr. pose proof (wk_follow _ _ _ Hok) as Hf.
    rewrite Forall_forall in Hr, Hf. split; [apply Hr; by right|]. destruct (Hf m Hm) as (p & Hp & Hpm).
    exists p. split; [by apply Hin|done].
  - intros Hc x. split.
    + intros Hx. destruct (walk_complete edges root depth st Hroot Hl Hn Hc x Hx) as (m & Hm & <-).
      apply elem_of_cons in Hm as [->|Hm]; [by left|right]. exists m. by rewrite Hperm.
    + intros [->|(m & Hm & <-)]; [apply rtc_refl|]. rewrite Hperm in Hm. pose proof (wk_reached _ _ _ Hok) as Hr.
      rewrite Forall_forall in Hr. apply Hr. by right.
Qed.

(** A graph: a needs b at 1, and d needs b at 2. *)
Definition pypi_edge (parent child : string) : DepEdge := MkEdge ("pypi/" +:+ parent) ("pypi/" +:+ child) "" "".

Definition diamond : list DepEdge := [pypi_edge "a@1" "b@1"; pypi_edge "a@1" "d@1"; pypi_edge "d@1" "b@2"; pypi_edge "b@2" "e@1"].

Lemma Of_closure_witness :
  exists c, Of diamond "pypi" "d" "1" = Some c /\ exists m, m ∈ c_Members c /\ node_of m = ("pypi", "e", "1").
Proof.
  destruct (Of_closure diamond "pypi" "d" "1" ltac:(reflexivity) ltac:(reflexivity)) as (c & Hc & _).
  exists c. split; [exact Hc|]. vm_compute in Hc. injection Hc as <-. eexists. split; [right; left|reflexivity].
Defined.

Definition b_at_1 : Profile :=
  MkProfile "web" {[ "pypi" := MkRule "web" "pypi" "open" VersionFloating "" "" [] "" 0 ]}
    {[ "pypi" := {[ "b" := Entitle.MkEntry "web" "pypi" "b" ConstraintExact "1" "" "" "" "" 0 0 "" ]} ]}.

(** The same edges, written the other way round below the top. *)
Definition diamond_a : list DepEdge := [pypi_edge "a@1" "c@1"; pypi_edge "a@1" "d@1"; pypi_edge "c@1" "b@1"; pypi_edge "d@1" "b@2"].
Definition diamond_b : list DepEdge := [pypi_edge "a@1" "d@1"; pypi_edge "a@1" "c@1"; pypi_edge "c@1" "b@1"; pypi_edge "d@1" "b@2"].

Lemma diamond_orders :
  diamond_a ≡ₚ diamond_b
  /\ (length <$> ((fun c => Conflicts c (Some b_at_1)) <$> Of diamond_a "pypi" "a" "1")) = Some 0%nat
  /\ (length <$> ((fun c => Conflicts c (Some b_at_1)) <$> Of diamond_b "pypi" "a" "1")) = Some 1%nat.
Proof. split; [apply Permutation_swap|]. split; vm_compute; reflexivity. Qed.

(** When a pin is without conflict.  If no package is reached at two versions,
    a pin has no conflict with a profile exactly when every version the graph
    names below it is permitted, or of a type the profile does not govern.  Where
    a package is reached at two versions only the first found is asked about, and
    which one that is follows the order the edges were written in. *)
Theorem Conflicts_none edges typ name version p c :
  no_byte "/" typ = true -> no_byte "@" version = true -> coherent edges (typ, name, version) ->
  Of edges typ name version = Some c ->
  (Conflicts c (Some p) = [] <->
   forall t n v, rtc (needs edges) (typ, name, version) (t, n, v) -> (t, n, v) <> (typ, name, version) -> v <> "" ->
     let d := Permits (Some p) t n v in d_Permitted d = true \/ d_Governed d = false)
  /\ diamond_a ≡ₚ diamond_b
  /\ (length <$> ((fun c => Conflicts c (Some b_at_1)) <$> Of diamond_a "pypi" "a" "1")) = Some 0%nat
  /\ (length <$> ((fun c => Conflicts c (Some b_at_1)) <$> Of diamond_b "pypi" "a" "1")) = Some 1%nat.
Proof.
  intros Ht Hv Hc HOf. split; [|exact diamond_orders].
  destruct (Of_walk edges typ name version Ht Hv) as (depth & st & E & Hl & Hn). rewrite E in HOf. injection HOf as <-.
  set (root := root_member typ name version) in *. assert (Hroot : proper root) by by split.
  pose proof (lv_walk _ _ _ _ Hl) as Hok. pose proof (wk_reached _ _ _ Hok) as Hr. rewrite Forall_forall in Hr.
  rewrite Conflicts_nil. cbn [c_Members].
  assert (Hin : forall m, m ∈ SliceStable ref_less (w_members st) <-> m ∈ w_members st) by (intros m; by rewrite (SliceStable_perm ref_less (w_members st))).
  split.
  - intros H t n v Hreach Hne Hnv. destruct (walk_complete edges root depth st Hroot Hl Hn Hc _ Hreach) as (m & Hm & Em).
    apply elem_of_cons in Hm as [->|Hm]; [by destruct Hne|]. specialize (H m (proj2 (Hin m) Hm)).
    apply conflict_of_None in H. injection Em as <- <- <-. by destruct H as [|H].
  - intros H m Hm%Hin. apply conflict_of_None. destruct (decide (m_Version m = "")) as [Ev|Ev]; [by left|right].
    apply H; [apply Hr; by right| |done]. intros Eroot. pose proof (wk_distinct _ _ _ Hok) as Hd. cbn [fmap list_fmap] in Hd.
    apply NoDup_cons in Hd as [Hd _]. apply Hd. apply list_elem_of_fmap. exists m. split; [|done].
    injection Eroot as E1 E2 _. unfold Ref. cbn. congruence.
Qed.

Definition one_edge : list DepEdge := [pypi_edge "a@1" "b@2"].

Lemma one_edge_reach x : rtc (needs one_edge) ("pypi", "a", "1") x -> x = ("pypi", "a", "1") \/ x = ("pypi", "b", "2").
Proof.
  revert x. apply rtc_ind_r; [by left|]. intros y z _ (e & pv & He & _ & _ & _ & Hz & _) _.
  apply list_elem_of_singleton in He as ->. right. by rewrite <- Hz.
Qed.

Lemma Conflicts_none_witness :
  exists c, Of one_edge "pypi" "a" "1" = Some c /\ Conflicts c (Some b_at_1) <> [].
Proof.
  destruct (Of one_edge "pypi" "a" "1") as [c|] eqn:E; [|vm_compute in E; discriminate]. exists c. split; [reflexivity|].
  destruct (Conflicts_none one_edge "pypi" "a" "1" b_at_1 c) as [H _]; [reflexivity|reflexivity| |exact E|].
  - intros x y [->| ->]%one_edge_reach [->| ->]%one_edge_reach Exy; try reflexivity; discriminate Exy.
  - intros Hnil. apply H with (t := "pypi") (n := "b") (v := "2") in Hnil; [|apply rtc_once|discriminate|discriminate].
    + vm_compute in Hnil. destruct Hnil; discriminate.
    + exists (pypi_edge "a@1" "b@2"), "1". split; [left|]. split; [discriminate|]. split; [vm_compute; reflexivity|].
      split; [right; reflexivity|]. split; [vm_compute; reflexivity|discriminate].
Defined.
