(* ===== verification/ProfileStore.v ===== *)
(** The profile tables of internal/audit/profile.go.

    A table is a map from its primary key, so INSERT OR IGNORE and ON CONFLICT DO
    UPDATE are what the schema makes of them; ORDER BY sorts what the map holds.
    A transaction that fails leaves the tables as they were.  A call that is several
    statements and no transaction is given the tables each statement ran on, since
    another process may write between them: [PutProfileEntry] checks the profile on
    one, counts on a second and inserts into a third, and [GetProfile] reads three.
    A time is its nanoseconds, and [env_now] is the database's clock.  The two baseline
    tables are written by another file of the package; here they are only deleted from. *)

From stdpp Require Import base list gmap strings sorting relations.
From Stdlib Require Import ZArith Lia Ascii.
From S2P Require Import Prelude GoStrings GoSort GoTime Types Entitle.

(** * Rows *)

Record ProfileBinding := MkBinding {
  pb_Identity : string; pb_Profile : string; pb_Comment : string; pb_Actor : string; pb_CreatedAt : Z
}.

Record profile_db := MkProfileDB {
  db_profiles : gmap string ProfileRow;
  db_types : gmap (string * string) ProfileTypeRule;
  db_entries : gmap (string * string * string) ProfileEntry;
  db_bindings : gmap string ProfileBinding;
  db_baselines : gmap Z string;   (* the profile a baseline is of, "" for a host's *)
  db_components : list Z          (* the baseline each component row is of *)
}.

Definition no_profiles : profile_db := MkProfileDB ∅ ∅ ∅ ∅ ∅ [].

Definition set_profiles (x : gmap string ProfileRow) (db : profile_db) : profile_db :=
  MkProfileDB x (db_types db) (db_entries db) (db_bindings db) (db_baselines db) (db_components db).
Definition set_types (x : gmap (string * string) ProfileTypeRule) (db : profile_db) : profile_db :=
  MkProfileDB (db_profiles db) x (db_entries db) (db_bindings db) (db_baselines db) (db_components db).
Definition set_entries (x : gmap (string * string * string) ProfileEntry) (db : profile_db) : profile_db :=
  MkProfileDB (db_profiles db) (db_types db) x (db_bindings db) (db_baselines db) (db_components db).
Definition set_bindings (x : gmap string ProfileBinding) (db : profile_db) : profile_db :=
  MkProfileDB (db_profiles db) (db_types db) (db_entries db) x (db_baselines db) (db_components db).
Definition set_baselines (x : gmap Z string) (y : list Z) (db : profile_db) : profile_db :=
  MkProfileDB (db_profiles db) (db_types db) (db_entries db) (db_bindings db) x y.

Inductive profile_error :=
| NameMissing
| NameCharacters (name : string)
| ErrProfileReadOnly
| ErrProfileDatabase
| ErrProfileExists (name : string)
| ErrNoProfile (name : string)
| BadMembership (m : string)
| BadVersionDefault (v : string)
| BadExpansion (e : string)
| AptBaseElsewhere (base typ : string)
| AptArchivesElsewhere (archives typ : string)
| BadAptArchive (c : string)
| EntryNameMissing
| BadProfileConstraint (kind : string)
| IdentityMissing
| ErrProfileBound (name : string) (identities : list string).

(** What a call finds outside the tables: a read-only database, a query or a
    statement that fails, and the clock.  A later query of a call that fails
    answers as the first one failing does, or as the write it precedes. *)
Record db_env := MkEnv { env_readOnly : bool; env_read_fails : bool; env_write_fails : bool; env_now : Z }.

(** * Checks *)

Definition Memberships : list string := [MembershipClosed; MembershipOpen].
Definition VersionDefaults : list string := [VersionPinned; VersionFloating].
Definition Expansions : list string := [ExpansionWarn; ExpansionBlock; ExpansionIgnore].

Definition ValidExpansion (e : string) : bool :=
  (e =? ExpansionWarn)%string || (e =? ExpansionBlock)%string || (e =? ExpansionIgnore)%string.
Definition ValidMembership (m : string) : bool := (m =? MembershipClosed)%string || (m =? MembershipOpen)%string.
Definition ValidVersionDefault (v : string) : bool := (v =? VersionPinned)%string || (v =? VersionFloating)%string.

Definition ProfileConstraints : list string := [ConstraintExact; ConstraintCompatible; ConstraintPatch; ConstraintAny].
Definition ValidProfileConstraint (kind : string) : bool := slice_contains ProfileConstraints kind.

Definition white : string := String " " (String "009" (String "010" "")).

Definition validateProfileName (name : string) : option profile_error :=
  if (name =? "")%string then Some NameMissing
  else if ContainsAny name (white +:+ "/,") then Some (NameCharacters name)
  else None.

(** [slices.Compact]: the first of each run of equals. *)
Fixpoint Compact (l : list string) : list string :=
  match l with
  | [] => []
  | x :: l =>
      match Compact l with
      | y :: l' => if (x =? y)%string then y :: l' else x :: y :: l'
      | [] => [x]
      end
  end.

Definition NormalizeAptArchives (names : list string) : list string :=
  Compact (sort_Strings (List.filter (fun c => negb (c =? "")%string) (map TrimSpace names))).

(** The column, and how it is read back. *)
Definition joinAptArchives (archives : list string) : string := Join archives ",".
Definition splitAptArchives (stored : string) : list string :=
  if (stored =? "")%string then [] else Split "," stored.

Definition validateProfileTypeRule (r : ProfileTypeRule) : option profile_error :=
  if negb (ValidMembership (pt_Membership r)) then Some (BadMembership (pt_Membership r))
  else if negb (ValidVersionDefault (pt_VersionDefault r)) then Some (BadVersionDefault (pt_VersionDefault r))
  else if negb (pt_Expansion r =? "")%string && negb (ValidExpansion (pt_Expansion r)) then Some (BadExpansion (pt_Expansion r))
  else if negb (pt_AptBase r =? "")%string && negb (pt_Type r =? TypeApt)%string
  then Some (AptBaseElsewhere (pt_AptBase r) (pt_Type r))
  else if (0 <? length (pt_AptArchives r))%nat && negb (pt_Type r =? TypeApt)%string
  then Some (AptArchivesElsewhere (Join (pt_AptArchives r) ",") (pt_Type r))
  else match List.find (fun c => ContainsAny c ("," +:+ white)) (pt_AptArchives r) with
       | Some c => Some (BadAptArchive c)
       | None => None
       end.

Definition validateProfileEntry (e : ProfileEntry) : option profile_error :=
  if (TrimSpace (pe_Name e) =? "")%string then Some EntryNameMissing
  else if negb (pe_Constraint e =? "")%string && negb (ValidProfileConstraint (pe_Constraint e))
  then Some (BadProfileConstraint (pe_Constraint e))
  else None.

(** * Reading an entry's pin *)

Definition PinDecidedAt (e : ProfileEntry) : Z := if negb (pe_PinnedAt e =? zero_time) then pe_PinnedAt e else pe_CreatedAt e.
Definition PinDecidedBy (e : ProfileEntry) : string := if negb (pe_PinnedBy e =? "")%string then pe_PinnedBy e else pe_Actor e.

(** The pin date as the column keeps it, in milliseconds. *)
Definition formatPinnedAt (t : Z) : Z := if t =? zero_time then zero_time else t - t mod 10 ^ 6.

(** * Rows as they are written *)

Definition rule_with (profile expansion : string) (archives : list string) (now : Z) (r : ProfileTypeRule) : ProfileTypeRule :=
  MkRule profile (pt_Type r) (pt_Membership r) (pt_VersionDefault r) expansion (pt_AptBase r) archives (pt_Actor r) now.

Definition normalize_rule (expansion : string) (r : ProfileTypeRule) : ProfileTypeRule :=
  rule_with (pt_Profile r) expansion (NormalizeAptArchives (pt_AptArchives r)) (pt_UpdatedAt r) r.

Definition insert_type (now : Z) (profile : string) (r : ProfileTypeRule) (db : profile_db) : profile_db :=
  set_types (<[(profile, pt_Type r) :=
               rule_with profile (ExpansionOrDefault (pt_Expansion r)) (splitAptArchives (joinAptArchives (pt_AptArchives r))) now r]>
             (db_types db)) db.

(** A row that is there keeps the time it was created. *)
Definition insert_entry (now : Z) (profile : string) (e : ProfileEntry) (db : profile_db) : profile_db :=
  let key := (profile, pe_Type e, pe_Name e) in
  let created := match db_entries db !! key with Some old => pe_CreatedAt old | None => now end in
  set_entries (<[key := MkEntry profile (pe_Type e) (pe_Name e) (pe_Constraint e) (pe_Version e) (pe_Origin e) (pe_Reason e)
                          (pe_ReviewAfter e) (pe_Actor e) created (formatPinnedAt (pe_PinnedAt e)) (pe_PinnedBy e)]>
               (db_entries db)) db.

Definition named (name : string) (e : ProfileEntry) : ProfileEntry :=
  MkEntry (pe_Profile e) (pe_Type e) name (pe_Constraint e) (pe_Version e) (pe_Origin e) (pe_Reason e) (pe_ReviewAfter e)
    (pe_Actor e) (pe_CreatedAt e) (pe_PinnedAt e) (pe_PinnedBy e).

(** * Operations *)

Section ops.
Context (env : db_env).

Definition insert_profile (p : ProfileRow) (db : profile_db) : profile_db + profile_error :=
  if isSome (db_profiles db !! pr_Name p) then inr (ErrProfileExists (pr_Name p))
  else inl (set_profiles (<[pr_Name p := MkProfileRow (pr_Name p) (pr_Description p) (pr_Actor p) (env_now env)]> (db_profiles db)) db).

(** What a writer answers, and the tables it leaves. *)
Definition settle {A} (db : profile_db) (r : (profile_db * A) + profile_error) : profile_db * (A + profile_error) :=
  match r with inl (db', a) => (db', inl a) | inr e => (db, inr e) end.

Definition CreateProfile (p : ProfileRow) (db : profile_db) : profile_db * (unit + profile_error) :=
  let name := TrimSpace (pr_Name p) in
  settle db (
    match validateProfileName name with
    | Some e => inr e
    | None =>
        if env_readOnly env then inr ErrProfileReadOnly
        else if env_write_fails env then inr ErrProfileDatabase
        else match insert_profile (MkProfileRow name (pr_Description p) (pr_Actor p) 0) db with
             | inl db' => inl (db', tt)
             | inr e => inr e
             end
    end).

Definition requireProfile (db : profile_db) (name : string) : option profile_error :=
  if env_read_fails env then Some ErrProfileDatabase
  else if isSome (db_profiles db !! name) then None else Some (ErrNoProfile name).

Definition ListProfiles (db : profile_db) : list ProfileRow + profile_error :=
  if env_read_fails env then inr ErrProfileDatabase
  else inl (SliceStable (fun a b => Compare (pr_Name a) (pr_Name b) <? 0) (map snd (map_to_list (db_profiles db)))).

Definition profileTypes (db : profile_db) (profile : string) : list ProfileTypeRule :=
  SliceStable (fun a b => Compare (pt_Type a) (pt_Type b) <? 0)
    (List.filter (fun r => (pt_Profile r =? profile)%string) (map snd (map_to_list (db_types db)))).

(** ORDER BY pkg_type, pkg_name *)
Definition entry_order (a b : ProfileEntry) : Z :=
  then_cmp (Compare (pe_Type a) (pe_Type b)) (Compare (pe_Name a) (pe_Name b)).

Definition profileEntries (db : profile_db) (profile : string) : list ProfileEntry :=
  SliceStable (fun a b => entry_order a b <? 0)
    (List.filter (fun e => (pe_Profile e =? profile)%string) (map snd (map_to_list (db_entries db)))).

(** Three queries: the profile's row, its rules and its entries. *)
Definition GetProfile (row_db types_db entries_db : profile_db) (name : string) : ProfileDetail + profile_error :=
  if env_read_fails env then inr ErrProfileDatabase
  else match db_profiles row_db !! name with
       | None => inr (ErrNoProfile name)
       | Some p =>
           inl (MkDetail (MkProfileRow (pr_Name p) (pr_Description p) (pr_Actor p) (pr_CreatedAt p))
                  (profileTypes types_db name) (profileEntries entries_db name))
       end.

(** The profile is looked for in [seen]; the row is inserted into [db], which other
    writers may have changed since. *)
Definition SetProfileTypeRule (seen : profile_db) (r : ProfileTypeRule) (db : profile_db) : profile_db * (unit + profile_error) :=
  let r := normalize_rule (ExpansionOrDefault (pt_Expansion r)) r in
  settle db (
    match validateProfileTypeRule r with
    | Some e => inr e
    | None =>
        match requireProfile seen (pt_Profile r) with
        | Some e => inr e
        | None =>
            if env_readOnly env then inr ErrProfileReadOnly
            else if env_write_fails env then inr ErrProfileDatabase
            else inl (insert_type (env_now env) (pt_Profile r) r db, tt)
        end
    end).

(** The profile is looked for in [seen], the entry counted in [counted], and the row
    inserted into [db]. *)
Definition PutProfileEntry (seen counted : profile_db) (e : ProfileEntry) (db : profile_db) : profile_db * (bool + profile_error) :=
  let e := named (TrimSpace (pe_Name e)) e in
  settle db (
    match validateProfileEntry e with
    | Some err => inr err
    | None =>
        match requireProfile seen (pe_Profile e) with
        | Some err => inr err
        | None =>
            if env_readOnly env then inr ErrProfileReadOnly
            else if env_write_fails env then inr ErrProfileDatabase
            else inl (insert_entry (env_now env) (pe_Profile e) e db,
                      negb (isSome (db_entries counted !! (pe_Profile e, pe_Type e, pe_Name e))))
        end
    end).

Definition RemoveProfileEntry (profile typ name : string) (db : profile_db) : profile_db * (bool + profile_error) :=
  if env_readOnly env then (db, inr ErrProfileReadOnly)
  else if env_write_fails env then (db, inr ErrProfileDatabase)
  else (set_entries (delete (profile, typ, name) (db_entries db)) db, inl (isSome (db_entries db !! (profile, typ, name)))).

(** The profile an identity was bound to, empty when to none. *)
Definition previous_binding (db : profile_db) (identity : string) : string :=
  match db_bindings db !! identity with Some old => pb_Profile old | None => "" end.

(** The profile is looked for in [seen], the old binding read from [before], and the
    row inserted into [db]. *)
Definition BindProfile (seen before : profile_db) (b : ProfileBinding) (db : profile_db) : profile_db * (string + profile_error) :=
  let identity := TrimSpace (pb_Identity b) in
  settle db (
    if (identity =? "")%string then inr IdentityMissing
    else match requireProfile seen (pb_Profile b) with
         | Some e => inr e
         | None =>
             if env_readOnly env then inr ErrProfileReadOnly
             else if env_write_fails env then inr ErrProfileDatabase
             else inl (set_bindings (<[identity := MkBinding identity (pb_Profile b) (pb_Comment b) (pb_Actor b) (env_now env)]>
                                      (db_bindings db)) db,
                       previous_binding before identity)
         end).

Definition UnbindProfile (identity : string) (db : profile_db) : profile_db * (bool + profile_error) :=
  if env_readOnly env then (db, inr ErrProfileReadOnly)
  else if env_write_fails env then (db, inr ErrProfileDatabase)
  else (set_bindings (delete identity (db_bindings db)) db, inl (isSome (db_bindings db !! identity))).

Definition ListProfileBindings (profile : string) (db : profile_db) : list ProfileBinding + profile_error :=
  if env_read_fails env then inr ErrProfileDatabase
  else inl (SliceStable (fun a b => Compare (pb_Identity a) (pb_Identity b) <? 0)
              (List.filter (fun b => (profile =? "")%string || (pb_Profile b =? profile)%string)
                 (map snd (map_to_list (db_bindings db))))).

Record ProfileDeletion := MkDeletion {
  pdel_Profile : string; pdel_Types : nat; pdel_Entries : nat; pdel_Baselines : nat; pdel_Components : nat; pdel_Unbound : list string
}.

(** The rows of the profile, and the tables without them. *)
Definition bound_to (db : profile_db) (name : string) : list string :=
  sort_Strings (map fst (map_to_list (filter (fun kv => pb_Profile kv.2 = name) (db_bindings db)))).

Definition of_baselines (db : profile_db) (name : string) : gmap Z string := filter (fun kv => kv.2 = name) (db_baselines db).

Definition erase (name : string) (db : profile_db) : profile_db :=
  MkProfileDB (delete name (db_profiles db))
    (filter (fun kv => pt_Profile kv.2 <> name) (db_types db))
    (filter (fun kv => pe_Profile kv.2 <> name) (db_entries db))
    (filter (fun kv => pb_Profile kv.2 <> name) (db_bindings db))
    (filter (fun kv => kv.2 <> name) (db_baselines db))
    (List.filter (fun id => negb (isSome (of_baselines db name !! id))) (db_components db)).

Definition DeleteProfile (name : string) (unbind : bool) (db : profile_db)
  : profile_db * (ProfileDeletion + profile_error) :=
  let name := TrimSpace name in
  settle db (
    if env_readOnly env then inr ErrProfileReadOnly
    else if env_read_fails env then inr ErrProfileDatabase
    else if negb (isSome (db_profiles db !! name)) then inr (ErrNoProfile name)
    else
      let bound := bound_to db name in
      if (0 <? length bound)%nat && negb unbind then inr (ErrProfileBound name bound)
      else if env_write_fails env then inr ErrProfileDatabase
      else
        let db' := erase name db in
        inl (db', MkDeletion name (size (db_types db) - size (db_types db')) (size (db_entries db) - size (db_entries db'))
                    (size (db_baselines db) - size (db_baselines db')) (length (db_components db) - length (db_components db'))
                    bound)).

Definition CreateProfileWith (p : ProfileRow) (types : list ProfileTypeRule) (entries : list ProfileEntry) (db : profile_db)
  : profile_db * (unit + profile_error) :=
  let name := TrimSpace (pr_Name p) in
  let types := map (fun r => normalize_rule (pt_Expansion r) r) types in
  let entries := map (fun e => named (TrimSpace (pe_Name e)) e) entries in
  settle db (
    match validateProfileName name with
    | Some e => inr e
    | None =>
        match first_some validateProfileTypeRule types with
        | Some e => inr e
        | None =>
            match first_some validateProfileEntry entries with
            | Some e => inr e
            | None =>
                if env_readOnly env then inr ErrProfileReadOnly
                else match insert_profile (MkProfileRow name (pr_Description p) (pr_Actor p) 0) db with
                     | inr e => inr e
                     | inl db' =>
                         if env_write_fails env then inr ErrProfileDatabase
                         else
                           let db' := foldl (fun db r => insert_type (env_now env) name r db) db' types in
                           inl (foldl (fun db e => insert_entry (env_now env) name e db) db' entries, tt)
                     end
            end
        end
    end).
End ops.

(** * The tables over time *)

(** A write whose check saw the profile [name] in [seen] and whose insertion finds it
    deleted from [db]. *)
Definition late (seen db : profile_db) (name : string) (raced : gset string) : gset string :=
  if isSome (db_profiles seen !! name) && negb (isSome (db_profiles db !! name)) then {[name]} ∪ raced else raced.

(** One write, on the tables [db] that the states [past] led to; [raced] gathers the
    profiles a write came late for.  The statements of one call before its write saw
    any of the past states, or the present one. *)
Inductive profile_step (past : list profile_db) (raced : gset string) (db : profile_db) : gset string -> profile_db -> Prop :=
| step_create env p : profile_step past raced db raced (CreateProfile env p db).1
| step_create_with env p types entries : profile_step past raced db raced (CreateProfileWith env p types entries db).1
| step_set_type env seen r : seen ∈ past ->
    profile_step past raced db (late seen db (pt_Profile r) raced) (SetProfileTypeRule env seen r db).1
| step_put env seen counted e : seen ∈ past -> counted ∈ past ->
    profile_step past raced db (late seen db (pe_Profile e) raced) (PutProfileEntry env seen counted e db).1
| step_remove env profile typ name : profile_step past raced db raced (RemoveProfileEntry env profile typ name db).1
| step_bind env seen before b : seen ∈ past -> before ∈ past ->
    profile_step past raced db (late seen db (pb_Profile b) raced) (BindProfile env seen before b db).1
| step_unbind env identity : profile_step past raced db raced (UnbindProfile env identity db).1
| step_delete env name unbind : profile_step past raced db raced (DeleteProfile env name unbind db).1
| step_baselines x y : profile_step past raced db raced (set_baselines x y db).

(** The states so far, the present one among them. *)
Inductive profile_run : list profile_db -> gset string -> profile_db -> Prop :=
| run_start : profile_run [no_profiles] ∅ no_profiles
| run_step past raced db raced' db' :
    profile_run past raced db -> profile_step past raced db raced' db' -> profile_run (db' :: past) raced' db'.

(** A run in which every statement of a call sees the tables its write finds. *)
Inductive alone : list profile_db -> gset string -> profile_db -> Prop :=
| alone_start : alone [no_profiles] ∅ no_profiles
| alone_step past raced db raced' db' :
    alone past raced db -> profile_step [db] raced db raced' db' -> alone (db' :: past) raced' db'.

(** * Lists of codenames *)

Lemma Compact_incl x l : x ∈ Compact l -> x ∈ l.
Proof.
  revert x. induction l as [|a l IH]; [done|]. intros x. cbn [Compact]. destruct (Compact l) as [|y l'] eqn:E.
  - intros ->%list_elem_of_singleton. by left.
  - destruct (String.eqb_spec a y) as [->|]; rewrite !elem_of_cons.
    + intros [->|H]; [by left|right; apply IH; by right].
    + intros [->|[->|H]]; [by left|right; apply IH; by left|right; apply IH; by right].
Qed.

Lemma Compact_sorted l :
  StronglySorted (fun a b => Compare a b <= 0) l -> StronglySorted (fun a b => Compare a b < 0) (Compact l).
Proof.
  induction 1 as [|a l _ IH Ha]; [constructor|]. cbn [Compact]. destruct (Compact l) as [|y l'] eqn:E; [by repeat constructor|].
  destruct (String.eqb_spec a y) as [->|Hne]; [done|]. constructor; [done|].
  apply StronglySorted_inv in IH as [_ Hy]. rewrite Forall_forall in Ha, Hy.
  assert (Hay : Compare a y < 0).
  { assert (Compare a y <= 0) by (apply Ha, Compact_incl; rewrite E; by left). assert (Compare a y <> 0) by (by rewrite Compare_zero). lia. }
  constructor; [done|]. apply Forall_forall. intros z Hz. apply (cmp_trans_lt_l Compare a y z Hay). specialize (Hy z Hz). lia.
Qed.

Lemma NormalizeAptArchives_sorted l :
  StronglySorted (fun a b => Compare a b < 0) (NormalizeAptArchives l) /\ "" ∉ NormalizeAptArchives l.
Proof.
  unfold NormalizeAptArchives. split.
  - apply Compact_sorted. by apply (SliceStable_by (fun a b => Compare a b <? 0) Compare).
  - intros H%Compact_incl. rewrite sort_Strings_perm in H. apply list_elem_of_In, filter_In in H as [_ H]. done.
Qed.

Lemma split_join l :
  "" ∉ l -> Forall (fun c => no_byte "," c = true) l -> splitAptArchives (joinAptArchives l) = l.
Proof. intros Hne Hc. apply (Split_Join_names ","); [by rewrite <- list_elem_of_In|done]. Qed.

(** * What the tables hold *)

Record rule_ok (r : ProfileTypeRule) : Prop := {
  ru_valid : validateProfileTypeRule r = None;
  ru_expansion : ValidExpansion (pt_Expansion r) = true;
  ru_archives : StronglySorted (fun a b => Compare a b < 0) (pt_AptArchives r) /\ "" ∉ pt_AptArchives r
}.

(** Every row is under its own key, valid, and of a profile there is, or of one a
    write came late for. *)
Definition of_profile (raced : gset string) (db : profile_db) (name : string) : Prop :=
  is_Some (db_profiles db !! name) \/ name ∈ raced.

Record profile_tables_ok (raced : gset string) (db : profile_db) : Prop := {
  pk_profiles : forall n p, db_profiles db !! n = Some p -> pr_Name p = n /\ validateProfileName n = None;
  pk_types : forall k r, db_types db !! k = Some r ->
    k = (pt_Profile r, pt_Type r) /\ of_profile raced db (pt_Profile r) /\ rule_ok r;
  pk_entries : forall k e, db_entries db !! k = Some e ->
    k = (pe_Profile e, pe_Type e, pe_Name e) /\ of_profile raced db (pe_Profile e)
    /\ pe_Name e <> "" /\ TrimSpace (pe_Name e) = pe_Name e /\ (pe_Constraint e = "" \/ ValidProfileConstraint (pe_Constraint e) = true);
  pk_bindings : forall i b, db_bindings db !! i = Some b ->
    pb_Identity b = i /\ i <> "" /\ of_profile raced db (pb_Profile b)
}.

Lemma no_profiles_ok : profile_tables_ok ∅ no_profiles.
Proof. split; cbn; intros ?? H; by rewrite lookup_empty in H. Qed.

Lemma ContainsAny_no c chars b : ContainsAny c chars = false -> has_byte b chars = true -> no_byte b c = true.
Proof.
  unfold ContainsAny, no_byte at 2, has_byte. intros H%negb_false_iff Hb. eapply all_bytes_impl; [|exact H].
  intros x Hx. cbn beta in *. destruct (Ascii.eqb_spec x b) as [->|]; [|done]. unfold no_byte in Hx. by rewrite Hx in Hb.
Qed.

Lemma validate_archives r :
  validateProfileTypeRule r = None -> Forall (fun c => no_byte "," c = true) (pt_AptArchives r).
Proof.
  unfold validateProfileTypeRule. repeat (case_match; [done|]). intros _.
  apply Forall_forall. intros c Hc%list_elem_of_In. apply (ContainsAny_no c ("," +:+ white)); [|done].
  by match goal with H : List.find _ _ = None |- _ => apply (find_none _ _ H c Hc) end.
Qed.

(** Validity reads neither the profile, the actor nor the time; an unnamed
    expansion is valid and is stored as the default. *)
Lemma validate_default profile now r :
  validateProfileTypeRule r = None ->
  let r' := rule_with profile (ExpansionOrDefault (pt_Expansion r)) (pt_AptArchives r) now r in
  validateProfileTypeRule r' = None /\ ValidExpansion (pt_Expansion r') = true.
Proof.
  unfold validateProfileTypeRule, ExpansionOrDefault. cbn [rule_with pt_Membership pt_VersionDefault pt_Expansion pt_AptBase pt_Type pt_AptArchives].
  destruct (String.eqb_spec (pt_Expansion r) "") as [E|E]; cbn [negb andb].
  - repeat (case_match; [done|]). done.
  - destruct (ValidExpansion (pt_Expansion r)) eqn:Ev; cbn [negb]; [|by repeat (case_match; [done|])].
    replace ((pt_Expansion r =? "")%string) with false by (symmetry; by apply String.eqb_neq). cbn [negb andb]. done.
Qed.

(** * Every writer keeps them *)

Lemma settle_case {A} (P : profile_db -> Prop) db (r : (profile_db * A) + profile_error) :
  P db -> (forall db' a, r = inl (db', a) -> P db') -> P (settle db r).1.
Proof. intros Hdb H. unfold settle. destruct r as [[db' a]|e]; [by eapply H|done]. Qed.

Lemma insert_profile_ok {raced} env p db db' :
  profile_tables_ok raced db -> validateProfileName (pr_Name p) = None -> insert_profile env p db = inl db' ->
  profile_tables_ok raced db' /\ is_Some (db_profiles db' !! pr_Name p) /\ db_profiles db !! pr_Name p = None
  /\ db_types db' = db_types db /\ db_entries db' = db_entries db.
Proof.
  unfold insert_profile. intros Hok Hv. destruct (db_profiles db !! pr_Name p) eqn:E; cbn [isSome]; [done|]. intros [= <-].
  assert (Hmono : forall n, of_profile raced db n ->
            of_profile raced (set_profiles (<[pr_Name p := MkProfileRow (pr_Name p) (pr_Description p) (pr_Actor p) (env_now env)]> (db_profiles db)) db) n).
  { intros n [Hn|Hn]; [left|by right]. cbn [set_profiles db_profiles]. by rewrite lookup_insert_is_Some'; right. }
  split; [|split; [cbn [set_profiles db_profiles]; by rewrite lookup_insert_eq|done]].
  destruct Hok as [H1 H2 H3 H4]. split; cbn [set_profiles db_profiles db_types db_entries db_bindings].
  - intros n q [[<- <-]|[_ Hq]]%lookup_insert_Some; [done|by apply H1].
  - intros k r Hk. destruct (H2 k r Hk) as (? & ? & ?). auto.
  - intros k e Hk. destruct (H3 k e Hk) as (? & ? & ? & ?). auto.
  - intros k b Hk. destruct (H4 k b Hk) as (? & ? & ?). auto.
Qed.

Lemma insert_type_ok {raced} now profile r db :
  profile_tables_ok raced db -> of_profile raced db profile -> validateProfileTypeRule r = None ->
  StronglySorted (fun a b => Compare a b < 0) (pt_AptArchives r) /\ "" ∉ pt_AptArchives r ->
  profile_tables_ok raced (insert_type now profile r db).
Proof.
  intros [H1 H2 H3 H4] Hp Hv [Hs Hne]. split; cbn [insert_type set_types db_profiles db_types db_entries db_bindings]; [done| |done|done].
  intros k r' [[<- <-]|[_ Hr]]%lookup_insert_Some; [|by apply H2].
  rewrite split_join by (done || by apply validate_archives). cbn [rule_with pt_Profile pt_Type]. split; [done|]. split; [done|].
  destruct (validate_default profile now r Hv) as [Hv' Hx]. by split.
Qed.

Lemma insert_entry_ok {raced} now profile e db :
  profile_tables_ok raced db -> of_profile raced db profile -> validateProfileEntry e = None ->
  TrimSpace (pe_Name e) = pe_Name e ->
  profile_tables_ok raced (insert_entry now profile e db).
Proof.
  intros [H1 H2 H3 H4] Hp Hv Ht. split; cbn [insert_entry set_entries db_profiles db_types db_entries db_bindings]; [done|done| |done].
  intros k e' [[<- <-]|[_ He]]%lookup_insert_Some; [|by apply H3]. cbn [pe_Profile pe_Type pe_Name pe_Constraint].
  split; [done|]. split; [done|]. unfold validateProfileEntry in Hv.
  destruct (String.eqb_spec (TrimSpace (pe_Name e)) "") as [|Hn]; [done|]. split; [by intros E; rewrite E in Hn|]. split; [done|].
  destruct (String.eqb_spec (pe_Constraint e) "") as [|Hc]; [by left|right].
  destruct (ValidProfileConstraint (pe_Constraint e)); [done|discriminate Hv].
Qed.

Lemma foldl_keeps {A B} (P : A -> Prop) (Q : B -> Prop) (f : A -> B -> A) l a :
  P a -> Forall Q l -> (forall a b, P a -> Q b -> P (f a b)) -> P (foldl f a l).
Proof. intros Ha Hl Hf. revert a Ha. induction Hl as [|b l Hb _ IH]; intros a Ha; [done|]. apply IH. by apply Hf. Qed.

(** The tables are well formed and have the profile. *)
Definition ok_with (raced : gset string) (name : string) (db : profile_db) : Prop := profile_tables_ok raced db /\ of_profile raced db name.

Lemma insert_all_ok {raced} env name types entries db :
  ok_with raced name db ->
  Forall (fun r => validateProfileTypeRule r = None
                   /\ StronglySorted (fun a b => Compare a b < 0) (pt_AptArchives r) /\ "" ∉ pt_AptArchives r) types ->
  Forall (fun e => validateProfileEntry e = None /\ TrimSpace (pe_Name e) = pe_Name e) entries ->
  ok_with raced name (foldl (fun db e => insert_entry (env_now env) name e db)
                  (foldl (fun db r => insert_type (env_now env) name r db) db types) entries).
Proof.
  intros Hok Ht He. eapply foldl_keeps; [eapply foldl_keeps; [exact Hok|exact Ht|]|exact He|].
  - intros db' r [H Hn] [Hv Ha]. split; [by apply insert_type_ok|done].
  - intros db' e [H Hn] [Hv Htr]. split; [by apply insert_entry_ok|done].
Qed.

Lemma requireProfile_None env db name : requireProfile env db name = None -> is_Some (db_profiles db !! name).
Proof. unfold requireProfile. destruct (env_read_fails env); [done|]. destruct (db_profiles db !! name); [done|discriminate]. Qed.

Lemma erase_ok {raced} name db : profile_tables_ok raced db -> profile_tables_ok raced (erase name db).
Proof.
  assert (Hof : forall n, n <> name -> of_profile raced db n -> of_profile raced (erase name db) n).
  { intros n Hn [H|H]; [left|by right]. cbn [erase db_profiles]. by rewrite lookup_delete_ne. }
  intros [H1 H2 H3 H4]. split; cbn [erase db_profiles db_types db_entries db_bindings].
  - intros n p [_ Hp]%lookup_delete_Some. by apply H1.
  - intros k r [Hr Hn]%map_lookup_filter_Some. destruct (H2 k r Hr) as (? & ? & ?). auto.
  - intros k e [He Hn]%map_lookup_filter_Some. destruct (H3 k e He) as (? & ? & ? & ?). auto.
  - intros k b [Hb Hn]%map_lookup_filter_Some. destruct (H4 k b Hb) as (? & ? & ?). auto.
Qed.

Lemma tables_ok_mono raced raced' db : raced ⊆ raced' -> profile_tables_ok raced db -> profile_tables_ok raced' db.
Proof.
  intros Hsub [H1 H2 H3 H4].
  assert (Hof : forall n, of_profile raced db n -> of_profile raced' db n) by (intros n [H|H]; [by left|right; by apply Hsub]).
  split; [done|intros k x Hx..].
  - destruct (H2 k x Hx) as (? & ? & ?). auto.
  - destruct (H3 k x Hx) as (? & ? & ?). auto.
  - destruct (H4 k x Hx) as (? & ? & ?). auto.
Qed.

Lemma late_incl seen db name raced : raced ⊆ late seen db name raced.
Proof. unfold late. case_match; [apply union_subseteq_r|done]. Qed.

Lemma late_same db name raced : late db db name raced = raced.
Proof. unfold late. by destruct (isSome (db_profiles db !! name)). Qed.

Lemma late_elem seen db name raced n : n ∈ late seen db name raced -> n ∈ raced \/ n = name /\ is_Some (db_profiles seen !! name).
Proof.
  unfold late. destruct (db_profiles seen !! name); cbn [isSome andb]; [|by left].
  destruct (isSome _); cbn [negb]; [by left|]. intros [->%elem_of_singleton|H]%elem_of_union; [by right|by left].
Qed.

(** A check that passed makes the row the profile's, or a late one. *)
Lemma late_of_profile env seen db name raced : requireProfile env seen name = None -> of_profile (late seen db name raced) db name.
Proof.
  intros [q Hq]%requireProfile_None. unfold of_profile, late. rewrite Hq. cbn [isSome andb].
  destruct (db_profiles db !! name); [by left|]. right. cbn [isSome negb]. apply elem_of_union_l. by apply elem_of_singleton.
Qed.

Ltac settled := apply settle_case; [done|]; intros ? ?; repeat (case_match; try done); intros [= <- _].

Lemma CreateProfile_ok {raced} env p db : profile_tables_ok raced db -> profile_tables_ok raced (CreateProfile env p db).1.
Proof.
  intros Hok. unfold CreateProfile. settled. by eapply insert_profile_ok; [exact Hok| |eassumption].
Qed.

Lemma SetProfileTypeRule_ok {raced} env seen r db :
  profile_tables_ok raced db -> profile_tables_ok (late seen db (pt_Profile r) raced) (SetProfileTypeRule env seen r db).1.
Proof.
  intros Hok%(tables_ok_mono _ _ _ (late_incl seen db (pt_Profile r) raced)). unfold SetProfileTypeRule. settled.
  apply insert_type_ok; [done| |done|apply NormalizeAptArchives_sorted]. by eapply (late_of_profile _ _ _ (pt_Profile r)).
Qed.

Lemma PutProfileEntry_ok {raced} env seen counted e db :
  profile_tables_ok raced db -> profile_tables_ok (late seen db (pe_Profile e) raced) (PutProfileEntry env seen counted e db).1.
Proof.
  intros Hok%(tables_ok_mono _ _ _ (late_incl seen db (pe_Profile e) raced)). unfold PutProfileEntry. settled.
  apply insert_entry_ok; [done| |done|apply TrimSpace_idemp]. by eapply (late_of_profile _ _ _ (pe_Profile e)).
Qed.

Lemma RemoveProfileEntry_ok {raced} env profile typ name db :
  profile_tables_ok raced db -> profile_tables_ok raced (RemoveProfileEntry env profile typ name db).1.
Proof.
  intros Hok. unfold RemoveProfileEntry. repeat (case_match; try done). destruct Hok as [K1 K2 K3 K4].
  split; cbn [fst set_entries db_profiles db_types db_entries db_bindings]; [done|done| |done]. intros k e [_ He]%lookup_delete_Some. by apply K3.
Qed.

Lemma BindProfile_ok {raced} env seen before b db :
  profile_tables_ok raced db -> profile_tables_ok (late seen db (pb_Profile b) raced) (BindProfile env seen before b db).1.
Proof.
  intros Hok%(tables_ok_mono _ _ _ (late_incl seen db (pb_Profile b) raced)). unfold BindProfile. settled.
  assert (Hp : of_profile (late seen db (pb_Profile b) raced) db (pb_Profile b)) by by eapply late_of_profile.
  destruct Hok as [K1 K2 K3 K4]. split; cbn [set_bindings db_profiles db_types db_entries db_bindings]; [done|done|done|].
  intros i b' [[<- <-]|[_ Hb]]%lookup_insert_Some; [|by apply K4]. split; [done|]. split; [by apply String.eqb_neq|done].
Qed.

Lemma UnbindProfile_ok {raced} env identity db : profile_tables_ok raced db -> profile_tables_ok raced (UnbindProfile env identity db).1.
Proof.
  intros Hok. unfold UnbindProfile. repeat (case_match; try done). destruct Hok as [K1 K2 K3 K4].
  split; cbn [fst set_bindings db_profiles db_types db_entries db_bindings]; [done|done|done|]. intros i b [_ Hb]%lookup_delete_Some. by apply K4.
Qed.

Lemma DeleteProfile_ok {raced} env name unbind db : profile_tables_ok raced db -> profile_tables_ok raced (DeleteProfile env name unbind db).1.
Proof. intros Hok. unfold DeleteProfile. settled. by apply erase_ok. Qed.

Lemma CreateProfileWith_ok {raced} env p types entries db :
  profile_tables_ok raced db -> profile_tables_ok raced (CreateProfileWith env p types entries db).1.
Proof.
  intros Hok. unfold CreateProfileWith. settled.
  match goal with H : insert_profile _ _ _ = inl _ |- _ => apply (insert_profile_ok (raced := raced)) in H as (Hok' & Hp & _); [|done|done] end.
  assert (of_profile raced _ _) as Hp' by (left; exact Hp).
  eapply insert_all_ok; [by split| |].
  2: { apply Forall_and. split; [by apply first_some_None|]. apply Forall_map, Forall_true. intros e. apply TrimSpace_idemp. }
  match goal with H : first_some validateProfileTypeRule _ = None |- _ => rewrite first_some_None, Forall_map in H; rename H into Ht end.
  rewrite Forall_map. eapply Forall_impl; [exact Ht|]. intros r Hr. split; [done|apply NormalizeAptArchives_sorted].
Qed.

Lemma set_baselines_ok {raced} x y db : profile_tables_ok raced db -> profile_tables_ok raced (set_baselines x y db).
Proof. by intros []. Qed.

Lemma profile_step_ok past raced db raced' db' :
  profile_step past raced db raced' db' -> profile_tables_ok raced db -> profile_tables_ok raced' db'.
Proof.
  destruct 1; eauto using CreateProfile_ok, CreateProfileWith_ok, SetProfileTypeRule_ok, PutProfileEntry_ok, RemoveProfileEntry_ok,
    BindProfile_ok, UnbindProfile_ok, DeleteProfile_ok, set_baselines_ok.
Qed.

Lemma profile_step_raced past raced db raced' db' :
  profile_step past raced db raced' db' ->
  raced ⊆ raced' /\ forall n, n ∈ raced' -> n ∈ raced \/ exists s, s ∈ past /\ is_Some (db_profiles s !! n).
Proof.
  destruct 1; (split; [by auto using late_incl|]); try by left.
  all: intros n [Hn|[-> Hn]]%late_elem; [by left|right; eauto].
Qed.

(** Every state of a run is well formed, and a late write's profile was there once. *)
Lemma profile_run_ok past raced db :
  profile_run past raced db ->
  profile_tables_ok raced db /\ db ∈ past /\ Forall (profile_tables_ok raced) past
  /\ forall n, n ∈ raced -> exists s, s ∈ past /\ is_Some (db_profiles s !! n).
Proof.
  induction 1 as [|past raced db raced' db' _ (Hok & _ & Hpast & Hraced) Hstep].
  { split; [apply no_profiles_ok|]. split; [by left|]. split; [apply Forall_singleton, no_profiles_ok|]. by intros n ?%not_elem_of_empty. }
  pose proof (profile_step_ok _ _ _ _ _ Hstep Hok) as Hok'. destruct (profile_step_raced _ _ _ _ _ Hstep) as [Hsub Hnew].
  split; [done|]. split; [by left|]. split.
  - constructor; [done|]. eapply Forall_impl; [exact Hpast|]. intros s. by apply tables_ok_mono.
  - intros n [Hn|(s & Hs & Hn)]%Hnew; [destruct (Hraced n Hn) as (s & Hs & Hn')|]; exists s; (split; [by right|done]).
Qed.

Lemma alone_not_raced past raced db : alone past raced db -> raced = ∅.
Proof.
  induction 1 as [|past raced db raced' db' _ -> Hstep]; [done|].
  destruct Hstep; try done; repeat match goal with H : _ ∈ [_] |- _ => apply list_elem_of_singleton in H as -> end; apply late_same.
Qed.

Lemma alone_run past raced db : alone past raced db -> profile_run past raced db.
Proof.
  induction 1 as [|past raced db raced' db' _ Hrun Hstep]; [apply run_start|]. eapply run_step; [exact Hrun|].
  apply profile_run_ok in Hrun as (_ & Hin & _).
  destruct Hstep; repeat match goal with H : _ ∈ [_] |- _ => apply list_elem_of_singleton in H as -> end; by constructor.
Qed.

Lemma run_tables_ok past raced db : profile_run past raced db -> profile_tables_ok raced db.
Proof. by intros []%profile_run_ok. Qed.

(** * What is read back *)

Lemma values_NoDup {K A} `{Countable K} (m : gmap K A) (key : A -> K) :
  (forall k x, m !! k = Some x -> k = key x) -> NoDup (map snd (map_to_list m)).
Proof.
  intros Hk. apply NoDup_fmap_2_strong; [|apply NoDup_map_to_list].
  intros [k x] [k' y] Hx%elem_of_map_to_list Hy%elem_of_map_to_list E. cbn in E. subst y. by rewrite (Hk k x Hx), (Hk k' x Hy).
Qed.

Lemma values_elem {K A} `{Countable K} (m : gmap K A) (key : A -> K) x :
  (forall k x, m !! k = Some x -> k = key x) -> x ∈ map snd (map_to_list m) <-> m !! key x = Some x.
Proof.
  intros Hk. change (map snd (map_to_list m)) with (snd <$> map_to_list m). rewrite list_elem_of_fmap. split.
  - intros ([k y] & -> & Hy%elem_of_map_to_list). cbn. by rewrite <- (Hk k y Hy).
  - intros Hx. exists (key x, x). split; [done|]. by apply elem_of_map_to_list.
Qed.

Section read.
Context {raced : gset string} (db : profile_db) (Hok : profile_tables_ok raced db).

Lemma profileTypes_elem name r : r ∈ profileTypes db name <-> db_types db !! (name, pt_Type r) = Some r /\ pt_Profile r = name.
Proof.
  unfold profileTypes. rewrite SliceStable_perm, filter_elem, String.eqb_eq.
  rewrite (values_elem _ (fun r => (pt_Profile r, pt_Type r))) by (intros k x Hx; by apply (pk_types _ db Hok)).
  split; intros [H <-]; done.
Qed.

Lemma profileTypes_NoDup name : NoDup (profileTypes db name).
Proof.
  unfold profileTypes. rewrite SliceStable_perm. apply filter_NoDup, (values_NoDup _ (fun r => (pt_Profile r, pt_Type r))).
  intros k x Hx. by apply (pk_types _ db Hok).
Qed.

Lemma profileEntries_elem name e :
  e ∈ profileEntries db name <-> db_entries db !! (name, pe_Type e, pe_Name e) = Some e /\ pe_Profile e = name.
Proof.
  unfold profileEntries. rewrite SliceStable_perm, filter_elem, String.eqb_eq.
  rewrite (values_elem _ (fun e => (pe_Profile e, pe_Type e, pe_Name e))) by (intros k x Hx; by apply (pk_entries _ db Hok)).
  split; intros [H <-]; done.
Qed.

Lemma profileEntries_NoDup name : NoDup (profileEntries db name).
Proof.
  unfold profileEntries. rewrite SliceStable_perm. apply filter_NoDup, (values_NoDup _ (fun e => (pe_Profile e, pe_Type e, pe_Name e))).
  intros k x Hx. by apply (pk_entries _ db Hok).
Qed.

(** A table's rows are all of a profile there is, or late. *)
Lemma no_rows name :
  db_profiles db !! name = None -> name ∉ raced ->
  (forall typ, db_types db !! (name, typ) = None) /\ (forall typ n, db_entries db !! (name, typ, n) = None).
Proof.
  intros Hn Hlate. split; intros.
  - apply eq_None_not_Some. intros [r Hr]. destruct (pk_types _ db Hok _ _ Hr) as ([= <- _] & Hp & _). destruct Hp as [Hp|Hp]; [rewrite Hn in Hp; by destruct Hp|done].
  - apply eq_None_not_Some. intros [e He]. destruct (pk_entries _ db Hok _ _ He) as ([= <- _ _] & Hp & _). destruct Hp as [Hp|Hp]; [rewrite Hn in Hp; by destruct Hp|done].
Qed.
End read.

Lemma foldl_insert_lookup {K A B} `{Countable K} (key : B -> K) (val : B -> A) l (m : gmap K A) k x :
  NoDup (map key l) ->
  (foldl (fun m b => <[key b := val b]> m) m l) !! k = Some x <->
  (exists b, b ∈ l /\ key b = k /\ val b = x) \/ (~ (k ∈ map key l) /\ m !! k = Some x).
Proof.
  revert m. induction l as [|b l IH]; intros m; cbn [map foldl].
  - intros _. split; [intros Hx; right; split; [apply not_elem_of_nil|done]|].
    by intros [(b & Hb%elem_of_nil & _)|[_ ?]].
  - intros [Hb Hd]%NoDup_cons. rewrite (IH _ Hd), not_elem_of_cons. split.
    + intros [(b' & Hb' & Hk & Hv)|[Hk Hx]]; [left; exists b'; split; [by right|done]|].
      apply lookup_insert_Some in Hx as [[<- <-]|[Hne Hx]]; [left; exists b; split; [by left|done]|right; done].
    + intros [(b' & [->|Hb']%elem_of_cons & <- & <-)|[[Hne Hk] Hx]].
      * right. split; [done|]. by rewrite lookup_insert_eq.
      * left. by exists b'.
      * right. split; [done|]. by rewrite lookup_insert_ne by done.
Qed.

(** * A document *)

Definition stored_rule (now : Z) (name : string) (r : ProfileTypeRule) : ProfileTypeRule :=
  rule_with name (ExpansionOrDefault (pt_Expansion r)) (NormalizeAptArchives (pt_AptArchives r)) now r.

Definition stored_entry (now : Z) (name : string) (e : ProfileEntry) : ProfileEntry :=
  MkEntry name (pe_Type e) (TrimSpace (pe_Name e)) (pe_Constraint e) (pe_Version e) (pe_Origin e) (pe_Reason e)
    (pe_ReviewAfter e) (pe_Actor e) now (formatPinnedAt (pe_PinnedAt e)) (pe_PinnedBy e).

Lemma insert_types_rows now name l db :
  Forall (fun r => validateProfileTypeRule r = None) (map (fun r => normalize_rule (pt_Expansion r) r) l) ->
  let db' := foldl (fun db r => insert_type now name r db) db (map (fun r => normalize_rule (pt_Expansion r) r) l) in
  db_types db' = foldl (fun m r => <[(name, pt_Type r) := stored_rule now name r]> m) (db_types db) l
  /\ db_profiles db' = db_profiles db /\ db_entries db' = db_entries db /\ db_bindings db' = db_bindings db.
Proof.
  revert db. induction l as [|r l IH]; intros db; [done|]. cbn [map foldl]. intros [Hr Hl]%Forall_cons.
  destruct (IH (insert_type now name (normalize_rule (pt_Expansion r) r) db) Hl) as (-> & -> & -> & ->).
  split; [|done]. unfold insert_type. rewrite split_join; [done|apply NormalizeAptArchives_sorted|by apply (validate_archives _ Hr)].
Qed.

Lemma insert_entries_rows now name l db :
  NoDup (map (fun e => (name, pe_Type e, TrimSpace (pe_Name e))) l) ->
  (forall e, e ∈ l -> db_entries db !! (name, pe_Type e, TrimSpace (pe_Name e)) = None) ->
  let db' := foldl (fun db e => insert_entry now name e db) db (map (fun e => named (TrimSpace (pe_Name e)) e) l) in
  db_entries db' = foldl (fun m e => <[(name, pe_Type e, TrimSpace (pe_Name e)) := stored_entry now name e]> m) (db_entries db) l
  /\ db_profiles db' = db_profiles db /\ db_types db' = db_types db /\ db_bindings db' = db_bindings db.
Proof.
  revert db. induction l as [|e l IH]; intros db; [done|]. cbn [map foldl]. intros [He Hd]%NoDup_cons Hn.
  destruct (IH (insert_entry now name (named (TrimSpace (pe_Name e)) e) db) Hd) as (-> & -> & -> & ->).
  - intros e' He'. cbn [insert_entry set_entries db_entries named pe_Type pe_Name]. rewrite lookup_insert_ne.
    + apply Hn. by right.
    + intros E. apply He. rewrite E. change (map ?f l) with (f <$> l). by apply (list_elem_of_fmap_2 (fun e => (name, pe_Type e, TrimSpace (pe_Name e)))).
  - split; [|done]. unfold insert_entry. cbn [named pe_Type pe_Name]. by rewrite Hn by left.
Qed.

Lemma CreateProfileWith_inv env p types entries db db' :
  CreateProfileWith env p types entries db = (db', inl tt) ->
  let name := TrimSpace (pr_Name p) in
  let types' := map (fun r => normalize_rule (pt_Expansion r) r) types in
  let entries' := map (fun e => named (TrimSpace (pe_Name e)) e) entries in
  validateProfileName name = None /\ Forall (fun r => validateProfileTypeRule r = None) types'
  /\ exists db1, insert_profile env (MkProfileRow name (pr_Description p) (pr_Actor p) 0) db = inl db1
      /\ db' = foldl (fun db e => insert_entry (env_now env) name e db)
                 (foldl (fun db r => insert_type (env_now env) name r db) db1 types') entries'.
Proof.
  unfold CreateProfileWith, settle. cbv zeta. intros H. repeat (case_match; try done).
  match goal with E : first_some validateProfileTypeRule _ = None |- _ => apply first_some_None in E end.
  repeat match goal with E : inl _ = inl _ |- _ => injection E as <- end. injection H as <-. eauto 8.
Qed.

Lemma document_rows {raced} env p types entries db db' :
  profile_tables_ok raced db -> TrimSpace (pr_Name p) ∉ raced -> CreateProfileWith env p types entries db = (db', inl tt) ->
  let name := TrimSpace (pr_Name p) in
  NoDup (map pt_Type types) -> NoDup (map (fun e => (pe_Type e, TrimSpace (pe_Name e))) entries) ->
  db_profiles db' = <[name := MkProfileRow name (pr_Description p) (pr_Actor p) (env_now env)]> (db_profiles db)
  /\ db_profiles db !! name = None /\ db_bindings db' = db_bindings db
  /\ (forall k r, db_types db' !! k = Some r <->
        (exists r0, r0 ∈ types /\ k = (name, pt_Type r0) /\ r = stored_rule (env_now env) name r0)
        \/ (k.1 <> name /\ db_types db !! k = Some r))
  /\ (forall k e, db_entries db' !! k = Some e <->
        (exists e0, e0 ∈ entries /\ k = (name, pe_Type e0, TrimSpace (pe_Name e0)) /\ e = stored_entry (env_now env) name e0)
        \/ (k.1.1 <> name /\ db_entries db !! k = Some e)).
Proof.
  intros Hok Hlate (Hv & Ht & db1 & Hi & ->)%CreateProfileWith_inv name Hdt Hde. fold name in Hv, Hi.
  assert (Hn : db_profiles db !! name = None).
  { unfold insert_profile in Hi. cbn [pr_Name] in Hi. by destruct (db_profiles db !! name). }
  destruct (no_rows db Hok name Hn Hlate) as [Hnt Hne].
  unfold insert_profile in Hi. cbn [pr_Name] in Hi. rewrite Hn in Hi. injection Hi as <-.
  set (db1 := set_profiles _ db). fold name.
  destruct (insert_types_rows (env_now env) name types db1 Ht) as (Et & Ep & Ee & Eb).
  assert (Hke : NoDup (map (fun e => (name, pe_Type e, TrimSpace (pe_Name e))) entries)).
  { replace (map (fun e => (name, pe_Type e, TrimSpace (pe_Name e))) entries)
      with ((fun x : string * string => (name, x.1, x.2)) <$> map (fun e => (pe_Type e, TrimSpace (pe_Name e))) entries).
    - apply NoDup_fmap_2; [|done]. by intros [??] [??] [= -> ->].
    - change (?f <$> map ?g ?l) with (map f (map g l)). by rewrite map_map. }
  assert (Hkt : NoDup (map (fun r => (name, pt_Type r)) types)).
  { replace (map (fun r => (name, pt_Type r)) types) with (pair name <$> map pt_Type types).
    - apply NoDup_fmap_2; [|done]. by intros ?? [= ->].
    - change (?f <$> map ?g ?l) with (map f (map g l)). by rewrite map_map. }
  destruct (insert_entries_rows (env_now env) name entries
              (foldl (fun db r => insert_type (env_now env) name r db) db1 (map (fun r => normalize_rule (pt_Expansion r) r) types)) Hke)
    as (Ee' & Ep' & Et' & Eb').
  { intros e _. rewrite Ee. apply Hne. }
  rewrite Ep', Ep, Eb', Eb, Et', Et, Ee', Ee. split; [done|]. split; [done|]. split; [done|]. split.
  - intros k r. rewrite foldl_insert_lookup by done. split.
    + intros [(r0 & Hr & <- & <-)|[Hk Hr]]; [left; by exists r0|right]. split; [|done]. intros E. destruct k as [n t]. cbn in E. subst n. by rewrite Hnt in Hr.
    + intros [(r0 & Hr & -> & ->)|[Hk Hr]]; [left; by exists r0|right]. split; [|done].
      change (map ?f types) with (f <$> types). by intros (r0 & -> & _)%list_elem_of_fmap.
  - intros k e. rewrite foldl_insert_lookup by done. split.
    + intros [(e0 & He & <- & <-)|[Hk He]]; [left; by exists e0|right]. split; [|done]. intros E. destruct k as [[n t] x]. cbn in E. subst n. by rewrite Hne in He.
    + intros [(e0 & He & -> & ->)|[Hk He]]; [left; by exists e0|right]. split; [|done].
      change (map ?f entries) with (f <$> entries). by intros (e0 & -> & _)%list_elem_of_fmap.
Qed.

#[export] Instance entry_order_comparator : Comparator entry_order.
Proof. apply (lex_comparator (on_key pe_Type Compare) (on_key pe_Name Compare)). Qed.

(** A profile whose rows are the same in two tables is read the same. *)
Lemma GetProfile_same {raced raced'} env db db' name :
  profile_tables_ok raced db -> profile_tables_ok raced' db' ->
  db_profiles db' !! name = db_profiles db !! name ->
  (forall typ, db_types db' !! (name, typ) = db_types db !! (name, typ)) ->
  (forall typ n, db_entries db' !! (name, typ, n) = db_entries db !! (name, typ, n)) ->
  GetProfile env db' db' db' name = GetProfile env db db db name.
Proof.
  intros Hok Hok' Ep Et Ee. unfold GetProfile. rewrite Ep. destruct (env_read_fails env); [done|].
  destruct (db_profiles db !! name); [|done]. f_equal. f_equal.
  - apply (StronglySorted_unique_strong (fun a b => on_key pt_Type Compare a b <= 0)).
    + intros a b (Ha & <-)%(profileTypes_elem _ Hok') (Hb & Eb)%(profileTypes_elem _ Hok) H1 H2.
      assert (E : pt_Type a = pt_Type b).
      { apply Compare_zero. unfold on_key in H1, H2. rewrite (Compare_anti (pt_Type a)) in H2. lia. }
      rewrite <- E in Hb. rewrite Et in Ha. congruence.
    + by apply (SliceStable_by _ (on_key pt_Type Compare)).
    + by apply (SliceStable_by _ (on_key pt_Type Compare)).
    + apply NoDup_Permutation; [by eapply profileTypes_NoDup..|]. intros r. by rewrite (profileTypes_elem _ Hok'), (profileTypes_elem _ Hok), Et.
  - apply (StronglySorted_unique_strong (fun a b => entry_order a b <= 0)).
    + intros a b (Ha & <-)%(profileEntries_elem _ Hok') (Hb & Eb)%(profileEntries_elem _ Hok) H1 H2.
      assert (E : entry_order a b = 0) by (rewrite (cmp_anti entry_order a b) in H2; lia).
      apply then_cmp_zero in E as [E1%Compare_zero E2%Compare_zero]. rewrite <- E1, <- E2 in Hb. rewrite Ee in Ha. congruence.
    + by apply (SliceStable_by _ entry_order).
    + by apply (SliceStable_by _ entry_order).
    + apply NoDup_Permutation; [by eapply profileEntries_NoDup..|]. intros e. by rewrite (profileEntries_elem _ Hok'), (profileEntries_elem _ Hok), Ee.
Qed.

Lemma either_spec x a b : (x =? a)%string || (x =? b)%string = true -> x = a \/ x = b.
Proof. intros [H%String.eqb_eq|H%String.eqb_eq]%orb_true_iff; [by left|by right]. Qed.

Lemma ValidExpansion_spec e : ValidExpansion e = true -> e ∈ Expansions.
Proof.
  unfold ValidExpansion. intros [[->| ->]%either_spec| ->%String.eqb_eq]%orb_true_iff; unfold Expansions.
  - left.
  - right. left.
  - right. right. left.
Qed.

Lemma validate_rule r :
  validateProfileTypeRule r = None ->
  (pt_Membership r = MembershipClosed \/ pt_Membership r = MembershipOpen)
  /\ (pt_VersionDefault r = VersionPinned \/ pt_VersionDefault r = VersionFloating)
  /\ (pt_AptBase r <> "" \/ pt_AptArchives r <> [] -> pt_Type r = TypeApt).
Proof.
  unfold validateProfileTypeRule. destruct (ValidMembership _) eqn:Em; [|done]. destruct (ValidVersionDefault _) eqn:Ev; [|done].
  cbn [negb]. case_match; [done|]. case_match eqn:E1; [done|]. case_match eqn:E2; [done|]. intros _.
  split; [by apply either_spec|]. split; [by apply either_spec|]. intros Ha.
  destruct (String.eqb_spec (pt_Type r) TypeApt) as [|]; [done|]. cbn [negb] in E1, E2. rewrite andb_true_r in E1, E2.
  apply negb_false_iff, String.eqb_eq in E1. destruct Ha as [?|Ha]; [done|]. by destruct (pt_AptArchives r).
Qed.

(** Three queries on well-formed tables. *)
Lemma GetProfile_own {raced} env db0 db1 db2 name d :
  profile_tables_ok raced db0 -> profile_tables_ok raced db1 -> profile_tables_ok raced db2 ->
  GetProfile env db0 db1 db2 name = inl d ->
  db_profiles db0 !! name = Some (pd_Profile d) /\ pd_Name d = name
  /\ Forall (fun r => pt_Profile r = name) (pd_Types d) /\ Forall (fun e => pe_Profile e = name) (pd_Entries d)
  /\ NoDup (pt_Type <$> pd_Types d) /\ NoDup ((fun e => (pe_Type e, pe_Name e)) <$> pd_Entries d).
Proof.
  intros Hok0 Hok1 Hok2. unfold GetProfile. destruct (env_read_fails env); [done|].
  destruct (db_profiles db0 !! name) as [p|] eqn:Ep; [|done]. intros [= <-]. cbn [pd_Profile pd_Types pd_Entries].
  destruct (pk_profiles _ _ Hok0 _ _ Ep) as [En _]. split; [by destruct p|]. split; [done|].
  split; [apply Forall_forall; intros r Hr'; by apply (profileTypes_elem _ Hok1) in Hr' as [_ ?]|].
  split; [apply Forall_forall; intros e He'; by apply (profileEntries_elem _ Hok2) in He' as [_ ?]|]. split.
  - apply NoDup_fmap_2_strong; [|by eapply profileTypes_NoDup].
    intros a b [Ha _]%(profileTypes_elem _ Hok1) [Hb _]%(profileTypes_elem _ Hok1) E. rewrite E in Ha. congruence.
  - apply NoDup_fmap_2_strong; [|by eapply profileEntries_NoDup].
    intros a b [Ha _]%(profileEntries_elem _ Hok2) [Hb _]%(profileEntries_elem _ Hok2) [= E1 E2]. rewrite E1, E2 in Ha. congruence.
Qed.

(** * Theorems *)

(** C25: What the profile tables hold, whatever was written and removed and however
    the statements of concurrent calls interleave.  Every type rule, entry and
    binding is under its own key; rules have a membership, a version default and an
    expansion the predicate knows, and what is read on the apt rule alone is
    nowhere else; entries have a trimmed name and a constraint there is.  Each is of
    a profile that is there, except under a name a write came late for: the call
    found the profile and inserted after another had deleted it, which no
    transaction and no foreign key prevents.  No such name arises when every call
    runs between the others.  A profile read back, by three queries that others
    write between, has one rule per type and one entry per name, all its own. *)
Theorem profile_rows_valid past raced db :
  profile_run past raced db ->
  (forall k r, db_types db !! k = Some r -> k = (pt_Profile r, pt_Type r) /\ of_profile raced db (pt_Profile r)
     /\ (pt_Membership r = MembershipClosed \/ pt_Membership r = MembershipOpen)
     /\ (pt_VersionDefault r = VersionPinned \/ pt_VersionDefault r = VersionFloating)
     /\ pt_Expansion r ∈ Expansions
     /\ (pt_AptBase r <> "" \/ pt_AptArchives r <> [] -> pt_Type r = TypeApt))
  /\ (forall k e, db_entries db !! k = Some e -> k = (pe_Profile e, pe_Type e, pe_Name e) /\ of_profile raced db (pe_Profile e)
     /\ pe_Name e <> "" /\ TrimSpace (pe_Name e) = pe_Name e /\ pe_Constraint e ∈ "" :: ProfileConstraints)
  /\ (forall i b, db_bindings db !! i = Some b -> pb_Identity b = i /\ of_profile raced db (pb_Profile b))
  /\ (forall n, n ∈ raced -> exists seen, seen ∈ past /\ is_Some (db_profiles seen !! n))
  /\ (alone past raced db -> raced = ∅)
  /\ (forall env db0 db1 db2 name d, db0 ∈ past -> db1 ∈ past -> db2 ∈ past -> GetProfile env db0 db1 db2 name = inl d ->
        db_profiles db0 !! name = Some (pd_Profile d) /\ pd_Name d = name
        /\ Forall (fun r => pt_Profile r = name) (pd_Types d) /\ Forall (fun e => pe_Profile e = name) (pd_Entries d)
        /\ NoDup (pt_Type <$> pd_Types d) /\ NoDup ((fun e => (pe_Type e, pe_Name e)) <$> pd_Entries d)).
Proof.
  intros Hr. destruct (profile_run_ok _ _ _ Hr) as (Hok & _ & Hpast & Hraced). destruct (Hok) as [_ H2 H3 H4].
  split; [|split; [|split; [|split; [done|split; [by apply alone_not_raced|]]]]].
  - intros k r Hk. destruct (H2 k r Hk) as (-> & Hp & [Hv Hx _]). split; [done|]. split; [done|].
    destruct (validate_rule r Hv) as (Hm & Hd & Ha). split; [done|]. split; [done|]. split; [|done]. by apply ValidExpansion_spec.
  - intros k e Hk. destruct (H3 k e Hk) as (-> & Hp & Hn & Ht & Hc). do 4 (split; [done|]).
    apply elem_of_cons. destruct Hc as [->|Hc]; [by left|right]. by apply slice_contains_spec in Hc.
  - intros i b Hb. by destruct (H4 i b Hb) as (? & ? & ?).
  - intros env db0 db1 db2 name d Hin0 Hin1 Hin2. rewrite Forall_forall in Hpast. by apply (GetProfile_own (raced := raced)); apply Hpast.
Qed.

Definition web_entry (typ name constraint version : string) : ProfileEntry :=
  MkEntry "web" typ name constraint version "" "" "" "" 0 zero_time "".

Definition web_rule (typ membership version_default expansion : string) : ProfileTypeRule :=
  MkRule "web" typ membership version_default expansion "" [] "" 0.

Definition quiet : db_env := MkEnv false false false 7.

Definition web_db : profile_db :=
  (CreateProfileWith quiet (MkProfileRow "web " "" "" 0) [web_rule TypePypi MembershipClosed VersionPinned ExpansionBlock]
     [web_entry TypePypi "django" "" "4.2.11"] no_profiles).1.

Lemma web_db_run : profile_run [web_db; no_profiles] ∅ web_db.
Proof. eapply run_step; [apply run_start|apply step_create_with]. Qed.

(** C26: A document is stored whole or not at all.  A refusal leaves the tables as
    they were.  A success, for a document with one rule per type and one entry
    per trimmed name, and under a name no earlier write came late for, is read back
    as that document: its description and author and the time, its rules with the
    expansion spelt out and the archives normalized, its entries with their names
    trimmed, in the order of their keys; and every other profile is read as before. *)
Theorem document_read_back env p types entries past raced db db' r :
  profile_run past raced db -> CreateProfileWith env p types entries db = (db', r) ->
  let name := TrimSpace (pr_Name p) in
  (forall e, r = inr e -> db' = db)
  /\ (r = inl tt -> name ∉ raced -> NoDup (map pt_Type types) -> NoDup (map (fun e => (pe_Type e, TrimSpace (pe_Name e))) entries) ->
      (forall env', env_read_fails env' = false ->
         exists d, GetProfile env' db' db' db' name = inl d
           /\ pd_Profile d = MkProfileRow name (pr_Description p) (pr_Actor p) (env_now env)
           /\ pd_Types d ≡ₚ map (stored_rule (env_now env) name) types
           /\ pd_Entries d ≡ₚ map (stored_entry (env_now env) name) entries
           /\ StronglySorted (fun a b => entry_order a b <= 0) (pd_Entries d))
      /\ forall env' other, other <> name -> GetProfile env' db' db' db' other = GetProfile env' db db db other).
Proof.
  intros Hreach E name. apply run_tables_ok in Hreach as Hok. split.
  { intros e ->. unfold CreateProfileWith, settle in E. by repeat (case_match; simplify_eq). }
  intros -> Hraced Hdt Hde. assert (Hok' : profile_tables_ok raced db').
  { change db' with (db', @inl unit profile_error tt).1. rewrite <- E. by apply CreateProfileWith_ok. }
  destruct (document_rows env p types entries db db' Hok Hraced E Hdt Hde) as (Ep & Hn & _ & Ht & He). fold name in Ep, Hn, Ht, He. split.
  - intros env' Hr. exists (MkDetail (MkProfileRow name (pr_Description p) (pr_Actor p) (env_now env)) (profileTypes db' name) (profileEntries db' name)).
    split; [unfold GetProfile; by rewrite Hr, Ep, lookup_insert_eq|]. split; [done|]. cbn [pd_Types pd_Entries]. split; [|split].
    + apply NoDup_Permutation; [by eapply profileTypes_NoDup| |].
      * apply (NoDup_fmap_1 pt_Type). change (?f <$> map ?g ?l) with (map f (map g l)). by rewrite map_map.
      * intros r. change (map ?g ?l) with (g <$> l). rewrite (profileTypes_elem _ Hok'), Ht, list_elem_of_fmap. split.
        -- intros [[(r0 & Hr0 & [= E1] & ->)|[[] _]] _]; [by exists r0|done].
        -- intros (r0 & -> & Hr0). split; [left; by exists r0|done].
    + apply NoDup_Permutation; [by eapply profileEntries_NoDup| |].
      * apply (NoDup_fmap_1 (fun e => (pe_Type e, pe_Name e))). change (?f <$> map ?g ?l) with (map f (map g l)). by rewrite map_map.
      * intros e. change (map ?g ?l) with (g <$> l). rewrite (profileEntries_elem _ Hok'), He, list_elem_of_fmap. split.
        -- intros [[(e0 & He0 & [= E1 E2] & ->)|[[] _]] _]; [by exists e0|done].
        -- intros (e0 & -> & He0). split; [left; by exists e0|done].
    + by apply (SliceStable_by _ entry_order).
  - intros env' other Hne. apply (GetProfile_same _ _ _ _ Hok Hok').
    + by rewrite Ep, lookup_insert_ne.
    + intros typ. apply option_eq. intros r. rewrite Ht. split; [|by right]. by intros [(r0 & _ & [= ?] & _)|[_ ?]].
    + intros typ n. apply option_eq. intros e. rewrite He. split; [|by right]. by intros [(e0 & _ & [= ?] & _)|[_ ?]].
Qed.

Lemma document_read_back_witness :
  let types := [web_rule TypePypi MembershipClosed VersionPinned ""] in
  let entries := [web_entry TypePypi " Django " ConstraintExact "4.2.11"; web_entry TypeNpm "left-pad" "" ""] in
  let after := (CreateProfileWith quiet (MkProfileRow "db" "the databases" "alice" 0) types entries web_db).1 in
  (exists d, GetProfile quiet after after after "db" = inl d
     /\ pd_Profile d = MkProfileRow "db" "the databases" "alice" 7 /\ pd_Entries d ≡ₚ map (stored_entry 7 "db") entries)
  /\ GetProfile quiet after after after "web" = GetProfile quiet web_db web_db web_db "web".
Proof.
  intros types entries after.
  destruct (document_read_back quiet (MkProfileRow "db" "the databases" "alice" 0) types entries _ _ web_db
              after (inl tt) web_db_run ltac:(vm_compute; reflexivity)) as [_ H].
  destruct H as [H1 H2]; [reflexivity|apply not_elem_of_empty|apply NoDup_singleton| |split].
  - constructor; [|apply NoDup_singleton]. intros Hin. vm_compute in Hin. apply list_elem_of_singleton in Hin. discriminate.
  - destruct (H1 quiet eq_refl) as (d & Hd & Hp & _ & He & _). exists d. split; [exact Hd|]. split; [exact Hp|exact He].
  - apply H2. vm_compute. discriminate.
Defined.

(** Deleting a profile.  One that an identity is bound to is refused, with the
    identities, unless the caller asked to unbind them, and a refusal changes
    nothing.  A deletion leaves no row of the profile: no rule, entry, binding or
    baseline, and no component of its baselines; what it reports unbound is what
    was bound.  Every other profile is read as before, and one created under the
    name starts with nothing. *)
Theorem deletion_leaves_nothing env name unbind past raced db db' r :
  profile_run past raced db -> DeleteProfile env name unbind db = (db', r) ->
  let n := TrimSpace name in
  (forall e, r = inr e -> db' = db)
  /\ (unbind = false -> (exists i b, db_bindings db !! i = Some b /\ pb_Profile b = n) -> exists e, r = inr e)
  /\ (forall del, r = inl del ->
      db_profiles db' !! n = None
      /\ (forall k x, db_types db' !! k = Some x -> pt_Profile x <> n) /\ (forall k x, db_entries db' !! k = Some x -> pe_Profile x <> n)
      /\ (forall k x, db_bindings db' !! k = Some x -> pb_Profile x <> n)
      /\ (forall id, db_baselines db' !! id <> Some n) /\ (forall id, db_baselines db !! id = Some n -> id ∉ db_components db')
      /\ (forall i, i ∈ pdel_Unbound del <-> exists b, db_bindings db !! i = Some b /\ pb_Profile b = n)
      /\ (forall env' other, other <> n -> GetProfile env' db' db' db' other = GetProfile env' db db db other)
      /\ (forall env' p db'', TrimSpace (pr_Name p) = n -> CreateProfile env' p db' = (db'', inl tt) ->
            profileTypes db'' n = [] /\ profileEntries db'' n = [])).
Proof.
  intros Hreach E n. apply run_tables_ok in Hreach as Hok.
  assert (Hbound : forall i, i ∈ bound_to db n <-> exists b, db_bindings db !! i = Some b /\ pb_Profile b = n).
  { intros i. unfold bound_to. rewrite sort_Strings_perm. change (map fst ?l) with (fst <$> l). rewrite list_elem_of_fmap. split.
    - intros ([j b] & -> & H%elem_of_map_to_list). apply map_lookup_filter_Some in H as [H1 H2]. by exists b.
    - intros (b & H1 & H2). exists (i, b). split; [done|]. apply elem_of_map_to_list. by apply map_lookup_filter_Some. }
  unfold DeleteProfile, settle in E. fold n in E. split; [|split].
  - intros e ->. by repeat (case_match; simplify_eq).
  - intros -> Hb. assert (Hlen : (0 <? length (bound_to db n))%nat = true).
    { destruct Hb as (i & b & Hb). assert (H : i ∈ bound_to db n) by (apply Hbound; by exists b).
      destruct (bound_to db n); [by apply elem_of_nil in H|done]. }
    rewrite Hlen in E. cbn [negb andb] in E. repeat (case_match; simplify_eq); by eexists.
  - intros del ->. assert (Hdel : db' = erase n db /\ pdel_Unbound del = bound_to db n) by by repeat (case_match; simplify_eq).
    destruct Hdel as [-> ->]. pose proof (erase_ok n db Hok) as Hok'.
    assert (Hnone : db_profiles (erase n db) !! n = None) by apply lookup_delete_eq.
    split; [done|]. cbn [erase db_profiles db_types db_entries db_bindings db_baselines db_components].
    split; [by intros k x [_ H]%map_lookup_filter_Some|]. split; [by intros k x [_ H]%map_lookup_filter_Some|].
    split; [by intros k x [_ H]%map_lookup_filter_Some|]. split; [by intros id [_ H]%map_lookup_filter_Some|].
    split; [|split; [exact Hbound|split]].
    + intros id Hid [_ H]%filter_elem. apply negb_true_iff in H. unfold of_baselines in H.
      assert (Hs : filter (fun kv => kv.2 = n) (db_baselines db) !! id = Some n) by by apply map_lookup_filter_Some.
      by rewrite Hs in H.
    + intros env' other Hne. apply (GetProfile_same _ _ _ _ Hok Hok'); cbn [erase db_profiles db_types db_entries].
      * by rewrite lookup_delete_ne.
      * intros typ. apply option_eq. intros x. rewrite map_lookup_filter_Some. split; [by intros [? _]|].
        intros Hx. split; [done|]. cbn. destruct (pk_types _ db Hok _ _ Hx) as ([= <- _] & _). done.
      * intros typ m. apply option_eq. intros x. rewrite map_lookup_filter_Some. split; [by intros [? _]|].
        intros Hx. split; [done|]. cbn. destruct (pk_entries _ db Hok _ _ Hx) as ([= <- _ _] & _). done.
    + intros env' p db'' En Ec. unfold CreateProfile, settle in Ec. rewrite En in Ec. clear En. clearbody n. repeat (case_match; simplify_eq).
      match goal with H : insert_profile _ _ _ = inl _ |- _ => unfold insert_profile in H; cbn [pr_Name] in H; rewrite Hnone in H; injection H as <- end.
      change (profileTypes _ n) with (profileTypes (erase n db) n). change (profileEntries _ n) with (profileEntries (erase n db) n).
      split; apply elem_of_nil_inv.
      * intros x [Hx <-]%(profileTypes_elem _ Hok'). by apply map_lookup_filter_Some in Hx as [_ Hx].
      * intros x [Hx <-]%(profileEntries_elem _ Hok'). by apply map_lookup_filter_Some in Hx as [_ Hx].
Qed.

Definition bound_db : profile_db := (BindProfile quiet web_db web_db (MkBinding "web01" "web" "" "" 0) web_db).1.

Lemma bound_db_run : profile_run [bound_db; web_db; no_profiles] ∅ bound_db.
Proof.
  change ∅ with (late web_db web_db "web" ∅).
  eapply run_step; [exact web_db_run|]. apply (step_bind _ _ _ quiet web_db web_db (MkBinding "web01" "web" "" "" 0)); by left.
Qed.

Lemma deletion_leaves_nothing_witness :
  (DeleteProfile quiet "web" false bound_db).2 = inr (ErrProfileBound "web" ["web01"])
  /\ db_profiles (DeleteProfile quiet "web" true bound_db).1 !! "web" = None.
Proof.
  split; [vm_compute; reflexivity|].
  destruct (DeleteProfile quiet "web" true bound_db) as [db' r] eqn:E.
  destruct r as [del|e]; [|vm_compute in E; discriminate].
  destruct (deletion_leaves_nothing quiet "web" true _ _ bound_db db' (inl del) bound_db_run E) as (_ & _ & H). by apply (H del).
Defined.

(** * A write that came late *)

(** One process checks that the profile is there, another deletes it, and the first
    inserts. *)
Definition late_entry : ProfileEntry := web_entry TypeNpm "left-pad" ConstraintExact "1.0.0".
Definition deleted_db : profile_db := (DeleteProfile quiet "web" false web_db).1.
Definition orphan_db : profile_db := (PutProfileEntry quiet web_db web_db late_entry deleted_db).1.

Lemma orphan_run : profile_run [orphan_db; deleted_db; web_db; no_profiles] (late web_db deleted_db "web" ∅) orphan_db.
Proof.
  eapply run_step; [eapply run_step; [exact web_db_run|apply (step_delete _ _ _ quiet "web" false)]|].
  apply (step_put _ _ _ quiet web_db web_db late_entry); (right; by left).
Qed.

(** The entry is of no profile, and a profile later created under the name has it. *)
Lemma late_entry_adopted :
  profile_run [orphan_db; deleted_db; web_db; no_profiles] {["web"]} orphan_db
  /\ db_profiles orphan_db !! "web" = None /\ is_Some (db_entries orphan_db !! ("web", TypeNpm, "left-pad"))
  /\ let fresh := (CreateProfile quiet (MkProfileRow "web" "" "" 0) orphan_db).1 in
     exists d, GetProfile quiet fresh fresh fresh "web" = inl d /\ map pe_Name (pd_Entries d) = ["left-pad"].
Proof.
  split; [|split; [vm_compute; reflexivity|split; [eexists; vm_compute; reflexivity|]]].
  - pose proof orphan_run as H. replace (late web_db deleted_db "web" ∅) with ({["web"]} : gset string) in H; [exact H|].
    unfold late. replace (isSome (db_profiles web_db !! "web")) with true by (vm_compute; reflexivity).
    replace (isSome (db_profiles deleted_db !! "web")) with false by (vm_compute; reflexivity). symmetry. apply union_empty_r_L.
  - intros fresh. eexists. split; vm_compute; reflexivity.
Qed.

Lemma profile_rows_valid_witness :
  alone [bound_db; web_db; no_profiles] ∅ bound_db /\ is_Some (db_profiles bound_db !! "web")
  /\ of_profile {["web"]} orphan_db "web"
  /\ (exists d, GetProfile quiet bound_db web_db bound_db "web" = inl d /\ NoDup (pt_Type <$> pd_Types d)).
Proof.
  split.
  { change ∅ with (late web_db web_db "web" ∅).
    eapply alone_step; [eapply alone_step; [apply alone_start|apply step_create_with]|].
    apply (step_bind _ _ _ quiet web_db web_db (MkBinding "web01" "web" "" "" 0)); by apply list_elem_of_singleton. }
  split; [eexists; vm_compute; reflexivity|]. split.
  - destruct (profile_rows_valid _ _ orphan_db orphan_run) as (_ & He & _).
    destruct (He ("web", TypeNpm, "left-pad") _ ltac:(vm_compute; reflexivity)) as (_ & [Hp|Hp] & _); [by left|right].
    apply late_elem in Hp as [?%not_elem_of_empty|[E _]]; [done|]. by apply elem_of_singleton.
  - destruct (profile_rows_valid _ _ bound_db bound_db_run) as (_ & _ & _ & _ & _ & H).
    destruct (GetProfile quiet bound_db web_db bound_db "web") as [d|e] eqn:E; [|vm_compute in E; discriminate].
    exists d. split; [reflexivity|].
    apply (H quiet bound_db web_db bound_db "web" d); [by left|right; by left|by left|exact E].
Defined.
