(* ===== verification/InventoryStore.v ===== *)
(** The inventory tables (internal/audit/inventory.go and
    inventory_reconcile.go): host mappings, reports, attempts, polls,
    classifications and baselines.

    The report, attempt and baseline tables are their rows in the order of their
    ids.  A report's component rows are written and deleted in the transaction
    that writes or deletes the report, so they are part of it; so are a
    baseline's.  A mapping, a poll and a classification are keyed.  Times are
    nanoseconds, kept to the millisecond as their columns are, and two texts
    compare as their times.  [digest] is the SHA-256 of a report's JSON, which is
    what a classification and the ids of a baseline are read back from. *)

From stdpp Require Import base list gmap strings sorting relations.
From Stdlib Require Import ZArith Lia Ascii Sorted.
From S2P Require Import Prelude GoStrings GoSort GoTime Types ProfileStore.

(** * Rows *)

Record InventoryComponent := MkComponent {
  cp_Ecosystem : string;
  cp_Name : string;
  cp_Version : string;
  cp_Path : string;
  cp_DigestAlgorithm : string;
  cp_DigestValue : string;
  cp_Origin : string;
  cp_PURL : string
}.

Record InventoryReport := MkReport {
  ir_ID : Z;
  ir_Source : string;
  ir_ExternalID : string;
  ir_Identity : string;
  ir_ObservedAt : Z;
  ir_ReceivedAt : Z;
  ir_Seq : Z;
  ir_PrevSHA256 : string;
  ir_SHA256 : string;
  ir_Components : list InventoryComponent
}.

Record InventoryAttempt := MkAttempt {
  ia_Source : string;
  ia_ExternalID : string;
  ia_Identity : string;
  ia_ObservedAt : Z;
  ia_ReceivedAt : Z;
  ia_Destination : string;
  ia_Ecosystem : string;
  ia_Detail : string
}.

Record InventoryHost := MkHost {
  ih_Source : string;
  ih_ExternalID : string;
  ih_Identity : string;
  ih_FirstSeen : Z;
  ih_LastSeen : Z
}.

Record UnboundInventoryHost := MkUnbound {
  uh_Source : string;
  uh_ExternalID : string;
  uh_Reports : Z;
  uh_FirstReport : Z;
  uh_LatestReport : Z
}.

Record InventorySourceStats := MkStats {
  is_LastReport : Z;
  is_LastAttempt : Z;
  is_LastSuccess : Z;
  is_LastError : string;
  is_MappedHosts : Z;
  is_UnboundHosts : Z;
  is_ReportsStored : Z
}.

Record ClassifiedComponent := MkClassified {
  cc_Ecosystem : string;
  cc_Name : string;
  cc_Version : string;
  cc_Path : string;
  cc_Class : string;
  cc_Reason : string
}.

Record SourceDisagreement := MkDisagreement {
  sd_Ecosystem : string;
  sd_Name : string;
  sd_Version : string;
  sd_ReportedBy : string;
  sd_ReportedIn : Z;
  sd_AbsentFrom : string;
  sd_AbsentIn : Z
}.

Record InventoryClassification := MkClassification {
  cl_ReportID : Z;
  cl_Source : string;
  cl_Identity : string;
  cl_ClassifiedAt : Z;
  cl_Components : list ClassifiedComponent;
  cl_Disagreements : list SourceDisagreement
}.

Record BaselineComponent := MkBaselineComponent {
  bl_Ecosystem : string;
  bl_Name : string;
  bl_Version : string;
  bl_DigestAlgorithm : string;
  bl_DigestValue : string
}.

Record InventoryBaseline := MkBaseline {
  ib_ID : Z;
  ib_Identity : string;
  ib_Profile : string;
  ib_ReportIDs : list Z;
  ib_Actor : string;
  ib_Comment : string;
  ib_CreatedAt : Z;
  ib_Components : list BaselineComponent
}.

Record host_row := MkHostRow { hr_identity : string; hr_first : Z; hr_last : Z }.
Record poll_row := MkPoll { po_attempt : Z; po_success : Z; po_error : string }.

Record inventory := MkInventory {
  iv_hosts : gmap (string * string) host_row;
  iv_reports : list InventoryReport;
  iv_next_report : Z;
  iv_attempts : list InventoryAttempt;
  iv_polls : gmap string poll_row;
  iv_classes : gmap Z InventoryClassification;
  iv_baselines : list InventoryBaseline;
  iv_next_baseline : Z
}.

Definition empty_inventory : inventory := MkInventory ∅ [] 1 [] ∅ ∅ [] 1.

Definition with_hosts (x : gmap (string * string) host_row) (st : inventory) : inventory :=
  MkInventory x (iv_reports st) (iv_next_report st) (iv_attempts st) (iv_polls st) (iv_classes st)
    (iv_baselines st) (iv_next_baseline st).
Definition with_attempts (x : list InventoryAttempt) (st : inventory) : inventory :=
  MkInventory (iv_hosts st) (iv_reports st) (iv_next_report st) x (iv_polls st) (iv_classes st)
    (iv_baselines st) (iv_next_baseline st).
Definition with_polls (x : gmap string poll_row) (st : inventory) : inventory :=
  MkInventory (iv_hosts st) (iv_reports st) (iv_next_report st) (iv_attempts st) x (iv_classes st)
    (iv_baselines st) (iv_next_baseline st).
Definition with_classes (x : gmap Z InventoryClassification) (st : inventory) : inventory :=
  MkInventory (iv_hosts st) (iv_reports st) (iv_next_report st) (iv_attempts st) (iv_polls st) x
    (iv_baselines st) (iv_next_baseline st).

Inductive inventory_error :=
| MappingIncomplete
| InventoryReadOnly
| InventoryDatabase
| InventoryHostConflict (existing : InventoryHost) (want : string)
| ReportIncomplete
| AttemptIncomplete
| BaselineOwner
| AlreadyClassified (report : Z).

(** * Times and digests *)

Definition Millisecond : Z := 10 ^ 6.

(** What a column holds of a time. *)
Definition invTime (t : Z) : Z := t - t mod Millisecond.

Definition storedForm (r : InventoryReport) : InventoryReport :=
  MkReport (ir_ID r) (ir_Source r) (ir_ExternalID r) (ir_Identity r) (invTime (ir_ObservedAt r)) (invTime (ir_ReceivedAt r))
    (ir_Seq r) (ir_PrevSHA256 r) (ir_SHA256 r) (ir_Components r).

(** What a report commits to: everything but its id and its own digest. *)
Definition commitment (r : InventoryReport) : InventoryReport :=
  MkReport 0 (ir_Source r) (ir_ExternalID r) (ir_Identity r) (ir_ObservedAt r) (ir_ReceivedAt r)
    (ir_Seq r) (ir_PrevSHA256 r) "" (ir_Components r).

Definition set_chain (seq : Z) (prev : string) (r : InventoryReport) : InventoryReport :=
  MkReport (ir_ID r) (ir_Source r) (ir_ExternalID r) (ir_Identity r) (ir_ObservedAt r) (ir_ReceivedAt r)
    seq prev (ir_SHA256 r) (ir_Components r).

Definition set_sum (id : Z) (sum : string) (r : InventoryReport) : InventoryReport :=
  MkReport id (ir_Source r) (ir_ExternalID r) (ir_Identity r) (ir_ObservedAt r) (ir_ReceivedAt r)
    (ir_Seq r) (ir_PrevSHA256 r) sum (ir_Components r).

(** * Reading *)

Definition InventoryHostIdentity (st : inventory) (source externalID : string) : string :=
  match iv_hosts st !! (source, externalID) with Some h => hr_identity h | None => "" end.

Definition host_of (kv : (string * string) * host_row) : InventoryHost :=
  MkHost kv.1.1 kv.1.2 (hr_identity kv.2) (hr_first kv.2) (hr_last kv.2).

(** [ORDER BY source, external_id] *)
Definition host_cmp : InventoryHost -> InventoryHost -> Z := lex (on_key ih_Source Compare) (on_key ih_ExternalID Compare).

Definition ListInventoryHosts (st : inventory) : list InventoryHost :=
  SliceStable (fun a b => host_cmp a b <? 0) (map host_of (map_to_list (iv_hosts st))).

Definition from_host (source externalID : string) (r : InventoryReport) : bool :=
  (ir_Source r =? source)%string && (ir_ExternalID r =? externalID)%string.

(** [MIN] and [MAX] of a column, NULL over no rows. *)
Definition sql_min (l : list Z) : option Z := match l with x :: l => Some (foldl Z.min x l) | [] => None end.
Definition sql_max (l : list Z) : option Z := match l with x :: l => Some (foldl Z.max x l) | [] => None end.

Definition unbound_host (st : inventory) (r : InventoryReport) : bool :=
  negb (isSome (iv_hosts st !! (ir_Source r, ir_ExternalID r))).

Definition unbound_cmp : UnboundInventoryHost -> UnboundInventoryHost -> Z :=
  lex (on_key uh_Source Compare) (on_key uh_ExternalID Compare).

Definition ListUnboundInventoryHosts (st : inventory) : list UnboundInventoryHost :=
  SliceStable (fun a b => unbound_cmp a b <? 0)
    (map (fun k : string * string =>
            let received := map ir_ReceivedAt (List.filter (from_host k.1 k.2) (iv_reports st)) in
            MkUnbound k.1 k.2 (Z.of_nat (length received)) (default zero_time (sql_min received))
              (default zero_time (sql_max received)))
       (remove_dups (map (fun r => (ir_Source r, ir_ExternalID r)) (List.filter (unbound_host st) (iv_reports st))))).

Definition of_source (source s : string) : bool := (source =? "")%string || (s =? source)%string.

Definition InventoryReports (st : inventory) (source : string) : list InventoryReport :=
  List.filter (fun r => of_source source (ir_Source r)) (iv_reports st).

Definition InventoryAttempts (st : inventory) (source : string) : list InventoryAttempt :=
  List.filter (fun a => of_source source (ia_Source a)) (iv_attempts st).

Definition report_by_id (st : inventory) (id : Z) : option InventoryReport :=
  List.find (fun r => ir_ID r =? id) (iv_reports st).

Definition InventoryReportsByID (st : inventory) (ids : list Z) : list InventoryReport := omap (report_by_id st) ids.

Definition mapped_to (st : inventory) (source identity : string) : bool :=
  existsb (fun h => (ih_Source h =? source)%string && (ih_Identity h =? identity)%string) (ListInventoryHosts st).

Definition bound_report (st : inventory) (identity : string) (r : InventoryReport) : bool :=
  (ir_Identity r =? identity)%string && negb (ir_Identity r =? "")%string && mapped_to st (ir_Source r) (ir_Identity r).

(** [SELECT MAX(id) ... GROUP BY source ORDER BY source] *)
Definition latest_ids (st : inventory) (identity : string) : list Z :=
  let rows := List.filter (bound_report st identity) (iv_reports st) in
  omap (fun s => sql_max (map ir_ID (List.filter (fun r => (ir_Source r =? s)%string) rows)))
    (sort_Strings (remove_dups (map ir_Source rows))).

Definition LatestInventoryReports (st : inventory) (identity : string) : list InventoryReport :=
  InventoryReportsByID st (latest_ids st identity).

Definition InventoryClassifications (st : inventory) (ids : list Z) : gmap Z InventoryClassification :=
  filter (fun kv => kv.1 ∈ ids) (iv_classes st).

Definition component_cmp : BaselineComponent -> BaselineComponent -> Z :=
  lex (on_key bl_Ecosystem Compare) (lex (on_key bl_Name Compare) (on_key bl_Version Compare)).

Definition baseline_of (identity profile : string) (b : InventoryBaseline) : bool :=
  (ib_Identity b =? identity)%string && (ib_Profile b =? profile)%string.

Definition read_baseline (b : InventoryBaseline) : InventoryBaseline :=
  MkBaseline (ib_ID b) (ib_Identity b) (ib_Profile b) (ib_ReportIDs b) (ib_Actor b) (ib_Comment b) (ib_CreatedAt b)
    (SliceStable (fun x y => component_cmp x y <? 0) (ib_Components b)).

(** [ORDER BY id DESC LIMIT 1]: the rows are in the order of their ids. *)
Definition CurrentInventoryBaseline (st : inventory) (identity profile : string) : option InventoryBaseline :=
  read_baseline <$> last (List.filter (baseline_of identity profile) (iv_baselines st)).

Definition ProfileBindingFor (db : profile_db) (identity : string) : string :=
  match db_bindings db !! identity with Some b => pb_Profile b | None => "" end.

Definition InventorySourceStats_of (st : inventory) (source : string) : InventorySourceStats :=
  let reports := List.filter (fun r => (ir_Source r =? source)%string) (iv_reports st) in
  let poll := default (MkPoll zero_time zero_time "") (iv_polls st !! source) in
  MkStats (default zero_time (sql_max (map ir_ReceivedAt reports))) (po_attempt poll) (po_success poll) (po_error poll)
    (Z.of_nat (length (List.filter (fun h => (ih_Source h =? source)%string) (ListInventoryHosts st))))
    (Z.of_nat (length (remove_dups (map ir_ExternalID (List.filter (unbound_host st) reports)))))
    (Z.of_nat (length reports)).

(** * Writing *)

Section store.
Context (digest : InventoryReport -> string).

Definition reportDigest (r : InventoryReport) : string := digest (commitment (storedForm r)).

(** The rows a report is chained to: those of its identity, or of its external
    id while it has none. *)
Definition in_chain (source identity externalID : string) (r : InventoryReport) : bool :=
  (ir_Source r =? source)%string && (ir_Identity r =? identity)%string
  && (negb (ir_Identity r =? "")%string || (ir_ExternalID r =? externalID)%string).

(** [ORDER BY seq DESC, id DESC] *)
Definition chain_cmp : InventoryReport -> InventoryReport -> Z :=
  lex (on_key (fun r => - ir_Seq r) compareInt) (on_key (fun r => - ir_ID r) compareInt).

Definition chain_head (st : inventory) (source identity externalID : string) : option InventoryReport :=
  head (SliceStable (fun a b => chain_cmp a b <? 0) (List.filter (in_chain source identity externalID) (iv_reports st))).

Definition chained (st : inventory) (r : InventoryReport) : InventoryReport :=
  let '(seq, prev) :=
    match chain_head st (ir_Source r) (ir_Identity r) (ir_ExternalID r) with
    | Some p => (ir_Seq p, ir_SHA256 p)
    | None => (0, "")
    end in
  let r := set_chain (seq + 1) prev r in
  set_sum (iv_next_report st) (reportDigest r) r.

Definition seen_at (t : Z) (h : host_row) : host_row := MkHostRow (hr_identity h) (hr_first h) (invTime t).

Definition add_report (r : InventoryReport) (st : inventory) : inventory :=
  MkInventory
    (if negb (ir_Identity r =? "")%string then alter (seen_at (ir_ReceivedAt r)) (ir_Source r, ir_ExternalID r) (iv_hosts st)
     else iv_hosts st)
    (iv_reports st ++ [r]) (iv_next_report st + 1) (iv_attempts st) (iv_polls st) (iv_classes st)
    (iv_baselines st) (iv_next_baseline st).

Definition AppendInventoryReport (env : db_env) (r : InventoryReport) (st : inventory)
  : inventory * (InventoryReport + inventory_error) :=
  if env_readOnly env then (st, inr InventoryReadOnly)
  else if (ir_Source r =? "")%string || (ir_ExternalID r =? "")%string then (st, inr ReportIncomplete)
  else if env_write_fails env then (st, inr InventoryDatabase)
  else
    let r := chained st (storedForm r) in
    (add_report r st, inl r).

Definition BindInventoryHost (env : db_env) (source externalID identity : string) (st : inventory)
  : inventory * (bool + inventory_error) :=
  let source := TrimSpace source in
  let externalID := TrimSpace externalID in
  let identity := TrimSpace identity in
  if (source =? "")%string || (externalID =? "")%string || (identity =? "")%string then (st, inr MappingIncomplete)
  else if env_readOnly env then (st, inr InventoryReadOnly)
  else if env_read_fails env then (st, inr InventoryDatabase)
  else
    let existing := InventoryHostIdentity st source externalID in
    if (existing =? identity)%string then (st, inl false)
    else if negb (existing =? "")%string then
      (st, inr (InventoryHostConflict (MkHost source externalID existing zero_time zero_time) identity))
    else if env_write_fails env || isSome (iv_hosts st !! (source, externalID)) then (st, inr InventoryDatabase)
    else
      let received := map ir_ReceivedAt (List.filter (from_host source externalID) (iv_reports st)) in
      let now := invTime (env_now env) in
      (with_hosts (<[(source, externalID) := MkHostRow identity (default now (sql_min received)) (default now (sql_max received))]>
         (iv_hosts st)) st, inl true).

Definition UnbindInventoryHost (env : db_env) (source externalID : string) (st : inventory)
  : inventory * (bool + inventory_error) :=
  if env_readOnly env then (st, inr InventoryReadOnly)
  else if env_write_fails env then (st, inr InventoryDatabase)
  else (with_hosts (delete (source, externalID) (iv_hosts st)) st, inl (isSome (iv_hosts st !! (source, externalID)))).

Definition stored_attempt (a : InventoryAttempt) : InventoryAttempt :=
  MkAttempt (ia_Source a) (ia_ExternalID a) (ia_Identity a) (invTime (ia_ObservedAt a)) (invTime (ia_ReceivedAt a))
    (ia_Destination a) (ia_Ecosystem a) (ia_Detail a).

Definition incomplete_attempt (a : InventoryAttempt) : bool :=
  (ia_Source a =? "")%string || (ia_ExternalID a =? "")%string || (ia_Destination a =? "")%string.

(** The loop is one transaction, so a row it refuses takes the ones before it
    along. *)
Definition AppendInventoryAttempts (env : db_env) (attempts : list InventoryAttempt) (st : inventory)
  : inventory * option inventory_error :=
  if (length attempts =? 0)%nat then (st, None)
  else if env_readOnly env then (st, Some InventoryReadOnly)
  else if env_write_fails env then (st, Some InventoryDatabase)
  else if existsb incomplete_attempt attempts then (st, Some AttemptIncomplete)
  else (with_attempts (iv_attempts st ++ map stored_attempt attempts) st, None).

Definition RecordInventoryPoll (env : db_env) (source : string) (at_ : Z) (pollErr : option string) (st : inventory)
  : inventory * option inventory_error :=
  if env_readOnly env then (st, Some InventoryReadOnly)
  else if env_write_fails env then (st, Some InventoryDatabase)
  else
    let ts := invTime at_ in
    let row :=
      match pollErr with
      | None => MkPoll ts ts ""
      | Some e => MkPoll ts (match iv_polls st !! source with Some p => po_success p | None => zero_time end) e
      end in
    (with_polls (<[source := row]> (iv_polls st)) st, None).

Definition expired (source : string) (cutoff : Z) (r : InventoryReport) : bool :=
  (ir_Source r =? source)%string && (ir_ReceivedAt r <? invTime cutoff).

Definition expired_attempt (source : string) (cutoff : Z) (a : InventoryAttempt) : bool :=
  (ia_Source a =? source)%string && (ia_ReceivedAt a <? invTime cutoff).

Definition PruneInventory (env : db_env) (source : string) (cutoff : Z) (st : inventory)
  : inventory * (Z + inventory_error) :=
  if env_readOnly env then (st, inr InventoryReadOnly)
  else if env_write_fails env then (st, inr InventoryDatabase)
  else
    let gone := List.filter (expired source cutoff) (iv_reports st) in
    let attempts := List.filter (expired_attempt source cutoff) (iv_attempts st) in
    (MkInventory (iv_hosts st) (List.filter (fun r => negb (expired source cutoff r)) (iv_reports st)) (iv_next_report st)
       (List.filter (fun a => negb (expired_attempt source cutoff a)) (iv_attempts st)) (iv_polls st)
       (filter (fun kv => kv.1 ∉ map ir_ID gone) (iv_classes st)) (iv_baselines st) (iv_next_baseline st),
     inl (Z.of_nat (length gone) + Z.of_nat (length attempts))).

(** A report is classified once: the key of the table is the report. *)
Definition RecordInventoryClassification (env : db_env) (c : InventoryClassification) (st : inventory)
  : inventory * option inventory_error :=
  if env_readOnly env then (st, Some InventoryReadOnly)
  else if env_write_fails env then (st, Some InventoryDatabase)
  else if isSome (iv_classes st !! cl_ReportID c) then (st, Some (AlreadyClassified (cl_ReportID c)))
  else
    (with_classes (<[cl_ReportID c := MkClassification (cl_ReportID c) (cl_Source c) (cl_Identity c) (invTime (cl_ClassifiedAt c))
       (cl_Components c) (cl_Disagreements c)]> (iv_classes st)) st, None).

Definition AcceptInventoryBaseline (env : db_env) (b : InventoryBaseline) (st : inventory)
  : inventory * (InventoryBaseline + inventory_error) :=
  let identity := TrimSpace (ib_Identity b) in
  let profile := TrimSpace (ib_Profile b) in
  if Bool.eqb (identity =? "")%string (profile =? "")%string then (st, inr BaselineOwner)
  else if env_readOnly env then (st, inr InventoryReadOnly)
  else if env_write_fails env then (st, inr InventoryDatabase)
  else
    let b := MkBaseline (iv_next_baseline st) identity profile (ib_ReportIDs b) (ib_Actor b) (ib_Comment b)
               (invTime (env_now env)) (ib_Components b) in
    (MkInventory (iv_hosts st) (iv_reports st) (iv_next_report st) (iv_attempts st) (iv_polls st) (iv_classes st)
       (iv_baselines st ++ [b]) (iv_next_baseline st + 1), inl b).

(** * What the store goes through *)

Inductive inventory_step : inventory -> inventory -> Prop :=
| step_append env r st : inventory_step st (AppendInventoryReport env r st).1
| step_bind env source ext ident st : inventory_step st (BindInventoryHost env source ext ident st).1
| step_unbind env source ext st : inventory_step st (UnbindInventoryHost env source ext st).1
| step_attempts env l st : inventory_step st (AppendInventoryAttempts env l st).1
| step_poll env source at_ err st : inventory_step st (RecordInventoryPoll env source at_ err st).1
| step_classify env c st : inventory_step st (RecordInventoryClassification env c st).1
| step_baseline env b st : inventory_step st (AcceptInventoryBaseline env b st).1.

Inductive retention_step : inventory -> inventory -> Prop :=
| step_kept st st' : inventory_step st st' -> retention_step st st'
| step_prune env source cutoff st : retention_step st (PruneInventory env source cutoff st).1.

(** * The chain of a host's reports *)

Definition chain_rows (st : inventory) (source identity externalID : string) : list InventoryReport :=
  List.filter (in_chain source identity externalID) (iv_reports st).

Definition same_chain (x y : InventoryReport) : Prop :=
  in_chain (ir_Source x) (ir_Identity x) (ir_ExternalID x) y = true.

(** What a reader checks of a chain: the numbers have no gap, each row names the
    digest of the one before, and each digest is the row's. *)
Fixpoint links (seq : Z) (prev : string) (l : list InventoryReport) : bool :=
  match l with
  | [] => true
  | r :: l => (ir_Seq r =? seq + 1) && (ir_PrevSHA256 r =? prev)%string && (ir_SHA256 r =? reportDigest r)%string
              && links (ir_Seq r) (ir_SHA256 r) l
  end.

Definition committed (r : InventoryReport) : InventoryReport := commitment (storedForm r).

Record chains_ok (st : inventory) : Prop := {
  ch_ids : StronglySorted (fun x y => ir_ID x < ir_ID y) (iv_reports st);
  ch_next : forall r, r ∈ iv_reports st -> 0 < ir_ID r < iv_next_report st;
  ch_fresh : 0 < iv_next_report st;
  ch_sum : forall r, r ∈ iv_reports st -> storedForm r = r /\ ir_SHA256 r = reportDigest r;
  ch_first : forall r, r ∈ iv_reports st -> 1 <= ir_Seq r /\ (ir_Seq r = 1 -> ir_PrevSHA256 r = "");
  ch_order : forall x y, x ∈ iv_reports st -> y ∈ iv_reports st -> same_chain x y -> ir_ID x < ir_ID y -> ir_Seq x < ir_Seq y;
  ch_link : forall x y, x ∈ iv_reports st -> y ∈ iv_reports st -> same_chain x y ->
    ir_Seq y = ir_Seq x + 1 -> ir_PrevSHA256 y = ir_SHA256 x
}.

#[local] Hint Resolve ch_ids ch_next ch_fresh ch_sum ch_first ch_order ch_link : core.

Lemma in_chain_spec s i e r :
  in_chain s i e r = true <-> ir_Source r = s /\ ir_Identity r = i /\ (ir_Identity r <> "" \/ ir_ExternalID r = e).
Proof.
  unfold in_chain. rewrite !andb_true_iff, orb_true_iff, negb_true_iff, !String.eqb_eq, String.eqb_neq. tauto.
Qed.

Lemma same_chain_sym x y : same_chain x y -> same_chain y x.
Proof. unfold same_chain. rewrite !in_chain_spec. intros (E & E1 & E2). rewrite E, E1 in *. intuition congruence. Qed.

(** A chain is that of any of its rows. *)
Lemma in_chain_of s i e r x : in_chain s i e r = true -> in_chain s i e x = in_chain (ir_Source r) (ir_Identity r) (ir_ExternalID r) x.
Proof.
  intros H. apply eq_true_iff_eq. apply in_chain_spec in H as (<- & <- & H). rewrite !in_chain_spec.
  split; intros (E & E1 & E2); repeat split; try done; destruct H, E2; (left; congruence) || (right; congruence).
Qed.

Lemma invTime_idem t : invTime (invTime t) = invTime t.
Proof.
  unfold invTime, Millisecond. pose proof (Z.mod_pos_bound t (10 ^ 6) ltac:(lia)).
  pose proof (Z.div_mod t (10 ^ 6) ltac:(lia)).
  replace (t - t mod 10 ^ 6) with (t / 10 ^ 6 * 10 ^ 6) at 2 by lia. rewrite Z.mod_mul by lia. lia.
Qed.

Lemma storedForm_idem r : storedForm (storedForm r) = storedForm r.
Proof. unfold storedForm; simpl. by rewrite !invTime_idem. Qed.

Lemma chain_head_spec st s i e :
  match chain_head st s i e with
  | Some p => p ∈ chain_rows st s i e /\ forall y, y ∈ chain_rows st s i e -> ir_Seq y <= ir_Seq p
  | None => chain_rows st s i e = []
  end.
Proof.
  unfold chain_head. fold (chain_rows st s i e). set (l := chain_rows st s i e). clearbody l.
  pose proof (SliceStable_perm (fun a b => chain_cmp a b <? 0) l) as P.
  assert (Hs : StronglySorted (fun x y => chain_cmp x y <= 0) (SliceStable (fun a b => chain_cmp a b <? 0) l)).
  { apply (SliceStable_by _ chain_cmp). done. }
  destruct (SliceStable _ l) as [|p s']; simpl; [by apply Permutation_nil in P|].
  split; [rewrite <- P; left|]. intros y. rewrite <- P, elem_of_cons. intros [->|Hy]; [lia|].
  apply StronglySorted_inv in Hs as [_ Hs]. rewrite Forall_forall in Hs. specialize (Hs y Hy).
  revert Hs. unfold chain_cmp, lex, on_key, then_cmp, compareInt. repeat break_goal; lia.
Qed.

Lemma keeps_chains st st' :
  iv_reports st' = iv_reports st -> iv_next_report st' = iv_next_report st -> chains_ok st -> chains_ok st'.
Proof. intros E1 E2 []. split; rewrite ?E1, ?E2; done. Qed.

Lemma id_inj st x y : chains_ok st -> x ∈ iv_reports st -> y ∈ iv_reports st -> ir_ID x = ir_ID y -> x = y.
Proof.
  intros [Hs _ _ _ _ _ _]. induction Hs as [|z l Hl IH Hz]; [by intros ?%elem_of_nil|].
  rewrite Forall_forall in Hz. rewrite !elem_of_cons.
  intros [->|Hx] [->|Hy] E; auto; [specialize (Hz _ Hy)|specialize (Hz _ Hx)]; lia.
Qed.

Lemma prune_chains env source cutoff st : chains_ok st -> chains_ok (PruneInventory env source cutoff st).1.
Proof.
  intros H. unfold PruneInventory. repeat case_match; simpl; try done.
  assert (Hin : forall r, r ∈ List.filter (fun r => negb (expired source cutoff r)) (iv_reports st) -> r ∈ iv_reports st).
  { by intros r [? _]%filter_elem. }
  destruct H as [Hi Hn Hf Hs Hf1 Ho Hl]. split; simpl; intros; eauto.
  clear -Hi. induction Hi as [|x l Hl IH Hx]; cbn [List.filter]; [constructor|]. case_match; [|done].
  constructor; [done|]. rewrite Forall_forall in *. intros y [Hy _]%filter_elem. auto.
Qed.

Lemma chained_keeps st r :
  ir_Source (chained st r) = ir_Source r /\ ir_Identity (chained st r) = ir_Identity r /\
  ir_ExternalID (chained st r) = ir_ExternalID r /\ ir_ID (chained st r) = iv_next_report st /\
  ir_SHA256 (chained st r) = reportDigest (chained st r).
Proof. unfold chained. by destruct (chain_head _ _ _ _) as [p|]. Qed.

(** The report follows the head of its chain, or starts it. *)
Lemma chained_follows st r :
  let n := chained st r in
  match chain_head st (ir_Source r) (ir_Identity r) (ir_ExternalID r) with
  | Some p => ir_Seq n = ir_Seq p + 1 /\ ir_PrevSHA256 n = ir_SHA256 p
  | None => ir_Seq n = 1 /\ ir_PrevSHA256 n = ""
  end.
Proof. unfold chained. by destruct (chain_head _ _ _ _) as [p|]. Qed.

Lemma chained_stored st r : storedForm (chained st (storedForm r)) = chained st (storedForm r).
Proof. unfold chained. destruct (chain_head _ _ _ _) as [p|]; unfold storedForm, set_sum, set_chain; simpl; by rewrite !invTime_idem. Qed.

Lemma sorted_snoc {A} (R : A -> A -> Prop) l x : StronglySorted R l -> (forall y, y ∈ l -> R y x) -> StronglySorted R (l ++ [x]).
Proof.
  induction 1 as [|y l Hl IH Hy]; simpl; intros H; [repeat constructor|].
  constructor; [apply IH; intros; apply H; by right|]. apply Forall_app. split; [done|]. constructor; [apply H; left|constructor].
Qed.

(** A row that comes after every row of its chain. *)
Lemma snoc_chains st n :
  chains_ok st -> ir_ID n = iv_next_report st -> storedForm n = n -> ir_SHA256 n = reportDigest n ->
  1 <= ir_Seq n -> (ir_Seq n = 1 -> ir_PrevSHA256 n = "") ->
  (forall x, x ∈ iv_reports st -> same_chain n x -> ir_Seq x < ir_Seq n /\ (ir_Seq n = ir_Seq x + 1 -> ir_PrevSHA256 n = ir_SHA256 x)) ->
  chains_ok (add_report n st).
Proof.
  intros [Hi Hn Hfr Hs Hf1 Ho Hl] Eid Est Esum Hpos Hone Hlast.
  split; simpl; try setoid_rewrite elem_of_app; try setoid_rewrite list_elem_of_singleton.
  - apply sorted_snoc; [done|]. intros y Hy. specialize (Hn y Hy). lia.
  - intros x [Hx| ->]; [specialize (Hn x Hx)|]; lia.
  - lia.
  - intros x [Hx| ->]; auto.
  - intros x [Hx| ->]; auto.
  - intros x y [Hx| ->] [Hy| ->] Hc; [auto| | |lia].
    + intros _. by apply (Hlast x Hx), same_chain_sym.
    + specialize (Hn y Hy). lia.
  - intros x y [Hx| ->] [Hy| ->] Hc E; [auto| | |lia].
    + apply (Hlast x Hx); [by apply same_chain_sym|done].
    + specialize (Hlast y Hy Hc). lia.
Qed.

(** Two rows of one chain with one number are one row. *)
Lemma seq_inj st x y :
  chains_ok st -> x ∈ iv_reports st -> y ∈ iv_reports st -> same_chain x y -> ir_Seq x = ir_Seq y -> x = y.
Proof.
  intros H Hx Hy Hc E. apply (id_inj st); auto. destruct (Z.lt_trichotomy (ir_ID x) (ir_ID y)) as [Hlt|[|Hlt]]; [|done|].
  - pose proof (ch_order _ H x y Hx Hy Hc Hlt). lia.
  - pose proof (ch_order _ H y x Hy Hx (same_chain_sym _ _ Hc) Hlt). lia.
Qed.

Lemma add_chains st r : chains_ok st -> chains_ok (add_report (chained st (storedForm r)) st).
Proof.
  intros Hok. pose proof (chained_keeps st (storedForm r)) as (Es & Ei & Ee & Eid & Esum).
  pose proof (chained_follows st (storedForm r)) as Hf. pose proof (chained_stored st r) as Est.
  pose proof (chain_head_spec st (ir_Source (storedForm r)) (ir_Identity (storedForm r)) (ir_ExternalID (storedForm r))) as Hh.
  revert Es Ei Ee Eid Esum Hf Est. generalize (chained st (storedForm r)). intros n Es Ei Ee Eid Esum Hf Est.
  rewrite <- Es, <- Ei, <- Ee in Hf, Hh. clear Es Ei Ee. cbv zeta in Hf.
  destruct (chain_head st (ir_Source n) (ir_Identity n) (ir_ExternalID n)) as [p|] eqn:Ep.
  - destruct Hf as [Eseq Eprev], Hh as [Hp Hmax]. apply filter_elem in Hp as [Hp Hpc].
    pose proof (ch_first _ Hok _ Hp). apply snoc_chains; auto; try lia.
    intros x Hx Hc. assert (ir_Seq x <= ir_Seq p) by by apply Hmax, filter_elem.
    split; [lia|]. intros E. rewrite Eprev. f_equal. apply (seq_inj st); auto; [|lia].
    unfold same_chain. by rewrite <- (in_chain_of _ _ _ p x Hpc).
  - destruct Hf as [Eseq Eprev]. apply snoc_chains; auto; try lia.
    intros x Hx Hc. exfalso. apply (not_elem_of_nil x). rewrite <- Hh. by apply filter_elem.
Qed.

Lemma chains_step st st' : inventory_step st st' -> chains_ok st -> chains_ok st'.
Proof.
  intros [] H.
  - unfold AppendInventoryReport. repeat case_match; simpl; [done..|by apply add_chains].
  - unfold BindInventoryHost. repeat case_match; simpl; try done; by apply (keeps_chains st0).
  - unfold UnbindInventoryHost. repeat case_match; simpl; try done; by apply (keeps_chains st0).
  - unfold AppendInventoryAttempts. repeat case_match; simpl; try done; by apply (keeps_chains st0).
  - unfold RecordInventoryPoll. repeat case_match; simpl; try done; by apply (keeps_chains st0).
  - unfold RecordInventoryClassification. repeat case_match; simpl; try done; by apply (keeps_chains st0).
  - unfold AcceptInventoryBaseline. repeat case_match; simpl; try done; by apply (keeps_chains st0).
Qed.

Lemma empty_chains : chains_ok empty_inventory.
Proof. split; simpl; try (by intros ? ?%elem_of_nil); try (by intros ? ? ?%elem_of_nil); [constructor|lia]. Qed.

Lemma reachable_chains st : rtc retention_step empty_inventory st -> chains_ok st.
Proof.
  apply (rtc_ind_r (fun st => chains_ok st)); [apply empty_chains|].
  intros y z _ Hs H. destruct Hs; [by eapply chains_step|by apply prune_chains].
Qed.

(** ** Chains nothing was pruned from *)

Lemma links_snoc seq prev l r :
  links seq prev (l ++ [r]) = links seq prev l &&
    match last l with
    | Some p => links (ir_Seq p) (ir_SHA256 p) [r]
    | None => links seq prev [r]
    end.
Proof.
  revert seq prev. induction l as [|x l IH]; intros; simpl; [done|].
  rewrite IH, !andb_assoc. destruct l as [|y l]; [done|]. f_equal. change (last (x :: y :: l)) with (last (y :: l)).
  destruct (last (y :: l)) eqn:El; [done|]. by apply last_None in El.
Qed.

Lemma links_seq seq prev l i r : links seq prev l = true -> l !! i = Some r -> ir_Seq r = seq + 1 + Z.of_nat i.
Proof.
  revert seq prev i. induction l as [|x l IH]; intros seq prev i; simpl; [done|].
  rewrite !andb_true_iff, Z.eqb_eq. intros [[[E _] _] H]. destruct i as [|i]; simpl; [intros [= <-]; lia|].
  intros Hi. rewrite (IH _ _ _ H Hi). lia.
Qed.

(** The head of a linked chain is its last row. *)
Lemma links_head st s i e p :
  links 0 "" (chain_rows st s i e) = true -> chain_head st s i e = Some p -> last (chain_rows st s i e) = Some p.
Proof.
  intros Hl Hp. pose proof (chain_head_spec st s i e) as H. rewrite Hp in H. destruct H as [Hin Hmax].
  apply list_elem_of_lookup in Hin as [k Hk]. pose proof (links_seq _ _ _ _ _ Hl Hk) as E.
  rewrite last_lookup. assert (Hlt := lookup_lt_Some _ _ _ Hk).
  destruct (lookup_lt_is_Some_2 (chain_rows st s i e) (pred (length (chain_rows st s i e)))) as [q Hq]; [lia|].
  pose proof (links_seq _ _ _ _ _ Hl Hq) as E1. pose proof (Hmax q (list_elem_of_lookup_2 _ _ _ Hq)).
  replace (pred _) with k in * by lia. congruence.
Qed.

Definition linked (st : inventory) : Prop := forall s i e, links 0 "" (chain_rows st s i e) = true.

Lemma add_linked st r : linked st -> linked (add_report (chained st (storedForm r)) st).
Proof.
  intros H s i e. unfold chain_rows. simpl. rewrite List.filter_app. cbn [List.filter].
  destruct (in_chain s i e (chained st (storedForm r))) eqn:Ec; [|rewrite List.app_nil_r; apply H].
  pose proof (chained_keeps st (storedForm r)) as (Es & Ei & Ee & _ & Esum).
  pose proof (chained_follows st (storedForm r)) as Hf. cbv zeta in Hf. rewrite <- Es, <- Ei, <- Ee in Hf.
  revert Ec Es Ei Ee Esum Hf. generalize (chained st (storedForm r)). intros n Ec _ _ _ Esum Hf.
  assert (E : List.filter (in_chain s i e) (iv_reports st) = chain_rows st (ir_Source n) (ir_Identity n) (ir_ExternalID n)).
  { apply List.filter_ext. intros x. by apply in_chain_of. }
  rewrite links_snoc, E, (H _ _ _). simpl.
  destruct (chain_head st (ir_Source n) (ir_Identity n) (ir_ExternalID n)) as [p|] eqn:Ep.
  - rewrite (links_head _ _ _ _ _ (H _ _ _) Ep). destruct Hf as [-> ->]. simpl.
    by rewrite Z.eqb_refl, String.eqb_refl, Esum, String.eqb_refl.
  - pose proof (chain_head_spec st (ir_Source n) (ir_Identity n) (ir_ExternalID n)) as Hn. rewrite Ep in Hn. rewrite Hn.
    destruct Hf as [-> ->]. simpl. by rewrite Esum, String.eqb_refl.
Qed.

Lemma linked_step st st' : inventory_step st st' -> linked st -> linked st'.
Proof.
  intros [] H.
  - unfold AppendInventoryReport. repeat case_match; simpl; [done..|by apply add_linked].
  - unfold BindInventoryHost. repeat case_match; done.
  - unfold UnbindInventoryHost. repeat case_match; done.
  - unfold AppendInventoryAttempts. repeat case_match; done.
  - unfold RecordInventoryPoll. repeat case_match; done.
  - unfold RecordInventoryClassification. repeat case_match; done.
  - unfold AcceptInventoryBaseline. repeat case_match; done.
Qed.

Lemma reachable_linked st : rtc inventory_step empty_inventory st -> linked st.
Proof.
  apply (rtc_ind_r (fun st => linked st)); [by intros s i e|]. intros y z _ Hs H. by eapply linked_step.
Qed.

(** What a row that follows a linked chain says. *)
Lemma links_number m z :
  links 0 "" m = true ->
  match last m with Some p => links (ir_Seq p) (ir_SHA256 p) [z] | None => links 0 "" [z] end = true ->
  ir_Seq z = 1 + Z.of_nat (length m) /\ ir_PrevSHA256 z = default "" (ir_SHA256 <$> last m).
Proof.
  intros Hm Hz. rewrite last_lookup in Hz |- *. destruct (m !! pred (length m)) as [p|] eqn:Ep; simpl in Hz |- *;
    rewrite !andb_true_iff, Z.eqb_eq, !String.eqb_eq in Hz.
  - pose proof (links_seq _ _ _ _ _ Hm Ep). pose proof (lookup_lt_Some _ _ _ Ep). intuition lia.
  - apply lookup_ge_None in Ep. destruct m; simpl in *; intuition lia.
Qed.

(** A linked chain is what its last digest commits to. *)
Lemma links_determined l l' :
  (forall a b, a ∈ l -> b ∈ l' -> reportDigest a = reportDigest b -> committed a = committed b) ->
  links 0 "" l = true -> links 0 "" l' = true -> (ir_SHA256 <$> last l) = (ir_SHA256 <$> last l') ->
  map committed l = map committed l'.
Proof.
  revert l'. induction l as [|x l IH] using rev_ind; intros l' Hinj Hl Hl' E; simpl in *.
  { destruct l' as [|y l' _] using rev_ind; [done|]. by rewrite last_snoc in E. }
  rewrite last_snoc in E. destruct l' as [|y l' _] using rev_ind; [done|]. rewrite last_snoc in E. injection E as E.
  rewrite links_snoc in Hl, Hl'. apply andb_true_iff in Hl as [Hl Hx], Hl' as [Hl' Hy].
  assert (Exy : committed x = committed y).
  { apply Hinj; [apply elem_of_app; right; by left..|].
    destruct (last l), (last l'); simpl in Hx, Hy; rewrite !andb_true_iff, !String.eqb_eq in Hx, Hy; intuition congruence. }
  assert (Hseq : ir_Seq x = ir_Seq y /\ ir_PrevSHA256 x = ir_PrevSHA256 y).
  { split; [exact (f_equal ir_Seq Exy)|exact (f_equal ir_PrevSHA256 Exy)]. }
  rewrite !map_app; simpl. rewrite Exy. f_equal. apply IH; auto.
  { intros a b Ha Hb. apply Hinj; apply elem_of_app; by left. }
  destruct (links_number l x Hl Hx) as [E1 E2], (links_number l' y Hl' Hy) as [E3 E4].
  destruct Hseq as [Hseq Hprev]. rewrite E2, E4 in Hprev.
  destruct l as [|u l _] using rev_ind; [destruct l' as [|v l' _] using rev_ind; [done|]|].
  { rewrite length_app in E3. simpl in *. lia. }
  destruct l' as [|v l' _] using rev_ind; [rewrite length_app in E1; simpl in *; lia|].
  rewrite !last_snoc in *. simpl in *. by f_equal.
Qed.

(** * The latest reports *)

Lemma foldl_max_spec l x : foldl Z.max x l ∈ x :: l /\ forall y, y ∈ x :: l -> y <= foldl Z.max x l.
Proof.
  revert x. induction l as [|z l IH]; intros x; simpl.
  - split; [left|]. intros y. rewrite list_elem_of_singleton. lia.
  - specialize (IH (x `max` z)) as [H1 H2]. split.
    + apply elem_of_cons in H1 as [E|H1]; [|by right; right].
      rewrite E. destruct (Z.max_spec x z) as [[_ ->]|[_ ->]]; [right; left|left].
    + intros y. rewrite !elem_of_cons. intros [->|[->|Hy]].
      * specialize (H2 (x `max` z) ltac:(left)). lia.
      * specialize (H2 (x `max` z) ltac:(left)). lia.
      * apply H2. by right.
Qed.

Lemma sql_max_spec l m : sql_max l = Some m -> m ∈ l /\ forall y, y ∈ l -> y <= m.
Proof. destruct l as [|x l]; simpl; [done|]. intros [= <-]. apply foldl_max_spec. Qed.

Lemma report_by_id_spec st r id : chains_ok st -> report_by_id st id = Some r <-> r ∈ iv_reports st /\ ir_ID r = id.
Proof.
  intros Hok. unfold report_by_id. split.
  - intros [H1 H2%Z.eqb_eq]%find_some. by rewrite list_elem_of_In.
  - intros [Hr <-]. destruct (List.find _ _) as [q|] eqn:E.
    + apply find_some in E as [Hq%list_elem_of_In Eq%Z.eqb_eq]. f_equal. by apply (id_inj st).
    + apply (find_none _ _) with (x := r) in E; [|by apply list_elem_of_In]. by rewrite Z.eqb_refl in E.
Qed.

(** The newest report of a source among those a host is bound to. *)
Definition newest_of (st : inventory) (identity : string) (r : InventoryReport) : Prop :=
  r ∈ iv_reports st /\ bound_report st identity r = true /\
  forall y, y ∈ iv_reports st -> bound_report st identity y = true -> ir_Source y = ir_Source r -> ir_ID y <= ir_ID r.

Lemma latest_elem st identity r : chains_ok st -> r ∈ LatestInventoryReports st identity <-> newest_of st identity r.
Proof.
  intros Hok. unfold LatestInventoryReports, InventoryReportsByID, latest_ids, newest_of.
  rewrite list_elem_of_omap. setoid_rewrite list_elem_of_omap. setoid_rewrite sort_Strings_perm.
  setoid_rewrite elem_of_remove_dups. setoid_rewrite report_by_id_spec; [|done]. split.
  - intros (id & (s & _ & Hmax) & Hr & Eid). apply sql_max_spec in Hmax as [Hin Hle].
    apply list_elem_of_fmap in Hin as (q & Eq & Hq). apply filter_elem in Hq as [Hq Hs%String.eqb_eq].
    apply filter_elem in Hq as [Hq Hb]. assert (q = r) as -> by (apply (id_inj st); auto; congruence).
    split_and!; [done..|]. intros y Hy Hyb Ey. rewrite Eid. apply Hle, (list_elem_of_fmap_2 ir_ID), filter_elem.
    split; [by apply filter_elem|]. apply String.eqb_eq. congruence.
  - intros (Hr & Hb & Hmax). exists (ir_ID r). split; [|done]. exists (ir_Source r). split.
    { apply (list_elem_of_fmap_2 ir_Source), filter_elem. done. }
    assert (Hin : r ∈ List.filter (fun x => (ir_Source x =? ir_Source r)%string)
              (List.filter (bound_report st identity) (iv_reports st))).
    { apply filter_elem. split; [by apply filter_elem|]. apply String.eqb_refl. }
    destruct (sql_max _) as [m|] eqn:E.
    + apply sql_max_spec in E as [E1 E2]. f_equal. apply Z.le_antisymm.
      * apply list_elem_of_fmap in E1 as (q & -> & Hq). apply filter_elem in Hq as [Hq Hs%String.eqb_eq].
        apply filter_elem in Hq as [Hq Hqb]. auto.
      * apply E2. by apply list_elem_of_fmap_2.
    + exfalso. destruct (List.filter _ (List.filter _ _)); [by apply elem_of_nil in Hin|done].
Qed.

(** One report of each source, in the order of the sources. *)
Lemma latest_sources st identity :
  chains_ok st ->
  map ir_Source (LatestInventoryReports st identity)
  = sort_Strings (remove_dups (map ir_Source (List.filter (bound_report st identity) (iv_reports st)))).
Proof.
  intros Hok. unfold LatestInventoryReports, InventoryReportsByID, latest_ids.
  set (rows := List.filter _ _).
  assert (H : forall s, s ∈ sort_Strings (remove_dups (map ir_Source rows)) -> s ∈ map ir_Source rows).
  { intros s. by rewrite sort_Strings_perm, elem_of_remove_dups. }
  revert H. generalize (sort_Strings (remove_dups (map ir_Source rows))). intros ss H.
  induction ss as [|s ss IH]; simpl; [done|].
  destruct (sql_max (map ir_ID (List.filter (fun r => (ir_Source r =? s)%string) rows))) as [m|] eqn:E; simpl.
  - apply sql_max_spec in E as [E _]. apply list_elem_of_fmap in E as (q & -> & Hq).
    apply filter_elem in Hq as [Hq Hs%String.eqb_eq]. apply filter_elem in Hq as [Hq _].
    assert (Ef : report_by_id st (ir_ID q) = Some q) by by apply report_by_id_spec.
    rewrite Ef; simpl. rewrite Hs. f_equal. apply IH. intros; apply H. by right.
  - exfalso. specialize (H s ltac:(left)). apply list_elem_of_fmap in H as (q & -> & Hq).
    assert (Hin : q ∈ List.filter (fun r => (ir_Source r =? ir_Source q)%string) rows).
    { apply filter_elem. split; [done|]. apply String.eqb_refl. }
    destruct (List.filter _ rows); [by apply elem_of_nil in Hin|done].
Qed.
(** * What an append keeps *)

Lemma identity_default st s e : InventoryHostIdentity st s e = default "" (hr_identity <$> iv_hosts st !! (s, e)).
Proof. unfold InventoryHostIdentity. by destruct (iv_hosts st !! (s, e)). Qed.

Lemma seen_identity (t : Z) (k j : string * string) (m : gmap (string * string) host_row) : hr_identity <$> (alter (seen_at t) k m !! j) = hr_identity <$> (m !! j).
Proof. destruct (decide (k = j)) as [->|E]; [rewrite lookup_alter_eq; by destruct (m !! j)|by rewrite lookup_alter_ne]. Qed.

Lemma append_inl env r st st' x :
  AppendInventoryReport env r st = (st', inl x) ->
  iv_reports st' = iv_reports st ++ [x] /\ iv_attempts st' = iv_attempts st
  /\ (forall s e, InventoryHostIdentity st' s e = InventoryHostIdentity st s e)
  /\ ir_Source x = ir_Source r /\ ir_ExternalID x = ir_ExternalID r /\ ir_Identity x = ir_Identity r
  /\ ir_Components x = ir_Components r /\ ir_ReceivedAt x = invTime (ir_ReceivedAt r).
Proof.
  unfold AppendInventoryReport. repeat case_match; try done. intros [= <- <-]. simpl.
  assert (Hid : forall s e, InventoryHostIdentity (add_report (chained st (storedForm r)) st) s e = InventoryHostIdentity st s e).
  { intros s e. rewrite !identity_default. simpl. case_match; [by rewrite seen_identity|done]. }
  pose proof (chained_keeps st (storedForm r)) as (E1 & E2 & E3 & _). split_and!; try done;
    unfold chained; by destruct (chain_head _ _ _ _).
Qed.

Lemma append_inr env r st st' err : AppendInventoryReport env r st = (st', inr err) -> st' = st.
Proof. unfold AppendInventoryReport. repeat case_match; by intros [= <- _]. Qed.

Lemma attempts_None env l st st' :
  AppendInventoryAttempts env l st = (st', None) ->
  iv_reports st' = iv_reports st /\ iv_attempts st' = iv_attempts st ++ map stored_attempt l.
Proof.
  unfold AppendInventoryAttempts. destruct l as [|a l]; simpl; [intros [= <-]; by rewrite List.app_nil_r|].
  repeat case_match; by intros [= <-].
Qed.

Lemma attempts_Some env l st st' err : AppendInventoryAttempts env l st = (st', Some err) -> st' = st.
Proof. unfold AppendInventoryAttempts. repeat case_match; by intros [= <- _]. Qed.
End store.

(** * What the chain shows *)

(** C15: Whatever was appended, bound, unbound or pruned: every report still stored
    has the digest of what it holds; two reports of one host under one source are
    numbered in the order they arrived; and the one numbered next names the
    digest of the one before it. *)
Theorem inventory_chains digest st x y :
  rtc (retention_step digest) empty_inventory st ->
  x ∈ iv_reports st -> y ∈ iv_reports st -> same_chain x y ->
  ir_SHA256 x = reportDigest digest x
  /\ (ir_ID x < ir_ID y <-> ir_Seq x < ir_Seq y)
  /\ (ir_Seq y = ir_Seq x + 1 -> ir_PrevSHA256 y = ir_SHA256 x)
  /\ (ir_Seq x = 1 -> ir_PrevSHA256 x = "").
Proof.
  intros H%reachable_chains Hx Hy Hc. split; [by eapply ch_sum|]. split; [|split; [by eapply ch_link|by eapply ch_first]].
  split; [by eapply ch_order|]. intros Hlt. destruct (Z.lt_trichotomy (ir_ID x) (ir_ID y)) as [|[E|E]]; [done|exfalso..].
  - rewrite (id_inj _ _ _ _ H Hx Hy E) in Hlt. lia.
  - pose proof (ch_order _ _ H y x Hy Hx (same_chain_sym digest _ _ Hc) E). lia.
Qed.

(** C16: A host's chain, with nothing pruned, is determined by its last digest: any
    rows that link up from the first and end in that digest hold the same
    reports, short of two different reports with one SHA-256. *)
Theorem chain_determined digest st source identity externalID rows :
  rtc (inventory_step digest) empty_inventory st ->
  (forall a b, a ∈ chain_rows st source identity externalID -> b ∈ rows ->
     reportDigest digest a = reportDigest digest b -> committed a = committed b) ->
  links digest 0 "" rows = true ->
  (ir_SHA256 <$> last (chain_rows st source identity externalID)) = (ir_SHA256 <$> last rows) ->
  links digest 0 "" (chain_rows st source identity externalID) = true
  /\ map committed (chain_rows st source identity externalID) = map committed rows.
Proof.
  intros H Hinj Hl E. assert (Hr := reachable_linked _ _ H source identity externalID).
  split; [done|]. by apply (links_determined digest).
Qed.

(** ** At a concrete store *)

Definition toy_digest (r : InventoryReport) : string :=
  (match ir_Seq r with 1 => "1" | 2 => "2" | _ => "n" end)%Z +:+ ir_Identity r +:+ ir_ExternalID r +:+ ir_PrevSHA256 r.

Definition plain_env : db_env := MkEnv false false false 0.

Definition posted (ext identity : string) (at_ : Z) : InventoryReport :=
  MkReport 0 "sbom" ext identity at_ at_ 0 "" "" [MkComponent "npm" "left-pad" "1.0.0" "" "" "" "" ""].

Definition after_one : inventory := (AppendInventoryReport toy_digest plain_env (posted "h1" "web" 1000000) empty_inventory).1.
Definition after_two : inventory := (AppendInventoryReport toy_digest plain_env (posted "h2" "web" 2000000) after_one).1.

(** A host enrolled again under another id goes on with its own chain; one
    nothing maps starts another. *)
Example re_enrolled :
  map (fun r => (ir_ID r, ir_Seq r, ir_PrevSHA256 r, ir_SHA256 r))
    (iv_reports (AppendInventoryReport toy_digest plain_env (posted "h2" "" 3000000) after_two).1)
  = [(1, 1, "", "1webh1"); (2, 2, "1webh1", "2webh21webh1"); (3, 1, "", "1h2")].
Proof. vm_compute. reflexivity. Qed.

Lemma two_reached : rtc (inventory_step toy_digest) empty_inventory after_two.
Proof. apply rtc_l with after_one; [apply step_append|]. apply rtc_once. apply step_append. Qed.

Lemma inventory_chains_witness : exists x y,
  [x; y] = iv_reports after_two /\ same_chain x y /\ ir_PrevSHA256 y = ir_SHA256 x.
Proof.
  eexists _, _. split; [vm_compute; reflexivity|]. split; [vm_compute; reflexivity|].
  eapply (inventory_chains toy_digest after_two).
  - apply (rtc_subrel (inventory_step toy_digest) _ _ _ (fun x y H => step_kept toy_digest x y H) two_reached).
  - left.
  - right; left.
  - vm_compute; reflexivity.
  - vm_compute; reflexivity.
Defined.

Lemma chain_determined_witness :
  map committed (chain_rows after_two "sbom" "web" "") = map committed (iv_reports after_two).
Proof.
  refine (proj2 (chain_determined toy_digest after_two "sbom" "web" "" (iv_reports after_two) two_reached _ _ _)).
  - intros a b Ha Hb E. revert E. repeat apply elem_of_cons in Ha as [->|Ha]; try by apply elem_of_nil in Ha.
    all: repeat apply elem_of_cons in Hb as [->|Hb]; try by apply elem_of_nil in Hb.
    all: try reflexivity. all: vm_compute; discriminate.
  - vm_compute; reflexivity.
  - vm_compute; reflexivity.
Defined.
