(* ===== verification/InventoryFrame.v ===== *)
(** The inventory frame (internal/inventory/source.go and frame.go): what a
    source declares, how instances are configured, and how pushed and polled
    documents reach the report store.

    A source is the record of what its package implements: its declarations,
    its normalizer, and, where it has the interface, its routes and the check it
    makes of a request.  A setting that is neither a text nor a boolean is
    [SettingOther]; [ParseDuration] is the library's.  [hook] is what [OnReport]
    does to the store.  Logging is left out. *)

From stdpp Require Import base list gmap strings sorting.
From Stdlib Require Import ZArith Lia Ascii.
From S2P Require Import Prelude GoStrings GoSort GoTime Regexp Types ProfileStore InventoryStore.

(** * Sources *)

Definition ModePush := "push".
Definition ModePull := "pull".
Definition CapInventory := "inventory".
Definition CapAttempts := "attempts".
Definition EcosystemOther := "other".

Definition ValidEcosystem (e : string) : bool := (e =? EcosystemOther)%string || IsKnownType e.

Record Report := MkSourceReport {
  rp_ExternalID : string;
  rp_Identity : string;
  rp_ObservedAt : Z;
  rp_Components : list InventoryComponent
}.

Record Attempt := MkSourceAttempt {
  at_ExternalID : string;
  at_Identity : string;
  at_ObservedAt : Z;
  at_Destination : string;
  at_Ecosystem : string;
  at_Detail : string
}.

Record Batch := MkBatch { b_Reports : list Report; b_Attempts : list Attempt }.

Record Route := MkRoute { rt_Method : string; rt_Path : string; rt_MaxBody : Z; rt_Handler : bool }.

Record Principal := MkPrincipal { pc_ExternalID : string; pc_Identity : string }.

Inductive auth_failure :=
| AuthError (status : Z) (reason message : string)
| OtherFailure (message : string).

Record push_request := MkPush {
  pq_Method : string;
  pq_Path : string;
  pq_Credential : string;
  pq_ContentLength : Z;
  pq_body : string;
  pq_body_fails : bool
}.

Record Source := MkSource {
  so_Type : string;
  so_Mode : string;
  so_Capabilities : list string;
  so_Normalize : string -> string -> Batch + string;
  so_Push : option (list Route * (push_request -> Principal + auth_failure));
  so_Pulls : bool;
  so_Interval : option Z;
  so_Covers : option (string -> string -> bool)
}.

Definition HasCapability (src : Source) (c : string) : bool := slice_contains (so_Capabilities src) c.

Definition Covers (src : Source) (identity ecosystem : string) : bool :=
  HasCapability src CapInventory && match so_Covers src with Some covers => covers identity ecosystem | None => true end.

Record SourceInstance := MkInstance {
  in_Name : string;
  in_Enabled : bool;
  in_Interval : Z;
  in_Retention : Z;
  in_Source : Source
}.

(** * Configuration *)

Definition DefaultPullInterval : Z := Hour.
Definition MinPullInterval : Z := 300 * Second.
Definition DefaultPushInterval : Z := 24 * Hour.

Definition instance_byte (c : ascii) : bool := in_range 97 122 c || is_digit c.

Definition instanceName : re :=
  (RByte instance_byte · RUpto 62 (RByte (fun c => instance_byte c || in_set "._-" c)))%re.

Inductive setting := SettingString (s : string) | SettingBool (b : bool) | SettingOther | SettingNull.

Inductive config_error :=
| BadInstanceName
| BadSetting (key : string)
| TypeRequired
| UnknownSourceType (typ : string)
| FactoryRefused (err : string)
| PushWithoutRoutes
| PullCannotPoll
| IntervalNotPositive
| IntervalBelowMinimum (d : Z)
| UnknownMode (mode : string)
| UnknownKey (key : string).

Definition instance_settings := gmap string setting.

(** A getter answers, and marks its key as read. *)
Definition reading (A : Type) : Type := list string -> (A + config_error) * list string.

Definition read_return {A} (x : A) : reading A := fun used => (inl x, used).
Definition read_refuse {A} (e : config_error) : reading A := fun used => (inr e, used).
Definition read_bind {A B} (m : reading A) (k : A -> reading B) : reading B :=
  fun used => match m used with (inl x, used) => k x used | (inr e, used) => (inr e, used) end.

Declare Scope reading_scope.
Delimit Scope reading_scope with reading.
Notation "x <-- m ;; k" := (read_bind m (fun x => k)) (at level 100, m at next level, right associativity) : reading_scope.

Section configure.
Context (ParseDuration : string -> option Z).
Context (factory : string -> option (string -> instance_settings -> reading Source)).

Definition take_setting (raw : instance_settings) (key : string) : reading (option setting) :=
  fun used => (inl (match raw !! key with Some SettingNull => None | v => v end), key :: used).

Definition Settings_String (raw : instance_settings) (key def : string) : reading string :=
  (v <-- take_setting raw key ;;
   match v with
   | None => read_return def
   | Some (SettingString s) => read_return s
   | Some _ => read_refuse (BadSetting key)
   end)%reading.

Definition Settings_Bool (raw : instance_settings) (key : string) (def : bool) : reading bool :=
  (v <-- take_setting raw key ;;
   match v with
   | None => read_return def
   | Some (SettingBool b) => read_return b
   | Some _ => read_refuse (BadSetting key)
   end)%reading.

Definition Settings_Duration (raw : instance_settings) (key : string) (def : Z) : reading Z :=
  (s <-- Settings_String raw key "" ;;
   if (s =? "")%string then read_return def
   else match ParseDuration s with
        | Some d => if d <? 0 then read_refuse (BadSetting key) else read_return d
        | None => read_refuse (BadSetting key)
        end)%reading.

Definition unused (raw : instance_settings) (used : list string) : list string :=
  sort_Strings (List.filter (fun k => negb (slice_contains used k)) (map fst (map_to_list raw))).

Definition instance_interval (raw : instance_settings) (src : Source) : reading Z :=
  (if (so_Mode src =? ModePush)%string then
     if negb (isSome (so_Push src)) then read_refuse PushWithoutRoutes
     else
       d <-- match so_Interval src with
             | Some d => read_return d
             | None => Settings_Duration raw "interval" DefaultPushInterval
             end ;;
       if d <=? 0 then read_refuse IntervalNotPositive else read_return d
   else if (so_Mode src =? ModePull)%string then
     if negb (so_Pulls src) then read_refuse PullCannotPoll
     else
       d <-- Settings_Duration raw "interval" DefaultPullInterval ;;
       if d <? MinPullInterval then read_refuse (IntervalBelowMinimum d) else read_return d
   else read_refuse (UnknownMode (so_Mode src)))%reading.

Definition check_unused (raw : instance_settings) (inst : SourceInstance) : reading SourceInstance :=
  fun used => (match unused raw used with k :: _ => inr (UnknownKey k) | [] => inl inst end, used).

Definition configureOne (name : string) (raw : instance_settings) : SourceInstance + config_error :=
  if negb (MatchString instanceName name) then inr BadInstanceName
  else
    ((typeName <-- Settings_String raw "type" "" ;;
      if (typeName =? "")%string then read_refuse TypeRequired
      else
        match factory typeName with
        | None => read_refuse (UnknownSourceType typeName)
        | Some f =>
            enabled <-- Settings_Bool raw "enabled" false ;;
            retention <-- Settings_Duration raw "retention" 0 ;;
            src <-- f name raw ;;
            interval <-- instance_interval raw src ;;
            check_unused raw (MkInstance name enabled interval retention src)
        end)%reading []).1.

Fixpoint configure_names (names : list string) (raw : gmap string instance_settings) : list SourceInstance + (string * config_error) :=
  match names with
  | [] => inl []
  | n :: names =>
      match configureOne n (default ∅ (raw !! n)) with
      | inr err => inr (n, err)
      | inl inst =>
          match configure_names names raw with
          | inr err => inr err
          | inl out => inl (inst :: out)
          end
      end
  end.

Definition Configure (raw : gmap string instance_settings) : list SourceInstance + (string * config_error) :=
  configure_names (sort_Strings (map fst (map_to_list raw))) raw.
End configure.

(** * Push routes *)

Definition RoutePrefix := "/api/v1/inventory/sources/".

Definition byName (instances : list SourceInstance) (name : string) : option SourceInstance :=
  last (List.filter (fun i => (in_Name i =? name)%string) instances).

Definition PushRoute (instances : list SourceInstance) (method path : string)
  : option (SourceInstance * Route * (push_request -> Principal + auth_failure)) :=
  if negb (HasPrefix path RoutePrefix) then None
  else
    match cut_byte "/" (TrimPrefix path RoutePrefix) with
    | None => None
    | Some (name, rest) =>
        match byName instances name with
        | None => None
        | Some inst =>
            if negb (in_Enabled inst) then None
            else
              match so_Push (in_Source inst) with
              | None => None
              | Some (routes, auth) =>
                  match List.find (fun rt => (rt_Method rt =? method)%string && (rt_Path rt =? rest)%string) routes with
                  | Some rt => Some (inst, rt, auth)
                  | None => None
                  end
              end
        end
    end.

(** * Ingest *)

Inductive contract_error :=
| ReportsUndeclared
| AttemptsUndeclared
| ComponentUnnamed
| ComponentEcosystem (name ecosystem : string)
| AttemptNoDestination
| AttemptEcosystem (ecosystem : string)
| ReportNoHost
| AttemptNoHost.

Inductive ingest_error := ContractError (err : contract_error) | IngestStore (err : inventory_error).

Record IngestResult := MkIngest { rs_Instance : string; rs_Reports : Z; rs_Attempts : Z; rs_Unbound : Z }.

Definition component_error (c : InventoryComponent) : option contract_error :=
  if (cp_Name c =? "")%string then Some ComponentUnnamed
  else if negb (ValidEcosystem (cp_Ecosystem c)) then Some (ComponentEcosystem (cp_Name c) (cp_Ecosystem c))
  else None.

Definition attempt_error (a : Attempt) : option contract_error :=
  if (at_Destination a =? "")%string then Some AttemptNoDestination
  else if negb (at_Ecosystem a =? "")%string && negb (ValidEcosystem (at_Ecosystem a)) then Some (AttemptEcosystem (at_Ecosystem a))
  else None.

(** The first refusal in the order of the elements. *)
Fixpoint first_error {A} (f : A -> option contract_error) (l : list A) : option contract_error :=
  match l with
  | [] => None
  | x :: l => match f x with Some e => Some e | None => first_error f l end
  end.

Definition checkBatch (src : Source) (b : Batch) : option contract_error :=
  if (0 <? length (b_Reports b))%nat && negb (HasCapability src CapInventory) then Some ReportsUndeclared
  else if (0 <? length (b_Attempts b))%nat && negb (HasCapability src CapAttempts) then Some AttemptsUndeclared
  else
    match first_error (fun r => first_error component_error (rp_Components r)) (b_Reports b) with
    | Some e => Some e
    | None => first_error attempt_error (b_Attempts b)
    end.

Definition firstNonEmpty (a b : string) : string := if negb (a =? "")%string then a else b.

Definition orNow (t now : Z) : Z := if t =? zero_time then now else t.

(** The checks [Ingest] makes before its first write. *)
Definition contract (src : Source) (p : Principal) (b : Batch) : option contract_error :=
  match checkBatch src b with
  | Some e => Some e
  | None =>
      match first_error (fun r => if (firstNonEmpty (rp_ExternalID r) (pc_ExternalID p) =? "")%string then Some ReportNoHost else None)
              (b_Reports b) with
      | Some e => Some e
      | None =>
          first_error (fun a => if (firstNonEmpty (at_ExternalID a) (pc_ExternalID p) =? "")%string then Some AttemptNoHost else None)
            (b_Attempts b)
      end
  end.

(** What the store answers: to the mapping a source vouches for, to the lookup and
    the insert of each report, and to the attempts. *)
Record ingest_env := MkIngestEnv { ie_bind : db_env; ie_report : nat -> db_env; ie_attempts : db_env }.

Section ingest.
Context (digest : InventoryReport -> string) (hook : SourceInstance -> InventoryReport -> inventory -> inventory).
Context (env : ingest_env) (now : Z) (inst : SourceInstance) (p : Principal).

Definition bindOnOwnAuthority (st : inventory) : inventory :=
  (BindInventoryHost (ie_bind env) (in_Name inst) (pc_ExternalID p) (pc_Identity p) st).1.

Definition identityOf (reads : bool) (ids : gmap string string) (st : inventory) (ext : string)
  : option (string * gmap string string) :=
  match ids !! ext with
  | Some id => Some (id, ids)
  | None =>
      if reads then let id := InventoryHostIdentity st (in_Name inst) ext in Some (id, <[ext := id]> ids) else None
  end.

Definition report_row (r : Report) (ext id : string) : InventoryReport :=
  MkReport 0 (in_Name inst) ext id (orNow (rp_ObservedAt r) now) now 0 "" "" (rp_Components r).

Definition attempt_row (a : Attempt) (ext id : string) : InventoryAttempt :=
  MkAttempt (in_Name inst) ext id (orNow (at_ObservedAt a) now) now (at_Destination a) (at_Ecosystem a) (at_Detail a).

Definition count_report (id : string) (res : IngestResult) : IngestResult :=
  MkIngest (rs_Instance res) (rs_Reports res + 1) (rs_Attempts res)
    (if (id =? "")%string then rs_Unbound res + 1 else rs_Unbound res).

Fixpoint ingest_reports (k : nat) (ids : gmap string string) (res : IngestResult) (l : list Report) (st : inventory)
  : inventory * gmap string string * IngestResult * option inventory_error :=
  match l with
  | [] => (st, ids, res, None)
  | r :: l =>
      let ext := firstNonEmpty (rp_ExternalID r) (pc_ExternalID p) in
      match identityOf (negb (env_read_fails (ie_report env k))) ids st ext with
      | None => (st, ids, res, Some InventoryDatabase)
      | Some (id, ids) =>
          match AppendInventoryReport digest (ie_report env k) (report_row r ext id) st with
          | (st, inr err) => (st, ids, res, Some err)
          | (st, inl stored) => ingest_reports (S k) ids (count_report id res) l (hook inst stored st)
          end
      end
  end.

Fixpoint attempt_rows (ids : gmap string string) (st : inventory) (l : list Attempt) : option (list InventoryAttempt) :=
  match l with
  | [] => Some []
  | a :: l =>
      let ext := firstNonEmpty (at_ExternalID a) (pc_ExternalID p) in
      match identityOf (negb (env_read_fails (ie_attempts env))) ids st ext with
      | None => None
      | Some (id, ids) => cons (attempt_row a ext id) <$> attempt_rows ids st l
      end
  end.

Definition vouches : bool := negb (pc_Identity p =? "")%string && negb (pc_ExternalID p =? "")%string.

Definition bound_first (st : inventory) : inventory := if vouches then bindOnOwnAuthority st else st.

Definition Ingest (b : Batch) (st : inventory) : inventory * IngestResult * option ingest_error :=
  let res := MkIngest (in_Name inst) 0 0 0 in
  match contract (in_Source inst) p b with
  | Some e => (st, res, Some (ContractError e))
  | None =>
      match ingest_reports 0 ∅ res (b_Reports b) (bound_first st) with
      | (st, _, res, Some err) => (st, res, Some (IngestStore err))
      | (st, ids, res, None) =>
          match attempt_rows ids st (b_Attempts b) with
          | None => (st, res, Some (IngestStore InventoryDatabase))
          | Some rows =>
              match AppendInventoryAttempts (ie_attempts env) rows st with
              | (st, Some err) => (st, res, Some (IngestStore err))
              | (st, None) => (st, MkIngest (rs_Instance res) (rs_Reports res) (Z.of_nat (length rows)) (rs_Unbound res), None)
              end
          end
      end
  end.
End ingest.

(** * Requests and polls *)

Inductive push_answer :=
| NoRoute
| NoDatabase
| OwnHandler (inst : SourceInstance) (rt : Route)
| PushRefused (status : Z) (reason message : string)
| BodyTooLarge (limit : Z)
| BodyUnread
| BadDocument (message : string)
| BatchRefused (err : contract_error)
| IngestFailed (err : inventory_error)
| Accepted (res : IngestResult).

Definition DenialTokenInvalid := "token_invalid".

(** [http.MaxBytesReader] fails once the body passes the limit, whatever comes
    after. *)
Definition readCapped (limit : Z) (r : push_request) : string + push_answer :=
  if (0 <? limit) && (limit <? pq_ContentLength r) then inr (BodyTooLarge limit)
  else if (0 <? limit) && (limit <? Z.of_nat (String.length (pq_body r))) then inr (BodyTooLarge limit)
  else if pq_body_fails r then inr BodyUnread
  else inl (pq_body r).

Section serve.
Context (digest : InventoryReport -> string) (hook : SourceInstance -> InventoryReport -> inventory -> inventory).
Context (env : ingest_env) (now : Z) (instances : list SourceInstance).

(** A frame with no database has no store. *)
Definition ServeHTTP (r : push_request) (db : option inventory) : option inventory * push_answer :=
  match PushRoute instances (pq_Method r) (pq_Path r) with
  | None => (db, NoRoute)
  | Some (inst, rt, authenticate) =>
      match db with
      | None => (None, NoDatabase)
      | Some st =>
          if rt_Handler rt then (Some st, OwnHandler inst rt)
          else
            match authenticate r with
            | inr (AuthError status reason message) => (Some st, PushRefused status reason message)
            | inr (OtherFailure message) => (Some st, PushRefused 401 DenialTokenInvalid message)
            | inl principal =>
                match readCapped (rt_MaxBody rt) r with
                | inr answer => (Some st, answer)
                | inl doc =>
                    match so_Normalize (in_Source inst) doc (pc_ExternalID principal) with
                    | inr message => (Some st, BadDocument message)
                    | inl batch =>
                        match Ingest digest hook env now inst principal batch st with
                        | (st, res, None) => (Some st, Accepted res)
                        | (st, _, Some (ContractError err)) => (Some st, BatchRefused err)
                        | (st, _, Some (IngestStore err)) => (Some st, IngestFailed err)
                        end
                    end
                end
            end
      end
  end.
End serve.

Record Document := MkDocument { dc_ExternalID : string; dc_Body : string }.

Inductive poll_error :=
| NotPolling
| PollFailed (err : string)
| SkippedAll (n : nat)
| PollStore (err : inventory_error).

Section poll.
Context (digest : InventoryReport -> string) (hook : SourceInstance -> InventoryReport -> inventory -> inventory).
Context (env : nat -> ingest_env) (now : Z) (inst : SourceInstance).

(** The loop over the documents, with the number skipped so far. *)
Fixpoint poll_docs (i : nat) (skipped : nat) (docs : list Document) (st : inventory) : inventory * (nat + inventory_error) :=
  match docs with
  | [] => (st, inl skipped)
  | d :: docs =>
      match so_Normalize (in_Source inst) (dc_Body d) (dc_ExternalID d) with
      | inr _ => poll_docs (S i) (S skipped) docs st
      | inl batch =>
          match Ingest digest hook (env i) now inst (MkPrincipal (dc_ExternalID d) "") batch st with
          | (st, _, None) => poll_docs (S i) skipped docs st
          | (st, _, Some (ContractError _)) => poll_docs (S i) (S skipped) docs st
          | (st, _, Some (IngestStore err)) => (st, inr err)
          end
      end
  end.

Definition poll (answer : list Document + string) (st : inventory) : inventory * option poll_error :=
  match answer with
  | inr err => (st, Some (PollFailed err))
  | inl docs =>
      match poll_docs 0 0 docs st with
      | (st, inr err) => (st, Some (PollStore err))
      | (st, inl skipped) =>
          (st, if (0 <? skipped)%nat && (skipped =? length docs)%nat then Some (SkippedAll skipped) else None)
      end
  end.

Definition PollOnce (text : poll_error -> string) (record : db_env) (answer : list Document + string) (st : inventory)
  : inventory * option poll_error :=
  if negb (so_Pulls (in_Source inst)) then (st, Some NotPolling)
  else
    let '(st, err) := poll answer st in
    ((RecordInventoryPoll record (in_Name inst) now (text <$> err) st).1, err).
End poll.

(** The retention sweep: an instance whose sweep fails leaves the others theirs. *)
Fixpoint Prune (env : nat -> db_env) (now : Z) (i : nat) (instances : list SourceInstance) (st : inventory) : inventory :=
  match instances with
  | [] => st
  | inst :: instances =>
      let st := if in_Retention inst <=? 0 then st
                else (PruneInventory (env i) (in_Name inst) (now - in_Retention inst) st).1 in
      Prune env now (S i) instances st
  end.

(** * Configuration *)

Section configure_facts.
Context (ParseDuration : string -> option Z).
Context (factory : string -> option (string -> instance_settings -> reading Source)).

(** What an instance that was accepted is. *)
Record instance_ok (inst : SourceInstance) : Prop := {
  io_name : MatchString instanceName (in_Name inst) = true;
  io_retention : 0 <= in_Retention inst;
  io_push : so_Mode (in_Source inst) = ModePush -> is_Some (so_Push (in_Source inst)) /\ 0 < in_Interval inst;
  io_pull : so_Mode (in_Source inst) = ModePull -> so_Pulls (in_Source inst) = true /\ MinPullInterval <= in_Interval inst;
  io_mode : so_Mode (in_Source inst) = ModePush \/ so_Mode (in_Source inst) = ModePull
}.

Lemma read_bind_inl {A B} (m : reading A) (k : A -> reading B) used y used' :
  read_bind m k used = (inl y, used') -> exists x used1, m used = (inl x, used1) /\ k x used1 = (inl y, used').
Proof. unfold read_bind. destruct (m used) as [[x|e] used1]; [|done]. intros H. by exists x, used1. Qed.

Lemma Duration_nonneg raw key def used d used' :
  0 <= def -> Settings_Duration ParseDuration raw key def used = (inl d, used') -> 0 <= d.
Proof.
  intros Hd. unfold Settings_Duration. intros (s & u & _ & H)%read_bind_inl. revert H.
  repeat case_match; try done; unfold read_return, read_refuse; intros [= <- _]; to_prop; lia.
Qed.

Lemma interval_ok name enabled retention raw src used d used' :
  MatchString instanceName name = true -> 0 <= retention ->
  instance_interval ParseDuration raw src used = (inl d, used') ->
  instance_ok (MkInstance name enabled d retention src).
Proof.
  intros Hn Hr. unfold instance_interval.
  destruct (so_Mode src =? ModePush)%string eqn:E1; [apply String.eqb_eq in E1|].
  - destruct (so_Push src) as [p|] eqn:Ep; [|done]. simpl.
    intros (d' & u & _ & H)%read_bind_inl. destruct (d' <=? 0) eqn:El; [done|]. injection H as <- _.
    apply Z.leb_gt in El. split; simpl; rewrite ?E1, ?Ep; naive_solver.
  - destruct (so_Mode src =? ModePull)%string eqn:E2; [apply String.eqb_eq in E2|done].
    destruct (so_Pulls src) eqn:Ep; [|done]. simpl.
    intros (d' & u & _ & H)%read_bind_inl. destruct (d' <? MinPullInterval) eqn:El; [done|]. injection H as <- _.
    apply Z.ltb_ge in El. split; simpl; rewrite ?E2; naive_solver.
Qed.

Lemma configureOne_ok name raw inst :
  configureOne ParseDuration factory name raw = inl inst -> in_Name inst = name /\ instance_ok inst.
Proof.
  unfold configureOne. destruct (MatchString instanceName name) eqn:Hn; [|done]. simpl.
  match goal with |- (?m []).1 = _ -> _ => destruct (m []) as [r used] eqn:E end. simpl. intros ->. revert E.
  intros (typ & u & _ & E)%read_bind_inl. destruct (typ =? "")%string; [done|]. destruct (factory typ) as [f|]; [|done].
  apply read_bind_inl in E as (enabled & u1 & _ & E). apply read_bind_inl in E as (retention & u2 & Hr & E).
  apply read_bind_inl in E as (src & u3 & _ & E). apply read_bind_inl in E as (d & u4 & Hd & E).
  unfold check_unused in E. destruct (unused raw u4) eqn:Eu; [|done]. injection E as <- _.
  split; [done|]. eapply interval_ok; [done| |done]. by eapply Duration_nonneg; [|exact Hr].
Qed.

Lemma configure_names_ok names raw out :
  configure_names ParseDuration factory names raw = inl out -> map in_Name out = names /\ Forall instance_ok out.
Proof.
  revert out. induction names as [|n names IH]; intros out; simpl; [intros [= <-]; by split; [|constructor]|].
  destruct (configureOne _ _ _ _) as [inst|] eqn:E; [|done]. apply configureOne_ok in E as [En Eo].
  destruct (configure_names _ _ names raw) as [out'|]; [|done]. destruct (IH _ eq_refl) as [H1 H2].
  intros [= <-]. simpl. rewrite En, H1. by split; [|constructor].
Qed.
End configure_facts.

(** Every instance that a configuration yields is one it names, in the order of
    the names, and runs: a push instance has routes, a pull instance can poll and
    does so no more often than every five minutes. *)
Theorem Configure_sound ParseDuration factory raw out :
  Configure ParseDuration factory raw = inl out ->
  map in_Name out = sort_Strings (map fst (map_to_list raw)) /\ Forall instance_ok out /\ NoDup (map in_Name out).
Proof.
  intros [H1 H2]%configure_names_ok. split; [done|]. split; [done|]. rewrite H1, sort_Strings_perm. apply NoDup_fst_map_to_list.
Qed.

(** * Routes *)

Lemma instanceName_no_slash n : MatchString instanceName n = true -> no_byte "/" n = true.
Proof.
  intros H%MatchString_lang. apply (lang_bytes (fun c => negb (Ascii.eqb c "/")) instanceName); [|done].
  unfold instanceName. split; [intros c Hc; by destruct (Ascii.eqb_spec c "/") as [->|]|].
  generalize 62%nat. intros n'. induction n' as [|n' IH]; simpl; [done|]. split; [|done].
  split; [|done]. intros c Hc. by destruct (Ascii.eqb_spec c "/") as [->|].
Qed.

Lemma byName_elem insts name inst : byName insts name = Some inst -> inst ∈ insts /\ in_Name inst = name.
Proof. unfold byName. intros H%last_Some_elem_of. by apply filter_elem in H as [H E%String.eqb_eq]. Qed.

Lemma byName_unique insts inst : NoDup (map in_Name insts) -> inst ∈ insts -> byName insts (in_Name inst) = Some inst.
Proof.
  unfold byName. intros Hn Hin.
  assert (H : forall x, x ∈ List.filter (fun i => (in_Name i =? in_Name inst)%string) insts -> x = inst).
  { intros x [Hx E%String.eqb_eq]%filter_elem. revert Hin Hx E Hn. clear. induction insts as [|i l IH]; simpl; intros Hi Hx E Hn.
    - by apply elem_of_nil in Hi.
    - apply NoDup_cons in Hn as [Hi' Hn]. apply elem_of_cons in Hi as [->|Hi], Hx as [->|Hx]; auto; exfalso; apply Hi'.
      + rewrite <- E. by apply (list_elem_of_fmap_2 in_Name).
      + rewrite E. by apply (list_elem_of_fmap_2 in_Name). }
  destruct (last _) as [x|] eqn:E.
  - apply last_Some_elem_of in E. f_equal. by apply H.
  - apply last_None in E. exfalso. apply (not_elem_of_nil inst). rewrite <- E. apply filter_elem.
    split; [done|]. apply String.eqb_refl.
Qed.

(** C14: The requests that pass the mutation gate as pushes are those for the routes
    of an enabled push instance, spelt with its name, and no others. *)
Theorem PushRoute_exact ParseDuration factory raw insts method path :
  Configure ParseDuration factory raw = inl insts ->
  isSome (PushRoute insts method path) = true <->
  exists inst routes auth rt,
    inst ∈ insts /\ in_Enabled inst = true /\ so_Push (in_Source inst) = Some (routes, auth)
    /\ rt ∈ routes /\ rt_Method rt = method /\ path = RoutePrefix +:+ in_Name inst +:+ "/" +:+ rt_Path rt.
Proof.
  intros Hc. apply configure_names_ok in Hc as [Hn Ho].
  assert (Hnd : NoDup (map in_Name insts)) by (rewrite Hn, sort_Strings_perm; apply NoDup_fst_map_to_list). clear Hn.
  rewrite Forall_forall in Ho. unfold PushRoute. split.
  - destruct (HasPrefix path RoutePrefix) eqn:Ep; [|done]. apply HasPrefix_spec in Ep as [tail ->]. rewrite TrimPrefix_app. simpl.
    destruct (cut_byte "/" tail) as [[name rest]|] eqn:Ec; [|done]. apply cut_byte_Some in Ec as [-> _].
    destruct (byName insts name) as [inst|] eqn:Eb; [|done]. apply byName_elem in Eb as [Hin <-].
    destruct (in_Enabled inst) eqn:Ee; [|done]. simpl.
    destruct (so_Push (in_Source inst)) as [[routes auth]|] eqn:Es; [|done].
    destruct (List.find _ routes) as [rt|] eqn:Ef; [|done]. intros _.
    apply find_some in Ef as [Hrt%list_elem_of_In Hf]. to_prop. subst. by exists inst, routes, auth, rt.
  - intros (inst & routes & auth & rt & Hin & He & Hs & Hrt & <- & ->).
    rewrite HasPrefix_app, TrimPrefix_app. simpl. change ("/" +:+ ?x) with (String "/" x).
    rewrite cut_byte_app by by apply instanceName_no_slash, io_name, Ho.
    rewrite byName_unique by done. rewrite He, Hs. simpl.
    destruct (List.find _ routes) eqn:E; [done|].
    apply (find_none _ _) with (x := rt) in E; [|by apply list_elem_of_In]. by rewrite !String.eqb_refl in E.
Qed.

(** * Ingest *)

(** What [OnReport] leaves alone. *)
Class HookKeeps (hook : SourceInstance -> InventoryReport -> inventory -> inventory) : Prop := {
  hook_reports : forall i r st, iv_reports (hook i r st) = iv_reports st;
  hook_attempts : forall i r st, iv_attempts (hook i r st) = iv_attempts st;
  hook_hosts : forall i r st, iv_hosts (hook i r st) = iv_hosts st
}.

Section ingest_facts.
Context (digest : InventoryReport -> string) (hook : SourceInstance -> InventoryReport -> inventory -> inventory) `{!HookKeeps hook}.
Context (env : ingest_env) (now : Z) (inst : SourceInstance) (p : Principal).

Definition report_host (r : Report) : string := firstNonEmpty (rp_ExternalID r) (pc_ExternalID p).
Definition attempt_host (a : Attempt) : string := firstNonEmpty (at_ExternalID a) (pc_ExternalID p).

(** The row a report becomes, under the mapping [m]. *)
Definition stored_as (m : inventory) (r : Report) (x : InventoryReport) : Prop :=
  ir_Source x = in_Name inst /\ ir_ExternalID x = report_host r
  /\ ir_Identity x = InventoryHostIdentity m (in_Name inst) (report_host r)
  /\ ir_Components x = rp_Components r /\ ir_ReceivedAt x = invTime now.

Definition attempted_as (m : inventory) (a : Attempt) (x : InventoryAttempt) : Prop :=
  ia_Source x = in_Name inst /\ ia_ExternalID x = attempt_host a
  /\ ia_Identity x = InventoryHostIdentity m (in_Name inst) (attempt_host a) /\ ia_Destination x = at_Destination a.

Definition same_mapping (m st : inventory) : Prop := forall s e, InventoryHostIdentity st s e = InventoryHostIdentity m s e.

Definition cache_of (m : inventory) (ids : gmap string string) : Prop :=
  forall ext id, ids !! ext = Some id -> id = InventoryHostIdentity m (in_Name inst) ext.

Lemma identityOf_spec reads ids m st ext id ids' :
  same_mapping m st -> cache_of m ids -> identityOf inst reads ids st ext = Some (id, ids') ->
  id = InventoryHostIdentity m (in_Name inst) ext /\ cache_of m ids'.
Proof.
  intros Hm Hc. unfold identityOf. destruct (ids !! ext) as [i|] eqn:E; [intros [= <- <-]; auto|].
  destruct reads; [|done]. intros [= <- <-]. rewrite Hm. split; [done|].
  intros e i. rewrite lookup_insert. case_decide as Ed; [intros [= <-]; by subst|apply Hc].
Qed.

Lemma ingest_reports_spec m l k ids res st st' ids' res' err :
  same_mapping m st -> cache_of m ids ->
  ingest_reports digest hook env now inst p k ids res l st = (st', ids', res', err) ->
  same_mapping m st' /\ cache_of m ids' /\ iv_attempts st' = iv_attempts st /\ exists new,
    iv_reports st' = iv_reports st ++ new /\ rs_Reports res' = rs_Reports res + Z.of_nat (length new)
    /\ Forall2 (stored_as m) (take (length new) l) new /\ (err = None -> length new = length l).
Proof.
  revert k ids res st. induction l as [|r l IH]; intros k ids res st Hm Hc; simpl.
  { intros [= <- <- <- <-]. split_and!; [done..|]. exists []. rewrite List.app_nil_r. simpl. split_and!; [done|lia|constructor|done]. }
  destruct (identityOf _ _ _ _ _) as [[id ids1]|] eqn:Ei.
  2: { intros [= <- <- <- <-]. split_and!; [done..|]. exists []. rewrite List.app_nil_r. simpl. split_and!; [done|lia|constructor|done]. }
  eapply identityOf_spec in Ei as [-> Hc1]; [|done..].
  destruct (AppendInventoryReport _ _ _ _) as [st1 [x|e]] eqn:Ea.
  2: { apply append_inr in Ea as ->. intros [= <- <- <- <-]. split_and!; [done..|].
       exists []. rewrite List.app_nil_r. simpl. split_and!; [done|lia|constructor|done]. }
  apply append_inl in Ea as (E1 & E2 & E3 & E4 & E5 & E6 & E7 & E8). intros H. eapply IH in H; [|clear H|done].
  - destruct H as (Hm' & Hc' & Ha & new & Hn & Hr & Hf & Hl). rewrite hook_reports, E1 in Hn. rewrite hook_attempts, E2 in Ha.
    split_and!; [done..|]. exists (x :: new). simpl in Hr |- *. rewrite Hn, <- List.app_assoc. split_and!; [done|lia| |intros; f_equal; auto].
    constructor; [|done]. by repeat split.
  - intros s e. unfold InventoryHostIdentity. rewrite hook_hosts. fold (InventoryHostIdentity st1 s e). by rewrite E3.
Qed.

Lemma attempt_rows_spec m l ids st rows :
  same_mapping m st -> cache_of m ids -> attempt_rows env now inst p ids st l = Some rows -> Forall2 (attempted_as m) l rows.
Proof.
  revert ids rows. induction l as [|a l IH]; intros ids rows Hm Hc; simpl; [intros [= <-]; constructor|].
  destruct (identityOf _ _ _ _ _) as [[id ids1]|] eqn:Ei; [|done]. eapply identityOf_spec in Ei as [-> Hc1]; [|done..].
  destruct (attempt_rows _ _ _ _ ids1 st l) as [rows'|] eqn:E; [|done]. intros [= <-].
  constructor; [by repeat split|]. by eapply IH.
Qed.

Lemma bound_first_rows st :
  iv_reports (bound_first env inst p st) = iv_reports st /\ iv_attempts (bound_first env inst p st) = iv_attempts st.
Proof. unfold bound_first, bindOnOwnAuthority, BindInventoryHost. repeat case_match; done. Qed.
End ingest_facts.

(** C13: A batch that breaks the contract stores nothing.  Any other is stored report
    by report until the store refuses one, and each row is filed under the
    identity the host mapping gives its external id, never one the normalizer
    put there; when nothing fails every report and every attempt is stored. *)
Theorem Ingest_stores digest hook `{!HookKeeps hook} env now inst p b st st' res err :
  Ingest digest hook env now inst p b st = (st', res, err) ->
  match err with
  | Some (ContractError _) => st' = st
  | _ =>
      let m := bound_first env inst p st in
      exists new, iv_reports st' = iv_reports st ++ new /\ rs_Reports res = Z.of_nat (length new)
        /\ Forall2 (stored_as now inst p m) (take (length new) (b_Reports b)) new
        /\ (err = None ->
            length new = length (b_Reports b)
            /\ exists rows, iv_attempts st' = iv_attempts st ++ rows /\ Forall2 (attempted_as inst p m) (b_Attempts b) rows)
  end.
Proof.
  unfold Ingest. destruct (contract _ _ _) as [e|]; [by intros [= <- _ <-]|]. cbv zeta.
  destruct (bound_first_rows env inst p st) as [Er Ea].
  destruct (ingest_reports _ _ _ _ _ _ _ _ _ _ _) as [[[st1 ids] res1] e1] eqn:E.
  apply (ingest_reports_spec digest hook env now inst p (bound_first env inst p st)) in E
    as (Hm & Hc & Hat & new & Hn & Hr & Hf & Hl); [|done|by intros ? ? ?%lookup_empty_Some].
  rewrite Er in Hn. rewrite Ea in Hat. simpl in Hr.
  destruct e1 as [e1|]; [intros [= <- <- <-]; by exists new|].
  destruct (attempt_rows _ _ _ _ _ _ _) as [rows|] eqn:Erows; [|intros [= <- <- <-]; by exists new].
  eapply attempt_rows_spec in Erows; [|done..].
  destruct (AppendInventoryAttempts _ _ _) as [st2 [e2|]] eqn:E2.
  - apply attempts_Some in E2 as ->. intros [= <- <- <-]. by exists new.
  - apply attempts_None in E2 as [Er2 Ea2]. intros [= <- <- <-]. exists new. rewrite Er2. split_and!; [done..|].
    intros _. split; [auto|]. exists (map stored_attempt rows). rewrite Ea2, Hat. split; [done|]. clear -Erows.
    induction Erows as [|a x l rows Hx _ IH]; simpl; constructor; done.
Qed.

(** A push changes the store only where its route exists, its body fits, and
    either the source said whom it speaks for or the route answers for itself
    (and then the frame has stored nothing). *)
Theorem push_authenticated digest hook env now instances r st st' answer :
  ServeHTTP digest hook env now instances r (Some st) = (st', answer) -> st' <> Some st ->
  exists inst rt authenticate principal,
    PushRoute instances (pq_Method r) (pq_Path r) = Some (inst, rt, authenticate)
    /\ rt_Handler rt = false /\ authenticate r = inl principal
    /\ (0 < rt_MaxBody rt -> Z.of_nat (String.length (pq_body r)) <= rt_MaxBody rt)
    /\ exists batch, so_Normalize (in_Source inst) (pq_body r) (pc_ExternalID principal) = inl batch
       /\ contract (in_Source inst) principal batch = None.
Proof.
  unfold ServeHTTP. destruct (PushRoute _ _ _) as [[[inst rt] auth]|]; [|by intros [= <- _]].
  destruct (rt_Handler rt) eqn:Eh; [by intros [= <- _]|].
  destruct (auth r) as [principal|[]] eqn:Ea; [|by intros [= <- _]..].
  unfold readCapped. destruct ((0 <? rt_MaxBody rt) && (rt_MaxBody rt <? pq_ContentLength r)); [by intros [= <- _]|].
  destruct ((0 <? rt_MaxBody rt) && (rt_MaxBody rt <? Z.of_nat (String.length (pq_body r)))) eqn:Eb; [by intros [= <- _]|].
  destruct (pq_body_fails r); [by intros [= <- _]|].
  destruct (so_Normalize _ _ _) as [batch|] eqn:En; [|by intros [= <- _]].
  unfold Ingest. destruct (contract _ _ _) eqn:Ec; [by intros [= <- _]|]. intros _ _.
  exists inst, rt, auth, principal. split_and!; [done..| |by exists batch].
  intros Hpos. apply andb_false_iff in Eb as [Eb|Eb]; [apply Z.ltb_ge in Eb; lia|by apply Z.ltb_ge in Eb].
Qed.

(** * At a concrete frame *)

Definition demo_batch (name ext : string) : Batch :=
  MkBatch [MkSourceReport ext "forged" zero_time [MkComponent "npm" name "1.0.0" "" "" "" "" ""]] [].

Definition demo_source : Source :=
  MkSource "cyclonedx" ModePush [CapInventory]
    (fun doc _ => if (doc =? "")%string then inr "empty" else inl (demo_batch doc ""))
    (Some ([MkRoute "POST" "report" 4 false],
           fun r => if (pq_Credential r =? "secret")%string then inl (MkPrincipal "h1" "web")
                    else inr (AuthError 401 DenialTokenInvalid "who")))
    false None None.

Definition demo_factory (typ : string) : option (string -> instance_settings -> reading Source) :=
  if (typ =? "cyclonedx")%string then Some (fun _ _ => read_return demo_source) else None.

Definition demo_settings : gmap string instance_settings :=
  {[ "sbom" := {[ "type" := SettingString "cyclonedx"; "enabled" := SettingBool true ]} ]}.

Definition demo_instance : SourceInstance := MkInstance "sbom" true DefaultPushInterval 0 demo_source.

Definition demo_push (credential body : string) : push_request :=
  MkPush "POST" "/api/v1/inventory/sources/sbom/report" credential (Z.of_nat (String.length body)) body false.

Definition no_hook : SourceInstance -> InventoryReport -> inventory -> inventory := fun _ _ st => st.
#[local] Instance no_hook_keeps : HookKeeps no_hook.
Proof. by split. Qed.

Definition demo_env : ingest_env := MkIngestEnv plain_env (fun _ => plain_env) plain_env.

Example misspelt_key :
  Configure (fun _ => None) demo_factory
    {[ "sbom" := {[ "type" := SettingString "cyclonedx"; "enable" := SettingBool true ]} ]} = inr ("sbom", UnknownKey "enable").
Proof. vm_compute. reflexivity. Qed.

(** The identity a normalizer writes is not the one stored, an unauthenticated
    push stores nothing, and one byte too many is refused. *)
Example demo_pushes :
  map (fun r => let '(st, answer) := ServeHTTP toy_digest no_hook demo_env (7 * Second) [demo_instance] r (Some empty_inventory) in
                (match st with Some st => map (fun x => (ir_ExternalID x, ir_Identity x)) (iv_reports st) | None => [] end,
                 match answer with Accepted _ => 202 | PushRefused s _ _ => s | BodyTooLarge _ => 413 | BadDocument _ => 400 | _ => 0 end))
    [demo_push "secret" "left"; demo_push "guess" "left"; demo_push "secret" "right"; demo_push "secret" ""]
  = [([("h1", "web")], 202); ([], 401); ([], 413); ([], 400)].
Proof. vm_compute. reflexivity. Qed.

Lemma Configure_sound_witness : Forall instance_ok [demo_instance].
Proof.
  apply (Configure_sound (fun _ => None) demo_factory demo_settings [demo_instance]). vm_compute. reflexivity.
Defined.

Lemma PushRoute_exact_witness :
  ~ (exists inst routes auth rt, inst ∈ [demo_instance] /\ in_Enabled inst = true /\ so_Push (in_Source inst) = Some (routes, auth)
       /\ rt ∈ routes /\ rt_Method rt = "POST"
       /\ "/api/v1/inventory/sources/sbom/other" = RoutePrefix +:+ in_Name inst +:+ "/" +:+ rt_Path rt).
Proof.
  intros H. apply (PushRoute_exact (fun _ => None) demo_factory demo_settings [demo_instance]) in H; vm_compute; [|reflexivity].
  vm_compute in H. discriminate.
Defined.

Definition demo_ingested :=
  Ingest toy_digest no_hook demo_env (7 * Second) demo_instance (MkPrincipal "h1" "web") (demo_batch "left-pad" "") empty_inventory.

Lemma Ingest_stores_witness :
  exists new, iv_reports demo_ingested.1.1 = iv_reports empty_inventory ++ new /\ length new = 1%nat.
Proof.
  destruct (Ingest_stores toy_digest no_hook demo_env (7 * Second) demo_instance (MkPrincipal "h1" "web") (demo_batch "left-pad" "")
    empty_inventory demo_ingested.1.1 demo_ingested.1.2 demo_ingested.2) as (new & Hn & _ & _ & H).
  - vm_compute. reflexivity.
  - exists new. split; [exact Hn|]. apply H. vm_compute. reflexivity.
Defined.

Lemma push_authenticated_witness :
  (ServeHTTP toy_digest no_hook demo_env (7 * Second) [demo_instance] (demo_push "secret" "left") (Some empty_inventory)).1
    <> Some empty_inventory
  /\ exists inst rt authenticate principal,
       PushRoute [demo_instance] "POST" "/api/v1/inventory/sources/sbom/report" = Some (inst, rt, authenticate)
       /\ authenticate (demo_push "secret" "left") = inl principal.
Proof.
  assert (Hne : (ServeHTTP toy_digest no_hook demo_env (7 * Second) [demo_instance] (demo_push "secret" "left")
                   (Some empty_inventory)).1 <> Some empty_inventory).
  { intros E. apply (f_equal (option_map (fun st => length (iv_reports st)))) in E. vm_compute in E. discriminate. }
  split; [exact Hne|].
  destruct (push_authenticated toy_digest no_hook demo_env (7 * Second) [demo_instance] (demo_push "secret" "left") empty_inventory
    _ _ (surjective_pairing _) Hne) as (inst & rt & auth & principal & H1 & _ & H2 & _).
  exists inst, rt, auth, principal. split; [exact H1|exact H2].
Defined.
