(* ===== verification/Reconcile.v ===== *)
(** Reconciliation (internal/inventory/reconcile/reconcile.go and baseline.go):
    the class each component of a report gets, the disagreements between a host's
    sources, and what is recorded of them.

    A table of the database is a list or map of its rows; [answers] says of each
    query whether it is answered, and the failed query is the error.  [url_Host]
    is the host [url.Parse] reads, empty when it reads none, and [UnescapePath] decodes a module path.  The catalog is what
    the manifest store answers.  Texts are the ones the code formats, where a time
    is the day [GoCalendar] writes. *)

From stdpp Require Import base list gmap strings sorting pretty.
From Stdlib Require Import ZArith Lia Ascii.
From S2P Require Import Prelude GoStrings GoSort GoTime GoCalendar Types Keys RpmKeys ProfileStore.
From S2P Require Import Entitle Gate Admissions InventoryStore InventoryFrame.

(** * Classes *)

Definition ClassRefused := "refused".
Definition ClassForeignOrigin := "foreign-origin".
Definition ClassUnknown := "unknown".
Definition ClassUnattributed := "unattributed".
Definition ClassServed := "served".
Definition ClassBaseline := "baseline".
Definition ClassStale := "stale".
Definition ClassUnclassified := "unclassified".

Definition Classes : list string :=
  [ClassRefused; ClassForeignOrigin; ClassUnknown; ClassUnattributed; ClassUnclassified; ClassServed; ClassBaseline; ClassStale].

Fixpoint index_in (l : list string) (class : string) : Z :=
  match l with
  | [] => 0
  | c :: l => if (c =? class)%string then 0 else 1 + index_in l class
  end.

Definition rank (class : string) : Z := index_in Classes class.

(** * The database *)

Definition EventServeFetch := "serve_fetch".
Definition EventInventory := "inventory".
Definition InventoryBypass := "bypass".
Definition InventoryDisagreement := "source_disagreement".

(** The columns reconciliation reads and writes. *)
Record Event := MkEvent {
  ev_EventType : string;
  ev_PkgType : string;
  ev_PkgName : string;
  ev_PkgVersion : string;
  ev_Identity : string;
  ev_Status : string;
  ev_ObjectKey : option string;
  ev_Digest : option string
}.

Record ServedObject := MkServed {
  sb_PkgType : string;
  sb_PkgName : string;
  sb_PkgVersion : string;
  sb_ObjectKey : string;
  sb_Digest : string
}.

#[global] Instance ServedObject_eq_dec : EqDecision ServedObject.
Proof. solve_decision. Defined.

Record database := MkDatabase {
  da_events : list Event;
  da_admissions : table;
  da_inventory : inventory;
  da_profiles : profile_db
}.

(** The columns a served row selects. *)
Definition served_row (identity : string) (e : Event) : option ServedObject :=
  match ev_ObjectKey e with
  | Some k =>
      if (ev_EventType e =? EventServeFetch)%string && ((identity =? "")%string || (ev_Identity e =? identity)%string)
      then Some (MkServed (ev_PkgType e) (ev_PkgName e) (ev_PkgVersion e) k (default "" (ev_Digest e)))
      else None
  | None => None
  end.

(** [ORDER BY 1, 2, 3, 4, 5] *)
Definition served_cmp : ServedObject -> ServedObject -> Z :=
  lex (on_key sb_PkgType Compare) (lex (on_key sb_PkgName Compare) (lex (on_key sb_PkgVersion Compare)
    (lex (on_key sb_ObjectKey Compare) (on_key sb_Digest Compare)))).

Definition QueryServedObjects (events : list Event) (identity : string) : list ServedObject :=
  SliceStable (fun a b => served_cmp a b <? 0) (remove_dups (omap (served_row identity) events)).

Inductive query :=
| QueryRepos
| QueryServed (identity : string)
| QueryBaseline (identity profile : string)
| QueryBinding (identity : string)
| QueryAdmission (filter : AdmissionFilter)
| QueryCatalog (typ name : string)
| QueryLatest (identity : string)
| QueryReports
| QueryRecord
| QueryHosts
| QueryClasses
| QueryStats (source : string).

Record Catalog := MkCatalog {
  ca_ListPackages : string -> list string;
  ca_GetPackage : string -> string -> option PackageManifest
}.

Record Reconciler := MkReconciler {
  rc_Catalog : option Catalog;
  rc_Instances : list SourceInstance;
  rc_PublicURL : string;
  rc_FreeBSDRepos : option (list string);
  rc_now : Z
}.

Inductive reconcile_error :=
| UnboundReport
| QueryFailed (q : query)
| StoreRefused (err : inventory_error)
| ProfileRefused (err : profile_error)
| NoReport (id : Z)
| ReportOfAnother (id : Z) (owner : string)
| NothingToAccept
| ProfileEmpty (profile : string)
| ErrUnknownIdentity (identity : string).

(** [if err != nil { return err }] *)
Definition and_then {A B} (m : A + reconcile_error) (k : A -> B + reconcile_error) : B + reconcile_error :=
  match m with inl x => k x | inr err => inr err end.

Declare Scope fallible_scope.
Delimit Scope fallible_scope with fallible.
Notation "x <-? m ;; k" := (and_then m (fun x => k)) (at level 100, m at next level, right associativity) : fallible_scope.

Lemma and_then_inl {A B} (m : A + reconcile_error) (k : A -> B + reconcile_error) y :
  and_then m k = inl y -> exists x, m = inl x /\ k x = inl y.
Proof. destruct m as [x|]; [by exists x|done]. Qed.

(** * Names and keys *)

(** [path.Base]: the last element, trailing slashes removed. *)
Definition path_Base (p : string) : string :=
  if (p =? "")%string then "."
  else
    let p := TrimRight p "/" in
    let base := match cut_last_byte "/" p with Some (_, b) => b | None => p end in
    if (base =? "")%string then "/" else base.

Definition freeBSDPkgIdentity (file : string) : string * string :=
  match cut_suffix file ".pkg" with
  | None => ("", "")
  | Some base =>
      let base := match cut_last_byte "~" base with
                  | Some (b, _) => if (b =? "")%string then base else b
                  | None => base
                  end in
      match cut_last_byte "-" base with
      | Some (n, v) => if (n =? "")%string || (v =? "")%string then ("", "") else (n, v)
      | None => ("", "")
      end
  end.

Definition first_named (l : list (string * string)) : option (string * string) :=
  List.find (fun nv : string * string => negb (nv.1 =? "")%string) l.

Definition ServedIdentity (UnescapePath : string -> option string) (so : ServedObject) : string * string * string :=
  let eco := sb_PkgType so in
  if (eco =? TypeApt)%string then
    match first_named (map (fun p => AptDebIdentity (path_Base p)) [sb_ObjectKey so; sb_PkgName so]) with
    | Some (n, v) => (eco, n, v)
    | None => (eco, "", "")
    end
  else if (eco =? TypeFreeBSD)%string then
    let '(n, v) := freeBSDPkgIdentity (path_Base (sb_ObjectKey so)) in
    if negb (n =? "")%string then (eco, n, v) else (eco, "", "")
  else if (eco =? TypeRpm)%string then
    let '(_, n, v) := ParseKey UnescapePath (sb_ObjectKey so) in
    if negb (n =? "")%string then (eco, n, v) else (eco, "", "")
  else (eco, sb_PkgName so, sb_PkgVersion so).

Definition canonical (eco name : string) : string := if IsKnownType eco then CanonicalName eco name else name.

Definition nameKey (eco name : string) : string := eco +:+ nul +:+ canonical eco name.

Definition normVersion (eco v : string) : string :=
  if (eco =? TypeRpm)%string then RpmDropEpoch v
  else if negb (eco =? TypeApt)%string then v
  else
    match cut_byte ":" v with
    | Some (e, rest) => if negb (e =? "")%string && (Trim e decimal_digits =? "")%string then rest else v
    | None => v
    end.

Definition Key (eco name version : string) : string := nameKey eco name +:+ nul +:+ normVersion eco version.

Definition component_key (c : InventoryComponent) : string := Key (cp_Ecosystem c) (cp_Name c) (cp_Version c).

Definition label (c : InventoryComponent) : string := cp_Name c +:+ "@" +:+ cp_Version c.

(** * Evidence *)

Record evidence := MkEvidence {
  e_mine : gmap string (list string);
  e_anyone : gmap string (list string);
  e_baseline : gmap string (list BaselineComponent);
  e_catalog : gmap string (list string);
  e_pkgs : gmap string (option PackageManifest);
  e_refusal : gmap string string;
  e_freebsdRepos : option (list string)
}.

Definition with_catalog (x : gmap string (list string)) (ev : evidence) : evidence :=
  MkEvidence (e_mine ev) (e_anyone ev) (e_baseline ev) x (e_pkgs ev) (e_refusal ev) (e_freebsdRepos ev).
Definition with_pkgs (x : gmap string (option PackageManifest)) (ev : evidence) : evidence :=
  MkEvidence (e_mine ev) (e_anyone ev) (e_baseline ev) (e_catalog ev) x (e_refusal ev) (e_freebsdRepos ev).
Definition with_refusal (x : gmap string string) (ev : evidence) : evidence :=
  MkEvidence (e_mine ev) (e_anyone ev) (e_baseline ev) (e_catalog ev) (e_pkgs ev) x (e_freebsdRepos ev).

(** [out[k] = append(out[k], v)] *)
Definition append_at {A} (k : string) (v : A) (m : gmap string (list A)) : gmap string (list A) :=
  <[k := default [] (m !! k) ++ [v]]> m.

Definition add_served (UnescapePath : string -> option string) (m : gmap string (list string)) (so : ServedObject) : gmap string (list string) :=
  let '(eco, name, version) := ServedIdentity UnescapePath so in
  if (name =? "")%string then m else append_at (Key eco name version) (ToLower (sb_Digest so)) m.

Definition add_baseline (m : gmap string (list BaselineComponent)) (bc : BaselineComponent) : gmap string (list BaselineComponent) :=
  append_at (nameKey (bl_Ecosystem bc) (bl_Name bc)) bc m.

Definition versionEntry (pm : option PackageManifest) (eco version : string) : option VersionEntry :=
  match pm with
  | None => None
  | Some pm =>
      if (version =? "")%string then None
      else
        let want := normVersion eco version in
        List.find (fun ve => negb (ve_Version ve =? "")%string && (normVersion eco (ve_Version ve) =? want)%string
                             || negb (ve_Ref ve =? "")%string && (ve_Ref ve =? version)%string)
          (pm_Versions pm)
  end.

Definition covers (c : InventoryComponent) (bc : BaselineComponent) : bool :=
  negb (negb (bl_Version bc =? "")%string
        && negb (normVersion (cp_Ecosystem c) (bl_Version bc) =? normVersion (cp_Ecosystem c) (cp_Version c))%string)
  && negb (negb (bl_DigestValue bc =? "")%string && negb (cp_DigestValue c =? "")%string
           && EqualFold (bl_DigestAlgorithm bc) (cp_DigestAlgorithm c)
           && negb (EqualFold (bl_DigestValue bc) (cp_DigestValue c))).

Definition baselineCovers (bcs : list BaselineComponent) (c : InventoryComponent) : option BaselineComponent :=
  List.find (covers c) bcs.

Definition sha256Of (c : InventoryComponent) : string :=
  if EqualFold (ReplaceAll (cp_DigestAlgorithm c) "-" "") "sha256" then ToLower (cp_DigestValue c) else "".

Definition short (digest : string) : string := if (12 <? String.length digest)%nat then str_take 12 digest else digest.

Definition nonEmpty (ss : list string) : list string := List.filter (fun s => negb (s =? "")%string) ss.

Definition packageManager (eco : string) : string :=
  if (eco =? TypePypi)%string then "pip" else if (eco =? "")%string then "the package manager" else eco.

Definition DateOnly (t : option Z) : string := date_text (date_of (time_day (default zero_time t))).

Section reconciler.
Context (UnescapePath : string -> option string) (url_Host : string -> string) (answers : query -> bool) (r : Reconciler) (db : database).

Definition hostOf (raw : string) : string := ToLower (url_Host raw).

Definition ask {A} (q : query) (answer : A) : A + reconcile_error := if answers q then inl answer else inr (QueryFailed q).

Definition servedSet (identity : string) : gmap string (list string) + reconcile_error :=
  (objs <-? ask (QueryServed identity) (QueryServedObjects (da_events db) identity) ;;
   inl (foldl (add_served UnescapePath) ∅ objs))%fallible.

Definition baseline_components (b : option InventoryBaseline) : list BaselineComponent :=
  match b with Some b => ib_Components b | None => [] end.

Definition evidence_of (identity : string) : evidence + reconcile_error :=
  (repos <-? match rc_FreeBSDRepos r with Some names => ask QueryRepos (Some names) | None => inl None end ;;
   mine <-? servedSet identity ;;
   anyone <-? servedSet "" ;;
   own <-? ask (QueryBaseline identity "") (CurrentInventoryBaseline (da_inventory db) identity "") ;;
   profile <-? ask (QueryBinding identity) (ProfileBindingFor (da_profiles db) identity) ;;
   byProfile <-? (if negb (profile =? "")%string
                  then ask (QueryBaseline "" profile) (CurrentInventoryBaseline (da_inventory db) "" profile)
                  else inl None) ;;
   inl (MkEvidence mine anyone (foldl add_baseline ∅ (baseline_components own ++ baseline_components byProfile)) ∅ ∅ ∅ repos))%fallible.

(** ** What was refused *)

Definition refusal_filter (c : InventoryComponent) : AdmissionFilter :=
  if (cp_Ecosystem c =? TypeRpm)%string
  then MkFilter (cp_Ecosystem c) (canonical (cp_Ecosystem c) (cp_Name c)) "" "" None 0
  else MkFilter (cp_Ecosystem c) (canonical (cp_Ecosystem c) (cp_Name c)) (cp_Version c) "" None 1.

Definition refusal_rows (c : InventoryComponent) : list Admission :=
  let rows := QueryAdmissions (refusal_filter c) (da_admissions db) in
  if (cp_Ecosystem c =? TypeRpm)%string
  then List.filter (fun a => (normVersion (cp_Ecosystem c) (ad_PkgVersion a) =? normVersion (cp_Ecosystem c) (cp_Version c))%string) rows
  else rows.

Definition refusal_reason (c : InventoryComponent) : string :=
  match refusal_rows c with
  | a :: _ =>
      if negb (ad_Decision a =? AdmissionAdmitted)%string
      then "bodega refused " +:+ label c +:+ " at admission (" +:+ ad_Decision a +:+ ", " +:+ DateOnly (ad_DecidedAt a) +:+ ")"
      else ""
  | [] => ""
  end.

Definition refusal (ev : evidence) (c : InventoryComponent) : evidence * (string + reconcile_error) :=
  match e_refusal ev !! component_key c with
  | Some reason => (ev, inl reason)
  | None =>
      match ask (QueryAdmission (refusal_filter c)) (refusal_reason c) with
      | inr err => (ev, inr err)
      | inl reason => (with_refusal (<[component_key c := reason]> (e_refusal ev)) ev, inl reason)
      end
  end.

(** ** What is cataloged *)

Definition cataloged (ev : evidence) (typ name : string) : evidence * (option PackageManifest + reconcile_error) :=
  match rc_Catalog r with
  | None => (ev, inl None)
  | Some cat =>
      let '(names, ev) :=
        match e_catalog ev !! typ with
        | Some names => (names, ev)
        | None => (ca_ListPackages cat typ, with_catalog (<[typ := ca_ListPackages cat typ]> (e_catalog ev)) ev)
        end in
      if negb (slice_contains names (SafeName name)) then (ev, inl None)
      else
        let k := typ +:+ nul +:+ name in
        match e_pkgs ev !! k with
        | Some pm => (ev, inl pm)
        | None =>
            match ask (QueryCatalog typ name) (ca_GetPackage cat typ name) with
            | inr err => (ev, inr err)
            | inl pm => (with_pkgs (<[k := pm]> (e_pkgs ev)) ev, inl pm)
            end
        end
  end.

(** ** Where it came from *)

Definition foreignOrigin (ev : evidence) (c : InventoryComponent) : option (string * string) :=
  let origin := TrimSpace (cp_Origin c) in
  if (origin =? "")%string then None
  else if (cp_Ecosystem c =? TypeFreeBSD)%string then
    match e_freebsdRepos ev with
    | None => None
    | Some repos => if slice_contains repos origin then None else Some ("pkg", origin)
    end
  else
    let own := hostOf (rc_PublicURL r) in
    if (own =? "")%string then None
    else
      let host := hostOf origin in
      let host := if (host =? "")%string then match cut_byte "/" (ToLower origin) with Some (h, _) => h | None => ToLower origin end
                  else host in
      if negb (host =? own)%string then Some (packageManager (cp_Ecosystem c), host) else None.

(** ** The class of a component *)

(** The reading of a known type: its refusal and its catalog entry. *)
Definition known_evidence (ev : evidence) (c : InventoryComponent)
  : evidence * ((string + option PackageManifest) + reconcile_error) :=
  match refusal ev c with
  | (ev, inr err) => (ev, inr err)
  | (ev, inl reason) =>
      if negb (reason =? "")%string then (ev, inl (inl reason))
      else
        match cataloged ev (cp_Ecosystem c) (canonical (cp_Ecosystem c) (cp_Name c)) with
        | (ev, inr err) => (ev, inr err)
        | (ev, inl pm) =>
            match versionEntry pm (cp_Ecosystem c) (cp_Version c) with
            | Some ve => if ve_Hidden ve then (ev, inl (inl (label c +:+ " is hidden in the catalog"))) else (ev, inl (inr pm))
            | None => (ev, inl (inr pm))
            end
        end
  end.

(** The classes bodega's own records give, once nothing else has claimed it. *)
Definition served_class (ev : evidence) (identity : string) (c : InventoryComponent) (pm : option PackageManifest) : string * string :=
  let k := component_key c in
  let digest := sha256Of c in
  let served := nonEmpty (default [] (e_anyone ev !! k)) in
  if negb (digest =? "")%string && (0 <? length served)%nat && negb (slice_contains served digest) then
    (ClassUnknown, "digest mismatch: the host has sha256 " +:+ short digest +:+ ", bodega served "
                   +:+ short (default "" (head served)) +:+ " for " +:+ label c)
  else if match e_mine ev !! k with
          | Some mine => (digest =? "")%string || slice_contains mine "" || slice_contains mine digest
          | None => false
          end
  then (ClassServed, "bodega served " +:+ label c +:+ " to " +:+ identity)
  else if isSome (e_anyone ev !! k) then (ClassUnattributed, "bodega served " +:+ label c +:+ ", never to " +:+ identity)
  else if isSome (versionEntry pm (cp_Ecosystem c) (cp_Version c))
  then (ClassUnattributed, label c +:+ " is cataloged, and bodega never served it to " +:+ identity)
  else (ClassUnknown, "no catalog entry and no serve_fetch row for " +:+ label c).

Definition classify (ev : evidence) (identity : string) (c : InventoryComponent)
  : evidence * ((string * string) + reconcile_error) :=
  let known := IsKnownType (cp_Ecosystem c) in
  match (if known then known_evidence ev c else (ev, inl (inr None))) with
  | (ev, inr err) => (ev, inr err)
  | (ev, inl (inl refused)) => (ev, inl (ClassRefused, refused))
  | (ev, inl (inr pm)) =>
      match baselineCovers (default [] (e_baseline ev !! nameKey (cp_Ecosystem c) (cp_Name c))) c with
      | Some bc =>
          (ev, inl (ClassBaseline,
                    if (bl_Version bc =? "")%string then "an accepted baseline covers every version of " +:+ cp_Name c
                    else "an accepted baseline covers " +:+ label c))
      | None =>
          match foreignOrigin ev c with
          | Some (manager, origin) =>
              (ev, inl (ClassForeignOrigin, manager +:+ " says it came from " +:+ origin +:+ ", not bodega"))
          | None =>
              if negb known then
                (ev, inl (ClassUnknown, "bodega serves no " +:+ Quote (cp_Ecosystem c) +:+ " packages, and no baseline covers this one"))
              else (ev, inl (served_class ev identity c pm))
          end
      end
  end.

Definition classified (c : InventoryComponent) (cr : string * string) : ClassifiedComponent :=
  MkClassified (cp_Ecosystem c) (cp_Name c) (cp_Version c) (cp_Path c) cr.1 cr.2.

Fixpoint classify_all (ev : evidence) (identity : string) (cs : list InventoryComponent)
  : list ClassifiedComponent + reconcile_error :=
  match cs with
  | [] => inl []
  | c :: cs =>
      match classify ev identity c with
      | (_, inr err) => inr err
      | (ev, inl cr) => (out <-? classify_all ev identity cs ;; inl (classified c cr :: out))%fallible
      end
  end.

Definition Classify (rep : InventoryReport) : InventoryClassification + reconcile_error :=
  if (ir_Identity rep =? "")%string then inr UnboundReport
  else
    (ev <-? evidence_of (ir_Identity rep) ;;
     cs <-? classify_all ev (ir_Identity rep) (ir_Components rep) ;;
     inl (MkClassification (ir_ID rep) (ir_Source rep) (ir_Identity rep) (rc_now r) cs []))%fallible.

(** * Disagreements *)

Definition instance (name : string) : option SourceInstance :=
  List.find (fun i => (in_Name i =? name)%string) (rc_Instances r).

Definition componentKeys (cs : list InventoryComponent) : list string := map component_key cs.

Definition disagreement_key (d : SourceDisagreement) : string :=
  Key (sd_Ecosystem d) (sd_Name d) (sd_Version d) +:+ nul +:+ sd_ReportedBy d +:+ nul +:+ sd_AbsentFrom d.

Definition finding (by_ absent : InventoryReport) (c : InventoryComponent) : SourceDisagreement :=
  MkDisagreement (cp_Ecosystem c) (cp_Name c) (cp_Version c) (ir_Source by_) (ir_ID by_) (ir_Source absent) (ir_ID absent).

(** What [by_] reports, [absent] does not, and [src] would have seen. *)
Definition missing (src : Source) (identity : string) (by_ absent : InventoryReport) : list SourceDisagreement :=
  map (finding by_ absent)
    (List.filter (fun c => negb (slice_contains (componentKeys (ir_Components absent)) (component_key c))
                           && Covers src identity (cp_Ecosystem c)) (ir_Components by_)).

(** [add]: the first finding of each key. *)
Fixpoint first_of_keys (seen : list string) (l : list SourceDisagreement) : list SourceDisagreement :=
  match l with
  | [] => []
  | d :: l =>
      if slice_contains seen (disagreement_key d) then first_of_keys seen l
      else d :: first_of_keys (disagreement_key d :: seen) l
  end.

Definition against (self : SourceInstance) (rep other : InventoryReport) : list SourceDisagreement :=
  if (ir_Source other =? ir_Source rep)%string then []
  else
    match instance (ir_Source other) with
    | None => []
    | Some inst =>
        if negb (in_Enabled inst) || negb (HasCapability (in_Source inst) CapInventory) then []
        else
          missing (in_Source inst) (ir_Identity rep) rep other
          ++ (if negb (in_Enabled self) then [] else missing (in_Source self) (ir_Identity rep) other rep)
    end.

Definition disagreements (rep : InventoryReport) : list SourceDisagreement + reconcile_error :=
  match instance (ir_Source rep) with
  | None => inl []
  | Some self =>
      (latest <-? ask (QueryLatest (ir_Identity rep)) (LatestInventoryReports (da_inventory db) (ir_Identity rep)) ;;
       inl (first_of_keys [] (concat (map (against self rep) latest))))%fallible
  end.

(** * Recording *)

Definition Count (class : string) (cs : list ClassifiedComponent) : nat :=
  length (List.filter (fun c => (cc_Class c =? class)%string) cs).

Definition audit_event (rep : InventoryReport) (status : string) : Event :=
  MkEvent EventInventory "inventory" (ir_Source rep) "" (ir_Identity rep) status None None.

Definition audit_events (rep : InventoryReport) (c : InventoryClassification) : list Event :=
  (if (0 <? Count ClassRefused (cl_Components c) + Count ClassForeignOrigin (cl_Components c) + Count ClassUnknown (cl_Components c))%nat
   then [audit_event rep InventoryBypass] else [])
  ++ (if (0 <? length (cl_Disagreements c))%nat then [audit_event rep InventoryDisagreement] else []).

Definition with_disagreements (d : list SourceDisagreement) (c : InventoryClassification) : InventoryClassification :=
  MkClassification (cl_ReportID c) (cl_Source c) (cl_Identity c) (cl_ClassifiedAt c) (cl_Components c) d.

(** An event the sink does not take is logged and lost. *)
Definition RecordReport (env : db_env) (takes : Event -> bool) (rep : InventoryReport)
  : database * (InventoryClassification + reconcile_error) :=
  match Classify rep with
  | inr err => (db, inr err)
  | inl c =>
      match disagreements rep with
      | inr err => (db, inr err)
      | inl d =>
          let c := with_disagreements d c in
          match RecordInventoryClassification env c (da_inventory db) with
          | (st, Some err) => (MkDatabase (da_events db) (da_admissions db) st (da_profiles db), inr (StoreRefused err))
          | (st, None) =>
              (MkDatabase (da_events db ++ List.filter takes (audit_events rep c)) (da_admissions db) st (da_profiles db), inl c)
          end
      end
  end.

(** The frame's hook: a failure is logged. *)
Definition Ingested (env : db_env) (takes : Event -> bool) (rep : InventoryReport) : database :=
  if (ir_Identity rep =? "")%string then db else (RecordReport env takes rep).1.

(** * Baselines *)

Definition accepted_component (c : InventoryComponent) : BaselineComponent :=
  MkBaselineComponent (cp_Ecosystem c) (canonical (cp_Ecosystem c) (cp_Name c)) (cp_Version c) (cp_DigestAlgorithm c) (cp_DigestValue c).

Definition accepted_key (bc : BaselineComponent) : string :=
  Key (bl_Ecosystem bc) (bl_Name bc) (bl_Version bc) +:+ nul +:+ bl_DigestAlgorithm bc +:+ nul +:+ bl_DigestValue bc.

Fixpoint first_accepted (seen : list string) (l : list BaselineComponent) : list BaselineComponent :=
  match l with
  | [] => []
  | bc :: l =>
      if slice_contains seen (accepted_key bc) then first_accepted seen l else bc :: first_accepted (accepted_key bc :: seen) l
  end.

Definition accept (env : db_env) (b : InventoryBaseline) : database * (InventoryBaseline + reconcile_error) :=
  match AcceptInventoryBaseline env b (da_inventory db) with
  | (st, inr err) => (MkDatabase (da_events db) (da_admissions db) st (da_profiles db), inr (StoreRefused err))
  | (st, inl b) => (MkDatabase (da_events db) (da_admissions db) st (da_profiles db), inl b)
  end.

Definition accept_reports (env : db_env) (identity actor comment : string) (reps : list InventoryReport)
  : database * (InventoryBaseline + reconcile_error) :=
  accept env (MkBaseline 0 identity "" (map ir_ID reps) actor comment zero_time
                (first_accepted [] (concat (map (fun rep => map accepted_component (ir_Components rep)) reps)))).

Definition AcceptReport (env : db_env) (identity : string) (reportID : Z) (actor comment : string)
  : database * (InventoryBaseline + reconcile_error) :=
  if negb (reportID =? 0) then
    match ask QueryReports (InventoryReportsByID (da_inventory db) [reportID]) with
    | inr err => (db, inr err)
    | inl [] => (db, inr (NoReport reportID))
    | inl (rep :: reps) =>
        if negb (ir_Identity rep =? identity)%string then (db, inr (ReportOfAnother reportID (ir_Identity rep)))
        else accept_reports env identity actor comment (rep :: reps)
    end
  else
    match ask (QueryLatest identity) (LatestInventoryReports (da_inventory db) identity) with
    | inr err => (db, inr err)
    | inl [] => (db, inr NothingToAccept)
    | inl reps => accept_reports env identity actor comment reps
    end.

Definition AcceptProfile (env : db_env) (profile actor comment : string) : database * (InventoryBaseline + reconcile_error) :=
  match GetProfile env (da_profiles db) (da_profiles db) (da_profiles db) profile with
  | inr err => (db, inr (ProfileRefused err))
  | inl d =>
      if (length (pd_Entries d) =? 0)%nat then (db, inr (ProfileEmpty profile))
      else
        accept env (MkBaseline 0 "" profile [] actor comment zero_time
                      (map (fun e => MkBaselineComponent (pe_Type e) (canonical (pe_Type e) (pe_Name e))
                                       (if Pinned e then pe_Version e else "") "" "") (pd_Entries d)))
  end.

Record Baselines := MkBaselines {
  bs_Identity : string;
  bs_Profile : string;
  bs_Own : option InventoryBaseline;
  bs_ByProfile : option InventoryBaseline
}.

Definition BaselinesFor (identity : string) : Baselines + reconcile_error :=
  (own <-? ask (QueryBaseline identity "") (CurrentInventoryBaseline (da_inventory db) identity "") ;;
   profile <-? ask (QueryBinding identity) (ProfileBindingFor (da_profiles db) identity) ;;
   byProfile <-? (if negb (profile =? "")%string
                  then ask (QueryBaseline "" profile) (CurrentInventoryBaseline (da_inventory db) "" profile)
                  else inl None) ;;
   inl (MkBaselines identity profile own byProfile))%fallible.
End reconciler.

(** * What the evidence is *)

Lemma append_at_elem {A} (m : gmap string (list A)) k v k' x :
  x ∈ default [] (append_at k v m !! k') <-> x ∈ default [] (m !! k') \/ (k' = k /\ x = v).
Proof.
  unfold append_at. rewrite lookup_insert. case_decide as E; simpl; [|naive_solver].
  subst. rewrite elem_of_app, list_elem_of_singleton. tauto.
Qed.

Lemma append_at_some {A} (m : gmap string (list A)) k v k' :
  is_Some (append_at k v m !! k') <-> is_Some (m !! k') \/ k' = k.
Proof. unfold append_at. rewrite lookup_insert. case_decide; naive_solver. Qed.

(** An object that is a package, under the key it is one of. *)
Definition served_under (UnescapePath : string -> option string) (k : string) (so : ServedObject) : Prop :=
  let '(eco, name, version) := ServedIdentity UnescapePath so in name <> "" /\ Key eco name version = k.

Lemma add_served_all UnescapePath objs m k :
  (forall d, d ∈ default [] (foldl (add_served UnescapePath) m objs !! k) <->
     d ∈ default [] (m !! k) \/ exists so, so ∈ objs /\ served_under UnescapePath k so /\ d = ToLower (sb_Digest so))
  /\ (is_Some (foldl (add_served UnescapePath) m objs !! k) <->
      is_Some (m !! k) \/ exists so, so ∈ objs /\ served_under UnescapePath k so).
Proof.
  revert m. induction objs as [|so objs IH]; intros m; simpl.
  { split; [intros d|]; split; auto; intros [|(? & ?%elem_of_nil & _)]; done. }
  specialize (IH (add_served UnescapePath m so)) as [IH1 IH2].
  assert (H : (forall d, d ∈ default [] (add_served UnescapePath m so !! k) <->
              d ∈ default [] (m !! k) \/ (served_under UnescapePath k so /\ d = ToLower (sb_Digest so)))
              /\ (is_Some (add_served UnescapePath m so !! k) <-> is_Some (m !! k) \/ served_under UnescapePath k so)).
  { unfold add_served, served_under. destruct (ServedIdentity UnescapePath so) as [[eco n] v].
    destruct (n =? "")%string eqn:E; [apply String.eqb_eq in E; naive_solver|]. apply String.eqb_neq in E.
    split; [intros d; rewrite append_at_elem|rewrite append_at_some]; naive_solver. }
  destruct H as [H1 H2]. split.
  - intros d. rewrite IH1, H1. setoid_rewrite elem_of_cons. naive_solver.
  - rewrite IH2, H2. setoid_rewrite elem_of_cons. naive_solver.
Qed.

Lemma QueryServedObjects_elem events identity so :
  so ∈ QueryServedObjects events identity <-> exists e, e ∈ events /\ served_row identity e = Some so.
Proof. unfold QueryServedObjects. by rewrite SliceStable_perm, elem_of_remove_dups, list_elem_of_omap. Qed.

Lemma add_baseline_all bcs m k bc :
  bc ∈ default [] (foldl add_baseline m bcs !! k) <->
  bc ∈ default [] (m !! k) \/ (bc ∈ bcs /\ nameKey (bl_Ecosystem bc) (bl_Name bc) = k).
Proof.
  revert m. induction bcs as [|b bcs IH]; intros m; simpl; [rewrite elem_of_nil; tauto|].
  rewrite IH. unfold add_baseline at 1. rewrite append_at_elem, elem_of_cons. naive_solver.
Qed.

Section facts.
Context (UnescapePath : string -> option string) (url_Host : string -> string) (answers : query -> bool).
Context (r : Reconciler) (db : database).

(** A serve of the package [c] is, to [identity]; to anyone when it is empty. *)
Definition was_served (identity : string) (c : InventoryComponent) (so : ServedObject) : Prop :=
  (exists e, e ∈ da_events db /\ served_row identity e = Some so) /\ served_under UnescapePath (component_key c) so.

(** An accepted baseline of [identity], its own or its profile's. *)
Definition accepted_for (identity : string) (bc : BaselineComponent) : Prop :=
  exists b, bc ∈ ib_Components b /\
    (CurrentInventoryBaseline (da_inventory db) identity "" = Some b
     \/ (ProfileBindingFor (da_profiles db) identity <> ""
         /\ CurrentInventoryBaseline (da_inventory db) "" (ProfileBindingFor (da_profiles db) identity) = Some b)).

(** What classification reads once, and what it may remember. *)
Record evidence_ok (identity : string) (ev : evidence) : Prop := {
  eo_mine : forall k d, d ∈ default [] (e_mine ev !! k) <->
    exists so, so ∈ QueryServedObjects (da_events db) identity /\ served_under UnescapePath k so /\ d = ToLower (sb_Digest so);
  eo_mine_some : forall k, is_Some (e_mine ev !! k) <->
    exists so, so ∈ QueryServedObjects (da_events db) identity /\ served_under UnescapePath k so;
  eo_anyone : forall k d, d ∈ default [] (e_anyone ev !! k) <->
    exists so, so ∈ QueryServedObjects (da_events db) "" /\ served_under UnescapePath k so /\ d = ToLower (sb_Digest so);
  eo_anyone_some : forall k, is_Some (e_anyone ev !! k) <->
    exists so, so ∈ QueryServedObjects (da_events db) "" /\ served_under UnescapePath k so;
  eo_baseline : forall k bc, bc ∈ default [] (e_baseline ev !! k) <->
    accepted_for identity bc /\ nameKey (bl_Ecosystem bc) (bl_Name bc) = k;
  eo_repos : e_freebsdRepos ev = rc_FreeBSDRepos r
}.

Lemma baseline_components_elem bc b : bc ∈ baseline_components b <-> exists x, b = Some x /\ bc ∈ ib_Components x.
Proof. destruct b; simpl; [naive_solver|]. rewrite elem_of_nil. naive_solver. Qed.

Lemma ask_inl {A} q (x y : A) : ask answers q x = inl y -> y = x.
Proof. unfold ask. case_match; [by intros [= <-]|done]. Qed.

Lemma servedSet_spec id m k :
  servedSet UnescapePath answers db id = inl m ->
  (forall d, d ∈ default [] (m !! k) <->
     exists so, so ∈ QueryServedObjects (da_events db) id /\ served_under UnescapePath k so /\ d = ToLower (sb_Digest so))
  /\ (is_Some (m !! k) <-> exists so, so ∈ QueryServedObjects (da_events db) id /\ served_under UnescapePath k so).
Proof.
  unfold servedSet. intros (objs & ->%ask_inl & [= <-])%and_then_inl.
  destruct (add_served_all UnescapePath (QueryServedObjects (da_events db) id) ∅ k) as [H1 H2].
  split; [intros d; rewrite H1|rewrite H2]; rewrite lookup_empty; simpl; [rewrite elem_of_nil; tauto|].
  split; auto. intros [[? [=]]|]; done.
Qed.

Lemma evidence_of_ok identity ev :
  evidence_of UnescapePath answers r db identity = inl ev ->
  evidence_ok identity ev /\ e_refusal ev = ∅ /\ e_catalog ev = ∅ /\ e_pkgs ev = ∅.
Proof.
  unfold evidence_of. intros (repos & Hr & H)%and_then_inl. apply and_then_inl in H as (mine & Hmine & H).
  apply and_then_inl in H as (anyone & Hany & H). apply and_then_inl in H as (own & ->%ask_inl & H).
  apply and_then_inl in H as (profile & ->%ask_inl & H). apply and_then_inl in H as (byProfile & Hp & [= <-]).
  split; [|done]. split; simpl.
  - intros k. by apply servedSet_spec.
  - intros k. by apply servedSet_spec.
  - intros k. by apply servedSet_spec.
  - intros k. by apply servedSet_spec.
  - intros k bc. rewrite add_baseline_all, lookup_empty, elem_of_app, !baseline_components_elem. simpl. rewrite elem_of_nil.
    assert (Hbp : byProfile = if negb (ProfileBindingFor (da_profiles db) identity =? "")%string
                  then CurrentInventoryBaseline (da_inventory db) "" (ProfileBindingFor (da_profiles db) identity) else None).
    { destruct (negb _); [by apply ask_inl in Hp|by injection Hp]. }
    rewrite Hbp. unfold accepted_for. destruct (String.eqb_spec (ProfileBindingFor (da_profiles db) identity) "") as [E|E]; simpl;
      naive_solver.
  - destruct (rc_FreeBSDRepos r); [by apply ask_inl in Hr|by injection Hr].
Qed.

(** ** What the run remembers *)

(** The catalog's answer for a package, past every cache. *)
Definition cat_entry (typ name : string) : option PackageManifest :=
  match rc_Catalog r with
  | Some cat => if slice_contains (ca_ListPackages cat typ) (SafeName name) then ca_GetPackage cat typ name else None
  | None => None
  end.

Definition entry_of (c : InventoryComponent) : option VersionEntry :=
  versionEntry (cat_entry (cp_Ecosystem c) (canonical (cp_Ecosystem c) (cp_Name c))) (cp_Ecosystem c) (cp_Version c).

Definition same_package (k : string) (x : InventoryComponent) : bool := IsKnownType (cp_Ecosystem x) && (component_key x =? k)%string.

(** The refusals are those of the first component with each key, and the catalog
    is what it answers. *)
Record caches_ok (seen : list InventoryComponent) (ev : evidence) : Prop := {
  ca_refusal : forall k, e_refusal ev !! k = refusal_reason db <$> List.find (same_package k) seen;
  ca_names : forall typ names, e_catalog ev !! typ = Some names ->
    exists cat, rc_Catalog r = Some cat /\ names = ca_ListPackages cat typ;
  ca_pkgs : forall k pm, e_pkgs ev !! k = Some pm ->
    exists cat typ name, rc_Catalog r = Some cat /\ IsKnownType typ = true /\ k = typ +:+ nul +:+ name /\ pm = ca_GetPackage cat typ name
}.

Definition same_reads (ev ev' : evidence) : Prop :=
  e_mine ev' = e_mine ev /\ e_anyone ev' = e_anyone ev /\ e_baseline ev' = e_baseline ev /\ e_freebsdRepos ev' = e_freebsdRepos ev.

Lemma same_reads_ok identity ev ev' : same_reads ev ev' -> evidence_ok identity ev -> evidence_ok identity ev'.
Proof. intros (E1 & E2 & E3 & E4) []. split; rewrite ?E1, ?E2, ?E3, ?E4; done. Qed.

Lemma known_type_key typ typ' name name' :
  IsKnownType typ = true -> IsKnownType typ' = true -> typ +:+ nul +:+ name = typ' +:+ nul +:+ name' -> typ = typ' /\ name = name'.
Proof.
  assert (H : forall t, IsKnownType t = true -> no_byte "000" t = true).
  { intros t Ht%slice_contains_spec. assert (Hall : forallb (no_byte "000") AllTypes = true) by by vm_compute.
    rewrite forallb_forall in Hall. apply Hall. by apply list_elem_of_In. }
  intros H1%H H2%H E. apply (f_equal (cut_byte "000")) in E. change (nul +:+ name) with (String "000" name) in E. change (nul +:+ name') with (String "000" name') in E.
  rewrite !cut_byte_app in E by done. by injection E.
Qed.

Lemma find_snoc {A} (p : A -> bool) l x : List.find p (l ++ [x]) = match List.find p l with Some y => Some y | None => if p x then Some x else None end.
Proof. induction l as [|y l IH]; simpl; [done|]. by destruct (p y). Qed.

Definition first_like (seen : list InventoryComponent) (c : InventoryComponent) : InventoryComponent :=
  default c (List.find (same_package (component_key c)) seen).

Lemma refusal_spec seen ev c ev' reason :
  IsKnownType (cp_Ecosystem c) = true -> caches_ok seen ev -> refusal answers db ev c = (ev', inl reason) ->
  caches_ok (seen ++ [c]) ev' /\ same_reads ev ev' /\ reason = refusal_reason db (first_like seen c).
Proof.
  intros Hk [H1 H2 H3]. unfold refusal, first_like. rewrite H1. destruct (List.find _ seen) as [x|] eqn:E; simpl.
  - intros [= <- <-]. split; [|done]. split; [|done|done]. intros k. rewrite H1, find_snoc.
    destruct (List.find (same_package k) seen) eqn:Ek; [done|]. unfold same_package. rewrite Hk. simpl.
    destruct (String.eqb_spec (component_key c) k) as [<-|]; [congruence|done].
  - destruct (ask _ _ _) as [x|] eqn:Ea; [|done]. apply ask_inl in Ea as ->. intros [= <- <-].
    split; [|done]. split; [|done|done]. intros k. simpl. rewrite find_snoc, lookup_insert.
    unfold same_package at 2. rewrite Hk. simpl. destruct (String.eqb_spec (component_key c) k) as [<-|Hne].
    + rewrite E. by case_decide.
    + case_decide; [done|]. rewrite H1. by destruct (List.find (same_package k) seen).
Qed.

Lemma cataloged_spec seen ev typ name ev' pm :
  IsKnownType typ = true -> caches_ok seen ev -> cataloged answers r ev typ name = (ev', inl pm) ->
  caches_ok seen ev' /\ same_reads ev ev' /\ pm = cat_entry typ name.
Proof.
  intros Hk Hok. unfold cataloged, cat_entry. destruct (rc_Catalog r) as [cat|] eqn:Ec; [|by intros [= <- <-]].
  assert (Hn : exists ev1, (match e_catalog ev !! typ with
             | Some names => (names, ev)
             | None => (ca_ListPackages cat typ, with_catalog (<[typ := ca_ListPackages cat typ]> (e_catalog ev)) ev)
             end) = (ca_ListPackages cat typ, ev1) /\ caches_ok seen ev1 /\ same_reads ev ev1).
  { destruct Hok as [H1 H2 H3]. destruct (e_catalog ev !! typ) as [names|] eqn:E.
    - destruct (H2 _ _ E) as (cat' & E' & ->). simplify_eq. by exists ev.
    - eexists. split; [done|]. split; [|done]. split; [done| |done]. intros t names. simpl. rewrite lookup_insert.
      case_decide; [|apply H2]. subst. intros [= <-]. by exists cat. }
  destruct Hn as (ev1 & -> & Hok1 & Hs). clear Hok. destruct (slice_contains _ _); simpl; [|by intros [= <- <-]].
  destruct (e_pkgs ev1 !! (typ +:+ nul +:+ name)) as [pm'|] eqn:E.
  - intros [= <- <-]. split; [done|]. split; [done|]. destruct (ca_pkgs _ _ Hok1 _ _ E) as (cat' & t & n & E1 & Ht & E2 & ->).
    simplify_eq. by apply known_type_key in E2 as [<- <-].
  - destruct (ask _ _ _) as [x|] eqn:Ea; [|done]. apply ask_inl in Ea as ->. intros [= <- <-].
    split; [|done]. destruct Hok1 as [H1 H2 H3]. split; [done|done|].
    intros k pm'. simpl. rewrite lookup_insert. case_decide; [|apply H3]. subst. intros [= <-]. by exists cat, typ, name.
Qed.

(** ** The class of one component *)

Definition hidden (c : InventoryComponent) : Prop := exists ve, entry_of c = Some ve /\ ve_Hidden ve = true.

(** Refused, as the run reads it: by the newest decision on the first component
    with this key, or by the catalog. *)
Definition refused_by (first c : InventoryComponent) : Prop :=
  IsKnownType (cp_Ecosystem c) = true /\ (refusal_reason db first <> "" \/ hidden c).

Definition accepted (identity : string) (c : InventoryComponent) : Prop :=
  exists bc, accepted_for identity bc /\ nameKey (bl_Ecosystem bc) (bl_Name bc) = nameKey (cp_Ecosystem c) (cp_Name c)
             /\ covers c bc = true.

(** The bytes on the host may be those that were handed over. *)
Definition digest_agrees (c : InventoryComponent) (so : ServedObject) : Prop :=
  sha256Of c = "" \/ ToLower (sb_Digest so) = "" \/ ToLower (sb_Digest so) = sha256Of c.

Definition mismatched (c : InventoryComponent) : Prop :=
  sha256Of c <> "" /\ (exists so, was_served "" c so /\ ToLower (sb_Digest so) <> "")
  /\ forall so, was_served "" c so -> ToLower (sb_Digest so) <> sha256Of c.

Record class_ok (identity : string) (first c : InventoryComponent) (class : string) : Prop := {
  co_refused : class = ClassRefused <-> refused_by first c;
  co_baseline : class = ClassBaseline <-> ~ refused_by first c /\ accepted identity c;
  co_served : class = ClassServed -> exists so, was_served identity c so /\ digest_agrees c so;
  co_unattributed : class = ClassUnattributed -> (exists so, was_served "" c so) \/ is_Some (entry_of c);
  co_mismatch : mismatched c -> class <> ClassServed /\ class <> ClassUnattributed;
  co_known : class ∈ [ClassServed; ClassUnattributed] -> IsKnownType (cp_Ecosystem c) = true
}.

Lemma mine_spec identity ev c :
  evidence_ok identity ev ->
  (is_Some (e_mine ev !! component_key c) <-> exists so, was_served identity c so)
  /\ forall d, d ∈ default [] (e_mine ev !! component_key c) <-> exists so, was_served identity c so /\ d = ToLower (sb_Digest so).
Proof.
  intros H. split; [rewrite (eo_mine_some _ _ H)|intros d; rewrite (eo_mine _ _ H)];
    setoid_rewrite QueryServedObjects_elem; unfold was_served; naive_solver.
Qed.

Lemma anyone_spec identity ev c :
  evidence_ok identity ev ->
  (is_Some (e_anyone ev !! component_key c) <-> exists so, was_served "" c so)
  /\ forall d, d ∈ default [] (e_anyone ev !! component_key c) <-> exists so, was_served "" c so /\ d = ToLower (sb_Digest so).
Proof.
  intros H. split; [rewrite (eo_anyone_some _ _ H)|intros d; rewrite (eo_anyone _ _ H)];
    setoid_rewrite QueryServedObjects_elem; unfold was_served; naive_solver.
Qed.

Lemma nonEmpty_elem ss d : d ∈ nonEmpty ss <-> d ∈ ss /\ d <> "".
Proof. unfold nonEmpty. by rewrite filter_elem, negb_true_iff, String.eqb_neq. Qed.

Ltac at_list := first [by apply list_elem_of_here | apply list_elem_of_further; at_list].

(** What bodega's own records say of a component. *)
Lemma served_class_spec identity ev c :
  evidence_ok identity ev ->
  let class := (served_class ev identity c (cat_entry (cp_Ecosystem c) (canonical (cp_Ecosystem c) (cp_Name c)))).1 in
  (class = ClassServed -> exists so, was_served identity c so /\ digest_agrees c so)
  /\ (class = ClassUnattributed -> (exists so, was_served "" c so) \/ is_Some (entry_of c))
  /\ (mismatched c -> class = ClassUnknown)
  /\ class ∈ [ClassServed; ClassUnattributed; ClassUnknown].
Proof.
  intros Hev. destruct (mine_spec _ _ c Hev) as [Hm Hmd], (anyone_spec _ _ c Hev) as [Ha Had].
  unfold served_class, mismatched, digest_agrees. fold (entry_of c).
  destruct (negb (sha256Of c =? "")%string && (0 <? length (nonEmpty (default [] (e_anyone ev !! component_key c))))%nat
            && negb (slice_contains (nonEmpty (default [] (e_anyone ev !! component_key c))) (sha256Of c))) eqn:E1; simpl.
  { split_and!; [done..|at_list]. }
  assert (Hno : ~ (sha256Of c <> "" /\ (exists so, was_served "" c so /\ ToLower (sb_Digest so) <> "")
                /\ forall so, was_served "" c so -> ToLower (sb_Digest so) <> sha256Of c)).
  { intros (H1 & (so & Hso & Hd) & H2). revert E1. apply not_false_iff_true. rewrite !andb_true_iff, !negb_true_iff, String.eqb_neq.
    assert (Hin : ToLower (sb_Digest so) ∈ nonEmpty (default [] (e_anyone ev !! component_key c))).
    { apply nonEmpty_elem. split; [apply Had; by exists so|done]. }
    split_and!; [done| |].
    - destruct (nonEmpty _); [by apply elem_of_nil in Hin|done].
    - apply not_true_iff_false. rewrite slice_contains_spec, nonEmpty_elem, Had. intros [(so' & Hso' & E) _]. by apply (H2 so'). }
  destruct (match e_mine ev !! component_key c with Some mine => _ | None => false end) eqn:E2; simpl.
  { split_and!; [intros _|done|done|at_list]. destruct (e_mine ev !! component_key c) as [mine|] eqn:Em; [|done].
    rewrite !orb_true_iff, String.eqb_eq, !slice_contains_spec in E2. destruct E2 as [[E2|E2]|E2].
    - destruct (proj1 Hm ltac:(by eexists)) as [so Hso]. exists so. auto.
    - apply Hmd in E2 as (so & Hso & E). exists so. auto.
    - apply Hmd in E2 as (so & Hso & E). exists so. auto. }
  destruct (isSome (e_anyone ev !! component_key c)) eqn:E3; simpl.
  { apply isSome_spec, Ha in E3. split_and!; [done|auto|done|at_list]. }
  destruct (isSome (entry_of c)) eqn:E4; simpl.
  - apply isSome_spec in E4. split_and!; [done|by right|done|at_list].
  - split_and!; [done..|at_list].
Qed.

Lemma known_evidence_spec seen ev c ev' out :
  IsKnownType (cp_Ecosystem c) = true -> caches_ok seen ev -> known_evidence answers r db ev c = (ev', inl out) ->
  caches_ok (seen ++ [c]) ev' /\ same_reads ev ev' /\
  match out with
  | inl _ => refused_by (first_like seen c) c
  | inr pm => ~ refused_by (first_like seen c) c /\ pm = cat_entry (cp_Ecosystem c) (canonical (cp_Ecosystem c) (cp_Name c))
  end.
Proof.
  intros Hk Hok. unfold known_evidence. destruct (refusal _ _ ev c) as [ev1 [reason|e]] eqn:Er; [|done].
  apply (refusal_spec seen) in Er as (Hok1 & Hs1 & ->); [|done..].
  destruct (negb (refusal_reason db (first_like seen c) =? "")%string) eqn:En.
  { intros [= <- <-]. apply negb_true_iff, String.eqb_neq in En. split; [done|]. split; [done|]. split; [done|by left]. }
  apply negb_false_iff, String.eqb_eq in En.
  destruct (cataloged _ _ ev1 _ _) as [ev2 [pm|e]] eqn:Ec; [|done].
  apply (cataloged_spec (seen ++ [c])) in Ec as (Hok2 & Hs2 & ->); [|done..]. fold (entry_of c).
  assert (Hs : same_reads ev ev2).
  { destruct Hs1 as (? & ? & ? & ?), Hs2 as (? & ? & ? & ?). repeat split; congruence. }
  destruct (entry_of c) as [ve|] eqn:Ee; [destruct (ve_Hidden ve) eqn:Eh|]; intros [= <- <-]; (split; [done|]; split; [done|]).
  - split; [done|]. right. by exists ve.
  - split; [|done]. intros [_ [?|(ve' & E & Hh)]]; [done|]. rewrite Ee in E. congruence.
  - split; [|done]. intros [_ [?|(ve' & E & Hh)]]; [done|]. by rewrite Ee in E.
Qed.

Lemma baselineCovers_spec identity ev c :
  evidence_ok identity ev ->
  (is_Some (baselineCovers (default [] (e_baseline ev !! nameKey (cp_Ecosystem c) (cp_Name c))) c) <-> accepted identity c).
Proof.
  intros Hev. unfold baselineCovers, accepted. split.
  - intros [bc [Hin Hc]%find_some]. apply list_elem_of_In, (eo_baseline _ _ Hev) in Hin as [Ha Hn]. by exists bc.
  - intros (bc & Ha & Hn & Hc). destruct (List.find _ _) eqn:E; [by eexists|].
    apply (find_none _ _) with (x := bc) in E; [congruence|]. apply list_elem_of_In, (eo_baseline _ _ Hev). done.
Qed.

Lemma caches_unknown seen ev c : IsKnownType (cp_Ecosystem c) = false -> caches_ok seen ev -> caches_ok (seen ++ [c]) ev.
Proof.
  intros Hk [H1 H2 H3]. split; [|done|done]. intros k. rewrite H1, find_snoc. unfold same_package at 3. rewrite Hk.
  by destruct (List.find (same_package k) seen).
Qed.

Lemma not_in_two {A} (x a b : A) : x <> a -> x <> b -> ~ x ∈ [a; b].
Proof. intros Ha Hb. rewrite !elem_of_cons. by intros [?|[?|?%elem_of_nil]]. Qed.

(** The classes nothing of bodega's stands behind. *)
Lemma plain_class_ok identity first c class :
  ~ refused_by first c -> ~ accepted identity c -> class = ClassForeignOrigin \/ class = ClassUnknown ->
  class_ok identity first c class.
Proof.
  intros Hr Ha Hc. split; try (intros H; exfalso; by destruct Hc; subst class).
  - split; [|done]. by destruct Hc; subst class.
  - split; [|intros [_ H]; done]. by destruct Hc; subst class.
  - by destruct Hc; subst class.
  - intros H. exfalso. revert H. by apply not_in_two; destruct Hc; subst class.
Qed.

Lemma classify_spec identity seen ev c ev' cr :
  evidence_ok identity ev -> caches_ok seen ev -> classify url_Host answers r db ev identity c = (ev', inl cr) ->
  evidence_ok identity ev' /\ caches_ok (seen ++ [c]) ev' /\ class_ok identity (first_like seen c) c cr.1.
Proof.
  intros Hev Hok. unfold classify.
  destruct (if IsKnownType (cp_Ecosystem c) then _ else _) as [ev1 [out|e]] eqn:E; [|done].
  assert (H : caches_ok (seen ++ [c]) ev1 /\ same_reads ev ev1 /\
    match out with
    | inl _ => refused_by (first_like seen c) c
    | inr pm => ~ refused_by (first_like seen c) c
                /\ (IsKnownType (cp_Ecosystem c) = true -> pm = cat_entry (cp_Ecosystem c) (canonical (cp_Ecosystem c) (cp_Name c)))
    end).
  { destruct (IsKnownType (cp_Ecosystem c)) eqn:Ek.
    - destruct (known_evidence_spec seen ev c ev1 out Ek Hok E) as (H1 & H2 & H3). split; [done|]. split; [done|].
      destruct out; [done|]. naive_solver.
    - injection E as <- <-. split; [by apply caches_unknown|]. split; [done|]. split; [|done]. unfold refused_by. rewrite Ek. naive_solver. }
  clear E. destruct H as (Hok1 & Hs & Hout). apply (same_reads_ok identity _ _ Hs) in Hev. clear Hs Hok.
  pose proof (baselineCovers_spec _ _ c Hev) as Hb. destruct out as [reason|pm].
  { intros [= <- <-]. split; [done|]. split; [done|]. split; simpl; try done; [naive_solver|].
    intros Hin. exfalso. by repeat apply elem_of_cons in Hin as [Hin|Hin]; try by apply elem_of_nil in Hin. }
  destruct Hout as [Hnr Hpm].
  destruct (baselineCovers _ c) as [bc|].
  { intros [= <- <-]. split; [done|]. split; [done|]. split; simpl; try done.
    - split; [intros _; split; [done|apply Hb; by eexists]|done].
    - intros Hin. exfalso. by repeat apply elem_of_cons in Hin as [Hin|Hin]; try by apply elem_of_nil in Hin. }
  assert (Hna : ~ accepted identity c) by (intros [? [=]]%Hb). clear Hb.
  destruct (foreignOrigin url_Host r ev1 c) as [[manager origin]|].
  { intros [= <- <-]. split; [done|]. split; [done|]. apply plain_class_ok; auto. }
  destruct (IsKnownType (cp_Ecosystem c)) eqn:Ek; simpl.
  - rewrite Hpm by done. intros [= <- <-]. split; [done|]. split; [done|].
    destruct (served_class_spec _ _ c Hev) as (H1 & H2 & H3 & H4). split; try done.
    + split; [|done]. intros E. exfalso. rewrite E in H4.
      by repeat apply elem_of_cons in H4 as [H4|H4]; try by apply elem_of_nil in H4.
    + split; [|intros [_ H]; done]. intros E. exfalso. rewrite E in H4.
      by repeat apply elem_of_cons in H4 as [H4|H4]; try by apply elem_of_nil in H4.
    + intros Hm. by rewrite (H3 Hm).
  - intros [= <- <-]. split; [done|]. split; [done|]. apply plain_class_ok; auto.
Qed.

Lemma classify_all_spec identity cs seen ev out :
  evidence_ok identity ev -> caches_ok seen ev -> classify_all url_Host answers r db ev identity cs = inl out ->
  length out = length cs /\ forall i c, cs !! i = Some c -> exists cr,
    out !! i = Some (classified c cr) /\ class_ok identity (first_like (seen ++ take i cs) c) c cr.1.
Proof.
  revert seen ev out. induction cs as [|c cs IH]; intros seen ev out Hev Hok; simpl; [intros [= <-]; split; [done|by intros []]|].
  destruct (classify _ _ _ _ _ _ c) as [ev1 [cr|e]] eqn:E; [|done].
  apply (classify_spec _ seen) in E as (Hev1 & Hok1 & Hc); [|done..].
  intros (out' & H & [= <-])%and_then_inl. apply (IH (seen ++ [c])) in H as [Hl H]; [|done..]. simpl. split; [by rewrite Hl|].
  intros [|i] c'; simpl.
  - intros [= <-]. exists cr. by rewrite List.app_nil_r.
  - intros Hi. destruct (H i c' Hi) as (cr' & H1 & H2). exists cr'. by rewrite <- List.app_assoc in H2.
Qed.

(** No component with the same key came first. *)
Definition first_with_key (cs : list InventoryComponent) (i : nat) (c : InventoryComponent) : InventoryComponent :=
  first_like (take i cs) c.

Lemma Classify_spec rep cl :
  Classify UnescapePath url_Host answers r db rep = inl cl ->
  length (cl_Components cl) = length (ir_Components rep) /\ forall i c, ir_Components rep !! i = Some c -> exists cr,
    cl_Components cl !! i = Some (classified c cr)
    /\ class_ok (ir_Identity rep) (first_with_key (ir_Components rep) i c) c cr.1.
Proof.
  unfold Classify. destruct (ir_Identity rep =? "")%string; [done|].
  intros (ev & Hev & H)%and_then_inl. apply and_then_inl in H as (cs & H & [= <-]). simpl.
  apply evidence_of_ok in Hev as (Hev & He & Hc & Hp). apply (classify_all_spec _ _ [] ev) in H; [done|done|].
  split; [intros k; by rewrite He|intros typ names; by rewrite Hc|intros k pm; by rewrite Hp].
Qed.

(** ** Keys that say what they are of *)

Definition plain (s : string) : Prop := no_byte "000" s = true.

Lemma nul_cut a b a' b' : plain a -> plain a' -> a +:+ nul +:+ b = a' +:+ nul +:+ b' -> a = a' /\ b = b'.
Proof.
  intros Ha Ha' E. apply (f_equal (cut_byte "000")) in E.
  change (nul +:+ b) with (String "000" b) in E. change (nul +:+ b') with (String "000" b') in E.
  rewrite !cut_byte_app in E by done. by injection E.
Qed.

End facts.

(** ** The newest decision *)

Section newest.
Context (db : database).

(** A row that decides on the component: its type, its canonical name and its
    version, which for rpm is compared less the epoch and otherwise as spelt. *)
Definition decides (c : InventoryComponent) (r : admission_row) : Prop :=
  rw_PkgType r = cp_Ecosystem c /\ rw_PkgName r = canonical (cp_Ecosystem c) (cp_Name c)
  /\ if (cp_Ecosystem c =? TypeRpm)%string then RpmDropEpoch (rw_PkgVersion r) = RpmDropEpoch (cp_Version c)
     else rw_PkgVersion r = cp_Version c.

(** The newest decision on the component, by time and then by number, is not an
    admission. *)
Definition newest_refuses (c : InventoryComponent) : Prop :=
  exists r, r ∈ tb_rows (da_admissions db) /\ decides c r /\ rw_Decision r <> AdmissionAdmitted
    /\ forall r', r' ∈ tb_rows (da_admissions db) -> decides c r' ->
         rw_decided r' < rw_decided r \/ rw_decided r' = rw_decided r /\ rw_ID r' <= rw_ID r.

Definition named_rows (c : InventoryComponent) : list admission_row :=
  List.filter (fun r => (rw_PkgType r =? cp_Ecosystem c)%string && (rw_PkgName r =? canonical (cp_Ecosystem c) (cp_Name c))%string)
    (tb_rows (da_admissions db)).

(** The question asked of the table is about this component: it is named, it has a
    version, an rpm has no more decisions on its name than one query returns, and
    what another component of the report is asked under its key is the same. *)
Record asked_exactly (cs : list InventoryComponent) (c : InventoryComponent) : Prop := {
  ax_name : canonical (cp_Ecosystem c) (cp_Name c) <> "";
  ax_version : cp_Ecosystem c <> TypeRpm -> cp_Version c <> "";
  ax_rows : cp_Ecosystem c = TypeRpm -> Z.of_nat (length (named_rows c)) <= 1000;
  ax_plain : forall x, x ∈ c :: cs -> plain (canonical (cp_Ecosystem x) (cp_Name x));
  ax_spelt : cp_Ecosystem c = TypeApt -> forall x, x ∈ cs -> cp_Ecosystem x = TypeApt -> component_key x = component_key c ->
    cp_Version x = cp_Version c
}.

Lemma row_cmp_newer h r : row_cmp h r <= 0 <-> rw_decided r < rw_decided h \/ rw_decided r = rw_decided h /\ rw_ID r <= rw_ID h.
Proof.
  unfold row_cmp, lex, desc, on_key, then_cmp, compareInt.
  destruct (Z.ltb_spec (rw_decided r) (rw_decided h)), (Z.ltb_spec (rw_decided h) (rw_decided r)),
    (Z.ltb_spec (rw_ID r) (rw_ID h)), (Z.ltb_spec (rw_ID h) (rw_ID r)); simpl; lia.
Qed.

Lemma filter_sorted {A} (R : A -> A -> Prop) (f : A -> bool) l : StronglySorted R l -> StronglySorted R (List.filter f l).
Proof.
  induction 1 as [|a l _ IH Ha]; [constructor|]. simpl. destruct (f a); [|done]. constructor; [done|].
  rewrite Forall_forall in *. intros x [Hx _]%filter_elem. by apply Ha.
Qed.

(** The newest of the rows a filter keeps. *)
Lemma newest_head (f : admission_row -> bool) rows :
  match List.filter f (newest_first rows) with
  | h :: _ => h ∈ rows /\ f h = true /\ forall r, r ∈ rows -> f r = true -> row_cmp h r <= 0
  | [] => forall r, r ∈ rows -> f r = false
  end.
Proof.
  pose proof (filter_sorted _ f _ (newest_first_sorted rows)) as Hs.
  assert (Hin : forall r, r ∈ List.filter f (newest_first rows) <-> r ∈ rows /\ f r = true)
    by (intros r; by rewrite filter_elem, newest_first_perm).
  destruct (List.filter f (newest_first rows)) as [|h l].
  - intros r Hr. destruct (f r) eqn:E; [|done]. exfalso. by apply (not_elem_of_nil r), Hin.
  - destruct (proj1 (Hin h)) as [Hh Hf]; [by left|]. split; [done|]. split; [done|]. intros r Hr Hfr.
    assert (H : r ∈ h :: l) by by apply Hin. apply elem_of_cons in H as [->|H]; [by rewrite (cmp_refl row_cmp)|].
    apply StronglySorted_inv in Hs as [_ Hs]. rewrite Forall_forall in Hs. by apply Hs.
Qed.

Lemma filter_map {A B} (g : A -> B) (f : B -> bool) l : List.filter f (map g l) = map g (List.filter (fun x => f (g x)) l).
Proof. induction l as [|x l IH]; [done|]. simpl. rewrite IH. by destruct (f (g x)). Qed.

Lemma filter_all {A} (f : A -> bool) l : (forall x, x ∈ l -> f x = true) -> List.filter f l = l.
Proof. induction l as [|x l IH]; intros H; [done|]. simpl. rewrite H by left. f_equal. apply IH. intros y Hy. apply H. by right. Qed.

(** What the query reads for a component is its newest decision. *)
Lemma refusal_rows_head c :
  canonical (cp_Ecosystem c) (cp_Name c) <> "" -> cp_Ecosystem c <> "" -> (cp_Ecosystem c <> TypeRpm -> cp_Version c <> "") ->
  (cp_Ecosystem c = TypeRpm -> Z.of_nat (length (named_rows c)) <= 1000) ->
  match refusal_rows db c with
  | a :: _ => exists h, a = scan h /\ h ∈ tb_rows (da_admissions db) /\ decides c h
                /\ forall r, r ∈ tb_rows (da_admissions db) -> decides c r -> row_cmp h r <= 0
  | [] => forall r, r ∈ tb_rows (da_admissions db) -> ~ decides c r
  end.
Proof.
  intros Hn%String.eqb_neq He%String.eqb_neq Hv Hl. unfold refusal_rows, refusal_filter, QueryAdmissions, decides.
  destruct (String.eqb_spec (cp_Ecosystem c) TypeRpm) as [E|E].
  - specialize (Hl E). cbn [af_Limit]. set (rows := List.filter (row_matches _) _).
    assert (Hrows : rows = named_rows c).
    { apply filter_ext. intros r. unfold row_matches, field_matches, key_matches. cbn. by rewrite Hn, He, !andb_true_r. }
    rewrite take_ge, filter_map.
    2:{ assert (length (newest_first rows) = length rows) as -> by (by rewrite newest_first_perm). rewrite Hrows. cbn. lia. }
    pose proof (newest_head (fun r => (normVersion (cp_Ecosystem c) (ad_PkgVersion (scan r)) =? normVersion (cp_Ecosystem c) (cp_Version c))%string) rows) as H.
    assert (Hd : forall r, r ∈ rows /\ (normVersion (cp_Ecosystem c) (ad_PkgVersion (scan r)) =? normVersion (cp_Ecosystem c) (cp_Version c))%string = true
                 <-> r ∈ tb_rows (da_admissions db) /\ rw_PkgType r = cp_Ecosystem c /\ rw_PkgName r = canonical (cp_Ecosystem c) (cp_Name c)
                     /\ RpmDropEpoch (rw_PkgVersion r) = RpmDropEpoch (cp_Version c)).
    { intros r. rewrite Hrows. unfold named_rows. rewrite filter_elem, andb_true_iff, !String.eqb_eq. unfold normVersion. rewrite E.
      change (TypeRpm =? TypeRpm)%string with true. cbn [scan ad_PkgVersion]. tauto. }
    destruct (List.filter _ (newest_first rows)) as [|h l]; cbn [map].
    + intros r Hr Hdr. assert (Hin : r ∈ rows /\ _) by (apply Hd; split; [exact Hr|exact Hdr]). destruct Hin as [Hin Hf]. by rewrite H in Hf.
    + destruct H as (Hh & Hfh & Hmin). destruct (proj1 (Hd h) (conj Hh Hfh)) as [H1 H2]. exists h. split; [done|]. split; [done|]. split; [done|].
      intros r Hr Hdr. destruct (proj2 (Hd r) (conj Hr Hdr)) as [H3 H4]. by apply Hmin.
  - specialize (Hv E). apply String.eqb_neq in Hv. cbn [af_Limit]. set (rows := List.filter (row_matches _) _).
    assert (Hd : forall r, r ∈ rows <-> r ∈ tb_rows (da_admissions db) /\ rw_PkgType r = cp_Ecosystem c
                   /\ rw_PkgName r = canonical (cp_Ecosystem c) (cp_Name c) /\ rw_PkgVersion r = cp_Version c).
    { intros r. unfold rows. rewrite filter_elem. unfold row_matches, field_matches, key_matches. cbn.
      rewrite Hn, He, Hv, !andb_true_r. cbn [orb]. rewrite !andb_true_iff, !String.eqb_eq. tauto. }
    pose proof (newest_head (fun _ => true) rows) as H. rewrite filter_all in H by done.
    change (Z.to_nat (effectiveLimit 1)) with 1%nat. destruct (newest_first rows) as [|h l]; cbn [take map].
    + intros r Hr Hdr. by specialize (H r (proj2 (Hd r) (conj Hr Hdr))).
    + destruct H as (Hh & _ & Hmin). destruct (proj1 (Hd h) Hh) as [H1 H2]. exists h. split; [done|]. split; [done|]. split; [done|].
      intros r Hr Hdr. apply Hmin; [|done]. by apply Hd.
Qed.

Lemma refusal_reason_newest c :
  table_ok (da_admissions db) ->
  canonical (cp_Ecosystem c) (cp_Name c) <> "" -> cp_Ecosystem c <> "" -> (cp_Ecosystem c <> TypeRpm -> cp_Version c <> "") ->
  (cp_Ecosystem c = TypeRpm -> Z.of_nat (length (named_rows c)) <= 1000) ->
  refusal_reason db c <> "" <-> newest_refuses c.
Proof.
  intros Hok Hn He Hv Hl. pose proof (refusal_rows_head c Hn He Hv Hl) as H. unfold refusal_reason.
  destruct (refusal_rows db c) as [|a l].
  { split; [done|]. intros (r & Hr & Hd & _). by destruct (H r Hr). }
  destruct H as (h & -> & Hh & Hd & Hmin). cbn [scan ad_Decision]. split.
  - destruct (String.eqb_spec (rw_Decision h) AdmissionAdmitted) as [|Hne]; [done|]. intros _. exists h. split; [done|]. split; [done|].
    split; [done|]. intros r' Hr' Hd'. by apply row_cmp_newer, Hmin.
  - intros (r & Hr & Hdr & Hne & Hnew). assert (r = h) as ->.
    { apply (same_row _ _ _ Hok Hr Hh). specialize (Hnew h Hh Hd). pose proof (proj1 (row_cmp_newer _ _) (Hmin r Hr Hdr)). lia. }
    apply String.eqb_neq in Hne. by rewrite Hne.
Qed.

(** Two components under one key are asked the same question. *)
Lemma first_asked_alike cs c x :
  IsKnownType (cp_Ecosystem c) = true -> IsKnownType (cp_Ecosystem x) = true -> asked_exactly cs c ->
  x ∈ c :: cs -> component_key x = component_key c ->
  cp_Ecosystem x = cp_Ecosystem c /\ canonical (cp_Ecosystem x) (cp_Name x) = canonical (cp_Ecosystem c) (cp_Name c)
  /\ (if (cp_Ecosystem c =? TypeRpm)%string then RpmDropEpoch (cp_Version x) = RpmDropEpoch (cp_Version c) else cp_Version x = cp_Version c).
Proof.
  intros Hk Hk' [_ _ _ Hp Hs] Hx E. pose proof E as E0. unfold component_key, Key, nameKey in E. rewrite !app_assoc in E.
  apply known_type_key in E as [E1 E]; [|done..]. apply nul_cut in E as [E2 E]; [|by apply Hp; try left..].
  split; [done|]. split; [done|]. apply elem_of_cons in Hx as [->|Hx]; [by destruct (_ =? _)%string|].
  unfold normVersion in E. rewrite E1 in E. destruct (String.eqb_spec (cp_Ecosystem c) TypeRpm) as [|Hr]; [done|].
  destruct (String.eqb_spec (cp_Ecosystem c) TypeApt) as [Ha|Ha]; cbn [negb] in E; [|done]. apply Hs; congruence.
Qed.

Lemma newest_refuses_alike c x :
  cp_Ecosystem x = cp_Ecosystem c -> canonical (cp_Ecosystem x) (cp_Name x) = canonical (cp_Ecosystem c) (cp_Name c) ->
  (if (cp_Ecosystem c =? TypeRpm)%string then RpmDropEpoch (cp_Version x) = RpmDropEpoch (cp_Version c) else cp_Version x = cp_Version c) ->
  newest_refuses x <-> newest_refuses c.
Proof.
  intros E1 E2 E3. assert (H : forall r, decides x r <-> decides c r).
  { intros r. unfold decides. rewrite E2, E1. destruct (_ =? _)%string; by rewrite E3. }
  unfold newest_refuses. by setoid_rewrite H.
Qed.
End newest.

(** C9: What the recorded class of a component rests on: [refused] on what was read
    for its key, for the first component of the report under that key, or on the
    catalog's hiding, and on nothing else (C10 says what that reading is of);
    [baseline] on an accepted baseline of a component that is not refused, [served]
    on a [serve_fetch] to this identity whose bytes may be the ones on the host,
    [unattributed] on a serve to anyone or on an entry naming the version; and
    bytes bodega did not hand out are neither of the last two. *)
Theorem Classify_classes UnescapePath url_Host answers r db rep cl :
  Classify UnescapePath url_Host answers r db rep = inl cl ->
  length (cl_Components cl) = length (ir_Components rep) /\
  forall i c, ir_Components rep !! i = Some c -> exists class reason,
    cl_Components cl !! i = Some (classified c (class, reason))
    /\ class_ok UnescapePath r db (ir_Identity rep) (first_with_key (ir_Components rep) i c) c class.
Proof.
  intros [Hl H]%Classify_spec. split; [done|]. intros i c Hi. destruct (H i c Hi) as ([class reason] & H1 & H2). by exists class, reason.
Qed.

(** C10: Whatever a baseline accepts, an origin claims or a serve records, a named
    component of a known type is reported refused exactly when the newest decision
    on its version is a refusal or the catalog hides the version.  Its version is the one
    the host spells, except that an rpm's epoch is dropped on both sides, over at
    most a thousand decisions on the name.  An apt version is looked for with its
    epoch, though its key drops it: a decision on the pool version is not found
    ([apt_epoch_unrefused]), and two spellings in one report share the answer of
    the first ([apt_order_decides]), so a report with one spelling is assumed. *)
Theorem newest_refusal_reported UnescapePath url_Host answers r db rep cl i c :
  Classify UnescapePath url_Host answers r db rep = inl cl -> ir_Components rep !! i = Some c ->
  table_ok (da_admissions db) -> IsKnownType (cp_Ecosystem c) = true -> asked_exactly db (ir_Components rep) c ->
  exists class reason, cl_Components cl !! i = Some (classified c (class, reason))
    /\ (class = ClassRefused <-> newest_refuses db c \/ hidden r c).
Proof.
  intros H%Classify_spec Hi Hok Hk Hax. destruct (proj2 H i c Hi) as ([class reason] & H1 & Hcl). simpl in Hcl.
  exists class, reason. split; [done|]. rewrite (co_refused _ _ _ _ _ _ _ Hcl). unfold refused_by.
  set (x := first_with_key (ir_Components rep) i c).
  assert (Hx : IsKnownType (cp_Ecosystem x) = true /\ x ∈ c :: ir_Components rep /\ component_key x = component_key c).
  { unfold x, first_with_key, first_like. destruct (List.find _ _) as [y|] eqn:Ef; simpl; [|split; [done|split; [by left|done]]].
    apply find_some in Ef as [Hy%list_elem_of_In Hs]. unfold same_package in Hs. apply andb_true_iff in Hs as [Hky Hs%String.eqb_eq].
    split; [done|]. split; [|done]. right. apply list_elem_of_lookup in Hy as [j Hj]. apply lookup_take_Some in Hj as [Hj _].
    by eapply list_elem_of_lookup_2. }
  destruct Hx as (Hkx & Hx & Hkey). destruct (first_asked_alike db _ c x Hk Hkx Hax Hx Hkey) as (E1 & E2 & E3).
  assert (Hr : refusal_reason db x <> "" <-> newest_refuses db c); [|rewrite Hr; tauto].
  rewrite <- (newest_refuses_alike db c x E1 E2 E3). destruct Hax as [A1 A2 A3 _ _].
  apply refusal_reason_newest; [done|by rewrite E2| | |].
  - intros E. rewrite E in Hkx. by vm_compute in Hkx.
  - rewrite E1. intros Hne. apply String.eqb_neq in Hne as Hne'. rewrite Hne' in E3. rewrite E3. by apply A2.
  - rewrite E1. intros E. unfold named_rows. rewrite E2, E1. by apply A3.
Qed.

(** * Disagreements *)

Lemma first_of_keys_elem seen l d : d ∈ first_of_keys seen l -> d ∈ l /\ disagreement_key d ∉ seen.
Proof.
  revert seen. induction l as [|x l IH]; intros seen; simpl; [by intros ?%elem_of_nil|].
  destruct (slice_contains seen (disagreement_key x)) eqn:E.
  - intros [H1 H2]%IH. split; [by right|done].
  - rewrite elem_of_cons. intros [->|[H1 H2]%IH]; [split; [left|]|split; [by right|set_solver]].
    intros H%slice_contains_spec. congruence.
Qed.

Lemma first_of_keys_NoDup seen l : NoDup (map disagreement_key (first_of_keys seen l)).
Proof.
  revert seen. induction l as [|x l IH]; intros seen; simpl; [constructor|]. case_match; [done|]. simpl. constructor; [|done].
  intros (d & E & Hd)%list_elem_of_fmap. apply first_of_keys_elem in Hd as [_ Hd]. apply Hd. rewrite <- E. left.
Qed.

Lemma first_of_keys_complete seen l d :
  d ∈ l -> disagreement_key d ∈ seen \/ exists d', d' ∈ first_of_keys seen l /\ disagreement_key d' = disagreement_key d.
Proof.
  revert seen. induction l as [|x l IH]; intros seen; simpl; [by intros ?%elem_of_nil|].
  destruct (slice_contains seen (disagreement_key x)) eqn:E.
  - intros [->|H]%elem_of_cons; [left; by apply slice_contains_spec|auto].
  - intros [->|H]%elem_of_cons; [right; exists x; split; [left|done]|].
    destruct (IH (disagreement_key x :: seen) H) as [[Ek|Hin]%elem_of_cons|(d' & H1 & H2)].
    + right. exists x. split; [left|done].
    + by left.
    + right. exists d'. split; [by right|done].
Qed.

Lemma missing_elem src identity by_ absent d :
  d ∈ missing src identity by_ absent <->
  exists c, d = finding by_ absent c /\ c ∈ ir_Components by_ /\ (component_key c ∉ componentKeys (ir_Components absent))
            /\ Covers src identity (cp_Ecosystem c) = true.
Proof.
  assert (Hc : forall l k, negb (slice_contains l k) = true <-> k ∉ l).
  { intros l k. by rewrite negb_true_iff, <- not_true_iff_false, slice_contains_spec. }
  unfold missing. rewrite list_elem_of_fmap. split.
  - intros (c & -> & [Hin H]%filter_elem). apply andb_true_iff in H as [H%Hc Hcov]. by exists c.
  - intros (c & -> & Hin & Hn%Hc & Hcov). exists c. split; [done|]. apply filter_elem. split; [done|]. by rewrite Hn, Hcov.
Qed.

(** [c], of [by_], is one a source standing in [absent] would have reported. *)
Definition stands_out (identity : string) (inst : SourceInstance) (by_ absent : InventoryReport) (c : InventoryComponent) : Prop :=
  c ∈ ir_Components by_ /\ (component_key c ∉ componentKeys (ir_Components absent)) /\ Covers (in_Source inst) identity (cp_Ecosystem c) = true.

(** The other enabled source of the host whose latest report [other] is. *)
Definition other_source (r : Reconciler) (db : database) (rep other : InventoryReport) (inst : SourceInstance) : Prop :=
  other ∈ LatestInventoryReports (da_inventory db) (ir_Identity rep) /\ ir_Source other <> ir_Source rep
  /\ instance r (ir_Source other) = Some inst /\ in_Enabled inst = true /\ HasCapability (in_Source inst) CapInventory = true.

Lemma against_elem r self rep other d :
  d ∈ against r self rep other <-> exists inst, ir_Source other <> ir_Source rep /\ instance r (ir_Source other) = Some inst
    /\ in_Enabled inst = true /\ HasCapability (in_Source inst) CapInventory = true
    /\ ((exists c, d = finding rep other c /\ stands_out (ir_Identity rep) inst rep other c)
        \/ (in_Enabled self = true /\ exists c, d = finding other rep c /\ stands_out (ir_Identity rep) self other rep c)).
Proof.
  unfold against. destruct (String.eqb_spec (ir_Source other) (ir_Source rep)) as [E|E].
  { split; [by intros ?%elem_of_nil|by intros (? & ? & _)]. }
  destruct (instance r (ir_Source other)) as [inst|]; [|split; [by intros ?%elem_of_nil|by intros (? & _ & ? & _)]].
  destruct (negb (in_Enabled inst) || negb (HasCapability (in_Source inst) CapInventory)) eqn:Eg.
  { split; [by intros ?%elem_of_nil|]. intros (i & _ & [= <-] & H1 & H2 & _). by rewrite H1, H2 in Eg. }
  apply orb_false_iff in Eg as [H1%negb_false_iff H2%negb_false_iff]. rewrite elem_of_app, missing_elem. split.
  - intros H. exists inst. split; [done|]. split; [done|]. split; [done|]. split; [done|]. destruct H as [(c & -> & H)|H].
    + left. by exists c.
    + right. destruct (in_Enabled self); simpl in H; [|by apply elem_of_nil in H]. split; [done|].
      apply missing_elem in H as (c & -> & H). by exists c.
  - intros (i & _ & [= <-] & _ & _ & [(c & -> & H)|(He & c & -> & H)]).
    + left. by exists c.
    + right. rewrite He. simpl. apply missing_elem. by exists c.
Qed.

(** C11: The findings are what two enabled sources of one host disagree about, both
    ways: each is a component one latest report has and the other lacks although
    its source covers the ecosystem, every such component is among them, and none
    is there twice. *)
Theorem disagreements_exact answers r db rep self ds :
  instance r (ir_Source rep) = Some self -> disagreements answers r db rep = inl ds ->
  NoDup (map disagreement_key ds)
  /\ (forall d, d ∈ ds -> exists other inst c, other_source r db rep other inst
        /\ ((d = finding rep other c /\ stands_out (ir_Identity rep) inst rep other c)
            \/ (in_Enabled self = true /\ d = finding other rep c /\ stands_out (ir_Identity rep) self other rep c)))
  /\ (forall other inst c, other_source r db rep other inst ->
        (stands_out (ir_Identity rep) inst rep other c ->
         exists d, d ∈ ds /\ disagreement_key d = disagreement_key (finding rep other c))
        /\ (in_Enabled self = true -> stands_out (ir_Identity rep) self other rep c ->
            exists d, d ∈ ds /\ disagreement_key d = disagreement_key (finding other rep c))).
Proof.
  intros Hs. unfold disagreements. rewrite Hs. intros (latest & ->%ask_inl & [= <-])%and_then_inl.
  assert (Hin : forall d, d ∈ concat (map (against r self rep) (LatestInventoryReports (da_inventory db) (ir_Identity rep))) <->
    exists other, other ∈ LatestInventoryReports (da_inventory db) (ir_Identity rep) /\ d ∈ against r self rep other).
  { intros d. rewrite list_elem_of_In, in_concat. setoid_rewrite in_map_iff. setoid_rewrite <- list_elem_of_In. naive_solver. }
  split; [apply first_of_keys_NoDup|]. split.
  - intros d [(other & Ho & Hd)%Hin _]%first_of_keys_elem. apply against_elem in Hd as (inst & H1 & H2 & H3 & H4 & H5).
    destruct H5 as [(c & -> & Hc)|(He & c & -> & Hc)]; exists other, inst, c; (split; [done|]); [by left|by right].
  - intros other inst c (H1 & H2 & H3 & H4 & H5).
    assert (Hk : forall d, d ∈ against r self rep other -> exists d',
      d' ∈ first_of_keys [] (concat (map (against r self rep) (LatestInventoryReports (da_inventory db) (ir_Identity rep))))
      /\ disagreement_key d' = disagreement_key d).
    { intros d Hd. destruct (first_of_keys_complete [] _ d (proj2 (Hin d) (ex_intro _ other (conj H1 Hd)))) as [?%elem_of_nil|]; done. }
    split; [intros Hc|intros He Hc]; apply Hk, against_elem; exists inst; (do 4 (split; [done|]));
      [left; by exists c|right; split; [done|]; by exists c].
Qed.

(** * The frame's hook *)

Section hook.
Context (UnescapePath : string -> option string) (url_Host : string -> string) (answers : query -> bool) (r : Reconciler).
Context (events : list Event) (admissions : table) (profiles : profile_db) (env : db_env) (takes : Event -> bool).

(** [OnReport], over the store the frame writes to. *)
Definition on_report (_ : SourceInstance) (rep : InventoryReport) (st : inventory) : inventory :=
  da_inventory (Ingested UnescapePath url_Host answers r (MkDatabase events admissions st profiles) env takes rep).

Lemma same_classes (st : inventory) : st = with_classes (iv_classes st) st.
Proof. by destruct st. Qed.

Lemma record_classes c st : exists x, (RecordInventoryClassification env c st).1 = with_classes x st.
Proof.
  unfold RecordInventoryClassification. destruct (env_readOnly env); [eexists; apply same_classes|].
  destruct (env_write_fails env); [eexists; apply same_classes|].
  destruct (isSome _); [eexists; apply same_classes|by eexists].
Qed.

Lemma on_report_classes i rep st : exists x, on_report i rep st = with_classes x st.
Proof.
  unfold on_report, Ingested, RecordReport. destruct (ir_Identity rep =? "")%string; [eexists; apply same_classes|].
  destruct (Classify _ _ _ _ _ _) as [c|]; [|eexists; apply same_classes].
  destruct (disagreements _ _ _ _) as [d|]; [|eexists; apply same_classes]. simpl.
  destruct (record_classes (with_disagreements d c) st) as [x Hx].
  destruct (RecordInventoryClassification _ _ _) as [st1 [err|]]; simpl in *; by exists x.
Qed.

#[export] Instance on_report_keeps : HookKeeps on_report.
Proof. split; intros i rep st; destruct (on_report_classes i rep st) as [x ->]; done. Qed.
End hook.

(** * At a concrete host *)

Definition no_path : string -> option string := fun _ => None.
Definition plain_host (s : string) : string := match cut_prefix s "https://" with Some h => h | None => "" end.
Definition always : query -> bool := fun _ => true.

Definition decided (id : Z) (typ name version decision : string) : admission_row :=
  MkRow id typ name version None decision [] "" "" "" 0.

Definition serve (typ name version identity digest : string) : Event :=
  MkEvent EventServeFetch typ name version identity "" (Some (typ +:+ "/" +:+ name)) (Some digest).

Definition component (eco name version sha origin : string) : InventoryComponent :=
  MkComponent eco name version "" (if (sha =? "")%string then "" else "SHA-256") sha origin "".

Definition host_report (cs : list InventoryComponent) : InventoryReport := MkReport 5 "sbom" "h1" "web" 0 0 1 "" "x" cs.

Definition demo_reconciler : Reconciler := MkReconciler None [] "https://bodega.example" None 0.

Definition demo_db (rows : list admission_row) : database :=
  MkDatabase [serve "npm" "left-pad" "1.0.0" "web" "AA"; serve "npm" "right-pad" "2.0.0" "db" "bb"]
    (MkTable rows 10)
    (AcceptInventoryBaseline plain_env (MkBaseline 0 "web" "" [] "" "" 0 [MkBaselineComponent "npm" "old" "" "" ""]) empty_inventory).1
    no_profiles.

Definition demo_classes (rows : list admission_row) (cs : list InventoryComponent) : list string :=
  match Classify no_path plain_host always demo_reconciler (demo_db rows) (host_report cs) with
  | inl cl => map cc_Class (cl_Components cl)
  | inr _ => []
  end.

Example classes_ex :
  demo_classes [decided 1 "npm" "evil" "1.0.0" "policy_blocked"; decided 2 "npm" "old" "0.1.0" "policy_blocked"]
    [component "npm" "left-pad" "1.0.0" "aa" ""; component "npm" "left-pad" "1.0.0" "cc" ""; component "npm" "right-pad" "2.0.0" "" "";
     component "npm" "evil" "1.0.0" "" ""; component "npm" "old" "3.0.0" "" ""; component "npm" "old" "0.1.0" "" "";
     component "npm" "x" "1" "" "https://registry.npmjs.org"; component "npm" "x" "1" "" "https://BODEGA.example";
     component "other" "y" "1" "" ""]
  = ["served"; "unknown"; "unattributed"; "refused"; "baseline"; "refused"; "foreign-origin"; "unknown"; "unknown"].
Proof. vm_compute. reflexivity. Qed.

(** A mirrored .deb is decided on under its pool version, and the host reports the
    epoch: the refusal is not found. *)
Example apt_epoch_unrefused :
  demo_classes [decided 1 "apt" "openssh-server" "9.6p1-3" "policy_blocked"]
    [component "apt" "openssh-server" "1:9.6p1-3" "" ""] = ["unknown"].
Proof. vm_compute. reflexivity. Qed.

(** What was read for one spelling answers for the other, whichever came first. *)
Example apt_order_decides :
  let rows := [decided 1 "apt" "openssh-server" "9.6p1-3" "policy_blocked"] in
  let with_epoch := component "apt" "openssh-server" "1:9.6p1-3" "" "" in
  let without := component "apt" "openssh-server" "9.6p1-3" "" "" in
  demo_classes rows [with_epoch; without] = ["unknown"; "unknown"]
  /\ demo_classes rows [without; with_epoch] = ["refused"; "refused"].
Proof. vm_compute. split; reflexivity. Qed.

(** A component that names no version is refused by the newest decision on any. *)
Example versionless_refused :
  demo_classes [decided 1 "npm" "ok" "1.0.0" "admitted"; decided 2 "npm" "ok" "2.0.0" "policy_blocked"]
    [component "npm" "ok" "" "" ""; component "npm" "ok" "1.0.0" "" ""] = ["refused"; "unknown"].
Proof. vm_compute. reflexivity. Qed.

Definition evil_report : InventoryReport := host_report [component "npm" "evil" "1.0.0" "" "https://bodega.example"].
Definition evil_db : database := demo_db [decided 1 "npm" "evil" "1.0.0" "policy_blocked"].
Definition evil_class : InventoryClassification :=
  match Classify no_path plain_host always demo_reconciler evil_db evil_report with
  | inl cl => cl
  | inr _ => MkClassification 0 "" "" 0 [] []
  end.

Lemma Classify_classes_witness : exists class reason,
  cl_Components evil_class !! 0%nat = Some (classified (component "npm" "evil" "1.0.0" "" "https://bodega.example") (class, reason))
  /\ class_ok no_path demo_reconciler evil_db "web"
       (first_with_key (ir_Components evil_report) 0 (component "npm" "evil" "1.0.0" "" "https://bodega.example"))
       (component "npm" "evil" "1.0.0" "" "https://bodega.example") class.
Proof.
  apply (proj2 (Classify_classes no_path plain_host always demo_reconciler evil_db evil_report evil_class
                  ltac:(vm_compute; reflexivity)) 0%nat). vm_compute. reflexivity.
Defined.

Lemma evil_table_ok : table_ok (da_admissions evil_db).
Proof. split; [apply NoDup_singleton|]. repeat constructor. Qed.

Lemma newest_refusal_reported_witness : exists class reason,
  cl_Components evil_class !! 0%nat
  = Some (classified (component "npm" "evil" "1.0.0" "" "https://bodega.example") (class, reason)) /\ class = ClassRefused.
Proof.
  set (c := component "npm" "evil" "1.0.0" "" "https://bodega.example").
  destruct (newest_refusal_reported no_path plain_host always demo_reconciler evil_db evil_report evil_class 0%nat c)
    as (class & reason & H1 & H2).
  - vm_compute. reflexivity.
  - reflexivity.
  - exact evil_table_ok.
  - vm_compute. reflexivity.
  - split; [discriminate|intros _; discriminate|discriminate| |discriminate].
    intros x Hx. apply elem_of_cons in Hx as [->|Hx]; [reflexivity|]. apply list_elem_of_singleton in Hx as ->. reflexivity.
  - exists class, reason. split; [exact H1|]. apply H2. left. eexists. split; [left|].
    split; [split; [reflexivity|split; reflexivity]|]. split; [discriminate|].
    intros r' Hr' _. apply list_elem_of_singleton in Hr' as ->. right. split; [reflexivity|vm_compute; discriminate].
Defined.

(** Two sources of one host: the first reports a package the second lacks. *)
Definition second_instance : SourceInstance := MkInstance "scan" true DefaultPushInterval 0 demo_source.
Definition two_sources : Reconciler := MkReconciler None [demo_instance; second_instance] "" None 0.

Definition scanned : InventoryReport := MkReport 0 "scan" "h1" "web" 0 0 0 "" "" [].

Definition two_reports : inventory :=
  (AppendInventoryReport toy_digest plain_env scanned
     (AppendInventoryReport toy_digest plain_env (posted "h1" "web" 0)
        (BindInventoryHost plain_env "scan" "h1" "web" (BindInventoryHost plain_env "sbom" "h1" "web" empty_inventory).1).1).1).1.

Definition two_db : database := MkDatabase [] empty_table two_reports no_profiles.

Lemma disagreements_exact_witness :
  exists ds, disagreements always two_sources two_db (posted "h1" "web" 0) = inl ds
    /\ NoDup (map disagreement_key ds) /\ length ds = 1%nat.
Proof.
  eexists. split; [vm_compute; reflexivity|]. split; [|reflexivity].
  eapply (disagreements_exact always two_sources two_db (posted "h1" "web" 0) demo_instance); vm_compute; reflexivity.
Defined.
