(* ===== verification/HostReport.v ===== *)
(** A host's current state (internal/inventory/reconcile/host.go): which sources
    are stale, the union of their latest reports with the classes recorded for
    them, the disagreements that still stand, and the alert.

    A map of components is a [gmap] with the order its keys came in; the counts
    of the classes are computed from the components where they are read. *)

From stdpp Require Import base list gmap strings sorting pretty.
From Stdlib Require Import ZArith Lia Ascii.
From S2P Require Import Prelude GoStrings GoSort GoTime Types ProfileStore.
From S2P Require Import Admissions InventoryStore InventoryFrame Reconcile.

(** * State *)

Inductive stale_reason :=
| NotStale
| NotConfigured
| NeverPolled
| NeverReported
| LastReportAgo (ago interval : Z).

Record SourceState := MkState {
  ss_Instance : string;
  ss_Type : string;
  ss_Mode : string;
  ss_Enabled : bool;
  ss_Interval : string;
  ss_ReportID : Z;
  ss_LastReport : option Z;
  ss_LastPoll : option Z;
  ss_Reason : stale_reason
}.

Definition ss_Stale (s : SourceState) : bool := match ss_Reason s with NotStale => false | _ => true end.

Record Component := MkHostComponent {
  hc_Ecosystem : string;
  hc_Name : string;
  hc_Version : string;
  hc_Paths : list string;
  hc_Sources : list string;
  hc_Class : string;
  hc_Reason : string
}.

Record HostReport := MkHostReport {
  ho_Identity : string;
  ho_GeneratedAt : Z;
  ho_Alert : bool;
  ho_Sources : list SourceState;
  ho_Components : list Component;
  ho_Disagreements : list SourceDisagreement
}.

Definition class_count (class : string) (cs : list Component) : nat :=
  length (List.filter (fun c => (hc_Class c =? class)%string) cs).

(** [Counts]: the classes of the components, and the stale sources. *)
Definition ho_Count (h : HostReport) (class : string) : nat :=
  class_count class (ho_Components h)
  + (if (class =? ClassStale)%string then length (List.filter ss_Stale (ho_Sources h)) else 0)%nat.

(** * The union *)

Definition betterRecord (class current : string) : bool :=
  if (class =? ClassUnclassified)%string then false
  else if (current =? ClassUnclassified)%string then true
  else rank class <? rank current.

Definition classified_key (cc : ClassifiedComponent) : string := Key (cc_Ecosystem cc) (cc_Name cc) (cc_Version cc).

(** The worst record of each key in one classification. *)
Definition keep_worst (m : gmap string ClassifiedComponent) (cc : ClassifiedComponent) : gmap string ClassifiedComponent :=
  match m !! classified_key cc with
  | Some prev => if rank (cc_Class cc) <? rank (cc_Class prev) then <[classified_key cc := cc]> m else m
  | None => <[classified_key cc := cc]> m
  end.

Definition recorded (cls : option InventoryClassification) : gmap string ClassifiedComponent :=
  foldl keep_worst ∅ (match cls with Some cls => cl_Components cls | None => [] end).

(** The class and the reason a report gives a key. *)
Definition record_of (cls : option InventoryClassification) (rep : InventoryReport) (k : string) : string * string :=
  match recorded cls !! k with
  | Some cc =>
      if isSome cls then (cc_Class cc, cc_Reason cc)
      else (ClassUnclassified, "report " +:+ pretty (ir_ID rep) +:+ " from " +:+ ir_Source rep +:+ " has no recorded classification")
  | None => (ClassUnclassified, "report " +:+ pretty (ir_ID rep) +:+ " from " +:+ ir_Source rep +:+ " has no recorded classification")
  end.

Definition add_path (p : string) (l : list string) : list string :=
  if negb (p =? "")%string && negb (slice_contains l p) then l ++ [p] else l.
Definition add_source (s : string) (l : list string) : list string := if negb (slice_contains l s) then l ++ [s] else l.

(** The map being merged, with its keys in the order they came. *)
Definition merging : Type := gmap string Component * list string.

Definition merge_component (cls : option InventoryClassification) (rep : InventoryReport) (acc : merging) (c : InventoryComponent) : merging :=
  let k := component_key c in
  let '(class, reason) := record_of cls rep k in
  let '(m, acc) :=
    match acc.1 !! k with
    | None => (MkHostComponent (cp_Ecosystem c) (cp_Name c) (cp_Version c) [] [] class reason, (acc.1, acc.2 ++ [k]))
    | Some m =>
        (if betterRecord class (hc_Class m)
         then MkHostComponent (hc_Ecosystem m) (hc_Name m) (hc_Version m) (hc_Paths m) (hc_Sources m) class reason
         else m, acc)
    end in
  let m := MkHostComponent (hc_Ecosystem m) (hc_Name m) (hc_Version m) (add_path (cp_Path c) (hc_Paths m))
             (add_source (ir_Source rep) (hc_Sources m)) (hc_Class m) (hc_Reason m) in
  (<[k := m]> acc.1, acc.2).

Definition merge_report (classes : gmap Z InventoryClassification) (acc : merging) (rep : InventoryReport) : merging :=
  foldl (merge_component (classes !! ir_ID rep) rep) acc (ir_Components rep).

Definition host_component_cmp : Component -> Component -> Z :=
  lex (on_key (fun c => rank (hc_Class c)) compareInt)
    (lex (on_key hc_Ecosystem Compare) (lex (on_key hc_Name Compare) (on_key hc_Version Compare))).

Definition union (latest : list InventoryReport) (classes : gmap Z InventoryClassification) : list Component :=
  let '(merged, order) := foldl (merge_report classes) (∅, []) latest in
  SliceStable (fun a b => host_component_cmp a b <? 0) (omap (fun k => merged !! k) order).

(** * Disagreements that stand *)

(** The last report of each source, as the map is filled. *)
Definition latestID (latest : list InventoryReport) (source : string) : Z :=
  match last (List.filter (fun r => (ir_Source r =? source)%string) latest) with Some r => ir_ID r | None => 0 end.

Definition stands (latest : list InventoryReport) (d : SourceDisagreement) : bool :=
  (latestID latest (sd_ReportedBy d) =? sd_ReportedIn d) && (latestID latest (sd_AbsentFrom d) =? sd_AbsentIn d).

Definition disagreement_cmp : SourceDisagreement -> SourceDisagreement -> Z :=
  lex (on_key sd_ReportedBy Compare) (lex (on_key sd_AbsentFrom Compare)
    (on_key (fun d => Key (sd_Ecosystem d) (sd_Name d) (sd_Version d)) Compare)).

Definition recorded_disagreements (classes : gmap Z InventoryClassification) (rep : InventoryReport) : list SourceDisagreement :=
  match classes !! ir_ID rep with Some cls => cl_Disagreements cls | None => [] end.

Definition currentDisagreements (latest : list InventoryReport) (classes : gmap Z InventoryClassification) : list SourceDisagreement :=
  SliceStable (fun a b => disagreement_cmp a b <? 0)
    (first_of_keys [] (List.filter (stands latest) (concat (map (recorded_disagreements classes) latest)))).

(** * The host *)

Section host.
Context (answers : query -> bool) (r : Reconciler) (st : inventory).

Definition sourceState (src : string) (rep : option InventoryReport) (now : Z) : SourceState + reconcile_error :=
  let id := match rep with Some rep => ir_ID rep | None => 0 end in
  let received := match rep with Some rep => ir_ReceivedAt rep | None => zero_time end in
  let last := if received =? zero_time then None else Some received in
  match instance r src with
  | None => inl (MkState src "" "" false "" id last None NotConfigured)
  | Some inst =>
      let pulls := (so_Mode (in_Source inst) =? ModePull)%string in
      (poll <-? (if pulls
                 then stats <-? ask answers (QueryStats src) (InventorySourceStats_of st src) ;;
                      inl (if is_LastSuccess stats =? zero_time then None else Some (is_LastSuccess stats))
                 else inl None) ;;
       let window := wrap64 (2 * in_Interval inst) in
       let reason :=
         match last with
         | None => if pulls then NeverPolled else NeverReported
         | Some t =>
             if window <? Time_Sub now t then LastReportAgo (Duration_Round (Time_Sub now t) (60 * Second)) (in_Interval inst)
             else NotStale
         end in
       inl (MkState src (so_Type (in_Source inst)) (so_Mode (in_Source inst)) (in_Enabled inst)
              (Duration_String (in_Interval inst)) id last poll reason))%fallible
  end.

(** [bySource[src]]: the last report of the source among the latest. *)
Definition bySource (latest : list InventoryReport) (src : string) : option InventoryReport :=
  last (List.filter (fun rep => (ir_Source rep =? src)%string) latest).

Fixpoint source_states (latest : list InventoryReport) (srcs : list string) : list SourceState + reconcile_error :=
  match srcs with
  | [] => inl []
  | src :: srcs =>
      (s <-? sourceState src (bySource latest src) (rc_now r) ;;
       out <-? source_states latest srcs ;;
       inl (s :: out))%fallible
  end.

Definition alerting (cs : list Component) : bool :=
  (0 <? class_count ClassRefused cs + class_count ClassForeignOrigin cs + class_count ClassUnknown cs
        + class_count ClassUnclassified cs)%nat.

Definition host (identity : string) (mapped : list string) : HostReport + reconcile_error :=
  (latest <-? ask answers (QueryLatest identity) (LatestInventoryReports st identity) ;;
   classes <-? ask answers QueryClasses (InventoryClassifications st (map ir_ID latest)) ;;
   sources <-? source_states latest (sort_Strings mapped) ;;
   let components := union latest classes in
   let disagreements := currentDisagreements latest classes in
   inl (MkHostReport identity (rc_now r) (alerting components || (0 <? length disagreements)%nat) sources components disagreements))%fallible.

(** The sources a mapping gives an identity. *)
Definition mapped_sources (hosts : list InventoryHost) (identity : string) : list string :=
  remove_dups (map ih_Source (List.filter (fun h => (ih_Identity h =? identity)%string) hosts)).

Definition Host (identity : string) : HostReport + reconcile_error :=
  (hosts <-? ask answers QueryHosts (ListInventoryHosts st) ;;
   let mapped := mapped_sources hosts identity in
   if (length mapped =? 0)%nat then inr (ErrUnknownIdentity identity) else host identity mapped)%fallible.

Fixpoint hosts_of (hosts : list InventoryHost) (ids : list string) : list HostReport + reconcile_error :=
  match ids with
  | [] => inl []
  | id :: ids =>
      (rep <-? host id (mapped_sources hosts id) ;;
       out <-? hosts_of hosts ids ;;
       inl (rep :: out))%fallible
  end.

(** A summary is the report without its components. *)
Definition Hosts : list HostReport + reconcile_error :=
  (hosts <-? ask answers QueryHosts (ListInventoryHosts st) ;;
   hosts_of hosts (sort_Strings (remove_dups (map ih_Identity hosts))))%fallible.
End host.

(** * The best record of several *)

Definition pick (current class : string) : string := if betterRecord class current then class else current.

Definition best (l : list string) : option string := match l with x :: l => Some (foldl pick x l) | [] => None end.

Lemma best_snoc l x : best (l ++ [x]) = Some (match best l with Some b => pick b x | None => x end).
Proof. destruct l as [|y l]; simpl; [done|]. by rewrite foldl_app. Qed.

Lemma pick_spec a b :
  (pick a b = a \/ pick a b = b)
  /\ (pick a b = ClassUnclassified -> a = ClassUnclassified /\ b = ClassUnclassified)
  /\ (a <> ClassUnclassified -> rank (pick a b) <= rank a) /\ (b <> ClassUnclassified -> rank (pick a b) <= rank b).
Proof.
  unfold pick, betterRecord. destruct (String.eqb_spec b ClassUnclassified) as [->|Hb].
  { split_and!; auto; try done; intros; lia. }
  destruct (String.eqb_spec a ClassUnclassified) as [->|Ha]; [split_and!; auto; try done; intros; lia|].
  destruct (Z.ltb_spec (rank b) (rank a)); split_and!; auto; try done; intros; lia.
Qed.

Lemma best_spec l b :
  best l = Some b ->
  b ∈ l /\ (b = ClassUnclassified -> forall x, x ∈ l -> x = ClassUnclassified)
  /\ forall x, x ∈ l -> x <> ClassUnclassified -> rank b <= rank x.
Proof.
  revert b. induction l as [|x l IH] using rev_ind; intros b; [done|]. rewrite best_snoc. intros [= <-].
  destruct (best l) as [b|] eqn:E.
  - destruct (IH b eq_refl) as (H1 & H2 & H3), (pick_spec b x) as (P1 & P2 & P3 & P4). split_and!.
    + rewrite elem_of_app, list_elem_of_singleton. destruct P1 as [->| ->]; auto.
    + intros [Eb Ex]%P2 y. rewrite elem_of_app, list_elem_of_singleton. intros [Hy| ->]; auto.
    + intros y. rewrite elem_of_app, list_elem_of_singleton. intros [Hy| ->] Hne; [|auto].
      destruct (String.eqb_spec b ClassUnclassified) as [Eb|Eb]; [by rewrite (H2 Eb y Hy) in Hne|].
      specialize (H3 y Hy Hne). specialize (P3 Eb). lia.
  - destruct l; [|done]. split_and!; [left| |]; intros; repeat match goal with H : _ ∈ _ |- _ => apply list_elem_of_singleton in H end; subst; done.
Qed.

(** * What the merge holds *)

Section merge.
Context (classes : gmap Z InventoryClassification).

#[local] Abbreviation occurrence := (InventoryReport * InventoryComponent)%type.

Definition occurrences (latest : list InventoryReport) : list occurrence :=
  concat (map (fun rep => map (pair rep) (ir_Components rep)) latest).

(** The class a report gives one of its components. *)
Definition class_of (rep : InventoryReport) (k : string) : string := (record_of (classes !! ir_ID rep) rep k).1.

Definition of_key (k : string) (o : occurrence) : bool := (component_key o.2 =? k)%string.

Definition classes_at (k : string) (os : list occurrence) : list string :=
  map (fun o : occurrence => class_of o.1 k) (List.filter (of_key k) os).

Definition merge_one (acc : merging) (o : occurrence) : merging := merge_component (classes !! ir_ID o.1) o.1 acc o.2.

Lemma merge_flat latest acc : foldl (merge_report classes) acc latest = foldl merge_one acc (occurrences latest).
Proof.
  revert acc. induction latest as [|rep latest IH]; intros acc; simpl; [done|]. rewrite IH. unfold occurrences. simpl.
  rewrite foldl_app. f_equal. unfold merge_report. generalize (ir_Components rep). intros cs. revert acc.
  induction cs as [|c cs IHc]; intros acc; simpl; [done|]. by rewrite IHc.
Qed.

Definition host_key (m : Component) : string := Key (hc_Ecosystem m) (hc_Name m) (hc_Version m).

Record merged_ok (os : list occurrence) (acc : merging) : Prop := {
  mo_class : forall k, hc_Class <$> acc.1 !! k = best (classes_at k os);
  mo_key : forall k m, acc.1 !! k = Some m -> host_key m = k;
  mo_source : forall k m s, acc.1 !! k = Some m ->
    (s ∈ hc_Sources m <-> exists o, o ∈ os /\ of_key k o = true /\ ir_Source o.1 = s);
  mo_order : NoDup acc.2;
  mo_in : forall k, k ∈ acc.2 <-> is_Some (acc.1 !! k)
}.

Lemma add_source_elem s l x : x ∈ add_source s l <-> x ∈ l \/ x = s.
Proof.
  unfold add_source. destruct (slice_contains l s) eqn:E; simpl.
  - apply slice_contains_spec in E. naive_solver.
  - rewrite elem_of_app, list_elem_of_singleton. done.
Qed.

Lemma classes_at_snoc k os o :
  classes_at k (os ++ [o]) = classes_at k os ++ (if of_key k o then [class_of o.1 k] else []).
Proof. unfold classes_at. rewrite List.filter_app, map_app. cbn [List.filter]. by destruct (of_key k o). Qed.

Lemma merge_one_class acc o k' :
  hc_Class <$> (merge_one acc o).1 !! k' =
  if of_key k' o then Some (match hc_Class <$> acc.1 !! k' with Some b => pick b (class_of o.1 k') | None => class_of o.1 k' end)
  else hc_Class <$> acc.1 !! k'.
Proof.
  unfold merge_one, merge_component, of_key, class_of, pick. destruct o as [rep c]; simpl.
  set (k := component_key c).
  destruct (String.eqb_spec k k') as [<-|Hne].
  - destruct (record_of (classes !! ir_ID rep) rep k) as [class reason].
    destruct (acc.1 !! k) as [m|]; simpl; rewrite lookup_insert, decide_True by done; simpl; [|done]. by destruct (betterRecord _ _).
  - destruct (record_of (classes !! ir_ID rep) rep k) as [class reason].
    destruct (acc.1 !! k) as [m|]; simpl; by rewrite lookup_insert_ne.
Qed.

Lemma merge_one_ok os acc o : merged_ok os acc -> merged_ok (os ++ [o]) (merge_one acc o).
Proof.
  intros [Hc Hk Hs Ho Hi]. destruct o as [rep c]. split.
  - intros k. rewrite merge_one_class, classes_at_snoc, Hc. destruct (of_key k (rep, c)); [|by rewrite List.app_nil_r].
    by rewrite best_snoc.
  - intros k m. unfold merge_one, merge_component. simpl. destruct (record_of _ _ _) as [class reason].
    destruct (acc.1 !! component_key c) as [m'|] eqn:E; simpl; rewrite lookup_insert; case_decide as Ek; auto; intros [= <-]; subst.
    + unfold host_key. specialize (Hk _ _ E). by destruct (betterRecord _ _).
    + done.
  - intros k m s. setoid_rewrite elem_of_app. setoid_rewrite list_elem_of_singleton.
    assert (Hnew : forall P : occurrence -> Prop, (exists o, (o ∈ os \/ o = (rep, c)) /\ P o) <-> (exists o, o ∈ os /\ P o) \/ P (rep, c)).
    { intros P. naive_solver. }
    rewrite Hnew. unfold merge_one, merge_component. simpl. destruct (record_of _ _ _) as [class reason].
    unfold of_key at 2. simpl.
    destruct (acc.1 !! component_key c) as [m'|] eqn:E; simpl; rewrite lookup_insert; case_decide as Ek; intros H; subst.
    + injection H as <-. simpl. rewrite String.eqb_refl, add_source_elem, <- (Hs _ _ s E). destruct (betterRecord _ _); naive_solver.
    + rewrite (Hs _ _ s H). apply String.eqb_neq in Ek. rewrite Ek. naive_solver.
    + injection H as <-. simpl. rewrite String.eqb_refl, add_source_elem, elem_of_nil.
      assert (Hno : ~ exists o, o ∈ os /\ of_key (component_key c) o = true /\ ir_Source o.1 = s).
      { intros (o & Hin & Hof & _). specialize (Hc (component_key c)). rewrite E in Hc. simpl in Hc. revert Hc.
        unfold classes_at. destruct (List.filter (of_key (component_key c)) os) eqn:Ef; [|done].
        intros _. apply (not_elem_of_nil o). rewrite <- Ef. by apply filter_elem. }
      naive_solver.
    + rewrite (Hs _ _ s H). apply String.eqb_neq in Ek. rewrite Ek. naive_solver.
  - unfold merge_one, merge_component. simpl. destruct (record_of _ _ _) as [class reason].
    destruct (acc.1 !! component_key c) as [m'|] eqn:E; simpl; [done|]. apply NoDup_app. split; [done|]. split; [|apply NoDup_singleton].
    intros k Hin%Hi Hk'%list_elem_of_singleton. subst. rewrite E in Hin. by destruct Hin.
  - intros k. unfold merge_one, merge_component. simpl. destruct (record_of _ _ _) as [class reason].
    destruct (acc.1 !! component_key c) as [m'|] eqn:E; simpl; rewrite lookup_insert.
    + rewrite Hi. case_decide; [subst; naive_solver|done].
    + rewrite elem_of_app, list_elem_of_singleton, Hi. case_decide; [subst; naive_solver|]. naive_solver.
Qed.

Lemma merged_all latest : merged_ok (occurrences latest) (foldl (merge_report classes) (∅, []) latest).
Proof.
  rewrite merge_flat. assert (H : forall os os0 acc, merged_ok os0 acc -> merged_ok (os0 ++ os) (foldl merge_one acc os)).
  { induction os as [|o os IH]; intros os0 acc Hacc; simpl; [by rewrite List.app_nil_r|].
    specialize (IH (os0 ++ [o]) _ (merge_one_ok _ _ o Hacc)). by rewrite <- List.app_assoc in IH. }
  apply (H _ []). split; simpl; try done; [constructor|]. intros k. rewrite elem_of_nil, lookup_empty. split; [done|by intros []].
Qed.

Lemma occurrences_elem latest o : o ∈ occurrences latest <-> o.1 ∈ latest /\ o.2 ∈ ir_Components o.1.
Proof.
  unfold occurrences. rewrite list_elem_of_In, in_concat. setoid_rewrite in_map_iff. setoid_rewrite <- list_elem_of_In.
  destruct o as [rep c]. simpl. split.
  - intros (l & (rep' & <- & Hr) & Hin). apply list_elem_of_fmap in Hin as (c' & [= <- <-] & Hc). done.
  - intros [Hr Hc]. exists (map (pair rep) (ir_Components rep)). split; [by exists rep|]. by apply list_elem_of_fmap_2.
Qed.
End merge.

(** A report lists a component under a key. *)
Definition lists (latest : list InventoryReport) (k : string) (rep : InventoryReport) : Prop :=
  rep ∈ latest /\ exists c, c ∈ ir_Components rep /\ component_key c = k.

Lemma classes_at_elem classes latest k x :
  x ∈ classes_at classes k (occurrences latest) <-> exists rep, lists latest k rep /\ x = class_of classes rep k.
Proof.
  unfold classes_at, lists. rewrite list_elem_of_fmap. setoid_rewrite filter_elem. setoid_rewrite occurrences_elem.
  unfold of_key. split.
  - intros ([rep c] & -> & [Hr Hc] & Hk%String.eqb_eq). exists rep. split; [|done]. split; [done|]. by exists c.
  - intros (rep & (Hr & c & Hc & Hk) & ->). exists (rep, c). split; [done|]. split; [done|]. by apply String.eqb_eq.
Qed.

Lemma union_elem latest classes m :
  m ∈ union latest classes <-> exists k, (foldl (merge_report classes) (∅, []) latest).1 !! k = Some m.
Proof.
  unfold union. pose proof (merged_all classes latest) as H.
  destruct (foldl (merge_report classes) (∅, []) latest) as [merged order]. simpl.
  rewrite SliceStable_perm, list_elem_of_omap. split.
  - intros (k & _ & Hk). by exists k.
  - intros [k Hk]. exists k. split; [|done]. apply (mo_in _ _ _ H). by eexists.
Qed.

Lemma union_keys latest classes : NoDup (map host_key (union latest classes)).
Proof.
  unfold union. pose proof (merged_all classes latest) as H.
  destruct (foldl (merge_report classes) (∅, []) latest) as [merged order]. rewrite SliceStable_perm.
  destruct H as [_ Hk _ Ho _]. simpl in *. induction Ho as [|k l Hkl _ IH]; simpl; [constructor|].
  destruct (merged !! k) as [m|] eqn:E; simpl; [|done]. constructor; [|done].
  intros (m' & Em & Hm')%list_elem_of_fmap. apply list_elem_of_omap in Hm' as (k' & Hk' & Em').
  apply Hk in E, Em'. apply Hkl. congruence.
Qed.

(** The host's components are those its sources' latest reports list, once each
    whatever the spelling of their names: each has the worst class any of the
    reports recorded for it, [unclassified] only where none recorded one, and
    names exactly the sources that report it. *)
Theorem union_exact latest classes :
  NoDup (map host_key (union latest classes))
  /\ (forall k, (exists m, m ∈ union latest classes /\ host_key m = k) <-> exists rep, lists latest k rep)
  /\ forall m, m ∈ union latest classes ->
     (exists rep, lists latest (host_key m) rep /\ hc_Class m = class_of classes rep (host_key m))
     /\ (forall rep, lists latest (host_key m) rep -> class_of classes rep (host_key m) <> ClassUnclassified ->
           hc_Class m <> ClassUnclassified /\ rank (hc_Class m) <= rank (class_of classes rep (host_key m)))
     /\ (forall s, s ∈ hc_Sources m <-> exists rep, lists latest (host_key m) rep /\ ir_Source rep = s).
Proof.
  split; [apply union_keys|]. pose proof (merged_all classes latest) as Hok. split.
  - intros k. split.
    + intros (m & [k' Hm]%union_elem & <-). rewrite (mo_key _ _ _ Hok _ _ Hm).
      pose proof (mo_class _ _ _ Hok k') as Hc. rewrite Hm in Hc. simpl in Hc. symmetry in Hc. apply best_spec in Hc as [Hc _].
      apply classes_at_elem in Hc as (rep & Hr & _). by exists rep.
    + intros (rep & Hr). assert (Hin : class_of classes rep k ∈ classes_at classes k (occurrences latest)).
      { apply classes_at_elem. by exists rep. }
      pose proof (mo_class _ _ _ Hok k) as Hc. destruct (classes_at _ _ _) as [|x l]; [by apply elem_of_nil in Hin|]. simpl in Hc.
      destruct ((foldl (merge_report classes) (∅, []) latest).1 !! k) as [m|] eqn:Em; [|done].
      exists m. split; [apply union_elem; by exists k|]. by apply (mo_key _ _ _ Hok).
  - intros m [k Hm]%union_elem. rewrite (mo_key _ _ _ Hok _ _ Hm).
    pose proof (mo_class _ _ _ Hok k) as Hc. rewrite Hm in Hc. simpl in Hc. symmetry in Hc.
    apply best_spec in Hc as (H1 & H2 & H3). split; [|split].
    + by apply classes_at_elem.
    + intros rep Hr Hne. assert (Hin : class_of classes rep k ∈ classes_at classes k (occurrences latest)).
      { apply classes_at_elem. by exists rep. }
      split; [|by apply H3]. intros E. apply Hne. by apply H2.
    + intros s. rewrite (mo_source _ _ _ Hok _ _ s Hm). setoid_rewrite occurrences_elem. unfold lists, of_key. split.
      * intros ([rep c] & [Hr Hin] & Hk%String.eqb_eq & <-). exists rep. split; [|done]. split; [done|]. by exists c.
      * intros (rep & (Hr & c & Hin & Hk) & <-). exists (rep, c). split; [done|]. split; [by apply String.eqb_eq|done].
Qed.

(** * The alert *)

Lemma index_nonneg l c : 0 <= index_in l c.
Proof. induction l as [|x l IH]; simpl; [lia|]. case_match; lia. Qed.

Definition alerts (class : string) : Prop := class = ClassRefused \/ class = ClassForeignOrigin \/ class = ClassUnknown.

Lemma rank_alerts class : rank class <= 2 <-> alerts class.
Proof.
  unfold rank, Classes, alerts. cbn [index_in].
  destruct (String.eqb_spec ClassRefused class) as [<-|H1]; [split; [by left|lia]|].
  destruct (String.eqb_spec ClassForeignOrigin class) as [<-|H2]; [split; [by right; left|lia]|].
  destruct (String.eqb_spec ClassUnknown class) as [<-|H3]; [split; [by right; right|lia]|].
  pose proof (index_nonneg [ClassUnattributed; ClassUnclassified; ClassServed; ClassBaseline; ClassStale] class) as Hp.
  cbn [index_in] in Hp. split; [lia|]. intros [E|[E|E]]; by subst class.
Qed.

Lemma class_count_pos class cs : (0 < class_count class cs)%nat <-> exists m, m ∈ cs /\ hc_Class m = class.
Proof.
  unfold class_count. split.
  - destruct (List.filter _ cs) as [|x l] eqn:E; simpl; [lia|]. intros _. exists x.
    assert (Hx : x ∈ x :: l) by left. rewrite <- E in Hx. by apply filter_elem in Hx as [Hx Hc%String.eqb_eq].
  - intros (m & Hm & Hc%String.eqb_eq). assert (Hin : m ∈ List.filter (fun c => (hc_Class c =? class)%string) cs) by by apply filter_elem.
    destruct (List.filter _ cs); simpl; [by apply elem_of_nil in Hin|lia].
Qed.

Lemma alerting_spec cs : alerting cs = true <-> exists m, m ∈ cs /\ (alerts (hc_Class m) \/ hc_Class m = ClassUnclassified).
Proof.
  unfold alerting. rewrite Nat.ltb_lt.
  pose proof (class_count_pos ClassRefused cs). pose proof (class_count_pos ClassForeignOrigin cs).
  pose proof (class_count_pos ClassUnknown cs). pose proof (class_count_pos ClassUnclassified cs). unfold alerts. split.
  - intros Hpos. assert (H4 : (0 < class_count ClassRefused cs \/ 0 < class_count ClassForeignOrigin cs
      \/ 0 < class_count ClassUnknown cs \/ 0 < class_count ClassUnclassified cs)%nat) by lia.
    destruct H4 as [Hx|[Hx|[Hx|Hx]]]; [apply H in Hx|apply H0 in Hx|apply H1 in Hx|apply H2 in Hx];
      destruct Hx as (m & Hm & E); exists m; auto 6.
  - intros (m & Hm & E).
    assert (H4 : (0 < class_count ClassRefused cs \/ 0 < class_count ClassForeignOrigin cs
      \/ 0 < class_count ClassUnknown cs \/ 0 < class_count ClassUnclassified cs)%nat).
    { destruct E as [[E|[E|E]]|E]; [left|right; left|right; right; left|right; right; right]; [apply H|apply H0|apply H1|apply H2];
        by exists m. }
    lia.
Qed.

Lemma host_inl answers r st identity mapped h :
  host answers r st identity mapped = inl h ->
  let latest := LatestInventoryReports st identity in
  let classes := InventoryClassifications st (map ir_ID latest) in
  ho_Components h = union latest classes /\ ho_Disagreements h = currentDisagreements latest classes
  /\ ho_Alert h = alerting (ho_Components h) || (0 <? length (ho_Disagreements h))%nat
  /\ source_states answers r st latest (sort_Strings mapped) = inl (ho_Sources h).
Proof.
  unfold host. intros (latest & ->%ask_inl & H)%and_then_inl. apply and_then_inl in H as (classes & ->%ask_inl & H).
  apply and_then_inl in H as (sources & Hs & [= <-]). done.
Qed.

(** C12: A host alerts exactly when some latest report's record of a component it
    lists is refused, foreign-origin or unknown, or no report of a component was
    classified, or two sources still disagree.  The comment on the type and the
    manual give the same list without foreign-origin. *)
Theorem host_alert answers r st identity mapped h :
  host answers r st identity mapped = inl h ->
  let latest := LatestInventoryReports st identity in
  let classes := InventoryClassifications st (map ir_ID latest) in
  ho_Alert h = true <->
  (exists k rep, lists latest k rep /\ alerts (class_of classes rep k))
  \/ (exists k, (exists rep, lists latest k rep) /\ forall rep, lists latest k rep -> class_of classes rep k = ClassUnclassified)
  \/ currentDisagreements latest classes <> [].
Proof.
  intros H latest classes. apply host_inl in H as (Hc & Hd & -> & _). fold latest classes in Hc, Hd.
  rewrite orb_true_iff, alerting_spec, Nat.ltb_lt, Hc, Hd. destruct (union_exact latest classes) as (_ & Hkeys & Hall).
  assert (Hlen : (0 < length (currentDisagreements latest classes))%nat <-> currentDisagreements latest classes <> []).
  { destruct (currentDisagreements latest classes); simpl; [split; [lia|done]|split; [done|lia]]. }
  rewrite Hlen. split.
  - intros [(m & Hm & Ha)|Hne]; [|by right; right]. destruct (Hall m Hm) as ((rep & Hr & E) & Hw & _). destruct Ha as [Ha|Ha].
    + left. exists (host_key m), rep. by rewrite <- E.
    + right; left. exists (host_key m). split; [by exists rep|]. intros rep' Hr'.
      destruct (String.eqb_spec (class_of classes rep' (host_key m)) ClassUnclassified) as [|Hne]; [done|]. by destruct (Hw rep' Hr' Hne).
  - intros [(k & rep & Hr & Ha)|[(k & [rep Hr] & Hall')|Hne]]; [left|left|by right].
    + destruct (proj2 (Hkeys k) ltac:(by exists rep)) as (m & Hm & <-). exists m. split; [done|]. left.
      destruct (Hall m Hm) as (_ & Hw & _). apply rank_alerts. apply rank_alerts in Ha as Hra.
      assert (Hne : class_of classes rep (host_key m) <> ClassUnclassified) by (intros E; rewrite E in Ha; by destruct Ha as [?|[?|?]]).
      destruct (Hw rep Hr Hne) as [_ Hle]. lia.
    + destruct (proj2 (Hkeys k) ltac:(by exists rep)) as (m & Hm & <-). exists m. split; [done|]. right.
      destruct (Hall m Hm) as ((rep' & Hr' & ->) & _). by apply Hall'.
Qed.

(** A source is stale on a host exactly when it is not configured, has no report
    of it, or its last one is older than twice its interval. *)
Theorem source_stale answers r st src rep now s :
  sourceState answers r st src rep now = inl s ->
  let received := match rep with Some rep => ir_ReceivedAt rep | None => zero_time end in
  ss_Stale s = false <->
  exists inst, instance r src = Some inst /\ received <> zero_time /\ Time_Sub now received <= wrap64 (2 * in_Interval inst).
Proof.
  unfold sourceState, ss_Stale. destruct (instance r src) as [inst|]; [|intros [= <-]; simpl; naive_solver].
  intros (poll & _ & [= <-])%and_then_inl. simpl. set (received := match rep with Some rep => _ | None => _ end).
  destruct (Z.eqb_spec received zero_time) as [E|E]; [destruct (so_Mode _ =? _)%string; naive_solver|].
  destruct (Z.ltb_spec (wrap64 (2 * in_Interval inst)) (Time_Sub now received)).
  - split; [done|]. intros (i & [= <-] & _ & Hle). lia.
  - split; [|done]. intros _. by exists inst.
Qed.

(** * At a concrete host *)

Definition demo_cc (class : string) : ClassifiedComponent := MkClassified "npm" "left-pad" "1.0.0" "" class "why".

Definition classified_store (class : string) : inventory :=
  (RecordInventoryClassification plain_env (MkClassification 1 "sbom" "web" 0 [demo_cc class] []) two_reports).1.

Definition host_of_class (class : string) : option (bool * list (string * string * list string)) :=
  match Host always two_sources (classified_store class) "web" with
  | inl h => Some (ho_Alert h, map (fun m => (hc_Name m, hc_Class m, hc_Sources m)) (ho_Components h))
  | inr _ => None
  end.

(** A component from elsewhere alerts, a served one does not. *)
Example host_classes :
  map host_of_class [ClassServed; ClassUnknown; ClassForeignOrigin]
  = [Some (false, [("left-pad", "served", ["sbom"])]); Some (true, [("left-pad", "unknown", ["sbom"])]);
     Some (true, [("left-pad", "foreign-origin", ["sbom"])])].
Proof. vm_compute. reflexivity. Qed.

(** The worse class wins; a report with no record loses to one that has it. *)
Example picked :
  map best [["served"; "unknown"; "served"]; ["unclassified"; "served"]; ["served"; "unclassified"]; ["unclassified"]]
  = [Some "unknown"; Some "served"; Some "served"; Some "unclassified"].
Proof. vm_compute. reflexivity. Qed.

Definition alerted : HostReport :=
  match host always two_sources (classified_store ClassForeignOrigin) "web" ["sbom"; "scan"] with
  | inl h => h
  | inr _ => MkHostReport "" 0 false [] [] []
  end.

Lemma host_alert_witness : ho_Alert alerted = true.
Proof.
  apply (host_alert always two_sources (classified_store ClassForeignOrigin) "web" ["sbom"; "scan"] alerted
           ltac:(vm_compute; reflexivity)).
  left. set (rep := MkReport 1 "sbom" "h1" "web" 0 0 1 "" "1webh1" (ir_Components (posted "h1" "web" 0))).
  exists (component_key (MkComponent "npm" "left-pad" "1.0.0" "" "" "" "" "")), rep. split.
  - split; [vm_compute; left|]. eexists. split; [left|reflexivity].
  - right; left. vm_compute. reflexivity.
Defined.

Lemma source_stale_witness :
  exists s, sourceState always two_sources two_reports "sbom" (head (iv_reports two_reports)) (49 * Hour) = inl s /\ ss_Stale s = true.
Proof.
  eexists. split; [vm_compute; reflexivity|]. apply not_false_iff_true.
  rewrite (source_stale always two_sources two_reports "sbom" (head (iv_reports two_reports)) (49 * Hour) _ ltac:(vm_compute; reflexivity)).
  intros (inst & Hi & _ & Hle). vm_compute in Hi. injection Hi as <-. vm_compute in Hle. by apply Hle.
Defined.
