(* ===== verification/Queue.v ===== *)
(** The refusal queue of internal/audit/queue.go: one row per package, version
    and check that was refused, who asked for it, and how it was resolved.

    Rows are kept in the order of their ids, which AUTOINCREMENT never reuses.
    Each call is one transaction, so one that fails changes nothing.  Times are
    stored as the text [formatQueueTime] writes and compared as text;
    [ParseTime] is time.Parse with RFC3339Nano, which only reads them back. *)

From stdpp Require Import base list gmap strings sorting relations.
From Stdlib Require Import ZArith Lia Ascii.
From S2P Require Import Prelude GoStrings GoSort GoTime GoCalendar Types.

Definition QueueOpen := "open".
Definition QueueApproved := "approved".
Definition QueueDismissed := "dismissed".

Definition queueRequesterLimit : nat := 20.

Record QueueRefusal := MkRefusal {
  qf_PkgType : string; qf_PkgName : string; qf_PkgVersion : string; qf_Check : string; qf_Pattern : string;
  qf_Detail : string; qf_Unwaivable : string; qf_Profile : string; qf_Incident : string;
  qf_Identity : string; qf_ClientIP : string
}.

(** A row as the table has it. *)
Record queue_record := MkRecord {
  q_id : Z; q_type : string; q_name : string; q_version : string; q_check : string;
  q_pattern : string; q_detail : string; q_unwaivable : string; q_profiles : string; q_incident : string;
  q_first_seen : string; q_last_seen : string; q_count : Z; q_state : string;
  q_resolved_at : string; q_resolved_by : string; q_resolution : string; q_reason : string
}.

(** The tables: the rows, the next id, and per row, identity and address the
    requests and the last of them. *)
Record queue_db := MkQueueDB {
  qd_rows : list queue_record;
  qd_next : Z;
  qd_requesters : gmap (Z * string * string) (Z * string)
}.

Definition empty_queue : queue_db := MkQueueDB [] 1 ∅.

Record QueueRequester := MkRequester { rr_Identity : string; rr_ClientIP : string; rr_RequestCount : Z; rr_LastSeen : Z }.

Record QueueRow := MkQueueRow {
  qr_ID : Z; qr_PkgType : string; qr_PkgName : string; qr_PkgVersion : string; qr_Check : string;
  qr_Pattern : string; qr_Detail : string; qr_Unwaivable : string; qr_Profiles : list string; qr_Incident : string;
  qr_FirstSeen : Z; qr_LastSeen : Z; qr_RequestCount : Z; qr_Requesters : list QueueRequester;
  qr_State : string; qr_ResolvedAt : option Z; qr_ResolvedBy : string; qr_Resolution : string; qr_ResolutionReason : string
}.

Record QueueFilter := MkQueueFilter { qs_PkgType : string; qs_Check : string; qs_State : string }.

Inductive queue_error :=
| ErrQueueDatabase
| ErrQueueRowNotFound
| ErrQueueRowClosed (state by_ : string)
| NotAResolution (state : string).

(** A fixed-width UTC timestamp. *)
Definition formatQueueTime (t : Z) : string := nano_text t.

Definition splitProfiles (s : string) : list string := if (s =? "")%string then [] else Split "," s.

(** * Recording *)

Definition refusal_key (f : QueueRefusal) : string * string * string * string :=
  (qf_PkgType f, qf_PkgName f, qf_PkgVersion f, qf_Check f).

Definition row_key (r : queue_record) : string * string * string * string := (q_type r, q_name r, q_version r, q_check r).

Definition new_record (id : Z) (f : QueueRefusal) (ts : string) : queue_record :=
  MkRecord id (qf_PkgType f) (qf_PkgName f) (qf_PkgVersion f) (qf_Check f) (qf_Pattern f) (qf_Detail f) (qf_Unwaivable f)
    (qf_Profile f) (qf_Incident f) ts ts 1 QueueOpen "" "" "" "".

Definition add_profile (profiles profile : string) : string :=
  if negb (profile =? "")%string && negb (slice_contains (splitProfiles profiles) profile)
  then Join (splitProfiles profiles ++ [profile]) "," else profiles.

(** A row resolved before the refusal arrives reopens. *)
Definition update_record (f : QueueRefusal) (ts : string) (r : queue_record) : queue_record :=
  let state := if negb (q_state r =? QueueOpen)%string && (Compare (q_resolved_at r) ts <? 0) then QueueOpen else q_state r in
  MkRecord (q_id r) (q_type r) (q_name r) (q_version r) (q_check r)
    (if (qf_Pattern f =? "")%string then q_pattern r else qf_Pattern f) (qf_Detail f) (qf_Unwaivable f)
    (add_profile (q_profiles r) (qf_Profile f)) (qf_Incident f) (q_first_seen r) ts (q_count r + 1) state
    (q_resolved_at r) (q_resolved_by r) (q_resolution r) (q_reason r).

(** UPDATE ... WHERE id = ? *)
Definition update_where (id : Z) (g : queue_record -> queue_record) (rows : list queue_record) : list queue_record :=
  map (fun r => if q_id r =? id then g r else r) rows.

Definition upsert_requester (id : Z) (f : QueueRefusal) (ts : string) (m : gmap (Z * string * string) (Z * string))
  : gmap (Z * string * string) (Z * string) :=
  let key := (id, qf_Identity f, qf_ClientIP f) in
  <[key := match m !! key with Some (n, _) => (n + 1, ts) | None => (1, ts) end]> m.

Definition RecordRefusal (fails : bool) (f : QueueRefusal) (now : Z) (db : queue_db) : queue_db * (unit + queue_error) :=
  let ts := formatQueueTime now in
  if fails then (db, inr ErrQueueDatabase)
  else
    match List.find (fun r => bool_decide (row_key r = refusal_key f)) (qd_rows db) with
    | None =>
        let id := qd_next db in
        (MkQueueDB (qd_rows db ++ [new_record id f ts]) (id + 1) (upsert_requester id f ts (qd_requesters db)), inl tt)
    | Some r =>
        (MkQueueDB (update_where (q_id r) (update_record f ts) (qd_rows db)) (qd_next db)
           (upsert_requester (q_id r) f ts (qd_requesters db)), inl tt)
    end.

(** * Reading *)

Section read.
Context (ParseTime : string -> option Z).

Definition parsed (s : string) : Z := default zero_time (ParseTime s).

(** ORDER BY last_seen DESC, identity, client_ip *)
Definition requester_order (a b : (string * string) * (Z * string)) : Z :=
  then_cmp (Compare b.2.2 a.2.2) (then_cmp (Compare a.1.1 b.1.1) (Compare a.1.2 b.1.2)).

Definition queueRequesters (db : queue_db) (id : Z) : list QueueRequester :=
  map (fun x => MkRequester x.1.1 x.1.2 x.2.1 (parsed x.2.2))
    (take queueRequesterLimit
       (SliceStable (fun a b => requester_order a b <? 0)
          (omap (fun kv => if kv.1.1.1 =? id then Some ((kv.1.1.2, kv.1.2), kv.2) else None) (map_to_list (qd_requesters db))))).

Definition scanQueueRow (requesters : list QueueRequester) (r : queue_record) : QueueRow :=
  MkQueueRow (q_id r) (q_type r) (q_name r) (q_version r) (q_check r) (q_pattern r) (q_detail r) (q_unwaivable r)
    (splitProfiles (q_profiles r)) (q_incident r) (parsed (q_first_seen r)) (parsed (q_last_seen r)) (q_count r) requesters
    (q_state r) (if (q_resolved_at r =? "")%string then None else ParseTime (q_resolved_at r))
    (q_resolved_by r) (q_resolution r) (q_reason r).

Definition selected (f : QueueFilter) (r : queue_record) : bool :=
  ((qs_PkgType f =? "")%string || (q_type r =? qs_PkgType f)%string)
  && ((qs_Check f =? "")%string || (q_check r =? qs_Check f)%string)
  && ((qs_State f =? "")%string || (q_state r =? qs_State f)%string).

(** ORDER BY last_seen DESC, id DESC *)
Definition newest_first (a b : queue_record) : Z :=
  then_cmp (Compare (q_last_seen b) (q_last_seen a)) (compareInt (q_id b) (q_id a)).

Definition listed_records (f : QueueFilter) (db : queue_db) : list queue_record :=
  SliceStable (fun a b => newest_first a b <? 0) (List.filter (selected f) (qd_rows db)).

Definition ListQueue (fails : bool) (f : QueueFilter) (db : queue_db) : list QueueRow + queue_error :=
  if fails then inr ErrQueueDatabase
  else inl (map (fun r => scanQueueRow (queueRequesters db (q_id r)) r) (listed_records f db)).

Definition GetQueueRow (fails : bool) (id : Z) (db : queue_db) : QueueRow + queue_error :=
  if fails then inr ErrQueueDatabase
  else match List.find (fun r => q_id r =? id) (qd_rows db) with
       | Some r => inl (scanQueueRow (queueRequesters db id) r)
       | None => inr ErrQueueRowNotFound
       end.

(** * Resolving *)

Definition resolve_record (state actor resolution reason ts : string) (r : queue_record) : queue_record :=
  MkRecord (q_id r) (q_type r) (q_name r) (q_version r) (q_check r) (q_pattern r) (q_detail r) (q_unwaivable r)
    (q_profiles r) (q_incident r) (q_first_seen r) (q_last_seen r) (q_count r) state ts actor resolution reason.

Definition resolved_row (state actor resolution reason : string) (now : Z) (q : QueueRow) : QueueRow :=
  MkQueueRow (qr_ID q) (qr_PkgType q) (qr_PkgName q) (qr_PkgVersion q) (qr_Check q) (qr_Pattern q) (qr_Detail q)
    (qr_Unwaivable q) (qr_Profiles q) (qr_Incident q) (qr_FirstSeen q) (qr_LastSeen q) (qr_RequestCount q) (qr_Requesters q)
    state (Some now) actor resolution reason.

Definition ResolveQueueRow (fails : bool) (id : Z) (state actor resolution reason : string) (now : Z) (db : queue_db)
  : queue_db * (QueueRow + queue_error) :=
  if negb (state =? QueueApproved)%string && negb (state =? QueueDismissed)%string then (db, inr (NotAResolution state))
  else
    match GetQueueRow fails id db with
    | inr e => (db, inr e)
    | inl q =>
        if negb (qr_State q =? QueueOpen)%string then (db, inr (ErrQueueRowClosed (qr_State q) (qr_ResolvedBy q)))
        else
          (MkQueueDB (update_where id (resolve_record state actor resolution reason (formatQueueTime now)) (qd_rows db))
             (qd_next db) (qd_requesters db),
           inl (resolved_row state actor resolution reason now q))
    end.
End read.

(** * What the queue is

    An entry per package, version and check: numbers for times, lists for
    profiles, and who asked how often.  The number of requests is not kept; it
    is the sum. *)

Record resolution := MkResolution { re_at : Z; re_by : string; re_what : string; re_reason : string }.

Abbreviation askers := (gmap (string * string) (Z * Z)).

Record queue_entry := MkQueueEntry {
  en_id : Z; en_pattern : string; en_detail : string; en_unwaivable : string; en_profiles : list string; en_incident : string;
  en_first : Z; en_last : Z; en_asked : askers; en_state : string; en_resolved : option resolution
}.

Abbreviation queue_key := (string * string * string * string)%type.

Inductive queue_event :=
| Refused (f : QueueRefusal) (now : Z)
| Resolved (id : Z) (state actor what reason : string) (now : Z).

Definition ask (m : askers) (who : string * string) (now : Z) : askers :=
  <[who := match m !! who with Some (n, _) => (n + 1, now) | None => (1, now) end]> m.

Definition total (m : askers) : Z := map_fold (fun _ x acc => x.1 + acc) 0 m.

Definition next_id (m : gmap queue_key queue_entry) : Z := 1 + Z.of_nat (size m).

Definition refuse (f : QueueRefusal) (now : Z) (m : gmap queue_key queue_entry) : gmap queue_key queue_entry :=
  let who := (qf_Identity f, qf_ClientIP f) in
  let key := refusal_key f in
  match m !! key with
  | None =>
      <[key := MkQueueEntry (next_id m) (qf_Pattern f) (qf_Detail f) (qf_Unwaivable f)
                 (if (qf_Profile f =? "")%string then [] else [qf_Profile f]) (qf_Incident f) now now (ask ∅ who now) QueueOpen None]> m
  | Some e =>
      let reopens := match en_resolved e with Some r => re_at r <? now | None => false end in
      <[key := MkQueueEntry (en_id e) (if (qf_Pattern f =? "")%string then en_pattern e else qf_Pattern f) (qf_Detail f) (qf_Unwaivable f)
                 (if (qf_Profile f =? "")%string || slice_contains (en_profiles e) (qf_Profile f) then en_profiles e
                  else en_profiles e ++ [qf_Profile f])
                 (qf_Incident f) (en_first e) now (ask (en_asked e) who now) (if reopens then QueueOpen else en_state e) (en_resolved e)]> m
  end.

Definition close (state actor what reason : string) (now : Z) (e : queue_entry) : queue_entry :=
  MkQueueEntry (en_id e) (en_pattern e) (en_detail e) (en_unwaivable e) (en_profiles e) (en_incident e) (en_first e) (en_last e)
    (en_asked e) state (Some (MkResolution now actor what reason)).

Definition resolve (id : Z) (state actor what reason : string) (now : Z) (m : gmap queue_key queue_entry) : gmap queue_key queue_entry :=
  (fun e => if en_id e =? id then close state actor what reason now e else e) <$> m.

Definition happen (m : gmap queue_key queue_entry) (ev : queue_event) : gmap queue_key queue_entry :=
  match ev with
  | Refused f now => refuse f now m
  | Resolved id state actor what reason now => resolve id state actor what reason now m
  end.

(** * The tables keep it *)

Definition plain_profile (p : string) : Prop := no_byte "," p = true.

Record row_entry (r : queue_record) (e : queue_entry) : Prop := {
  re_fields : (q_id r, q_pattern r, q_detail r, q_unwaivable r, q_incident r, q_count r, q_state r)
              = (en_id e, en_pattern e, en_detail e, en_unwaivable e, en_incident e, total (en_asked e), en_state e);
  re_profiles : q_profiles r = Join (en_profiles e) "," /\ ~ In "" (en_profiles e) /\ Forall plain_profile (en_profiles e)
                /\ NoDup (en_profiles e);
  re_seen : q_first_seen r = formatQueueTime (en_first e) /\ q_last_seen r = formatQueueTime (en_last e)
            /\ four_digit_time (en_first e) /\ four_digit_time (en_last e);
  re_resolved : match en_resolved e with
                | None => en_state e = QueueOpen /\ (q_resolved_at r, q_resolved_by r, q_resolution r, q_reason r) = ("", "", "", "")
                | Some x => (q_resolved_at r, q_resolved_by r, q_resolution r, q_reason r)
                            = (formatQueueTime (re_at x), re_by x, re_what x, re_reason x) /\ four_digit_time (re_at x)
                end
}.

Definition stored_ask (x : Z * Z) : Z * string := (x.1, formatQueueTime x.2).

(** The tables hold the entries: the [i]-th row has the id [i + 1]. *)
Record keeps (db : queue_db) (m : gmap queue_key queue_entry) : Prop := {
  kp_ids : map q_id (qd_rows db) = map Z.of_nat (seq 1 (length (qd_rows db)));
  kp_next : qd_next db = next_id m;
  kp_size : size m = length (qd_rows db);
  kp_keys : NoDup (map row_key (qd_rows db));
  kp_rows : Forall (fun r => exists e, m !! row_key r = Some e /\ row_entry r e) (qd_rows db);
  kp_entries : forall k e, m !! k = Some e -> exists r, r ∈ qd_rows db /\ row_key r = k;
  kp_asked : forall r e who, r ∈ qd_rows db -> m !! row_key r = Some e ->
             qd_requesters db !! (q_id r, who.1, who.2) = stored_ask <$> en_asked e !! who;
  kp_unasked : forall id i p, ~ (id ∈ map q_id (qd_rows db)) -> qd_requesters db !! (id, i, p) = None
}.

Lemma total_insert (m : askers) who x : m !! who = None -> total (<[who := x]> m) = x.1 + total m.
Proof.
  intros Hm. unfold total. rewrite (map_fold_insert_L (fun _ (x : Z * Z) acc => x.1 + acc)); [done| |done].
  intros j1 j2 z1 z2 y _ _ _. lia.
Qed.

Lemma total_ask m who now : total (ask m who now) = total m + 1.
Proof.
  unfold ask. destruct (m !! who) as [[n t]|] eqn:E.
  - rewrite <- insert_delete_eq, total_insert by apply lookup_delete_eq.
    rewrite <- (insert_delete_id m who (n, t) E) at 2. rewrite total_insert by apply lookup_delete_eq. cbn. lia.
  - rewrite total_insert by done. cbn. lia.
Qed.

Lemma add_profile_keeps profiles p q :
  q = Join profiles "," -> ~ In "" profiles -> Forall plain_profile profiles -> NoDup profiles -> plain_profile p ->
  let profiles' := if (p =? "")%string || slice_contains profiles p then profiles else profiles ++ [p] in
  add_profile q p = Join profiles' "," /\ ~ In "" profiles' /\ Forall plain_profile profiles' /\ NoDup profiles'.
Proof.
  intros -> Hne Hc Hd Hp. unfold add_profile, splitProfiles. rewrite (Split_Join_names ",") by done.
  destruct (String.eqb_spec p "") as [->|Hp0]; cbn [negb andb orb]; [done|].
  destruct (slice_contains profiles p) eqn:E; cbn [negb]; [done|]. split; [done|]. split.
  - rewrite in_app_iff. intros [?|[?|[]]]; [done|]. congruence.
  - split; [apply Forall_app; by repeat constructor|]. apply NoDup_app. split; [done|]. split; [|apply NoDup_singleton].
    intros x Hx ->%list_elem_of_singleton. apply slice_contains_spec in Hx. congruence.
Qed.

(** [resolved_at < ts] is the order of the times. *)
Lemma before_text t u : four_digit_time t -> four_digit_time u ->
  (Compare (formatQueueTime t) (formatQueueTime u) <? 0) = (t <? u).
Proof. intros Ht Hu. unfold formatQueueTime. rewrite nano_text_compare by done. apply compareInt_ltb. Qed.

Lemma update_keeps f now r e :
  row_entry r e -> four_digit_time now -> plain_profile (qf_Profile f) ->
  exists e', row_entry (update_record f (formatQueueTime now) r) e'
    /\ (forall m, m !! refusal_key f = Some e -> refuse f now m = <[refusal_key f := e']> m)
    /\ en_id e' = en_id e /\ en_asked e' = ask (en_asked e) (qf_Identity f, qf_ClientIP f) now.
Proof.
  intros [Hf Hp Hs Hr] Hnow Hplain. unfold refuse. eexists. split; [|split; [intros m Hm; by rewrite Hm|done]].
  injection Hf as H1 H2 H3 H4 H5 H6 H7. destruct Hp as (Hp & Hne & Hc & Hd).
  destruct (add_profile_keeps (en_profiles e) (qf_Profile f) (q_profiles r) Hp Hne Hc Hd Hplain) as (Hp' & Hne' & Hc' & Hd').
  destruct Hs as (Hfi & Hla & Hf4 & _).
  set (reopens := match en_resolved e with Some r => re_at r <? now | None => false end).
  assert (Hstate : (if negb (q_state r =? QueueOpen)%string && (Compare (q_resolved_at r) (formatQueueTime now) <? 0) then QueueOpen else q_state r)
                   = (if reopens then QueueOpen else en_state e)).
  { subst reopens. rewrite H7. destruct (en_resolved e) as [x|].
    - destruct Hr as [[= -> _ _ _] Hx]. rewrite before_text by done. destruct (re_at x <? now); [|by rewrite andb_false_r].
      rewrite andb_true_r. by destruct (String.eqb_spec (en_state e) QueueOpen) as [->|].
    - destruct Hr as [-> [= -> _ _ _]]. done. }
  split; unfold update_record; cbn [q_id q_pattern q_detail q_unwaivable q_incident q_count q_state q_profiles q_first_seen q_last_seen
    q_resolved_at q_resolved_by q_resolution q_reason en_id en_pattern en_detail en_unwaivable en_incident en_asked en_state en_profiles
    en_first en_last en_resolved].
  - rewrite Hstate, total_ask, H1, H2, H6. by destruct (qf_Pattern f =? "")%string.
  - done.
  - done.
  - destruct (en_resolved e) as [x|]; [done|]. subst reopens. done.
Qed.

Lemma update_where_keys {A} (key : queue_record -> A) id g rows :
  (forall r, key (g r) = key r) -> map key (update_where id g rows) = map key rows.
Proof. intros Hg. unfold update_where. rewrite map_map. apply map_ext. intros r. by destruct (q_id r =? id). Qed.

Lemma update_where_elem id g rows r' :
  r' ∈ update_where id g rows <-> exists r, r ∈ rows /\ r' = if q_id r =? id then g r else r.
Proof.
  unfold update_where. change (map ?f rows) with (f <$> rows). rewrite list_elem_of_fmap. split; intros (r & H1 & H2); by exists r.
Qed.

Lemma map_elem {A B} (f : A -> B) l y : y ∈ map f l <-> exists x, x ∈ l /\ f x = y.
Proof. change (map f l) with (f <$> l). rewrite list_elem_of_fmap. split; intros (x & H1 & H2); by exists x. Qed.

Section keeps.
Context (db : queue_db) (m : gmap queue_key queue_entry) (Hk : keeps db m).

Lemma ids_NoDup : NoDup (map q_id (qd_rows db)).
Proof. rewrite (kp_ids db m Hk). apply (NoDup_fmap_2 Z.of_nat). apply NoDup_ListNoDup, seq_NoDup. Qed.

Lemma id_bound r : r ∈ qd_rows db -> 1 <= q_id r < qd_next db.
Proof.
  intros Hr. assert (H : q_id r ∈ map q_id (qd_rows db)) by (apply map_elem; by exists r).
  rewrite (kp_ids db m Hk), map_elem in H. destruct H as (i & Hi%list_elem_of_In%in_seq & <-).
  rewrite (kp_next db m Hk). unfold next_id. rewrite (kp_size db m Hk). lia.
Qed.

Lemma map_inj_in {A B} (f : A -> B) l x y : NoDup (map f l) -> x ∈ l -> y ∈ l -> f x = f y -> x = y.
Proof.
  induction l as [|a l IH]; [by intros _ ?%elem_of_nil|]. cbn [map]. intros [Ha Hd]%NoDup_cons.
  intros [->|Hx]%elem_of_cons [->|Hy]%elem_of_cons E; [done| | |by apply IH].
  - exfalso. apply Ha. apply map_elem. by exists y.
  - exfalso. apply Ha. apply map_elem. by exists x.
Qed.

Lemma same_id r r' : r ∈ qd_rows db -> r' ∈ qd_rows db -> q_id r = q_id r' -> r = r'.
Proof. intros Hr Hr'. by apply (map_inj_in q_id _ _ _ ids_NoDup). Qed.

Lemma row_by_key r r' : r ∈ qd_rows db -> r' ∈ qd_rows db -> row_key r = row_key r' -> r = r'.
Proof. intros Hr Hr'. by apply (map_inj_in row_key _ _ _ (kp_keys db m Hk)). Qed.

Lemma row_of r : r ∈ qd_rows db -> exists e, m !! row_key r = Some e /\ row_entry r e.
Proof. intros Hr. pose proof (kp_rows db m Hk) as H. rewrite Forall_forall in H. by apply H. Qed.

(** A row is found by its key exactly when there is an entry. *)
Lemma find_key k :
  match List.find (fun r => bool_decide (row_key r = k)) (qd_rows db) with
  | Some r => r ∈ qd_rows db /\ row_key r = k
  | None => m !! k = None
  end.
Proof.
  destruct (List.find _ _) as [r|] eqn:E.
  - apply find_some in E as [Hin H%bool_decide_eq_true]. by rewrite list_elem_of_In.
  - apply eq_None_not_Some. intros [e He]. destruct (kp_entries db m Hk k e He) as (r & Hr & Hrk).
    pose proof (find_none _ _ E r ltac:(by apply list_elem_of_In)) as H. by apply bool_decide_eq_false in H.
Qed.

Lemma find_id id :
  match List.find (fun r => q_id r =? id) (qd_rows db) with
  | Some r => r ∈ qd_rows db /\ q_id r = id
  | None => ~ (id ∈ map q_id (qd_rows db))
  end.
Proof.
  destruct (List.find _ _) as [r|] eqn:E.
  - apply find_some in E as [Hin H%Z.eqb_eq]. by rewrite list_elem_of_In.
  - intros (r & Hr & Hid)%map_elem. pose proof (find_none _ _ E r ltac:(by apply list_elem_of_In)) as H. cbn in H. lia.
Qed.

(** Rewriting one row, with its entry. *)
Lemma update_keeps_tables r e g e' asked' :
  r ∈ qd_rows db -> m !! row_key r = Some e ->
  (forall x, row_key (g x) = row_key x /\ q_id (g x) = q_id x) -> row_entry (g r) e' ->
  (forall who, asked' !! (q_id r, who.1, who.2) = stored_ask <$> en_asked e' !! who) ->
  (forall id i p, id <> q_id r -> asked' !! (id, i, p) = qd_requesters db !! (id, i, p)) ->
  keeps (MkQueueDB (update_where (q_id r) g (qd_rows db)) (qd_next db) asked') (<[row_key r := e']> m).
Proof.
  intros Hr He Hg Hre Ha Ho. destruct (Hk) as [K1 K2 K3 K4 K5 K6 K7 K8].
  assert (Hsize : size (<[row_key r := e']> m) = size m) by (apply map_size_insert_Some; by exists e).
  split; cbn [qd_rows qd_next qd_requesters].
  - rewrite update_where_keys by apply Hg. unfold update_where. by rewrite length_map.
  - unfold next_id. by rewrite Hsize.
  - unfold update_where. by rewrite Hsize, length_map.
  - by rewrite update_where_keys by apply Hg.
  - apply Forall_forall. intros x (x0 & Hx0 & ->)%update_where_elem. destruct (Z.eqb_spec (q_id x0) (q_id r)) as [E|Hne].
    + rewrite (same_id x0 r Hx0 Hr E). exists e'. destruct (Hg r) as [-> _]. by rewrite lookup_insert_eq.
    + destruct (row_of x0 Hx0) as (e0 & He0 & Hre0). exists e0. rewrite lookup_insert_ne; [done|].
      intros Ek. apply Hne. by rewrite (row_by_key r x0 Hr Hx0 Ek).
  - intros k x Hx. assert (Hk' : k ∈ map row_key (qd_rows db)).
    { apply map_elem. apply lookup_insert_Some in Hx as [[<- _]|[_ Hx]]; [by exists r|by eapply K6]. }
    rewrite <- (update_where_keys row_key (q_id r) g) in Hk' by apply Hg. by apply map_elem in Hk'.
  - intros x x' who (x0 & Hx0 & ->)%update_where_elem Hx'. destruct (Z.eqb_spec (q_id x0) (q_id r)) as [E|Hne].
    + destruct (Hg x0) as [Hgk Hgi]. rewrite Hgi, E, Ha. rewrite Hgk, (same_id x0 r Hx0 Hr E), lookup_insert_eq in Hx'. by injection Hx' as <-.
    + rewrite Ho by done. apply K7; [done|]. rewrite lookup_insert_ne in Hx'; [done|].
      intros Ek. apply Hne. by rewrite (row_by_key r x0 Hr Hx0 Ek).
  - intros id i p Hid. rewrite update_where_keys in Hid by apply Hg. rewrite Ho; [by apply K8|].
    intros ->. apply Hid, map_elem. by exists r.
Qed.
End keeps.

Lemma upsert_requester_lookup id f ts asked key :
  upsert_requester id f ts asked !! key
  = if bool_decide (key = (id, qf_Identity f, qf_ClientIP f))
    then Some (match asked !! (id, qf_Identity f, qf_ClientIP f) with Some (n, _) => (n + 1, ts) | None => (1, ts) end)
    else asked !! key.
Proof.
  unfold upsert_requester. case_bool_decide as E; [by rewrite E, lookup_insert_eq|]. by rewrite lookup_insert_ne.
Qed.

Lemma ask_lookup (m : askers) who now who' :
  stored_ask <$> ask m who now !! who'
  = if bool_decide (who' = who)
    then Some (match stored_ask <$> m !! who with Some (n, _) => (n + 1, formatQueueTime now) | None => (1, formatQueueTime now) end)
    else stored_ask <$> m !! who'.
Proof.
  unfold ask. case_bool_decide as E.
  - rewrite E, lookup_insert_eq. by destruct (m !! who) as [[n t]|].
  - by rewrite lookup_insert_ne.
Qed.

Lemma RecordRefusal_new db m f now :
  keeps db m -> four_digit_time now -> plain_profile (qf_Profile f) -> m !! refusal_key f = None ->
  keeps (MkQueueDB (qd_rows db ++ [new_record (qd_next db) f (formatQueueTime now)]) (qd_next db + 1)
           (upsert_requester (qd_next db) f (formatQueueTime now) (qd_requesters db))) (refuse f now m).
Proof.
  intros Hk Hnow Hp Hm. destruct (Hk) as [K1 K2 K3 K4 K5 K6 K7 K8]. unfold refuse. rewrite Hm.
  set (e := MkQueueEntry _ _ _ _ _ _ _ _ _ _ _). set (r := new_record _ _ _).
  assert (Hrk : row_key r = refusal_key f) by done.
  assert (Hsize : size (<[refusal_key f := e]> m) = S (size m)) by by apply map_size_insert_None.
  assert (Hold : forall x, x ∈ qd_rows db -> row_key x <> refusal_key f).
  { intros x Hx E. destruct (row_of db m Hk x Hx) as (e0 & He0 & _). rewrite E in He0. congruence. }
  assert (Hidold : forall x, x ∈ qd_rows db -> q_id x <> qd_next db) by (intros x Hx; pose proof (id_bound db m Hk x Hx); lia).
  split; cbn [qd_rows qd_next qd_requesters].
  - rewrite map_app, K1, List.length_app. cbn [length map]. rewrite Nat.add_1_r, seq_S, map_app. cbn [map]. f_equal. f_equal.
    subst r. cbn [new_record q_id]. rewrite K2. unfold next_id. rewrite K3. lia.
  - unfold next_id. rewrite Hsize, K2. unfold next_id. lia.
  - rewrite Hsize, List.length_app, K3. cbn. lia.
  - rewrite map_app. cbn [map]. apply NoDup_app. split; [done|]. split; [|apply NoDup_singleton].
    intros k (x & Hx & <-)%map_elem Hin%list_elem_of_singleton. by apply (Hold x Hx).
  - apply Forall_app. split.
    + apply Forall_forall. intros x Hx. destruct (row_of db m Hk x Hx) as (e0 & He0 & Hre). exists e0.
      rewrite lookup_insert_ne; [done|]. intros E. by apply (Hold x Hx).
    + constructor; [|constructor]. exists e. rewrite Hrk, lookup_insert_eq. split; [done|].
      split; subst r e; unfold new_record; cbn [q_id q_pattern q_detail q_unwaivable q_incident q_count q_state q_profiles q_first_seen
        q_last_seen q_resolved_at q_resolved_by q_resolution q_reason en_id en_pattern en_detail en_unwaivable en_incident en_asked
        en_state en_profiles en_first en_last en_resolved].
      * rewrite K2, total_ask. done.
      * destruct (String.eqb_spec (qf_Profile f) "") as [->|Hne].
        -- split; [done|]. split; [by intros []|]. split; [by apply Forall_nil|by apply NoDup_nil].
        -- split; [done|]. split; [by intros [?|[]]|]. split; [by apply Forall_singleton|apply NoDup_singleton].
      * done.
      * done.
  - intros k x Hx. apply lookup_insert_Some in Hx as [[<- _]|[_ Hx]].
    + exists r. split; [apply elem_of_app; right; by left|done].
    + destruct (K6 k x Hx) as (y & Hy & Ey). exists y. split; [apply elem_of_app; by left|done].
  - intros x x' who [Hx|Hx%list_elem_of_singleton]%elem_of_app Hx'; [|subst x].
    + rewrite upsert_requester_lookup, bool_decide_eq_false_2 by (intros [= E _ _]; by apply (Hidold x Hx)).
      apply K7; [done|]. rewrite lookup_insert_ne in Hx'; [done|]. intros E. by apply (Hold x Hx).
    + rewrite Hrk, lookup_insert_eq in Hx'. injection Hx' as <-. subst r e. cbn [new_record q_id en_asked].
      rewrite upsert_requester_lookup, ask_lookup, lookup_empty.
      assert (Hn : forall i p, qd_requesters db !! (qd_next db, i, p) = None).
      { intros i p. apply K8. intros (x & Hx & E)%map_elem. by apply (Hidold x Hx). }
      rewrite Hn. destruct who as [i p]. cbn [fst snd]. case_bool_decide; case_bool_decide; [done|congruence|congruence|].
      rewrite lookup_empty. apply Hn.
  - intros id i p Hid. rewrite map_app in Hid. rewrite upsert_requester_lookup, bool_decide_eq_false_2.
    + apply K8. intros H. apply Hid. apply elem_of_app. by left.
    + intros [= -> _ _]. apply Hid. apply elem_of_app. right. by left.
Qed.

Lemma RecordRefusal_keeps db m f now :
  keeps db m -> four_digit_time now -> plain_profile (qf_Profile f) ->
  keeps (RecordRefusal false f now db).1 (refuse f now m) /\ (RecordRefusal false f now db).2 = inl tt.
Proof.
  intros Hk Hnow Hp. unfold RecordRefusal. pose proof (find_key db m Hk (refusal_key f)) as Hf.
  destruct (List.find _ _) as [r|]; cbn [fst snd]; (split; [|done]); [|by apply RecordRefusal_new].
  destruct Hf as [Hr Hrk]. destruct (row_of db m Hk r Hr) as (e & He & Hre).
  destruct (update_keeps f now r e Hre Hnow Hp) as (e' & Hre' & Hm & _ & Hask).
  rewrite Hm by by rewrite <- Hrk. rewrite <- Hrk.
  eapply (update_keeps_tables db m Hk r e); [done|done|done|done| |].
  - intros who. rewrite Hask, upsert_requester_lookup, ask_lookup. destruct who as [i p]. cbn [fst snd].
    pose proof (kp_asked db m Hk r e (i, p) Hr He) as H1. pose proof (kp_asked db m Hk r e (qf_Identity f, qf_ClientIP f) Hr He) as H2.
    cbn [fst snd] in H1, H2. rewrite H1, H2. repeat case_bool_decide; congruence.
  - intros id i p Hid. rewrite upsert_requester_lookup, bool_decide_eq_false_2; [done|]. by intros [= -> _ _].
Qed.

Lemma resolve_keeps state actor what reason now r e :
  row_entry r e -> four_digit_time now ->
  row_entry (resolve_record state actor what reason (formatQueueTime now) r) (close state actor what reason now e).
Proof. intros [Hf Hp Hs _] Hnow. injection Hf as H1 H2 H3 H4 H5 H6 H7. split; [cbn; congruence|done|done|done]. Qed.

Lemma resolve_insert db m r e state actor what reason now :
  keeps db m -> r ∈ qd_rows db -> m !! row_key r = Some e ->
  resolve (q_id r) state actor what reason now m = <[row_key r := close state actor what reason now e]> m.
Proof.
  intros Hk Hr He. assert (Hid : forall x ex, x ∈ qd_rows db -> m !! row_key x = Some ex -> en_id ex = q_id x).
  { intros x ex Hx Hex. destruct (row_of db m Hk x Hx) as (e0 & He0 & [Hf _ _ _]). rewrite Hex in He0. injection He0 as ->. by injection Hf. }
  apply map_eq. intros k. unfold resolve. rewrite lookup_fmap. destruct (decide (row_key r = k)) as [<-|Hne].
  - rewrite lookup_insert_eq, He. cbn [fmap option_fmap option_map]. by rewrite (Hid r e Hr He), Z.eqb_refl.
  - rewrite lookup_insert_ne by done. destruct (m !! k) as [x|] eqn:Ex; [|done]. cbn [fmap option_fmap option_map].
    destruct (kp_entries db m Hk k x Ex) as (y & Hy & <-). rewrite (Hid y x Hy Ex).
    destruct (Z.eqb_spec (q_id y) (q_id r)) as [E|]; [|done]. exfalso. apply Hne. by rewrite (same_id db m Hk y r Hy Hr E).
Qed.

(** * The queue over time *)

Inductive queue_step : queue_db * list queue_event -> queue_db * list queue_event -> Prop :=
| step_record f now db h :
    four_digit_time now -> plain_profile (qf_Profile f) ->
    queue_step (db, h) ((RecordRefusal false f now db).1, h ++ [Refused f now])
| step_record_fails f now db h : queue_step (db, h) ((RecordRefusal true f now db).1, h)
| step_resolve ParseTime fails id state actor what reason now db db' q h :
    four_digit_time now -> ResolveQueueRow ParseTime fails id state actor what reason now db = (db', inl q) ->
    queue_step (db, h) (db', h ++ [Resolved id state actor what reason now])
| step_resolve_fails ParseTime fails id state actor what reason now db db' e h :
    ResolveQueueRow ParseTime fails id state actor what reason now db = (db', inr e) -> queue_step (db, h) (db', h).

Local Abbreviation entries_after h := (foldl happen ∅ h).

Lemma ResolveQueueRow_inl ParseTime fails id state actor what reason now db db' q :
  ResolveQueueRow ParseTime fails id state actor what reason now db = (db', inl q) ->
  (state = QueueApproved \/ state = QueueDismissed) /\ fails = false
  /\ exists r, List.find (fun r => q_id r =? id) (qd_rows db) = Some r /\ q_state r = QueueOpen
       /\ q = resolved_row state actor what reason now (scanQueueRow ParseTime (queueRequesters ParseTime db id) r)
       /\ db' = MkQueueDB (update_where id (resolve_record state actor what reason (formatQueueTime now)) (qd_rows db))
                  (qd_next db) (qd_requesters db).
Proof.
  unfold ResolveQueueRow, GetQueueRow. destruct (negb _ && _) eqn:Es; [done|].
  apply andb_false_iff in Es. rewrite !negb_false_iff, !String.eqb_eq in Es.
  destruct fails; [done|]. destruct (List.find _ _) as [r|]; [|done]. unfold scanQueueRow at 1. cbn [qr_State].
  destruct (String.eqb_spec (q_state r) QueueOpen) as [Ho|]; cbn [negb]; [|done]. intros [= <- <-]. split; [done|]. split; [done|]. by exists r.
Qed.

Lemma ResolveQueueRow_inr ParseTime fails id state actor what reason now db db' e :
  ResolveQueueRow ParseTime fails id state actor what reason now db = (db', inr e) -> db' = db.
Proof. unfold ResolveQueueRow. intros H. repeat case_match; by simplify_eq. Qed.

Lemma ResolveQueueRow_keeps ParseTime fails id state actor what reason now db db' q m :
  keeps db m -> four_digit_time now -> ResolveQueueRow ParseTime fails id state actor what reason now db = (db', inl q) ->
  keeps db' (resolve id state actor what reason now m).
Proof.
  intros Hk Hnow (_ & _ & r & Hf & _ & _ & ->)%ResolveQueueRow_inl. pose proof (find_id db id) as Hid. rewrite Hf in Hid.
  destruct Hid as [Hr <-]. destruct (row_of db m Hk r Hr) as (e & He & Hre).
  rewrite (resolve_insert db m r e) by done. eapply (update_keeps_tables db m Hk r e); [done|done|done|by apply resolve_keeps| |done].
  intros who. cbn [close en_asked]. by apply (kp_asked db m Hk).
Qed.

Lemma empty_keeps : keeps empty_queue ∅.
Proof.
  split; cbn; [done..|by apply NoDup_nil|by apply Forall_nil| | |].
  - intros k e. by rewrite lookup_empty.
  - by intros r e who ?%elem_of_nil.
  - intros id i p _. by rewrite lookup_empty.
Qed.

Lemma queue_step_keeps s s' : queue_step s s' -> keeps s.1 (entries_after s.2) -> keeps s'.1 (entries_after s'.2).
Proof.
  intros Hs Hk. destruct Hs as [f now db h Hnow Hp|f now db h|? ? ? ? ? ? ? ? db db' q h Hnow E|? ? ? ? ? ? ? ? db db' e h E]; cbn [fst snd] in *.
  - rewrite foldl_app. cbn [foldl happen]. by apply RecordRefusal_keeps.
  - done.
  - rewrite foldl_app. cbn [foldl happen]. by eapply ResolveQueueRow_keeps.
  - apply ResolveQueueRow_inr in E as ->. done.
Qed.

Lemma queue_steps_keep s s' : rtc queue_step s s' -> keeps s.1 (entries_after s.2) -> keeps s'.1 (entries_after s'.2).
Proof. induction 1 as [|s x s' Hs _ IH]; [done|]. intros Hk. apply IH. by eapply queue_step_keeps. Qed.

Lemma queue_reachable_keeps db h : rtc queue_step (empty_queue, []) (db, h) -> keeps db (entries_after h).
Proof. intros H. apply (queue_steps_keep _ _ H). exact empty_keeps. Qed.

(** * What an entry remembers *)

Definition refused_as (k : queue_key) (ev : queue_event) : option (QueueRefusal * Z) :=
  match ev with Refused f now => if bool_decide (refusal_key f = k) then Some (f, now) else None | Resolved _ _ _ _ _ _ => None end.

Definition refusals (k : queue_key) (h : list queue_event) : list (QueueRefusal * Z) := omap (refused_as k) h.

Lemma refusals_snoc k h ev : refusals k (h ++ [ev]) = refusals k h ++ match refused_as k ev with Some x => [x] | None => [] end.
Proof. unfold refusals. rewrite omap_app. cbn. by destruct (refused_as k ev). Qed.

Record remembers (l : list (QueueRefusal * Z)) (e : queue_entry) : Prop := {
  rm_first : exists x, head l = Some x /\ en_first e = x.2;
  rm_last : exists x, last l = Some x /\ en_last e = x.2 /\ en_detail e = qf_Detail x.1 /\ en_unwaivable e = qf_Unwaivable x.1
            /\ en_incident e = qf_Incident x.1;
  rm_count : total (en_asked e) = Z.of_nat (length l);
  rm_profiles : forall p, p ∈ en_profiles e <-> p <> "" /\ exists x, x ∈ l /\ qf_Profile x.1 = p;
  rm_state : en_state e = QueueOpen \/ en_state e = QueueApproved \/ en_state e = QueueDismissed
}.

Definition resolves (ev : queue_event) : Prop :=
  match ev with Refused _ _ => True | Resolved _ state _ _ _ _ => state = QueueApproved \/ state = QueueDismissed end.

Lemma remembers_first f now id m :
  remembers [(f, now)]
    (MkQueueEntry id (qf_Pattern f) (qf_Detail f) (qf_Unwaivable f) (if (qf_Profile f =? "")%string then [] else [qf_Profile f])
       (qf_Incident f) now now (ask ∅ m now) QueueOpen None).
Proof.
  split; cbn [en_first en_last en_detail en_unwaivable en_incident en_asked en_profiles en_state]; [by eexists|by eexists|by rewrite total_ask| |by left].
  intros p. destruct (String.eqb_spec (qf_Profile f) "") as [E|Hne].
  - split; [by intros ?%elem_of_nil|]. intros (Hp & x & ->%list_elem_of_singleton & <-). done.
  - rewrite list_elem_of_singleton. split.
    + intros ->. split; [done|]. exists (f, now). split; [by left|done].
    + by intros (_ & x & ->%list_elem_of_singleton & <-).
Qed.

Lemma refuse_remembers f now m e l e' :
  m !! refusal_key f = Some e -> remembers l e -> refuse f now m !! refusal_key f = Some e' -> remembers (l ++ [(f, now)]) e'.
Proof.
  intros Hm [(x & Hx & Hf) (y & Hy & Hl) Hc Hp Hs]. unfold refuse. rewrite Hm, lookup_insert_eq. intros [= <-].
  split; cbn [en_first en_last en_detail en_unwaivable en_incident en_asked en_profiles en_state].
  - exists x. split; [|done]. by destruct l.
  - exists (f, now). by rewrite last_snoc.
  - rewrite total_ask, Hc, List.length_app. cbn. lia.
  - intros p. assert (Hmem : (exists z, z ∈ l ++ [(f, now)] /\ qf_Profile z.1 = p) <-> (exists z, z ∈ l /\ qf_Profile z.1 = p) \/ qf_Profile f = p).
    { setoid_rewrite elem_of_app. setoid_rewrite list_elem_of_singleton. split.
      - intros (z & [Hz| ->] & E); [left; by exists z|by right].
      - intros [(z & Hz & E)|E]; [exists z; by auto|exists (f, now); by auto]. }
    rewrite Hmem. destruct (String.eqb_spec (qf_Profile f) "") as [E|Hne]; cbn [orb].
    + rewrite Hp. split; [intros [? ?]; by auto|]. intros [Hp0 [?|?]]; [done|congruence].
    + destruct (slice_contains (en_profiles e) (qf_Profile f)) eqn:Ec.
      * rewrite Hp. split; [intros [? ?]; by auto|]. intros [Hp0 [?|<-]]; [done|]. by apply Hp, slice_contains_spec.
      * rewrite elem_of_app, list_elem_of_singleton, Hp. split.
        -- intros [[? ?]| ->]; by auto.
        -- intros [Hp0 [?|<-]]; by auto.
  - destruct (match en_resolved e with Some r => re_at r <? now | None => false end); [by left|done].
Qed.

Lemma entries_remember h k :
  Forall resolves h ->
  match entries_after h !! k with Some e => remembers (refusals k h) e | None => refusals k h = [] end.
Proof.
  induction h as [|ev h IH] using rev_ind; [cbn [foldl]; by rewrite lookup_empty|]. intros [Hh Hev]%Forall_app. specialize (IH Hh).
  rewrite Forall_singleton in Hev. rewrite foldl_app, refusals_snoc. cbn [foldl]. set (m := foldl happen ∅ h) in *.
  destruct ev as [f now|id state actor what reason now]; cbn [happen refused_as].
  - case_bool_decide as Ek.
    + subst k. destruct (refuse f now m !! refusal_key f) as [e'|] eqn:Er.
      * destruct (m !! refusal_key f) as [e|] eqn:Em; rewrite ?Em in IH; [exact (refuse_remembers f now m e _ e' Em IH Er)|]. rewrite IH.
        unfold refuse in Er. rewrite Em, lookup_insert_eq in Er. injection Er as <-. apply remembers_first.
      * exfalso. unfold refuse in Er. destruct (m !! refusal_key f); by rewrite lookup_insert_eq in Er.
    + assert (E : refuse f now m !! k = m !! k).
      { unfold refuse. destruct (m !! refusal_key f); by rewrite lookup_insert_ne. }
      rewrite E. destruct (m !! k); by rewrite List.app_nil_r.
  - unfold resolve. rewrite lookup_fmap. destruct (m !! k) as [e|]; cbn [fmap option_fmap option_map]; rewrite List.app_nil_r; [|done].
    destruct (en_id e =? id); [|done]. destruct IH as [H1 H2 H3 H4 H5]. split; [done..|]. by right.
Qed.

Lemma queue_history db h : rtc queue_step (empty_queue, []) (db, h) -> Forall resolves h.
Proof.
  intros H. change h with (db, h).2. revert H. generalize (db, h). apply rtc_ind_r; [by apply Forall_nil|].
  intros y z _ Hs Hy. destruct Hs; cbn [fst snd] in *; [|done| |done]; apply Forall_app; (split; [done|]); apply Forall_singleton; [done|].
  match goal with H : ResolveQueueRow _ _ _ _ _ _ _ _ _ = _ |- _ => by apply ResolveQueueRow_inl in H as [? _] end.
Qed.

(** * Listing *)

#[export] Instance newest_first_comparator : Comparator newest_first.
Proof.
  assert (H : Comparator (fun a b : queue_record => Compare (q_last_seen b) (q_last_seen a))).
  { split; [intros a b; apply (cmp_anti Compare)|intros a b c H1 H2; by apply (cmp_trans Compare _ (q_last_seen b))]. }
  assert (H' : Comparator (fun a b : queue_record => compareInt (q_id b) (q_id a))).
  { split; [intros a b; apply (cmp_anti compareInt)|intros a b c H1 H2; by apply (cmp_trans compareInt _ (q_id b))]. }
  exact (lex_comparator _ _).
Qed.

Definition selects_entry (f : QueueFilter) (k : queue_key) (e : queue_entry) : Prop :=
  (qs_PkgType f = "" \/ k.1.1.1 = qs_PkgType f) /\ (qs_Check f = "" \/ k.2 = qs_Check f) /\ (qs_State f = "" \/ en_state e = qs_State f).

Lemma or_eqb_spec a b : (a =? "")%string || (b =? a)%string = true <-> a = "" \/ b = a.
Proof. by rewrite orb_true_iff, !String.eqb_eq. Qed.

Lemma selected_spec f r e : row_entry r e -> selected f r = true <-> selects_entry f (row_key r) e.
Proof.
  intros [Hf _ _ _]. injection Hf as _ _ _ _ _ _ Es. unfold selected, selects_entry. rewrite !andb_true_iff, !or_eqb_spec, Es. tauto.
Qed.

(** * Theorems *)

(** C22: The refusal queue is its history.  Over any refusals and resolutions, each
    one failing or not, there is one row per package, version and check that was
    ever refused, and none else.  Its request count is the number of its
    refusals, and is the sum of its requesters' counts; it was first and last seen
    when the first and the last of them arrived, tells what the last one told, and
    lists each profile that refused it once. *)
Theorem queue_rows db h :
  rtc queue_step (empty_queue, []) (db, h) ->
  NoDup (map row_key (qd_rows db)) /\ NoDup (map q_id (qd_rows db))
  /\ (forall k, k ∈ map row_key (qd_rows db) <-> refusals k h <> [])
  /\ (forall r, r ∈ qd_rows db ->
        let l := refusals (row_key r) h in
        q_count r = Z.of_nat (length l)
        /\ (exists m, q_count r = total m
              /\ forall who, qd_requesters db !! (q_id r, who.1, who.2) = stored_ask <$> m !! who)
        /\ (exists x, head l = Some x /\ q_first_seen r = formatQueueTime x.2)
        /\ (exists x, last l = Some x /\ q_last_seen r = formatQueueTime x.2 /\ q_detail r = qf_Detail x.1
              /\ q_unwaivable r = qf_Unwaivable x.1 /\ q_incident r = qf_Incident x.1)
        /\ NoDup (splitProfiles (q_profiles r))
        /\ (forall p, p ∈ splitProfiles (q_profiles r) <-> p <> "" /\ exists x, x ∈ l /\ qf_Profile x.1 = p)).
Proof.
  intros H. apply queue_reachable_keeps in H as Hk. pose proof (queue_history db h H) as Hh.
  split; [apply (kp_keys _ _ Hk)|]. split; [by eapply ids_NoDup|]. split.
  - intros k. pose proof (entries_remember h k Hh) as Hm. rewrite map_elem. split.
    + intros (r & Hr & <-). destruct (row_of db _ Hk r Hr) as (e & He & _). rewrite He in Hm. intros E.
      destruct Hm as [(x & Hx & _) _ _ _ _]. by rewrite E in Hx.
    + intros Hne. destruct (entries_after h !! k) as [e|] eqn:He; [|done]. by apply (kp_entries db _ Hk k e).
  - intros r Hr l. destruct (row_of db _ Hk r Hr) as (e & He & [Hf (Hp & Hne & Hc & Hd) (Hfi & Hla & _) _]).
    injection Hf as _ _ E3 E4 E5 E6 _. pose proof (entries_remember h (row_key r) Hh) as Hm. rewrite He in Hm. fold l in Hm.
    destruct Hm as [(x & Hx & Ex) (y & Hy & Ey & Ed & Eu & Ei) Hcount Hprof _].
    split; [congruence|]. split; [exists (en_asked e); split; [done|]; intros who; by apply (kp_asked db _ Hk)|].
    split; [exists x; by rewrite Hfi, Ex|]. split; [exists y; rewrite Hla, E3, E4, E5, Ey; by split_and!|].
    unfold splitProfiles. rewrite Hp, (Split_Join_names ",") by done. done.
Qed.

(** Listing the queue answers the rows the filter selects, each once, the most
    recently refused first; the order is that of the times, although the table
    compares their texts. *)
Theorem queue_listing ParseTime f db h :
  rtc queue_step (empty_queue, []) (db, h) ->
  exists rows, ListQueue ParseTime false f db = inl (map (fun r => scanQueueRow ParseTime (queueRequesters ParseTime db (q_id r)) r) rows)
    /\ NoDup rows
    /\ (forall r, r ∈ rows <-> r ∈ qd_rows db /\ exists e, entries_after h !! row_key r = Some e /\ selects_entry f (row_key r) e)
    /\ StronglySorted (fun a b => forall ea eb, entries_after h !! row_key a = Some ea -> entries_after h !! row_key b = Some eb ->
                                   en_last eb <= en_last ea) rows.
Proof.
  intros H. apply queue_reachable_keeps in H as Hk. exists (listed_records f db). split; [done|]. unfold listed_records. split; [|split].
  - rewrite SliceStable_perm. apply filter_NoDup, (NoDup_fmap_1 q_id). by eapply ids_NoDup.
  - intros r. rewrite SliceStable_perm, filter_elem. split.
    + intros [Hr Hs]. split; [done|]. destruct (row_of db _ Hk r Hr) as (e & He & Hre). exists e. split; [done|]. by apply (selected_spec f r e).
    + intros (Hr & e & He & Hs). split; [done|]. destruct (row_of db _ Hk r Hr) as (e' & He' & Hre). rewrite He in He'. injection He' as <-.
      by apply (selected_spec f r e).
  - assert (Hsort : StronglySorted (fun a b => newest_first a b <= 0) (SliceStable (fun a b => newest_first a b <? 0) (List.filter (selected f) (qd_rows db))))
      by by apply (SliceStable_by _ newest_first).
    assert (Hin : Forall (fun r => r ∈ qd_rows db) (SliceStable (fun a b => newest_first a b <? 0) (List.filter (selected f) (qd_rows db)))).
    { rewrite SliceStable_perm. apply Forall_forall. by intros r [? _]%filter_elem. }
    revert Hin. induction Hsort as [|a l Hl IH Ha]; intros Hin; [constructor|]. apply Forall_cons in Hin as [Hina Hinl].
    constructor; [by apply IH|]. rewrite Forall_forall in Ha, Hinl |- *. intros b Hb ea eb Hea Heb.
    specialize (Ha b Hb). specialize (Hinl b Hb).
    destruct (row_of db _ Hk a Hina) as (ea' & Hea' & [_ _ (_ & Hla & _ & Hfa) _]). rewrite Hea in Hea'. injection Hea' as <-.
    destruct (row_of db _ Hk b Hinl) as (eb' & Heb' & [_ _ (_ & Hlb & _ & Hfb) _]). rewrite Heb in Heb'. injection Heb' as <-.
    unfold newest_first in Ha. rewrite Hla, Hlb in Ha. unfold formatQueueTime in Ha. rewrite nano_text_compare in Ha by done.
    apply Z.nlt_ge. intros Hlt. case_int (en_last eb) (en_last ea); unfold then_cmp in Ha; cbn in Ha; lia.
Qed.

(** The row with this id as it was closed, as long as nothing reopened it. *)
Definition closed_since (id : Z) (k : queue_key) (t : Z) (db : queue_db) : Prop :=
  exists r, r ∈ qd_rows db /\ q_id r = id /\ row_key r = k /\ q_state r <> QueueOpen /\ q_resolved_at r = formatQueueTime t.

Lemma stays_closed id k t db h s' m :
  keeps db m -> four_digit_time t -> closed_since id k t db -> queue_step (db, h) s' ->
  (forall f now, s'.2 = h ++ [Refused f now] -> refusal_key f = k -> now <= t) -> closed_since id k t s'.1.
Proof.
  intros Hk Ht (r & Hr & Hid & Hrk & Hs & Hat) Hstep Hno.
  inversion Hstep as [f now db0 h0 Hnow Hp E1 E2|f now db0 h0 E1 E2|P fails i st a w re now db0 db' q h0 Hnow E E1 E2|P fails i st a w re now db0 db' e h0 E E1 E2];
    subst db0 h0 s'; cbn [fst snd] in *.
  - unfold RecordRefusal. pose proof (find_key db m Hk (refusal_key f)) as Hf. destruct (List.find _ _) as [r1|]; cbn [fst].
    + destruct Hf as [Hr1 Hk1]. destruct (Z.eq_dec (q_id r) (q_id r1)) as [Ei|Hne].
      * pose proof (same_id db m Hk r r1 Hr Hr1 Ei) as <-. exists (update_record f (formatQueueTime now) r). split.
        -- apply update_where_elem. exists r. by rewrite Z.eqb_refl.
        -- split; [done|]. split; [done|]. unfold update_record. cbn [q_state q_resolved_at]. split; [|done].
           specialize (Hno f now eq_refl ltac:(congruence)). rewrite Hat, before_text by done.
           rewrite (proj2 (Z.ltb_ge _ _)) by done. by rewrite andb_false_r.
      * exists r. split; [|done]. apply update_where_elem. exists r. split; [done|]. by apply Z.eqb_neq in Hne as ->.
    + exists r. split; [apply elem_of_app; by left|done].
  - by exists r.
  - apply ResolveQueueRow_inl in E as (_ & _ & r1 & Hf & Ho & _ & ->). pose proof (find_id db i) as Hi. rewrite Hf in Hi. destruct Hi as [Hr1 <-].
    exists r. split; [|done]. cbn [qd_rows]. apply update_where_elem. exists r. split; [done|].
    destruct (Z.eqb_spec (q_id r) (q_id r1)) as [Ei|]; [|done]. exfalso. by rewrite (same_id db m Hk r r1 Hr Hr1 Ei) in Hs.
  - apply ResolveQueueRow_inr in E as ->. by exists r.
Qed.

Lemma step_history db h s' : queue_step (db, h) s' -> exists l, s'.2 = h ++ l /\ (length l <= 1)%nat.
Proof.
  inversion 1; subst; cbn [snd].
  - eexists. split; [reflexivity|cbn; lia].
  - exists []. split; [by rewrite List.app_nil_r|cbn; lia].
  - eexists. split; [reflexivity|cbn; lia].
  - exists []. split; [by rewrite List.app_nil_r|cbn; lia].
Qed.

Lemma steps_history s s' : rtc queue_step s s' -> exists l, s'.2 = s.2 ++ l.
Proof.
  induction 1 as [s|[db h] x s' Hs _ [l IH]]; [exists []; by rewrite List.app_nil_r|].
  apply step_history in Hs as (l1 & E & _). exists (l1 ++ l). by rewrite IH, E, List.app_assoc.
Qed.

Lemma stays_closed_steps id k t db h s' m :
  rtc queue_step (db, h) s' -> keeps db m -> m = entries_after h -> four_digit_time t -> closed_since id k t db ->
  (exists l, s'.2 = h ++ l /\ (closed_since id k t s'.1 \/ exists f now, Refused f now ∈ l /\ refusal_key f = k /\ t < now)).
Proof.
  intros Hsteps. remember (db, h) as s eqn:Es. revert db h m Es.
  induction Hsteps as [s|s x s' Hs Hrest IH]; intros db h m -> Hk -> Ht Hc.
  - exists []. rewrite List.app_nil_r. split; [done|by left].
  - pose proof (queue_step_keeps _ _ Hs Hk) as Hk'. destruct x as [db1 h1].
    assert (Hext : exists l1, h1 = h ++ l1 /\ (closed_since id k t db1 \/ exists f now, Refused f now ∈ l1 /\ refusal_key f = k /\ t < now)).
    { assert (Hl : exists l1, h1 = h ++ l1 /\ (length l1 <= 1)%nat).
      { exact (step_history _ _ _ Hs). }
      destruct Hl as (l1 & -> & Hl1). exists l1. split; [done|].
      assert (Hno : (forall f now, l1 = [Refused f now] -> refusal_key f = k -> now <= t)
                    \/ exists f now, Refused f now ∈ l1 /\ refusal_key f = k /\ t < now).
      { destruct l1 as [|[f now|] [|]]; try (by left); try (cbn in Hl1; lia).
        destruct (decide (refusal_key f = k)); [|left; congruence].
        destruct (Z.le_gt_cases now t); [left; by intros ? ? [= -> ->]|right]. exists f, now. split; [by left|]. split; [done|lia]. }
      destruct Hno as [Hno|Hev]; [left|by right]. eapply (stays_closed id k t db h (db1, h ++ l1)); [exact Hk|done|done|done|].
      intros f now E Ek. cbn [snd] in E. apply app_inv_head in E. by apply (Hno f). }
    destruct Hext as (l1 & -> & [Hc1|(f & now & Hin & Hev)]).
    + destruct (IH db1 (h ++ l1) _ eq_refl Hk' eq_refl Ht Hc1) as (l2 & E & Hres). exists (l1 ++ l2). split; [by rewrite E, List.app_assoc|].
      destruct Hres as [?|(f & now & Hin & Hev)]; [by left|right]. exists f, now. split; [apply elem_of_app; by right|done].
    + destruct (steps_history _ _ Hrest) as (l2 & E). cbn [snd] in E.
      exists (l1 ++ l2). split; [by rewrite E, List.app_assoc|right]. exists f, now.
      split; [apply elem_of_app; by left|done].
Qed.

(** A row is resolved once.  Between two resolutions of one row that both
    succeed, whoever makes them, the same package, version and check was refused
    again, later than the first of them; and a resolution is approved or
    dismissed, never open. *)
Theorem resolved_once P1 P2 id db h fails1 state1 actor1 what1 reason1 t1 db1 q1 db2 h2 fails2 state2 actor2 what2 reason2 t2 db3 q2 :
  rtc queue_step (empty_queue, []) (db, h) -> four_digit_time t1 ->
  ResolveQueueRow P1 fails1 id state1 actor1 what1 reason1 t1 db = (db1, inl q1) ->
  rtc queue_step (db1, h ++ [Resolved id state1 actor1 what1 reason1 t1]) (db2, h ++ [Resolved id state1 actor1 what1 reason1 t1] ++ h2) ->
  ResolveQueueRow P2 fails2 id state2 actor2 what2 reason2 t2 db2 = (db3, inl q2) ->
  (state1 = QueueApproved \/ state1 = QueueDismissed)
  /\ exists f now, Refused f now ∈ h2 /\ t1 < now /\ refusal_key f = (qr_PkgType q1, qr_PkgName q1, qr_PkgVersion q1, qr_Check q1).
Proof.
  intros Hr Ht E1 Hsteps E2. pose proof (queue_reachable_keeps _ _ Hr) as Hk.
  pose proof (ResolveQueueRow_keeps _ _ _ _ _ _ _ _ _ _ _ _ Hk Ht E1) as Hk1.
  apply ResolveQueueRow_inl in E1 as (Hst & _ & r & Hf & Ho & Eq & Edb). split; [done|].
  pose proof (find_id db id) as Hid. rewrite Hf in Hid. destruct Hid as [Hrin Hrid].
  set (k := (qr_PkgType q1, qr_PkgName q1, qr_PkgVersion q1, qr_Check q1)).
  assert (Hkey : row_key r = k) by (subst k q1; done).
  assert (Hc : closed_since id k t1 db1).
  { subst db1. exists (resolve_record state1 actor1 what1 reason1 (formatQueueTime t1) r). cbn [qd_rows]. split.
    - apply update_where_elem. exists r. by rewrite Hrid, Z.eqb_refl.
    - split; [done|]. split; [done|]. split; [|done]. cbn. by destruct Hst as [->| ->]. }
  assert (Hkeeps : keeps db1 (entries_after (h ++ [Resolved id state1 actor1 what1 reason1 t1]))) by by rewrite foldl_app.
  destruct (stays_closed_steps id k t1 _ _ _ _ Hsteps Hkeeps eq_refl Ht Hc) as (l & El & Hres).
  cbn [fst snd] in *. rewrite List.app_assoc in El. apply app_inv_head in El as <-.
  destruct Hres as [(r2 & Hr2 & Hi2 & _ & Hs2 & _)|(f & now & Hin & Hfk & Hlt)]; [|by exists f, now]. exfalso.
  apply ResolveQueueRow_inl in E2 as (_ & _ & r3 & Hf3 & Ho3 & _). pose proof (find_id db2 id) as Hid3. rewrite Hf3 in Hid3.
  destruct Hid3 as [Hr3 Hi3]. pose proof (queue_steps_keep _ _ Hsteps Hkeeps) as Hk2. cbn [fst snd] in Hk2.
  rewrite (same_id db2 _ Hk2 r2 r3 Hr2 Hr3 ltac:(congruence)) in Hs2. done.
Qed.

(** * Witnesses *)

Definition young (profile ip : string) : QueueRefusal :=
  MkRefusal "pypi" "left-pad" "1.0" "age" "" ("too young for " +:+ profile) "" profile "i1" "web01" ip.

Definition no_times (s : string) : option Z := None.

Definition q1 : queue_db := (RecordRefusal false (young "web" "10.0.0.1") 5 empty_queue).1.
Definition q2 : queue_db := (RecordRefusal false (young "db" "10.0.0.2") 9 q1).1.
Definition close1 (db : queue_db) (t : Z) : queue_db * (QueueRow + queue_error) :=
  ResolveQueueRow no_times false 1 QueueDismissed "ann" "" "not now" t db.
Definition q3 : queue_db := (close1 q2 20).1.
Definition q4 : queue_db := (RecordRefusal false (young "web" "10.0.0.1") 30 q3).1.

Lemma small_time t : 0 <= t < 1000 -> four_digit_time t.
Proof.
  intros H. unfold four_digit_time, time_day. assert (E : t / Day = 0) by (apply Z.div_small; unfold Day, Hour; lia).
  rewrite E. vm_compute. split; congruence.
Qed.

Lemma q2_reachable :
  rtc queue_step (empty_queue, []) (q2, [Refused (young "web" "10.0.0.1") 5; Refused (young "db" "10.0.0.2") 9]).
Proof.
  eapply rtc_l; [apply (step_record (young "web" "10.0.0.1") 5); [by apply small_time|done]|].
  eapply rtc_l; [apply (step_record (young "db" "10.0.0.2") 9); [by apply small_time|done]|]. apply rtc_refl.
Qed.

Lemma queue_rows_witness :
  exists r, r ∈ qd_rows q2 /\ q_count r = 2 /\ (forall p, p ∈ splitProfiles (q_profiles r) <-> p <> "" /\ p ∈ ["web"; "db"]).
Proof.
  destruct (queue_rows q2 _ q2_reachable) as (_ & _ & _ & H). destruct (qd_rows q2) as [|r l] eqn:E; [vm_compute in E; discriminate|].
  exists r. split; [left|]. specialize (H r ltac:(left)). vm_compute in E. injection E as <- <-.
  destruct H as (Hc & _ & _ & _ & _ & Hp). split; [exact Hc|]. intros p. rewrite Hp. split; intros [Hne Hx]; (split; [exact Hne|]).
  - destruct Hx as (x & Hx & <-). apply list_elem_of_In in Hx. destruct Hx as [<-|[<-|[]]]; [left|right; left].
  - apply list_elem_of_In in Hx. destruct Hx as [<-|[<-|[]]].
    + exists (young "web" "10.0.0.1", 5). split; [left|reflexivity].
    + exists (young "db" "10.0.0.2", 9). split; [right; left|reflexivity].
Defined.

Lemma queue_listing_witness :
  exists rows, ListQueue no_times false (MkQueueFilter "" "" QueueOpen) q2 = inl rows /\ length rows = 1%nat.
Proof.
  destruct (queue_listing no_times (MkQueueFilter "" "" QueueOpen) q2 _ q2_reachable) as (rows & E & _).
  assert (Hl : match ListQueue no_times false (MkQueueFilter "" "" QueueOpen) q2 with inl l => length l = 1%nat | inr _ => False end)
    by (vm_compute; reflexivity).
  eexists. split; [exact E|]. rewrite E in Hl. exact Hl.
Defined.

Lemma reopened_at_30 : queue_step (q3, [Refused (young "web" "10.0.0.1") 5; Refused (young "db" "10.0.0.2") 9] ++ [Resolved 1 QueueDismissed "ann" "" "not now" 20])
  (q4, ([Refused (young "web" "10.0.0.1") 5; Refused (young "db" "10.0.0.2") 9] ++ [Resolved 1 QueueDismissed "ann" "" "not now" 20])
       ++ [Refused (young "web" "10.0.0.1") 30]).
Proof. apply step_record; [by apply small_time|done]. Qed.

Lemma closed_at_20 : exists a, close1 q2 20 = (q3, inl a).
Proof. unfold q3. destruct (close1 q2 20) as [db1 [a|e]] eqn:E; [by exists a|vm_compute in E; discriminate]. Qed.

Lemma resolved_once_witness :
  exists q, (close1 q4 40).2 = inl q /\ exists f now, Refused f now ∈ [Refused (young "web" "10.0.0.1") 30] /\ 20 < now.
Proof.
  assert (H4 : match (close1 q4 40).2 with inl _ => True | inr _ => False end) by (vm_compute; exact I).
  destruct closed_at_20 as [a E1]. destruct (close1 q4 40) as [db3 [b|e]] eqn:E2; [|destruct H4]. exists b. split; [reflexivity|].
  destruct (resolved_once no_times no_times 1 q2 _ false QueueDismissed "ann" "" "not now" 20 q3 a q4
              [Refused (young "web" "10.0.0.1") 30] false QueueDismissed "ann" "" "not now" 40 db3 b q2_reachable
              (small_time 20 ltac:(lia)) E1 (rtc_once _ _ reopened_at_30) E2) as (_ & f & now & H1 & H2 & _).
  exists f, now. split; [exact H1|exact H2].
Defined.
