(* ===== verification/PolicyRows.v ===== *)
(** The allow-list rules as the audit database keeps them
    (internal/audit/policy.go): the upstream_policies table, its rows in the
    order they were inserted.

    The id is the table's primary key, and the type, kind and pattern together
    are unique.  Rows the ORDER BY leaves tied keep their order here; the theorems
    do not depend on it.  [now] is the database's clock, and [fails] says the
    statement could not run. *)

From stdpp Require Import base list gmap strings sorting.
From Stdlib Require Import ZArith Lia.
From S2P Require Import Prelude GoStrings GoSort AllowList.

Inductive policy_error := ErrPolicyDatabase | ErrPolicyConstraint.

(** What the unique index is on. *)
Definition policy_key (p : Rule) : string * string * string := (r_RegistryType p, r_RuleKind p, r_Pattern p).

Definition InsertPolicy (fails : bool) (now : Z) (p : Rule) (rows : list Rule) : list Rule * (unit + policy_error) :=
  if fails then (rows, inr ErrPolicyDatabase)
  else if existsb (fun x => (r_ID x =? r_ID p)%string || bool_decide (policy_key x = policy_key p)) rows
  then (rows, inr ErrPolicyConstraint)
  else (rows ++ [MkRule (r_ID p) (r_RegistryType p) (r_RuleKind p) (r_Pattern p) (r_Comment p) now (r_CreatedBy p)], inl tt).

(** ORDER BY registry_type, pattern *)
Definition policy_order (a b : Rule) : Z :=
  then_cmp (Compare (r_RegistryType a) (r_RegistryType b)) (Compare (r_Pattern a) (r_Pattern b)).

Definition ListPolicies (fails : bool) (rows : list Rule) : list Rule + policy_error :=
  if fails then inr ErrPolicyDatabase else inl (SliceStable (fun a b => policy_order a b <? 0) rows).

(** The rule with the key, when there is one. *)
Definition FindPolicy (fails : bool) (registryType ruleKind pattern : string) (rows : list Rule)
  : option Rule + policy_error :=
  if fails then inr ErrPolicyDatabase
  else inl (List.find (fun x => bool_decide (policy_key x = (registryType, ruleKind, pattern))) rows).

Definition GetPoliciesByType (fails : bool) (registryType : string) (rows : list Rule) : list Rule + policy_error :=
  if fails then inr ErrPolicyDatabase
  else inl (SliceStable (fun a b => Compare (r_Pattern a) (r_Pattern b) <? 0)
              (List.filter (fun x => (r_RegistryType x =? registryType)%string) rows)).

Definition delete_where (p : Rule -> bool) (rows : list Rule) : list Rule * Z :=
  (List.filter (fun x => negb (p x)) rows, Z.of_nat (length (List.filter p rows))).

Definition DeletePolicyByID (fails : bool) (id : string) (rows : list Rule) : list Rule * (bool + policy_error) :=
  if fails then (rows, inr ErrPolicyDatabase)
  else let '(rows, n) := delete_where (fun x => (r_ID x =? id)%string) rows in (rows, inl (0 <? n)).

Definition DeletePolicyByPattern (fails : bool) (registryType pattern : string) (rows : list Rule)
  : list Rule * (Z + policy_error) :=
  if fails then (rows, inr ErrPolicyDatabase)
  else
    let '(rows, n) :=
      if (registryType =? "")%string then delete_where (fun x => (r_Pattern x =? pattern)%string) rows
      else delete_where (fun x => (r_RegistryType x =? registryType)%string && (r_Pattern x =? pattern)%string) rows
    in (rows, inl n).

Definition PolicyCount (fails : bool) (rows : list Rule) : Z + policy_error :=
  if fails then inr ErrPolicyDatabase else inl (Z.of_nat (length rows)).

(** ** What holds of the table *)

Definition policies_ok (rows : list Rule) : Prop := NoDup (map r_ID rows) /\ NoDup (map policy_key rows).

Lemma InsertPolicy_inl fails now p rows rows' :
  InsertPolicy fails now p rows = (rows', inl tt) ->
  exists r, rows' = rows ++ [r] /\ policy_key r = policy_key p /\ r_ID r = r_ID p
    /\ r_Comment r = r_Comment p /\ r_CreatedBy r = r_CreatedBy p
    /\ r_ID p ∉ map r_ID rows /\ policy_key p ∉ map policy_key rows.
Proof.
  unfold InsertPolicy. destruct fails; [done|]. destruct (existsb _ rows) eqn:E; [done|]. intros [= <-].
  eexists. do 5 (split; [done|]). rewrite !list_elem_of_In, !in_map_iff.
  assert (H : forall x, In x rows -> r_ID x <> r_ID p /\ policy_key x <> policy_key p).
  { intros x Hx. assert (Hn : ~ ((r_ID x =? r_ID p)%string || bool_decide (policy_key x = policy_key p) = true)).
    { intros Ht. rewrite (proj2 (existsb_exists _ rows)) in E; [done|by exists x]. }
    rewrite orb_true_iff, String.eqb_eq, bool_decide_eq_true in Hn. tauto. }
  split; intros (x & Hx & Hin); by destruct (H x Hin).
Qed.

Lemma InsertPolicy_ok fails now p rows : policies_ok rows -> policies_ok (InsertPolicy fails now p rows).1.
Proof.
  intros [H1 H2]. destruct (InsertPolicy fails now p rows) as [rows' [[]|e]] eqn:E.
  - apply InsertPolicy_inl in E as (r & -> & Hk & Hi & _ & _ & Hn1 & Hn2). unfold policies_ok. cbn [fst].
    rewrite !map_app. cbn [map]. rewrite Hk, Hi.
    split; apply NoDup_app; (split; [done|]); (split; [|apply NoDup_singleton]);
      intros x Hx ->%list_elem_of_singleton; done.
  - unfold InsertPolicy in E. destruct fails; [by simplify_eq|]. by destruct (existsb _ rows); simplify_eq.
Qed.

Lemma GetPoliciesByType_elem t rows l r :
  GetPoliciesByType false t rows = inl l -> (r ∈ l <-> r ∈ rows /\ r_RegistryType r = t).
Proof.
  unfold GetPoliciesByType. intros [= <-]. rewrite SliceStable_perm, filter_elem, String.eqb_eq. done.
Qed.

Lemma FindPolicy_spec t k p rows r :
  FindPolicy false t k p rows = inl (Some r) -> r ∈ rows /\ policy_key r = (t, k, p).
Proof.
  unfold FindPolicy. intros [= H]. apply find_some in H as [H1 H2%bool_decide_eq_true]. by rewrite list_elem_of_In.
Qed.
