(* ===== verification/AdmitQueue.v ===== *)
(** Resolving a queued refusal: internal/admit/queue.go over the queue, the
    allow-list rules, the override requests and the profiles, with the pattern a
    row is queued under (internal/server/queue.go) and the git entry names a
    profile takes (internal/config/config.go).

    Each call on the database is a transaction of its own.  [ae_meanwhile] is what
    other callers do to the queue between the read of the row and its resolution.
    Audit events are recorded too, and their failure ignored. *)

From stdpp Require Import base list gmap strings sorting.
From Stdlib Require Import ZArith Lia Ascii.
From S2P Require Import Prelude GoStrings GoSort GoTime GoURL Types MavenLayout Keys AllowList Similarity.
From S2P Require Import Scope Override AdmitOverride Entitle ProfileStore Queue PolicyRows.

Definition QueueAllowList := "allow-list".
Definition QueueAge := "age".
Definition QueueOSV := "osv".
Definition QueueMalware := "malware".
Definition QueueProfile := "profile".
Definition QueueProvenance := CheckUpstreamProvenance.
Definition QueueSimilarity := CheckNameSimilarity.
Definition QueueChecksumDB := CheckChecksumDatabase.

Definition QueueChecks : list string :=
  [QueueAllowList; QueueAge; QueueOSV; QueueMalware; QueueProfile; QueueProvenance; QueueChecksumDB; QueueSimilarity].

Definition QueueCheckFor (r : Result) : string :=
  if (r_Check r =? CheckOSV)%string && bool_decide (is_Some (r_Details r !! "malware")) then QueueMalware
  else if (r_Check r =? CheckAllowList)%string then QueueAllowList
  else r_Check r.

Definition QueueUnwaivable (r : Result) : string := notOverridable r.

Record QueueApproval := MkApproval { qa_Reason : string; qa_Expires : string; qa_ConfirmNearPopular : string }.

Record QueueResolution := MkQueueResolution {
  qn_Row : QueueRow; qn_Rule : option Rule; qn_Override : option Override; qn_Profiles : list string; qn_Warning : string
}.

Inductive git_entry_error :=
| BadSegment
| UnknownNamespace (ns : string) (configured : list string)
| EndsInGit
| TooShort (ns : string) (depth : nat).

Inductive resolve_error :=
| ResolveNoStore
| ResolveNoIdentity
| ResolveNoReason
| ResolveQueue (err : queue_error)
| ErrQueueUnwaivable (check why : string)
| ResolveUnknownType (t : string)
| RuleNearPopular (typ pattern popular : string) (distance : Z)
| RuleStore (err : policy_error)
| NoProfileNamed
| BadGitEntry (err : git_entry_error)
| ProfileFailed (name : string) (err : profile_error)
| NoApprovalDefined (check : string)
| OverridesUnread
| OverrideRefused (err : request_error).

(** ** Git entry names *)

Section git.
Context (url_path : string -> option string) (GitUpstreams : gmap string string).

Definition gitRepoDepth (ns : string) : option nat :=
  match GitUpstreams !! ns with
  | None => None
  | Some url =>
      match url_path url with
      | None => Some 2%nat
      | Some p => Some (if negb (Trim p "/" =? "")%string then 1%nat else 2%nat)
      end
  end.

Definition ValidateGitEntryName (name : string) : option git_entry_error :=
  let segs := Split "/" name in
  if existsb (fun seg => (seg =? "")%string || (seg =? ".")%string || (seg =? "..")%string) segs then Some BadSegment
  else
    match segs with
    | [] | [_] => None
    | ns :: repo =>
        match gitRepoDepth ns with
        | None => Some (UnknownNamespace ns (sort_Strings (map fst (map_to_list GitUpstreams))))
        | Some depth =>
            if HasSuffix (default "" (last repo)) ".git" then Some EndsInGit
            else if (length repo <? depth)%nat then Some (TooShort ns depth)
            else None
        end
    end.
End git.

(** ** Patterns *)

Section pattern.
Context (Parse : string -> option ParsedURL) (url_path : string -> option string).

Definition splitUpstreamURL (raw : string) : string * string :=
  match Parse raw, url_path raw with
  | Some u, Some path => if (p_Host u =? "")%string then (raw, "") else (p_Hostname u, path)
  | _, _ => (raw, "")
  end.

Definition queuePattern (regType upstreamURL candidate name : string) : string :=
  if one_of [TypeNpm; TypePypi; TypeCargo; TypeGomod; TypeMaven; TypeRubygems; TypeComposer; TypeOCI] regType then candidate
  else if one_of [TypeRpm] regType then name
  else
    let u := if (upstreamURL =? "")%string then candidate else upstreamURL in
    let '(host, p) := splitUpstreamURL u in
    let hint := SuggestPattern regType host p name in
    if negb (hint =? "")%string && negb (host =? "")%string then hint else candidate.
End pattern.

(** ** The database *)

Record admit_db := MkAdmitDB {
  ad_queue : queue_db; ad_policies : list Rule; ad_overrides : gmap string Override; ad_profiles : profile_db
}.

Definition set_queue (x : queue_db) (db : admit_db) : admit_db :=
  MkAdmitDB x (ad_policies db) (ad_overrides db) (ad_profiles db).
Definition set_policies (x : list Rule) (db : admit_db) : admit_db :=
  MkAdmitDB (ad_queue db) x (ad_overrides db) (ad_profiles db).
Definition set_overrides (x : gmap string Override) (db : admit_db) : admit_db :=
  MkAdmitDB (ad_queue db) (ad_policies db) x (ad_profiles db).
Definition set_profile_db (x : profile_db) (db : admit_db) : admit_db :=
  MkAdmitDB (ad_queue db) (ad_policies db) (ad_overrides db) x.

(** One call's world: which statements fail, the two random ids, the database's
    clock, and what the queue's other writers do in between. *)
Record admit_env := MkAdmitEnv {
  ae_get_fails : bool; ae_find_fails : bool; ae_insert_fails : bool; ae_list_fails : bool; ae_resolve_fails : bool;
  ae_get : string -> db_env; ae_put : string -> db_env;
  ae_rule_id : string; ae_override_id : string; ae_clock : Z;
  ae_meanwhile : queue_db -> queue_db
}.

(** What the package is given: its configuration, the library functions it
    calls and what the rest of the database answers. *)
Record admit_world := MkAdmitWorld {
  aw_ParseTime : string -> option Z;
  aw_ParseDuration : string -> option Z;
  aw_url_path : string -> option string;
  aw_cfg : Config;
  aw_GitUpstreams : gmap string string;
  aw_lower : string -> string;
  aw_embedded : string -> option PopularNames;
  aw_similarity : option SimilarityStore;
  aw_newest : string -> string -> string -> option (list AdmissionCheck);
  aw_order_votes : list OverrideVote -> list OverrideVote;
  aw_order_rows : list Override -> list Override
}.

(** ** Approving *)

Definition formatTTL (d : Z) : string :=
  if Z.rem d (24 * Hour) =? 0 then print_Z (Z.quot d (24 * Hour)) +:+ "d" else Duration_String d.

(** The comment, reason or request text an approval leaves behind. *)
Definition queue_reason (row : QueueRow) (reason : string) : string := "queue #" +:+ print_Z (qr_ID row) +:+ ": " +:+ reason.

Section approve.
Context (w : admit_world) (env : admit_env).

Definition approveAllowList (row : QueueRow) (actor : string) (a : QueueApproval) (rows : list Rule)
  : list Rule * ((Rule * string) + resolve_error) :=
  match ValidateType (qr_PkgType row) with
  | Some (UnknownRegistryType t) => (rows, inr (ResolveUnknownType t))
  | None =>
      let pattern := if (qr_Pattern row =? "")%string then qr_PkgName row else qr_Pattern row in
      let kind := RuleKindForType (qr_PkgType row) in
      match FindPolicy (ae_find_fails env) (qr_PkgType row) kind pattern rows with
      | inr err => (rows, inr (RuleStore err))
      | inl (Some existing) => (rows, inl (existing, ""))
      | inl None =>
          let insert warning :=
            let rule := AllowList.MkRule (ae_rule_id env) (qr_PkgType row) kind pattern (queue_reason row (qa_Reason a)) zero_time actor in
            match InsertPolicy (ae_insert_fails env) (ae_clock env) rule rows with
            | (rows, inr err) => (rows, inr (RuleStore err))
            | (rows, inl _) => (rows, inl (rule, warning))
            end in
          match ConfirmNearPopular (aw_lower w) (aw_embedded w) (aw_similarity w) (qr_PkgType row) pattern (qa_ConfirmNearPopular a) with
          | NearPopularError t p popular d => (rows, inr (RuleNearPopular t p popular d))
          | CheckFailed err =>
              insert (qr_PkgType row +:+ " " +:+ Quote pattern +:+ " was not compared with the popular " +:+ qr_PkgType row
                      +:+ " names: " +:+ err)
          | _ => insert ""
          end
      end
  end.

(** The entry written into profile [name], whose rows are [d]. *)
Definition approved_entry (row : QueueRow) (actor reason : string) (now : Z) (name : string) (d : ProfileDetail) : ProfileEntry :=
  let key := CanonicalName (qr_PkgType row) (qr_PkgName row) in
  let e :=
    match List.find (fun x => (pe_Type x =? qr_PkgType row)%string && (CanonicalName (pe_Type x) (pe_Name x) =? key)%string)
            (pd_Entries d) with
    | Some e => e
    | None => MkEntry name (qr_PkgType row) (qr_PkgName row) "" "" "" "" "" "" zero_time zero_time ""
    end in
  if negb (qr_PkgVersion row =? "")%string
  then MkEntry (pe_Profile e) (pe_Type e) (pe_Name e) ConstraintExact (qr_PkgVersion row) (pe_Origin e)
         (queue_reason row reason) (pe_ReviewAfter e) actor (pe_CreatedAt e) now actor
  else MkEntry (pe_Profile e) (pe_Type e) (pe_Name e) (pe_Constraint e) (pe_Version e) (pe_Origin e)
         (queue_reason row reason) (pe_ReviewAfter e) actor (pe_CreatedAt e) (pe_PinnedAt e) (pe_PinnedBy e).

(** The profiles in turn; what an earlier one was given stays when a later one fails.
    Nothing else writes between the queries of a turn. *)
Fixpoint pin_profiles (row : QueueRow) (actor reason : string) (now : Z) (names : list string) (done : list string)
  (db : profile_db) : profile_db * (list string + resolve_error) :=
  match names with
  | [] => (db, inl done)
  | name :: names =>
      match GetProfile (ae_get env name) db db db name with
      | inr err => (db, inr (ProfileFailed name err))
      | inl d =>
          match PutProfileEntry (ae_put env name) db db (approved_entry row actor reason now name d) db with
          | (db, inr err) => (db, inr (ProfileFailed name err))
          | (db, inl _) => pin_profiles row actor reason now names (done ++ [name]) db
          end
      end
  end.

Definition approveProfile (row : QueueRow) (actor reason : string) (now : Z) (db : profile_db)
  : profile_db * (list string + resolve_error) :=
  if (length (qr_Profiles row) =? 0)%nat then (db, inr NoProfileNamed)
  else if negb (IsKnownType (qr_PkgType row)) then (db, inr (ResolveUnknownType (qr_PkgType row)))
  else
    match (if (qr_PkgType row =? TypeGit)%string
           then ValidateGitEntryName (aw_url_path w) (aw_GitUpstreams w) (qr_PkgName row) else None) with
    | Some err => (db, inr (BadGitEntry err))
    | None => pin_profiles row actor reason now (qr_Profiles row) [] db
    end.

(** An override on the row's version and check that is pending or active. *)
Definition stands_for (row : QueueRow) (x : Override * string * Z) : bool :=
  let '(o, status, _) := x in
  (o_PkgType o =? qr_PkgType row)%string
  && (overrideNameKey (o_PkgType o) (o_PkgName o) =? overrideNameKey (qr_PkgType row) (qr_PkgName row))%string
  && (o_PkgVersion o =? qr_PkgVersion row)%string && (o_Check o =? qr_Check row)%string
  && ((status =? OverrideStatusPending)%string || (status =? OverrideStatusActive)%string).

Definition approveOverride (row : QueueRow) (actor : string) (a : QueueApproval) (now : Z) (db : gmap string Override)
  : gmap string Override * (Override + resolve_error) :=
  if negb (slice_contains allChecks (qr_Check row)) && negb (isIntegrationCheck (qr_Check row))
  then (db, inr (NoApprovalDefined (qr_Check row)))
  else if ae_list_fails env then (db, inr OverridesUnread)
  else
    let existing := AdmitListOverrides (ListOverrides (aw_order_votes w) (aw_order_rows w) db (MkFilter "" "" "")) "" now in
    match List.find (stands_for row) existing with
    | Some (o, _, _) => (db, inl o)
    | None =>
        let expires := if (qa_Expires a =? "")%string
                       then formatTTL (ResolveOverrideMaxTTL (aw_ParseDuration w) (aw_cfg w)) else qa_Expires a in
        match RequestOverride (aw_ParseDuration w) (Some db) (aw_cfg w) (aw_newest w) (ae_override_id env)
                (MkRequest (qr_PkgType row) (qr_PkgName row) (qr_PkgVersion row) (qr_Check row)
                   (queue_reason row (qa_Reason a)) expires)
                (MkCaller actor ScopeApprove "" "") now with
        | (db', inr err) => (default db db', inr (OverrideRefused err))
        | (db', inl o) => (default db db', inl o)
        end
    end.

(** What the row's check calls for: the database with it done, the words the
    resolution records, and the resolution without its row. *)
Definition approve_check (row : QueueRow) (actor : string) (a : QueueApproval) (now : Z) (db : admit_db)
  : admit_db * ((string * (QueueRow -> QueueResolution)) + resolve_error) :=
  if (qr_Check row =? QueueAllowList)%string then
    match approveAllowList row actor a (ad_policies db) with
    | (rows, inr err) => (set_policies rows db, inr err)
    | (rows, inl (rule, warning)) =>
        (set_policies rows db,
         inl ("allow-list rule " +:+ r_ID rule, fun r => MkQueueResolution r (Some rule) None [] warning))
    end
  else if (qr_Check row =? QueueProfile)%string then
    match approveProfile row actor (qa_Reason a) now (ad_profiles db) with
    | (pdb, inr err) => (set_profile_db pdb db, inr err)
    | (pdb, inl names) =>
        (set_profile_db pdb db,
         inl ("pinned in profile " +:+ Join names ", ", fun r => MkQueueResolution r None None names ""))
    end
  else
    match approveOverride row actor a now (ad_overrides db) with
    | (odb, inr err) => (set_overrides odb db, inr err)
    | (odb, inl o) =>
        (set_overrides odb db, inl ("override " +:+ o_ID o, fun r => MkQueueResolution r None (Some o) [] ""))
    end.

(** Why the row admits no approval, "" when it does. *)
Definition row_unwaivable (row : QueueRow) : string :=
  if (qr_Check row =? QueueMalware)%string && (qr_Unwaivable row =? "")%string
  then "known malware is never overridden" else qr_Unwaivable row.

Definition ApproveQueued (adb : option admit_db) (id : Z) (actor : string) (a : QueueApproval) (now : Z)
  : option admit_db * (QueueResolution + resolve_error) :=
  match adb with
  | None => (None, inr ResolveNoStore)
  | Some db =>
      let a := MkApproval (TrimSpace (qa_Reason a)) (qa_Expires a) (qa_ConfirmNearPopular a) in
      if (actor =? "")%string then (Some db, inr ResolveNoIdentity)
      else if (qa_Reason a =? "")%string then (Some db, inr ResolveNoReason)
      else
        match GetQueueRow (aw_ParseTime w) (ae_get_fails env) id (ad_queue db) with
        | inr err => (Some db, inr (ResolveQueue err))
        | inl row =>
            if negb (qr_State row =? QueueOpen)%string
            then (Some db, inr (ResolveQueue (ErrQueueRowClosed (qr_State row) (qr_ResolvedBy row))))
            else if negb (row_unwaivable row =? "")%string
            then (Some db, inr (ErrQueueUnwaivable (qr_Check row) (row_unwaivable row)))
            else
              match approve_check row actor a now db with
              | (db, inr err) => (Some (set_queue (ae_meanwhile env (ad_queue db)) db), inr err)
              | (db, inl (resolution, out)) =>
                  let '(q, r) := ResolveQueueRow (aw_ParseTime w) (ae_resolve_fails env) id QueueApproved actor resolution
                                   (qa_Reason a) now (ae_meanwhile env (ad_queue db)) in
                  (Some (set_queue q db),
                   match r with inr err => inr (ResolveQueue err) | inl row => inl (out row) end)
              end
        end
  end.

Definition DismissQueued (adb : option admit_db) (id : Z) (actor reason : string) (now : Z)
  : option admit_db * (QueueRow + resolve_error) :=
  match adb with
  | None => (None, inr ResolveNoStore)
  | Some db =>
      let reason := TrimSpace reason in
      if (actor =? "")%string then (Some db, inr ResolveNoIdentity)
      else if (reason =? "")%string then (Some db, inr ResolveNoReason)
      else
        let '(q, r) := ResolveQueueRow (aw_ParseTime w) (ae_resolve_fails env) id QueueDismissed actor "" reason now (ad_queue db) in
        (Some (set_queue q db), match r with inr err => inr (ResolveQueue err) | inl row => inl row end)
  end.
End approve.

(** The answer of [writeQueueError]: what the caller is told went wrong. *)
Definition override_invalid (err : request_error) : bool :=
  match err with NoAuditStore | NotRecorded _ => false | _ => true end.

Definition writeQueueError (err : resolve_error) : Z :=
  match err with
  | ResolveNoIdentity | ResolveNoReason | ResolveUnknownType _ | RuleNearPopular _ _ _ _ | NoProfileNamed | BadGitEntry _
  | NoApprovalDefined _ => 400
  | OverrideRefused e => if override_invalid e then 400 else 500
  | ResolveQueue ErrQueueRowNotFound => 404
  | ResolveQueue (ErrQueueRowClosed _ _) | ErrQueueUnwaivable _ _ => 409
  | _ => 500
  end.

(** ** What an approval leaves *)

(** The profile's rows of a type never spell one package two ways. *)
Definition one_spelling (db : profile_db) (name typ : string) : Prop :=
  forall n1 n2 e1 e2, db_entries db !! (name, typ, n1) = Some e1 -> db_entries db !! (name, typ, n2) = Some e2 ->
    CanonicalName typ n1 = CanonicalName typ n2 -> n1 = n2.

(** The profile lists what the row was refused for, at its version when it has one. *)
Definition lists_row (row : QueueRow) (db : profile_db) (name : string) : Prop :=
  exists n e, db_entries db !! (name, qr_PkgType row, n) = Some e
    /\ CanonicalName (qr_PkgType row) n = CanonicalName (qr_PkgType row) (qr_PkgName row)
    /\ (qr_PkgVersion row <> "" -> pe_Constraint e = ConstraintExact /\ pe_Version e = qr_PkgVersion row).

Section profile_rows.
Context (row : QueueRow) (actor reason : string) (now : Z) (Htrim : TrimSpace (qr_PkgName row) = qr_PkgName row).

Local Abbreviation typ := (qr_PkgType row).
Local Abbreviation key := (CanonicalName (qr_PkgType row) (qr_PkgName row)).

(** The entry an approval writes is the one the profile has for the package,
    or a new one under the row's name. *)
Lemma approved_entry_place {raced} env db name d :
  profile_tables_ok raced db -> GetProfile env db db db name = inl d ->
  let e := approved_entry row actor reason now name d in
  pe_Profile e = name /\ pe_Type e = typ /\ TrimSpace (pe_Name e) = pe_Name e /\ CanonicalName typ (pe_Name e) = key
  /\ (qr_PkgVersion row <> "" -> pe_Constraint e = ConstraintExact /\ pe_Version e = qr_PkgVersion row)
  /\ (is_Some (db_entries db !! (name, typ, pe_Name e)) \/
      pe_Name e = qr_PkgName row
      /\ forall n x, db_entries db !! (name, typ, n) = Some x -> CanonicalName typ n <> key).
Proof.
  intros Hok Hd e. unfold GetProfile in Hd. destruct (env_read_fails env); [done|].
  destruct (db_profiles db !! name) as [p|]; [|done]. injection Hd as <-. subst e. unfold approved_entry. cbn [pd_Entries].
  destruct (List.find _ _) as [x|] eqn:E.
  - apply find_some in E as [Hin [Ht%String.eqb_eq Hk%String.eqb_eq]%andb_true_iff].
    apply list_elem_of_In, (profileEntries_elem _ Hok) in Hin as [Hin Hp]. rewrite Ht in Hin, Hk.
    destruct (pk_entries _ db Hok _ _ Hin) as (_ & _ & _ & Htr & _).
    destruct (String.eqb_spec (qr_PkgVersion row) "") as [Hv|Hv]; cbn [negb pe_Profile pe_Type pe_Name pe_Constraint pe_Version];
      (do 4 (split; [done|])); (split; [done|by left]).
  - assert (Hno : forall n x, db_entries db !! (name, typ, n) = Some x -> CanonicalName typ n <> key).
    { intros n x Hx Hk. destruct (pk_entries _ db Hok _ _ Hx) as ([= Hp Ht Hn] & _).
      eapply find_none in E; [|apply list_elem_of_In, (profileEntries_elem _ Hok); split; [|by symmetry]; by rewrite <- Ht, <- Hn].
      by rewrite <- Ht, <- Hn, Hk, !String.eqb_refl in E. }
    destruct (String.eqb_spec (qr_PkgVersion row) "") as [Hv|Hv]; cbn [negb pe_Profile pe_Type pe_Name pe_Constraint pe_Version];
      (do 4 (split; [done|])); (split; [done|by right]).
Qed.

(** One profile's turn. *)
Lemma pin_one {raced} get put db name d db' created :
  profile_tables_ok raced db -> GetProfile get db db db name = inl d ->
  PutProfileEntry put db db (approved_entry row actor reason now name d) db = (db', inl created) ->
  profile_tables_ok raced db' /\ lists_row row db' name
  /\ (forall other, lists_row row db other -> lists_row row db' other)
  /\ (forall other, one_spelling db other typ -> one_spelling db' other typ)
  /\ db_types db' = db_types db /\ db_profiles db' = db_profiles db.
Proof.
  intros Hok Hd Hput. destruct (approved_entry_place get db name d Hok Hd) as (Hp & Ht & Htr & Hk & Hv & Hwhere).
  set (e := approved_entry row actor reason now name d) in *.
  assert (Hok' : profile_tables_ok raced db') by (change db' with (db', @inl bool profile_error created).1; rewrite <- Hput, <- (late_same db (pe_Profile (approved_entry row actor reason now name d)) raced); by apply PutProfileEntry_ok).
  unfold PutProfileEntry in Hput. rewrite Htr in Hput. cbn [named pe_Name pe_Profile pe_Type] in Hput.
  unfold settle in Hput. repeat case_match; simplify_eq.
  set (new := insert_entry _ _ _ db) in *.
  assert (Hl : exists e', pe_Constraint e' = pe_Constraint e /\ pe_Version e' = pe_Version e
            /\ db_entries new = <[(pe_Profile e, typ, pe_Name e) := e']> (db_entries db)).
  { eexists (MkEntry _ _ _ _ _ _ _ _ _ _ _ _). unfold new, insert_entry. cbn [named set_entries db_entries pe_Type pe_Name].
    rewrite Ht. split; [|split; [|reflexivity]]; reflexivity. }
  destruct Hl as (e' & Hc' & Hv' & Hl). rewrite Hp in Hl.
  split; [done|]. split; [|split; [|split; [|done]]].
  - exists (pe_Name e), e'. rewrite Hl, lookup_insert_eq. split; [done|]. split; [done|]. by rewrite Hc', Hv'.
  - intros other (n & x & Hx & Hnk & Hnv).
    destruct (decide ((name, typ, pe_Name e) = (other, typ, n))) as [[= <- <-]|Hne].
    + exists (pe_Name e), e'. rewrite Hl, lookup_insert_eq. split; [done|]. split; [done|]. by rewrite Hc', Hv'.
    + exists n, x. by rewrite Hl, lookup_insert_ne by done.
  - intros other Hone n1 n2 e1 e2. rewrite Hl.
    intros [[[= <- <-] _]|[_ He1]]%lookup_insert_Some [[[= <-] _]|[_ He2]]%lookup_insert_Some Hc; [done| | |by eapply Hone].
    + destruct Hwhere as [[x Hx]|[_ Hno]]; [by eapply Hone|]. destruct (Hno _ _ He2). congruence.
    + simplify_eq. destruct Hwhere as [[x Hx]|[_ Hno]]; [by eapply Hone|]. destruct (Hno _ _ He1). congruence.
Qed.

(** All of them. *)
Lemma pin_all {raced} env names done db db' out :
  profile_tables_ok raced db -> pin_profiles env row actor reason now names done db = (db', inl out) ->
  profile_tables_ok raced db' /\ out = done ++ names
  /\ (forall name, name ∈ names -> lists_row row db' name /\ is_Some (db_profiles db' !! name))
  /\ (forall other, lists_row row db other -> lists_row row db' other)
  /\ (forall other, one_spelling db other typ -> one_spelling db' other typ)
  /\ db_types db' = db_types db /\ db_profiles db' = db_profiles db.
Proof.
  revert done db. induction names as [|name names IH]; intros done db Hok; cbn [pin_profiles].
  { intros [= <- <-]. split; [done|]. split; [by rewrite List.app_nil_r|]. split; [by intros ? ?%not_elem_of_nil|done]. }
  destruct (GetProfile (ae_get env name) db db db name) as [d|] eqn:Hd; [|done].
  destruct (PutProfileEntry _ _ _ _ db) as [db1 [created|]] eqn:Hput; [|done]. intros Hrun.
  destruct (pin_one _ _ _ _ _ _ _ Hok Hd Hput) as (Hok1 & Hl1 & Hm1 & Ho1 & Ht1 & Hp1).
  destruct (IH (done ++ [name]) db1 Hok1 Hrun) as (Hok' & -> & Hl & Hm & Ho & Ht & Hp).
  split; [done|]. split; [by rewrite <- List.app_assoc|].
  assert (Hthere : is_Some (db_profiles db' !! name)).
  { rewrite Hp, Hp1. unfold GetProfile in Hd. destruct (env_read_fails _); [done|]. by destruct (db_profiles db !! name). }
  split; [|split; [by auto|split; [by auto|by rewrite Ht, Hp]]].
  intros n [->|Hn]%elem_of_cons; [by auto|by apply Hl].
Qed.

(** What a turn writes: one entry, of the row's package. *)
Definition only_row (names : list string) (db db' : profile_db) : Prop :=
  db_profiles db' = db_profiles db /\ db_types db' = db_types db /\ db_bindings db' = db_bindings db
  /\ forall k, db_entries db' !! k <> db_entries db !! k ->
       exists name n, k = (name, typ, n) /\ name ∈ names /\ CanonicalName typ n = key.

Lemma pin_frame {raced} env names done db db' r :
  profile_tables_ok raced db -> pin_profiles env row actor reason now names done db = (db', r) -> only_row names db db'.
Proof.
  revert done db. induction names as [|name names IH]; intros done db Hok; cbn [pin_profiles].
  { intros [= <- <-]. by do 3 (split; [done|]). }
  destruct (GetProfile (ae_get env name) db db db name) as [d|] eqn:Hd; [|intros [= <- <-]; by do 3 (split; [done|])].
  destruct (approved_entry_place _ _ _ _ Hok Hd) as (Hp & Ht & Htr & Hk & _).
  destruct (PutProfileEntry _ _ _ _ db) as [db1 r1] eqn:Hput.
  assert (Hok1 : profile_tables_ok raced db1) by (change db1 with (db1, r1).1; rewrite <- Hput, <- (late_same db (pe_Profile (approved_entry row actor reason now name d)) raced); by apply PutProfileEntry_ok).
  set (k0 := (name, typ, pe_Name (approved_entry row actor reason now name d))).
  assert (H1 : db_profiles db1 = db_profiles db /\ db_types db1 = db_types db /\ db_bindings db1 = db_bindings db
            /\ forall k, k <> k0 -> db_entries db1 !! k = db_entries db !! k).
  { unfold PutProfileEntry, settle in Hput. rewrite Htr in Hput. repeat case_match; simplify_eq; try (by do 3 (split; [done|])).
    do 3 (split; [done|]). intros k. unfold insert_entry. cbn [set_entries db_entries named pe_Profile pe_Type pe_Name]. rewrite Hp, Ht.
    intros Hne. by rewrite lookup_insert_ne. }
  destruct H1 as (A1 & A2 & A3 & A4).
  assert (Hk0 : forall names, exists x n, k0 = (x, typ, n) /\ x ∈ name :: names /\ CanonicalName typ n = key).
  { intros l. by exists name, (pe_Name (approved_entry row actor reason now name d)); split_and!; [|left|]. }
  destruct r1 as [created|err].
  - intros Hrun. destruct (IH _ _ Hok1 Hrun) as (B1 & B2 & B3 & B4). split; [congruence|]. split; [congruence|]. split; [congruence|].
    intros k Hne. destruct (decide (k = k0)) as [->|E]; [done|]. rewrite <- (A4 k E) in Hne.
    destruct (B4 k Hne) as (x & n & -> & Hx & Hn). exists x, n. split; [done|]. split; [by right|done].
  - intros [= <- <-]. do 3 (split; [done|]). intros k Hne. destruct (decide (k = k0)) as [->|E]; [done|]. by rewrite A4 in Hne.
Qed.

(** A profile that lists the row's package, spelled one way, admits it. *)
Lemma lists_row_admits {raced} env db name d p :
  profile_tables_ok raced db -> one_spelling db name typ -> lists_row row db name ->
  GetProfile env db db db name = inl d -> New (Some d) = Some p ->
  d_Permitted (Covers (Some p) typ (qr_PkgName row)) = true
  /\ (qr_PkgVersion row <> "" -> d_Permitted (Permits (Some p) typ (qr_PkgName row) (qr_PkgVersion row)) = true).
Proof.
  intros Hok Hone (n & e & He & Hk & Hv) Hd [= <-]. unfold GetProfile in Hd. destruct (env_read_fails env); [done|].
  destruct (db_profiles db !! name) as [q|]; [|done]. injection Hd as <-. replace (MkProfileRow _ _ _ _) with q by (by destruct q). change (pd_Name (MkDetail q (profileTypes db name) (profileEntries db name))) with (pr_Name q). cbn [pd_Types pd_Entries].
  set (d := MkDetail q (profileTypes db name) (profileEntries db name)).
  change (MkProfile _ _ _) with (resolved d). set (p := resolved d).
  destruct (pk_entries _ db Hok _ _ He) as ([= Hp Ht Hn] & _).
  assert (Hentry : entry p typ (qr_PkgName row) = Some e).
  { destruct (New_entries d typ) as [H1 H2]. destruct (H2 e) as [x Hx]; [|done|].
    { apply (profileEntries_elem _ Hok). split; [by rewrite <- Ht, <- Hn|done]. }
    rewrite <- Hn in Hx. change (Key typ n) with (CanonicalName typ n) in Hx. rewrite Hk in Hx.
    unfold entry, entries_of, p, resolved. cbn [p_entries]. change (Key typ (qr_PkgName row)) with key. rewrite Hx. f_equal.
    destruct (H1 _ _ Hx) as (Hin & Hxt & Hxk). apply (profileEntries_elem _ Hok) in Hin as [Hin Hxp]. rewrite Hxt in Hin.
    assert (pe_Name x = n) as E by (eapply Hone; [done..|]; by rewrite Hk). rewrite E in Hin. congruence. }
  assert (Hin : forall rule, inside p rule typ (qr_PkgName row) = true) by (intros rule; unfold inside; by rewrite Hentry).
  split.
  - destruct (p_types p !! typ) as [rule|] eqn:Hr; [|by apply (Covers_ungoverned (Some p))].
    destruct (Covers_rule p rule typ (qr_PkgName row) Hr) as (_ & _ & _ & -> & _). by rewrite Hin.
  - intros Hne. destruct (Hv Hne) as [Hc Hver]. apply Permits_admitted. unfold admitted.
    destruct (p_types p !! typ) as [rule|]; [|done]. rewrite Hin, Hentry. unfold version_admitted.
    rewrite Hc, Hver. cbn. right. left. split; [by left|]. unfold same_version. by destruct (typ =? TypeComposer)%string.
Qed.
End profile_rows.

(** ** Approving, step by step *)

Section outcome.
Context (w : admit_world) (env : admit_env).

Lemma ApproveQueued_inl db id actor a now adb' out :
  ApproveQueued w env (Some db) id actor a now = (adb', inl out) ->
  let a' := MkApproval (TrimSpace (qa_Reason a)) (qa_Expires a) (qa_ConfirmNearPopular a) in
  actor <> "" /\ TrimSpace (qa_Reason a) <> "" /\
  exists row db1 resolution mk q r,
    GetQueueRow (aw_ParseTime w) (ae_get_fails env) id (ad_queue db) = inl row
    /\ qr_State row = QueueOpen /\ row_unwaivable row = ""
    /\ approve_check w env row actor a' now db = (db1, inl (resolution, mk))
    /\ ResolveQueueRow (aw_ParseTime w) (ae_resolve_fails env) id QueueApproved actor resolution
         (TrimSpace (qa_Reason a)) now (ae_meanwhile env (ad_queue db1)) = (q, inl r)
    /\ adb' = Some (set_queue q db1) /\ out = mk r.
Proof.
  cbn zeta. unfold ApproveQueued. cbn [qa_Reason].
  destruct (String.eqb_spec actor "") as [|Hactor]; [done|].
  destruct (String.eqb_spec (TrimSpace (qa_Reason a)) "") as [|Hre]; [done|].
  destruct (GetQueueRow _ _ _ _) as [row|] eqn:Hrow; [|done].
  destruct (String.eqb_spec (qr_State row) QueueOpen) as [Hopen|]; [|done]. cbn [negb].
  destruct (String.eqb_spec (row_unwaivable row) "") as [Hw|]; [|done]. cbn [negb].
  destruct (approve_check _ _ _ _ _ _ _) as [db1 [[resolution mk]|]] eqn:Hc; [|done].
  destruct (ResolveQueueRow _ _ _ _ _ _ _ _ _) as [q [r|]] eqn:Hres; [|done].
  intros [= <- <-]. split; [done|]. split; [done|]. by exists row, db1, resolution, mk, q, r.
Qed.

Lemma row_unwaivable_none row : row_unwaivable row = "" <-> qr_Unwaivable row = "" /\ qr_Check row <> QueueMalware.
Proof.
  unfold row_unwaivable. destruct (String.eqb_spec (qr_Check row) QueueMalware) as [E|E], (String.eqb_spec (qr_Unwaivable row) "") as [U|U];
    cbn [andb]; naive_solver.
Qed.

Lemma approve_check_other row actor a now db db' r :
  approve_check w env row actor a now db = (db', r) ->
  ad_queue db' = ad_queue db
  /\ (qr_Check row <> QueueAllowList -> ad_policies db' = ad_policies db)
  /\ (qr_Check row <> QueueProfile -> ad_profiles db' = ad_profiles db)
  /\ (qr_Check row = QueueAllowList \/ qr_Check row = QueueProfile -> ad_overrides db' = ad_overrides db).
Proof.
  unfold approve_check. destruct (String.eqb_spec (qr_Check row) QueueAllowList) as [E|E];
    [|destruct (String.eqb_spec (qr_Check row) QueueProfile) as [E'|E']]; intros H; repeat case_match; simplify_eq;
    (split; [done|]); (split; [done|]); (split; [done|]); naive_solver.
Qed.

Lemma approve_check_mk row actor a now db db' resolution mk :
  approve_check w env row actor a now db = (db', inl (resolution, mk)) -> forall r, qn_Row (mk r) = r.
Proof. unfold approve_check. intros H r. repeat case_match; by simplify_eq. Qed.

Lemma approve_check_profile row actor a now db db' resolution mk :
  qr_Check row = QueueProfile -> approve_check w env row actor a now db = (db', inl (resolution, mk)) ->
  exists names, approveProfile w env row actor (qa_Reason a) now (ad_profiles db) = (ad_profiles db', inl names)
    /\ mk = fun r => MkQueueResolution r None None names "".
Proof.
  intros E. unfold approve_check. rewrite E. change (QueueProfile =? QueueAllowList)%string with false.
  change (QueueProfile =? QueueProfile)%string with true. cbv iota.
  destruct (approveProfile _ _ _ _ _ _ _) as [pdb [names|]] eqn:Hp; [|done]. intros [= <- _ <-]. by exists names.
Qed.

Lemma approveProfile_runs row actor reason now db db' r :
  approveProfile w env row actor reason now db = (db', r) ->
  (db' = db /\ exists err, r = inr err)
  \/ qr_Profiles row <> [] /\ IsKnownType (qr_PkgType row) = true
     /\ pin_profiles env row actor reason now (qr_Profiles row) [] db = (db', r).
Proof.
  unfold approveProfile. destruct (length (qr_Profiles row) =? 0)%nat eqn:El; [intros [= <- <-]; left; by eauto|].
  destruct (IsKnownType _); [|intros [= <- <-]; left; by eauto]. cbn [negb].
  match goal with |- match ?x with Some _ => _ | None => _ end = _ -> _ => destruct x end; [intros [= <- <-]; left; by eauto|].
  intros H. right. split; [intros E; by rewrite E in El|done].
Qed.
End outcome.

(** Approving a row a profile refused makes every profile the row names admit
    the package, at the version it was refused at when there is one, when that
    profile spells the package one way; a row approved names a profile. *)
Theorem approved_profile_row_permits w env past raced db id actor a now db' out row :
  profile_run past raced (ad_profiles db) ->
  GetQueueRow (aw_ParseTime w) (ae_get_fails env) id (ad_queue db) = inl row -> qr_Check row = QueueProfile ->
  TrimSpace (qr_PkgName row) = qr_PkgName row ->
  ApproveQueued w env (Some db) id actor a now = (Some db', inl out) ->
  qr_Profiles row <> [] /\ qn_Profiles out = qr_Profiles row
  /\ forall name, name ∈ qr_Profiles row -> one_spelling (ad_profiles db) name (qr_PkgType row) ->
     exists d p, (forall read, env_read_fails read = false -> GetProfile read (ad_profiles db') (ad_profiles db') (ad_profiles db') name = inl d) /\ New (Some d) = Some p
       /\ d_Permitted (Covers (Some p) (qr_PkgType row) (qr_PkgName row)) = true
       /\ (qr_PkgVersion row <> "" ->
            d_Permitted (Permits (Some p) (qr_PkgType row) (qr_PkgName row) (qr_PkgVersion row)) = true).
Proof.
  intros Hr Hrow Hcheck Htrim Happ.
  apply ApproveQueued_inl in Happ as (_ & _ & row' & db1 & resolution & mk & q & r & Hrow' & _ & _ & Hc & _ & [= ->] & ->).
  rewrite Hrow in Hrow'. injection Hrow' as <-.
  apply approve_check_profile in Hc as (names & Hp & ->); [|done]. apply approveProfile_runs in Hp as [[_ [? [=]]]|(Hne & _ & Hp)].
  cbn [qa_Reason] in Hp. apply run_tables_ok in Hr as Hok.
  destruct (pin_all row actor (TrimSpace (qa_Reason a)) now Htrim env _ _ _ _ _ Hok Hp) as (Hok' & Hn & Hl & _ & Ho & _).
  cbn [qn_Profiles set_queue ad_profiles]. split; [done|]. split; [by rewrite Hn|].
  intros name Hin Hone. destruct (Hl name Hin) as [Hlist [q0 Hq0]].
  set (d := MkDetail q0 (profileTypes (ad_profiles db1) name) (profileEntries (ad_profiles db1) name)).
  assert (Hget : forall read, env_read_fails read = false -> GetProfile read (ad_profiles db1) (ad_profiles db1) (ad_profiles db1) name = inl d).
  { intros read Hf. unfold GetProfile. rewrite Hf, Hq0. by destruct q0. }
  exists d, (resolved d). split; [done|]. split; [done|].
  eapply (lists_row_admits row); [done|by apply Ho|done|by apply (Hget (MkEnv false false false 0))|done].
Qed.

(** What an approval of a row may have written, whether it succeeded or failed
    part of the way. *)
Record only_the_row (row : QueueRow) (actor : string) (db db' : admit_db) : Prop := {
  or_rules : ad_policies db' = ad_policies db \/
    qr_Check row = QueueAllowList /\ exists rule, ad_policies db' = ad_policies db ++ [rule]
      /\ r_RegistryType rule = qr_PkgType row /\ r_CreatedBy rule = actor
      /\ r_Pattern rule = (if (qr_Pattern row =? "")%string then qr_PkgName row else qr_Pattern row);
  or_overrides : ad_overrides db' = ad_overrides db \/
    (qr_Check row ∉ [QueueAllowList; QueueProfile; QueueMalware]) /\ exists o, ad_overrides db !! o_ID o = None
      /\ ad_overrides db' = <[o_ID o := o]> (ad_overrides db)
      /\ o_PkgType o = qr_PkgType row /\ o_PkgName o = qr_PkgName row /\ o_PkgVersion o = qr_PkgVersion row
      /\ o_Check o = qr_Check row /\ o_RequestedBy o = actor /\ o_State o = OverridePending /\ o_Votes o = [];
  or_profiles : ad_profiles db' = ad_profiles db \/
    qr_Check row = QueueProfile /\ only_row row (qr_Profiles row) (ad_profiles db) (ad_profiles db')
}.

Lemma approveAllowList_frame w env row actor a rows rows' r :
  approveAllowList w env row actor a rows = (rows', r) ->
  let pattern := if (qr_Pattern row =? "")%string then qr_PkgName row else qr_Pattern row in
  rows' = rows \/ exists rule, rows' = rows ++ [rule] /\ r_RegistryType rule = qr_PkgType row /\ r_CreatedBy rule = actor
      /\ r_Pattern rule = pattern.
Proof.
  cbn zeta. unfold approveAllowList. destruct (ValidateType _) as [[t]|]; [intros [= <- _]; by left|].
  set (pattern := if (qr_Pattern row =? "")%string then _ else _).
  destruct (FindPolicy _ _ _ _ _) as [[existing|]|]; [intros [= <- _]; by left| |intros [= <- _]; by left].
  assert (H : forall warning, (let rule := AllowList.MkRule (ae_rule_id env) (qr_PkgType row) (RuleKindForType (qr_PkgType row)) pattern
                                 (queue_reason row (qa_Reason a)) zero_time actor in
              match InsertPolicy (ae_insert_fails env) (ae_clock env) rule rows with
              | (rows, inr err) => (rows, inr (RuleStore err))
              | (rows, inl _) => (rows, inl (rule, warning))
              end) = (rows', r) ->
            rows' = rows \/ exists rule, rows' = rows ++ [rule] /\ r_RegistryType rule = qr_PkgType row /\ r_CreatedBy rule = actor
              /\ r_Pattern rule = pattern).
  { intros warning. cbv zeta. destruct (InsertPolicy _ _ _ _) as [rows1 [[]|err]] eqn:E.
    - apply InsertPolicy_inl in E as (rule & -> & Hk & _ & _ & Hc & _). intros [= <- _]. right. exists rule.
      unfold policy_key in Hk. cbn [r_RegistryType r_RuleKind r_Pattern r_CreatedBy] in *. injection Hk as ? ? ?. by split_and!.
    - unfold InsertPolicy in E. repeat case_match; simplify_eq; intros [= <- _]; by left. }
  destruct (ConfirmNearPopular _ _ _ _ _ _); [apply H..|intros [= <- _]; by left].
Qed.

Lemma approveOverride_frame w env row actor a now db db' r :
  actor <> "" -> approveOverride w env row actor a now db = (db', r) ->
  db' = db \/ qr_Check row <> QueueMalware /\ exists o, r = inl o /\ db !! o_ID o = None /\ db' = <[o_ID o := o]> db
      /\ o_PkgType o = qr_PkgType row /\ o_PkgName o = qr_PkgName row /\ o_PkgVersion o = qr_PkgVersion row
      /\ o_Check o = qr_Check row /\ o_RequestedBy o = actor /\ o_State o = OverridePending /\ o_Votes o = [].
Proof.
  intros Hactor. unfold approveOverride. destruct (negb _ && negb _) eqn:Hcheck; [intros [= <- _]; by left|].
  destruct (ae_list_fails env); [intros [= <- _]; by left|].
  destruct (List.find _ _) as [[[o st] n]|]; [intros [= <- _]; by left|].
  destruct (RequestOverride _ _ _ _ _ _ _ _) as [adb' [o|err]] eqn:E.
  - intros [= <- <-]. right. split.
    + intros Em. rewrite Em in Hcheck. by vm_compute in Hcheck.
    + exists o. split; [done|]. apply RequestOverride_inl in E as (expires & -> & Hn & [= ->]). by split_and!.
  - intros [= <- _]. left. unfold RequestOverride in E. repeat case_match; by simplify_eq.
Qed.

(** C20: An approval goes ahead only for an open row whose newest refusal could be
    waived, in the name of an identity and with a reason; then, succeed or fail,
    all it can have written is what that row's check calls for: one allow-list
    rule of the row's own type and pattern, one override request for the row's
    version and check that is pending with no votes, so that nothing applies
    until others vote, or entries for the row's package in the profiles that
    refused it.  Anything else it is asked changes nothing. *)
Theorem approval_is_contained w env past raced db id actor a now db' r :
  profile_run past raced (ad_profiles db) ->
  (forall row, GetQueueRow (aw_ParseTime w) false id (ad_queue db) = inl row -> TrimSpace (qr_PkgName row) = qr_PkgName row) ->
  ApproveQueued w env (Some db) id actor a now = (Some db', r) ->
  match GetQueueRow (aw_ParseTime w) (ae_get_fails env) id (ad_queue db) with
  | inl row =>
      if bool_decide (qr_State row = QueueOpen /\ qr_Unwaivable row = "" /\ qr_Check row <> QueueMalware
                      /\ actor <> "" /\ TrimSpace (qa_Reason a) <> "")
      then only_the_row row actor db db'
           /\ match r with
              | inl out => qr_State (qn_Row out) = QueueApproved /\ qr_ResolvedBy (qn_Row out) = actor
                           /\ qr_ResolutionReason (qn_Row out) = TrimSpace (qa_Reason a)
              | inr _ => True
              end
      else db' = db /\ exists err, r = inr err
  | inr err => db' = db /\ exists err, r = inr err
  end.
Proof.
  intros Hr Htrim. unfold ApproveQueued. cbn [qa_Reason].
  assert (Hnone : forall err : resolve_error, (Some db, @inr QueueResolution _ err) = (Some db', r) -> db' = db /\ exists err, r = inr err)
    by (intros err [= <- <-]; split; [done|by exists err]).
  destruct (GetQueueRow (aw_ParseTime w) (ae_get_fails env) id (ad_queue db)) as [row|qerr] eqn:Hrow;
    [|destruct (actor =? "")%string; [apply Hnone|]; destruct (TrimSpace _ =? "")%string; apply Hnone].
  destruct (String.eqb_spec actor "") as [|Hactor]; [rewrite bool_decide_eq_false_2 by tauto; apply Hnone|].
  destruct (String.eqb_spec (TrimSpace (qa_Reason a)) "") as [|Hre]; [rewrite bool_decide_eq_false_2 by tauto; apply Hnone|].
  destruct (String.eqb_spec (qr_State row) QueueOpen) as [Hopen|]; cbn [negb];
    [|rewrite bool_decide_eq_false_2 by tauto; apply Hnone].
  pose proof (row_unwaivable_none row) as Hun. destruct (String.eqb_spec (row_unwaivable row) "") as [Hw|Hw]; cbn [negb];
    [|rewrite bool_decide_eq_false_2 by tauto; apply Hnone]. apply Hun in Hw as [Hw Hm]. rewrite bool_decide_eq_true_2 by tauto.
  set (a' := MkApproval _ _ _). destruct (approve_check w env row actor a' now db) as [db1 res] eqn:Hc.
  assert (Honly : forall q, only_the_row row actor db (set_queue q db1)).
  { intros q. unfold approve_check in Hc.
    destruct (String.eqb_spec (qr_Check row) QueueAllowList) as [E|E]; [|destruct (String.eqb_spec (qr_Check row) QueueProfile) as [E'|E']].
    - destruct (approveAllowList _ _ _ _ _ _) as [rows x] eqn:Hx. apply approveAllowList_frame in Hx.
      assert (db1 = set_policies rows db) as -> by (by destruct x as [[]|]; simplify_eq).
      split; [cbn; tauto|by left|by left].
    - destruct (approveProfile _ _ _ _ _ _ _) as [pdb x] eqn:Hx.
      assert (db1 = set_profile_db pdb db) as -> by (by destruct x; simplify_eq).
      split; [by left|by left|]. cbn [set_queue set_profile_db ad_profiles].
      apply approveProfile_runs in Hx as [[-> _]|(_ & _ & Hx)]; [by left|right]. split; [done|].
      apply run_tables_ok in Hr. eapply pin_frame; [|done|exact Hx]. apply Htrim. by destruct (ae_get_fails env).
    - destruct (approveOverride _ _ _ _ _ _ _) as [odb x] eqn:Hx. apply approveOverride_frame in Hx; [|done].
      assert (db1 = set_overrides odb db) as -> by (by destruct x; simplify_eq).
      split; [by left| |by left]. cbn [set_queue set_overrides ad_overrides]. destruct Hx as [->|(_ & o & _ & Ho)]; [by left|right].
      split; [by rewrite !elem_of_cons, elem_of_nil; naive_solver|by exists o]. }
  destruct res as [[resolution mk]|err].
  - destruct (ResolveQueueRow _ _ _ _ _ _ _ _ _) as [q res] eqn:Hres. intros [= <- <-]. split; [done|].
    destruct res as [row'|]; [|done]. apply ResolveQueueRow_inl in Hres as (_ & _ & x & _ & _ & -> & _).
    by rewrite (approve_check_mk _ _ _ _ _ _ _ _ _ _ Hc).
  - intros [= <- <-]. by split.
Qed.

(** ** The rule a row becomes *)






(** ** Witnesses *)

Definition quiet_world (path : string) : admit_world :=
  MkAdmitWorld no_times (fun _ => None) (fun _ => Some path) (MkConfig "" 0) ∅ (fun s => s) (fun _ => None) None
    (fun _ _ _ => None) (fun l => l) (fun l => l).

Definition quiet_env : admit_env :=
  MkAdmitEnv false false false false false (fun _ => quiet) (fun _ => quiet) "rule-1" "override-1" 9 (fun q => q).

Definition ask_why : QueueApproval := MkApproval " needed for web " "" "".

(** django 5.0 refused by the profile, which pins 4.2.11; a Go module and a
    repository behind a port refused by the allow-list; and a young package. *)
Definition django_5 : QueueRefusal := MkRefusal "pypi" "Django" "5.0" QueueProfile "" "pinned" "" "web" "i1" "web01" "10.0.0.1".
Definition go_foo : QueueRefusal := MkRefusal "gomod" "example.com/foo" "1.0" QueueAllowList "example.com/foo" "" "" "" "i2" "web01" "10.0.0.1".
Definition old_age : QueueRefusal := MkRefusal "pypi" "left-pad" "1.0" QueueAge "" "" "" "" "i3" "web01" "10.0.0.1".
Definition bad_pkg : QueueRefusal := MkRefusal "npm" "evil" "1.0" QueueMalware "" "" "" "" "i4" "web01" "10.0.0.1".

Definition waiting : admit_db :=
  MkAdmitDB (foldl (fun q f => (RecordRefusal false f 5 q).1) empty_queue [django_5; go_foo; old_age; bad_pkg]) [] ∅ web_db.

Definition approve_waiting (id : Z) : option admit_db * (QueueResolution + resolve_error) :=
  ApproveQueued (quiet_world "") quiet_env (Some waiting) id "ann" ask_why 50.

Definition no_row : QueueRow := scanQueueRow no_times [] (new_record 0 django_5 "").

Definition approved_1 : admit_db * QueueResolution :=
  match approve_waiting 1 with (Some db, inl out) => (db, out) | _ => (waiting, MkQueueResolution no_row None None [] "") end.
Definition approved_2 : admit_db * QueueResolution :=
  match approve_waiting 2 with (Some db, inl out) => (db, out) | _ => (waiting, MkQueueResolution no_row None None [] "") end.

Definition waiting_row (id : Z) : QueueRow :=
  match GetQueueRow no_times false id (ad_queue waiting) with inl r => r | inr _ => no_row end.

Example approvals :
  map (fun id => match (approve_waiting id).2 with
                 | inl out => inl (qr_Resolution (qn_Row out))
                 | inr e => inr (writeQueueError e)
                 end) [1; 2; 3; 4; 5]
  = [inl "pinned in profile web"; inl "allow-list rule rule-1"; inl "override override-1"; inr 409; inr 404].
Proof. vm_compute. reflexivity. Qed.

Lemma one_spelling_web : one_spelling web_db "web" "pypi".
Proof.
  intros n1 n2 e1 e2 H1 H2 _.
  assert (E : map fst (map_to_list (db_entries web_db)) = [("web", "pypi", "django")]) by (vm_compute; reflexivity).
  assert (Hn : forall n e, db_entries web_db !! ("web", "pypi", n) = Some e -> n = "django").
  { intros n e He. apply elem_of_map_to_list, (list_elem_of_fmap_2 fst) in He. change (map fst ?l) with (fst <$> l) in E.
    rewrite E in He. by apply list_elem_of_singleton in He as [= <-]. }
  by rewrite (Hn _ _ H1), (Hn _ _ H2).
Qed.

Lemma approved_profile_row_permits_witness :
  exists d p, GetProfile quiet (ad_profiles approved_1.1) (ad_profiles approved_1.1) (ad_profiles approved_1.1) "web" = inl d /\ New (Some d) = Some p
    /\ d_Permitted (Permits (Some p) "pypi" "Django" "5.0") = true.
Proof.
  destruct (approved_profile_row_permits (quiet_world "") quiet_env [web_db; no_profiles] ∅ waiting 1 "ann" ask_why 50 approved_1.1 approved_1.2 (waiting_row 1))
    as (_ & _ & H); [exact web_db_run|vm_compute; reflexivity|vm_compute; reflexivity|vm_compute; reflexivity|vm_compute; reflexivity|].
  destruct (H "web") as (d & p & Hd & Hp & _ & Hv); [vm_compute; left|exact one_spelling_web|].
  exists d, p. split; [apply Hd; reflexivity|]. split; [exact Hp|]. apply Hv. vm_compute. discriminate.
Defined.


Lemma approval_is_contained_witness :
  only_the_row (waiting_row 2) "ann" waiting approved_2.1 /\ qr_State (qn_Row approved_2.2) = QueueApproved.
Proof.
  pose proof (approval_is_contained (quiet_world "") quiet_env [web_db; no_profiles] ∅ waiting 2 "ann" ask_why 50 approved_2.1 (inl approved_2.2)
    web_db_run) as H.
  assert (E : GetQueueRow (aw_ParseTime (quiet_world "")) (ae_get_fails quiet_env) 2 (ad_queue waiting) = inl (waiting_row 2))
    by (vm_compute; reflexivity).
  rewrite E in H. assert (Hb : bool_decide (qr_State (waiting_row 2) = QueueOpen /\ qr_Unwaivable (waiting_row 2) = ""
    /\ qr_Check (waiting_row 2) <> QueueMalware /\ "ann" <> "" /\ TrimSpace (qa_Reason ask_why) <> "") = true) by (vm_compute; reflexivity).
  rewrite Hb in H. destruct H as (H1 & H2 & _).
  - intros row Hrow. vm_compute in Hrow. injection Hrow as <-. vm_compute. reflexivity.
  - vm_compute. reflexivity.
  - split; [exact H1|exact H2].
Defined.

(** A Go module's rule is a prefix: approving one module admits every module
    whose path starts with its path. *)
Example gomod_rule_is_a_prefix :
  queuePattern (fun _ => None) (fun _ => None) TypeGomod "" "example.com/foo" "example.com/foo" = "example.com/foo"
  /\ matchRule (fun _ => None) String.eqb TypeGomod (rule_for TypeGomod "example.com/foo") "example.com/foobar/evil" = true.
Proof. split; vm_compute; reflexivity. Qed.

(** The pattern of an upstream with a port is its host without the port, which
    no candidate with the port starts with: the row is approved and the next
    fetch refused again. *)
Definition with_port : string := "https://git.example.com:8443/org/repo".

Definition parse_with_port (s : string) : option ParsedURL :=
  if (s =? with_port)%string then Some (MkParsed "https" "git.example.com:8443" "git.example.com" "/org/repo" None) else None.

Example port_is_lost :
  let pattern := queuePattern parse_with_port (fun _ => Some "/org/repo") TypeGit with_port with_port "repo" in
  pattern = "git.example.com/org/"
  /\ matchRule parse_with_port String.eqb TypeGit (rule_for TypeGit pattern) with_port = false.
Proof. split; vm_compute; reflexivity. Qed.

(** The row may be dismissed between the read and the resolution: the approval
    fails, and what it wrote stays. *)
Definition dismissed_meanwhile : admit_env :=
  MkAdmitEnv false false false false false (fun _ => quiet) (fun _ => quiet) "rule-1" "override-1" 9
    (fun q => (ResolveQueueRow no_times false 2 QueueDismissed "bob" "" "no" 49 q).1).

Example dismissed_and_admitted :
  match ApproveQueued (quiet_world "") dismissed_meanwhile (Some waiting) 2 "ann" ask_why 50 with
  | (Some db, inr (ResolveQueue (ErrQueueRowClosed state by_))) =>
      state = QueueDismissed /\ by_ = "bob" /\ map r_Pattern (ad_policies db) = ["example.com/foo"]
  | _ => False
  end.
Proof. vm_compute. by split_and!. Qed.

(** Two spellings of one package: the first is pinned and the last is the one the
    profile goes by. *)
Definition spelt_twice : profile_db :=
  (CreateProfileWith quiet (MkProfileRow "web" "" "" 0) [web_rule TypePypi MembershipClosed VersionPinned ExpansionBlock]
     [web_entry TypePypi "Django" "" "4.2.11"; web_entry TypePypi "django" "" "4.2.11"] no_profiles).1.

Example spelt_twice_refused :
  match ApproveQueued (quiet_world "") quiet_env (Some (set_profile_db spelt_twice waiting)) 1 "ann" ask_why 50 with
  | (Some db, inl out) =>
      qn_Profiles out = ["web"]
      /\ (match GetProfile quiet (ad_profiles db) (ad_profiles db) (ad_profiles db) "web" with
          | inl d => d_Permitted (Permits (New (Some d)) "pypi" "Django" "5.0")
          | inr _ => true
          end) = false
  | _ => False
  end.
Proof. vm_compute. by split. Qed.
